(* ===== verification/_CoqProject ===== *)
-Q . S2P
Prelude.v
Crc32.v
Ip4Addr.v
LwipStr.v
Ip4Hdr.v
Hal.v
SimDevice.v
QspiFlash.v
QspiReliable.v
Metadata.v
MetaLayout.v
Net.v
SimNet.v
Ota.v
OtaRecv.v
OtaPoll.v
OtaFlash.v
OtaSystem.v
Restore.v
Boot.v
VersionCheck.v
Menu.v
CoreDelay.v
Timeouts.v
Ethernetif.v
LwipMem.v
Pbuf.v
PbufCopy.v
Chksum.v
Memp.v
Etharp.v
Ip4Reass.v
ReassOk.v
SimReass.v
ReassSpec.v
ReassRun.v
Ip4Frag.v
FragOk.v
SimFrag.v
FragRound.v
Ip4.v
Icmp.v
Ip4Ok.v
Ip4Run.v
Ip4Round.v
SimIp4.v
Tcp.v
TcpIn.v
TcpRcv.v
TcpStream.v
SimTcp.v
TcpSpec.v
TcpSend.v
TcpWrite.v
TcpTx.v
TcpHdr.v
TcpPort.v
TcpAlloc.v
UdpPcb.v
Netif.v
NetifRun.v
Udp.v
TcpDemux.v
TcpConnect.v
TcpConn.v
TcpFlow.v
TcpPair.v
TcpTimers.v
TcpOta.v
