(* ===== verification/Prelude.v ===== *)
(** * Verification of the STM32H743 Ethernet OTA bootloader

    This library models the bootloader of the repository as executable Rocq functions
    and proves what makes its components correct.  This file is its root: it holds the
    overview below, then what all files share.  Paths are relative to
    src/STM32/Bootloader/User.

    ** The program

    A PC sends a firmware image over TCP (ota/ota.c).  The image is received into SRAM,
    checked by its CRC-32 (crc32/crc32.c), staged in a W25Q256 NOR flash behind the
    QSPI controller (flash/bsp_qspi_flash.c), read back and checked again; when the user
    confirms, the old application in flash Bank2 is copied to a backup area of the NOR
    flash and the new one is programmed.  A record in flash sector 1
    (metadata/metadata.c), shared with the application, holds the state of the update.
    At the next boot (main.c, menu/menu.c) the application is started under a watchdog;
    if it hangs the backup is brought back.  The serial menu (menu/menu.c) also asks the PC
    for its version (version_check/version_check.c), makes backups and restores them.  The
    network is lwIP 2.0.3 without an operating system: a driver (APP/ethernetif.c,
    BSP/LAN8720A) fills pbufs, the main loop polls the driver and the lwIP timers.

    ** How the code is modelled

    A C function is a computation [M S A := S -> A * S] on an explicit state: the statics
    of its file together with the device or the stack underneath.  C integers are [Z] with
    their wrap-around written out ([u8], [u16], [u32], [+%], [-%]); memories are functions
    from addresses to bytes.  What is not in the repository is a class of operations: the
    HAL and the two flash memories ([HalOps], [HalView] in Hal, with the documented
    behaviour [HalLaws]), the Ethernet MAC ([EthHal] in Ethernetif), keys, frames and time
    ([Console] in Menu, [TimerEnv] in Timeouts).  HAL calls may fail at any time, so
    the theorems about what a function has done hold for every pattern of failures;
    [reliable] singles out devices whose calls succeed, for the theorems that say a
    function does succeed.  SimDevice and SimNet implement the classes and carry the witnesses.
    Most of lwIP is modelled from its sources: pbufs and memory management, timers, ARP and
    the Ethernet layer, IP with reassembly and fragmentation, ICMP, UDP, and TCP connections.
    Each layer sees the one below through a class of operations with laws, so that it is
    proved on its own; the application sees TCP as the class [TcpApi] in Net, which TcpOta
    implements by the model of TCP.  In Pbuf and LwipMem a function is undefined ([None])
    where the C code would follow a bad pointer, and the theorems show that it is defined.

    ** Files

    - Prelude: words, bytes, memories, [M], loops and their [wp] rules (this file).
    - Crc32 (crc32/crc32.c and the bitwise loop of ota.c): the two CRC computations are
      equal; errors within four bytes are detected.
    - Ip4Addr (lwIP core/ipv4/ip4_addr.c, core/def.c): printing and parsing of addresses
      are inverse; valid masks.  LwipStr (core/def.c): searching, comparing and printing.
    - Hal, SimDevice: the hardware interface and an implementation of it.
    - QspiFlash, QspiReliable (flash/bsp_qspi_flash.c): what reads, writes and erases do,
      page by page; erase, write and read give the data back; success without faults.
    - Metadata, MetaLayout (metadata/): the 64-byte record, its round trip through the
      flash, and the fields that ota.c and menu.c use but metadata.h does not declare.
    - Net, SimNet: the raw API of lwIP as the application uses it, and an implementation.
    - Ota (ota/ota.c): callbacks and state.  OtaRecv: the receive buffer is never overrun,
      and the verdict on a connection does not depend on how TCP cuts the stream.
      OtaPoll: only an image whose staged copy has the announced CRC reaches CONFIRM.
      OtaFlash: [OTA_Flash_Write], which never leaves Bank2 changed without a complete
      backup.  OtaSystem: the entry points as a transition system, its
      invariant and transitions, and the integrity of an installed image whatever the
      network does while the user is asked.
    - Restore (menu/menu.c, keys 3 and 4): backup and restore.
    - Boot (menu/menu.c, main.c): the boot decision, watchdog and rollback; an update
      that hangs is undone.
    - VersionCheck (version_check/): the query and its parser, independent of segmentation.
    - Menu (menu/menu.c, main.c): the main loop keeps the receive state well formed, and
      without the user's consent never changes the application.
    - CoreDelay (delay/core_delay.c): busy waits and the millisecond tick.
    - Timeouts (lwIP core/timeouts.c): the delta list as a list of deadlines; a check calls
      what is due, in order, and the timers that restart themselves drift within bounds.
    - Ethernetif (APP/ethernetif.c, APP/app_ethernet.c, BSP/LAN8720A): PHY, link and
      frames.
    - LwipMem (lwIP core/mem.c): the heap as a list of blocks; allocation, freeing and
      trimming touch only the block they are about.
    - Pbuf (lwIP core/pbuf.c): chains of buffers as byte lists.  PbufCopy: copies of a chain
      into one buffer, and memory as it is after writes at offsets.
    - Chksum (core/inet_chksum.c): the checksum routines compute RFC 1071, and what a check
      of it accepts.
    - Memp (lwIP core/memp.c): the pools; with mem.c they implement the allocators of Pbuf, so
      that a chain from the pool, once freed, is given back to the last buffer.
    - Etharp (lwIP core/ipv4/etharp.c, netif/ethernet.c): the ARP table, its
      invariant, the ownership of queued packets, expiry, and the one-entry cache.
    - Ip4Hdr (prot/ip4.h, netif.h): header fields in memory order and interfaces.
    - Ip4Reass (core/ipv4/ip4_frag.c): reassembly.  ReassOk: the laws of what it calls and
      the invariant of the queue.  ReassSpec: what one fragment does.  ReassRun: fragments
      and ticks as steps; delivery, expiry, and the duplicate that is freed twice.
    - Ip4Frag, FragOk (same file): fragmentation sends exactly the slices of the datagram and
      gives back every buffer.  FragRound: fragments in any order reassemble to it.
    - Ip4, Ip4Ok (core/ipv4/ip4.c): input, routing and output; which packets reach which
      protocol.  Ip4Run: nothing but what a peer sent is delivered.  Ip4Round: what one host
      sends, the other receives once, whatever the MTU and the order of the fragments.
    - Icmp (core/ipv4/icmp.c): which messages are answered, and the bytes of echo replies and
      error messages.
    - UdpPcb (core/udp.c): the blocks and their ports; no two have the same end point.  Udp
      (same file): who gets a datagram; what one stack sends another delivers.
    - Netif (core/netif.c): the list of interfaces, their addresses and flags, and who is
      told of a change.  NetifRun (with APP/app_ethernet.c): after a change of address no connection,
      listener or UDP block keeps the old one, only blocks in TIME_WAIT do; how [Netif_Config] leaves the interface.
    - SimReass, SimFrag, SimIp4: implementations of the classes of the IP layer.
    - Tcp, TcpIn (core/tcp.c, tcp_out.c, tcp_in.c): the control block of one connection,
      output, input, the state machine and the timers.  TcpRcv: the bytes given to the
      application are the stream of the peer, in order.  TcpStream, TcpConn: the invariant of
      a connection over segments, timers and calls of the application.  TcpSpec: single
      operations against their specification.  TcpSend: the send queues.  SimTcp: a
      connection to run.
    - TcpHdr (prot/tcp.h, tcp_out.c, [tcp_input]): the header as bytes; what is built is read
      back.  TcpDemux ([tcp_input]): which connection a segment belongs to.
    - TcpPort (core/tcp.c): binding, listening and the choice of ports.  TcpConnect
      ([tcp_connect]): the active open.  TcpAlloc ([tcp_alloc], [tcp_kill_prio] and the like):
      the pool of blocks, which of them gives way when it is empty, and the change of the
      interface's address.
    - TcpWrite ([tcp_write]): the bytes of the application as segments.  TcpTx: what the send
      queues hold is the stream that was written, as long as the application writes and closes
      only while the end of the queue is the end of the stream - a fast retransmission that
      waits there makes [tcp_write] misplace the bytes ([write_after_rexmit]).  TcpFlow: that
      over all events of a connection.  TcpPair: two connections and a network between them.
    - TcpTimers ([tcp_slowtmr], [tcp_fasttmr]): the timers' walks over all connections, which
      the application may change meanwhile: whose timers are run, exactly which connections go
      and how some can be lost; keep-alive and polling.
    - TcpOta: ota.c on a connection of Tcp.

    ** How the parts meet

    OtaPoll, OtaFlash and Boot are proved from the theorems of QspiFlash and Metadata,
    never from their definitions; OtaSystem joins receiving, staging and installing;
    Boot joins installing and booting; Menu runs all of it.  Etharp is proved against the
    class [PbufApi], which the functions of Pbuf implement; Pbuf against
    [PbufAlloc] with its laws, which Memp discharges for the pools and the heap.
    Ip4 calls [ip4_reass] and [ip4_frag] themselves; Ip4Ok and Ip4Round are proved from
    [ip4_reass_spec] and [ip4_frag_spec] and the laws [ReassLaws], [FragLaws], [Ip4Laws] and
    [Ip4OutLaws] of what is above and below.  TcpOta instantiates both sides: the callbacks
    of Ota are the application of TcpConn, and the functions of Tcp are the raw API of Ota,
    so that the verdict of the receiver depends on the stream of the peer alone.  TcpPair
    joins TcpFlow, which says what a connection sends, to TcpConn, which says what one makes of
    the stream of its peer.  TcpDemux works on the end points of TcpPort and needs what
    [tcp_bind] keeps, that no two of them answer for one packet.  Icmp and Udp work on the
    memory of Pbuf; NetifRun runs Netif over TcpAlloc and UdpPcb.  Udp reports unreachable ports through Icmp, and Icmp checks messages by
    Chksum.

    ** Fuel

    Loops over machine state that the code bounds by a counter take that counter.  The loops
    over a pbuf chain take one more than the number of pbufs and the scans of the heap its
    size in bytes (a block has at least 20); theorems that a function returns [Some] show
    that this is enough.  The loop of [ip4_frag] takes the bytes that are left, enough when
    each fragment takes at least one (an MTU of 28 or more), and the loop that makes room in
    the reassembly queue one more than the datagrams in it.  The queues of TCP are lists and
    their loops recurse on them.  The walks of TcpTimers take the square of the number of blocks
    plus one: each restart follows the first look at some block.  The search for a port, of TCP and of UDP, takes as many
    rounds as the dynamic range has ports, after which the code gives up itself; the loop of
    [tcp_write] takes one more than the pbufs that the queue may hold, and each round adds
    one.  Loops over a C string or a table recurse on it.  [sys_check_timeouts],
    the waits of the menu and the main loop need not end by themselves and take fuel as an
    argument: their safety theorems hold for every fuel, and [check_timeouts_in_order] and
    [version_wait_terminates] say how much is enough.

    ** Not modelled

    Clock, MPU, cache, pin, UART and LED set-up and the interrupt stubs are register
    writes without a state of their own; the texts the menu prints have no effect.  Of
    TCP, the two ends of a connection are modelled completely.  [tcp_input] of TcpIn is about one
    listening and one active block; the bytes of the header, the search among several
    connections (TcpDemux), their common timers with keep-alive and polling (TcpTimers) and the
    block that one takes from another when memory is short (TcpAlloc) are modelled beside it,
    not within the runs of TcpConn.  The trigger and the version query of ota.c and
    version_check.c still see the stack as the class [TcpApi]; IP gives packets to the
    operations [Ip4Api].  DHCP is never started by the application.  IP, UDP and ICMP take the
    interface as an argument, as Netif leaves it.  The IPv4 code for IGMP, AutoIP, raw sockets
    and forwarding is compiled out.  The parts of lwIP that lwipopts.h disables (sockets, PPP,
    IPv6 and the applications) are not compiled.  The caches of the Cortex-M7 are not
    modelled: [SCB_InvalidateDCache] leaves the memories as they are.  [HalLaws] knows calls
    that succeed and calls that fail, after which the next may succeed or fail as it likes;
    HAL_BUSY is one of the failures, without a state of its own.  In TcpAlloc and NetifRun
    the error callback of a connection that gives way does not open or close others
    ([TcbEnv]), as the two that ota.c and version_check.c register do not; the walks of
    TcpTimers allow it. *)
From stdpp Require Export base tactics numbers option list.
From Stdlib Require Export ZArith Lia.
#[global] Open Scope Z_scope.

(** ** Machine integers

    An unsigned C integer is a [Z]; every operation that can leave the range
    is wrapped explicitly. *)
Definition u8 (z : Z) : Z := z mod 256.
Definition u16 (z : Z) : Z := z mod 65536.
Definition u32 (z : Z) : Z := z mod 4294967296.

Declare Scope c_scope.
Delimit Scope c_scope with C.
Notation "a +% b" := (u32 (a + b)) (at level 50, left associativity) : c_scope.
Notation "a -% b" := (u32 (a - b)) (at level 50, left associativity) : c_scope.
Notation "a *% b" := (u32 (a * b)) (at level 40, left associativity) : c_scope.

Create HintDb word discriminated.

Lemma u8_range z : 0 <= u8 z < 256.
Proof. apply Z.mod_pos_bound; lia. Qed.
Lemma u16_range z : 0 <= u16 z < 65536.
Proof. apply Z.mod_pos_bound; lia. Qed.
Lemma u32_range z : 0 <= u32 z < 4294967296.
Proof. apply Z.mod_pos_bound; lia. Qed.
Lemma u8_small z : 0 <= z < 256 -> u8 z = z.
Proof. apply Z.mod_small. Qed.
Lemma u16_small z : 0 <= z < 65536 -> u16 z = z.
Proof. apply Z.mod_small. Qed.
Lemma u32_small z : 0 <= z < 4294967296 -> u32 z = z.
Proof. apply Z.mod_small. Qed.
#[export] Hint Resolve u8_range u16_range u32_range u8_small u16_small u32_small : word.

(** Discharge the wrap of every word operation whose argument is in range. *)
Ltac unwrap :=
  repeat match goal with
         | |- context [u32 ?z] => rewrite (u32_small z) by lia
         | |- context [u16 ?z] => rewrite (u16_small z) by lia
         | |- context [u8 ?z] => rewrite (u8_small z) by lia
         end.
Ltac unwrap_in H :=
  repeat match type of H with
         | context [u32 ?z] => rewrite (u32_small z) in H by lia
         | context [u16 ?z] => rewrite (u16_small z) in H by lia
         | context [u8 ?z] => rewrite (u8_small z) in H by lia
         end.

(** ** Bytes and little-endian words *)
Definition is_byte (b : Z) : Prop := 0 <= b < 256.
Definition bytes (l : list Z) : Prop := Forall is_byte l.
Definition is_u32 (z : Z) : Prop := 0 <= z < 4294967296.
#[export] Instance is_byte_dec b : Decision (is_byte b).
Proof. unfold is_byte. apply _. Defined.
#[export] Instance bytes_dec l : Decision (bytes l).
Proof. unfold bytes. apply _. Defined.
#[export] Instance is_u32_dec z : Decision (is_u32 z).
Proof. unfold is_u32. apply _. Defined.

Definition le32 (b0 b1 b2 b3 : Z) : Z := b0 + 256 * b1 + 65536 * b2 + 16777216 * b3.
Definition le32_bytes (z : Z) : list Z :=
  [z mod 256; z / 256 mod 256; z / 65536 mod 256; z / 16777216 mod 256].

Lemma le32_le32_bytes z : is_u32 z ->
  le32 (z mod 256) (z / 256 mod 256) (z / 65536 mod 256) (z / 16777216 mod 256) = z.
Proof. unfold is_u32, le32. intros H. Z.to_euclidean_division_equations. lia. Qed.

Lemma le32_range b0 b1 b2 b3 :
  is_byte b0 -> is_byte b1 -> is_byte b2 -> is_byte b3 -> is_u32 (le32 b0 b1 b2 b3).
Proof. unfold is_byte, is_u32, le32. lia. Qed.

Lemma le32_bytes_bytes z : bytes (le32_bytes z).
Proof.
  unfold bytes, le32_bytes, is_byte.
  repeat (apply Forall_cons; split; [apply Z.mod_pos_bound; lia|]). apply Forall_nil_2.
Qed.

Lemma le32_inj a0 a1 a2 a3 b0 b1 b2 b3 :
  is_byte a0 -> is_byte a1 -> is_byte a2 -> is_byte a3 ->
  is_byte b0 -> is_byte b1 -> is_byte b2 -> is_byte b3 ->
  le32 a0 a1 a2 a3 = le32 b0 b1 b2 b3 -> a0 = b0 /\ a1 = b1 /\ a2 = b2 /\ a3 = b3.
Proof. unfold is_byte, le32. lia. Qed.

(** ** Left folds under an invariant on the accumulator *)
Section Fold.
Context {A B : Type} (P : A -> Prop) (R : B -> Prop).

Lemma foldl_inv (f : A -> B -> A) l a :
  (forall a b, P a -> P (f a b)) -> P a -> P (foldl f a l).
Proof. intros Hf; revert a; induction l as [|b l IH]; intros a Ha; cbn; auto. Qed.

Lemma foldl_ext_inv (f g : A -> B -> A) :
  (forall a b, P a -> R b -> f a b = g a b) -> (forall a b, P a -> P (g a b)) ->
  forall l a, Forall R l -> P a -> foldl f a l = foldl g a l.
Proof.
  intros Hfg Hg l; induction l as [|b l IH]; intros a Hl Ha; cbn; [done|].
  apply Forall_cons in Hl as [Hb Hl]. rewrite Hfg by done. auto.
Qed.
End Fold.

(** ** Byte-addressed memories

    A memory (internal flash, external NOR, an SRAM array) is a total function
    from addresses to bytes.  Two memories are compared pointwise, and what an
    operation may touch is stated as a frame: [unchanged_off lo n m m']. *)
Definition mem := Z -> Z.

Fixpoint mem_read (m : mem) (a : Z) (n : nat) : list Z :=
  match n with
  | O => []
  | S n' => m a :: mem_read m (a + 1) n'
  end.

Definition mem_write (m : mem) (a : Z) (l : list Z) : mem :=
  fun x => if decide (a <= x) then default (m x) (l !! Z.to_nat (x - a)) else m x.

Definition unchanged_off (lo n : Z) (m m' : mem) : Prop :=
  forall a, ~ (lo <= a < lo + n) -> m' a = m a.

(** [m'] holds the bytes [l] from address [a] on. *)
Definition holds (m : mem) (a : Z) (l : list Z) : Prop :=
  forall i, 0 <= i < Z.of_nat (length l) -> l !! Z.to_nat i = Some (m (a + i)).

Section Memory.
Implicit Types (m : mem) (a x : Z) (l : list Z) (n : nat).

Lemma mem_read_length m a n : length (mem_read m a n) = n.
Proof. revert a; induction n as [|n IH]; intros a; cbn; [done|]. by rewrite IH. Qed.

Lemma mem_read_lookup m a n i :
  (i < n)%nat -> mem_read m a n !! i = Some (m (a + Z.of_nat i)).
Proof.
  revert a i; induction n as [|n IH]; intros a i Hi; [lia|].
  destruct i as [|i]; cbn; [by rewrite Z.add_0_r|].
  rewrite IH by lia. do 2 f_equal. lia.
Qed.

Lemma mem_read_lookup_total m a n i :
  (i < n)%nat -> mem_read m a n !!! i = m (a + Z.of_nat i).
Proof. intros H. apply list_lookup_total_correct, (mem_read_lookup m a n i H). Qed.

Lemma mem_read_ext m m' a n :
  (forall x, a <= x < a + Z.of_nat n -> m' x = m x) -> mem_read m' a n = mem_read m a n.
Proof.
  revert a; induction n as [|n IH]; intros a H; cbn; [done|].
  rewrite H by lia. f_equal. apply IH. intros x Hx. apply H. lia.
Qed.

Lemma mem_read_app m a n k :
  mem_read m a (n + k) = mem_read m a n ++ mem_read m (a + Z.of_nat n) k.
Proof.
  revert a; induction n as [|n IH]; intros a; cbn.
  - by rewrite Z.add_0_r.
  - rewrite IH. do 3 f_equal. lia.
Qed.

Lemma mem_write_out m a l x :
  ~ (a <= x < a + Z.of_nat (length l)) -> mem_write m a l x = m x.
Proof.
  intros H. unfold mem_write. case_decide; [|done].
  rewrite lookup_ge_None_2 by lia. done.
Qed.

Lemma mem_write_in m a l i b :
  l !! i = Some b -> mem_write m a l (a + Z.of_nat i) = b.
Proof.
  intros H. unfold mem_write. rewrite decide_True by lia.
  replace (Z.to_nat (a + Z.of_nat i - a)) with i by lia. by rewrite H.
Qed.

Lemma mem_write_unchanged m a l :
  unchanged_off a (Z.of_nat (length l)) m (mem_write m a l).
Proof. intros x Hx. by apply mem_write_out. Qed.

Lemma mem_write_bytes m a l :
  (forall x, is_byte (m x)) -> bytes l -> forall x, is_byte (mem_write m a l x).
Proof.
  intros Hm Hl x. unfold mem_write. case_decide; [|done].
  destruct (l !! Z.to_nat (x - a)) as [b|] eqn:E; cbn; [|done]. by apply (Forall_lookup_1 _ _ _ _ Hl E).
Qed.

Lemma mem_read_bytes m a n : (forall x, is_byte (m x)) -> bytes (mem_read m a n).
Proof.
  intros Hm. revert a; induction n as [|n IH]; intros a; cbn; [apply Forall_nil_2|].
  by apply Forall_cons_2; [|apply IH].
Qed.

Lemma mem_write_nil m a x : mem_write m a [] x = m x.
Proof. apply mem_write_out. cbn. lia. Qed.

Lemma holds_read m a l : holds m a l <-> mem_read m a (length l) = l.
Proof.
  split.
  - intros H. apply list_eq. intros i.
    destruct (decide (i < length l)%nat) as [Hi|Hi].
    + rewrite mem_read_lookup by done.
      specialize (H (Z.of_nat i) ltac:(lia)). by rewrite Nat2Z.id in H.
    + rewrite !lookup_ge_None_2; rewrite ?mem_read_length; done || lia.
  - intros H i Hi. rewrite <- H. rewrite mem_read_lookup by lia.
    do 2 f_equal. lia.
Qed.

Lemma mem_write_holds m a l : holds (mem_write m a l) a l.
Proof.
  intros i Hi. destruct (lookup_lt_is_Some_2 l (Z.to_nat i)) as [b Hb]; [lia|].
  rewrite Hb. f_equal. symmetry.
  replace i with (Z.of_nat (Z.to_nat i)) by lia. by apply mem_write_in.
Qed.

Lemma mem_write_read_same m a l : mem_read (mem_write m a l) a (length l) = l.
Proof. apply holds_read, mem_write_holds. Qed.

(** Appending at the end of what has been received so far: the prefix is kept. *)
Lemma mem_write_read_append m a n l :
  mem_read (mem_write m (a + Z.of_nat n) l) a (n + length l) = mem_read m a n ++ l.
Proof.
  rewrite mem_read_app. f_equal.
  - apply mem_read_ext. intros x Hx. apply mem_write_out. lia.
  - apply mem_write_read_same.
Qed.

Lemma unchanged_off_refl lo k m : unchanged_off lo k m m.
Proof. done. Qed.

Lemma unchanged_off_trans lo k m1 m2 m3 :
  unchanged_off lo k m1 m2 -> unchanged_off lo k m2 m3 -> unchanged_off lo k m1 m3.
Proof. intros H1 H2 a Ha. rewrite H2 by done. by apply H1. Qed.

Lemma unchanged_off_weaken lo k lo' k' m m' :
  lo' <= lo -> lo + k <= lo' + k' -> unchanged_off lo k m m' -> unchanged_off lo' k' m m'.
Proof. intros H1 H2 H a Ha. apply H. lia. Qed.

Lemma unchanged_off_same lo k m m' :
  (forall a, m' a = m a) -> unchanged_off lo k m m'.
Proof. intros H a _. apply H. Qed.
End Memory.

#[export] Instance unchanged_off_preorder lo n : PreOrder (unchanged_off lo n).
Proof. split; [intros m a; done | intros m1 m2 m3; apply unchanged_off_trans]. Qed.

Create HintDb memory discriminated.
Create Rewrite HintDb memory.
#[export] Hint Resolve unchanged_off_refl unchanged_off_same mem_write_unchanged : memory.
#[export] Hint Rewrite mem_read_length mem_write_read_same : memory.

(** ** State passing with early return

    [M S A] is a computation over the state [S]; C control flow ([for] with a
    retry counter, [for] with an early [return], guarded busy waits) becomes the
    combinators below, each with its rule for the predicate transformer [wp]. *)
Definition M (S A : Type) : Type := S -> A * S.

Definition ret {S A} (a : A) : M S A := fun s => (a, s).
Definition bind {S A B} (m : M S A) (k : A -> M S B) : M S B :=
  fun s => let '(a, s') := m s in k a s'.
Definition modify {S} (f : S -> S) : M S unit := fun s => (tt, f s).
Definition gets {S A} (f : S -> A) : M S A := fun s => (f s, s).

Notation "x <- m ;; k" := (bind m (fun x => k))
  (at level 100, m at next level, right associativity) : c_scope.
Notation "m ;;; k" := (bind m (fun _ => k))
  (at level 100, right associativity) : c_scope.
#[global] Open Scope c_scope.

Definition wp {S A} (m : M S A) (Q : A -> S -> Prop) (s : S) : Prop :=
  let '(a, s') := m s in Q a s'.

(** [for (attempt = 0; attempt < n && !ok; attempt++) ok = body;] *)
Fixpoint retry {S} (n : nat) (body : M S bool) : M S bool :=
  match n with
  | O => ret false
  | S n' => ok <- body ;; if ok : bool then ret true else retry n' body
  end.

(** [for (i = lo; n rounds; i += step) { body i }] where [body] may [return r]:
    [None] falls through to the next round. *)
Fixpoint for_each {S R} (n : nat) (i step : Z) (body : Z -> M S (option R)) : M S (option R) :=
  match n with
  | O => ret None
  | S n' => r <- body i ;;
            match r with
            | Some x => ret (Some x)
            | None => for_each n' (i + step) step body
            end
  end.

(** [while (cond) { body }] over the loop variables [a]; the body goes round with
    new values ([inl]) or leaves the function ([inr]).  The fuel bounds the number
    of rounds; [wp_while] shows that it is never what ends the loop. *)
Fixpoint while {S A R} (fuel : nat) (cond : A -> bool) (body : A -> M S (A + R)) (a : A)
  : M S (A + R) :=
  match fuel with
  | O => ret (inl a)
  | S n => if cond a
           then x <- body a ;;
                match x with inl a' => while n cond body a' | inr r => ret (inr r) end
           else ret (inl a)
  end.

(** [while (busy && guard--) { }]: polls until idle or the guard is exhausted. *)
Fixpoint wait_while {S} (guard : nat) (busy : M S bool) : M S unit :=
  b <- busy ;;
  if b : bool
  then match guard with O => ret tt | S g => wait_while g busy end
  else ret tt.

(** [for (;;) { body }] left by [break] or [return] ([Some]).  [None] after [fuel]
    rounds means that the loop is still running. *)
Fixpoint forever {S A} (fuel : nat) (body : M S (option A)) : M S (option A) :=
  match fuel with
  | O => ret None
  | S n => r <- body ;;
           match r with Some a => ret (Some a) | None => forever n body end
  end.

Section Wp.
Context {S : Type}.

Lemma wp_ret {A} (a : A) (Q : A -> S -> Prop) s : Q a s -> wp (ret a) Q s.
Proof. done. Qed.

Lemma wp_bind {A B} (m : M S A) (k : A -> M S B) Q s :
  wp m (fun a s' => wp (k a) Q s') s -> wp (bind m k) Q s.
Proof. cbv [wp bind]. by destruct (m s). Qed.

Lemma wp_bind_assoc {A B C} (m : M S A) (k : A -> M S B) (K : B -> M S C) Q s :
  wp (bind (bind m k) K) Q s -> wp (bind m (fun a => bind (k a) K)) Q s.
Proof. cbv [wp bind]. by destruct (m s). Qed.

Lemma wp_modify (f : S -> S) (Q : unit -> S -> Prop) s : Q tt (f s) -> wp (modify f) Q s.
Proof. done. Qed.

Lemma wp_gets {A} (f : S -> A) (Q : A -> S -> Prop) s : Q (f s) s -> wp (gets f) Q s.
Proof. done. Qed.

Lemma wp_mono {A} (m : M S A) (Q Q' : A -> S -> Prop) s :
  wp m Q s -> (forall a s', Q a s' -> Q' a s') -> wp m Q' s.
Proof. unfold wp. destruct (m s). auto. Qed.

Lemma wp_and {A} (m : M S A) (Q Q' : A -> S -> Prop) s :
  wp m Q s -> wp m Q' s -> wp m (fun a s' => Q a s' /\ Q' a s') s.
Proof. unfold wp. destruct (m s). auto. Qed.

(** From a proved [wp] to the result of a run, and back. *)
Lemma wp_run {A} (m : M S A) Q s a s' : wp m Q s -> m s = (a, s') -> Q a s'.
Proof. intros H E. unfold wp in H. by rewrite E in H. Qed.

Lemma wp_intro {A} (m : M S A) (Q : A -> S -> Prop) s :
  (forall a s', m s = (a, s') -> Q a s') -> wp m Q s.
Proof. unfold wp. destruct (m s). auto. Qed.

Lemma wp_retry n (body : M S bool) (I D : S -> Prop) s :
  (forall s, I s -> wp body (fun ok s' => if ok then D s' else I s') s) ->
  I s -> wp (retry n body) (fun ok s' => if ok then D s' else I s') s.
Proof.
  intros Hb. revert s; induction n as [|n IH]; intros s HI; cbn; [done|].
  apply wp_bind. eapply wp_mono; [by apply Hb|].
  intros [] s' H; [done|]. by apply IH.
Qed.

(** A body that succeeds at the first attempt. *)
Lemma wp_retry_first n (body : M S bool) (Q : S -> Prop) s : (0 < n)%nat ->
  wp body (fun ok s' => ok = true /\ Q s') s ->
  wp (retry n body) (fun ok s' => ok = true /\ Q s') s.
Proof.
  destruct n as [|n]; [lia|]. intros _ H. cbn. apply wp_bind. eapply wp_mono; [exact H|].
  intros ok s' [-> HQ]. by apply wp_ret.
Qed.

(** [I k] holds when [k] rounds are done. *)
Lemma wp_for_each {R} n i step (body : Z -> M S (option R))
    (I : nat -> S -> Prop) (E : R -> S -> Prop) s :
  (forall k s, (k < n)%nat -> I k s ->
     wp (body (i + Z.of_nat k * step))
        (fun r s' => match r with Some x => E x s' | None => I (Datatypes.S k) s' end) s) ->
  I 0%nat s ->
  wp (for_each n i step body)
     (fun r s' => match r with Some x => E x s' | None => I n s' end) s.
Proof.
  revert i s I; induction n as [|n IH]; intros i s I Hb HI; cbn [for_each]; [by apply wp_ret|].
  apply wp_bind. specialize (Hb 0%nat s ltac:(lia) HI) as H0.
  replace (i + Z.of_nat 0 * step) with i in H0 by lia.
  eapply wp_mono; [exact H0|]. intros [x|] s' H; [done|].
  apply (IH (i + step) s' (fun k => I (Datatypes.S k))); [|done].
  intros k s'' Hk HIk. specialize (Hb (Datatypes.S k) s'' ltac:(lia) HIk).
  by replace (i + step + Z.of_nat k * step) with (i + Z.of_nat (Datatypes.S k) * step) by lia.
Qed.

(** The measure may depend on the loop variables and on the state. *)
Lemma wp_while {A R} fuel cond (body : A -> M S (A + R)) (mu : A -> S -> nat)
    (I : A -> S -> Prop) (E : R -> S -> Prop) a s :
  (forall a s, I a s -> cond a = true ->
     wp (body a) (fun x s' => match x with
                              | inl a' => I a' s' /\ (mu a' s' < mu a s)%nat
                              | inr r => E r s' end) s) ->
  I a s -> (mu a s < fuel)%nat ->
  wp (while fuel cond body a)
     (fun x s' => match x with inl a' => I a' s' /\ cond a' = false | inr r => E r s' end) s.
Proof.
  intros Hb. revert a s; induction fuel as [|n IH]; intros a s HI Hf; [lia|]. cbn.
  destruct (cond a) eqn:Hc; [|by apply wp_ret].
  apply wp_bind. eapply wp_mono; [by apply Hb|].
  intros [a'|r] s'; [intros [HI' Hm]; apply IH; [done|lia]|intros HE; by apply wp_ret].
Qed.

(** An invariant of the rounds, without a claim about how the loop ends. *)
Lemma wp_while_inv {A R} fuel cond (body : A -> M S (A + R))
    (I : A -> S -> Prop) (E : R -> S -> Prop) a s :
  (forall a s, I a s -> wp (body a) (fun x s' => match x with
                                   | inl a' => I a' s' | inr r => E r s' end) s) ->
  I a s ->
  wp (while fuel cond body a) (fun x s' => match x with inl a' => I a' s' | inr r => E r s' end) s.
Proof.
  intros Hb. revert a s; induction fuel as [|n IH]; intros a s HI; cbn; [done|].
  destruct (cond a); [|by apply wp_ret].
  apply wp_bind. eapply wp_mono; [by apply Hb|].
  intros [a'|r] s' H; [by apply IH|by apply wp_ret].
Qed.

Lemma wp_forever {A} fuel (body : M S (option A)) (I : S -> Prop) (E : A -> S -> Prop) s :
  (forall s, I s -> wp body (fun r s' => match r with Some a => E a s' | None => I s' end) s) ->
  I s -> wp (forever fuel body) (fun r s' => match r with Some a => E a s' | None => I s' end) s.
Proof.
  intros Hb. revert s; induction fuel as [|n IH]; intros s HI; cbn; [done|].
  apply wp_bind. eapply wp_mono; [by apply Hb|]. intros [a|] s' H; [by apply wp_ret|by apply IH].
Qed.

(** A loop whose measure decreases is left before the fuel ends. *)
Lemma wp_forever_ends {A} fuel (body : M S (option A)) (mu : S -> nat) (I : S -> Prop)
    (E : A -> S -> Prop) s :
  (forall s, I s -> wp body (fun r s' => match r with
                      | Some a => E a s' | None => I s' /\ (mu s' < mu s)%nat end) s) ->
  I s -> (mu s < fuel)%nat ->
  wp (forever fuel body) (fun r s' => exists a, r = Some a /\ E a s') s.
Proof.
  intros Hb. revert s; induction fuel as [|n IH]; intros s HI Hf; [lia|]. cbn.
  apply wp_bind. eapply wp_mono; [by apply Hb|]. intros [a|] s' H.
  - apply wp_ret. by exists a.
  - apply IH; [apply H|lia].
Qed.

(** Whatever the first call does. *)
Lemma wp_any {A B} (m : M S A) (k : A -> M S B) (Q : B -> S -> Prop) s :
  (forall a s', wp (k a) Q s') -> wp (bind m k) Q s.
Proof. intros H. apply wp_bind. unfold wp at 1. destruct (m s). apply H. Qed.

Lemma wp_wait_while guard (busy : M S bool) (I : S -> Prop) s :
  (forall s, I s -> wp busy (fun _ s' => I s') s) ->
  I s -> wp (wait_while guard busy) (fun _ s' => I s') s.
Proof.
  intros Hb. revert s; induction guard as [|g IH]; intros s HI; cbn;
    apply wp_bind; (eapply wp_mono; [by apply Hb|]); intros [] s' H; try done.
  by apply IH.
Qed.
End Wp.

(** Run the first call of a [bind] by a proved specification. *)
Tactic Notation "wp_call" uconstr(H) "as" simple_intropattern(r) simple_intropattern(s)
    simple_intropattern(P) :=
  apply wp_bind; eapply wp_mono; [apply H|cbv beta; intros r s P].

(** ** What an operation leaves alone *)
Definition frames {S A} (R : relation S) (m : M S A) : Prop := forall s, wp m (fun _ s' => R s s') s.

Section Frames.
Context {S : Type} (R : relation S) `{!PreOrder R}.

Lemma frames_ret {A} (a : A) : frames R (ret a).
Proof. intros s. apply wp_ret. reflexivity. Qed.
Lemma frames_gets {A} (f : S -> A) : frames R (gets f).
Proof. intros s. apply wp_gets. reflexivity. Qed.
Lemma frames_modify (f : S -> S) : (forall s, R s (f s)) -> frames R (modify f).
Proof. intros H s. apply wp_modify, H. Qed.
Lemma frames_bind {A B} (m : M S A) (k : A -> M S B) :
  frames R m -> (forall a, frames R (k a)) -> frames R (bind m k).
Proof.
  intros Hm Hk s. wp_call (Hm s) as a s1 H1. eapply wp_mono; [apply Hk|]. cbv beta.
  intros b s2 H2. by etrans.
Qed.
Lemma frames_mono {A} (R' : relation S) (m : M S A) :
  (forall s s', R s s' -> R' s s') -> frames R m -> frames R' m.
Proof. intros H Hm s. eapply wp_mono; [apply Hm|]. cbv beta. auto. Qed.
End Frames.

Create HintDb frames discriminated.
#[export] Hint Resolve frames_ret frames_gets : frames.

(** Decompose a computation into its calls; [frames] closes them. *)
Ltac frames_step :=
  match goal with
  | |- frames _ (bind _ _) => apply frames_bind; [apply _| |intros ?]
  | |- frames _ (match ?x with _ => _ end) => destruct x
  | |- frames _ (let _ := _ in _) => cbv zeta
  end.
Ltac solve_frames := repeat first [solve [eauto with frames typeclass_instances] | frames_step].

(** ** Record update: [r <| field := v |>]

    The update function of a field is found from the eta expansion of its record. *)
Class Eta (R : Type) := eta : R -> R.
Class Upd {R T : Type} (p : R -> T) := upd : (T -> T) -> R -> R.
Ltac derive_upd :=
  match goal with
  | |- @Upd ?R ?T ?p =>
      let g := fresh "g" in let r := fresh "r" in
      intros g r;
      let E := constr:(_ : Eta R) in
      let b := eval hnf in E in
      let b := eval cbv beta in (b r) in
      let b := eval pattern (p r) in b in
      match b with ?f _ => let t := eval cbv beta in (f (g (p r))) in exact t end
  end.
#[export] Hint Extern 1 (@Upd _ _ _) => derive_upd : typeclass_instances.
Notation "r <| p := v |>" := (upd (p := p) (fun _ => v) r)
  (at level 1, left associativity, format "r  <| p  :=  v |>") : c_scope.

(** ** Slices: [sub str a b] are the bytes at the positions from [a] to [b] *)
Definition sub (str : list Z) (a b : Z) : list Z := take (Z.to_nat (b - a)) (drop (Z.to_nat a) str).
Definition slen (str : list Z) : Z := Z.of_nat (length str).
Lemma slen_app a b : slen (a ++ b) = slen a + slen b.
Proof. unfold slen. rewrite length_app. lia. Qed.

Lemma sub_length str a b : 0 <= a <= b -> b <= slen str -> Z.of_nat (length (sub str a b)) = b - a.
Proof. unfold sub, slen. intros H1 H2. rewrite length_take, length_drop. lia. Qed.

Lemma sub_drop str a b k : 0 <= a -> 0 <= k -> drop (Z.to_nat k) (sub str a b) = sub str (a + k) b.
Proof. intros H1 H2. unfold sub. rewrite skipn_firstn_comm, drop_drop. f_equal; [|f_equal]; lia. Qed.

Lemma sub_take str a b k : 0 <= k <= b - a -> take (Z.to_nat k) (sub str a b) = sub str a (a + k).
Proof. intros H. unfold sub. rewrite take_take. f_equal. lia. Qed.

Lemma sub_app str a b c : 0 <= a <= b -> b <= c -> c <= slen str ->
  sub str a b ++ sub str b c = sub str a c.
Proof.
  intros H1 H2 H3. unfold sub, slen in *.
  replace (Z.to_nat (c - a)) with (Z.to_nat (b - a) + Z.to_nat (c - b))%nat by lia.
  rewrite <- take_take_drop, drop_drop. do 3 f_equal. lia.
Qed.

Lemma sub_0 str n : sub str 0 n = take (Z.to_nat n) str.
Proof. unfold sub. rewrite Z.sub_0_r. done. Qed.
