(* ===== verification/Crc32.v ===== *)
(** * CRC-32 (crc32/crc32.c and the read-back loop of ota/ota.c)

    [CRC32_Calculate] is the table-driven routine that checks the image in SRAM
    and [crc_readback] the bit-by-bit one that checks the staged copy in the
    NOR flash.  The file proves that they compute the same function, that the
    accumulator stays a 32-bit word, and that every error confined to four
    consecutive bytes is detected. *)
From S2P Require Import Prelude.

(** [static const uint32_t crc32_table[256]]. *)
Definition crc32_table : list Z :=
  [0x00000000; 0x77073096; 0xEE0E612C; 0x990951BA; 0x076DC419; 0x706AF48F;
   0xE963A535; 0x9E6495A3; 0x0EDB8832; 0x79DCB8A4; 0xE0D5E91E; 0x97D2D988;
   0x09B64C2B; 0x7EB17CBD; 0xE7B82D07; 0x90BF1D91; 0x1DB71064; 0x6AB020F2;
   0xF3B97148; 0x84BE41DE; 0x1ADAD47D; 0x6DDDE4EB; 0xF4D4B551; 0x83D385C7;
   0x136C9856; 0x646BA8C0; 0xFD62F97A; 0x8A65C9EC; 0x14015C4F; 0x63066CD9;
   0xFA0F3D63; 0x8D080DF5; 0x3B6E20C8; 0x4C69105E; 0xD56041E4; 0xA2677172;
   0x3C03E4D1; 0x4B04D447; 0xD20D85FD; 0xA50AB56B; 0x35B5A8FA; 0x42B2986C;
   0xDBBBC9D6; 0xACBCF940; 0x32D86CE3; 0x45DF5C75; 0xDCD60DCF; 0xABD13D59;
   0x26D930AC; 0x51DE003A; 0xC8D75180; 0xBFD06116; 0x21B4F4B5; 0x56B3C423;
   0xCFBA9599; 0xB8BDA50F; 0x2802B89E; 0x5F058808; 0xC60CD9B2; 0xB10BE924;
   0x2F6F7C87; 0x58684C11; 0xC1611DAB; 0xB6662D3D; 0x76DC4190; 0x01DB7106;
   0x98D220BC; 0xEFD5102A; 0x71B18589; 0x06B6B51F; 0x9FBFE4A5; 0xE8B8D433;
   0x7807C9A2; 0x0F00F934; 0x9609A88E; 0xE10E9818; 0x7F6A0DBB; 0x086D3D2D;
   0x91646C97; 0xE6635C01; 0x6B6B51F4; 0x1C6C6162; 0x856530D8; 0xF262004E;
   0x6C0695ED; 0x1B01A57B; 0x8208F4C1; 0xF50FC457; 0x65B0D9C6; 0x12B7E950;
   0x8BBEB8EA; 0xFCB9887C; 0x62DD1DDF; 0x15DA2D49; 0x8CD37CF3; 0xFBD44C65;
   0x4DB26158; 0x3AB551CE; 0xA3BC0074; 0xD4BB30E2; 0x4ADFA541; 0x3DD895D7;
   0xA4D1C46D; 0xD3D6F4FB; 0x4369E96A; 0x346ED9FC; 0xAD678846; 0xDA60B8D0;
   0x44042D73; 0x33031DE5; 0xAA0A4C5F; 0xDD0D7CC9; 0x5005713C; 0x270241AA;
   0xBE0B1010; 0xC90C2086; 0x5768B525; 0x206F85B3; 0xB966D409; 0xCE61E49F;
   0x5EDEF90E; 0x29D9C998; 0xB0D09822; 0xC7D7A8B4; 0x59B33D17; 0x2EB40D81;
   0xB7BD5C3B; 0xC0BA6CAD; 0xEDB88320; 0x9ABFB3B6; 0x03B6E20C; 0x74B1D29A;
   0xEAD54739; 0x9DD277AF; 0x04DB2615; 0x73DC1683; 0xE3630B12; 0x94643B84;
   0x0D6D6A3E; 0x7A6A5AA8; 0xE40ECF0B; 0x9309FF9D; 0x0A00AE27; 0x7D079EB1;
   0xF00F9344; 0x8708A3D2; 0x1E01F268; 0x6906C2FE; 0xF762575D; 0x806567CB;
   0x196C3671; 0x6E6B06E7; 0xFED41B76; 0x89D32BE0; 0x10DA7A5A; 0x67DD4ACC;
   0xF9B9DF6F; 0x8EBEEFF9; 0x17B7BE43; 0x60B08ED5; 0xD6D6A3E8; 0xA1D1937E;
   0x38D8C2C4; 0x4FDFF252; 0xD1BB67F1; 0xA6BC5767; 0x3FB506DD; 0x48B2364B;
   0xD80D2BDA; 0xAF0A1B4C; 0x36034AF6; 0x41047A60; 0xDF60EFC3; 0xA867DF55;
   0x316E8EEF; 0x4669BE79; 0xCB61B38C; 0xBC66831A; 0x256FD2A0; 0x5268E236;
   0xCC0C7795; 0xBB0B4703; 0x220216B9; 0x5505262F; 0xC5BA3BBE; 0xB2BD0B28;
   0x2BB45A92; 0x5CB36A04; 0xC2D7FFA7; 0xB5D0CF31; 0x2CD99E8B; 0x5BDEAE1D;
   0x9B64C2B0; 0xEC63F226; 0x756AA39C; 0x026D930A; 0x9C0906A9; 0xEB0E363F;
   0x72076785; 0x05005713; 0x95BF4A82; 0xE2B87A14; 0x7BB12BAE; 0x0CB61B38;
   0x92D28E9B; 0xE5D5BE0D; 0x7CDCEFB7; 0x0BDBDF21; 0x86D3D2D4; 0xF1D4E242;
   0x68DDB3F8; 0x1FDA836E; 0x81BE16CD; 0xF6B9265B; 0x6FB077E1; 0x18B74777;
   0x88085AE6; 0xFF0F6A70; 0x66063BCA; 0x11010B5C; 0x8F659EFF; 0xF862AE69;
   0x616BFFD3; 0x166CCF45; 0xA00AE278; 0xD70DD2EE; 0x4E048354; 0x3903B3C2;
   0xA7672661; 0xD06016F7; 0x4969474D; 0x3E6E77DB; 0xAED16A4A; 0xD9D65ADC;
   0x40DF0B66; 0x37D83BF0; 0xA9BCAE53; 0xDEBB9EC5; 0x47B2CF7F; 0x30B5FFE9;
   0xBDBDF21C; 0xCABAC28A; 0x53B39330; 0x24B4A3A6; 0xBAD03605; 0xCDD70693;
   0x54DE5729; 0x23D967BF; 0xB3667A2E; 0xC4614AB8; 0x5D681B02; 0x2A6F2B94;
   0xB40BBE37; 0xC30C8EA1; 0x5A05DF1B; 0x2D02EF8D].

(** The body of the [while (length--)] loop. *)
Definition crc32_step (crc b : Z) : Z :=
  Z.lxor (nth (Z.to_nat (Z.land (Z.lxor crc b) 0xFF)) crc32_table 0) (Z.shiftr crc 8).

(** [uint32_t CRC32_Calculate(const void *data, uint32_t length)]; the bytes
    [data[0..length)] are the argument list. *)
Definition CRC32_loop (data : list Z) (crc : Z) : Z := foldl crc32_step crc data.

Definition CRC32_Calculate (data : list Z) : Z :=
  Z.lxor (CRC32_loop data 0xFFFFFFFF) 0xFFFFFFFF.

(** The bit loop of the read-back check: [crc >> 1 ^ (0xEDB88320 & -(crc & 1))]. *)
Definition crc_bit (crc : Z) : Z :=
  Z.lxor (Z.shiftr crc 1) (Z.land 0xEDB88320 (u32 (- (Z.land crc 1)))).

Definition crc_rb_byte (crc b : Z) : Z := Nat.iter 8 crc_bit (Z.lxor crc b).

(** One chunk of [tmp[]] folded into [crc_rb]. *)
Definition crc_rb_chunk (chunk : list Z) (crc : Z) : Z := foldl crc_rb_byte crc chunk.

Definition crc_readback (data : list Z) : Z :=
  Z.lxor (crc_rb_chunk data 0xFFFFFFFF) 0xFFFFFFFF.

Example crc32_check_value :
  CRC32_Calculate [49; 50; 51; 52; 53; 54; 55; 56; 57] = 0xCBF43926.
Proof. reflexivity. Qed.

(** ** The bit step is linear, and eight of them are one table step *)
Section BitStep.
Lemma land_1_odd x : Z.land x 1 = if Z.odd x then 1 else 0.
Proof. change 1 with (Z.ones 1) at 1. rewrite Z.land_ones by lia.
  change (2 ^ 1) with 2. by rewrite Zmod_odd. Qed.

Lemma crc_bit_odd x :
  crc_bit x = Z.lxor (Z.shiftr x 1) (if Z.odd x then 0xEDB88320 else 0).
Proof. unfold crc_bit. rewrite land_1_odd. by destruct (Z.odd x). Qed.

Lemma odd_lxor a b : Z.odd (Z.lxor a b) = xorb (Z.odd a) (Z.odd b).
Proof. by rewrite <- !Z.bit0_odd, Z.lxor_spec. Qed.

Lemma lxor_swap a b c d :
  Z.lxor (Z.lxor a b) (Z.lxor c d) = Z.lxor (Z.lxor a c) (Z.lxor b d).
Proof. apply Z.bits_inj'. intros n _. rewrite !Z.lxor_spec.
  by destruct (Z.testbit a n), (Z.testbit b n), (Z.testbit c n), (Z.testbit d n). Qed.

Lemma crc_bit_linear a b : crc_bit (Z.lxor a b) = Z.lxor (crc_bit a) (crc_bit b).
Proof.
  rewrite !crc_bit_odd, Z.shiftr_lxor, odd_lxor, (lxor_swap _ _ (Z.shiftr b 1)).
  f_equal. by destruct (Z.odd a), (Z.odd b).
Qed.

Lemma crc_bit8_linear a b :
  Nat.iter 8 crc_bit (Z.lxor a b) = Z.lxor (Nat.iter 8 crc_bit a) (Nat.iter 8 crc_bit b).
Proof. cbv [Nat.iter nat_rect]. by rewrite !crc_bit_linear. Qed.

Lemma crc_bit_double x : crc_bit (2 * x) = x.
Proof.
  rewrite crc_bit_odd, Z.odd_mul. cbn [Z.odd andb].
  rewrite Z.lxor_0_r, Z.shiftr_div_pow2 by lia.
  change (2 ^ 1) with 2. rewrite Z.mul_comm. by apply Z.div_mul.
Qed.

Lemma crc_bit8_shift x : Nat.iter 8 crc_bit (256 * x) = x.
Proof.
  replace (256 * x) with (2 * (2 * (2 * (2 * (2 * (2 * (2 * (2 * x)))))))) by lia.
  cbv [Nat.iter nat_rect]. by rewrite !crc_bit_double.
Qed.

Lemma crc_bit8_table_all :
  forallb (fun i => Nat.iter 8 crc_bit (Z.of_nat i) =? nth i crc32_table 0) (seq 0 256) = true.
Proof. vm_compute. reflexivity. Qed.

Lemma crc_bit8_table c : 0 <= c < 256 ->
  Nat.iter 8 crc_bit c = nth (Z.to_nat c) crc32_table 0.
Proof.
  intros H. pose proof crc_bit8_table_all as A. rewrite forallb_forall in A.
  specialize (A (Z.to_nat c)). rewrite Z2Nat.id in A by lia. apply Z.eqb_eq, A.
  apply in_seq. lia.
Qed.

Lemma byte_split b c : 0 <= b < 256 -> b + 256 * c = Z.lxor b (256 * c).
Proof.
  intros Hb. apply Z.add_nocarry_lxor. apply Z.bits_inj'. intros n Hn.
  rewrite Z.land_spec, Z.bits_0. change 256 with (2 ^ 8). rewrite Z.mul_comm, <- Z.shiftl_mul_pow2 by lia.
  destruct (Z.ltb_spec n 8).
  - rewrite Z.shiftl_spec_low by done. apply andb_false_r.
  - destruct (Z.eq_dec b 0) as [->|]; [by rewrite Z.bits_0|].
    rewrite Z.bits_above_log2; [done|lia|].
    apply Z.lt_le_trans with 8; [|done]. apply Z.log2_lt_pow2; lia.
Qed.

Lemma land_255 x : Z.land x 0xFF = x mod 256.
Proof. change 0xFF with (Z.ones 8). by rewrite Z.land_ones by lia. Qed.

Lemma shiftr_8 x : Z.shiftr x 8 = x / 256.
Proof. by rewrite Z.shiftr_div_pow2 by lia. Qed.

Lemma crc_bit8_split x :
  Nat.iter 8 crc_bit x = Z.lxor (nth (Z.to_nat (x mod 256)) crc32_table 0) (x / 256).
Proof.
  pose proof (Z.mod_pos_bound x 256 ltac:(lia)) as Hm.
  rewrite <- crc_bit8_table by done.
  transitivity (Z.lxor (Nat.iter 8 crc_bit (x mod 256)) (Nat.iter 8 crc_bit (256 * (x / 256)))).
  - rewrite <- crc_bit8_linear, <- byte_split by done. f_equal. pose proof (Z.div_mod x 256). lia.
  - by rewrite crc_bit8_shift.
Qed.
End BitStep.

(** ** Equivalence of the two routines *)
Section Equivalence.
Lemma lxor_byte_div x b : 0 <= x -> is_byte b -> Z.lxor x b / 256 = x / 256.
Proof.
  intros Hx Hb. rewrite <- !shiftr_8, Z.shiftr_lxor, (shiftr_8 b), Z.div_small by done.
  apply Z.lxor_0_r.
Qed.

Lemma crc_rb_byte_step crc b :
  0 <= crc -> is_byte b -> crc_rb_byte crc b = crc32_step crc b.
Proof.
  intros Hc Hb. unfold crc_rb_byte, crc32_step.
  by rewrite crc_bit8_split, land_255, lxor_byte_div, shiftr_8.
Qed.

Lemma crc32_table_range i : 0 <= nth i crc32_table 0 < 4294967296.
Proof.
  assert (H : Forall (fun x => 0 <= x < 4294967296) crc32_table).
  { apply (bool_decide_unpack _). vm_compute. exact I. }
  destruct (nth_in_or_default i crc32_table 0) as [Hi| ->]; [|lia].
  rewrite Forall_forall in H. by apply H, list_elem_of_In.
Qed.

Lemma lxor_u32 a b : is_u32 a -> is_u32 b -> is_u32 (Z.lxor a b).
Proof.
  unfold is_u32. intros Ha Hb. split; [apply Z.lxor_nonneg; lia|].
  destruct (Z.eq_dec (Z.lxor a b) 0) as [->|Hn]; [lia|].
  assert (0 < Z.lxor a b) by (pose proof (Z.lxor_nonneg a b); lia).
  change 4294967296 with (2 ^ 32) in *. apply Z.log2_lt_pow2; [done|].
  eapply Z.le_lt_trans; [apply Z.log2_lxor; lia|]. apply Z.max_lub_lt.
  - destruct (Z.eq_dec a 0) as [->|]; [done|]. apply Z.log2_lt_pow2; lia.
  - destruct (Z.eq_dec b 0) as [->|]; [done|]. apply Z.log2_lt_pow2; lia.
Qed.

Lemma crc32_step_range crc b : is_u32 crc -> is_u32 (crc32_step crc b).
Proof.
  intros Hc. apply lxor_u32; [apply crc32_table_range|].
  rewrite shiftr_8. unfold is_u32 in *. Z.to_euclidean_division_equations. lia.
Qed.

Lemma crc32_step_nonneg crc b : 0 <= crc -> 0 <= crc32_step crc b.
Proof.
  intros Hc. apply Z.lxor_nonneg. split; intros _.
  - rewrite shiftr_8. apply Z.div_pos; lia.
  - apply crc32_table_range.
Qed.

Lemma is_u32_ones : is_u32 0xFFFFFFFF.
Proof. unfold is_u32. lia. Qed.

Lemma CRC32_loop_range data crc : is_u32 crc -> is_u32 (CRC32_loop data crc).
Proof. apply foldl_inv. intros x b. apply crc32_step_range. Qed.

Lemma CRC32_range data : is_u32 (CRC32_Calculate data).
Proof. unfold CRC32_Calculate. apply lxor_u32; auto using CRC32_loop_range, is_u32_ones. Qed.

Lemma crc_rb_chunk_loop data crc :
  bytes data -> is_u32 crc -> crc_rb_chunk data crc = CRC32_loop data crc.
Proof.
  apply (foldl_ext_inv is_u32 is_byte).
  - intros x b [Hx _]. by apply crc_rb_byte_step.
  - intros x b. apply crc32_step_range.
Qed.

Lemma crc_readback_calculate data : bytes data -> crc_readback data = CRC32_Calculate data.
Proof.
  intros H. unfold crc_readback, CRC32_Calculate.
  by rewrite (crc_rb_chunk_loop _ _ H is_u32_ones).
Qed.

Lemma CRC32_loop_app l1 l2 crc : CRC32_loop (l1 ++ l2) crc = CRC32_loop l2 (CRC32_loop l1 crc).
Proof. apply foldl_app. Qed.

Lemma crc_rb_chunk_app l1 l2 crc :
  crc_rb_chunk (l1 ++ l2) crc = crc_rb_chunk l2 (crc_rb_chunk l1 crc).
Proof. apply foldl_app. Qed.

Lemma CRC32_loop_cons b l crc : CRC32_loop (b :: l) crc = CRC32_loop l (crc32_step crc b).
Proof. done. Qed.
End Equivalence.

(** ** Error detection

    A step sees [crc] and [b] only through [crc xor b], is a bijection on 32-bit
    words, and commutes with a change of the upper bytes; so the accumulator
    after up to four bytes determines them. *)
Section Detection.
Lemma crc32_step_xor crc b :
  0 <= crc -> is_byte b -> crc32_step crc b = crc32_step (Z.lxor crc b) 0.
Proof.
  intros Hc Hb. unfold crc32_step. rewrite Z.lxor_0_r, !shiftr_8. f_equal.
  symmetry. by apply lxor_byte_div.
Qed.

Lemma crc32_step_high x c : crc32_step (Z.lxor x (256 * c)) 0 = Z.lxor (crc32_step x 0) c.
Proof.
  unfold crc32_step. rewrite !Z.lxor_0_r, !land_255, Z.shiftr_lxor, Z.lxor_assoc.
  assert (E : Z.lxor x (256 * c) mod 256 = x mod 256).
  { rewrite <- !land_255. apply Z.bits_inj'. intros n Hn.
    rewrite !Z.land_spec, Z.lxor_spec. destruct (Z.ltb_spec n 8).
    - change 256 with (2 ^ 8). rewrite Z.mul_comm, <- Z.shiftl_mul_pow2, Z.shiftl_spec_low by lia.
      by rewrite xorb_false_r.
    - replace (Z.testbit 255 n) with false; [by rewrite !andb_false_r|].
      symmetry. apply (Z.ones_spec_high 8). lia. }
  rewrite E. do 2 f_equal. rewrite shiftr_8, Z.mul_comm. by apply Z.div_mul.
Qed.

(** The top byte of the table entries identifies the index. *)
Lemma crc32_table_top_inj i j : (i < 256)%nat -> (j < 256)%nat ->
  Z.shiftr (nth i crc32_table 0) 24 = Z.shiftr (nth j crc32_table 0) 24 -> i = j.
Proof.
  intros Hi Hj E.
  assert (A : forallb (fun i => forallb (fun j =>
      implb (Z.shiftr (nth i crc32_table 0) 24 =? Z.shiftr (nth j crc32_table 0) 24) (Nat.eqb i j))
      (seq 0 256)) (seq 0 256) = true) by (vm_compute; reflexivity).
  rewrite forallb_forall in A. specialize (A i). rewrite forallb_forall in A.
  specialize (A ltac:(apply in_seq; lia) j ltac:(apply in_seq; lia)).
  rewrite E, Z.eqb_refl in A. by apply Nat.eqb_eq.
Qed.

Lemma crc32_step_inj x y :
  is_u32 x -> is_u32 y -> crc32_step x 0 = crc32_step y 0 -> x = y.
Proof.
  intros Hx Hy. unfold crc32_step. rewrite !Z.lxor_0_r, !land_255. intros E.
  assert (Hix : Z.to_nat (x mod 256) = Z.to_nat (y mod 256)).
  { apply crc32_table_top_inj; [Z.to_euclidean_division_equations; lia..|].
    apply (f_equal (fun z => Z.shiftr z 24)) in E. rewrite !Z.shiftr_lxor in E.
    rewrite !(Z.shiftr_shiftr _ 8 24) in E by lia. change (8 + 24) with 32 in E.
    rewrite (Z.shiftr_div_pow2 x 32), (Z.shiftr_div_pow2 y 32) in E by lia.
    rewrite (Z.div_small x), (Z.div_small y) in E by done. by rewrite !Z.lxor_0_r in E. }
  rewrite Hix in E. apply Z.lxor_eq in E || (apply (f_equal (Z.lxor (nth (Z.to_nat (y mod 256)) crc32_table 0))) in E;
    rewrite <- !Z.lxor_assoc, Z.lxor_nilpotent, !Z.lxor_0_l in E).
  rewrite !shiftr_8 in E. pose proof (Z.div_mod x 256). pose proof (Z.div_mod y 256).
  pose proof (Z.mod_pos_bound x 256). pose proof (Z.mod_pos_bound y 256). lia.
Qed.

Fixpoint le_word (l : list Z) : Z :=
  match l with [] => 0 | b :: p => b + 256 * le_word p end.

Lemma le_word_range l : bytes l -> 0 <= le_word l < 256 ^ Z.of_nat (length l).
Proof.
  induction 1 as [|b p Hb _ IH]; cbn [le_word length]; [lia|].
  rewrite Nat2Z.inj_succ, Z.pow_succ_r by lia. unfold is_byte in Hb. lia.
Qed.

Lemma le_word_inj l l' : bytes l -> bytes l' -> length l = length l' ->
  le_word l = le_word l' -> l = l'.
Proof.
  revert l'; induction l as [|b p IH]; intros [|b' p'] H H' Hl; cbn in *; try done.
  apply Forall_cons in H as [Hb Hp], H' as [Hb' Hp']. unfold is_byte in *. intros E.
  f_equal; [lia|]. apply IH; [done..|lia|lia].
Qed.

Lemma CRC32_loop_word l s : bytes l -> 0 <= s ->
  CRC32_loop l s = Nat.iter (length l) (fun x => crc32_step x 0) (Z.lxor s (le_word l)).
Proof.
  intros H; revert s; induction H as [|b p Hb Hp IH]; intros s Hs; rewrite ?CRC32_loop_cons; cbn [le_word length].
  - cbn. by rewrite Z.lxor_0_r.
  - assert (Hn : 0 <= Z.lxor s b) by (apply Z.lxor_nonneg; unfold is_byte in Hb; lia).
    rewrite crc32_step_xor, IH by (done || by apply crc32_step_nonneg).
    rewrite <- crc32_step_high, byte_split, Z.lxor_assoc by done. by rewrite Nat.iter_succ_r.
Qed.

Lemma iter_step_inj n x y : is_u32 x -> is_u32 y ->
  Nat.iter n (fun x => crc32_step x 0) x = Nat.iter n (fun x => crc32_step x 0) y -> x = y.
Proof.
  revert x y; induction n as [|n IH]; intros x y Hx Hy; [done|].
  rewrite !Nat.iter_succ_r. intros E. apply crc32_step_inj; [done..|].
  apply IH; auto using crc32_step_range.
Qed.
End Detection.

(** The accumulator is injective in its start value, and in up to four bytes. *)
Section LoopInjectivity.
Lemma lxor_cancel_r a b c : Z.lxor a c = Z.lxor b c -> a = b.
Proof.
  intros E. apply (f_equal (fun z => Z.lxor z c)) in E.
  by rewrite !Z.lxor_assoc, Z.lxor_nilpotent, !Z.lxor_0_r in E.
Qed.

Lemma lxor_cancel_l a b c : Z.lxor c a = Z.lxor c b -> a = b.
Proof. rewrite !(Z.lxor_comm c). apply lxor_cancel_r. Qed.

Lemma byte_u32 b : is_byte b -> is_u32 b.
Proof. unfold is_byte, is_u32. lia. Qed.

Lemma CRC32_loop_inj l x y : bytes l -> is_u32 x -> is_u32 y ->
  CRC32_loop l x = CRC32_loop l y -> x = y.
Proof.
  intros Hl; revert x y; induction Hl as [|b p Hb Hp IH]; intros x y Hx Hy E; [done|].
  rewrite !CRC32_loop_cons in E. apply IH in E; [|auto using crc32_step_range..].
  rewrite (crc32_step_xor x), (crc32_step_xor y) in E by (done || apply Hx || apply Hy).
  apply crc32_step_inj in E; [|auto using lxor_u32, byte_u32..]. by apply lxor_cancel_r in E.
Qed.

Lemma CRC32_loop_word_inj u v s : bytes u -> bytes v -> length u = length v ->
  (length u <= 4)%nat -> is_u32 s -> CRC32_loop u s = CRC32_loop v s -> u = v.
Proof.
  intros Hu Hv Hl Hn Hs E.
  assert (Hw : forall l, bytes l -> length l = length u -> is_u32 (le_word l)).
  { intros l Hb El. pose proof (le_word_range l Hb) as R. rewrite El in R. split; [lia|].
    eapply Z.lt_le_trans; [apply R|]. change 4294967296 with (256 ^ 4).
    apply Z.pow_le_mono_r; lia. }
  rewrite !CRC32_loop_word in E by (done || apply Hs). rewrite <- Hl in E.
  apply iter_step_inj in E; [|auto using lxor_u32..].
  apply le_word_inj; [done..|]. by apply lxor_cancel_l in E.
Qed.
End LoopInjectivity.

(** C11. The bit-by-bit CRC that OTA_Poll computes over the flash equals the table-
    driven CRC32_Calculate on every byte string, and is a 32-bit value. *)
Theorem crc_readback_equiv data :
  bytes data -> crc_readback data = CRC32_Calculate data /\ is_u32 (CRC32_Calculate data).
Proof. intros H. split; [by apply crc_readback_calculate | apply CRC32_range]. Qed.

(** Two byte strings that differ only within four consecutive bytes have different
    CRC32_Calculate values: every burst error of up to 32 bits is detected. *)
Theorem crc_burst_detected pre u v suf :
  bytes pre -> bytes u -> bytes v -> bytes suf -> length u = length v -> (length u <= 4)%nat ->
  u <> v -> CRC32_Calculate (pre ++ u ++ suf) <> CRC32_Calculate (pre ++ v ++ suf).
Proof.
  intros Hp Hu Hv Hs Hl Hn Hne E. apply Hne. apply lxor_cancel_r in E.
  pose proof is_u32_ones as Hi.
  rewrite !CRC32_loop_app in E. apply CRC32_loop_inj in E; [|auto using CRC32_loop_range..].
  by apply CRC32_loop_word_inj in E; [|auto using CRC32_loop_range..].
Qed.

Lemma crc_burst_detected_witness :
  CRC32_Calculate ([1; 2] ++ [3; 4; 5] ++ [6]) <> CRC32_Calculate ([1; 2] ++ [3; 0; 5] ++ [6]).
Proof.
  apply crc_burst_detected; [apply (bool_decide_unpack _); vm_compute; exact I..| | |];
    [reflexivity|cbn; lia|discriminate].
Defined.

Lemma crc_readback_equiv_witness :
  crc_readback [79; 84; 65] = CRC32_Calculate [79; 84; 65] /\ is_u32 (CRC32_Calculate [79; 84; 65]).
Proof. apply crc_readback_equiv. apply (bool_decide_unpack _); vm_compute; exact I. Defined.
