(* ===== verification/Ip4Addr.v ===== *)
(** * IPv4 addresses (lwip-2.0.3/src/core/ipv4/ip4_addr.c, include/lwip/ip4_addr.h, core/def.c)

    Addresses are 32-bit words in network byte order: on this little-endian CPU the
    first number of the dotted form is the low byte.  C strings are lists of character
    codes; reading past the list gives the terminator 0.  Proved: printing and parsing
    are inverse, printing stays inside its buffer, and which masks are accepted. *)
From coqutil Require Import Z.prove_Zeq_bitwise.
From S2P Require Import Prelude.

(** ** def.h, def.c: byte order *)
Definition PP_HTONS (x : Z) : Z := Z.lor (Z.shiftl (Z.land x 0x00ff) 8) (Z.shiftr (Z.land x 0xff00) 8).
Definition PP_HTONL (x : Z) : Z :=
  Z.lor (Z.lor (Z.lor (Z.shiftl (Z.land x 0x000000ff) 24)
                      (Z.shiftl (Z.land x 0x0000ff00) 8))
               (Z.shiftr (Z.land x 0x00ff0000) 8))
        (Z.shiftr (Z.land x 0xff000000) 24).
Definition lwip_htons (n : Z) : Z := u16 (PP_HTONS n).
Definition lwip_htonl (n : Z) : Z := u32 (PP_HTONL n).

(** ** ip4_addr.h *)
Definition IPADDR_NONE : Z := 0xffffffff.
Definition IPADDR_ANY : Z := 0x00000000.
Definition IPADDR_BROADCAST : Z := 0xffffffff.
Definition IP4ADDR_STRLEN_MAX : Z := 16.

(** The header without options (prot/ip4.h). *)
Definition IP_HLEN : Z := 20.

Definition compl32 (x : Z) : Z := 0xffffffff - x.
Definition ip4_addr_netcmp (addr1 addr2 mask : Z) : bool := Z.land addr1 mask =? Z.land addr2 mask.
Definition ip4_addr_ismulticast (addr : Z) : bool :=
  Z.land addr (PP_HTONL 0xf0000000) =? PP_HTONL 0xe0000000.
Definition ip4_addr_islinklocal (addr : Z) : bool :=
  Z.land addr (PP_HTONL 0xffff0000) =? PP_HTONL 0xa9fe0000.
Definition ip4_addr1 (a : Z) : Z := Z.land a 0xff.
Definition ip4_addr2 (a : Z) : Z := Z.land (Z.shiftr a 8) 0xff.
Definition ip4_addr3 (a : Z) : Z := Z.land (Z.shiftr a 16) 0xff.
Definition ip4_addr4 (a : Z) : Z := Z.land (Z.shiftr a 24) 0xff.

(** ** ip4_addr.c *)

(** [broadcast] is the flag NETIF_FLAG_BROADCAST of the interface. *)
Definition ip4_addr_isbroadcast_u32 (addr ip netmask : Z) (broadcast : bool) : bool :=
  if (compl32 addr =? IPADDR_ANY) || (addr =? IPADDR_ANY) then true
  else if negb broadcast then false
  else if addr =? ip then false
  else ip4_addr_netcmp addr ip netmask &&
       (Z.land addr (compl32 netmask) =? Z.land IPADDR_BROADCAST (compl32 netmask)).

(** The two loops over [mask = 1UL << 31], shifted right until it is 0. *)
Fixpoint first_zero (fuel : nat) (nm mask : Z) : Z :=
  match fuel with
  | O => mask
  | S fuel => if mask =? 0 then mask
              else if Z.land nm mask =? 0 then mask else first_zero fuel nm (Z.shiftr mask 1)
  end.
Fixpoint no_one (fuel : nat) (nm mask : Z) : bool :=
  match fuel with
  | O => true
  | S fuel => if mask =? 0 then true
              else if negb (Z.land nm mask =? 0) then false else no_one fuel nm (Z.shiftr mask 1)
  end.
Definition ip4_addr_netmask_valid (netmask : Z) : bool :=
  let nm_hostorder := lwip_htonl netmask in
  no_one 33 nm_hostorder (first_zero 33 nm_hostorder (Z.shiftl 1 31)).

Definition in_range (c lo up : Z) : bool := (lo <=? u8 c) && (u8 c <=? up).
Definition isdigit (c : Z) : bool := in_range c 48 57.
Definition isxdigit (c : Z) : bool := isdigit c || in_range c 97 102 || in_range c 65 70.
Definition islower (c : Z) : bool := in_range c 97 122.
Definition isspace (c : Z) : bool :=
  (c =? 32) || (c =? 12) || (c =? 10) || (c =? 13) || (c =? 9) || (c =? 11).

Definition ch (cp : list Z) : Z := default 0 (head cp).

(** The digits of one number. *)
Fixpoint digits (base val : Z) (cp : list Z) : Z * list Z :=
  match cp with
  | [] => (val, [])
  | c :: cp' =>
      if isdigit c then digits base (u32 (val * base) +% (c - 48))%C cp'
      else if (base =? 16) && isxdigit c
      then digits base (Z.lor (u32 (Z.shiftl val 4)) (c + 10 - (if islower c then 97 else 65))) cp'
      else (val, cp)
  end.

(** One number: 0x=hex, 0=octal, 1-9=decimal. *)
Definition number (cp : list Z) : option (Z * list Z) :=
  if negb (isdigit (ch cp)) then None else
  if ch cp =? 48 then
    let cp := tail cp in
    if (ch cp =? 120) || (ch cp =? 88) then Some (digits 16 0 (tail cp))
    else Some (digits 8 0 cp)
  else Some (digits 10 0 cp).

(** The numbers up to the first character that is no dot; [room] is [parts + 3 - pp]. *)
Fixpoint numbers (room : nat) (parts : list Z) (cp : list Z) : option (list Z * Z * list Z) :=
  x ← number cp;
  let '(val, cp) := x in
  if ch cp =? 46 then
    match room with
    | O => None
    | S room => numbers room (parts ++ [val]) (tail cp)
    end
  else Some (parts, val, cp).

Definition concoct (parts : list Z) (val : Z) : option Z :=
  match parts with
  | [] => Some val
  | [a] => if 0xffffff <? val then None else if 0xff <? a then None
           else Some (Z.lor val (Z.shiftl a 24))
  | [a; b] => if 0xffff <? val then None else if (0xff <? a) || (0xff <? b) then None
              else Some (Z.lor val (Z.lor (Z.shiftl a 24) (Z.shiftl b 16)))
  | [a; b; c] => if 0xff <? val then None else if (0xff <? a) || (0xff <? b) || (0xff <? c) then None
                 else Some (Z.lor val (Z.lor (Z.lor (Z.shiftl a 24) (Z.shiftl b 16)) (Z.shiftl c 8)))
  | _ => Some val
  end.

(** [None] is the result 0. *)
Definition ip4addr_aton (cp : list Z) : option Z :=
  x ← numbers 3 [] cp;
  let '(parts, val, cp) := x in
  if negb (ch cp =? 0) && negb (isspace (ch cp)) then None else
  val ← concoct parts val;
  Some (lwip_htonl val).

Definition ipaddr_addr (cp : list Z) : Z := default IPADDR_NONE (ip4addr_aton cp).

(** The digits of a byte, last one first ([inv]). *)
Fixpoint inv_digits (fuel : nat) (ap : Z) : list Z :=
  match fuel with
  | O => []
  | S fuel => (48 + ap mod 10) :: (if ap / 10 =? 0 then [] else inv_digits fuel (ap / 10))
  end.

(** Append the characters [cs]; [None] when the buffer is full. *)
Fixpoint put (buflen : Z) (cs out : list Z) : option (list Z) :=
  match cs with
  | [] => Some out
  | c :: cs => if buflen <=? Z.of_nat (length out) then None else put buflen cs (out ++ [c])
  end.

Fixpoint ntoa_loop (buflen : Z) (aps out : list Z) : option (list Z) :=
  match aps with
  | [] => Some out
  | ap :: aps =>
      out ← put buflen (rev (inv_digits 3 ap)) out;
      out ← put buflen [46] out;
      ntoa_loop buflen aps out
  end.

(** The buffer up to the terminator, which replaces the last dot; [None] is NULL. *)
Definition ip4addr_ntoa_r (addr buflen : Z) : option (list Z) :=
  out ← ntoa_loop buflen [ip4_addr1 addr; ip4_addr2 addr; ip4_addr3 addr; ip4_addr4 addr] [];
  Some (removelast out).

Definition ip4addr_ntoa (addr : Z) : option (list Z) := ip4addr_ntoa_r addr IP4ADDR_STRLEN_MAX.

Example ntoa1 : ip4addr_ntoa 0x0100a8c0 = Some [49;57;50;46;49;54;56;46;48;46;49].
Proof. reflexivity. Qed.
Example aton1 : ip4addr_aton [48;120;67;48;46;48;50;53;48;46;49] = Some 0x0100a8c0.
Proof. reflexivity. Qed.
Example aton2 : ip4addr_aton [49;46;50;46;51;46;50;53;54] = None.
Proof. reflexivity. Qed.
Example nm1 : map ip4_addr_netmask_valid [0; 0x00ffffff; 0xffffffff; 0x00ff00ff; 0x000000ff; 0x80ffffff] =
  [true; true; true; false; true; true].
Proof. reflexivity. Qed.

(** ** Byte order *)
Lemma land_ones32 a : is_u32 a -> Z.land a (Z.ones 32) = a.
Proof. intros H. rewrite Z.land_ones by lia. by apply Z.mod_small. Qed.

Ltac bytewise :=
  unfold lwip_htonl, lwip_htons, PP_HTONL, PP_HTONS, ip4_addr1, ip4_addr2, ip4_addr3, ip4_addr4, u32, u16;
  change 4294967296 with (2 ^ 32); change 65536 with (2 ^ 16); change 0xff with (Z.ones 8);
  change 0xff00 with (Z.shiftl (Z.ones 8) 8); change 0xff0000 with (Z.shiftl (Z.ones 8) 16);
  change 0xff000000 with (Z.shiftl (Z.ones 8) 24); rewrite <- ?Z.land_ones by lia; prove_Zeq_bitwise.

Lemma htonl_concoct a : is_u32 a ->
  lwip_htonl (Z.lor (ip4_addr4 a)
    (Z.lor (Z.lor (Z.shiftl (ip4_addr1 a) 24) (Z.shiftl (ip4_addr2 a) 16)) (Z.shiftl (ip4_addr3 a) 8))) = a.
Proof. intros H. transitivity (Z.land a (Z.ones 32)); [clear H; bytewise|by apply land_ones32]. Qed.

Lemma htonl_involutive a : is_u32 a -> lwip_htonl (lwip_htonl a) = a.
Proof. intros H. transitivity (Z.land a (Z.ones 32)); [clear H; bytewise|by apply land_ones32]. Qed.

Lemma htonl_u32 a : is_u32 (lwip_htonl a).
Proof. apply u32_range. Qed.

(** ** Printing and parsing a number *)
Definition dec (b : Z) : list Z := rev (inv_digits 3 b).

(** The value of the decimal digits [l] behind those of [v]. *)
Definition fold_digits (base v : Z) (l : list Z) : Z :=
  foldl (fun v c => (u32 (v * base) +% (c - 48))%C) v l.

Lemma digits_app base v l rest : Forall (fun c => isdigit c = true) l ->
  digits base v (l ++ rest) = digits base (fold_digits base v l) rest.
Proof.
  revert v; induction l as [|c l IH]; intros v; [done|]. intros [Hc Hl]%Forall_cons.
  cbn [app digits fold_digits foldl]. rewrite Hc. by apply IH.
Qed.

Lemma digits_stop base v rest : isdigit (ch rest) = false -> base <> 16 -> digits base v rest = (v, rest).
Proof.
  destruct rest as [|c rest]; [done|]. cbn. intros -> Hb. by rewrite (proj2 (Z.eqb_neq base 16)).
Qed.

Definition dec_ok (b : Z) : bool :=
  match dec b with
  | [] => false
  | c :: l => forallb isdigit (c :: l) && (length l <? 3)%nat &&
      (if c =? 48 then (b =? 0) && (length l =? 0)%nat else fold_digits 10 0 (c :: l) =? b)
  end.

Lemma dec_all b : is_byte b -> dec_ok b = true.
Proof.
  intros H. unfold is_byte in H.
  assert (K : forallb (fun i => dec_ok (Z.of_nat i)) (seq 0 256) = true) by (by vm_compute).
  rewrite forallb_forall in K. specialize (K (Z.to_nat b) ltac:(apply in_seq; lia)).
  by rewrite Z2Nat.id in K by lia.
Qed.

Lemma dec_spec b rest : is_byte b ->
  isdigit (ch rest) = false -> ch rest <> 120 -> ch rest <> 88 ->
  number (dec b ++ rest) = Some (b, rest) /\ (1 <= length (dec b) <= 3)%nat.
Proof.
  intros Hb Hr Hx HX. pose proof (dec_all b Hb) as K. unfold dec_ok in K.
  destruct (dec b) as [|c l] eqn:E; [done|]. apply andb_prop in K as [[K1 K2]%andb_prop K3].
  apply Nat.ltb_lt in K2. split; [|cbn; lia]. rewrite forallb_forall in K1.
  assert (Hd : Forall (fun c => isdigit c = true) (c :: l)).
  { apply Forall_forall. intros x Hx'. apply K1. by apply list_elem_of_In. }
  unfold number. replace (ch ((c :: l) ++ rest)) with c by done. pose proof (Forall_inv Hd) as Hc. cbn beta in Hc. rewrite Hc. cbn [negb].
  destruct (Z.eqb_spec c 48) as [->|Hc0].
  - apply andb_prop in K3 as [->%Z.eqb_eq Hl%Nat.eqb_eq]. destruct l; [|done]. cbn [app tail].
    rewrite (proj2 (Z.eqb_neq _ _) Hx), (proj2 (Z.eqb_neq _ _) HX). cbn [orb]. by rewrite digits_stop.
  - apply Z.eqb_eq in K3. rewrite digits_app, K3 by done. by rewrite digits_stop.
Qed.

Lemma numbers_dot room parts b rest : is_byte b ->
  numbers (S room) parts (dec b ++ 46 :: rest) = numbers room (parts ++ [b]) rest.
Proof. intros Hb. cbn [numbers]. destruct (dec_spec b (46 :: rest) Hb) as [-> _]; done. Qed.

Lemma put_spec buflen cs out :
  put buflen cs out = if Z.of_nat (length out) + Z.of_nat (length cs) <=? buflen then Some (out ++ cs)
                      else if decide (cs = []) then Some (out ++ cs) else None.
Proof.
  revert out; induction cs as [|c cs IH]; intros out; cbn [put length].
  - rewrite app_nil_r. by destruct (_ <=? _).
  - rewrite IH, length_app. cbn [length]. rewrite <- app_assoc. cbn [app].
    destruct (Z.leb_spec buflen (Z.of_nat (length out))), (Z.leb_spec (Z.of_nat (length out) + Z.of_nat (S (length cs))) buflen);
      [lia|done| |].
    + by rewrite (proj2 (Z.leb_le _ _)) by lia.
    + rewrite (proj2 (Z.leb_gt _ _)) by lia. case_decide as Hd; [|done]. subst cs. cbn in *. lia.
Qed.

Definition dotted (aps : list Z) : list Z := concat (map (fun b => dec b ++ [46]) aps).

Lemma ntoa_loop_spec buflen aps out : Forall is_byte aps -> Z.of_nat (length out) <= buflen ->
  ntoa_loop buflen aps out =
  if Z.of_nat (length (out ++ dotted aps)) <=? buflen then Some (out ++ dotted aps) else None.
Proof.
  revert out; induction aps as [|b aps IH]; intros out Hb Ho; cbn [ntoa_loop dotted concat map].
  - rewrite app_nil_r. by rewrite (proj2 (Z.leb_le _ _)) by done.
  - apply Forall_cons in Hb as [Hb1 Hb]. destruct (dec_spec b [] Hb1) as [_ Hl]; [done..|].
    fold (dotted aps). fold (dec b). rewrite put_spec, decide_False by (intros E; rewrite E in Hl; cbn in Hl; lia).
    rewrite !length_app. cbn [length]. destruct (Z.leb_spec (Z.of_nat (length out) + Z.of_nat (length (dec b))) buflen) as [H1|H1].
    2: { cbn [mbind option_bind]. by rewrite (proj2 (Z.leb_gt _ _)) by lia. }
    cbn [mbind option_bind]. rewrite put_spec, decide_False, length_app by done. cbn [length].
    destruct (Z.leb_spec (Z.of_nat (length out + length (dec b)) + Z.of_nat 1) buflen) as [H2|H2].
    2: { cbn [mbind option_bind]. by rewrite (proj2 (Z.leb_gt _ _)) by lia. }
    cbn [mbind option_bind]. rewrite IH by (done || rewrite !length_app; cbn [length]; lia).
    rewrite !length_app, <- !app_assoc, <- !Nat.add_assoc. reflexivity.
Qed.

Lemma octets a : Forall is_byte [ip4_addr1 a; ip4_addr2 a; ip4_addr3 a; ip4_addr4 a].
Proof.
  assert (K : forall x, is_byte (Z.land x 0xff)).
  { intros x. change 0xff with (Z.ones 8). rewrite Z.land_ones by lia. by apply Z.mod_pos_bound. }
  repeat (apply Forall_cons_2; [apply K|]). apply Forall_nil_2.
Qed.

Definition ends_number (rest : list Z) : Prop := ch rest = 0 \/ isspace (ch rest) = true.

Lemma ends_number_stop rest : ends_number rest ->
  isdigit (ch rest) = false /\ ch rest <> 120 /\ ch rest <> 88 /\ (ch rest =? 46) = false /\
  negb (ch rest =? 0) && negb (isspace (ch rest)) = false.
Proof.
  unfold ends_number. generalize (ch rest). intros c [->|H]; [done|]. rewrite H, andb_false_r.
  unfold isspace in H. rewrite !orb_true_iff, !Z.eqb_eq in H.
  decompose [or] H; subst c; done.
Qed.

Lemma aton_dotted a b c d rest : Forall is_byte [a; b; c; d] -> ends_number rest ->
  ip4addr_aton (removelast (dotted [a; b; c; d]) ++ rest) =
  Some (lwip_htonl (Z.lor d (Z.lor (Z.lor (Z.shiftl a 24) (Z.shiftl b 16)) (Z.shiftl c 8)))).
Proof.
  intros Hb Hr. rewrite !Forall_cons in Hb. destruct Hb as (Ha & Hb & Hc & Hd & _).
  destruct (ends_number_stop rest Hr) as (R1 & R2 & R3 & R4 & R5).
  assert (E : removelast (dotted [a; b; c; d]) ++ rest = dec a ++ 46 :: dec b ++ 46 :: dec c ++ 46 :: dec d ++ rest).
  { unfold dotted. cbn [map concat]. rewrite app_nil_r, !app_assoc, removelast_app by done. cbn [removelast].
    rewrite app_nil_r, <- !app_assoc. reflexivity. }
  rewrite E. unfold ip4addr_aton. rewrite !numbers_dot by done. cbn [numbers app].
  destruct (dec_spec d rest Hd R1 R2 R3) as [-> _]. cbn [mbind option_bind]. rewrite R4. cbn [mbind option_bind].
  rewrite R5. unfold concoct, is_byte in *. rewrite !(proj2 (Z.ltb_ge _ _)) by lia. reflexivity.
Qed.

(** ip4addr_aton reads back what ip4addr_ntoa prints, for every address, up to a
    following blank or the terminator; ip4addr_ntoa_r fails exactly when text and
    terminator exceed the buffer. *)
Theorem ntoa_aton_roundtrip a buflen rest : is_u32 a -> 0 <= buflen -> ends_number rest ->
  exists s, (7 <= length s <= 15)%nat /\
    ip4addr_ntoa_r a buflen = (if Z.of_nat (length s) + 1 <=? buflen then Some s else None) /\
    ip4addr_ntoa a = Some s /\ ip4addr_aton (s ++ rest) = Some a.
Proof.
  intros Ha Hbuf Hr. set (aps := [ip4_addr1 a; ip4_addr2 a; ip4_addr3 a; ip4_addr4 a]).
  pose proof (octets a) as Hb. fold aps in Hb. exists (removelast (dotted aps)).
  assert (Hl : Z.of_nat (length (dotted aps)) = Z.of_nat (length (removelast (dotted aps))) + 1 /\
    (8 <= length (dotted aps) <= 16)%nat).
  { assert (K : forall b, is_byte b -> (1 <= length (dec b) <= 3)%nat) by (intros b H; by destruct (dec_spec b [] H)).
    subst aps. rewrite !Forall_cons in Hb. destruct Hb as (H1 & H2 & H3 & H4 & _).
    apply K in H1, H2, H3, H4. unfold dotted. cbn [map concat]. rewrite app_nil_r, !app_assoc.
    rewrite removelast_app by done. cbn [removelast]. rewrite app_nil_r, !length_app. cbn [length]. lia. }
  destruct Hl as [Hl1 Hl2]. split; [lia|].
  assert (Hn : forall n, 0 <= n -> ip4addr_ntoa_r a n =
    if Z.of_nat (length (removelast (dotted aps))) + 1 <=? n then Some (removelast (dotted aps)) else None).
  { intros n H0. unfold ip4addr_ntoa_r. fold aps. rewrite ntoa_loop_spec by done. cbn [app]. rewrite Hl1.
    by destruct (_ <=? _). }
  split; [by apply Hn|]. split.
  - unfold ip4addr_ntoa. rewrite Hn by done. rewrite (proj2 (Z.leb_le _ _)); [done|]. unfold IP4ADDR_STRLEN_MAX. lia.
  - subst aps. rewrite aton_dotted by done. by rewrite htonl_concoct.
Qed.

Lemma ntoa_aton_roundtrip_witness : exists s, ip4addr_ntoa 0x0100a8c0 = Some s /\ ip4addr_aton (s ++ [13; 10]) = Some 0x0100a8c0.
Proof.
  destruct (ntoa_aton_roundtrip 0x0100a8c0 16 [13; 10] ltac:(split; by vm_compute) ltac:(lia) ltac:(by right)) as (s & _ & _ & H1 & H2).
  by exists s.
Defined.

(** ** Netmasks *)
Lemma land_pow2 n j : 0 <= j -> (Z.land n (2 ^ j) =? 0) = negb (Z.testbit n j).
Proof.
  intros Hj. destruct (Z.testbit n j) eqn:E.
  - apply Z.eqb_neq. intros H. apply (f_equal (fun x => Z.testbit x j)) in H.
    by rewrite Z.land_spec, E, Z.pow2_bits_true, Z.bits_0 in H.
  - apply Z.eqb_eq, Z.bits_inj'. intros i Hi. rewrite Z.land_spec, Z.bits_0, Z.pow2_bits_eqb by done.
    destruct (Z.eqb_spec j i) as [<-|_]; [by rewrite E|by rewrite andb_false_r].
Qed.

Lemma shiftr_pow2 j : Z.shiftr (2 ^ Z.of_nat j) 1 = match j with O => 0 | S j => 2 ^ Z.of_nat j end.
Proof.
  destruct j; [done|]. rewrite Z.shiftr_div_pow2, Nat2Z.inj_succ, Z.pow_succ_r by lia.
  rewrite Z.mul_comm. by apply Z.div_mul.
Qed.

Lemma no_one_spec j fuel n : (j + 1 < fuel)%nat ->
  no_one fuel n (2 ^ Z.of_nat j) = true <-> forall i, 0 <= i <= Z.of_nat j -> Z.testbit n i = false.
Proof.
  revert fuel; induction j as [|j IH]; intros [|fuel] Hf; try lia; cbn [no_one];
    rewrite (proj2 (Z.eqb_neq _ _)) by (apply Z.pow_nonzero; lia); rewrite land_pow2, negb_involutive, shiftr_pow2 by lia.
  - destruct (Z.testbit n (Z.of_nat 0)) eqn:E.
    + split; [done|]. intros H. by rewrite H in E by lia.
    + split; [|destruct fuel; [lia|done]]. intros _ i Hi. by replace i with 0 by lia.
  - destruct (Z.testbit n (Z.of_nat (S j))) eqn:E.
    + split; [done|]. intros H. by rewrite H in E by lia.
    + rewrite IH by lia. split; [|intros H i Hi; apply H; lia]. intros H i Hi.
      destruct (Z.eq_dec i (Z.of_nat (S j))) as [->|]; [done|]. apply H. lia.
Qed.

Lemma first_zero_spec j fuel n : (j + 1 < fuel)%nat ->
  (exists i, (i <= j)%nat /\ first_zero fuel n (2 ^ Z.of_nat j) = 2 ^ Z.of_nat i /\ Z.testbit n (Z.of_nat i) = false /\
     forall x, Z.of_nat i < x <= Z.of_nat j -> Z.testbit n x = true) \/
  (first_zero fuel n (2 ^ Z.of_nat j) = 0 /\ forall x, 0 <= x <= Z.of_nat j -> Z.testbit n x = true).
Proof.
  revert fuel; induction j as [|j IH]; intros [|fuel] Hf; try lia; cbn [first_zero];
    rewrite (proj2 (Z.eqb_neq _ _)) by (apply Z.pow_nonzero; lia); rewrite land_pow2, shiftr_pow2 by lia.
  - destruct (Z.testbit n (Z.of_nat 0)) eqn:E; cbn [negb].
    + right. split; [by destruct fuel|]. intros x Hx. by replace x with 0 by lia.
    + left. exists 0%nat. split; [done|]. split; [done|]. split; [done|]. lia.
  - destruct (Z.testbit n (Z.of_nat (S j))) eqn:E; cbn [negb].
    + assert (K : forall x, (x = Z.of_nat (S j) \/ Z.testbit n x = true) -> Z.testbit n x = true) by (intros x [->|?]; done).
      destruct (IH fuel ltac:(lia)) as [(i & Hi & H1 & H2 & H3)|[H1 H2]].
      * left. exists i. split; [lia|]. split; [done|]. split; [done|]. intros x Hx. apply K.
        destruct (Z.eq_dec x (Z.of_nat (S j))); [by left|right; apply H3; lia].
      * right. split; [done|]. intros x Hx. apply K. destruct (Z.eq_dec x (Z.of_nat (S j))); [by left|right; apply H2; lia].
    + left. exists (S j). split; [done|]. split; [done|]. split; [done|]. lia.
Qed.

Lemma mask_bits n k : is_u32 n -> 0 <= k <= 32 ->
  n = 2 ^ 32 - 2 ^ k <-> forall i, 0 <= i < 32 -> Z.testbit n i = (k <=? i).
Proof.
  intros Hn Hk. replace (2 ^ 32 - 2 ^ k) with (Z.shiftl (Z.ones (32 - k)) k).
  2: { rewrite Z.shiftl_mul_pow2, Z.ones_equiv, <- Z.sub_1_r, Z.mul_sub_distr_r, <- Z.pow_add_r by lia.
       by replace (32 - k + k) with 32 by lia; rewrite Z.mul_1_l. }
  split.
  - intros -> i Hi. rewrite Z.shiftl_spec by lia. destruct (Z.leb_spec k i).
    + apply Z.ones_spec_low. lia.
    + apply Z.testbit_neg_r. lia.
  - intros H. apply Z.bits_inj'. intros i Hi. rewrite Z.shiftl_spec by lia. destruct (Z.lt_ge_cases i 32) as [Hi2|Hi2].
    + rewrite H by lia. destruct (Z.leb_spec k i); [symmetry; apply Z.ones_spec_low; lia|symmetry; apply Z.testbit_neg_r; lia].
    + rewrite Z.ones_spec_high by lia. rewrite <- (land_ones32 n Hn), Z.land_spec, (Z.ones_spec_high 32), andb_false_r by lia.
      done.
Qed.

(** ip4_addr_netmask_valid accepts exactly the masks that are ones followed by zeros in
    network byte order. *)
Theorem netmask_valid_prefix netmask :
  ip4_addr_netmask_valid netmask = true <->
  exists k, 0 <= k <= 32 /\ lwip_htonl netmask = 2 ^ 32 - 2 ^ k.
Proof.
  unfold ip4_addr_netmask_valid. pose proof (htonl_u32 netmask) as Hn. set (n := lwip_htonl netmask) in *.
  change (Z.shiftl 1 31) with (2 ^ Z.of_nat 31). destruct (first_zero_spec 31 33 n ltac:(lia)) as [(i & Hi & -> & H2 & H3)|[-> H2]].
  - rewrite no_one_spec by lia. split.
    + intros H. exists (Z.of_nat i + 1). split; [lia|]. apply mask_bits; [done|lia|]. intros x Hx.
      destruct (Z.leb_spec (Z.of_nat i + 1) x); [apply H3; lia|apply H; lia].
    + intros (k & Hk & E) x Hx. rewrite (mask_bits n k Hn Hk) in E.
      assert (Z.of_nat i < k) by (rewrite E in H2 by lia; by apply Z.leb_gt in H2).
      rewrite E by lia. apply Z.leb_gt. lia.
  - split; [|done]. intros _. exists 0. split; [lia|]. apply mask_bits; [done|lia|]. intros x Hx. rewrite H2 by lia.
    symmetry. apply Z.leb_le. lia.
Qed.
