(* ===== verification/LwipStr.v ===== *)
(** * String functions (lwip-2.0.3/src/core/def.c)

    C strings as in Ip4Addr: lists of character codes other than 0, behind which the
    terminator is read.  Proved: the search finds the first occurrence, the comparisons ignore
    the case of letters and nothing else - the one with a length compares one character more -
    and printed numbers are read back. *)
From Stdlib Require String Ascii.
Import String.StringSyntax.
#[local] Open Scope string_scope.
#[local] Open Scope Z_scope.
From S2P Require Import Prelude Ip4Addr.

Definition c_string (s : list Z) : Prop := Forall (fun c => 0 < c < 256) s.

(** ** Search *)

(** [strncmp(a, b, n) == 0] of the C library. *)
Fixpoint strncmp_eq (a b : list Z) (n : nat) : bool :=
  match n with
  | O => true
  | S n => if ch a =? ch b then if ch a =? 0 then true else strncmp_eq (tail a) (tail b) n else false
  end.
(** [off] is [p - buffer]. *)
Fixpoint strnstr_loop (token : list Z) (n off : Z) (p : list Z) : option Z :=
  match p with
  | [] => None
  | c :: p' =>
      if off + slen token <=? n then
        if (c =? ch token) && strncmp_eq p token (length token) then Some off else strnstr_loop token n (off + 1) p'
      else None
  end.
(** The offset in the buffer; [None] is NULL. *)
Definition lwip_strnstr (buffer token : list Z) (n : Z) : option Z :=
  if slen token =? 0 then Some 0 else strnstr_loop token n 0 buffer.

(** ** Comparison *)

(** The body of the loops returns 1. *)
Definition chars_differ (c1 c2 : Z) : bool :=
  if negb (c1 =? c2) then
    let c1_upc := Z.lor c1 0x20 in
    if (97 <=? c1_upc) && (c1_upc <=? 122) then negb (c1_upc =? Z.lor c2 0x20) else true
  else false.
Fixpoint lwip_stricmp (str1 str2 : list Z) : Z :=
  if chars_differ (ch str1) (ch str2) then 1
  else match str1 with [] => 0 | _ :: str1 => lwip_stricmp str1 (tail str2) end.
Fixpoint lwip_strnicmp (str1 str2 : list Z) (len : nat) : Z :=
  if chars_differ (ch str1) (ch str2) then 1
  else match len, str1 with S len, _ :: str1 => lwip_strnicmp str1 (tail str2) len | _, _ => 0 end.

(** ** Numbers *)
Definition itoa_chars : list Z :=
  map (fun c => Z.of_nat (Ascii.nat_of_ascii c))
    (String.list_ascii_of_string "zyxwvutsrqponmlkjihgfedcba9876543210123456789abcdefghijklmnopqrstuvwxyz").
(** The characters in the order in which they are stored, and the last [tmp_value]. *)
Fixpoint itoa_digits (fuel : nat) (number : Z) : list Z * Z :=
  match fuel with
  | O => ([], number)
  | S fuel =>
      let q := Z.quot number 10 in
      let c := itoa_chars !!! Z.to_nat (35 + (number - q * 10)) in
      if q =? 0 then ([c], number) else let r := itoa_digits fuel q in (c :: r.1, r.2)
  end.
(** [while (ptr1 < ptr)]: the two characters change places. *)
Fixpoint swap_ends (fuel : nat) (ptr1 ptr : nat) (result : list Z) : list Z :=
  match fuel with
  | O => result
  | S fuel =>
      if (ptr1 <? ptr)%nat
      then swap_ends fuel (S ptr1) (pred ptr) (<[ptr1 := result !!! ptr]> (<[ptr := result !!! ptr1]> result))
      else result
  end.
(** The characters before the terminator; [bufsize] is not used. *)
Definition lwip_itoa (number : Z) : list Z :=
  let r := itoa_digits 10 number in
  let cs := if r.2 <? 0 then r.1 ++ [45] else r.1 in
  swap_ends (length cs) 0 (pred (length cs)) cs.

Example itoa1 : map lwip_itoa [0; 7; -40; 2147483647; -2147483648] =
  [[48]; [55]; [45;52;48]; [50;49;52;55;52;56;51;54;52;55]; [45;50;49;52;55;52;56;51;54;52;56]].
Proof. reflexivity. Qed.
Example strnstr1 : lwip_strnstr [65;66;65;66;67] [65;66;67] 5 = Some 2 /\ lwip_strnstr [65;66;65;66;67] [65;66;67] 4 = None.
Proof. done. Qed.

(** ** The search finds the first occurrence *)
Lemma strncmp_prefix token p : c_string token -> strncmp_eq p token (length token) = true <-> token `prefix_of` p.
Proof.
  revert p. induction token as [|t token IH]; intros p; [split; [intros; apply prefix_nil|done]|].
  intros [Ht Hs]%Forall_cons. cbn [length strncmp_eq].
  change (ch (t :: token)) with t. destruct p as [|c p]; cbn [tail].
  - change (ch []) with 0. rewrite (proj2 (Z.eqb_neq 0 t)) by lia. split; [done|]. intros H. by apply prefix_nil_inv in H.
  - change (ch (c :: p)) with c. destruct (Z.eqb_spec c t) as [->|N].
    + rewrite (proj2 (Z.eqb_neq t 0)) by lia. rewrite IH by done. split; [apply prefix_cons|apply prefix_cons_inv_2].
    + split; [done|]. intros H. by apply prefix_cons_inv_1 in H.
Qed.

(** The token stands at offset [i], within the first [n] characters. *)
Definition occurs (buffer token : list Z) (n i : Z) : Prop :=
  0 <= i /\ token `prefix_of` drop (Z.to_nat i) buffer /\ i + slen token <= n.
Definition first_occurrence (buffer token : list Z) (n : Z) (r : option Z) : Prop :=
  match r with
  | Some i => occurs buffer token n i /\ forall j, occurs buffer token n j -> i <= j
  | None => forall j, ~ occurs buffer token n j
  end.

Lemma strnstr_loop_first token n p : c_string token -> token <> [] -> forall off,
  first_occurrence p token (n - off) ((fun i => i - off) <$> strnstr_loop token n off p).
Proof.
  intros Ht Hn. induction p as [|c p IH]; intros off; cbn [strnstr_loop].
  - intros j (_ & H & _). rewrite drop_nil in H. by apply prefix_nil_inv in H.
  - destruct (Z.leb_spec (off + slen token) n) as [Hl|Hl].
    2: { intros j (H1 & _ & H2). lia. }
    assert (E : (c =? ch token) && strncmp_eq (c :: p) token (length token) = true <-> token `prefix_of` c :: p).
    { rewrite andb_true_iff, strncmp_prefix, Z.eqb_eq by done. split; [by intros []|]. intros H. split; [|done].
      destruct token as [|t token]; [done|]. by apply prefix_cons_inv_1 in H as ->. }
    destruct (_ && _).
    + cbn. rewrite Z.sub_diag. split; [|by intros j (H & _)]. split; [done|]. split; [by apply E|lia].
    + assert (H0 : ~ occurs (c :: p) token (n - off) 0) by (intros (_ & H & _); by apply E in H).
      assert (Hs : forall j, occurs (c :: p) token (n - off) j -> 0 < j /\ occurs p token (n - (off + 1)) (j - 1)).
      { intros j Hj. destruct (Z.eq_dec j 0) as [->|]; [done|]. destruct Hj as (H1 & H2 & H3). split; [lia|]. split; [lia|].
        split; [|lia]. replace (Z.to_nat j) with (S (Z.to_nat (j - 1))) in H2 by lia. exact H2. }
      specialize (IH (off + 1)). destruct (strnstr_loop token n (off + 1) p) as [i|]; cbn in *.
      * destruct IH as [(H1 & H2 & H3) H4]. split.
        { split; [lia|]. split; [|lia]. replace (Z.to_nat (i - off)) with (S (Z.to_nat (i - (off + 1)))) by lia. exact H2. }
        intros j [Hj Ho]%Hs. specialize (H4 _ Ho). lia.
      * intros j [Hj Ho]%Hs. by apply (IH (j - 1)).
Qed.

(** lwip_strnstr returns the first position at which the token occurs in the text within
    its first n characters, and NULL exactly when there is none. *)
Theorem strnstr_first buffer token n : c_string token ->
  if slen token =? 0 then lwip_strnstr buffer token n = Some 0
  else first_occurrence buffer token n (lwip_strnstr buffer token n).
Proof.
  intros Ht. unfold lwip_strnstr. destruct (Z.eqb_spec (slen token) 0) as [|N]; [done|].
  assert (Hn : token <> []) by (intros ->; done). pose proof (strnstr_loop_first token n buffer Ht Hn 0) as H.
  rewrite Z.sub_0_r in H. destruct (strnstr_loop token n 0 buffer) as [i|]; [|done]. cbn in H. by rewrite Z.sub_0_r in H.
Qed.
Lemma strnstr_first_witness : let buffer := [65;66;65;66;67] in let token := [65;66;67] in
  first_occurrence buffer token 5 (Some 2) /\ first_occurrence buffer token 4 None.
Proof.
  intros buffer token. assert (H : c_string token) by (repeat apply Forall_cons_2; [lia..|apply Forall_nil_2]).
  split; [exact (strnstr_first buffer token 5 H)|exact (strnstr_first buffer token 4 H)].
Defined.

(** ** The comparisons ignore the case of letters *)
Definition lower (c : Z) : Z := if (65 <=? c) && (c <=? 90) then c + 32 else c.
Lemma chars_differ_spec c1 c2 : 0 <= c1 < 256 -> 0 <= c2 < 256 -> chars_differ c1 c2 = negb (lower c1 =? lower c2).
Proof.
  intros H1 H2.
  assert (H : forallb (fun x => forallb (fun y => Bool.eqb (chars_differ x y) (negb (lower x =? lower y))) (seqZ 0 256)) (seqZ 0 256) = true)
    by (vm_compute; reflexivity).
  rewrite forallb_forall in H. specialize (H c1). rewrite <- list_elem_of_In, elem_of_seqZ in H. specialize (H H1).
  rewrite forallb_forall in H. specialize (H c2). rewrite <- list_elem_of_In, elem_of_seqZ in H. by apply eqb_prop, H.
Qed.
Lemma ch_range s : c_string s -> 0 <= ch s < 256.
Proof. intros H. destruct s as [|c s]; [done|]. apply Forall_cons in H as [H _]. cbn. lia. Qed.
Lemma tail_string s : c_string s -> c_string (tail s).
Proof. intros H. destruct s; [done|]. by apply Forall_cons in H as [_ H]. Qed.
Lemma lower_zero c : 0 < c -> lower c <> 0.
Proof. unfold lower. destruct (_ && _); lia. Qed.

(** The characters with the terminator, in lower case. *)
Definition folded (s : list Z) : list Z := map lower s ++ [0].
Lemma folded_cons s : folded s = lower (ch s) :: match s with [] => [] | _ :: s => folded s end.
Proof. by destruct s. Qed.

(** lwip_strnicmp tells two strings equal exactly when their first len + 1 characters,
    the terminators included, are equal but for the case of letters. *)
Theorem strnicmp_exact a b len : c_string a -> c_string b ->
  lwip_strnicmp a b len = if decide (take (S len) (folded a) = take (S len) (folded b)) then 0 else 1.
Proof.
  revert b len. induction a as [|c a IH]; intros b len Ha Hb; rewrite folded_cons, (folded_cons b); cbn [take lwip_strnicmp];
    rewrite chars_differ_spec by (apply ch_range; done).
  - destruct (Z.eqb_spec (lower (ch [])) (lower (ch b))) as [E|N]; cbn [negb].
    + destruct b as [|d b]; [destruct len; by rewrite decide_True|]. apply Forall_cons in Hb as [Hd _].
      pose proof (lower_zero d ltac:(lia)). cbn in E. lia.
    + rewrite decide_False; [by destruct len|]. by intros [= E _].
  - destruct (Z.eqb_spec (lower (ch (c :: a))) (lower (ch b))) as [E|N]; cbn [negb].
    2: { rewrite decide_False; [by destruct len|]. by intros [= E _]. }
    rewrite <- E. destruct len as [|len]; [by rewrite decide_True|]. apply Forall_cons in Ha as [Hc Ha].
    destruct b as [|d b]; [cbn in E; by pose proof (lower_zero c ltac:(lia))|]. cbn [tail].
    rewrite (IH b len Ha (tail_string _ Hb)). apply decide_ext. split; [by intros ->|by intros [= H]].
Qed.
Lemma strnicmp_exact_witness : lwip_strnicmp [79; 116; 65] [111; 84; 66] 1 = 0 /\ lwip_strnicmp [79; 116; 65] [111; 84; 66] 2 = 1.
Proof.
  assert (H : c_string [79; 116; 65] /\ c_string [111; 84; 66]).
  { unfold c_string. rewrite !Forall_cons, !Forall_nil. lia. }
  destruct H as [H1 H2]. split; [exact (strnicmp_exact _ _ 1 H1 H2)|exact (strnicmp_exact _ _ 2 H1 H2)].
Defined.

Lemma folded_inj a b : folded a = folded b -> map lower a = map lower b.
Proof. apply app_inj_tail. Qed.
Lemma stricmp_nicmp a b n : (length a <= n)%nat -> lwip_stricmp a b = lwip_strnicmp a b n.
Proof.
  revert b n. induction a as [|c a IH]; intros b n Hn; cbn [lwip_stricmp lwip_strnicmp]; [by destruct n|].
  destruct n as [|n]; cbn in Hn; [lia|]. by rewrite (IH (tail b) n) by lia.
Qed.
(** lwip_stricmp tells two strings equal exactly when they are equal but for the case of
    letters. *)
Theorem stricmp_exact a b : c_string a -> c_string b -> lwip_stricmp a b = if decide (map lower a = map lower b) then 0 else 1.
Proof.
  intros Ha Hb. rewrite (stricmp_nicmp a b (length a + length b)), strnicmp_exact by (done || lia).
  assert (L : forall s, length (folded s) = S (length s)) by (intros s; unfold folded; rewrite length_app, length_map; cbn; lia).
  rewrite !take_ge by (rewrite L; lia). apply decide_ext. split; [apply folded_inj|]. unfold folded. by intros ->.
Qed.
Lemma stricmp_exact_witness : lwip_stricmp [79; 116; 65] [111; 84; 97] = 0 /\ lwip_stricmp [79; 116] [111; 84; 97] = 1.
Proof.
  assert (H : c_string [79; 116; 65] /\ c_string [111; 84; 97] /\ c_string [79; 116]).
  { unfold c_string. rewrite !Forall_cons, !Forall_nil. lia. }
  destruct H as (H1 & H2 & H3). split; [exact (stricmp_exact _ _ H1 H2)|exact (stricmp_exact _ _ H3 H2)].
Defined.

(** With a length of 1 the second characters count. *)
Lemma strnicmp_one_more : take 1 [97; 98] = take 1 [97; 99] /\ lwip_strnicmp [97; 98] [97; 99] 1 = 1.
Proof. done. Qed.

(** ** Numbers *)
Lemma swap_ends_rev fuel a m c : (length m <= fuel)%nat -> m <> [] ->
  swap_ends fuel (length a) (length a + pred (length m)) (a ++ m ++ c) = a ++ rev m ++ c.
Proof.
  revert a m c. induction fuel as [|fuel IH]; intros a m c Hm Hn; [destruct m; [done|cbn in Hm; lia]|]. cbn [swap_ends].
  destruct m as [|x m]; [done|]. destruct (Nat.ltb_spec (length a) (length a + pred (length (x :: m)))) as [L|L]; cbn [length pred] in L.
  2: { destruct m; [done|cbn in L; lia]. }
  destruct (exists_last (l := m)) as (m' & y & ->); [intros ->; cbn in L; lia|].
  assert (Lm : length (x :: m' ++ [y]) = S (length m' + 1)) by (cbn; by rewrite length_app).
  rewrite Lm in *. cbn [Nat.pred] in *.
  assert (Q : a ++ (x :: m' ++ [y]) ++ c = (a ++ x :: m') ++ y :: c) by (by rewrite <- !app_assoc; cbn [app]; rewrite <- app_assoc).
  assert (L1 : (length a + (length m' + 1) = length (a ++ x :: m'))%nat) by (rewrite length_app; cbn; lia).
  assert (E1 : (a ++ (x :: m' ++ [y]) ++ c) !!! length a = x) by (apply list_lookup_total_middle; done).
  assert (E2 : (a ++ (x :: m' ++ [y]) ++ c) !!! (length a + (length m' + 1))%nat = y) by (rewrite Q; by apply list_lookup_total_middle).
  rewrite E1, E2.
  assert (W : <[length a := y]> (<[(length a + (length m' + 1))%nat := x]> (a ++ (x :: m' ++ [y]) ++ c)) = (a ++ [y]) ++ m' ++ x :: c).
  { rewrite Q, L1, insert_app_r_alt, Nat.sub_diag by done. cbn [insert list_insert]. rewrite <- !app_assoc, insert_app_r_alt, Nat.sub_diag by done.
    done. }
  rewrite W. destruct m' as [|z m'].
  - destruct fuel; cbn [swap_ends]; [by rewrite <- !app_assoc|].
    rewrite (proj2 (Nat.ltb_ge _ _)) by (cbn; lia). by rewrite <- !app_assoc.
  - specialize (IH (a ++ [y]) (z :: m') (x :: c)). rewrite length_app in IH. cbn [length] in *.
    replace (S (length a)) with (length a + 1)%nat by lia.
    replace (pred (length a + (S (length m') + 1))) with (length a + 1 + pred (S (length m')))%nat by lia.
    rewrite IH by (done || lia). cbn [rev]. rewrite rev_app_distr. cbn [rev app]. by rewrite <- !app_assoc.
Qed.

Definition dec_value (cs : list Z) : Z := foldl (fun v c => v * 10 + (c - 48)) 0 cs.
(** What a text of digits with an optional sign means. *)
Definition int_value (cs : list Z) : Z := match cs with 45 :: cs => - dec_value cs | _ => dec_value cs end.

Lemma itoa_char r : - 10 < r < 10 -> itoa_chars !!! Z.to_nat (35 + r) = 48 + Z.abs r.
Proof.
  intros H. assert (E : forallb (fun r => itoa_chars !!! Z.to_nat (35 + r) =? 48 + Z.abs r) (seqZ (-9) 19) = true) by reflexivity.
  rewrite forallb_forall in E. apply Z.eqb_eq, E, list_elem_of_In, elem_of_seqZ. lia.
Qed.
Record decimal (n : Z) (cs : list Z) : Prop := {
  dl_digits : Forall (fun c => 48 <= c <= 57) cs;
  dl_value : dec_value (rev cs) = n;
  dl_full : cs <> [];
  dl_lead : (1 < length cs)%nat -> List.last cs 0 <> 48
}.
Lemma itoa_digits_spec fuel n : Z.abs n < 10 ^ Z.of_nat fuel -> (0 < fuel)%nat ->
  let r := itoa_digits fuel n in decimal (Z.abs n) r.1 /\ (length r.1 <= fuel)%nat /\ (r.2 < 0 <-> n < 0) /\
  (n <> 0 -> List.last r.1 0 <> 48).
Proof.
  revert n. induction fuel as [|fuel IH]; intros n Hn Hf; [lia|]. cbn zeta. cbn [itoa_digits].
  pose proof (Z.quot_rem' n 10) as E. pose proof (Z.rem_bound_abs n 10 ltac:(lia)) as R.
  replace (n - Z.quot n 10 * 10) with (Z.rem n 10) by lia. rewrite itoa_char by lia.
  assert (C : 48 <= 48 + Z.abs (Z.rem n 10) <= 57) by lia.
  assert (A : Z.abs n = 10 * Z.abs (Z.quot n 10) + Z.abs (Z.rem n 10)) by (rewrite <- Z.quot_abs, <- Z.rem_abs by lia; apply (Z.quot_rem' (Z.abs n) 10)).
  destruct (Z.eqb_spec (Z.quot n 10) 0) as [Q|Q].
  - cbn [fst snd length List.last]. split; [constructor; cbn [rev app length List.last]|split; [lia|split; [done|lia]]].
    + apply Forall_cons_2; [exact C|done].
    + unfold dec_value. cbn [foldl]. lia.
    + done.
    + lia.
  - assert (Hq : Z.abs (Z.quot n 10) < 10 ^ Z.of_nat fuel).
    { rewrite Nat2Z.inj_succ, Z.pow_succ_r in Hn by lia. lia. }
    destruct fuel as [|fuel]; [cbn in Hq; lia|].
    destruct (IH (Z.quot n 10) Hq ltac:(lia)) as ([D1 D2 D3 D4] & L & S & Z0). clear IH.
    set (r := itoa_digits (Datatypes.S fuel) (Z.quot n 10)) in *. cbn [fst snd].
    assert (N : r.2 < 0 <-> n < 0) by (rewrite S; clear -E R Q; Z.to_euclidean_division_equations; nia).
    split; [constructor|split; [cbn [length]; clear -L; lia|split; [done|]]].
    + apply Forall_cons_2; [exact C|done].
    + cbn [rev]. unfold dec_value in *. rewrite foldl_app, D2. cbn [foldl]. clear -A. lia.
    + done.
    + intros _. destruct r.1 as [|d ds] eqn:Er; [done|]. by apply Z0.
    + intros _. destruct r.1 as [|d ds] eqn:Er; [done|]. by apply Z0.
Qed.

(** lwip_itoa prints every number of 32 bits: read back it is the number, it has no leading
    zeros, and text and terminator take at most twelve bytes. *)
Theorem itoa_roundtrip n : - 2147483648 <= n <= 2147483647 ->
  let s := lwip_itoa n in int_value s = n /\ slen s + 1 <= 12 /\
  exists ds, s = (if n <? 0 then [45] else []) ++ ds /\ Forall (fun c => 48 <= c <= 57) ds /\
    (head ds = Some 48 -> ds = [48]).
Proof.
  intros Hn s. destruct (itoa_digits_spec 10 n ltac:(change (10 ^ Z.of_nat 10) with 10000000000; lia) ltac:(lia)) as ([D1 D2 D3 D4] & L & S & Z0).
  assert (E : s = rev (if (itoa_digits 10 n).2 <? 0 then (itoa_digits 10 n).1 ++ [45] else (itoa_digits 10 n).1)).
  { subst s. unfold lwip_itoa. set (cs := if _ : bool then _ else _). pose proof (swap_ends_rev (length cs) [] cs [] ltac:(lia)) as W.
    cbn [app length Nat.add] in W. rewrite !app_nil_r in W. apply W. subst cs. destruct (_ <? 0); [by destruct (itoa_digits 10 n).1|done]. }
  set (ds := (itoa_digits 10 n).1) in *. destruct (Z.ltb_spec (itoa_digits 10 n).2 0) as [B|B].
  - assert (N : n < 0) by by apply S. rewrite rev_app_distr in E. cbn [rev app] in E. rewrite E, (proj2 (Z.ltb_lt n 0)) by done.
    split; [change (- dec_value (rev ds) = n); rewrite D2; lia|]. split; [unfold slen; cbn; rewrite length_rev; lia|]. exists (rev ds).
    split; [done|]. split; [by apply Forall_rev|]. intros H. destruct (Z0 ltac:(lia)).
    rewrite <- (rev_involutive ds). destruct (rev ds) as [|d l]; [done|]. injection H as ->. cbn [rev]. by rewrite List.last_last.
  - assert (N : ~ n < 0) by (intros H; apply S in H; lia). rewrite E, (proj2 (Z.ltb_ge n 0)) by lia.
    assert (F : Forall (fun c => 48 <= c <= 57) (rev ds)) by by apply Forall_rev.
    split; [|split; [unfold slen; rewrite length_rev; lia|exists (rev ds); split; [done|split; [done|]]]].
    + destruct (rev ds) as [|d l] eqn:Er; [change (dec_value [] = n); rewrite D2; lia|]. apply Forall_cons in F as [F _]. unfold int_value.
      destruct (Z.eq_dec d 45) as [->|Nd]; [lia|]. transitivity (dec_value (d :: l)); [|lia].
      repeat match goal with |- context [match ?x with _ => _ end] => is_var x; destruct x; try done end.
    + intros H. destruct (rev ds) as [|d l] eqn:Er; [done|]. injection H as ->. destruct l as [|e l]; [done|]. exfalso.
      assert (Ed : ds = rev (48 :: e :: l)) by (by rewrite <- Er, rev_involutive). apply D4; rewrite Ed.
      * rewrite length_rev. cbn. lia.
      * cbn [rev]. by rewrite List.last_last.
Qed.
Lemma itoa_roundtrip_witness : int_value [45; 50; 49; 52; 55; 52; 56; 51; 54; 52; 56] = -2147483648.
Proof. pose proof (itoa_roundtrip (-2147483648) ltac:(lia)) as H. exact (proj1 H). Defined.
