(* ===== verification/Ip4Hdr.v ===== *)
(** * The IPv4 header and the interfaces, as IP sees them (prot/ip4.h, netif.h)

    Fields of two bytes are kept as they are in memory, in network byte order; the
    lemmas say how setting and reading them through [lwip_htons] agree. *)
From coqutil Require Import Z.prove_Zeq_bitwise.
From S2P Require Import Prelude Ip4Addr.

Definition IP_MF : Z := 0x2000.
Definition IP_OFFMASK : Z := 0x1fff.
Record ip_hdr := mkIph {
  v_hl : Z; tos : Z; IPH_LEN : Z; IPH_ID : Z; IPH_OFFSET : Z;
  IPH_TTL : Z; IPH_PROTO : Z; IPH_CHKSUM : Z; iph_src : Z; iph_dest : Z
}.
#[export] Instance ip_hdr_eta : Eta ip_hdr := fun h =>
  mkIph (v_hl h) (tos h) (IPH_LEN h) (IPH_ID h) (IPH_OFFSET h)
    (IPH_TTL h) (IPH_PROTO h) (IPH_CHKSUM h) (iph_src h) (iph_dest h).
Definition IPH_HL (h : ip_hdr) : Z := Z.land (v_hl h) 0x0f.
Definition IPH_V (h : ip_hdr) : Z := Z.shiftr (v_hl h) 4.

(** ** Interfaces: [nf_num] stands for the address of the [struct netif] *)
Definition NETIF_FLAG_UP : Z := 0x01.
Definition NETIF_FLAG_BROADCAST : Z := 0x02.
Definition NETIF_FLAG_LINK_UP : Z := 0x04.
Record ip_netif := mkIpNetif {
  nf_num : Z; nf_addr : Z; nf_mask : Z; nf_gw : Z; nf_flags : Z; nf_mtu : Z
}.
Definition netif_is_up (n : ip_netif) : bool := negb (Z.land (nf_flags n) NETIF_FLAG_UP =? 0).
Definition netif_is_link_up (n : ip_netif) : bool := negb (Z.land (nf_flags n) NETIF_FLAG_LINK_UP =? 0).
Definition ip4_addr_isbroadcast (addr : Z) (n : ip_netif) : bool :=
  ip4_addr_isbroadcast_u32 addr (nf_addr n) (nf_mask n) (negb (Z.land (nf_flags n) NETIF_FLAG_BROADCAST =? 0)).
Definition ip4_addr_isloopback (addr : Z) : bool :=
  Z.land addr (PP_HTONL 0xff000000) =? PP_HTONL (Z.shiftl 127 24).

(** ** Byte order of the fields *)
Lemma htons_range z : 0 <= lwip_htons z < 65536.
Proof. apply u16_range. Qed.
Lemma htons_htons z : 0 <= z < 65536 -> lwip_htons (lwip_htons z) = z.
Proof.
  intros H. transitivity (Z.land z (Z.ones 16)).
  - clear H. unfold lwip_htons, PP_HTONS, u16. change 65536 with (2 ^ 16). change 0x00ff with (Z.ones 8).
    change 0xff00 with (Z.shiftl (Z.ones 8) 8). rewrite <- !Z.land_ones by lia. prove_Zeq_bitwise.
  - rewrite Z.land_ones by lia. by apply Z.mod_small.
Qed.

(** The offset field of a fragment: the offset in units of eight bytes, and the flag. *)
Definition offset_field (ofo : Z) (more : bool) : Z :=
  let tmp := Z.land IP_OFFMASK ofo in if more then Z.lor tmp IP_MF else tmp.

Lemma offset_field_range ofo more : 0 <= offset_field ofo more < 65536.
Proof.
  unfold offset_field. rewrite Z.land_comm. change IP_OFFMASK with (Z.ones 13). rewrite Z.land_ones by lia.
  assert (0 <= ofo mod 2 ^ 13 < 2 ^ 13) by (apply Z.mod_pos_bound; lia). destruct more; [|lia].
  split; [apply Z.lor_nonneg; unfold IP_MF; lia|].
  assert (H1 : Z.land (Z.lor (ofo mod 2 ^ 13) IP_MF) (Z.ones 16) = Z.lor (ofo mod 2 ^ 13) IP_MF).
  { rewrite <- Z.land_ones by lia. change IP_MF with (Z.shiftl (Z.ones 1) 13). prove_Zeq_bitwise. }
  rewrite <- H1, Z.land_ones by lia. apply Z.mod_pos_bound. lia.
Qed.
Lemma offset_field_offset ofo more : 0 <= ofo < 8192 ->
  Z.land (lwip_htons (lwip_htons (offset_field ofo more))) IP_OFFMASK = ofo.
Proof.
  intros H. rewrite htons_htons by apply offset_field_range. transitivity (Z.land ofo (Z.ones 13)).
  - unfold offset_field. change IP_OFFMASK with (Z.ones 13). change IP_MF with (Z.shiftl (Z.ones 1) 13).
    destruct more; prove_Zeq_bitwise.
  - rewrite Z.land_ones by lia. by apply Z.mod_small.
Qed.
Lemma offset_field_more ofo more : Z.land (lwip_htons (offset_field ofo more)) (PP_HTONS IP_MF) = 0 <-> more = false.
Proof.
  assert (E : Z.land (lwip_htons (offset_field ofo more)) (PP_HTONS IP_MF) = if more then 32 else 0).
  { change (PP_HTONS IP_MF) with (Z.shiftl (Z.ones 1) 5). unfold lwip_htons, PP_HTONS, u16, offset_field. change 65536 with (2 ^ 16).
    change 0x00ff with (Z.ones 8). change 0xff00 with (Z.shiftl (Z.ones 8) 8). change IP_OFFMASK with (Z.ones 13).
    change IP_MF with (Z.shiftl (Z.ones 1) 13). rewrite <- !Z.land_ones by lia.
    destruct more; [change 32 with (Z.shiftl (Z.ones 1) 5)|]; prove_Zeq_bitwise. }
  rewrite E. by destruct more.
Qed.
Lemma offset_zero o : Z.land o (PP_HTONS (Z.lor IP_OFFMASK IP_MF)) = 0 ->
  Z.land o (PP_HTONS IP_MF) = 0 /\ Z.land (lwip_htons o) IP_OFFMASK = 0.
Proof.
  intros H. change (PP_HTONS (Z.lor IP_OFFMASK IP_MF)) with 0xff3f in H. split.
  - change (PP_HTONS IP_MF) with 0x20. transitivity (Z.land (Z.land o 0xff3f) 0x20); [|by rewrite H].
    by rewrite <- Z.land_assoc.
  - transitivity (Z.land (lwip_htons (Z.land o 0xff3f)) IP_OFFMASK); [|by rewrite H].
    unfold lwip_htons, PP_HTONS, u16. change 65536 with (2 ^ 16). rewrite <- !Z.land_ones by lia.
    change IP_OFFMASK with (Z.ones 13). change 0xff3f with (Z.lor (Z.shiftl (Z.ones 8) 8) (Z.ones 6)).
    change 0x00ff with (Z.ones 8). change 0xff00 with (Z.shiftl (Z.ones 8) 8). prove_Zeq_bitwise.
Qed.

(** ** Fields in network byte order *)
Definition put16 (v : Z) : list Z := let m := lwip_htons v in [m mod 256; m / 256 mod 256].
Definition put32 (v : Z) : list Z := le32_bytes (lwip_htonl v).
Definition byte_at (q : list Z) (i : nat) : Z := q !!! i.
Definition get16 (q : list Z) (i : nat) : Z := lwip_htons (byte_at q i + 256 * byte_at q (S i)).
Definition get32 (q : list Z) (i : nat) : Z :=
  lwip_htonl (le32 (byte_at q i) (byte_at q (S i)) (byte_at q (S (S i))) (byte_at q (S (S (S i))))).

Lemma get_put16 v : 0 <= v < 65536 ->
  lwip_htons (lwip_htons v mod 256 + 256 * (lwip_htons v / 256 mod 256)) = v.
Proof.
  intros H. rewrite <- (htons_htons v H) at 3. f_equal. pose proof (htons_range v).
  Z.to_euclidean_division_equations. lia.
Qed.
Lemma get_put32 v : is_u32 v -> lwip_htonl (le32 (lwip_htonl v mod 256) (lwip_htonl v / 256 mod 256)
  (lwip_htonl v / 65536 mod 256) (lwip_htonl v / 16777216 mod 256)) = v.
Proof. intros H. rewrite le32_le32_bytes by apply htonl_u32. by apply htonl_involutive. Qed.
