(* ===== verification/Hal.v ===== *)
(** * The hardware interface: STM32 HAL, internal flash and W25Q256 NOR flash

    The HAL sources and the chips are not part of the repository, so they are
    parameters: [HalOps] lists the calls the program makes (one operation per
    HAL function or register access), [HalView] the contents of the two flash
    memories, and [HalLaws] the documented behaviour the drivers rely on
    (RM0433 for the internal flash, the W25Q256JV data sheet for the NOR chip).
    A call may fail at any time; only the effect of a call that reports success,
    and the region a call can touch, are promised.  SimDevice.v is an instance. *)
From S2P Require Import Prelude.

Inductive HAL_Status := HAL_OK | HAL_ERROR | HAL_BUSY | HAL_TIMEOUT.
Inductive FLASH_Bank := FLASH_BANK_1 | FLASH_BANK_2.

Definition hal_ok (r : HAL_Status) : bool := match r with HAL_OK => true | _ => false end.

#[export] Instance HAL_Status_eq_dec : EqDecision HAL_Status.
Proof. solve_decision. Defined.

(** The fields of [QSPI_CommandTypeDef] in which the commands of the driver
    differ; the others (one instruction line, no alternate bytes, no DDR) are
    the same in every command. *)
Inductive QSPI_AddressMode := QSPI_ADDRESS_NONE | QSPI_ADDRESS_1_LINE | QSPI_ADDRESS_4_LINES.
Inductive QSPI_DataMode := QSPI_DATA_NONE | QSPI_DATA_1_LINE | QSPI_DATA_4_LINES.

Record QSPI_Command := mkQCmd {
  Instruction : Z;
  AddressMode : QSPI_AddressMode;
  Address : Z;
  DataMode : QSPI_DataMode;
  DummyCycles : Z;
  NbData : Z
}.

Record QSPI_AutoPolling := mkQPoll { Match : Z; Mask : Z; StatusBytesSize : Z }.

Definition W25Q_CMD_WRITE_ENABLE := 0x06.
Definition W25Q_CMD_READ_STATUS_REG1 := 0x05.
Definition W25Q_CMD_READ_DATA_4B := 0x13.
Definition W25Q_CMD_PAGE_PROGRAM_4B := 0x12.
Definition W25Q_CMD_SECTOR_ERASE_4KB_4B := 0x21.
Definition W25Q_CMD_BLOCK_ERASE_64KB_4B := 0xDC.
Definition W25Q_CMD_CHIP_ERASE := 0xC7.
Definition W25Q_CMD_QUAD_READ_4B := 0xEC.
Definition W25Q_CMD_RESET_ENABLE := 0x66.
Definition W25Q_CMD_RESET_MEMORY := 0x99.
Definition W25Q_CMD_READ_JEDEC_ID := 0x9F.
Definition W25Q_CMD_ENTER_4B_ADDR := 0xB7.
Definition W25Q_SR1_WIP := 0x01.
Definition W25Q_SR1_WEL := 0x02.

Definition QSPI_FLASH_SIZE := 0x2000000.
Definition QSPI_PAGE_SIZE := 256.
Definition QSPI_SECTOR_SIZE := 4096.
Definition QSPI_BLOCK_64K_SIZE := 65536.

(** The calls of the program into the HAL, on an abstract machine state. *)
Class HalOps (W : Type) := {
  HAL_FLASH_Unlock : W -> W;
  HAL_FLASH_Lock : W -> W;
  HAL_FLASH_CLEAR_ERRORS : W -> W;
  FLASH_SR2_busy : M W bool;
  HAL_FLASHEx_Erase : FLASH_Bank -> Z -> M W HAL_Status;
  HAL_FLASH_Program : Z -> list Z -> M W HAL_Status;
  SCB_InvalidateDCache : W -> W;
  flash_mem : W -> mem;
  HAL_QSPI_DeInit : M W HAL_Status;
  HAL_QSPI_Init : M W HAL_Status;
  QSPI_GPIO_Init : W -> W;
  HAL_QSPI_Command : QSPI_Command -> M W HAL_Status;
  HAL_QSPI_Transmit : list Z -> M W HAL_Status;
  HAL_QSPI_Receive : M W (HAL_Status * list Z);
  HAL_QSPI_AutoPolling : QSPI_Command -> QSPI_AutoPolling -> M W HAL_Status;
  HAL_QSPI_MemoryMapped : QSPI_Command -> M W HAL_Status;
  HAL_QSPI_Abort : M W HAL_Status;
  HAL_QSPI_CLEAR_FLAG : W -> W;
  QSPI_FLAG_BUSY : M W bool;
  HAL_Delay : Z -> W -> W
}.

(** What can be observed of the NOR chip: its array, the write-enable latch, and
    the command whose data phase is still open. *)
Class HalView (W : Type) := {
  nor_mem : W -> mem;
  nor_wel : W -> bool;
  nor_pending : W -> option QSPI_Command
}.

Definition FLASH_BANK1_BASE := 0x08000000.
Definition FLASH_BANK2_BASE := 0x08100000.
Definition FLASH_SECTOR_SIZE := 0x20000.
Definition FLASHWORD := 32.

Definition sector_base (b : FLASH_Bank) (s : Z) : Z :=
  match b with FLASH_BANK_1 => FLASH_BANK1_BASE | FLASH_BANK_2 => FLASH_BANK2_BASE end
  + s * FLASH_SECTOR_SIZE.

(** The array range an erase command clears; [None] for the other commands. *)
Definition erase_range (c : QSPI_Command) : option (Z * Z) :=
  if decide (Instruction c = W25Q_CMD_BLOCK_ERASE_64KB_4B)
  then Some (Address c / 65536 * 65536, 65536)
  else if decide (Instruction c = W25Q_CMD_SECTOR_ERASE_4KB_4B)
  then Some (Address c / 4096 * 4096, 4096)
  else if decide (Instruction c = W25Q_CMD_CHIP_ERASE)
  then Some (0, QSPI_FLASH_SIZE)
  else None.

Definition erased (m : mem) (lo n : Z) : Prop := forall a, lo <= a < lo + n -> m a = 0xFF.

Section Quiet.
Context {W : Type} `{!HalOps W} `{!HalView W}.

Definition same_flash (w w' : W) : Prop := forall a, flash_mem w' a = flash_mem w a.
Definition same_nor (w w' : W) : Prop := forall a, nor_mem w' a = nor_mem w a.

(** The two flash memories keep their contents. *)
Definition quiet (w w' : W) : Prop := same_flash w w' /\ same_nor w w'.

#[export] Instance same_flash_equiv : Equivalence same_flash.
Proof. split; [intros w a; done|intros w w' H a; by rewrite H|intros w1 w2 w3 H1 H2 a; by rewrite H2]. Qed.
#[export] Instance same_nor_equiv : Equivalence same_nor.
Proof. split; [intros w a; done|intros w w' H a; by rewrite H|intros w1 w2 w3 H1 H2 a; by rewrite H2]. Qed.
#[export] Instance quiet_equiv : Equivalence quiet.
Proof.
  split; [by split|intros w w' [H1 H2]; by split; symmetry|].
  intros w1 w2 w3 [H1 H2] [H3 H4]. split; etrans; eassumption.
Qed.

Definition quietly {A} (m : M W A) : Prop := forall w, wp m (fun _ w' => quiet w w') w.
End Quiet.

(** The documented behaviour of the HAL calls and of the chips. *)
Class HalLaws (W : Type) `{!HalOps W} `{!HalView W} := {
  flash_bytes : forall w a, is_byte (flash_mem w a);
  nor_bytes : forall w a, is_byte (nor_mem w a);
  quiet_Unlock : forall w, quiet w (HAL_FLASH_Unlock w);
  quiet_Lock : forall w, quiet w (HAL_FLASH_Lock w);
  quiet_CLEAR_ERRORS : forall w, quiet w (HAL_FLASH_CLEAR_ERRORS w);
  quiet_SR2 : quietly FLASH_SR2_busy;
  quiet_InvalidateDCache : forall w, quiet w (SCB_InvalidateDCache w);
  quiet_QSPI_DeInit : quietly HAL_QSPI_DeInit;
  quiet_QSPI_Init : quietly HAL_QSPI_Init;
  quiet_GPIO : forall w, quiet w (QSPI_GPIO_Init w);
  quiet_MemoryMapped : forall c, quietly (HAL_QSPI_MemoryMapped c);
  quiet_Abort : quietly HAL_QSPI_Abort;
  quiet_CLEAR_FLAG : forall w, quiet w (HAL_QSPI_CLEAR_FLAG w);
  quiet_BUSY : quietly QSPI_FLAG_BUSY;
  quiet_Delay : forall ms w, quiet w (HAL_Delay ms w);
  quiet_AutoPolling : forall c p, quietly (HAL_QSPI_AutoPolling c p);
  quiet_Receive : quietly HAL_QSPI_Receive;
  quiet_Command : forall c, erase_range c = None -> quietly (HAL_QSPI_Command c);

  (** Sector erase: only the sector changes, and it reads 0xFF on success. *)
  law_flash_erase : forall b s w,
    wp (HAL_FLASHEx_Erase b s) (fun r w' =>
      same_nor w w' /\
      unchanged_off (sector_base b s) FLASH_SECTOR_SIZE (flash_mem w) (flash_mem w') /\
      (r = HAL_OK -> erased (flash_mem w') (sector_base b s) FLASH_SECTOR_SIZE)) w;

  (** Flash-word program: a rejected operation is not performed; an accepted one
      on an erased, aligned word stores the 32 bytes. *)
  law_flash_program : forall a data w,
    a mod FLASHWORD = 0 -> Z.of_nat (length data) = FLASHWORD -> bytes data ->
    wp (HAL_FLASH_Program a data) (fun r w' =>
      same_nor w w' /\
      unchanged_off a FLASHWORD (flash_mem w) (flash_mem w') /\
      (r <> HAL_OK -> same_flash w w') /\
      (r = HAL_OK -> erased (flash_mem w) a FLASHWORD -> holds (flash_mem w') a data)) w;

  (** The status poll for WEL succeeds only when the latch is set. *)
  law_poll_wel : forall c p w,
    Match p = W25Q_SR1_WEL -> Mask p = W25Q_SR1_WEL ->
    wp (HAL_QSPI_AutoPolling c p) (fun r w' => r = HAL_OK -> nor_wel w' = true) w;

  (** A command with a data phase leaves it open and keeps the latch. *)
  law_command_data : forall c w,
    DataMode c <> QSPI_DATA_NONE ->
    wp (HAL_QSPI_Command c) (fun r w' =>
      r = HAL_OK -> nor_pending w' = Some c /\ nor_wel w' = nor_wel w) w;

  (** NOR erase: only the addressed range changes; with the latch set, success
      leaves it 0xFF. *)
  law_command_erase : forall c lo n w,
    erase_range c = Some (lo, n) ->
    wp (HAL_QSPI_Command c) (fun r w' =>
      same_flash w w' /\
      unchanged_off lo n (nor_mem w) (nor_mem w') /\
      (r = HAL_OK -> nor_wel w = true -> erased (nor_mem w') lo n)) w;

  (** Page program: bits can only be cleared, and each byte of the addressed range
      is either still unprogrammed or programmed; success with the latch set
      programs all of them.  Only ranges that stay inside one page are covered. *)
  law_transmit : forall c data w,
    nor_pending w = Some c -> Instruction c = W25Q_CMD_PAGE_PROGRAM_4B ->
    0 <= Address c -> 0 < NbData c -> Address c mod 256 + NbData c <= 256 ->
    Address c + NbData c <= QSPI_FLASH_SIZE ->
    NbData c <= Z.of_nat (length data) -> bytes data ->
    wp (HAL_QSPI_Transmit data) (fun r w' =>
      same_flash w w' /\
      unchanged_off (Address c) (NbData c) (nor_mem w) (nor_mem w') /\
      forall i, 0 <= i < NbData c ->
        let old := nor_mem w (Address c + i) in
        let prog := Z.land old (data !!! Z.to_nat i) in
        (nor_mem w' (Address c + i) = old \/ nor_mem w' (Address c + i) = prog) /\
        (r = HAL_OK -> nor_wel w = true -> nor_mem w' (Address c + i) = prog)) w;

  (** The data phase of a 4-byte-address read returns the array contents. *)
  law_receive : forall c w,
    nor_pending w = Some c -> Instruction c = W25Q_CMD_READ_DATA_4B ->
    0 <= Address c -> 0 <= NbData c -> Address c + NbData c <= QSPI_FLASH_SIZE ->
    wp HAL_QSPI_Receive (fun rd _ =>
      rd.1 = HAL_OK -> rd.2 = mem_read (nor_mem w) (Address c) (Z.to_nat (NbData c))) w
}.

(** A set [G] of states in which no HAL call fails: the hypothesis of the theorems
    that say an operation does succeed. *)
Record reliable {W : Type} `{!HalOps W} `{!HalView W} (G : W -> Prop) : Prop := {
  rel_Unlock : forall w, G w -> G (HAL_FLASH_Unlock w);
  rel_Lock : forall w, G w -> G (HAL_FLASH_Lock w);
  rel_CLEAR_ERRORS : forall w, G w -> G (HAL_FLASH_CLEAR_ERRORS w);
  rel_SR2 : forall w, G w -> wp FLASH_SR2_busy (fun _ w' => G w') w;
  rel_InvalidateDCache : forall w, G w -> G (SCB_InvalidateDCache w);
  rel_Delay : forall ms w, G w -> G (HAL_Delay ms w);
  rel_flash_erase : forall b s w, G w ->
    wp (HAL_FLASHEx_Erase b s) (fun r w' => r = HAL_OK /\ G w') w;
  rel_flash_program : forall a d w, G w ->
    wp (HAL_FLASH_Program a d) (fun r w' => r = HAL_OK /\ G w') w;
  rel_QSPI_DeInit : forall w, G w -> wp HAL_QSPI_DeInit (fun r w' => r = HAL_OK /\ G w') w;
  rel_QSPI_Init : forall w, G w -> wp HAL_QSPI_Init (fun r w' => r = HAL_OK /\ G w') w;
  rel_GPIO : forall w, G w -> G (QSPI_GPIO_Init w);
  rel_Command : forall c w, G w ->
    wp (HAL_QSPI_Command c) (fun r w' => r = HAL_OK /\ G w' /\
      (Instruction c = W25Q_CMD_WRITE_ENABLE -> DataMode c = QSPI_DATA_NONE ->
       nor_wel w' = true)) w;
  rel_Transmit : forall d w, G w -> wp (HAL_QSPI_Transmit d) (fun r w' => r = HAL_OK /\ G w') w;
  rel_Receive : forall w, G w -> wp HAL_QSPI_Receive (fun rd w' => rd.1 = HAL_OK /\ G w') w;
  rel_AutoPolling : forall c p w, G w -> (Match p = W25Q_SR1_WEL -> nor_wel w = true) ->
    wp (HAL_QSPI_AutoPolling c p) (fun r w' => r = HAL_OK /\ G w') w;
  rel_BUSY : forall w, G w -> wp QSPI_FLAG_BUSY (fun _ w' => G w') w
}.

(** ** Automation: a chain of quiet calls is quiet *)
Create HintDb hal discriminated.
#[export] Hint Resolve quiet_Unlock quiet_Lock quiet_CLEAR_ERRORS quiet_SR2
  quiet_InvalidateDCache quiet_QSPI_DeInit quiet_QSPI_Init quiet_GPIO quiet_MemoryMapped
  quiet_Abort quiet_CLEAR_FLAG quiet_BUSY quiet_Delay quiet_AutoPolling quiet_Receive
  quiet_Command flash_bytes nor_bytes : hal.

Ltac qtrans := cbv beta in *; etrans; eassumption.

Section QuietRules.
Context {W : Type} `{!HalOps W} `{!HalView W}.

Lemma quietly_wp {A} (m : M W A) w : quietly m -> wp m (fun _ w' => quiet w w') w.
Proof. intros H. apply H. Qed.

Lemma quietly_ret {A} (a : A) : quietly (ret (S:=W) a).
Proof. intros w. by apply wp_ret. Qed.

Lemma quietly_bind {A B} (m : M W A) (k : A -> M W B) :
  quietly m -> (forall a, quietly (k a)) -> quietly (bind m k).
Proof.
  intros Hm Hk w. apply wp_bind. eapply wp_mono; [apply Hm|].
  intros a w' Hq. eapply wp_mono; [apply Hk|]. intros b w'' Hq'. qtrans.
Qed.

Lemma quietly_modify (f : W -> W) : (forall w, quiet w (f w)) -> quietly (modify f).
Proof. intros H w. by apply wp_modify. Qed.

Lemma quietly_gets {A} (f : W -> A) : quietly (gets f).
Proof. intros w. by apply wp_gets. Qed.

Lemma quietly_if {A} (b : bool) (m1 m2 : M W A) :
  quietly m1 -> quietly m2 -> quietly (if b then m1 else m2).
Proof. by destruct b. Qed.

Lemma quietly_wait_while n (m : M W bool) : quietly m -> quietly (wait_while n m).
Proof.
  intros Hm w. apply (wp_wait_while _ _ (fun w' => quiet w w')); [|done].
  intros w' Hq. eapply wp_mono; [apply Hm|]. intros b w'' Hq'. qtrans.
Qed.

Lemma quietly_retry n (m : M W bool) : quietly m -> quietly (retry n m).
Proof.
  intros Hm w. eapply wp_mono; [apply (wp_retry _ _ (fun w' => quiet w w') (fun w' => quiet w w'))|].
  - intros w' Hq. eapply wp_mono; [apply Hm|]. intros b w'' Hq'. destruct b; qtrans.
  - done.
  - by intros [].
Qed.
End QuietRules.
#[export] Hint Resolve quietly_ret quietly_bind quietly_modify quietly_gets quietly_if
  quietly_wait_while quietly_retry : hal.

(** Prove that a composed driver routine is quiet, one constructor at a time. *)
Ltac quiet_step :=
  lazymatch goal with
  | |- quietly (bind _ _) => apply quietly_bind; [|intros ?]
  | |- quietly (if _ then _ else _) => apply quietly_if
  | |- quietly (ret _) => apply quietly_ret
  | |- quietly (gets _) => apply quietly_gets
  | |- quietly (modify _) => apply quietly_modify; intros ?
  | |- quietly (wait_while _ _) => apply quietly_wait_while
  | |- quietly (retry _ _) => apply quietly_retry
  | |- quietly _ => solve [auto with hal]
  | |- quiet _ _ => solve [auto with hal]
  end.
Ltac quiet_tac := repeat quiet_step.
