(* ===== verification/SimDevice.v ===== *)
(** * A simulated device

    An instance of the hardware interface of Hal.v: two arrays, the write-enable
    latch, the open data phase, and a script that says which HAL calls fail (one
    entry per fallible call; an exhausted script means success).  It shows that
    the assumed behaviour is consistent and is where the witnesses run. *)
From S2P Require Import Prelude Hal.

Record dev := mkDev {
  d_flash : mem;
  d_nor : mem;
  d_wel : bool;
  d_pending : option QSPI_Command;
  d_faults : list bool
}.

Definition set_flash (f : mem) (d : dev) : dev := mkDev f (d_nor d) (d_wel d) (d_pending d) (d_faults d).
Definition set_nor (f : mem) (d : dev) : dev := mkDev (d_flash d) f (d_wel d) (d_pending d) (d_faults d).
Definition set_latch (b : bool) (p : option QSPI_Command) (d : dev) : dev :=
  mkDev (d_flash d) (d_nor d) b p (d_faults d).

(** Consume one script entry; a fault gives [HAL_ERROR] and the [bad] state. *)
Definition faulty (good bad : dev -> dev) : M dev HAL_Status := fun d =>
  let d' := mkDev (d_flash d) (d_nor d) (d_wel d) (d_pending d) (tail (d_faults d)) in
  match d_faults d with
  | true :: _ => (HAL_ERROR, bad d')
  | _ => (HAL_OK, good d')
  end.

Definition fill_ff (lo n : Z) (m : mem) : mem :=
  fun x => if decide (lo <= x < lo + n) then 0xFF else m x.

Definition program_bytes (a n : Z) (data : list Z) (m : mem) : mem :=
  fun x => if decide (a <= x < a + n) then Z.land (m x) (data !!! Z.to_nat (x - a)) else m x.

Definition sim_command (c : QSPI_Command) (d : dev) : dev :=
  let nor' := match erase_range c with
              | Some (lo, n) => if d_wel d then fill_ff lo n (d_nor d) else d_nor d
              | None => d_nor d
              end in
  match DataMode c with
  | QSPI_DATA_NONE =>
      let wel := if Instruction c =? W25Q_CMD_WRITE_ENABLE then true
                 else if erase_range c is Some _ then false
                 else if Instruction c =? W25Q_CMD_RESET_MEMORY then false
                 else d_wel d in
      set_latch wel (d_pending d) (set_nor nor' d)
  | _ => set_latch (d_wel d) (Some c) (set_nor nor' d)
  end.

(** A failed data phase programs only the first half of the bytes. *)
Definition sim_transmit (half : bool) (data : list Z) (d : dev) : dev :=
  match d_pending d with
  | Some c =>
      if (Instruction c =? W25Q_CMD_PAGE_PROGRAM_4B) && d_wel d
      then let n := if half then NbData c / 2 else NbData c in
           set_latch false None (set_nor (program_bytes (Address c) n data (d_nor d)) d)
      else d
  | None => d
  end.

Definition sim_poll (p : QSPI_AutoPolling) : M dev HAL_Status :=
  st <- faulty id id ;;
  wel <- gets d_wel ;;
  ret (if hal_ok st && (Match p =? W25Q_SR1_WEL) && (Mask p =? W25Q_SR1_WEL) && negb wel
       then HAL_TIMEOUT else st).

Definition sim_receive : M dev (HAL_Status * list Z) :=
  st <- faulty id id ;;
  d <- gets id ;;
  ret (st, match d_pending d with
           | Some c => if Instruction c =? W25Q_CMD_READ_DATA_4B
                       then map u8 (mem_read (d_nor d) (Address c) (Z.to_nat (NbData c)))
                       else [0xEF; 0x40; 0x19]
           | None => []
           end).

#[export] Instance sim_ops : HalOps dev := {
  HAL_FLASH_Unlock := id;
  HAL_FLASH_Lock := id;
  HAL_FLASH_CLEAR_ERRORS := id;
  FLASH_SR2_busy := ret false;
  HAL_FLASHEx_Erase b s :=
    faulty (fun d => set_flash (fill_ff (sector_base b s) FLASH_SECTOR_SIZE (d_flash d)) d) id;
  HAL_FLASH_Program a data := faulty (fun d => set_flash (mem_write (d_flash d) a data) d) id;
  SCB_InvalidateDCache := id;
  flash_mem d a := u8 (d_flash d a);
  HAL_QSPI_DeInit := faulty id id;
  HAL_QSPI_Init := faulty id id;
  QSPI_GPIO_Init := id;
  HAL_QSPI_Command c := faulty (sim_command c) id;
  HAL_QSPI_Transmit data := faulty (sim_transmit false data) (sim_transmit true data);
  HAL_QSPI_Receive := sim_receive;
  HAL_QSPI_AutoPolling c p := sim_poll p;
  HAL_QSPI_MemoryMapped c := faulty id id;
  HAL_QSPI_Abort := faulty id id;
  HAL_QSPI_CLEAR_FLAG := id;
  QSPI_FLAG_BUSY := ret false;
  HAL_Delay ms := id
}.

#[export] Instance sim_view : HalView dev := {
  nor_mem d a := u8 (d_nor d a);
  nor_wel := d_wel;
  nor_pending := d_pending
}.

Section SimLaws.
Lemma wp_faulty good bad Q d :
  (forall f, Q HAL_OK (good (mkDev (d_flash d) (d_nor d) (d_wel d) (d_pending d) f))) ->
  (forall f, Q HAL_ERROR (bad (mkDev (d_flash d) (d_nor d) (d_wel d) (d_pending d) f))) ->
  wp (faulty good bad) Q d.
Proof. intros H1 H2. unfold wp, faulty. destruct (d_faults d) as [|[] f]; auto. Qed.

Lemma quiet_faulty_id : quietly (faulty id id).
Proof. intros d. by apply wp_faulty. Qed.

Lemma program_bytes_in a n data m i : 0 <= i < n ->
  program_bytes a n data m (a + i) = Z.land (m (a + i)) (data !!! Z.to_nat i).
Proof. intros H. unfold program_bytes. rewrite decide_True by lia. do 3 f_equal. lia. Qed.

Lemma program_bytes_out a n data m x : ~ (a <= x < a + n) -> program_bytes a n data m x = m x.
Proof. intros H. unfold program_bytes. by rewrite decide_False by done. Qed.

Lemma u8_land x y : is_byte y -> u8 (Z.land x y) = Z.land (u8 x) y.
Proof.
  intros Hy. unfold u8. change 256 with (2 ^ 8). rewrite <- !Z.land_ones by lia.
  rewrite <- !Z.land_assoc. f_equal. by rewrite Z.land_comm.
Qed.

Lemma map_u8_read m a n : map u8 (mem_read m a n) = mem_read (fun x => u8 (m x)) a n.
Proof. revert a; induction n as [|n IH]; intros a; cbn; [done|]. by rewrite IH. Qed.

Lemma sim_law_transmit c data d :
  nor_pending d = Some c -> Instruction c = W25Q_CMD_PAGE_PROGRAM_4B ->
  0 < NbData c -> NbData c <= Z.of_nat (length data) -> bytes data ->
  wp (HAL_QSPI_Transmit data) (fun r d' =>
    same_flash d d' /\
    unchanged_off (Address c) (NbData c) (nor_mem d) (nor_mem d') /\
    forall i, 0 <= i < NbData c ->
      let old := nor_mem d (Address c + i) in
      let prog := Z.land old (data !!! Z.to_nat i) in
      (nor_mem d' (Address c + i) = old \/ nor_mem d' (Address c + i) = prog) /\
      (r = HAL_OK -> nor_wel d = true -> nor_mem d' (Address c + i) = prog)) d.
Proof.
  intros Hp Hi Hn Hl Hb. cbn in Hp.
  assert (Hbyte : forall i, 0 <= i < NbData c -> is_byte (data !!! Z.to_nat i)).
  { intros i Hi'. apply (Forall_lookup_total_1 _ _ _ Hb). lia. }
  cbn. apply wp_faulty; intros f; unfold sim_transmit; cbn; rewrite Hp, Hi; cbn;
    (destruct (d_wel d); cbn; [|split; [done|split; [done|intros i Hi'; split; [by left|done]]]]);
    (split; [done|]).
  - split; [intros x Hx; cbn; by rewrite program_bytes_out|].
    intros i Hi'. rewrite program_bytes_in, u8_land by auto. auto.
  - assert (Hh : 0 <= NbData c / 2 <= NbData c) by (Z.to_euclidean_division_equations; lia).
    split; [intros x Hx; cbn; rewrite program_bytes_out by lia; done|].
    intros i Hi'. split; [|discriminate].
    destruct (Z.lt_ge_cases i (NbData c / 2)).
    + right. rewrite program_bytes_in, u8_land by (auto; lia). done.
    + left. rewrite program_bytes_out by lia. done.
Qed.
End SimLaws.

#[export] Instance sim_laws : HalLaws dev.
Proof.
  split; try (intros; done || (by apply quiet_faulty_id) || apply u8_range);
    try (intros; intros ?; by apply wp_ret).
  - intros c p d. apply wp_bind. apply wp_faulty; intros f; by apply wp_bind, wp_gets, wp_ret.
  - intros d. apply wp_bind. apply wp_faulty; intros f; by apply wp_bind, wp_gets, wp_ret.
  - intros c Hc d. apply wp_faulty; intros f; [|done]. unfold sim_command. rewrite Hc.
    by destruct (DataMode c).
  - intros b s d. apply wp_faulty; intros f; cbn.
    + split; [done|]. split; [intros a Ha; unfold fill_ff; by rewrite decide_False by done|].
      intros _ a Ha. cbn. unfold fill_ff. by rewrite decide_True by done.
    + split; [done|]. split; [done|discriminate].
  - intros a data d Ha Hl Hb. apply wp_faulty; intros f; cbn.
    + split; [done|]. rewrite <- Hl.
      split; [intros x Hx; cbn; by rewrite mem_write_out by done|]. split; [done|].
      intros _ _ i Hi. cbn. pose proof (mem_write_holds (d_flash d) a data i Hi) as H. rewrite H.
      f_equal. symmetry. apply u8_small. by apply (Forall_lookup_1 _ _ _ _ Hb H).
    + split; [done|]. split; [done|]. split; [done|discriminate].
  - intros c p d Hm Hk. apply wp_bind. apply wp_faulty; intros f; apply wp_bind, wp_gets, wp_ret;
      cbn; [|discriminate]. rewrite Hm, Hk. cbn. destruct (d_wel d); [done|discriminate].
  - intros c d Hc. apply wp_faulty; intros f; [|discriminate]. intros _. unfold sim_command.
    destruct (DataMode c); done.
  - intros c lo n d Hc. apply wp_faulty; intros f; [|done]. unfold sim_command. rewrite Hc. cbn.
    split; [by destruct (DataMode c)|].
    destruct (DataMode c), (d_wel d); cbn; (split; [intros a Ha; cbn|intros _ Hw a Ha; cbn]);
      unfold fill_ff; rewrite ?decide_True, ?decide_False by done; done.
  - intros c data d Hp Hi _ Hn _ _ Hl Hb. by apply sim_law_transmit.
  - intros c d Hp Hi _ _ _. apply wp_bind. apply wp_faulty; intros f; apply wp_bind, wp_gets, wp_ret;
      cbn; [|discriminate]. intros _. cbn in Hp. rewrite Hp, Hi. cbn. apply map_u8_read.
Qed.

(** With an exhausted fault script every call succeeds. *)
Definition fault_free (d : dev) : Prop := d_faults d = [].

Lemma sim_reliable : reliable fault_free.
Proof.
  assert (Hf : forall good bad Q d, fault_free d -> Q HAL_OK (good d) -> wp (faulty good bad) Q d).
  { intros good bad Q [f n b p l] Hd HQ. unfold fault_free in Hd. cbn in Hd. by subst l. }
  split; try done; intros; try (by apply Hf).
  - apply Hf; [done|]. unfold sim_command. split; [done|].
    split; [by destruct (DataMode c)|]. intros -> ->. done.
  - apply Hf; [done|]. unfold sim_transmit. destruct (d_pending w); [|done].
    by destruct (_ && _).
  - apply wp_bind, Hf; [done|]. by apply wp_bind, wp_gets, wp_ret.
  - apply wp_bind, Hf; [done|]. apply wp_bind, wp_gets, wp_ret. split; [|done]. cbn.
    destruct (Z.eqb_spec (Match p) W25Q_SR1_WEL) as [E|]; [|done].
    cbn in *. rewrite (H0 E). by rewrite andb_false_r.
Qed.
