(* ===== verification/QspiFlash.v ===== *)
(** * The W25Q256 NOR flash driver (flash/bsp_qspi_flash.c)

    One definition per function of the driver, over the HAL calls of Hal.v.
    Theorems: a write splits at page boundaries so that no page program wraps,
    and stores the data exactly; a failed write leaves every byte either old or
    programmed, so that retrying it is sound; erases clear exactly their range;
    initialisation and reads leave both memories alone. *)
From S2P Require Import Prelude Hal.

Definition QSPI_OK : Z := 0.
Definition QSPI_ERROR : Z := 1.

Section Driver.
Context {W : Type} `{!HalOps W}.

(** [if (call != HAL_OK) return QSPI_ERROR;] *)
Definition hal_check (m : M W HAL_Status) (k : M W Z) : M W Z :=
  st <- m ;; if hal_ok st then k else ret QSPI_ERROR.

(** [if (call != QSPI_OK) return QSPI_ERROR;] *)
Definition qspi_check (m : M W Z) (k : M W Z) : M W Z :=
  r <- m ;; if r =? QSPI_OK then k else ret QSPI_ERROR.

Definition QSPI_WriteEnable : M W Z :=
  hal_check (HAL_QSPI_Command
      (mkQCmd W25Q_CMD_WRITE_ENABLE QSPI_ADDRESS_NONE 0 QSPI_DATA_NONE 0 0))
  (hal_check (HAL_QSPI_AutoPolling
      (mkQCmd W25Q_CMD_READ_STATUS_REG1 QSPI_ADDRESS_NONE 0 QSPI_DATA_1_LINE 0 0)
      (mkQPoll W25Q_SR1_WEL W25Q_SR1_WEL 2))
  (ret QSPI_OK)).

Definition QSPI_AutoPollingMemReady : M W Z :=
  hal_check (HAL_QSPI_AutoPolling
      (mkQCmd W25Q_CMD_READ_STATUS_REG1 QSPI_ADDRESS_NONE 0 QSPI_DATA_1_LINE 0 0)
      (mkQPoll 0x0000 W25Q_SR1_WIP 2))
  (ret QSPI_OK).

Definition QSPI_EnterFourBytesAddress : M W Z :=
  hal_check (HAL_QSPI_Command
      (mkQCmd W25Q_CMD_ENTER_4B_ADDR QSPI_ADDRESS_NONE 0 QSPI_DATA_NONE 0 0))
  (ret QSPI_OK).

Definition BSP_QSPI_Init : M W Z :=
  hal_check HAL_QSPI_DeInit
  (hal_check HAL_QSPI_Init
  (modify QSPI_GPIO_Init ;;;
   hal_check (HAL_QSPI_Command
      (mkQCmd W25Q_CMD_RESET_ENABLE QSPI_ADDRESS_NONE 0 QSPI_DATA_NONE 0 0))
  (hal_check (HAL_QSPI_Command
      (mkQCmd W25Q_CMD_RESET_MEMORY QSPI_ADDRESS_NONE 0 QSPI_DATA_NONE 0 0))
  (qspi_check QSPI_AutoPollingMemReady
  (qspi_check QSPI_EnterFourBytesAddress
  (ret QSPI_OK)))))).

(** [BSP_QSPI_Read(pData, ReadAddr, Size)]: the bytes stored to [pData] are
    returned next to the status (none when the read failed). *)
Definition BSP_QSPI_Read (ReadAddr Size : Z) : M W (Z * list Z) :=
  st <- HAL_QSPI_Command
          (mkQCmd W25Q_CMD_READ_DATA_4B QSPI_ADDRESS_1_LINE ReadAddr QSPI_DATA_1_LINE 0 Size) ;;
  if hal_ok st
  then rd <- HAL_QSPI_Receive ;;
       if hal_ok rd.1 then ret (QSPI_OK, rd.2) else ret (QSPI_ERROR, [])
  else ret (QSPI_ERROR, []).

(** One round of the [while (remaining > 0)] loop of [BSP_QSPI_Write]; the loop
    variables are [(WriteAddr, offset, remaining)]. *)
Definition QSPI_Write_round (pData : list Z) (v : Z * Z * Z) : M W (Z * Z * Z + Z) :=
  let '(WriteAddr, offset, remaining) := v in
  let page_avail := QSPI_PAGE_SIZE - WriteAddr mod QSPI_PAGE_SIZE in
  let chunk := if remaining <? page_avail then remaining else page_avail in
  r <- QSPI_WriteEnable ;;
  if negb (r =? QSPI_OK) then ret (inr QSPI_ERROR) else
  st <- HAL_QSPI_Command
          (mkQCmd W25Q_CMD_PAGE_PROGRAM_4B QSPI_ADDRESS_1_LINE WriteAddr QSPI_DATA_1_LINE 0 chunk) ;;
  if negb (hal_ok st) then ret (inr QSPI_ERROR) else
  st <- HAL_QSPI_Transmit (drop (Z.to_nat offset) pData) ;;
  if negb (hal_ok st) then ret (inr QSPI_ERROR) else
  r <- QSPI_AutoPollingMemReady ;;
  if negb (r =? QSPI_OK) then ret (inr QSPI_ERROR) else
  ret (inl (WriteAddr +% chunk, offset +% chunk, remaining -% chunk)).

Definition BSP_QSPI_Write (pData : list Z) (WriteAddr Size : Z) : M W Z :=
  x <- while (Datatypes.S (Z.to_nat Size)) (fun v => 0 <? v.2)
             (QSPI_Write_round pData) (WriteAddr, 0, Size) ;;
  match x with inr r => ret r | inl _ => ret QSPI_OK end.

Definition BSP_QSPI_Erase_Sector (SectorAddress : Z) : M W Z :=
  qspi_check QSPI_WriteEnable
  (hal_check (HAL_QSPI_Command
      (mkQCmd W25Q_CMD_SECTOR_ERASE_4KB_4B QSPI_ADDRESS_1_LINE SectorAddress QSPI_DATA_NONE 0 0))
  (qspi_check QSPI_AutoPollingMemReady
  (ret QSPI_OK))).

(** One of the three attempts of [BSP_QSPI_Erase_Block64K]; a failed one goes
    through the [retry:] label. *)
Definition Erase_Block64K_try (BlockAddress : Z) : M W bool :=
  r <- qspi_check QSPI_WriteEnable
       (hal_check (HAL_QSPI_Command
          (mkQCmd W25Q_CMD_BLOCK_ERASE_64KB_4B QSPI_ADDRESS_1_LINE BlockAddress QSPI_DATA_NONE 0 0))
       (qspi_check QSPI_AutoPollingMemReady
       (ret QSPI_OK))) ;;
  if r =? QSPI_OK then ret true
  else HAL_QSPI_Abort ;;; modify HAL_QSPI_CLEAR_FLAG ;;; modify (HAL_Delay 10) ;;; ret false.

Definition BSP_QSPI_Erase_Block64K (BlockAddress : Z) : M W Z :=
  ok <- retry 3 (Erase_Block64K_try BlockAddress) ;;
  ret (if ok : bool then QSPI_OK else QSPI_ERROR).

(** [QSPI_Erase_Blocks]: the loop variables are [(addr, cnt)]. *)
Definition Erase_Blocks_round (v : Z * Z) : M W (Z * Z + Z) :=
  let '(addr, cnt) := v in
  r <- BSP_QSPI_Erase_Block64K addr ;;
  r2 <- (if r =? QSPI_OK then ret QSPI_OK
         else BSP_QSPI_Init ;;; BSP_QSPI_Erase_Block64K addr) ;;
  if negb (r2 =? QSPI_OK) then ret (inr 1) else
  let cnt := cnt +% 1 in
  (if cnt mod 8 =? 0 then BSP_QSPI_Init else ret 0) ;;;
  ret (inl (addr +% QSPI_BLOCK_64K_SIZE, cnt)).

Definition QSPI_Erase_Blocks (start size : Z) : M W Z :=
  x <- while (Z.to_nat (size / QSPI_BLOCK_64K_SIZE + 2)) (fun v => v.1 <? start +% size)
             Erase_Blocks_round (start, 0) ;;
  match x with inr r => ret r | inl _ => ret 0 end.

Definition BSP_QSPI_Erase_Chip : M W Z :=
  qspi_check QSPI_WriteEnable
  (hal_check (HAL_QSPI_Command
      (mkQCmd W25Q_CMD_CHIP_ERASE QSPI_ADDRESS_NONE 0 QSPI_DATA_NONE 0 0))
  (qspi_check QSPI_AutoPollingMemReady
  (ret QSPI_OK))).

Definition BSP_QSPI_ReadJedecID : M W Z :=
  st <- HAL_QSPI_Command
          (mkQCmd W25Q_CMD_READ_JEDEC_ID QSPI_ADDRESS_NONE 0 QSPI_DATA_1_LINE 0 3) ;;
  if negb (hal_ok st) then ret 0 else
  rd <- HAL_QSPI_Receive ;;
  if negb (hal_ok rd.1) then ret 0 else
  let d := rd.2 in
  ret (Z.lor (Z.lor (Z.shiftl (d !!! 0%nat) 16) (Z.shiftl (d !!! 1%nat) 8)) (d !!! 2%nat)).

Definition BSP_QSPI_EnterMemoryMapped : M W Z :=
  hal_check (HAL_QSPI_MemoryMapped
      (mkQCmd W25Q_CMD_QUAD_READ_4B QSPI_ADDRESS_4_LINES 0 QSPI_DATA_4_LINES 6 0))
  (ret QSPI_OK).

Definition BSP_QSPI_ExitMemoryMapped : M W Z :=
  hal_check HAL_QSPI_Abort (ret QSPI_OK).
End Driver.

(** ** What programming does to the array *)

(** Every byte of the range is unprogrammed or programmed; nothing else changed. *)
Definition partly_programmed (m m' : mem) (a : Z) (data : list Z) : Prop :=
  unchanged_off a (Z.of_nat (length data)) m m' /\
  forall i, 0 <= i < Z.of_nat (length data) ->
    m' (a + i) = m (a + i) \/ m' (a + i) = Z.land (m (a + i)) (data !!! Z.to_nat i).

(** Every byte of the range is programmed; nothing else changed. *)
Definition programmed (m m' : mem) (a : Z) (data : list Z) : Prop :=
  unchanged_off a (Z.of_nat (length data)) m m' /\
  forall i, 0 <= i < Z.of_nat (length data) ->
    m' (a + i) = Z.land (m (a + i)) (data !!! Z.to_nat i).

Section Programming.
Implicit Types (m : mem) (a : Z) (data : list Z).

Lemma programmed_partly m m' a data : programmed m m' a data -> partly_programmed m m' a data.
Proof. intros [H1 H2]. split; [done|]. intros i Hi. right. auto. Qed.

Lemma partly_programmed_refl m a data : partly_programmed m m a data.
Proof. split; [auto with memory|]. by left. Qed.

Lemma land_twice x y : Z.land (Z.land x y) y = Z.land x y.
Proof. by rewrite <- Z.land_assoc, Z.land_diag. Qed.

(** Retrying a write that failed half way is sound. *)
Lemma partly_programmed_trans m1 m2 m3 a data :
  partly_programmed m1 m2 a data -> partly_programmed m2 m3 a data ->
  partly_programmed m1 m3 a data.
Proof.
  intros [U1 P1] [U2 P2]. split; [by etrans|]. intros i Hi.
  destruct (P1 i Hi) as [E1|E1], (P2 i Hi) as [E2|E2];
    rewrite E2, E1, ?land_twice; auto.
Qed.

Lemma partly_programmed_complete m1 m2 m3 a data :
  partly_programmed m1 m2 a data -> programmed m2 m3 a data -> programmed m1 m3 a data.
Proof.
  intros [U1 P1] [U2 P2]. split; [by etrans|]. intros i Hi.
  rewrite (P2 i Hi). by destruct (P1 i Hi) as [E1|E1]; rewrite E1, ?land_twice.
Qed.

Lemma programmed_app m1 m2 m3 a d1 d2 :
  programmed m1 m2 a d1 -> programmed m2 m3 (a + Z.of_nat (length d1)) d2 ->
  programmed m1 m3 a (d1 ++ d2).
Proof.
  intros [U1 P1] [U2 P2]. split.
  - intros x Hx. rewrite length_app in Hx. rewrite U2, U1 by lia. done.
  - intros i Hi. rewrite length_app in Hi. destruct (Z.lt_ge_cases i (Z.of_nat (length d1))).
    + rewrite U2, P1 by lia. by rewrite lookup_total_app_l by lia.
    + replace (a + i) with (a + Z.of_nat (length d1) + (i - Z.of_nat (length d1))) by lia.
      rewrite P2 by lia. rewrite U1 by lia. rewrite lookup_total_app_r by lia.
      do 2 f_equal. lia.
Qed.

Lemma partly_programmed_app m1 m2 m3 a d1 d2 d3 :
  programmed m1 m2 a d1 -> partly_programmed m2 m3 (a + Z.of_nat (length d1)) d2 ->
  partly_programmed m1 m3 a (d1 ++ d2 ++ d3).
Proof.
  intros [U1 P1] [U2 P2]. split.
  - intros x Hx. rewrite !length_app in Hx. rewrite U2, U1 by lia. done.
  - intros i Hi. rewrite !length_app in Hi. destruct (Z.lt_ge_cases i (Z.of_nat (length d1))).
    + rewrite U2, P1 by lia. rewrite lookup_total_app_l by lia. by right.
    + destruct (Z.lt_ge_cases i (Z.of_nat (length d1 + length d2))).
      * replace (a + i) with (a + Z.of_nat (length d1) + (i - Z.of_nat (length d1))) by lia.
        rewrite lookup_total_app_r, lookup_total_app_l by lia.
        replace (Z.to_nat i - length d1)%nat with (Z.to_nat (i - Z.of_nat (length d1))) by lia.
        specialize (P2 (i - Z.of_nat (length d1)) ltac:(lia)).
        by rewrite (U1 (a + Z.of_nat (length d1) + (i - Z.of_nat (length d1)))) in P2 by lia.
      * left. rewrite U2, U1 by lia. done.
Qed.

Lemma programmed_nil m a : programmed m m a [].
Proof. split; [auto with memory|]. cbn. lia. Qed.

Lemma programmed_same m m' m'' a d :
  (forall x, m'' x = m' x) -> programmed m m' a d -> programmed m m'' a d.
Proof. intros E [U P]. split; [intros x Hx; rewrite E; by apply U|]. intros i Hi. rewrite E. auto. Qed.

Lemma partly_programmed_same m m' m'' a d :
  (forall x, m'' x = m' x) -> partly_programmed m m' a d -> partly_programmed m m'' a d.
Proof. intros E [U P]. split; [intros x Hx; rewrite E; by apply U|]. intros i Hi. rewrite E. auto. Qed.

Lemma land_255_byte b : is_byte b -> Z.land 0xFF b = b.
Proof.
  intros H. rewrite Z.land_comm. change 0xFF with (Z.ones 8).
  rewrite Z.land_ones by lia. by apply Z.mod_small.
Qed.

Lemma programmed_erased m m' a data :
  bytes data -> erased m a (Z.of_nat (length data)) -> programmed m m' a data ->
  holds m' a data.
Proof.
  intros Hb He [_ HP] i Hi. rewrite (HP i Hi), He by lia.
  destruct (lookup_lt_is_Some_2 data (Z.to_nat i)) as [b Eb]; [lia|].
  rewrite (list_lookup_total_correct _ _ _ Eb), land_255_byte; [done|].
  by eapply Forall_lookup_1 in Hb.
Qed.

Lemma holds_bytes_read m a data n :
  holds m a data -> (n <= length data)%nat -> mem_read m a n = take n data.
Proof.
  intros H Hn. apply holds_read in H.
  replace (length data) with (n + (length data - n))%nat in H by lia.
  rewrite mem_read_app in H. rewrite <- H.
  rewrite take_app_le by (rewrite mem_read_length; lia).
  by rewrite take_ge by (rewrite mem_read_length; lia).
Qed.
End Programming.

Section DriverSpec.
Context {W : Type} `{!HalOps W} `{!HalView W} `{!HalLaws W}.
Implicit Types (w : W).

Definition is_status (r : Z) : Prop := r = QSPI_OK \/ r = QSPI_ERROR.

Lemma wp_hal_check (m : M W HAL_Status) (k : M W Z) Q w :
  wp m (fun st w' => if hal_ok st then wp k Q w' else Q QSPI_ERROR w') w ->
  wp (hal_check m k) Q w.
Proof. intros H. apply wp_bind. eapply wp_mono; [apply H|]. intros st w'. cbv beta. by destruct (hal_ok st). Qed.

Lemma wp_qspi_check (m k : M W Z) Q w :
  wp m (fun r w' => if r =? QSPI_OK then wp k Q w' else Q QSPI_ERROR w') w ->
  wp (qspi_check m k) Q w.
Proof. intros H. apply wp_bind. eapply wp_mono; [apply H|]. intros r w'. cbv beta. by destruct (r =? QSPI_OK). Qed.

Lemma quietly_hal_check (m : M W HAL_Status) (k : M W Z) :
  quietly m -> quietly k -> quietly (hal_check m k).
Proof. intros Hm Hk. unfold hal_check. apply quietly_bind; [done|]. intros st. by destruct (hal_ok st); auto with hal. Qed.

Lemma quietly_qspi_check (m k : M W Z) : quietly m -> quietly k -> quietly (qspi_check m k).
Proof. intros Hm Hk. unfold qspi_check. apply quietly_bind; [done|]. intros r. by destruct (r =? QSPI_OK); auto with hal. Qed.

Ltac qspi_quiet :=
  repeat lazymatch goal with
         | |- quietly (hal_check _ _) => apply quietly_hal_check
         | |- quietly (qspi_check _ _) => apply quietly_qspi_check
         | |- quietly (HAL_QSPI_Command _) => by apply quiet_Command
         | _ => quiet_step
         end.

Lemma quiet_WriteEnable : quietly QSPI_WriteEnable.
Proof. unfold QSPI_WriteEnable. qspi_quiet. Qed.
Lemma quiet_MemReady : quietly QSPI_AutoPollingMemReady.
Proof. unfold QSPI_AutoPollingMemReady. qspi_quiet. Qed.
Lemma quiet_4Bytes : quietly QSPI_EnterFourBytesAddress.
Proof. unfold QSPI_EnterFourBytesAddress. qspi_quiet. Qed.

Lemma quiet_BSP_QSPI_Init : quietly BSP_QSPI_Init.
Proof. unfold BSP_QSPI_Init. qspi_quiet; auto using quiet_MemReady, quiet_4Bytes. Qed.

Lemma WriteEnable_spec w :
  wp QSPI_WriteEnable (fun r w' => quiet w w' /\ (r = QSPI_OK -> nor_wel w' = true)) w.
Proof.
  apply wp_and; [apply quiet_WriteEnable|]. apply wp_hal_check.
  eapply wp_mono; [by apply quiet_Command|]. intros st w1 _. cbv beta. destruct (hal_ok st); [|done].
  apply wp_hal_check. eapply wp_mono; [by apply law_poll_wel|]. cbv beta.
  intros [] w2 H; cbn; auto; done.
Qed.

(** One page: the chunk of [data] that starts at [offset] and ends at the page
    boundary or at the end of the data. *)
Lemma Write_round_spec data A o r w :
  0 <= A -> A + r <= QSPI_FLASH_SIZE -> 0 <= o -> 0 < r ->
  o + r = Z.of_nat (length data) -> o + r <= QSPI_FLASH_SIZE -> bytes data ->
  let c := Z.min r (QSPI_PAGE_SIZE - A mod QSPI_PAGE_SIZE) in
  let d := take (Z.to_nat c) (drop (Z.to_nat o) data) in
  wp (QSPI_Write_round data (A, o, r)) (fun x w' =>
    same_flash w w' /\
    match x with
    | inl v => v = (A + c, o + c, r - c) /\ programmed (nor_mem w) (nor_mem w') A d
    | inr e => e = QSPI_ERROR /\ partly_programmed (nor_mem w) (nor_mem w') A d
    end) w.
Proof.
  intros HA HAr Ho Hr Hlen Hmax Hb c d. unfold QSPI_FLASH_SIZE, QSPI_PAGE_SIZE in *.
  pose proof (Z.mod_pos_bound A 256 ltac:(lia)) as Hm.
  assert (Hc : 0 < c <= 256 /\ A mod 256 + c <= 256 /\ c <= r) by lia.
  assert (Hd : Z.of_nat (length d) = c) by (unfold d; rewrite length_take, length_drop; lia).
  assert (Hfail : forall w', quiet w w' ->
    same_flash w w' /\ QSPI_ERROR = QSPI_ERROR /\ partly_programmed (nor_mem w) (nor_mem w') A d).
  { intros w' [Hq1 Hq2]. split; [done|]. split; [done|].
    eapply partly_programmed_same; [exact Hq2|apply partly_programmed_refl]. }
  unfold QSPI_Write_round, QSPI_PAGE_SIZE.
  replace (if r <? 256 - A mod 256 then r else 256 - A mod 256) with c
    by (unfold c; destruct (Z.ltb_spec r (256 - A mod 256)); lia).
  wp_call (WriteEnable_spec w) as r1 w1 [Hq1 Hwel]. unfold QSPI_OK in *.
  destruct (Z.eqb_spec r1 0) as [->|]; cbn [negb]; [|by apply wp_ret, Hfail].
  set (cmd := mkQCmd W25Q_CMD_PAGE_PROGRAM_4B QSPI_ADDRESS_1_LINE A QSPI_DATA_1_LINE 0 c).
  wp_call (wp_and _ _ _ _ (quiet_Command cmd eq_refl w1)
             (law_command_data cmd w1 ltac:(discriminate))) as st w2 [Hq2 Hpend].
  assert (Hq : quiet w w2) by (etrans; eassumption).
  destruct st; cbn [hal_ok negb]; try by apply wp_ret, Hfail.
  destruct (Hpend eq_refl) as [Hp2 Hw2]. rewrite (Hwel eq_refl) in Hw2.
  assert (Hlk : forall i, 0 <= i < c -> drop (Z.to_nat o) data !!! Z.to_nat i = d !!! Z.to_nat i).
  { intros i Hi. unfold d. rewrite lookup_total_take_lt by lia. done. }
  wp_call (law_transmit cmd (drop (Z.to_nat o) data) w2 Hp2 eq_refl HA ltac:(cbn; lia)
             ltac:(cbn; lia) ltac:(cbn; unfold QSPI_FLASH_SIZE; lia)
             ltac:(cbn; rewrite length_drop; lia) ltac:(by apply Forall_drop)) as st w3 [Hf3 [Hu3 Ht]].
  subst cmd. cbn [Address NbData] in *.
  assert (Hf : same_flash w w3) by (transitivity w2; [apply Hq|done]).
  assert (Hpart : partly_programmed (nor_mem w) (nor_mem w3) A d).
  { split; [intros x Hx; rewrite Hu3 by lia; apply Hq|]. intros i Hi. rewrite Hd in Hi.
    destruct (Ht i Hi) as [Hor _]. rewrite (proj2 Hq), Hlk in Hor by done. done. }
  destruct st; cbn [hal_ok negb]; try (by apply wp_ret).
  assert (Hprog : programmed (nor_mem w) (nor_mem w3) A d).
  { split; [apply Hpart|]. intros i Hi. rewrite Hd in Hi. destruct (Ht i Hi) as [_ Hok].
    rewrite Hok, (proj2 Hq), Hlk by done. done. }
  wp_call (quiet_MemReady w3) as r4 w4 [Hf4 Hn4].
  assert (Hf' : same_flash w w4) by (etrans; eassumption).
  unfold QSPI_OK. destruct (Z.eqb_spec r4 0) as [->|]; cbn [negb]; apply wp_ret.
  - split; [done|]. split; [|eapply programmed_same; eassumption].
    by unwrap.
  - split; [done|]. split; [done|]. eapply partly_programmed_same; eassumption.
Qed.

Lemma BSP_QSPI_Write_spec data A w :
  0 <= A -> A + Z.of_nat (length data) <= QSPI_FLASH_SIZE -> bytes data ->
  wp (BSP_QSPI_Write data A (Z.of_nat (length data))) (fun r w' =>
    is_status r /\ same_flash w w' /\
    partly_programmed (nor_mem w) (nor_mem w') A data /\
    (r = QSPI_OK -> programmed (nor_mem w) (nor_mem w') A data)) w.
Proof.
  intros HA HAl Hb. unfold BSP_QSPI_Write. set (n := Z.of_nat (length data)) in *.
  set (I := fun (v : Z * Z * Z) w' => exists o, v = (A + o, o, n - o) /\ 0 <= o <= n /\
    same_flash w w' /\ programmed (nor_mem w) (nor_mem w') A (take (Z.to_nat o) data)).
  set (E := fun (e : Z) w' => e = QSPI_ERROR /\ same_flash w w' /\
    partly_programmed (nor_mem w) (nor_mem w') A data).
  apply wp_bind. eapply wp_mono;
    [apply (wp_while _ _ _ (fun v _ => Z.to_nat v.2) I E)|].
  - intros v w1 (o & -> & Ho & Hf1 & Hp1) Hc. cbn in Hc. apply Z.ltb_lt in Hc.
    set (c := Z.min (n - o) (QSPI_PAGE_SIZE - (A + o) mod QSPI_PAGE_SIZE)).
    assert (Hcr : 0 < c <= n - o).
    { unfold c, QSPI_PAGE_SIZE. pose proof (Z.mod_pos_bound (A + o) 256). lia. }
    eapply wp_mono; [apply Write_round_spec; unfold n in *; (done || lia)|]. cbv beta zeta.
    fold c. assert (Hlt : length (take (Z.to_nat o) data) = Z.to_nat o) by (rewrite length_take; lia).
    assert (Hsplit : data = take (Z.to_nat o) data ++ take (Z.to_nat c) (drop (Z.to_nat o) data)
                            ++ drop (Z.to_nat c) (drop (Z.to_nat o) data))
      by by rewrite !take_drop.
    intros [v|e] w2 [Hf2 [-> Hp2]].
    + split; [|cbn; lia]. exists (o + c). split; [f_equal; [f_equal|]; lia|]. split; [lia|].
      split; [by etrans|].
      replace (take (Z.to_nat (o + c)) data) with
        (take (Z.to_nat o) data ++ take (Z.to_nat c) (drop (Z.to_nat o) data))
        by (rewrite Z2Nat.inj_add by lia; by rewrite <- take_take_drop).
      eapply programmed_app; [exact Hp1|]. rewrite Hlt. by rewrite Z2Nat.id by lia.
    + split; [done|]. split; [by etrans|]. rewrite Hsplit.
      eapply partly_programmed_app; [exact Hp1|]. rewrite Hlt. by rewrite Z2Nat.id by lia.
  - exists 0. split; [f_equal; [f_equal|]; lia|]. split; [lia|]. split; [done|]. apply programmed_nil.
  - cbn. lia.
  - cbv beta. intros [v|e] w1.
    + intros [(o & -> & Ho & Hf & Hp) Hc]. cbn in Hc. apply Z.ltb_ge in Hc.
      rewrite take_ge in Hp by lia. apply wp_ret. split; [by left|]. split; [done|].
      split; [by apply programmed_partly|done].
    + intros (-> & Hf & Hp). apply wp_ret. split; [by right|]. split; [done|]. split; [done|].
      discriminate.
Qed.

Lemma BSP_QSPI_Read_spec A n w :
  0 <= A -> 0 <= n -> A + n <= QSPI_FLASH_SIZE ->
  wp (BSP_QSPI_Read A n) (fun rd w' =>
    quiet w w' /\ is_status rd.1 /\
    (rd.1 = QSPI_OK -> rd.2 = mem_read (nor_mem w) A (Z.to_nat n))) w.
Proof.
  intros HA Hn HAn. unfold BSP_QSPI_Read.
  set (cmd := mkQCmd _ _ _ _ _ _).
  wp_call (wp_and _ _ _ _ (quiet_Command cmd eq_refl w)
             (law_command_data cmd w ltac:(discriminate))) as st w1 [Hq1 Hp].
  destruct (hal_ok st) eqn:Est.
  2: { apply wp_ret. split; [done|]. split; [by right|discriminate]. }
  destruct st; try discriminate. destruct (Hp eq_refl) as [Hp1 _].
  wp_call (wp_and _ _ _ _ (quiet_Receive w1)
             (law_receive cmd w1 Hp1 eq_refl HA Hn HAn)) as rd w2 [Hq2 Hrd].
  assert (Hq : quiet w w2) by (etrans; eassumption).
  destruct rd as [st d]; cbn [fst snd] in *. destruct st; cbn [hal_ok]; apply wp_ret;
    (split; [done|]); (split; [by (left + right)|]); cbn; try discriminate.
  intros _. rewrite Hrd by done. apply mem_read_ext. intros x _. apply Hq1.
Qed.

(** An erase routine: only the range changes, and success leaves it erased. *)
Definition erases (lo n : Z) (m : M W Z) : Prop := forall w,
  wp m (fun r w' => is_status r /\ same_flash w w' /\
    unchanged_off lo n (nor_mem w) (nor_mem w') /\
    (r = QSPI_OK -> erased (nor_mem w') lo n)) w.

Lemma erases_fail lo n w w' : same_flash w w' ->
  unchanged_off lo n (nor_mem w) (nor_mem w') ->
  is_status QSPI_ERROR /\ same_flash w w' /\
    unchanged_off lo n (nor_mem w) (nor_mem w') /\
    (QSPI_ERROR = QSPI_OK -> erased (nor_mem w') lo n).
Proof. split; [by right|]. split; [done|]. split; [done|discriminate]. Qed.

Lemma unchanged_off_nor lo n w w' : same_nor w w' ->
  unchanged_off lo n (nor_mem w) (nor_mem w').
Proof. intros H a _. apply H. Qed.

(** WREN, the erase command, and the poll for WIP: the body shared by the three
    erase functions. *)
Lemma erase_sequence cmd lo n :
  erase_range cmd = Some (lo, n) ->
  erases lo n (qspi_check QSPI_WriteEnable (hal_check (HAL_QSPI_Command cmd)
    (qspi_check QSPI_AutoPollingMemReady (ret QSPI_OK)))).
Proof.
  intros Hr w. apply wp_qspi_check. eapply wp_mono; [apply WriteEnable_spec|].
  intros r w1 [[Hf1 Hn1] Hwel]. unfold QSPI_OK at 1. destruct (Z.eqb_spec r 0) as [->|].
  2: { apply erases_fail; [done|by apply unchanged_off_nor]. }
  apply wp_hal_check. eapply wp_mono; [by apply law_command_erase|].
  intros st w2 (Hf2 & Hu2 & He2). cbv beta in *.
  assert (Hf : same_flash w w2) by (etrans; eassumption).
  assert (Hu : unchanged_off lo n (nor_mem w) (nor_mem w2)).
  { intros a Ha. rewrite Hu2 by done. apply Hn1. }
  destruct (hal_ok st) eqn:Est; [|by apply erases_fail].
  destruct st; try discriminate. specialize (He2 eq_refl (Hwel eq_refl)).
  apply wp_qspi_check. eapply wp_mono; [apply quiet_MemReady|].
  intros r w3 [Hf3 Hn3]. assert (Hf' : same_flash w w3) by (etrans; eassumption).
  assert (Hu' : unchanged_off lo n (nor_mem w) (nor_mem w3)).
  { intros a Ha. rewrite Hn3. by apply Hu. }
  destruct (r =? QSPI_OK); [|by apply erases_fail].
  apply wp_ret. split; [by left|]. split; [done|]. split; [done|].
  intros _ a Ha. rewrite Hn3. by apply He2.
Qed.

Lemma Erase_Sector_spec a : erases (a / 4096 * 4096) 4096 (BSP_QSPI_Erase_Sector a).
Proof. by apply erase_sequence. Qed.

Lemma Erase_Chip_spec : erases 0 QSPI_FLASH_SIZE BSP_QSPI_Erase_Chip.
Proof. by apply erase_sequence. Qed.

Lemma Erase_Block64K_spec a : erases (a / 65536 * 65536) 65536 (BSP_QSPI_Erase_Block64K a).
Proof.
  intros w. set (lo := a / 65536 * 65536).
  set (I := fun w' => same_flash w w' /\ unchanged_off lo 65536 (nor_mem w) (nor_mem w')).
  apply wp_bind. eapply wp_mono;
    [apply (wp_retry _ _ I (fun w' => I w' /\ erased (nor_mem w') lo 65536))|].
  - intros w1 [Hf1 Hu1]. apply wp_bind. eapply wp_mono; [by apply erase_sequence|].
    intros r w2 (_ & Hf2 & Hu2 & He). cbv beta in *.
    assert (HI : I w2) by (split; etrans; eassumption).
    destruct (Z.eqb_spec r QSPI_OK) as [->|]; [apply wp_ret; auto|].
    assert (Hq : quietly (HAL_QSPI_Abort ;;; modify HAL_QSPI_CLEAR_FLAG ;;;
                          modify (HAL_Delay 10) ;;; ret false)) by quiet_tac.
    apply wp_intro. intros ok w3 Erun. pose proof (wp_run _ _ _ _ _ (Hq w2) Erun) as [Hf3 Hn3].
    assert (HI3 : I w3).
    { destruct HI. split; [etrans; eassumption|]. intros x Hx. rewrite Hn3. auto. }
    destruct ok; [|done]. exfalso. revert Erun. cbv [bind modify ret].
    destruct (HAL_QSPI_Abort w2). congruence.
  - split; auto with memory. reflexivity.
  - intros ok w1 H. apply wp_ret. destruct ok.
    + destruct H as [[Hf Hu] He]. split; [by left|]. auto.
    + destruct H as [Hf Hu]. by apply erases_fail.
Qed.

Lemma is_status_01 r : is_status r <-> r = 0 \/ r = 1.
Proof. done. Qed.

(** A block that failed once is retried after a re-initialisation. *)
Lemma Erase_Blocks_round_spec addr cnt w :
  addr mod 65536 = 0 -> 0 <= addr -> addr + 65536 <= QSPI_FLASH_SIZE ->
  wp (Erase_Blocks_round (addr, cnt)) (fun x w' =>
    same_flash w w' /\ unchanged_off addr 65536 (nor_mem w) (nor_mem w') /\
    match x with
    | inl v => v.1 = addr + 65536 /\ erased (nor_mem w') addr 65536
    | inr r => r = 1
    end) w.
Proof.
  intros Ha H0 Hmax. unfold QSPI_FLASH_SIZE in Hmax.
  assert (Hlo : addr / 65536 * 65536 = addr) by (Z.to_euclidean_division_equations; lia).
  pose proof (Erase_Block64K_spec addr) as HE. rewrite Hlo in HE.
  apply wp_bind. eapply wp_mono; [apply HE|]. intros r w1 (Hr & Hf1 & Hu1 & He1).
  apply wp_bind. eapply (wp_mono _ (fun r2 w2 => same_flash w w2 /\
    unchanged_off addr 65536 (nor_mem w) (nor_mem w2) /\
    (r2 = QSPI_OK -> erased (nor_mem w2) addr 65536))).
  { cbv beta in *. destruct (Z.eqb_spec r QSPI_OK) as [->|]; [apply wp_ret; auto|].
    wp_call (quiet_BSP_QSPI_Init w1) as u w2 [Hf2 Hn2].
    eapply wp_mono; [apply HE|]. intros r2 w3 (_ & Hf3 & Hu3 & He3). cbv beta in *.
    split; [do 2 (etrans; [eassumption|]); done|]. split; [|done].
    etrans; [exact Hu1|]. etrans; [by apply unchanged_off_nor|done]. }
  intros r2 w2 (Hf2 & Hu2 & He2). cbv beta in *.
  destruct (Z.eqb_spec r2 QSPI_OK) as [->|]; cbn [negb]; [|by apply wp_ret].
  specialize (He2 eq_refl).
  assert (Hq : quietly (if (cnt +% 1) mod 8 =? 0 then BSP_QSPI_Init else ret 0))
    by (apply quietly_if; auto using quiet_BSP_QSPI_Init with hal).
  wp_call (Hq w2) as u w3 [Hf3 Hn3]. apply wp_ret.
  split; [etrans; eassumption|]. split; [etrans; [exact Hu2|by apply unchanged_off_nor]|].
  cbn. split; [unfold QSPI_BLOCK_64K_SIZE; by unwrap|].
  intros x Hx. rewrite Hn3. by apply He2.
Qed.

Lemma QSPI_Erase_Blocks_spec start size :
  start mod 65536 = 0 -> size mod 65536 = 0 -> 0 <= start -> 0 <= size ->
  start + size <= QSPI_FLASH_SIZE -> erases start size (QSPI_Erase_Blocks start size).
Proof.
  intros Hs Hz H0 H1 Hmax w. unfold QSPI_FLASH_SIZE in Hmax.
  set (I := fun (v : Z * Z) w' => exists k, v.1 = start + k * 65536 /\ 0 <= k /\
    k * 65536 <= size /\ same_flash w w' /\
    unchanged_off start size (nor_mem w) (nor_mem w') /\ erased (nor_mem w') start (k * 65536)).
  set (E := fun (r : Z) w' => r = 1 /\ same_flash w w' /\
    unchanged_off start size (nor_mem w) (nor_mem w')).
  assert (Hend : start +% size = start + size) by (by unwrap).
  apply wp_bind. eapply wp_mono;
    [apply (wp_while _ _ _ (fun v _ => Z.to_nat ((start + size - v.1) / 65536)) I E)|].
  - intros [addr cnt] w1 (k & Hk & Hk0 & Hks & Hf & Hu & He) Hc. cbn [fst] in *. rewrite Hend in Hc.
    apply Z.ltb_lt in Hc.
    assert (Hin : addr + 65536 <= start + size) by (Z.to_euclidean_division_equations; lia).
    eapply wp_mono; [apply Erase_Blocks_round_spec;
      [subst addr; Z.to_euclidean_division_equations; lia|lia|unfold QSPI_FLASH_SIZE; lia]|].
    cbv beta. intros x w2 (Hf2 & Hu2 & Hx).
    assert (Hf' : same_flash w w2) by (etrans; eassumption).
    assert (Hu' : unchanged_off start size (nor_mem w) (nor_mem w2)).
    { etrans; [exact Hu|]. eapply unchanged_off_weaken; [| |exact Hu2]; lia. }
    destruct x as [v|r]; [|by subst r].
    destruct Hx as [Hv He2]. split.
    + exists (k + 1). split; [lia|]. split; [lia|].
      split; [Z.to_euclidean_division_equations; lia|]. split; [done|]. split; [done|]. intros x Hx.
      destruct (Z.lt_ge_cases x addr); [rewrite Hu2 by lia; apply He; lia|apply He2; lia].
    + rewrite Hv. Z.to_euclidean_division_equations. lia.
  - exists 0. cbn [fst]. split; [lia|]. split; [lia|]. split; [lia|]. split; [done|].
    split; [done|]. intros x Hx. lia.
  - cbn [fst]. unfold QSPI_BLOCK_64K_SIZE. Z.to_euclidean_division_equations. lia.
  - intros [[addr cnt]|r] w1; cbv beta.
    + intros [(k & Hk & _ & Hks & Hf & Hu & He) Hc]. cbn [fst] in *. rewrite Hend in Hc.
      apply Z.ltb_ge in Hc. apply wp_ret. split; [by left|]. split; [done|]. split; [done|].
      intros _. by replace size with (k * 65536) by lia.
    + intros (-> & Hf & Hu). apply wp_ret. by apply erases_fail.
Qed.
End DriverSpec.
