(* ===== verification/QspiReliable.v ===== *)
(** * The NOR driver on a device whose HAL calls succeed

    QspiFlash.v says what a driver call has done when it reports success; here it
    is shown that success is what it reports when no HAL call fails, so that the
    conditional statements are not vacuous.  The witnesses use SimDevice.v. *)
From S2P Require Import Prelude Hal SimDevice QspiFlash.

Section Reliable.
Context {W : Type} `{!HalOps W} `{!HalView W} `{!HalLaws W}.
Context (G : W -> Prop) (HG : reliable G).
Implicit Types (w : W).

(** The call succeeds and leaves the device in [G]. *)
Definition succeeds (m : M W Z) : Prop := forall w, G w -> wp m (fun r w' => r = QSPI_OK /\ G w') w.

Lemma wp_hal_check_ok (m : M W HAL_Status) (k : M W Z) (P : W -> Prop) Q w :
  wp m (fun st w' => st = HAL_OK /\ P w') w -> (forall w', P w' -> wp k Q w') ->
  wp (hal_check m k) Q w.
Proof.
  intros Hm Hk. apply wp_hal_check. eapply wp_mono; [exact Hm|]. intros st w' [-> HP]. by apply Hk.
Qed.

Lemma wp_qspi_check_ok (m k : M W Z) (P : W -> Prop) Q w :
  wp m (fun r w' => r = QSPI_OK /\ P w') w -> (forall w', P w' -> wp k Q w') ->
  wp (qspi_check m k) Q w.
Proof.
  intros Hm Hk. apply wp_qspi_check. eapply wp_mono; [exact Hm|]. intros r w' [-> HP]. by apply Hk.
Qed.

Lemma Command_ok c w : G w -> wp (HAL_QSPI_Command c) (fun st w' => st = HAL_OK /\ G w') w.
Proof. intros H. eapply wp_mono; [by apply (rel_Command G HG)|]. cbv beta. tauto. Qed.

Lemma succeeds_ret : succeeds (ret QSPI_OK).
Proof. intros w H. by apply wp_ret. Qed.

Lemma succeeds_command c k : succeeds k -> succeeds (hal_check (HAL_QSPI_Command c) k).
Proof. intros Hk w H. eapply wp_hal_check_ok; [by apply Command_ok|]. exact Hk. Qed.

Lemma succeeds_check m k : succeeds m -> succeeds k -> succeeds (qspi_check m k).
Proof. intros Hm Hk w H. eapply wp_qspi_check_ok; [by apply Hm|]. exact Hk. Qed.

Lemma WriteEnable_ok : succeeds QSPI_WriteEnable.
Proof.
  intros w H. eapply wp_hal_check_ok; [by apply (rel_Command G HG)|].
  cbv beta. intros w1 [H1 Hwel]. eapply wp_hal_check_ok; [apply (rel_AutoPolling G HG); auto|].
  apply succeeds_ret.
Qed.

Lemma MemReady_ok : succeeds QSPI_AutoPollingMemReady.
Proof.
  intros w H. eapply wp_hal_check_ok; [by apply (rel_AutoPolling G HG)|]. apply succeeds_ret.
Qed.

Lemma Init_ok : succeeds BSP_QSPI_Init.
Proof.
  intros w H. eapply wp_hal_check_ok; [by apply (rel_QSPI_DeInit G HG)|]. intros w1 H1.
  eapply wp_hal_check_ok; [by apply (rel_QSPI_Init G HG)|]. intros w2 H2.
  apply wp_bind, wp_modify. generalize (rel_GPIO G HG _ H2). generalize (QSPI_GPIO_Init w2).
  fold (succeeds (hal_check (HAL_QSPI_Command
      (mkQCmd W25Q_CMD_RESET_ENABLE QSPI_ADDRESS_NONE 0 QSPI_DATA_NONE 0 0))
  (hal_check (HAL_QSPI_Command
      (mkQCmd W25Q_CMD_RESET_MEMORY QSPI_ADDRESS_NONE 0 QSPI_DATA_NONE 0 0))
  (qspi_check QSPI_AutoPollingMemReady
  (qspi_check QSPI_EnterFourBytesAddress
  (ret QSPI_OK)))))).
  repeat first [apply succeeds_command | apply succeeds_check | apply MemReady_ok | apply succeeds_ret].
Qed.

Lemma Erase_Block64K_ok a : succeeds (BSP_QSPI_Erase_Block64K a).
Proof.
  intros w H. apply wp_bind. eapply wp_mono; [apply (wp_retry_first _ _ G); [lia|]|].
  - apply wp_bind. eapply wp_mono.
    + assert (S : succeeds (qspi_check QSPI_WriteEnable (hal_check (HAL_QSPI_Command
          (mkQCmd W25Q_CMD_BLOCK_ERASE_64KB_4B QSPI_ADDRESS_1_LINE a QSPI_DATA_NONE 0 0))
          (qspi_check QSPI_AutoPollingMemReady (ret QSPI_OK))))).
      { apply succeeds_check; [apply WriteEnable_ok|]. apply succeeds_command, succeeds_check;
          [apply MemReady_ok|apply succeeds_ret]. }
      by apply S.
    + intros r w1 [-> H1]. by apply wp_ret.
  - intros ok w1 [-> H1]. by apply wp_ret.
Qed.

Lemma Erase_Blocks_round_ok addr cnt w : G w ->
  wp (Erase_Blocks_round (addr, cnt)) (fun x w' =>
    (exists c, x = inl (addr +% QSPI_BLOCK_64K_SIZE, c)) /\ G w') w.
Proof.
  intros H. wp_call (Erase_Block64K_ok addr w H) as r w1 [-> H1].
  apply wp_bind, wp_ret. cbn [Z.eqb QSPI_OK negb]. apply wp_bind.
  apply (wp_mono _ (fun _ w' => G w')).
  - destruct (_ =? 0); [|by apply wp_ret]. eapply wp_mono; [by apply Init_ok|]. by intros r w2 [_ H2].
  - intros u w2 H2. apply wp_ret. eauto.
Qed.

Lemma Erase_Blocks_ok start size :
  0 <= start -> 0 <= size -> start + size <= QSPI_FLASH_SIZE -> succeeds (QSPI_Erase_Blocks start size).
Proof.
  intros Hs Hz Hmax w H. unfold QSPI_FLASH_SIZE in Hmax.
  set (I := fun (v : Z * Z) w' => G w' /\ 0 <= v.1 < start + size + 65536).
  apply wp_bind. eapply wp_mono;
    [apply (wp_while _ _ _ (fun v _ => Z.to_nat ((start + size - v.1 + 65535) / 65536))
              I (fun (_ : Z) (_ : W) => False))|].
  - intros [addr cnt] w1 [H1 Hb] Hc. cbn [fst] in *. rewrite u32_small in Hc by lia. apply Z.ltb_lt in Hc.
    eapply wp_mono; [by apply Erase_Blocks_round_ok|]. cbv beta.
    intros x w2 [[c ->] H2]. unfold I, QSPI_BLOCK_64K_SIZE. cbn [fst]. rewrite u32_small by lia.
    split; [split; [done|lia]|]. Z.to_euclidean_division_equations. lia.
  - split; [done|]. cbn [fst]. lia.
  - cbn [fst]. unfold QSPI_BLOCK_64K_SIZE. Z.to_euclidean_division_equations. lia.
  - intros [v|r] w1; [|done]. intros [[H1 _] _]. by apply wp_ret.
Qed.

Lemma Write_round_ok data A o r w : G w ->
  wp (QSPI_Write_round data (A, o, r)) (fun x w' =>
    (let c := if r <? QSPI_PAGE_SIZE - A mod QSPI_PAGE_SIZE then r else QSPI_PAGE_SIZE - A mod QSPI_PAGE_SIZE in
     x = inl (A +% c, o +% c, r -% c)) /\ G w') w.
Proof.
  intros H. unfold QSPI_Write_round. wp_call (WriteEnable_ok w H) as r1 w1 [-> H1].
  cbn [Z.eqb QSPI_OK negb]. wp_call (Command_ok _ w1 H1) as st w2 [-> H2]. cbn [hal_ok negb].
  wp_call (rel_Transmit G HG _ w2 H2) as st w3 [-> H3]. cbn [hal_ok negb].
  wp_call (MemReady_ok w3 H3) as r4 w4 [-> H4]. cbn [Z.eqb QSPI_OK negb]. by apply wp_ret.
Qed.

Lemma Write_ok data A : 0 <= A -> A + Z.of_nat (length data) <= QSPI_FLASH_SIZE ->
  succeeds (BSP_QSPI_Write data A (Z.of_nat (length data))).
Proof.
  intros HA HAl w H. unfold QSPI_FLASH_SIZE in HAl. set (n := Z.of_nat (length data)) in *.
  assert (0 <= n) by lia.
  set (I := fun (v : Z * Z * Z) w' => G w' /\ exists o, v = (A + o, o, n - o) /\ 0 <= o <= n).
  apply wp_bind. eapply wp_mono;
    [apply (wp_while _ _ _ (fun (v : Z * Z * Z) _ => Z.to_nat v.2) I (fun (_ : Z) (_ : W) => False))|].
  - intros v w1 (H1 & o & -> & Ho) Hc. cbn in Hc. apply Z.ltb_lt in Hc.
    eapply wp_mono; [by apply Write_round_ok|]. cbv beta zeta.
    unfold QSPI_PAGE_SIZE. set (c := if n - o <? 256 - (A + o) mod 256 then n - o else 256 - (A + o) mod 256).
    assert (Hcr : 0 < c <= n - o).
    { unfold c. pose proof (Z.mod_pos_bound (A + o) 256).
      destruct (Z.ltb_spec (n - o) (256 - (A + o) mod 256)); lia. }
    intros x w2 [-> H2]. unwrap. split; [|cbn; lia]. split; [done|]. exists (o + c).
    split; [|lia]. f_equal; [f_equal|]; lia.
  - split; [done|]. exists 0. split; [|lia]. f_equal; [f_equal|]; lia.
  - cbn. lia.
  - intros [v|r] w1; [|done]. intros [[H1 _] _]. by apply wp_ret.
Qed.

Lemma Read_ok A n w : G w -> wp (BSP_QSPI_Read A n) (fun rd w' => rd.1 = QSPI_OK /\ G w') w.
Proof.
  intros H. unfold BSP_QSPI_Read. wp_call (Command_ok _ w H) as st w1 [-> H1]. cbn [hal_ok].
  wp_call (rel_Receive G HG w1 H1) as rd w2 [E H2]. rewrite E. cbn [hal_ok]. by apply wp_ret.
Qed.
End Reliable.

(** ** Erase, write, read back *)
Section Stored.
Context {W : Type} `{!HalOps W, !HalView W, !HalLaws W}.

(** The result of a call, from the state [w], on every reliable device. *)
Lemma wp_reliably {X} (m : M W X) (P : X -> Prop) (w : W) :
  (forall G, reliable G -> G w -> wp m (fun r w' => P r /\ G w') w) ->
  wp m (fun r w' => forall G, reliable G -> G w -> P r /\ G w') w.
Proof. unfold wp. destruct (m w) as [r w']. auto. Qed.

Lemma erase_outcome start size w :
  start mod 65536 = 0 -> size mod 65536 = 0 -> 0 <= start -> 0 <= size -> start + size <= QSPI_FLASH_SIZE ->
  wp (QSPI_Erase_Blocks start size) (fun r w' => (is_status r /\ same_flash w w' /\
    unchanged_off start size (nor_mem w) (nor_mem w') /\ (r = QSPI_OK -> erased (nor_mem w') start size)) /\
    forall G, reliable G -> G w -> r = QSPI_OK /\ G w') w.
Proof.
  intros Hs Hz H0 H1 Hmax. apply wp_and; [by apply QSPI_Erase_Blocks_spec|].
  apply wp_reliably. intros G HG. by apply Erase_Blocks_ok.
Qed.

Lemma write_outcome A data w : 0 <= A -> A + Z.of_nat (length data) <= QSPI_FLASH_SIZE -> bytes data ->
  wp (BSP_QSPI_Write data A (Z.of_nat (length data))) (fun r w' => (is_status r /\ same_flash w w' /\
    partly_programmed (nor_mem w) (nor_mem w') A data /\
    (r = QSPI_OK -> programmed (nor_mem w) (nor_mem w') A data)) /\
    forall G, reliable G -> G w -> r = QSPI_OK /\ G w') w.
Proof.
  intros HA HAl Hb. apply wp_and; [by apply BSP_QSPI_Write_spec|].
  apply wp_reliably. intros G HG. by apply Write_ok.
Qed.

Lemma read_outcome A n w : 0 <= A -> 0 <= n -> A + n <= QSPI_FLASH_SIZE ->
  wp (BSP_QSPI_Read A n) (fun rd w' => (quiet w w' /\ is_status rd.1 /\
    (rd.1 = QSPI_OK -> rd.2 = mem_read (nor_mem w) A (Z.to_nat n))) /\
    forall G, reliable G -> G w -> rd.1 = QSPI_OK /\ G w') w.
Proof.
  intros HA Hn HAn. apply wp_and; [by apply BSP_QSPI_Read_spec|].
  apply wp_reliably. intros G HG. by apply Read_ok.
Qed.

(** The three calls with their results. *)
Definition erase_write_read (start size A : Z) (data : list Z) : M W (Z * Z * (Z * list Z)) :=
  r1 <- QSPI_Erase_Blocks start size ;;
  r2 <- BSP_QSPI_Write data A (Z.of_nat (length data)) ;;
  rd <- BSP_QSPI_Read A (Z.of_nat (length data)) ;;
  ret (r1, r2, rd).

(** C25. Erasing blocks of the NOR flash, writing data inside them across pages and
    reading it back: whenever the three calls report success the data read is the data
    written, whatever failed nothing outside the blocks changes, and on a reliable
    device the three calls do succeed. *)
Theorem qspi_stored start size A data w :
  start mod 65536 = 0 -> size mod 65536 = 0 -> 0 <= start -> 0 <= size -> start + size <= QSPI_FLASH_SIZE ->
  start <= A -> A + Z.of_nat (length data) <= start + size -> bytes data ->
  wp (erase_write_read start size A data) (fun x w' => let '(r1, r2, rd) := x in
      same_flash w w' /\ unchanged_off start size (nor_mem w) (nor_mem w') /\
      (r1 = QSPI_OK -> r2 = QSPI_OK -> rd.1 = QSPI_OK -> rd.2 = data) /\
      (forall G, reliable G -> G w -> r1 = QSPI_OK /\ r2 = QSPI_OK /\ rd.1 = QSPI_OK)) w.
Proof.
  intros Hs Hz H0 H1 Hmax HA HAl Hb.
  wp_call (erase_outcome start size w Hs Hz H0 H1 Hmax) as r1 w1 [(_ & F1 & U1 & E1) R1].
  wp_call (write_outcome A data w1 ltac:(lia) ltac:(lia) Hb) as r2 w2 [(_ & F2 & [U2 _] & P2) R2].
  wp_call (read_outcome A (Z.of_nat (length data)) w2 ltac:(lia) ltac:(lia) ltac:(lia)) as rd w3 [(Q3 & _ & D3) R3].
  apply wp_ret. split; [|split; [|split]].
  - etrans; [exact F1|]. etrans; [exact F2|]. apply Q3.
  - etrans; [exact U1|]. eapply unchanged_off_trans; [|apply unchanged_off_nor, Q3].
    eapply unchanged_off_weaken; [| |exact U2]; lia.
  - intros K1 K2 K3. rewrite (D3 K3), Nat2Z.id. apply holds_read, (programmed_erased (nor_mem w1)); auto.
    intros a Ha. apply E1; [done|lia].
  - intros G HG Hw. destruct (R1 G HG Hw) as [-> G1]. destruct (R2 G HG G1) as [-> G2].
    destruct (R3 G HG G2) as [-> _]. done.
Qed.
End Stored.

(** Ten bytes across a page boundary, on a simulated device. *)
Definition blank_dev : dev := mkDev (fun _ => 0) (fun _ => 0) false None [].
Definition ten_bytes : list Z := [1; 2; 3; 4; 5; 6; 7; 8; 9; 10].

Lemma qspi_stored_witness :
  wp (erase_write_read 65536 65536 65786 ten_bytes)
    (fun x _ => x = (QSPI_OK, QSPI_OK, (QSPI_OK, ten_bytes))) blank_dev.
Proof.
  eapply wp_mono; [apply (qspi_stored 65536 65536 65786 ten_bytes blank_dev)|].
  1-7: by vm_compute.
  - repeat constructor; by vm_compute.
  - intros [[r1 r2] [r3 d]] w' (_ & _ & H1 & H2). destruct (H2 fault_free sim_reliable eq_refl) as (-> & -> & E).
    cbn [fst snd] in *. subst r3. by rewrite H1.
Defined.
