(* ===== verification/Metadata.v ===== *)
(** * OTA metadata (metadata/metadata.h, metadata/metadata.c)

    The 64-byte record in internal flash sector 1 that the bootloader and the
    application share.  Theorems: the byte image round-trips, [Metadata_Read]
    always yields a record with a valid magic, a [Metadata_Write] that returns 0
    is read back by the next [Metadata_Read] whatever the hardware did, it
    never touches memory outside sector 1, and on a device whose HAL calls
    succeed it returns 0. *)
From S2P Require Import Prelude Hal SimDevice.
From stdpp Require Import strings pretty.
#[global] Open Scope Z_scope.

Definition METADATA_ADDR : Z := 0x08020000.
Definition METADATA_MAGIC : Z := 0x4D455441.

(** [MetadataState] *)
Definition STATE_EMPTY : Z := 0xFFFFFFFF.
Definition STATE_PENDING_UPDATE : Z := 0x50454E44.
Definition STATE_TESTING : Z := 0x54455354.
Definition STATE_CONFIRMED : Z := 0x434F4E46.

Record Metadata := mkMeta {
  magic : Z;
  state : Z;
  version_major : Z;
  version_minor : Z;
  version_patch : Z;
  crc32 : Z;
  fw_size : Z;
  reserved : list Z
}.

Definition sizeof_Metadata : nat := 64.

(** The record as the sixteen words of its memory image. *)
Definition meta_words (m : Metadata) : list Z :=
  [magic m; state m; version_major m; version_minor m; version_patch m; crc32 m; fw_size m]
  ++ reserved m.

Definition words_meta (l : list Z) : Metadata :=
  mkMeta (l !!! 0%nat) (l !!! 1%nat) (l !!! 2%nat) (l !!! 3%nat) (l !!! 4%nat)
         (l !!! 5%nat) (l !!! 6%nat) (drop 7 l).

Fixpoint words_bytes (l : list Z) : list Z :=
  match l with [] => [] | x :: p => le32_bytes x ++ words_bytes p end.

Fixpoint bytes_words (l : list Z) : list Z :=
  match l with
  | b0 :: b1 :: b2 :: b3 :: p => le32 b0 b1 b2 b3 :: bytes_words p
  | _ => []
  end.

Definition meta_encode (m : Metadata) : list Z := words_bytes (meta_words m).
Definition meta_decode (l : list Z) : Metadata := words_meta (bytes_words l).

(** Every field is a 32-bit word and [reserved] has its nine entries. *)
Definition meta_wf (m : Metadata) : Prop :=
  Forall is_u32 (meta_words m) /\ length (reserved m) = 9%nat.

Definition set_magic (x : Z) (m : Metadata) : Metadata :=
  mkMeta x (state m) (version_major m) (version_minor m) (version_patch m) (crc32 m)
         (fw_size m) (reserved m).

(** The [memset] and the assignments of the invalid-content branch. *)
Definition meta_default : Metadata :=
  mkMeta METADATA_MAGIC STATE_EMPTY 0 0 0 0 0 (replicate 9 0).

Section Operations.
Context {W : Type} `{!HalOps W}.

Definition Metadata_Read : M W Metadata :=
  p <- gets (fun w => mem_read (flash_mem w) METADATA_ADDR sizeof_Metadata) ;;
  let meta := meta_decode p in
  ret (if magic meta =? METADATA_MAGIC then meta else meta_default).

Definition meta_erase_try : M W bool :=
  modify HAL_FLASH_CLEAR_ERRORS ;;;
  st <- HAL_FLASHEx_Erase FLASH_BANK_1 1 ;;
  ret (hal_ok st).

(** The program attempts for the [i]-th flash word of the image. *)
Definition meta_program_try (aligned : list Z) (i : Z) : M W bool :=
  modify HAL_FLASH_CLEAR_ERRORS ;;;
  st <- HAL_FLASH_Program (METADATA_ADDR + i * 32) (take 32 (drop (Z.to_nat (i * 32)) aligned)) ;;
  ret (hal_ok st).

(** The body of the program loop: up to three attempts. *)
Definition meta_program_round (aligned : list Z) (i : Z) : M W (option Z) :=
  prog_ok <- retry 3 (meta_program_try aligned i) ;;
  if negb prog_ok then modify HAL_FLASH_Lock ;;; ret (Some (-1)) else ret None.

(** [Metadata_Write]: 0 = success, -1 = failure.  The busy-wait delays between
    attempts have no effect on the state. *)
Definition Metadata_Write (meta : Metadata) : M W Z :=
  let meta := set_magic METADATA_MAGIC meta in
  let aligned := meta_encode meta in
  modify HAL_FLASH_Unlock ;;;
  ok <- retry 10 meta_erase_try ;;
  if negb ok then modify HAL_FLASH_Lock ;;; ret (-1) else
  r <- for_each 2 0 1 (meta_program_round aligned) ;;
  match r with
  | Some e => ret e
  | None =>
      modify HAL_FLASH_Lock ;;;
      modify SCB_InvalidateDCache ;;;
      p <- gets (fun w => mem_read (flash_mem w) METADATA_ADDR sizeof_Metadata) ;;
      if negb (bool_decide (p = aligned)) then ret (-1) else ret 0
  end.

Definition Metadata_ReadVersion : M W string :=
  meta <- Metadata_Read ;;
  ret ("v" +:+ pretty (version_major meta) +:+ "." +:+ pretty (version_minor meta)
       +:+ "." +:+ pretty (version_patch meta))%string.
End Operations.

Definition Metadata_StateStr (st : Z) : string :=
  if st =? STATE_PENDING_UPDATE then "PENDING_UPDATE"
  else if st =? STATE_TESTING then "TESTING"
  else if st =? STATE_CONFIRMED then "CONFIRMED"
  else "EMPTY".

Definition Metadata_IsValid (meta : Metadata) : bool := magic meta =? METADATA_MAGIC.

(** ** The memory image round-trips *)
Section Image.
Lemma bytes_words_bytes l : Forall is_u32 l -> bytes_words (words_bytes l) = l.
Proof.
  induction 1 as [|x l Hx _ IH]; [done|].
  cbn [words_bytes le32_bytes app bytes_words]. by rewrite IH, le32_le32_bytes.
Qed.

Lemma words_bytes_length l : length (words_bytes l) = (4 * length l)%nat.
Proof. induction l as [|x l IH]; cbn; [done|]. rewrite IH. lia. Qed.

Lemma words_bytes_bytes l : bytes (words_bytes l).
Proof. induction l as [|x l IH]; [apply Forall_nil_2|]. apply Forall_app_2; [apply le32_bytes_bytes|done]. Qed.

Lemma bytes_words_wf l : bytes l -> Forall is_u32 (bytes_words l).
Proof.
  revert l. fix IH 1. intros [|b0 [|b1 [|b2 [|b3 l]]]] H; try apply Forall_nil_2.
  unfold bytes in H.
  repeat match goal with H : Forall is_byte (_ :: _) |- _ => apply Forall_cons in H as [? H] end.
  apply Forall_cons_2; [by apply le32_range|]. by apply IH.
Qed.

Lemma words_meta_words m : words_meta (meta_words m) = m.
Proof. by destruct m. Qed.

Lemma meta_words_meta l : (7 <= length l)%nat -> meta_words (words_meta l) = l.
Proof. destruct l as [|x0 [|x1 [|x2 [|x3 [|x4 [|x5 [|x6 l]]]]]]]; cbn; intros; try lia; done. Qed.

Lemma meta_decode_encode m : meta_wf m -> meta_decode (meta_encode m) = m.
Proof.
  intros [Hw _]. unfold meta_decode, meta_encode. by rewrite bytes_words_bytes, words_meta_words.
Qed.

Lemma meta_encode_length m : meta_wf m -> length (meta_encode m) = sizeof_Metadata.
Proof. intros [_ Hr]. unfold meta_encode. rewrite words_bytes_length. cbn. by rewrite Hr. Qed.

Lemma meta_encode_bytes m : bytes (meta_encode m).
Proof. apply words_bytes_bytes. Qed.

Lemma set_magic_wf m : meta_wf m -> meta_wf (set_magic METADATA_MAGIC m).
Proof.
  intros [Hw Hr]. split; [|done]. unfold meta_words in *. cbn [app] in *.
  apply Forall_cons in Hw as [_ Hw]. apply Forall_cons_2; [|done].
  change (is_u32 METADATA_MAGIC). unfold is_u32, METADATA_MAGIC. lia.
Qed.

Lemma meta_default_wf : meta_wf meta_default.
Proof. split; [apply (bool_decide_unpack _); vm_compute; exact I|done]. Qed.

Lemma meta_decode_wf l : bytes l -> length l = sizeof_Metadata -> meta_wf (meta_decode l).
Proof.
  intros Hb Hl. assert (Hlen : length (bytes_words l) = 16%nat).
  { do 64 (destruct l as [|? l]; [discriminate Hl|]). destruct l; [done|discriminate Hl]. }
  split; [|cbn; rewrite length_drop; lia].
  unfold meta_decode. rewrite meta_words_meta by lia. by apply bytes_words_wf.
Qed.
End Image.

(** What [Metadata_Read] returns is a function of the flash contents. *)
Definition metadata_of (m : mem) : Metadata :=
  let meta := meta_decode (mem_read m METADATA_ADDR sizeof_Metadata) in
  if magic meta =? METADATA_MAGIC then meta else meta_default.

Lemma metadata_of_ext m m' :
  (forall a, METADATA_ADDR <= a < METADATA_ADDR + 64 -> m' a = m a) -> metadata_of m' = metadata_of m.
Proof. intros H. unfold metadata_of. by rewrite (mem_read_ext m m'). Qed.

Lemma metadata_of_magic m : magic (metadata_of m) = METADATA_MAGIC.
Proof. unfold metadata_of. destruct (Z.eqb_spec (magic (meta_decode (mem_read m METADATA_ADDR sizeof_Metadata)))
  METADATA_MAGIC); done. Qed.

Lemma metadata_of_encode m meta : meta_wf meta -> magic meta = METADATA_MAGIC ->
  mem_read m METADATA_ADDR sizeof_Metadata = meta_encode meta -> metadata_of m = meta.
Proof.
  intros Hw Hm E. unfold metadata_of. rewrite E, meta_decode_encode, Hm by done.
  by rewrite Z.eqb_refl.
Qed.

Section Specs.
Context {W : Type} `{!HalOps W} `{!HalView W} `{!HalLaws W}.
Implicit Types (w : W) (meta : Metadata).

Lemma Metadata_Read_spec w : Metadata_Read w = (metadata_of (flash_mem w), w).
Proof. done. Qed.

Lemma wp_Metadata_Read (Q : Metadata -> W -> Prop) w :
  Q (metadata_of (flash_mem w)) w -> wp Metadata_Read Q w.
Proof. done. Qed.

Lemma metadata_of_wf w : meta_wf (metadata_of (flash_mem w)).
Proof.
  unfold metadata_of. case_match; [|apply meta_default_wf].
  apply meta_decode_wf; [|apply mem_read_length].
  apply Forall_lookup_2. intros i x Hx.
  assert (Hi : (i < sizeof_Metadata)%nat)
    by (apply lookup_lt_Some in Hx; by rewrite mem_read_length in Hx).
  rewrite mem_read_lookup in Hx by done. injection Hx as <-. apply flash_bytes.
Qed.

(** Outside sector 1 nothing changes. *)
Definition meta_frame w w' : Prop :=
  same_nor w w' /\ unchanged_off METADATA_ADDR FLASH_SECTOR_SIZE (flash_mem w) (flash_mem w').

#[local] Instance meta_frame_preorder : PreOrder meta_frame.
Proof.
  split; [by split|]. intros w1 w2 w3 [H1 H2] [H3 H4]. split; etrans; eassumption.
Qed.

Lemma quiet_meta_frame w w' : quiet w w' -> meta_frame w w'.
Proof. intros [Hf Hn]. split; [done|]. auto with memory. Qed.

Lemma meta_erase_spec w :
  wp meta_erase_try (fun ok w' => meta_frame w w' /\
    (ok = true -> erased (flash_mem w') METADATA_ADDR FLASH_SECTOR_SIZE)) w.
Proof.
  apply wp_bind, wp_modify. wp_call (law_flash_erase FLASH_BANK_1 1 _) as st w2 (Hn & Hu & He).
  apply wp_ret. change (sector_base FLASH_BANK_1 1) with METADATA_ADDR in *. split.
  - destruct (quiet_CLEAR_ERRORS w) as [Qf Qn]. split; [intros a; rewrite Hn; apply Qn|].
    intros a Ha. rewrite Hu by done. apply Qf.
  - destruct st; try discriminate. auto.
Qed.

Lemma aligned_chunk_length (l : list Z) i : length l = sizeof_Metadata -> 0 <= i < 2 ->
  Z.of_nat (length (take 32 (drop (Z.to_nat (i * 32)) l))) = FLASHWORD.
Proof. intros Hl Hi. unfold sizeof_Metadata in Hl. rewrite length_take, length_drop. unfold FLASHWORD. lia. Qed.

Lemma meta_program_spec aligned i w :
  length aligned = sizeof_Metadata -> bytes aligned -> 0 <= i < 2 ->
  wp (meta_program_try aligned i) (fun ok w' => meta_frame w w' /\
    unchanged_off (METADATA_ADDR + i * 32) 32 (flash_mem w) (flash_mem w') /\
    (ok = true -> erased (flash_mem w) (METADATA_ADDR + i * 32) 32 ->
     holds (flash_mem w') (METADATA_ADDR + i * 32) (take 32 (drop (Z.to_nat (i * 32)) aligned)))) w.
Proof.
  intros Hl Hb Hi. set (d := take 32 (drop (Z.to_nat (i * 32)) aligned)).
  assert (Ha : (METADATA_ADDR + i * 32) mod FLASHWORD = 0)
    by (unfold METADATA_ADDR, FLASHWORD; Z.to_euclidean_division_equations; lia).
  assert (Hd : bytes d) by (by apply Forall_take, Forall_drop).
  apply wp_bind, wp_modify. destruct (quiet_CLEAR_ERRORS w) as [Qf Qn].
  wp_call (law_flash_program _ d _ Ha (aligned_chunk_length aligned i Hl Hi) Hd)
    as st w2 (Hn & Hu & _ & Hok).
  assert (Hu' : unchanged_off (METADATA_ADDR + i * 32) 32 (flash_mem w) (flash_mem w2)).
  { intros a Hr. rewrite Hu by done. apply Qf. }
  apply wp_ret. split; [|split; [done|]].
  - split; [intros a; rewrite Hn; apply Qn|].
    eapply unchanged_off_weaken; [| |exact Hu']; unfold FLASH_SECTOR_SIZE; lia.
  - destruct st; try discriminate. intros _ He. apply Hok; [done|].
    intros a Hr. rewrite Qf. by apply He.
Qed.

Lemma meta_program_round_frame aligned i w :
  length aligned = sizeof_Metadata -> bytes aligned -> 0 <= i < 2 ->
  wp (meta_program_round aligned i) (fun r w' => meta_frame w w' /\ (r = None \/ r = Some (-1))) w.
Proof.
  intros Hl Hb Hi. apply wp_bind.
  eapply wp_mono; [apply (wp_retry _ _ (meta_frame w) (meta_frame w))|].
  - intros w1 H1. eapply wp_mono; [by apply meta_program_spec|].
    intros [] w2 [H2 _]; etrans; eassumption.
  - reflexivity.
  - intros ok w1 H1. assert (Hw1 : meta_frame w w1) by (by destruct ok).
    destruct ok; cbn [negb]; [apply wp_ret; auto|]. apply wp_bind, wp_modify, wp_ret.
    split; [|by right]. etrans; [exact Hw1|]. apply quiet_meta_frame, quiet_Lock.
Qed.

Lemma meta_erase_frame w :
  wp (retry 10 meta_erase_try) (fun _ w' => meta_frame w w') w.
Proof.
  eapply wp_mono; [apply (wp_retry _ _ (meta_frame w) (meta_frame w))|].
  - intros w1 H1. eapply wp_mono; [apply meta_erase_spec|].
    intros [] w2 [H2 _]; etrans; eassumption.
  - reflexivity.
  - by intros [].
Qed.

Lemma Metadata_Write_spec meta w :
  meta_wf meta ->
  wp (Metadata_Write meta) (fun r w' =>
    (r = 0 \/ r = -1) /\ meta_frame w w' /\
    (r = 0 -> metadata_of (flash_mem w') = set_magic METADATA_MAGIC meta)) w.
Proof.
  intros Hwf%set_magic_wf. unfold Metadata_Write.
  set (meta' := set_magic METADATA_MAGIC meta) in *.
  assert (Hbad : forall w', meta_frame w w' -> (-1 = 0 \/ -1 = -1) /\ meta_frame w w' /\
      (-1 = 0 -> metadata_of (flash_mem w') = meta')) by (intros w' H; auto with lia).
  apply wp_bind, wp_modify, wp_bind. eapply wp_mono; [apply meta_erase_frame|].
  intros ok w1 H1. assert (Hw1 : meta_frame w w1)
    by (etrans; [apply quiet_meta_frame, quiet_Unlock|exact H1]).
  destruct ok; cbn [negb].
  2: { apply wp_bind, wp_modify, wp_ret, Hbad. etrans; [exact Hw1|]. apply quiet_meta_frame, quiet_Lock. }
  apply wp_bind. eapply wp_mono;
    [apply (wp_for_each _ _ _ _ (fun _ => meta_frame w) (fun r w' => r = -1 /\ meta_frame w w'))|].
  - intros k w2 Hk Hw2. eapply wp_mono;
      [apply (meta_program_round_frame (meta_encode meta') (0 + Z.of_nat k * 1));
       auto using meta_encode_length, meta_encode_bytes with lia|].
    cbv beta. intros r w3 [Hf [->| ->]]; [|split; [done|]]; etrans; eassumption.
  - exact Hw1.
  - intros [e|] w2; cbv beta; [intros [-> Hw2]; by apply wp_ret, Hbad|]. intros Hw2.
    apply wp_bind, wp_modify, wp_bind, wp_modify, wp_bind, wp_gets.
    set (w3 := SCB_InvalidateDCache _).
    assert (Hw3 : meta_frame w w3).
    { etrans; [exact Hw2|]. apply quiet_meta_frame.
      etrans; [apply quiet_Lock|apply quiet_InvalidateDCache]. }
    case_bool_decide as E; cbn [negb]; apply wp_ret; [|by apply Hbad].
    split; [by left|]. split; [done|]. intros _. by apply metadata_of_encode.
Qed.

(** *** On a device whose calls succeed *)
Section Reliable.
Context (G : W -> Prop) (HG : reliable G).

Lemma meta_erase_ok w : G w ->
  wp (retry 10 meta_erase_try) (fun ok w' => ok = true /\
    (G w' /\ erased (flash_mem w') METADATA_ADDR FLASH_SECTOR_SIZE)) w.
Proof.
  intros Hw. apply wp_retry_first; [lia|].
  assert (Hok : wp meta_erase_try (fun ok w' => ok = true /\ G w') w).
  { apply wp_bind, wp_modify. wp_call (rel_flash_erase G HG _ _ _ (rel_CLEAR_ERRORS G HG _ Hw))
      as st w1 [-> H1]. by apply wp_ret. }
  eapply wp_mono; [apply (wp_and _ _ _ _ Hok (meta_erase_spec w))|].
  intros ok w' [[-> H1] [_ H2]]. auto.
Qed.

Lemma meta_program_ok aligned i w :
  length aligned = sizeof_Metadata -> bytes aligned -> 0 <= i < 2 -> G w ->
  erased (flash_mem w) (METADATA_ADDR + i * 32) 32 ->
  wp (meta_program_round aligned i) (fun r w' => r = None /\ G w' /\
    unchanged_off (METADATA_ADDR + i * 32) 32 (flash_mem w) (flash_mem w') /\
    holds (flash_mem w') (METADATA_ADDR + i * 32) (take 32 (drop (Z.to_nat (i * 32)) aligned))) w.
Proof.
  intros Hl Hb Hi Hw He. apply wp_bind.
  eapply wp_mono; [apply (wp_retry_first 3 _ (fun w' => G w' /\
    unchanged_off (METADATA_ADDR + i * 32) 32 (flash_mem w) (flash_mem w') /\
    holds (flash_mem w') (METADATA_ADDR + i * 32) (take 32 (drop (Z.to_nat (i * 32)) aligned))));
    [lia|]|intros ok w' [-> H]; by apply wp_ret].
  assert (Hok : wp (meta_program_try aligned i) (fun ok w' => ok = true /\ G w') w).
  { apply wp_bind, wp_modify. wp_call (rel_flash_program G HG _ _ _ (rel_CLEAR_ERRORS G HG _ Hw))
      as st w1 [-> H1]. by apply wp_ret. }
  eapply wp_mono; [apply (wp_and _ _ _ _ Hok (meta_program_spec aligned i w Hl Hb Hi))|].
  intros ok w' [[-> H1] (_ & Hu & Hh)]. auto.
Qed.

Lemma Metadata_Write_reliable meta w :
  meta_wf meta -> G w -> wp (Metadata_Write meta) (fun r w' => r = 0 /\ G w') w.
Proof.
  intros Hwf%set_magic_wf Hw. unfold Metadata_Write.
  set (al := meta_encode (set_magic METADATA_MAGIC meta)).
  assert (Hl : length al = sizeof_Metadata) by (by apply meta_encode_length).
  assert (Hb : bytes al) by apply meta_encode_bytes.
  apply wp_bind, wp_modify, wp_bind.
  eapply wp_mono; [apply meta_erase_ok, (rel_Unlock G HG), Hw|].
  intros ok w1 [-> [H1 He1]]. cbn [negb]. unfold FLASH_SECTOR_SIZE in He1. apply wp_bind.
  eapply wp_mono; [apply (wp_for_each 2 0 1 (meta_program_round al) (fun k w' => G w' /\
      mem_read (flash_mem w') METADATA_ADDR (32 * k) = take (32 * k) al /\
      erased (flash_mem w') (METADATA_ADDR + 32 * Z.of_nat k) (64 - 32 * Z.of_nat k))
      (fun _ _ => False))|].
  - intros k w2 Hk (HG2 & Hr & He).
    eapply wp_mono; [apply (meta_program_ok al (0 + Z.of_nat k * 1)); try done; [lia|]|].
    { intros a Ha. apply He. lia. }
    intros r w3 (-> & HG3 & Hu & Hh). split; [done|]. apply holds_read in Hh.
    rewrite length_take, length_drop in Hh. unfold sizeof_Metadata in Hl.
    replace (32 `min` (length al - Z.to_nat ((0 + Z.of_nat k * 1) * 32)))%nat with 32%nat in Hh by lia.
    split.
    + replace (32 * Datatypes.S k)%nat with (32 * k + 32)%nat by lia.
      rewrite mem_read_app, <- take_take_drop. f_equal.
      * rewrite <- Hr. apply mem_read_ext. intros x Hx. apply Hu. lia.
      * replace (Z.to_nat ((0 + Z.of_nat k * 1) * 32)) with (32 * k)%nat in Hh by lia.
        replace (METADATA_ADDR + (0 + Z.of_nat k * 1) * 32)
          with (METADATA_ADDR + Z.of_nat (32 * k)) in Hh by lia. exact Hh.
    + intros a Ha. rewrite Hu by lia. apply He. lia.
  - split; [done|]. split; [done|]. intros a Ha. apply He1. lia.
  - intros [e|] w2; [done|]. intros (HG2 & Hr & _).
    apply wp_bind, wp_modify, wp_bind, wp_modify, wp_bind, wp_gets.
    assert (E : mem_read (flash_mem (SCB_InvalidateDCache (HAL_FLASH_Lock w2))) METADATA_ADDR
                  sizeof_Metadata = al).
    { transitivity (mem_read (flash_mem w2) METADATA_ADDR (32 * 2)).
      - apply mem_read_ext. intros x _. rewrite (proj1 (quiet_InvalidateDCache _) x).
        apply (quiet_Lock w2).
      - rewrite Hr. apply take_ge. unfold sizeof_Metadata in Hl. lia. }
    rewrite E, bool_decide_true by done. cbn [negb]. apply wp_ret.
    split; [done|]. by apply (rel_InvalidateDCache G HG), (rel_Lock G HG).
Qed.
End Reliable.
End Specs.

(** C26. Metadata_Read after Metadata_Write always gives a well-formed record with the
    magic and nothing outside its sector has changed; it is the record written when the
    write reports success, which it does on a reliable device. *)
Theorem metadata_roundtrip {W} `{!HalOps W, !HalView W, !HalLaws W} meta (w : W) : meta_wf meta ->
  wp (r <- Metadata_Write meta ;; m <- Metadata_Read ;; ret (r, m))
    (fun x w' => let '(r, m) := x in
      meta_frame w w' /\ meta_wf m /\ magic m = METADATA_MAGIC /\ (r = 0 \/ r = -1) /\
      (r = 0 -> m = set_magic METADATA_MAGIC meta) /\ (forall G, reliable G -> G w -> r = 0)) w.
Proof.
  intros Hm.
  assert (HR : wp (Metadata_Write meta) (fun r _ => forall G, reliable G -> G w -> r = 0) w).
  { pose proof (fun G HG => Metadata_Write_reliable G HG meta w Hm) as HR. revert HR. unfold wp.
    destruct (Metadata_Write meta w) as [r w']. intros HR G HG Hw. by apply (HR G HG Hw). }
  wp_call (wp_and _ _ _ _ (Metadata_Write_spec meta w Hm) HR) as r w1 [(Hr & Hf & Hw) HG].
  apply wp_bind, wp_Metadata_Read, wp_ret. split; [exact Hf|]. split; [apply metadata_of_wf|].
  split; [apply metadata_of_magic|]. by split.
Qed.

(** A confirmed record, without its magic, on a simulated device. *)
Definition demo_record : Metadata := mkMeta 0 STATE_CONFIRMED 1 2 3 0xCBF43926 9 (repeat 0 9).
Definition demo_dev : dev := mkDev (fun _ => 0) (fun _ => 0) false None [].

Lemma metadata_roundtrip_witness :
  wp (r <- Metadata_Write demo_record ;; m <- Metadata_Read ;; ret (r, m))
    (fun x _ => x = (0, set_magic METADATA_MAGIC demo_record)) demo_dev.
Proof.
  eapply wp_mono; [apply (metadata_roundtrip demo_record demo_dev)|].
  - split; [|done]. repeat constructor; by vm_compute.
  - intros [r m] w' (_ & _ & _ & _ & H1 & H2). rewrite (H2 fault_free sim_reliable eq_refl) in *. by rewrite H1.
Defined.
