(* ===== verification/MetaLayout.v ===== *)
(** * The extended metadata fields

    [ota.c] and [menu.c] use version fields ([cur_*], [bak_*], [ota_*],
    [bak_crc32], [bak_fw_size]) that the [Metadata] of metadata.h does not
    declare; the declaration they were written against is not in the repository.
    [MetaLayout] is the interface those files rely on: each extended field is its
    own word of the 64-byte record, apart from [magic], [state], [crc32] and
    [fw_size].  Every statement about them holds for any such layout;
    [packed_layout] is one. *)
From S2P Require Import Prelude Metadata.

Inductive ext_field :=
| cur_major | cur_minor | cur_patch
| bak_major | bak_minor | bak_patch | bak_crc32 | bak_fw_size
| ota_major | ota_minor | ota_patch.

#[export] Instance ext_field_eq_dec : EqDecision ext_field.
Proof. solve_decision. Defined.

Class MetaLayout := {
  fld : ext_field -> nat;
  fld_inj : forall f g, fld f = fld g -> f = g;
  fld_range : forall f, (2 <= fld f < 16)%nat /\ fld f <> 5%nat /\ fld f <> 6%nat
}.

Definition packed_fld (f : ext_field) : nat :=
  match f with
  | cur_major => 2 | cur_minor => 3 | cur_patch => 4
  | bak_major => 7 | bak_minor => 8 | bak_patch => 9 | bak_crc32 => 10 | bak_fw_size => 11
  | ota_major => 12 | ota_minor => 13 | ota_patch => 14
  end.

#[export, program] Instance packed_layout : MetaLayout := { fld := packed_fld }.
Next Obligation. by intros [] []. Qed.
Next Obligation. intros []; cbn; lia. Qed.

Section Fields.
Context {layout : MetaLayout}.
Implicit Types (m : Metadata) (f g : ext_field).

Definition get_fld f m : Z := meta_words m !!! fld f.
Definition set_fld f (v : Z) m : Metadata := words_meta (<[fld f := v]> (meta_words m)).
Definition set_state (v : Z) m : Metadata :=
  mkMeta (magic m) v (version_major m) (version_minor m) (version_patch m) (crc32 m)
         (fw_size m) (reserved m).
Definition set_crc (crc size : Z) m : Metadata :=
  mkMeta (magic m) (state m) (version_major m) (version_minor m) (version_patch m) crc size
         (reserved m).

(** The record has the sixteen words of the structure. *)
Definition meta_len m : Prop := length (meta_words m) = 16%nat.

Lemma meta_words_length m : meta_wf m -> meta_len m.
Proof. intros [_ Hr]. unfold meta_len. cbn. by rewrite Hr. Qed.

Lemma words_meta_wf l : length l = 16%nat -> Forall is_u32 l -> meta_wf (words_meta l).
Proof. intros Hl Hu. split; [by rewrite meta_words_meta by lia|]. cbn. rewrite length_drop. lia. Qed.

Lemma meta_words_set_fld f v m : meta_len m ->
  meta_words (set_fld f v m) = <[fld f := v]> (meta_words m).
Proof. unfold meta_len. intros Hm. apply meta_words_meta. rewrite length_insert. lia. Qed.

Lemma meta_len_set_fld f v m : meta_len m -> meta_len (set_fld f v m).
Proof. intros H. unfold meta_len. rewrite meta_words_set_fld by done. by rewrite length_insert. Qed.

Lemma meta_len_set_magic v m : meta_len m -> meta_len (set_magic v m).
Proof. done. Qed.

Lemma set_fld_wf f v m : meta_wf m -> is_u32 v -> meta_wf (set_fld f v m).
Proof.
  intros H Hv. apply words_meta_wf; [rewrite length_insert; by apply meta_words_length|].
  apply Forall_insert; [apply H|done].
Qed.

Lemma get_fld_u32 f m : meta_wf m -> is_u32 (get_fld f m).
Proof.
  intros H. unfold get_fld. apply (Forall_lookup_total_1 _ _ _ (proj1 H)).
  rewrite meta_words_length by done. apply fld_range.
Qed.

Lemma get_set_fld_eq f v m : meta_len m -> get_fld f (set_fld f v m) = v.
Proof.
  intros H. unfold get_fld. rewrite meta_words_set_fld by done.
  apply list_lookup_total_insert_eq. rewrite H. apply fld_range.
Qed.

Lemma get_set_fld_ne f g v m : meta_len m -> f <> g -> get_fld f (set_fld g v m) = get_fld f m.
Proof.
  intros H Hne. unfold get_fld. rewrite meta_words_set_fld by done.
  apply list_lookup_total_insert_ne. intros E. by apply Hne, fld_inj.
Qed.

(** The fields that are not extended fields, by the index of their word. *)
Lemma word_set_fld f v m i :
  meta_len m -> (i = 0 \/ i = 1 \/ i = 5 \/ i = 6)%nat ->
  meta_words (set_fld f v m) !!! i = meta_words m !!! i.
Proof.
  intros H Hi. rewrite meta_words_set_fld by done. apply list_lookup_total_insert_ne.
  pose proof (fld_range f). lia.
Qed.

Lemma magic_set_fld f v m : meta_len m -> magic (set_fld f v m) = magic m.
Proof. intros H. exact (word_set_fld f v m 0 H ltac:(lia)). Qed.
Lemma state_set_fld f v m : meta_len m -> state (set_fld f v m) = state m.
Proof. intros H. exact (word_set_fld f v m 1 H ltac:(lia)). Qed.
Lemma crc32_set_fld f v m : meta_len m -> crc32 (set_fld f v m) = crc32 m.
Proof. intros H. exact (word_set_fld f v m 5 H ltac:(lia)). Qed.
Lemma fw_size_set_fld f v m : meta_len m -> fw_size (set_fld f v m) = fw_size m.
Proof. intros H. exact (word_set_fld f v m 6 H ltac:(lia)). Qed.

Lemma meta_words_set_state v m : meta_words (set_state v m) = <[1%nat := v]> (meta_words m).
Proof. done. Qed.
Lemma meta_words_set_crc c n m :
  meta_words (set_crc c n m) = <[5%nat := c]> (<[6%nat := n]> (meta_words m)).
Proof. done. Qed.

Lemma set_state_wf v m : meta_wf m -> is_u32 v -> meta_wf (set_state v m).
Proof. intros [H1 H2] Hv. split; [|done]. rewrite meta_words_set_state. by apply Forall_insert. Qed.
Lemma set_crc_wf c n m : meta_wf m -> is_u32 c -> is_u32 n -> meta_wf (set_crc c n m).
Proof.
  intros [H1 H2] Hc Hn. split; [|done]. rewrite meta_words_set_crc. by repeat apply Forall_insert.
Qed.

Lemma get_fld_set_state f v m : get_fld f (set_state v m) = get_fld f m.
Proof.
  unfold get_fld. rewrite meta_words_set_state. apply list_lookup_total_insert_ne.
  pose proof (fld_range f). lia.
Qed.
Lemma get_fld_set_crc f c n m : get_fld f (set_crc c n m) = get_fld f m.
Proof.
  unfold get_fld. rewrite meta_words_set_crc. pose proof (fld_range f).
  rewrite !list_lookup_total_insert_ne by lia. done.
Qed.
Lemma get_fld_set_magic f v m : get_fld f (set_magic v m) = get_fld f m.
Proof.
  unfold get_fld. change (meta_words (set_magic v m)) with (<[0%nat := v]> (meta_words m)).
  apply list_lookup_total_insert_ne. pose proof (fld_range f). lia.
Qed.
End Fields.

(** Evaluate field reads over a chain of field writes on a record of known size. *)
Ltac meta_len_tac := repeat first [apply meta_len_set_fld | apply meta_len_set_magic]; done.
Ltac fld_simpl :=
  repeat first
    [ rewrite get_fld_set_magic | rewrite get_fld_set_state | rewrite get_fld_set_crc
    | rewrite get_set_fld_eq by meta_len_tac
    | rewrite get_set_fld_ne by (discriminate || meta_len_tac)
    | rewrite crc32_set_fld by meta_len_tac
    | rewrite fw_size_set_fld by meta_len_tac ].
