(* ===== verification/Net.v ===== *)
(** * The lwIP raw API as the application uses it

    [TcpApi] is the interface between the application files (ota/ota.c,
    version_check/version_check.c) and the stack: one operation per raw-API call,
    on an abstract stack state.  A [pcb] is a handle; a call that can return NULL
    returns an option.  [tcp_abort] says which error callback it runs before it
    returns, so that the client can model the re-entrant call.  The theorems about
    the clients hold for every implementation of the class. *)
From S2P Require Import Prelude.

(** [err_t] (lwip/err.h) *)
Definition ERR_OK : Z := 0.
Definition ERR_MEM : Z := -1.
Definition ERR_BUF : Z := -2.
Definition ERR_RTE : Z := -4.
Definition ERR_INPROGRESS : Z := -5.
Definition ERR_VAL : Z := -6.
Definition ERR_USE : Z := -8.
Definition ERR_ISCONN : Z := -10.
Definition ERR_CONN : Z := -11.
Definition ERR_IF : Z := -12.
Definition ERR_ABRT : Z := -13.
Definition ERR_RST : Z := -14.
Definition ERR_CLSD : Z := -15.
Definition ERR_ARG : Z := -16.

(** lwipopts.h, lwip/arch.h: [(size + MEM_ALIGNMENT - 1) & ~(MEM_ALIGNMENT - 1)] *)
Definition MEM_ALIGNMENT : Z := 4.
Definition LWIP_MEM_ALIGN_SIZE (n : Z) : Z := (n + MEM_ALIGNMENT - 1) / MEM_ALIGNMENT * MEM_ALIGNMENT.

(** A protocol control block, by address. *)
Definition pcb := Z.

(** A packet buffer allocated by the application, by address. *)
Definition pbuf := Z.

(** The functions of the application that are registered with the stack. *)
Inductive callback := OTA_ACCEPT_CB | OTA_RECV_CB | OTA_ERR_CB
                    | V_CONNECT_CB | V_RECV_CB | V_ERR_CB.

#[export] Instance callback_eq_dec : EqDecision callback.
Proof. solve_decision. Defined.

Class TcpApi (N : Type) := {
  tcp_new : M N (option pcb);
  tcp_set_reuseaddr : pcb -> M N unit;
  tcp_bind : pcb -> Z -> M N Z;
  tcp_listen : pcb -> M N (option pcb);
  tcp_accept : option pcb -> callback -> M N unit;
  tcp_recv : pcb -> callback -> M N unit;
  tcp_err : pcb -> callback -> M N unit;
  tcp_recved : pcb -> Z -> M N unit;
  tcp_connect : pcb -> Z -> callback -> M N Z;
  tcp_write : pcb -> list Z -> M N Z;
  tcp_output : pcb -> M N Z;
  tcp_close : pcb -> M N Z;
  tcp_abort : pcb -> M N (option callback);
  pbuf_free_chain : list (list Z) -> M N unit;
  pbuf_alloc_ram : Z -> M N (option pbuf);
  pbuf_write : pbuf -> list Z -> M N unit;
  pbuf_free : pbuf -> M N unit;
  udp_new : M N (option pcb);
  udp_sendto : pcb -> pbuf -> Z -> Z -> M N Z;
  udp_remove : pcb -> M N unit
}.

(** [IP4_ADDR(&ip, a, b, c, d)], as the little-endian word of its memory image. *)
Definition IP4_ADDR (a b c d : Z) : Z := le32 a b c d.

(** The static address of the board (main.h) and the PC at [.1]. *)
Definition IP_ADDR0 : Z := 192.
Definition IP_ADDR1 : Z := 168.
Definition IP_ADDR2 : Z := 1.
Definition IP_ADDR3 : Z := 2.
Definition gateway_ip : Z := IP4_ADDR IP_ADDR0 IP_ADDR1 IP_ADDR2 1.

(** A received [pbuf] chain is the list of its payloads. *)
Definition tot_len (p : list (list Z)) : Z := Z.of_nat (length (concat p)).
