(* ===== verification/SimNet.v ===== *)
(** * A simulated stack

    An instance of [TcpApi]: handles come from a counter, each fallible call
    consumes one entry of a fault script (an exhausted script means success), the
    error callback of a pcb is remembered for [tcp_abort], and everything sent is
    logged.  The witnesses of the network theorems run on it. *)
From S2P Require Import Prelude Net.

Record snet := mkNet {
  n_next : Z;
  n_faults : list bool;
  n_errf : list (pcb * callback);
  n_sent : list (Z * list Z);
  n_bufs : list (pbuf * list Z)
}.

Definition sim_fault : M snet bool := fun n =>
  (match n_faults n with b :: _ => b | [] => false end,
   mkNet (n_next n) (tail (n_faults n)) (n_errf n) (n_sent n) (n_bufs n)).

Definition sim_alloc : M snet (option Z) :=
  bad <- sim_fault ;;
  if bad : bool then ret None
  else fun n => (Some (n_next n),
                 mkNet (n_next n + 1) (n_faults n) (n_errf n) (n_sent n) (n_bufs n)).

Definition sim_err (e : Z) : M snet Z := bad <- sim_fault ;; ret (if bad : bool then e else ERR_OK).

Definition sim_lookup {A} (p : Z) (l : list (Z * A)) : option A :=
  snd <$> find (fun x => x.1 =? p) l.

#[export] Instance sim_tcp : TcpApi snet := {
  tcp_new := sim_alloc;
  tcp_set_reuseaddr p := ret tt;
  tcp_bind p port := sim_err ERR_USE;
  tcp_listen p := sim_alloc;
  tcp_accept p cb := ret tt;
  tcp_recv p cb := ret tt;
  tcp_err p cb := modify (fun n =>
    mkNet (n_next n) (n_faults n) ((p, cb) :: n_errf n) (n_sent n) (n_bufs n));
  tcp_recved p len := ret tt;
  tcp_connect p port cb := sim_err ERR_MEM;
  tcp_write p data := modify (fun n =>
    mkNet (n_next n) (n_faults n) (n_errf n) (n_sent n ++ [(p, data)]) (n_bufs n)) ;;; ret ERR_OK;
  tcp_output p := sim_err ERR_MEM;
  tcp_close p := sim_err ERR_MEM;
  tcp_abort p := gets (fun n => sim_lookup p (n_errf n));
  pbuf_free_chain c := ret tt;
  pbuf_alloc_ram len := sim_alloc;
  pbuf_write b data := modify (fun n =>
    mkNet (n_next n) (n_faults n) (n_errf n) (n_sent n) ((b, data) :: n_bufs n));
  pbuf_free b := ret tt;
  udp_new := sim_alloc;
  udp_sendto p b ip port := modify (fun n =>
    mkNet (n_next n) (n_faults n) (n_errf n)
      (n_sent n ++ [(port, default [] (sim_lookup b (n_bufs n)))]) (n_bufs n)) ;;; ret ERR_OK;
  udp_remove p := ret tt
}.

Definition net0 : snet := mkNet 1 [] [] [] [].

(** A stack whose close never fails: every call succeeds. *)
Definition closing_tcp : TcpApi unit := {|
  tcp_new := ret (Some 1); tcp_set_reuseaddr p := ret tt; tcp_bind p port := ret ERR_OK;
  tcp_listen p := ret (Some 1); tcp_accept p cb := ret tt; tcp_recv p cb := ret tt;
  tcp_err p cb := ret tt; tcp_recved p len := ret tt; tcp_connect p port cb := ret ERR_OK;
  tcp_write p data := ret ERR_OK; tcp_output p := ret ERR_OK; tcp_close p := ret ERR_OK;
  tcp_abort p := ret (Some OTA_ERR_CB); pbuf_free_chain c := ret tt;
  pbuf_alloc_ram len := ret None; pbuf_write b data := ret tt; pbuf_free b := ret tt;
  udp_new := ret None; udp_sendto p b ip port := ret ERR_OK; udp_remove p := ret tt
|}.
