(* ===== verification/Ota.v ===== *)
(** * OTA receive core (ota/ota.c)

    The TCP callbacks, the state machine of [OTA_Poll] and the flash-write flow.
    State: the file's statics ([ota_t]), the network stack and the device. *)
From S2P Require Import Prelude Crc32 Hal QspiFlash Metadata MetaLayout Net.

Definition OTA_PORT : Z := 8000.
Definition OTA_MAGIC : Z := 0x0041544F.
Definition OTA_STAGING_ADDR : Z := 0.
Definition OTA_BUF_SIZE : Z := 512 * 1024.
Definition APP_ADDR : Z := 0x08100000.
Definition APP_SIZE : Z := 0x00100000.
Definition BACKUP_OFFSET : Z := 0x200000.

Inductive ota_state_t :=
| OTA_STATE_IDLE | OTA_STATE_RECEIVING | OTA_STATE_VERIFY
| OTA_STATE_CONFIRM | OTA_STATE_DONE | OTA_STATE_ERROR.

#[export] Instance ota_state_eq_dec : EqDecision ota_state_t.
Proof. solve_decision. Defined.

(** The statics of ota.c; [ota_stage] and [ota_buf] are arrays, indexed from 0. *)
Record ota_t := mkOta {
  ota_server_pcb : option pcb;
  ota_client_pcb : option pcb;
  ota_state : ota_state_t;
  ota_header_parsed : bool;
  ota_expected : Z;
  ota_received : Z;
  ota_crc_expected : Z;
  ota_stage : mem;
  ota_buf : mem
}.

Definition set_server (p : option pcb) (o : ota_t) : ota_t :=
  mkOta p (ota_client_pcb o) (ota_state o) (ota_header_parsed o) (ota_expected o)
        (ota_received o) (ota_crc_expected o) (ota_stage o) (ota_buf o).
Definition set_client (p : option pcb) (o : ota_t) : ota_t :=
  mkOta (ota_server_pcb o) p (ota_state o) (ota_header_parsed o) (ota_expected o)
        (ota_received o) (ota_crc_expected o) (ota_stage o) (ota_buf o).
Definition set_ota_state (s : ota_state_t) (o : ota_t) : ota_t :=
  mkOta (ota_server_pcb o) (ota_client_pcb o) s (ota_header_parsed o) (ota_expected o)
        (ota_received o) (ota_crc_expected o) (ota_stage o) (ota_buf o).
Definition set_progress (parsed : bool) (expected received : Z) (o : ota_t) : ota_t :=
  mkOta (ota_server_pcb o) (ota_client_pcb o) (ota_state o) parsed expected received
        (ota_crc_expected o) (ota_stage o) (ota_buf o).
Definition set_stage (m : mem) (o : ota_t) : ota_t :=
  mkOta (ota_server_pcb o) (ota_client_pcb o) (ota_state o) (ota_header_parsed o)
        (ota_expected o) (ota_received o) (ota_crc_expected o) m (ota_buf o).
Definition set_buf (m : mem) (o : ota_t) : ota_t :=
  mkOta (ota_server_pcb o) (ota_client_pcb o) (ota_state o) (ota_header_parsed o)
        (ota_expected o) (ota_received o) (ota_crc_expected o) (ota_stage o) m.
Definition set_crc_expected (c : Z) (o : ota_t) : ota_t :=
  mkOta (ota_server_pcb o) (ota_client_pcb o) (ota_state o) (ota_header_parsed o)
        (ota_expected o) (ota_received o) c (ota_stage o) (ota_buf o).

(** ** Parsing the byte stream: the loops of [ota_recv_cb] *)

Definition stage_word (o : ota_t) (i : Z) : Z :=
  le32 (ota_stage o i) (ota_stage o (i + 1)) (ota_stage o (i + 2)) (ota_stage o (i + 3)).

(** One round of [while (len > 0)]; the rest of the pbuf is the loop variable and
    leaving the callback early is [inr]. *)
Definition ota_parse_round (data : list Z) : M ota_t (list Z + unit) := fun o =>
  let len := Z.of_nat (length data) in
  if negb (ota_header_parsed o) then
    let need := 8 - ota_received o in
    let take_ := if len <? u32 need then len else need in
    let o := set_stage (mem_write (ota_stage o) (ota_received o) (take (Z.to_nat take_) data)) o in
    let o := set_progress false (ota_expected o) (ota_received o +% take_) o in
    let data := drop (Z.to_nat take_) data in
    if ota_received o =? 8 then
      if negb (stage_word o 0 =? OTA_MAGIC)
      then (inr tt, set_ota_state OTA_STATE_ERROR o)
      else (inl data, set_progress true (stage_word o 4) 0 o)
    else (inl data, o)
  else
    let o := set_buf (mem_write (ota_buf o) (ota_received o) data) o in
    (inl [], set_progress true (ota_expected o) (ota_received o +% len) o).

(** One pbuf of the chain: the overflow check, then the loop.  [true] = go on with
    the next pbuf.  Each round consumes a byte or parses the header, hence the fuel. *)
Definition ota_recv_pbuf (payload : list Z) : M ota_t bool :=
  o <- gets id ;;
  if OTA_BUF_SIZE <? (ota_received o +% Z.of_nat (length payload))
  then modify (set_ota_state OTA_STATE_ERROR) ;;; ret false
  else x <- while (2 * length payload + 3) (fun d => 0 <? Z.of_nat (length d))
                  ota_parse_round payload ;;
       ret (match x with inl _ => true | inr _ => false end).

Fixpoint ota_recv_chain (p : list (list Z)) : M ota_t unit :=
  match p with
  | [] => ret tt
  | q :: p' => go <- ota_recv_pbuf q ;; if go : bool then ota_recv_chain p' else ret tt
  end.

(** ** The server, its callbacks and the state machine *)
Record ota_sys (N W : Type) := mkSys { ota : ota_t; net : N; hw : W }.
Arguments mkSys {N W}. Arguments ota {N W}. Arguments net {N W}. Arguments hw {N W}.

Section Server.
Context {N W : Type} `{!TcpApi N} `{!HalOps W}.
#[local] Abbreviation sys := (ota_sys N W).

Definition on_ota {A} (m : M ota_t A) : M sys A := fun s =>
  let '(a, o) := m (ota s) in (a, mkSys o (net s) (hw s)).
Definition on_net {A} (m : M N A) : M sys A := fun s =>
  let '(a, n) := m (net s) in (a, mkSys (ota s) n (hw s)).
Definition on_hw {A} (m : M W A) : M sys A := fun s =>
  let '(a, w) := m (hw s) in (a, mkSys (ota s) (net s) w).
Definition set_ (f : ota_t -> ota_t) : M sys unit := on_ota (modify f).
Definition get_ {A} (f : ota_t -> A) : M sys A := on_ota (gets f).

Definition ota_err_cb : M sys unit :=
  set_ (set_client None) ;;;
  st <- get_ ota_state ;;
  if bool_decide (st = OTA_STATE_RECEIVING) then set_ (set_ota_state OTA_STATE_ERROR) else ret tt.

(** [tcp_abort] with the error callback it runs. *)
Definition ota_tcp_abort (p : pcb) : M sys unit :=
  cb <- on_net (tcp_abort p) ;;
  if bool_decide (cb = Some OTA_ERR_CB) then ota_err_cb else ret tt.

Definition OTA_Server_Stop : M sys unit :=
  c <- get_ ota_client_pcb ;;
  match c with
  | Some p => ota_tcp_abort p ;;; set_ (set_client None)
  | None => ret tt
  end ;;;
  l <- get_ ota_server_pcb ;;
  match l with
  | Some p =>
      e <- on_net (tcp_close p) ;;
      (if negb (e =? ERR_OK) then ota_tcp_abort p else ret tt) ;;;
      set_ (set_server None)
  | None => ret tt
  end ;;;
  set_ (set_ota_state OTA_STATE_IDLE).

Definition OTA_Server_Start : M sys Z :=
  OTA_Server_Stop ;;;
  set_ (fun o => set_progress false 0 0 (set_ota_state OTA_STATE_RECEIVING o)) ;;;
  p <- on_net tcp_new ;;
  set_ (set_server p) ;;;
  match p with
  | None => set_ (set_ota_state OTA_STATE_ERROR) ;;; ret (-1)
  | Some p =>
      on_net (tcp_set_reuseaddr p) ;;;
      err <- on_net (tcp_bind p OTA_PORT) ;;
      if negb (err =? ERR_OK) then OTA_Server_Stop ;;; ret (-1) else
      l <- on_net (tcp_listen p) ;;
      set_ (set_server l) ;;;
      on_net (tcp_accept l OTA_ACCEPT_CB) ;;;
      ret 0
  end.

Definition OTA_Abort : M sys unit := OTA_Server_Stop.

Definition OTA_ResetState : M sys unit := set_ (set_ota_state OTA_STATE_IDLE).

Definition ota_accept_cb (newpcb : pcb) : M sys Z :=
  c <- get_ ota_client_pcb ;;
  match c with
  | Some _ => ota_tcp_abort newpcb ;;; ret ERR_ABRT
  | None =>
      set_ (set_client (Some newpcb)) ;;;
      on_net (tcp_recv newpcb OTA_RECV_CB) ;;;
      on_net (tcp_err newpcb OTA_ERR_CB) ;;;
      ret ERR_OK
  end.

(** [p] is NULL ([None]) when the peer closed the connection. *)
Definition ota_recv_cb (pc : pcb) (p : option (list (list Z))) : M sys Z :=
  match p with
  | None =>
      set_ (set_client None) ;;;
      e <- on_net (tcp_close pc) ;;
      (if negb (e =? ERR_OK) then ota_tcp_abort pc else ret tt) ;;;
      o <- get_ id ;;
      (if bool_decide (ota_state o = OTA_STATE_RECEIVING) then
         if negb (ota_expected o =? 0) && (ota_expected o <=? ota_received o)
         then set_ (set_ota_state OTA_STATE_VERIFY)
         else set_ (set_ota_state OTA_STATE_ERROR)
       else ret tt) ;;;
      ret ERR_OK
  | Some qs =>
      on_ota (ota_recv_chain qs) ;;;
      on_net (tcp_recved pc (u16 (tot_len qs))) ;;;
      on_net (pbuf_free_chain qs) ;;;
      ret ERR_OK
  end.

Definition OTA_GetState : M sys ota_state_t := get_ ota_state.
Definition OTA_GetReceived : M sys Z := get_ ota_received.
Definition OTA_GetExpected : M sys Z := get_ ota_expected.
Definition OTA_IsReceiving : M sys bool :=
  get_ (fun o => bool_decide (ota_state o = OTA_STATE_RECEIVING)).
Definition OTA_IsConfirm : M sys bool :=
  get_ (fun o => bool_decide (ota_state o = OTA_STATE_CONFIRM)).
Definition OTA_GetClientPcb : M sys (option pcb) := get_ ota_client_pcb.
Definition OTA_SetExpectedCRC (crc : Z) : M sys unit := set_ (set_crc_expected crc).

(** The UDP datagram "OTA_TRIGGER" to port 8002 of the gateway. *)
Definition OTA_TRIGGER_PORT : Z := 8002.
Definition OTA_TRIGGER_MAGIC : list Z := [79; 84; 65; 95; 84; 82; 73; 71; 71; 69; 82].
Definition OTA_SendTrigger : M sys unit :=
  on_net (
    pc <- udp_new ;;
    match pc with
    | None => ret tt
    | Some pc =>
        p <- pbuf_alloc_ram (u16 (Z.of_nat (length OTA_TRIGGER_MAGIC))) ;;
        match p with
        | None => udp_remove pc
        | Some p =>
            pbuf_write p OTA_TRIGGER_MAGIC ;;;
            udp_sendto pc p gateway_ip OTA_TRIGGER_PORT ;;;
            pbuf_free p ;;;
            udp_remove pc
        end
    end).

(** One round of the read-back loop; the loop variables are [(crc_rb, off)]. *)
Definition readback_round (received : Z) (v : Z * Z) : M W (Z * Z + unit) :=
  let '(crc_rb, off) := v in
  let chunk := if received -% off <? 64 then received -% off else 64 in
  rd <- BSP_QSPI_Read (OTA_STAGING_ADDR + off) chunk ;;
  if negb (rd.1 =? QSPI_OK) then ret (inr tt)
  else ret (inl (crc_rb_chunk (take (Z.to_nat chunk) rd.2) crc_rb, off +% chunk)).

Definition readback_crc (received : Z) : M W (option Z) :=
  x <- while (Z.to_nat (received / 64 + 2)) (fun v => v.2 <? received)
             (readback_round received) (0xFFFFFFFF, 0) ;;
  ret (match x with inl v => Some (Z.lxor v.1 0xFFFFFFFF) | inr _ => None end).

(** Erase the staging area, write the image with one retry, read it back; [true]
    when the read-back CRC is the expected one. *)
Definition stage_image (image : list Z) (received crc_expected : Z) : M W bool :=
  QSPI_Erase_Blocks 0 (2 * 1024 * 1024) ;;;
  r <- BSP_QSPI_Init ;;
  if negb (r =? QSPI_OK) then ret false else
  r <- BSP_QSPI_Write image OTA_STAGING_ADDR received ;;
  ok <- (if r =? QSPI_OK then ret true
         else BSP_QSPI_Init ;;;
              r2 <- BSP_QSPI_Write image OTA_STAGING_ADDR received ;;
              ret (r2 =? QSPI_OK)) ;;
  if negb ok then ret false else
  crc_rb <- readback_crc received ;;
  ret (match crc_rb with Some c => c =? crc_expected | None => false end).

Definition OTA_Poll : M sys unit :=
  o <- get_ id ;;
  if negb (bool_decide (ota_state o = OTA_STATE_VERIFY)) then ret tt else
  let image := mem_read (ota_buf o) 0 (Z.to_nat (ota_received o)) in
  let crc := CRC32_Calculate image in
  if negb (crc =? ota_crc_expected o) then set_ (set_ota_state OTA_STATE_ERROR) else
  ok <- on_hw (stage_image image (ota_received o) (ota_crc_expected o)) ;;
  set_ (set_ota_state (if ok : bool then OTA_STATE_CONFIRM else OTA_STATE_ERROR)).
End Server.

(** ** Rules for calls on one component of the system *)
Section SysRules.
Context {N W : Type}.
Implicit Types (s : ota_sys N W).

Lemma wp_on_ota {A} (m : M ota_t A) (Q : A -> ota_sys N W -> Prop) s :
  wp m (fun a o => Q a (mkSys o (net s) (hw s))) (ota s) -> wp (on_ota m) Q s.
Proof. cbv [wp on_ota]. by destruct (m (ota s)). Qed.

Lemma wp_on_net {A} (m : M N A) (Q : A -> ota_sys N W -> Prop) s :
  wp m (fun a n => Q a (mkSys (ota s) n (hw s))) (net s) -> wp (on_net m) Q s.
Proof. cbv [wp on_net]. by destruct (m (net s)). Qed.

(** Nothing is assumed about the stack. *)
Lemma wp_on_net_any {A} (m : M N A) (Q : A -> ota_sys N W -> Prop) s :
  (forall a n, Q a (mkSys (ota s) n (hw s))) -> wp (on_net m) Q s.
Proof. intros H. apply wp_on_net. unfold wp. by destruct (m (net s)). Qed.

Lemma wp_on_hw {A} (m : M W A) (Q : A -> ota_sys N W -> Prop) s :
  wp m (fun a w => Q a (mkSys (ota s) (net s) w)) (hw s) -> wp (on_hw m) Q s.
Proof. cbv [wp on_hw]. by destruct (m (hw s)). Qed.

Lemma wp_set_ f (Q : unit -> ota_sys N W -> Prop) s :
  Q tt (mkSys (f (ota s)) (net s) (hw s)) -> wp (set_ f) Q s.
Proof. done. Qed.

Lemma wp_get_ {A} (f : ota_t -> A) (Q : A -> ota_sys N W -> Prop) s :
  Q (f (ota s)) s -> wp (get_ f) Q s.
Proof. by destruct s. Qed.
End SysRules.

(** Symbolic execution of a callback: one call per step, the stack arbitrary. *)
Ltac sys_step :=
  lazymatch goal with
  | |- wp (bind _ _) _ _ => apply wp_bind
  | |- wp (ret _) _ _ => apply wp_ret
  | |- wp (set_ _) _ _ => apply wp_set_
  | |- wp (get_ _) _ _ => apply wp_get_
  | |- wp (on_net _) _ _ => apply wp_on_net_any; intros ? ?
  | |- wp (ota_tcp_abort _) _ _ => unfold ota_tcp_abort
  | |- wp (OTA_Server_Stop) _ _ => unfold OTA_Server_Stop
  | |- wp ota_err_cb _ _ => unfold ota_err_cb
  | |- wp (match ?x with _ => _ end) _ _ => destruct x eqn:?
  end; cbn [ota net hw].
Ltac sys_steps := repeat sys_step.
