(* ===== verification/OtaRecv.v ===== *)
(** * The OTA receive path: memory safety and segmentation independence

    Theorems about the callbacks of Ota.v.  [received_stream] is the abstract
    state of the receiver, a function of the bytes received so far; the callbacks
    refine it for every way TCP may cut the stream into segments and pbufs. *)
From S2P Require Import Prelude Hal Net SimNet Ota.

(** ** Receiving: memory safety and functional behaviour *)
Section Receive.
Implicit Types (o : ota_t) (data s : list Z).

(** The progress counters stay inside the arrays. *)
Definition ota_inv o : Prop :=
  0 <= ota_received o <= OTA_BUF_SIZE /\
  (ota_header_parsed o = false -> ota_received o <= 8 /\ ota_expected o = 0).

(** What a receive step may change: the two arrays inside their bounds, the
    counters and the state; never the pcbs nor the expected CRC.  Once the header
    is parsed the announced length is fixed and the payload only grows. *)
Definition recv_frame o o' : Prop :=
  unchanged_off 0 8 (ota_stage o) (ota_stage o') /\
  unchanged_off 0 OTA_BUF_SIZE (ota_buf o) (ota_buf o') /\
  ota_server_pcb o' = ota_server_pcb o /\ ota_client_pcb o' = ota_client_pcb o /\
  ota_crc_expected o' = ota_crc_expected o /\
  (ota_header_parsed o = true -> ota_header_parsed o' = true /\
     ota_expected o' = ota_expected o /\ ota_received o <= ota_received o').

#[export] Instance recv_frame_preorder : PreOrder recv_frame.
Proof.
  split; [intros o; repeat split; try done; lia|].
  intros o1 o2 o3 (A1 & B1 & C1 & D1 & E1 & F1) (A2 & B2 & C2 & D2 & E2 & F2).
  split; [by etrans|]. split; [by etrans|]. split; [congruence|]. split; [congruence|].
  split; [congruence|]. intros H. destruct (F1 H) as (F3 & F4 & F5).
  destruct (F2 F3) as (F6 & F7 & F8). split; [done|]. split; [congruence|lia].
Qed.

Definition parse_measure data o : nat :=
  2 * length data + (if ota_header_parsed o then 0 else 1).

Lemma parse_round_safe data o :
  ota_inv o -> ota_received o + Z.of_nat (length data) <= OTA_BUF_SIZE -> (0 < length data)%nat ->
  wp (ota_parse_round data) (fun x o' => ota_inv o' /\ recv_frame o o' /\
    match x with
    | inl d => ota_received o' + Z.of_nat (length d) <= OTA_BUF_SIZE /\ ota_state o' = ota_state o /\
               (parse_measure d o' < parse_measure data o)%nat
    | inr _ => ota_state o' = OTA_STATE_ERROR
    end) o.
Proof.
  intros [Hr Hh] Hsum Hlen. unfold OTA_BUF_SIZE in *. unfold wp, ota_parse_round.
  destruct (ota_header_parsed o) eqn:Hp; cbn [negb].
  - cbn -[Z.add Z.mul u32]. unfold ota_inv, recv_frame, parse_measure, OTA_BUF_SIZE; cbn -[Z.add Z.mul u32].
    rewrite Hp. unwrap. split; [split; [lia|discriminate]|]. split; [|split; [lia|split; [done|lia]]].
    split; [done|]. split; [|repeat split; lia].
    eapply unchanged_off_weaken; [| |apply mem_write_unchanged]; lia.
  - specialize (Hh eq_refl) as [Hh He]. unwrap.
    set (t := if Z.of_nat (length data) <? 8 - ota_received o
              then Z.of_nat (length data) else 8 - ota_received o).
    assert (Ht : 0 <= t <= Z.of_nat (length data) /\ ota_received o + t <= 8 /\
                 (ota_received o < 8 -> 0 < t)).
    { unfold t. destruct (Z.ltb_spec (Z.of_nat (length data)) (8 - ota_received o)); lia. }
    assert (Hst : unchanged_off 0 8 (ota_stage o)
              (mem_write (ota_stage o) (ota_received o) (take (Z.to_nat t) data))).
    { eapply unchanged_off_weaken; [| |apply mem_write_unchanged]; rewrite ?length_take; lia. }
    assert (Hfr : forall st, ota_server_pcb st = ota_server_pcb o -> ota_client_pcb st = ota_client_pcb o ->
      ota_crc_expected st = ota_crc_expected o -> ota_buf st = ota_buf o ->
      ota_stage st = mem_write (ota_stage o) (ota_received o) (take (Z.to_nat t) data) -> recv_frame o st).
    { intros st H1 H2 H3 H4 H5. unfold recv_frame. rewrite H4, H5, Hp. by repeat split. }
    cbn -[Z.add Z.mul u32 OTA_MAGIC stage_word recv_frame]. unwrap.
    destruct (Z.eqb_spec (ota_received o + t) 8) as [E|E].
    + destruct (negb _).
      { split; [unfold ota_inv, OTA_BUF_SIZE; cbn -[Z.add Z.mul u32]; split; [lia|]; intros _; split; [lia|done]|].
        split; [by apply Hfr|done]. }
      split; [unfold ota_inv, OTA_BUF_SIZE; cbn -[Z.add Z.mul u32 stage_word]; split; [lia|discriminate]|].
      split; [by apply Hfr|].
      cbn -[Z.add Z.mul u32 stage_word]. split; [rewrite length_drop; lia|]. split; [done|].
      unfold parse_measure. cbn. rewrite Hp, length_drop. lia.
    + split; [unfold ota_inv, OTA_BUF_SIZE; cbn -[Z.add Z.mul u32]; split; [lia|]; intros _; split; [lia|done]|].
      split; [by apply Hfr|]. cbn -[Z.add Z.mul u32]. rewrite length_drop. split; [lia|]. split; [done|].
      unfold parse_measure. cbn. rewrite Hp. lia.
Qed.

Lemma recv_pbuf_safe q o :
  ota_inv o -> Z.of_nat (length q) <= 65535 ->
  wp (ota_recv_pbuf q) (fun go o' => ota_inv o' /\ recv_frame o o' /\
    (if go then ota_state o' = ota_state o else ota_state o' = OTA_STATE_ERROR)) o.
Proof.
  intros Hi Hq. assert (Hb : 0 <= ota_received o <= 524288) by apply Hi.
  apply wp_bind, wp_gets. cbn [id].
  unfold OTA_BUF_SIZE at 1. unwrap.
  destruct (Z.ltb_spec (512 * 1024) (ota_received o + Z.of_nat (length q))) as [Hov|Hok].
  - apply wp_bind, wp_modify, wp_ret. by split.
  - apply wp_bind. eapply wp_mono;
      [apply (wp_while _ _ _ parse_measure
                (fun d o' => ota_inv o' /\ recv_frame o o' /\ ota_state o' = ota_state o /\
                   ota_received o' + Z.of_nat (length d) <= OTA_BUF_SIZE)
                (fun _ o' => ota_inv o' /\ recv_frame o o' /\ ota_state o' = OTA_STATE_ERROR))|].
    + intros d o1 (Hi1 & Hf1 & Hs1 & Hsum) Hc. apply Z.ltb_lt in Hc.
      eapply wp_mono; [apply parse_round_safe; [done..|lia]|]. cbv beta.
      intros [d'|u] o2 (Hi2 & Hf2 & H2).
      * destruct H2 as (H2 & H3 & H4). split; [|done]. split; [done|]. split; [by etrans|].
        split; [congruence|done].
      * split; [done|]. split; [by etrans|done].
    + split; [done|]. split; [done|]. split; [done|]. unfold OTA_BUF_SIZE. lia.
    + unfold parse_measure. destruct (ota_header_parsed o); lia.
    + intros [d|u] o1 H; apply wp_ret; cbv beta in H; tauto.
Qed.
End Receive.

(** ** The byte stream as the specification sees it *)

(** The 32-bit word at byte [i] of the stream. *)
Definition stream_word (s : list Z) (i : nat) : Z :=
  le32 (s !!! i) (s !!! (i + 1)%nat) (s !!! (i + 2)%nat) (s !!! (i + 3)%nat).
Definition stream_magic (s : list Z) : Prop := stream_word s 0 = OTA_MAGIC.

(** The stream [s] is acceptable so far: its header, when complete, has the magic,
    and the payload fits the SRAM buffer. *)
Definition acceptable (s : list Z) : Prop :=
  ((8 <= length s)%nat -> stream_magic s) /\ Z.of_nat (length s) <= 8 + OTA_BUF_SIZE.
#[export] Instance stream_magic_dec s : Decision (stream_magic s).
Proof. unfold stream_magic. apply _. Defined.
#[export] Instance acceptable_dec s : Decision (acceptable s).
Proof. unfold acceptable. apply _. Defined.

(** The receiver has consumed exactly the stream [s]. *)
Definition received_stream (s : list Z) (o : ota_t) : Prop :=
  acceptable s /\
  if decide (length s < 8)%nat then
    ota_header_parsed o = false /\ ota_expected o = 0 /\
    ota_received o = Z.of_nat (length s) /\ mem_read (ota_stage o) 0 (length s) = s
  else
    ota_header_parsed o = true /\ ota_expected o = stream_word s 4 /\
    ota_received o = Z.of_nat (length s) - 8 /\
    mem_read (ota_buf o) 0 (length s - 8) = drop 8 s.

Section Stream.
Implicit Types (o : ota_t) (d q s : list Z).

Lemma received_stream_inv s o : received_stream s o -> ota_inv o.
Proof.
  intros [[_ Hl] H]. unfold ota_inv, OTA_BUF_SIZE in *. case_decide.
  - destruct H as (_ & -> & -> & _). lia.
  - destruct H as (-> & _ & -> & _). split; [lia|discriminate].
Qed.

Lemma stream_word_app s s' i : (i + 4 <= length s)%nat -> stream_word (s ++ s') i = stream_word s i.
Proof. intros H. unfold stream_word. by rewrite !lookup_total_app_l by lia. Qed.

Lemma acceptable_app s s' : acceptable (s ++ s') -> acceptable s.
Proof.
  unfold acceptable, stream_magic. rewrite length_app. intros [H1 H2]. split; [|lia].
  intros Hs. rewrite <- (stream_word_app s s') by lia. apply H1. lia.
Qed.

Lemma stage_word_read s o i : mem_read (ota_stage o) 0 8 = s -> (i <= 4)%nat ->
  stage_word o (Z.of_nat i) = stream_word s i.
Proof.
  intros <- Hi. unfold stage_word, stream_word.
  rewrite !mem_read_lookup_total by lia. f_equal; f_equal; lia.
Qed.

(** One round consumes a non-empty prefix of the data, or finds a bad magic. *)
Lemma parse_round_stream s d o :
  received_stream s o -> (0 < length d)%nat -> Z.of_nat (length (s ++ d)) <= 8 + OTA_BUF_SIZE ->
  wp (ota_parse_round d) (fun x o' =>
    match x with
    | inl d' => (exists c, d = c ++ d' /\ received_stream (s ++ c) o' /\ (0 < length c)%nat) /\
                ota_state o' = ota_state o
    | inr _ => ~ acceptable (s ++ d) /\ ota_state o' = OTA_STATE_ERROR
    end) o.
Proof.
  intros [[Hm Hl] H] Hd Hsum. rewrite length_app in Hsum. unfold OTA_BUF_SIZE in *.
  unfold wp, ota_parse_round. case_decide as Hs.
  - destruct H as (-> & He & Hr & Hread). cbn [negb]. rewrite Hr. unwrap.
    set (t := if Z.of_nat (length d) <? 8 - Z.of_nat (length s)
              then Z.of_nat (length d) else 8 - Z.of_nat (length s)).
    assert (Ht : t = Z.of_nat (Nat.min (length d) (8 - length s)))
      by (unfold t; destruct (Z.ltb_spec (Z.of_nat (length d)) (8 - Z.of_nat (length s))); lia).
    set (c := take (Z.to_nat t) d). set (n := Z.to_nat t).
    assert (Hc : length c = n) by (unfold c; rewrite length_take; lia).
    assert (Hst : mem_read (mem_write (ota_stage o) (Z.of_nat (length s)) c) 0 (length s + length c) = s ++ c).
    { replace (Z.of_nat (length s)) with (0 + Z.of_nat (length s)) by lia.
      rewrite mem_write_read_append. by rewrite Hread. }
    cbn -[Z.add Z.mul u32 OTA_MAGIC stage_word mem_read mem_write]. rewrite Hr. unwrap.
    destruct (Z.eqb_spec (Z.of_nat (length s) + t) 8) as [E|E].
    + replace (length s + length c)%nat with 8%nat in Hst by lia.
      assert (Hlc : length (s ++ c) = 8%nat) by (rewrite length_app; lia).
      set (o1 := set_progress _ _ _ _).
      pose proof (stage_word_read (s ++ c) o1 0 Hst ltac:(lia)) as W0.
      pose proof (stage_word_read (s ++ c) o1 4 Hst ltac:(lia)) as W4.
      change (Z.of_nat 0) with 0 in W0. change (Z.of_nat 4) with 4 in W4. rewrite W0.
      destruct (Z.eqb_spec (stream_word (s ++ c) 0) OTA_MAGIC) as [Em|Em]; cbn [negb].
      * split; [|done]. exists c. unfold c. rewrite take_drop. split; [done|]. fold c.
        split; [|lia]. split; [split; [intros _; exact Em|unfold OTA_BUF_SIZE; lia]|].
        rewrite decide_False by lia. rewrite <- W4, Hlc. split; [done|]. split; [done|].
        split; [done|]. rewrite drop_ge by lia. done.
      * split; [|done]. intros Hacc.
        rewrite <- (take_drop n d), (assoc_L (++)) in Hacc.
        apply acceptable_app in Hacc as [Hacc _]. apply Em, Hacc. change (take n d) with c. lia.
    + split; [|done]. exists c. unfold c. rewrite take_drop. split; [done|]. fold c. split; [|lia].
      unfold received_stream, acceptable, OTA_BUF_SIZE. rewrite length_app.
      split; [split; [lia|lia]|]. rewrite decide_True by lia.
      cbn -[Z.add mem_read mem_write]. split; [done|]. split; [done|]. split; [lia|done].
  - destruct H as (-> & He & Hr & Hread). cbn [negb]. rewrite Hr.
    cbn -[Z.add Z.mul u32 mem_read mem_write]. unwrap. split; [|done]. exists d. rewrite app_nil_r.
    split; [done|]. split; [|done]. unfold received_stream, acceptable, OTA_BUF_SIZE, stream_magic.
    rewrite length_app, (stream_word_app _ _ 0), (stream_word_app _ _ 4) by lia.
    split; [split; [intros _; apply Hm; lia|lia]|]. rewrite decide_False by lia.
    cbn -[Z.add mem_read mem_write]. split; [done|]. split; [done|]. split; [lia|].
    replace (length s + length d - 8)%nat with ((length s - 8) + length d)%nat by lia.
    replace (Z.of_nat (length s) - 8) with (0 + Z.of_nat (length s - 8)) by lia.
    rewrite mem_write_read_append, Hread. by rewrite drop_app_le by lia.
Qed.

Lemma recv_pbuf_stream s q o :
  received_stream s o -> Z.of_nat (length q) <= 65535 ->
  wp (ota_recv_pbuf q) (fun go o' =>
    if go then received_stream (s ++ q) o' /\ ota_state o' = ota_state o
    else ~ acceptable (s ++ q) /\ ota_state o' = OTA_STATE_ERROR) o.
Proof.
  intros Hs Hq. assert (Hb : 0 <= ota_received o <= 524288) by apply (received_stream_inv _ _ Hs).
  apply wp_bind, wp_gets. cbn [id]. unfold OTA_BUF_SIZE at 1. unwrap.
  destruct (Z.ltb_spec (512 * 1024) (ota_received o + Z.of_nat (length q))) as [Hov|Hok].
  - apply wp_bind, wp_modify, wp_ret. split; [|done]. intros [_ Hl]. revert Hov Hl.
    destruct Hs as [_ H]. unfold OTA_BUF_SIZE. rewrite length_app. case_decide as E.
    + destruct H as (_ & _ & -> & _). lia.
    + destruct H as (_ & _ & -> & _). lia.
  - assert (Hsum : Z.of_nat (length (s ++ q)) <= 8 + OTA_BUF_SIZE).
    { destruct Hs as [_ H]. unfold OTA_BUF_SIZE. rewrite length_app. case_decide as E.
      - destruct H as (_ & _ & Hr & _). lia.
      - destruct H as (_ & _ & Hr & _). lia. }
    apply wp_bind. eapply wp_mono;
      [apply (wp_while _ _ _ (fun d _ => length d)
         (fun d o' => (exists c, q = c ++ d /\ received_stream (s ++ c) o') /\ ota_state o' = ota_state o)
         (fun _ o' => ~ acceptable (s ++ q) /\ ota_state o' = OTA_STATE_ERROR))|].
    + intros d o1 [(c & -> & Hc) Hs1] Hd. apply Z.ltb_lt in Hd. rewrite (assoc_L (++)) in *.
      eapply wp_mono; [apply (parse_round_stream (s ++ c)); [done|lia|done]|]. cbv beta.
      intros [d'|u] o2; [|done].
      intros [(c' & -> & Hc' & Hl) Hs2]. split; [|rewrite length_app; lia].
      split; [|congruence]. exists (c ++ c'). rewrite !(assoc_L (++)). by split.
    + split; [|done]. exists []. by rewrite app_nil_r.
    + lia.
    + intros [d|u] o1; cbv beta; [|done]. intros [[(c & -> & Hc) Hs1] Hd].
      apply Z.ltb_ge in Hd. apply wp_ret. destruct d; [|cbn in Hd; lia]. by rewrite app_nil_r.
Qed.

(** All pbufs of a chain fit the [u16_t] length field. *)
Definition chain_ok (p : list (list Z)) : Prop := Forall (fun q => Z.of_nat (length q) <= 65535) p.

Lemma recv_chain_safe p o : ota_inv o -> chain_ok p ->
  wp (ota_recv_chain p) (fun _ o' => ota_inv o' /\ recv_frame o o' /\
    (ota_state o' = ota_state o \/ ota_state o' = OTA_STATE_ERROR)) o.
Proof.
  intros Hi Hp. revert o Hi; induction Hp as [|q p Hq Hp IH]; intros o Hi; cbn [ota_recv_chain].
  - apply wp_ret. split; [done|]. split; [done|by left].
  - wp_call (recv_pbuf_safe q o Hi Hq) as go o1 (H1 & H2 & H3). destruct go.
    + eapply wp_mono; [by apply IH|]. cbv beta. intros _ o2 (H4 & H5 & H6).
      split; [done|]. split; [by etrans|]. rewrite <- H3. done.
    + apply wp_ret. auto.
Qed.

Lemma recv_chain_stream s p o : received_stream s o -> chain_ok p ->
  wp (ota_recv_chain p) (fun _ o' =>
    if decide (acceptable (s ++ concat p))
    then received_stream (s ++ concat p) o' /\ ota_state o' = ota_state o
    else ota_state o' = OTA_STATE_ERROR) o.
Proof.
  intros Hs Hp. revert s o Hs; induction Hp as [|q p Hq Hp IH]; intros s o Hs; cbn [ota_recv_chain concat].
  - apply wp_ret. rewrite app_nil_r. rewrite decide_True; [done|]. apply Hs.
  - wp_call (recv_pbuf_stream s q o Hs Hq) as go o1 H. rewrite (assoc_L (++)). destruct go.
    + destruct H as [H1 H2]. eapply wp_mono; [by apply (IH (s ++ q))|]. cbv beta.
      intros _ o2. case_decide; [|done]. intros [H3 H4]. split; [done|congruence].
    + destruct H as [H1 H2]. apply wp_ret. rewrite decide_False; [done|].
      intros H. by apply acceptable_app in H.
Qed.
End Stream.

(** ** A whole connection *)
Section Connection.
Context {N W : Type} `{!TcpApi N} `{!HalOps W}.
#[local] Abbreviation sys := (ota_sys N W).
Implicit Types (s : sys).

(** The receive callbacks of a connection, then the one for the peer's close. *)
Fixpoint receive_all (pc : pcb) (chunks : list (list (list Z))) : M sys unit :=
  match chunks with
  | [] => ret tt
  | p :: ps => ota_recv_cb pc (Some p) ;;; receive_all pc ps
  end.
Definition connection (pc : pcb) (chunks : list (list (list Z))) : M sys Z :=
  receive_all pc chunks ;;; ota_recv_cb pc None.

Definition stream_of (chunks : list (list (list Z))) : list Z := concat (map (@concat Z) chunks).

(** The announced length is positive and has been received. *)
Definition complete (st : list Z) : Prop :=
  (8 <= length st)%nat /\ stream_word st 4 <> 0 /\ stream_word st 4 <= Z.of_nat (length st) - 8.

(** A receiver that [OTA_Server_Start] has just set up. *)
Definition fresh (o : ota_t) : Prop :=
  ota_state o = OTA_STATE_RECEIVING /\ ota_header_parsed o = false /\
  ota_expected o = 0 /\ ota_received o = 0.

Lemma fresh_stream o : fresh o -> received_stream [] o.
Proof.
  intros (_ & H1 & H2 & H3). split; [split; cbn; unfold OTA_BUF_SIZE; lia|].
  rewrite decide_True by (cbn; lia). done.
Qed.

(** The receiver has rejected the stream, or has consumed it and waits for more. *)
Definition receiving (st : list Z) o : Prop :=
  if decide (acceptable st)
  then received_stream st o /\ ota_state o = OTA_STATE_RECEIVING
  else ota_inv o /\ ota_state o = OTA_STATE_ERROR.

Lemma recv_data_spec pc st p s : receiving st (ota s) -> chain_ok p ->
  wp (ota_recv_cb pc (Some p)) (fun _ s' => receiving (st ++ concat p) (ota s')) s.
Proof.
  intros Hr Hp. unfold ota_recv_cb. apply wp_bind, wp_on_ota.
  eapply (wp_mono _ (fun _ o' => receiving (st ++ concat p) o')); [|intros; cbv beta; by sys_steps].
  unfold receiving in *. case_decide as Hacc.
  - destruct Hr as [Hs Hst]. eapply wp_mono; [apply wp_and; [by apply (recv_chain_stream st)|
      apply recv_chain_safe; [by eapply received_stream_inv|done]]|]. cbv beta.
    intros _ o' [H (Hi & _)]. case_decide; [|done]. destruct H as [H ->]. done.
  - destruct Hr as [Hi Hst].
    assert (Hno : ~ acceptable (st ++ concat p)) by (intros H; by apply acceptable_app in H).
    eapply wp_mono; [by apply recv_chain_safe|]. cbv beta.
    intros _ o' (H1 & _ & H2). rewrite decide_False by done. by destruct H2 as [->| ->].
Qed.

Lemma receive_all_spec pc chunks st s : receiving st (ota s) -> Forall chain_ok chunks ->
  wp (receive_all pc chunks) (fun _ s' => receiving (st ++ stream_of chunks) (ota s')) s.
Proof.
  intros Hr Hc. revert st s Hr; induction Hc as [|p ps Hp _ IH]; intros st s Hr; cbn [receive_all].
  - apply wp_ret. by rewrite app_nil_r.
  - wp_call (recv_data_spec pc st p s Hr Hp) as r s1 H1. unfold stream_of. cbn [map concat].
    rewrite (assoc_L (++)). by apply IH.
Qed.

Lemma receiving_complete st o : receiving st o -> acceptable st ->
  (negb (ota_expected o =? 0) && (ota_expected o <=? ota_received o) = true <-> complete st).
Proof.
  unfold receiving, complete. intros H Ha. rewrite decide_True in H by done.
  destruct H as [[_ H] _]. rewrite andb_true_iff, negb_true_iff, Z.eqb_neq, Z.leb_le.
  case_decide.
  - destruct H as (_ & -> & _). lia.
  - destruct H as (_ & -> & -> & _). intuition lia.
Qed.

(** The close of the peer: the verdict is reached, unless the stack cannot close
    and its abort reports an error to the application. *)
Lemma recv_close_spec pc st s : receiving st (ota s) ->
  (forall n, (tcp_close pc n).1 = ERR_OK) ->
  wp (ota_recv_cb pc None) (fun r s' => r = ERR_OK /\ ota_client_pcb (ota s') = None /\
    (acceptable st /\ complete st -> ota_state (ota s') = OTA_STATE_VERIFY /\
       received_stream st (ota s')) /\
    (~ (acceptable st /\ complete st) -> ota_state (ota s') = OTA_STATE_ERROR)) s.
Proof.
  intros Hr Hclose. unfold ota_recv_cb. apply wp_bind, wp_set_, wp_bind, wp_on_net.
  unfold wp at 1. specialize (Hclose (net s)). cbn [net]. destruct (tcp_close pc (net s)) as [e n].
  cbn [fst] in Hclose. subst e. change (negb (ERR_OK =? ERR_OK)) with false. cbv iota.
  apply wp_bind, wp_ret, wp_bind, wp_get_. cbn [ota id].
  destruct s as [o n0 w]. cbn [ota net hw set_client ota_state ota_expected ota_received] in *.
  destruct (decide (acceptable st)) as [Ha|Ha].
  - pose proof (receiving_complete st o Hr Ha) as Hc. unfold receiving in Hr.
    rewrite decide_True in Hr by done. destruct Hr as [Hs ->]. rewrite bool_decide_true by done.
    destruct (negb _ && _); (apply wp_bind, wp_set_, wp_ret; split; [done|]; split; [done|]).
    + split; [intros _; by split|]. intros Hno. exfalso. apply Hno. split; [done|]. by apply Hc.
    + split; [intros [_ H%Hc]; discriminate|done].
  - unfold receiving in Hr. rewrite decide_False in Hr by done. destruct Hr as [_ E].
    rewrite E. apply wp_bind, wp_ret, wp_ret. split; [done|]. split; [done|]. split; [tauto|].
    intros _. exact E.
Qed.

Lemma connection_spec pc chunks s : fresh (ota s) -> Forall chain_ok chunks ->
  (forall n, (tcp_close pc n).1 = ERR_OK) ->
  wp (connection pc chunks) (fun r s' => r = ERR_OK /\ ota_client_pcb (ota s') = None /\
    (acceptable (stream_of chunks) /\ complete (stream_of chunks) ->
       ota_state (ota s') = OTA_STATE_VERIFY /\ received_stream (stream_of chunks) (ota s')) /\
    (~ (acceptable (stream_of chunks) /\ complete (stream_of chunks)) ->
       ota_state (ota s') = OTA_STATE_ERROR)) s.
Proof.
  intros Hf Hc Hclose. assert (Hr : receiving [] (ota s)).
  { unfold receiving. rewrite decide_True by (split; cbn; unfold OTA_BUF_SIZE; lia).
    split; [by apply fresh_stream|apply Hf]. }
  wp_call (receive_all_spec pc chunks [] s Hr Hc) as u s1 H1. by apply recv_close_spec.
Qed.

(** A control operation leaves the received data alone. *)
Definition same_data (o o' : ota_t) : Prop :=
  ota_header_parsed o' = ota_header_parsed o /\ ota_expected o' = ota_expected o /\
  ota_received o' = ota_received o /\ ota_crc_expected o' = ota_crc_expected o /\
  ota_stage o' = ota_stage o /\ ota_buf o' = ota_buf o.

(** What the server entry points establish. *)
Lemma Server_Stop_spec s :
  wp OTA_Server_Stop (fun _ s' => ota_client_pcb (ota s') = None /\
    ota_server_pcb (ota s') = None /\ ota_state (ota s') = OTA_STATE_IDLE /\
    same_data (ota s) (ota s') /\ hw s' = hw s) s.
Proof. destruct s as [[]]. sys_steps; cbn in *; repeat split; congruence. Qed.

Lemma Server_Start_spec s :
  wp OTA_Server_Start (fun r s' => ota_client_pcb (ota s') = None /\ hw s' = hw s /\
    ota_crc_expected (ota s') = ota_crc_expected (ota s) /\
    ota_stage (ota s') = ota_stage (ota s) /\ ota_buf (ota s') = ota_buf (ota s) /\
    ota_header_parsed (ota s') = false /\ ota_expected (ota s') = 0 /\ ota_received (ota s') = 0 /\
    (r = 0 /\ ota_state (ota s') = OTA_STATE_RECEIVING \/
     r = -1 /\ ota_server_pcb (ota s') = None /\
       (ota_state (ota s') = OTA_STATE_ERROR \/ ota_state (ota s') = OTA_STATE_IDLE))) s.
Proof.
  apply wp_bind. eapply wp_mono; [apply Server_Stop_spec|].
  intros _ s1 (H1 & H2 & H3 & (H4 & H5 & H6 & H7 & H8 & H9) & H10).
  cbv beta in *. apply wp_bind, wp_set_, wp_bind, wp_on_net_any. intros p n.
  apply wp_bind, wp_set_. destruct p as [p|]; cbn [ota net hw].
  - apply wp_bind, wp_on_net_any. intros u n1. apply wp_bind, wp_on_net_any. intros e n2.
    cbn [ota net hw]. destruct (negb (e =? ERR_OK)).
    + apply wp_bind. eapply wp_mono; [apply Server_Stop_spec|]. cbn [ota net hw].
      intros _ s2 (K1 & K2 & K3 & (K4 & K5 & K6 & K7 & K8 & K9) & K10). cbn in *. apply wp_ret.
      repeat (split; [congruence|]). right. repeat (split; [congruence|]). by right.
    + sys_steps. cbn. repeat (split; [congruence|]). by left.
  - sys_steps. cbn. repeat (split; [congruence|]). right. split; [done|]. split; [done|by left].
Qed.
End Connection.

(** C10. The TCP receive callback preserves the invariant of the receive state for every
    pbuf chain: nothing is written outside the 512 KB buffer or the two header words,
    nothing but the receive state changes, and the state stays or becomes ERROR. *)
Theorem recv_cb_memory_safe {N W} `{!TcpApi N} pc p (s : ota_sys N W) :
  ota_inv (ota s) -> chain_ok p ->
  wp (ota_recv_cb pc (Some p)) (fun r s' =>
    r = ERR_OK /\ ota_inv (ota s') /\ recv_frame (ota s) (ota s') /\ hw s' = hw s /\
    (ota_state (ota s') = ota_state (ota s) \/ ota_state (ota s') = OTA_STATE_ERROR)) s.
Proof.
  intros Hi Hp. apply wp_bind, wp_on_ota. eapply wp_mono; [by apply recv_chain_safe|].
  cbv beta. intros _ o' (H1 & H2 & H3). by sys_steps.
Qed.

(** C5. For every way TCP cuts the byte stream into segments and pbufs, a connection
    ends in VERIFY exactly when the stream has the OTA magic, fits the 512 KB buffer,
    announces a non-zero length and delivers at least that many bytes; the buffer then
    holds the payload. Otherwise it ends in ERROR. *)
Theorem connection_verdict {N W} `{!TcpApi N} pc chunks (s : ota_sys N W) :
  fresh (ota s) -> Forall chain_ok chunks -> (forall n, (tcp_close pc n).1 = ERR_OK) ->
  wp (connection pc chunks) (fun _ s' =>
    let st := stream_of chunks in
    ota_state (ota s') =
      (if decide (acceptable st /\ (8 <= length st)%nat /\ stream_word st 4 <> 0 /\
                  stream_word st 4 <= Z.of_nat (length st) - 8)
       then OTA_STATE_VERIFY else OTA_STATE_ERROR) /\
    (ota_state (ota s') = OTA_STATE_VERIFY ->
       ota_expected (ota s') = stream_word st 4 /\
       ota_received (ota s') = Z.of_nat (length st) - 8 /\
       mem_read (ota_buf (ota s')) 0 (Z.to_nat (ota_received (ota s'))) = drop 8 st)) s.
Proof.
  intros Hf Hc Hclose. eapply wp_mono; [by apply connection_spec|]. cbv beta zeta.
  intros r s' (_ & _ & H1 & H2). case_decide as E.
  - destruct (H1 E) as [-> [_ Hs]]. split; [done|]. intros _. destruct E as (_ & E & _).
    rewrite decide_False in Hs by lia. destruct Hs as (_ & -> & -> & Hs). split; [done|].
    split; [done|]. rewrite <- Hs. f_equal. lia.
  - rewrite (H2 E). done.
Qed.

Definition demo_ota : ota_t :=
  mkOta (Some 1) (Some 2) OTA_STATE_RECEIVING false 0 0 0 (fun _ => 0) (fun _ => 0).

Definition demo_chunks : list (list (list Z)) :=
  [[[79; 84]; [65; 0; 3; 0]]; [[0]; [0; 1]]; [[2; 3]]].

Lemma recv_cb_memory_safe_witness :
  wp (ota_recv_cb (W:=unit) 2 (Some [[79; 84]; [65; 0; 3; 0; 0; 0; 7]])) (fun r s' =>
    r = ERR_OK /\ ota_inv (ota s') /\ recv_frame demo_ota (ota s') /\ hw s' = tt /\
    (ota_state (ota s') = OTA_STATE_RECEIVING \/ ota_state (ota s') = OTA_STATE_ERROR))
    (mkSys demo_ota SimNet.net0 tt).
Proof.
  apply (recv_cb_memory_safe 2 [[79; 84]; [65; 0; 3; 0; 0; 0; 7]] (mkSys demo_ota SimNet.net0 tt)).
  - split; [cbn; unfold OTA_BUF_SIZE; lia|cbn; lia].
  - repeat (apply Forall_cons_2; [cbn; lia|]). apply Forall_nil_2.
Defined.

Lemma connection_verdict_witness :
  wp (connection (TcpApi0:=closing_tcp) (W:=unit) 2 demo_chunks) (fun _ s' =>
    let st := stream_of demo_chunks in
    ota_state (ota s') = OTA_STATE_VERIFY /\
    (ota_state (ota s') = OTA_STATE_VERIFY ->
       ota_expected (ota s') = 3 /\ ota_received (ota s') = 3 /\
       mem_read (ota_buf (ota s')) 0 (Z.to_nat (ota_received (ota s'))) = [1; 2; 3]))
    (mkSys demo_ota tt tt).
Proof.
  apply (connection_verdict (TcpApi0:=closing_tcp) 2 demo_chunks (mkSys demo_ota tt tt)).
  - repeat split.
  - repeat (apply Forall_cons_2; [repeat (apply Forall_cons_2; [cbn; lia|]); apply Forall_nil_2|]).
    apply Forall_nil_2.
  - reflexivity.
Defined.

(** OTA_Server_Start ends with a fresh receive state and a listening pcb, or reports
    failure and has no pcb. *)
Theorem server_start_fresh {N W} `{!TcpApi N} (s : ota_sys N W) :
  wp OTA_Server_Start (fun r s' =>
    ota_client_pcb (ota s') = None /\ hw s' = hw s /\
    (r = 0 /\ fresh (ota s') \/
     r = -1 /\ ota_server_pcb (ota s') = None /\
       (ota_state (ota s') = OTA_STATE_ERROR \/ ota_state (ota s') = OTA_STATE_IDLE))) s.
Proof.
  eapply wp_mono; [apply Server_Start_spec|]. cbv beta. unfold fresh. tauto.
Qed.
