(* ===== verification/OtaPoll.v ===== *)
(** * Staging the received image: [OTA_Poll] (ota/ota.c)

    The image in SRAM is checked, written to the NOR flash and read back.  The
    central fact is that the state CONFIRM is reached only when the CRC-32 of the
    staged bytes is the announced one, whatever calls failed on the way; on a
    device whose calls succeed a correct image does reach it. *)
From S2P Require Import Prelude Crc32 Hal SimDevice SimNet QspiFlash QspiReliable Net Ota.

Section Staging.
Context {W : Type} `{!HalOps W} `{!HalView W} `{!HalLaws W}.
Implicit Types (w : W).

Lemma nor_read_bytes w a n : bytes (mem_read (nor_mem w) a n).
Proof.
  apply Forall_lookup_2. intros i x Hx.
  assert (Hi : (i < n)%nat) by (apply lookup_lt_Some in Hx; by rewrite mem_read_length in Hx).
  rewrite mem_read_lookup in Hx by done. injection Hx as <-. apply nor_bytes.
Qed.

(** The first [off] bytes have been folded into the accumulator. *)
Definition readback_inv (n : Z) w (v : Z * Z) w' : Prop :=
  quiet w w' /\ 0 <= v.2 <= n /\
  v.1 = CRC32_loop (mem_read (nor_mem w) 0 (Z.to_nat v.2)) 0xFFFFFFFF.

Lemma readback_round_spec n w v w1 : n <= OTA_BUF_SIZE ->
  readback_inv n w v w1 -> v.2 < n ->
  wp (readback_round n v) (fun x w' => match x with
    | inl v' => readback_inv n w v' w' /\ v.2 < v'.2 /\ (v'.2 < n -> v'.2 = v.2 + 64)
    | inr _ => quiet w w' end) w1.
Proof.
  destruct v as [crc off]. unfold readback_inv, OTA_BUF_SIZE. cbn [fst snd]. intros Hn (Hq & Ho & Hc) Hlt.
  cbv beta iota delta [readback_round]. unfold OTA_STAGING_ADDR. unwrap.
  set (c := if n - off <? 64 then n - off else 64).
  assert (Hcr : 0 < c <= n - off /\ (c < 64 -> c = n - off) /\ c <= 64)
    by (unfold c; destruct (Z.ltb_spec (n - off) 64); lia).
  wp_call (BSP_QSPI_Read_spec (0 + off) c w1 ltac:(lia) ltac:(lia) ltac:(unfold QSPI_FLASH_SIZE; lia))
    as rd w2 (Hq2 & _ & Hrd).
  assert (Hq' : quiet w w2) by (etrans; eassumption).
  destruct (Z.eqb_spec rd.1 QSPI_OK) as [E|]; cbn [negb]; apply wp_ret; [|done].
  rewrite (Hrd E). cbn [fst snd]. unwrap. split; [|lia]. split; [done|]. split; [lia|].
  rewrite take_ge by (rewrite mem_read_length; lia).
  rewrite crc_rb_chunk_loop; [|apply nor_read_bytes|subst crc; apply CRC32_loop_range, is_u32_ones].
  rewrite Hc, <- CRC32_loop_app. f_equal.
  replace (Z.to_nat (off + c)) with (Z.to_nat off + Z.to_nat c)%nat by lia.
  rewrite mem_read_app. f_equal. rewrite Z2Nat.id by lia.
  apply mem_read_ext. intros x _. apply Hq.
Qed.

Lemma readback_crc_spec n w : 0 <= n <= OTA_BUF_SIZE ->
  wp (readback_crc n) (fun c w' => quiet w w' /\ match c with
    | Some c => c = CRC32_Calculate (mem_read (nor_mem w) 0 (Z.to_nat n))
    | None => True end) w.
Proof.
  intros Hn. apply wp_bind. eapply wp_mono;
    [apply (wp_while _ _ _ (fun (v : Z * Z) _ => Z.to_nat ((n - v.2 + 63) / 64))
              (readback_inv n w) (fun _ w' => quiet w w'))|].
  - intros v w1 Hi Hc. apply Z.ltb_lt in Hc. eapply wp_mono; [apply (readback_round_spec n w); auto; lia|].
    cbv beta. intros [v'|u] w2; [|done]. intros (Hi' & H1 & H2). split; [done|].
    destruct Hi' as (_ & Hb & _). Z.to_euclidean_division_equations. lia.
  - split; [done|]. cbn [fst snd]. split; [lia|done].
  - cbn [snd]. Z.to_euclidean_division_equations. lia.
  - intros [[crc off]|u] w1; cbv beta.
    + intros [(Hq & Ho & Hc) Hend]. cbn [fst snd] in *. apply Z.ltb_ge in Hend.
      replace off with n in Hc by lia. apply wp_ret. split; [done|]. cbn [fst]. by rewrite Hc.
    + intros Hq. by apply wp_ret.
Qed.

(** Only the staging area of the NOR flash may change. *)
Definition staging_frame w w' : Prop :=
  same_flash w w' /\ unchanged_off 0 0x200000 (nor_mem w) (nor_mem w').

#[export] Instance staging_frame_preorder : PreOrder staging_frame.
Proof. split; [by split|]. intros w1 w2 w3 [H1 H2] [H3 H4]. split; etrans; eassumption. Qed.

Lemma quiet_staging w w' : quiet w w' -> staging_frame w w'.
Proof. intros [H1 H2]. split; [done|]. by apply unchanged_off_nor. Qed.

Lemma staging_erase w : wp (QSPI_Erase_Blocks 0 (2 * 1024 * 1024)) (fun r w' =>
  staging_frame w w' /\ (r = QSPI_OK -> erased (nor_mem w') 0 0x200000)) w.
Proof.
  eapply wp_mono; [apply (QSPI_Erase_Blocks_spec 0 0x200000); (reflexivity || (unfold QSPI_FLASH_SIZE; lia))|].
  cbv beta. intros r w' (_ & H1 & H2 & H3). by split.
Qed.

(** A write of the image, first attempt or retry. *)
Lemma staging_write image w : bytes image -> Z.of_nat (length image) <= OTA_BUF_SIZE ->
  wp (BSP_QSPI_Write image OTA_STAGING_ADDR (Z.of_nat (length image))) (fun r w' =>
    staging_frame w w' /\ partly_programmed (nor_mem w) (nor_mem w') 0 image /\
    (r = QSPI_OK -> programmed (nor_mem w) (nor_mem w') 0 image)) w.
Proof.
  unfold OTA_BUF_SIZE. intros Hb Hl.
  eapply wp_mono; [apply BSP_QSPI_Write_spec; unfold OTA_STAGING_ADDR, QSPI_FLASH_SIZE; (done || lia)|].
  cbv beta. intros r w' (_ & Hf & Hp & Hok). split; [|by split]. split; [done|].
  eapply unchanged_off_weaken; [| |apply Hp]; unfold OTA_STAGING_ADDR; lia.
Qed.

(** The write and its retry after a re-initialisation. *)
Lemma staging_write_retry image w : bytes image -> Z.of_nat (length image) <= OTA_BUF_SIZE ->
  wp (r <- BSP_QSPI_Write image OTA_STAGING_ADDR (Z.of_nat (length image)) ;;
      if r =? QSPI_OK then ret true
      else BSP_QSPI_Init ;;;
           r2 <- BSP_QSPI_Write image OTA_STAGING_ADDR (Z.of_nat (length image)) ;;
           ret (r2 =? QSPI_OK)) (fun ok w' =>
    staging_frame w w' /\ (ok = true -> programmed (nor_mem w) (nor_mem w') 0 image)) w.
Proof.
  intros Hb Hl. wp_call (staging_write image w Hb Hl) as r w1 (H1 & Hp & Hok).
  destruct (Z.eqb_spec r QSPI_OK) as [E|]; [apply wp_ret; auto|].
  wp_call (quiet_BSP_QSPI_Init w1) as u w2 Hq.
  wp_call (staging_write image w2 Hb Hl) as r2 w3 (H3 & _ & Hok3). apply wp_ret.
  split; [etrans; [exact H1|]; etrans; [by apply quiet_staging|done]|].
  intros E%Z.eqb_eq. eapply partly_programmed_complete; [|by apply Hok3].
  eapply partly_programmed_same; [apply Hq|done].
Qed.

Lemma stage_image_spec image crc w : bytes image -> Z.of_nat (length image) <= OTA_BUF_SIZE ->
  wp (stage_image image (Z.of_nat (length image)) crc) (fun ok w' =>
    staging_frame w w' /\
    (ok = true -> CRC32_Calculate (mem_read (nor_mem w') 0 (length image)) = crc)) w.
Proof.
  intros Hb Hl.
  wp_call (staging_erase w) as r0 w1 [H1 _].
  wp_call (quiet_BSP_QSPI_Init w1) as r w2 Hq2.
  assert (H2 : staging_frame w w2) by (etrans; [exact H1|by apply quiet_staging]).
  destruct (r =? QSPI_OK); cbn [negb]; [|by apply wp_ret].
  apply wp_bind_assoc. wp_call (staging_write_retry image w2 Hb Hl) as ok w3 [H3 _].
  assert (H3' : staging_frame w w3) by (etrans; eassumption).
  destruct ok; cbn [negb]; [|by apply wp_ret].
  wp_call (readback_crc_spec (Z.of_nat (length image)) w3 ltac:(lia)) as c w4 [Hq4 Hc].
  apply wp_ret. split; [etrans; [exact H3'|by apply quiet_staging]|].
  destruct c as [c|]; [|discriminate]. intros E%Z.eqb_eq. subst crc. rewrite Hc, Nat2Z.id.
  f_equal. apply mem_read_ext. intros x _. apply Hq4.
Qed.

Section Reliable.
Context (G : W -> Prop) (HG : reliable G).

Lemma readback_ok n w : 0 <= n <= OTA_BUF_SIZE -> G w ->
  wp (readback_crc n) (fun c w' => c = Some (CRC32_Calculate (mem_read (nor_mem w) 0 (Z.to_nat n))) /\
    quiet w w' /\ G w') w.
Proof.
  intros Hn H. apply wp_bind. eapply wp_mono;
    [apply (wp_while _ _ _ (fun (v : Z * Z) _ => Z.to_nat ((n - v.2 + 63) / 64))
              (fun v w' => readback_inv n w v w' /\ G w') (fun (_ : unit) _ => False))|].
  - intros v w1 [Hi H1] Hc. apply Z.ltb_lt in Hc.
    assert (Hok : wp (readback_round n v) (fun x w' => (exists v', x = inl v') /\ G w') w1).
    { destruct v as [crc off]. unfold readback_round. wp_call (Read_ok G HG (OTA_STAGING_ADDR + off)
        (if n -% off <? 64 then n -% off else 64) w1 H1) as rd w2 [E H2].
      rewrite E. cbn [negb QSPI_OK Z.eqb]. apply wp_ret. eauto. }
    eapply wp_mono; [apply (wp_and _ _ _ _ Hok (readback_round_spec n w v w1 (proj2 Hn) Hi Hc))|].
    cbv beta. intros x w2 [[[v' ->] H2] (Hi' & Hv & Hv')]. split; [done|].
    destruct Hi' as (_ & Hb & _). Z.to_euclidean_division_equations. lia.
  - split; [|done]. split; [done|]. cbn [fst snd]. split; [lia|done].
  - cbn [snd]. Z.to_euclidean_division_equations. lia.
  - intros [[crc off]|u] w1; cbv beta; [|done].
    intros [[(Hq & Ho & Hc) H1] Hend]. cbn [fst snd] in *. apply Z.ltb_ge in Hend.
    replace off with n in Hc by lia. apply wp_ret. cbn [fst]. by rewrite Hc.
Qed.

(** A correct image is staged. *)
Lemma stage_image_ok image w : bytes image -> Z.of_nat (length image) <= OTA_BUF_SIZE -> G w ->
  wp (stage_image image (Z.of_nat (length image)) (CRC32_Calculate image)) (fun ok w' =>
    ok = true /\ G w' /\ mem_read (nor_mem w') 0 (length image) = image) w.
Proof.
  intros Hb Hl H. unfold OTA_BUF_SIZE in Hl.
  wp_call (wp_and _ _ _ _ (staging_erase w) (Erase_Blocks_ok G HG 0 (2 * 1024 * 1024)
    ltac:(lia) ltac:(lia) ltac:(unfold QSPI_FLASH_SIZE; lia) w H)) as r0 w1 [[_ He] [-> H1]].
  specialize (He eq_refl).
  wp_call (wp_and _ _ _ _ (quiet_BSP_QSPI_Init w1) (Init_ok G HG w1 H1)) as r w2 [Hq2 [-> H2]].
  cbn [negb QSPI_OK Z.eqb].
  wp_call (wp_and _ _ _ _ (staging_write image w2 Hb Hl) (Write_ok G HG image OTA_STAGING_ADDR
    ltac:(done) ltac:(unfold OTA_STAGING_ADDR, QSPI_FLASH_SIZE; lia) w2 H2)) as r1 w3 [(_ & _ & Hp) [-> H3]].
  apply wp_bind, wp_ret. cbn [negb QSPI_OK Z.eqb].
  assert (Hh : mem_read (nor_mem w3) 0 (length image) = image).
  { apply holds_read. eapply programmed_erased; [done| |by apply Hp].
    intros a Ha. rewrite (proj2 Hq2). apply He. lia. }
  wp_call (readback_ok (Z.of_nat (length image)) w3 ltac:(unfold OTA_BUF_SIZE; lia) H3)
    as c w4 (-> & Hq4 & H4).
  apply wp_ret. rewrite Nat2Z.id, Hh, Z.eqb_refl. split; [done|]. split; [done|].
  rewrite <- Hh at 2. apply mem_read_ext. intros x _. apply Hq4.
Qed.
End Reliable.
End Staging.

Section Poll.
Context {N W : Type} `{!HalOps W} `{!HalView W} `{!HalLaws W}.
Implicit Types (s : ota_sys N W).

(** The received image, in the SRAM buffer. *)
Definition image_of (o : ota_t) : list Z := mem_read (ota_buf o) 0 (Z.to_nat (ota_received o)).

(** What the receive path guarantees about a state that is polled. *)
Definition image_ok (o : ota_t) : Prop :=
  0 <= ota_received o <= OTA_BUF_SIZE /\ bytes (image_of o).

Lemma image_length o : image_ok o -> Z.of_nat (length (image_of o)) = ota_received o.
Proof. intros [H _]. unfold image_of. rewrite mem_read_length. lia. Qed.

Lemma poll_idle_spec s : ota_state (ota s) <> OTA_STATE_VERIFY ->
  wp OTA_Poll (fun _ s' => s' = s) s.
Proof.
  intros H. apply wp_bind, wp_get_. cbn [id]. rewrite bool_decide_false by done.
  by apply wp_ret.
Qed.

Lemma poll_verify_spec s : image_ok (ota s) -> ota_state (ota s) = OTA_STATE_VERIFY ->
  wp OTA_Poll (fun _ s' =>
    net s' = net s /\ staging_frame (hw s) (hw s') /\
    ota s' = set_ota_state (ota_state (ota s')) (ota s) /\
    (ota_state (ota s') = OTA_STATE_CONFIRM \/ ota_state (ota s') = OTA_STATE_ERROR) /\
    (ota_state (ota s') = OTA_STATE_CONFIRM ->
      CRC32_Calculate (image_of (ota s)) = ota_crc_expected (ota s) /\
      CRC32_Calculate (mem_read (nor_mem (hw s')) 0 (Z.to_nat (ota_received (ota s))))
        = ota_crc_expected (ota s))) s.
Proof.
  intros Hi Hst. apply wp_bind, wp_get_. cbn [id]. rewrite bool_decide_true by done. cbn [negb].
  fold (image_of (ota s)). pose proof (image_length _ Hi) as Hl.
  destruct (Z.eqb_spec (CRC32_Calculate (image_of (ota s))) (ota_crc_expected (ota s))) as [E|E]; cbn [negb].
  - rewrite <- Hl at 1. apply wp_bind, wp_on_hw.
    eapply wp_mono; [apply stage_image_spec; [apply Hi|rewrite Hl; apply Hi]|].
    cbv beta. intros ok w' [Hf Hok]. apply wp_set_. cbn [ota net hw ota_state set_ota_state].
    split; [done|]. split; [done|]. split; [done|]. split; [destruct ok; auto|].
    destruct ok; [|discriminate]. intros _. split; [done|]. rewrite <- (Hok eq_refl).
    unfold image_of. by rewrite mem_read_length.
  - apply wp_set_. cbn [ota net hw ota_state set_ota_state].
    split; [done|]. split; [done|]. split; [done|]. split; [by right|discriminate].
Qed.

Lemma poll_reliable_spec (G : W -> Prop) (HG : reliable G) s :
  image_ok (ota s) -> ota_state (ota s) = OTA_STATE_VERIFY -> G (hw s) ->
  CRC32_Calculate (image_of (ota s)) = ota_crc_expected (ota s) ->
  wp OTA_Poll (fun _ s' => ota_state (ota s') = OTA_STATE_CONFIRM /\ G (hw s') /\
    mem_read (nor_mem (hw s')) 0 (Z.to_nat (ota_received (ota s))) = image_of (ota s)) s.
Proof.
  intros Hi Hst HGs E. apply wp_bind, wp_get_. cbn [id]. rewrite bool_decide_true by done. cbn [negb].
  fold (image_of (ota s)). pose proof (image_length _ Hi) as Hl. rewrite E, Z.eqb_refl. cbn [negb].
  rewrite <- Hl at 1. rewrite <- E. apply wp_bind, wp_on_hw.
  eapply wp_mono; [apply (stage_image_ok G HG); [apply Hi|rewrite Hl; apply Hi|done]|].
  cbv beta. intros ok w' (-> & HG' & Hr). apply wp_set_. cbn [ota net hw ota_state set_ota_state].
  split; [done|]. split; [done|]. by rewrite <- Hl, Nat2Z.id.
Qed.
End Poll.

(** Polling in VERIFY touches only the staging area and ends in CONFIRM or ERROR; it is
    CONFIRM only when the CRC of the bytes in the NOR flash is the announced one,
    whatever the flash driver reported. *)
Theorem poll_confirm_verified {N W} `{!HalOps W} `{!HalView W} `{!HalLaws W} (s : ota_sys N W) :
  image_ok (ota s) -> ota_state (ota s) = OTA_STATE_VERIFY ->
  wp OTA_Poll (fun _ s' =>
    staging_frame (hw s) (hw s') /\
    (ota_state (ota s') = OTA_STATE_CONFIRM \/ ota_state (ota s') = OTA_STATE_ERROR) /\
    (ota_state (ota s') = OTA_STATE_CONFIRM ->
      CRC32_Calculate (mem_read (nor_mem (hw s')) 0 (Z.to_nat (ota_received (ota s))))
        = ota_crc_expected (ota s))) s.
Proof.
  intros Hi Hst. eapply wp_mono; [by apply poll_verify_spec|]. cbv beta. tauto.
Qed.

(** On a reliable device an image whose CRC is the announced one is staged byte for byte
    and the state becomes CONFIRM. *)
Theorem poll_stages_image {N W} `{!HalOps W} `{!HalView W} `{!HalLaws W} (G : W -> Prop)
    (s : ota_sys N W) :
  reliable G -> image_ok (ota s) -> ota_state (ota s) = OTA_STATE_VERIFY -> G (hw s) ->
  CRC32_Calculate (image_of (ota s)) = ota_crc_expected (ota s) ->
  wp OTA_Poll (fun _ s' => ota_state (ota s') = OTA_STATE_CONFIRM /\
    mem_read (nor_mem (hw s')) 0 (Z.to_nat (ota_received (ota s))) = image_of (ota s)) s.
Proof.
  intros HG Hi Hst HGs E. eapply wp_mono; [by apply (poll_reliable_spec G)|]. cbv beta. tauto.
Qed.

(** A received image of three bytes, waiting for verification. *)
Definition verify_ota : ota_t :=
  mkOta None None OTA_STATE_VERIFY true 3 3 (CRC32_Calculate [1; 2; 3])
        (fun _ => 0) (mem_write (fun _ => 0) 0 [1; 2; 3]).
Definition verify_sys (faults : list bool) : ota_sys snet dev :=
  mkSys verify_ota net0 (mkDev (fun _ => 0xFF) (fun _ => 0) false None faults).

Lemma verify_image_ok : image_ok verify_ota.
Proof. split; [cbn; unfold OTA_BUF_SIZE; lia|]. apply (bool_decide_unpack _). vm_compute. exact I. Qed.

Lemma poll_confirm_verified_witness :
  wp OTA_Poll (fun _ s' =>
    staging_frame (hw (verify_sys [false; true])) (hw s') /\
    (ota_state (ota s') = OTA_STATE_CONFIRM \/ ota_state (ota s') = OTA_STATE_ERROR) /\
    (ota_state (ota s') = OTA_STATE_CONFIRM ->
      CRC32_Calculate (mem_read (nor_mem (hw s')) 0 3) = CRC32_Calculate [1; 2; 3]))
    (verify_sys [false; true]).
Proof. exact (poll_confirm_verified (verify_sys [false; true]) verify_image_ok eq_refl). Defined.

Lemma poll_stages_image_witness :
  wp OTA_Poll (fun _ s' => ota_state (ota s') = OTA_STATE_CONFIRM /\
    mem_read (nor_mem (hw s')) 0 3 = [1; 2; 3]) (verify_sys []).
Proof.
  apply (poll_stages_image fault_free (verify_sys []) sim_reliable verify_image_ok eq_refl);
    [reflexivity|vm_compute; reflexivity].
Defined.
