(* ===== verification/OtaFlash.v ===== *)
(** * Writing the application: [OTA_Flash_Write] (ota/ota.c)

    Backup of Bank2 to the NOR flash, erase and programming of Bank2 from the
    staged image, and the metadata record PENDING_UPDATE.  The version numbers come
    from [Version_Check_GetVersionNumbers], which no file of the repository
    defines: they are the argument [ver]. *)
From S2P Require Import Prelude Crc32 Hal SimDevice QspiFlash QspiReliable Metadata MetaLayout Net Ota OtaPoll.

Section FlashWrite.
Context {N W : Type} `{!HalOps W} {layout : MetaLayout}.
#[local] Abbreviation sys := (ota_sys N W).

(** *** Step 1: backup *)

(** One of the three attempts for a 64-byte chunk. *)
Definition backup_try (tmp : list Z) (i : Z) : M W bool :=
  r <- BSP_QSPI_Write tmp (BACKUP_OFFSET + i) 64 ;;
  if r =? QSPI_OK then ret true else BSP_QSPI_Init ;;; ret false.

Definition backup_round (i : Z) : M W (option Z) :=
  (if negb (i =? 0) && (i mod (128 * 1024) =? 0) then BSP_QSPI_Init else ret QSPI_OK) ;;;
  tmp <- gets (fun w => mem_read (flash_mem w) (APP_ADDR + i) 64) ;;
  wok <- retry 3 (backup_try tmp i) ;;
  if negb wok then BSP_QSPI_Init ;;; ret (Some 1) else ret None.

Definition backup_app : M W (option Z) :=
  r <- QSPI_Erase_Blocks BACKUP_OFFSET APP_SIZE ;;
  if negb (r =? 0) then ret (Some 1)
  else for_each (Z.to_nat (APP_SIZE / 64)) 0 64 backup_round.

Definition meta_backup (meta : Metadata) : Metadata :=
  let meta := set_fld bak_major (get_fld cur_major meta) meta in
  let meta := set_fld bak_minor (get_fld cur_minor meta) meta in
  let meta := set_fld bak_patch (get_fld cur_patch meta) meta in
  let meta := set_fld bak_crc32 (crc32 meta) meta in
  set_fld bak_fw_size (fw_size meta) meta.

Definition record_backup : M W unit :=
  meta <- Metadata_Read ;;
  Metadata_Write (meta_backup meta) ;;;
  ret tt.

(** *** Step 2: erase and program Bank2 *)

Definition bank2_erase_try (s : Z) : M W bool :=
  wait_while (Z.to_nat 1000000) FLASH_SR2_busy ;;;
  modify HAL_FLASH_CLEAR_ERRORS ;;;
  st <- HAL_FLASHEx_Erase FLASH_BANK_2 s ;;
  if negb (hal_ok st)
  then wait_while (Z.to_nat 3000000) FLASH_SR2_busy ;;; ret false
  else ret true.

(** [Some None] is the [break], [Some (Some 1)] the early return. *)
Definition bank2_erase_round (received s : Z) : M W (option (option Z)) :=
  if received <=? s *% 131072 then ret (Some None) else
  ok <- retry 8 (bank2_erase_try s) ;;
  if negb ok then modify HAL_FLASH_Lock ;;; ret (Some (Some 1)) else
  wait_while (Z.to_nat 1000000) FLASH_SR2_busy ;;;
  ret None.

Definition program_try (addr : Z) (wbuf : list Z) : M W bool :=
  st <- HAL_FLASH_Program addr wbuf ;;
  if hal_ok st then ret true else modify HAL_FLASH_CLEAR_ERRORS ;;; ret false.

(** The loop variables are [(addr, remain)]; [wbuf] is 0xFF beyond the chunk. *)
Definition program_round (v : Z * Z) : M W (Z * Z + Z) :=
  let '(addr, remain) := v in
  let chunk := if FLASHWORD <=? remain then FLASHWORD else remain in
  rd <- BSP_QSPI_Read (OTA_STAGING_ADDR + (addr -% APP_ADDR)) chunk ;;
  if negb (rd.1 =? QSPI_OK) then modify HAL_FLASH_Lock ;;; ret (inr 1) else
  let wbuf := take 32 (take (Z.to_nat chunk) rd.2 ++ replicate 32 0xFF) in
  modify HAL_FLASH_CLEAR_ERRORS ;;;
  ok <- retry 3 (program_try addr wbuf) ;;
  if negb ok then modify HAL_FLASH_Lock ;;; ret (inr 1) else
  ret (inl (addr +% chunk, remain -% chunk)).

Definition program_app (received : Z) : M W (option Z) :=
  modify HAL_FLASH_Unlock ;;;
  e <- for_each 8 0 1 (bank2_erase_round received) ;;
  match e with
  | Some (Some r) => ret (Some r)
  | _ =>
      x <- while (Datatypes.S (Z.to_nat received)) (fun v => 0 <? v.2) program_round
                 (APP_ADDR, received) ;;
      match x with
      | inr r => ret (Some r)
      | inl _ => modify HAL_FLASH_Lock ;;; ret None
      end
  end.

(** *** Step 3: metadata *)

Definition meta_pending (ver : Z * Z * Z) (crc received : Z) (meta : Metadata) : Metadata :=
  let '(vm, vn, vp) := ver in
  let meta := set_fld ota_major vm (set_fld cur_major vm meta) in
  let meta := set_fld ota_minor vn (set_fld cur_minor vn meta) in
  let meta := set_fld ota_patch vp (set_fld cur_patch vp meta) in
  set_state STATE_PENDING_UPDATE (set_crc crc received meta).

Definition write_pending (ver : Z * Z * Z) (crc received : Z) : M W Z :=
  meta <- Metadata_Read ;;
  Metadata_Write (meta_pending ver crc received meta).

(** The whole flow on the device. *)
Definition flash_write (ver : Z * Z * Z) (crc received : Z) : M W Z :=
  b <- backup_app ;;
  match b with
  | Some r => ret r
  | None =>
      record_backup ;;;
      p <- program_app received ;;
      match p with
      | Some r => ret r
      | None =>
          r <- write_pending ver crc received ;;
          if negb (r =? 0) then ret 1 else ret 0
      end
  end.

Definition OTA_Flash_Write (ver : Z * Z * Z) : M sys Z :=
  o <- get_ id ;;
  r <- on_hw (flash_write ver (ota_crc_expected o) (ota_received o)) ;;
  if r =? 0 then set_ (set_ota_state OTA_STATE_DONE) ;;; ret 0 else ret r.
End FlashWrite.

(** ** Backup *)
Section BackupSpec.
Context {W : Type} `{!HalOps W} `{!HalView W} `{!HalLaws W}.
Implicit Types (w : W).

(** Only the backup area of the NOR flash may change. *)
Definition backup_frame w w' : Prop :=
  same_flash w w' /\ unchanged_off BACKUP_OFFSET APP_SIZE (nor_mem w) (nor_mem w').

#[export] Instance backup_frame_preorder : PreOrder backup_frame.
Proof. split; [by split|]. intros w1 w2 w3 [H1 H2] [H3 H4]. split; etrans; eassumption. Qed.

Lemma quiet_backup w w' : quiet w w' -> backup_frame w w'.
Proof. intros [H1 H2]. split; [done|]. by apply unchanged_off_nor. Qed.

Lemma flash_read_bytes w a n : bytes (mem_read (flash_mem w) a n).
Proof.
  apply Forall_lookup_2. intros i x Hx.
  assert (Hi : (i < n)%nat) by (apply lookup_lt_Some in Hx; by rewrite mem_read_length in Hx).
  rewrite mem_read_lookup in Hx by done. injection Hx as <-. apply flash_bytes.
Qed.

(** The attempts for one chunk: partial programming accumulates soundly. *)
Lemma backup_chunk_spec tmp i w :
  length tmp = 64%nat -> bytes tmp -> 0 <= i -> i + 64 <= APP_SIZE ->
  wp (retry 3 (backup_try tmp i)) (fun ok w' => same_flash w w' /\
    unchanged_off (BACKUP_OFFSET + i) 64 (nor_mem w) (nor_mem w') /\
    (ok = true -> programmed (nor_mem w) (nor_mem w') (BACKUP_OFFSET + i) tmp)) w.
Proof.
  intros Hl Hb Hi Hmax. unfold BACKUP_OFFSET, APP_SIZE in *.
  set (a := 0x200000 + i).
  assert (Hlz : Z.of_nat (length tmp) = 64) by lia.
  eapply wp_mono; [apply (wp_retry _ _
    (fun w' => same_flash w w' /\ partly_programmed (nor_mem w) (nor_mem w') a tmp)
    (fun w' => same_flash w w' /\ programmed (nor_mem w) (nor_mem w') a tmp))|].
  - intros w1 [Hf1 Hp1]. unfold backup_try. fold a. rewrite <- Hlz.
    wp_call (BSP_QSPI_Write_spec tmp a w1 ltac:(unfold a; lia) ltac:(unfold a, QSPI_FLASH_SIZE; lia) Hb)
      as r w2 (_ & Hf2 & Hp2 & Hok).
    assert (Hf : same_flash w w2) by (etrans; eassumption).
    destruct (Z.eqb_spec r QSPI_OK) as [E|]; [apply wp_ret|].
    + split; [done|]. eapply partly_programmed_complete; [exact Hp1|by apply Hok].
    + wp_call (quiet_BSP_QSPI_Init w2) as u w3 [Hf3 Hn3]. apply wp_ret.
      split; [etrans; eassumption|]. eapply partly_programmed_same; [exact Hn3|].
      eapply partly_programmed_trans; eassumption.
  - split; [done|]. apply partly_programmed_refl.
  - intros [] w' [Hf Hp]; (split; [done|]); rewrite <- Hlz; (split; [apply Hp|]); [done|discriminate].
Qed.

(** The first [k] chunks are copied, the rest of the area is erased. *)
Definition backup_inv w (k : nat) w' : Prop :=
  backup_frame w w' /\
  (forall x, 0 <= x < 64 * Z.of_nat k -> nor_mem w' (BACKUP_OFFSET + x) = flash_mem w (APP_ADDR + x)) /\
  erased (nor_mem w') (BACKUP_OFFSET + 64 * Z.of_nat k) (APP_SIZE - 64 * Z.of_nat k).

Lemma backup_round_spec w k w1 : (k < Z.to_nat (APP_SIZE / 64))%nat -> backup_inv w k w1 ->
  wp (backup_round (0 + Z.of_nat k * 64)) (fun r w' => match r with
    | Some e => e = 1 /\ backup_frame w w'
    | None => backup_inv w (S k) w' end) w1.
Proof.
  intros Hk (Hf & Hc & He). unfold APP_SIZE in Hk. change (1048576 / 64) with 16384 in Hk.
  replace (0 + Z.of_nat k * 64) with (64 * Z.of_nat k) by lia. set (i := 64 * Z.of_nat k) in *.
  unfold backup_round.
  assert (Hq : quietly (if negb (i =? 0) && (i mod (128 * 1024) =? 0) then BSP_QSPI_Init
                        else ret QSPI_OK))
    by (apply quietly_if; auto using quiet_BSP_QSPI_Init with hal).
  wp_call (Hq w1) as u w2 [Hf2 Hn2]. apply wp_bind, wp_gets.
  set (tmp := mem_read (flash_mem w2) (APP_ADDR + i) 64).
  assert (Hl : length tmp = 64%nat) by apply mem_read_length.
  assert (Hb : bytes tmp) by apply flash_read_bytes.
  wp_call (backup_chunk_spec tmp i w2 Hl Hb ltac:(lia) ltac:(unfold APP_SIZE; lia)) as ok w3 (Hf3 & Hu3 & Hp3).
  assert (Hfr : backup_frame w w3).
  { destruct Hf as [Hfa Hfb]. split; [do 2 (etrans; [eassumption|]); done|].
    intros x Hx. unfold APP_SIZE in Hx. rewrite Hu3 by lia. rewrite Hn2. apply Hfb. unfold APP_SIZE. lia. }
  destruct ok; cbn [negb].
  2: { wp_call (quiet_BSP_QSPI_Init w3) as u' w4 Hq4. apply wp_ret. split; [done|].
       etrans; [exact Hfr|by apply quiet_backup]. }
  apply wp_ret. specialize (Hp3 eq_refl).
  assert (Hh : holds (nor_mem w3) (BACKUP_OFFSET + i) tmp).
  { eapply programmed_erased; [done| |exact Hp3]. rewrite Hl. intros x Hx. rewrite Hn2.
    apply He. unfold APP_SIZE. lia. }
  split; [done|]. split.
  - intros x Hx. destruct (Z.lt_ge_cases x i).
    + rewrite Hu3, Hn2 by lia. apply Hc. lia.
    + specialize (Hh (x - i) ltac:(lia)). unfold tmp in Hh. rewrite mem_read_lookup in Hh by lia.
      injection Hh as Hh. replace (BACKUP_OFFSET + x) with (BACKUP_OFFSET + i + (x - i)) by lia.
      rewrite <- Hh, Hf2. replace (APP_ADDR + i + Z.of_nat (Z.to_nat (x - i))) with (APP_ADDR + x) by lia.
      apply Hf.
  - intros x Hx. unfold APP_SIZE in *. rewrite Hu3 by lia. rewrite Hn2. apply He. unfold APP_SIZE. lia.
Qed.

(** [None] means that the area holds the old application. *)
Lemma backup_app_spec w :
  wp backup_app (fun r w' => backup_frame w w' /\ match r with
    | Some e => e = 1
    | None => forall x, 0 <= x < APP_SIZE ->
                nor_mem w' (BACKUP_OFFSET + x) = flash_mem w (APP_ADDR + x) end) w.
Proof.
  unfold backup_app.
  wp_call (QSPI_Erase_Blocks_spec BACKUP_OFFSET APP_SIZE eq_refl eq_refl ltac:(done) ltac:(done)
    ltac:(unfold BACKUP_OFFSET, APP_SIZE, QSPI_FLASH_SIZE; lia) w) as r w1 (_ & Hf1 & Hu1 & He1).
  assert (Hf : backup_frame w w1) by (by split).
  destruct (Z.eqb_spec r 0) as [E|]; cbn [negb]; [|by apply wp_ret].
  specialize (He1 E).
  eapply wp_mono; [apply (wp_for_each _ _ _ _ (backup_inv w) (fun e w' => e = 1 /\ backup_frame w w'))|].
  - intros k w2. apply backup_round_spec.
  - split; [done|]. split; [lia|]. rewrite Z.mul_0_r, Z.add_0_r, Z.sub_0_r. done.
  - cbv beta. intros [e|] w2; [intros [-> H]; by split|]. intros (H1 & H2 & _). split; [done|].
    intros x Hx. apply H2. unfold APP_SIZE in *. change (1048576 / 64) with 16384. lia.
Qed.
End BackupSpec.

(** ** Erasing and programming Bank2 *)
Section ProgramSpec.
Context {W : Type} `{!HalOps W} `{!HalView W} `{!HalLaws W}.
Implicit Types (w : W).

(** Only Bank2 may change. *)
Definition bank2_frame w w' : Prop :=
  same_nor w w' /\ unchanged_off APP_ADDR APP_SIZE (flash_mem w) (flash_mem w').

#[export] Instance bank2_frame_preorder : PreOrder bank2_frame.
Proof. split; [by split|]. intros w1 w2 w3 [H1 H2] [H3 H4]. split; etrans; eassumption. Qed.

Lemma quiet_bank2 w w' : quiet w w' -> bank2_frame w w'.
Proof. intros [H1 H2]. split; [done|]. auto with memory. Qed.

Lemma bank2_erase_spec m s w : 0 <= s < 8 ->
  wp (retry m (bank2_erase_try s)) (fun ok w' => same_nor w w' /\
    unchanged_off (APP_ADDR + s * 131072) 131072 (flash_mem w) (flash_mem w') /\
    (ok = true -> erased (flash_mem w') (APP_ADDR + s * 131072) 131072)) w.
Proof.
  intros Hs. set (a := APP_ADDR + s * 131072).
  set (P := fun w' => same_nor w w' /\ unchanged_off a 131072 (flash_mem w) (flash_mem w')).
  assert (HPq : forall w1 w2, P w1 -> quiet w1 w2 -> P w2).
  { intros w1 w2 [H1 H2] [H3 H4]. split; [etrans; eassumption|].
    intros x Hx. rewrite H3. by apply H2. }
  eapply wp_mono; [apply (wp_retry _ _ P
    (fun w' => P w' /\ erased (flash_mem w') a 131072))|].
  - intros w1 H1. unfold bank2_erase_try.
    wp_call (quietly_wait_while (Z.to_nat 1000000) _ quiet_SR2 w1) as u w2 Hq2. apply wp_bind, wp_modify.
    assert (H3 : P (HAL_FLASH_CLEAR_ERRORS w2)) by (eapply HPq; [by eapply HPq|auto with hal]).
    revert H3. generalize (HAL_FLASH_CLEAR_ERRORS w2). intros w3 H3.
    wp_call (law_flash_erase FLASH_BANK_2 s w3) as st w4 (Hn4 & Hu4 & He4).
    change (sector_base FLASH_BANK_2 s) with a in *. change FLASH_SECTOR_SIZE with 131072 in *.
    assert (H4 : P w4) by (destruct H3; split; etrans; eassumption).
    destruct st; cbn [hal_ok negb].
    1: by apply wp_ret; split; [|by apply He4].
    all: wp_call (quietly_wait_while (Z.to_nat 3000000) _ quiet_SR2 w4) as u' w5 Hq5; apply wp_ret;
      by eapply HPq.
  - by split.
  - intros [] w'; [intros [[H1 H2] H3]|intros [H1 H2]]; (split; [done|]); by split.
Qed.

(** The sectors that hold the first [n] bytes of Bank2. *)
Definition erased_len (n : Z) : Z := (n + 131071) / 131072 * 131072.

Lemma erased_len_bound n : 0 <= n <= APP_SIZE -> n <= erased_len n <= APP_SIZE /\ erased_len n mod 32 = 0.
Proof. unfold erased_len, APP_SIZE. intros H. Z.to_euclidean_division_equations. lia. Qed.

Lemma bank2_erase_round_spec n s w : 0 <= s < 8 -> 0 <= n <= APP_SIZE ->
  wp (bank2_erase_round n s) (fun r w' =>
    if decide (n <= s * 131072) then r = Some None /\ w' = w
    else same_nor w w' /\
      unchanged_off (APP_ADDR + s * 131072) 131072 (flash_mem w) (flash_mem w') /\
      (r = Some (Some 1) \/
       r = None /\ erased (flash_mem w') (APP_ADDR + s * 131072) 131072)) w.
Proof.
  intros Hs Hn. unfold bank2_erase_round. unwrap. case_decide.
  { rewrite (proj2 (Z.leb_le _ _)) by done. by apply wp_ret. }
  rewrite (proj2 (Z.leb_gt _ _)) by lia.
  wp_call (bank2_erase_spec 8 s w Hs) as ok w1 (H1 & H2 & H3). destruct ok; cbn [negb].
  - wp_call (quietly_wait_while (Z.to_nat 1000000) _ quiet_SR2 w1) as u w2 [Hf Hnr]. apply wp_ret.
    split; [etrans; eassumption|]. split; [intros x Hx; rewrite Hf; by apply H2|]. right.
    split; [done|]. intros x Hx. rewrite Hf. by apply H3.
  - apply wp_bind, wp_modify, wp_ret. destruct (quiet_Lock w1) as [Hf Hnr].
    split; [etrans; eassumption|]. split; [intros x Hx; rewrite Hf; by apply H2|by left].
Qed.

(** The erase loop: [None] and the [break] both leave all needed sectors erased. *)
Lemma bank2_erase_loop n w : 0 <= n <= APP_SIZE ->
  wp (for_each 8 0 1 (bank2_erase_round n)) (fun r w' => same_nor w w' /\
    unchanged_off APP_ADDR (erased_len n) (flash_mem w) (flash_mem w') /\
    match r with
    | Some (Some e) => e = 1
    | _ => erased (flash_mem w') APP_ADDR (erased_len n)
    end) w.
Proof.
  intros Hn.
  set (F := fun w' => same_nor w w' /\ unchanged_off APP_ADDR (erased_len n) (flash_mem w) (flash_mem w')).
  eapply wp_mono; [apply (wp_for_each _ _ _ _
    (fun k w' => F w' /\ Z.of_nat k * 131072 <= erased_len n /\
       erased (flash_mem w') APP_ADDR (Z.of_nat k * 131072))
    (fun r w' => F w' /\ (r = Some 1 \/ r = None /\ erased (flash_mem w') APP_ADDR (erased_len n))))|].
  - intros k w1 Hk ([H1 H2] & H3 & H4). replace (0 + Z.of_nat k * 1) with (Z.of_nat k) by lia.
    eapply wp_mono; [apply bank2_erase_round_spec; [lia|done]|]. cbv beta. intros r w2 H.
    case_decide as Hd.
    + destruct H as [-> ->]. split; [by split|]. right. split; [done|].
      replace (erased_len n) with (Z.of_nat k * 131072); [done|].
      unfold erased_len in *. Z.to_euclidean_division_equations. lia.
    + assert (Hin : Z.of_nat (S k) * 131072 <= erased_len n)
        by (unfold erased_len; Z.to_euclidean_division_equations; lia).
      destruct H as (H5 & H6 & H7).
      assert (HF : F w2).
      { split; [etrans; eassumption|]. etrans; [exact H2|].
        eapply unchanged_off_weaken; [| |exact H6]; lia. }
      destruct H7 as [->|[-> H7]]; [by split; [|left]|]. split; [done|]. split; [done|].
      intros x Hx. destruct (Z.lt_ge_cases x (APP_ADDR + Z.of_nat k * 131072)).
      * rewrite H6 by lia. apply H4. lia.
      * apply H7. lia.
  - split; [by split|]. split; [unfold erased_len; Z.to_euclidean_division_equations; lia|].
    intros x Hx. lia.
  - cbv beta. intros [r|] w1.
    + intros [[H1 H2] H3]. split; [done|]. split; [done|]. by destruct H3 as [->|[-> H3]].
    + intros ([H1 H2] & H3 & H4). split; [done|]. split; [done|].
      intros x Hx. apply H4. unfold erased_len, APP_SIZE in *. Z.to_euclidean_division_equations. lia.
Qed.

(** A rejected program operation is not performed, so the attempts start from the
    erased word. *)
Lemma program_word_spec a d w :
  a mod FLASHWORD = 0 -> length d = 32%nat -> bytes d -> erased (flash_mem w) a FLASHWORD ->
  wp (retry 3 (program_try a d)) (fun ok w' => same_nor w w' /\
    unchanged_off a FLASHWORD (flash_mem w) (flash_mem w') /\
    (ok = true -> holds (flash_mem w') a d)) w.
Proof.
  intros Ha Hl Hb He.
  eapply wp_mono; [apply (wp_retry _ _ (quiet w)
    (fun w' => same_nor w w' /\ unchanged_off a FLASHWORD (flash_mem w) (flash_mem w') /\
       holds (flash_mem w') a d))|].
  - intros w1 [Hf1 Hn1]. unfold program_try.
    wp_call (law_flash_program a d w1 Ha ltac:(rewrite Hl; done) Hb) as st w2 (Hn2 & Hu2 & Hrej & Hok).
    destruct (decide (st = HAL_OK)) as [->|Hne].
    + apply wp_ret. split; [etrans; eassumption|].
      split; [intros x Hx; rewrite Hu2 by done; apply Hf1|]. apply Hok; [done|].
      intros x Hx. rewrite Hf1. by apply He.
    + replace (hal_ok st) with false by (by destruct st). apply wp_bind, wp_modify, wp_ret.
      destruct (quiet_CLEAR_ERRORS w2) as [Hf3 Hn3].
      split; [etrans; [exact Hf1|]; etrans; [by apply Hrej|done]|etrans; [exact Hn1|]; etrans; eassumption].
  - reflexivity.
  - intros [] w'; [tauto|]. intros [Hf Hn]. split; [done|]. split; [auto with memory|discriminate].
Qed.

(** [o] bytes of the image are in place; the rest of the erased area is blank. *)
Definition prog_inv (n : Z) w (o : Z) w' : Prop :=
  bank2_frame w w' /\
  forall x, 0 <= x < erased_len n ->
    flash_mem w' (APP_ADDR + x) = if decide (x < o) then nor_mem w x else 0xFF.

(** The 32-byte buffer: the chunk read from the staging area, padded with 0xFF. *)
Lemma wbuf_lookup (l : list Z) c i :
  length l = c -> (c <= 32)%nat -> (i < 32)%nat ->
  take 32 (take c l ++ replicate 32 0xFF) !! i
    = Some (if decide (i < c)%nat then l !!! i else 0xFF).
Proof.
  intros Hl Hc Hi. rewrite lookup_take_lt by done. rewrite (take_ge l) by lia. case_decide.
  - rewrite lookup_app_l by lia. apply list_lookup_lookup_total_lt. lia.
  - rewrite lookup_app_r by lia. apply lookup_replicate_2. lia.
Qed.

Lemma wbuf_length (l : list Z) c : length l = c -> (c <= 32)%nat ->
  length (take 32 (take c l ++ replicate 32 0xFF)) = 32%nat.
Proof. intros Hl Hc. rewrite length_take, length_app, length_take, length_replicate. lia. Qed.

Lemma wbuf_bytes (l : list Z) c : bytes l -> bytes (take 32 (take c l ++ replicate 32 0xFF)).
Proof.
  intros H. apply Forall_take, Forall_app_2; [by apply Forall_take|].
  apply Forall_replicate. unfold is_byte. lia.
Qed.

Lemma program_round_spec n o w w1 :
  0 <= n <= APP_SIZE -> 0 <= o < n -> o mod 32 = 0 -> prog_inv n w o w1 ->
  wp (program_round (APP_ADDR + o, n - o)) (fun r w' => match r with
    | inl v => exists o', v = (APP_ADDR + o', n - o') /\ o < o' <= n /\
                 (o' mod 32 = 0 \/ o' = n) /\ prog_inv n w o' w'
    | inr e => e = 1 /\ bank2_frame w w' end) w1.
Proof.
  intros Hn Ho Hal [Hf Hp]. destruct (erased_len_bound n Hn) as [Hel Hem]. unfold APP_SIZE in *.
  unfold program_round, FLASHWORD, OTA_STAGING_ADDR.
  set (c := if 32 <=? n - o then 32 else n - o).
  assert (Hc : 0 < c <= 32 /\ o + c <= n /\ (c < 32 -> o + c = n))
    by (unfold c; destruct (Z.leb_spec 32 (n - o)); lia).
  replace (APP_ADDR + o -% APP_ADDR) with o by (rewrite u32_small; lia).
  wp_call (BSP_QSPI_Read_spec (0 + o) c w1 ltac:(lia) ltac:(lia) ltac:(unfold QSPI_FLASH_SIZE; lia))
    as rd w2 (Hq2 & _ & Hrd).
  assert (Hf2 : bank2_frame w w2) by (etrans; [exact Hf|by apply quiet_bank2]).
  destruct (Z.eqb_spec rd.1 QSPI_OK) as [E|]; cbn [negb].
  2: { apply wp_bind, wp_modify, wp_ret. split; [done|]. etrans; [exact Hf2|]. apply quiet_bank2, quiet_Lock. }
  rewrite (Hrd E). set (l := mem_read (nor_mem w1) (0 + o) (Z.to_nat c)).
  assert (Hl : length l = Z.to_nat c) by apply mem_read_length.
  set (wbuf := take 32 _).
  apply wp_bind, wp_modify. pose proof (quiet_CLEAR_ERRORS w2) as Hq3.
  revert Hq3. generalize (HAL_FLASH_CLEAR_ERRORS w2). intros w3 Hq3.
  assert (Hq13 : quiet w1 w3) by (etrans; eassumption).
  assert (He3 : erased (flash_mem w3) (APP_ADDR + o) FLASHWORD).
  { unfold FLASHWORD. intros x Hx. rewrite (proj1 Hq13). replace x with (APP_ADDR + (x - APP_ADDR)) by lia.
    rewrite Hp, decide_False; [done|lia|]. Z.to_euclidean_division_equations. lia. }
  wp_call (program_word_spec (APP_ADDR + o) wbuf w3
    ltac:(unfold APP_ADDR, FLASHWORD; Z.to_euclidean_division_equations; lia)
    ltac:(apply wbuf_length; lia) ltac:(apply wbuf_bytes, nor_read_bytes) He3) as ok w4 (Hn4 & Hu4 & Hh4).
  assert (Hin : o + 32 <= erased_len n) by (Z.to_euclidean_division_equations; lia).
  assert (Hf4 : bank2_frame w w4).
  { etrans; [exact Hf|]. etrans; [by apply quiet_bank2|]. split; [done|].
    eapply unchanged_off_weaken; [| |exact Hu4]; unfold FLASHWORD, APP_SIZE; lia. }
  destruct ok; cbn [negb]; [apply wp_ret|apply wp_bind, wp_modify, wp_ret].
  2: { split; [done|]. etrans; [exact Hf4|]. apply quiet_bank2, quiet_Lock. }
  exists (o + c). unfold APP_ADDR at 1 2. unwrap.
  split; [f_equal; unfold APP_ADDR; lia|]. split; [lia|].
  split; [Z.to_euclidean_division_equations; lia|]. split; [done|]. intros x Hx.
  destruct (decide (o <= x < o + 32)) as [Hx'|Hx'].
  - specialize (Hh4 eq_refl (x - o)). unfold wbuf in Hh4 at 1. rewrite wbuf_length in Hh4 by lia.
    specialize (Hh4 ltac:(lia)). unfold wbuf in Hh4. rewrite wbuf_lookup in Hh4 by lia.
    injection Hh4 as Hh4. replace (APP_ADDR + o + (x - o)) with (APP_ADDR + x) in Hh4 by lia.
    rewrite <- Hh4. case_decide as Hd1; case_decide as Hd2; [|lia|lia|done].
    unfold l. rewrite mem_read_lookup_total by lia. rewrite (proj1 Hf). f_equal. lia.
  - rewrite Hu4 by (unfold FLASHWORD; lia). rewrite (proj1 Hq13), Hp by done.
    case_decide; case_decide; lia || done.
Qed.

Lemma program_loop_spec n w w1 : 0 <= n <= APP_SIZE -> prog_inv n w 0 w1 ->
  wp (while (Datatypes.S (Z.to_nat n)) (fun v => 0 <? v.2) program_round (APP_ADDR, n))
     (fun x w' => match x with
        | inl _ => prog_inv n w n w'
        | inr e => e = 1 /\ bank2_frame w w' end) w1.
Proof.
  intros Hn Hi. eapply wp_mono;
    [apply (wp_while _ _ _ (fun (v : Z * Z) _ => Z.to_nat v.2)
      (fun v w' => exists o, v = (APP_ADDR + o, n - o) /\ 0 <= o <= n /\
         (o mod 32 = 0 \/ o = n) /\ prog_inv n w o w')
      (fun e w' => e = 1 /\ bank2_frame w w'))|].
  - intros v w2 (o & -> & Ho & Hal & Hp) Hc. cbn in Hc. apply Z.ltb_lt in Hc.
    eapply wp_mono; [apply (program_round_spec n o w w2); auto; lia|]. cbv beta.
    intros [v|e] w3; [|done]. intros (o' & -> & Ho' & Hal' & Hp'). split; [|cbn; lia].
    exists o'. split; [done|]. split; [lia|]. by split.
  - exists 0. split; [f_equal; lia|]. split; [lia|]. split; [by left|done].
  - cbn. lia.
  - cbv beta. intros [v|e] w2; [|done]. intros [(o & -> & Ho & _ & Hp) Hc]. cbn in Hc.
    apply Z.ltb_ge in Hc. by replace o with n in Hp by lia.
Qed.

(** [None] means that Bank2 holds the staged image, padded with 0xFF. *)
Lemma program_app_spec n w : 0 <= n <= APP_SIZE ->
  wp (program_app n) (fun r w' => bank2_frame w w' /\ match r with
    | Some e => e = 1
    | None => forall x, 0 <= x < erased_len n ->
        flash_mem w' (APP_ADDR + x) = if decide (x < n) then nor_mem w x else 0xFF end) w.
Proof.
  intros Hn. destruct (erased_len_bound n Hn) as [Hel _]. apply wp_bind, wp_modify.
  pose proof (quiet_bank2 _ _ (quiet_Unlock w)) as H0. pose proof (quiet_Unlock w) as [_ Hn0].
  revert H0 Hn0. generalize (HAL_FLASH_Unlock w). intros w0 H0 Hn0.
  wp_call (bank2_erase_loop n w0 Hn) as r w1 (Hn1 & Hu1 & He1).
  assert (H1 : bank2_frame w w1).
  { etrans; [exact H0|]. split; [done|]. eapply unchanged_off_weaken; [| |exact Hu1]; lia. }
  assert (Hgo : erased (flash_mem w1) APP_ADDR (erased_len n) -> prog_inv n w 0 w1).
  { intros He. split; [done|]. intros x Hx. rewrite decide_False by lia. apply He. lia. }
  destruct r as [[e|]|]; [by apply wp_ret; rewrite He1| |];
    (apply wp_bind; eapply wp_mono; [by apply program_loop_spec; [|apply Hgo]|]);
    cbv beta; (intros [v|e] w2; [intros [Hf Hp]|intros [-> Hf]; by apply wp_ret]);
    apply wp_bind, wp_modify, wp_ret; destruct (quiet_Lock w2) as [Hf3 Hn3];
    (split; [etrans; [exact Hf|apply quiet_bank2, quiet_Lock]|]);
    intros x Hx; rewrite Hf3; by apply Hp.
Qed.
End ProgramSpec.

(** ** The metadata records *)
Section MetaSpec.
Context {layout : MetaLayout}.
Implicit Types (m : Metadata).

Lemma meta_backup_wf m : meta_wf m -> meta_wf (meta_backup m).
Proof.
  intros H. unfold meta_backup.
  assert (Hs : forall f v m, meta_wf m -> is_u32 v -> meta_wf (set_fld f v m)) by (intros; by apply set_fld_wf).
  assert (Hg : forall f m, meta_wf m -> is_u32 (get_fld f m)) by (intros; by apply get_fld_u32).
  assert (Hc : forall m, meta_wf m -> is_u32 (crc32 m) /\ is_u32 (fw_size m)).
  { intros m' [Hw _]. unfold meta_words in Hw. cbn [app] in Hw.
    repeat (apply Forall_cons in Hw as [? Hw]). done. }
  repeat match goal with
         | |- meta_wf (set_fld _ _ _) => apply Hs
         | |- is_u32 (get_fld _ _) => apply Hg
         | |- is_u32 (crc32 _) => apply Hc
         | |- is_u32 (fw_size _) => apply Hc
         end; done.
Qed.

Definition ver_ok (ver : Z * Z * Z) : Prop := is_u32 ver.1.1 /\ is_u32 ver.1.2 /\ is_u32 ver.2.

Lemma meta_pending_wf ver crc n m : meta_wf m -> ver_ok ver -> is_u32 crc -> is_u32 n ->
  meta_wf (meta_pending ver crc n m).
Proof.
  destruct ver as [[vm vn] vp]. intros H (H1 & H2 & H3) Hc Hn. cbn in H1, H2, H3.
  apply set_state_wf; [|unfold is_u32, STATE_PENDING_UPDATE; lia].
  apply set_crc_wf; [|done..]. by repeat apply set_fld_wf.
Qed.

(** What the record written by [write_pending] says. *)
Definition pending_record (ver : Z * Z * Z) (crc n : Z) m : Prop :=
  state m = STATE_PENDING_UPDATE /\ crc32 m = crc /\ fw_size m = n /\
  (get_fld cur_major m, get_fld cur_minor m, get_fld cur_patch m) = ver /\
  (get_fld ota_major m, get_fld ota_minor m, get_fld ota_patch m) = ver.

Lemma meta_pending_record ver crc n m : meta_wf m -> ver_ok ver ->
  pending_record ver crc n (set_magic METADATA_MAGIC (meta_pending ver crc n m)).
Proof.
  destruct ver as [[vm vn] vp]. intros H%meta_words_length _.
  split; [done|]. split; [done|]. split; [done|]. unfold meta_pending. split; by fld_simpl.
Qed.

(** The record of what was backed up survives in the pending one. *)
Definition backup_record m0 m : Prop :=
  (get_fld bak_major m, get_fld bak_minor m, get_fld bak_patch m) =
    (get_fld cur_major m0, get_fld cur_minor m0, get_fld cur_patch m0) /\
  get_fld bak_crc32 m = crc32 m0 /\ get_fld bak_fw_size m = fw_size m0.
End MetaSpec.

(** ** The whole flow *)
Section FlashWriteSpec.
Context {N W : Type} `{!HalOps W} `{!HalView W} `{!HalLaws W} {layout : MetaLayout}.
Implicit Types (w : W) (ver : Z * Z * Z).

(** Bank2, the metadata sector and the backup area of the NOR flash may change. *)
Definition flash_write_frame w w' : Prop :=
  unchanged_off BACKUP_OFFSET APP_SIZE (nor_mem w) (nor_mem w') /\
  forall a, ~ (METADATA_ADDR <= a < METADATA_ADDR + FLASH_SECTOR_SIZE) ->
            ~ (APP_ADDR <= a < APP_ADDR + APP_SIZE) -> flash_mem w' a = flash_mem w a.

#[export] Instance flash_write_frame_preorder : PreOrder flash_write_frame.
Proof.
  split; [by split|]. intros w1 w2 w3 [H1 H2] [H3 H4]. split; [etrans; eassumption|].
  intros a Ha Hb. rewrite H4 by done. by apply H2.
Qed.

Lemma backup_write_frame w w' : backup_frame w w' -> flash_write_frame w w'.
Proof. intros [H1 H2]. split; [done|]. intros a _ _. apply H1. Qed.
Lemma meta_write_frame w w' : meta_frame w w' -> flash_write_frame w w'.
Proof. intros [H1 H2]. split; [by apply unchanged_off_nor|]. intros a Ha _. by apply H2. Qed.
Lemma bank2_write_frame w w' : bank2_frame w w' -> flash_write_frame w w'.
Proof. intros [H1 H2]. split; [by apply unchanged_off_nor|]. intros a _ Ha. by apply H2. Qed.

(** The metadata sector is outside Bank2. *)
Lemma meta_frame_bank2 w w' x : meta_frame w w' -> 0 <= x < APP_SIZE ->
  flash_mem w' (APP_ADDR + x) = flash_mem w (APP_ADDR + x).
Proof.
  intros [_ H] Hx. apply H. unfold APP_SIZE, APP_ADDR, METADATA_ADDR, FLASH_SECTOR_SIZE in *. lia.
Qed.

Lemma record_backup_spec w : wp record_backup (fun _ w' => meta_frame w w') w.
Proof.
  apply wp_bind, wp_Metadata_Read.
  wp_call (Metadata_Write_spec (meta_backup (metadata_of (flash_mem w))) w
             ltac:(apply meta_backup_wf, metadata_of_wf)) as r w1 (_ & H1 & _). by apply wp_ret.
Qed.

Lemma write_pending_spec ver crc n w : ver_ok ver -> is_u32 crc -> is_u32 n ->
  wp (write_pending ver crc n) (fun r w' => meta_frame w w' /\
    (r = 0 -> metadata_of (flash_mem w') =
       set_magic METADATA_MAGIC (meta_pending ver crc n (metadata_of (flash_mem w))))) w.
Proof.
  intros Hv Hc Hn. unfold write_pending. apply wp_bind, wp_Metadata_Read.
  eapply wp_mono; [apply Metadata_Write_spec, meta_pending_wf; auto; apply metadata_of_wf|].
  cbv beta. tauto.
Qed.

Definition bank2_same w w' : Prop :=
  forall x, 0 <= x < APP_SIZE -> flash_mem w' (APP_ADDR + x) = flash_mem w (APP_ADDR + x).
(** The NOR backup area holds the application that [w] has in Bank2. *)
Definition backed_up w w' : Prop :=
  forall x, 0 <= x < APP_SIZE -> nor_mem w' (BACKUP_OFFSET + x) = flash_mem w (APP_ADDR + x).
(** Bank2 of [w'] is the image staged in [w], padded with 0xFF. *)
Definition app_written (n : Z) w w' : Prop :=
  forall x, 0 <= x < erased_len n ->
    flash_mem w' (APP_ADDR + x) = if decide (x < n) then nor_mem w x else 0xFF.

Lemma flash_write_spec ver crc n w : ver_ok ver -> is_u32 crc -> 0 <= n <= APP_SIZE ->
  wp (flash_write ver crc n) (fun r w' => (r = 0 \/ r = 1) /\ flash_write_frame w w' /\
    (bank2_same w w' \/ backed_up w w') /\
    (r = 0 -> backed_up w w' /\ app_written n w w' /\
       pending_record ver crc n (metadata_of (flash_mem w')))) w.
Proof.
  intros Hv Hc Hn. destruct (erased_len_bound n Hn) as [Hel _].
  wp_call (backup_app_spec w) as b w1 [Hf1 Hb1]. destruct b as [e|].
  { subst e. apply wp_ret. split; [by right|]. split; [by apply backup_write_frame|].
    split; [left; intros x _; apply Hf1|discriminate]. }
  wp_call (record_backup_spec w1) as u w2 Hf2.
  assert (Hbk : forall w', same_nor w1 w' -> backed_up w w') by (intros w' H x Hx; rewrite H; by apply Hb1).
  assert (Hfr : flash_write_frame w w2)
    by (etrans; [by apply backup_write_frame|by apply meta_write_frame]).
  wp_call (program_app_spec n w2 Hn) as p w3 [Hf3 Hp3].
  assert (Hfr3 : flash_write_frame w w3) by (etrans; [exact Hfr|by apply bank2_write_frame]).
  assert (Hn13 : same_nor w1 w3) by (etrans; [apply Hf2|apply Hf3]).
  destruct p as [e|].
  { subst e. apply wp_ret. split; [by right|]. split; [done|]. split; [right; auto|discriminate]. }
  wp_call (write_pending_spec ver crc n w3 Hv Hc ltac:(unfold is_u32, APP_SIZE in *; lia)) as r w4 [Hf4 Hm4].
  assert (Hfr4 : flash_write_frame w w4) by (etrans; [exact Hfr3|by apply meta_write_frame]).
  assert (Hb4 : backed_up w w4) by (apply Hbk; etrans; [exact Hn13|apply Hf4]).
  destruct (Z.eqb_spec r 0) as [Er|]; cbn [negb]; apply wp_ret; (split; [by (left + right)|]);
    (split; [done|]); (split; [by right|]); [|discriminate]. intros _.
  split; [done|]. split.
  - intros x Hx. rewrite (meta_frame_bank2 w3 w4) by (done || lia). rewrite Hp3 by done.
    case_decide; [|done]. rewrite (proj1 Hf2). apply Hf1. unfold APP_SIZE, BACKUP_OFFSET in *. lia.
  - rewrite (Hm4 Er). apply meta_pending_record; [apply metadata_of_wf|done].
Qed.

(** The same on the state of the application. *)
Lemma OTA_Flash_Write_spec ver (s : ota_sys N W) :
  ver_ok ver -> is_u32 (ota_crc_expected (ota s)) -> 0 <= ota_received (ota s) <= APP_SIZE ->
  wp (OTA_Flash_Write ver) (fun r s' =>
    let n := ota_received (ota s) in
    net s' = net s /\ flash_write_frame (hw s) (hw s') /\
    (bank2_same (hw s) (hw s') \/ backed_up (hw s) (hw s')) /\
    (r = 1 /\ ota s' = ota s \/
     r = 0 /\ ota s' = set_ota_state OTA_STATE_DONE (ota s) /\
     backed_up (hw s) (hw s') /\ app_written n (hw s) (hw s') /\
     pending_record ver (ota_crc_expected (ota s)) n (metadata_of (flash_mem (hw s'))))) s.
Proof.
  intros Hv Hc Hn. apply wp_bind, wp_get_. cbn [id]. apply wp_bind, wp_on_hw.
  eapply wp_mono; [by apply flash_write_spec|]. cbv beta zeta.
  intros r w' (Hr & H1 & H2 & H3). destruct (Z.eqb_spec r 0) as [->|].
  - apply wp_bind, wp_set_, wp_ret. cbn [ota net hw]. split; [done|]. split; [done|]. split; [done|].
    right. split; [done|]. split; [done|]. by apply H3.
  - apply wp_ret. cbn [ota net hw]. split; [done|]. split; [done|]. split; [done|].
    left. split; [lia|by destruct s].
Qed.
End FlashWriteSpec.

(** ** On a device whose calls succeed *)
Section FlashWriteReliable.
Context {N W : Type} `{!HalOps W} `{!HalView W} `{!HalLaws W} {layout : MetaLayout}.
Context (G : W -> Prop) (HG : reliable G).
Implicit Types (w : W) (ver : Z * Z * Z).

Lemma backup_round_ok i w : 0 <= i -> i + 64 <= APP_SIZE -> G w ->
  wp (backup_round i) (fun r w' => r = None /\ G w') w.
Proof.
  intros H0 Hi H. unfold backup_round. apply wp_bind, (wp_mono _ (fun _ w' => G w')).
  { destruct (_ && _); [|by apply wp_ret]. eapply wp_mono; [by apply (Init_ok G HG)|]. by intros r w' [_ Hw]. }
  intros u w1 H1. apply wp_bind, wp_gets. set (tmp := mem_read _ _ _).
  assert (Hl : Z.of_nat (length tmp) = 64) by (unfold tmp; by rewrite mem_read_length).
  apply wp_bind. eapply wp_mono; [apply (wp_retry_first 3 _ G); [lia|]|].
  - unfold backup_try. rewrite <- Hl.
    wp_call (Write_ok G HG tmp (BACKUP_OFFSET + i) ltac:(unfold BACKUP_OFFSET; lia)
      ltac:(unfold BACKUP_OFFSET, APP_SIZE, QSPI_FLASH_SIZE in *; lia) w1 H1) as r w2 [-> H2].
    by apply wp_ret.
  - intros ok w2 [-> H2]. by apply wp_ret.
Qed.

Lemma backup_app_ok w : G w -> wp backup_app (fun r w' => r = None /\ G w') w.
Proof.
  intros H. unfold backup_app. wp_call (Erase_Blocks_ok G HG BACKUP_OFFSET APP_SIZE ltac:(done)
    ltac:(done) ltac:(unfold BACKUP_OFFSET, APP_SIZE, QSPI_FLASH_SIZE; lia) w H) as r w1 [-> H1].
  cbn [Z.eqb QSPI_OK negb].
  eapply wp_mono; [apply (wp_for_each _ _ _ _ (fun _ => G) (fun (_ : Z) _ => False)); [|done]|].
  - intros k w2 Hk H2. unfold APP_SIZE in Hk. change (1048576 / 64) with 16384 in Hk.
    eapply wp_mono; [apply backup_round_ok; unfold APP_SIZE; (done || lia)|].
    by intros r w3 [-> H3].
  - by intros [e|] w2.
Qed.

Lemma bank2_erase_round_ok n s w : G w ->
  wp (bank2_erase_round n s) (fun r w' => (r = None \/ r = Some None) /\ G w') w.
Proof.
  intros H. unfold bank2_erase_round. destruct (_ <=? _); [apply wp_ret; auto|].
  assert (Hwait : forall g w, G w -> wp (wait_while g FLASH_SR2_busy) (fun _ w' => G w') w).
  { intros g w' Hw. apply wp_wait_while; [apply (rel_SR2 G HG)|done]. }
  apply wp_bind. eapply wp_mono; [apply (wp_retry_first 8 _ G); [lia|]|].
  - unfold bank2_erase_try. wp_call (Hwait (Z.to_nat 1000000) w H) as u w1 H1.
    apply wp_bind, wp_modify. wp_call (rel_flash_erase G HG FLASH_BANK_2 s _ (rel_CLEAR_ERRORS G HG _ H1))
      as st w2 [-> H2]. by apply wp_ret.
  - intros ok w1 [-> H1]. cbn [negb]. wp_call (Hwait (Z.to_nat 1000000) w1 H1) as u w2 H2.
    apply wp_ret. auto.
Qed.

Lemma program_round_ok a n o w : G w -> 0 <= o < n -> n <= APP_SIZE -> a = APP_ADDR + o ->
  wp (program_round (a, n - o)) (fun r w' =>
    (exists o', r = inl (APP_ADDR + o', n - o') /\ o < o' <= n) /\ G w') w.
Proof.
  intros H Ho Hn ->. unfold program_round, FLASHWORD, APP_SIZE in *.
  set (c := if 32 <=? n - o then 32 else n - o).
  assert (Hc : 0 < c <= n - o) by (unfold c; destruct (Z.leb_spec 32 (n - o)); lia).
  assert (Hcm : c <= 32) by (unfold c; destruct (Z.leb_spec 32 (n - o)); lia).
  wp_call (Read_ok G HG (OTA_STAGING_ADDR + (APP_ADDR + o -% APP_ADDR)) c w H) as rd w1 [-> H1].
  cbn [Z.eqb QSPI_OK negb]. apply wp_bind, wp_modify.
  apply wp_bind. eapply wp_mono; [apply (wp_retry_first 3 _ G); [lia|]|].
  - unfold program_try. wp_call (rel_flash_program G HG (APP_ADDR + o)
      (take 32 (take (Z.to_nat c) rd.2 ++ replicate 32 0xFF)) _ (rel_CLEAR_ERRORS G HG _ H1)) as st w2 [-> H2].
    by apply wp_ret.
  - intros ok w2 [-> H2]. cbn [negb]. apply wp_ret. split; [|done]. exists (o + c).
    unfold APP_ADDR. unwrap. split; [|lia]. f_equal. f_equal; lia.
Qed.

Lemma program_app_ok n w : G w -> 0 <= n <= APP_SIZE ->
  wp (program_app n) (fun r w' => r = None /\ G w') w.
Proof.
  intros H Hn. apply wp_bind, wp_modify. pose proof (rel_Unlock G HG _ H) as H0.
  revert H0. generalize (HAL_FLASH_Unlock w). intros w0 H0.
  apply wp_bind. eapply wp_mono; [apply (wp_for_each _ _ _ _ (fun _ => G)
    (fun r w' => r = None /\ G w')); [|exact H0]|].
  { intros k w1 _ H1. eapply wp_mono; [by apply bank2_erase_round_ok|].
    by intros r w2 [[->| ->] H2]. }
  intros r w1 Hr. assert (H1 : G w1) by (destruct r; tauto).
  replace (match r with Some (Some r) => ret (Some r) | _ => _ end) with
    (x <- while (Datatypes.S (Z.to_nat n)) (fun v => 0 <? v.2) program_round (APP_ADDR, n) ;;
     match x with inr r => ret (Some r) | inl _ => modify HAL_FLASH_Lock ;;; ret None end)
    by (destruct r as [o|]; [destruct Hr as [-> _]|]; done).
  apply wp_bind. eapply wp_mono; [apply (wp_while _ _ _ (fun (v : Z * Z) _ => Z.to_nat v.2)
    (fun v w' => G w' /\ exists o, v = (APP_ADDR + o, n - o) /\ 0 <= o <= n)
    (fun (_ : Z) (_ : W) => False))|].
  - intros v w2 (H2 & o & -> & Ho) Hc. cbn in Hc. apply Z.ltb_lt in Hc.
    eapply wp_mono; [apply (program_round_ok _ n o); auto; lia|]. cbv beta.
    intros x w3 [(o' & -> & Ho') H3]. split; [|cbn; lia]. split; [done|]. exists o'. split; [done|lia].
  - split; [done|]. exists 0. split; [f_equal; lia|lia].
  - cbn. lia.
  - intros [v|e] w2; [|done]. intros [[H2 _] _]. apply wp_bind, wp_modify, wp_ret.
    split; [done|]. by apply (rel_Lock G HG).
Qed.

Lemma meta_backup_kept ver crc n m0 : meta_wf m0 ->
  backup_record m0 (set_magic METADATA_MAGIC
    (meta_pending ver crc n (set_magic METADATA_MAGIC (meta_backup m0)))).
Proof.
  destruct ver as [[vm vn] vp]. intros H%meta_words_length.
  unfold backup_record, meta_pending, meta_backup. split; [|split]; by fld_simpl.
Qed.

Lemma record_backup_ok w : G w -> wp record_backup (fun _ w' => G w' /\
  metadata_of (flash_mem w') = set_magic METADATA_MAGIC (meta_backup (metadata_of (flash_mem w)))) w.
Proof.
  intros H. apply wp_bind, wp_Metadata_Read.
  assert (Hwf : meta_wf (meta_backup (metadata_of (flash_mem w)))) by apply meta_backup_wf, metadata_of_wf.
  wp_call (wp_and _ _ _ _ (Metadata_Write_reliable G HG _ w Hwf H) (Metadata_Write_spec _ w Hwf))
    as r w1 [[Er H1] (_ & _ & Hm)]. apply wp_ret. split; [done|]. by apply Hm.
Qed.

Lemma bank2_frame_metadata w w' : bank2_frame w w' ->
  metadata_of (flash_mem w') = metadata_of (flash_mem w).
Proof.
  intros [_ H]. apply metadata_of_ext. intros a Ha. apply H.
  unfold METADATA_ADDR, APP_ADDR, APP_SIZE in *. lia.
Qed.

(** The update succeeds, and the record of the backed-up version is kept. *)
Lemma flash_write_ok ver crc n w : ver_ok ver -> is_u32 crc -> 0 <= n <= APP_SIZE -> G w ->
  wp (flash_write ver crc n) (fun r w' => r = 0 /\ G w' /\
    backup_record (metadata_of (flash_mem w)) (metadata_of (flash_mem w'))) w.
Proof.
  intros Hv Hc Hn H.
  wp_call (wp_and _ _ _ _ (backup_app_ok w H) (backup_app_spec w)) as b w1 [[-> H1] [Hf1 _]].
  wp_call (record_backup_ok w1 H1) as u w2 [H2 Hm2].
  wp_call (wp_and _ _ _ _ (program_app_ok n w2 H2 Hn) (program_app_spec n w2 Hn)) as p w3 [[-> H3] [Hf3 _]].
  assert (Hp : wp (write_pending ver crc n) (fun r w' => r = 0 /\ G w') w3).
  { apply wp_bind, wp_Metadata_Read. apply (Metadata_Write_reliable G HG); [|done].
    apply meta_pending_wf; auto; [apply metadata_of_wf|unfold is_u32, APP_SIZE in *; lia]. }
  wp_call (wp_and _ _ _ _ Hp (write_pending_spec ver crc n w3 Hv Hc
    ltac:(unfold is_u32, APP_SIZE in *; lia))) as r w4 [[-> H4] [_ Hm4]].
  cbn [Z.eqb negb]. apply wp_ret. split; [done|]. split; [done|].
  rewrite (Hm4 eq_refl), (bank2_frame_metadata _ _ Hf3), Hm2.
  replace (metadata_of (flash_mem w1)) with (metadata_of (flash_mem w))
    by (symmetry; apply metadata_of_ext; intros a _; apply Hf1).
  apply meta_backup_kept, metadata_of_wf.
Qed.
End FlashWriteReliable.


(** At the end of OTA_Flash_Write, whatever failed, either Bank2 is untouched or the old
    application is completely in the backup area; nothing outside Bank2, the backup area
    and the metadata sector changes. *)
Theorem flash_write_backup_first {N W} `{!HalOps W} `{!HalView W} `{!HalLaws W} {layout : MetaLayout}
    ver (s : ota_sys N W) :
  ver_ok ver -> is_u32 (ota_crc_expected (ota s)) -> 0 <= ota_received (ota s) <= APP_SIZE ->
  wp (OTA_Flash_Write ver) (fun _ s' =>
    (bank2_same (hw s) (hw s') \/ backed_up (hw s) (hw s')) /\ flash_write_frame (hw s) (hw s')) s.
Proof.
  intros Hv Hc Hn. eapply wp_mono; [by apply OTA_Flash_Write_spec|]. cbv beta zeta. tauto.
Qed.

(** On a reliable device OTA_Flash_Write succeeds for every image of up to the size of
    Bank2, and the metadata keeps version, CRC and size of the old application for a
    rollback. *)
Theorem flash_write_succeeds {W} `{!HalOps W} `{!HalView W} `{!HalLaws W} {layout : MetaLayout}
    (G : W -> Prop) ver crc n w :
  reliable G -> G w -> ver_ok ver -> is_u32 crc -> 0 <= n <= APP_SIZE ->
  wp (flash_write ver crc n) (fun r w' => r = 0 /\
    backup_record (metadata_of (flash_mem w)) (metadata_of (flash_mem w'))) w.
Proof.
  intros HG Hw Hv Hc Hn. eapply wp_mono; [by apply (flash_write_ok G)|]. cbv beta. tauto.
Qed.

(** A staged image, and a device in which some calls fail. *)
Definition staged_dev (faults : list bool) : dev :=
  mkDev (fun _ => 7) (mem_write (fun _ => 0xFF) 0 [1; 2; 3]) false None faults.
Definition confirm_sys (faults : list bool) : ota_sys unit dev :=
  mkSys (mkOta None None OTA_STATE_CONFIRM true 3 3 (CRC32_Calculate [1; 2; 3]) (fun _ => 0)
           (mem_write (fun _ => 0) 0 [1; 2; 3])) tt (staged_dev faults).

Lemma confirm_sys_ok f : is_u32 (ota_crc_expected (ota (confirm_sys f))) /\
  0 <= ota_received (ota (confirm_sys f)) <= APP_SIZE.
Proof. split; [apply CRC32_range|]. cbn. unfold APP_SIZE. lia. Qed.

Lemma demo_ver_ok : ver_ok (1, 2, 3).
Proof. unfold ver_ok, is_u32. cbn. lia. Qed.


Lemma flash_write_backup_first_witness :
  wp (OTA_Flash_Write (1, 2, 3)) (fun _ s' =>
    (bank2_same (staged_dev [false; true]) (hw s') \/ backed_up (staged_dev [false; true]) (hw s')) /\
    flash_write_frame (staged_dev [false; true]) (hw s')) (confirm_sys [false; true]).
Proof.
  exact (flash_write_backup_first (1, 2, 3) (confirm_sys [false; true]) demo_ver_ok
           (proj1 (confirm_sys_ok _)) (proj2 (confirm_sys_ok _))).
Defined.

Lemma flash_write_succeeds_witness :
  wp (flash_write (1, 2, 3) 99 3) (fun r w' => r = 0 /\
    backup_record (metadata_of (flash_mem (staged_dev []))) (metadata_of (flash_mem w'))) (staged_dev []).
Proof.
  apply (flash_write_succeeds fault_free); [exact sim_reliable|reflexivity|exact demo_ver_ok| |].
  - unfold is_u32. lia.
  - unfold APP_SIZE. lia.
Defined.
