(* ===== verification/OtaSystem.v ===== *)
(** * The OTA state machine and the end-to-end guarantees (ota/ota.c)

    The entry points of ota.c -- callbacks from the stack, calls from the main loop
    and the menu -- as the events of a transition system.  The stack and the
    hardware are arbitrary.  Proved: the transitions of [ota_state], an invariant of
    every reachable state, and the integrity of an installed image. *)
From stdpp Require Import relations.
From S2P Require Import Prelude Crc32 Hal SimDevice QspiFlash Metadata MetaLayout Net SimNet Ota OtaRecv OtaPoll OtaFlash.

Inductive ota_event :=
| EvStart | EvStop | EvReset | EvTrigger | EvSetCRC (crc : Z)
| EvAccept (p : pcb) | EvData (pc : pcb) (p : list (list Z)) | EvClose (pc : pcb) | EvErr
| EvPoll | EvFlash (ver : Z * Z * Z).

Section System.
Context {N W : Type} `{!TcpApi N} `{!HalOps W} `{!HalView W} `{!HalLaws W} {layout : MetaLayout}.
#[local] Abbreviation sys := (ota_sys N W).
Implicit Types (s : sys) (o : ota_t).

Definition run_event (e : ota_event) : M sys unit :=
  match e with
  | EvStart => OTA_Server_Start ;;; ret tt
  | EvStop => OTA_Server_Stop
  | EvReset => OTA_ResetState
  | EvTrigger => OTA_SendTrigger
  | EvSetCRC crc => OTA_SetExpectedCRC crc
  | EvAccept p => ota_accept_cb p ;;; ret tt
  | EvData pc p => ota_recv_cb pc (Some p) ;;; ret tt
  | EvClose pc => ota_recv_cb pc None ;;; ret tt
  | EvErr => ota_err_cb
  | EvPoll => OTA_Poll
  | EvFlash ver => OTA_Flash_Write ver ;;; ret tt
  end.

(** When the main loop and the menu make a call, and what the stack delivers. *)
Definition enabled (e : ota_event) (st : ota_state_t) : Prop :=
  match e with
  | EvSetCRC crc => is_u32 crc /\ st <> OTA_STATE_VERIFY /\ st <> OTA_STATE_CONFIRM
  | EvData _ p => chain_ok p /\ Forall bytes p
  | EvFlash ver => ver_ok ver /\ st = OTA_STATE_CONFIRM
  | _ => True
  end.

Inductive step : sys -> sys -> Prop :=
| step_event e s : enabled e (ota_state (ota s)) -> step s (run_event e s).2.

(** The transitions of [ota_state] that an event may make. *)
Definition allowed (e : ota_event) (st st' : ota_state_t) : Prop :=
  match e with
  | EvStart => st' = OTA_STATE_RECEIVING \/ st' = OTA_STATE_ERROR \/ st' = OTA_STATE_IDLE
  | EvStop | EvReset => st' = OTA_STATE_IDLE
  | EvTrigger | EvSetCRC _ => st' = st
  | EvAccept _ => st' = st \/ st = OTA_STATE_RECEIVING /\ st' = OTA_STATE_ERROR
  | EvData _ _ => st' = st \/ st' = OTA_STATE_ERROR
  | EvClose _ =>
      if decide (st = OTA_STATE_RECEIVING)
      then st' = OTA_STATE_VERIFY \/ st' = OTA_STATE_ERROR else st' = st
  | EvErr => st' = if decide (st = OTA_STATE_RECEIVING) then OTA_STATE_ERROR else st
  | EvPoll =>
      if decide (st = OTA_STATE_VERIFY)
      then st' = OTA_STATE_CONFIRM \/ st' = OTA_STATE_ERROR else st' = st
  | EvFlash _ => st' = st \/ st' = OTA_STATE_DONE
  end.

(** The C arrays hold bytes. *)
Definition arrays_ok o : Prop :=
  (forall a, is_byte (ota_stage o a)) /\ (forall a, is_byte (ota_buf o a)).

(** In CONFIRM the staging area starts with an image whose CRC is the announced one,
    at least as long as announced. *)
Definition staged_ok s : Prop :=
  exists n, ota_expected (ota s) <= n <= ota_received (ota s) /\
    CRC32_Calculate (mem_read (nor_mem (hw s)) 0 (Z.to_nat n)) = ota_crc_expected (ota s).

Definition sys_inv s : Prop :=
  ota_inv (ota s) /\ arrays_ok (ota s) /\ is_u32 (ota_crc_expected (ota s)) /\
  (ota_state (ota s) = OTA_STATE_VERIFY \/ ota_state (ota s) = OTA_STATE_CONFIRM ->
     ota_expected (ota s) <> 0 /\ ota_expected (ota s) <= ota_received (ota s)) /\
  (ota_state (ota s) = OTA_STATE_CONFIRM -> staged_ok s).

Lemma arrays_image o n : arrays_ok o -> bytes (mem_read (ota_buf o) 0 n).
Proof. intros [_ H]. by apply mem_read_bytes. Qed.

Lemma parse_round_arrays d o : bytes d -> arrays_ok o ->
  wp (ota_parse_round d) (fun x o' => match x with
    | inl d' => bytes d' /\ arrays_ok o' | inr _ => arrays_ok o' end) o.
Proof.
  intros Hd [H1 H2]. unfold wp, ota_parse_round. destruct (negb (ota_header_parsed o)).
  - set (t := if Z.of_nat (length d) <? _ then _ else _). cbn -[Z.add u32 OTA_MAGIC stage_word mem_write].
    assert (Hs : forall a, is_byte (mem_write (ota_stage o) (ota_received o) (take (Z.to_nat t) d) a))
      by (apply mem_write_bytes; [done|by apply Forall_take]).
    destruct (_ =? 8); [destruct (negb _)|]; cbn -[mem_write];
      unfold arrays_ok, bytes; cbn -[mem_write is_byte]; auto using Forall_drop.
  - cbn -[mem_write]. split; [apply Forall_nil_2|]. split; [done|]. by apply mem_write_bytes.
Qed.

Lemma recv_chain_arrays p o : Forall bytes p -> arrays_ok o ->
  wp (ota_recv_chain p) (fun _ o' => arrays_ok o') o.
Proof.
  intros Hp; revert o; induction Hp as [|q p Hq Hp IH]; intros o Ho; cbn [ota_recv_chain]; [by apply wp_ret|].
  assert (Hq' : wp (ota_recv_pbuf q) (fun _ o' => arrays_ok o') o).
  { apply wp_bind, wp_gets. cbn [id]. destruct (_ <? _); [by apply wp_bind, wp_modify, wp_ret|].
    apply wp_bind. eapply wp_mono; [apply (wp_while_inv _ _ _ (fun d o' => bytes d /\ arrays_ok o')
      (fun (_ : unit) o' => arrays_ok o'))|].
    - intros d o' [H1 H2]. by apply parse_round_arrays.
    - done.
    - intros [d|u] o' H; apply wp_ret; [apply H|done]. }
  wp_call Hq' as go o1 H1. destruct go; [by apply IH|by apply wp_ret].
Qed.

Lemma inv_image s : sys_inv s -> image_ok (ota s).
Proof. intros (H1 & H2 & _). split; [apply H1|by apply arrays_image]. Qed.

(** The two error paths of the stack. *)
Lemma err_cb_transition s :
  wp ota_err_cb (fun _ s' => ota_state (ota s') =
    (if decide (ota_state (ota s) = OTA_STATE_RECEIVING) then OTA_STATE_ERROR else ota_state (ota s)) /\
    same_data (ota s) (ota s') /\ hw s' = hw s) s.
Proof.
  destruct s as [o n w]. unfold ota_err_cb. apply wp_bind, wp_set_, wp_bind, wp_get_. cbn [ota net hw].
  destruct o as [sp cp st]. cbn. case_decide; [rewrite bool_decide_true by done|rewrite bool_decide_false by done];
    sys_steps; by cbn.
Qed.

Lemma tcp_abort_transition p s :
  wp (ota_tcp_abort p) (fun _ s' =>
    (ota_state (ota s') = ota_state (ota s) \/
     ota_state (ota s) = OTA_STATE_RECEIVING /\ ota_state (ota s') = OTA_STATE_ERROR) /\
    same_data (ota s) (ota s') /\ hw s' = hw s) s.
Proof.
  unfold ota_tcp_abort. apply wp_bind, wp_on_net_any. intros cb n.
  destruct (bool_decide _); [|apply wp_ret; split; [by left|done]].
  eapply wp_mono; [apply err_cb_transition|]. cbv beta. cbn [ota net hw]. intros _ s' [H1 H2].
  split; [|done]. case_decide; auto.
Qed.

Lemma accept_transition p s :
  wp (ota_accept_cb p) (fun _ s' =>
    (ota_state (ota s') = ota_state (ota s) \/
     ota_state (ota s) = OTA_STATE_RECEIVING /\ ota_state (ota s') = OTA_STATE_ERROR) /\
    same_data (ota s) (ota s') /\ hw s' = hw s) s.
Proof.
  unfold ota_accept_cb. apply wp_bind, wp_get_. destruct (ota_client_pcb (ota s)).
  - wp_call (tcp_abort_transition p s) as u s1 H. by apply wp_ret.
  - sys_steps. split; [by left|done].
Qed.

(** Closing decides between VERIFY and ERROR on the two counters. *)
Lemma close_transition pc s :
  wp (ota_recv_cb pc None) (fun _ s' => same_data (ota s) (ota s') /\ hw s' = hw s /\
    if decide (ota_state (ota s) = OTA_STATE_RECEIVING)
    then ota_state (ota s') = OTA_STATE_ERROR \/
         ota_state (ota s') = OTA_STATE_VERIFY /\ ota_expected (ota s) <> 0 /\
         ota_expected (ota s) <= ota_received (ota s)
    else ota_state (ota s') = ota_state (ota s)) s.
Proof.
  unfold ota_recv_cb. apply wp_bind, wp_set_, wp_bind, wp_on_net_any. intros e n. cbn [ota net hw].
  apply wp_bind. set (s0 := mkSys _ n _).
  apply (wp_mono _ (fun _ s' =>
    (ota_state (ota s') = ota_state (ota s) \/
     ota_state (ota s) = OTA_STATE_RECEIVING /\ ota_state (ota s') = OTA_STATE_ERROR) /\
    same_data (ota s) (ota s') /\ hw s' = hw s)).
  { destruct (negb (e =? ERR_OK)); [exact (tcp_abort_transition pc s0)|].
    apply wp_ret. split; [by left|done]. }
  intros _ s1 (H1 & Hd & H3). pose proof Hd as (K1 & K2 & K3 & K4). apply wp_bind, wp_get_. cbn [id].
  destruct (decide (ota_state (ota s1) = OTA_STATE_RECEIVING)) as [E|E].
  - rewrite bool_decide_true by done. assert (Hr : ota_state (ota s) = OTA_STATE_RECEIVING).
    { destruct H1 as [H1|[H1 _]]; [by rewrite <- H1|done]. }
    destruct (decide (ota_state (ota s) = OTA_STATE_RECEIVING)) as [_|]; [|done]. rewrite K2, K3.
    destruct (Z.eqb_spec (ota_expected (ota s)) 0), (Z.leb_spec (ota_expected (ota s)) (ota_received (ota s)));
      cbn [negb andb]; apply wp_bind, wp_set_, wp_ret; cbn; (split; [exact Hd|]);
      (split; [done|]); auto.
  - rewrite bool_decide_false by done. apply wp_bind, wp_ret, wp_ret.
    split; [exact Hd|]. split; [done|].
    destruct H1 as [H1|[H1 H2]].
    + rewrite decide_False; [done|]. by rewrite <- H1.
    + rewrite decide_True by done. by left.
Qed.

Lemma trigger_control s : wp OTA_SendTrigger (fun _ s' => ota s' = ota s /\ hw s' = hw s) s.
Proof. apply wp_on_net_any. by intros a n. Qed.

Lemma data_transition pc p s : ota_inv (ota s) -> chain_ok p ->
  wp (ota_recv_cb pc (Some p)) (fun _ s' => ota_inv (ota s') /\ recv_frame (ota s) (ota s') /\ hw s' = hw s /\
    (ota_state (ota s') = ota_state (ota s) \/ ota_state (ota s') = OTA_STATE_ERROR) /\
    (Forall bytes p -> arrays_ok (ota s) -> arrays_ok (ota s'))) s.
Proof.
  intros Hi Hp. apply wp_bind, wp_on_ota.
  eapply wp_mono; [apply wp_and; [by apply recv_chain_safe|]|].
  { apply (wp_intro _ (fun _ o' => Forall bytes p -> arrays_ok (ota s) -> arrays_ok o')).
    intros a o' E Hb Ha. exact (wp_run _ _ _ _ _ (recv_chain_arrays p _ Hb Ha) E). }
  cbv beta. intros _ o' [(H1 & H2 & H3) H4]. by sys_steps.
Qed.

Lemma event_transition e s : ota_inv (ota s) -> image_ok (ota s) ->
  is_u32 (ota_crc_expected (ota s)) -> enabled e (ota_state (ota s)) ->
  wp (run_event e) (fun _ s' => allowed e (ota_state (ota s)) (ota_state (ota s'))) s.
Proof.
  intros Hi Him Hcrc He. destruct e; cbn [run_event allowed].
  - wp_call (Server_Start_spec s) as r s1 (_ & _ & _ & _ & _ & _ & _ & _ & H). apply wp_ret. tauto.
  - eapply wp_mono; [apply Server_Stop_spec|]. cbv beta. tauto.
  - by apply wp_set_.
  - eapply wp_mono; [apply trigger_control|]. cbv beta. intros _ s' [-> _]. done.
  - by apply wp_set_.
  - wp_call (accept_transition p s) as r s1 [H _]. by apply wp_ret.
  - wp_call (data_transition pc p s Hi (proj1 He)) as r s1 (_ & _ & _ & H & _). by apply wp_ret.
  - wp_call (close_transition pc s) as r s1 (_ & _ & H). apply wp_ret. case_decide; [|done].
    destruct H as [H|[H _]]; auto.
  - eapply wp_mono; [apply err_cb_transition|]. cbv beta. tauto.
  - case_decide as E.
    + eapply wp_mono; [by apply poll_verify_spec|]. cbv beta. tauto.
    + eapply wp_mono; [by apply poll_idle_spec|]. cbv beta. by intros _ s' ->.
  - destruct He as [Hv _]. assert (Hn : 0 <= ota_received (ota s) <= APP_SIZE)
      by (destruct Hi; unfold OTA_BUF_SIZE, APP_SIZE in *; lia).
    wp_call (OTA_Flash_Write_spec ver s Hv Hcrc Hn) as r s1 (_ & _ & _ & H). apply wp_ret.
    destruct H as [[_ ->]|(_ & -> & _)]; [by left|by right].
Qed.

(** An event that keeps the data keeps the invariant, unless it enters VERIFY. *)
Lemma inv_control s s' : sys_inv s -> same_data (ota s) (ota s') -> hw s' = hw s ->
  (ota_state (ota s') = OTA_STATE_VERIFY -> ota_state (ota s) = OTA_STATE_VERIFY \/
     ota_expected (ota s) <> 0 /\ ota_expected (ota s) <= ota_received (ota s)) ->
  (ota_state (ota s') = OTA_STATE_CONFIRM -> ota_state (ota s) = OTA_STATE_CONFIRM) -> sys_inv s'.
Proof.
  intros (H1 & H2 & H3 & H4 & H5) (K1 & K2 & K3 & K4 & K5 & K6) Hw Hv Hc.
  unfold sys_inv, ota_inv, arrays_ok, staged_ok in *. rewrite K1, K2, K3, K4, K5, K6, Hw.
  repeat (split; [done|]). split; [|auto]. intros [H|H]; [|by auto].
  destruct (Hv H); auto.
Qed.

Lemma inv_event e s : sys_inv s -> enabled e (ota_state (ota s)) ->
  wp (run_event e) (fun _ s' => sys_inv s') s.
Proof.
  intros Hinv He. pose proof Hinv as (H1 & H2 & H3 & H4 & H5). pose proof (inv_image s Hinv) as Him.
  destruct e; cbn [run_event].
  - wp_call (Server_Start_spec s) as r s1 (_ & K1 & K2 & K3 & K4 & K5 & K6 & K7 & K8). apply wp_ret.
    unfold sys_inv, ota_inv, arrays_ok. rewrite K2, K3, K4, K5, K6, K7.
    split; [unfold OTA_BUF_SIZE; split; [lia|]; intros _; split; [lia|done]|].
    split; [done|]. split; [done|].
    assert (Hst : ota_state (ota s1) <> OTA_STATE_VERIFY /\ ota_state (ota s1) <> OTA_STATE_CONFIRM)
      by (destruct K8 as [[_ ->]|(_ & _ & [->| ->])]; done).
    split; [intros [H|H]; destruct Hst; done|intros H; destruct Hst; done].
  - eapply wp_mono; [apply Server_Stop_spec|]. cbv beta. intros _ s' (_ & _ & Hst & Hd & Hw).
    apply (inv_control s); auto; rewrite Hst; discriminate.
  - apply wp_set_. apply (inv_control s); [done..|discriminate|discriminate].
  - eapply wp_mono; [apply trigger_control|]. cbv beta. intros _ s' [E1 E2].
    apply (inv_control s); rewrite ?E1; auto; by repeat split.
  - apply wp_set_. destruct He as (Hcrc & Hv & Hc). split; [exact H1|]. split; [exact H2|].
    split; [exact Hcrc|]. cbn. split; [intros [H|H]; done|intros H; done].
  - wp_call (accept_transition p s) as r s1 (Hst & Hd & Hw). apply wp_ret.
    apply (inv_control s); auto; intros H; rewrite H in Hst;
      destruct Hst as [Hst|[_ Hst]]; by auto.
  - wp_call (data_transition pc p s H1 (proj1 He)) as r s1 (K1 & K2 & K3 & K4 & K5). apply wp_ret.
    specialize (K5 (proj2 He) H2). destruct K2 as (_ & _ & _ & _ & Hcrc & Hgrow).
    assert (Hst : forall st, ota_state (ota s1) = st -> st <> OTA_STATE_ERROR -> ota_state (ota s) = st).
    { intros st <- Hne. destruct K4 as [->|K4]; [done|]. by rewrite K4 in Hne. }
    assert (Hp : forall st, ota_state (ota s1) = st -> st = OTA_STATE_VERIFY \/ st = OTA_STATE_CONFIRM ->
      ota_expected (ota s1) = ota_expected (ota s) /\ ota_received (ota s) <= ota_received (ota s1) /\
      ota_expected (ota s) <> 0 /\ ota_expected (ota s) <= ota_received (ota s)).
    { intros st E Hor. apply Hst in E; [|by destruct Hor as [->| ->]].
      assert (Hex : ota_expected (ota s) <> 0 /\ ota_expected (ota s) <= ota_received (ota s))
        by (apply H4; rewrite E; done).
      destruct (ota_header_parsed (ota s)) eqn:Ep; [|destruct (proj2 H1 Ep); tauto].
      destruct (Hgrow eq_refl) as (_ & -> & ?). done. }
    unfold sys_inv. rewrite Hcrc. repeat (split; [done|]). split.
    + intros H. destruct (Hp _ eq_refl H) as (-> & ? & ? & ?). split; [done|lia].
    + intros H. destruct (Hp _ H ltac:(by right)) as (E & ? & ? & ?).
      destruct (H5 (Hst _ H ltac:(done))) as (n & Hn & Hcr). exists n. rewrite K3, E, Hcrc. split; [lia|done].
  - wp_call (close_transition pc s) as r s1 (Hd & Hw & Hst). apply wp_ret.
    apply (inv_control s); auto; intros H; rewrite H in Hst; destruct (decide (_ = _)); auto;
      destruct Hst as [Hst|[Hst ?]]; done || by right.
  - eapply wp_mono; [apply err_cb_transition|]. cbv beta. intros _ s1 (Hst & Hd & Hw).
    apply (inv_control s); auto; intros H; rewrite H in Hst; destruct (decide (_ = _)); auto; done.
  - destruct (decide (ota_state (ota s) = OTA_STATE_VERIFY)) as [E|E].
    + eapply wp_mono; [by apply poll_verify_spec|]. cbv beta. intros _ s1 (_ & [Hf _] & Ho & Hst & Hc).
      specialize (H4 (or_introl E)).
      unfold sys_inv, staged_ok. rewrite Ho. cbn. repeat (split; [done|]).
      intros H. exists (ota_received (ota s)). split; [lia|]. by apply Hc.
    + eapply wp_mono; [by apply poll_idle_spec|]. cbv beta. by intros _ s' ->.
  - destruct He as [Hv Hcf]. assert (Hn : 0 <= ota_received (ota s) <= APP_SIZE)
      by (destruct H1; unfold OTA_BUF_SIZE, APP_SIZE in *; lia).
    wp_call (OTA_Flash_Write_spec ver s Hv H3 Hn) as r s1 (_ & [Hnor _] & _ & H). apply wp_ret.
    destruct H as [[_ Ho]|(_ & Ho & _)]; unfold sys_inv, staged_ok; rewrite Ho.
    + repeat (split; [done|]). intros _. destruct (H5 Hcf) as (n & Hnb & Hcr). exists n.
      split; [done|]. rewrite <- Hcr. f_equal. apply mem_read_ext. intros x Hx. apply Hnor.
      destruct H1 as [H1 _]. unfold OTA_BUF_SIZE, BACKUP_OFFSET in *. lia.
    + repeat (split; [done|]). cbn. split; [intros [H|H]; done|done].
Qed.

(** Power-on values of the statics; the stack and the device are arbitrary. *)
Definition initial s : Prop :=
  ota_state (ota s) = OTA_STATE_IDLE /\ ota_header_parsed (ota s) = false /\
  ota_expected (ota s) = 0 /\ ota_received (ota s) = 0 /\ ota_crc_expected (ota s) = 0 /\
  (forall a, ota_stage (ota s) a = 0) /\ (forall a, ota_buf (ota s) a = 0).

Lemma initial_inv s : initial s -> sys_inv s.
Proof.
  intros (H1 & H2 & H3 & H4 & H5 & H6 & H7). unfold sys_inv, ota_inv, arrays_ok, is_u32.
  rewrite H1, H2, H3, H4, H5. unfold OTA_BUF_SIZE.
  split; [split; [lia|]; intros _; split; [lia|done]|]. unfold is_byte.
  split; [split; intros a; rewrite ?H6, ?H7; lia|]. split; [lia|].
  split; [intros [H|H]; done|done].
Qed.

Lemma reachable_inv s s' : initial s -> rtc step s s' -> sys_inv s'.
Proof.
  intros H0%initial_inv Hr. induction Hr as [s|s1 s2 s3 Hs _ IH]; [done|].
  apply IH. destruct Hs as [e s1 He]. pose proof (inv_event e s1 H0 He) as H.
  unfold wp in H. by destruct (run_event e s1).
Qed.

(** *** From the verification to the installation

    While the user is asked, the stack goes on delivering: any events that leave the
    state CONFIRM may come between [OTA_Poll] and [OTA_Flash_Write]. *)
Definition waits s s' : Prop := step s s' /\ ota_state (ota s') = OTA_STATE_CONFIRM.

(** The first [n] bytes of the staging area have the announced CRC [crc]. *)
Record confirmed (n crc : Z) s : Prop := {
  cf_inv : sys_inv s;
  cf_state : ota_state (ota s) = OTA_STATE_CONFIRM;
  cf_crc : ota_crc_expected (ota s) = crc;
  cf_received : 0 <= n <= ota_received (ota s);
  cf_staged : CRC32_Calculate (mem_read (nor_mem (hw s)) 0 (Z.to_nat n)) = crc
}.

Lemma confirmed_same n crc s s' : confirmed n crc s -> sys_inv s' -> ota_state (ota s') = OTA_STATE_CONFIRM ->
  same_data (ota s) (ota s') -> hw s' = hw s -> confirmed n crc s'.
Proof.
  intros [_ _ H3 H4 H5] Hi Hc (_ & _ & E1 & E2 & _ & _) Ew. constructor; rewrite ?E1, ?E2, ?Ew; done.
Qed.

(** In CONFIRM no event takes bytes away: data that arrives is appended, and a failed
    installation leaves the staging area as it is. *)
Lemma confirmed_event n crc e s : confirmed n crc s -> enabled e (ota_state (ota s)) ->
  wp (run_event e) (fun _ s' => sys_inv s' -> ota_state (ota s') = OTA_STATE_CONFIRM -> confirmed n crc s') s.
Proof.
  intros HJ He. pose proof HJ as [Hi Hcf Hcrc Hn Hst]. pose proof Hi as (H1 & H2 & H3 & H4 & _).
  destruct e; cbn [run_event].
  - wp_call (Server_Start_spec s) as r s1 (_ & _ & _ & _ & _ & _ & _ & _ & K). apply wp_ret. intros _ E.
    rewrite E in K. by destruct K as [[_ K]|(_ & _ & [K|K])].
  - eapply wp_mono; [apply Server_Stop_spec|]. cbv beta. intros _ s' (_ & _ & K & _) _ E. by rewrite E in K.
  - by apply wp_set_.
  - eapply wp_mono; [apply trigger_control|]. cbv beta. intros _ s' [E1 E2] Hi' E.
    apply (confirmed_same n crc s); rewrite ?E1; done.
  - destruct He as (_ & _ & []). done.
  - wp_call (accept_transition p s) as r s1 (_ & Hd & Hw). apply wp_ret. intros Hi' E. by apply (confirmed_same n crc s).
  - wp_call (data_transition pc p s H1 (proj1 He)) as r s1 (_ & (_ & _ & _ & _ & Kc & Kg) & Kw & _ & _). apply wp_ret.
    intros Hi' E. destruct (H4 (or_intror Hcf)) as [Hx _].
    assert (Hp : ota_header_parsed (ota s) = true)
      by (destruct (ota_header_parsed (ota s)) eqn:Ep; [done|]; destruct (proj2 H1 Ep); tauto).
    destruct (Kg Hp) as (_ & _ & Hg). constructor; rewrite ?Kc, ?Kw; done || lia.
  - wp_call (close_transition pc s) as r s1 (Hd & Hw & _). apply wp_ret. intros Hi' E. by apply (confirmed_same n crc s).
  - eapply wp_mono; [apply err_cb_transition|]. cbv beta. intros _ s1 (_ & Hd & Hw) Hi' E. by apply (confirmed_same n crc s).
  - eapply wp_mono; [apply poll_idle_spec; by rewrite Hcf|]. cbv beta. by intros _ s' ->.
  - destruct He as [Hv _]. assert (Hr : 0 <= ota_received (ota s) <= APP_SIZE)
      by (destruct H1; unfold OTA_BUF_SIZE, APP_SIZE in *; lia).
    wp_call (OTA_Flash_Write_spec ver s Hv H3 Hr) as r s1 (_ & [Hnor _] & _ & [[_ Ho]|(_ & Ho & _)]); apply wp_ret; intros Hi' E.
    + constructor; rewrite ?Ho; try done. rewrite <- Hst. f_equal. apply mem_read_ext. intros x Hx. apply Hnor.
      destruct H1 as [H1 _]. unfold OTA_BUF_SIZE, BACKUP_OFFSET in *. lia.
    + by rewrite Ho in E.
Qed.

Lemma confirmed_waits n crc s s' : confirmed n crc s -> rtc waits s s' -> confirmed n crc s'.
Proof.
  intros HJ Hr. induction Hr as [s|s1 s2 s3 [Hs Hc] _ IH]; [done|]. apply IH. destruct Hs as [e s1 He].
  pose proof (confirmed_event n crc e s1 HJ He) as H. pose proof (inv_event e s1 (cf_inv _ _ _ HJ) He) as Hi.
  unfold wp in H, Hi. destruct (run_event e s1) as [a s2]. by apply H.
Qed.

(** [OTA_Poll] in VERIFY confirms only what it has read back from the staging area. *)
Lemma poll_confirmed s : sys_inv s -> ota_state (ota s) = OTA_STATE_VERIFY ->
  ota_state (ota (OTA_Poll s).2) = OTA_STATE_CONFIRM ->
  confirmed (ota_received (ota s)) (ota_crc_expected (ota s)) (OTA_Poll s).2.
Proof.
  intros Hi Hst Hc. pose proof (poll_verify_spec s (inv_image s Hi) Hst) as H.
  pose proof (inv_event EvPoll s Hi I) as Hi'. cbn [run_event] in Hi'. unfold wp in H, Hi'.
  destruct (OTA_Poll s) as [a s1]. cbn [snd] in *. destruct H as (_ & _ & Ho & _ & Hcrc).
  destruct (Hcrc Hc) as [_ Hs]. destruct Hi as [[Hn _] _].
  assert (Ec : ota_crc_expected (ota s1) = ota_crc_expected (ota s)) by (rewrite Ho; reflexivity).
  assert (En : ota_received (ota s1) = ota_received (ota s)) by (rewrite Ho; reflexivity). clear Ho.
  constructor; [done..|lia|done].
Qed.

Lemma read_prefix m1 m2 a b (n k : nat) : mem_read m1 a k = mem_read m2 b k -> (n <= k)%nat ->
  mem_read m1 a n = mem_read m2 b n.
Proof.
  intros E Hn. apply list_eq. intros i. destruct (decide (i < n)%nat) as [Hi|Hi].
  - pose proof (f_equal (lookup i) E) as Hl. by rewrite !mem_read_lookup in Hl |- * by lia.
  - by rewrite !lookup_ge_None_2 by (rewrite mem_read_length; lia).
Qed.

Lemma install_confirmed ver n crc s : ver_ok ver -> confirmed n crc s ->
  wp (OTA_Flash_Write ver) (fun r s' => r = 0 -> let m := ota_received (ota s) in
    n <= m /\ mem_read (flash_mem (hw s')) APP_ADDR (Z.to_nat m) = mem_read (nor_mem (hw s)) 0 (Z.to_nat m) /\
    CRC32_Calculate (mem_read (flash_mem (hw s')) APP_ADDR (Z.to_nat n)) = crc /\
    backed_up (hw s) (hw s') /\ pending_record ver crc m (metadata_of (flash_mem (hw s')))) s.
Proof.
  intros Hv [Hi _ Hcrc Hn Hs]. assert (Hr : 0 <= ota_received (ota s) <= APP_SIZE)
    by (destruct Hi as [[Hr _] _]; unfold OTA_BUF_SIZE, APP_SIZE in *; lia).
  destruct (erased_len_bound _ Hr) as [Hel _]. assert (Hu : is_u32 (ota_crc_expected (ota s))) by apply Hi.
  eapply wp_mono; [by apply OTA_Flash_Write_spec|]. cbv beta zeta.
  intros r s' (_ & _ & _ & [[-> _]|(-> & _ & Hb & Ha & Hp)]); [done|]. intros _. rewrite Hcrc in Hp.
  assert (E : mem_read (flash_mem (hw s')) APP_ADDR (Z.to_nat (ota_received (ota s))) =
              mem_read (nor_mem (hw s)) 0 (Z.to_nat (ota_received (ota s)))).
  { apply list_eq. intros i. destruct (decide (i < Z.to_nat (ota_received (ota s)))%nat) as [Hlt|Hge].
    - rewrite !mem_read_lookup by done. f_equal. rewrite Ha by lia. by rewrite decide_True by lia.
    - rewrite !lookup_ge_None_2; rewrite ?mem_read_length; done || lia. }
  split; [lia|]. split; [exact E|]. split; [|done].
  rewrite <- Hs. f_equal. eapply read_prefix; [exact E|lia].
Qed.
End System.

(** C8. In every state that network callbacks, polls, installations and resets can reach
    from the start, the receive state is well formed; a VERIFY or CONFIRM state holds a
    non-empty complete image, and in CONFIRM the CRC of the staged copy in the NOR flash
    is the announced one. *)
Theorem ota_reachable {N W} `{!TcpApi N} `{!HalOps W} `{!HalView W} `{!HalLaws W} {layout : MetaLayout}
    (s s' : ota_sys N W) :
  initial s -> rtc step s s' ->
  ota_inv (ota s') /\
  (ota_state (ota s') = OTA_STATE_VERIFY \/ ota_state (ota s') = OTA_STATE_CONFIRM ->
     ota_expected (ota s') <> 0 /\ ota_expected (ota s') <= ota_received (ota s')) /\
  (ota_state (ota s') = OTA_STATE_CONFIRM ->
     exists n, ota_expected (ota s') <= n <= ota_received (ota s') /\
       CRC32_Calculate (mem_read (nor_mem (hw s')) 0 (Z.to_nat n)) = ota_crc_expected (ota s')).
Proof.
  intros H0 Hr. destruct (reachable_inv s s' H0 Hr) as (H1 & _ & _ & H2 & H3).
  split; [done|]. split; [done|]. exact H3.
Qed.

(** From every reachable state each event moves the receive state only along the allowed
    transitions of the protocol. *)
Theorem ota_transitions {N W} `{!TcpApi N} `{!HalOps W} `{!HalView W} `{!HalLaws W} {layout : MetaLayout}
    (s s' : ota_sys N W) e :
  initial s -> rtc step s s' -> enabled e (ota_state (ota s')) ->
  wp (run_event e) (fun _ s'' => allowed e (ota_state (ota s')) (ota_state (ota s''))) s'.
Proof.
  intros H0 Hr He. pose proof (reachable_inv s s' H0 Hr) as H. apply event_transition; [apply H| |apply H|done].
  by apply inv_image.
Qed.


(** Data that arrives in CONFIRM, after the image was verified, is still appended and
    the count of received bytes grows. *)
Theorem confirm_accepts_data {N W} `{!TcpApi N} pc q (s : ota_sys N W) :
  ota_state (ota s) = OTA_STATE_CONFIRM -> ota_header_parsed (ota s) = true -> (0 < length q)%nat ->
  0 <= ota_received (ota s) -> ota_received (ota s) + Z.of_nat (length q) <= OTA_BUF_SIZE ->
  wp (ota_recv_cb pc (Some [q])) (fun _ s' =>
    ota_state (ota s') = OTA_STATE_CONFIRM /\
    ota_received (ota s') = ota_received (ota s) + Z.of_nat (length q)) s.
Proof.
  intros Hst Hp Hq Hr Hsum. unfold OTA_BUF_SIZE in Hsum. apply wp_bind, wp_on_ota.
  apply (wp_mono _ (fun _ o' => ota_state o' = OTA_STATE_CONFIRM /\
    ota_received o' = ota_received (ota s) + Z.of_nat (length q))); [|intros; by sys_steps].
  cbn [ota_recv_chain]. apply wp_bind, wp_bind, wp_gets. cbn [id]. unfold OTA_BUF_SIZE. unwrap.
  destruct (Z.ltb_spec (512 * 1024) (ota_received (ota s) + Z.of_nat (length q))); [lia|].
  apply wp_bind. replace (2 * length q + 3)%nat with (S (S (2 * length q + 1))) by lia.
  cbn [while]. replace (0 <? Z.of_nat (length q)) with true by (symmetry; apply Z.ltb_lt; lia).
  apply wp_bind. unfold wp at 1, ota_parse_round. rewrite Hp. cbn -[Z.add u32 mem_write]. unwrap.
  by repeat apply wp_ret.
Qed.

Definition boot_sys : ota_sys snet dev :=
  mkSys (mkOta None None OTA_STATE_IDLE false 0 0 0 (fun _ => 0) (fun _ => 0)) net0 (staged_dev []).

Lemma boot_sys_initial : initial boot_sys.
Proof. by repeat split. Qed.

(** Start the server, connect a client. *)
Lemma boot_sys_run : rtc step boot_sys
  (run_event (EvAccept 7) (run_event EvStart boot_sys).2).2.
Proof.
  eapply rtc_l; [apply (step_event EvStart); exact I|].
  eapply rtc_l; [apply (step_event (EvAccept 7)); exact I|]. apply rtc_refl.
Qed.

Lemma ota_reachable_witness :
  ota_inv (ota (run_event (EvAccept 7) (run_event EvStart boot_sys).2).2).
Proof. exact (proj1 (ota_reachable _ _ boot_sys_initial boot_sys_run)). Defined.

Lemma ota_transitions_witness :
  wp (run_event (EvData 7 [[79; 84]])) (fun _ s'' => ota_state (ota s'') = OTA_STATE_RECEIVING \/
      ota_state (ota s'') = OTA_STATE_ERROR)
    (run_event (EvAccept 7) (run_event EvStart boot_sys).2).2.
Proof.
  refine (ota_transitions _ _ (EvData 7 [[79; 84]]) boot_sys_initial boot_sys_run _).
  split; [apply Forall_cons_2; [cbn; lia|apply Forall_nil_2]|].
  apply (bool_decide_unpack _). vm_compute. exact I.
Defined.

(** A whole update: the CRC announced, the server started, a client that sends the header
    and three bytes and closes; one more byte from it while the user is asked. *)
Definition run_events (es : list ota_event) (s : ota_sys snet dev) : ota_sys snet dev :=
  foldl (fun s e => (run_event e s).2) s es.
Definition update_events : list ota_event :=
  [EvSetCRC (CRC32_Calculate [1; 2; 3]); EvStart; EvAccept 7;
   EvData 7 [[0x4F; 0x54; 0x41; 0; 3; 0; 0; 0]; [1; 2; 3]]; EvClose 7].
Definition received_sys : ota_sys snet dev := run_events update_events boot_sys.
Definition asking_sys : ota_sys snet dev := run_events [EvData 7 [[9]]] (OTA_Poll received_sys).2.

Lemma demo_chain_ok (p : list (list Z)) :
  bool_decide (chain_ok p /\ Forall bytes p) = true -> chain_ok p /\ Forall bytes p.
Proof. apply bool_decide_eq_true_1. Qed.
Lemma received_run : rtc step boot_sys received_sys.
Proof.
  eapply rtc_l; [apply (step_event (EvSetCRC (CRC32_Calculate [1; 2; 3]))); split; [apply CRC32_range|split; discriminate]|].
  eapply rtc_l; [apply (step_event EvStart); exact I|].
  eapply rtc_l; [apply (step_event (EvAccept 7)); exact I|].
  eapply rtc_l; [apply (step_event (EvData 7 [[0x4F; 0x54; 0x41; 0; 3; 0; 0; 0]; [1; 2; 3]]));
    apply demo_chain_ok; vm_compute; reflexivity|].
  apply rtc_once, (step_event (EvClose 7)). exact I.
Qed.
Lemma asking_run : rtc waits (OTA_Poll received_sys).2 asking_sys.
Proof.
  apply rtc_once. split; [|vm_compute; reflexivity].
  apply (step_event (EvData 7 [[9]])). apply demo_chain_ok. vm_compute. reflexivity.
Qed.
Lemma asking_counts : ota_received (ota asking_sys) = 4 /\ ota_received (ota received_sys) = 3 /\
  ota_crc_expected (ota received_sys) = CRC32_Calculate [1; 2; 3].
Proof. vm_compute. done. Qed.


Lemma confirm_accepts_data_witness :
  wp (ota_recv_cb (TcpApi0:=closing_tcp) 7 (Some [[9]])) (fun _ s' =>
    ota_state (ota s') = OTA_STATE_CONFIRM /\ ota_received (ota s') = 3 + 1) (confirm_sys []).
Proof.
  apply (confirm_accepts_data (TcpApi0:=closing_tcp) 7 [9] (confirm_sys []));
    [reflexivity|reflexivity|cbn; lia|cbn; lia|cbn; unfold OTA_BUF_SIZE; lia].
Defined.
