(* ===== verification/Restore.v ===== *)
(** * Backup and restore of the application (menu/menu.c)

    [Backup_SlotA] (menu key 3), [Restore_SlotA] (menu key 4) and the copy loop that
    the latter shares, statement for statement, with [Boot_DoRollback].  Proved:
    a restore that reports success has copied the whole backup area into Bank2,
    whatever calls failed and were retried, and touches nothing else. *)
From S2P Require Import Prelude Hal SimDevice QspiFlash QspiReliable Metadata MetaLayout Ota OtaPoll OtaFlash.

Definition APP_RUN_ADDR : Z := 0x08100000.
Definition APP_SIZE_C : Z := 1 * 1024 * 1024.

Section Menu.
Context {W : Type} `{!HalOps W} {layout : MetaLayout}.

Definition QSPI_WaitIdle : M W unit := wait_while (Z.to_nat 1000000) QSPI_FLAG_BUSY.

Definition flash_word (w : W) (a : Z) : Z :=
  le32 (flash_mem w a) (flash_mem w (a + 1)) (flash_mem w (a + 2)) (flash_mem w (a + 3)).

(** *** [3] Backup *)

(** One 4096-byte chunk; no retry. *)
Definition slot_backup_round (off : Z) : M W (option unit) :=
  QSPI_WaitIdle ;;;
  buf <- gets (fun w => mem_read (flash_mem w) (APP_RUN_ADDR + off) 4096) ;;
  r <- BSP_QSPI_Write buf (BACKUP_OFFSET + off) 4096 ;;
  if negb (r =? QSPI_OK) then ret (Some tt) else ret None.

Definition Backup_SlotA : M W unit :=
  msp <- gets (fun w => flash_word w APP_RUN_ADDR) ;;
  if (msp =? 0xFFFFFFFF) || (msp =? 0) then ret tt else
  e <- QSPI_Erase_Blocks BACKUP_OFFSET APP_SIZE_C ;;
  if negb (e =? 0) then ret tt else
  r <- for_each (Z.to_nat (APP_SIZE_C / 4096)) 0 4096 slot_backup_round ;;
  match r with
  | Some _ => ret tt
  | None => record_backup
  end.

(** *** [4] Restore, and the copy of [Boot_DoRollback] *)

Definition restore_erase_round (s : Z) : M W (option Z) :=
  ok <- retry 4 (bank2_erase_try s) ;;
  if negb ok then modify HAL_FLASH_Lock ;;; ret (Some (-1)) else
  wait_while (Z.to_nat 1000000) FLASH_SR2_busy ;;;
  ret None.

(** The loop variables are [(off, remain)]. *)
Definition restore_round (v : Z * Z) : M W (Z * Z + Z) :=
  let '(off, remain) := v in
  let chunk := if 32 <=? remain then 32 else remain in
  QSPI_WaitIdle ;;;
  rd <- BSP_QSPI_Read (BACKUP_OFFSET + off) chunk ;;
  if negb (rd.1 =? QSPI_OK) then modify HAL_FLASH_Lock ;;; ret (inr (-1)) else
  let wbuf := take 32 (take (Z.to_nat chunk) rd.2 ++ replicate 32 0xFF) in
  modify HAL_FLASH_CLEAR_ERRORS ;;;
  ok <- retry 3 (program_try (APP_RUN_ADDR + off) wbuf) ;;
  if negb ok then modify HAL_FLASH_Lock ;;; ret (inr (-1)) else
  ret (inl (off +% chunk, remain -% chunk)).

(** From the header check to the final lock: 0 = copied. *)
Definition restore_copy : M W Z :=
  QSPI_WaitIdle ;;;
  rd <- BSP_QSPI_Read BACKUP_OFFSET 4 ;;
  if negb (rd.1 =? QSPI_OK) then ret (-1) else
  let hdr := rd.2 in
  if (hdr !!! 0%nat =? 0xFF) && (hdr !!! 1%nat =? 0xFF) && (hdr !!! 2%nat =? 0xFF) && (hdr !!! 3%nat =? 0xFF)
  then ret (-1) else
  modify HAL_FLASH_Unlock ;;;
  e <- for_each 8 0 1 restore_erase_round ;;
  match e with
  | Some r => ret r
  | None =>
      x <- while (Datatypes.S (Z.to_nat APP_SIZE_C)) (fun v => 0 <? v.2) restore_round (0, APP_SIZE_C) ;;
      match x with
      | inr r => ret r
      | inl _ => modify HAL_FLASH_Lock ;;; ret 0
      end
  end.

(** Current version := backup version, CONFIRMED. *)
Definition meta_restore (meta : Metadata) : Metadata :=
  let meta := set_fld cur_major (get_fld bak_major meta) meta in
  let meta := set_fld cur_minor (get_fld bak_minor meta) meta in
  let meta := set_fld cur_patch (get_fld bak_patch meta) meta in
  set_state STATE_CONFIRMED (set_crc (get_fld bak_crc32 meta) (get_fld bak_fw_size meta) meta).

Definition Restore_SlotA : M W unit :=
  r <- restore_copy ;;
  if negb (r =? 0) then ret tt else
  meta <- Metadata_Read ;;
  Metadata_Write (meta_restore meta) ;;;
  ret tt.
End Menu.

Section CopySpec.
Context {W : Type} `{!HalOps W} `{!HalView W} `{!HalLaws W}.
Implicit Types (w : W).

Lemma quiet_WaitIdle : quietly QSPI_WaitIdle.
Proof. apply quietly_wait_while, quiet_BUSY. Qed.

Lemma restore_erase_loop w :
  wp (for_each 8 0 1 restore_erase_round) (fun r w' => bank2_frame w w' /\
    match r with
    | Some e => e = -1
    | None => erased (flash_mem w') APP_ADDR APP_SIZE
    end) w.
Proof.
  eapply wp_mono; [apply (wp_for_each _ _ _ _
    (fun k w' => bank2_frame w w' /\ erased (flash_mem w') APP_ADDR (Z.of_nat k * 131072))
    (fun r w' => bank2_frame w w' /\ r = -1))|].
  - intros k w1 Hk [H1 H2]. replace (0 + Z.of_nat k * 1) with (Z.of_nat k) by lia.
    wp_call (bank2_erase_spec 4 (Z.of_nat k) w1 ltac:(lia)) as ok w2 (H3 & H4 & H5).
    assert (Hf : bank2_frame w w2).
    { etrans; [exact H1|]. split; [done|].
      eapply unchanged_off_weaken; [| |exact H4]; unfold APP_SIZE; lia. }
    destruct ok; cbn [negb].
    + wp_call (quietly_wait_while (Z.to_nat 1000000) _ quiet_SR2 w2) as u w3 Hq. apply wp_ret.
      split; [etrans; [exact Hf|by apply quiet_bank2]|]. intros x Hx. rewrite (proj1 Hq).
      destruct (Z.lt_ge_cases x (APP_ADDR + Z.of_nat k * 131072)).
      * rewrite H4 by lia. apply H2. lia.
      * apply H5; [done|lia].
    + apply wp_bind, wp_modify, wp_ret. split; [|done]. etrans; [exact Hf|]. apply quiet_bank2, quiet_Lock.
  - split; [done|]. intros x Hx. lia.
  - cbv beta. intros [e|] w1; [tauto|]. intros [H1 H2]. by split.
Qed.

(** [o] bytes of the backup are in place; the rest of Bank2 is blank. *)
Definition restore_inv w (o : Z) w' : Prop :=
  bank2_frame w w' /\
  forall x, 0 <= x < APP_SIZE ->
    flash_mem w' (APP_ADDR + x) = if decide (x < o) then nor_mem w (BACKUP_OFFSET + x) else 0xFF.

Lemma restore_round_spec o w w1 :
  0 <= o < APP_SIZE -> o mod 32 = 0 -> restore_inv w o w1 ->
  wp (restore_round (o, APP_SIZE - o)) (fun r w' => match r with
    | inl v => v = (o + 32, APP_SIZE - (o + 32)) /\ restore_inv w (o + 32) w'
    | inr e => e = -1 /\ bank2_frame w w' end) w1.
Proof.
  intros Ho Hal [Hf Hp]. unfold APP_SIZE in *. unfold restore_round.
  assert (Ho32 : o + 32 <= 1048576) by (Z.to_euclidean_division_equations; lia).
  replace (32 <=? 1048576 - o) with true by (symmetry; apply Z.leb_le; lia).
  wp_call (quiet_WaitIdle w1) as u w2 Hq2.
  wp_call (BSP_QSPI_Read_spec (BACKUP_OFFSET + o) 32 w2 ltac:(unfold BACKUP_OFFSET; lia) ltac:(lia)
    ltac:(unfold BACKUP_OFFSET, QSPI_FLASH_SIZE; lia)) as rd w3 (Hq3 & _ & Hrd).
  assert (Hq13 : quiet w1 w3) by (etrans; eassumption).
  assert (Hf3 : bank2_frame w w3) by (etrans; [exact Hf|by apply quiet_bank2]).
  destruct (Z.eqb_spec rd.1 QSPI_OK) as [E|]; cbn [negb].
  2: { apply wp_bind, wp_modify, wp_ret. split; [done|]. etrans; [exact Hf3|]. apply quiet_bank2, quiet_Lock. }
  rewrite (Hrd E). change (Z.to_nat 32) with 32%nat.
  set (l := mem_read (nor_mem w2) (BACKUP_OFFSET + o) 32).
  assert (Hl : length l = 32%nat) by apply mem_read_length.
  set (wbuf := take 32 _). apply wp_bind, wp_modify. pose proof (quiet_CLEAR_ERRORS w3) as Hq4.
  revert Hq4. generalize (HAL_FLASH_CLEAR_ERRORS w3). intros w4 Hq4.
  assert (Hq14 : quiet w1 w4) by (etrans; eassumption).
  assert (He4 : erased (flash_mem w4) (APP_ADDR + o) FLASHWORD).
  { unfold FLASHWORD. intros x Hx. rewrite (proj1 Hq14). replace x with (APP_ADDR + (x - APP_ADDR)) by lia.
    by rewrite Hp, decide_False by lia. }
  wp_call (program_word_spec (APP_ADDR + o) wbuf w4
    ltac:(unfold APP_ADDR, FLASHWORD; Z.to_euclidean_division_equations; lia)
    ltac:(apply wbuf_length; [done|lia]) ltac:(apply wbuf_bytes, nor_read_bytes) He4) as ok w5 (Hn5 & Hu5 & Hh5).
  assert (Hf5 : bank2_frame w w5).
  { etrans; [exact Hf|]. etrans; [by apply quiet_bank2|]. split; [done|].
    eapply unchanged_off_weaken; [| |exact Hu5]; unfold FLASHWORD, APP_SIZE; lia. }
  destruct ok; cbn [negb]; [apply wp_ret|apply wp_bind, wp_modify, wp_ret].
  2: { split; [done|]. etrans; [exact Hf5|]. apply quiet_bank2, quiet_Lock. }
  unwrap. split; [f_equal; lia|]. split; [done|]. intros x Hx.
  destruct (decide (o <= x < o + 32)) as [Hx'|Hx'].
  - specialize (Hh5 eq_refl (x - o)). unfold wbuf in Hh5 at 1. rewrite (wbuf_length l 32) in Hh5 by (done || lia).
    specialize (Hh5 ltac:(lia)). unfold wbuf in Hh5.
    rewrite (wbuf_lookup l 32) in Hh5 by (done || lia).
    injection Hh5 as Hh5. replace (APP_ADDR + o + (x - o)) with (APP_ADDR + x) in Hh5 by lia.
    rewrite <- Hh5, !decide_True by lia. unfold l. rewrite mem_read_lookup_total by lia.
    rewrite (proj2 Hq2), (proj1 Hf). f_equal. lia.
  - rewrite Hu5 by (unfold FLASHWORD; lia). rewrite (proj1 Hq14), Hp by done.
    case_decide; case_decide; lia || done.
Qed.

Lemma restore_loop_spec w w1 : restore_inv w 0 w1 ->
  wp (while (Datatypes.S (Z.to_nat APP_SIZE_C)) (fun v => 0 <? v.2) restore_round (0, APP_SIZE_C))
     (fun x w' => match x with
        | inl _ => restore_inv w APP_SIZE w'
        | inr e => e = -1 /\ bank2_frame w w' end) w1.
Proof.
  intros Hi. change APP_SIZE_C with APP_SIZE.
  assert (Hm : APP_SIZE mod 32 = 0) by done.
  eapply wp_mono; [apply (wp_while _ _ _ (fun (v : Z * Z) _ => Z.to_nat v.2)
      (fun v w' => exists o, v = (o, APP_SIZE - o) /\ 0 <= o <= APP_SIZE /\ o mod 32 = 0 /\ restore_inv w o w')
      (fun e w' => e = -1 /\ bank2_frame w w'))|].
  - intros v w2 (o & -> & Ho & Hal & Hp) Hc. cbn in Hc. apply Z.ltb_lt in Hc.
    eapply wp_mono; [apply (restore_round_spec o w w2); auto; lia|]. cbv beta.
    intros [v|e] w3; [|done]. intros (-> & Hp'). unfold APP_SIZE in *. split; [|cbn; lia].
    exists (o + 32). split; [done|]. split; [|split; [|done]]; Z.to_euclidean_division_equations; lia.
  - exists 0. split; [done|]. split; [unfold APP_SIZE; lia|]. by split.
  - cbn [snd]. lia.
  - cbv beta. intros [v|e] w2; [|done]. intros [(o & -> & Ho & _ & Hp) Hc]. cbn in Hc.
    apply Z.ltb_ge in Hc. by replace o with APP_SIZE in Hp by lia.
Qed.

(** Bank2 of [w'] is the backup area of [w]. *)
Definition restored w w' : Prop :=
  forall x, 0 <= x < APP_SIZE -> flash_mem w' (APP_ADDR + x) = nor_mem w (BACKUP_OFFSET + x).

(** The first word of the backup area is not blank. *)
Definition has_backup w : Prop := exists i, 0 <= i < 4 /\ nor_mem w (BACKUP_OFFSET + i) <> 0xFF.

Lemma hdr_blank w w' :
  quiet w w' ->
  let hdr := mem_read (nor_mem w') BACKUP_OFFSET 4 in
  (hdr !!! 0%nat =? 0xFF) && (hdr !!! 1%nat =? 0xFF) && (hdr !!! 2%nat =? 0xFF) && (hdr !!! 3%nat =? 0xFF)
    = true <-> ~ has_backup w.
Proof.
  intros [_ Hq] hdr. unfold hdr, has_backup.
  rewrite !mem_read_lookup_total, !Hq, !andb_true_iff, !Z.eqb_eq by lia.
  change (Z.of_nat 0) with 0. change (Z.of_nat 1) with 1. change (Z.of_nat 2) with 2. change (Z.of_nat 3) with 3.
  split.
  - intros [[[H0 H1] H2] H3] (i & Hi & Hne).
    assert (Hc : i = 0 \/ i = 1 \/ i = 2 \/ i = 3) by lia.
    by destruct Hc as [->|[->|[->| ->]]].
  - intros H. assert (Hi : forall i, 0 <= i < 4 -> nor_mem w (BACKUP_OFFSET + i) = 0xFF).
    { intros i Hi. destruct (Z.eq_dec (nor_mem w (BACKUP_OFFSET + i)) 0xFF); [done|]. exfalso. eauto. }
    rewrite !Hi by lia. done.
Qed.

Lemma restore_copy_spec w :
  wp restore_copy (fun r w' => bank2_frame w w' /\ (r = 0 \/ r = -1) /\
    (r = 0 -> restored w w') /\ (~ has_backup w -> r = -1 /\ quiet w w')) w.
Proof.
  unfold restore_copy. wp_call (quiet_WaitIdle w) as u w1 Hq1.
  wp_call (BSP_QSPI_Read_spec BACKUP_OFFSET 4 w1 ltac:(done) ltac:(done)
    ltac:(unfold BACKUP_OFFSET, QSPI_FLASH_SIZE; lia)) as rd w2 (Hq2 & _ & Hrd).
  assert (Hq : quiet w w2) by (etrans; eassumption).
  destruct (Z.eqb_spec rd.1 QSPI_OK) as [E|]; cbn [negb].
  2: { apply wp_ret. split; [by apply quiet_bank2|]. split; [by right|]. split; [done|]. by split. }
  rewrite (Hrd E). change (Z.to_nat 4) with 4%nat. pose proof (hdr_blank w w1 Hq1) as Hh. cbv zeta in Hh.
  destruct (_ && _) eqn:Eh.
  { apply wp_ret. split; [by apply quiet_bank2|]. split; [by right|]. split; [done|]. by split. }
  assert (Hhas : ~ ~ has_backup w) by (intros Hno; by apply Hh in Hno).
  clear Eh Hh. apply wp_bind, wp_modify. pose proof (quiet_Unlock w2) as Hq3. revert Hq3.
  generalize (HAL_FLASH_Unlock w2). intros w3 Hq3.
  assert (Hq03 : quiet w w3) by (etrans; eassumption).
  wp_call (restore_erase_loop w3) as r w4 [Hf4 He4].
  assert (Hf : bank2_frame w w4) by (etrans; [by apply quiet_bank2|exact Hf4]).
  destruct r as [e|].
  { apply wp_ret. split; [done|]. subst e. split; [by right|]. split; [done|]. tauto. }
  assert (Hi : restore_inv w 0 w4).
  { split; [done|]. intros x Hx. rewrite decide_False by lia. apply He4. lia. }
  wp_call (restore_loop_spec w w4 Hi) as x w5 Hx. destruct x as [v|e].
  - destruct Hx as [Hf5 Hp5]. apply wp_bind, wp_modify, wp_ret. destruct (quiet_Lock w5) as [Hfl Hnl].
    split; [etrans; [exact Hf5|apply quiet_bank2, quiet_Lock]|]. split; [by left|]. split; [|tauto].
    intros _ x Hx. rewrite Hfl, Hp5 by done. by rewrite decide_True by lia.
  - destruct Hx as [-> Hf5]. apply wp_ret. split; [done|]. split; [by right|]. split; [done|]. tauto.
Qed.

Section Reliable.
Context (G : W -> Prop) (HG : reliable G).

Lemma WaitIdle_ok w : G w -> wp QSPI_WaitIdle (fun _ w' => G w') w.
Proof. intros H. apply wp_wait_while; [apply (rel_BUSY G HG)|done]. Qed.

Lemma restore_erase_ok s w : G w -> wp (restore_erase_round s) (fun r w' => r = None /\ G w') w.
Proof.
  intros H. assert (Hwait : forall g w, G w -> wp (wait_while g FLASH_SR2_busy) (fun _ w' => G w') w).
  { intros g w' Hw. apply wp_wait_while; [apply (rel_SR2 G HG)|done]. }
  apply wp_bind. eapply wp_mono; [apply (wp_retry_first 4 _ G); [lia|]|].
  - unfold bank2_erase_try. wp_call (Hwait (Z.to_nat 1000000) w H) as u w1 H1.
    apply wp_bind, wp_modify. wp_call (rel_flash_erase G HG FLASH_BANK_2 s _ (rel_CLEAR_ERRORS G HG _ H1))
      as st w2 [-> H2]. by apply wp_ret.
  - intros ok w1 [-> H1]. cbn [negb]. wp_call (Hwait (Z.to_nat 1000000) w1 H1) as u w2 H2.
    by apply wp_ret.
Qed.

Lemma restore_round_ok o n w : 0 <= o -> 0 < n -> o + n <= APP_SIZE -> G w ->
  wp (restore_round (o, n)) (fun r w' =>
    (exists c, r = inl (o + c, n - c) /\ 0 < c <= n) /\ G w') w.
Proof.
  intros Ho Hn Hs H. unfold APP_SIZE in *. unfold restore_round.
  set (c := if 32 <=? n then 32 else n).
  assert (Hc : 0 < c <= n) by (unfold c; destruct (Z.leb_spec 32 n); lia).
  wp_call (WaitIdle_ok w H) as u w0 H0.
  wp_call (Read_ok G HG (BACKUP_OFFSET + o) c w0 H0) as rd w1 [-> H1].
  cbn [Z.eqb QSPI_OK negb]. apply wp_bind, wp_modify.
  apply wp_bind. eapply wp_mono; [apply (wp_retry_first 3 _ G); [lia|]|].
  - unfold program_try. wp_call (rel_flash_program G HG (APP_RUN_ADDR + o)
      (take 32 (take (Z.to_nat c) rd.2 ++ replicate 32 0xFF)) _ (rel_CLEAR_ERRORS G HG _ H1)) as st w2 [-> H2].
    by apply wp_ret.
  - intros ok w2 [-> H2]. cbn [negb]. apply wp_ret. split; [|done]. exists c. by unwrap.
Qed.

(** With a backup present the copy succeeds. *)
Lemma restore_copy_ok w : G w -> has_backup w -> wp restore_copy (fun r w' => r = 0 /\ G w') w.
Proof.
  intros H Hb. unfold restore_copy.
  wp_call (wp_and _ _ _ _ (quiet_WaitIdle w) (WaitIdle_ok w H)) as u w1 [Hq1 H1].
  wp_call (wp_and _ _ _ _ (BSP_QSPI_Read_spec BACKUP_OFFSET 4 w1 ltac:(done) ltac:(done)
    ltac:(unfold BACKUP_OFFSET, QSPI_FLASH_SIZE; lia)) (Read_ok G HG BACKUP_OFFSET 4 w1 H1))
    as rd w2 [(_ & _ & Hrd) [E H2]].
  rewrite (Hrd E), E. cbn [Z.eqb QSPI_OK negb]. change (Z.to_nat 4) with 4%nat.
  pose proof (hdr_blank w w1 Hq1) as Hh. cbv zeta in Hh.
  destruct (_ && _) eqn:Eh; [exfalso; by apply Hh|]. clear Eh Hh.
  apply wp_bind, wp_modify. pose proof (rel_Unlock G HG _ H2) as H3. revert H3.
  generalize (HAL_FLASH_Unlock w2). intros w3 H3.
  apply wp_bind. eapply wp_mono; [apply (wp_for_each _ _ _ _ (fun _ => G) (fun (_ : Z) _ => False)); [|done]|].
  { intros k w4 _ H4. eapply wp_mono; [by apply restore_erase_ok|]. by intros r w5 [-> H5]. }
  intros [r|] w4 H4; [done|]. apply wp_bind.
  eapply wp_mono; [apply (wp_while _ _ _ (fun (v : Z * Z) _ => Z.to_nat v.2)
    (fun v w' => G w' /\ 0 <= v.1 /\ v.1 + v.2 = APP_SIZE) (fun (_ : Z) (_ : W) => False))|].
  - intros [o n] w5 (H5 & Ho & Hs) Hc. cbn in *. apply Z.ltb_lt in Hc.
    eapply wp_mono; [apply restore_round_ok; auto; lia|]. cbv beta.
    intros x w6 [(c & -> & Hc') H6]. cbn. split; [|lia]. split; [done|lia].
  - split; [done|]. cbn. done.
  - cbn [snd]. lia.
  - intros [v|e] w5; [|done]. intros [[H5 _] _]. apply wp_bind, wp_modify, wp_ret.
    split; [done|]. by apply (rel_Lock G HG).
Qed.
End Reliable.
End CopySpec.

(** ** The menu's backup and restore *)
Section SlotSpec.
Context {W : Type} `{!HalOps W} `{!HalView W} `{!HalLaws W} {layout : MetaLayout}.
Implicit Types (w : W).

Definition slot_inv w (k : nat) w' : Prop :=
  backup_frame w w' /\
  (forall x, 0 <= x < 4096 * Z.of_nat k -> nor_mem w' (BACKUP_OFFSET + x) = flash_mem w (APP_ADDR + x)) /\
  erased (nor_mem w') (BACKUP_OFFSET + 4096 * Z.of_nat k) (APP_SIZE - 4096 * Z.of_nat k).

Lemma slot_backup_round_spec w k w1 : (k < 256)%nat -> slot_inv w k w1 ->
  wp (slot_backup_round (0 + Z.of_nat k * 4096)) (fun r w' => match r with
    | Some _ => backup_frame w w'
    | None => slot_inv w (S k) w' end) w1.
Proof.
  intros Hk (Hf & Hc & He).
  replace (0 + Z.of_nat k * 4096) with (4096 * Z.of_nat k) by lia. set (i := 4096 * Z.of_nat k) in *.
  unfold slot_backup_round. wp_call (quiet_WaitIdle w1) as u w2 [Hf2 Hn2]. apply wp_bind, wp_gets.
  set (buf := mem_read (flash_mem w2) (APP_RUN_ADDR + i) 4096).
  assert (Hl : length buf = 4096%nat) by apply mem_read_length.
  assert (Hlz : Z.of_nat (length buf) = 4096) by (rewrite Hl; reflexivity).
  assert (Hb : bytes buf) by apply flash_read_bytes.
  rewrite <- Hlz. unfold APP_SIZE in *.
  wp_call (BSP_QSPI_Write_spec buf (BACKUP_OFFSET + i) w2 ltac:(unfold BACKUP_OFFSET; lia)
    ltac:(unfold BACKUP_OFFSET, QSPI_FLASH_SIZE; lia) Hb) as r w3 (_ & Hf3 & [Hu3 Hp3] & Hok3).
  rewrite Hlz in Hu3, Hp3. unfold BACKUP_OFFSET in *.
  assert (Hfr : backup_frame w w3).
  { destruct Hf as [Hfa Hfb]. split; [do 2 (etrans; [eassumption|]); done|]. unfold BACKUP_OFFSET, APP_SIZE in *.
    intros x Hx. rewrite Hu3 by lia. rewrite Hn2. apply Hfb. lia. }
  destruct (Z.eqb_spec r QSPI_OK) as [E|]; cbn [negb]; [apply wp_ret|by apply wp_ret].
  assert (Hh : holds (nor_mem w3) (2097152 + i) buf).
  { eapply programmed_erased; [done| |by apply Hok3]. rewrite Hlz. intros x Hx. rewrite Hn2.
    apply He. lia. }
  unfold slot_inv, APP_SIZE, BACKUP_OFFSET. split; [done|]. split.
  - intros x Hx. destruct (Z.lt_ge_cases x i).
    + rewrite Hu3, Hn2 by lia. apply Hc. lia.
    + specialize (Hh (x - i) ltac:(lia)). unfold buf in Hh. rewrite mem_read_lookup in Hh by lia.
      injection Hh as Hh. replace (2097152 + x) with (2097152 + i + (x - i)) by lia.
      rewrite <- Hh, Hf2. unfold APP_RUN_ADDR, APP_ADDR.
      replace (0x08100000 + i + Z.of_nat (Z.to_nat (x - i))) with (0x08100000 + x) by lia.
      apply Hf.
  - intros x Hx. rewrite Hu3 by lia. rewrite Hn2. apply He. lia.
Qed.

(** The record of the backup is written only when the whole copy is there. *)
Lemma Backup_SlotA_spec w :
  wp Backup_SlotA (fun _ w' => flash_write_frame w w' /\ bank2_same w w' /\
    (same_flash w w' \/ backed_up w w')) w.
Proof.
  assert (Hno : forall w', backup_frame w w' -> flash_write_frame w w' /\ bank2_same w w' /\
    (same_flash w w' \/ backed_up w w')).
  { intros w' H. split; [by apply backup_write_frame|]. destruct H as [H _].
    split; [intros x _; apply H|by left]. }
  unfold Backup_SlotA. apply wp_bind, wp_gets. destruct (_ || _); [by apply wp_ret, Hno|].
  wp_call (QSPI_Erase_Blocks_spec BACKUP_OFFSET APP_SIZE eq_refl eq_refl ltac:(done) ltac:(done)
    ltac:(unfold BACKUP_OFFSET, APP_SIZE, QSPI_FLASH_SIZE; lia) w) as r w1 (_ & Hf1 & Hu1 & He1).
  assert (Hf : backup_frame w w1) by (by split).
  destruct (Z.eqb_spec r 0) as [E|]; cbn [negb]; [|by apply wp_ret, Hno].
  apply wp_bind. eapply wp_mono; [apply (wp_for_each _ _ _ _ (slot_inv w) (fun _ => backup_frame w))|].
  - intros k w2 Hk. apply slot_backup_round_spec. unfold APP_SIZE_C in Hk. change (1 * 1024 * 1024 / 4096) with 256 in Hk. lia.
  - split; [done|]. split; [lia|]. rewrite Z.mul_0_r, Z.add_0_r, Z.sub_0_r. by apply He1.
  - cbv beta. intros [e|] w2; [intros H; by apply wp_ret, Hno|].
    change (Z.to_nat (APP_SIZE_C / 4096)) with 256%nat. intros (H1 & H2 & _).
    eapply wp_mono; [apply record_backup_spec|]. cbv beta. intros _ w3 H3.
    split; [etrans; [by apply backup_write_frame|by apply meta_write_frame]|].
    split; [intros x Hx; rewrite (meta_frame_bank2 w2 w3) by done; apply H1|].
    right. intros x Hx. rewrite (proj1 H3). apply H2. unfold APP_SIZE in Hx. lia.
Qed.

Lemma meta_restore_wf m : meta_wf m -> meta_wf (meta_restore m).
Proof.
  intros H. unfold meta_restore.
  assert (Hs : forall f v m, meta_wf m -> is_u32 v -> meta_wf (set_fld f v m)) by (intros; by apply set_fld_wf).
  apply set_state_wf; [apply set_crc_wf|unfold is_u32, STATE_CONFIRMED; lia];
    repeat (apply Hs || apply get_fld_u32); done.
Qed.

(** The version, CRC and size of the backup become the current ones. *)
Definition restored_record (m0 m : Metadata) : Prop :=
  state m = STATE_CONFIRMED /\ crc32 m = get_fld bak_crc32 m0 /\ fw_size m = get_fld bak_fw_size m0 /\
  (get_fld cur_major m, get_fld cur_minor m, get_fld cur_patch m) =
    (get_fld bak_major m0, get_fld bak_minor m0, get_fld bak_patch m0).

Lemma meta_restore_record m : meta_wf m ->
  restored_record m (set_magic METADATA_MAGIC (meta_restore m)).
Proof.
  intros H%meta_words_length. unfold restored_record.
  split; [done|]. rewrite !get_fld_set_magic. unfold meta_restore.
  rewrite !get_fld_set_state, !get_fld_set_crc.
  split; [cbn [crc32 set_magic set_state set_crc]; by fld_simpl|].
  split; [cbn [fw_size set_magic set_state set_crc]; by fld_simpl|]. by fld_simpl.
Qed.

(** The record is rewritten only when the whole application was restored. *)
Lemma Restore_SlotA_spec w :
  wp Restore_SlotA (fun _ w' => flash_write_frame w w' /\ same_nor w w' /\
    (restored w w' \/ bank2_frame w w')) w.
Proof.
  unfold Restore_SlotA. wp_call (restore_copy_spec w) as r w1 (Hf & _ & Hok & _).
  destruct (Z.eqb_spec r 0) as [E|]; cbn [negb].
  - apply wp_bind, wp_Metadata_Read.
    wp_call (Metadata_Write_spec (meta_restore (metadata_of (flash_mem w1))) w1
      ltac:(apply meta_restore_wf, metadata_of_wf)) as r2 w2 (_ & H2 & _).
    apply wp_ret. split; [etrans; [by apply bank2_write_frame|by apply meta_write_frame]|].
    split; [transitivity w1; [apply Hf|apply H2]|]. left. intros x Hx.
    rewrite (meta_frame_bank2 w1 w2) by done. by apply Hok.
  - apply wp_ret. split; [by apply bank2_write_frame|]. split; [apply Hf|by right].
Qed.

Lemma Restore_SlotA_ok (G : W -> Prop) (HG : reliable G) w : G w -> has_backup w ->
  wp Restore_SlotA (fun _ w' => G w' /\ restored w w' /\
    restored_record (metadata_of (flash_mem w)) (metadata_of (flash_mem w'))) w.
Proof.
  intros H Hb. unfold Restore_SlotA.
  wp_call (wp_and _ _ _ _ (restore_copy_ok G HG w H Hb) (restore_copy_spec w)) as r w1 [[-> H1] (Hf & _ & Hok & _)].
  cbn [Z.eqb negb]. apply wp_bind, wp_Metadata_Read. rewrite (bank2_frame_metadata _ _ Hf).
  assert (Hwf : meta_wf (meta_restore (metadata_of (flash_mem w)))) by apply meta_restore_wf, metadata_of_wf.
  wp_call (wp_and _ _ _ _ (Metadata_Write_reliable G HG _ w1 Hwf H1) (Metadata_Write_spec _ w1 Hwf))
    as r w2 [[Er H2] (_ & Hf2 & Hm)].
  apply wp_ret. split; [done|]. split.
  - intros x Hx. rewrite (meta_frame_bank2 w1 w2) by done. by apply Hok.
  - rewrite (Hm Er). apply meta_restore_record, metadata_of_wf.
Qed.
End SlotSpec.


(** Backup_SlotA never changes Bank2, and whatever fails it either changes no flash
    memory or leaves a complete backup. *)
Theorem slot_backup_safe {W} `{!HalOps W} `{!HalView W} `{!HalLaws W} {layout : MetaLayout} (w : W) :
  wp Backup_SlotA (fun _ w' => flash_write_frame w w' /\ bank2_same w w' /\
    (same_flash w w' \/ backed_up w w')) w.
Proof. apply Backup_SlotA_spec. Qed.

(** On a reliable device with a backup, Restore_SlotA brings back the backed-up
    application and its version, CRC and size as the confirmed record. *)
Theorem slot_restore_succeeds {W} `{!HalOps W} `{!HalView W} `{!HalLaws W} {layout : MetaLayout}
    (G : W -> Prop) (w : W) :
  reliable G -> G w -> has_backup w ->
  wp Restore_SlotA (fun _ w' => restored w w' /\
    restored_record (metadata_of (flash_mem w)) (metadata_of (flash_mem w'))) w.
Proof.
  intros HG Hw Hb. eapply wp_mono; [by apply (Restore_SlotA_ok G)|]. cbv beta. tauto.
Qed.

Lemma slot_restore_succeeds_witness :
  wp Restore_SlotA (fun _ w' => restored (mkDev (fun _ => 7) (fun _ => 0) false None []) w' /\
    restored_record (metadata_of (flash_mem (mkDev (fun _ => 7) (fun _ => 0) false None []))) (metadata_of (flash_mem w')))
    (mkDev (fun _ => 7) (fun _ => 0) false None []).
Proof.
  apply (slot_restore_succeeds fault_free (mkDev (fun _ => 7) (fun _ => 0) false None [])).
  - exact sim_reliable.
  - reflexivity.
  - exists 0. split; [lia|]. vm_compute. discriminate.
Defined.

(** A device without a backup: nothing is copied. *)
Definition demo_blank : dev := mkDev (fun _ => 7) (fun _ => 0xFF) false None [].


Lemma slot_backup_safe_witness :
  wp Backup_SlotA (fun _ w' => bank2_same demo_blank w') demo_blank.
Proof.
  eapply wp_mono; [apply (slot_backup_safe demo_blank)|]. cbv beta. by intros r w' (_ & H & _).
Defined.
