(* ===== verification/Boot.v ===== *)
(** * Boot: metadata state machine, watchdog health check, rollback (menu.c, main.c)

    [Boot_Metadata_Step], [Boot_DoRollback], the watchdog, [JumpToApp] and the boot
    decision of [main], on the state of the board.  Proved: what a boot may change
    on any hardware, and that an update which makes the application hang is undone
    exactly -- the old application and its version record come back. *)
From S2P Require Import Prelude Hal SimDevice QspiFlash QspiReliable Metadata MetaLayout Ota OtaPoll OtaFlash Restore.

(** The device, the flags of main.c, and the registers of the boot path: the reset
    status [RCC->RSR] and, when started, the watchdog's prescaler and reload. *)
Record board (W : Type) := mkBoard {
  b_hw : W;
  qspi_inited : bool;
  eth_inited : bool;
  rsr : Z;
  iwdg : option (Z * Z)
}.
Arguments mkBoard {W}. Arguments b_hw {W}. Arguments qspi_inited {W}. Arguments eth_inited {W}.
Arguments rsr {W}. Arguments iwdg {W}.

Definition RCC_RSR_IWDG1RSTF : Z := 26.
Definition RCC_RSR_RMVF_Msk : Z := 65536.

(** How [main] ends: in the menu, or in the application whose vector table is at
    [vtor], with its stack pointer and entry point. *)
Inductive boot_outcome := InteractiveMenu | RunApp (vtor msp entry : Z).

Section Boot.
Context {W : Type} `{!HalOps W} {layout : MetaLayout}.
#[local] Abbreviation B := (board W).

Definition on_dev {A} (m : M W A) : M B A := fun b =>
  let '(a, w) := m (b_hw b) in (a, mkBoard w (qspi_inited b) (eth_inited b) (rsr b) (iwdg b)).
Definition set_qspi_inited (x : bool) : M B unit :=
  modify (fun b => mkBoard (b_hw b) x (eth_inited b) (rsr b) (iwdg b)).
Definition set_eth_inited (x : bool) : M B unit :=
  modify (fun b => mkBoard (b_hw b) (qspi_inited b) x (rsr b) (iwdg b)).
Definition set_rsr (x : Z) : M B unit :=
  modify (fun b => mkBoard (b_hw b) (qspi_inited b) (eth_inited b) x (iwdg b)).

(** Prescaler /64 and the reload count; the wait for LSIRDY has no other effect. *)
Definition Iwdg_Enable (timeout_ms : Z) : M B unit :=
  modify (fun b => mkBoard (b_hw b) (qspi_inited b) (eth_inited b) (rsr b)
                           (Some (3, timeout_ms / 2 -% 1))).

(** Setting RMVF clears the reset flags. *)
Definition Reset_Reason_Is_IWDG : M B bool :=
  r <- gets rsr ;;
  set_rsr RCC_RSR_RMVF_Msk ;;;
  ret (Z.testbit r RCC_RSR_IWDG1RSTF).

Definition Boot_DoRollback : M B Z :=
  q <- gets qspi_inited ;;
  i <- (if negb q
        then r <- on_dev BSP_QSPI_Init ;;
             if negb (r =? QSPI_OK) then ret false else set_qspi_inited true ;;; ret true
        else ret true) ;;
  if negb i then ret (-1) else on_dev restore_copy.

Definition Boot_Metadata_Step : M B Z :=
  meta <- on_dev Metadata_Read ;;
  if negb (magic meta =? METADATA_MAGIC) || (state meta =? STATE_EMPTY) then ret 0 else
  if state meta =? STATE_PENDING_UPDATE then
    on_dev (Metadata_Write (set_state STATE_TESTING meta)) ;;;
    ret 1
  else if state meta =? STATE_TESTING then
    wd <- Reset_Reason_Is_IWDG ;;
    if wd : bool then
      r <- Boot_DoRollback ;;
      if r =? 0 then on_dev (Metadata_Write (meta_restore meta)) ;;; ret 2
      else ret 0
    else ret 1
  else ret 2.

(** Stopping the peripherals and the caches, then the two words of the vector table. *)
Definition JumpToApp : M B boot_outcome :=
  on_dev (modify (HAL_Delay 50)) ;;;
  e <- gets eth_inited ;;
  (if e : bool then set_eth_inited false else ret tt) ;;;
  on_dev HAL_QSPI_DeInit ;;;
  on_dev (modify SCB_InvalidateDCache) ;;;
  w <- gets b_hw ;;
  ret (RunApp APP_RUN_ADDR (flash_word w APP_RUN_ADDR) (flash_word w (APP_RUN_ADDR + 4))).

(** The boot branch of [main]; [key1] is the level of KEY1. *)
Definition main_boot (key1 : bool) : M B boot_outcome :=
  boot_req <- Boot_Metadata_Step ;;
  if key1 then ret InteractiveMenu
  else if boot_req =? 0 then ret InteractiveMenu
  else (if boot_req =? 1 then Iwdg_Enable 5000 else ret tt) ;;; JumpToApp.

(** A reset: the statics and the watchdog are cleared, the cause is added to the
    reset flags (they accumulate until RMVF). *)
Definition reset (cause : Z) (b : B) : B :=
  mkBoard (b_hw b) false false (Z.lor (rsr b) (Z.shiftl 1 cause)) None.
End Boot.

Section BootSpec.
Context {W : Type} `{!HalOps W} `{!HalView W} `{!HalLaws W} {layout : MetaLayout}.
Implicit Types (b : board W).

Lemma wp_on_dev {A} (m : M W A) (Q : A -> board W -> Prop) b :
  wp m (fun a w => Q a (mkBoard w (qspi_inited b) (eth_inited b) (rsr b) (iwdg b))) (b_hw b) ->
  wp (on_dev m) Q b.
Proof. cbv [wp on_dev]. by destruct (m (b_hw b)). Qed.

(** A boot that does not roll back keeps Bank2 and the NOR flash. *)
Definition boot_frame b b' : Prop := meta_frame (b_hw b) (b_hw b').

Lemma Rollback_spec b :
  wp Boot_DoRollback (fun r b' => bank2_frame (b_hw b) (b_hw b') /\ (r = 0 \/ r = -1) /\
    (r = 0 -> restored (b_hw b) (b_hw b')) /\ iwdg b' = iwdg b /\ rsr b' = rsr b) b.
Proof.
  unfold Boot_DoRollback. apply wp_bind, wp_gets.
  apply wp_bind. apply (wp_mono _ (fun _ b' => quiet (b_hw b) (b_hw b') /\ iwdg b' = iwdg b /\ rsr b' = rsr b)).
  { destruct (qspi_inited b); cbn [negb]; [by apply wp_ret|]. apply wp_bind, wp_on_dev.
    eapply wp_mono; [apply quiet_BSP_QSPI_Init|]. cbv beta. intros r w Hq.
    destruct (negb (r =? QSPI_OK)); [by apply wp_ret|]. by apply wp_bind, wp_modify, wp_ret. }
  intros i b1 (Hq & H1 & H2). destruct i; cbn [negb].
  - apply wp_on_dev. eapply wp_mono; [apply restore_copy_spec|]. cbv beta. cbn [b_hw iwdg rsr].
    intros r w' (Hf & Hr & Hok & _). split; [etrans; [by apply quiet_bank2|done]|]. split; [done|].
    split; [|done]. intros E x Hx. rewrite Hok by done. apply Hq.
  - apply wp_ret. split; [by apply quiet_bank2|]. split; [by right|]. done.
Qed.

Lemma Rollback_ok (G : W -> Prop) (HG : reliable G) b : G (b_hw b) -> has_backup (b_hw b) ->
  wp Boot_DoRollback (fun r b' => r = 0 /\ G (b_hw b')) b.
Proof.
  intros H Hb. unfold Boot_DoRollback. apply wp_bind, wp_gets.
  apply wp_bind. apply (wp_mono _ (fun i b' => i = true /\ G (b_hw b') /\ has_backup (b_hw b'))).
  { destruct (qspi_inited b); cbn [negb]; [by apply wp_ret|]. apply wp_bind, wp_on_dev.
    eapply wp_mono; [apply (wp_and _ _ _ _ (quiet_BSP_QSPI_Init _) (Init_ok G HG _ H))|]. cbv beta.
    intros r w [Hq [-> Hw]]. cbn [Z.eqb QSPI_OK negb]. apply wp_bind, wp_modify, wp_ret.
    split; [done|]. split; [done|]. cbn. destruct Hb as (i & Hi & Hne). exists i. split; [done|].
    by rewrite (proj2 Hq). }
  intros i b1 (-> & H1 & H2). cbn [negb]. apply wp_on_dev. eapply wp_mono; [by apply (restore_copy_ok G HG)|].
  cbv beta. done.
Qed.

Definition in_state (st : Z) b : Prop := state (metadata_of (flash_mem (b_hw b))) = st.
Definition watchdog_reset b : Prop := Z.testbit (rsr b) RCC_RSR_IWDG1RSTF = true.
#[export] Instance watchdog_reset_dec b : Decision (watchdog_reset b).
Proof. unfold watchdog_reset. apply _. Defined.

(** The four arms of the boot step, on any hardware. *)
Lemma Boot_step_spec b :
  wp Boot_Metadata_Step (fun r b' =>
    let st := state (metadata_of (flash_mem (b_hw b))) in
    iwdg b' = iwdg b /\
    if decide (st = STATE_EMPTY) then r = 0 /\ b' = b
    else if decide (st = STATE_PENDING_UPDATE) then
      r = 1 /\ meta_frame (b_hw b) (b_hw b') /\ rsr b' = rsr b
    else if decide (st = STATE_TESTING) then
      if decide (watchdog_reset b) then
        (r = 0 /\ bank2_frame (b_hw b) (b_hw b')) \/
        (r = 2 /\ restored (b_hw b) (b_hw b') /\ same_nor (b_hw b) (b_hw b') /\
         flash_write_frame (b_hw b) (b_hw b'))
      else r = 1 /\ b_hw b' = b_hw b
    else r = 2 /\ b' = b) b.
Proof.
  unfold Boot_Metadata_Step. apply wp_bind, wp_on_dev, wp_Metadata_Read. cbv zeta.
  set (meta := metadata_of (flash_mem (b_hw b))).
  replace (mkBoard (b_hw b) (qspi_inited b) (eth_inited b) (rsr b) (iwdg b)) with b by (by destruct b).
  assert (Hm : magic meta = METADATA_MAGIC) by apply metadata_of_magic. rewrite Hm, Z.eqb_refl.
  cbn [negb orb]. assert (Hwf : meta_wf meta) by apply metadata_of_wf.
  destruct (decide (state meta = STATE_EMPTY)) as [->|E0]; [by apply wp_ret|].
  rewrite (proj2 (Z.eqb_neq _ _) E0).
  destruct (decide (state meta = STATE_PENDING_UPDATE)) as [->|E1].
  { change (STATE_PENDING_UPDATE =? STATE_PENDING_UPDATE) with true. cbv iota.
    apply wp_bind, wp_on_dev. eapply wp_mono; [apply Metadata_Write_spec, set_state_wf; [done|]|].
    - unfold is_u32, STATE_TESTING. lia.
    - cbv beta. intros r w' (_ & Hf & _). by apply wp_ret. }
  rewrite (proj2 (Z.eqb_neq _ _) E1).
  destruct (decide (state meta = STATE_TESTING)) as [->|E2].
  2: { rewrite (proj2 (Z.eqb_neq _ _) E2). by apply wp_ret. }
  change (STATE_TESTING =? STATE_TESTING) with true. cbv iota.
  apply wp_bind. unfold Reset_Reason_Is_IWDG. apply wp_bind, wp_gets, wp_bind, wp_modify, wp_ret.
  destruct (decide (watchdog_reset b)) as [Ew|Ew]; unfold watchdog_reset in Ew.
  2: { rewrite (not_true_is_false _ Ew). by apply wp_ret. }
  rewrite Ew.
  set (b1 := mkBoard _ _ _ RCC_RSR_RMVF_Msk _). wp_call (Rollback_spec b1) as r b2 (Hf & Hr & Hok & Hi & _).
  destruct (Z.eqb_spec r 0) as [E|E].
  - apply wp_bind, wp_on_dev.
    eapply wp_mono; [apply Metadata_Write_spec, meta_restore_wf; done|].
    cbv beta. intros r2 w' (_ & Hf2 & _). apply wp_ret. split; [done|]. right. split; [done|].
    cbn [b_hw]. split.
    + intros x Hx. rewrite (meta_frame_bank2 (b_hw b2) w') by done. by apply Hok.
    + split; [etrans; [apply Hf|apply Hf2]|].
      etrans; [apply bank2_write_frame, Hf|by apply meta_write_frame].
  - apply wp_ret. split; [done|]. left. split; [done|exact Hf].
Qed.

(** *** Booting on a device whose calls succeed *)
Section Reliable.
Context (G : W -> Prop) (HG : reliable G).

Lemma flash_word_same w w' a : bank2_same w w' -> APP_ADDR <= a -> a + 4 <= APP_ADDR + APP_SIZE ->
  flash_word w' a = flash_word w a.
Proof.
  intros H Ha1 Ha2. unfold flash_word.
  assert (E : forall i, 0 <= i < 4 -> flash_mem w' (a + i) = flash_mem w (a + i)).
  { intros i Hi. replace (a + i) with (APP_ADDR + (a + i - APP_ADDR)) by lia. apply H. lia. }
  specialize (E 0 ltac:(lia)) as E0. rewrite Z.add_0_r in E0. by rewrite E0, !E by lia.
Qed.

Lemma bank2_same_quiet w w' : quiet w w' -> bank2_same w w'.
Proof. intros [H _] x _. apply H. Qed.

(** The vector table that [JumpToApp] reads. *)
Definition app_of w : boot_outcome :=
  RunApp APP_RUN_ADDR (flash_word w APP_RUN_ADDR) (flash_word w (APP_RUN_ADDR + 4)).

Lemma app_of_same w w' : bank2_same w w' -> app_of w' = app_of w.
Proof.
  intros H. unfold app_of. f_equal; apply flash_word_same; try done; unfold APP_RUN_ADDR, APP_ADDR, APP_SIZE; lia.
Qed.

Lemma JumpToApp_spec b :
  wp JumpToApp (fun o b' => o = app_of (b_hw b) /\ quiet (b_hw b) (b_hw b') /\ iwdg b' = iwdg b /\
    (G (b_hw b) -> G (b_hw b'))) b.
Proof.
  unfold JumpToApp. apply wp_bind, wp_on_dev, wp_modify. set (b1 := mkBoard _ _ _ _ _).
  apply wp_bind, wp_gets, wp_bind.
  apply (wp_mono _ (fun _ b' => b_hw b' = b_hw b1 /\ iwdg b' = iwdg b)).
  { destruct (eth_inited b1); [by apply wp_modify|by apply wp_ret]. }
  intros _ b2 [E Ei]. apply wp_bind, wp_on_dev.
  assert (HDI : wp HAL_QSPI_DeInit (fun _ w' => quiet (b_hw b2) w' /\ (G (b_hw b2) -> G w')) (b_hw b2)).
  { apply wp_and; [apply quiet_QSPI_DeInit|]. apply wp_intro. intros st w' Er Hw.
    apply (wp_run _ _ _ _ _ (rel_QSPI_DeInit G HG _ Hw) Er). }
  eapply wp_mono; [exact HDI|]. cbv beta. intros st w3 [Hq3 HG3].
  apply wp_bind, wp_on_dev, wp_modify, wp_bind, wp_gets, wp_ret. cbn [b_hw iwdg].
  assert (Hq : quiet (b_hw b) (SCB_InvalidateDCache w3)).
  { etrans; [apply (quiet_Delay 50)|]. change (HAL_Delay 50 (b_hw b)) with (b_hw b1). rewrite <- E.
    etrans; [exact Hq3|apply quiet_InvalidateDCache]. }
  split; [by apply app_of_same, bank2_same_quiet|]. split; [done|]. split; [done|].
  intros Hw. apply (rel_InvalidateDCache G HG), HG3. rewrite E. by apply (rel_Delay G HG).
Qed.

(** First boot after an update: the new application runs under the watchdog. *)
Lemma boot_pending b : G (b_hw b) -> in_state STATE_PENDING_UPDATE b ->
  wp (main_boot false) (fun o b' => o = app_of (b_hw b) /\ G (b_hw b') /\
    iwdg b' = Some (3, 2499) /\ bank2_same (b_hw b) (b_hw b') /\ same_nor (b_hw b) (b_hw b') /\
    metadata_of (flash_mem (b_hw b')) =
      set_magic METADATA_MAGIC (set_state STATE_TESTING (metadata_of (flash_mem (b_hw b))))) b.
Proof.
  unfold in_state. intros Hw Hst. unfold main_boot. apply wp_bind. unfold Boot_Metadata_Step.
  apply wp_bind, wp_on_dev, wp_Metadata_Read. rewrite metadata_of_magic, Z.eqb_refl, Hst.
  change (negb true || (STATE_PENDING_UPDATE =? STATE_EMPTY)) with false.
  change (STATE_PENDING_UPDATE =? STATE_PENDING_UPDATE) with true. cbv iota.
  set (meta := set_state _ _).
  assert (Hwf : meta_wf meta) by (apply set_state_wf; [apply metadata_of_wf|unfold is_u32, STATE_TESTING; lia]).
  apply wp_bind, wp_on_dev. cbn [b_hw].
  eapply wp_mono; [apply (wp_and _ _ _ _ (Metadata_Write_reliable G HG _ _ Hwf Hw) (Metadata_Write_spec _ _ Hwf))|].
  cbv beta. intros r w1 [[Er H1] (_ & Hf1 & Hm)]. apply wp_ret. cbn [Z.eqb]. apply wp_bind, wp_modify.
  cbn [b_hw iwdg qspi_inited eth_inited rsr]. change (5000 / 2 -% 1) with 2499.
  eapply wp_mono; [apply JumpToApp_spec|]. cbv beta. cbn [b_hw iwdg]. intros o b2 (-> & Hq & -> & HG2).
  assert (Hb : bank2_same (b_hw b) w1) by (intros x Hx; by apply meta_frame_bank2).
  split; [by apply app_of_same|]. split; [auto|]. split; [done|].
  split; [intros x Hx; rewrite (proj1 Hq); by apply Hb|].
  split; [transitivity w1; [apply Hf1|apply Hq]|].
  rewrite <- (Hm Er). apply metadata_of_ext. intros a _. apply Hq.
Qed.

(** The application hung: the backup comes back and runs without watchdog. *)
Lemma boot_rollback b : G (b_hw b) -> in_state STATE_TESTING b -> watchdog_reset b ->
  has_backup (b_hw b) -> iwdg b = None ->
  wp (main_boot false) (fun o b' => o = app_of (b_hw b') /\ iwdg b' = None /\
    restored (b_hw b) (b_hw b') /\ same_nor (b_hw b) (b_hw b') /\
    restored_record (metadata_of (flash_mem (b_hw b))) (metadata_of (flash_mem (b_hw b')))) b.
Proof.
  unfold in_state, watchdog_reset. intros Hw Hst Hwd Hb Hi. unfold main_boot. apply wp_bind.
  unfold Boot_Metadata_Step. apply wp_bind, wp_on_dev, wp_Metadata_Read.
  rewrite metadata_of_magic, Z.eqb_refl, Hst.
  change (negb true || (STATE_TESTING =? STATE_EMPTY)) with false.
  change (STATE_TESTING =? STATE_PENDING_UPDATE) with false.
  change (STATE_TESTING =? STATE_TESTING) with true. cbv iota.
  set (meta := metadata_of (flash_mem (b_hw b))).
  assert (Hwf : meta_wf (meta_restore meta)) by apply meta_restore_wf, metadata_of_wf.
  apply wp_bind. unfold Reset_Reason_Is_IWDG. apply wp_bind, wp_gets, wp_bind, wp_modify, wp_ret.
  cbn [rsr b_hw qspi_inited eth_inited iwdg]. rewrite Hwd.
  set (b1 := mkBoard _ _ _ RCC_RSR_RMVF_Msk _).
  wp_call (wp_and _ _ _ _ (Rollback_ok G HG b1 Hw Hb) (Rollback_spec b1)) as r b2 [[-> H2] (Hf & _ & Hok & Hi2 & _)].
  cbn [Z.eqb]. apply wp_bind, wp_on_dev.
  eapply wp_mono; [apply (wp_and _ _ _ _ (Metadata_Write_reliable G HG _ _ Hwf H2) (Metadata_Write_spec _ _ Hwf))|].
  cbv beta. intros r w3 [[Er H3] (_ & Hf3 & Hm)]. apply wp_ret. cbn [Z.eqb]. apply wp_bind, wp_ret.
  eapply wp_mono; [apply JumpToApp_spec|]. cbv beta. cbn [b_hw iwdg]. intros o b4 (-> & Hq & -> & _).
  split; [symmetry; by apply app_of_same, bank2_same_quiet|].
  split; [rewrite Hi2; exact Hi|].
  split; [intros x Hx; rewrite (proj1 Hq), (meta_frame_bank2 (b_hw b2) w3) by done; by apply Hok|].
  split; [transitivity (b_hw b2); [apply Hf|transitivity w3; [apply Hf3|apply Hq]]|].
  replace (metadata_of (flash_mem (b_hw b4))) with (set_magic METADATA_MAGIC (meta_restore meta)).
  - apply meta_restore_record, metadata_of_wf.
  - rewrite <- (Hm Er). symmetry. apply metadata_of_ext. intros a _. apply Hq.
Qed.
End Reliable.
End BootSpec.

(** ** The health check end to end *)
Section HealthCheck.
Context {W : Type} `{!HalOps W} `{!HalView W} `{!HalLaws W} {layout : MetaLayout}.
Implicit Types (b : board W) (w : W).

(** RCC reset causes: bit 24 software reset, bit 22 reset pin. *)
Definition RSR_SFTRST : Z := 24.
Definition RSR_PINRST : Z := 22.

(** Install an update, reset, run it; the watchdog bites; boot again. *)
Definition update_and_hang (ver : Z * Z * Z) (crc n : Z) : M (board W) (Z * boot_outcome * boot_outcome) :=
  r <- on_dev (flash_write ver crc n) ;;
  modify (reset RSR_SFTRST) ;;;
  o1 <- main_boot false ;;
  modify (reset RCC_RSR_IWDG1RSTF) ;;;
  o2 <- main_boot false ;;
  ret (r, o1, o2).

(** The installed application is the one it was, and so is what the metadata says
    about it. *)
Definition app_unchanged w w' : Prop :=
  bank2_same w w' /\
  let m := metadata_of (flash_mem w) in let m' := metadata_of (flash_mem w') in
  state m' = STATE_CONFIRMED /\ crc32 m' = crc32 m /\ fw_size m' = fw_size m /\
  (get_fld cur_major m', get_fld cur_minor m', get_fld cur_patch m') =
    (get_fld cur_major m, get_fld cur_minor m, get_fld cur_patch m).

Lemma reset_sets_cause c b : 0 <= c -> Z.testbit (rsr (reset c b)) c = true.
Proof.
  intros Hc. cbn. rewrite Z.lor_spec, Z.shiftl_spec, Z.sub_diag by lia. apply orb_true_r.
Qed.

Lemma get_fld_testing f m :
  get_fld f (set_magic METADATA_MAGIC (set_state STATE_TESTING m)) = get_fld f m.
Proof. by rewrite get_fld_set_magic, get_fld_set_state. Qed.

Lemma update_and_hang_spec (G : W -> Prop) (HG : reliable G) ver crc n b :
  G (b_hw b) -> ver_ok ver -> is_u32 crc -> 0 <= n <= APP_SIZE ->
  (exists i, 0 <= i < 4 /\ flash_mem (b_hw b) (APP_ADDR + i) <> 0xFF) ->
  wp (update_and_hang ver crc n) (fun x b' =>
    let '(r, o1, o2) := x in
    r = 0 /\ o1 <> InteractiveMenu /\ o2 = app_of (b_hw b) /\ iwdg b' = None /\
    app_unchanged (b_hw b) (b_hw b')) b.
Proof.
  intros Hw Hv Hc Hn (i & Hi & Hne). unfold update_and_hang. apply wp_bind, wp_on_dev.
  eapply wp_mono; [apply (wp_and _ _ _ _ (flash_write_ok G HG ver crc n (b_hw b) Hv Hc Hn Hw)
    (flash_write_spec ver crc n (b_hw b) Hv Hc Hn))|]. cbv beta.
  intros r w1 [(-> & H1 & Hkept) (_ & _ & _ & Hinst)].
  destruct (Hinst eq_refl) as (Hb & _ & (Hst & _)). clear Hinst.
  apply wp_bind, wp_modify. set (b1 := reset RSR_SFTRST _).
  wp_call (boot_pending G HG b1 H1 Hst) as o1 b2 (-> & H2 & _ & Hs2 & Hn2 & Hm2).
  apply wp_bind, wp_modify. set (b3 := reset RCC_RSR_IWDG1RSTF b2).
  assert (Hb3 : has_backup (b_hw b3)).
  { exists i. split; [done|]. change (b_hw b3) with (b_hw b2). rewrite Hn2.
    change (b_hw b1) with w1. rewrite Hb by (unfold APP_SIZE; lia). done. }
  assert (Hst3 : in_state STATE_TESTING b3)
    by (unfold in_state; change (b_hw b3) with (b_hw b2); by rewrite Hm2).
  assert (Hwd3 : watchdog_reset b3) by (apply (reset_sets_cause RCC_RSR_IWDG1RSTF b2); done).
  wp_call (boot_rollback G HG b3 H2 Hst3 Hwd3 Hb3 eq_refl)
    as o2 b4 (-> & Hwd & Hr & _ & Hrec). apply wp_ret.
  change (b_hw b3) with (b_hw b2) in *. change (b_hw b1) with w1 in *.
  assert (Hsame : bank2_same (b_hw b) (b_hw b4)).
  { intros x Hx. rewrite Hr by done. rewrite Hn2. by apply Hb. }
  split; [done|]. split; [done|]. split; [by apply app_of_same|]. split; [done|]. split; [done|].
  cbv zeta. destruct Hrec as (Hs4 & Hc4 & Hf4 & Hv4). destruct Hkept as (Hkv & Hkc & Hkf).
  rewrite Hm2 in Hc4, Hf4, Hv4. repeat rewrite get_fld_testing in Hc4, Hf4.
  repeat rewrite get_fld_testing in Hv4.
  split; [done|]. split; [by rewrite Hc4, Hkc|]. split; [by rewrite Hf4, Hkf|]. by rewrite Hv4, Hkv.
Qed.

(** The reset flags are only cleared in state TESTING, so an old watchdog reset is
    still flagged when the first boot after an update is over. *)
Lemma stale_watchdog_flag b : in_state STATE_PENDING_UPDATE b -> watchdog_reset b ->
  wp (Boot_Metadata_Step ;;; modify (reset RSR_PINRST) ;;; Reset_Reason_Is_IWDG)
     (fun wd _ => wd = true) b.
Proof.
  unfold in_state, watchdog_reset. intros Hst Hwd.
  wp_call (Boot_step_spec b) as r b1 [_ H]. rewrite Hst in H. cbn in H. destruct H as (_ & _ & Hr).
  apply wp_bind, wp_modify. unfold Reset_Reason_Is_IWDG. apply wp_bind, wp_gets, wp_bind, wp_modify, wp_ret.
  change (Z.testbit (Z.lor (rsr b1) (Z.shiftl 1 RSR_PINRST)) RCC_RSR_IWDG1RSTF = true).
  rewrite Hr, Z.lor_spec. by rewrite Hwd.
Qed.
End HealthCheck.

(** Boot_Metadata_Step branch by branch: EMPTY and CONFIRMED leave the device alone,
    PENDING_UPDATE writes only the metadata sector, TESTING after a watchdog reset rolls
    back or fails within Bank2, TESTING after any other reset changes no flash memory. *)
Theorem boot_step_arms {W} `{!HalOps W} `{!HalView W} `{!HalLaws W} {layout : MetaLayout} (b : board W) :
  wp Boot_Metadata_Step (fun r b' =>
    let st := state (metadata_of (flash_mem (b_hw b))) in
    iwdg b' = iwdg b /\
    if decide (st = STATE_EMPTY) then r = 0 /\ b' = b
    else if decide (st = STATE_PENDING_UPDATE) then
      r = 1 /\ meta_frame (b_hw b) (b_hw b') /\ rsr b' = rsr b
    else if decide (st = STATE_TESTING) then
      if decide (watchdog_reset b) then
        (r = 0 /\ bank2_frame (b_hw b) (b_hw b')) \/
        (r = 2 /\ restored (b_hw b) (b_hw b') /\ same_nor (b_hw b) (b_hw b') /\
         flash_write_frame (b_hw b) (b_hw b'))
      else r = 1 /\ b_hw b' = b_hw b
    else r = 2 /\ b' = b) b.
Proof. apply Boot_step_spec. Qed.

(** C23. A pending update is started: on a reliable device main jumps to the application
    with its stack pointer and entry, the watchdog armed with a five second period, the
    state TESTING and Bank2 unchanged. *)
Theorem first_boot_guarded {W} `{!HalOps W} `{!HalView W} `{!HalLaws W} {layout : MetaLayout}
    (G : W -> Prop) (b : board W) :
  reliable G -> G (b_hw b) -> in_state STATE_PENDING_UPDATE b ->
  wp (main_boot false) (fun o b' =>
    o = RunApp APP_RUN_ADDR (flash_word (b_hw b) APP_RUN_ADDR) (flash_word (b_hw b) (APP_RUN_ADDR + 4)) /\
    (exists rlr, iwdg b' = Some (3, rlr) /\ (rlr + 1) * 2 = 5000) /\
    bank2_same (b_hw b) (b_hw b') /\ in_state STATE_TESTING b') b.
Proof.
  intros HG Hw Hst. eapply wp_mono; [by apply (boot_pending G HG)|]. cbv beta.
  intros o b' (-> & _ & Hi & Hb & _ & Hm). split; [done|]. split; [by exists 2499|]. split; [done|].
  unfold in_state. by rewrite Hm.
Qed.

(** C7. On a device whose HAL calls succeed, installing an update whose application
    hangs and is reset by the watchdog brings back the old application byte for byte,
    with its version, CRC and size confirmed in the metadata, and starts it without
    watchdog. *)
Theorem hung_update_undone {W} `{!HalOps W} `{!HalView W} `{!HalLaws W} {layout : MetaLayout}
    (G : W -> Prop) ver crc n (b : board W) :
  reliable G -> G (b_hw b) -> ver_ok ver -> is_u32 crc -> 0 <= n <= APP_SIZE ->
  (exists i, 0 <= i < 4 /\ flash_mem (b_hw b) (APP_ADDR + i) <> 0xFF) ->
  wp (update_and_hang ver crc n) (fun x b' =>
    let '(r, o1, o2) := x in
    r = 0 /\ o1 <> InteractiveMenu /\ o2 = app_of (b_hw b) /\ iwdg b' = None /\
    app_unchanged (b_hw b) (b_hw b')) b.
Proof. intros HG Hw Hv Hc Hn Hb. by apply (update_and_hang_spec G). Qed.

(** Booting a pending update does not clear the watchdog flag: the next reset through
    the pin is still taken for a watchdog reset. *)
Theorem stale_flag_survives {W} `{!HalOps W} `{!HalView W} `{!HalLaws W} {layout : MetaLayout} (b : board W) :
  in_state STATE_PENDING_UPDATE b -> watchdog_reset b ->
  wp (Boot_Metadata_Step ;;; modify (reset RSR_PINRST) ;;; Reset_Reason_Is_IWDG)
     (fun wd _ => wd = true) b.
Proof. apply stale_watchdog_flag. Qed.

(** A board whose metadata says [st], after a watchdog reset. *)
Definition demo_board (st : Z) : board dev :=
  mkBoard (mkDev (mem_write (fun _ => 0x20) METADATA_ADDR (meta_encode (set_state st meta_default)))
                 (fun _ => 0x21) false None []) false false (Z.shiftl 1 26) None.

Lemma demo_board_pending : in_state STATE_PENDING_UPDATE (demo_board STATE_PENDING_UPDATE).
Proof. vm_compute. reflexivity. Qed.

Lemma first_boot_guarded_witness :
  wp (main_boot false) (fun o b' =>
    o = RunApp APP_RUN_ADDR 0x20202020 0x20202020 /\
    (exists rlr, iwdg b' = Some (3, rlr) /\ (rlr + 1) * 2 = 5000) /\
    bank2_same (b_hw (demo_board STATE_PENDING_UPDATE)) (b_hw b') /\ in_state STATE_TESTING b')
    (demo_board STATE_PENDING_UPDATE).
Proof.
  exact (first_boot_guarded fault_free (demo_board STATE_PENDING_UPDATE) sim_reliable eq_refl demo_board_pending).
Defined.

Lemma hung_update_undone_witness :
  wp (update_and_hang (1, 2, 3) 99 5) (fun x b' =>
    let '(r, o1, o2) := x in
    r = 0 /\ o1 <> InteractiveMenu /\ o2 = app_of (b_hw (demo_board STATE_CONFIRMED)) /\ iwdg b' = None /\
    app_unchanged (b_hw (demo_board STATE_CONFIRMED)) (b_hw b')) (demo_board STATE_CONFIRMED).
Proof.
  apply (hung_update_undone fault_free (1, 2, 3) 99 5 (demo_board STATE_CONFIRMED) sim_reliable eq_refl demo_ver_ok).
  - unfold is_u32. lia.
  - unfold APP_SIZE. lia.
  - exists 0. split; [lia|]. vm_compute. discriminate.
Defined.

Lemma stale_flag_survives_witness :
  wp (Boot_Metadata_Step ;;; modify (reset RSR_PINRST) ;;; Reset_Reason_Is_IWDG)
     (fun wd _ => wd = true) (demo_board STATE_PENDING_UPDATE).
Proof.
  apply (stale_flag_survives (demo_board STATE_PENDING_UPDATE) demo_board_pending). reflexivity.
Defined.
