(* ===== verification/VersionCheck.v ===== *)
(** * The version query (version_check/version_check.c)

    A TCP client that sends its version and parses the answer
    "RESP|version|length|crc".  The C string functions it calls ([strtok], [strtoul],
    [strncpy]) are written out on byte lists.  Proved: the receive buffer never
    overflows, and an answer is parsed correctly however TCP segments it. *)
From S2P Require Import Prelude Net SimNet.

(** ** C strings in byte arrays *)
Fixpoint take_while (f : Z -> bool) (l : list Z) : list Z :=
  match l with
  | [] => []
  | c :: p => if f c then c :: take_while f p else []
  end.

(** The string at the start of the array: the bytes before the first NUL. *)
Definition c_str (l : list Z) : list Z := take_while (fun c => negb (c =? 0)) l.

(** [memcpy(l + off, d, length d)] *)
Definition splice (l : list Z) (off : nat) (d : list Z) : list Z :=
  take off l ++ d ++ drop (off + length d) l.

(** [strtok] with the one delimiter [|], on the array and the saved position: the
    start of the token, the array with the delimiter overwritten, the new position. *)
Definition DELIM : Z := 124.
Definition strtok (buf : list Z) (pos : nat) : option nat * list Z * nat :=
  let rest := c_str (drop pos buf) in
  let skip := length (take_while (fun c => c =? DELIM) rest) in
  let s := drop skip rest in
  let start := (pos + skip)%nat in
  match s with
  | [] => (None, buf, start)
  | _ :: _ =>
      let n := length (take_while (fun c => negb (c =? DELIM)) s) in
      let stop := (start + n)%nat in
      if decide (n < length s)%nat
      then (Some start, <[stop := 0]> buf, S stop)
      else (Some start, buf, stop)
  end.

Definition isspace (c : Z) : bool := (c =? 32) || ((9 <=? c) && (c <=? 13)).

(** The value of a digit character; 36 when it is none. *)
Definition digit_val (c : Z) : Z :=
  if (48 <=? c) && (c <=? 57) then c - 48
  else if (97 <=? c) && (c <=? 122) then c - 87
  else if (65 <=? c) && (c <=? 90) then c - 55
  else 36.

Definition num_value (base : Z) (cs : list Z) : Z :=
  foldl (fun a c => a * base + digit_val c) 0 cs.

Definition ULONG_MAX : Z := 0xFFFFFFFF.

(** [strtoul(s, NULL, base)] for base 10 or 16, with 32-bit [unsigned long]. *)
Definition strtoul (base : Z) (s : list Z) : Z :=
  let s := drop (length (take_while isspace s)) s in
  let neg := match s with c :: _ => c =? 45 | [] => false end in
  let s := match s with c :: p => if (c =? 45) || (c =? 43) then p else s | [] => s end in
  let s := match s with
           | z :: x :: h :: p =>
               if (base =? 16) && (z =? 48) && ((x =? 120) || (x =? 88)) && (digit_val h <? 16)
               then h :: p else s
           | _ => s
           end in
  let v := num_value base (take_while (fun c => digit_val c <? base) s) in
  if ULONG_MAX <? v then ULONG_MAX else if neg then u32 (- v) else v.

(** ** The statics of version_check.c *)
Definition VCHECK_PORT : Z := 8001.

Record vcheck := mkV {
  v_pcb : option pcb;
  v_done : bool;
  v_ok : bool;
  v_connected : bool;
  v_resp : list Z;
  v_resp_len : Z;
  v_version : list Z;
  v_length : Z;
  v_crc : Z
}.

Definition set_v_pcb (p : option pcb) (v : vcheck) : vcheck :=
  mkV p (v_done v) (v_ok v) (v_connected v) (v_resp v) (v_resp_len v) (v_version v) (v_length v) (v_crc v).
Definition set_v_done (d : bool) (v : vcheck) : vcheck :=
  mkV (v_pcb v) d (v_ok v) (v_connected v) (v_resp v) (v_resp_len v) (v_version v) (v_length v) (v_crc v).
Definition set_v_ok (b : bool) (v : vcheck) : vcheck :=
  mkV (v_pcb v) (v_done v) b (v_connected v) (v_resp v) (v_resp_len v) (v_version v) (v_length v) (v_crc v).
Definition set_v_connected (b : bool) (v : vcheck) : vcheck :=
  mkV (v_pcb v) (v_done v) (v_ok v) b (v_resp v) (v_resp_len v) (v_version v) (v_length v) (v_crc v).
Definition set_v_resp (r : list Z) (n : Z) (v : vcheck) : vcheck :=
  mkV (v_pcb v) (v_done v) (v_ok v) (v_connected v) r n (v_version v) (v_length v) (v_crc v).
Definition set_v_version (x : list Z) (v : vcheck) : vcheck :=
  mkV (v_pcb v) (v_done v) (v_ok v) (v_connected v) (v_resp v) (v_resp_len v) x (v_length v) (v_crc v).
Definition set_v_length (x : Z) (v : vcheck) : vcheck :=
  mkV (v_pcb v) (v_done v) (v_ok v) (v_connected v) (v_resp v) (v_resp_len v) (v_version v) x (v_crc v).
Definition set_v_crc (x : Z) (v : vcheck) : vcheck :=
  mkV (v_pcb v) (v_done v) (v_ok v) (v_connected v) (v_resp v) (v_resp_len v) (v_version v) (v_length v) x.

(** One pbuf of the answer: truncated to the space left, then copied. *)
Definition v_recv_chunk (v : vcheck) (q : list Z) : vcheck :=
  let clen := Z.of_nat (length q) in
  let clen := if 127 <? (v_resp_len v +% clen) then 127 - v_resp_len v else clen in
  set_v_resp (splice (v_resp v) (Z.to_nat (v_resp_len v)) (take (Z.to_nat clen) q))
             (v_resp_len v +% clen) v.

(** The fields of a RESP line; a missing field keeps its old value. *)
Definition v_parse_resp (v : vcheck) : vcheck :=
  let '(_, buf, p) := strtok (v_resp v) 0 in
  let '(tok, buf, p) := strtok buf p in
  let v := match tok with
           | Some t => set_v_version (take 15 (c_str (drop t buf) ++ replicate 15 0) ++ [0]) v
           | None => v end in
  let '(tok, buf, p) := strtok buf p in
  let v := match tok with
           | Some t => set_v_length (strtoul 10 (c_str (drop t buf))) v
           | None => v end in
  let '(tok, buf, p) := strtok buf p in
  let v := match tok with
           | Some t => set_v_crc (strtoul 16 (c_str (drop t buf))) v
           | None => v end in
  set_v_ok true (set_v_resp buf (v_resp_len v) v).

(** "RESP|" *)
Definition RESP_PREFIX : list Z := [82; 69; 83; 80; 124].
(** "VERSION|0.1.0\r\n" *)
Definition VERSION_MSG : list Z := [86; 69; 82; 83; 73; 79; 78; 124; 48; 46; 49; 46; 48; 13; 10].

Record v_sys (N : Type) := mkVSys { vers : vcheck; vnet : N }.
Arguments mkVSys {N}. Arguments vers {N}. Arguments vnet {N}.

Section Client.
Context {N : Type} `{!TcpApi N}.
#[local] Abbreviation sys := (v_sys N).

Definition v_on {A} (m : M vcheck A) : M sys A := fun s =>
  let '(a, v) := m (vers s) in (a, mkVSys v (vnet s)).
Definition v_net {A} (m : M N A) : M sys A := fun s =>
  let '(a, n) := m (vnet s) in (a, mkVSys (vers s) n).
Definition v_set (f : vcheck -> vcheck) : M sys unit := v_on (modify f).
Definition v_get {A} (f : vcheck -> A) : M sys A := v_on (gets f).

Definition Version_Check_Start : M sys unit :=
  p <- v_get v_pcb ;;
  match p with
  | Some _ => ret tt
  | None =>
      v_set (fun v => set_v_resp (replicate 128 0) 0
                        (set_v_connected false (set_v_ok false (set_v_done false v)))) ;;;
      p <- v_net tcp_new ;;
      v_set (set_v_pcb p) ;;;
      match p with
      | None => v_set (set_v_done true)
      | Some p =>
          err <- v_net (tcp_connect p VCHECK_PORT V_CONNECT_CB) ;;
          if negb (err =? ERR_OK)
          then v_net (tcp_close p) ;;; v_set (set_v_pcb None) ;;; v_set (set_v_done true)
          else ret tt
      end
  end.

Definition v_connect_cb (pc : pcb) (err : Z) : M sys Z :=
  if negb (err =? ERR_OK) then v_set (set_v_done true) ;;; ret ERR_OK else
  v_net (tcp_recv pc V_RECV_CB) ;;;
  v_net (tcp_err pc V_ERR_CB) ;;;
  v_net (tcp_write pc VERSION_MSG) ;;;
  v_net (tcp_output pc) ;;;
  ret ERR_OK.

Definition v_recv_cb (pc : pcb) (p : option (list (list Z))) : M sys Z :=
  match p with
  | None => v_set (set_v_done true) ;;; ret ERR_OK
  | Some qs =>
      v_set (fun v => foldl v_recv_chunk v qs) ;;;
      v_set (fun v => set_v_resp (<[Z.to_nat (v_resp_len v) := 0]> (v_resp v)) (v_resp_len v) v) ;;;
      v_net (tcp_recved pc (u16 (tot_len qs))) ;;;
      v_net (pbuf_free_chain qs) ;;;
      v <- v_get id ;;
      if (0 <? v_resp_len v) && (v_resp v !!! Z.to_nat (v_resp_len v - 1) =? 10) then
        v_set (set_v_connected true) ;;;
        (if bool_decide (take 5 (v_resp v) = RESP_PREFIX)
         then v_set v_parse_resp
         else v_set (set_v_ok false)) ;;;
        v_net (tcp_close pc) ;;;
        v_set (set_v_pcb None) ;;;
        v_set (set_v_done true) ;;;
        ret ERR_OK
      else ret ERR_OK
  end.

Definition v_err_cb : M sys unit :=
  v_set (fun v => set_v_ok false (set_v_done true (set_v_pcb None v))).

Definition Version_Check_IsDone : M sys bool := v_get v_done.
Definition Version_Check_IsOK : M sys bool := v_get v_ok.
Definition Version_Check_IsConnected : M sys bool := v_get v_connected.

(** The version string ("0.0.0" when empty), the length and the CRC. *)
Definition Version_Check_Get : M sys (list Z * Z * Z) :=
  v_get (fun v => ((if negb (v_version v !!! 0%nat =? 0) then c_str (v_version v) else [48; 46; 48; 46; 48]),
                   v_length v, v_crc v)).
End Client.

(** ** The string functions on well-formed input *)
Section Strings.
Implicit Types (cs s l : list Z).

Lemma take_while_stop f cs rest :
  Forall (fun c => f c = true) cs -> match rest with [] => True | c :: _ => f c = false end ->
  take_while f (cs ++ rest) = cs.
Proof.
  induction 1 as [|c cs Hc _ IH]; intros Hr; cbn.
  - destruct rest as [|c p]; [done|]. cbn. by rewrite Hr.
  - rewrite Hc. by rewrite IH.
Qed.

Lemma take_while_none f s : match s with [] => True | c :: _ => f c = false end -> take_while f s = [].
Proof. intros H. by apply (take_while_stop f [] s). Qed.

Lemma c_str_app cs s : Forall (fun c => c <> 0) cs -> c_str (cs ++ s) = cs ++ c_str s.
Proof.
  induction 1 as [|c cs Hc _ IH]; [done|]. unfold c_str in *. cbn.
  rewrite (proj2 (Z.eqb_neq _ _) Hc). cbn. by rewrite IH.
Qed.

(** A token: not empty, without NUL and delimiter. *)
Definition token cs : Prop := cs <> [] /\ Forall (fun c => c <> 0 /\ c <> DELIM) cs.

Lemma token_nonzero cs : token cs -> Forall (fun c => c <> 0) cs.
Proof. intros [_ H]. eapply Forall_impl; [exact H|]. by intros c [? _]. Qed.

Lemma token_nodelim cs : token cs -> Forall (fun c => negb (c =? DELIM) = true) cs.
Proof.
  intros [_ H]. eapply Forall_impl; [exact H|]. intros c [_ Hc]. by rewrite (proj2 (Z.eqb_neq _ _) Hc).
Qed.

Lemma token_skip cs s : token cs -> take_while (fun c => c =? DELIM) (cs ++ s) = [].
Proof.
  intros [Hn H]. destruct cs as [|c cs]; [done|]. apply take_while_none. cbn.
  apply Forall_cons in H as [[_ Hc] _]. by apply Z.eqb_neq.
Qed.

Lemma strtok_token pre cs rest : token cs ->
  strtok (pre ++ cs ++ DELIM :: rest) (length pre) =
    (Some (length pre), pre ++ cs ++ 0 :: rest, S (length pre + length cs)).
Proof.
  intros Ht. unfold strtok. cbv zeta. rewrite drop_app_length, c_str_app by by apply token_nonzero.
  rewrite token_skip by done. cbn [length]. rewrite drop_0, Nat.add_0_r.
  assert (E : c_str (DELIM :: rest) = DELIM :: c_str rest) by done. rewrite E.
  destruct (cs ++ DELIM :: c_str rest) eqn:Es; [by destruct cs|]. rewrite <- Es.
  rewrite take_while_stop by (done || by apply token_nodelim).
  rewrite decide_True by (rewrite length_app; cbn; lia). f_equal. f_equal.
  rewrite insert_app_r_alt by lia. f_equal. rewrite insert_app_r_alt by lia.
  by replace (length pre + length cs - length pre - length cs)%nat with 0%nat by lia.
Qed.

Lemma strtok_last pre cs rest : token cs ->
  strtok (pre ++ cs ++ 0 :: rest) (length pre) =
    (Some (length pre), pre ++ cs ++ 0 :: rest, (length pre + length cs)%nat).
Proof.
  intros Ht. unfold strtok. cbv zeta. rewrite drop_app_length, c_str_app by by apply token_nonzero.
  assert (E : c_str (0 :: rest) = []) by done. rewrite E, app_nil_r.
  pose proof (token_skip cs [] Ht) as Hs. rewrite app_nil_r in Hs. rewrite Hs.
  cbn [length]. rewrite drop_0, Nat.add_0_r. destruct cs as [|c p] eqn:Ec; [by destruct Ht|]. rewrite <- Ec.
  pose proof (take_while_stop (fun c => negb (c =? DELIM)) cs []) as Hw. rewrite app_nil_r in Hw.
  rewrite Hw by (done || (apply token_nodelim; by subst cs)). rewrite decide_False by lia. done.
Qed.

Lemma token_at pre cs rest : token cs -> c_str (drop (length pre) (pre ++ cs ++ 0 :: rest)) = cs.
Proof. intros H. rewrite drop_app_length, c_str_app by by apply token_nonzero. apply app_nil_r. Qed.

(** Digit strings. *)
Definition digits base cs : Prop := cs <> [] /\ Forall (fun c => digit_val c < base) cs.

Lemma digit_range base c : base <= 36 -> digit_val c < base -> 48 <= c <= 122.
Proof.
  intros Hb. unfold digit_val.
  destruct (Z.leb_spec 48 c), (Z.leb_spec c 57), (Z.leb_spec 97 c), (Z.leb_spec c 122),
    (Z.leb_spec 65 c), (Z.leb_spec c 90); cbn; lia.
Qed.

Lemma digits_token base cs : base <= 36 -> digits base cs -> token cs.
Proof.
  intros Hb [H1 H2]. split; [done|]. eapply Forall_impl; [exact H2|]. intros c Hc.
  apply (digit_range base) in Hc; unfold DELIM; lia.
Qed.

Lemma digit_val_nonneg c : 0 <= digit_val c.
Proof.
  unfold digit_val. destruct (Z.leb_spec 48 c), (Z.leb_spec c 57), (Z.leb_spec 97 c), (Z.leb_spec c 122),
    (Z.leb_spec 65 c), (Z.leb_spec c 90); cbn; lia.
Qed.

Lemma strtoul_digits base cs rest :
  base = 10 \/ base = 16 -> digits base cs ->
  match rest with [] => True | c :: _ => digit_val c = 36 /\ c <> 120 /\ c <> 88 end ->
  num_value base cs <= ULONG_MAX -> strtoul base (cs ++ rest) = num_value base cs.
Proof.
  intros Hb [Hn Hd] Hr Hmax. assert (Hb36 : base <= 16) by lia.
  destruct cs as [|c0 ct]; [done|]. set (cs := c0 :: ct) in *.
  assert (Hc0 : digit_val c0 < base) by (subst cs; by apply Forall_cons in Hd as [? _]).
  pose proof (digit_range base c0 ltac:(lia) Hc0) as Hr0. unfold strtoul.
  assert (Hsp : isspace c0 = false).
  { unfold isspace. destruct (Z.eqb_spec c0 32), (Z.leb_spec 9 c0), (Z.leb_spec c0 13); cbn; lia || done. }
  assert (E1 : take_while isspace (cs ++ rest) = []).
  { subst cs. by apply take_while_none. }
  rewrite E1. cbn [length]. rewrite drop_0.
  assert (E2 : match cs ++ rest with c :: _ => c =? 45 | [] => false end = false)
    by (subst cs; cbn; apply Z.eqb_neq; lia).
  assert (E3 : match cs ++ rest with c :: p => if (c =? 45) || (c =? 43) then p else cs ++ rest
                                   | [] => cs ++ rest end = cs ++ rest).
  { subst cs. cbn [app]. rewrite (proj2 (Z.eqb_neq c0 45)), (proj2 (Z.eqb_neq c0 43)) by lia. done. }
  rewrite E2, E3.
  assert (Hx : forall x, (exists p, cs ++ rest = c0 :: x :: p) -> x <> 120 /\ x <> 88).
  { intros x [p Hp]. subst cs. cbn [app] in Hp. injection Hp as Hp.
    destruct ct as [|c1 cs1]; cbn in Hp.
    - subst rest. tauto.
    - injection Hp as <- _. apply Forall_cons in Hd as [_ Hd]. apply Forall_cons in Hd as [Hd _].
      split; intros ->; revert Hd; unfold digit_val; cbn; lia. }
  assert (E4 : match cs ++ rest with
    | z :: x :: h :: p =>
        if (base =? 16) && (z =? 48) && ((x =? 120) || (x =? 88)) && (digit_val h <? 16)
        then h :: p else cs ++ rest
    | _ => cs ++ rest end = cs ++ rest).
  { destruct (cs ++ rest) as [|z [|x [|h p]]] eqn:El; try done.
    assert (z = c0) as -> by (subst cs; by injection El).
    destruct (Hx x ltac:(by eexists)) as [H1 H2].
    rewrite (proj2 (Z.eqb_neq x 120)), (proj2 (Z.eqb_neq x 88)) by done. by rewrite andb_false_r. }
  rewrite E4, take_while_stop.
  - cbv zeta. destruct (Z.ltb_spec ULONG_MAX (num_value base cs)); [lia|done].
  - eapply Forall_impl; [exact Hd|]. intros c Hc. by apply Z.ltb_lt.
  - destruct rest as [|c p]; [done|]. destruct Hr as (-> & _). apply Z.ltb_ge. lia.
Qed.
End Strings.

(** ** Reassembly of the answer *)

(** The state whose receive buffer holds the [st] received so far (and is zero after). *)
Definition with_stream (st : list Z) (v : vcheck) : vcheck :=
  set_v_resp (st ++ replicate (128 - length st) 0) (Z.of_nat (length st)) v.

Definition v_chain_ok (qs : list (list Z)) : Prop :=
  concat qs <> [] /\ Forall (fun q => Z.of_nat (length q) < 65536) qs.

Section Reassembly.
Implicit Types (v : vcheck) (st q : list Z) (qs : list (list Z)).

Lemma recv_chunk_stream st v q : (length st <= 127)%nat -> Z.of_nat (length q) < 65536 ->
  v_recv_chunk (with_stream st v) q = with_stream (take 127 (st ++ q)) v.
Proof.
  intros Hs Hq. unfold v_recv_chunk, with_stream. cbn [v_resp v_resp_len set_v_resp].
  rewrite Nat2Z.id. unfold set_v_resp; cbn -[replicate].
  set (c := if 127 <? _ then _ else _).
  assert (Hc : c = Z.of_nat (length q `min` (127 - length st))).
  { subst c. rewrite u32_small by lia. destruct (Z.ltb_spec 127 (Z.of_nat (length st) + Z.of_nat (length q))); lia. }
  rewrite Hc, Nat2Z.id, u32_small by lia.
  assert (Ht : take (length q `min` (127 - length st)) q = take (127 - length st) q).
  { destruct (decide (length q <= 127 - length st)%nat).
    - rewrite Nat.min_l by lia. by rewrite !take_ge by lia.
    - by rewrite Nat.min_r by lia. }
  assert (Hl : length (take 127 (st ++ q)) = (length st + length q `min` (127 - length st))%nat)
    by (rewrite length_take, length_app; lia).
  rewrite Ht, Hl. f_equal; [|lia].
  unfold splice. rewrite take_app_length, drop_app_ge by lia.
  rewrite length_take, drop_replicate, (take_app_ge st) by lia.
  rewrite <- app_assoc. do 2 f_equal. f_equal. lia.
Qed.

Lemma recv_chunks_stream qs st v : (length st <= 127)%nat ->
  Forall (fun q => Z.of_nat (length q) < 65536) qs ->
  foldl v_recv_chunk (with_stream st v) qs = with_stream (take 127 (st ++ concat qs)) v.
Proof.
  intros Hs Hq. revert st Hs. induction Hq as [|q qs Hq _ IH]; intros st Hs; cbn [foldl concat].
  - by rewrite app_nil_r, take_ge by lia.
  - rewrite recv_chunk_stream, IH by (done || rewrite length_take; lia). f_equal.
    rewrite (app_assoc st q). destruct (decide (length (st ++ q) <= 127)%nat).
    + by rewrite (take_ge (st ++ q)) by lia.
    + rewrite (take_app_le (st ++ q)) by lia. rewrite take_app_length' by (rewrite length_take; lia). done.
Qed.

(** The terminator is written inside the array and changes nothing. *)
Lemma terminate_stream st v : (length st <= 127)%nat ->
  set_v_resp (<[Z.to_nat (v_resp_len (with_stream st v)) := 0]> (v_resp (with_stream st v)))
             (v_resp_len (with_stream st v)) (with_stream st v) = with_stream st v.
Proof.
  intros H. unfold with_stream at 1 2 3 5. cbn [v_resp v_resp_len set_v_resp]. rewrite Nat2Z.id.
  unfold with_stream, set_v_resp. cbn -[replicate]. f_equal.
  rewrite insert_app_r_alt, Nat.sub_diag by lia. f_equal.
  replace (128 - length st)%nat with (S (127 - length st)) by lia. done.
Qed.
End Reassembly.

(** ** Parsing a complete answer *)
Definition resp_line (ver ds hs : list Z) : list Z :=
  RESP_PREFIX ++ ver ++ DELIM :: ds ++ DELIM :: hs ++ [13; 10].

(** A well-formed answer: the fields are tokens, the numbers fit, the line fits. *)
Definition good_resp (ver ds hs : list Z) : Prop :=
  token ver /\ digits 10 ds /\ digits 16 hs /\ Forall (fun c => c <> 10) ver /\
  num_value 10 ds <= ULONG_MAX /\ num_value 16 hs <= ULONG_MAX /\
  (length (resp_line ver ds hs) <= 127)%nat.

Section Parsing.
Implicit Types (ver ds hs : list Z).

Lemma crlf_token hs : digits 16 hs -> token (hs ++ [13; 10]).
Proof.
  intros H. apply digits_token in H as [H1 H2]; [|lia]. split; [by destruct hs|].
  apply Forall_app; split; [done|]. repeat constructor; done.
Qed.

Lemma parse_resp_spec ver ds hs v : good_resp ver ds hs ->
  exists buf, v_parse_resp (with_stream (resp_line ver ds hs) v) =
    set_v_ok true (set_v_resp buf (Z.of_nat (length (resp_line ver ds hs)))
      (set_v_crc (num_value 16 hs) (set_v_length (num_value 10 ds)
        (set_v_version (take 15 (ver ++ replicate 15 0) ++ [0]) v)))).
Proof.
  intros (Hv & Hd & Hh & _ & Hdm & Hhm & Hlen). unfold v_parse_resp, with_stream.
  cbn [v_resp v_resp_len set_v_resp].
  set (line := resp_line ver ds hs) in *.
  assert (Hbuf : exists z, line ++ replicate (128 - length line) 0 =
     [] ++ [82; 69; 83; 80] ++ DELIM :: ver ++ DELIM :: ds ++ DELIM :: (hs ++ [13; 10]) ++ 0 :: z).
  { exists (replicate (127 - length line) 0).
    replace (128 - length line)%nat with (S (127 - length line)) by lia.
    cbn [replicate]. subst line. unfold resp_line, RESP_PREFIX, DELIM.
    by repeat (rewrite <- ?app_assoc, <- ?app_comm_cons; cbn [app]). }
  destruct Hbuf as [z Hz]. cbn [v_resp set_v_resp]. rewrite Hz.
  assert (H1 : token [82; 69; 83; 80]) by (split; [done|]; repeat constructor; done).
  change 0%nat with (length (@nil Z)) at 1. rewrite strtok_token by done.
  set (p1 := [82; 69; 83; 80; 0]).
  change ([] ++ [82; 69; 83; 80] ++ 0 :: ?x) with (p1 ++ x).
  change (S (length [] + length [82; 69; 83; 80])) with (length p1). cbv beta iota.
  rewrite strtok_token, token_at by done. cbv beta iota.
  set (p2 := p1 ++ ver ++ [0]).
  assert (E2 : forall x, p1 ++ ver ++ 0 :: x = p2 ++ x) by (intros x; subst p2; by rewrite <- !app_assoc).
  assert (L2 : S (length p1 + length ver) = length p2) by (subst p2; rewrite !length_app; cbn; lia).
  rewrite E2, L2, strtok_token, token_at by (by apply (digits_token 10)).
  cbv beta iota.
  set (p3 := p2 ++ ds ++ [0]).
  assert (E3 : forall x, p2 ++ ds ++ 0 :: x = p3 ++ x) by (intros x; subst p3; by rewrite <- !app_assoc).
  assert (L3 : S (length p2 + length ds) = length p3) by (subst p3; rewrite !length_app; cbn; lia).
  rewrite E3, L3, strtok_last, token_at by by apply crlf_token. cbv beta iota.
  pose proof (strtoul_digits 10 ds [] ltac:(by left) Hd I Hdm) as Ed. rewrite app_nil_r in Ed.
  rewrite Ed, (strtoul_digits 16 hs [13; 10]) by (done || by right).
  eexists. reflexivity.
Qed.

Lemma version_c_str ver : token ver ->
  c_str (take 15 (ver ++ replicate 15 0) ++ [0]) = take 15 ver.
Proof.
  intros H. apply token_nonzero in H. rewrite take_app, <- app_assoc.
  rewrite c_str_app by by apply Forall_take.
  rewrite take_replicate. assert (Hz : forall n, c_str (replicate n 0 ++ [0]) = []) by by intros [].
  by rewrite Hz, app_nil_r.
Qed.

Lemma resp_line_snoc ver ds hs :
  resp_line ver ds hs = (RESP_PREFIX ++ ver ++ DELIM :: ds ++ DELIM :: hs ++ [13]) ++ [10].
Proof. unfold resp_line. by repeat (rewrite <- ?app_assoc, <- ?app_comm_cons; cbn [app]). Qed.

(** A proper prefix of the answer does not end with the line feed. *)
Lemma prefix_no_lf ver ds hs st rest : good_resp ver ds hs ->
  st ++ rest = resp_line ver ds hs -> rest <> [] -> Forall (fun c => c <> 10) st.
Proof.
  intros (Hv & Hd & Hh & Hlf & _) E Hr.
  assert (Hn : Forall (fun c => c <> 10) (RESP_PREFIX ++ ver ++ DELIM :: ds ++ DELIM :: hs ++ [13])).
  { assert (Hdig : forall base cs, base <= 36 -> digits base cs -> Forall (fun c => c <> 10) cs).
    { intros base cs Hb [_ Hc]. eapply Forall_impl; [exact Hc|]. intros c Hx.
      apply digit_range in Hx; lia. }
    repeat (apply Forall_app; split); try done; try (repeat constructor; done).
    apply Forall_cons; split; [done|]. apply Forall_app; split; [apply (Hdig 10); done|].
    apply Forall_cons; split; [done|]. apply Forall_app; split; [apply (Hdig 16); done|].
    repeat constructor; done. }
  rewrite resp_line_snoc in E. destruct rest as [|x rest _] using rev_ind; [done|].
  rewrite app_assoc in E. apply app_inj_tail in E as [E _]. rewrite <- E in Hn.
  by apply Forall_app in Hn as [? _].
Qed.

Lemma last_byte st v : (length st <= 127)%nat -> st <> [] ->
  v_resp (with_stream st v) !!! Z.to_nat (v_resp_len (with_stream st v) - 1) = List.last st 0.
Proof.
  intros H Hn. destruct st as [|x st _] using rev_ind; [done|].
  unfold with_stream. cbn [v_resp v_resp_len set_v_resp]. rewrite List.last_last.
  rewrite length_app in *. cbn [length] in *.
  apply list_lookup_total_correct. rewrite <- app_assoc, lookup_app_r by lia.
  by replace (Z.to_nat (Z.of_nat (length st + 1) - 1) - length st)%nat with 0%nat by lia.
Qed.
End Parsing.

(** ** The client on the stack *)
Section ClientRules.
Context {N : Type}.
Implicit Types (s : v_sys N).

Lemma wp_v_net_any {A} (m : M N A) (Q : A -> v_sys N -> Prop) s :
  (forall a n, Q a (mkVSys (vers s) n)) -> wp (v_net m) Q s.
Proof. intros H. cbv [wp v_net]. destruct (m (vnet s)). apply H. Qed.

Lemma wp_v_net {A} (m : M N A) (Q : A -> v_sys N -> Prop) s :
  Q (m (vnet s)).1 (mkVSys (vers s) (m (vnet s)).2) -> wp (v_net m) Q s.
Proof. intros H. cbv [wp v_net]. by destruct (m (vnet s)). Qed.

Lemma wp_v_set f (Q : unit -> v_sys N -> Prop) s :
  Q tt (mkVSys (f (vers s)) (vnet s)) -> wp (v_set f) Q s.
Proof. done. Qed.

Lemma wp_v_get {A} (f : vcheck -> A) (Q : A -> v_sys N -> Prop) s :
  Q (f (vers s)) s -> wp (v_get f) Q s.
Proof. by destruct s. Qed.
End ClientRules.

Ltac v_step :=
  lazymatch goal with
  | |- wp (bind _ _) _ _ => apply wp_bind
  | |- wp (ret _) _ _ => apply wp_ret
  | |- wp (v_set _) _ _ => apply wp_v_set
  | |- wp (v_get _) _ _ => apply wp_v_get
  | |- wp (v_net _) _ _ => apply wp_v_net_any; intros ? ?
  | |- wp (match ?x with _ => _ end) _ _ => destruct x eqn:?
  end; cbn [vers vnet].

Section Delivery.
Context {N : Type} `{!TcpApi N}.
Implicit Types (s : v_sys N) (pc : pcb).

(** The segments of the answer, in the order TCP delivers them. *)
Fixpoint v_deliver pc (chains : list (list (list Z))) : M (v_sys N) unit :=
  match chains with
  | [] => ret tt
  | qs :: p => v_recv_cb pc (Some qs) ;;; v_deliver pc p
  end.

(** What the stack is asked for the pieces of the answer: every one acknowledged with
    its number of bytes and its chain freed. *)
Fixpoint v_answered pc (chains : list (list (list Z))) : M N unit :=
  match chains with
  | [] => ret tt
  | qs :: p => tcp_recved pc (tot_len qs) ;;; pbuf_free_chain qs ;;; v_answered pc p
  end.

(** Everything the client asks of the stack once it is connected. *)
Definition v_session pc (chains : list (list (list Z))) : M N unit :=
  tcp_recv pc V_RECV_CB ;;; tcp_err pc V_ERR_CB ;;; tcp_write pc VERSION_MSG ;;;
  tcp_output pc ;;; v_answered pc chains ;;; tcp_close pc ;;; ret tt.

Definition v_inv (v : vcheck) : Prop :=
  length (v_resp v) = 128%nat /\ 0 <= v_resp_len v <= 127 /\ length (v_version v) = 16%nat.

(** What is left of the callback once the chain is in the buffer. *)
Definition v_finish pc (v : vcheck) : M (v_sys N) Z :=
  if (0 <? v_resp_len v) && (v_resp v !!! Z.to_nat (v_resp_len v - 1) =? 10) then
    v_set (set_v_connected true) ;;;
    (if bool_decide (take 5 (v_resp v) = RESP_PREFIX)
     then v_set v_parse_resp else v_set (set_v_ok false)) ;;;
    v_net (tcp_close pc) ;;;
    v_set (set_v_pcb None) ;;;
    v_set (set_v_done true) ;;;
    ret ERR_OK
  else ret ERR_OK.

Lemma answered_cons pc qs p n :
  v_answered pc (qs :: p) n = v_answered pc p (v_answered pc [qs] n).2.
Proof.
  cbn. unfold bind. destruct (tcp_recved _ _ _) as [? n1]. by destruct (pbuf_free_chain _ _).
Qed.

Lemma wp_recv_cb pc qs st v n (Q : Z -> v_sys N -> Prop) :
  (length (st ++ concat qs) <= 127)%nat -> Forall (fun q => Z.of_nat (length q) < 65536) qs ->
  (let v' := with_stream (st ++ concat qs) v in
     wp (v_finish pc v') Q (mkVSys v' (v_answered pc [qs] n).2)) ->
  wp (v_recv_cb pc (Some qs)) Q (mkVSys (with_stream st v) n).
Proof.
  intros Hs Hq H. pose proof Hs as Hs'. rewrite length_app in Hs'. apply wp_bind, wp_v_set. cbn [vers vnet].
  rewrite recv_chunks_stream, take_ge by (done || lia). apply wp_bind, wp_v_set. cbn [vers vnet].
  rewrite terminate_stream by done.
  rewrite u16_small by (unfold tot_len; lia).
  apply wp_bind, wp_v_net, wp_bind, wp_v_net, wp_bind, wp_v_get. cbn [vers vnet].
  cbn [v_answered] in H. unfold bind in H.
  destruct (tcp_recved _ _ _) as [? n1]. cbn [snd]. by destruct (pbuf_free_chain _ _).
Qed.

(** No line feed yet: the callback only stores the bytes. *)
Lemma recv_cb_partial pc qs st v n :
  (length (st ++ concat qs) <= 127)%nat -> Forall (fun q => Z.of_nat (length q) < 65536) qs ->
  Forall (fun c => c <> 10) (st ++ concat qs) ->
  wp (v_recv_cb pc (Some qs)) (fun r s' => r = ERR_OK /\
       s' = mkVSys (with_stream (st ++ concat qs) v) (v_answered pc [qs] n).2)
     (mkVSys (with_stream st v) n).
Proof.
  intros Hl Hq Hn. apply wp_recv_cb; [done..|]. cbv zeta.
  set (st' := st ++ concat qs) in *. unfold v_finish.
  destruct (decide (st' = [])) as [->|Hne]; [done|].
  clearbody st'.
  assert (Hlast : List.last st' 0 <> 10).
  { destruct st' as [|x l _] using rev_ind; [done|]. rewrite List.last_last.
    apply Forall_app in Hn as [_ Hn]. by apply Forall_cons in Hn as [Hn _]. }
  rewrite last_byte, (proj2 (Z.eqb_neq _ 10)), andb_false_r by done.
  by apply wp_ret.
Qed.

(** The client has the answer's fields and no pcb any more. *)
Definition answer_stored (v : vcheck) (ver ds hs : list Z) : Prop :=
  v_pcb v = None /\ v_done v = true /\ v_ok v = true /\ v_connected v = true /\
  v_version v = take 15 (ver ++ replicate 15 0) ++ [0] /\
  v_length v = num_value 10 ds /\ v_crc v = num_value 16 hs.

(** The line feed: the fields are stored, the connection is closed. *)
Lemma recv_cb_last pc qs st v n ver ds hs :
  good_resp ver ds hs -> st ++ concat qs = resp_line ver ds hs ->
  Forall (fun q => Z.of_nat (length q) < 65536) qs ->
  wp (v_recv_cb pc (Some qs)) (fun r s' => r = ERR_OK /\ answer_stored (vers s') ver ds hs /\
       vnet s' = (tcp_close pc (v_answered pc [qs] n).2).2)
     (mkVSys (with_stream st v) n).
Proof.
  intros Hg E Hq. pose proof Hg as (_ & _ & _ & _ & _ & _ & Hlen).
  apply wp_recv_cb; [by rewrite E|done|]. cbv zeta.
  rewrite E. set (line := resp_line ver ds hs) in *. unfold v_finish.
  assert (Hne : line <> []) by done.
  assert (Hlast : List.last line 0 = 10) by (subst line; rewrite resp_line_snoc; apply List.last_last).
  rewrite last_byte, Hlast, Z.eqb_refl, andb_true_r by done.
  rewrite (proj2 (Z.ltb_lt _ _)) by
    (cbn [with_stream v_resp_len set_v_resp]; destruct line; [done|cbn [length]; lia]).
  rewrite bool_decide_true by done.
  apply wp_bind, wp_v_set, wp_bind, wp_v_set. cbn [vers vnet].
  change (set_v_connected true (with_stream line v)) with (with_stream line (set_v_connected true v)).
  destruct (parse_resp_spec ver ds hs (set_v_connected true v) Hg) as [buf Hb].
  fold line in Hb. rewrite Hb.
  apply wp_bind, wp_v_net. repeat v_step. by repeat split.
Qed.

Lemma deliver_spec pc chains st v n ver ds hs :
  good_resp ver ds hs -> Forall v_chain_ok chains -> chains <> [] ->
  st ++ concat (map (@concat Z) chains) = resp_line ver ds hs ->
  wp (v_deliver pc chains) (fun _ s' => answer_stored (vers s') ver ds hs /\
       vnet s' = (tcp_close pc (v_answered pc chains n).2).2)
     (mkVSys (with_stream st v) n).
Proof.
  intros Hg Hc. revert st n. induction Hc as [|qs p [Hq1 Hq2] Hp IH]; intros st n Hne E; [done|].
  cbn [v_deliver map concat] in *. apply wp_bind. destruct p as [|qs' p].
  - cbn in E. rewrite app_nil_r in E.
    eapply wp_mono; [by eapply recv_cb_last|]. cbv beta. intros r s' (_ & H). by apply wp_ret.
  - rewrite (app_assoc st) in E.
    assert (Hrest : concat (map (@concat Z) (qs' :: p)) <> []).
    { apply Forall_cons in Hp as [[Hn _] _]. cbn. by destruct (concat qs'). }
    pose proof (prefix_no_lf _ _ _ _ _ Hg E Hrest) as Hnl.
    eapply wp_mono; [apply (recv_cb_partial pc qs st v n); try done|].
    + destruct Hg as (_ & _ & _ & _ & _ & _ & Hg). rewrite <- E, length_app in Hg. lia.
    + cbv beta. intros r s' (_ & ->). rewrite answered_cons. by apply IH.
Qed.
End Delivery.

(** ** Buffer safety *)
Section Safety.
Context {N : Type} `{!TcpApi N}.
Implicit Types (s : v_sys N) (v : vcheck).

Lemma recv_chunk_safe v q : v_inv v -> Z.of_nat (length q) < 65536 -> v_inv (v_recv_chunk v q).
Proof.
  unfold v_inv, v_recv_chunk. intros (H1 & H2 & H3) Hq. cbv zeta.
  set (c := if 127 <? _ then _ else _).
  assert (Hc : 0 <= c <= 127 - v_resp_len v /\ c <= Z.of_nat (length q)).
  { subst c. rewrite u32_small by lia.
    destruct (Z.ltb_spec 127 (v_resp_len v + Z.of_nat (length q))); lia. }
  cbn [v_resp v_resp_len v_version set_v_resp]. rewrite u32_small by lia. split_and!; try lia.
  unfold splice. rewrite !length_app, length_drop, !length_take. lia.
Qed.

Lemma strtok_length buf pos : length (strtok buf pos).1.2 = length buf.
Proof.
  unfold strtok. cbv zeta. destruct (drop _ _); [done|].
  destruct (decide _); cbn [fst snd]; [by rewrite length_insert|done].
Qed.

Lemma parse_resp_safe v : v_inv v -> v_inv (v_parse_resp v) /\ v_ok (v_parse_resp v) = true.
Proof.
  intros (H1 & H2 & H3). unfold v_parse_resp.
  destruct (strtok (v_resp v) 0) as [[t0 b0] p0] eqn:E0.
  destruct (strtok b0 p0) as [[t1 b1] p1] eqn:E1.
  destruct (strtok b1 p1) as [[t2 b2] p2] eqn:E2.
  destruct (strtok b2 p2) as [[t3 b3] p3] eqn:E3.
  pose proof (strtok_length (v_resp v) 0) as L0. pose proof (strtok_length b0 p0) as L1.
  pose proof (strtok_length b1 p1) as L2. pose proof (strtok_length b2 p2) as L3.
  rewrite E0 in L0. rewrite E1 in L1. rewrite E2 in L2. rewrite E3 in L3. cbn [fst snd] in *.
  assert (Hver : forall x, length (take 15 (x ++ replicate 15 0) ++ [0]) = 16%nat)
    by (intros x; rewrite length_app, length_take, length_app, length_replicate; cbn [length]; lia).
  split; [|done]. unfold v_inv.
  destruct t1, t2, t3; cbn [v_resp v_resp_len v_version set_v_resp set_v_ok set_v_crc set_v_length
    set_v_version]; rewrite ?Hver; split_and!; try (congruence || lia).
Qed.
Lemma recv_cb_inv pc qs s :
  v_inv (vers s) -> Forall (fun q => Z.of_nat (length q) < 65536) qs ->
  wp (v_recv_cb pc (Some qs)) (fun r s' => r = ERR_OK /\ v_inv (vers s') /\
    (v_done (vers s') = v_done (vers s) \/
     v_done (vers s') = true /\ v_connected (vers s') = true /\ v_pcb (vers s') = None)) s.
Proof.
  intros Hi Hq. apply wp_bind, wp_v_set. cbn [vers vnet].
  assert (Hf : let v := foldl v_recv_chunk (vers s) qs in v_inv v /\ v_done v = v_done (vers s)).
  { generalize (vers s) Hi. induction Hq as [|q l Hq _ IH]; intros v Hv; [done|]. cbn [foldl].
    destruct (IH (v_recv_chunk v q)) as [? ->]; [by apply recv_chunk_safe|done]. }
  cbv zeta in Hf. destruct Hf as [(H1 & H2 & H3) Hd]. set (v := foldl _ _ _) in *.
  apply wp_bind, wp_v_set. cbn [vers vnet].
  set (v' := set_v_resp _ _ v).
  assert (Hv' : v_inv v' /\ v_done v' = v_done (vers s))
    by (split; [unfold v_inv, v'; cbn [v_resp v_resp_len v_version set_v_resp];
                by rewrite length_insert|done]).
  clearbody v'. destruct Hv' as [Hv' Hd'].
  apply wp_bind, wp_v_net_any. intros _ n1. apply wp_bind, wp_v_net_any. intros _ n2.
  apply wp_bind, wp_v_get. cbn [vers vnet]. change (id v') with v'.
  destruct ((0 <? v_resp_len v') && _).
  - apply wp_bind, wp_v_set, wp_bind. cbn [vers vnet].
    destruct (bool_decide _); apply wp_v_set; repeat v_step; (split; [done|]).
    + destruct (parse_resp_safe (set_v_connected true v') Hv') as [Hp _]. split; [exact Hp|right].
      split; [done|]. split; [|done]. unfold v_parse_resp. cbn.
      by repeat match goal with |- context [let '(_, _) := ?x in _] => destruct x as [[[?|] ?] ?] end.
    + split; [exact Hv'|right]. done.
  - apply wp_ret. split; [done|]. split; [done|by left].
Qed.
End Safety.

(** The receive callback of the version client keeps the response inside its 128-byte
    buffer, zero-terminated, for every pbuf chain. *)
Theorem v_recv_cb_safe {N} `{!TcpApi N} pc qs (s : v_sys N) :
  v_inv (vers s) -> Forall (fun q => Z.of_nat (length q) < 65536) qs ->
  wp (v_recv_cb pc (Some qs)) (fun r s' => r = ERR_OK /\ v_inv (vers s') /\
    (v_done (vers s') = v_done (vers s) \/
     v_done (vers s') = true /\ v_connected (vers s') = true /\ v_pcb (vers s') = None)) s.
Proof. apply recv_cb_inv. Qed.

Definition vcheck0 : vcheck :=
  mkV None false false false (replicate 128 0) 0 (replicate 16 0) 0 0.

Lemma v_recv_cb_safe_witness :
  wp (v_recv_cb 7 (Some [[82; 69]; replicate 300 65; [10]])) (fun r s' =>
    r = ERR_OK /\ v_inv (vers s') /\
    (v_done (vers s') = false \/
     v_done (vers s') = true /\ v_connected (vers s') = true /\ v_pcb (vers s') = None))
    (mkVSys vcheck0 net0).
Proof.
  apply (v_recv_cb_safe 7 [[82; 69]; replicate 300 65; [10]] (mkVSys vcheck0 net0)).
  - split; [reflexivity|]. split; [cbn; lia|reflexivity].
  - repeat (apply Forall_cons_2; [rewrite ?length_replicate; cbn; lia|]). apply Forall_nil_2.
Defined.

(** The whole exchange: start, connected, the segments of the answer. *)
Definition v_query {N} `{!TcpApi N} (pc : pcb) (chains : list (list (list Z))) : M (v_sys N) unit :=
  Version_Check_Start ;;; v_connect_cb pc ERR_OK ;;; v_deliver pc chains.

(** C40. When tcp_new and tcp_connect succeed, then however TCP cuts a well-formed
    answer line of at most 127 bytes into segments, the version client ends with the
    version (up to 15 characters), the decimal size and the hexadecimal CRC of the line;
    of the stack it has asked exactly to send its query, to acknowledge and free each
    piece and, at the end, to close the connection. *)
Theorem version_answer_parsed {N} `{!TcpApi N} pc chains ver ds hs (s : v_sys N) n1 n2 :
  v_pcb (vers s) = None ->
  tcp_new (vnet s) = (Some pc, n1) -> tcp_connect pc VCHECK_PORT V_CONNECT_CB n1 = (ERR_OK, n2) ->
  good_resp ver ds hs -> Forall v_chain_ok chains ->
  concat (map (@concat Z) chains) = resp_line ver ds hs ->
  wp (v_query pc chains) (fun _ s' => v_pcb (vers s') = None /\
    v_done (vers s') = true /\ v_ok (vers s') = true /\ v_connected (vers s') = true /\
    (Version_Check_Get s').1 = (take 15 ver, num_value 10 ds, num_value 16 hs) /\
    vnet s' = (v_session pc chains n2).2) s.
Proof.
  destruct s as [v n]. cbn [vers vnet]. intros Hp Hnew Hcon Hg Hc E.
  assert (Hstart : wp Version_Check_Start (fun _ s' => exists v', s' = mkVSys (with_stream [] v') n2)
                     (mkVSys v n)).
  { apply wp_bind, wp_v_get. cbn [vers]. rewrite Hp. apply wp_bind, wp_v_set, wp_bind.
    cbn [vers vnet]. unfold wp, v_net. cbn [vnet vers]. rewrite Hnew. apply wp_bind, wp_v_set.
    cbn [vers vnet]. apply wp_bind. unfold wp at 1, v_net. cbn [vnet vers]. rewrite Hcon. cbn.
    by exists (set_v_pcb (Some pc) (set_v_connected false (set_v_ok false (set_v_done false v)))). }
  apply wp_bind. eapply wp_mono; [exact Hstart|]. cbv beta. intros _ ? [v1 ->].
  apply wp_bind. unfold v_connect_cb. cbn [negb Z.eqb ERR_OK].
  do 4 apply wp_bind, wp_v_net. apply wp_ret. cbn [vers vnet].
  eapply wp_mono; [apply (deliver_spec pc chains [] v1 _ ver ds hs Hg Hc)|].
  - intros ->. done.
  - exact E.
  - cbv beta. intros _ [v2 n9] [(H1 & H2 & H3 & H4 & H5 & H6 & H7) Hn].
    cbn in H1, H2, H3, H4, H5, H6, H7, Hn.
    repeat (split; [done|]). split.
    + unfold Version_Check_Get, v_get, v_on, gets. cbn.
      destruct Hg as (Hv & _). rewrite H5, H6, H7, version_c_str by done.
      destruct ver as [|c ver]; [by destruct Hv|]. cbn.
      destruct Hv as [_ Hv]. apply Forall_cons in Hv as [[Hv _] _].
      by rewrite (proj2 (Z.eqb_neq _ _) Hv).
    + cbn [vnet]. rewrite Hn. unfold v_session, bind.
      repeat match goal with |- context [let '(_, _) := ?m in _] => destruct m eqn:?; cbn [snd] end.
      done.
Qed.

(** "1.2.3", "1024", "DEADBEEF" *)
Definition demo_ver : list Z := [49; 46; 50; 46; 51].
Definition demo_len : list Z := [49; 48; 50; 52].
Definition demo_crc : list Z := [68; 69; 65; 68; 66; 69; 69; 70].
Definition demo_answer : list (list (list Z)) :=
  [[[82; 69; 83]; [80; 124; 49]]; [[46; 50; 46; 51; 124; 49; 48; 50; 52; 124; 68; 69]];
   [[65; 68; 66; 69; 69; 70; 13]]; [[10]]].

Lemma demo_values : take 15 demo_ver = demo_ver /\ num_value 10 demo_len = 1024 /\ num_value 16 demo_crc = 0xDEADBEEF.
Proof. vm_compute. done. Qed.
Lemma demo_session : (v_session 1 demo_answer (mkNet 2 [] [] [] [])).2 = mkNet 2 [] [(1, V_ERR_CB)] [(1, VERSION_MSG)] [].
Proof. vm_compute. reflexivity. Qed.
Lemma demo_good : good_resp demo_ver demo_len demo_crc.
Proof.
  assert (Hd : forall base cs, cs <> [] -> bool_decide (Forall (fun c => digit_val c < base) cs) ->
             digits base cs) by (intros base cs H1 H2; split; [done|by apply bool_decide_unpack in H2]).
  assert (Hv : token demo_ver)
    by (split; [done|apply (bool_decide_unpack _); by vm_compute]).
  unfold good_resp. split; [exact Hv|]. split; [by apply Hd|]. split; [by apply Hd|].
  split; [apply (bool_decide_unpack _); by vm_compute|].
  split; [by vm_compute|]. split; [by vm_compute|]. cbn. lia.
Qed.
Lemma demo_chains : Forall v_chain_ok demo_answer /\ concat (map (@concat Z) demo_answer) = resp_line demo_ver demo_len demo_crc.
Proof. split; [apply (bool_decide_unpack _); by vm_compute|reflexivity]. Qed.
Lemma version_answer_parsed_witness :
  wp (v_query 1 demo_answer) (fun _ s' => v_pcb (vers s') = None /\
    v_done (vers s') = true /\ v_ok (vers s') = true /\ v_connected (vers s') = true /\
    (Version_Check_Get s').1 = (demo_ver, 1024, 0xDEADBEEF) /\
    vnet s' = mkNet 2 [] [(1, V_ERR_CB)] [(1, VERSION_MSG)] []) (mkVSys vcheck0 net0).
Proof.
  destruct demo_values as (Ev & El & Ec). pose proof (version_answer_parsed 1 demo_answer demo_ver demo_len demo_crc (mkVSys vcheck0 net0)
    (mkNet 2 [] [] [] []) (mkNet 2 [] [] [] []) eq_refl eq_refl eq_refl demo_good (proj1 demo_chains) (proj2 demo_chains)) as H.
  rewrite demo_session, Ev, El, Ec in H. exact H.
Defined.

(** After the peer has closed without an answer the pcb is still set, and the next
    Version_Check_Start does nothing. *)
Theorem version_retry_stuck {N} `{!TcpApi N} pc (s : v_sys N) p :
  v_pcb (vers s) = Some p ->
  wp (v_recv_cb pc None ;;; Version_Check_Start) (fun _ s' =>
    vers s' = set_v_done true (vers s) /\ vnet s' = vnet s) s.
Proof.
  destruct s as [v n]. cbn [vers vnet]. intros Hp.
  cbv [wp v_recv_cb Version_Check_Start bind v_set v_get v_on modify gets ret]. cbn.
  by rewrite Hp.
Qed.

Lemma version_retry_stuck_witness :
  v_pcb (vers (Version_Check_Start (mkVSys vcheck0 net0)).2) = Some 1 /\
  wp (v_recv_cb 1 None ;;; Version_Check_Start) (fun _ s' =>
    v_pcb (vers s') = Some 1 /\ v_done (vers s') = true)
    (Version_Check_Start (mkVSys vcheck0 net0)).2.
Proof.
  split; [reflexivity|]. eapply wp_mono.
  - apply (version_retry_stuck 1 _ 1). reflexivity.
  - cbv beta. by intros _ s' [-> _].
Defined.
