(* ===== verification/Menu.v ===== *)
(** * The menu and the main loop (menu/menu.c, main.c)

    [Firmware_Update], [Menu_HandleKey] and one round of [interactive_mode], on the
    whole state of the bootloader.  What comes from outside -- received frames with
    the callbacks they cause, expired timers, keys, the tick counter -- is the class
    [Console].  Proved: downloading never touches a flash memory, and no run of the
    main loop changes the application unless the user asks for it. *)
From S2P Require Import Prelude Crc32 Hal SimDevice QspiFlash QspiReliable Metadata MetaLayout Net SimNet Ota OtaRecv OtaPoll OtaFlash OtaSystem Restore Boot VersionCheck.

(** A call of the stack to a function of the application. *)
Inductive net_event :=
| CbAccept (p : pcb) | CbRecv (pc : pcb) (p : option (list (list Z))) | CbErr
| CbVConnect (pc : pcb) (err : Z) | CbVRecv (pc : pcb) (p : option (list (list Z))) | CbVErr.

(** The inputs of the main loop: [eth_irq] tells whether the Ethernet interrupt has
    set [flag] since it was last looked at. *)
Class Console (E : Type) := {
  eth_irq : M E bool;
  ethernetif_input : M E (list net_event);
  sys_check_timeouts : M E (list net_event);
  Netif_start : M E unit;
  UART_ReadKey_NonBlock : M E Z;
  UART_ReadKey_Blocking : M E Z;
  HAL_GetTick : M E Z
}.

(** [prog] is [(last_pct, last_tick)] of the progress bar. *)
Record menu_sys (N W E : Type) := mkMenu {
  m_ota : ota_t;
  m_ver : vcheck;
  m_net : N;
  m_board : board W;
  m_flag : bool;
  m_prompted : bool;
  m_prog : Z * Z;
  m_env : E
}.
Arguments mkMenu {N W E}. Arguments m_ota {N W E}. Arguments m_ver {N W E}. Arguments m_net {N W E}.
Arguments m_board {N W E}. Arguments m_flag {N W E}. Arguments m_prompted {N W E}.
Arguments m_prog {N W E}. Arguments m_env {N W E}.

(** How the menu leaves the main loop. *)
Inductive exit_kind := SystemReset | Jumped (o : boot_outcome).

(** [Waiting]: an inner loop still waits for the user or the network. *)
Inductive menu_result := Stay | Waiting | Exit (x : exit_kind).

Definition KEY_ESC : Z := 27.
Definition is_yes (c : Z) : bool := (c =? 121) || (c =? 89).
Definition is_no (c : Z) : bool := (c =? 110) || (c =? 78) || (c =? KEY_ESC).

(** The percentage of the progress bar, and how many of its 30 cells are full. *)
Definition progress_pct (exp got : Z) : Z := if exp =? 0 then 0 else (got *% 100) / exp.
Definition progress_cells (pct : Z) : Z :=
  Z.of_nat (length (filter (fun i => Z.of_nat i < (pct *% 30) / 100) (seq 0 30))).

Section Menu.
Context {N W E : Type} `{!TcpApi N} `{!HalOps W} `{!Console E} {layout : MetaLayout}.
#[local] Abbreviation sys := (menu_sys N W E).

(** *** The parts of the state *)
Definition sys_of (s : sys) : ota_sys N W := mkSys (m_ota s) (m_net s) (b_hw (m_board s)).
Definition on_sys {A} (m : M (ota_sys N W) A) : M sys A := fun s =>
  let '(a, o) := m (sys_of s) in
  let b := m_board s in
  (a, mkMenu (ota o) (m_ver s) (net o)
        (mkBoard (hw o) (qspi_inited b) (eth_inited b) (rsr b) (iwdg b))
        (m_flag s) (m_prompted s) (m_prog s) (m_env s)).
Definition on_vers {A} (m : M (v_sys N) A) : M sys A := fun s =>
  let '(a, v) := m (mkVSys (m_ver s) (m_net s)) in
  (a, mkMenu (m_ota s) (vers v) (vnet v) (m_board s) (m_flag s) (m_prompted s) (m_prog s) (m_env s)).
Definition on_board {A} (m : M (board W) A) : M sys A := fun s =>
  let '(a, b) := m (m_board s) in
  (a, mkMenu (m_ota s) (m_ver s) (m_net s) b (m_flag s) (m_prompted s) (m_prog s) (m_env s)).
Definition on_env {A} (m : M E A) : M sys A := fun s =>
  let '(a, e) := m (m_env s) in
  (a, mkMenu (m_ota s) (m_ver s) (m_net s) (m_board s) (m_flag s) (m_prompted s) (m_prog s) e).
Definition set_flag (f : bool) : M sys unit := modify (fun s =>
  mkMenu (m_ota s) (m_ver s) (m_net s) (m_board s) f (m_prompted s) (m_prog s) (m_env s)).
Definition set_prompted (p : bool) : M sys unit := modify (fun s =>
  mkMenu (m_ota s) (m_ver s) (m_net s) (m_board s) (m_flag s) p (m_prog s) (m_env s)).
Definition set_prog (p : Z * Z) : M sys unit := modify (fun s =>
  mkMenu (m_ota s) (m_ver s) (m_net s) (m_board s) (m_flag s) (m_prompted s) p (m_env s)).

(** *** Running the stack *)
Definition run_cb (e : net_event) : M sys unit :=
  match e with
  | CbAccept p => on_sys (ota_accept_cb p) ;;; ret tt
  | CbRecv pc p => on_sys (ota_recv_cb pc p) ;;; ret tt
  | CbErr => on_sys ota_err_cb
  | CbVConnect pc err => on_vers (v_connect_cb pc err) ;;; ret tt
  | CbVRecv pc p => on_vers (v_recv_cb pc p) ;;; ret tt
  | CbVErr => on_vers v_err_cb
  end.

Fixpoint run_cbs (l : list net_event) : M sys unit :=
  match l with
  | [] => ret tt
  | e :: l' => run_cb e ;;; run_cbs l'
  end.

(** [if (flag) { flag = 0; ethernetif_input(&gnetif); }], the interrupt first. *)
Definition Net_Input : M sys unit :=
  irq <- on_env eth_irq ;;
  (if irq : bool then set_flag true else ret tt) ;;;
  f <- gets m_flag ;;
  if f : bool then set_flag false ;;; evs <- on_env ethernetif_input ;; run_cbs evs else ret tt.

Definition Net_Timeouts : M sys unit := evs <- on_env sys_check_timeouts ;; run_cbs evs.

Definition Eth_Init_Once : M sys unit :=
  e <- gets (fun s => eth_inited (m_board s)) ;;
  if e : bool then ret tt
  else on_env Netif_start ;;; on_board (set_eth_inited true).

Definition WaitKey_WithLwIP : M sys Z :=
  Net_Input ;;; Net_Timeouts ;;; on_env UART_ReadKey_NonBlock.

(** *** Firmware update: menu key 2 *)

(** Wait for the answer of the version server, at most 6 s. *)
Definition version_wait (fuel : nat) : M sys (option unit) :=
  t0 <- on_env HAL_GetTick ;;
  forever fuel (
    d <- on_vers Version_Check_IsDone ;;
    if d : bool then ret (Some tt) else
    Net_Input ;;; Net_Timeouts ;;;
    t <- on_env HAL_GetTick ;;
    ret (if 6000 <? t -% t0 then Some tt else None)).

(** Wait for the PC to connect, at most 2 s. *)
Definition trigger_wait (fuel : nat) : M sys (option bool) :=
  tw0 <- on_env HAL_GetTick ;;
  forever fuel (
    t <- on_env HAL_GetTick ;;
    if negb (t -% tw0 <? 2000) then ret (Some false) else
    Net_Input ;;; Net_Timeouts ;;;
    c <- on_sys OTA_GetClientPcb ;;
    ret (match c with Some _ => Some true | None => None end)).

(** [for (t = 0; t < 3; t++)]: send the trigger, wait; [Some true] = connected. *)
Fixpoint trigger_rounds (fuel n : nat) : M sys (option bool) :=
  match n with
  | O => ret (Some false)
  | S n' =>
      on_sys OTA_SendTrigger ;;;
      r <- trigger_wait fuel ;;
      match r with
      | None => ret None
      | Some true => ret (Some true)
      | Some false => trigger_rounds fuel n'
      end
  end.

(** After the user's yes. *)
Definition start_update (fuel : nat) (crc : Z) : M sys (option Z) :=
  on_sys (OTA_SetExpectedCRC crc) ;;;
  r <- on_sys OTA_Server_Start ;;
  if negb (r =? 0)
  then on_sys OTA_Server_Stop ;;; on_sys OTA_ResetState ;;; ret (Some 1)
  else
    c <- trigger_rounds fuel 3 ;;
    match c with
    | None => ret None
    | Some true => ret (Some 0)
    | Some false => on_sys OTA_Server_Stop ;;; on_sys OTA_ResetState ;;; ret (Some 1)
    end.

(** One attempt; [Retry] is [goto retry]. *)
Inductive attempt_result := Retry | Result (r : Z) | StillWaiting.

Definition ask_update (fuel : nat) (crc : Z) : M sys (option attempt_result) :=
  forever fuel (
    c <- WaitKey_WithLwIP ;;
    if is_yes c then
      r <- start_update fuel crc ;;
      ret (Some (match r with Some r => Result r | None => StillWaiting end))
    else if is_no c then ret (Some (Result 1))
    else ret None).

Definition ask_escape (fuel : nat) : M sys (option attempt_result) :=
  forever fuel (
    c <- WaitKey_WithLwIP ;;
    ret (if c =? KEY_ESC then Some (Result 1) else None)).

Definition ask_retry (fuel : nat) : M sys (option attempt_result) :=
  forever fuel (
    c <- WaitKey_WithLwIP ;;
    ret (if c =? 49 then Some (Result 1) else if c =? 50 then Some Retry else None)).

Definition update_attempt (fuel : nat) : M sys attempt_result :=
  on_vers Version_Check_Start ;;;
  w <- version_wait fuel ;;
  match w with
  | None => ret StillWaiting
  | Some _ =>
      ok <- on_vers Version_Check_IsOK ;;
      con <- on_vers Version_Check_IsConnected ;;
      a <- (if ok : bool then
              v <- on_vers Version_Check_Get ;;
              ask_update fuel v.2
            else if con : bool then ask_escape fuel
            else ask_retry fuel) ;;
      ret (default StillWaiting a)
  end.

Definition Firmware_Update (fuel : nat) : M sys (option Z) :=
  Eth_Init_Once ;;;
  r <- forever fuel (
    a <- update_attempt fuel ;;
    ret (match a with
         | Retry => None
         | Result r => Some (Some r)
         | StillWaiting => Some None
         end)) ;;
  ret (mjoin r).

(** *** The keys of the menu *)
Definition Menu_HandleKey (fuel : nat) (key : Z) : M sys menu_result :=
  recv <- on_sys OTA_IsReceiving ;;
  conf <- on_sys OTA_IsConfirm ;;
  let busy := recv || conf in
  if key =? 50 then
    if busy then ret Stay
    else r <- Firmware_Update fuel ;;
         ret (match r with Some _ => Stay | None => Waiting end)
  else if key =? 51 then on_board (on_dev Backup_SlotA) ;;; ret Stay
  else if key =? 52 then on_board (on_dev Restore_SlotA) ;;; ret Stay
  else if key =? 54 then on_board (on_dev (modify (HAL_Delay 50))) ;;; ret (Exit SystemReset)
  else if key =? 53 then o <- on_board JumpToApp ;; ret (Exit (Jumped o))
  else if key =? KEY_ESC then
    (if busy then on_sys OTA_Abort else ret tt) ;;; ret Stay
  else ret Stay.

(** *** The main loop *)

(** The progress bar: what is printed, when it changed or 200 ms have passed. *)
Definition OTA_progress : M sys (option (Z * Z)) :=
  r <- on_sys OTA_IsReceiving ;;
  if negb r then ret None else
  exp <- on_sys OTA_GetExpected ;;
  got <- on_sys OTA_GetReceived ;;
  let pct := progress_pct exp got in
  last <- gets m_prog ;;
  due <- (if negb (pct =? last.1) then ret true
          else t <- on_env HAL_GetTick ;; ret (200 <? t -% last.2)) ;;
  if due : bool
  then t <- on_env HAL_GetTick ;; set_prog (pct, t) ;;; ret (Some (pct, progress_cells pct))
  else ret None.

(** The question of the state CONFIRM; [ver] as in [OTA_Flash_Write]. *)
Definition OTA_confirm (ver : Z * Z * Z) : M sys (option exit_kind) :=
  conf <- on_sys OTA_IsConfirm ;;
  if negb conf then ret None else
  set_prompted true ;;;
  c <- on_env UART_ReadKey_Blocking ;;
  if is_yes c then
    r <- on_sys (OTA_Flash_Write ver) ;;
    if r =? 0
    then on_board (on_dev (modify (HAL_Delay 50))) ;;; ret (Some SystemReset)
    else on_sys OTA_Server_Stop ;;; on_sys OTA_ResetState ;;; set_prompted false ;;; ret None
  else if is_no c then
    on_sys OTA_Server_Stop ;;; on_sys OTA_ResetState ;;; set_prompted false ;;; ret None
  else ret None.

(** One round of [while (1)]. *)
Definition interactive_round (fuel : nat) (ver : Z * Z * Z) : M sys menu_result :=
  e <- gets (fun s => eth_inited (m_board s)) ;;
  (if e : bool then Net_Input ;;; Net_Timeouts else ret tt) ;;;
  OTA_progress ;;;
  on_sys OTA_Poll ;;;
  x <- OTA_confirm ver ;;
  match x with
  | Some x => ret (Exit x)
  | None =>
      key <- on_env UART_ReadKey_NonBlock ;;
      if key =? 0 then ret Stay else Menu_HandleKey fuel key
  end.

(** [interactive_mode]: QSPI initialisation once, then the loop. *)
Definition interactive_mode (fuel : nat) (ver : Z * Z * Z) : M sys (option menu_result) :=
  q <- gets (fun s => qspi_inited (m_board s)) ;;
  (if q : bool then ret tt
   else r <- on_board (on_dev BSP_QSPI_Init) ;;
        (if r =? QSPI_OK then on_board (on_dev BSP_QSPI_ReadJedecID) ;;; ret tt else ret tt) ;;;
        on_board (set_qspi_inited true)) ;;;
  forever fuel (
    r <- interactive_round fuel ver ;;
    ret (match r with Stay => None | r => Some r end)).
End Menu.

(** ** Relations that every operation keeps

    [preserves R m]: every run of [m] relates its start to its end by the preorder
    [R].  An invariant is the preorder "if it held, it holds". *)
Section Preserves.
Context {S : Type} (R : S -> S -> Prop) `{!PreOrder R}.

Definition preserves {A} (m : M S A) : Prop := forall s, wp m (fun _ s' => R s s') s.

Lemma preserves_ret {A} (a : A) : preserves (ret a).
Proof. intros s. apply wp_ret. reflexivity. Qed.

Lemma preserves_gets {A} (f : S -> A) : preserves (gets f).
Proof. intros s. apply wp_gets. reflexivity. Qed.

Lemma preserves_bind {A B} (m : M S A) (k : A -> M S B) :
  preserves m -> (forall a, preserves (k a)) -> preserves (bind m k).
Proof.
  intros Hm Hk s. apply wp_bind. eapply wp_mono; [apply Hm|]. intros a s1 H1.
  eapply wp_mono; [apply Hk|]. intros b s2 H2. exact (transitivity H1 H2).
Qed.

Lemma preserves_forever {A} fuel (m : M S (option A)) : preserves m -> preserves (forever fuel m).
Proof.
  intros Hm s. eapply wp_mono; [apply (wp_forever fuel m (R s) (fun _ => R s))|].
  - intros s1 H1. eapply wp_mono; [apply Hm|]. intros [a|] s2 H2; exact (transitivity H1 H2).
  - reflexivity.
  - by intros [a|] s'.
Qed.
End Preserves.

Create HintDb preserve discriminated.

(** Split a computation along its control structure; the leaves by the hints. *)
Ltac preserve :=
  lazymatch goal with
  | |- preserves _ (ret _) => apply preserves_ret; exact _
  | |- preserves _ (gets _) => apply preserves_gets; exact _
  | |- preserves _ (bind _ _) => apply preserves_bind; [exact _|preserve|intros ?; preserve]
  | |- preserves _ (forever _ _) => apply preserves_forever; [exact _|preserve]
  | |- preserves _ (match ?x with _ => _ end) => destruct x; preserve
  | |- preserves _ (let _ := _ in _) => cbv zeta; preserve
  | |- _ => first [solve [eauto 2 with preserve] | idtac]
  end.

Section Lifts.
Context {N W E : Type}.
Implicit Types (s : menu_sys N W E).

Lemma wp_on_sys {A} (m : M (ota_sys N W) A) (Q : A -> menu_sys N W E -> Prop) s :
  wp m (fun a o => Q a (mkMenu (ota o) (m_ver s) (net o)
        (mkBoard (hw o) (qspi_inited (m_board s)) (eth_inited (m_board s)) (rsr (m_board s)) (iwdg (m_board s)))
        (m_flag s) (m_prompted s) (m_prog s) (m_env s))) (sys_of s) -> wp (on_sys m) Q s.
Proof. cbv [wp on_sys]. by destruct (m (sys_of s)). Qed.

Lemma wp_on_vers {A} (m : M (v_sys N) A) (Q : A -> menu_sys N W E -> Prop) s :
  wp m (fun a v => Q a (mkMenu (m_ota s) (vers v) (vnet v) (m_board s) (m_flag s) (m_prompted s)
        (m_prog s) (m_env s))) (mkVSys (m_ver s) (m_net s)) -> wp (on_vers m) Q s.
Proof. cbv [wp on_vers]. by destruct (m _). Qed.

Lemma wp_on_board {A} (m : M (board W) A) (Q : A -> menu_sys N W E -> Prop) s :
  wp m (fun a b => Q a (mkMenu (m_ota s) (m_ver s) (m_net s) b (m_flag s) (m_prompted s)
        (m_prog s) (m_env s))) (m_board s) -> wp (on_board m) Q s.
Proof. cbv [wp on_board]. by destruct (m _). Qed.

Lemma wp_on_env {A} (m : M E A) (Q : A -> menu_sys N W E -> Prop) s :
  wp m (fun a e => Q a (mkMenu (m_ota s) (m_ver s) (m_net s) (m_board s) (m_flag s) (m_prompted s)
        (m_prog s) e)) (m_env s) -> wp (on_env m) Q s.
Proof. cbv [wp on_env]. by destruct (m _). Qed.

Lemma wp_on_vers_any {A} (m : M (v_sys N) A) (Q : A -> menu_sys N W E -> Prop) s :
  (forall a v n, Q a (mkMenu (m_ota s) v n (m_board s) (m_flag s) (m_prompted s) (m_prog s) (m_env s))) ->
  wp (on_vers m) Q s.
Proof. intros H. apply wp_on_vers. unfold wp. destruct (m _). apply H. Qed.

Lemma wp_on_env_any {A} (m : M E A) (Q : A -> menu_sys N W E -> Prop) s :
  (forall a e, Q a (mkMenu (m_ota s) (m_ver s) (m_net s) (m_board s) (m_flag s) (m_prompted s)
        (m_prog s) e)) -> wp (on_env m) Q s.
Proof. intros H. apply wp_on_env. unfold wp. destruct (m _). apply H. Qed.
End Lifts.

(** ** Downloading never touches the flash memories *)
Section NoFlash.
Context {N W E : Type} `{!TcpApi N} `{!HalOps W} `{!Console E}.
#[local] Abbreviation sys := (menu_sys N W E).
Implicit Types (s : sys).

Definition same_hw s s' : Prop := b_hw (m_board s') = b_hw (m_board s).
#[export] Instance same_hw_preorder : PreOrder same_hw.
Proof. unfold same_hw. split; [by intros s|]. intros s1 s2 s3 H1 H2. by rewrite H2. Qed.

(** Operations of ota.c that do not use the device. *)
Lemma keep_hw_sys {A} (m : M (ota_sys N W) A) :
  (forall o, wp m (fun _ o' => hw o' = hw o) o) -> preserves same_hw (on_sys (E:=E) m).
Proof. intros H s. apply wp_on_sys. eapply wp_mono; [apply H|]. done. Qed.

Lemma keep_hw_vers {A} (m : M (v_sys N) A) : preserves same_hw (on_vers (W:=W) (E:=E) m).
Proof. intros s. by apply wp_on_vers_any. Qed.

Lemma keep_hw_env {A} (m : M E A) : preserves same_hw (on_env (N:=N) (W:=W) m).
Proof. intros s. by apply wp_on_env_any. Qed.

Lemma keep_hw_flag f : preserves same_hw (set_flag (N:=N) (W:=W) (E:=E) f).
Proof. intros s. by apply wp_modify. Qed.

Lemma hw_recv_cb pc p (o : ota_sys N W) : wp (ota_recv_cb pc p) (fun _ o' => hw o' = hw o) o.
Proof.
  destruct p as [qs|]; [|unfold ota_recv_cb; sys_steps; done].
  apply wp_bind, wp_on_ota, wp_intro. intros a o' _. by sys_steps.
Qed.

Lemma hw_accept_cb p (o : ota_sys N W) : wp (ota_accept_cb p) (fun _ o' => hw o' = hw o) o.
Proof. unfold ota_accept_cb. by sys_steps. Qed.

Lemma keep_hw_run_cb e : preserves same_hw (run_cb (E:=E) (W:=W) e).
Proof.
  destruct e; cbn [run_cb]; preserve; try apply keep_hw_vers; apply keep_hw_sys; intros o.
  - apply hw_accept_cb.
  - apply hw_recv_cb.
  - unfold ota_err_cb. by sys_steps.
Qed.

Lemma keep_hw_run_cbs l : preserves same_hw (run_cbs (E:=E) (W:=W) l).
Proof. induction l as [|e l IH]; cbn [run_cbs]; preserve; apply keep_hw_run_cb. Qed.
#[local] Hint Resolve keep_hw_run_cbs keep_hw_env keep_hw_vers keep_hw_flag : preserve.

Lemma keep_hw_input : preserves same_hw (Net_Input (N:=N) (W:=W) (E:=E)).
Proof. unfold Net_Input. preserve. Qed.
Lemma keep_hw_timeouts : preserves same_hw (Net_Timeouts (N:=N) (W:=W) (E:=E)).
Proof. unfold Net_Timeouts. preserve. Qed.
#[local] Hint Resolve keep_hw_input keep_hw_timeouts : preserve.

Lemma keep_hw_waitkey : preserves same_hw (WaitKey_WithLwIP (N:=N) (W:=W) (E:=E)).
Proof. unfold WaitKey_WithLwIP. preserve. Qed.

Lemma keep_hw_init : preserves same_hw (Eth_Init_Once (N:=N) (W:=W) (E:=E)).
Proof. unfold Eth_Init_Once. preserve. intros s. by apply wp_on_board, wp_modify. Qed.

Lemma keep_hw_version_wait n : preserves same_hw (version_wait (N:=N) (W:=W) (E:=E) n).
Proof. unfold version_wait. preserve. Qed.

Lemma keep_hw_get {A} (f : ota_t -> A) : preserves same_hw (on_sys (N:=N) (W:=W) (E:=E) (get_ f)).
Proof. apply keep_hw_sys. intros o. by apply wp_get_. Qed.
#[local] Hint Resolve keep_hw_waitkey keep_hw_init keep_hw_version_wait keep_hw_get : preserve.

Lemma keep_hw_trigger_wait n : preserves same_hw (trigger_wait (N:=N) (W:=W) (E:=E) n).
Proof. unfold trigger_wait, OTA_GetClientPcb. preserve. Qed.

Lemma keep_hw_stop : preserves same_hw (on_sys (N:=N) (W:=W) (E:=E) OTA_Server_Stop).
Proof. apply keep_hw_sys. intros o. eapply wp_mono; [apply Server_Stop_spec|]. cbv beta. tauto. Qed.

Lemma keep_hw_set f : preserves same_hw (on_sys (N:=N) (W:=W) (E:=E) (set_ f)).
Proof. apply keep_hw_sys. intros o. by apply wp_set_. Qed.

Lemma keep_hw_trigger : preserves same_hw (on_sys (N:=N) (W:=W) (E:=E) OTA_SendTrigger).
Proof. apply keep_hw_sys. intros o. apply wp_on_net_any. by intros a n. Qed.
#[local] Hint Resolve keep_hw_trigger_wait keep_hw_stop keep_hw_set keep_hw_trigger : preserve.

Lemma keep_hw_trigger_rounds n k : preserves same_hw (trigger_rounds (N:=N) (W:=W) (E:=E) n k).
Proof. induction k as [|k IH]; cbn [trigger_rounds]; preserve. Qed.
#[local] Hint Resolve keep_hw_trigger_rounds : preserve.

Lemma keep_hw_start : preserves same_hw (on_sys (N:=N) (W:=W) (E:=E) OTA_Server_Start).
Proof. apply keep_hw_sys. intros o. eapply wp_mono; [apply Server_Start_spec|]. cbv beta. tauto. Qed.
#[local] Hint Resolve keep_hw_start : preserve.

Lemma keep_hw_start_update n crc : preserves same_hw (start_update (N:=N) (W:=W) (E:=E) n crc).
Proof. unfold start_update, OTA_SetExpectedCRC, OTA_ResetState. preserve. Qed.
#[local] Hint Resolve keep_hw_start_update : preserve.

Lemma keep_hw_update n : preserves same_hw (Firmware_Update (N:=N) (W:=W) (E:=E) n).
Proof. unfold Firmware_Update, update_attempt, ask_update, ask_escape, ask_retry. preserve. Qed.
End NoFlash.

(** Firmware_Update, with its version query, questions and triggers, never touches the
    flash memories. *)
Theorem update_touches_no_flash {N W E} `{!TcpApi N} `{!HalOps W} `{!Console E} fuel
    (s : menu_sys N W E) :
  wp (Firmware_Update fuel) (fun _ s' => b_hw (m_board s') = b_hw (m_board s)) s.
Proof. apply keep_hw_update. Qed.

(** ** The whole main loop: memory safety, and the application is left alone *)

(** What the stack hands over: pbufs of at most 64 KB, of bytes. *)
Definition cb_ok (e : net_event) : Prop :=
  match e with
  | CbRecv _ (Some p) => chain_ok p /\ Forall bytes p
  | CbVRecv _ (Some p) => Forall (fun q => Z.of_nat (length q) < 65536) p
  | _ => True
  end.

Definition well_behaved_net (E : Type) `{!Console E} : Prop := forall e : E,
  Forall cb_ok (ethernetif_input e).1 /\ Forall cb_ok (sys_check_timeouts e).1.

(** The user neither answers yes to the question of CONFIRM nor presses 4. *)
Definition no_consent (E : Type) `{!Console E} : Prop := forall e : E,
  is_yes (UART_ReadKey_Blocking e).1 = false /\ (UART_ReadKey_NonBlock e).1 <> 52.

Section LoopSafety.
Context {N W E : Type} `{!TcpApi N} `{!HalOps W} `{!HalView W} `{!HalLaws W} `{!Console E}
        {layout : MetaLayout}.
#[local] Abbreviation sys := (menu_sys N W E).
Implicit Types (s : sys).

Context (Hnet : well_behaved_net E) (consent : bool) (Huser : consent = false -> no_consent E).

Definition loop_inv s : Prop := ota_inv (m_ota s) /\ arrays_ok (m_ota s) /\ v_inv (m_ver s).

Definition loop_rel s s' : Prop := loop_inv s ->
  loop_inv s' /\ (consent = false -> bank2_same (b_hw (m_board s)) (b_hw (m_board s'))).

#[export] Instance loop_rel_preorder : PreOrder loop_rel.
Proof.
  split; [intros s Hs; split; [done|intros _ x _; reflexivity]|].
  intros s1 s2 s3 H1 H2 Hs. destruct (H1 Hs) as [H3 H4]. destruct (H2 H3) as [H5 H6].
  split; [done|]. intros Hc x Hx. by rewrite (H6 Hc), (H4 Hc).
Qed.

Lemma loop_same s s' : m_ota s' = m_ota s -> m_ver s' = m_ver s ->
  bank2_same (b_hw (m_board s)) (b_hw (m_board s')) -> loop_rel s s'.
Proof. intros E1 E2 H Hs. unfold loop_inv. by rewrite E1, E2. Qed.

Lemma bank2_same_refl (w : W) : bank2_same w w.
Proof. intros x _. reflexivity. Qed.
#[local] Hint Resolve bank2_same_refl : core.

Lemma loop_env {A} (m : M E A) : preserves loop_rel (on_env (N:=N) (W:=W) m).
Proof. intros s. apply wp_on_env_any. intros a e. by apply loop_same. Qed.

Lemma loop_flag f : preserves loop_rel (set_flag (N:=N) (W:=W) (E:=E) f).
Proof. intros s. apply wp_modify. by apply loop_same. Qed.
Lemma loop_prompted f : preserves loop_rel (set_prompted (N:=N) (W:=W) (E:=E) f).
Proof. intros s. apply wp_modify. by apply loop_same. Qed.
Lemma loop_prog f : preserves loop_rel (set_prog (N:=N) (W:=W) (E:=E) f).
Proof. intros s. apply wp_modify. by apply loop_same. Qed.

(** Operations of ota.c that keep the received data and the device. *)
Lemma loop_control {A} (m : M (ota_sys N W) A) :
  (forall o, wp m (fun _ o' => same_data (ota o) (ota o') /\ hw o' = hw o) o) ->
  preserves loop_rel (on_sys (E:=E) m).
Proof.
  intros H s. apply wp_on_sys. eapply wp_mono; [apply H|]. cbv beta.
  intros _ o' [(K1 & K2 & K3 & _ & K5 & K6) Hw] (H1 & H2 & H3).
  unfold loop_inv, ota_inv, arrays_ok in *. cbn [m_ota m_ver m_board b_hw] in *.
  cbn [sys_of ota net hw] in *. rewrite K1, K2, K3, K5, K6, Hw. by split.
Qed.

Lemma loop_set f : (forall o, same_data o (f o)) -> preserves loop_rel (on_sys (E:=E) (N:=N) (W:=W) (set_ f)).
Proof. intros H. apply loop_control. intros o. apply wp_set_. split; [apply H|done]. Qed.

Lemma loop_get {A} (f : ota_t -> A) : preserves loop_rel (on_sys (E:=E) (N:=N) (W:=W) (get_ f)).
Proof. apply loop_control. intros o. apply wp_get_. done. Qed.

Lemma loop_recv pc p : match p with Some p => chain_ok p /\ Forall bytes p | None => True end ->
  preserves loop_rel (on_sys (E:=E) (W:=W) (ota_recv_cb pc p)).
Proof.
  destruct p as [p|].
  - intros [Hc Hb] s. apply wp_on_sys, wp_intro. intros a o' Er (H1 & H2 & H3).
    destruct (wp_run _ _ _ _ _ (data_transition pc p (sys_of s) H1 Hc) Er) as (K1 & _ & Hw & _ & K5).
    cbn [m_board b_hw]. rewrite Hw. split; [|done]. split; [exact K1|]. split; [|done].
    by apply K5.
  - intros _. apply loop_control. intros o. eapply wp_mono; [apply close_transition|].
    cbv beta. tauto.
Qed.

(** Operations of version_check.c. *)
Lemma loop_vers {A} (m : M (v_sys N) A) :
  (forall v, v_inv (vers v) -> wp m (fun _ v' => v_inv (vers v')) v) ->
  preserves loop_rel (on_vers (W:=W) (E:=E) m).
Proof.
  intros H s. apply wp_on_vers, wp_intro. intros a v' Er (H1 & H2 & H3).
  pose proof (wp_run _ _ _ _ _ (H (mkVSys (m_ver s) (m_net s)) H3) Er). done.
Qed.

Lemma v_inv_set_done b (v : vcheck) : v_inv v -> v_inv (set_v_done b v).
Proof. done. Qed.

Lemma loop_v_recv pc p :
  match p with Some p => Forall (fun q => Z.of_nat (length q) < 65536) p | None => True end ->
  preserves loop_rel (on_vers (W:=W) (E:=E) (v_recv_cb pc p)).
Proof.
  intros Hp. apply loop_vers. intros v Hv. destruct p as [p|].
  - eapply wp_mono; [by apply recv_cb_inv|]. cbv beta. tauto.
  - by apply wp_bind, wp_v_set, wp_ret.
Qed.

Lemma loop_v_start : preserves loop_rel (on_vers (W:=W) (E:=E) Version_Check_Start).
Proof.
  apply loop_vers. intros v Hv. unfold Version_Check_Start. destruct v as [v n].
  apply wp_bind, wp_v_get. destruct (v_pcb _); [by apply wp_ret|]. cbn [vers] in Hv.
  destruct Hv as (H1 & H2 & H3). repeat v_step; split; done.
Qed.

Lemma loop_v_get {A} (f : vcheck -> A) : preserves loop_rel (on_vers (N:=N) (W:=W) (E:=E) (v_get f)).
Proof. apply loop_vers. intros v Hv. by apply wp_v_get. Qed.

Lemma loop_run_cb e : cb_ok e -> preserves loop_rel (run_cb (W:=W) (E:=E) e).
Proof.
  intros He. destruct e; cbn [run_cb cb_ok] in *; preserve.
  - apply loop_control. intros o. eapply wp_mono; [apply accept_transition|]. cbv beta. tauto.
  - by apply loop_recv.
  - apply loop_control. intros o. eapply wp_mono; [apply err_cb_transition|]. cbv beta. tauto.
  - apply loop_vers. intros v Hv. unfold v_connect_cb. by repeat v_step.
  - by apply loop_v_recv.
  - apply loop_vers. intros v Hv. by apply wp_v_set.
Qed.

Lemma loop_run_cbs l : Forall cb_ok l -> preserves loop_rel (run_cbs (W:=W) (E:=E) l).
Proof. induction 1 as [|e l He Hl IH]; cbn [run_cbs]; preserve. by apply loop_run_cb. Qed.

(** The events of one poll of the stack. *)
Lemma loop_events (m : M E (list net_event)) : (forall e, Forall cb_ok (m e).1) ->
  preserves loop_rel (evs <- on_env (N:=N) (W:=W) m ;; run_cbs evs).
Proof.
  intros H s. apply wp_bind, wp_on_env, wp_intro. intros evs e Er.
  specialize (H (m_env s)). rewrite Er in H. cbn in H.
  set (s1 := mkMenu _ _ _ _ _ _ _ _). assert (H1 : loop_rel s s1) by by apply loop_same.
  eapply wp_mono; [by apply loop_run_cbs|]. intros u s2 H2. exact (transitivity H1 H2).
Qed.

Lemma loop_input : preserves loop_rel (Net_Input (N:=N) (W:=W) (E:=E)).
Proof.
  unfold Net_Input. apply preserves_bind; [exact _|apply loop_env|intros irq].
  apply preserves_bind; [exact _|destruct irq; preserve; apply loop_flag|intros _].
  apply preserves_bind; [exact _|preserve|intros f]. destruct f; [|preserve].
  apply preserves_bind; [exact _|apply loop_flag|intros _]. apply loop_events.
  intros e. apply (proj1 (Hnet e)).
Qed.

Lemma loop_timeouts : preserves loop_rel (Net_Timeouts (N:=N) (W:=W) (E:=E)).
Proof. apply loop_events. intros e. apply (proj2 (Hnet e)). Qed.
#[local] Hint Resolve loop_input loop_timeouts loop_env loop_flag loop_prompted loop_prog
  loop_get loop_v_get loop_v_start : preserve.

(** The operations of the board that keep the application. *)
Lemma loop_dev {A} (m : M W A) : (forall w, wp m (fun _ w' => bank2_same w w') w) ->
  preserves loop_rel (on_board (N:=N) (E:=E) (on_dev m)).
Proof.
  intros H s. apply wp_on_board, wp_on_dev. eapply wp_mono; [apply H|]. cbv beta.
  intros a w' Hw. by apply loop_same.
Qed.

Lemma loop_quiet {A} (m : M W A) : quietly m -> preserves loop_rel (on_board (N:=N) (E:=E) (on_dev m)).
Proof.
  intros H. apply loop_dev. intros w. eapply wp_mono; [apply H|]. cbv beta.
  intros _ w' Hq. by apply bank2_same_quiet.
Qed.

Lemma loop_delay ms : preserves loop_rel (on_board (N:=N) (E:=E) (on_dev (modify (HAL_Delay ms)))).
Proof. apply loop_quiet. quiet_tac. Qed.

Lemma loop_board_set (f : board W -> board W) : (forall b, b_hw (f b) = b_hw b) ->
  preserves loop_rel (on_board (N:=N) (E:=E) (modify f)).
Proof. intros H s. apply wp_on_board, wp_modify, loop_same; [done|done|]. cbn [m_board]. by rewrite H. Qed.

Lemma loop_init_once : preserves loop_rel (Eth_Init_Once (N:=N) (W:=W) (E:=E)).
Proof. unfold Eth_Init_Once. preserve. by apply loop_board_set. Qed.

Lemma loop_start : preserves loop_rel (on_sys (N:=N) (W:=W) (E:=E) OTA_Server_Start).
Proof.
  intros s. apply wp_on_sys. eapply wp_mono; [apply Server_Start_spec|]. cbv beta.
  intros r o (_ & Hw & _ & K3 & K4 & K5 & K6 & K7 & _) (H1 & H2 & H3).
  cbn [sys_of ota hw] in *. unfold loop_inv, ota_inv, arrays_ok in *. cbn [m_ota m_ver m_board b_hw].
  rewrite K3, K4, K5, K6, K7, Hw. unfold OTA_BUF_SIZE. split; [|done].
  split; [split; [lia|intros _; lia]|]. by split.
Qed.

Lemma loop_stop : preserves loop_rel (on_sys (N:=N) (W:=W) (E:=E) OTA_Server_Stop).
Proof. apply loop_control. intros o. eapply wp_mono; [apply Server_Stop_spec|]. cbv beta. tauto. Qed.

Lemma loop_reset : preserves loop_rel (on_sys (N:=N) (W:=W) (E:=E) OTA_ResetState).
Proof. by apply loop_set. Qed.

Lemma loop_trigger : preserves loop_rel (on_sys (N:=N) (W:=W) (E:=E) OTA_SendTrigger).
Proof.
  apply loop_control. intros o. eapply wp_mono; [apply trigger_control|]. cbv beta.
  by intros _ o' [-> ->].
Qed.

Lemma loop_setcrc c : preserves loop_rel (on_sys (N:=N) (W:=W) (E:=E) (OTA_SetExpectedCRC c)).
Proof.
  intros s. apply wp_on_sys, wp_set_. intros (H1 & H2 & H3). split; [exact (conj H1 (conj H2 H3))|intros _ x _; reflexivity].
Qed.
#[local] Hint Resolve loop_init_once loop_start loop_stop loop_reset loop_trigger loop_setcrc loop_delay : preserve.

Lemma loop_waitkey : preserves loop_rel (WaitKey_WithLwIP (N:=N) (W:=W) (E:=E)).
Proof. unfold WaitKey_WithLwIP. preserve. Qed.

Lemma loop_trigger_rounds n k : preserves loop_rel (trigger_rounds (N:=N) (W:=W) (E:=E) n k).
Proof.
  induction k as [|k IH]; cbn [trigger_rounds]; unfold trigger_wait, OTA_GetClientPcb; preserve.
Qed.
#[local] Hint Resolve loop_waitkey loop_trigger_rounds : preserve.

Lemma loop_update n : preserves loop_rel (Firmware_Update (N:=N) (W:=W) (E:=E) n).
Proof.
  unfold Firmware_Update, update_attempt, version_wait, ask_update, ask_escape, ask_retry, start_update.
  preserve.
Qed.

(** OTA_Poll stages the image in the NOR flash. *)
Lemma loop_poll : preserves loop_rel (on_sys (E:=E) (N:=N) OTA_Poll).
Proof.
  intros s. apply wp_on_sys, wp_intro. intros u o Er Hinv. pose proof Hinv as (H1 & H2 & H3).
  assert (Him : image_ok (ota (sys_of s))) by (split; [apply H1|by apply arrays_image]).
  destruct (decide (ota_state (m_ota s) = OTA_STATE_VERIFY)) as [Ev|Ev].
  - destruct (wp_run _ _ _ _ _ (poll_verify_spec (sys_of s) Him Ev) Er) as (_ & [Hf _] & Ho & _).
    cbn [sys_of ota hw] in Ho, Hf. split; [|intros _ x _; apply Hf].
    unfold loop_inv. cbn [m_ota m_ver]. by rewrite Ho.
  - rewrite (wp_run _ _ _ _ _ (poll_idle_spec (sys_of s) Ev) Er). by split.
Qed.
#[local] Hint Resolve loop_update loop_poll : preserve.

(** A computation that continues with an input of the user. *)
Lemma loop_input_bind {A B} (m : M E A) (P : A -> Prop) (k : A -> M sys B) :
  (forall e, P (m e).1) -> (forall a, P a -> preserves loop_rel (k a)) ->
  preserves loop_rel (a <- on_env m ;; k a).
Proof.
  intros Hm Hk s. apply wp_bind, wp_on_env, wp_intro. intros a e Er.
  specialize (Hm (m_env s)). rewrite Er in Hm. cbn in Hm.
  set (s1 := mkMenu _ _ _ _ _ _ _ _). assert (H1 : loop_rel s s1) by by apply loop_same.
  eapply wp_mono; [by apply Hk|]. intros b s2 H2. exact (transitivity H1 H2).
Qed.

Lemma loop_progress : preserves loop_rel (OTA_progress (N:=N) (W:=W) (E:=E)).
Proof. unfold OTA_progress, OTA_IsReceiving, OTA_GetExpected, OTA_GetReceived. preserve. Qed.

(** With the user's consent anything may happen to Bank2. *)
Lemma loop_consent {A} (m : M sys A) : consent = true ->
  (forall s, wp m (fun _ s' => loop_inv s -> loop_inv s') s) -> preserves loop_rel m.
Proof.
  intros Hc H s. eapply wp_mono; [apply H|]. cbv beta. intros _ s' Hs Hi. split; [by apply Hs|].
  by rewrite Hc.
Qed.

Lemma loop_flash_write ver : consent = true ->
  preserves loop_rel (on_sys (N:=N) (E:=E) (OTA_Flash_Write ver)).
Proof.
  intros Hc. apply loop_consent; [done|]. intros s. apply wp_on_sys. unfold OTA_Flash_Write.
  apply wp_bind, wp_get_, wp_bind, wp_on_hw, wp_intro. intros r w' _. destruct (r =? 0).
  - by apply wp_bind, wp_set_, wp_ret.
  - by apply wp_ret.
Qed.

Lemma loop_confirm ver : preserves loop_rel (OTA_confirm (N:=N) (W:=W) (E:=E) ver).
Proof.
  unfold OTA_confirm, OTA_IsConfirm.
  apply preserves_bind; [exact _|apply loop_get|intros conf]. destruct (negb conf); [preserve|].
  apply preserves_bind; [exact _|apply loop_prompted|intros _].
  apply (loop_input_bind _ (fun c => consent = false -> is_yes c = false)).
  { intros e Hc. apply (Huser Hc e). }
  intros c Hc. destruct (is_yes c); [|preserve].
  assert (Ht : consent = true) by (destruct consent; [done|by specialize (Hc eq_refl)]).
  pose proof (loop_flash_write ver Ht). preserve.
Qed.

Lemma loop_jump : preserves loop_rel (on_board (N:=N) (W:=W) (E:=E) JumpToApp).
Proof.
  intros s. apply wp_on_board. unfold JumpToApp. apply wp_bind, wp_on_dev, wp_modify, wp_bind, wp_gets.
  apply wp_bind. set (b1 := mkBoard _ _ _ _ _).
  assert (Hq : quiet (b_hw (m_board s)) (b_hw b1)) by apply quiet_Delay.
  apply (wp_mono _ (fun _ b => b_hw b = b_hw b1)).
  { destruct (eth_inited b1); [by apply wp_modify|by apply wp_ret]. }
  intros _ b2 E2. rewrite <- E2 in Hq. apply wp_bind, wp_on_dev.
  eapply wp_mono; [apply quiet_QSPI_DeInit|]. cbv beta. intros st w3 Hq3.
  apply wp_bind, wp_on_dev, wp_modify. apply wp_bind, wp_gets, wp_ret. apply loop_same; [done|done|].
  apply bank2_same_quiet. cbn [m_board b_hw]. etrans; [exact Hq|]. etrans; [exact Hq3|].
  apply quiet_InvalidateDCache.
Qed.

Lemma loop_handle_key n key : (consent = false -> key <> 52) ->
  preserves loop_rel (Menu_HandleKey (N:=N) (W:=W) (E:=E) n key).
Proof.
  intros Hk. unfold Menu_HandleKey, OTA_IsReceiving, OTA_IsConfirm, OTA_Abort.
  apply preserves_bind; [exact _|apply loop_get|intros recv].
  apply preserves_bind; [exact _|apply loop_get|intros conf]. cbv zeta.
  destruct (key =? 50); [preserve|].
  destruct (key =? 51).
  { preserve. apply loop_dev. intros w. eapply wp_mono; [apply Backup_SlotA_spec|]. cbv beta. tauto. }
  destruct (Z.eqb_spec key 52) as [->|_].
  { preserve. apply loop_consent; [destruct consent; [done|by destruct (Hk eq_refl)]|].
    intros s. apply wp_on_board, wp_on_dev, wp_intro. by intros a w' _. }
  destruct (key =? 54); [preserve|]. destruct (key =? 53); [|preserve].
  preserve. apply loop_jump.
Qed.

Lemma loop_round n ver : preserves loop_rel (interactive_round (N:=N) (W:=W) (E:=E) n ver).
Proof.
  unfold interactive_round. pose proof loop_progress. pose proof (loop_confirm ver).
  apply preserves_bind; [exact _|preserve|intros e].
  apply preserves_bind; [exact _|preserve|intros _].
  apply preserves_bind; [exact _|preserve|intros _].
  apply preserves_bind; [exact _|preserve|intros _].
  apply preserves_bind; [exact _|preserve|intros [x|]]; [preserve|].
  apply (loop_input_bind _ (fun c => consent = false -> c <> 52)).
  { intros e' Hc. apply (Huser Hc e'). }
  intros key Hk. destruct (key =? 0); [preserve|]. by apply loop_handle_key.
Qed.

Lemma loop_interactive n ver : preserves loop_rel (interactive_mode (N:=N) (W:=W) (E:=E) n ver).
Proof.
  pose proof (loop_quiet BSP_QSPI_Init quiet_BSP_QSPI_Init).
  assert (Hid : quietly BSP_QSPI_ReadJedecID).
  { unfold BSP_QSPI_ReadJedecID. apply quietly_bind; [by apply quiet_Command|].
    intros st. destruct (negb _); [apply quietly_ret|]. apply quietly_bind; [apply quiet_Receive|].
    intros rd. destruct (negb _); apply quietly_ret. }
  pose proof (loop_quiet _ Hid). pose proof (loop_round n ver).
  unfold interactive_mode. preserve.
Qed.
End LoopSafety.

(** C13. The interactive main loop - network input, timers, polling, confirmation, keys
    and the menu's update, backup and restore - preserves the invariant of the receive
    state for any behaviour of the user, the network and failing HAL calls. *)
Theorem main_loop_memory_safe {N W E} `{!TcpApi N} `{!HalOps W} `{!HalView W} `{!HalLaws W}
    `{!Console E} {layout : MetaLayout} fuel ver (s : menu_sys N W E) :
  well_behaved_net E -> loop_inv s ->
  wp (interactive_mode fuel ver) (fun _ s' => loop_inv s') s.
Proof.
  intros Hnet Hs. eapply wp_mono; [by apply (loop_interactive Hnet true)|]. cbv beta.
  intros _ s' H. by apply H.
Qed.

(** As long as the user never gives a key that consents to an update or a restore, the
    main loop never changes the application in Bank2, whatever the network sends. *)
Theorem main_loop_keeps_app {N W E} `{!TcpApi N} `{!HalOps W} `{!HalView W} `{!HalLaws W}
    `{!Console E} {layout : MetaLayout} fuel ver (s : menu_sys N W E) :
  well_behaved_net E -> no_consent E -> loop_inv s ->
  wp (interactive_mode fuel ver) (fun _ s' => bank2_same (b_hw (m_board s)) (b_hw (m_board s'))) s.
Proof.
  intros Hnet Hno Hs. eapply wp_mono; [by apply (loop_interactive Hnet false)|]. cbv beta.
  intros _ s' H. by apply H.
Qed.

(** ** Starting the server: the two outcomes *)
Section StartUpdate.
Context {N W E : Type} `{!TcpApi N} `{!HalOps W} `{!Console E}.
#[local] Abbreviation sys := (menu_sys N W E).
Implicit Types (s : sys).

(** The announced CRC is set once, by the menu. *)
Definition same_crc s s' : Prop := ota_crc_expected (m_ota s') = ota_crc_expected (m_ota s).
#[export] Instance same_crc_preorder : PreOrder same_crc.
Proof.
  split; [intros s; reflexivity|]. intros s1 s2 s3 H1 H2. unfold same_crc in *. by rewrite H2.
Qed.

Lemma recv_chain_crc p o : wp (ota_recv_chain p) (fun _ o' => ota_crc_expected o' = ota_crc_expected o) o.
Proof.
  revert o; induction p as [|q p IH]; intros o; cbn [ota_recv_chain]; [by apply wp_ret|].
  assert (Hq : wp (ota_recv_pbuf q) (fun _ o' => ota_crc_expected o' = ota_crc_expected o) o).
  { apply wp_bind, wp_gets. cbn [id]. destruct (_ <? _); [by apply wp_bind, wp_modify, wp_ret|].
    apply wp_bind. eapply wp_mono; [apply (wp_while_inv _ _ _
      (fun _ o' => ota_crc_expected o' = ota_crc_expected o)
      (fun (_ : unit) o' => ota_crc_expected o' = ota_crc_expected o))|].
    - intros d o' <-. unfold wp, ota_parse_round. cbv zeta.
      destruct (negb (ota_header_parsed o')); [|done].
      repeat (match goal with |- context [if ?b then _ else _] => destruct b end); done.
    - done.
    - intros [d|u] o' H; by apply wp_ret. }
  wp_call Hq as go o1 H1. destruct go; [|by apply wp_ret].
  eapply wp_mono; [apply IH|]. cbv beta. intros _ o2 ->. done.
Qed.

Lemma keep_crc_sys {A} (m : M (ota_sys N W) A) :
  (forall o, wp m (fun _ o' => ota_crc_expected (ota o') = ota_crc_expected (ota o)) o) ->
  preserves same_crc (on_sys (E:=E) m).
Proof. intros H s. apply wp_on_sys. eapply wp_mono; [apply H|]. done. Qed.

Lemma keep_crc_vers {A} (m : M (v_sys N) A) : preserves same_crc (on_vers (W:=W) (E:=E) m).
Proof. intros s. by apply wp_on_vers_any. Qed.
Lemma keep_crc_env {A} (m : M E A) : preserves same_crc (on_env (N:=N) (W:=W) m).
Proof. intros s. by apply wp_on_env_any. Qed.
Lemma keep_crc_flag f : preserves same_crc (set_flag (N:=N) (W:=W) (E:=E) f).
Proof. intros s. by apply wp_modify. Qed.

Lemma keep_crc_run_cb e : preserves same_crc (run_cb (E:=E) (W:=W) e).
Proof.
  destruct e; cbn [run_cb]; preserve; try apply keep_crc_vers; apply keep_crc_sys; intros o.
  - unfold ota_accept_cb. by sys_steps.
  - destruct p as [qs|]; [|unfold ota_recv_cb; sys_steps; done].
    apply wp_bind, wp_on_ota. eapply wp_mono; [apply recv_chain_crc|]. cbv beta.
    intros a o' E'. by sys_steps.
  - unfold ota_err_cb. by sys_steps.
Qed.

Lemma keep_crc_run_cbs l : preserves same_crc (run_cbs (E:=E) (W:=W) l).
Proof. induction l as [|e l IH]; cbn [run_cbs]; preserve. apply keep_crc_run_cb. Qed.
#[local] Hint Resolve keep_crc_run_cbs keep_crc_env keep_crc_flag : preserve.

Lemma keep_crc_input : preserves same_crc (Net_Input (N:=N) (W:=W) (E:=E)).
Proof. unfold Net_Input. preserve. Qed.
Lemma keep_crc_timeouts : preserves same_crc (Net_Timeouts (N:=N) (W:=W) (E:=E)).
Proof. unfold Net_Timeouts. preserve. Qed.

Definition connected_end (r : option bool) s : Prop :=
  r = Some true -> ota_client_pcb (m_ota s) <> None.

Lemma trigger_wait_spec fuel s :
  wp (trigger_wait fuel) (fun r s' => same_crc s s' /\ connected_end r s') s.
Proof.
  unfold trigger_wait. apply wp_bind, wp_on_env_any. intros tw0 e0.
  eapply wp_mono; [apply (wp_forever _ _ (same_crc s)
    (fun b s' => same_crc s s' /\ connected_end (Some b) s'))|].
  - intros s1 H1. apply wp_bind. eapply wp_mono; [apply keep_crc_env|]. intros t s2 H2.
    destruct (negb _); [apply wp_ret; split; [exact (transitivity H1 H2)|done]|].
    apply wp_bind. eapply wp_mono; [apply keep_crc_input|]. intros u3 s3 H3.
    apply wp_bind. eapply wp_mono; [apply keep_crc_timeouts|]. intros u4 s4 H4.
    cbv beta in *. assert (H : same_crc s s4) by (unfold same_crc in *; congruence).
    apply wp_bind, wp_on_sys, wp_get_, wp_ret. cbn [sys_of ota net hw].
    destruct (ota_client_pcb (m_ota s4)) eqn:Ec; [|exact H].
    split; [exact H|]. intros _. cbn. by rewrite Ec.
  - done.
  - intros [b|] s'; [done|]. by split.
Qed.

Lemma trigger_rounds_spec fuel n s :
  wp (trigger_rounds fuel n) (fun r s' => same_crc s s' /\ connected_end r s') s.
Proof.
  revert s; induction n as [|n IH]; intros s; cbn [trigger_rounds]; [by apply wp_ret|].
  apply wp_bind, wp_on_sys, wp_on_net_any. intros a n'. apply wp_bind.
  eapply wp_mono; [apply trigger_wait_spec|]. cbv beta. intros r s1 [H1 Hr].
  destruct r as [[]|]; [by apply wp_ret| |by apply wp_ret].
  eapply wp_mono; [apply IH|]. cbv beta. intros r2 s2 [H2 Hr2]. split; [exact (transitivity H1 H2)|done].
Qed.

(** The server is down and no client is left. *)
Definition ota_idle s : Prop := ota_state (m_ota s) = OTA_STATE_IDLE /\
  ota_client_pcb (m_ota s) = None /\ ota_server_pcb (m_ota s) = None.

Lemma stop_reset_idle s :
  wp (on_sys OTA_Server_Stop ;;; on_sys OTA_ResetState ;;; ret (Some 1)) (fun r s' => r = Some 1 /\ ota_idle s') s.
Proof.
  apply wp_bind, wp_on_sys. eapply wp_mono; [apply Server_Stop_spec|]. cbv beta.
  intros _ o (H1 & H2 & H3 & _). apply wp_bind, wp_on_sys, wp_set_, wp_ret. done.
Qed.

End StartUpdate.

(** start_update ends with a connected client and the expected CRC set, with the
    transfer given up and the receive state idle, or out of fuel; the flash memories are
    not touched. *)
Theorem start_update_outcome {N W E} `{!TcpApi N} `{!HalOps W} `{!Console E} fuel crc
    (s : menu_sys N W E) :
  wp (start_update fuel crc) (fun r s' =>
    b_hw (m_board s') = b_hw (m_board s) /\
    match r with
    | Some r => r = 0 /\ ota_client_pcb (m_ota s') <> None /\ ota_crc_expected (m_ota s') = crc \/
                r = 1 /\ ota_idle s'
    | None => ota_crc_expected (m_ota s') = crc
    end) s.
Proof.
  apply (wp_and _ (fun _ s' => _)); [apply keep_hw_start_update|].
  apply wp_bind, wp_on_sys, wp_set_, wp_bind, wp_on_sys.
  eapply wp_mono; [apply Server_Start_spec|]. cbv beta. intros r o (_ & _ & Hcrc & _).
  destruct (negb (r =? 0)).
  - eapply wp_mono; [apply stop_reset_idle|]. cbv beta. intros x s' [-> H]. by right.
  - apply wp_bind. eapply wp_mono; [apply trigger_rounds_spec|]. cbv beta.
    intros c s2 [H2 Hc]. assert (E2 : ota_crc_expected (m_ota s2) = crc).
    { rewrite H2. cbn [m_ota]. rewrite Hcrc. done. }
    destruct c as [[]|]; [| |by apply wp_ret].
    + apply wp_ret. left. split; [done|]. split; [by apply Hc|done].
    + eapply wp_mono; [apply stop_reset_idle|]. cbv beta. intros x s' [-> H]. by right.
Qed.

(** While an image is being received or confirmed the restore key does nothing and Esc
    only aborts the transfer; otherwise Esc does nothing. *)
Theorem menu_key_guard {N W E} `{!TcpApi N} `{!HalOps W} `{!Console E} {layout : MetaLayout} fuel
    (s : menu_sys N W E) :
  let busy := ota_state (m_ota s) = OTA_STATE_RECEIVING \/ ota_state (m_ota s) = OTA_STATE_CONFIRM in
  (busy -> wp (Menu_HandleKey fuel 50) (fun r s' => r = Stay /\ s' = s) s) /\
  (busy -> wp (Menu_HandleKey fuel KEY_ESC) (fun r s' => r = Stay /\ ota_idle s' /\
             b_hw (m_board s') = b_hw (m_board s)) s) /\
  (~ busy -> wp (Menu_HandleKey fuel KEY_ESC) (fun r s' => r = Stay /\ s' = s) s).
Proof.
  cbv zeta. destruct s as [o v n [w q i rs iw] f pr pg e]. cbn [m_ota].
  assert (Hbusy : bool_decide (ota_state o = OTA_STATE_RECEIVING) || bool_decide (ota_state o = OTA_STATE_CONFIRM)
    = bool_decide (ota_state o = OTA_STATE_RECEIVING \/ ota_state o = OTA_STATE_CONFIRM))
    by (destruct (ota_state o); reflexivity).
  unfold Menu_HandleKey, OTA_Abort, OTA_IsReceiving, OTA_IsConfirm.
  split; [|split]; intros H; apply wp_bind, wp_on_sys, wp_get_, wp_bind, wp_on_sys, wp_get_;
    cbn [sys_of ota net hw m_ota m_ver m_net m_board m_flag m_prompted m_prog m_env b_hw qspi_inited
         eth_inited rsr iwdg]; rewrite Hbusy; cbn [Z.eqb].
  - rewrite bool_decide_true by done. by apply wp_ret.
  - rewrite bool_decide_true by done. apply wp_bind, wp_on_sys. eapply wp_mono; [apply Server_Stop_spec|].
    cbv beta. intros _ o' (H1 & H2 & H3 & _ & Hw). by apply wp_ret.
  - rewrite bool_decide_false by done. by apply wp_bind, wp_ret, wp_ret.
Qed.

(** ** The waits end *)
Section WaitEnds.
Context {N W E : Type} `{!TcpApi N} `{!HalOps W} `{!Console E}.
Implicit Types (s : menu_sys N W E).

(** A millisecond clock: [HAL_GetTick] returns its low word, and it advances at
    every reading; the other calls take at most [2^28] ms. *)
Definition takes (clock : E -> Z) (lo : Z) {A} (m : M E A) : Prop :=
  forall e, clock e + lo <= clock (m e).2 <= clock e + 2 ^ 28.

Definition ticking (clock : E -> Z) : Prop :=
  (forall e, 0 <= clock e) /\ (forall e, (HAL_GetTick e).1 = u32 (clock e)) /\
  takes clock 1 HAL_GetTick /\ takes clock 0 eth_irq /\
  takes clock 0 ethernetif_input /\ takes clock 0 sys_check_timeouts.

Context (clock : E -> Z) (Hclock : ticking clock).

Definition now s : Z := clock (m_env s).

Lemma now_run_cbs l s : wp (run_cbs l) (fun _ s' => m_env s' = m_env s) s.
Proof.
  revert s; induction l as [|e l IH]; intros s; cbn [run_cbs]; [by apply wp_ret|]. apply wp_bind.
  apply (wp_mono _ (fun _ s' => m_env s' = m_env s)).
  - destruct e; cbn [run_cb]; try (apply wp_bind);
      first [apply wp_on_sys|apply wp_on_vers]; apply wp_intro; intros a s' _; try apply wp_ret; done.
  - intros _ s1 <-. apply IH.
Qed.

Lemma now_env {A} (m : M E A) lo s : takes clock lo m ->
  wp (on_env m) (fun _ s' => now s + lo <= now s' <= now s + 2 ^ 28) s.
Proof.
  intros H. specialize (H (m_env s)). apply wp_on_env, wp_intro. intros a e Er.
  rewrite Er in H. exact H.
Qed.

Lemma now_events (m : M E (list net_event)) s : takes clock 0 m ->
  wp (evs <- on_env m ;; run_cbs evs) (fun _ s' => now s <= now s' <= now s + 2 ^ 28) s.
Proof.
  intros H. apply wp_bind. eapply wp_mono; [by apply (now_env m 0)|]. cbv beta. intros evs s1 H1.
  eapply wp_mono; [apply now_run_cbs|]. cbv beta. intros _ s2 E2. unfold now in *. rewrite E2. lia.
Qed.

Lemma now_input s : wp Net_Input (fun _ s' => now s <= now s' <= now s + 2 * 2 ^ 28) s.
Proof.
  destruct Hclock as (_ & _ & _ & Hi & Hn & _).
  unfold Net_Input. apply wp_bind. eapply wp_mono; [by apply (now_env _ 0)|]. cbv beta. intros irq s1 H1.
  apply wp_bind. apply (wp_mono _ (fun _ s' => now s' = now s1)).
  { destruct irq; [by apply wp_modify|by apply wp_ret]. }
  cbv beta. intros u1 s2 E2. apply wp_bind, wp_gets. destruct (m_flag s2); [|apply wp_ret; lia].
  apply wp_bind, wp_modify. eapply wp_mono; [by apply now_events|]. cbv beta.
  unfold now in *. cbn [m_env]. intros u2 s3 H3. lia.
Qed.

Lemma version_wait_ends s fuel : 6001 < Z.of_nat fuel ->
  wp (version_wait fuel) (fun r _ => r = Some tt) s.
Proof.
  intros Hf. destruct Hclock as (Hpos & Htick & Ht & _ & _ & Hto).
  unfold version_wait. apply wp_bind, wp_on_env, wp_intro. intros t0 e0 E0.
  set (c0 := clock (m_env s)).
  assert (Ht0 : t0 = u32 c0) by (specialize (Htick (m_env s)); by rewrite E0 in Htick).
  assert (Hc0 : c0 < clock e0 <= c0 + 2 ^ 28)
    by (specialize (Ht (m_env s)); rewrite E0 in Ht; cbn [snd] in Ht; lia).
  eapply wp_mono; [apply (wp_forever_ends _ _ (fun s' => Z.to_nat (c0 + 6001 - now s'))
    (fun s' => c0 < now s' <= c0 + 6000 + 2 ^ 28) (fun _ _ => True))|].
  - intros s1 H1. apply wp_bind, wp_on_vers_any. intros d v n. set (s2 := mkMenu _ _ _ _ _ _ _ _).
    assert (H2 : now s2 = now s1) by done. destruct d; [by apply wp_ret|].
    wp_call (now_input s2) as u3 s3 H3. wp_call (now_events _ s3 Hto) as u4 s4 H4.
    apply wp_bind, wp_on_env, wp_intro. intros t e5 E5.
    assert (H5 : now s4 < clock e5 <= now s4 + 2 ^ 28)
      by (specialize (Ht (m_env s4)); rewrite E5 in Ht; cbn [snd] in Ht; unfold now; lia).
    assert (Et : t = u32 (now s4)) by (specialize (Htick (m_env s4)); by rewrite E5 in Htick).
    apply wp_ret. assert (Ed : t -% t0 = now s4 - c0).
    { subst t t0. unfold u32. rewrite Zminus_mod_idemp_l, Zminus_mod_idemp_r. apply Z.mod_small. lia. }
    rewrite Ed. destruct (Z.ltb_spec 6000 (now s4 - c0)); [done|]. unfold now in *. cbn [m_env] in *. lia.
  - unfold now. cbn [m_env]. lia.
  - unfold now. cbn [m_env]. lia.
  - cbv beta. by intros r s' ([] & -> & _).
Qed.
End WaitEnds.

(** Waiting for the version answer ends after a bounded number of rounds when every
    round advances the tick, whatever the network and the user do. *)
Theorem version_wait_terminates {N W E} `{!TcpApi N} `{!HalOps W} `{!Console E} (clock : E -> Z)
    (s : menu_sys N W E) fuel :
  ticking clock -> 6001 < Z.of_nat fuel -> wp (version_wait fuel) (fun r _ => r = Some tt) s.
Proof. intros Hc. by apply (version_wait_ends clock). Qed.

(** ** A scripted console for the witnesses

    The state counts the calls; keys, frames and the clock are functions of it. *)
Definition demo_console : Console Z := {|
  eth_irq := fun e => (Z.even e, Z.abs e + 1);
  ethernetif_input := fun e =>
    (if e mod 5 =? 0 then [CbAccept e; CbRecv e (Some [[79; 84]; [65; 0; 1; 0; 0; 0; 7]]); CbRecv e None]
     else if e mod 7 =? 0 then [CbVRecv e (Some [[82; 69; 83; 80; 10]])] else [], Z.abs e + 1);
  sys_check_timeouts := fun e => ([], Z.abs e + 1);
  Netif_start := fun e => (tt, Z.abs e + 1);
  UART_ReadKey_NonBlock := fun e => (if e mod 11 =? 0 then 50 else if e mod 3 =? 0 then 121 else 0, Z.abs e + 1);
  UART_ReadKey_Blocking := fun e => (0, Z.abs e + 1);
  HAL_GetTick := fun e => (u32 (Z.abs e), Z.abs e + 1)
|}.

Definition demo_menu (e : Z) : menu_sys unit dev Z :=
  mkMenu demo_ota vcheck0 tt (mkBoard (hw (confirm_sys [])) false true 0 None) false false (0xFFFFFFFF, 0) e.

Lemma demo_net : well_behaved_net (Console0:=demo_console) Z.
Proof.
  intros e. split; [|apply Forall_nil_2]. cbn. destruct (e mod 5 =? 0); [|destruct (e mod 7 =? 0)].
  - apply Forall_cons_2; [done|]. apply Forall_cons_2; [|apply Forall_cons_2; [done|apply Forall_nil_2]].
    split; apply (bool_decide_unpack _); by vm_compute.
  - apply Forall_cons_2; [|apply Forall_nil_2]. apply Forall_cons_2; [cbn; lia|apply Forall_nil_2].
  - apply Forall_nil_2.
Qed.

Lemma demo_inv e : loop_inv (demo_menu e).
Proof.
  split; [split; [cbn; unfold OTA_BUF_SIZE; lia|cbn; lia]|]. split; [split; intros a; cbn; unfold is_byte; lia|].
  split; [reflexivity|]. split; [cbn; lia|reflexivity].
Qed.

Lemma demo_no_consent : no_consent (Console0:=demo_console) Z.
Proof.
  intros e. split; [reflexivity|]. cbn. destruct (e mod 11 =? 0); [lia|]. destruct (e mod 3 =? 0); lia.
Qed.

Lemma main_loop_memory_safe_witness :
  wp (interactive_mode (TcpApi0:=closing_tcp) (Console0:=demo_console) (layout:=packed_layout) 1000 (1, 2, 3))
    (fun _ s' => loop_inv s') (demo_menu 0).
Proof. apply (main_loop_memory_safe 1000 (1, 2, 3) (demo_menu 0)); [apply demo_net|apply demo_inv]. Defined.

Lemma main_loop_keeps_app_witness :
  wp (interactive_mode (TcpApi0:=closing_tcp) (Console0:=demo_console) (layout:=packed_layout) 1000 (1, 2, 3))
    (fun _ s' => bank2_same (b_hw (m_board (demo_menu 0))) (b_hw (m_board s'))) (demo_menu 0).
Proof.
  apply (main_loop_keeps_app 1000 (1, 2, 3) (demo_menu 0)); [apply demo_net|apply demo_no_consent|apply demo_inv].
Defined.

Lemma version_wait_terminates_witness :
  wp (version_wait (TcpApi0:=closing_tcp) (Console0:=demo_console) (Z.to_nat 6002)) (fun r _ => r = Some tt) (demo_menu 0).
Proof.
  apply (version_wait_terminates Z.abs); [|lia]. unfold ticking, takes. cbn. split_and!; intros e; try (lia || done).
Defined.
