(* ===== verification/CoreDelay.v ===== *)
(** * The cycle counter: delays and the millisecond tick (delay/core_delay.c)

    The DWT cycle counter is 32 bits wide.  Time is counted in cycles since reset,
    without wrap; a reading of the counter is its low word.  Proved: how long
    [CPU_TS_Tmr_Delay_US] waits, across a wrap too, and what [HAL_GetTick] does. *)
From S2P Require Import Prelude.

Definition SysClockFreq : Z := 400000000.
Definition UINT32_MAX : Z := 0xFFFFFFFF.

(** [DWT_CYCCNT] after [c] cycles. *)
Definition CPU_TS_TmrRd (c : Z) : Z := u32 c.

Definition HAL_GetTick (c : Z) : Z := (CPU_TS_TmrRd c / SysClockFreq) *% 1000.

(** One reading in the loop of [CPU_TS_Tmr_Delay_US]: the new [(told, tcnt)]. *)
Definition delay_count (told tnow tcnt : Z) : Z :=
  if told <? tnow then tcnt +% (tnow -% told) else tcnt +% (UINT32_MAX -% told +% tnow).

(** [while (1)]: the times at which the counter is read are the list; the result is
    the time of the reading that ends the loop, [None] when the list is too short. *)
Fixpoint delay_loop (ticks told tcnt : Z) (reads : list Z) : option Z :=
  match reads with
  | [] => None
  | c :: reads' =>
      let tnow := CPU_TS_TmrRd c in
      if tnow =? told then delay_loop ticks told tcnt reads'
      else
        let tcnt := delay_count told tnow tcnt in
        if ticks <=? tcnt then Some c else delay_loop ticks tnow tcnt reads'
  end.

(** [freq] is the result of [HAL_RCC_GetSysClockFreq]; the first reading is [c0]. *)
Definition CPU_TS_Tmr_Delay_US (freq us c0 : Z) (reads : list Z) : option Z :=
  delay_loop (us *% (freq / 1000000)) (CPU_TS_TmrRd c0) 0 reads.

Lemma tick_range c : 0 <= HAL_GetTick c <= 10000.
Proof.
  unfold HAL_GetTick, CPU_TS_TmrRd, SysClockFreq. pose proof (u32_range c).
  assert (0 <= u32 c / 400000000 <= 10) by (Z.to_euclidean_division_equations; lia).
  rewrite u32_small; lia.
Qed.

(** ** How long a delay lasts *)
Section Delay.
Implicit Types (c ticks : Z) (reads : list Z).

(** The readings follow each other, within one period of the counter in all. *)
Fixpoint reads_ok c0 c reads : Prop :=
  match reads with
  | [] => True
  | c' :: reads' => c <= c' < c0 + 2 ^ 32 - 1 /\ reads_ok c0 c' reads'
  end.

(** How often the counter has wrapped between the two times. *)
Definition wraps c0 c : Z := c / 2 ^ 32 - c0 / 2 ^ 32.

(** One cycle is lost at a wrap: [UINT32_MAX - told + tnow] is one too small. *)
Lemma delay_count_spec c0 c c' : 0 <= c0 -> c0 <= c <= c' -> c' < c0 + 2 ^ 32 - 1 -> u32 c' <> u32 c ->
  delay_count (u32 c) (u32 c') (c - c0 - wraps c0 c) = c' - c0 - wraps c0 c'.
Proof.
  intros H0 H1 H2 Hne. unfold delay_count, wraps, UINT32_MAX, u32 in *.
  change (2 ^ 32) with 4294967296 in *.
  destruct (Z.ltb_spec (c mod 4294967296) (c' mod 4294967296));
    Z.to_euclidean_division_equations; lia.
Qed.

Lemma same_reading c0 c c' : c0 <= c <= c' -> c' < c0 + 2 ^ 32 - 1 -> u32 c' = u32 c -> c' = c.
Proof. unfold u32. change (2 ^ 32) with 4294967296. intros. Z.to_euclidean_division_equations. lia. Qed.

(** The counted cycles of the reading that ends the loop, and of all before it. *)
Lemma delay_loop_spec ticks c0 c reads : 0 <= c0 -> c0 <= c < c0 + 2 ^ 32 - 1 -> reads_ok c0 c reads ->
  c - c0 - wraps c0 c < ticks ->
  match delay_loop ticks (u32 c) (c - c0 - wraps c0 c) reads with
  | Some r => r ∈ reads /\ ticks <= r - c0 - wraps c0 r
  | None => Forall (fun x => x - c0 - wraps c0 x < ticks) reads
  end.
Proof.
  intros H0. revert c. induction reads as [|c' reads IH]; intros c Hc Hr Ht; cbn [delay_loop].
  - apply Forall_nil_2.
  - destruct Hr as [Hc' Hr]. unfold CPU_TS_TmrRd. destruct (Z.eqb_spec (u32 c') (u32 c)) as [E|E].
    + assert (c' = c) as -> by (apply (same_reading c0); lia).
      specialize (IH c Hc Hr Ht). destruct (delay_loop _ _ _ reads) as [r|].
      * destruct IH as [IH1 IH2]. split; [by right|done].
      * by apply Forall_cons_2.
    + rewrite (delay_count_spec c0) by (done || lia).
      destruct (Z.leb_spec ticks (c' - c0 - wraps c0 c')) as [Hl|Hl].
      * split; [by left|done].
      * specialize (IH c' ltac:(lia) Hr Hl). destruct (delay_loop _ _ _ reads) as [r|].
        -- destruct IH as [IH1 IH2]. split; [by right|done].
        -- by apply Forall_cons_2.
Qed.
End Delay.

(** CPU_TS_Tmr_Delay_US waits at least the requested number of cycles, also across a
    wrap of the cycle counter, and ends at the first reading more than that many cycles
    after the start. *)
Theorem delay_accuracy freq us c0 reads :
  0 <= c0 -> 0 < us *% (freq / 1000000) -> reads_ok c0 c0 reads ->
  let ticks := us *% (freq / 1000000) in
  match CPU_TS_Tmr_Delay_US freq us c0 reads with
  | Some r => r ∈ reads /\ ticks <= r - c0
  | None => Forall (fun x => x - c0 <= ticks) reads
  end.
Proof.
  intros H0 Ht Hr. cbv zeta. unfold CPU_TS_Tmr_Delay_US, CPU_TS_TmrRd.
  set (ticks := us *% (freq / 1000000)) in *.
  assert (Hw0 : c0 - c0 - wraps c0 c0 = 0) by (unfold wraps; lia).
  pose proof (delay_loop_spec ticks c0 c0 reads H0 ltac:(lia) Hr ltac:(lia)) as H. rewrite Hw0 in H.
  assert (Hin : forall c, reads_ok c0 c reads -> c0 <= c -> Forall (fun x => 0 <= wraps c0 x <= 1) reads).
  { clear - H0. induction reads as [|x reads IH]; intros c Hr Hc; [apply Forall_nil_2|].
    destruct Hr as [Hx Hr]. apply Forall_cons_2; [|apply (IH x Hr); lia].
    unfold wraps. change (2 ^ 32) with 4294967296 in *. Z.to_euclidean_division_equations. lia. }
  specialize (Hin c0 Hr ltac:(lia)). destruct (delay_loop _ _ _ reads) as [r|].
  - destruct H as [H1 H2]. split; [done|]. apply (proj1 (Forall_forall _ _) Hin) in H1. lia.
  - apply Forall_forall. intros x Hx. apply (proj1 (Forall_forall _ _) Hin) in Hx as Hx1.
    apply (proj1 (Forall_forall _ _) H) in Hx. lia.
Qed.

Lemma delay_accuracy_witness :
  let reads := [4294967100; 4294967299; 4295007296; 4295007297] in
  CPU_TS_Tmr_Delay_US 400000000 100 4294967296 [4294967296; 4295007295; 4295007296] = Some 4295007296 /\
  match CPU_TS_Tmr_Delay_US 480000000 1 4294967000 reads with
  | Some r => r ∈ reads /\ 480 <= r - 4294967000
  | None => Forall (fun x => x - 4294967000 <= 480) reads
  end.
Proof.
  split; [reflexivity|]. apply (delay_accuracy 480000000 1 4294967000); [lia|reflexivity|].
  cbn. lia.
Defined.

(** The tick is a whole number of seconds, follows the cycle counter to within one
    second, and starts again from 0 when the counter wraps. *)
Theorem tick_is_coarse c : 0 <= c ->
  0 <= HAL_GetTick c <= 10000 /\ (HAL_GetTick c) mod 1000 = 0 /\
  (c < 2 ^ 32 -> c / (SysClockFreq / 1000) - 1000 < HAL_GetTick c <= c / (SysClockFreq / 1000)) /\
  HAL_GetTick (c + 2 ^ 32) = HAL_GetTick c.
Proof.
  intros H. unfold HAL_GetTick, CPU_TS_TmrRd, SysClockFreq.
  change (2 ^ 32) with 4294967296. change (400000000 / 1000) with 400000.
  assert (Hp : u32 (c + 4294967296) = u32 c) by (unfold u32; Z.to_euclidean_division_equations; lia).
  rewrite Hp. pose proof (u32_range c) as Hr.
  assert (Hs : 0 <= u32 c / 400000000 <= 10) by (Z.to_euclidean_division_equations; lia).
  rewrite u32_small by lia. split; [lia|]. split; [apply Z.mod_mul; lia|]. split; [|done].
  intros Hc. rewrite u32_small by lia. Z.to_euclidean_division_equations. lia.
Qed.

Lemma tick_is_coarse_witness : HAL_GetTick 799999999 = 1000 /\
  0 <= HAL_GetTick 799999999 <= 10000.
Proof. split; [reflexivity|]. apply (tick_is_coarse 799999999). lia. Defined.

(** The difference of two ticks across a wrap of the counter is more than 6 s, however
    little time has passed. *)
Theorem tick_wrap_early_timeout c0 c1 : 0 <= c0 <= c1 -> HAL_GetTick c1 < HAL_GetTick c0 ->
  6000 < HAL_GetTick c1 -% HAL_GetTick c0.
Proof.
  intros H Hlt. pose proof (tick_range c0). pose proof (tick_range c1).
  unfold u32. Z.to_euclidean_division_equations. lia.
Qed.

(** The last tick before the wrap and the first one after it: 2.5 ns apart. *)
Lemma tick_wrap_early_timeout_witness :
  HAL_GetTick 4294967295 = 10000 /\ HAL_GetTick 4294967296 = 0 /\
  6000 < HAL_GetTick 4294967296 -% HAL_GetTick 4294967295.
Proof.
  split; [reflexivity|]. split; [reflexivity|].
  apply (tick_wrap_early_timeout 4294967295 4294967296); [lia|reflexivity].
Defined.
