(* ===== verification/Timeouts.v ===== *)
(** * The timer list of lwIP (lwip-2.0.3/src/core/timeouts.c)

    The delta list behind [sys_check_timeouts], which the main loop calls in every
    round.  Each entry holds the time after its predecessor; [dues] turns the list
    into absolute times, the specification.  Proved: where [sys_timeout] and
    [sys_untimeout] put the deadlines, what [sys_check_timeouts] runs, and what
    happens to it when [sys_now] jumps back, as the tick of this board does. *)
From S2P Require Import Prelude CoreDelay.

Definition TCP_TMR_INTERVAL : Z := 250.
Definition MEMP_NUM_SYS_TIMEOUT : nat := 10.

(** The functions that are called when a timer expires. *)
Inductive timer_fn := tcp_tmr | ip_reass_tmr | etharp_tmr | dhcp_coarse_tmr | dhcp_fine_tmr | user_tmr (n : Z).

(** What an entry calls: the TCP timer, a cyclic timer with its interval, or a
    one-shot handler of the application. *)
Inductive handler :=
| tcpip_tcp_timer
| cyclic_timer (interval_ms : Z) (f : timer_fn)
| one_shot (f : timer_fn).

#[export] Instance timer_fn_eq_dec : EqDecision timer_fn.
Proof. solve_decision. Defined.
#[export] Instance handler_eq_dec : EqDecision handler.
Proof. solve_decision. Defined.

(** The cyclic timers of the configuration (lwipopts.h: IPv4 with DHCP). *)
Definition lwip_cyclic_timers : list (Z * timer_fn) :=
  [(TCP_TMR_INTERVAL, tcp_tmr); (1000, ip_reass_tmr); (1000, etharp_tmr);
   (60000, dhcp_coarse_tmr); (500, dhcp_fine_tmr)].

(** The statics of timeouts.c. [X] is everything else. *)
Record tsys (X : Type) := mkT {
  next_timeout : list (Z * handler);
  timeouts_last_time : Z;
  tcpip_tcp_timer_active : bool;
  ext : X
}.
Arguments mkT {X}. Arguments next_timeout {X}. Arguments timeouts_last_time {X}.
Arguments tcpip_tcp_timer_active {X}. Arguments ext {X}.

(** The rest of the stack: the clock, the timer functions, and whether TCP has
    active or time-wait pcbs. *)
Class TimerEnv (X : Type) := {
  sys_now : X -> Z;
  run_tmr : timer_fn -> X -> X;
  tcp_pcbs : X -> bool
}.

(** The search of [sys_timeout] behind the entry [t]; [first] is the delta of the
    first entry, [time] what is left of the new one. *)
Fixpoint timeout_insert (msecs first time : Z) (h : handler) (t : Z * handler)
    (rest : list (Z * handler)) : list (Z * handler) :=
  let time := time -% t.1 in
  match rest with
  | [] => [t; ((if msecs <? time then msecs +% first else time), h)]
  | t2 :: rest' =>
      if time <? t2.1 then t :: (time, h) :: (t2.1 -% time, t2.2) :: rest'
      else t :: timeout_insert msecs first time h t2 rest'
  end.

Section Timers.
Context {X : Type} `{!TimerEnv X}.
#[local] Abbreviation sys := (tsys X).

Definition set_timers (l : list (Z * handler)) (last : Z) (s : sys) : sys :=
  mkT l last (tcpip_tcp_timer_active s) (ext s).
Definition set_active (b : bool) (s : sys) : sys :=
  mkT (next_timeout s) (timeouts_last_time s) b (ext s).

(** The pool MEMP_SYS_TIMEOUT is used by nothing else; when it is empty the timer is
    dropped (the assertion is disabled by LWIP_NOASSERT). *)
Definition sys_timeout (msecs : Z) (h : handler) (s : sys) : sys :=
  if decide (MEMP_NUM_SYS_TIMEOUT <= length (next_timeout s))%nat then s else
  let now := sys_now (ext s) in
  match next_timeout s with
  | [] => set_timers [(msecs, h)] now s
  | (t0, h0) :: rest =>
      let diff := now -% timeouts_last_time s in
      let time := msecs +% diff in
      if msecs <? t0
      then set_timers ((time, h) :: (t0 -% msecs, h0) :: rest) (timeouts_last_time s) s
      else set_timers (timeout_insert msecs t0 time h (t0, h0) rest) (timeouts_last_time s) s
  end.

(** Remove the first entry for [h]; its time goes to its successor. *)
Fixpoint untimeout_list (h : handler) (l : list (Z * handler)) : list (Z * handler) :=
  match l with
  | [] => []
  | (t, h') :: rest =>
      if decide (h' = h)
      then match rest with [] => [] | (t2, h2) :: rest' => (t2 +% t, h2) :: rest' end
      else (t, h') :: untimeout_list h rest
  end.

Definition sys_untimeout (h : handler) (s : sys) : sys :=
  set_timers (untimeout_list h (next_timeout s)) (timeouts_last_time s) s.

Definition call_tmr (f : timer_fn) (s : sys) : sys :=
  mkT (next_timeout s) (timeouts_last_time s) (tcpip_tcp_timer_active s) (run_tmr f (ext s)).

Definition run_handler (h : handler) (s : sys) : sys :=
  match h with
  | tcpip_tcp_timer =>
      let s := call_tmr tcp_tmr s in
      if tcp_pcbs (ext s) then sys_timeout TCP_TMR_INTERVAL tcpip_tcp_timer s
      else set_active false s
  | cyclic_timer ms f => sys_timeout ms (cyclic_timer ms f) (call_tmr f s)
  | one_shot f => call_tmr f s
  end.

Definition tcp_timer_needed (s : sys) : sys :=
  if negb (tcpip_tcp_timer_active s) && tcp_pcbs (ext s)
  then sys_timeout TCP_TMR_INTERVAL tcpip_tcp_timer (set_active true s)
  else s.

(** The TCP timer (index 0) is started on demand. *)
Definition sys_timeouts_init (s : sys) : sys :=
  let s := foldl (fun s c => sys_timeout c.1 (cyclic_timer c.1 c.2) s) s (tail lwip_cyclic_timers) in
  set_timers (next_timeout s) (sys_now (ext s)) s.

(** The [do ... while (had_one)] loop; [None] when it is still running after [fuel]
    rounds.  The result counts the handlers that were called. *)
Fixpoint check_loop (fuel : nat) (diff : Z) (n : Z) (s : sys) : option (Z * sys) :=
  match fuel with
  | O => None
  | S fuel =>
      match next_timeout s with
      | (t, h) :: rest =>
          if t <=? diff
          then check_loop fuel (diff -% t) (n + 1)
                 (run_handler h (set_timers rest (timeouts_last_time s +% t) s))
          else Some (n, s)
      | [] => Some (n, s)
      end
  end.

Definition sys_check_timeouts (fuel : nat) (s : sys) : option (Z * sys) :=
  match next_timeout s with
  | [] => Some (0, s)
  | _ :: _ => check_loop fuel (sys_now (ext s) -% timeouts_last_time s) 0 s
  end.

Definition sys_restart_timeouts (s : sys) : sys :=
  set_timers (next_timeout s) (sys_now (ext s)) s.

Definition sys_timeouts_sleeptime (s : sys) : Z :=
  match next_timeout s with
  | [] => 0xffffffff
  | (t, _) :: _ =>
      let diff := sys_now (ext s) -% timeouts_last_time s in
      if t <? diff then 0 else t -% diff
  end.
End Timers.

(** ** The deadlines of a delta list *)
Fixpoint dues (last : Z) (l : list (Z * handler)) : list (Z * handler) :=
  match l with
  | [] => []
  | (t, h) :: rest => (last + t, h) :: dues (last + t) rest
  end.

(** The sum of the deltas. *)
Fixpoint total (l : list (Z * handler)) : Z :=
  match l with [] => 0 | (t, _) :: l' => t + total l' end.

(** No delta is negative and the list spans less than the range of the counter. *)
Definition deltas_ok (l : list (Z * handler)) : Prop := Forall (fun t => 0 <= t.1) l.

Section Dues.
Implicit Types (l rest : list (Z * handler)) (h : handler) (last t : Z).

Lemma dues_app last l1 l2 : dues last (l1 ++ l2) = dues last l1 ++ dues (last + total l1) l2.
Proof.
  revert last; induction l1 as [|[t h] l1 IH]; intros last; cbn; [by rewrite Z.add_0_r|].
  by rewrite IH, Z.add_assoc.
Qed.

Lemma total_nonneg l : deltas_ok l -> 0 <= total l.
Proof. induction 1 as [|[t h] l Ht _ IH]; cbn in *; lia. Qed.

Lemma dues_lower last l : deltas_ok l -> Forall (fun d => last <= d.1) (dues last l).
Proof.
  intros H. revert last; induction H as [|[t h] l Ht _ IH]; intros last; cbn; [done|].
  apply Forall_cons_2; [cbn in *; lia|]. eapply Forall_impl; [apply IH|]. cbn in *. intros d Hd. lia.
Qed.

Lemma dues_upper last l : deltas_ok l -> Forall (fun d => d.1 <= last + total l) (dues last l).
Proof.
  intros H. revert last; induction H as [|[t h] l Ht Hl IH]; intros last; cbn; [done|].
  pose proof (total_nonneg l Hl). apply Forall_cons_2; [cbn in *; lia|].
  eapply Forall_impl; [apply IH|]. cbn in *. intros d Hd. lia.
Qed.

(** The search keeps every deadline and puts the new one behind all that are not
    later -- unless all entries are overdue by more than the request. *)
Lemma timeout_insert_dues msecs first time h t h0 rest last :
  deltas_ok ((t, h0) :: rest) -> total ((t, h0) :: rest) < 2 ^ 31 -> t <= time < 2 ^ 32 ->
  0 <= first -> msecs + first < 2 ^ 32 -> 0 <= msecs ->
  exists l1 l2 d, dues last ((t, h0) :: rest) = l1 ++ l2 /\
    dues last (timeout_insert msecs first time h (t, h0) rest) = l1 ++ (d, h) :: l2 /\
    deltas_ok (timeout_insert msecs first time h (t, h0) rest) /\
    Forall (fun x => x.1 <= d) l1 /\ Forall (fun x => d < x.1) l2 /\
    (time - total ((t, h0) :: rest) <= msecs -> d = last + time) /\
    (msecs < time - total ((t, h0) :: rest) -> l2 = [] /\ d = last + total ((t, h0) :: rest) + msecs + first).
Proof.
  intros Hok Htot Htime Hf Hmf Hm. revert t h0 time last Hok Htot Htime.
  change (2 ^ 32) with 4294967296 in *. change (2 ^ 31) with 2147483648 in *.
  induction rest as [|[t2 h2] rest IH]; intros t h0 time last Hok Htot Htime; cbn [timeout_insert fst snd].
  - apply Forall_cons in Hok as [Ht _]. cbn [fst] in Ht. cbn [total fst] in *.
    rewrite u32_small by lia. exists [(last + t, h0)], [].
    destruct (Z.ltb_spec msecs (time - t)) as [E|E].
    + rewrite u32_small by lia. exists (last + t + (msecs + first)). cbn [dues app].
      split; [done|]. split; [done|]. split; [repeat (apply Forall_cons_2; [cbn; lia|]); apply Forall_nil_2|].
      split; [apply Forall_cons_2; [cbn; lia|apply Forall_nil_2]|]. split; [apply Forall_nil_2|].
      split; [lia|]. intros _. split; [done|lia].
    + exists (last + t + (time - t)). cbn [dues app].
      split; [done|]. split; [done|]. split; [repeat (apply Forall_cons_2; [cbn; lia|]); apply Forall_nil_2|].
      split; [apply Forall_cons_2; [cbn; lia|apply Forall_nil_2]|]. split; [apply Forall_nil_2|].
      split; [lia|lia].
  - apply Forall_cons in Hok as [Ht Hok]. pose proof (Forall_cons_1 _ _ _ Hok) as [Ht2 Hok2].
    cbn [fst] in Ht, Ht2. pose proof (total_nonneg rest Hok2) as Hp. cbn [total fst] in Htot, Hp.
    rewrite u32_small by lia.
    destruct (Z.ltb_spec (time - t) t2) as [E|E].
    + rewrite u32_small by lia.
      exists [(last + t, h0)], (dues (last + t) ((t2, h2) :: rest)), (last + time).
      assert (Es : dues (last + t) ((time - t, h) :: (t2 - (time - t), h2) :: rest) =
        (last + time, h) :: dues (last + t) ((t2, h2) :: rest)).
      { cbn [dues]. replace (last + t + (time - t)) with (last + time) by lia.
        by replace (last + time + (t2 - (time - t))) with (last + t + t2) by lia. }
      split; [done|]. split; [cbn [dues app] in *; by rewrite Es|].
      split; [repeat (apply Forall_cons_2; [cbn; lia|]); done|].
      split; [apply Forall_cons_2; [cbn; lia|apply Forall_nil_2]|].
      split.
      * cbn [dues]. apply Forall_cons_2; [cbn; lia|].
        eapply Forall_impl; [by apply dues_lower|]. cbn. intros x Hx. lia.
      * cbn [total fst]. split; lia.
    + destruct (IH t2 h2 (time - t) (last + t) Hok) as (l1 & l2 & d & E1 & E2 & E3 & E4 & E5 & E6 & E7).
      * cbn [total fst]. lia.
      * lia.
      * exists ((last + t, h0) :: l1), l2, d.
        split; [cbn [dues] in *; by rewrite E1|]. split; [cbn [dues app]; by rewrite E2|].
        split; [by apply Forall_cons_2|].
        assert (Hd : last + t <= d).
        { destruct l1 as [|x l1]; cbn [app dues] in E1.
          - destruct l2 as [|y l2]; [done|]. injection E1 as <- <-. 
            destruct (decide (msecs < time - t - total ((t2, h2) :: rest))) as [Hc|Hc].
            + destruct (E7 Hc) as [? _]. done.
            + rewrite E6 by lia. lia.
          - injection E1 as <- _. apply Forall_cons in E4 as [E4 _]. cbn in E4. lia. }
        split; [apply Forall_cons_2; [exact Hd|done]|]. split; [done|].
        cbn [total fst] in *. split; intros H.
        -- rewrite E6 by lia. lia.
        -- destruct (E7 ltac:(lia)) as [-> ->]. split; [done|lia].
Qed.
End Dues.

(** The specification of [sys_untimeout]. *)
Fixpoint remove_first (h : handler) (d : list (Z * handler)) : list (Z * handler) :=
  match d with
  | [] => []
  | (t, h') :: d' => if decide (h' = h) then d' else (t, h') :: remove_first h d'
  end.

Section Operations.
Context {X : Type} `{!TimerEnv X}.
Implicit Types (s : tsys X) (l : list (Z * handler)).

Definition timers_ok s : Prop :=
  deltas_ok (next_timeout s) /\ total (next_timeout s) < 2 ^ 31 /\ is_u32 (timeouts_last_time s).

(** Milliseconds since the list was last advanced, as the code computes them. *)
Definition elapsed s : Z := sys_now (ext s) -% timeouts_last_time s.

Definition deadlines s : list (Z * handler) := dues (timeouts_last_time s) (next_timeout s).

Lemma untimeout_dues h l last : deltas_ok l -> total l < 2 ^ 31 ->
  dues last (untimeout_list h l) = remove_first h (dues last l) /\ deltas_ok (untimeout_list h l).
Proof.
  intros Hok. revert last. change (2 ^ 31) with 2147483648.
  induction Hok as [|[t h'] l Ht Hok IH]; intros last Htot; cbn [untimeout_list dues remove_first]; [split; [done|apply Forall_nil_2]|].
  cbn [fst] in Ht. cbn [total] in Htot. destruct (decide (h' = h)).
  - destruct l as [|[t2 h2] l]; [done|]. apply Forall_cons in Hok as [Ht2 Hok]. cbn [fst] in Ht2.
    cbn [total] in Htot. pose proof (total_nonneg l Hok). rewrite u32_small by lia. cbn [dues]. split.
    + replace (last + (t2 + t)) with (last + t + t2) by lia. done.
    + apply Forall_cons_2; [cbn; lia|done].
  - destruct (IH (last + t)) as [E1 E2]; [lia|]. cbn [dues]. rewrite E1. split; [done|].
    by apply Forall_cons_2.
Qed.

(** One cyclic timer alone on the list: it is called once per interval missed. *)
Lemma check_loop_cyclic fuel m f D n s : 0 < m < 2 ^ 31 -> 0 <= D < 2 ^ 32 ->
  next_timeout s = [(m, cyclic_timer m f)] -> D / m < Z.of_nat fuel ->
  exists s', check_loop fuel D n s = Some (n + D / m, s') /\ next_timeout s' = [(m, cyclic_timer m f)].
Proof.
  change (2 ^ 31) with 2147483648. change (2 ^ 32) with 4294967296.
  intros Hm. revert D n s. induction fuel as [|fuel IH]; intros D n s HD Hl Hf.
  - assert (0 <= D / m) by (apply Z.div_pos; lia). lia.
  - cbn [check_loop]. rewrite Hl. destruct (Z.leb_spec m D) as [E|E].
    + rewrite (u32_small (D - m)) by lia.
      assert (Hdiv : (D - m) / m = D / m - 1).
      { replace (D - m) with (D + (-1) * m) by lia. rewrite Z.div_add by lia. lia. }
      set (s1 := run_handler _ _).
      assert (Hs1 : next_timeout s1 = [(m, cyclic_timer m f)]) by done.
      destruct (IH (D - m) (n + 1) s1) as (s' & E1 & E2); [lia|done|lia|].
      exists s'. rewrite E1, Hdiv. split; [do 2 f_equal; lia|done].
    + exists s. rewrite Z.div_small by lia. split; [do 2 f_equal; lia|done].
Qed.
End Operations.

(** ** One check with timers that start themselves again *)

(** The timer function behind a handler. *)
Definition timer_of (h : handler) : timer_fn :=
  match h with tcpip_tcp_timer => tcp_tmr | cyclic_timer _ f | one_shot f => f end.

(** The check comes before the timer has missed a whole period. *)
Definition on_time (late : Z) (t : Z * handler) : Prop :=
  match t.2 with
  | tcpip_tcp_timer => late < TCP_TMR_INTERVAL
  | cyclic_timer m _ => late < m <= 60000
  | one_shot _ => True
  end.

(** The same handler, due at most [slack] later. *)
Definition close (slack : Z) (e d : Z * handler) : Prop := e.2 = d.2 /\ e.1 <= d.1 <= e.1 + slack.

Section Slack.
Implicit Types (E l : list (Z * handler)).
Lemma close_refl k E : 0 <= k -> Forall2 (close k) E E.
Proof. intros Hk. apply Forall2_same_length_lookup_2; [done|]. intros i x y H1 H2. simplify_eq. split; [done|lia]. Qed.
Lemma close_trans k1 k2 E1 E2 E3 : Forall2 (close k1) E1 E2 -> Forall2 (close k2) E2 E3 -> Forall2 (close (k1 + k2)) E1 E3.
Proof.
  intros H1. revert E3. induction H1 as [|x y E1 E2 [Hx ?] _ IH]; intros E3 H2; inversion H2 as [|? z ? ? [Hy ?] H3]; subst; constructor.
  - split; [congruence|lia].
  - by apply IH.
Qed.

(** A change in two steps: those of the first step may be reordered before the second. *)
Lemma close_step k1 k2 A B Q E' D : 0 <= k1 ->
  (exists E, Permutation E A /\ Forall2 (close k1) E B) -> Permutation E' (B ++ Q) -> Forall2 (close k2) E' D ->
  exists E, Permutation E (A ++ Q) /\ Forall2 (close (k1 + k2)) E D.
Proof.
  intros Hk (E & P & H1) P' H2. assert (H : Forall2 (close k1) (E ++ Q) (B ++ Q)) by (apply Forall2_app; [done|by apply close_refl]).
  apply Forall2_flip in H. destruct (Permutation_Forall2 (Permutation_sym P') H) as (E2 & P2 & H3).
  exists E2. split; [by rewrite <- P2, P|]. eapply close_trans; [|exact H2]. by apply Forall2_flip.
Qed.
End Slack.

(** ** The deadlines and the deltas *)
Section Deltas.
Implicit Types (l a b c : list (Z * handler)).
Lemma dues_prefix L b l c : dues L l = dues L b ++ c -> exists l', l = b ++ l' /\ dues (L + total b) l' = c.
Proof.
  revert L l. induction b as [|[t h] b IH]; intros L l; cbn [dues total app].
  - intros E. exists l. by rewrite Z.add_0_r.
  - destruct l as [|[t' h'] l]; cbn [dues]; [done|]. intros [= E1 -> E2]. assert (t' = t) as -> by lia.
    destruct (IH _ _ E2) as (l' & -> & E). exists l'. split; [done|]. by rewrite Z.add_assoc.
Qed.
Lemma total_of_app a b : total (a ++ b) = total a + total b.
Proof. induction a as [|[t h] a IH]; cbn; [done|]. rewrite IH. lia. Qed.
Lemma dues_length L l : length (dues L l) = length l.
Proof. revert L. induction l as [|[t h] l IH]; intros L; cbn; [done|]. by rewrite IH. Qed.

(** The last deadline. *)
Lemma dues_last L t l : exists x, x ∈ dues L (t :: l) /\ x.1 = L + total (t :: l).
Proof.
  revert L t. induction l as [|t2 l IH]; intros L [t h]; cbn [dues total].
  - exists (L + t, h). split; [by left|cbn; lia].
  - destruct (IH (L + t) t2) as (x & Hx & E). exists x. split; [by right|]. rewrite E. cbn [total]. destruct t2. lia.
Qed.

(** The part of a list that is due after [D] ms. *)
Lemma due_prefix D l : deltas_ok l -> 0 <= D -> exists P R, l = P ++ R /\ total P <= D /\
  match R with [] => True | t :: _ => D < total P + t.1 end.
Proof.
  intros H. revert D. induction H as [|[t h] l Ht Hl IH]; intros D HD; cbn [fst] in *; [by exists [], []|].
  destruct (Z.leb_spec t D).
  - destruct (IH (D - t) ltac:(lia)) as (P & R & -> & H1 & H2). exists ((t, h) :: P), R. cbn [total].
    split; [done|]. split; [lia|]. destruct R; [done|]. lia.
  - exists [], ((t, h) :: l). cbn [total fst]. split; [done|]. split; [lia|lia].
Qed.

(** Two ways to cut a sequence of deadlines: what is due lies before the later ones. *)
Lemma cut_before {A} (f : A -> Z) (now : Z) (x y u v : list A) : x ++ y = u ++ v ->
  Forall (fun d => f d <= now) x -> Forall (fun d => now < f d) v -> exists w, u = x ++ w /\ y = w ++ v.
Proof.
  revert u. induction x as [|d x IH]; intros u E Hx Hv; [by exists u|]. apply Forall_cons in Hx as [Hd Hx].
  destruct u as [|d' u]; cbn in E.
  - subst v. apply Forall_cons in Hv as [Hv _]. lia.
  - injection E as <- E. destruct (IH u E Hx Hv) as (w & -> & ->). by exists w.
Qed.
End Deltas.

Section Rearm.
Context {X : Type} `{!TimerEnv X}.
Implicit Types (P R : list (Z * handler)) (x : X).

(** The timers that start themselves again, with the next multiple of their period. *)
Fixpoint rearmed x (ds : list (Z * handler)) : list (Z * handler) :=
  match ds with
  | [] => []
  | (d, h) :: ds =>
      let x := run_tmr (timer_of h) x in
      match h with
      | tcpip_tcp_timer => if tcp_pcbs x then [(d + TCP_TMR_INTERVAL, h)] else []
      | cyclic_timer m _ => [(d + m, h)]
      | one_shot _ => []
      end ++ rearmed x ds
  end.

(** While a handler runs: [P] is due and [R] is not; [L] is the deadline of the handler,
    [D] ms ago. *)
Record pending (now L D : Z) P R : Prop := {
  pe_ok : deltas_ok (P ++ R);
  pe_due : total P <= D;
  pe_later : Forall (fun d => now < d.1) (dues (L + total P) R);
  pe_now : P <> [] -> L + D = now;
  pe_first : match R with [] => True | t :: _ => D < total P + t.1 end
}.

Lemma pending_shift now L D t h P R : pending now L D ((t, h) :: P) R -> pending now (L + t) (D - t) P R.
Proof.
  intros [H1 H2 H3 H4 H5]. cbn [total app] in *. apply Forall_cons in H1 as [_ H1]. constructor; [done|lia| | |].
  - by rewrite <- Z.add_assoc.
  - intros _. specialize (H4 ltac:(done)). lia.
  - destruct R; [done|]. lia.
Qed.

(** The started timer comes behind everything that is due; the others keep their deadlines
    or, when it is put in front of them, are delayed by the time the handler is late. *)
Definition restarted now L D P R m h B (L' : Z) R' : Prop :=
  (P <> [] -> L' = L) /\ pending now L' D P R' /\ length (P ++ R') = S (length (P ++ R)) /\
  total (P ++ R') <= total (P ++ R) + 180000 /\
  exists E, Permutation E (dues (L + total P) R ++ [(L + m, h)]) /\ Forall2 (close (2 * B)) E (dues (L' + total P) R').

(** In front of all others. *)
Lemma restarted_front now L D t0 h0 rest m h B :
  pending now L D [] ((t0, h0) :: rest) -> L + D = now -> 0 <= D <= B -> D < m <= 60000 -> m < t0 ->
  total ((t0, h0) :: rest) + 60000 < 2 ^ 31 ->
  restarted now L D [] ((t0, h0) :: rest) m h B L ((m +% D, h) :: (t0 -% m, h0) :: rest).
Proof.
  change (2 ^ 31) with 2147483648. intros [H1 H2 H3 H4 H5] Hnow HD Hm E Htot. cbn [app total fst] in *.
  apply Forall_cons in H1 as [Ht0 H1]. cbn [fst] in Ht0. pose proof (total_nonneg rest H1).
  rewrite !u32_small by lia. rewrite Z.add_0_r in *. cbn [dues] in *. apply Forall_cons in H3 as [H3 H3']. cbn [fst] in H3.
  assert (E1 : L + (m + D) + (t0 - m) = L + t0 + D) by lia.
  assert (Hs : forall l q k, 0 <= k -> Forall2 (close k) (dues q l) (dues (q + k) l)).
  { clear. induction l as [|[t h] l IH]; intros q k Hk; cbn [dues]; constructor; [split; cbn; [done|lia]|].
    replace (q + k + t) with (q + t + k) by lia. by apply IH. }
  assert (Hsh : Forall2 (close (2 * B)) (dues (L + t0) rest) (dues (L + t0 + D) rest)).
  { eapply Forall2_impl; [apply (Hs rest (L + t0) D); lia|]. intros e d [E2 Hd]. split; [exact E2|lia]. }
  split; [done|]. split; [constructor; cbn [app total fst dues]; try done; rewrite ?Z.add_0_r, ?E1|].
  - repeat (apply Forall_cons_2; [cbn; lia|]). done.
  - do 2 (apply Forall_cons_2; [cbn; lia|]). eapply Forall_impl; [by apply dues_lower|]. cbn. intros d Hd. lia.
  - lia.
  - split; [done|]. split; [cbn; lia|]. exists ((L + m, h) :: (L + t0, h0) :: dues (L + t0) rest).
    cbn [dues total]. rewrite Z.add_0_r, E1. split; [apply Permutation_cons_append|].
    constructor; [split; cbn; [done|lia]|]. constructor; [split; cbn; [done|lia]|done].
Qed.

(** Behind the first one. *)
Lemma restarted_behind now L D P R t0 h0 rest m h B :
  pending now L D P R -> L + D = now -> 0 <= D <= B -> D < m <= 60000 -> P ++ R = (t0, h0) :: rest -> t0 <= m ->
  total (P ++ R) + 60000 < 2 ^ 31 ->
  exists R', timeout_insert m t0 (m +% D) h (t0, h0) rest = P ++ R' /\ restarted now L D P R m h B L R'.
Proof.
  change (2 ^ 31) with 2147483648. intros [H1 H2 H3 H4 H5] Hnow HD Hm El Ht Htot. pose proof H1 as Hok. rewrite El in H1, Htot.
  pose proof (Forall_cons_1 _ _ _ H1) as [Ht0 H1']. cbn [fst total] in Ht0, Htot. pose proof (total_nonneg rest H1').
  rewrite (u32_small (m + D)) by lia.
  destruct (timeout_insert_dues m t0 (m + D) h t0 h0 rest L) as (l1 & l2 & d & E1 & E2 & E3 & E4 & E5 & E6 & E7);
    cbn [total]; try done; try lia. cbn [total] in E6, E7.
  assert (Hd : L + m <= d <= L + m + 2 * D /\ now < d).
  { destruct (decide (m < m + D - (t0 + total rest))) as [Hc|Hc]; [destruct (E7 Hc) as [_ ->]; lia|rewrite E6 by lia; lia]. }
  apply Forall_app in Hok as [HP HR]. rewrite <- El, dues_app in E1.
  assert (HdP : Forall (fun d => d.1 <= now) (dues L P))
    by (eapply Forall_impl; [by apply dues_upper|]; cbn; intros y Hy; lia).
  assert (Hl2 : Forall (fun y => now < y.1) l2) by (eapply Forall_impl; [exact E5|]; cbn; intros y Hy; lia).
  destruct (cut_before fst now _ _ _ _ E1 HdP Hl2) as (w & -> & EW). rewrite <- app_assoc in E2.
  destruct (dues_prefix _ _ _ _ E2) as (R' & ER & ED). exists R'. split; [done|]. rewrite ER in E2, E3.
  rewrite EW in H3. apply Forall_app in H3 as [Hw _].
  assert (HR' : Forall (fun y => now < y.1) (dues (L + total P) R')).
  { rewrite ED. apply Forall_app. split; [done|]. apply Forall_cons. split; [cbn; lia|done]. }
  assert (HT : total (P ++ R') <= total (P ++ R) + 180000).
  { pose proof (total_nonneg _ HP). pose proof (total_nonneg _ HR). rewrite total_of_app. destruct R' as [|t R']; [cbn; rewrite total_of_app; lia|].
    destruct (dues_last (L + total P) t R') as (z & Hx & Ex). rewrite ED in Hx. rewrite total_of_app in *.
    assert (Hup : forall y, y ∈ dues (L + total P) R -> y.1 <= L + total P + total R)
      by (intros y Hy; pose proof (dues_upper (L + total P) R HR) as Hu; rewrite Forall_forall in Hu; by apply Hu).
    apply elem_of_app in Hx as [Hx|[->|Hx]%elem_of_cons].
    - specialize (Hup z). rewrite EW in Hup. specialize (Hup ltac:(apply elem_of_app; by left)). lia.
    - cbn [fst] in Ex. lia.
    - specialize (Hup z). rewrite EW in Hup. specialize (Hup ltac:(apply elem_of_app; by right)). lia. }
  split; [done|]. split; [constructor; try done|].
  - destruct R' as [|[t h'] R']; [done|]. cbn [dues fst] in HR'. apply Forall_cons in HR' as [HR' _]. cbn in HR' |- *. lia.
  - split.
    { apply (f_equal length) in ED, EW. rewrite !dues_length, ?length_app in ED, EW. cbn in ED. rewrite !length_app. lia. }
    split; [done|]. exists (w ++ (L + m, h) :: l2). rewrite EW, ED. split.
    + rewrite <- app_assoc. by rewrite (Permutation_app_comm l2).
    + apply Forall2_app; [apply close_refl; lia|]. constructor; [split; cbn; [done|lia]|apply close_refl; lia].
Qed.

Lemma sys_timeout_pending now L D P R m h act x B :
  pending now L D P R -> L + D = now -> sys_now x = u32 now -> 0 <= D <= B -> D < m <= 60000 ->
  (length (P ++ R) < MEMP_NUM_SYS_TIMEOUT)%nat -> total (P ++ R) + 60000 < 2 ^ 31 ->
  exists L' R', sys_timeout m h (mkT (P ++ R) (u32 L) act x) = mkT (P ++ R') (u32 L') act x /\
    restarted now L D P R m h B L' R'.
Proof.
  intros Hp Hnow Hclk HD Hm Hlen Htot. pose proof Hp as [H1 H2 _ _ _].
  unfold sys_timeout. rewrite decide_False by (cbn; lia). cbn [next_timeout timeouts_last_time ext].
  assert (Hdiff : sys_now x -% u32 L = D).
  { rewrite Hclk. unfold u32. rewrite <- Zminus_mod. rewrite Z.mod_small; lia. }
  destruct (P ++ R) as [|[t0 h0] rest] eqn:El.
  - apply app_eq_nil in El as [-> ->]. exists now, [(m, h)]. rewrite Hclk. split; [done|].
    split; [done|]. split; [constructor; cbn; try done; try lia|].
    + apply Forall_cons_2; [cbn; lia|done].
    + apply Forall_cons_2; [cbn; lia|done].
    + split; [done|]. split; [cbn; lia|]. exists [(L + m, h)]. cbn. rewrite !Z.add_0_r. split; [done|].
      constructor; [split; cbn; [done|lia]|done].
  - rewrite Hdiff. destruct (Z.ltb_spec m t0) as [E|E].
    + assert (P = []) as ->.
      { destruct P as [|t P]; [done|]. cbn in El. injection El as -> El. cbn [total] in H2.
        rewrite <- El in H1. apply Forall_cons in H1 as [_ H1]. apply Forall_app in H1 as [H1 _].
        pose proof (total_nonneg _ H1). lia. }
      cbn in El. subst R. exists L. eexists. split; [unfold set_timers; reflexivity|]. by apply restarted_front.
    + rewrite <- El in Htot. destruct (restarted_behind now L D P R t0 h0 rest m h B Hp Hnow HD Hm El E Htot) as (R' & -> & HR).
      exists L, R'. by split.
Qed.

Definition call_all x P : X := foldl (fun x t => run_tmr (timer_of t.2) x) x P.

(** What a check leaves: nothing is due any more, and of the deadlines that should be on
    the list none comes early and none later than 2 [B] ms per restarted timer. *)
Definition checked now B L P R x (L' : Z) R' : Prop :=
  Forall (fun d => now < d.1) (dues L' R') /\
  exists E, Permutation E (dues (L + total P) R ++ rearmed x (dues L P)) /\
    Forall2 (close (2 * B * Z.of_nat (length (rearmed x (dues L P))))) E (dues L' R').

Lemma checked_call now B L t h P R x R1 L1 L' R' r : 0 <= B ->
  rearmed x [(L + t, h)] = r -> (P <> [] -> L1 = L + t) ->
  (exists E, Permutation E (dues (L + t + total P) R ++ r) /\ Forall2 (close (2 * B * Z.of_nat (length r))) E (dues (L1 + total P) R1)) ->
  checked now B L1 P R1 (run_tmr (timer_of h) x) L' R' -> checked now B L ((t, h) :: P) R x L' R'.
Proof.
  intros HB Hr HL HE [H1 (E & P2 & H2)]. split; [done|]. cbn [dues total].
  assert (EQ : rearmed (run_tmr (timer_of h) x) (dues L1 P) = rearmed (run_tmr (timer_of h) x) (dues (L + t) P)).
  { destruct P as [|p P]; [done|]. by rewrite HL by done. }
  rewrite EQ in P2, H2. set (Q := rearmed _ (dues (L + t) P)) in *.
  assert (ER : rearmed x ((L + t, h) :: dues (L + t) P) = r ++ Q).
  { rewrite <- Hr. cbn [rearmed]. by rewrite app_nil_r. }
  rewrite ER. destruct (close_step (2 * B * Z.of_nat (length r)) _ _ _ Q E _ ltac:(lia) HE P2 H2) as (E2 & P3 & H3).
  exists E2. rewrite length_app, Nat2Z.inj_add, Z.mul_add_distr_l, app_assoc, Z.add_assoc. by split.
Qed.

Lemma check_loop_pending (Hclk : forall f x, sys_now (run_tmr f x) = sys_now x) now B (HB : is_u32 B) P : forall fuel R L D n act x,
  pending now L D P R -> 0 <= D <= B -> (length P < fuel)%nat -> (length (P ++ R) <= MEMP_NUM_SYS_TIMEOUT)%nat ->
  total (P ++ R) + Z.of_nat (length P) * 180000 + 60000 < 2 ^ 31 -> sys_now x = u32 now -> Forall (on_time D) P ->
  exists L' R' act', check_loop fuel D n (mkT (P ++ R) (u32 L) act x) =
      Some (n + Z.of_nat (length P), mkT R' (u32 L') act' (call_all x P)) /\ checked now B L P R x L' R'.
Proof.
  change (2 ^ 31) with 2147483648. unfold is_u32 in HB.
  induction P as [|[t h] P IH]; intros fuel R L D n act x Hp HD Hf Hlen Htot Hx Hon;
    (destruct fuel as [|fuel]; [cbn in Hf; lia|]).
  { destruct Hp as [H1 H2 H3 _ H5]. cbn [app total] in *. rewrite Z.add_0_r in *. exists L, R, act. cbn [check_loop next_timeout length].
    rewrite ?Z.add_0_r. split.
    - destruct R as [|[t h] R]; [done|]. cbn [fst] in H5. by rewrite (proj2 (Z.leb_gt t D)) by lia.
    - split; [done|]. exists (dues L R). cbn [total dues rearmed length]. rewrite app_nil_r, Z.add_0_r. split; [done|]. apply close_refl. lia. }
  pose proof Hp as [H1 H2 _ H4 _]. specialize (H4 ltac:(done)). cbn [app total length] in *.
  pose proof (Forall_cons_1 _ _ _ H1) as [Ht H1']. cbn [fst] in Ht. pose proof (pending_shift _ _ _ _ _ _ _ Hp) as Hp'.
  pose proof (proj1 (Forall_app _ _ _) H1') as [HP HR]. pose proof (total_nonneg _ HP). apply Forall_cons in Hon as [Hh Hon].
  cbn [check_loop next_timeout]. rewrite (proj2 (Z.leb_le t D)), (u32_small (D - t)) by lia.
  unfold set_timers. cbn [next_timeout timeouts_last_time tcpip_tcp_timer_active ext].
  assert (Elast : u32 L +% t = u32 (L + t)) by (unfold u32; by rewrite Zplus_mod_idemp_l). rewrite Elast.
  assert (Hon' : Forall (on_time (D - t)) P).
  { eapply Forall_impl; [exact Hon|]. intros [t' []]; unfold on_time; cbn; lia. }
  assert (Hx1 : forall f, sys_now (run_tmr f x) = u32 now) by (intros f; by rewrite Hclk).
  assert (Hplain : forall act, rearmed x [(L + t, h)] = [] -> exists L' R' act',
    check_loop fuel (D - t) (n + 1) (mkT (P ++ R) (u32 (L + t)) act (run_tmr (timer_of h) x)) =
      Some (n + Z.of_nat (Datatypes.S (length P)), mkT R' (u32 L') act' (call_all x ((t, h) :: P))) /\
    checked now B L ((t, h) :: P) R x L' R').
  { intros act0 Hr. destruct (IH fuel R (L + t) (D - t) (n + 1) act0 (run_tmr (timer_of h) x)) as (L' & R' & act' & E & K);
      [done|lia|lia|lia|lia|apply Hx1|done|].
    exists L', R', act'. split; [rewrite E; do 2 f_equal; lia|].
    eapply checked_call; [lia|exact Hr|done| |exact K]. exists (dues (L + t + total P) R).
    rewrite app_nil_r. split; [done|]. apply close_refl. cbn. lia. }
  assert (Hagain : forall m act, rearmed x [(L + t, h)] = [(L + t + m, h)] -> D < m <= 60000 -> exists L' R' act',
    check_loop fuel (D - t) (n + 1) (sys_timeout m h (mkT (P ++ R) (u32 (L + t)) act (run_tmr (timer_of h) x))) =
      Some (n + Z.of_nat (Datatypes.S (length P)), mkT R' (u32 L') act' (call_all x ((t, h) :: P))) /\
    checked now B L ((t, h) :: P) R x L' R').
  { intros m act0 Hr Hm.
    destruct (sys_timeout_pending now (L + t) (D - t) P R m h act0 (run_tmr (timer_of h) x) B)
      as (L1 & R1 & -> & K1 & K2 & K3 & K4 & K5); [done|lia|apply Hx1|lia|lia|unfold MEMP_NUM_SYS_TIMEOUT in *; lia|
      change (2 ^ 31) with 2147483648; lia|].
    destruct (IH fuel R1 L1 (D - t) (n + 1) act0 (run_tmr (timer_of h) x)) as (L' & R' & act' & E & K);
      [done|lia|lia|lia|lia|apply Hx1|done|].
    exists L', R', act'. split; [rewrite E; do 2 f_equal; lia|].
    eapply checked_call; [lia|exact Hr|exact K1| |exact K].
    replace (2 * B * Z.of_nat (length [(L + t + m, h)])) with (2 * B) by (cbn [length]; lia). exact K5. }
  unfold on_time in Hh. cbn [snd] in Hh. destruct h as [|m f|f]; cbn [run_handler]; unfold call_tmr;
    cbn [next_timeout timeouts_last_time tcpip_tcp_timer_active ext].
  - destruct (tcp_pcbs (run_tmr tcp_tmr x)) eqn:Et.
    + apply Hagain; [cbn; by rewrite Et|unfold TCP_TMR_INTERVAL in *; lia].
    + unfold set_active. cbn [next_timeout timeouts_last_time ext]. apply Hplain. cbn. by rewrite Et.
  - by apply Hagain.
  - by apply Hplain.
Qed.
End Rearm.

(** sys_timeout keeps the delta list well formed and puts the new handler at now + msecs
    in order of deadlines, behind those due at the same time; inserting in front of the
    first timer delays all the others by the time since the last check. *)
Theorem sys_timeout_deadline {X} `{!TimerEnv X} msecs h (s : tsys X) :
  timers_ok s -> (length (next_timeout s) < MEMP_NUM_SYS_TIMEOUT)%nat ->
  0 <= msecs < 2 ^ 30 -> elapsed s < 2 ^ 30 ->
  let s' := sys_timeout msecs h s in
  let now := timeouts_last_time s + elapsed s in
  deltas_ok (next_timeout s') /\
  match next_timeout s with
  | [] => next_timeout s' = [(msecs, h)] /\ timeouts_last_time s' = sys_now (ext s)
  | (t0, _) :: _ =>
      timeouts_last_time s' = timeouts_last_time s /\
      if msecs <? t0
      then deadlines s' = (now + msecs, h) :: map (fun d => (d.1 + elapsed s, d.2)) (deadlines s)
      else exists l1 l2 d, deadlines s = l1 ++ l2 /\ deadlines s' = l1 ++ (d, h) :: l2 /\
             Forall (fun x => x.1 <= d) l1 /\ Forall (fun x => d < x.1) l2 /\
             (elapsed s <= total (next_timeout s) -> d = now + msecs)
  end.
Proof.
  intros (Hok & Htot & Hlast) Hlen Hms Hel. cbv zeta. unfold sys_timeout.
  rewrite decide_False by lia. pose proof (u32_range (sys_now (ext s) - timeouts_last_time s)) as He.
  fold (elapsed s) in *. unfold deadlines. destruct (next_timeout s) as [|[t0 h0] rest] eqn:El.
  - cbn. split; [apply Forall_cons_2; [cbn; lia|apply Forall_nil_2]|done].
  - change (sys_now (ext s) -% timeouts_last_time s) with (elapsed s).
    change (2 ^ 31) with 2147483648 in *. change (2 ^ 30) with 1073741824 in *.
    pose proof (Forall_cons_1 _ _ _ Hok) as [Ht0 Hok']. cbn [fst] in Ht0. cbn [total] in Htot.
    pose proof (total_nonneg rest Hok'). rewrite (u32_small (msecs + elapsed s)) by lia.
    destruct (Z.ltb_spec msecs t0) as [E|E]; cbn [next_timeout timeouts_last_time set_timers].
    + rewrite u32_small by lia. split; [repeat (apply Forall_cons_2; [cbn; lia|]); done|]. split; [done|].
      cbn [dues map fst snd]. f_equal; [f_equal; lia|]. f_equal; [f_equal; lia|].
      replace (timeouts_last_time s + (msecs + elapsed s) + (t0 - msecs))
        with (timeouts_last_time s + t0 + elapsed s) by lia.
      generalize (timeouts_last_time s + t0) as q. clear. induction rest as [|[t h] rest IH]; intros q; [done|].
      cbn [dues map fst snd]. f_equal; [f_equal; lia|]. rewrite <- IH. f_equal. lia.
    + destruct (timeout_insert_dues msecs t0 (msecs + elapsed s) h t0 h0 rest (timeouts_last_time s))
        as (l1 & l2 & d & E1 & E2 & E3 & E4 & E5 & E6 & E7); cbn [total]; try done; try lia.
      split; [done|]. split; [done|]. exists l1, l2, d. split; [done|]. split; [done|].
      split; [done|]. split; [done|]. cbn [total] in *. intros H1. rewrite E6; lia.
Qed.

(** sys_untimeout removes the first timer with the handler and argument and no other
    deadline moves. *)
Theorem sys_untimeout_exact {X} `{!TimerEnv X} h (s : tsys X) :
  timers_ok s -> deadlines (sys_untimeout h s) = remove_first h (deadlines s) /\
  deltas_ok (next_timeout (sys_untimeout h s)).
Proof. intros (H1 & H2 & _). by apply untimeout_dues. Qed.


(** When HAL_GetTick has wrapped since the last check, a cyclic timer is run about 2^32
    / period times in one call of sys_check_timeouts. *)
Theorem tick_wrap_timer_storm {X} `{!TimerEnv X} fuel m t f c0 c1 act (x : X) :
  0 <= c0 <= c1 -> HAL_GetTick c1 < HAL_GetTick c0 -> sys_now x = HAL_GetTick c1 ->
  0 < m < 2 ^ 31 -> 0 <= t <= m -> 2 ^ 32 / m + 2 < Z.of_nat fuel -> m <= 60000 ->
  exists n s', sys_check_timeouts fuel (mkT [(t, cyclic_timer m f)] (HAL_GetTick c0) act x) = Some (n, s') /\
    2 ^ 32 - 10000 - m <= n * m.
Proof.
  change (2 ^ 31) with 2147483648. change (2 ^ 32) with 4294967296.
  intros Hc Hlt Hnow Hm Ht Hf Hm2. unfold sys_check_timeouts. cbn [next_timeout timeouts_last_time ext].
  rewrite Hnow. pose proof (tick_range c0) as H0. pose proof (tick_range c1) as H1.
  set (D := HAL_GetTick c1 -% HAL_GetTick c0).
  assert (HD : 4294967296 - 10000 <= D < 4294967296)
    by (subst D; unfold u32; Z.to_euclidean_division_equations; lia).
  destruct fuel as [|fuel]; [assert (0 <= 4294967296 / m) by (apply Z.div_pos; lia); lia|].
  cbn [check_loop next_timeout]. rewrite (proj2 (Z.leb_le t D)) by lia. rewrite (u32_small (D - t)) by lia.
  set (s1 := run_handler _ _).
  assert (Hdiv : (D - t) / m <= 4294967296 / m) by (apply Z.div_le_mono; lia).
  assert (Hs1 : next_timeout s1 = [(m, cyclic_timer m f)]) by done.
  destruct (check_loop_cyclic fuel m f (D - t) (0 + 1) s1 ltac:(lia) ltac:(lia) Hs1 ltac:(lia))
    as (s' & E1 & E2).
  exists (0 + 1 + (D - t) / m), s'. split; [exact E1|].
  pose proof (Z.mod_pos_bound (D - t) m ltac:(lia)). pose proof (Z.div_mod (D - t) m ltac:(lia)). lia.
Qed.

(** ** A clock and a log, for the witnesses *)
#[export] Instance demo_env : TimerEnv (Z * list timer_fn) := {
  sys_now := fst;
  run_tmr f x := (x.1, x.2 ++ [f]);
  tcp_pcbs x := false
}.

Definition demo_timers (now : Z) : tsys (Z * list timer_fn) :=
  mkT [(100, one_shot (user_tmr 1)); (50, one_shot (user_tmr 2)); (500, one_shot (user_tmr 3))] 1000 false (now, []).

Lemma demo_timers_ok now : timers_ok (demo_timers now).
Proof. split; [apply (bool_decide_unpack _); by vm_compute|]. split; [reflexivity|by vm_compute]. Qed.

Lemma sys_timeout_deadline_witness :
  let s := demo_timers 1120 in let s' := sys_timeout 200 (one_shot (user_tmr 9)) s in
  deadlines s' = [(1100, one_shot (user_tmr 1)); (1150, one_shot (user_tmr 2));
                  (1320, one_shot (user_tmr 9)); (1650, one_shot (user_tmr 3))] /\
  deltas_ok (next_timeout s').
Proof.
  split; [reflexivity|]. apply (sys_timeout_deadline 200 (one_shot (user_tmr 9)) (demo_timers 1120)).
  - apply demo_timers_ok.
  - cbn. unfold MEMP_NUM_SYS_TIMEOUT. lia.
  - lia.
  - reflexivity.
Defined.

Lemma sys_untimeout_exact_witness :
  deadlines (sys_untimeout (one_shot (user_tmr 1)) (demo_timers 1000)) =
    [(1150, one_shot (user_tmr 2)); (1650, one_shot (user_tmr 3))].
Proof.
  destruct (sys_untimeout_exact (one_shot (user_tmr 1)) (demo_timers 1000) (demo_timers_ok 1000)) as [-> _].
  reflexivity.
Defined.

(** The timers of the board 3 ms after the ARP timer was due. *)
Definition board_timers : tsys (Z * list timer_fn) :=
  mkT [(100, tcpip_tcp_timer); (50, cyclic_timer 1000 etharp_tmr); (300, cyclic_timer 500 dhcp_fine_tmr);
       (9000, one_shot (user_tmr 3))] 1000 true (1153, []).
Lemma board_timers_ok : timers_ok board_timers.
Proof. split; [apply (bool_decide_unpack _); by vm_compute|]. split; [reflexivity|by vm_compute]. Qed.

Example board_check : option_map (fun x => (x.1, next_timeout x.2, (ext x.2).2)) (sys_check_timeouts 5 board_timers) =
  Some (2, [(300, cyclic_timer 500 dhcp_fine_tmr); (703, cyclic_timer 1000 etharp_tmr); (8297, one_shot (user_tmr 3))],
        [tcp_tmr; etharp_tmr]).
Proof. vm_compute. reflexivity. Qed.

(** The ARP timer of the board, last run at tick 10000, checked at tick 0. *)
Lemma tick_wrap_timer_storm_witness : exists n s',
  sys_check_timeouts (Z.to_nat 4300000) (mkT [(0, cyclic_timer 1000 etharp_tmr)]
    (HAL_GetTick 4294967295) false (HAL_GetTick 4294967296, [])) = Some (n, s') /\
  4294956296 <= n * 1000.
Proof.
  apply (tick_wrap_timer_storm (Z.to_nat 4300000) 1000 0 etharp_tmr 4294967295 4294967296 false (HAL_GetTick 4294967296, []));
    [lia|reflexivity|reflexivity|lia|lia|rewrite Z2Nat.id; [reflexivity|lia]|lia].
Defined.
