(* ===== verification/Ethernetif.v ===== *)
(** * The network interface (APP/ethernetif.c, APP/app_ethernet.c, BSP/LAN8720A)

    The driver between the Ethernet MAC and lwIP, and the PHY.  The HAL, the PHY and
    the stack's input function are the class [EthHal].  Proved: the PHY
    initialisation ends, which link states bring the interface up (and that a lost
    link is never noticed), and the receive loop hands over every pending frame. *)
From S2P Require Import Prelude Net.

(** LAN8720a.h *)
Definition PHY_BCR : Z := 0.
Definition PHY_BSR : Z := 1.
Definition PHY_SR : Z := 0x1F.
Definition PHY_RESET : Z := 0x8000.
Definition PHY_AUTONEGOTIATION : Z := 0x1000.
Definition PHY_AUTONEGO_COMPLETE : Z := 0x20.
Definition PHY_READ_TO : Z := 0xFFFF.
Definition PHY_RESET_DELAY : Z := 0xF.
Definition PHY_SPEED_Indication : Z := 0x1C.
Definition LAN8740_10MBITS_HALFDUPLEX : Z := 0x04.
Definition LAN8740_10MBITS_FULLDUPLEX : Z := 0x14.
Definition LAN8740_100MBITS_HALFDUPLEX : Z := 0x08.
Definition LAN8740_100MBITS_FULLDUPLEX : Z := 0x18.

(** stm32h7xx_hal_conf.h, ethernetif.c *)
Definition ETH_TX_DESC_CNT : nat := 4.
Definition ETH_RX_DESC_CNT : nat := 4.
Definition ETH_RX_BUFFER_SIZE : Z := 1536.
Definition RX_POOL_SIZE : Z := 20.

Inductive hal_status := HAL_OK | HAL_ERROR | HAL_TIMEOUT.
#[export] Instance hal_status_eq_dec : EqDecision hal_status.
Proof. solve_decision. Defined.

Inductive duplex_mode := ETH_FULLDUPLEX_MODE | ETH_HALFDUPLEX_MODE.
Inductive eth_speed := ETH_SPEED_100M | ETH_SPEED_10M.

(** [netif_input f] is [netif->input]: its error code, and whether the stack still
    holds the pbuf when it returns. *)
Class EthHal (E : Type) := {
  HAL_ETH_WritePHY : Z -> Z -> M E bool;
  HAL_ETH_ReadPHY : Z -> M E (option Z);
  HAL_ETH_Init : M E unit;
  HAL_ETH_DescAssign : Z -> M E unit;
  HAL_ETH_GetRxDataBuffer : M E (option (list Z));
  HAL_ETH_GetRxDataLength : M E Z;
  HAL_ETH_BuildRxDescriptors : M E unit;
  HAL_ETH_Transmit : list (list Z) -> Z -> M E unit;
  HAL_ETH_SetMAC : duplex_mode -> eth_speed -> M E unit;
  HAL_ETH_Start_IT : M E unit;
  HAL_ETH_Stop_IT : M E unit;
  eth_delay : Z -> M E unit;
  netif_input : list Z -> M E (Z * bool)
}.

(** The flags of [gnetif], the free elements of RX_POOL and the hardware. *)
Record eth_sys (E : Type) := mkEth {
  link_up : bool;
  netif_up : bool;
  rx_free : Z;
  eth_env : E
}.
Arguments mkEth {E}. Arguments link_up {E}. Arguments netif_up {E}. Arguments rx_free {E}.
Arguments eth_env {E}.

(** What [low_level_input] returns; [RxFault]: the pool is empty and NULL is used. *)
Inductive rx_result := RxFault | RxNone | RxFrame (f : list Z).

Section Driver.
Context {E : Type} `{!EthHal E}.
#[local] Abbreviation sys := (eth_sys E).

Definition on_eth {A} (m : M E A) : M sys A := fun s =>
  let '(a, e) := m (eth_env s) in (a, mkEth (link_up s) (netif_up s) (rx_free s) e).
Definition set_link (l u : bool) : M sys unit := modify (fun s => mkEth l u (rx_free s) (eth_env s)).
Definition set_up (u : bool) : M sys unit := modify (fun s => mkEth (link_up s) u (rx_free s) (eth_env s)).
Definition add_free (n : Z) : M sys unit :=
  modify (fun s => mkEth (link_up s) (netif_up s) (rx_free s + n) (eth_env s)).

(** *** The PHY *)

(** [do { read BSR; TIME_Out++; if (TIME_Out > PHY_READ_TO) return; } while (!done)],
    with [n] rounds left; a failed read leaves [phyreg]. *)
Fixpoint autoneg_wait (n : nat) (phyreg : Z) : M sys hal_status :=
  r <- on_eth (HAL_ETH_ReadPHY PHY_BSR) ;;
  let phyreg := default phyreg r in
  match n with
  | O => ret HAL_TIMEOUT
  | S n' =>
      if Z.land phyreg PHY_AUTONEGO_COMPLETE =? PHY_AUTONEGO_COMPLETE
      then ret HAL_OK else autoneg_wait n' phyreg
  end.

Definition LAN8720_Init : M sys hal_status :=
  w <- on_eth (HAL_ETH_WritePHY PHY_BCR PHY_RESET) ;;
  if negb w then ret HAL_ERROR else
  on_eth (eth_delay PHY_RESET_DELAY) ;;;
  w <- on_eth (HAL_ETH_WritePHY PHY_BCR PHY_AUTONEGOTIATION) ;;
  if negb w then ret HAL_ERROR else
  on_eth (eth_delay 0xFFF) ;;;
  autoneg_wait (Z.to_nat PHY_READ_TO) 0.

Definition LAN8720_GetLinkState : M sys Z :=
  r <- on_eth (HAL_ETH_ReadPHY PHY_SR) ;; ret (default 0 r).

(** The speed and duplex mode of the PHY status. *)
Definition link_mode (st : Z) : option (duplex_mode * eth_speed) :=
  let ind := Z.land st PHY_SPEED_Indication in
  if ind =? LAN8740_100MBITS_FULLDUPLEX then Some (ETH_FULLDUPLEX_MODE, ETH_SPEED_100M)
  else if ind =? LAN8740_100MBITS_HALFDUPLEX then Some (ETH_HALFDUPLEX_MODE, ETH_SPEED_100M)
  else if ind =? LAN8740_10MBITS_FULLDUPLEX then Some (ETH_FULLDUPLEX_MODE, ETH_SPEED_10M)
  else if ind =? LAN8740_10MBITS_HALFDUPLEX then Some (ETH_HALFDUPLEX_MODE, ETH_SPEED_10M)
  else None.

Definition ethernet_link_check_state : M sys unit :=
  st <- LAN8720_GetLinkState ;;
  l <- gets link_up ;;
  if l && negb (st =? 0) then on_eth HAL_ETH_Stop_IT ;;; set_link false false
  else if negb l && negb (st =? 0) then
    match link_mode st with
    | Some (d, v) => on_eth (HAL_ETH_SetMAC d v) ;;; on_eth HAL_ETH_Start_IT ;;; set_link true true
    | None => ret tt
    end
  else ret tt.

(** *** Initialisation *)
Fixpoint assign_rx (n : nat) (idx : Z) : M sys unit :=
  match n with
  | O => ret tt
  | S n' => on_eth (HAL_ETH_DescAssign idx) ;;; assign_rx n' (idx + 1)
  end.

Definition low_level_init : M sys unit :=
  on_eth HAL_ETH_Init ;;;
  assign_rx ETH_RX_DESC_CNT 0 ;;;
  modify (fun s => mkEth (link_up s) (netif_up s) RX_POOL_SIZE (eth_env s)) ;;;
  st <- LAN8720_Init ;;
  if bool_decide (st = HAL_OK) then ethernet_link_check_state else ret tt.

(** [mem_ok]: the allocation of the private data succeeded. *)
Definition ethernetif_init (mem_ok : bool) : M sys Z :=
  if negb mem_ok then ret ERR_MEM else low_level_init ;;; ret ERR_OK.

(** The interface is set up or down as the link is. *)
Definition Netif_Config (mem_ok : bool) : M sys unit :=
  ethernetif_init mem_ok ;;;
  l <- gets link_up ;;
  set_up l.

(** *** Frames *)
Definition low_level_output (p : list (list Z)) : M sys Z :=
  if (length p <=? ETH_TX_DESC_CNT)%nat
  then on_eth (HAL_ETH_Transmit p (foldl (fun a q => a +% Z.of_nat (length q)) 0 p)) ;;; ret ERR_OK
  else ret ERR_IF.

(** [pbuf_alloced_custom] refuses a frame that does not fit; the element of the pool
    is lost then. *)
Definition low_level_input : M sys rx_result :=
  b <- on_eth HAL_ETH_GetRxDataBuffer ;;
  match b with
  | None => ret RxNone
  | Some buf =>
      len <- on_eth HAL_ETH_GetRxDataLength ;;
      free <- gets rx_free ;;
      if free <=? 0 then ret RxFault else
      add_free (-1) ;;;
      ret (if ETH_RX_BUFFER_SIZE <? u16 len then RxNone else RxFrame (take (Z.to_nat (u16 len)) buf))
  end.

(** The element goes back to the pool. *)
Definition pbuf_free_custom : M sys unit := add_free 1.

(** [goto TRY_GET_NEXT_FRAGMENT]; [Some false] = fault, [None] = still receiving. *)
Definition ethernetif_input (fuel : nat) : M sys (option bool) :=
  forever fuel (
    p <- low_level_input ;;
    match p with
    | RxFault => ret (Some false)
    | RxNone => on_eth HAL_ETH_BuildRxDescriptors ;;; ret (Some true)
    | RxFrame f =>
        on_eth HAL_ETH_BuildRxDescriptors ;;;
        r <- on_eth (netif_input f) ;;
        if negb (r.1 =? ERR_OK) then pbuf_free_custom ;;; ret (Some true)
        else (if r.2 : bool then ret tt else pbuf_free_custom) ;;; ret None
    end).
End Driver.

(** ** The PHY and the link *)
Section Link.
Context {E : Type} `{!EthHal E}.
Implicit Types (s : eth_sys E).

Lemma wp_on_eth {A} (m : M E A) (Q : A -> eth_sys E -> Prop) s :
  wp m (fun a e => Q a (mkEth (link_up s) (netif_up s) (rx_free s) e)) (eth_env s) -> wp (on_eth m) Q s.
Proof. cbv [wp on_eth]. by destruct (m (eth_env s)). Qed.

Lemma wp_on_eth_any {A} (m : M E A) (Q : A -> eth_sys E -> Prop) s :
  (forall a e, Q a (mkEth (link_up s) (netif_up s) (rx_free s) e)) -> wp (on_eth m) Q s.
Proof. intros H. apply wp_on_eth. unfold wp. destruct (m _). apply H. Qed.

(** The state of the link that the PHY reports. *)
Definition phy_status s : Z := default 0 (HAL_ETH_ReadPHY PHY_SR (eth_env s)).1.

Lemma wp_GetLinkState (Q : Z -> eth_sys E -> Prop) s :
  (forall e, Q (phy_status s) (mkEth (link_up s) (netif_up s) (rx_free s) e)) ->
  wp LAN8720_GetLinkState Q s.
Proof.
  intros H. apply wp_bind, wp_on_eth, wp_intro. intros r e Er. apply wp_ret.
  unfold phy_status in H. rewrite Er in H. apply H.
Qed.
End Link.

(** The link check brings the interface up exactly for the four speed and duplex codes
    of the PHY when the link was down; when the link was up a non-zero status takes the
    interface down and a zero status leaves it up. *)
Theorem link_check {E} `{!EthHal E} (s : eth_sys E) :
  wp ethernet_link_check_state (fun _ s' =>
    rx_free s' = rx_free s /\
    if link_up s then
      (phy_status s <> 0 -> link_up s' = false /\ netif_up s' = false) /\
      (phy_status s = 0 -> link_up s' = true /\ netif_up s' = netif_up s)
    else
      match link_mode (phy_status s) with
      | Some _ => link_up s' = true /\ netif_up s' = true
      | None => link_up s' = false /\ netif_up s' = netif_up s
      end) s.
Proof.
  apply wp_bind, wp_GetLinkState. intros e. apply wp_bind, wp_gets. cbn [link_up].
  destruct (Z.eqb_spec (phy_status s) 0) as [E0|E0], (link_up s) eqn:El; cbn [andb negb].
  - apply wp_ret. split; [done|]. split; [done|]. intros _. cbn. done.
  - apply wp_ret. split; [done|]. rewrite E0. cbn. done.
  - apply wp_bind, wp_on_eth_any. intros u e'. apply wp_modify. by repeat split.
  - destruct (link_mode (phy_status s)) as [[d v]|].
    + apply wp_bind, wp_on_eth_any. intros u e'. apply wp_bind, wp_on_eth_any. intros u' e''.
      by apply wp_modify.
    + apply wp_ret. by repeat split.
Qed.

(** LAN8720_Init touches neither link nor receive pool, and reports a timeout when
    autonegotiation never completes. *)
Theorem phy_init_ends {E} `{!EthHal E} (s : eth_sys E) :
  wp LAN8720_Init (fun r s' => link_up s' = link_up s /\ netif_up s' = netif_up s /\ rx_free s' = rx_free s) s /\
  ((forall e, exists v e', HAL_ETH_ReadPHY PHY_BSR e = (Some v, e') /\
      Z.land v PHY_AUTONEGO_COMPLETE <> PHY_AUTONEGO_COMPLETE) ->
   (forall r v e, (HAL_ETH_WritePHY r v e).1 = true) ->
   wp LAN8720_Init (fun r _ => r = HAL_TIMEOUT) s).
Proof.
  assert (Hk : forall n x s0, wp (autoneg_wait n x) (fun _ s' => link_up s' = link_up s0 /\
    netif_up s' = netif_up s0 /\ rx_free s' = rx_free s0) s0).
  { intros n. induction n as [|n IH]; intros x s0; cbn [autoneg_wait];
      apply wp_bind, wp_on_eth_any; intros r e; [by apply wp_ret|].
    cbv zeta. destruct (_ =? _); [by apply wp_ret|].
    eapply wp_mono; [apply IH|]. cbv beta. done. }
  split.
  - unfold LAN8720_Init. apply wp_bind, wp_on_eth_any. intros w e. destruct (negb w); [by apply wp_ret|].
    apply wp_bind, wp_on_eth_any. intros u e'. apply wp_bind, wp_on_eth_any. intros w' e2.
    destruct (negb w'); [by apply wp_ret|]. apply wp_bind, wp_on_eth_any. intros u' e3.
    eapply wp_mono; [apply Hk|]. cbv beta. done.
  - intros Hread Hwrite.
    assert (Hn : forall n x s0, wp (autoneg_wait n x) (fun r _ => r = HAL_TIMEOUT) s0).
    { intros n. induction n as [|n IH]; intros x s0; cbn [autoneg_wait];
        destruct (Hread (eth_env s0)) as (v & e' & Er & Hv);
        apply wp_bind, wp_on_eth; unfold wp at 1; rewrite Er; [by apply wp_ret|].
      cbv zeta. change (default x (Some v)) with v. rewrite (proj2 (Z.eqb_neq _ _) Hv). apply IH. }
    assert (Hw : forall r v s0, wp (on_eth (HAL_ETH_WritePHY r v)) (fun a _ => a = true) s0).
    { intros r v s0. apply wp_on_eth, wp_intro. intros a e Er. specialize (Hwrite r v (eth_env s0)).
      by rewrite Er in Hwrite. }
    unfold LAN8720_Init. wp_call (Hw PHY_BCR PHY_RESET s) as w s1 ->. cbn [negb].
    apply wp_bind, wp_on_eth_any. intros u e.
    match goal with |- wp _ _ ?x => wp_call (Hw PHY_BCR PHY_AUTONEGOTIATION x) as w2 s3 -> end. cbn [negb].
    apply wp_bind, wp_on_eth_any. intros u' e'. apply Hn.
Qed.

(** ** The receive loop *)

(** The frames the MAC has received and the frames handed to the stack, and how the
    HAL calls move a frame from the one to the other. *)
Class EthQueue (E : Type) `{!EthHal E} := {
  rxq : E -> list (list Z);
  seen : E -> list (list Z);
  err_of : list Z -> Z;
  keeps : list Z -> bool;
  law_get : forall e, let '(b, e') := HAL_ETH_GetRxDataBuffer e in
    b = head (rxq e) /\ rxq e' = tail (rxq e) /\ seen e' = seen e /\
    (forall f, b = Some f -> (HAL_ETH_GetRxDataLength e').1 = Z.of_nat (length f));
  law_length : forall e, let '(_, e') := HAL_ETH_GetRxDataLength e in rxq e' = rxq e /\ seen e' = seen e;
  law_build : forall e, let '(_, e') := HAL_ETH_BuildRxDescriptors e in rxq e' = rxq e /\ seen e' = seen e;
  law_input : forall f e, let '(r, e') := netif_input f e in
    r = (err_of f, keeps f) /\ rxq e' = rxq e /\ seen e' = seen e ++ [f]
}.

Section Receive.
Context {E : Type} `{!EthHal E} `{!EthQueue E}.
Implicit Types (s : eth_sys E) (f : list Z) (q : list (list Z)).

(** The frames of one call: up to the first one the stack refuses. *)
Fixpoint rx_batch q : list (list Z) :=
  match q with
  | [] => []
  | f :: q' => if err_of f =? ERR_OK then f :: rx_batch q' else [f]
  end.

(** How many pbufs the stack holds on to. *)
Definition held (q : list (list Z)) : Z :=
  Z.of_nat (length (filter (fun f => keeps f = true /\ err_of f = ERR_OK) q)).

Lemma input_get s : rx_free s > 0 ->
  Forall (fun f => Z.of_nat (length f) <= ETH_RX_BUFFER_SIZE) (rxq (eth_env s)) ->
  wp low_level_input (fun r s' => link_up s' = link_up s /\ netif_up s' = netif_up s /\
    seen (eth_env s') = seen (eth_env s) /\
    match rxq (eth_env s) with
    | [] => r = RxNone /\ rxq (eth_env s') = [] /\ rx_free s' = rx_free s
    | f :: q => r = RxFrame f /\ rxq (eth_env s') = q /\ rx_free s' = rx_free s - 1
    end) s.
Proof.
  intros Hfree Hlen. apply wp_bind, wp_on_eth, wp_intro. intros b e1 E1.
  pose proof (law_get (eth_env s)) as L1. rewrite E1 in L1. destruct L1 as (-> & H1 & H2 & H3).
  destruct (rxq (eth_env s)) as [|f q] eqn:Eq; cbn [head tail] in *.
  - apply wp_ret. cbn. by repeat split.
  - apply wp_bind, wp_on_eth, wp_intro. intros len e2 E2. cbn [eth_env] in E2.
    specialize (H3 f eq_refl). rewrite E2 in H3. cbn in H3. subst len.
    pose proof (law_length e1) as L2. rewrite E2 in L2. destruct L2 as [H4 H5].
    apply wp_bind, wp_gets. cbn [rx_free]. rewrite (proj2 (Z.leb_gt _ _)) by lia.
    apply wp_bind, wp_modify, wp_ret. cbn [link_up netif_up rx_free eth_env].
    apply Forall_cons in Hlen as [Hlen _]. unfold ETH_RX_BUFFER_SIZE in *.
    rewrite u16_small by lia. rewrite (proj2 (Z.ltb_ge _ _)) by lia.
    rewrite take_ge by lia. rewrite H5, H2, H4, H1. by repeat split.
Qed.

Lemma held_bounds q : 0 <= held q <= Z.of_nat (length q).
Proof. unfold held. pose proof (length_filter (fun f => keeps f = true /\ err_of f = ERR_OK) q). lia. Qed.

Lemma input_spec fuel s q : rxq (eth_env s) = q -> (length q < fuel)%nat ->
  Forall (fun f => Z.of_nat (length f) <= ETH_RX_BUFFER_SIZE) q -> held (rx_batch q) < rx_free s ->
  wp (ethernetif_input fuel) (fun r s' => r = Some true /\
    seen (eth_env s') = seen (eth_env s) ++ rx_batch q /\
    rxq (eth_env s') = drop (length (rx_batch q)) q /\
    rx_free s' = rx_free s - held (rx_batch q)) s.
Proof.
  revert s q. induction fuel as [|fuel IH]; intros s q Hq Hf Hlen Hheld; [lia|].
  pose proof (held_bounds (rx_batch q)). unfold ethernetif_input in *. cbn [forever].
  apply wp_bind. rewrite <- Hq in Hlen. wp_call (input_get s ltac:(lia) Hlen) as r s1 (_ & _ & H1 & H2).
  rewrite Hq in H2. rewrite Hq in Hlen. destruct q as [|f q].
  - destruct H2 as (-> & H2 & H3). apply wp_bind, wp_on_eth, wp_intro. intros u e2 E2. apply wp_ret.
    pose proof (law_build (eth_env s1)) as L. rewrite E2 in L. destruct L as [L1 L2].
    apply wp_ret. cbn [eth_env rx_free rx_batch]. split; [done|]. rewrite L1, L2, H1, H2, H3.
    change (held []) with 0. rewrite app_nil_r. split; [done|]. split; [done|lia].
  - destruct H2 as (-> & H2 & H3). apply wp_bind, wp_on_eth, wp_intro. intros u e2 E2.
    pose proof (law_build (eth_env s1)) as L. rewrite E2 in L. destruct L as [L1 L2].
    apply wp_bind, wp_on_eth, wp_intro. intros r e3 E3. cbn [eth_env] in E3.
    pose proof (law_input f e2) as L. rewrite E3 in L. destruct L as (-> & L3 & L4).
    cbn [fst snd link_up netif_up rx_free eth_env rx_batch] in *.
    apply Forall_cons in Hlen as [_ Hlen].
    destruct (Z.eqb_spec (err_of f) ERR_OK) as [Ee|Ee]; cbn [negb].
    + set (s4 := mkEth (link_up s1) (netif_up s1) (rx_free s1 + if keeps f then 0 else 1) e3).
      assert (Hh : held (f :: rx_batch q) = held (rx_batch q) + if keeps f then 1 else 0).
      { unfold held. rewrite filter_cons. destruct (keeps f); case_decide as Hd; cbn [length].
        - lia.
        - by destruct Hd.
        - by destruct Hd.
        - lia. }
      rewrite Hh in *.
      apply wp_bind. apply (wp_mono _ (fun _ s' => s' = s4)).
      { subst s4. destruct (keeps f).
        - apply wp_ret. by rewrite Z.add_0_r.
        - by apply wp_modify. }
      intros _ s' ->. apply wp_ret.
      assert (Hq4 : rxq (eth_env s4) = q) by (cbn; congruence).
      eapply wp_mono; [apply (IH s4 q Hq4 ltac:(cbn in Hf; lia) Hlen)|].
      * subst s4. cbn [rx_free]. destruct (keeps f); lia.
      * cbv beta. intros r2 s5 (K1 & K2 & K3 & K4). split; [done|].
        rewrite K2, K3, K4. subst s4. cbn [eth_env rx_free length drop]. rewrite L4, L2, H1, <- app_assoc.
        split; [done|]. split; [done|]. destruct (keeps f); lia.
    + assert (Hh : held [f] = 0).
      { unfold held. rewrite filter_cons. case_decide as Hd; [by destruct Hd|done]. }
      apply wp_bind, wp_modify, wp_ret, wp_ret. cbn [eth_env rx_free]. rewrite Hh.
      split; [done|]. rewrite L3, L4, L1, L2, H1, H2, H3. cbn. rewrite drop_0. split; [done|]. split; [done|lia].
Qed.
End Receive.

(** The receive loop hands every pending frame to the stack in order, up to the first
    one the stack refuses, and accounts for every element of the zero-copy pool. *)
Theorem rx_loop_delivers {E} `{!EthHal E} `{!EthQueue E} fuel (s : eth_sys E) :
  let q := rxq (eth_env s) in
  (length q < fuel)%nat -> Forall (fun f => Z.of_nat (length f) <= ETH_RX_BUFFER_SIZE) q ->
  held (rx_batch q) < rx_free s ->
  wp (ethernetif_input fuel) (fun r s' => r = Some true /\
    seen (eth_env s') = seen (eth_env s) ++ rx_batch q /\
    rxq (eth_env s') = drop (length (rx_batch q)) q /\
    rx_free s' = rx_free s - held (rx_batch q)) s.
Proof. cbv zeta. by apply input_spec. Qed.

(** ** A simulated MAC, for the witnesses *)
Definition sim_eth : EthHal (list (list Z) * list (list Z) * Z) := {|
  HAL_ETH_WritePHY r v := ret true; HAL_ETH_ReadPHY r := ret (Some 0x58);
  HAL_ETH_Init := ret tt; HAL_ETH_DescAssign i := ret tt;
  HAL_ETH_GetRxDataBuffer := fun e => (head e.1.1, (tail e.1.1, e.1.2, Z.of_nat (length (default [] (head e.1.1)))));
  HAL_ETH_GetRxDataLength := gets snd;
  HAL_ETH_BuildRxDescriptors := ret tt;
  HAL_ETH_Transmit p l := ret tt; HAL_ETH_SetMAC d v := ret tt;
  HAL_ETH_Start_IT := ret tt; HAL_ETH_Stop_IT := ret tt; eth_delay n := ret tt;
  netif_input f := fun e => ((if (length f =? 1)%nat then ERR_BUF else ERR_OK, (length f =? 2)%nat),
                             (e.1.1, e.1.2 ++ [f], e.2))
|}.

#[program] Definition sim_queue : EthQueue (EthHal0:=sim_eth) (list (list Z) * list (list Z) * Z) := {|
  rxq e := e.1.1; seen e := e.1.2;
  err_of f := if (length f =? 1)%nat then ERR_BUF else ERR_OK;
  keeps f := (length f =? 2)%nat
|}.
Next Obligation. intros e. cbn. split_and!; try done. by intros f ->. Qed.
Next Obligation. intros e. by cbn. Qed.
Next Obligation. intros e. by cbn. Qed.
Next Obligation. intros f e. by cbn. Qed.

Definition demo_eth : eth_sys (list (list Z) * list (list Z) * Z) :=
  mkEth true true 20 ([[1; 2; 3]; [4; 5]; [6]; [7; 8; 9]], [], 0).

Lemma rx_loop_delivers_witness :
  wp (ethernetif_input (EthHal0:=sim_eth) 5) (fun r s' => r = Some true /\
    seen (EthQueue:=sim_queue) (eth_env s') = [[1; 2; 3]; [4; 5]; [6]] /\
    rxq (EthQueue:=sim_queue) (eth_env s') = [[7; 8; 9]] /\ rx_free s' = 19) demo_eth.
Proof.
  apply (rx_loop_delivers (EthHal0:=sim_eth) (EthQueue0:=sim_queue) 5 demo_eth).
  - cbn. lia.
  - apply (bool_decide_unpack _). by vm_compute.
  - reflexivity.
Defined.
