(* ===== verification/LwipMem.v ===== *)
(** * The heap of lwIP (lwip-2.0.3/src/core/mem.c)

    [mem_malloc], [mem_free], [mem_trim] and [mem_calloc] over the 10 KB heap, a doubly
    linked list of blocks in address order.  Addresses are offsets from [ram]; a
    function is undefined ([None]) where the C code would read a [struct mem] that was
    never written or not terminate.  Specification: the heap as a list of blocks
    [(size, used)] that tile it.  Proved: first fit, exact freeing with merging of
    neighbours, and trimming, each with the live allocations before and after. *)
From stdpp Require Import gmap.
From S2P Require Import Prelude Net.

(** lwipopts.h, mem.c *)
Definition MEM_SIZE : Z := 10 * 1024.
Definition MIN_SIZE : Z := 12.
Definition SIZEOF_struct_mem : Z := 6.
Definition MIN_SIZE_ALIGNED : Z := LWIP_MEM_ALIGN_SIZE MIN_SIZE.
Definition SIZEOF_STRUCT_MEM : Z := LWIP_MEM_ALIGN_SIZE SIZEOF_struct_mem.
Definition MEM_SIZE_ALIGNED : Z := LWIP_MEM_ALIGN_SIZE MEM_SIZE.

(** [struct mem] *)
Record mem_t := mkMem { next : Z; prev : Z; used : bool }.
Definition set_next (n : Z) (m : mem_t) : mem_t := mkMem n (prev m) (used m).
Definition set_prev (p : Z) (m : mem_t) : mem_t := mkMem (next m) p (used m).
Definition set_used (u : bool) (m : mem_t) : mem_t := mkMem (next m) (prev m) u.

(** The headers in the heap by offset, [lfree], and the data bytes. *)
Record heap_t := mkHeap { ram : gmap Z mem_t; lfree : Z; hbytes : mem }.

(** Computations that may be undefined (notations of stdpp: [x ← m; k]). *)
Definition H (X : Type) : Type := heap_t -> option (X * heap_t).
#[export] Instance H_ret : MRet H := fun X x s => Some (x, s).
#[export] Instance H_bind : MBind H := fun X Y k m s =>
  match m s with Some (x, s') => k x s' | None => None end.

Definition getm (i : Z) : H mem_t := fun s => m ← ram s !! i; Some (m, s).
Definition setm (i : Z) (m : mem_t) : H unit := fun s =>
  Some (tt, mkHeap (<[i := m]> (ram s)) (lfree s) (hbytes s)).
Definition modm (i : Z) (f : mem_t -> mem_t) : H unit := m ← getm i; setm i (f m).
Definition get_lfree : H Z := fun s => Some (lfree s, s).
Definition set_lfree (i : Z) : H unit := fun s => Some (tt, mkHeap (ram s) i (hbytes s)).
Definition undefined {X} : H X := fun _ => None.

Definition mem_init : H unit :=
  setm 0 (mkMem MEM_SIZE_ALIGNED 0 false);;
  setm MEM_SIZE_ALIGNED (mkMem MEM_SIZE_ALIGNED MEM_SIZE_ALIGNED true);;
  set_lfree 0.

Definition plug_forward (i : Z) : H unit :=
  m ← getm i;
  n ← getm (next m);
  if negb (i =? next m) && negb (used n) && negb (next m =? MEM_SIZE_ALIGNED) then
    l ← get_lfree;
    (if l =? next m then set_lfree i else mret tt);;
    setm i (set_next (next n) m);;
    modm (next n) (set_prev i)
  else mret tt.

Definition plug_backward (i : Z) : H unit :=
  m ← getm i;
  p ← getm (prev m);
  if negb (prev m =? i) && negb (used p) then
    l ← get_lfree;
    (if l =? i then set_lfree (prev m) else mret tt);;
    setm (prev m) (set_next (next m) p);;
    modm (next m) (set_prev (prev m))
  else mret tt.

Definition plug_holes (i : Z) : H unit := plug_forward i;; plug_backward i.

(** [None] is NULL; an address outside the heap is ignored. *)
Definition mem_free (rmem : option Z) : H unit :=
  match rmem with
  | None => mret tt
  | Some a =>
      if (a <? 0) || (MEM_SIZE_ALIGNED <=? a) then mret tt else
      let i := a - SIZEOF_STRUCT_MEM in
      modm i (set_used false);;
      l ← get_lfree;
      (if i <? l then set_lfree i else mret tt);;
      plug_holes i
  end.

(** The block [m] at [ptr] of [size] bytes is cut to [newsize]. *)
Definition trim_cut (ptr newsize size : Z) (m : mem_t) : H unit :=
  m2 ← getm (next m);
  let ptr2 := u16 (ptr + SIZEOF_STRUCT_MEM + newsize) in
  if negb (used m2) then
    l ← get_lfree;
    (if l =? next m then set_lfree ptr2 else mret tt);;
    setm ptr2 (mkMem (next m2) ptr false);;
    modm ptr (set_next ptr2);;
    if negb (next m2 =? MEM_SIZE_ALIGNED) then modm (next m2) (set_prev ptr2) else mret tt
  else if newsize + SIZEOF_STRUCT_MEM + MIN_SIZE_ALIGNED <=? size then
    l ← get_lfree;
    (if ptr2 <? l then set_lfree ptr2 else mret tt);;
    setm ptr2 (mkMem (next m) ptr false);;
    modm ptr (set_next ptr2);;
    if negb (next m =? MEM_SIZE_ALIGNED) then modm (next m) (set_prev ptr2) else mret tt
  else mret tt.

Definition mem_trim (a newsize : Z) : H (option Z) :=
  let newsize := u16 (LWIP_MEM_ALIGN_SIZE newsize) in
  let newsize := if newsize <? MIN_SIZE_ALIGNED then MIN_SIZE_ALIGNED else newsize in
  if MEM_SIZE_ALIGNED <? newsize then mret None else
  if (a <? 0) || (MEM_SIZE_ALIGNED <=? a) then mret (Some a) else
  let ptr := a - SIZEOF_STRUCT_MEM in
  m ← getm ptr;
  let size := u16 (next m - ptr - SIZEOF_STRUCT_MEM) in
  if size <? newsize then mret None else
  if newsize =? size then mret (Some a) else
  trim_cut ptr newsize size m;; mret (Some a).

(** The scan for the first free block that is big enough. *)
Fixpoint search (fuel : nat) (size ptr : Z) : H (option Z) :=
  if ptr <? MEM_SIZE_ALIGNED - size then
    m ← getm ptr;
    if negb (used m) && (size <=? next m -% (ptr + SIZEOF_STRUCT_MEM))%C then mret (Some ptr)
    else match fuel with O => undefined | S fuel => search fuel size (next m) end
  else mret None.

(** Take the block at [ptr], splitting it when the rest can hold a block. *)
Definition take_block (size ptr : Z) : H unit :=
  m ← getm ptr;
  if size + SIZEOF_STRUCT_MEM + MIN_SIZE_ALIGNED <=? (next m -% (ptr + SIZEOF_STRUCT_MEM))%C then
    let ptr2 := u16 (ptr + SIZEOF_STRUCT_MEM + size) in
    setm ptr2 (mkMem (next m) ptr false);;
    setm ptr (mkMem ptr2 (prev m) true);;
    if negb (next m =? MEM_SIZE_ALIGNED) then modm (next m) (set_prev ptr2) else mret tt
  else setm ptr (set_used true m).

Fixpoint next_free (fuel : nat) (cur : Z) : H Z :=
  m ← getm cur;
  if used m && negb (cur =? MEM_SIZE_ALIGNED)
  then match fuel with O => undefined | S fuel => next_free fuel (next m) end
  else mret cur.

(** Blocks are at least 20 bytes, so this many are enough for every scan. *)
Definition heap_fuel : nat := Z.to_nat MEM_SIZE_ALIGNED.

Definition mem_malloc (size : Z) : H (option Z) :=
  if size =? 0 then mret None else
  let size := u16 (LWIP_MEM_ALIGN_SIZE size) in
  let size := if size <? MIN_SIZE_ALIGNED then MIN_SIZE_ALIGNED else size in
  if MEM_SIZE_ALIGNED <? size then mret None else
  l ← get_lfree;
  r ← search heap_fuel size l;
  match r with
  | None => mret None
  | Some ptr =>
      take_block size ptr;;
      (if ptr =? l then cur ← next_free heap_fuel l; set_lfree cur else mret tt);;
      mret (Some (ptr + SIZEOF_STRUCT_MEM))
  end.

Definition memset0 (a n : Z) : H unit := fun s =>
  Some (tt, mkHeap (ram s) (lfree s) (mem_write (hbytes s) a (replicate (Z.to_nat n) 0))).

Definition mem_calloc (count size : Z) : H (option Z) :=
  p ← mem_malloc (u16 (count * size));
  match p with
  | Some a => memset0 a (count * size);; mret (Some a)
  | None => mret None
  end.

(** ** The heap as a list of blocks *)
Section Blocks.
Implicit Types (h : gmap Z mem_t) (s : heap_t) (l : list (Z * bool)) (off pv n : Z).

Fixpoint total l : Z := match l with [] => 0 | (n, _) :: l' => n + total l' end.

(** The headers from [off] on describe the blocks [l]; the block before is at [pv]. *)
Fixpoint seg h off pv l : Prop :=
  match l with
  | [] => True
  | (n, u) :: l' => h !! off = Some (mkMem (off + n) pv u) /\ seg h (off + n) off l'
  end.

(** The offset of the last block of [l]. *)
Fixpoint last_off off pv l : Z :=
  match l with [] => pv | (n, _) :: l' => last_off (off + n) off l' end.

Definition block_ok (b : Z * bool) : Prop :=
  SIZEOF_STRUCT_MEM + MIN_SIZE_ALIGNED <= b.1 /\ b.1 mod MEM_ALIGNMENT = 0.

(** The blocks tile the heap, up to the end mark. *)
Definition tiles s l : Prop :=
  seg (ram s) 0 0 l /\ (exists pv, ram s !! MEM_SIZE_ALIGNED = Some (mkMem MEM_SIZE_ALIGNED pv true)) /\
  total l = MEM_SIZE_ALIGNED /\ Forall block_ok l.

(** No two free blocks are neighbours. *)
Fixpoint merged l : Prop :=
  match l with
  | (_, u) :: (((_, v) :: _) as l') => u || v = true /\ merged l'
  | _ => True
  end.

Fixpoint first_free off l : Z :=
  match l with [] => off | (n, u) :: l' => if u : bool then first_free (off + n) l' else off end.

Definition heap_ok s l : Prop := tiles s l /\ merged l /\ lfree s = first_free 0 l.

(** The live allocations: address and usable size. *)
Fixpoint live off l : list (Z * Z) :=
  match l with
  | [] => []
  | (n, u) :: l' =>
      if u : bool then (off + SIZEOF_STRUCT_MEM, n - SIZEOF_STRUCT_MEM) :: live (off + n) l' else live (off + n) l'
  end.

Lemma total_app l1 l2 : total (l1 ++ l2) = total l1 + total l2.
Proof. induction l1 as [|[n u] l1 IH]; cbn; [done|]. rewrite IH. lia. Qed.

Lemma block_ok_pos l : Forall block_ok l -> 0 <= total l /\ (l <> [] -> 20 <= total l) /\
  20 * Z.of_nat (length l) <= total l.
Proof.
  induction l as [|[n u] l IH]; [done|]. intros [[H1 _] H2]%Forall_cons. destruct (IH H2) as (K1 & K2 & K3).
  change (20 <= n) in H1. cbn [total length]. split; [lia|]. split; lia.
Qed.

Lemma seg_app h off pv l1 l2 :
  seg h off pv (l1 ++ l2) <-> seg h off pv l1 /\ seg h (off + total l1) (last_off off pv l1) l2.
Proof.
  revert off pv; induction l1 as [|[n u] l1 IH]; intros off pv; cbn [app seg total last_off].
  - rewrite Z.add_0_r. tauto.
  - rewrite IH, Z.add_assoc. tauto.
Qed.

Lemma last_off_app off pv l1 l2 :
  last_off off pv (l1 ++ l2) = last_off (off + total l1) (last_off off pv l1) l2.
Proof.
  revert off pv; induction l1 as [|[n u] l1 IH]; intros off pv; cbn [app total last_off].
  - by rewrite Z.add_0_r.
  - by rewrite IH, Z.add_assoc.
Qed.

Lemma live_app off l1 l2 : live off (l1 ++ l2) = live off l1 ++ live (off + total l1) l2.
Proof.
  revert off; induction l1 as [|[n u] l1 IH]; intros off; cbn [app total live]; [by rewrite Z.add_0_r|].
  rewrite IH, Z.add_assoc. by destruct u.
Qed.

Lemma seg_frame h h' off pv l : Forall block_ok l -> (forall i, off <= i < off + total l -> h' !! i = h !! i) ->
  seg h off pv l -> seg h' off pv l.
Proof.
  revert off pv; induction l as [|[n u] l IH]; intros off pv Hl Hh; [done|]. intros [H1 H2].
  apply Forall_cons in Hl as [[Hn _] Hl]. change (20 <= n) in Hn. pose proof (block_ok_pos l Hl). cbn [total] in Hh.
  split; [rewrite Hh by lia; done|]. apply IH; [done| |done]. intros i Hi. apply Hh. lia.
Qed.

(** The same when the block before has moved. *)
Lemma seg_reprev h h' off pv pv' l : Forall block_ok l -> l <> [] ->
  (forall i, off < i < off + total l -> h' !! i = h !! i) -> h' !! off = set_prev pv' <$> (h !! off) ->
  seg h off pv l -> seg h' off pv' l.
Proof.
  destruct l as [|[n u] l]; [done|]. intros Hl _ Hh Ho [H1 H2]. rewrite H1 in Ho. split; [exact Ho|].
  apply Forall_cons in Hl as [[Hn _] Hl]. change (20 <= n) in Hn. cbn [total] in Hh.
  eapply seg_frame; [done| |done]. intros i Hi. apply Hh. lia.
Qed.

(** Replacing the blocks [mid] in the middle; only their headers and the back link of
    the block behind may change. *)
Lemma tiles_splice s s' l1 mid mid' l2 : tiles s (l1 ++ mid ++ l2) -> mid <> [] ->
  let o := total l1 in let e := o + total mid in
  (forall i, i < o \/ e < i -> ram s' !! i = ram s !! i) ->
  seg (ram s') o (last_off 0 0 l1) mid' -> total mid' = total mid -> Forall block_ok mid' ->
  (ram s' !! e = set_prev (last_off o (last_off 0 0 l1) mid') <$> (ram s !! e) \/
   (e = MEM_SIZE_ALIGNED /\ ram s' !! e = ram s !! e)) ->
  tiles s' (l1 ++ mid' ++ l2).
Proof.
  intros (Hs & (pe & He) & Ht & Hok) Hne o e Hout Hmid Htot Hok' Hback.
  rewrite !Forall_app in Hok. destruct Hok as (Hok1 & Hokm & Hok2).
  rewrite !total_app in Ht. rewrite !seg_app in Hs. destruct Hs as (Hs1 & Hsm & Hs2).
  destruct (block_ok_pos l1 Hok1) as (P1 & _). destruct (block_ok_pos mid Hokm) as (_ & Pm & _). specialize (Pm Hne).
  destruct (block_ok_pos l2 Hok2) as (P2 & P2' & _).
  split; [|split; [|split; [rewrite !total_app; lia|by rewrite !Forall_app]]].
  - rewrite !seg_app. split; [|split; [done|]].
    + eapply seg_frame; [done| |exact Hs1]. intros i Hi. apply Hout. lia.
    + rewrite Htot. replace (0 + total l1 + total mid) with e in * by (unfold e, o; lia).
      destruct l2 as [|b l2]; [done|]. specialize (P2' ltac:(done)).
      eapply (seg_reprev (ram s)); [done|done| | |exact Hs2].
      * intros i Hi. apply Hout. lia.
      * destruct Hback as [Hback|[Hback _]]; [exact Hback|]. unfold e, o in Hback. lia.
  - destruct (decide (e = MEM_SIZE_ALIGNED)) as [Ee|Ee].
    + destruct Hback as [Hback|[_ Hback]]; rewrite Ee, He in Hback; eexists; exact Hback.
    + exists pe. rewrite Hout; [done|]. right. unfold e, o in *. lia.
Qed.

Lemma merged_mid l1 b l2 : merged (l1 ++ b :: l2) <-> merged (l1 ++ [b]) /\ merged (b :: l2).
Proof.
  induction l1 as [|[n u] l1 IH]; [cbn [app merged]; destruct b; tauto|].
  destruct l1 as [|[n' u'] l1]; [destruct b as [m v]; cbn; tauto|]. cbn [app merged] in *. tauto.
Qed.

(** Only the marks matter, and a used block may stand anywhere. *)
Lemma merged_resize l1 n n' u l2 : merged (l1 ++ (n, u) :: l2) -> merged (l1 ++ (n', u) :: l2).
Proof.
  induction l1 as [|[m v] l1 IH]; [by destruct l2|]. destruct l1 as [|[m' v'] l1]; [cbn; tauto|].
  cbn [app merged] in *. tauto.
Qed.
Lemma merged_use l1 n n' u l2 : merged (l1 ++ (n, u) :: l2) -> merged (l1 ++ (n', true) :: l2).
Proof.
  induction l1 as [|[m v] l1 IH].
  - destruct l2 as [|[k w] l2]; [done|]. cbn. tauto.
  - destruct l1 as [|[m' v'] l1]; cbn [app merged] in *; [|tauto]. intros [_ H]. split; [by destruct v|]. by apply IH.
Qed.
Lemma merged_snoc_used l n : merged (l ++ [(n, true)]) <-> merged l.
Proof.
  induction l as [|[m v] l IH]; [done|]. destruct l as [|[m' v'] l]; [cbn; destruct v; tauto|]. cbn [app merged] in *. tauto.
Qed.

Definition all_used l : Prop := Forall (fun b => b.2 = true) l.

Lemma first_free_used off l1 l2 : all_used l1 -> first_free off (l1 ++ l2) = first_free (off + total l1) l2.
Proof.
  revert off; induction l1 as [|[n u] l1 IH]; intros off; cbn [app total first_free]; [by rewrite Z.add_0_r|].
  intros [H1 H2]%Forall_cons. cbn in H1. subst u. by rewrite IH, Z.add_assoc.
Qed.

Lemma first_free_split l : exists l1 l2, l = l1 ++ l2 /\ all_used l1 /\
  (forall off, first_free off l = off + total l1) /\ (l2 = [] \/ exists n l3, l2 = (n, false) :: l3).
Proof.
  induction l as [|[n u] l (l1 & l2 & -> & H1 & H2 & H3)].
  - exists [], []. split; [done|]. split; [apply Forall_nil_2|]. split; [intros; cbn; lia|by left].
  - destruct u.
    + exists ((n, true) :: l1), l2. split; [done|]. split; [by apply Forall_cons_2|].
      split; [intros; cbn; rewrite H2; lia|done].
    + exists [], ((n, false) :: l1 ++ l2). split; [done|]. split; [apply Forall_nil_2|].
      split; [intros; cbn; lia|right; by eexists _, _].
Qed.

(** A free block at an offset below decides [first_free]. *)
Lemma first_free_before off l1 l2 l2' : ~ all_used l1 -> first_free off (l1 ++ l2) = first_free off (l1 ++ l2').
Proof.
  revert off; induction l1 as [|[n u] l1 IH]; intros off H; [destruct H; apply Forall_nil_2|].
  destruct u; cbn; [|done]. apply IH. intros Hu. apply H. by apply Forall_cons_2.
Qed.

Lemma first_free_bounds off l : Forall block_ok l ->
  off <= first_free off l <= off + total l /\ (~ all_used l -> first_free off l < off + total l).
Proof.
  revert off; induction l as [|[n u] l IH]; intros off Hl; cbn [first_free total].
  - split; [lia|]. intros H. destruct H. apply Forall_nil_2.
  - apply Forall_cons in Hl as [[Hn _] Hl]. change (20 <= n) in Hn. pose proof (block_ok_pos l Hl). destruct u; [|lia].
    destruct (IH (off + n) Hl) as [K1 K2]. split; [lia|]. intros H. rewrite Z.add_assoc. apply K2. intros Hu. apply H.
    by apply Forall_cons_2.
Qed.

(** ** Allocation *)
Definition fits (size : Z) (b : Z * bool) : Prop := b.2 = false /\ size <= b.1 - SIZEOF_STRUCT_MEM.
#[local] Instance fits_dec size b : Decision (fits size b) := _.

Lemma search_spec fuel s pv off l size : seg (ram s) off pv l -> Forall block_ok l -> 0 <= off ->
  off + total l = MEM_SIZE_ALIGNED -> (length l <= fuel)%nat -> 0 < size ->
  exists l1 l2, l = l1 ++ l2 /\ Forall (fun b => ~ fits size b) l1 /\
    match l2 with
    | [] => search fuel size off s = Some (None, s)
    | b :: _ => fits size b /\ search fuel size off s = Some (Some (off + total l1), s)
    end.
Proof.
  revert fuel pv off; induction l as [|[n u] l IH]; intros fuel pv off Hs Hl Ho Ht Hf Hsz.
  - exists [], []. split; [done|]. split; [apply Forall_nil_2|]. cbn in Ht.
    destruct fuel; cbn [search]; by rewrite (proj2 (Z.ltb_ge _ _)) by lia.
  - destruct Hs as [H1 H2]. pose proof (block_ok_pos _ Hl) as (_ & P & _). specialize (P ltac:(done)).
    apply Forall_cons in Hl as [[Hn _] Hl]. change (20 <= n) in Hn. cbn [total] in *.
    pose proof (block_ok_pos l Hl) as (P' & _). change MEM_SIZE_ALIGNED with 10240 in *.
    destruct (Z.ltb_spec off (MEM_SIZE_ALIGNED - size)) as [Hlt|Hge]; change MEM_SIZE_ALIGNED with 10240 in *.
    2: { exists ((n, u) :: l), []. rewrite app_nil_r. split; [done|]. split.
         - apply Forall_forall. intros [m v] Hin [_ Hfit]. cbn in Hfit. change SIZEOF_STRUCT_MEM with 8 in Hfit.
           assert (m <= n + total l); [|lia]. apply elem_of_cons in Hin as [[= -> ->]|Hin]; [lia|].
           apply list_elem_of_split in Hin as (la & lb & ->). rewrite total_app in *. cbn [total] in *.
           apply Forall_app in Hl as [Hla Hlb]. apply Forall_cons in Hlb as [_ Hlb].
           pose proof (block_ok_pos la Hla). pose proof (block_ok_pos lb Hlb). lia.
         - destruct fuel; cbn [search]; change MEM_SIZE_ALIGNED with 10240; by rewrite (proj2 (Z.ltb_ge _ _)) by lia. }
    assert (E : search fuel size off s = if negb u && (size <=? n - 8) then Some (Some off, s)
      else match fuel with O => None | S fuel => search fuel size (off + n) s end).
    { destruct fuel; cbn [search]; change MEM_SIZE_ALIGNED with 10240; rewrite (proj2 (Z.ltb_lt _ _)) by done;
        unfold mbind, H_bind, getm; rewrite H1; cbn [mbind option_bind next used];
        change SIZEOF_STRUCT_MEM with 8; rewrite (u32_small (off + n - (off + 8))) by lia;
        replace (off + n - (off + 8)) with (n - 8) by lia; by destruct (negb u && _). }
    destruct (decide (fits size (n, u))) as [[Hu Hfit]|Hnf].
    + cbn in Hu. subst u. change SIZEOF_STRUCT_MEM with 8 in Hfit. cbn [fst] in Hfit.
      exists [], ((n, false) :: l). split; [done|]. split; [apply Forall_nil_2|]. split; [done|].
      rewrite E, (proj2 (Z.leb_le _ _)) by done. cbn. by rewrite Z.add_0_r.
    + cbn in Hf. destruct fuel as [|fuel]; [lia|].
      destruct (IH fuel off (off + n) H2 Hl) as (l1 & l2 & -> & K1 & K2); [lia|lia|lia|done|].
      assert (E2 : search (S fuel) size off s = search fuel size (off + n) s).
      { rewrite E. destruct u; [done|]. cbn [negb andb]. destruct (Z.leb_spec size (n - 8)); [|done].
        destruct Hnf. split; [done|]. change SIZEOF_STRUCT_MEM with 8. done. }
      exists ((n, u) :: l1), l2. split; [done|]. split; [by apply Forall_cons_2|]. rewrite E2. cbn [total].
      by rewrite Z.add_assoc.
Qed.

Lemma next_free_spec fuel s pv off l : seg (ram s) off pv l -> Forall block_ok l ->
  off + total l = MEM_SIZE_ALIGNED -> (length l <= fuel)%nat ->
  (exists pe, ram s !! MEM_SIZE_ALIGNED = Some (mkMem MEM_SIZE_ALIGNED pe true)) ->
  next_free fuel off s = Some (first_free off l, s).
Proof.
  intros Hs Hl Ht Hf [pe He]. revert fuel pv off Hs Ht Hf; induction l as [|[n u] l IH]; intros fuel pv off Hs Ht Hf.
  - cbn [total] in Ht. rewrite Z.add_0_r in Ht. subst off.
    destruct fuel; cbn [next_free]; unfold mbind, H_bind, getm; by rewrite He.
  - destruct Hs as [H1 H2]. pose proof (block_ok_pos _ Hl) as (_ & P & _). specialize (P ltac:(done)).
    apply Forall_cons in Hl as [_ Hl]. cbn [total] in *. cbn in Hf. destruct fuel as [|fuel]; [lia|].
    cbn [next_free]; unfold mbind, H_bind, getm. rewrite H1. cbn [mbind option_bind next used first_free].
    destruct u; [|done]. rewrite (proj2 (Z.eqb_neq _ _)) by lia. cbn [negb andb].
    apply (IH Hl fuel off); [done|lia|lia].
Qed.

(** The blocks that replace a free block of [n] bytes. *)
Definition taken (size n : Z) (mid : list (Z * bool)) : Prop :=
  (mid = [(n, true)] /\ n < size + 2 * SIZEOF_STRUCT_MEM + MIN_SIZE_ALIGNED) \/
  mid = [(size + SIZEOF_STRUCT_MEM, true); (n - (size + SIZEOF_STRUCT_MEM), false)].

Lemma mid_header s l1 n u l2 : tiles s (l1 ++ (n, u) :: l2) ->
  ram s !! total l1 = Some (mkMem (total l1 + n) (last_off 0 0 l1) u) /\
  Forall block_ok l1 /\ block_ok (n, u) /\ Forall block_ok l2 /\
  0 <= total l1 /\ 0 <= total l2 /\ total l1 + n + total l2 = MEM_SIZE_ALIGNED /\
  (exists m, ram s !! (total l1 + n) = Some m /\
    match l2 with [] => used m = true | (k, v) :: _ => m = mkMem (total l1 + n + k) (total l1) v end).
Proof.
  intros (Hs & (pe & He) & Ht & Hok). rewrite seg_app in Hs. destruct Hs as (_ & H1 & H2).
  rewrite Forall_app, Forall_cons in Hok. destruct Hok as (K1 & K2 & K3).
  destruct (block_ok_pos l1 K1) as (P1 & _). destruct (block_ok_pos l2 K3) as (P2 & _).
  rewrite total_app in Ht. cbn [total] in Ht. rewrite Z.add_0_l in *. split_and!; try done; try lia.
  destruct l2 as [|[k v] l2].
  - cbn [total] in Ht. rewrite Z.add_0_r in Ht. rewrite Ht. by eexists.
  - destruct H2 as (H2 & H3). by eexists.
Qed.

Lemma take_block_spec s l1 n l2 size : tiles s (l1 ++ (n, false) :: l2) -> fits size (n, false) ->
  MIN_SIZE_ALIGNED <= size -> size mod MEM_ALIGNMENT = 0 ->
  exists s' mid, take_block size (total l1) s = Some (tt, s') /\ taken size n mid /\
    tiles s' (l1 ++ mid ++ l2) /\ lfree s' = lfree s /\ hbytes s' = hbytes s.
Proof.
  intros H [_ Hfit] Hmin Hal. destruct (mid_header s l1 n false l2 H) as (H1 & K1 & [K2 K2'] & K3 & P1 & P2 & Ht & m & Hm & Hk).
  cbn [fst] in *. change SIZEOF_STRUCT_MEM with 8 in *. change MIN_SIZE_ALIGNED with 12 in *. change MEM_SIZE_ALIGNED with 10240 in *.
  unfold take_block, modm, mbind, H_bind, getm, setm. rewrite H1. cbn [mbind option_bind next prev].
  change SIZEOF_STRUCT_MEM with 8. change MIN_SIZE_ALIGNED with 12. change MEM_SIZE_ALIGNED with 10240.
  rewrite (u32_small (total l1 + n - (total l1 + 8))) by lia.
  destruct (Z.leb_spec (size + 8 + 12) (total l1 + n - (total l1 + 8))) as [Hsplit|Hno].
  - rewrite (u16_small (total l1 + 8 + size)) by lia. set (h1 := <[total l1 := mkMem (total l1 + 8 + size) (last_off 0 0 l1) true]>
      (<[total l1 + 8 + size := mkMem (total l1 + n) (total l1) false]> (ram s))).
    assert (Hmid : forall h', (forall i, i <= total l1 + 8 + size -> h' !! i = h1 !! i) ->
      seg h' (total l1) (last_off 0 0 l1) [(size + 8, true); (n - (size + 8), false)]).
    { intros h' Hh'. cbn [seg]. replace (total l1 + (size + 8)) with (total l1 + 8 + size) by lia.
      rewrite !Hh' by lia. unfold h1. rewrite lookup_insert_eq, lookup_insert_ne, lookup_insert_eq by lia.
      split; [done|]. split; [|done]. do 2 f_equal. lia. }
    assert (Hok' : Forall block_ok [(size + 8, true); (n - (size + 8), false)]).
    { repeat apply Forall_cons_2; [split|split|apply Forall_nil_2]; cbn [fst]; change SIZEOF_STRUCT_MEM with 8;
        change MIN_SIZE_ALIGNED with 12; change MEM_ALIGNMENT with 4 in *; try lia;
        Z.to_euclidean_division_equations; lia. }
    destruct (Z.eqb_spec (total l1 + n) 10240) as [Ee|Ee]; cbn [negb].
    + eexists (mkHeap h1 (lfree s) (hbytes s)), _. split; [done|]. split; [by right|]. split; [|done].
      apply (tiles_splice s _ l1 [(n, false)]); [done|done| |by apply Hmid|cbn; lia|done|].
      * intros i Hi. cbn [total ram] in *. unfold h1. rewrite !lookup_insert_ne by lia. done.
      * right. cbn [total ram] in *. rewrite Z.add_0_r. change MEM_SIZE_ALIGNED with 10240. split; [done|].
        unfold h1. by rewrite !lookup_insert_ne by lia.
    + cbn [ram]. assert (Hm1 : h1 !! (total l1 + n) = Some m) by (unfold h1; rewrite !lookup_insert_ne by lia; done).
      fold h1. rewrite Hm1. cbn [mbind option_bind lfree hbytes]. eexists (mkHeap _ (lfree s) (hbytes s)), _. split; [done|].
      split; [by right|]. split; [|done].
      apply (tiles_splice s _ l1 [(n, false)]); [done|done| | |cbn; lia|done|].
      * intros i Hi. cbn [total ram] in *. unfold h1. rewrite !lookup_insert_ne by lia. done.
      * apply Hmid. intros i Hi. cbn [ram]. rewrite lookup_insert_ne by lia. done.
      * left. cbn [total ram last_off] in *. rewrite Z.add_0_r, lookup_insert_eq, Hm. cbn.
        change SIZEOF_STRUCT_MEM with 8. do 2 f_equal. lia.
  - eexists (mkHeap _ (lfree s) (hbytes s)), _. split; [done|]. split; [left; split; [done|]|].
    { change SIZEOF_STRUCT_MEM with 8. change MIN_SIZE_ALIGNED with 12. lia. }
    split; [|done]. apply (tiles_splice s _ l1 [(n, false)]); [done|done| | |done| |].
    + intros i Hi. cbn [total ram] in *. by rewrite lookup_insert_ne by lia.
    + cbn [seg ram]. by rewrite lookup_insert_eq.
    + apply Forall_cons_2; [split; [exact K2|done]|apply Forall_nil_2].
    + cbn [total ram last_off] in *. rewrite Z.add_0_r, lookup_insert_ne by lia. rewrite Hm.
      destruct l2 as [|[k v] l2].
      * right. split; [|done]. cbn [total] in Ht. change MEM_SIZE_ALIGNED with 10240. lia.
      * left. by rewrite Hk.
Qed.

Lemma taken_free size n mid l1 l2 : taken size n mid -> merged (l1 ++ (n, false) :: l2) -> merged (l1 ++ mid ++ l2).
Proof.
  intros [[-> _]| ->] H; cbn [app]; [by apply (merged_use l1 n n false)|].
  apply merged_mid in H as [H1 H2]. apply merged_mid. split.
  - apply merged_snoc_used. destruct l1 as [|b l1] using rev_ind; [done|]. clear IHl1. rewrite <- app_assoc in H1.
    cbn [app] in H1. apply merged_mid in H1 as [H1 _]. exact H1.
  - destruct l2 as [|[k v] l2]; [done|]. cbn in *. tauto.
Qed.

Lemma align_ok n : 0 <= n -> n <= LWIP_MEM_ALIGN_SIZE n < n + MEM_ALIGNMENT /\ LWIP_MEM_ALIGN_SIZE n mod MEM_ALIGNMENT = 0.
Proof. unfold LWIP_MEM_ALIGN_SIZE, MEM_ALIGNMENT. intros. Z.to_euclidean_division_equations. lia. Qed.

(** The size that is looked for: aligned and at least [MIN_SIZE_ALIGNED]. *)
Definition block_size (size : Z) : Z := Z.max (LWIP_MEM_ALIGN_SIZE size) MIN_SIZE_ALIGNED.

Lemma block_size_ok size : 0 <= size <= 65532 ->
  size <= block_size size /\ MIN_SIZE_ALIGNED <= block_size size /\ block_size size mod MEM_ALIGNMENT = 0 /\
  (let n := u16 (LWIP_MEM_ALIGN_SIZE size) in if n <? MIN_SIZE_ALIGNED then MIN_SIZE_ALIGNED else n) = block_size size.
Proof.
  intros H. assert (LWIP_MEM_ALIGN_SIZE size <= 65532).
  { unfold LWIP_MEM_ALIGN_SIZE, MEM_ALIGNMENT. Z.to_euclidean_division_equations. lia. }
  destruct (align_ok size ltac:(lia)) as [H1 H2]. cbv zeta. rewrite u16_small by lia. unfold block_size.
  destruct (Z.ltb_spec (LWIP_MEM_ALIGN_SIZE size) MIN_SIZE_ALIGNED).
  - rewrite Z.max_r by lia. split; [lia|]. split; [lia|]. by split.
  - rewrite Z.max_l by lia. split; [lia|]. split; [lia|]. by split.
Qed.

Lemma heap_fuel_enough l : Forall block_ok l -> total l <= MEM_SIZE_ALIGNED -> (length l <= heap_fuel)%nat.
Proof. intros H1 H2. pose proof (block_ok_pos l H1). unfold heap_fuel. lia. Qed.

Lemma malloc_spec s l size : heap_ok s l -> 0 < size <= 65532 ->
  (mem_malloc size s = Some (None, s) /\ Forall (fun b => ~ fits (block_size size) b) l) \/
  exists s' l1 n l2 mid, l = l1 ++ (n, false) :: l2 /\ Forall (fun b => ~ fits (block_size size) b) l1 /\
    fits (block_size size) (n, false) /\ taken (block_size size) n mid /\
    mem_malloc size s = Some (Some (total l1 + SIZEOF_STRUCT_MEM), s') /\ heap_ok s' (l1 ++ mid ++ l2) /\
    hbytes s' = hbytes s.
Proof.
  intros (Ht & Hm & Hlf) Hsz. destruct (block_size_ok size ltac:(lia)) as (B1 & B2 & B3 & B4). cbv zeta in B4.
  unfold mem_malloc. rewrite (proj2 (Z.eqb_neq size 0)) by lia. cbv zeta. rewrite B4.
  pose proof Ht as (Hs & He & Hsum & Hok). set (n := block_size size) in *.
  destruct (Z.ltb_spec MEM_SIZE_ALIGNED n) as [Hbig|Hle].
  { left. split; [done|]. apply Forall_forall. intros [k v] Hin [_ Hfit]. cbn in Hfit.
    apply list_elem_of_split in Hin as (la & lb & ->). rewrite Forall_app, Forall_cons in Hok. destruct Hok as (K1 & K2 & K3).
    pose proof (block_ok_pos la K1). pose proof (block_ok_pos lb K3). rewrite total_app in Hsum. cbn [total] in Hsum.
    change SIZEOF_STRUCT_MEM with 8 in Hfit. lia. }
  destruct (first_free_split l) as (lu & lf & El & Hu & Hff & Hlf2).
  assert (Hoku : Forall block_ok lu /\ Forall block_ok lf) by (by rewrite <- Forall_app, <- El).
  assert (Hsu : seg (ram s) (total lu) (last_off 0 0 lu) lf /\ total lu + total lf = MEM_SIZE_ALIGNED).
  { rewrite El, seg_app in Hs. rewrite El, total_app in Hsum. by destruct Hs as [_ Hs]. }
  unfold mbind, H_bind, get_lfree, set_lfree. rewrite Hlf, Hff, Z.add_0_l.
  destruct (search_spec heap_fuel s _ (total lu) lf n (proj1 Hsu) (proj2 Hoku)) as (l1 & l2 & E12 & Hnf & Hcase);
    [exact (proj1 (block_ok_pos lu (proj1 Hoku)))|exact (proj2 Hsu)| |change MIN_SIZE_ALIGNED with 12 in B2; lia|].
  { apply heap_fuel_enough; [exact (proj2 Hoku)|]. pose proof (block_ok_pos lu (proj1 Hoku)). lia. }
  assert (Hnu : Forall (fun b => ~ fits n b) (lu ++ l1)).
  { apply Forall_app. split; [|done]. eapply Forall_impl; [exact Hu|]. cbn. intros b Hb [Hf _]. congruence. }
  destruct l2 as [|[m v] l2].
  { left. rewrite app_nil_r in E12. subst l1. rewrite Hcase. split; [done|]. by rewrite El. }
  destruct Hcase as [[Hv Hfit] ->]. cbn in Hv. subst v. right. rewrite E12 in El.
  assert (El' : l = (lu ++ l1) ++ (m, false) :: l2) by (by rewrite <- app_assoc).
  rewrite El' in Ht, Hm. destruct (take_block_spec s (lu ++ l1) m l2 n Ht) as (s1 & mid & Etake & Hmid & Ht' & Hlf' & Hb');
    [done..|]. rewrite total_app in Etake. rewrite Etake.
  destruct (Z.eqb_spec (total lu + total l1) (total lu)) as [Ez|Ez].
  - assert (l1 = []) as ->.
    { destruct l1 as [|b l1]; [done|]. assert (Hokl : Forall block_ok (b :: l1)).
      { destruct Hoku as [_ Hoku]. rewrite E12, Forall_app in Hoku. apply Hoku. }
      destruct (block_ok_pos _ Hokl) as (_ & P & _). specialize (P ltac:(done)). lia. }
    rewrite app_nil_r in *. cbn [total] in *. rewrite Z.add_0_r in *.
    pose proof Ht' as (Hs' & He' & Hsum' & Hok'). rewrite seg_app, Z.add_0_l in Hs'. rewrite Forall_app in Hok'. rewrite total_app in Hsum'.
    rewrite (next_free_spec heap_fuel s1 _ _ _ (proj2 Hs') (proj2 Hok')); [|done| |done].
    2: { apply heap_fuel_enough; [exact (proj2 Hok')|]. pose proof (block_ok_pos lu (proj1 Hok')). lia. }
    cbn [ram hbytes]. eexists (mkHeap (ram s1) _ (hbytes s1)), lu, m, l2, mid.
    split; [done|]. split; [done|]. split; [done|]. split; [done|]. split; [done|]. split; [|done].
    split; [exact Ht'|]. split; [by apply (taken_free n m)|]. cbn [lfree]. by rewrite (first_free_used 0 lu).
  - exists s1, (lu ++ l1), m, l2, mid. split; [done|]. split; [done|]. split; [done|]. split; [done|].
    rewrite total_app. split; [done|]. split; [|done]. split; [exact Ht'|]. split; [by apply (taken_free n m)|].
    rewrite Hlf', Hlf, El'. apply first_free_before. intros Hall. apply Ez.
    apply Forall_app in Hall as [_ Hall]. destruct Hlf2 as [->|(k & l3 & ->)]; [by destruct l1|].
    destruct l1 as [|b l1]; [cbn; lia|]. cbn in E12. injection E12 as <- _. apply Forall_cons in Hall as [? _]. done.
Qed.

(** ** Freeing *)
Definition head_free l : Prop := match l with (_, false) :: _ => True | _ => False end.

Lemma plug_forward_spec s l1 n l2 : tiles s (l1 ++ (n, false) :: l2) -> lfree s <= total l1 ->
  exists s' n' l2', plug_forward (total l1) s = Some (tt, s') /\ tiles s' (l1 ++ (n', false) :: l2') /\
    lfree s' = lfree s /\ hbytes s' = hbytes s /\
    ((exists k, l2 = (k, false) :: l2' /\ n' = n + k) \/ (~ head_free l2 /\ n' = n /\ l2' = l2)).
Proof.
  intros H Hl. destruct (mid_header s l1 n false l2 H) as (H1 & K1 & [K2 K2'] & K3 & P1 & P2 & Ht & m & Hm & Hk).
  cbn [fst] in *. change (20 <= n) in K2.
  unfold plug_forward, modm, mbind, H_bind, getm, setm, get_lfree, set_lfree. rewrite H1. cbn [mbind option_bind next used prev].
  rewrite Hm. cbn [mbind option_bind]. rewrite (proj2 (Z.eqb_neq (total l1) _)) by lia. cbn [negb andb].
  destruct l2 as [|[k v] l2].
  { rewrite Hk. cbn [negb andb]. exists s, n, []. split; [done|]. split; [done|]. split; [done|]. split; [done|]. right. split_and!; [intros []|done|done]. }
  subst m. cbn [used]. apply Forall_cons in K3 as [[K4 K4'] K3]. change (20 <= k) in K4. cbn [fst] in K4'.
  cbn [total] in Ht. pose proof (block_ok_pos l2 K3) as (P3 & _). destruct v; cbn [negb andb].
  { exists s, n, ((k, true) :: l2). split; [done|]. split; [done|]. split; [done|]. split; [done|]. right. split_and!; [intros []|done|done]. }
  assert (Hne : total l1 + n <> MEM_SIZE_ALIGNED) by lia.
  rewrite (proj2 (Z.eqb_neq _ _)) by done. cbn [negb]. rewrite (proj2 (Z.eqb_neq (lfree s) _)) by lia.
  unfold mret, H_ret. cbn [ram lfree hbytes next prev].
  assert (Hm2 : exists m2, <[total l1 := set_next (total l1 + n + k) (mkMem (total l1 + n) (last_off 0 0 l1) false)]> (ram s)
    !! (total l1 + n + k) = Some m2 /\ ram s !! (total l1 + n + k) = Some m2).
  { rewrite lookup_insert_ne by lia. replace (l1 ++ (n, false) :: (k, false) :: l2) with ((l1 ++ [(n, false)]) ++ (k, false) :: l2) in H
      by (by rewrite <- app_assoc). destruct (mid_header s _ k false l2 H) as (_ & _ & _ & _ & _ & _ & _ & m2 & Hm2 & _).
    rewrite total_app in Hm2. cbn [total] in Hm2. rewrite Z.add_0_r in Hm2. by exists m2. }
  destruct Hm2 as (m2 & Hm2 & Hm2'). rewrite Hm2. cbn [mbind option_bind].
  eexists (mkHeap _ (lfree s) (hbytes s)), (n + k), l2. split; [done|]. split; [|split; [done|split; [done|left; by exists k]]].
  apply (tiles_splice s _ l1 [(n, false); (k, false)] [(n + k, false)] l2); [done|done| | |cbn; lia| |].
  - intros i Hi. cbn [total ram] in *. by rewrite !lookup_insert_ne by lia.
  - cbn [seg ram]. rewrite lookup_insert_ne, lookup_insert_eq by lia. split; [|done]. unfold set_next. cbn. do 2 f_equal. lia.
  - apply Forall_cons_2; [|apply Forall_nil_2]. split; [change (20 <= n + k); lia|].
    cbn [fst]. change MEM_ALIGNMENT with 4 in *. Z.to_euclidean_division_equations. lia.
  - left. cbn [total ram last_off]. replace (total l1 + (n + (k + 0))) with (total l1 + n + k) by lia.
    by rewrite lookup_insert_eq, Hm2'.
Qed.

Lemma plug_backward_spec s l1 n l2 : tiles s (l1 ++ (n, false) :: l2) ->
  lfree s = first_free 0 (l1 ++ (n, false) :: l2) ->
  exists s' n' l1', plug_backward (total l1) s = Some (tt, s') /\ tiles s' (l1' ++ (n', false) :: l2) /\
    lfree s' = lfree s /\ hbytes s' = hbytes s /\
    ((exists k, l1 = l1' ++ [(k, false)] /\ n' = k + n) \/ (l1' = l1 /\ n' = n /\ (forall la k, l1 <> la ++ [(k, false)]))).
Proof.
  intros H Hl. destruct (mid_header s l1 n false l2 H) as (H1 & K1 & [K2 K2'] & K3 & P1 & P2 & Ht & m & Hm & Hk).
  cbn [fst] in *. change (20 <= n) in K2.
  unfold plug_backward, modm, mbind, H_bind, getm, setm, get_lfree, set_lfree. rewrite H1. cbn [mbind option_bind next used prev].
  destruct l1 as [|[k v] l1 _] using rev_ind.
  { cbn [total last_off] in *. rewrite H1. cbn [mbind option_bind]. cbn.
    exists s, n, []. split; [done|]. split; [done|]. split; [done|]. split; [done|]. right. split; [done|]. split; [done|].
    intros [|? ?]; done. }
  rewrite <- app_assoc in H. cbn [app] in H. rewrite last_off_app. cbn [last_off]. rewrite Z.add_0_l.
  destruct (mid_header s l1 k v ((n, false) :: l2) H) as (G1 & G2 & [G3 G3'] & _ & G4 & _ & G5 & _).
  cbn [fst] in *. change (20 <= k) in G3. rewrite total_app in *. cbn [total] in *. rewrite Z.add_0_r in *.
  rewrite G1. cbn [mbind option_bind used]. rewrite (proj2 (Z.eqb_neq (total l1) _)) by lia. cbn [negb andb].
  destruct v; cbn [negb].
  { exists s, n, (l1 ++ [(k, true)]). rewrite <- app_assoc. split; [done|]. split; [done|]. split; [done|]. split; [done|].
    right. split; [done|]. split; [done|]. intros la k' E. apply app_inj_tail in E as [_ E]. discriminate E. }
  assert (Hlow : lfree s <= total l1).
  { rewrite Hl, <- app_assoc. cbn [app]. destruct (first_free_split l1) as (la & lb & -> & Hu & Hff & Hb).
    rewrite <- app_assoc, first_free_used by done. rewrite total_app in *. destruct Hb as [->|(x & l3 & ->)]; cbn.
    - lia.
    - apply Forall_app in G2 as [_ G2]. pose proof (block_ok_pos _ G2) as (? & _). cbn [total] in *. lia. }
  rewrite (proj2 (Z.eqb_neq (lfree s) _)) by lia. unfold mret, H_ret. cbn [ram lfree hbytes next prev].
  rewrite lookup_insert_ne by lia. rewrite Hm. cbn [mbind option_bind].
  eexists (mkHeap _ (lfree s) (hbytes s)), (k + n), l1. split; [done|]. split; [|split; [done|split; [done|left; by exists k]]].
  apply (tiles_splice s _ l1 [(k, false); (n, false)] [(k + n, false)] l2); [done|done| | |cbn; lia| |].
  - intros i Hi. cbn [total ram] in *. by rewrite !lookup_insert_ne by lia.
  - cbn [seg ram]. rewrite lookup_insert_ne, lookup_insert_eq by lia. split; [|done]. unfold set_next. cbn. do 2 f_equal. lia.
  - apply Forall_cons_2; [|apply Forall_nil_2]. split; [change (20 <= k + n); lia|].
    cbn [fst]. change MEM_ALIGNMENT with 4 in *. Z.to_euclidean_division_equations. lia.
  - left. cbn [total ram last_off]. replace (total l1 + (k + (n + 0))) with (total l1 + k + n) by lia.
    by rewrite lookup_insert_eq, Hm.
Qed.

Lemma release_spec s l1 n l2 : heap_ok s (l1 ++ (n, true) :: l2) ->
  exists s', (modm (total l1) (set_used false);; l ← get_lfree;
              (if total l1 <? l then set_lfree (total l1) else mret tt)) s = Some (tt, s') /\
    tiles s' (l1 ++ (n, false) :: l2) /\ lfree s' = first_free 0 (l1 ++ (n, false) :: l2) /\ hbytes s' = hbytes s.
Proof.
  intros (H & _ & Hl). destruct (mid_header s l1 n true l2 H) as (H1 & K1 & [K2 K2'] & K3 & P1 & P2 & Ht & m & Hm & Hk).
  cbn [fst] in *. change (20 <= n) in K2. unfold modm, mbind, H_bind, getm, setm, get_lfree, set_lfree.
  rewrite H1. cbn [mbind option_bind lfree ram hbytes].
  assert (Htiles : forall lf, tiles (mkHeap (<[total l1 := set_used false (mkMem (total l1 + n) (last_off 0 0 l1) true)]> (ram s)) lf (hbytes s))
    (l1 ++ (n, false) :: l2)).
  { intros lf. apply (tiles_splice s _ l1 [(n, true)] [(n, false)]); [done|done| | |done| |].
    - intros i Hi. cbn [total ram] in *. by rewrite lookup_insert_ne by lia.
    - cbn [seg ram]. by rewrite lookup_insert_eq.
    - apply Forall_cons_2; [by split|apply Forall_nil_2].
    - cbn [total ram last_off]. rewrite Z.add_0_r, lookup_insert_ne by lia. rewrite Hm. destruct l2 as [|[k v] l2].
      + right. split; [|done]. cbn [total] in Ht. lia.
      + left. by rewrite Hk. }
  assert (Hff : (if total l1 <? lfree s then total l1 else lfree s) = first_free 0 (l1 ++ (n, false) :: l2)).
  { rewrite Hl. destruct (decide (all_used l1)) as [Hu|Hu].
    - rewrite !first_free_used by done. cbn [first_free]. pose proof (first_free_bounds (0 + total l1 + n) l2 K3) as [? _].
      rewrite (proj2 (Z.ltb_lt _ _)) by lia. lia.
    - rewrite (first_free_before 0 l1 ((n, true) :: l2) []) by done. rewrite (first_free_before 0 l1 ((n, false) :: l2) []) by done.
      rewrite app_nil_r. pose proof (first_free_bounds 0 l1 K1) as [_ Hb]. specialize (Hb Hu).
      rewrite (proj2 (Z.ltb_ge _ _)) by lia. done. }
  destruct (total l1 <? lfree s); (eexists; split; [reflexivity|]); (split; [apply Htiles|]); done.
Qed.

Lemma live_in off l p k : In (p, k) (live off l) ->
  exists l1 n l2, l = l1 ++ (n, true) :: l2 /\ p = off + total l1 + SIZEOF_STRUCT_MEM /\ k = n - SIZEOF_STRUCT_MEM.
Proof.
  revert off; induction l as [|[n u] l IH]; intros off; [done|]. cbn [live]. intros H.
  assert (Hrest : In (p, k) (live (off + n) l) -> exists l1 n0 l2, (n, u) :: l = l1 ++ (n0, true) :: l2 /\
    p = off + total l1 + SIZEOF_STRUCT_MEM /\ k = n0 - SIZEOF_STRUCT_MEM).
  { intros (l1 & m & l2 & -> & -> & ->)%IH. exists ((n, u) :: l1), m, l2. split; [done|]. cbn [total]. split; [lia|done]. }
  destruct u; [|by apply Hrest]. destruct H as [[= <- <-]|H]; [|by apply Hrest].
  exists [], n, l. split; [done|]. cbn [total]. split; [lia|done].
Qed.

Lemma live_drop off l1 n l2 : live off (l1 ++ (n, false) :: l2) = live off l1 ++ live (off + total l1 + n) l2.
Proof. by rewrite live_app. Qed.

(** [mem_free] in three parts. *)
Lemma mem_free_parts a s : 0 <= a < MEM_SIZE_ALIGNED -> let i := a - SIZEOF_STRUCT_MEM in
  mem_free (Some a) s =
    ((modm i (set_used false);; l ← get_lfree; (if i <? l then set_lfree i else mret tt)) ≫= fun _ =>
     plug_forward i ≫= fun _ => plug_backward i) s.
Proof.
  intros Ha i. unfold mem_free. rewrite (proj2 (Z.ltb_ge _ _)), (proj2 (Z.leb_gt _ _)) by lia. cbn [orb]. fold i.
  unfold plug_holes, modm, mbind, H_bind, getm. destruct (ram s !! i); [|done]. cbn [mbind option_bind setm get_lfree lfree].
  by destruct (i <? lfree s).
Qed.

Lemma heap_free_spec s l1 n l2 : heap_ok s (l1 ++ (n, true) :: l2) ->
  exists s' l', mem_free (Some (total l1 + SIZEOF_STRUCT_MEM)) s = Some (tt, s') /\ heap_ok s' l' /\
    live 0 l' = live 0 l1 ++ live (total l1 + n) l2 /\ hbytes s' = hbytes s.
Proof.
  intros H. pose proof H as (Ht & Hm & _).
  destruct (mid_header s l1 n true l2 Ht) as (_ & K1 & [K2 _] & K3 & P1 & P2 & Hsum & _). cbn [fst] in K2.
  change (20 <= n) in K2. assert (Ha : 0 <= total l1 + SIZEOF_STRUCT_MEM < MEM_SIZE_ALIGNED).
  { change SIZEOF_STRUCT_MEM with 8. lia. }
  destruct (release_spec s l1 n l2 H) as (s1 & E1 & T1 & F1 & B1).
  assert (Hl1 : lfree s1 <= total l1).
  { rewrite F1. destruct (decide (all_used l1)) as [Hu|Hu]; [rewrite first_free_used by done; cbn; lia|].
    rewrite (first_free_before 0 l1 _ []), app_nil_r by done. pose proof (first_free_bounds 0 l1 K1) as [? _]. lia. }
  destruct (plug_forward_spec s1 l1 n l2 T1 Hl1) as (s2 & n2 & l2' & E2 & T2 & F2 & B2 & C2).
  assert (Fb : lfree s2 = first_free 0 (l1 ++ (n2, false) :: l2')).
  { rewrite F2, F1. destruct (decide (all_used l1)) as [Hu|Hu]; [by rewrite !first_free_used|by apply first_free_before]. }
  destruct (plug_backward_spec s2 l1 n2 l2' T2 Fb) as (s3 & n3 & l1' & E3 & T3 & F3 & B3 & C3).
  exists s3, (l1' ++ (n3, false) :: l2'). split; [|split; [split; [exact T3|split]|split]].
  - rewrite mem_free_parts by done. cbv zeta. replace (total l1 + SIZEOF_STRUCT_MEM - SIZEOF_STRUCT_MEM) with (total l1) by lia.
    unfold mbind at 1, H_bind at 1. rewrite E1. unfold mbind, H_bind. by rewrite E2.
  - apply merged_mid in Hm as [Hm1 Hm2]. apply merged_snoc_used in Hm1.
    assert (G2 : forall x, merged ((x, false) :: l2')).
    { intros x. destruct C2 as [(k & -> & ->)|(Hh & -> & ->)].
      - destruct l2' as [|[y w] l2']; [done|]. cbn in *. tauto.
      - destruct l2 as [|[y [|]] l2]; [done|cbn in *; tauto|by destruct Hh]. }
    apply merged_mid. split; [|done]. destruct C3 as [(k & E & ->)|(-> & -> & Hlast)].
    + subst l1. by apply (merged_resize l1' k _ false []).
    + destruct l1 as [|[k v] l1 _] using rev_ind; [done|]. destruct v; [|by destruct (Hlast l1 k)].
      rewrite <- app_assoc. cbn [app]. apply merged_mid. by split.
  - rewrite F3, Fb. destruct C3 as [(k & -> & ->)|(-> & -> & _)]; [|done]. rewrite <- app_assoc. cbn [app].
    destruct (decide (all_used l1')) as [Hu|Hu]; [by rewrite !first_free_used|by apply first_free_before].
  - rewrite live_drop, Z.add_0_l.
    assert (Er : live (total l1 + n2) l2' = live (total l1 + n) l2).
    { destruct C2 as [(k & -> & ->)|(_ & -> & ->)]; [|done]. cbn [live]. f_equal. lia. }
    rewrite <- Er. destruct C3 as [(k & -> & ->)|(-> & -> & _)]; [|done]. rewrite live_drop, total_app, app_nil_r.
    cbn [total]. f_equal. f_equal. lia.
  - by rewrite B3, B2, B1.
Qed.

(** ** Trimming *)
(** The part cut off from a used block starts a free block at [ptr2]. *)
Lemma cut_tiles s l1 n l2 c rest lf : let o := total l1 in
  (rest = [] \/ exists k, rest = [(k, false)]) ->
  tiles s (l1 ++ (n, true) :: rest ++ l2) -> 20 <= c -> c mod MEM_ALIGNMENT = 0 -> 20 <= n - c + total rest -> c < n ->
  let e := o + n + total rest in let h1 := <[o := mkMem (o + c) (last_off 0 0 l1) true]> (<[o + c := mkMem e o false]> (ram s)) in
  exists h', (if negb (e =? MEM_SIZE_ALIGNED) then modm e (set_prev (o + c)) else mret tt) (mkHeap h1 lf (hbytes s)) =
      Some (tt, mkHeap h' lf (hbytes s)) /\
    tiles (mkHeap h' lf (hbytes s)) (l1 ++ [(c, true); (n - c + total rest, false)] ++ l2).
Proof.
  intros o Hrest H Hc Hal Hr Hcn e h1.
  assert (Hr0 : 0 <= total rest /\ total rest mod MEM_ALIGNMENT = 0).
  { destruct Hrest as [->|[k ->]]; [done|]. cbn [total]. destruct H as (_ & _ & _ & Hok).
    rewrite Forall_app, Forall_cons, Forall_app in Hok. destruct Hok as (_ & _ & Hok & _). apply Forall_cons in Hok as [[Hk1 Hk2] _].
    cbn [fst] in *. change (20 <= k) in Hk1. rewrite Z.add_0_r. split; [lia|done]. }
  assert (Hm : exists m, ram s !! e = Some m /\ Forall block_ok l1 /\ block_ok (n, true) /\ 0 <= o /\ (l2 = [] -> e = MEM_SIZE_ALIGNED)).
  { destruct (mid_header s l1 n true _ H) as (_ & K1 & K2 & _ & P1 & _ & Ht & m & Hm & _).
    destruct Hrest as [->|[k ->]]; cbn [app total] in *.
    - exists m. split; [unfold e, o; by rewrite Z.add_0_r|]. split_and!; try done. intros ->. cbn [total] in Ht. unfold e, o. lia.
    - replace (l1 ++ (n, true) :: (k, false) :: l2) with ((l1 ++ [(n, true)]) ++ (k, false) :: l2) in H by (by rewrite <- app_assoc).
      destruct (mid_header s _ k false l2 H) as (_ & _ & _ & _ & _ & _ & Ht2 & m2 & Hm2 & _).
      rewrite total_app in Hm2, Ht2. cbn [total] in Hm2, Ht2. exists m2.
      split; [unfold e, o; rewrite <- Hm2; f_equal; lia|]. split_and!; try done. intros ->. cbn [total] in *. unfold e, o. lia. }
  destruct Hm as (m & Hm & K1 & [K2 K2'] & Po & Hend). cbn [fst] in *. change (20 <= n) in K2.
  assert (He : o + c < e) by (unfold e; lia).
  assert (Hok' : Forall block_ok [(c, true); (n - c + total rest, false)]).
  { repeat apply Forall_cons_2; [split|split|apply Forall_nil_2]; cbn [fst]; try done.
    destruct Hr0 as [_ Hr0]. change MEM_ALIGNMENT with 4 in *. Z.to_euclidean_division_equations. lia. }
  assert (Hsplice : forall h', (forall i, i <> e -> h' !! i = h1 !! i) ->
    (h' !! e = set_prev (o + c) <$> (ram s !! e) \/ e = MEM_SIZE_ALIGNED /\ h' !! e = ram s !! e) ->
    tiles (mkHeap h' lf (hbytes s)) (l1 ++ [(c, true); (n - c + total rest, false)] ++ l2)).
  { intros h' Hh' Hback. apply (tiles_splice s _ l1 ((n, true) :: rest)); [done|done| | |cbn [total]; lia|done|].
    - intros i Hi. cbn [total ram] in *. fold o in Hi. rewrite Hh' by (unfold e; lia). unfold h1, e in *. by rewrite !lookup_insert_ne by lia.
    - cbn [seg ram]. fold o. rewrite !Hh' by lia. unfold h1. rewrite lookup_insert_eq, lookup_insert_ne, lookup_insert_eq by lia.
      split; [done|]. split; [|done]. unfold e. do 2 f_equal. lia.
    - cbn [total ram last_off]. fold o. replace (o + (n + total rest)) with e by (unfold e; lia). exact Hback. }
  destruct (Z.eqb_spec e MEM_SIZE_ALIGNED) as [Ee|Ee]; cbn [negb].
  - exists h1. split; [done|]. apply Hsplice; [done|]. right. split; [done|]. unfold h1. by rewrite !lookup_insert_ne by lia.
  - assert (Hm1 : h1 !! e = Some m) by (unfold h1; by rewrite !lookup_insert_ne by lia).
    unfold modm, mbind, H_bind, getm, setm. cbn [ram]. rewrite Hm1. cbn [mbind option_bind lfree hbytes ram].
    exists (<[e := set_prev (o + c) m]> h1). split; [done|]. apply Hsplice.
    + intros i Hi. by rewrite lookup_insert_ne.
    + left. by rewrite lookup_insert_eq, Hm.
Qed.

Lemma cut_merged l1 n c r rest l2 : (rest = [] \/ exists k, rest = [(k, false)]) ->
  (rest = [] -> exists k l3, l2 = (k, true) :: l3 \/ l2 = []) ->
  merged (l1 ++ (n, true) :: rest ++ l2) -> merged (l1 ++ [(c, true); (r, false)] ++ l2).
Proof.
  intros Hrest Hu H. apply merged_mid in H as [H1 H2]. cbn [app]. apply merged_mid. split.
  - apply merged_snoc_used. by apply merged_snoc_used in H1.
  - destruct Hrest as [->|[k ->]]; cbn [app] in *.
    + destruct (Hu eq_refl) as (k & l3 & [->| ->]); [|done]. split; [done|]. split; [done|]. by destruct H2 as [_ H2].
    + destruct H2 as [_ H2]. split; [done|]. by destruct l2.
Qed.

(** Where [lfree] points after the cut. *)
Lemma cut_free l1 n c r rest l2 lf : Forall block_ok (l1 ++ (n, true) :: rest ++ l2) -> 0 <= c < n ->
  (rest = [] \/ exists k, rest = [(k, false)]) -> lf = first_free 0 (l1 ++ (n, true) :: rest ++ l2) ->
  (if decide (rest = []) then (if total l1 + c <? lf then total l1 + c else lf)
   else (if lf =? total l1 + n then total l1 + c else lf)) = first_free 0 (l1 ++ [(c, true); (r, false)] ++ l2).
Proof.
  intros Hok Hc Hrest ->. rewrite Forall_app, Forall_cons, Forall_app in Hok. destruct Hok as (K1 & [K2 _] & Kr & K3).
  change (20 <= n) in K2. cbn [app]. destruct (decide (all_used l1)) as [Hu|Hu].
  - rewrite !first_free_used by done. cbn [first_free]. rewrite Z.add_0_l.
    destruct Hrest as [->|[k ->]]; cbn [app].
    + rewrite decide_True by done. pose proof (first_free_bounds (total l1 + n) l2 K3) as [? _].
      rewrite (proj2 (Z.ltb_lt _ _)); [done|lia].
    + rewrite decide_False by done. cbn [first_free]. by rewrite Z.eqb_refl.
  - rewrite (first_free_before 0 l1 ((n, true) :: rest ++ l2) []) by done.
    rewrite (first_free_before 0 l1 ((c, true) :: (r, false) :: l2) []), app_nil_r by done.
    pose proof (first_free_bounds 0 l1 K1) as [_ Hb]. specialize (Hb Hu).
    destruct (decide (rest = [])).
    + by rewrite (proj2 (Z.ltb_ge _ _)) by lia.
    + rewrite (proj2 (Z.eqb_neq _ _)) by lia. done.
Qed.

Lemma cut_spec s l1 n l2 nb : heap_ok s (l1 ++ (n, true) :: l2) ->
  MIN_SIZE_ALIGNED <= nb -> nb mod MEM_ALIGNMENT = 0 -> nb < n - SIZEOF_STRUCT_MEM ->
  exists s' c l', trim_cut (total l1) nb (n - SIZEOF_STRUCT_MEM) (mkMem (total l1 + n) (last_off 0 0 l1) true) s = Some (tt, s') /\
    heap_ok s' l' /\ nb <= c - SIZEOF_STRUCT_MEM < nb + SIZEOF_STRUCT_MEM + MIN_SIZE_ALIGNED /\ c <= n /\
    live 0 l' = live 0 l1 ++ (total l1 + SIZEOF_STRUCT_MEM, c - SIZEOF_STRUCT_MEM) :: live (total l1 + n) l2 /\
    hbytes s' = hbytes s.
Proof.
  intros Hh B2 B3 Hlt. pose proof Hh as (Ht & Hmg & Hlf).
  destruct (mid_header s l1 n true l2 Ht) as (H1 & K1 & [K2 K2'] & K3 & P1 & P2 & Hsum & m2 & Hm2 & Hk).
  cbn [fst] in *. change (20 <= n) in K2. change MIN_SIZE_ALIGNED with 12 in *. change SIZEOF_STRUCT_MEM with 8 in *.
  assert (Hn : n <= 10240) by (change MEM_SIZE_ALIGNED with 10240 in Hsum; lia).
  assert (Hp2 : total l1 + 8 + nb < 65536) by (change MEM_SIZE_ALIGNED with 10240 in Hsum; lia).
  set (c := nb + 8). set (h1 := fun e => <[total l1 := mkMem (total l1 + c) (last_off 0 0 l1) true]>
    (<[total l1 + c := mkMem e (total l1) false]> (ram s))).
  assert (Hcut : forall rest l2', l2 = rest ++ l2' -> (rest = [] \/ exists k, rest = [(k, false)]) ->
    (rest = [] -> exists k l3, l2' = (k, true) :: l3 \/ l2' = []) -> 20 <= n - c + total rest ->
    let e := total l1 + n + total rest in
    let lf := if decide (rest = []) then (if total l1 + c <? lfree s then total l1 + c else lfree s)
              else (if lfree s =? total l1 + n then total l1 + c else lfree s) in
    exists s' c' l', (if negb (e =? MEM_SIZE_ALIGNED) then modm e (set_prev (total l1 + c)) else mret tt)
        (mkHeap (h1 e) lf (hbytes s)) = Some (tt, s') /\ heap_ok s' l' /\
      nb <= c' - 8 < nb + 8 + 12 /\ c' <= n /\
      live 0 l' = live 0 l1 ++ (total l1 + 8, c' - 8) :: live (total l1 + n) l2 /\ hbytes s' = hbytes s).
  { intros rest l2' E Hrest Hu Hr e lf. subst l2. destruct (cut_tiles s l1 n l2' c rest lf Hrest Ht) as (h' & E & T).
    - unfold c; lia.
    - unfold c. change MEM_ALIGNMENT with 4 in *. Z.to_euclidean_division_equations. lia.
    - done.
    - unfold c; lia.
    - eexists _, c, _. split; [exact E|]. split; [split; [exact T|split]|].
      + by apply (cut_merged l1 n c _ rest).
      + cbn [lfree]. apply (cut_free l1 n c _ rest); [|unfold c; lia|done|done]. by destruct Ht as (_ & _ & _ & ?).
      + split; [unfold c; lia|]. split; [unfold c; lia|]. split; [|done]. rewrite live_app. cbn [live app]. f_equal. f_equal.
        rewrite live_app. destruct Hrest as [->|[k ->]]; cbn [live total app]; f_equal; lia. }
  unfold trim_cut. change SIZEOF_STRUCT_MEM with 8. change MIN_SIZE_ALIGNED with 12. cbn [next]. rewrite (u16_small (total l1 + 8 + nb)) by lia.
  replace (total l1 + 8 + nb) with (total l1 + c) by (unfold c; lia).
  assert (Hrun : forall e lf, (setm (total l1 + c) (mkMem e (total l1) false);; modm (total l1) (set_next (total l1 + c));;
      if negb (e =? MEM_SIZE_ALIGNED) then modm e (set_prev (total l1 + c)) else mret tt) (mkHeap (ram s) lf (hbytes s)) =
    (if negb (e =? MEM_SIZE_ALIGNED) then modm e (set_prev (total l1 + c)) else mret tt) (mkHeap (h1 e) lf (hbytes s))).
  { intros e lf. unfold modm, mbind, H_bind, getm, setm. cbn [ram lfree hbytes].
    rewrite lookup_insert_ne, H1 by (unfold c; lia). done. }
  assert (Hs : s = mkHeap (ram s) (lfree s) (hbytes s)) by by destruct s.
  unfold mbind at 1, H_bind at 1, getm at 1. rewrite Hm2. cbn [mbind option_bind].
  destruct (used m2) eqn:Eu; cbn [negb].
  - destruct (Z.leb_spec (nb + 8 + 12) (n - 8)) as [Hroom|Hsmall].
    + destruct (Hcut [] l2 eq_refl) as (s' & c' & l' & E & R); [by left| |cbn; unfold c; lia|].
      { intros _. destruct l2 as [|[k [|]] l3]; [exists 0, []; by right|exists k, l3; by left|by subst m2]. }
      exists s', c', l'. split; [|exact R]. rewrite decide_True in E by done. cbn [total] in E. rewrite Z.add_0_r in E.
      rewrite <- Hrun in E. rewrite Hs at 1. unfold mbind at 1, H_bind at 1, get_lfree at 1. cbn [lfree].
      unfold mbind at 1, H_bind at 1. destruct (total l1 + c <? lfree s); exact E.
    + exists s, n, (l1 ++ (n, true) :: l2). split; [done|]. split; [done|]. split; [lia|]. split; [lia|]. split; [|done].
      rewrite live_app. cbn [live]. by rewrite Z.add_0_l.
  - destruct l2 as [|[k v] l2]; [congruence|]. subst m2. cbn [used] in Eu. subst v. cbn [next].
    apply Forall_cons in K3 as [[K4 _] K3]. change (20 <= k) in K4.
    destruct (Hcut [(k, false)] l2 eq_refl) as (s' & c' & l' & E & R); [right; by exists k|done|cbn; unfold c; lia|].
    exists s', c', l'. split; [|exact R]. rewrite decide_False in E by done. cbn [total] in E. rewrite Z.add_0_r in E.
    rewrite <- Hrun in E. rewrite Hs at 1. unfold mbind at 1, H_bind at 1, get_lfree at 1. cbn [lfree].
    unfold mbind at 1, H_bind at 1. destruct (lfree s =? total l1 + n); exact E.
Qed.

Lemma trim_spec s l1 n l2 newsize : heap_ok s (l1 ++ (n, true) :: l2) -> 0 <= newsize <= 65532 ->
  let p := total l1 + SIZEOF_STRUCT_MEM in let nb := block_size newsize in
  (n - SIZEOF_STRUCT_MEM < nb -> mem_trim p newsize s = Some (None, s)) /\
  (nb <= n - SIZEOF_STRUCT_MEM -> exists s' c l', mem_trim p newsize s = Some (Some p, s') /\ heap_ok s' l' /\
    nb <= c - SIZEOF_STRUCT_MEM < nb + SIZEOF_STRUCT_MEM + MIN_SIZE_ALIGNED /\ c <= n /\
    live 0 l' = live 0 l1 ++ (p, c - SIZEOF_STRUCT_MEM) :: live (total l1 + n) l2 /\ hbytes s' = hbytes s).
Proof.
  intros Hh Hsz p nb. pose proof Hh as (Ht & _).
  destruct (mid_header s l1 n true l2 Ht) as (H1 & _ & [K2 _] & _ & P1 & P2 & Hsum & _).
  destruct (block_size_ok newsize Hsz) as (_ & B2 & B3 & B4). cbv zeta in B4. fold nb in B2, B3, B4. cbn [fst] in *.
  change (20 <= n) in K2.
  assert (Hn : n <= 10240) by (change MEM_SIZE_ALIGNED with 10240 in Hsum; lia).
  assert (E : mem_trim p newsize s = if n - SIZEOF_STRUCT_MEM <? nb then Some (None, s) else
    if nb =? n - SIZEOF_STRUCT_MEM then Some (Some p, s) else
    (trim_cut (total l1) nb (n - SIZEOF_STRUCT_MEM) (mkMem (total l1 + n) (last_off 0 0 l1) true) ≫= fun _ => mret (M:=H) (Some p)) s).
  { unfold mem_trim. cbv zeta. rewrite B4. change SIZEOF_STRUCT_MEM with 8 in p |- *.
    destruct (Z.ltb_spec MEM_SIZE_ALIGNED nb); [change MEM_SIZE_ALIGNED with 10240 in *; by rewrite (proj2 (Z.ltb_lt (n - 8) nb)) by lia|].
    rewrite (proj2 (Z.ltb_ge p 0)), (proj2 (Z.leb_gt MEM_SIZE_ALIGNED p)) by (unfold p; lia). cbn [orb].
    replace (p - 8) with (total l1) by (unfold p; lia). unfold mbind at 1, H_bind at 1, getm at 1. rewrite H1.
    cbn [mbind option_bind next]. rewrite (u16_small (total l1 + n - total l1 - 8)) by lia.
    replace (total l1 + n - total l1 - 8) with (n - 8) by lia.
    destruct (n - 8 <? nb); [done|]. by destruct (nb =? n - 8). }
  rewrite E. split; intros Hc; [by rewrite (proj2 (Z.ltb_lt _ _))|]. rewrite (proj2 (Z.ltb_ge _ _)) by done.
  destruct (Z.eqb_spec nb (n - SIZEOF_STRUCT_MEM)) as [Heq|Hne].
  - exists s, n, (l1 ++ (n, true) :: l2). split; [done|]. split; [done|].
    change SIZEOF_STRUCT_MEM with 8 in *. change MIN_SIZE_ALIGNED with 12 in *. split; [lia|]. split; [lia|]. split; [|done].
    rewrite live_app. cbn [live]. by rewrite Z.add_0_l.
  - destruct (cut_spec s l1 n l2 nb Hh B2 B3) as (s' & c & l' & E' & R); [lia|]. exists s', c, l'. split; [|exact R].
    unfold mbind, H_bind. by rewrite E'.
Qed.

(** Allocations that follow each other without overlap, from [lo] on. *)
Fixpoint apart lo (a : list (Z * Z)) : Prop :=
  match a with [] => True | (p, k) :: a' => lo <= p /\ 0 <= k /\ apart (p + k) a' end.

Lemma apart_weaken lo lo' a : lo' <= lo -> apart lo a -> apart lo' a.
Proof. destruct a as [|[p k] a]; [done|]. cbn. intros ? (? & ? & ?). split; [lia|]. by split. Qed.

Lemma live_apart off l : Forall block_ok l -> apart off (live off l).
Proof.
  revert off; induction l as [|[n u] l IH]; intros off; [done|]. intros [[H1 _] H2]%Forall_cons. change (20 <= n) in H1.
  cbn [live]. destruct u.
  - change SIZEOF_STRUCT_MEM with 8. split; [lia|]. split; [lia|]. eapply apart_weaken; [|by apply IH]. lia.
  - eapply apart_weaken; [|by apply IH]. lia.
Qed.

Lemma total_aligned l : Forall block_ok l -> total l mod MEM_ALIGNMENT = 0.
Proof.
  induction l as [|[n u] l IH]; [done|]. intros [[_ H1] H2]%Forall_cons. specialize (IH H2). cbn [fst total] in *.
  change MEM_ALIGNMENT with 4 in *. Z.to_euclidean_division_equations. lia.
Qed.

Lemma init_spec s : exists s', mem_init s = Some (tt, s') /\ heap_ok s' [(MEM_SIZE_ALIGNED, false)] /\ hbytes s' = hbytes s.
Proof.
  exists (mkHeap (<[MEM_SIZE_ALIGNED := mkMem MEM_SIZE_ALIGNED MEM_SIZE_ALIGNED true]>
    (<[0 := mkMem MEM_SIZE_ALIGNED 0 false]> (ram s))) 0 (hbytes s)).
  split; [reflexivity|]. split; [|done]. split; [|done]. split; [|split; [|split; [done|]]]; cbn [ram].
  - cbn [seg]. by rewrite lookup_insert_ne, lookup_insert_eq.
  - rewrite lookup_insert_eq. by eexists.
  - apply Forall_cons_2; [by split|apply Forall_nil_2].
Qed.
End Blocks.

(** mem_malloc refuses exactly when no free block is big enough and then changes
    nothing; otherwise it returns the first fitting block with at least the size asked
    for, the other live allocations keep address and size, and the heap stays a gap-free
    list of blocks without free neighbours. *)
Theorem mem_malloc_first_fit s l size : heap_ok s l -> 0 < size <= 65532 ->
  (mem_malloc size s = Some (None, s) /\ Forall (fun b => ~ fits (block_size size) b) l) \/
  exists s' l1 n l2 l' p k a1 a2, mem_malloc size s = Some (Some p, s') /\ heap_ok s' l' /\
    l = l1 ++ (n, false) :: l2 /\ Forall (fun b => ~ fits (block_size size) b) l1 /\ p = total l1 + SIZEOF_STRUCT_MEM /\
    live 0 l = a1 ++ a2 /\ live 0 l' = a1 ++ (p, k) :: a2 /\ apart 0 (live 0 l') /\
    size <= k /\ p mod MEM_ALIGNMENT = 0 /\ 0 <= p /\ p + k <= MEM_SIZE_ALIGNED /\ hbytes s' = hbytes s.
Proof.
  intros H Hsz. destruct (malloc_spec s l size H Hsz) as [?|(s' & l1 & n & l2 & mid & -> & Hnf & Hfit & Hmid & E & H' & Hb)];
    [by left|]. right. destruct (block_size_ok size ltac:(lia)) as (B1 & _).
  pose proof H' as ((_ & _ & Hsum & Hok') & _). rewrite !total_app in Hsum.
  pose proof (live_apart 0 _ Hok') as Hap. rewrite !Forall_app in Hok'. destruct Hok' as (K1 & K2 & K3).
  pose proof (block_ok_pos l1 K1) as (P1 & _). pose proof (block_ok_pos l2 K3) as (P2 & _).
  destruct Hfit as [_ Hfit]. cbn [fst] in Hfit. pose proof (total_aligned l1 K1) as Hal.
  change SIZEOF_STRUCT_MEM with 8 in *. change MEM_ALIGNMENT with 4 in *.
  assert (Hcase : exists k, live 0 (l1 ++ mid ++ l2) = live 0 l1 ++ (total l1 + 8, k) :: live (total l1 + n) l2 /\
    block_size size <= k /\ total l1 + 8 + k <= total l1 + total mid).
  { rewrite live_app. destruct Hmid as [[-> _]| ->]; cbn [app live total]; change SIZEOF_STRUCT_MEM with 8 in *; rewrite Z.add_0_l.
    - exists (n - 8). split; [done|]. split; lia.
    - exists (block_size size). split; [do 2 f_equal; [f_equal; lia|f_equal; lia]|]. apply Forall_cons in K2 as [_ K2].
      pose proof (block_ok_pos _ K2) as (P & _). cbn [total] in P. change SIZEOF_STRUCT_MEM with 8 in *. split; lia. }
  destruct Hcase as (k & El & Hk1 & Hk2). exists s', l1, n, l2, (l1 ++ mid ++ l2), (total l1 + 8), k, (live 0 l1), (live (total l1 + n) l2).
  split_and!; try done; try lia.
  - by rewrite live_app.
  - Z.to_euclidean_division_equations. lia.
Qed.

(** mem_free of a live allocation removes exactly it, merges the block with its free
    neighbours, moves the lowest-free pointer and keeps the heap invariant; the bytes of
    the others do not change. *)
Theorem mem_free_exact s l p k : heap_ok s l -> In (p, k) (live 0 l) ->
  exists s' l' a1 a2, mem_free (Some p) s = Some (tt, s') /\ heap_ok s' l' /\
    live 0 l = a1 ++ (p, k) :: a2 /\ live 0 l' = a1 ++ a2 /\ hbytes s' = hbytes s.
Proof.
  intros H (l1 & n & l2 & -> & -> & ->)%live_in. destruct (heap_free_spec s l1 n l2 H) as (s' & l' & E & H' & El & Hb).
  exists s', l', (live 0 l1), (live (total l1 + n) l2). rewrite Z.add_0_l. split_and!; try done.
  by rewrite live_app.
Qed.

(** mem_trim refuses to grow an allocation; otherwise it keeps its address, leaves at
    least the new size, changes no other allocation and keeps the heap invariant. *)
Theorem mem_trim_exact s l p k newsize : heap_ok s l -> In (p, k) (live 0 l) -> 0 <= newsize <= 65532 ->
  (k < block_size newsize /\ mem_trim p newsize s = Some (None, s)) \/
  exists s' l' a1 a2 k', mem_trim p newsize s = Some (Some p, s') /\ heap_ok s' l' /\
    live 0 l = a1 ++ (p, k) :: a2 /\ live 0 l' = a1 ++ (p, k') :: a2 /\
    block_size newsize <= k' <= k /\ k' < block_size newsize + SIZEOF_STRUCT_MEM + MIN_SIZE_ALIGNED /\ hbytes s' = hbytes s.
Proof.
  intros H (l1 & n & l2 & -> & -> & ->)%live_in Hsz. destruct (trim_spec s l1 n l2 newsize H Hsz) as [Hno Hyes].
  rewrite Z.add_0_l in *. destruct (Z.lt_ge_cases (n - SIZEOF_STRUCT_MEM) (block_size newsize)) as [Hlt|Hge]; [left; auto|].
  right. destruct (Hyes Hge) as (s' & c & l' & E & H' & Hc & Hcn & El & Hb).
  exists s', l', (live 0 l1), (live (total l1 + n) l2), (c - SIZEOF_STRUCT_MEM). split_and!; try done; try lia.
  by rewrite live_app.
Qed.

(** ** Two sizes that wrap *)
Definition demo_heap : heap_t :=
  mkHeap {[ 0 := mkMem MEM_SIZE_ALIGNED 0 false; MEM_SIZE_ALIGNED := mkMem MEM_SIZE_ALIGNED MEM_SIZE_ALIGNED true ]} 0 (fun _ => 1).

Lemma demo_heap_ok : heap_ok demo_heap [(MEM_SIZE_ALIGNED, false)].
Proof.
  split; [|done]. split; [|split; [|split; [done|]]].
  - by split.
  - by eexists.
  - apply Forall_cons_2; [by split|apply Forall_nil_2].
Qed.

(** [mem_malloc] of 65533 to 65535 bytes succeeds with a block of 12 bytes: the
    alignment of the size wraps to 0. *)
Lemma mem_malloc_wraps : exists s' , mem_malloc 65533 demo_heap = Some (Some 8, s') /\
  ram s' !! 0 = Some (mkMem 20 0 true).
Proof. eexists. split; [vm_compute; reflexivity|reflexivity]. Qed.

(** [mem_calloc] of 257 objects of 256 bytes allocates 256 bytes and clears 65792. *)
Lemma mem_calloc_overruns : exists s', mem_calloc 257 256 demo_heap = Some (Some 8, s') /\
  ram s' !! 0 = Some (mkMem 264 0 true) /\ hbytes s' 65799 = 0 /\ hbytes demo_heap 65799 = 1.
Proof.
  assert (E : mem_malloc (u16 (257 * 256)) demo_heap = Some (Some 8,
    mkHeap (<[0 := mkMem 264 0 true]> (<[264 := mkMem 10240 0 false]> (ram demo_heap))) 264 (hbytes demo_heap))) by reflexivity.
  unfold mem_calloc, mbind, H_bind. rewrite E. eexists. split; [reflexivity|]. cbn [ram hbytes].
  split; [reflexivity|]. split; [|reflexivity]. unfold mem_write. rewrite decide_True by lia.
  rewrite lookup_replicate_2; [done|]. lia.
Qed.

(** ** Witnesses *)
Definition demo_used : heap_t :=
  mkHeap {[ 0 := mkMem 108 0 true; 108 := mkMem 168 0 true; 168 := mkMem MEM_SIZE_ALIGNED 108 false;
            MEM_SIZE_ALIGNED := mkMem MEM_SIZE_ALIGNED MEM_SIZE_ALIGNED true ]} 168 (fun _ => 1).
Definition demo_blocks : list (Z * bool) := [(108, true); (60, true); (10072, false)].

Lemma demo_used_ok : heap_ok demo_used demo_blocks.
Proof.
  split; [|done]. split; [|split; [|split; [done|]]].
  - by repeat split.
  - by eexists.
  - repeat apply Forall_cons_2; [by split..|apply Forall_nil_2].
Qed.

Lemma mem_malloc_first_fit_witness : exists s' l', mem_malloc 30 demo_used = Some (Some 176, s') /\ heap_ok s' l' /\
  apart 0 (live 0 l').
Proof.
  destruct (mem_malloc_first_fit demo_used demo_blocks 30 demo_used_ok ltac:(lia)) as
    [[_ Hno]|(s' & l1 & n & l2 & l' & p & k & a1 & a2 & E & H' & _ & _ & _ & _ & _ & Hap & _)].
  - exfalso. do 2 apply Forall_cons in Hno as [_ Hno]. apply Forall_cons in Hno as [Hno _]. apply Hno. by split.
  - exists s', l'. split; [|by split]. rewrite E. f_equal. f_equal.
    assert (E2 : Some (Some p) = option_map fst (mem_malloc 30 demo_used)) by (by rewrite E). vm_compute in E2. by injection E2 as ->.
Defined.

Lemma mem_free_exact_witness : exists s' l', mem_free (Some 8) demo_used = Some (tt, s') /\ heap_ok s' l' /\
  live 0 l' = [(116, 52)].
Proof.
  destruct (mem_free_exact demo_used demo_blocks 8 100 demo_used_ok) as (s' & l' & a1 & a2 & E & H' & El & El' & _); [by left|].
  exists s', l'. split; [exact E|]. split; [exact H'|]. rewrite El'. vm_compute in El.
  destruct a1 as [|x [|y a1]]; [by injection El as <-|injection El as _ El _; discriminate El|].
  injection El as _ _ El. by destruct a1.
Defined.

Lemma mem_trim_exact_witness : exists s' l' k', mem_trim 8 40 demo_used = Some (Some 8, s') /\ heap_ok s' l' /\ 40 <= k' < 60.
Proof.
  destruct (mem_trim_exact demo_used demo_blocks 8 100 40 demo_used_ok) as
    [[H _]|(s' & l' & a1 & a2 & k' & E & H' & _ & _ & Hk & Hk2 & _)]; [by left|lia| |].
  - exfalso. revert H. by vm_compute.
  - exists s', l', k'. split; [exact E|]. split; [exact H'|]. change (block_size 40) with 40 in *.
    change SIZEOF_STRUCT_MEM with 8 in *. change MIN_SIZE_ALIGNED with 12 in *. lia.
Defined.
