(* ===== verification/Pbuf.v ===== *)
(** * Packet buffers (lwip-2.0.3/src/core/pbuf.c)

    The reference-counted chains that carry every frame of the bootloader.  The
    [struct pbuf]s live in a finite map by address ([pbs]), payload bytes in a memory;
    the allocators (mem.c, memp.c) are the class [PbufAlloc].  A function is undefined
    ([None]) where the C code would use a pointer to no pbuf or not terminate.
    Proved: the chain invariant, and what each operation does to the contents. *)
From stdpp Require Import gmap fin_maps fin_map_dom.
From S2P Require Import Prelude Net.

Inductive pbuf_type := PBUF_RAM | PBUF_ROM | PBUF_REF | PBUF_POOL.
Inductive pbuf_layer := PBUF_TRANSPORT | PBUF_IP | PBUF_LINK | PBUF_RAW_TX | PBUF_RAW.
#[export] Instance pbuf_type_eq_dec : EqDecision pbuf_type.
Proof. solve_decision. Defined.

Definition PBUF_FLAG_IS_CUSTOM : Z := 0x02.
Definition SIZEOF_STRUCT_PBUF : Z := 16.
Definition PBUF_POOL_BUFSIZE_ALIGNED : Z := 1528.

Record pbuf_t := mkPbuf {
  next : option Z;
  payload : Z;
  tot_len : Z;
  len : Z;
  ptype : pbuf_type;
  flags : Z;
  pref : Z
}.

Definition set_next (n : option Z) (b : pbuf_t) : pbuf_t :=
  mkPbuf n (payload b) (tot_len b) (len b) (ptype b) (flags b) (pref b).
Definition set_payload (a : Z) (b : pbuf_t) : pbuf_t :=
  mkPbuf (next b) a (tot_len b) (len b) (ptype b) (flags b) (pref b).
Definition set_lens (t l : Z) (b : pbuf_t) : pbuf_t :=
  mkPbuf (next b) (payload b) t l (ptype b) (flags b) (pref b).
Definition set_ref (r : Z) (b : pbuf_t) : pbuf_t :=
  mkPbuf (next b) (payload b) (tot_len b) (len b) (ptype b) (flags b) r.

#[local] Abbreviation pheap := (gmap Z pbuf_t).

(** [custom_free_function] is called for custom pbufs; [mem_trim] never moves. *)
Class PbufAlloc (A : Type) := {
  memp_malloc_pbuf : M A (option Z);
  memp_malloc_pool : M A (option Z);
  mem_malloc : Z -> M A (option Z);
  memp_free_pbuf : Z -> M A unit;
  memp_free_pool : Z -> M A unit;
  mem_free : Z -> M A unit;
  mem_trim : Z -> Z -> M A unit;
  custom_free : Z -> M A unit
}.

Record pstate (A : Type) := mkPs { pbs : gmap Z pbuf_t; pdata : mem; palloc : A }.
Arguments mkPs {A}. Arguments pbs {A}. Arguments pdata {A}. Arguments palloc {A}.

(** Computations that may be undefined; notations of stdpp ([x ← m; k]). *)
Definition P (A X : Type) : Type := pstate A -> option (X * pstate A).
#[export] Instance P_ret A : MRet (P A) := fun X x s => Some (x, s).
#[export] Instance P_bind A : MBind (P A) := fun X Y k m s =>
  match m s with Some (x, s') => k x s' | None => None end.

(** The space for headers in front of the payload. *)
Definition header_offset (l : pbuf_layer) : Z :=
  match l with
  | PBUF_TRANSPORT => 14 + 20 + 20
  | PBUF_IP => 14 + 20
  | PBUF_LINK => 14
  | PBUF_RAW_TX | PBUF_RAW => 0
  end.

(** ** Reading a chain *)
Section Read.
Implicit Types (h : pheap) (m : mem).

(** The rounds that a loop over a chain can make in a heap without cycles. *)
Definition chain_fuel h : nat := S (size h).

Fixpoint clen_loop (fuel : nat) h (p : option Z) (n : Z) : option Z :=
  match fuel, p with
  | _, None => Some n
  | O, _ => None
  | S fuel, Some a => b ← h !! a; clen_loop fuel h (next b) (u16 (n + 1))
  end.
Definition pbuf_clen h (p : option Z) : option Z := clen_loop (chain_fuel h) h p 0.

(** The bytes copied so far are [out]. *)
Fixpoint copy_partial_loop (fuel : nat) h m (p : option Z) (n off : Z) (out : list Z) : option (list Z) :=
  if n =? 0 then Some out else
  match fuel, p with
  | _, None => Some out
  | O, _ => None
  | S fuel, Some a =>
      b ← h !! a;
      if negb (off =? 0) && (len b <=? off)
      then copy_partial_loop fuel h m (next b) n (u16 (off - len b)) out
      else
        let c := u16 (len b - off) in
        let c := if n <? c then n else c in
        copy_partial_loop fuel h m (next b) (u16 (n - c)) 0
          (out ++ mem_read m (payload b + off) (Z.to_nat c))
  end.
Definition pbuf_copy_partial h m (buf : option Z) (n off : Z) : option (list Z) :=
  match buf with
  | None => Some []
  | Some _ => copy_partial_loop (chain_fuel h) h m buf n off []
  end.

(** The pbuf that holds the offset, and the offset in it. *)
Fixpoint skip_loop (fuel : nat) h (q : option Z) (off : Z) : option (option Z * Z) :=
  match q with
  | None => Some (None, off)
  | Some a =>
      b ← h !! a;
      if len b <=? off then
        match fuel with
        | O => None
        | S fuel => skip_loop fuel h (next b) (u16 (off - len b))
        end
      else Some (Some a, off)
  end.
Definition pbuf_skip h (p : option Z) (off : Z) : option (option Z * Z) := skip_loop (chain_fuel h) h p off.

Definition pbuf_try_get_at h m (p : option Z) (off : Z) : option Z :=
  '(q, i) ← pbuf_skip h p off;
  match q with
  | Some a => b ← h !! a; Some (if i <? len b then m (payload b + i) else -1)
  | None => Some (-1)
  end.
Definition pbuf_get_at h m (p : option Z) (off : Z) : option Z :=
  r ← pbuf_try_get_at h m p off; Some (if 0 <=? r then r else 0).

Definition pbuf_put_at h m (p : option Z) (off data : Z) : option mem :=
  '(q, i) ← pbuf_skip h p off;
  match q with
  | Some a => b ← h !! a; Some (if i <? len b then mem_write m (payload b + i) [u8 data] else m)
  | None => Some m
  end.

(** [n] rounds of the comparison, from index [i] on. *)
Fixpoint memcmp_loop h m (q : option Z) (start i : Z) (s2 : list Z) : option Z :=
  match s2 with
  | [] => Some 0
  | b :: s2' =>
      a ← pbuf_get_at h m q (u16 (start + i));
      if negb (a =? b) then Some (u16 (i + 1)) else memcmp_loop h m q start (u16 (i + 1)) s2'
  end.
Definition pbuf_memcmp h m (p : Z) (off : Z) (s2 : list Z) : option Z :=
  b ← h !! p;
  if tot_len b <? off + Z.of_nat (length s2) then Some 0xffff else
  '(q, start) ← pbuf_skip h (Some p) off;
  memcmp_loop h m q start 0 s2.

Fixpoint memfind_loop (fuel : nat) h m (p : Z) (pat : list Z) (i max : Z) : option Z :=
  if i <=? max then
    match fuel with
    | O => None
    | S fuel =>
        plus ← pbuf_memcmp h m p i pat;
        if plus =? 0 then Some i else memfind_loop fuel h m p pat (u16 (i + 1)) max
    end
  else Some 0xFFFF.
Definition pbuf_memfind h m (p : Z) (pat : list Z) (start : Z) : option Z :=
  b ← h !! p;
  let max := u16 (tot_len b - Z.of_nat (length pat)) in
  if Z.of_nat (length pat) + start <=? tot_len b
  then memfind_loop (Z.to_nat 65536) h m p pat start max
  else Some 0xFFFF.

(** [substr] without its terminator. *)
Definition pbuf_strstr h m (p : Z) (substr : list Z) : option Z :=
  b ← h !! p;
  if (length substr =? 0)%nat || (tot_len b =? 0xFFFF) || (0xFFFF <=? Z.of_nat (length substr))
  then Some 0xFFFF else pbuf_memfind h m p substr 0.

(** Filling a chain: the loop stops when all data is placed. *)
Fixpoint take_loop (fuel : nat) h m (p : option Z) (data : list Z) : option mem :=
  match data with
  | [] => Some m
  | _ =>
      match fuel, p with
      | S fuel, Some a =>
          b ← h !! a;
          let c := if len b <? Z.of_nat (length data) then len b else Z.of_nat (length data) in
          take_loop fuel h (mem_write m (payload b) (take (Z.to_nat c) data)) (next b) (drop (Z.to_nat c) data)
      | _, _ => None
      end
  end.
Definition pbuf_take h m (buf : option Z) (data : list Z) : option (Z * mem) :=
  match buf with
  | None => Some (ERR_ARG, m)
  | Some a =>
      b ← h !! a;
      if negb (Z.of_nat (length data) <=? tot_len b) then Some (ERR_MEM, m)
      else m' ← take_loop (chain_fuel h) h m buf data; Some (ERR_OK, m')
  end.

Definition pbuf_take_at h m (buf : option Z) (data : list Z) (off : Z) : option (Z * mem) :=
  '(q, target) ← pbuf_skip h buf off;
  match q with
  | None => Some (ERR_MEM, m)
  | Some a =>
      b ← h !! a;
      if target + Z.of_nat (length data) <=? tot_len b then
        let c := Z.min (len b - target) (Z.of_nat (length data)) in
        let m := mem_write m (payload b + target) (take (Z.to_nat c) data) in
        match drop (Z.to_nat c) data with
        | [] => Some (ERR_OK, m)
        | rest => pbuf_take h m (next b) rest
        end
      else Some (ERR_MEM, m)
  end.

(** The test [packet queues are not allowed] of [pbuf_copy]. *)
Definition is_queue h (p : option Z) : option bool :=
  match p with
  | None => Some false
  | Some a => b ← h !! a; Some ((len b =? tot_len b) && bool_decide (next b <> None))
  end.

Fixpoint copy_loop (fuel : nat) h m (p_to p_from : option Z) (off_to off_from : Z) : option (Z * mem) :=
  match fuel, p_to, p_from with
  | S fuel, Some at_, Some af =>
      bt ← h !! at_; bf ← h !! af;
      let n := if len bf - off_from <=? len bt - off_to then u16 (len bf - off_from) else u16 (len bt - off_to) in
      let m := mem_write m (payload bt + off_to) (mem_read m (payload bf + off_from) (Z.to_nat n)) in
      let off_to := u16 (off_to + n) in
      let off_from := u16 (off_from + n) in
      let '(p_from, off_from) := if len bf <=? off_from then (next bf, 0) else (p_from, off_from) in
      let '(p_to, off_to) := if off_to =? len bt then (next bt, 0) else (p_to, off_to) in
      if bool_decide (p_to = None) && bool_decide (p_from <> None) then Some (ERR_ARG, m) else
      qf ← is_queue h p_from; if qf : bool then Some (ERR_VAL, m) else
      qt ← is_queue h p_to; if qt : bool then Some (ERR_VAL, m) else
      match p_from with
      | None => Some (ERR_OK, m)
      | Some _ => copy_loop fuel h m p_to p_from off_to off_from
      end
  | _, _, _ => None
  end.
Definition pbuf_copy h m (p_to p_from : option Z) : option (Z * mem) :=
  match p_to, p_from with
  | Some at_, Some af =>
      bt ← h !! at_; bf ← h !! af;
      if tot_len bf <=? tot_len bt then copy_loop (2 * chain_fuel h) h m p_to p_from 0 0
      else Some (ERR_ARG, m)
  | _, _ => Some (ERR_ARG, m)
  end.
End Read.

(** ** Changing a chain *)
Section Change.
Context {A : Type} `{!PbufAlloc A}.
Implicit Types (s : pstate A).

Definition lift {X} (m : M A X) : P A X := fun s =>
  let '(x, a) := m (palloc s) in Some (x, mkPs (pbs s) (pdata s) a).
Definition getp (a : Z) : P A pbuf_t := fun s => b ← pbs s !! a; Some (b, s).
Definition setp (a : Z) (b : pbuf_t) : P A unit := fun s =>
  Some (tt, mkPs (<[a := b]> (pbs s)) (pdata s) (palloc s)).
Definition delp (a : Z) : P A unit := fun s =>
  Some (tt, mkPs (delete a (pbs s)) (pdata s) (palloc s)).
Definition heap : P A pheap := fun s => Some (pbs s, s).
Definition reading {X} (f : pheap -> mem -> option X) : P A X := fun s =>
  x ← f (pbs s) (pdata s); Some (x, s).
Definition writing {X} (f : pheap -> mem -> option (X * mem)) : P A X := fun s =>
  '(x, m) ← f (pbs s) (pdata s); Some (x, mkPs (pbs s) m (palloc s)).
Definition undefined {X} : P A X := fun _ => None.

(** Give a pbuf back to where it came from. *)
Definition dealloc (a : Z) (b : pbuf_t) : P A unit :=
  (if negb (Z.land (flags b) PBUF_FLAG_IS_CUSTOM =? 0) then lift (custom_free a)
   else match ptype b with
        | PBUF_POOL => lift (memp_free_pool a)
        | PBUF_ROM | PBUF_REF => lift (memp_free_pbuf a)
        | PBUF_RAM => lift (mem_free a)
        end);; delp a.

Fixpoint free_loop (fuel : nat) (p : option Z) (count : Z) : P A Z :=
  match p with
  | None => mret count
  | Some a =>
      match fuel with
      | O => undefined
      | S fuel =>
          b ← getp a;
          let ref := u16 (pref b - 1) in
          setp a (set_ref ref b);;
          if ref =? 0 then dealloc a (set_ref ref b);; free_loop fuel (next b) (u8 (count + 1))
          else mret count
      end
  end.
Definition pbuf_free (p : option Z) : P A Z := h ← heap; free_loop (chain_fuel h) p 0.

Definition pbuf_ref (p : option Z) : P A unit :=
  match p with
  | None => mret tt
  | Some a => b ← getp a; setp a (set_ref (u16 (pref b + 1)) b)
  end.

(** The loop [for (p = h; p->next != NULL; p = p->next)]: adds [n] to every total and
    links [t] to the last pbuf. *)
Fixpoint cat_loop (fuel : nat) (p : Z) (t n : Z) : P A unit :=
  b ← getp p;
  match next b with
  | Some q =>
      match fuel with
      | O => undefined
      | S fuel => setp p (set_lens (u16 (tot_len b + n)) (len b) b);; cat_loop fuel q t n
      end
  | None => setp p (set_next (Some t) (set_lens (u16 (tot_len b + n)) (len b) b))
  end.
Definition pbuf_cat (h t : option Z) : P A unit :=
  match h, t with
  | Some h, Some t => bt ← getp t; hp ← heap; cat_loop (chain_fuel hp) h t (tot_len bt)
  | _, _ => mret tt
  end.

Definition pbuf_chain (h t : option Z) : P A unit := pbuf_cat h t;; pbuf_ref t.

Definition pbuf_dechain (p : Z) : P A (option Z) :=
  b ← getp p;
  match next b with
  | None => mret None
  | Some q =>
      bq ← getp q;
      setp q (set_lens (u16 (tot_len b - len b)) (len bq) bq);;
      setp p (set_next None (set_lens (len b) (len b) b));;
      gone ← pbuf_free (Some q);
      mret (if 0 <? gone then None else Some q)
  end.

(** Step over the pbufs that stay; the last one is returned with its new length. *)
Fixpoint realloc_skip (fuel : nat) (q rem grow : Z) : P A (Z * Z) :=
  b ← getp q;
  if len b <? rem then
    match fuel, next b with
    | S fuel, Some q' => setp q (set_lens (u16 (tot_len b + grow)) (len b) b);; realloc_skip fuel q' (u16 (rem - len b)) grow
    | _, _ => undefined
    end
  else mret (q, rem).
Definition pbuf_realloc (p new_len : Z) : P A unit :=
  b ← getp p;
  if tot_len b <=? new_len then mret tt else
  hp ← heap;
  '(q, rem) ← realloc_skip (chain_fuel hp) p new_len (new_len - tot_len b);
  bq ← getp q;
  (match ptype bq with
   | PBUF_RAM =>
       if negb (rem =? len bq) && (Z.land (flags bq) PBUF_FLAG_IS_CUSTOM =? 0)
       then lift (mem_trim q (u16 (u16 (payload bq - q) + rem))) else mret tt
   | _ => mret tt
   end);;
  setp q (set_lens rem rem bq);;
  (match next bq with Some _ => pbuf_free (next bq);; mret tt | None => mret tt end);;
  bq ← getp q;
  setp q (set_next None bq).

(** [force]: reveal bytes in front of a REF or ROM payload.  1 = failure. *)
Definition pbuf_header_impl (p inc : Z) (force : bool) : P A Z :=
  if inc =? 0 then mret 0 else
  b ← getp p;
  if (inc <? 0) && (len b <? - inc) then mret 1 else
  let b' := set_lens (u16 (tot_len b + inc)) (u16 (len b + inc)) (set_payload (payload b - inc) b) in
  match ptype b with
  | PBUF_RAM | PBUF_POOL =>
      if payload b - inc <? p + SIZEOF_STRUCT_PBUF then mret 1 else setp p b';; mret 0
  | PBUF_REF | PBUF_ROM =>
      if ((inc <? 0) && (- inc <=? len b)) || ((0 <? inc) && force) then setp p b';; mret 0
      else mret 1
  end.
Definition pbuf_header (p inc : Z) : P A Z := pbuf_header_impl p inc false.
Definition pbuf_header_force (p inc : Z) : P A Z := pbuf_header_impl p inc true.

(** The rest of a POOL chain, behind [r]. *)
Fixpoint alloc_pool_rest (fuel : nat) (p r rem : Z) : P A (option Z) :=
  if 0 <? rem then
    match fuel with
    | O => undefined
    | S fuel =>
        q ← lift memp_malloc_pool;
        match q with
        | None => pbuf_free (Some p);; mret None
        | Some q =>
            let n := Z.min rem PBUF_POOL_BUFSIZE_ALIGNED in
            br ← getp r;
            setp r (set_next (Some q) br);;
            setp q (mkPbuf None (q + SIZEOF_STRUCT_PBUF) rem n PBUF_POOL 0 1);;
            alloc_pool_rest fuel p q (rem - n)
        end
    end
  else mret (Some p).

Definition pbuf_alloc (layer : pbuf_layer) (length : Z) (type : pbuf_type) : P A (option Z) :=
  let offset := header_offset layer in
  match type with
  | PBUF_POOL =>
      p ← lift memp_malloc_pool;
      match p with
      | None => mret None
      | Some p =>
          let n := Z.min length (PBUF_POOL_BUFSIZE_ALIGNED - LWIP_MEM_ALIGN_SIZE offset) in
          setp p (mkPbuf None (LWIP_MEM_ALIGN_SIZE (p + SIZEOF_STRUCT_PBUF + offset)) length n PBUF_POOL 0 1);;
          r ← alloc_pool_rest (Z.to_nat length) p p (length - n);
          mret r
      end
  | PBUF_RAM =>
      let size := LWIP_MEM_ALIGN_SIZE length in
      let alloc_len := u16 (LWIP_MEM_ALIGN_SIZE (SIZEOF_STRUCT_PBUF + offset) + size) in
      if alloc_len <? size then mret None else
      p ← lift (mem_malloc alloc_len);
      match p with
      | None => mret None
      | Some p =>
          setp p (mkPbuf None (LWIP_MEM_ALIGN_SIZE (p + SIZEOF_STRUCT_PBUF + offset)) length length PBUF_RAM 0 1);;
          mret (Some p)
      end
  | PBUF_ROM | PBUF_REF =>
      p ← lift memp_malloc_pbuf;
      match p with
      | None => mret None
      | Some p => setp p (mkPbuf None 0 length length type 0 1);; mret (Some p)
      end
  end.

(** [payload_mem] = 0 is NULL. *)
Definition pbuf_alloced_custom (l : pbuf_layer) (length : Z) (type : pbuf_type) (p payload_mem mem_len : Z)
  : P A (option Z) :=
  let offset := LWIP_MEM_ALIGN_SIZE (header_offset l) in
  if mem_len <? offset + length then mret None else
  setp p (mkPbuf None (if payload_mem =? 0 then 0 else payload_mem + offset) length length type
                 PBUF_FLAG_IS_CUSTOM 1);;
  mret (Some p).

Definition pbuf_coalesce (p : Z) (layer : pbuf_layer) : P A (option Z) :=
  b ← getp p;
  match next b with
  | None => mret (Some p)
  | Some _ =>
      q ← pbuf_alloc layer (tot_len b) PBUF_RAM;
      match q with
      | None => mret (Some p)
      | Some q =>
          writing (fun h m => pbuf_copy h m (Some q) (Some p));;
          pbuf_free (Some p);;
          mret (Some q)
      end
  end.
End Change.

(** ** Chains and their contents *)
Section Chain.
Implicit Types (h : pheap) (m : mem) (l : list (Z * pbuf_t)) (b : pbuf_t).

Fixpoint chain h (p : option Z) l : Prop :=
  match l with
  | [] => p = None
  | (a, b) :: l' => p = Some a /\ h !! a = Some b /\ chain h (next b) l'
  end.

(** The invariant of pbuf.h: each [tot_len] is the sum of the lengths from there on. *)
Fixpoint sum_len l : Z :=
  match l with [] => 0 | (_, b) :: l' => len b + sum_len l' end.
Fixpoint lens_ok l : Prop :=
  match l with
  | [] => True
  | (_, b) :: l' => 0 <= len b /\ tot_len b = len b + sum_len l' /\ lens_ok l'
  end.
Definition packet h (p : option Z) l : Prop := chain h p l /\ lens_ok l /\ sum_len l < 65536.

Definition body m b : list Z := mem_read m (payload b) (Z.to_nat (len b)).
Definition contents m l : list Z := concat (map (fun x => body m x.2) l).

Lemma chain_func h p l1 l2 : chain h p l1 -> chain h p l2 -> l1 = l2.
Proof.
  revert p l2; induction l1 as [|[a b] l1 IH]; intros p [|[a' b'] l2]; cbn; try done.
  - by intros -> [? _].
  - by intros [-> _] ?.
  - intros (-> & H1 & H2) (E & H3 & H4). injection E as <-. rewrite H1 in H3. injection H3 as <-.
    f_equal. by apply (IH (next b)).
Qed.

Lemma chain_app h p l1 l2 : chain h p (l1 ++ l2) ->
  exists q, chain h q l2 /\ (forall l2', chain h q l2' -> chain h p (l1 ++ l2')).
Proof.
  revert p; induction l1 as [|[a b] l1 IH]; intros p; cbn [app chain].
  - intros H. by exists p.
  - intros (-> & H1 & H2). destruct (IH _ H2) as (q & H3 & H4). exists q. split; [done|].
    intros l2' H. split; [done|]. split; [done|]. by apply H4.
Qed.

Lemma chain_NoDup h p l : chain h p l -> NoDup (map fst l).
Proof.
  revert p; induction l as [|[a b] l IH]; intros p H; cbn; [apply NoDup_nil_2|].
  apply NoDup_cons. pose proof H as (-> & H1 & H2). split; [|by eapply IH].
  intros Hin. apply list_elem_of_fmap in Hin as ([a' b'] & E & Hin). cbn in E. subst a'.
  apply list_elem_of_split in Hin as (l1 & l2 & El). rewrite El in H2.
  apply chain_app in H2 as (q & H3 & H4). pose proof H3 as (Eq & _ & _). subst q.
  pose proof (chain_func _ _ _ _ H H3) as Ef. injection Ef as _ Ef.
  apply (f_equal (@length _)) in Ef. rewrite El, length_app in Ef. cbn in Ef. lia.
Qed.

Lemma chain_lookup h p l a b : chain h p l -> (a, b) ∈ l -> h !! a = Some b.
Proof.
  revert p; induction l as [|[a' b'] l IH]; intros p H Hin; [by apply not_elem_of_nil in Hin|].
  destruct H as (_ & H1 & H2). apply elem_of_cons in Hin as [E|Hin]; [by injection E as -> ->|by eapply IH].
Qed.

(** The fuel of every loop over a chain is enough. *)
Lemma chain_length h p l : chain h p l -> (length l < chain_fuel h)%nat.
Proof.
  intros H. unfold chain_fuel. rewrite <- length_map_to_list. apply Nat.lt_succ_r.
  apply submseteq_length, NoDup_submseteq.
  - apply (NoDup_fmap_1 fst). by eapply chain_NoDup.
  - intros [a b] Hin. apply elem_of_map_to_list. by eapply chain_lookup.
Qed.

(** A heap that agrees on the chain has the chain. *)
Lemma chain_agree h h' p l : chain h p l -> (forall a b, (a, b) ∈ l -> h' !! a = Some b) -> chain h' p l.
Proof.
  revert p; induction l as [|[a b] l IH]; intros p H Ha; [done|].
  destruct H as (-> & H1 & H2). split; [done|]. split; [apply Ha; left|].
  apply IH; [done|]. intros a' b' Hin. apply Ha. by right.
Qed.

Lemma body_length m b : 0 <= len b -> Z.of_nat (length (body m b)) = len b.
Proof. intros H. unfold body. rewrite mem_read_length. lia. Qed.

Lemma sum_len_nonneg l : lens_ok l -> 0 <= sum_len l.
Proof. induction l as [|[a b] l IH]; cbn; [lia|]. intros (H1 & _ & H2). specialize (IH H2). lia. Qed.

Lemma contents_length m l : lens_ok l -> Z.of_nat (length (contents m l)) = sum_len l.
Proof.
  induction l as [|[a b] l IH]; cbn; [done|]. intros (H1 & _ & H2). fold (contents m l) (sum_len l).
  rewrite length_app, Nat2Z.inj_add, body_length, IH by done. done.
Qed.

Lemma packet_cons h p a b l : packet h p ((a, b) :: l) ->
  p = Some a /\ h !! a = Some b /\ packet h (next b) l /\ 0 <= len b < 65536 /\
  tot_len b = len b + sum_len l /\ tot_len b < 65536 /\ 0 <= sum_len l.
Proof.
  intros ((-> & H1 & H2) & (H3 & H4 & H5) & H6). pose proof (sum_len_nonneg l H5).
  cbn in H6. unfold packet. split_and!; try done; lia.
Qed.

Lemma contents_cons m a b l : contents m ((a, b) :: l) = body m b ++ contents m l.
Proof. done. Qed.

(** The part of a payload from an offset on. *)
Lemma body_drop m b o n : 0 <= o -> 0 <= n -> o + n <= len b ->
  mem_read m (payload b + o) (Z.to_nat n) = take (Z.to_nat n) (drop (Z.to_nat o) (body m b)).
Proof.
  intros Ho Hn Hl. unfold body. apply list_eq. intros i.
  destruct (decide (i < Z.to_nat n)%nat) as [Hi|Hi].
  - rewrite mem_read_lookup by done. rewrite lookup_take_lt by done. rewrite lookup_drop.
    rewrite mem_read_lookup by lia. do 2 f_equal. lia.
  - rewrite !lookup_ge_None_2; [done| |rewrite mem_read_length; lia].
    rewrite length_take. lia.
Qed.
End Chain.

(** ** Reading: the functions read the contents *)
Section ReadSpec.
Implicit Types (h : pheap) (m : mem) (l : list (Z * pbuf_t)) (b : pbuf_t) (out : list Z).

Lemma clen_loop_spec fuel h p l n : chain h p l -> (length l < fuel)%nat ->
  clen_loop fuel h p (u16 n) = Some (u16 (n + Z.of_nat (length l))).
Proof.
  revert fuel p n; induction l as [|[a b] l IH]; intros fuel p n H Hf;
    (destruct fuel as [|fuel]; [cbn in Hf; lia|]); cbn in H.
  - subst p. cbn. by rewrite Z.add_0_r.
  - destruct H as (-> & H1 & H2). cbn [clen_loop]. rewrite H1. cbn.
    assert (E : u16 (u16 n + 1) = u16 (n + 1)) by (unfold u16; by rewrite Zplus_mod_idemp_l).
    rewrite E, IH; [|done|cbn in Hf; lia]. f_equal. f_equal. lia.
Qed.

Lemma copy_partial_spec fuel h m p l n off out : packet h p l -> (length l < fuel)%nat ->
  0 <= n < 65536 -> 0 <= off < 65536 ->
  copy_partial_loop fuel h m p n off out =
    Some (out ++ take (Z.to_nat n) (drop (Z.to_nat off) (contents m l))).
Proof.
  revert fuel p n off out; induction l as [|[a b] l IH]; intros fuel p n off out H Hf Hn Ho;
    (destruct fuel as [|fuel]; [cbn in Hf; lia|]); cbn [copy_partial_loop].
  - destruct H as (-> & _). cbn. rewrite drop_nil, take_nil, app_nil_r. by destruct (n =? 0).
  - destruct (Z.eqb_spec n 0) as [->|Hn0]; [by rewrite app_nil_r|].
    apply packet_cons in H as (-> & H1 & H2 & H3 & _). rewrite H1. cbn [mbind option_bind].
    rewrite contents_cons. pose proof (body_length m b ltac:(lia)) as Hb. cbn in Hf.
    destruct (Z.eqb_spec off 0) as [->|Ho0]; cbn [negb andb]; [|destruct (Z.leb_spec (len b) off)].
    2: { rewrite u16_small by lia. rewrite IH by (done || lia). do 2 f_equal.
         rewrite drop_app_ge by lia. f_equal. f_equal. lia. }
    all: rewrite (u16_small (len b - _)) by lia;
      set (c := if n <? _ then _ else _).
    + assert (Hc0 : c = Z.min n (len b)) by (subst c; destruct (Z.ltb_spec n (len b - 0)); lia).
      rewrite (u16_small (n - c)) by lia. rewrite IH by (done || lia). rewrite <- app_assoc. do 2 f_equal.
      rewrite !drop_0, take_app, (body_drop m b 0 c) by lia. rewrite drop_0. f_equal.
      * destruct (decide (n <= len b)); [by rewrite Hc0, Z.min_l by lia|]. by rewrite !take_ge by lia.
      * f_equal. lia.
    + assert (Hc0 : c = Z.min n (len b - off)) by (subst c; destruct (Z.ltb_spec n (len b - off)); lia).
      rewrite (u16_small (n - c)) by lia. rewrite IH by (done || lia). rewrite <- app_assoc. do 2 f_equal.
      rewrite drop_0, drop_app_le, take_app, (body_drop m b off c) by lia. f_equal.
      * destruct (decide (n <= len b - off)); [by rewrite Hc0, Z.min_l by lia|].
        by rewrite !take_ge by (rewrite length_drop; lia).
      * rewrite length_drop. f_equal. lia.
Qed.

(** [pbuf_skip] finds the pbuf of an offset. *)
Lemma skip_loop_spec fuel h p l off : packet h p l -> (length l <= fuel)%nat -> 0 <= off < 65536 ->
  exists q l1 l2, skip_loop fuel h p off = Some (q, off - sum_len l1) /\ l = l1 ++ l2 /\
    packet h q l2 /\ 0 <= sum_len l1 <= off /\
    match l2 with
    | [] => q = None
    | (a, b) :: _ => q = Some a /\ off - sum_len l1 < len b
    end.
Proof.
  revert fuel p off; induction l as [|[a b] l IH]; intros fuel p off H Hf Ho.
  - exists None, [], []. destruct H as (-> & H). split; [destruct fuel; cbn; by rewrite Z.sub_0_r|].
    split; [done|]. split; [done|]. split; [cbn; lia|done].
  - pose proof H as Hp. apply packet_cons in H as (-> & H1 & H2 & H3 & _).
    destruct fuel as [|fuel]; [cbn in Hf; lia|]. cbn [skip_loop]. rewrite H1. cbn [mbind option_bind].
    destruct (Z.leb_spec (len b) off).
    + rewrite u16_small by lia. destruct (IH fuel (next b) (off - len b) H2) as (q & l1 & l2 & E & -> & K & Hs & Hq);
        [cbn in Hf; lia|lia|].
      exists q, ((a, b) :: l1), l2. rewrite E. cbn [sum_len].
      split; [do 2 f_equal; lia|]. split; [done|]. split; [done|]. split; [lia|].
      destruct l2 as [|[a2 b2] l2]; [done|]. destruct Hq as [-> Hq]. split; [done|lia].
    + exists (Some a), [], ((a, b) :: l). cbn [sum_len]. rewrite Z.sub_0_r.
      split; [done|]. split; [done|]. split; [done|]. split; [lia|]. split; [done|lia].
Qed.

Lemma sum_len_app l1 l2 : sum_len (l1 ++ l2) = sum_len l1 + sum_len l2.
Proof. induction l1 as [|[a b] l1 IH]; cbn; [done|]. lia. Qed.

Lemma contents_app m l1 l2 : contents m (l1 ++ l2) = contents m l1 ++ contents m l2.
Proof. unfold contents. by rewrite map_app, concat_app. Qed.

Lemma prefix_length m l1 l2 : lens_ok (l1 ++ l2) -> Z.of_nat (length (contents m l1)) = sum_len l1.
Proof.
  induction l1 as [|[a b] l1 IH]; cbn; [done|]. intros (H1 & _ & H2).
  fold (contents m l1) (sum_len l1). rewrite length_app, Nat2Z.inj_add, body_length, IH by done. lia.
Qed.

Lemma get_at_spec h m p l off : packet h p l -> 0 <= off < 65536 -> (forall x, is_byte (m x)) ->
  pbuf_try_get_at h m p off = Some (default (-1) (contents m l !! Z.to_nat off)) /\
  pbuf_get_at h m p off = Some (default 0 (contents m l !! Z.to_nat off)).
Proof.
  intros H Ho Hm. unfold pbuf_get_at.
  assert (E : pbuf_try_get_at h m p off = Some (default (-1) (contents m l !! Z.to_nat off))).
  { unfold pbuf_try_get_at, pbuf_skip.
    pose proof (chain_length h p l (proj1 H)) as Hl.
    destruct (skip_loop_spec (chain_fuel h) h p l off H ltac:(lia) Ho) as (q & l1 & l2 & -> & -> & K & Hs & Hq).
    cbn [mbind option_bind]. pose proof (prefix_length m l1 l2 (proj1 (proj2 H))) as Hp.
    rewrite contents_app, lookup_app_r by lia.
    destruct l2 as [|[a b] l2]; [by subst q|]. destruct Hq as [-> Hq].
    apply packet_cons in K as (_ & H1 & _ & H3 & _). rewrite H1. cbn [mbind option_bind].
    rewrite (proj2 (Z.ltb_lt _ _)) by lia. rewrite contents_cons.
    rewrite lookup_app_l by (pose proof (body_length m b ltac:(lia)); lia). unfold body.
    rewrite mem_read_lookup by lia. cbn. do 2 f_equal. lia. }
  rewrite E. split; [done|]. cbn [mbind option_bind]. f_equal.
  destruct (contents m l !! Z.to_nat off) as [x|] eqn:Ex; cbn [default from_option id]; [|done].
  assert (Hx : is_byte x).
  { apply list_elem_of_lookup_2 in Ex. unfold contents in Ex.
    apply list_elem_of_In, List.in_concat in Ex as (d & Hd & Hx).
    apply List.in_map_iff in Hd as ([a b] & <- & _). apply list_elem_of_In in Hx. unfold body in Hx. cbn in Hx.
    apply list_elem_of_lookup_1 in Hx as [i Hi].
    destruct (decide (i < Z.to_nat (len b))%nat) as [Hlt|Hge].
    - rewrite mem_read_lookup in Hi by done. injection Hi as <-. apply Hm.
    - rewrite lookup_ge_None_2 in Hi by (rewrite mem_read_length; lia). done. }
  unfold is_byte in Hx. by rewrite (proj2 (Z.leb_le _ _)) by lia.
Qed.
End ReadSpec.

(** ** Searching *)
Section Search.
Implicit Types (h : pheap) (m : mem) (l : list (Z * pbuf_t)).

(** The pattern is at index [i] of the contents. *)
Definition matches (c pat : list Z) (i : nat) : Prop := take (length pat) (drop i c) = pat.

Lemma memcmp_loop_spec h m q l start i s2 : packet h q l -> (forall x, is_byte (m x)) ->
  0 <= start -> 0 <= i -> start + i + Z.of_nat (length s2) <= sum_len l ->
  exists r, memcmp_loop h m q start i s2 = Some r /\
    (r = 0 <-> take (length s2) (drop (Z.to_nat (start + i)) (contents m l)) = s2).
Proof.
  intros H Hm Hs. revert i; induction s2 as [|x s2 IH]; intros i Hi Hl; cbn [memcmp_loop length].
  - exists 0. done.
  - pose proof H as (_ & Hok & Hsum). cbn [length] in Hl. pose proof (contents_length m l Hok) as Hc.
    rewrite (u16_small (start + i)) by lia.
    destruct (get_at_spec h m q l (start + i) H ltac:(lia) Hm) as [_ E]. rewrite E. cbn [mbind option_bind].
    destruct (lookup_lt_is_Some_2 (contents m l) (Z.to_nat (start + i)) ltac:(lia)) as [y Hy].
    rewrite Hy. cbn [default from_option id]. rewrite (drop_S _ _ _ Hy). cbn [take].
    destruct (Z.eqb_spec y x) as [->|Hne]; cbn [negb].
    + rewrite u16_small by lia. destruct (IH (i + 1) ltac:(lia) ltac:(lia)) as (r & Er & Hr).
      exists r. split; [done|]. rewrite Hr. replace (Z.to_nat (start + (i + 1))) with (S (Z.to_nat (start + i))) by lia.
      split; [by intros ->|by intros [= ?]].
    + exists (u16 (i + 1)). split; [done|]. rewrite u16_small by lia. split; [lia|]. by intros [= ?].
Qed.

Lemma memcmp_spec h m p l off s2 : packet h (Some p) l -> (forall x, is_byte (m x)) -> 0 <= off ->
  off + Z.of_nat (length s2) <= sum_len l ->
  exists r, pbuf_memcmp h m p off s2 = Some r /\ (r = 0 <-> matches (contents m l) s2 (Z.to_nat off)).
Proof.
  intros H Hm Ho Hl. pose proof H as (Hch & Hok & Hsum).
  destruct l as [|[a b] l']; [discriminate Hch|]. set (l := (a, b) :: l') in *.
  pose proof (packet_cons h (Some p) a b l' H) as ([= <-] & H1 & _ & _ & H4 & _). unfold pbuf_memcmp. rewrite H1.
  cbn [mbind option_bind]. assert (Ht : tot_len b = sum_len l) by (rewrite H4; done).
  rewrite (proj2 (Z.ltb_ge _ _)) by lia. unfold pbuf_skip.
  destruct (skip_loop_spec (chain_fuel h) h (Some p) l off H) as (q & l1 & l2 & E & El & K & Hs & Hq);
    [apply Nat.lt_le_incl; by eapply chain_length|lia|].
  rewrite E. cbn [mbind option_bind].
  destruct (memcmp_loop_spec h m q l2 (off - sum_len l1) 0 s2 K Hm) as (r & Er & Hr); [lia|lia| |].
  { rewrite El, sum_len_app in Hl. lia. }
  exists r. split; [done|]. rewrite Hr. unfold matches. rewrite El, contents_app.
  assert (Hp : Z.of_nat (length (contents m l1)) = sum_len l1) by (apply (prefix_length m l1 l2); by rewrite <- El).
  rewrite drop_app_ge by lia. by replace (Z.to_nat off - length (contents m l1))%nat with (Z.to_nat (off - sum_len l1 + 0)) by lia.
Qed.

Lemma memfind_loop_spec fuel h m p l pat i : packet h (Some p) l -> (forall x, is_byte (m x)) -> 0 <= i ->
  let mx := sum_len l - Z.of_nat (length pat) in
  mx < 65535 -> mx + 1 - i < Z.of_nat fuel ->
  exists r, memfind_loop fuel h m p pat i mx = Some r /\
    ((r = 0xFFFF /\ forall j, i <= j <= mx -> ~ matches (contents m l) pat (Z.to_nat j)) \/
     (i <= r <= mx /\ matches (contents m l) pat (Z.to_nat r) /\
      forall j, i <= j < r -> ~ matches (contents m l) pat (Z.to_nat j))).
Proof.
  intros H Hm Hi. cbv zeta. set (mx := sum_len l - Z.of_nat (length pat)). intros Hmx. revert i Hi.
  induction fuel as [|fuel IH]; intros i Hi Hf; cbn [memfind_loop]; destruct (Z.leb_spec i mx) as [Hle|Hgt];
    try lia; try (exists 0xFFFF; split; [done|left; split; [done|intros j Hj; lia]]).
  destruct (memcmp_spec h m p l i pat H Hm Hi ltac:(lia)) as (r & E & Hr). rewrite E.
  cbn [mbind option_bind]. destruct (Z.eqb_spec r 0) as [Er|Er].
  - exists i. split; [done|]. right. split; [lia|]. split; [tauto|intros j Hj; lia].
  - rewrite u16_small by lia. destruct (IH (i + 1) ltac:(lia) ltac:(lia)) as (r2 & E2 & Hr2).
    exists r2. split; [done|].
    assert (Hnot : ~ matches (contents m l) pat (Z.to_nat i)) by tauto.
    destruct Hr2 as [[-> Hno]|(H2 & H3 & H4)].
    + left. split; [done|]. intros j Hj. destruct (decide (j = i)) as [->|]; [done|]. apply Hno. lia.
    + right. split; [lia|]. split; [done|]. intros j Hj.
      destruct (decide (j = i)) as [->|]; [done|]. apply H4. lia.
Qed.
End Search.

(** The reading functions agree with the contents of a chain as a byte list: pbuf_clen
    its number of buffers, pbuf_copy_partial any slice, pbuf_get_at and pbuf_try_get_at
    any byte, with the documented value beyond the end. *)
Theorem pbuf_reads_contents h m p l : packet h p l -> (forall x, is_byte (m x)) ->
  pbuf_clen h p = Some (u16 (Z.of_nat (length l))) /\
  (forall n off, 0 <= n < 65536 -> 0 <= off < 65536 ->
     pbuf_copy_partial h m p n off = Some (take (Z.to_nat n) (drop (Z.to_nat off) (contents m l)))) /\
  (forall off, 0 <= off < 65536 ->
     pbuf_try_get_at h m p off = Some (default (-1) (contents m l !! Z.to_nat off)) /\
     pbuf_get_at h m p off = Some (default 0 (contents m l !! Z.to_nat off))).
Proof.
  intros H Hm. pose proof (chain_length h p l (proj1 H)) as Hl. split; [|split].
  - apply (clen_loop_spec _ _ _ _ 0 (proj1 H) Hl).
  - intros n off Hn Ho. unfold pbuf_copy_partial. destruct p as [a|].
    + by apply (copy_partial_spec _ h m (Some a) l n off []).
    + destruct H as (Hc & _). destruct l as [|[a b] l]; [|by destruct Hc].
      cbn. by rewrite drop_nil, take_nil.
  - intros off Ho. by apply get_at_spec.
Qed.

(** pbuf_memfind returns the first position at or after the start offset where the
    pattern occurs in the contents, and 0xFFFF exactly when there is none. *)
Theorem pbuf_memfind_first h m p l pat start : packet h (Some p) l -> (forall x, is_byte (m x)) ->
  sum_len l < 65535 -> 0 <= start ->
  exists r, pbuf_memfind h m p pat start = Some r /\
    ((r = 0xFFFF /\ forall j, start <= j -> j + Z.of_nat (length pat) <= sum_len l ->
                    ~ matches (contents m l) pat (Z.to_nat j)) \/
     (start <= r /\ matches (contents m l) pat (Z.to_nat r) /\
      forall j, start <= j < r -> ~ matches (contents m l) pat (Z.to_nat j))).
Proof.
  intros H Hm Hsum Hs. unfold pbuf_memfind. destruct l as [|[a b] l']; [destruct H as [H _]; discriminate H|].
  set (l := (a, b) :: l') in *.
  pose proof (packet_cons h (Some p) a b l' H) as ([= <-] & H1 & _ & H3 & H4 & _ & H6). rewrite H1.
  cbn [mbind option_bind]. assert (Ht : tot_len b = sum_len l) by (rewrite H4; done). rewrite Ht.
  destruct (Z.leb_spec (Z.of_nat (length pat) + start) (sum_len l)) as [Hle|Hgt].
  - rewrite u16_small by lia.
    destruct (memfind_loop_spec (Z.to_nat 65536) h m p l pat start H Hm Hs) as (r & E & Hr); [lia|lia|].
    exists r. split; [exact E|]. destruct Hr as [[-> Hno]|(H2 & H5 & H7)].
    + left. split; [done|]. intros j Hj1 Hj2. apply Hno. lia.
    + right. split; [lia|]. by split.
  - exists 0xFFFF. split; [done|]. left. split; [done|]. intros j Hj1 Hj2. lia.
Qed.

(** ** Writing into a chain *)
Section WriteSpec.
Implicit Types (h : pheap) (m : mem) (l : list (Z * pbuf_t)) (b : pbuf_t).

Definition inside b (x : Z) : Prop := payload b <= x < payload b + len b.

(** The payloads of a chain do not overlap. *)
Fixpoint disjoint_bufs l : Prop :=
  match l with
  | [] => True
  | (_, b) :: l' => Forall (fun y => forall x, inside b x -> ~ inside y.2 x) l' /\ disjoint_bufs l'
  end.

Lemma body_ext m m' b : 0 <= len b -> (forall x, inside b x -> m' x = m x) -> body m' b = body m b.
Proof. intros Hl H. apply mem_read_ext. intros x Hx. apply H. unfold inside. lia. Qed.

Lemma contents_ext m m' l : lens_ok l -> Forall (fun y => forall x, inside y.2 x -> m' x = m x) l ->
  contents m' l = contents m l.
Proof.
  intros Hok H. induction H as [|[a b] l Hb _ IH]; [done|]. destruct Hok as (H1 & _ & H2).
  rewrite !contents_cons, IH by done. f_equal. by apply body_ext.
Qed.

(** A write at the start of one payload. *)
Lemma body_write m b d : Z.of_nat (length d) <= len b ->
  body (mem_write m (payload b) d) b = d ++ drop (length d) (body m b).
Proof.
  intros H. unfold body. apply list_eq. intros i.
  destruct (decide (i < Z.to_nat (len b))%nat) as [Hi|Hi].
  - rewrite mem_read_lookup by done. destruct (decide (i < length d)%nat) as [Hd|Hd].
    + rewrite lookup_app_l by done. destruct (lookup_lt_is_Some_2 d i Hd) as [x Hx]. rewrite Hx. f_equal.
      by apply mem_write_in.
    + rewrite lookup_app_r, lookup_drop by lia. rewrite mem_read_lookup by lia.
      rewrite mem_write_out by lia. do 2 f_equal. lia.
  - rewrite !lookup_ge_None_2; [done| |rewrite mem_read_length; lia].
    rewrite length_app, length_drop, mem_read_length. lia.
Qed.

Lemma take_loop_spec fuel h m p l data : packet h p l -> disjoint_bufs l -> (length l < fuel)%nat ->
  Z.of_nat (length data) <= sum_len l ->
  exists m', take_loop fuel h m p data = Some m' /\
    contents m' l = data ++ drop (length data) (contents m l) /\
    (forall x, Forall (fun y => ~ inside y.2 x) l -> m' x = m x).
Proof.
  revert fuel m p data; induction l as [|[a b] l IH]; intros fuel m p data H Hd Hf Hl;
    (destruct fuel as [|fuel]; [cbn in Hf; lia|]); destruct data as [|x0 data0].
  - exists m. done.
  - cbn in Hl. lia.
  - exists m. cbn [take_loop length]. by rewrite drop_0.
  - set (data := x0 :: data0) in *. cbn [take_loop]. fold data.
    pose proof H as (_ & Hok & _). apply packet_cons in H as (-> & H1 & H2 & H3 & _ & _ & H6). rewrite H1.
    change (x0 :: data0) with data. cbn [mbind option_bind]. cbn [sum_len] in Hl.
    set (c := if len b <? _ then _ else _).
    assert (Hc : c = Z.min (len b) (Z.of_nat (length data)))
      by (subst c; destruct (Z.ltb_spec (len b) (Z.of_nat (length data))); lia).
    set (m1 := mem_write m (payload b) (take (Z.to_nat c) data)).
    destruct Hd as [Hd1 Hd2].
    assert (Hm1 : forall x, ~ inside b x -> m1 x = m x).
    { intros x Hx. apply mem_write_out. rewrite length_take. unfold inside in Hx. lia. }
    assert (Hlt : length (take (Z.to_nat c) data) = Z.to_nat c) by (rewrite length_take; lia).
    destruct (IH fuel m1 (next b) (drop (Z.to_nat c) data) H2 Hd2) as (m' & E & Hcont & Hfr);
      [cbn in Hf; lia|rewrite length_drop; lia|].
    exists m'. split; [exact E|]. split.
    + rewrite !contents_cons, Hcont.
      assert (Eb : body m' b = body m1 b).
      { apply body_ext; [lia|]. intros x Hx. apply Hfr. eapply Forall_impl; [exact Hd1|]. cbn. auto. }
      assert (El : contents m1 l = contents m l).
      { apply contents_ext; [apply Hok|]. eapply Forall_impl; [exact Hd1|]. cbn. intros y Hy x Hx.
        apply Hm1. intros Hb. by apply (Hy x). }
      rewrite Eb, El. unfold m1. rewrite body_write by lia. rewrite Hlt, length_drop.
      pose proof (body_length m b ltac:(lia)) as Hbl.
      destruct (decide (len b <= Z.of_nat (length data))).
      * assert (Ec : Z.to_nat c = length (body m b)) by lia. rewrite Ec, drop_all, app_nil_r.
        rewrite (drop_app_ge (body m b)) by lia. rewrite (app_assoc (take _ _)), take_drop. done.
      * assert (Ec : Z.to_nat c = length data) by lia. rewrite Ec, drop_all, take_ge by lia.
        rewrite Nat.sub_diag, drop_0. cbn [app]. rewrite drop_app_le by lia. by rewrite app_assoc.
    + intros x Hx. apply Forall_cons in Hx as [Hx Hxl]. rewrite Hfr by done. by apply Hm1.
Qed.
End WriteSpec.

(** pbuf_take overwrites the first bytes of the contents of a chain with the data and
    writes nowhere else; data that does not fit is refused with ERR_MEM and nothing is
    written. *)
Theorem pbuf_take_writes h m p l data : packet h (Some p) l -> disjoint_bufs l ->
  exists r m', pbuf_take h m (Some p) data = Some (r, m') /\
    if decide (Z.of_nat (length data) <= sum_len l)
    then r = ERR_OK /\ contents m' l = data ++ drop (length data) (contents m l) /\
         (forall x, Forall (fun y => ~ inside y.2 x) l -> m' x = m x)
    else r = ERR_MEM /\ m' = m.
Proof.
  intros H Hd. destruct l as [|[a b] l']; [destruct H as [H _]; discriminate H|]. set (l := (a, b) :: l') in *.
  pose proof (packet_cons h (Some p) a b l' H) as ([= <-] & H1 & _ & _ & H4 & _). cbn [pbuf_take]. rewrite H1.
  cbn [mbind option_bind]. assert (Ht : tot_len b = sum_len l) by (rewrite H4; done). rewrite Ht.
  destruct (decide (Z.of_nat (length data) <= sum_len l)) as [Hle|Hgt].
  - rewrite (proj2 (Z.leb_le _ _)) by done. cbn [negb].
    destruct (take_loop_spec (chain_fuel h) h m (Some p) l data H Hd) as (m' & E & H5 & H6);
      [by eapply chain_length, H|done|].
    exists ERR_OK, m'. rewrite E. done.
  - rewrite (proj2 (Z.leb_gt _ _)) by lia. by exists ERR_MEM, m.
Qed.

(** ** Linking, freeing *)
Section ChangeSpec.
Context {A : Type} `{!PbufAlloc A}.
Implicit Types (s : pstate A) (h : pheap) (l : list (Z * pbuf_t)) (b : pbuf_t).

(** The chain after [cat_loop]: totals raised by [n], the last pbuf linked to [t]. *)
Fixpoint raised (n t : Z) l : list (Z * pbuf_t) :=
  match l with
  | [] => []
  | [(a, b)] => [(a, set_next (Some t) (set_lens (tot_len b + n) (len b) b))]
  | (a, b) :: l' => (a, set_lens (tot_len b + n) (len b) b) :: raised n t l'
  end.

Lemma raised_fst n t l : map fst (raised n t l) = map fst l.
Proof. induction l as [|[a b] [|x l] IH]; cbn in *; [done|done|]. by rewrite IH. Qed.

Lemma raised_contents m n t l : contents m (raised n t l) = contents m l.
Proof.
  induction l as [|[a b] [|x l] IH]; [done|done|].
  change (raised n t ((a, b) :: x :: l)) with ((a, set_lens (tot_len b + n) (len b) b) :: raised n t (x :: l)).
  by rewrite !contents_cons, IH.
Qed.

Lemma raised_sum n t l : sum_len (raised n t l) = sum_len l.
Proof.
  induction l as [|[a b] [|x l] IH]; [done|done|].
  change (raised n t ((a, b) :: x :: l)) with ((a, set_lens (tot_len b + n) (len b) b) :: raised n t (x :: l)).
  cbn [sum_len len set_lens]. by rewrite IH.
Qed.

Lemma raised_lens t l l2 : lens_ok l -> lens_ok l2 -> lens_ok (raised (sum_len l2) t l ++ l2).
Proof.
  intros H H2. induction l as [|[a b] [|x l] IH]; [done| |].
  - destruct H as (H3 & H4 & _). cbn in *. split; [done|]. split; [lia|done].
  - change (raised (sum_len l2) t ((a, b) :: x :: l))
      with ((a, set_lens (tot_len b + sum_len l2) (len b) b) :: raised (sum_len l2) t (x :: l)).
    destruct H as (H3 & H4 & H5). cbn [app lens_ok len tot_len set_lens]. split; [done|].
    rewrite sum_len_app, raised_sum. split; [lia|]. by apply IH.
Qed.

(** Only the pbufs of [l] change. *)
Lemma cat_loop_spec fuel s p l t n : chain (pbs s) (Some p) l -> lens_ok l ->
  sum_len l + n < 65536 -> 0 <= n -> (length l <= S fuel)%nat ->
  exists s', cat_loop fuel p t n s = Some (tt, s') /\ pdata s' = pdata s /\ palloc s' = palloc s /\
    (forall l2, chain (pbs s') (Some t) l2 -> chain (pbs s') (Some p) (raised n t l ++ l2)) /\
    (forall a, ~ In a (map fst l) -> pbs s' !! a = pbs s !! a).
Proof.
  revert fuel s p; induction l as [|[a b] l IH]; intros fuel s p H Hok Hs Hn Hf; [discriminate H|].
  pose proof (chain_NoDup _ _ _ H) as Hnd. cbn [map fst] in Hnd. apply NoDup_cons in Hnd as [Hnin Hnd].
  destruct H as ([= ->] & H1 & H2). destruct Hok as (H3 & H4 & H5). pose proof (sum_len_nonneg l H5).
  cbn [sum_len] in Hs.
  destruct l as [|[a2 b2] l].
  - exists (mkPs (<[a := set_next (Some t) (set_lens (tot_len b + n) (len b) b)]> (pbs s)) (pdata s) (palloc s)).
    cbn in H2. cbn [sum_len] in *.
    assert (Eq : cat_loop fuel a t n s =
      Some (tt, mkPs (<[a := set_next (Some t) (set_lens (u16 (tot_len b + n)) (len b) b)]> (pbs s)) (pdata s) (palloc s))).
    { destruct fuel; cbn [cat_loop]; unfold mbind, P_bind, getp; rewrite H1; cbn; rewrite H2; done. }
    rewrite Eq, u16_small by lia. split; [done|]. split; [done|]. split; [done|]. cbn [pbs]. split.
    + intros l2 Hl2. cbn [raised app chain]. split; [done|]. split; [apply lookup_insert_eq|]. done.
    + intros x Hx. apply lookup_insert_ne. intros ->. apply Hx. by left.
  - pose proof H2 as (Enext & _). destruct fuel as [|fuel]; [cbn in Hf; lia|].
    set (s1 := mkPs (<[a := set_lens (tot_len b + n) (len b) b]> (pbs s)) (pdata s) (palloc s)).
    assert (Hs1 : chain (pbs s1) (Some a2) ((a2, b2) :: l)).
    { rewrite <- Enext. eapply chain_agree; [exact H2|]. intros x y Hin. cbn [pbs s1].
      rewrite lookup_insert_ne; [by eapply chain_lookup|]. intros ->. apply Hnin.
      apply list_elem_of_fmap. by exists (x, y). }
    destruct (IH fuel s1 a2 Hs1 H5) as (s' & E & K1 & K2 & K3 & K4); [lia|done|cbn in *; lia|].
    exists s'. split.
    { cbn [cat_loop]. unfold mbind, P_bind, getp. rewrite H1. cbn [mbind option_bind]. rewrite Enext.
      unfold setp. rewrite u16_small by lia. exact E. }
    split; [by rewrite K1|]. split; [by rewrite K2|]. split.
    + intros l2 Hl2. specialize (K3 l2 Hl2).
      change (raised n t ((a, b) :: (a2, b2) :: l)) with ((a, set_lens (tot_len b + n) (len b) b) :: raised n t ((a2, b2) :: l)).
      cbn [app chain]. split; [done|]. split.
      * rewrite K4; [apply lookup_insert_eq|]. intros Hin. apply Hnin. by apply list_elem_of_In.
      * cbn [next set_lens]. by rewrite Enext.
    + intros x Hx. rewrite K4; [|intros Hin; apply Hx; by right].
      cbn [pbs s1]. apply lookup_insert_ne. intros ->. apply Hx. by left.
Qed.

(** *** Freeing *)

(** What memp.c promises for the pool: [pool_list] are its free blocks. *)
Class PbufAllocLaws (A : Type) `{PbufAlloc A} := {
  pool_list : A -> list Z;
  pool_malloc_some a q a' : memp_malloc_pool a = (Some q, a') -> pool_list a ≡ₚ q :: pool_list a';
  pool_malloc_none a a' : memp_malloc_pool a = (None, a') -> pool_list a = [] /\ pool_list a' = [];
  pool_free q a : pool_list (memp_free_pool q a).2 ≡ₚ q :: pool_list a
}.


(** How many pbufs at the head have no other reference. *)
Fixpoint free_count l : nat :=
  match l with
  | [] => 0
  | (_, b) :: l' => if pref b =? 1 then S (free_count l') else 0
  end.

(** The heap after [pbuf_free]: those are gone, the next one has lost a reference. *)
Fixpoint freed_heap h l : gmap Z pbuf_t :=
  match l with
  | [] => h
  | (a, b) :: l' =>
      if pref b =? 1 then freed_heap (delete a h) l' else <[a := set_ref (pref b - 1) b]> h
  end.

Definition refs_ok l : Prop := Forall (fun x => 1 <= pref x.2 < 65536) l.

(** A buffer of the pool, freed by [memp_free]. *)
Definition from_pool b : Prop := ptype b = PBUF_POOL /\ flags b = 0.
Definition all_from_pool l : Prop := Forall (fun x => from_pool x.2) l.

Lemma dealloc_spec a b s : exists al, dealloc a b s = Some (tt, mkPs (delete a (pbs s)) (pdata s) al) /\
  (from_pool b -> forall L : PbufAllocLaws A, pool_list al ≡ₚ a :: pool_list (palloc s)).
Proof.
  unfold dealloc, lift, mbind, P_bind. destruct (decide (from_pool b)) as [[-> ->]|Hn].
  - change (negb (Z.land 0 PBUF_FLAG_IS_CUSTOM =? 0)) with false. cbv iota. exists (memp_free_pool a (palloc s)).2. pose proof (fun L : PbufAllocLaws A => pool_free a (palloc s)) as Hf.
    destruct (memp_free_pool a (palloc s)) as [[] al]. split; [done|]. intros _ L. apply Hf.
  - destruct (negb _); [|destruct (ptype b)];
    (match goal with |- context [let '(_, _) := ?x in _] => destruct x end); eexists; (split; [done|]); by intros ?%Hn.
Qed.

Lemma free_loop_spec fuel s p l n : chain (pbs s) p l -> refs_ok l -> (length l < fuel)%nat ->
  exists al, free_loop fuel p (u8 n) s =
    Some (u8 (n + Z.of_nat (free_count l)), mkPs (freed_heap (pbs s) l) (pdata s) al) /\
  (all_from_pool l -> Forall (fun x => pref x.2 = 1) l ->
   forall L : PbufAllocLaws A, pool_list al ≡ₚ map fst l ++ pool_list (palloc s)).
Proof.
  revert fuel s p n; induction l as [|[a b] l IH]; intros fuel s p n H Hr Hf;
    (destruct fuel as [|fuel]; [cbn in Hf; lia|]); cbn [free_loop].
  - cbn in H. subst p. exists (palloc s). cbn. rewrite Z.add_0_r. split; [by destruct s|done].
  - pose proof (chain_NoDup _ _ _ H) as Hnd. cbn [map fst] in Hnd. apply NoDup_cons in Hnd as [Hnin _].
    destruct H as (-> & H1 & H2). apply Forall_cons in Hr as [Hr1 Hr]. cbn [snd] in Hr1.
    cbn [free_count freed_heap]. unfold mbind, P_bind, getp, setp. rewrite H1. cbn [mbind option_bind].
    rewrite (u16_small (pref b - 1)) by lia.
    destruct (Z.eqb_spec (pref b - 1) 0) as [E|E].
    + rewrite (proj2 (Z.eqb_eq _ _)) by lia. set (s1 := mkPs (<[a := set_ref (pref b - 1) b]> (pbs s)) (pdata s) (palloc s)).
      destruct (dealloc_spec a (set_ref (pref b - 1) b) s1) as (al & Ed & Hal).
      assert (Es : delete a (pbs s1) = delete a (pbs s)) by (cbn; apply delete_insert_eq).
      rewrite Es in Ed.
      set (s2 := mkPs (delete a (pbs s)) (pdata s1) al) in *.
      assert (H2' : chain (pbs s2) (next b) l).
      { eapply chain_agree; [exact H2|]. intros x y Hin. cbn. rewrite lookup_delete_ne.
        - by eapply chain_lookup.
        - intros ->. apply Hnin. apply list_elem_of_fmap. by exists (x, y). }
      destruct (IH fuel s2 (next b) (n + 1) H2' Hr ltac:(cbn in Hf; lia)) as (al' & E' & Hal').
      exists al'. fold s1. rewrite Ed. split.
      2: { intros [Hb Hl]%Forall_cons [_ H1l]%Forall_cons L. rewrite (Hal' Hl H1l L). cbn [palloc s2 map fst].
           rewrite (Hal Hb L). by rewrite <- Permutation_middle. }
      assert (En : u8 (u8 n + 1) = u8 (n + 1)) by (unfold u8; by rewrite Zplus_mod_idemp_l).
      rewrite En, E'. do 2 f_equal. f_equal. lia.
    + rewrite (proj2 (Z.eqb_neq (pref b) 1)) by lia. exists (palloc s). cbn.
      rewrite Z.add_0_r. split; [done|]. intros _ [H1b _]%Forall_cons. cbn in H1b. lia.
Qed.

Lemma free_spec s p l : chain (pbs s) p l -> refs_ok l ->
  exists al, pbuf_free p s =
    Some (u8 (Z.of_nat (free_count l)), mkPs (freed_heap (pbs s) l) (pdata s) al) /\
  (all_from_pool l -> Forall (fun x => pref x.2 = 1) l ->
   forall L : PbufAllocLaws A, pool_list al ≡ₚ map fst l ++ pool_list (palloc s)).
Proof. intros H Hr. apply (free_loop_spec _ s p l 0 H Hr). by eapply chain_length. Qed.
End ChangeSpec.

(** pbuf_cat of two disjoint chains whose lengths fit 16 bits gives one chain that
    satisfies the invariant of the total lengths and whose contents are the
    concatenation. *)
Theorem pbuf_cat_appends {A} `{!PbufAlloc A} (s : pstate A) h t l1 l2 :
  packet (pbs s) (Some h) l1 -> packet (pbs s) (Some t) l2 -> sum_len l1 + sum_len l2 < 65536 ->
  (forall a, In a (map fst l1) -> ~ In a (map fst l2)) ->
  exists s' l, pbuf_cat (Some h) (Some t) s = Some (tt, s') /\ packet (pbs s') (Some h) l /\
    map fst l = map fst l1 ++ map fst l2 /\
    contents (pdata s') l = contents (pdata s) l1 ++ contents (pdata s) l2 /\
    palloc s' = palloc s.
Proof.
  intros H1 H2 Hs Hd. pose proof H1 as (C1 & O1 & _). pose proof H2 as (C2 & O2 & _).
  pose proof (sum_len_nonneg l2 O2) as Hp2. pose proof (sum_len_nonneg l1 O1) as Hp1.
  destruct (cat_loop_spec (chain_fuel (pbs s)) s h l1 t (sum_len l2) C1 O1 Hs Hp2) as (s' & E & K1 & K2 & K3 & K4).
  { pose proof (chain_length _ _ _ C1). lia. }
  exists s', (raised (sum_len l2) t l1 ++ l2). split.
  { destruct l2 as [|[a b] l2]; [discriminate C2|]. pose proof C2 as ([= ->] & Ht & _).
    unfold pbuf_cat, mbind, P_bind, getp, heap. rewrite Ht. cbn [mbind option_bind].
    destruct O2 as (_ & Et & _). rewrite Et. exact E. }
  split.
  - split; [|split].
    + apply K3. eapply chain_agree; [exact C2|]. intros a b Hin. rewrite K4; [by eapply chain_lookup|].
      intros Ha. apply (Hd a Ha). apply list_elem_of_In, list_elem_of_fmap. by exists (a, b).
    + by apply raised_lens.
    + rewrite sum_len_app, raised_sum. lia.
  - split; [by rewrite map_app, raised_fst|]. rewrite contents_app, raised_contents, K1. done.
Qed.

Lemma free_ok {A} `{!PbufAlloc A} (s : pstate A) p l :
  chain (pbs s) p l -> refs_ok l ->
  exists s', pbuf_free p s = Some (u8 (Z.of_nat (free_count l)), s') /\ pdata s' = pdata s /\
    (all_from_pool l -> Forall (fun x => pref x.2 = 1) l ->
     forall L : PbufAllocLaws A, pool_list (palloc s') ≡ₚ map fst l ++ pool_list (palloc s)) /\
    (forall a, In a (map fst (take (free_count l) l)) -> pbs s' !! a = None) /\
    (forall a, ~ In a (map fst l) -> pbs s' !! a = pbs s !! a) /\
    match drop (free_count l) l with
    | [] => True
    | (a, b) :: rest => 1 < pref b /\ chain (pbs s') (Some a) ((a, set_ref (pref b - 1) b) :: rest)
    end.
Proof.
  intros H Hr. destruct (free_spec s p l H Hr) as (al & E & Hal). eexists. split; [exact E|]. cbn [pdata pbs palloc].
  split; [done|]. split; [exact Hal|]. clear E Hal. revert H Hr. generalize (pbs s) as h. intros h. revert p h.
  induction l as [|[a b] l IH]; intros p h H Hr; cbn [free_count freed_heap]; [done|].
  pose proof (chain_NoDup _ _ _ H) as Hnd. cbn [map fst] in Hnd. apply NoDup_cons in Hnd as [Hnin Hnd].
  destruct H as (-> & H1 & H2). apply Forall_cons in Hr as [Hr1 Hr]. cbn [snd] in Hr1.
  assert (Hne : forall x y, (x, y) ∈ l -> x <> a).
  { intros x y Hin ->. apply Hnin. apply list_elem_of_fmap. by exists (a, y). }
  destruct (Z.eqb_spec (pref b) 1) as [E|E].
  - destruct (IH (next b) (delete a h)) as (K1 & K2 & K3); [|done|].
    { eapply chain_agree; [exact H2|]. intros x y Hin. rewrite lookup_delete_ne; [by eapply chain_lookup|].
      intros ->. by apply (Hne x y). }
    split; [|split].
    + intros x [<-|Hx]; [|by apply K1]. cbn [fst]. rewrite K2; [apply lookup_delete_eq|].
      intros Hin. apply Hnin. by apply list_elem_of_In.
    + intros x Hx. rewrite K2 by (intros Hin; apply Hx; by right).
      apply lookup_delete_ne. intros ->. apply Hx. by left.
    + exact K3.
  - split; [done|]. split.
    + intros x Hx. apply lookup_insert_ne. intros ->. apply Hx. by left.
    + cbn [drop]. split; [lia|]. split; [done|]. split; [apply lookup_insert_eq|].
      eapply chain_agree; [exact H2|]. intros x y Hin. rewrite lookup_insert_ne; [by eapply chain_lookup|].
      intros ->. by apply (Hne x y).
Qed.

(** pbuf_free gives back exactly the buffers up to the first one that somebody else
    still references, returns their number, decrements that one's count and leaves the
    rest of the chain intact and every other buffer unchanged; a chain from the pool
    that nobody else holds goes back to the pool completely. *)
Theorem pbuf_free_releases {A} `{!PbufAlloc A} (s : pstate A) p l :
  chain (pbs s) p l -> refs_ok l ->
  exists s', pbuf_free p s = Some (u8 (Z.of_nat (free_count l)), s') /\ pdata s' = pdata s /\
    (all_from_pool l -> Forall (fun x => pref x.2 = 1) l ->
     forall L : PbufAllocLaws A, pool_list (palloc s') ≡ₚ map fst l ++ pool_list (palloc s)) /\
    (forall a, In a (map fst (take (free_count l) l)) -> pbs s' !! a = None) /\
    (forall a, ~ In a (map fst l) -> pbs s' !! a = pbs s !! a) /\
    match drop (free_count l) l with
    | [] => True
    | (a, b) :: rest => 1 < pref b /\ chain (pbs s') (Some a) ((a, set_ref (pref b - 1) b) :: rest)
    end.
Proof. apply free_ok. Qed.

(** ** Shrinking and headers *)
Section ReallocSpec.
Context {A : Type} `{!PbufAlloc A}.
Implicit Types (s : pstate A) (h : pheap) (l : list (Z * pbuf_t)) (b : pbuf_t).

Lemma mem_fst a b l : (a, b) ∈ l -> a ∈ map fst l.
Proof. intros H. apply list_elem_of_fmap. by exists (a, b). Qed.

(** The pbufs [l1] are updated by [g], which keeps the links, and [q] is the new end. *)
Lemma chain_cut h h' p l1 q bq l2 (g : pbuf_t -> pbuf_t) bq' :
  chain h p (l1 ++ (q, bq) :: l2) -> (forall b, next (g b) = next b) ->
  (forall a b, (a, b) ∈ l1 -> h' !! a = Some (g b)) -> h' !! q = Some bq' -> next bq' = None ->
  chain h' p (map (fun x => (x.1, g x.2)) l1 ++ [(q, bq')]).
Proof.
  intros H Hg Ha Hq Hn. revert p H; induction l1 as [|[a b] l1 IH]; intros p H; cbn in *.
  - destruct H as (-> & _). by split_and!.
  - destruct H as (-> & _ & H2). split; [done|]. split; [apply Ha; left|]. rewrite Hg.
    apply IH; [|done]. intros a' b' Hin. apply Ha. by right.
Qed.

Lemma realloc_skip_spec fuel s p l rem : chain (pbs s) (Some p) l -> lens_ok l -> sum_len l < 65536 ->
  0 <= rem <= sum_len l -> (length l <= S fuel)%nat ->
  let grow := rem - sum_len l in
  exists l1 q bq l2 s1, realloc_skip fuel p rem grow s = Some ((q, rem - sum_len l1), s1) /\
    l = l1 ++ (q, bq) :: l2 /\ 0 <= rem - sum_len l1 <= len bq /\ pdata s1 = pdata s /\
    (forall a b, (a, b) ∈ l1 -> pbs s1 !! a = Some (set_lens (tot_len b + grow) (len b) b)) /\
    (forall a, a ∉ map fst l1 -> pbs s1 !! a = pbs s !! a).
Proof.
  cbv zeta. revert fuel s p rem. induction l as [|[a b] l IH]; intros fuel s p rem H Hok Hs Hr Hf; [discriminate H|].
  pose proof (chain_NoDup _ _ _ H) as Hnd. cbn [map fst] in Hnd. apply NoDup_cons in Hnd as [Hnin Hnd].
  destruct H as ([= ->] & H1 & H2). destruct Hok as (H3 & H4 & H5). pose proof (sum_len_nonneg l H5) as Hp.
  cbn [sum_len] in *.
  assert (E : forall X (x : X), realloc_skip fuel a rem (rem - (len b + sum_len l)) s =
    (if len b <? rem then
      match fuel, next b with
      | S fuel, Some q' =>
          realloc_skip fuel q' (u16 (rem - len b)) (rem - (len b + sum_len l))
            (mkPs (<[a := set_lens (u16 (tot_len b + (rem - (len b + sum_len l)))) (len b) b]> (pbs s)) (pdata s) (palloc s))
      | _, _ => None
      end
    else Some ((a, rem), s))).
  { intros _ _. destruct fuel; cbn [realloc_skip]; unfold mbind, P_bind, getp; rewrite H1; cbn [mbind option_bind];
      destruct (len b <? rem); try done; by destruct (next b). }
  rewrite (E unit tt). destruct (Z.ltb_spec (len b) rem) as [Hlt|Hge].
  - destruct l as [|[a2 b2] l]; [cbn [sum_len] in *; lia|]. pose proof H2 as (En & _). rewrite En.
    destruct fuel as [|fuel]; [cbn in Hf; lia|]. rewrite (u16_small (rem - len b)) by lia.
    rewrite (u16_small (tot_len b + _)) by lia.
    set (s1 := mkPs (<[a := _]> (pbs s)) (pdata s) (palloc s)).
    assert (Hs1 : chain (pbs s1) (Some a2) ((a2, b2) :: l)).
    { rewrite <- En. eapply chain_agree; [exact H2|]. intros x y Hin. cbn. rewrite lookup_insert_ne.
      - by eapply chain_lookup.
      - intros ->. apply Hnin. by eapply mem_fst. }
    destruct (IH fuel s1 a2 (rem - len b) Hs1 H5) as (l1 & q & bq & l2 & s2 & Er & El & K1 & K2 & K3 & K4);
      [lia|lia|cbn in *; lia|].
    replace (rem - len b - sum_len ((a2, b2) :: l)) with (rem - (len b + sum_len ((a2, b2) :: l))) in Er, K3 by lia.
    exists ((a, b) :: l1), q, bq, l2, s2. cbn [sum_len map fst app].
    replace (rem - (len b + sum_len l1)) with (rem - len b - sum_len l1) by lia.
    split; [exact Er|]. split; [by rewrite El|]. split; [lia|]. split; [by rewrite K2|]. split.
    + intros x y Hin. apply elem_of_cons in Hin as [[= -> ->]|Hin]; [|by apply K3].
      rewrite K4; [cbn; apply lookup_insert_eq|]. intros Ha. apply Hnin. rewrite El, map_app.
      apply elem_of_app. by left.
    + intros x Hx. apply not_elem_of_cons in Hx as [Hx1 Hx2]. rewrite K4 by done. cbn.
      by apply lookup_insert_ne.
  - exists [], a, b, l, s. cbn [sum_len map app]. rewrite Z.sub_0_r.
    split; [done|]. split; [done|]. split; [lia|]. split; [done|]. split; [|done].
    intros x y Hin. by apply not_elem_of_nil in Hin.
Qed.

Lemma free_heap_other h l a : a ∉ map fst l -> freed_heap h l !! a = h !! a.
Proof.
  revert h; induction l as [|[a' b] l IH]; intros h H; cbn in *; [done|].
  apply not_elem_of_cons in H as [H1 H2]. destruct (pref b =? 1).
  - rewrite IH by done. by apply lookup_delete_ne.
  - by apply lookup_insert_ne.
Qed.

Lemma contents_map m (g : pbuf_t -> pbuf_t) l : (forall b, payload (g b) = payload b /\ len (g b) = len b) ->
  contents m (map (fun x => (x.1, g x.2)) l) = contents m l /\
  sum_len (map (fun x => (x.1, g x.2)) l) = sum_len l.
Proof.
  intros Hg. induction l as [|[a b] l [IH1 IH2]]; [done|]. cbn [map fst snd sum_len]. destruct (Hg b) as [E1 E2].
  rewrite !contents_cons, IH1, IH2, E2. unfold body. by rewrite E1, E2.
Qed.

(** The invariant on the totals after the cut. *)
Lemma lowered_lens l1 q bq l2 rem bq' : lens_ok (l1 ++ (q, bq) :: l2) ->
  0 <= rem - sum_len l1 -> tot_len bq' = rem - sum_len l1 -> len bq' = rem - sum_len l1 ->
  let grow := rem - sum_len (l1 ++ (q, bq) :: l2) in
  lens_ok (map (fun x => (x.1, set_lens (tot_len x.2 + grow) (len x.2) x.2)) l1 ++ [(q, bq')]).
Proof.
  cbv zeta. intros Hok Hr Ht Hl. set (grow := rem - _). revert Hok.
  assert (Hg : forall k, k = sum_len l1 -> k + sum_len ((q, bq) :: l2) + grow = rem).
  { intros k ->. subst grow. rewrite sum_len_app. lia. }
  clearbody grow. assert (Hgen : forall lx done_, sum_len l1 = done_ + sum_len lx -> lens_ok (lx ++ (q, bq) :: l2) ->
    lens_ok (map (fun x => (x.1, set_lens (tot_len x.2 + grow) (len x.2) x.2)) lx ++ [(q, bq')])).
  { intros lx. induction lx as [|[a b] lx IH]; intros dn Hd Hok; cbn [map app lens_ok fst snd].
    - cbn in *. split; [lia|]. split; [lia|done].
    - destruct Hok as (H1 & H2 & H3). cbn [sum_len] in Hd. cbn [len tot_len set_lens]. split; [done|]. split.
      + rewrite H2, !sum_len_app.
        assert (Em : sum_len (map (fun x => (x.1, set_lens (tot_len x.2 + grow) (len x.2) x.2)) lx) = sum_len lx).
        { clear. induction lx as [|[a b] lx IH]; cbn in *; [done|]. by rewrite IH. }
        rewrite Em. cbn [sum_len] in *. specialize (Hg _ eq_refl). lia.
      + apply (IH (dn + len b)); [lia|done]. }
  intros Hok. by apply (Hgen l1 0).
Qed.

(** What [pbuf_realloc] does once the last kept buffer [q] is found. *)
Lemma realloc_run s s1 p n b q bq l2 rem : pbs s !! p = Some b -> n < tot_len b ->
  realloc_skip (chain_fuel (pbs s)) p n (n - tot_len b) s = Some (q, rem, s1) -> pbs s1 !! q = Some bq ->
  let h2 := <[q := set_lens rem rem bq]> (pbs s1) in
  chain h2 (next bq) l2 -> refs_ok l2 -> q ∉ map fst l2 ->
  exists al, pbuf_realloc p n s =
    Some (tt, mkPs (<[q := set_next None (set_lens rem rem bq)]> (freed_heap h2 l2)) (pdata s1) al).
Proof.
  cbv zeta. intros H1 Hgt Er Hq Hc2 Hr2 Hq2. set (h2 := <[q := _]> (pbs s1)) in *.
  unfold pbuf_realloc, mbind, P_bind, getp, heap, setp. rewrite H1. cbn [mbind option_bind].
  rewrite (proj2 (Z.leb_gt _ _)), Er by done. cbn [mbind option_bind]. rewrite Hq. cbn [mbind option_bind].
  assert (Htrim : exists al, (match ptype bq with
     | PBUF_RAM => if negb (rem =? len bq) && (Z.land (flags bq) PBUF_FLAG_IS_CUSTOM =? 0)
                   then lift (mem_trim q (u16 (u16 (payload bq - q) + rem))) else mret (M:=P A) tt
     | _ => mret (M:=P A) tt end) s1 = Some (tt, mkPs (pbs s1) (pdata s1) al)).
  { assert (Hid : mret (M:=P A) tt s1 = Some (tt, mkPs (pbs s1) (pdata s1) (palloc s1))) by by destruct s1.
    destruct (ptype bq); try (by eexists). destruct (_ && _); [|by eexists].
    unfold lift. destruct (mem_trim _ _ _) as [[] al]. by eexists. }
  destruct Htrim as [al0 ->]. cbn [pbs pdata palloc]. fold h2.
  assert (Hq3 : freed_heap h2 l2 !! q = Some (set_lens rem rem bq)).
  { rewrite free_heap_other by done. apply lookup_insert_eq. }
  destruct (next bq) as [x|] eqn:Ex.
  - destruct (free_spec (mkPs h2 (pdata s1) al0) (Some x) l2 Hc2 Hr2) as (al & Ef & _). rewrite Ef.
    exists al. cbn [pbs palloc pdata mret P_ret]. rewrite Hq3. done.
  - destruct l2 as [|[y c] l2]; [|discriminate (proj1 Hc2)]. exists al0. cbn [pbs palloc pdata mret P_ret freed_heap] in *.
    by rewrite Hq3.
Qed.
End ReallocSpec.

(** pbuf_realloc cuts a chain to the first n bytes of its contents, frees the buffers
    behind, and keeps the invariant of the lengths; other buffers do not change. *)
Theorem pbuf_realloc_shrinks {A} `{!PbufAlloc A} (s : pstate A) p l n :
  packet (pbs s) (Some p) l -> refs_ok l -> 0 <= n < 65536 ->
  exists s' l', pbuf_realloc p n s = Some (tt, s') /\ packet (pbs s') (Some p) l' /\
    pdata s' = pdata s /\ contents (pdata s') l' = take (Z.to_nat n) (contents (pdata s) l) /\
    (forall a, a ∉ map fst l -> pbs s' !! a = pbs s !! a).
Proof.
  intros H Hr Hn. pose proof H as (Hc & Hok & Hsum). destruct l as [|[a b] l']; [discriminate Hc|].
  set (l := (a, b) :: l') in *.
  pose proof (packet_cons _ _ _ _ _ H) as ([= <-] & H1 & _ & _ & H4 & _).
  assert (Ht : tot_len b = sum_len l) by (rewrite H4; done).
  destruct (Z.leb_spec (tot_len b) n) as [Hle|Hgt].
  { exists s, l. split; [unfold pbuf_realloc, mbind, P_bind, getp; rewrite H1; cbn [mbind option_bind];
      by rewrite (proj2 (Z.leb_le _ _))|].
    split; [done|]. split; [done|]. split; [|done].
    rewrite take_ge; [done|]. pose proof (contents_length (pdata s) l Hok). lia. }
  destruct (realloc_skip_spec (chain_fuel (pbs s)) s p l n Hc Hok Hsum ltac:(lia)) as
    (l1 & q & bq & l2 & s1 & Er & El & K1 & K2 & K3 & K4).
  { pose proof (chain_length _ _ _ Hc). lia. }
  pose proof (chain_NoDup _ _ _ Hc) as Hnd. rewrite El, map_app in Hnd. cbn [map fst] in Hnd.
  apply NoDup_app in Hnd as (Hnd1 & Hdis & Hnd2). apply NoDup_cons in Hnd2 as [Hq2 Hnd2].
  assert (Hq1 : q ∉ map fst l1) by (intros Hin; apply (Hdis q Hin); left).
  set (rem := n - sum_len l1) in *.
  assert (Hq : pbs s1 !! q = Some bq).
  { rewrite K4 by done. eapply chain_lookup; [exact Hc|]. rewrite El. apply elem_of_app. right. left. }
  destruct (chain_app (pbs s) (Some p) l1 ((q, bq) :: l2)) as (q' & (-> & _ & Hc2) & _); [by rewrite <- El|].
  set (h2 := <[q := set_lens rem rem bq]> (pbs s1)).
  assert (Hc2' : chain h2 (next bq) l2).
  { eapply chain_agree; [exact Hc2|]. intros x y Hin. unfold h2. rewrite lookup_insert_ne.
    - rewrite K4; [by eapply chain_lookup|]. intros Hx. apply (Hdis x Hx). right. by eapply mem_fst.
    - intros ->. apply Hq2. by eapply mem_fst. }
  assert (Hr2 : refs_ok l2).
  { unfold refs_ok in *. rewrite El in Hr. apply Forall_app in Hr as [_ Hr]. by apply Forall_cons in Hr as [_ ?]. }
  set (h3 := freed_heap h2 l2).
  assert (Hh3 : forall x, x ∉ map fst l2 -> h3 !! x = h2 !! x) by (intros; by apply free_heap_other).
  set (bq' := set_next None (set_lens rem rem bq)).
  assert (Er' : realloc_skip (chain_fuel (pbs s)) p n (n - tot_len b) s = Some (q, rem, s1)) by (by rewrite Ht, Er).
  destruct (realloc_run s s1 p n b q bq l2 rem H1 Hgt Er' Hq Hc2' Hr2 Hq2) as [al Hrun].
  fold h2 h3 bq' in Hrun. rewrite K2 in Hrun. exists (mkPs (<[q := bq']> h3) (pdata s) al).
  set (g := fun x => set_lens (tot_len x + (n - sum_len l)) (len x) x).
  exists (map (fun x => (x.1, g x.2)) l1 ++ [(q, bq')]).
  split; [exact Hrun|]. cbn [pbs pdata]. destruct (contents_map (pdata s) g l1 ltac:(done)) as [Ec Es].
  split; [split; [|split]|split; [done|split]].
  - apply (chain_cut (pbs s) _ (Some p) l1 q bq l2); [by rewrite <- El|done| |apply lookup_insert_eq|done].
    intros x y Hin. assert (Hx : x ∈ map fst l1) by (by eapply mem_fst).
    assert (x <> q) by (intros ->; done).
    rewrite lookup_insert_ne by done. rewrite Hh3 by (intros Hx2; apply (Hdis x Hx); by right).
    unfold h2. rewrite lookup_insert_ne by done. by apply K3.
  - unfold g. rewrite El. apply lowered_lens; [by rewrite <- El|unfold rem in K1; lia|done|done].
  - rewrite sum_len_app, Es. cbn. lia.
  - rewrite contents_app, Ec, El, contents_app, !contents_cons.
    pose proof (prefix_length (pdata s) l1 ((q, bq) :: l2) ltac:(by rewrite <- El)) as Hp1.
    rewrite take_app, take_ge by lia. f_equal. unfold contents at 1. cbn [map concat]. rewrite app_nil_r.
    rewrite take_app_le by (pose proof (body_length (pdata s) bq ltac:(lia)); lia).
    pose proof (body_drop (pdata s) bq 0 rem ltac:(lia) ltac:(lia) ltac:(lia)) as Hb.
    rewrite Z.add_0_r, drop_0 in Hb. replace (Z.to_nat n - length (contents (pdata s) l1))%nat with (Z.to_nat rem) by lia.
    exact Hb.
  - intros x Hx. rewrite El, map_app in Hx. apply not_elem_of_app in Hx as [Hx1 Hx2].
    cbn [map fst] in Hx2. apply not_elem_of_cons in Hx2 as [Hx2 Hx3].
    rewrite lookup_insert_ne by done. rewrite Hh3 by done. unfold h2. rewrite lookup_insert_ne by done. by apply K4.
Qed.

(** ** Headers *)
Definition in_ram (b : pbuf_t) : Prop := ptype b = PBUF_RAM \/ ptype b = PBUF_POOL.
#[export] Instance in_ram_dec b : Decision (in_ram b) := _.

Lemma contents_drop_header m (a : Z) b k l : 0 <= k <= len b ->
  contents m ((a, set_lens (tot_len b - k) (len b - k) (set_payload (payload b + k) b)) :: l) =
  drop (Z.to_nat k) (contents m ((a, b) :: l)).
Proof.
  intros Hk. rewrite !contents_cons. pose proof (body_length m b ltac:(lia)) as Hb.
  rewrite drop_app_le by lia. f_equal. unfold body at 1. cbn [payload len set_lens set_payload].
  rewrite (body_drop m b k (len b - k)) by lia. apply take_ge. rewrite length_drop. lia.
Qed.

(** Hiding a header with pbuf_header and revealing it again restores the pbuf exactly;
    in between the contents lack the header. For PBUF_REF and PBUF_ROM only
    pbuf_header_force may reveal it again. *)
Theorem pbuf_header_roundtrip {A} `{!PbufAlloc A} (s : pstate A) p b l k :
  packet (pbs s) (Some p) ((p, b) :: l) -> 0 < k <= len b ->
  (in_ram b -> p + SIZEOF_STRUCT_PBUF <= payload b) ->
  exists s' b', pbuf_header p (- k) s = Some (0, s') /\
    packet (pbs s') (Some p) ((p, b') :: l) /\ pdata s' = pdata s /\
    contents (pdata s') ((p, b') :: l) = drop (Z.to_nat k) (contents (pdata s) ((p, b) :: l)) /\
    pbuf_header_force p k s' = Some (0, s) /\
    pbuf_header p k s' = (if decide (in_ram b) then Some (0, s) else Some (1, s')).
Proof.
  intros H Hk Hp. pose proof (chain_NoDup _ _ _ (proj1 H)) as Hnd. cbn [map fst] in Hnd.
  apply NoDup_cons in Hnd as [Hnin _].
  destruct (packet_cons _ _ _ _ _ H) as (_ & H1 & (H2 & H2o & H2s) & H3 & H4 & H5 & H6).
  set (b' := set_lens (tot_len b - k) (len b - k) (set_payload (payload b + k) b)).
  exists (mkPs (<[p := b']> (pbs s)) (pdata s) (palloc s)), b'.
  unfold pbuf_header, pbuf_header_force, pbuf_header_impl, mbind, P_bind, getp, setp.
  rewrite (proj2 (Z.eqb_neq (- k) 0)), (proj2 (Z.eqb_neq k 0)) by lia.
  cbn [pbs pdata palloc]. rewrite lookup_insert_eq, H1. cbn [mbind option_bind mret P_ret].
  rewrite (proj2 (Z.ltb_lt (- k) 0)), (proj2 (Z.ltb_ge (len b) (- - k))), (proj2 (Z.ltb_ge k 0)),
    (proj2 (Z.leb_le (- - k) (len b))), (proj2 (Z.ltb_lt 0 k)) by lia. cbn [andb orb].
  replace (tot_len b + - k) with (tot_len b - k) by lia.
  replace (len b + - k) with (len b - k) by lia. replace (payload b - - k) with (payload b + k) by lia.
  rewrite (u16_small (tot_len b - k)), (u16_small (len b - k)) by lia. fold b'. subst b'.
  cbn [tot_len len payload ptype set_lens set_payload next flags pref].
  replace (tot_len b - k + k) with (tot_len b) by lia. replace (len b - k + k) with (len b) by lia.
  replace (payload b + k - k) with (payload b) by lia. rewrite !u16_small by lia.
  assert (Eb : set_lens (tot_len b) (len b) (set_payload (payload b)
    (set_lens (tot_len b - k) (len b - k) (set_payload (payload b + k) b))) = b) by by destruct b.
  rewrite Eb. assert (Es : forall x : Z, Some (x, mkPs (<[p:=b]> (<[p:=set_lens (tot_len b - k) (len b - k)
    (set_payload (payload b + k) b)]> (pbs s))) (pdata s) (palloc s)) = Some (x, s))
    by (intros x; rewrite insert_insert_eq, insert_id by done; by destruct s).
  assert (Hin : p + SIZEOF_STRUCT_PBUF <= payload b \/ (ptype b = PBUF_REF \/ ptype b = PBUF_ROM))
    by (unfold in_ram in Hp; destruct (ptype b); auto).
  split; [|split; [|split; [done|split; [by apply contents_drop_header; lia|]]]].
  - destruct (ptype b); try done; rewrite (proj2 (Z.ltb_ge _ _)); [done| |done|]; destruct Hin as [|[|]]; (lia || done).
  - split; [|split].
    + split; [done|]. split; [apply lookup_insert_eq|]. cbn. eapply chain_agree; [exact H2|].
      intros x y Hin'. rewrite lookup_insert_ne; [by eapply chain_lookup|]. intros ->. apply Hnin. by eapply mem_fst.
    + cbn. split; [lia|]. split; [lia|done].
    + cbn in *. lia.
  - case_decide as Hd; unfold in_ram in Hd; destruct (ptype b);
      try (exfalso; destruct Hd; discriminate); try (exfalso; apply Hd; auto; fail);
      rewrite ?(proj2 (Z.ltb_ge (payload b) _)) by (destruct Hin as [|[|]]; (lia || done));
      (split; [apply Es|]); apply Es || done.
Qed.

(** ** Allocation from the pool *)
Section AllocSpec.
Context {A : Type} `{!PbufAlloc A, !PbufAllocLaws A}.
Implicit Types (s : pstate A) (l t : list (Z * pbuf_t)).

(** The free blocks of the pool are aligned, differ, and are not in use. *)
Definition owned (X : gset Z) (a : A) : Prop :=
  NoDup (pool_list a) /\ Forall (fun q => q mod MEM_ALIGNMENT = 0) (pool_list a) /\
  (forall q, q ∈ pool_list a -> q ∉ X).

Lemma owned_perm X a a' : pool_list a ≡ₚ pool_list a' -> owned X a -> owned X a'.
Proof.
  intros Hp (H1 & H2 & H3). split; [by rewrite <- Hp|]. split; [by rewrite <- Hp|]. intros q Hq. apply H3. by rewrite Hp.
Qed.

Lemma pool_fresh X a q a' : owned X a -> memp_malloc_pool a = (Some q, a') ->
  (q ∉ X) /\ q mod MEM_ALIGNMENT = 0 /\ owned ({[q]} ∪ X) a'.
Proof.
  intros (H1 & H2 & H3) E%pool_malloc_some. rewrite E in H1, H2. apply NoDup_cons in H1 as [H1 H1']. apply Forall_cons in H2 as [H2 H2'].
  split; [apply H3; rewrite E; left|]. split; [done|]. split; [done|]. split; [done|]. intros x Hx.
  rewrite not_elem_of_union, not_elem_of_singleton. split; [by intros ->|]. apply H3. rewrite E. by right.
Qed.

Lemma align_bounds x : x <= LWIP_MEM_ALIGN_SIZE x < x + MEM_ALIGNMENT.
Proof. unfold LWIP_MEM_ALIGN_SIZE, MEM_ALIGNMENT. Z.to_euclidean_division_equations. lia. Qed.

Lemma align_add x k : x mod MEM_ALIGNMENT = 0 -> LWIP_MEM_ALIGN_SIZE (x + k) = x + LWIP_MEM_ALIGN_SIZE k.
Proof. unfold LWIP_MEM_ALIGN_SIZE, MEM_ALIGNMENT. Z.to_euclidean_division_equations. lia. Qed.

Lemma header_offset_align layer : 0 <= header_offset layer <= LWIP_MEM_ALIGN_SIZE (header_offset layer) /\
  LWIP_MEM_ALIGN_SIZE (header_offset layer) <= 56.
Proof. by destruct layer. Qed.

(** Linking a fresh buffer behind the last one. *)
Lemma chain_snoc (h : gmap Z pbuf_t) p l r br q bq : chain h p (l ++ [(r, br)]) -> h !! q = None -> next bq = None ->
  chain (<[q := bq]> (<[r := set_next (Some q) br]> h)) p ((l ++ [(r, set_next (Some q) br)]) ++ [(q, bq)]).
Proof.
  intros H Hq Hb. revert p H. induction l as [|[a b] l IH]; intros p H.
  - destruct H as (-> & H1 & _). cbn. assert (r <> q) by congruence.
    rewrite lookup_insert_ne, !lookup_insert_eq by done. done.
  - pose proof (chain_NoDup _ _ _ H) as Hnd. destruct H as (-> & H1 & H2).
    cbn [app map fst] in Hnd. apply NoDup_cons in Hnd as [Hnin _].
    assert (a <> q) by congruence. assert (a <> r).
    { intros ->. apply Hnin. rewrite map_app. apply elem_of_app. right. left. }
    cbn [app chain]. rewrite !lookup_insert_ne by done. split; [done|]. split; [done|]. by apply IH.
Qed.

(** The buffers [alloc_pool_rest] adds for [rem] bytes. *)
Fixpoint pool_tail (rem : Z) t : Prop :=
  match t with
  | [] => rem <= 0
  | (q, b) :: t' =>
      let n := Z.min rem PBUF_POOL_BUFSIZE_ALIGNED in
      0 < rem /\ payload b = q + SIZEOF_STRUCT_PBUF /\ tot_len b = rem /\ len b = n /\
      ptype b = PBUF_POOL /\ flags b = 0 /\ pref b = 1 /\ pool_tail (rem - n) t'
  end.

Definition refs_one l : Prop := Forall (fun x => pref x.2 = 1) l.
Definition plain l : Prop := all_from_pool l /\ refs_one l.

Lemma plain_app l1 l2 : plain (l1 ++ l2) <-> plain l1 /\ plain l2.
Proof. unfold plain, all_from_pool, refs_one. rewrite !Forall_app. tauto. Qed.

Lemma refs_one_ok l : refs_one l -> refs_ok l.
Proof. intros H. eapply Forall_impl; [exact H|]. cbn. intros x ->. lia. Qed.

Lemma freed_all h l a : chain h (fst <$> head l) l -> refs_one l -> a ∈ map fst l -> freed_heap h l !! a = None.
Proof.
  revert h; induction l as [|[x b] l IH]; intros h H Hr Ha; [by apply not_elem_of_nil in Ha|].
  pose proof (chain_NoDup _ _ _ H) as Hnd. cbn [map fst] in Hnd. apply NoDup_cons in Hnd as [Hnin _].
  apply Forall_cons in Hr as [Hb Hr]. cbn in Hb. cbn [freed_heap]. rewrite Hb, Z.eqb_refl.
  apply elem_of_cons in Ha as [->|Ha]; [rewrite free_heap_other by done; apply lookup_delete_eq|].
  apply IH; [|done..]. destruct H as (_ & _ & H2). assert (next b = fst <$> head l) as <-.
  { destruct l as [|[y c] l]; [by apply not_elem_of_nil in Ha|by destruct H2]. }
  eapply chain_agree; [exact H2|]. intros y c Hin. rewrite lookup_delete_ne; [by eapply chain_lookup|].
  intros ->. apply Hnin. by eapply mem_fst.
Qed.

Lemma alloc_fail s p l : chain (pbs s) (Some p) l -> plain l ->
  exists s', (pbuf_free (Some p) ≫= fun _ => mret (M:=P A) (@None Z)) s = Some (None, s') /\ pdata s' = pdata s /\
    (forall a, a ∈ map fst l -> pbs s' !! a = None) /\ (forall a, a ∉ map fst l -> pbs s' !! a = pbs s !! a) /\
    pool_list (palloc s') ≡ₚ map fst l ++ pool_list (palloc s).
Proof.
  intros H [Hp Hr]. destruct (free_spec s (Some p) l H (refs_one_ok _ Hr)) as (al & E & Hal).
  exists (mkPs (freed_heap (pbs s) l) (pdata s) al). unfold mbind, P_bind. rewrite E. split; [done|].
  split; [done|]. split; [|split; [intros; by apply free_heap_other|by apply Hal]].
  intros a Ha. apply freed_all; [|done..]. destruct l as [|[x b] l]; [by apply not_elem_of_nil in Ha|].
  pose proof H as ([= <-] & _). exact H.
Qed.

Lemma alloc_rest_step fuel s p r br rem q a' : 0 < rem -> pbs s !! r = Some br ->
  memp_malloc_pool (palloc s) = (Some q, a') -> let n := Z.min rem PBUF_POOL_BUFSIZE_ALIGNED in
  alloc_pool_rest (S fuel) p r rem s = alloc_pool_rest fuel p q (rem - n)
    (mkPs (<[q := mkPbuf None (q + SIZEOF_STRUCT_PBUF) rem n PBUF_POOL 0 1]> (<[r := set_next (Some q) br]> (pbs s)))
          (pdata s) a').
Proof.
  intros Hrem Hbr Em n. cbn [alloc_pool_rest]. rewrite (proj2 (Z.ltb_lt _ _)) by done.
  unfold mbind, P_bind, lift, getp, setp. rewrite Em. cbn [pbs pdata palloc]. by rewrite Hbr.
Qed.

Lemma alloc_rest_none fuel s p r rem a' : 0 < rem -> memp_malloc_pool (palloc s) = (None, a') ->
  alloc_pool_rest (S fuel) p r rem s =
  (pbuf_free (Some p) ≫= fun _ => mret (M:=P A) (@None Z)) (mkPs (pbs s) (pdata s) a').
Proof.
  intros Hrem Em. cbn [alloc_pool_rest]. rewrite (proj2 (Z.ltb_lt _ _)) by done.
  unfold mbind, P_bind, lift. by rewrite Em.
Qed.

(** Addresses after one more buffer [q] is linked behind [r]. *)
Lemma linked_elsewhere (h : gmap Z pbuf_t) l r br br' q bq t : h !! q = None ->
  (forall a, (a ∈ map fst ((l ++ [(r, br')]) ++ [(q, bq)])) <-> (a ∈ map fst (l ++ [(r, br)])) \/ a = q) /\
  (forall a, a ∉ map fst (l ++ (r, br) :: (q, bq) :: t) ->
     (a ∉ map fst ((l ++ [(r, br')]) ++ (q, bq) :: t)) /\
     (<[q := bq]> (<[r := br']> h) !! a) = h !! a) /\
  (forall a, a ∉ map fst (l ++ [(r, br)]) -> a <> q -> <[q := bq]> (<[r := br']> h) !! a = h !! a).
Proof.
  intros Hq. split; [|split]; intros a; rewrite !map_app; cbn [map fst].
  - rewrite !elem_of_app, !elem_of_cons. split; [|tauto]. intros [?|[->|Hx]]; [tauto|tauto|by apply not_elem_of_nil in Hx].
  - rewrite !not_elem_of_app, !not_elem_of_cons. intros (H1 & H2 & H3 & H4). rewrite !lookup_insert_ne by done.
    repeat split; try done. apply not_elem_of_nil.
  - rewrite not_elem_of_app, not_elem_of_cons. intros (_ & H2 & _) ?. by rewrite !lookup_insert_ne by done.
Qed.

Lemma alloc_pool_rest_spec fuel s p l r br rem : chain (pbs s) (Some p) (l ++ [(r, br)]) -> next br = None ->
  plain (l ++ [(r, br)]) -> owned (dom (pbs s)) (palloc s) -> rem <= Z.of_nat fuel ->
  exists s', pdata s' = pdata s /\
    ((alloc_pool_rest fuel p r rem s = Some (None, s') /\
      (forall a, a ∈ map fst (l ++ [(r, br)]) -> pbs s' !! a = None) /\
      (forall a, a ∉ map fst (l ++ [(r, br)]) -> pbs s' !! a = pbs s !! a) /\
      pool_list (palloc s') ≡ₚ map fst (l ++ [(r, br)]) ++ pool_list (palloc s) /\
      Z.of_nat (length (pool_list (palloc s))) * PBUF_POOL_BUFSIZE_ALIGNED < rem) \/
     (exists n t, alloc_pool_rest fuel p r rem s = Some (Some p, s') /\
      chain (pbs s') (Some p) (l ++ (r, set_next n br) :: t) /\ pool_tail rem t /\
      (forall a, a ∈ map fst t -> pbs s !! a = None) /\
      (forall a, a ∉ map fst (l ++ (r, br) :: t) -> pbs s' !! a = pbs s !! a) /\
      owned (dom (pbs s')) (palloc s') /\ pool_list (palloc s) ≡ₚ map fst t ++ pool_list (palloc s'))).
Proof.
  revert s l r br rem; induction fuel as [|fuel IH]; intros s l r br rem Hc Hn Hr Ho Hf;
    destruct (Z.ltb_spec 0 rem) as [Hrem|Hrem]; try lia.
  1,3: exists s; split; [done|]; right; exists None, [];
    (split; [cbn [alloc_pool_rest]; by rewrite (proj2 (Z.ltb_ge _ _))|]);
    (split; [replace (set_next None br) with br by (destruct br; cbn in *; by subst); done|]);
    (split; [done|]); (split; [by intros a ?%not_elem_of_nil|]); done.
  assert (Hbr : pbs s !! r = Some br) by (eapply chain_lookup; [exact Hc|]; apply elem_of_app; right; left).
  destruct (memp_malloc_pool (palloc s)) as [[q|] a'] eqn:Em.
  2: { rewrite (alloc_rest_none _ _ _ _ _ _ Hrem Em).
       destruct (alloc_fail (mkPs (pbs s) (pdata s) a') p (l ++ [(r, br)]) Hc Hr) as (s' & E & Hd & K1 & K2 & K3).
       exists s'. split; [exact Hd|]. left. split; [exact E|]. split; [done|]. split; [done|].
       destruct (pool_malloc_none _ _ Em) as [-> En]. cbn [palloc] in K3. rewrite K3, En. by split. }
  rewrite (alloc_rest_step _ _ _ _ _ _ _ _ Hrem Hbr Em).
  destruct (pool_fresh _ _ _ _ Ho Em) as (Hq & _ & Ho'). apply not_elem_of_dom in Hq.
  set (n := Z.min rem _). set (bq := mkPbuf None (q + SIZEOF_STRUCT_PBUF) rem n PBUF_POOL 0 1).
  set (s1 := mkPs (<[q := bq]> (<[r := set_next (Some q) br]> (pbs s))) (pdata s) a').
  destruct (linked_elsewhere (pbs s) l r br (set_next (Some q) br) q bq [] Hq) as (L1 & _ & L3).
  destruct (IH s1 (l ++ [(r, set_next (Some q) br)]) q bq (rem - n)) as (s' & Hd & Hcase).
  - by apply chain_snoc.
  - done.
  - apply plain_app in Hr as [Hr1 [Hr2 Hr3]]. apply Forall_cons in Hr2 as [Hr2 _]. apply Forall_cons in Hr3 as [Hr3 _].
    rewrite !plain_app. split; [split; [done|]|]; (split; (apply Forall_cons_2; [done|apply Forall_nil_2])).
  - cbn. rewrite !dom_insert_L, (subseteq_union_1_L {[r]}) by (apply singleton_subseteq_l, elem_of_dom; by eexists).
    exact Ho'.
  - subst n. unfold PBUF_POOL_BUFSIZE_ALIGNED in *. lia.
  - exists s'. split; [exact Hd|]. destruct Hcase as [(E & K1 & K2 & K6 & K7)|(nx & t & E & K1 & K2 & K3 & K4 & K5 & K6)].
    + left. split; [exact E|]. split; [|split].
      * intros a Ha. apply K1, L1. by left.
      * intros a Ha. destruct (decide (a = q)) as [->|Hq']; [rewrite K1, Hq by (apply L1; by right); done|].
        rewrite K2; [by apply L3|]. rewrite L1. tauto.
      * pose proof (pool_malloc_some _ _ _ Em) as Eq. cbn [palloc s1] in *. split.
        -- rewrite K6, Eq, !map_app. cbn [map fst]. by rewrite <- !app_assoc.
        -- rewrite (Permutation_length Eq). cbn [length]. unfold PBUF_POOL_BUFSIZE_ALIGNED in *. lia.
    + right. exists (Some q), ((q, set_next nx bq) :: t). split; [exact E|]. rewrite <- app_assoc in K1.
      split; [exact K1|]. split; [cbn; fold n; done|]. split; [|split; [|split; [exact K5|]]].
      * intros a [->|Ha]%elem_of_cons; [done|]. specialize (K3 a Ha). cbn in K3.
        destruct (decide (a = q)) as [->|]; [done|]. rewrite lookup_insert_ne in K3 by done.
        destruct (decide (a = r)) as [->|]; [by rewrite lookup_insert_eq in K3|by rewrite lookup_insert_ne in K3].
      * intros a Ha. destruct (linked_elsewhere (pbs s) l r br (set_next (Some q) br) q bq t Hq) as (_ & L2 & _).
        destruct (L2 a) as [L2a L2b].
        { intros Hin. apply Ha. rewrite !map_app in *. exact Hin. }
        rewrite <- L2b. apply K4. exact L2a.
      * rewrite (pool_malloc_some _ _ _ Em). cbn [palloc s1 map fst app] in *. by rewrite K6.
Qed.

(** The payload lies within the pool block and nobody else holds a reference. *)
Definition in_block (x : Z * pbuf_t) : Prop :=
  x.1 + SIZEOF_STRUCT_PBUF <= payload x.2 /\ 0 <= len x.2 /\
  payload x.2 + len x.2 <= x.1 + SIZEOF_STRUCT_PBUF + PBUF_POOL_BUFSIZE_ALIGNED /\
  ptype x.2 = PBUF_POOL /\ flags x.2 = 0 /\ pref x.2 = 1.

Lemma pool_tail_ok rem t : 0 <= rem -> pool_tail rem t ->
  lens_ok t /\ sum_len t = rem /\ Forall in_block t.
Proof.
  revert rem; induction t as [|[q b] t IH]; intros rem H0 H; cbn in H.
  - split; [done|]. split; [cbn; lia|apply Forall_nil_2].
  - destruct H as (Hr & Hp & Ht & Hl & Hy & Hg & Hf & H). apply IH in H as (K1 & K2 & K3); [|lia].
    cbn [lens_ok sum_len]. rewrite K2, Ht, Hl. unfold PBUF_POOL_BUFSIZE_ALIGNED, SIZEOF_STRUCT_PBUF in *.
    split; [split; [lia|split; [lia|done]]|]. split; [lia|]. apply Forall_cons_2; [|done].
    unfold in_block, PBUF_POOL_BUFSIZE_ALIGNED, SIZEOF_STRUCT_PBUF. cbn. lia || (split_and!; lia || done).
Qed.
End AllocSpec.

Lemma alloc_pool_ok {A} `{!PbufAlloc A, !PbufAllocLaws A} (s : pstate A) layer n :
  owned (dom (pbs s)) (palloc s) -> 0 <= n < 65536 ->
  exists s', pdata s' = pdata s /\
    ((pbuf_alloc layer n PBUF_POOL s = Some (None, s') /\ pbs s' = pbs s /\
      pool_list (palloc s') ≡ₚ pool_list (palloc s) /\
      (pool_list (palloc s) = [] \/
       Z.of_nat (length (pool_list (palloc s))) * PBUF_POOL_BUFSIZE_ALIGNED <
         n + LWIP_MEM_ALIGN_SIZE (header_offset layer))) \/
     (exists p b t, pbuf_alloc layer n PBUF_POOL s = Some (Some p, s') /\
      packet (pbs s') (Some p) ((p, b) :: t) /\ sum_len ((p, b) :: t) = n /\
      p + SIZEOF_STRUCT_PBUF + header_offset layer <= payload b /\ Forall in_block ((p, b) :: t) /\
      Forall (fun x => pbs s !! x.1 = None) ((p, b) :: t) /\
      (forall a, ~ In a (map fst ((p, b) :: t)) -> pbs s' !! a = pbs s !! a) /\
      owned (dom (pbs s')) (palloc s') /\
      pool_list (palloc s) ≡ₚ map fst ((p, b) :: t) ++ pool_list (palloc s'))).
Proof.
  intros Ho Hn. unfold pbuf_alloc, mbind, P_bind, lift, setp.
  destruct (memp_malloc_pool (palloc s)) as [[p|] a'] eqn:Em.
  2: { exists (mkPs (pbs s) (pdata s) a'). split; [done|]. left. split; [done|]. split; [done|].
       destruct (pool_malloc_none _ _ Em) as [En En']. cbn [palloc]. rewrite En, En'. split; [done|by left]. }
  destruct (pool_fresh _ _ _ _ Ho Em) as (Hp & Ha & Ho'). apply not_elem_of_dom in Hp.
  pose proof (header_offset_align layer) as Hoff. cbn [pbs pdata palloc].
  rewrite <- Z.add_assoc, (align_add p) by done.
  replace (LWIP_MEM_ALIGN_SIZE (SIZEOF_STRUCT_PBUF + header_offset layer))
    with (SIZEOF_STRUCT_PBUF + LWIP_MEM_ALIGN_SIZE (header_offset layer)) by (by destruct layer).
  set (off := LWIP_MEM_ALIGN_SIZE (header_offset layer)) in *.
  set (l1 := Z.min n (PBUF_POOL_BUFSIZE_ALIGNED - off)).
  set (b := mkPbuf None (p + (SIZEOF_STRUCT_PBUF + off)) n l1 PBUF_POOL 0 1).
  assert (Hl1 : 0 <= l1 <= n /\ l1 + off <= PBUF_POOL_BUFSIZE_ALIGNED).
  { subst l1. unfold PBUF_POOL_BUFSIZE_ALIGNED. lia. }
  destruct (alloc_pool_rest_spec (Z.to_nat n) (mkPs (<[p := b]> (pbs s)) (pdata s) a') p [] p b (n - l1)) as (s' & Hd & Hcase).
  - cbn. by rewrite lookup_insert_eq.
  - done.
  - split; (apply Forall_cons_2; [done|apply Forall_nil_2]).
  - cbn. by rewrite dom_insert_L.
  - lia.
  - exists s'. split; [exact Hd|]. destruct Hcase as [(E & K1 & K2 & K6 & K7)|(nx & t & E & K1 & K2 & K3 & K4 & K5 & K6)].
    + left. rewrite E. split; [done|]. cbn [palloc] in K7. pose proof (pool_malloc_some _ _ _ Em) as Eq.
      split; [|split; [by rewrite Eq, K6|right; rewrite (Permutation_length Eq); cbn [length];
        unfold PBUF_POOL_BUFSIZE_ALIGNED in *; lia]].
      apply map_eq. intros a. destruct (decide (a = p)) as [->|Hne].
      * rewrite K1, Hp by left. done.
      * rewrite K2; [cbn; by rewrite lookup_insert_ne|]. cbn. rewrite not_elem_of_cons. split; [done|apply not_elem_of_nil].
    + right. exists p, (set_next nx b), t. rewrite E. destruct (pool_tail_ok (n - l1) t ltac:(lia) K2) as (T1 & T2 & T3).
      cbn in K1, K3. assert (Hs : sum_len ((p, set_next nx b) :: t) = n) by (cbn [sum_len]; rewrite T2; cbn; lia).
      split; [done|]. split; [split; [exact K1|]; split; [|lia]|split; [exact Hs|]].
      * split; [cbn; lia|]. split; [cbn; lia|exact T1].
      * split; [cbn [payload set_next b]; lia|]. split; [|split; [|split; [|split; [exact K5|]]]].
        -- apply Forall_cons_2; [|exact T3]. unfold in_block, b. cbn [fst snd payload len ptype pref set_next].
           split_and!; try done; lia.
        -- apply Forall_cons_2; [done|]. apply Forall_forall. intros [a c] Hin. cbn.
           specialize (K3 a ltac:(by eapply mem_fst)). destruct (decide (a = p)) as [->|]; [done|].
           by rewrite lookup_insert_ne in K3.
        -- intros a Hin. rewrite K4 by (rewrite list_elem_of_In; exact Hin).
           cbn. rewrite lookup_insert_ne; [done|]. intros ->. apply Hin. by left.
        -- rewrite (pool_malloc_some _ _ _ Em). cbn [map fst app]. by rewrite K6.
Qed.

(** pbuf_alloc from the pool is all or nothing: it returns NULL with every buffer it
    took given back, or a chain of fresh buffers whose lengths add up to the request,
    with room for the headers of the layer, every payload inside its pool block and
    reference counts of one; no other buffer changes, and the pool's free blocks shrink
    by exactly the chain. *)
Theorem pbuf_alloc_pool {A} `{!PbufAlloc A, !PbufAllocLaws A} (s : pstate A) layer n :
  owned (dom (pbs s)) (palloc s) -> 0 <= n < 65536 ->
  exists s', pdata s' = pdata s /\
    ((pbuf_alloc layer n PBUF_POOL s = Some (None, s') /\ pbs s' = pbs s /\
      pool_list (palloc s') ≡ₚ pool_list (palloc s) /\
      (pool_list (palloc s) = [] \/
       Z.of_nat (length (pool_list (palloc s))) * PBUF_POOL_BUFSIZE_ALIGNED <
         n + LWIP_MEM_ALIGN_SIZE (header_offset layer))) \/
     (exists p b t, pbuf_alloc layer n PBUF_POOL s = Some (Some p, s') /\
      packet (pbs s') (Some p) ((p, b) :: t) /\ sum_len ((p, b) :: t) = n /\
      p + SIZEOF_STRUCT_PBUF + header_offset layer <= payload b /\ Forall in_block ((p, b) :: t) /\
      Forall (fun x => pbs s !! x.1 = None) ((p, b) :: t) /\
      (forall a, ~ In a (map fst ((p, b) :: t)) -> pbs s' !! a = pbs s !! a) /\
      owned (dom (pbs s')) (palloc s') /\
      pool_list (palloc s) ≡ₚ map fst ((p, b) :: t) ++ pool_list (palloc s'))).
Proof. apply alloc_pool_ok. Qed.


(** ** Witnesses *)
(** An allocator with a list of free 2 KB blocks; the rest comes from nowhere. *)
#[local] Instance demo_alloc : PbufAlloc (list Z) := {
  memp_malloc_pbuf := fun a => (None, a);
  memp_malloc_pool := fun a => match a with [] => (None, a) | q :: a' => (Some q, a') end;
  mem_malloc := fun _ a => (None, a);
  memp_free_pbuf := fun _ a => (tt, a);
  memp_free_pool := fun p a => (tt, p :: a);
  mem_free := fun _ a => (tt, a);
  mem_trim := fun _ _ a => (tt, a);
  custom_free := fun _ a => (tt, a)
}.
#[local] Instance demo_alloc_laws : PbufAllocLaws (list Z).
Proof.
  refine {| pool_list := id |}.
  - by intros [|x a] q a' [= -> ->].
  - by intros [|x a] a' [= <-].
  - done.
Defined.

Definition demo_b1 := mkPbuf (Some 4096) 2064 5 3 PBUF_POOL 0 1.
Definition demo_b2 := mkPbuf None 4112 2 2 PBUF_POOL 0 1.
Definition demo_c1 := mkPbuf None 9000 4 4 PBUF_ROM 0 2.
Definition demo_chain : list (Z * pbuf_t) := [(2048, demo_b1); (4096, demo_b2)].
Definition demo_tail : list (Z * pbuf_t) := [(8192, demo_c1)].
Definition demo_bytes : mem := fun x => x mod 256.
Definition demo_state : pstate (list Z) :=
  mkPs (list_to_map (demo_chain ++ demo_tail)) demo_bytes [16384; 20480; 24576].

Lemma demo_bytes_ok x : is_byte (demo_bytes x).
Proof. apply Z.mod_pos_bound. lia. Qed.

Lemma demo_packet : packet (pbs demo_state) (Some 2048) demo_chain.
Proof. repeat split; by vm_compute. Qed.
Lemma demo_packet_tail : packet (pbs demo_state) (Some 8192) demo_tail.
Proof. repeat split; by vm_compute. Qed.
Lemma demo_refs : refs_ok demo_chain.
Proof. repeat (apply Forall_cons_2; [split; by vm_compute|]). apply Forall_nil_2. Qed.

Lemma pbuf_alloc_pool_witness : exists (s' : pstate (list Z)) p l,
  pbuf_alloc PBUF_RAW 3000 PBUF_POOL demo_state = Some (Some p, s') /\ packet (pbs s') (Some p) l /\ sum_len l = 3000.
Proof.
  destruct (pbuf_alloc_pool demo_state PBUF_RAW 3000) as (s' & Hd & H).
  - split; [apply (bool_decide_unpack _); by vm_compute|]. split; [apply (bool_decide_unpack _); by vm_compute|].
    intros x Hx Hin. unfold demo_state in Hin. cbn [pbs] in Hin. rewrite dom_list_to_map_L in Hin.
    apply elem_of_list_to_set, list_elem_of_In in Hin. cbn in Hx. apply list_elem_of_In in Hx.
    destruct Hin as [<-|[<-|[<-|[]]]]; by repeat destruct Hx as [Hx|Hx].
  - lia.
  - destruct H as [[E _]|(p & b & t & E & Hp & Hs & _)]; [|by exists s', p, ((p, b) :: t)].
    exfalso. apply (f_equal (option_map fst)) in E. vm_compute in E. discriminate E.
Defined.

Lemma pbuf_reads_contents_witness :
  pbuf_copy_partial (pbs demo_state) demo_bytes (Some 2048) 3 1 = Some [17; 18; 16] /\
  pbuf_get_at (pbs demo_state) demo_bytes (Some 2048) 4 = Some 17.
Proof.
  destruct (pbuf_reads_contents (pbs demo_state) demo_bytes (Some 2048) demo_chain demo_packet demo_bytes_ok)
    as (_ & H1 & H2).
  split; [rewrite H1 by lia; reflexivity|]. destruct (H2 4 ltac:(lia)) as [_ ->]. reflexivity.
Defined.

Lemma pbuf_memfind_first_witness : exists r, pbuf_memfind (pbs demo_state) demo_bytes 2048 [18; 16] 0 = Some r /\ r = 2.
Proof.
  destruct (pbuf_memfind_first (pbs demo_state) demo_bytes 2048 demo_chain [18; 16] 0 demo_packet demo_bytes_ok
    ltac:(by vm_compute) ltac:(lia)) as (r & E & _).
  exists r. split; [exact E|]. assert (E' : Some 2 = Some r) by (rewrite <- E; reflexivity). by injection E'.
Defined.

Lemma pbuf_take_writes_witness : exists r m',
  pbuf_take (pbs demo_state) demo_bytes (Some 2048) [1; 2; 3; 4] = Some (r, m') /\ r = ERR_OK /\
  contents m' demo_chain = [1; 2; 3; 4; 17].
Proof.
  destruct (pbuf_take_writes (pbs demo_state) demo_bytes 2048 demo_chain [1; 2; 3; 4] demo_packet) as (r & m' & E & H).
  - repeat split; repeat first [apply Forall_nil_2 | apply Forall_cons_2]; cbn; unfold inside; cbn; lia.
  - exists r, m'. split; [exact E|]. rewrite decide_True in H by (by vm_compute). by destruct H as (-> & -> & _).
Defined.

Lemma pbuf_cat_appends_witness : exists s' l,
  pbuf_cat (Some 2048) (Some 8192) demo_state = Some (tt, s') /\ packet (pbs s') (Some 2048) l /\
  contents (pdata s') l = [16; 17; 18; 16; 17; 40; 41; 42; 43].
Proof.
  destruct (pbuf_cat_appends demo_state 2048 8192 demo_chain demo_tail demo_packet demo_packet_tail) as
    (s' & l & H1 & H2 & _ & H3 & _); [by vm_compute| |].
  - intros a [<-|[<-|[]]] [[=]|[]].
  - by exists s', l.
Defined.

Lemma pbuf_free_releases_witness : exists s',
  pbuf_free (Some 2048) demo_state = Some (2, s') /\ pbs s' !! 2048 = None /\ pbs s' !! 4096 = None.
Proof.
  destruct (pbuf_free_releases demo_state (Some 2048) demo_chain (proj1 demo_packet) demo_refs) as (s' & H1 & _ & _ & H2 & _).
  exists s'. split; [exact H1|]. split; apply H2; cbn; auto.
Defined.

Lemma pbuf_realloc_shrinks_witness : exists s' l',
  pbuf_realloc 2048 2 demo_state = Some (tt, s') /\ packet (pbs s') (Some 2048) l' /\
  contents (pdata s') l' = [16; 17].
Proof.
  destruct (pbuf_realloc_shrinks demo_state 2048 demo_chain 2 demo_packet demo_refs ltac:(lia)) as
    (s' & l' & H1 & H2 & _ & H3 & _).
  exists s', l'. split; [exact H1|]. split; [exact H2|]. rewrite H3. reflexivity.
Defined.

Lemma pbuf_header_roundtrip_witness : exists s',
  pbuf_header 2048 (-2) demo_state = Some (0, s') /\ pbuf_header 2048 2 s' = Some (0, demo_state).
Proof.
  destruct (pbuf_header_roundtrip demo_state 2048 demo_b1 [(4096, demo_b2)] 2 demo_packet ltac:(by vm_compute)) as
    (s' & b' & H1 & _ & _ & _ & _ & H2); [intros; by vm_compute|].
  exists s'. split; [exact H1|]. rewrite H2. reflexivity.
Defined.
