(* ===== verification/PbufCopy.v ===== *)
(** * Copying a chain into one pbuf

    [pbuf_alloc] from the heap, [pbuf_copy] into the one pbuf that it gives, and
    [pbuf_coalesce], which does both (core/pbuf.c; the functions are in Pbuf.v). *)
From stdpp Require Import gmap.
From S2P Require Import Prelude Net Pbuf.

(** ** Writing inside a list *)
Definition patch (o : Z) (d l : list Z) : list Z := take (Z.to_nat o) l ++ d ++ drop (Z.to_nat o + length d) l.

Lemma patch_length o d l : 0 <= o -> o + slen d <= slen l -> slen (patch o d l) = slen l.
Proof. unfold patch, slen. intros H1 H2. rewrite !length_app, length_take, length_drop. lia. Qed.
Lemma patch_left o d a b : 0 <= o -> o + slen d <= slen a -> patch o d (a ++ b) = patch o d a ++ b.
Proof.
  unfold patch, slen. intros H1 H2. rewrite take_app_le, drop_app_le by lia. by rewrite <- !app_assoc.
Qed.
Lemma patch_right o d a b : 0 <= o -> patch (slen a + o) d (a ++ b) = a ++ patch o d b.
Proof.
  unfold patch, slen. intros H. replace (Z.to_nat (Z.of_nat (length a) + o)) with (length a + Z.to_nat o)%nat by lia.
  rewrite take_app_add', <- Nat.add_assoc, drop_app_add' by done. by rewrite <- app_assoc.
Qed.
Lemma patch_all d l : length d = length l -> patch 0 d l = d.
Proof. intros H. unfold patch. rewrite Z2Nat.inj_0, Nat.add_0_l, H, drop_all. apply app_nil_r. Qed.

Lemma read_patch m a o d n : 0 <= o -> o + slen d <= Z.of_nat n ->
  mem_read (mem_write m (a + o) d) a n = patch o d (mem_read m a n).
Proof.
  unfold slen. intros Ho Hn. unfold patch.
  replace n with (Z.to_nat o + (length d + (n - Z.to_nat o - length d)))%nat by lia.
  rewrite !mem_read_app, take_app_length', <- drop_drop, drop_app_length', drop_app_length' by (rewrite mem_read_length; lia).
  rewrite !Z2Nat.id by lia. f_equal; [|f_equal].
  - apply mem_read_ext. intros x Hx. apply mem_write_out. lia.
  - apply mem_write_read_same.
  - apply mem_read_ext. intros x Hx. apply mem_write_out. lia.
Qed.

(** ** The copy *)
Section Copy.
Implicit Types (h : gmap Z pbuf_t) (m : mem) (l : list (Z * pbuf_t)) (b : pbuf_t).

(** Behind the first pbuf none is empty. *)
Definition filled l : Prop := Forall (fun x => 0 < len x.2) l.
(** The chain has no byte in a range. *)
Definition clear_of lo n l : Prop := Forall (fun y => forall x, inside y.2 x -> ~ (lo <= x < lo + n)) l.

Lemma filled_sum l : filled l -> l <> [] -> 0 < sum_len l.
Proof.
  intros H. induction H as [|[a b] l Hb H IH]; [done|]. intros _. cbn [sum_len fst snd] in *.
  destruct l as [|x l]; [cbn; lia|]. specialize (IH ltac:(done)). lia.
Qed.
(** Not the last pbuf of a packet with more behind. *)
Lemma no_queue h p l : packet h p l -> filled (drop 1 l) -> is_queue h p = Some false.
Proof.
  destruct l as [|[a b] l]; intros H Hf; [by destruct H as [-> _]|]. apply packet_cons in H as (-> & Eb & Hp & _ & Et & _).
  cbn [is_queue]. rewrite Eb. cbn [mbind option_bind]. f_equal. rewrite Et. change (drop 1 ((a, b) :: l)) with l in Hf. destruct Hp as (Hc & _).
  destruct l as [|x l].
  - cbn in Hc. rewrite Hc, bool_decide_eq_false_2 by (intros []; done). apply andb_false_r.
  - pose proof (filled_sum _ Hf ltac:(done)). destruct (Z.eqb_spec (len b) (len b + sum_len (x :: l))); [lia|done].
Qed.

Lemma write_twice m a d e x : mem_write (mem_write m a d) (a + slen d) e x = mem_write m a (d ++ e) x.
Proof.
  unfold slen. unfold mem_write at 1 3. destruct (decide (a <= x)) as [H|H].
  - destruct (decide (a + Z.of_nat (length d) <= x)) as [H2|H2].
    + rewrite lookup_app_r by lia. replace (Z.to_nat (x - a) - length d)%nat with (Z.to_nat (x - (a + Z.of_nat (length d)))) by lia.
      destruct (e !! _); [done|]. cbn. rewrite mem_write_out by lia. done.
    + rewrite lookup_app_l by lia. unfold mem_write. by rewrite decide_True.
  - rewrite decide_False by lia. apply mem_write_out. lia.
Qed.
Lemma mem_write_ext m m' a d x : m x = m' x -> mem_write m a d x = mem_write m' a d x.
Proof. intros H. unfold mem_write. case_decide; [by rewrite H|done]. Qed.

(** The source is not touched. *)
Lemma clear_contents m lo n d l : lens_ok l -> clear_of lo n l -> slen d <= n ->
  contents (mem_write m lo d) l = contents m l.
Proof.
  intros Hl Hc Hd. apply contents_ext; [done|]. eapply Forall_impl; [exact Hc|]. intros y Hy x Hx.
  apply mem_write_out. unfold slen in Hd. specialize (Hy x Hx). lia.
Qed.
Lemma clear_less lo n lo' n' l : clear_of lo n l -> lo <= lo' -> lo' + n' <= lo + n -> clear_of lo' n' l.
Proof. intros H H1 H2. eapply Forall_impl; [exact H|]. intros y Hy x Hx. specialize (Hy x Hx). lia. Qed.

(** One round copies a whole pbuf behind what is there already. *)
Lemma copy_loop_spec fuel h m r br p l off : packet h (Some r) [(r, br)] ->
  packet h p l -> l <> [] -> filled (drop 1 l) -> (length l <= fuel)%nat -> 0 <= off -> off + sum_len l <= len br ->
  clear_of (payload br) (len br) l ->
  exists m', copy_loop fuel h m (Some r) p off 0 = Some (ERR_OK, m') /\
    forall x, m' x = mem_write m (payload br + off) (contents m l) x.
Proof.
  intros Hr. pose proof Hr as Hr'. apply packet_cons in Hr' as (_ & Er & _ & Hlr & _).
  revert fuel m p off. induction l as [|[a b] l IH]; intros fuel m p off Hp Hne Hf Hn Ho Hs Hc; [done|].
  destruct fuel as [|fuel]; [cbn in Hn; lia|]. pose proof Hp as (_ & Hok & _).
  apply packet_cons in Hp as (-> & Eb & Hp & Hl & Et & Ht & Hsl). cbn [sum_len] in Hs.
  apply Forall_cons in Hc as [Hb Hc]. change (drop 1 ((a, b) :: l)) with l in Hf.
  cbn [copy_loop]. rewrite Er, Eb. cbn [mbind option_bind]. rewrite !Z.sub_0_r, Z.add_0_r.
  rewrite (proj2 (Z.leb_le (len b) (len br - off))) by lia. rewrite !(u16_small (len b)), Z.add_0_l, (u16_small (len b)) by lia.
  rewrite (u16_small (off + len b)) by lia. rewrite (proj2 (Z.leb_le (len b) (len b))) by lia. fold (body m b).
  set (m1 := mem_write m (payload br + off) (body m b)).
  assert (Bl : slen (body m b) = len b) by (apply body_length; lia).
  assert (Hok' : lens_ok l) by apply Hok.
  assert (E1 : contents m1 l = contents m l).
  { apply (clear_contents m _ (len b) _ l Hok'); [|lia]. eapply clear_less; [exact Hc|lia..]. }
  assert (Q2 : is_queue h (Some r) = Some false) by (apply (no_queue h (Some r) [(r, br)] Hr), Forall_nil_2).
  rewrite contents_cons. destruct l as [|[a2 b2] l].
  - assert (En : next b = None) by apply Hp. assert (Enr : next br = None) by apply Hr. rewrite En, Enr.
    exists m1. split; [|intros x; cbn [contents map concat]; by rewrite app_nil_r].
    destruct (off + len b =? len br); cbn -[is_queue]; [done|]. change (is_queue h None) with (Some false). by rewrite Q2.
  - assert (Hl2 : 0 < len b2) by (apply Forall_cons in Hf; apply Hf).
    pose proof Hp as (Hc2 & _). destruct Hc2 as (En & _). rewrite (proj2 (Z.eqb_neq (off + len b) (len br))).
    2: { cbn [sum_len] in Hs. destruct Hok' as (_ & _ & Hok''). pose proof (sum_len_nonneg l Hok''). lia. }
    rewrite bool_decide_eq_false_2 by done. cbn [andb]. rewrite En. rewrite <- En, (no_queue h (next b) _ Hp), Q2.
    2: { by apply Forall_cons in Hf as [_ Hf]. }
    cbn [mbind option_bind]. rewrite En. rewrite <- En.
    destruct (IH fuel m1 (next b) (off + len b)) as (m' & E & Hm'); [done|done|by apply Forall_cons in Hf as [_ Hf]|cbn in *; lia|lia| |done|].
    { cbn [sum_len] in *. lia. }
    exists m'. split; [exact E|]. intros x. rewrite Hm', E1. unfold m1.
    replace (payload br + (off + len b)) with (payload br + off + slen (body m b)) by lia. apply write_twice.
Qed.
End Copy.

(** ** A pbuf from the heap *)
Section Ram.
Context {A : Type} `{!PbufAlloc A}.
Implicit Types (s : pstate A) (l : list (Z * pbuf_t)) (b : pbuf_t).

Definition ram_size (layer : pbuf_layer) (n : Z) : Z :=
  LWIP_MEM_ALIGN_SIZE (SIZEOF_STRUCT_PBUF + header_offset layer) + LWIP_MEM_ALIGN_SIZE n.
Definition ram_pbuf (layer : pbuf_layer) (n r : Z) : pbuf_t :=
  mkPbuf None (LWIP_MEM_ALIGN_SIZE (r + SIZEOF_STRUCT_PBUF + header_offset layer)) n n PBUF_RAM 0 1.
Definition with_pbuf r b (a : A) s : pstate A := mkPs (<[r := b]> (pbs s)) (pdata s) a.

Lemma alloc_ram_spec layer n s : 0 <= n -> ram_size layer n < 65536 ->
  pbuf_alloc layer n PBUF_RAM s =
  match mem_malloc (ram_size layer n) (palloc s) with
  | (None, a) => Some (None, mkPs (pbs s) (pdata s) a)
  | (Some r, a) => Some (Some r, with_pbuf r (ram_pbuf layer n r) a s)
  end.
Proof.
  intros Hn Hs. pose proof (align_bounds n) as B. unfold ram_size in *.
  pose proof (align_bounds (SIZEOF_STRUCT_PBUF + header_offset layer)) as B2. pose proof (header_offset_align layer) as B3.
  unfold pbuf_alloc, mbind, P_bind, lift. unfold with_pbuf, ram_pbuf, SIZEOF_STRUCT_PBUF in *. rewrite (u16_small (_ + LWIP_MEM_ALIGN_SIZE n)) by lia.
  rewrite (proj2 (Z.ltb_ge _ (LWIP_MEM_ALIGN_SIZE n))) by lia.
  by destruct (mem_malloc _ _) as [[r|] a].
Qed.
Lemma ram_packet s r layer n a : 0 <= n < 65536 ->
  packet (pbs (with_pbuf r (ram_pbuf layer n r) a s)) (Some r) [(r, ram_pbuf layer n r)].
Proof.
  intros Hn. split; [|cbn; lia]. cbn. split; [done|]. split; [apply lookup_insert_eq|done].
Qed.
Lemma packet_insert s r b a p l : packet (pbs s) p l -> pbs s !! r = None -> packet (pbs (with_pbuf r b a s)) p l.
Proof.
  intros (Hc & Hl & Hs) Hr. split; [|done]. eapply chain_agree; [exact Hc|]. intros x y Hin. cbn.
  pose proof (chain_lookup _ _ _ _ _ Hc Hin). rewrite lookup_insert_ne; [done|congruence].
Qed.

(** The heap after the copy has replaced the chain. *)
Lemma copy_single (h : gmap Z pbuf_t) m r br p l : packet h (Some r) [(r, br)] -> packet h p l -> l <> [] -> filled (drop 1 l) ->
  sum_len l <= len br -> clear_of (payload br) (len br) l ->
  exists m', pbuf_copy h m (Some r) p = Some (ERR_OK, m') /\
    forall x, m' x = mem_write m (payload br) (contents m l) x.
Proof.
  intros Hr Hp Hne Hf Hs Hc. pose proof Hr as Hr'. apply packet_cons in Hr' as (_ & Er & _ & Hlr & Et & _).
  destruct l as [|[a b] l]; [done|]. pose proof Hp as Hp'. apply packet_cons in Hp' as (-> & Eb & _ & _ & Etb & _).
  destruct (copy_loop_spec (2 * chain_fuel h) h m r br (Some a) ((a, b) :: l) 0) as (m' & E & Hm); [done..| |done| |done|].
  - pose proof (chain_length h (Some a) _ (proj1 Hp)). lia.
  - lia.
  - exists m'. split; [|by rewrite Z.add_0_r in Hm]. unfold pbuf_copy. rewrite Er, Eb. cbn [mbind option_bind].
    cbn [sum_len] in *. rewrite (proj2 (Z.leb_le (tot_len b) (tot_len br))) by lia. exact E.
Qed.

Lemma coalesce_run s p b layer q : pbs s !! p = Some b -> next b = Some q ->
  pbuf_coalesce p layer s =
  match pbuf_alloc layer (tot_len b) PBUF_RAM s with
  | Some (Some r, s1) =>
      match pbuf_copy (pbs s1) (pdata s1) (Some r) (Some p) with
      | Some (_, m) =>
          match pbuf_free (Some p) (mkPs (pbs s1) m (palloc s1)) with
          | Some (_, s2) => Some (Some r, s2)
          | None => None
          end
      | None => None
      end
  | Some (None, s1) => Some (Some p, s1)
  | None => None
  end.
Proof.
  intros Eb En. unfold pbuf_coalesce, mbind, P_bind, getp. rewrite Eb. cbn [mbind option_bind]. rewrite En.
  destruct (pbuf_alloc layer (tot_len b) PBUF_RAM s) as [[[r|] s1]|]; [|done..].
  unfold writing. by destruct (pbuf_copy _ _ _ _) as [[e m]|].
Qed.
Lemma coalesce_one s p b layer : pbs s !! p = Some b -> next b = None -> pbuf_coalesce p layer s = Some (Some p, s).
Proof. intros Eb En. unfold pbuf_coalesce, mbind, P_bind, getp. rewrite Eb. cbn [mbind option_bind]. by rewrite En. Qed.
End Ram.

(** pbuf_coalesce replaces a chain by one pbuf from the heap with the same contents and
    frees it; without memory for that, and for a single pbuf, nothing changes. *)
Theorem pbuf_coalesce_contents {A} `{!PbufAlloc A} (s : pstate A) p l layer :
  packet (pbs s) (Some p) l -> filled (drop 1 l) -> refs_ok l -> ram_size layer (sum_len l) < 65536 ->
  (forall r a, mem_malloc (ram_size layer (sum_len l)) (palloc s) = (Some r, a) ->
     pbs s !! r = None /\ clear_of (payload (ram_pbuf layer (sum_len l) r)) (sum_len l) l) ->
  if (length l =? 1)%nat then pbuf_coalesce p layer s = Some (Some p, s) else
  match mem_malloc (ram_size layer (sum_len l)) (palloc s) with
  | (None, a) => pbuf_coalesce p layer s = Some (Some p, mkPs (pbs s) (pdata s) a)
  | (Some r, a) => let br := ram_pbuf layer (sum_len l) r in
      exists s', pbuf_coalesce p layer s = Some (Some r, s') /\
        pbs s' = freed_heap (<[r := br]> (pbs s)) l /\ packet (pbs s') (Some r) [(r, br)] /\
        contents (pdata s') [(r, br)] = contents (pdata s) l /\ unchanged_off (payload br) (len br) (pdata s) (pdata s')
  end.
Proof.
  intros Hp Hf Hr Hs Hm. pose proof Hp as (Hc & Hl & Hb). pose proof (sum_len_nonneg l Hl) as Hn.
  destruct l as [|[a b] l]; [done|]. pose proof Hp as Hp'. apply packet_cons in Hp' as ([= ->] & Eb & Hp' & _ & Et & _).
  set (n := sum_len ((a, b) :: l)) in *. assert (En : tot_len b = n) by exact Et.
  destruct l as [|x l]; [apply (coalesce_one s a b layer Eb), Hp'|]. cbn [length Nat.eqb].
  destruct (next b) as [q|] eqn:Enx; [|by destruct x, Hp' as [[? _] _]].
  rewrite (coalesce_run s a b layer q Eb Enx), En, alloc_ram_spec by done.
  destruct (mem_malloc _ _) as [[r|] al] eqn:Em; [|done].
  destruct (Hm r al eq_refl) as [Hr1 Hc1]. set (br := ram_pbuf layer n r) in *. set (s1 := with_pbuf r br al s).
  assert (P1 : packet (pbs s1) (Some r) [(r, br)]) by by apply ram_packet.
  assert (P2 : packet (pbs s1) (Some a) ((a, b) :: x :: l)) by by apply packet_insert.
  destruct (copy_single (pbs s1) (pdata s1) r br (Some a) ((a, b) :: x :: l)) as (m' & E & Hm'); [done..|].
  rewrite E. destruct (free_spec (mkPs (pbs s1) m' (palloc s1)) (Some a) ((a, b) :: x :: l)) as (al' & Ef & _); [apply P2|done|].
  rewrite Ef. eexists. split; [reflexivity|]. cbn [pbs pdata]. split; [done|].
  assert (Hnin : r ∉ map fst ((a, b) :: x :: l)).
  { intros Hin. apply list_elem_of_fmap in Hin as ([r' b'] & E' & Hin). cbn in E'. subst r'. by rewrite (chain_lookup _ _ _ _ _ Hc Hin) in Hr1. }
  assert (Lc : length (contents (pdata s) ((a, b) :: x :: l)) = Z.to_nat n).
  { pose proof (contents_length (pdata s) _ Hl). lia. }
  split; [|split].
  - split; [|by apply P1]. cbn [chain pbs]. split; [done|]. split; [|done].
    rewrite (free_heap_other (pbs s1) ((a, b) :: x :: l) r Hnin). apply lookup_insert_eq.
  - cbn [contents map concat]. rewrite app_nil_r. unfold body. cbn [payload br ram_pbuf len snd].
    rewrite (mem_read_ext (mem_write (pdata s) (payload br) (contents (pdata s) ((a, b) :: x :: l)))) by (intros; apply Hm').
    rewrite <- Lc. apply mem_write_read_same.
  - intros y Hy. rewrite Hm'. apply mem_write_out. cbn in *. rewrite Lc. lia.
Qed.

(** *** Two pieces made one *)
#[local] Instance sim_heap : PbufAlloc Z := {
  memp_malloc_pbuf := fun a => (None, a);
  memp_malloc_pool := fun a => (None, a);
  mem_malloc := fun n a => (Some a, a + n);
  memp_free_pbuf := fun _ a => (tt, a);
  memp_free_pool := fun _ a => (tt, a);
  mem_free := fun _ a => (tt, a);
  mem_trim := fun _ _ a => (tt, a);
  custom_free := fun _ a => (tt, a)
}.
Definition two_state : pstate Z := mkPs (list_to_map demo_chain) demo_bytes 20480.
Lemma pbuf_coalesce_contents_witness : exists s', pbuf_coalesce 2048 PBUF_RAW two_state = Some (Some 20480, s') /\
  contents (pdata s') [(20480, ram_pbuf PBUF_RAW 5 20480)] = [16; 17; 18; 16; 17].
Proof.
  pose proof (pbuf_coalesce_contents two_state 2048 demo_chain PBUF_RAW) as H. destruct H as (s' & H1 & _ & _ & H2 & _).
  - repeat split; cbn; lia || reflexivity.
  - by repeat (apply Forall_cons; split).
  - by repeat (apply Forall_cons; split).
  - vm_compute. reflexivity.
  - intros r a [= <- <-]. split; [reflexivity|]. change (payload _) with 20496.
    repeat (apply Forall_cons; split; [intros x; unfold inside; cbn; lia|]). apply Forall_nil_2.
  - exists s'. split; [exact H1|exact H2].
Defined.
