(* ===== verification/Chksum.v ===== *)
(** * The Internet checksum (lwip-2.0.3/src/core/inet_chksum.c)

    The routine that adds half words from any address (algorithm 2, the default), the
    checksum of a chain of pbufs and the one with the pseudo header.  The reference is the
    definition of RFC 1071: the complement of the one's complement sum of the 16-bit words in
    network order.  lwipopts.h leaves the checksums of IP, UDP and TCP to the hardware; ICMP
    checks its messages with [inet_chksum_pbuf]. *)
From coqutil Require Import Z.prove_Zeq_bitwise.
From stdpp Require Import gmap.
From S2P Require Import Prelude Ip4Addr Ip4Hdr Pbuf.

(** ** The code *)
Definition FOLD_U32T (u : Z) : Z := u32 (Z.shiftr u 16 + Z.land u 0x0000ffff).
Definition SWAP_BYTES_IN_WORD (w : Z) : Z := Z.lor (Z.shiftl (Z.land w 0xff) 8) (Z.shiftr (Z.land w 0xff00) 8).

(** Half words of a little-endian machine. *)
Definition u16_at (m : mem) (a : Z) : Z := m a + 256 * m (a + 1).
(** [while (len > 1)]: the pointer, the length left and the sum. *)
Fixpoint word_loop (fuel : nat) (m : mem) (ps len sum : Z) : Z * Z * Z :=
  if 1 <? len then
    match fuel with
    | O => (ps, len, sum)
    | S fuel => word_loop fuel m (ps + 2) (len - 2) (u32 (sum + u16_at m ps))
    end
  else (ps, len, sum).

Definition lwip_standard_chksum (m : mem) (dataptr len : Z) : Z :=
  let odd := Z.odd dataptr in
  let '(t, pb, len) := if odd && (0 <? len) then (256 * m dataptr, dataptr + 1, len - 1) else (0, dataptr, len) in
  let '(ps, len, sum) := word_loop (Z.to_nat len) m pb len 0 in
  let t := if 0 <? len then Z.lor (Z.land t 0xff00) (m ps) else t in
  let sum := u32 (sum + t) in
  let sum := FOLD_U32T sum in
  let sum := FOLD_U32T sum in
  let sum := if odd then SWAP_BYTES_IN_WORD sum else sum in
  u16 sum.

Definition inet_chksum (m : mem) (dataptr len : Z) : Z := u16 (Z.lnot (lwip_standard_chksum m dataptr len)).

(** The loop over a chain: the sum and whether it stands with its bytes exchanged. *)
Fixpoint chain_sum (fuel : nat) (h : gmap Z pbuf_t) (m : mem) (q : option Z) (acc : Z) (swapped : bool) : option (Z * bool) :=
  match q with
  | None => Some (acc, swapped)
  | Some a =>
      match fuel with
      | O => None
      | S fuel =>
          b ← h !! a;
          let acc := u32 (acc + lwip_standard_chksum m (payload b) (len b)) in
          let acc := FOLD_U32T acc in
          if negb (len b mod 2 =? 0) then chain_sum fuel h m (next b) (SWAP_BYTES_IN_WORD acc) (negb swapped)
          else chain_sum fuel h m (next b) acc swapped
      end
  end.
Definition unswap (r : Z * bool) : Z := if r.2 then SWAP_BYTES_IN_WORD r.1 else r.1.

Definition inet_chksum_pbuf (h : gmap Z pbuf_t) (m : mem) (p : option Z) : option Z :=
  r ← chain_sum (chain_fuel h) h m p 0 false;
  Some (u16 (Z.lnot (Z.land (unswap r) 0xffff))).

Definition inet_cksum_pseudo_base (h : gmap Z pbuf_t) (m : mem) (p : option Z) (proto proto_len acc : Z) : option Z :=
  r ← chain_sum (chain_fuel h) h m p acc false;
  let acc := u32 (unswap r + lwip_htons (u16 proto)) in
  let acc := u32 (acc + lwip_htons proto_len) in
  let acc := FOLD_U32T (FOLD_U32T acc) in
  Some (u16 (Z.lnot (Z.land acc 0xffff))).
Definition inet_chksum_pseudo (h : gmap Z pbuf_t) (m : mem) (p : option Z) (proto proto_len src dest : Z) : option Z :=
  let acc := Z.land src 0xffff in
  let acc := u32 (acc + Z.land (Z.shiftr src 16) 0xffff) in
  let acc := u32 (acc + Z.land dest 0xffff) in
  let acc := u32 (acc + Z.land (Z.shiftr dest 16) 0xffff) in
  inet_cksum_pseudo_base h m p proto proto_len (FOLD_U32T (FOLD_U32T acc)).

(** ** The reference: RFC 1071 *)

(** Sixteen-bit words in network order, an odd byte at the end padded with zero. *)
Fixpoint be_words (l : list Z) : list Z :=
  match l with
  | a :: b :: l => 256 * a + b :: be_words l
  | [a] => [256 * a]
  | [] => []
  end.
(** One's complement addition: the carry goes around. *)
Definition oc_add (x y : Z) : Z := let s := x + y in if s <? 65536 then s else s - 65535.
Definition rfc1071_sum (l : list Z) : Z := foldr oc_add 0 (be_words l).
Definition rfc1071 (l : list Z) : Z := 65535 - rfc1071_sum l.

(** ** Sums up to multiples of 65535 *)

(** The same one's complement number: zero is only equal to itself. *)
Definition oc (x y : Z) : Prop := 0 <= x /\ 0 <= y /\ (x = 0 <-> y = 0) /\ x mod 65535 = y mod 65535.
Create HintDb oc discriminated.

Lemma oc_refl x : 0 <= x -> oc x x.
Proof. done. Qed.
Lemma oc_sym x y : oc x y -> oc y x.
Proof. intros (? & ? & ? & ?). by repeat split; try tauto. Qed.
Lemma oc_trans x y z : oc x y -> oc y z -> oc x z.
Proof. intros (? & ? & ? & ?) (? & ? & ? & ?). unfold oc. split; [done|]. split; [done|]. split; [tauto|congruence]. Qed.
Lemma oc_add_eq x x' y y' : oc x x' -> oc y y' -> oc (x + y) (x' + y').
Proof.
  intros (? & ? & ? & E1) (? & ? & ? & E2). unfold oc. split; [lia|]. split; [lia|]. split; [lia|].
  by rewrite (Z.add_mod x), (Z.add_mod x'), E1, E2 by lia.
Qed.
Lemma oc_mul k x x' : 0 < k -> oc x x' -> oc (k * x) (k * x').
Proof.
  intros Hk (? & ? & ? & E). unfold oc. split; [nia|]. split; [nia|]. split; [nia|].
  by rewrite (Z.mul_mod k x), (Z.mul_mod k x'), E by lia.
Qed.
Lemma oc_wrap x : 0 <= x -> oc (65536 * x) x.
Proof.
  intros H. unfold oc. split; [lia|]. split; [lia|]. split; [lia|].
  replace (65536 * x) with (x + x * 65535) by lia. by rewrite Z.mod_add by lia.
Qed.
(** Equal numbers of sixteen bits. *)
Lemma oc_exact x y : oc x y -> x < 65536 -> y < 65536 -> x = y.
Proof.
  intros (? & ? & ? & E) ? ?. pose proof (Z.div_mod x 65535 ltac:(lia)). pose proof (Z.div_mod y 65535 ltac:(lia)).
  pose proof (Z.mod_pos_bound x 65535 ltac:(lia)). rewrite <- E in *. lia.
Qed.

Lemma fold_split u : is_u32 u -> FOLD_U32T u = u / 65536 + u mod 65536.
Proof.
  intros H. unfold FOLD_U32T. change 0x0000ffff with (Z.ones 16). rewrite Z.land_ones, Z.shiftr_div_pow2 by lia.
  apply u32_small. unfold is_u32 in H. Z.to_euclidean_division_equations. lia.
Qed.
Lemma oc_halves u : 0 <= u -> oc (u / 65536 + u mod 65536) u.
Proof.
  intros H. pose proof (Z.div_mod u 65536 ltac:(lia)) as E.
  pose proof (Z.div_pos u 65536 H ltac:(lia)). pose proof (Z.mod_pos_bound u 65536 ltac:(lia)).
  apply (oc_trans _ (65536 * (u / 65536) + u mod 65536)); [|rewrite <- E; by apply oc_refl].
  apply oc_add_eq; [by apply oc_sym, oc_wrap|apply oc_refl; lia].
Qed.
Lemma fold_oc u : is_u32 u -> oc (FOLD_U32T u) u /\ 0 <= FOLD_U32T u < 131071.
Proof.
  intros H. rewrite fold_split by done. split; [apply oc_halves; unfold is_u32 in H; lia|].
  unfold is_u32 in H. Z.to_euclidean_division_equations. lia.
Qed.
Lemma fold_small u : 0 <= u < 131071 -> oc (FOLD_U32T u) u /\ 0 <= FOLD_U32T u < 65536.
Proof.
  intros H. rewrite fold_split by (unfold is_u32; lia). split; [apply oc_halves; lia|].
  Z.to_euclidean_division_equations. lia.
Qed.
Lemma fold_twice u : is_u32 u -> oc (FOLD_U32T (FOLD_U32T u)) u /\ 0 <= FOLD_U32T (FOLD_U32T u) < 65536.
Proof.
  intros H. destruct (fold_oc u H) as [H1 H2]. destruct (fold_small _ H2) as [H3 H4].
  split; [by eapply oc_trans|done].
Qed.
Lemma swap_split x : 0 <= x < 65536 -> SWAP_BYTES_IN_WORD x = 256 * (x mod 256) + x / 256.
Proof.
  intros H. assert (E : SWAP_BYTES_IN_WORD x = Z.lor (Z.shiftl (x mod 256) 8) (Z.land x 0xffff / 256)).
  { unfold SWAP_BYTES_IN_WORD. change 256 with (2 ^ 8). change 0xffff with (Z.ones 16). change 0xff00 with (Z.shiftl (Z.ones 8) 8).
    change 0xff with (Z.ones 8). rewrite <- Z.land_ones, <- Z.shiftr_div_pow2 by lia. prove_Zeq_bitwise. }
  rewrite E. change 0xffff with (Z.ones 16). rewrite Z.land_ones, (Z.mod_small x (2 ^ 16)) by lia.
  assert (L : Z.land (Z.shiftl (x mod 256) 8) (x / 256) = 0).
  { rewrite <- (Z.mod_small (x / 256) (2 ^ 8)) by (change (2 ^ 8) with 256; Z.to_euclidean_division_equations; lia).
    rewrite <- Z.land_ones by lia. prove_Zeq_bitwise. }
  rewrite <- Z.lxor_lor, <- Z.add_nocarry_lxor, Z.shiftl_mul_pow2 by done || lia. lia.
Qed.
Lemma swap_oc x : 0 <= x < 65536 -> oc (SWAP_BYTES_IN_WORD x) (256 * x) /\ 0 <= SWAP_BYTES_IN_WORD x < 65536.
Proof.
  intros H. rewrite swap_split by done. split; [|Z.to_euclidean_division_equations; lia].
  pose proof (Z.div_mod x 256 ltac:(lia)) as E. pose proof (Z.mod_pos_bound x 256 ltac:(lia)).
  replace (256 * x) with (256 * (x mod 256) + 65536 * (x / 256)) by lia.
  apply oc_add_eq; [apply oc_refl; lia|]. apply oc_sym, oc_wrap, Z.div_pos; lia.
Qed.
Lemma htons_swap x : 0 <= x < 65536 -> lwip_htons x = SWAP_BYTES_IN_WORD x.
Proof. intros H. apply u16_small, (swap_oc x H). Qed.

(** ** Bytes with alternating weights *)

(** The first byte counts 256 if [hi], the next one once, and so on. *)
Fixpoint wsum (hi : bool) (l : list Z) : Z :=
  match l with
  | [] => 0
  | b :: l => (if hi then 256 * b else b) + wsum (negb hi) l
  end.
Definition weight (hi : bool) : Z := if hi then 256 else 1.

Lemma wsum_app hi l1 l2 : wsum hi (l1 ++ l2) = wsum hi l1 + wsum (xorb hi (Nat.odd (length l1))) l2.
Proof.
  revert hi. induction l1 as [|b l1 IH]; intros hi; cbn [app wsum length]; [by rewrite xorb_false_r|].
  rewrite IH, Nat.odd_succ, <- Nat.negb_odd. destruct hi, (Nat.odd (length l1)); cbn; lia.
Qed.
Lemma wsum_range hi l : bytes l -> 0 <= wsum hi l <= 65280 * slen l.
Proof.
  intros H. revert hi. induction H as [|b l Hb _ IH]; intros hi; cbn [wsum]; [done|]. specialize (IH (negb hi)).
  unfold slen, is_byte in *. cbn [length]. destruct hi; lia.
Qed.
Lemma wsum_swap hi l : bytes l -> oc (wsum (negb hi) l) (256 * wsum hi l).
Proof.
  intros H. revert hi. induction H as [|b l Hb Hl IH]; intros hi; cbn [wsum]; [done|].
  rewrite Z.mul_add_distr_l, negb_involutive. unfold is_byte in Hb. apply oc_add_eq.
  - destruct hi; cbn [negb]; [|apply oc_refl; lia]. rewrite Z.mul_assoc. apply oc_sym, oc_wrap. lia.
  - rewrite <- (negb_involutive hi) at 1. apply IH.
Qed.
Lemma wsum_weight hi l : bytes l -> oc (wsum hi l) (weight hi * wsum false l).
Proof.
  intros H. destruct hi; [by apply (wsum_swap false)|]. unfold weight. rewrite Z.mul_1_l. apply oc_refl, wsum_range, H.
Qed.

(** The reference in these terms. *)
Lemma oc_add_oc x y : 0 <= x < 65536 -> 0 <= y < 65536 -> oc (oc_add x y) (x + y) /\ 0 <= oc_add x y < 65536.
Proof.
  intros Hx Hy. unfold oc_add. destruct (Z.ltb_spec (x + y) 65536) as [L|L]; [split; [apply oc_refl|]; lia|].
  split; [|lia]. unfold oc. split; [lia|]. split; [lia|]. split; [lia|].
  replace (x + y) with (x + y - 65535 + 1 * 65535) at 2 by lia. by rewrite Z.mod_add by lia.
Qed.
Lemma rfc1071_oc l : bytes l -> oc (rfc1071_sum l) (wsum true l) /\ 0 <= rfc1071_sum l < 65536.
Proof.
  unfold rfc1071_sum. remember (length l) as n eqn:E. revert l E.
  induction n as [n IH] using lt_wf_ind. intros [|a [|b l]] -> H; [done|..].
  - apply Forall_cons in H as [Ha _]. unfold is_byte in Ha. cbn [be_words foldr wsum].
    destruct (oc_add_oc (256 * a) 0) as [O R]; [lia..|]. by split.
  - apply Forall_cons in H as [Ha H]. apply Forall_cons in H as [Hb H]. unfold is_byte in *.
    cbn [be_words foldr wsum negb]. destruct (IH (length l)) with (l := l) as [O R]; [cbn; lia|done..|].
    destruct (oc_add_oc (256 * a + b) (foldr oc_add 0 (be_words l))) as [O' R']; [lia..|]. split; [|done].
    eapply oc_trans; [exact O'|]. rewrite <- Z.add_assoc. apply oc_add_eq; [apply oc_refl; lia|].
    apply oc_add_eq; [apply oc_refl; lia|done].
Qed.

(** ** A run of bytes *)
Section Run.
Variable m : mem.
Hypothesis m_bytes : forall x, is_byte (m x).

(** The bytes left over: none or one. *)
Lemma word_loop_spec fuel ps len sum : 0 <= len <= Z.of_nat fuel -> 0 <= sum -> sum + 65280 * len < 4294967296 ->
  exists n, word_loop fuel m ps len sum = (ps + 2 * n, len - 2 * n, sum + wsum false (mem_read m ps (Z.to_nat (2 * n)))) /\
    0 <= n /\ 0 <= len - 2 * n <= 1.
Proof.
  revert ps len sum. induction fuel as [|fuel IH]; intros ps len sum Hf Hs Hb; cbn [word_loop];
    destruct (Z.ltb_spec 1 len) as [L|L]; try lia.
  1,3: exists 0; cbn [Z.mul Z.to_nat mem_read wsum]; rewrite !Z.add_0_r, Z.sub_0_r; done || (split; [done|lia]).
  pose proof (m_bytes ps) as B1. pose proof (m_bytes (ps + 1)) as B2. unfold is_byte in *. unfold u16_at.
  rewrite u32_small by lia. destruct (IH (ps + 2) (len - 2) (sum + (m ps + 256 * m (ps + 1)))) as (n & -> & H1 & H2); [lia..|].
  exists (n + 1). split; [|lia]. replace (Z.to_nat (2 * (n + 1))) with (S (S (Z.to_nat (2 * n)))) by lia.
  cbn [mem_read wsum negb]. replace (ps + 1 + 1) with (ps + 2) by lia. f_equal; [f_equal|]; lia.
Qed.

Lemma tail_byte t b : (t = 0 \/ exists a, t = 256 * a /\ is_byte a) -> is_byte b -> Z.lor (Z.land t 0xff00) b = t + b.
Proof.
  intros Ht Hb. assert (E : exists a, t = Z.shiftl (a mod 2 ^ 8) 8).
  { destruct Ht as [->|(a & -> & Ha)]; [by exists 0|]. exists a. rewrite Z.mod_small, Z.shiftl_mul_pow2 by done. lia. }
  destruct E as [a ->]. unfold is_byte in Hb. rewrite <- (Z.mod_small b (2 ^ 8)) by done.
  rewrite <- !Z.land_ones by lia. rewrite Z.add_nocarry_lxor, Z.lxor_lor by prove_Zeq_bitwise.
  change 0xff00 with (Z.shiftl (Z.ones 8) 8). prove_Zeq_bitwise.
Qed.

(** The words, the byte in front of them and the one behind. *)
Lemma words_sum t pb len : (t = 0 \/ exists a, t = 256 * a /\ is_byte a) -> 0 <= len < 65536 ->
  let '(ps, len', sum) := word_loop (Z.to_nat len) m pb len 0 in
  u32 (sum + (if 0 <? len' then Z.lor (Z.land t 0xff00) (m ps) else t)) = t + wsum false (mem_read m pb (Z.to_nat len)).
Proof.
  intros Ht Hl. destruct (word_loop_spec (Z.to_nat len) pb len 0) as (n & -> & H1 & H2); [lia..|].
  assert (T : 0 <= t <= 65280) by (destruct Ht as [->|(a & -> & Ha)]; unfold is_byte in *; lia).
  pose proof (wsum_range false (mem_read m pb (Z.to_nat (2 * n))) (mem_read_bytes m _ _ m_bytes)) as R.
  unfold slen in R. rewrite mem_read_length in R. rewrite Z.add_0_l. destruct (Z.ltb_spec 0 (len - 2 * n)) as [L|L].
  - pose proof (m_bytes (pb + 2 * n)) as B. rewrite tail_byte by done. unfold is_byte in B. rewrite u32_small by lia.
    replace (Z.to_nat len) with (Z.to_nat (2 * n) + 1)%nat by lia. rewrite mem_read_app, wsum_app, mem_read_length.
    replace (Nat.odd (Z.to_nat (2 * n))) with false.
    2: { symmetry. replace (Z.to_nat (2 * n)) with (2 * Z.to_nat n)%nat by lia. rewrite Nat.odd_mul. done. }
    rewrite Z2Nat.id by lia. cbn [xorb mem_read wsum]. lia.
  - replace (2 * n) with len in * by lia. rewrite u32_small by lia. lia.
Qed.

Lemma standard_chksum_oc pb len : 0 <= len < 65536 -> let c := lwip_standard_chksum m pb len in
  oc c (wsum false (mem_read m pb (Z.to_nat len))) /\ 0 <= c < 65536.
Proof.
  intros Hl. cbv zeta. unfold lwip_standard_chksum. set (l := mem_read m pb (Z.to_nat len)).
  assert (Hb : forall a n, bytes (mem_read m a n)) by (intros; apply mem_read_bytes, m_bytes).
  assert (S32 : forall t a n, 0 <= t <= 65280 -> Z.of_nat n < 65536 -> is_u32 (t + wsum false (mem_read m a n))).
  { intros t a n Ht Hn. pose proof (wsum_range false (mem_read m a n) (Hb _ _)) as R. unfold slen in R.
    rewrite mem_read_length in R. unfold is_u32. lia. }
  destruct (Z.odd pb) eqn:Eo; cbn [andb].
  - destruct (Z.ltb_spec 0 len) as [L|L].
    + assert (E : l = m pb :: mem_read m (pb + 1) (Z.to_nat (len - 1))).
      { subst l. by replace (Z.to_nat len) with (S (Z.to_nat (len - 1))) by lia. }
      pose proof (words_sum (256 * m pb) (pb + 1) (len - 1)) as W. destruct (word_loop _ _ _ _ _) as [[ps len'] sum].
      pose proof (m_bytes pb) as B. rewrite W by (lia || (right; by exists (m pb))). unfold is_byte in B.
      assert (E2 : 256 * m pb + wsum false (mem_read m (pb + 1) (Z.to_nat (len - 1))) = wsum true l) by (by rewrite E).
      destruct (fold_twice (wsum true l)) as [F1 F2]; [rewrite <- E2; apply S32; lia|]. rewrite E2.
      destruct (swap_oc _ F2) as [F3 F4]. rewrite u16_small by done. split; [|done].
      eapply oc_trans; [exact F3|]. eapply oc_trans; [apply oc_mul; [lia|exact F1]|].
      apply oc_sym. apply (wsum_swap true l (Hb _ _)).
    + assert (len = 0) as -> by lia. split; [by apply oc_refl|done].
  - pose proof (words_sum 0 pb len) as W. destruct (word_loop _ _ _ _ _) as [[ps len'] sum]. rewrite W by (lia || by left).
    destruct (fold_twice (0 + wsum false l)) as [F1 F2]; [apply S32; lia|]. subst l. by rewrite u16_small.
Qed.
End Run.

(** ** A chain of pbufs *)
Section ChainSum.
Variable m : mem.
Hypothesis m_bytes : forall x, is_byte (m x).
Implicit Types (h : gmap Z pbuf_t) (l : list (Z * pbuf_t)).

Lemma contents_bytes l : bytes (contents m l).
Proof.
  unfold contents. induction l as [|x l IH]; [apply Forall_nil_2|]. cbn [map concat].
  apply Forall_app. split; [apply mem_read_bytes, m_bytes|done].
Qed.

(** [acc] stands for [v], with its bytes exchanged if [s]. *)
Lemma unswap_oc acc s v : oc acc (weight s * v) -> 0 <= v -> 0 <= acc < 65536 ->
  oc (unswap (acc, s)) v /\ 0 <= unswap (acc, s) < 65536.
Proof.
  intros H Hv Ha. unfold unswap. destruct s; cbn [fst snd weight] in *; [|by rewrite Z.mul_1_l in H].
  destruct (swap_oc acc Ha) as [O R]. split; [|done]. eapply oc_trans; [exact O|]. eapply oc_trans; [apply oc_mul; [lia|exact H]|].
  rewrite Z.mul_assoc. by apply oc_wrap.
Qed.
Lemma weight_body acc s v d : oc acc (weight s * v) -> 0 <= v -> bytes d ->
  oc (acc + wsum false d) (weight s * (v + wsum s d)).
Proof.
  intros H Hv Hd. rewrite Z.mul_add_distr_l. apply oc_add_eq; [done|]. destruct s; cbn [weight].
  - apply (wsum_swap true d Hd).
  - rewrite Z.mul_1_l. apply oc_refl, wsum_range, Hd.
Qed.
Lemma mod2_odd n : 0 <= n -> (n mod 2 =? 0) = negb (Nat.odd (Z.to_nat n)).
Proof.
  intros H. rewrite <- (Z2Nat.id n) at 1 by done. generalize (Z.to_nat n). intros k. clear.
  rewrite Zmod_odd. assert (E : Z.odd (Z.of_nat k) = Nat.odd k); [|rewrite E; by destruct (Nat.odd k)].
  induction k as [|k IH]; [done|]. rewrite Nat2Z.inj_succ, Z.odd_succ, Nat.odd_succ, <- Z.negb_odd, <- Nat.negb_odd. by rewrite IH.
Qed.

Lemma chain_sum_spec fuel h p l acc s v : packet h p l -> (length l < fuel)%nat ->
  oc acc (weight s * v) -> 0 <= v -> 0 <= acc < 65536 ->
  exists r, chain_sum fuel h m p acc s = Some r /\ oc (unswap r) (v + wsum s (contents m l)) /\ 0 <= unswap r < 65536.
Proof.
  revert fuel p acc s v. induction l as [|[a b] l IH]; intros fuel p acc s v Hp Hf Ho Hv Ha.
  - destruct Hp as [-> _]. exists (acc, s). split; [by destruct fuel|]. cbn [contents map concat wsum]. rewrite Z.add_0_r.
    by apply unswap_oc.
  - apply packet_cons in Hp as (-> & Eb & Hp & Hl & _). destruct fuel as [|fuel]; [cbn in Hf; lia|].
    cbn [chain_sum]. rewrite Eb. cbn [mbind option_bind]. destruct (standard_chksum_oc m m_bytes (payload b) (len b) Hl) as [C1 C2].
    fold (body m b) in C1. assert (Hd : bytes (body m b)) by apply mem_read_bytes, m_bytes.
    rewrite (u32_small (acc + _)) by lia.
    destruct (fold_small (acc + lwip_standard_chksum m (payload b) (len b))) as [F1 F2]; [lia|].
    assert (V : oc (FOLD_U32T (acc + lwip_standard_chksum m (payload b) (len b))) (weight s * (v + wsum s (body m b)))).
    { eapply oc_trans; [exact F1|]. eapply oc_trans; [apply oc_add_eq; [apply oc_refl; lia|exact C1]|]. by apply weight_body. }
    pose proof (wsum_range s _ Hd) as [R _].
    rewrite contents_cons, wsum_app, Z.add_assoc. unfold body at 2. rewrite mem_read_length, mod2_odd, negb_involutive by lia.
    destruct (Nat.odd (Z.to_nat (len b))); [rewrite xorb_true_r|rewrite xorb_false_r]; [|apply IH; done || (cbn in Hf; lia)].
    destruct (swap_oc _ F2) as [W1 W2]. apply IH; [done|cbn in Hf; lia| |lia|done].
    eapply oc_trans; [exact W1|]. eapply oc_trans; [apply oc_mul; [lia|exact V]|]. destruct s; cbn [negb weight].
    + rewrite Z.mul_assoc, Z.mul_1_l. apply oc_wrap. lia.
    + rewrite Z.mul_1_l. apply oc_refl. lia.
Qed.
End ChainSum.

(** ** The results *)
Lemma lnot16 x : 0 <= x < 65536 -> u16 (Z.lnot x) = 65535 - x.
Proof. intros H. unfold Z.lnot, u16. Z.to_euclidean_division_equations. lia. Qed.
Lemma land16 x : 0 <= x < 65536 -> Z.land x 0xffff = x.
Proof. intros H. change 0xffff with (Z.ones 16). rewrite Z.land_ones by lia. by apply Z.mod_small. Qed.
Lemma htons_compl y : 0 <= y < 65536 -> lwip_htons (65535 - y) = 65535 - SWAP_BYTES_IN_WORD y.
Proof.
  intros H. rewrite htons_swap, !swap_split by lia. Z.to_euclidean_division_equations. lia.
Qed.
Lemma rfc1071_host x l : bytes l -> oc x (wsum false l) -> 0 <= x < 65536 -> u16 (Z.lnot x) = lwip_htons (rfc1071 l).
Proof.
  intros Hl Hx R. destruct (rfc1071_oc l Hl) as [O1 R1]. unfold rfc1071. rewrite lnot16, htons_compl by done. f_equal.
  destruct (swap_oc _ R1) as [O2 R2]. apply oc_exact; [|lia..]. eapply oc_trans; [exact Hx|]. apply oc_sym.
  eapply oc_trans; [exact O2|]. eapply oc_trans; [apply oc_mul; [lia|exact O1]|]. apply oc_sym, (wsum_swap true l Hl).
Qed.
Lemma rfc1071_range l : bytes l -> 0 <= rfc1071 l < 65536.
Proof. intros H. destruct (rfc1071_oc l H). unfold rfc1071. lia. Qed.

(** The pseudo header, as it would be in memory. *)
Definition pseudo_header (proto proto_len src dest : Z) : list Z :=
  le32_bytes src ++ le32_bytes dest ++ [0; proto; proto_len / 256; proto_len mod 256].

Lemma pseudo_bytes proto n src dest : 0 <= proto < 256 -> 0 <= n < 65536 -> bytes (pseudo_header proto n src dest).
Proof.
  intros Hp Hn. unfold pseudo_header. apply Forall_app. split; [apply le32_bytes_bytes|]. apply Forall_app.
  split; [apply le32_bytes_bytes|]. repeat (apply Forall_cons; split); try apply Forall_nil_2; unfold is_byte;
    Z.to_euclidean_division_equations; lia.
Qed.
(** The two halves of an address. *)
Definition halves (a : Z) : Z := Z.land a 0xffff + Z.land (Z.shiftr a 16) 0xffff.
Lemma halves_wsum a : is_u32 a -> halves a = wsum false (le32_bytes a) /\ 0 <= halves a <= 131070.
Proof.
  intros H. unfold halves, le32_bytes, is_u32 in *. change 0xffff with (Z.ones 16). rewrite !Z.land_ones, Z.shiftr_div_pow2 by lia.
  cbn [wsum negb]. Z.to_euclidean_division_equations. lia.
Qed.

Lemma pseudo_wsum proto n src dest c : is_u32 src -> is_u32 dest ->
  wsum false (pseudo_header proto n src dest ++ c) =
  halves src + halves dest + 256 * proto + n / 256 + 256 * (n mod 256) + wsum false c.
Proof.
  intros Hs Hd. destruct (halves_wsum src Hs) as [-> _], (halves_wsum dest Hd) as [-> _].
  unfold pseudo_header. rewrite <- !app_assoc, (wsum_app false (le32_bytes src)).
  change (xorb false (Nat.odd (length (le32_bytes src)))) with false. rewrite (wsum_app false (le32_bytes dest)).
  change (xorb false (Nat.odd (length (le32_bytes dest)))) with false. cbn [app wsum negb]. lia.
Qed.

Section Results.
Variable m : mem.
Hypothesis m_bytes : forall x, is_byte (m x).
Implicit Types (h : gmap Z pbuf_t) (l : list (Z * pbuf_t)).

Lemma chksum_pbuf_spec h p l : packet h p l ->
  inet_chksum_pbuf h m p = Some (lwip_htons (rfc1071 (contents m l))).
Proof.
  intros Hp. destruct (chain_sum_spec m m_bytes (chain_fuel h) h p l 0 false 0) as (r & E & O & R); [done|apply (chain_length h p), Hp|done..|].
  unfold inet_chksum_pbuf. rewrite E. cbn [mbind option_bind]. rewrite land16 by done. f_equal.
  apply rfc1071_host; [apply contents_bytes, m_bytes|done..].
Qed.

Lemma chksum_pseudo_spec h p l proto n src dest : packet h p l -> is_u32 src -> is_u32 dest ->
  0 <= proto < 256 -> 0 <= n < 65536 ->
  inet_chksum_pseudo h m p proto n src dest =
  Some (lwip_htons (rfc1071 (pseudo_header proto n src dest ++ contents m l))).
Proof.
  intros Hp Hs Hd Hpr Hn. destruct (halves_wsum src Hs) as [S1 S2]. destruct (halves_wsum dest Hd) as [D1 D2].
  unfold inet_chksum_pseudo, inet_cksum_pseudo_base. unfold halves in *.
  set (s1 := Z.land src _) in *. set (s2 := Z.land (Z.shiftr src 16) _) in *.
  set (d1 := Z.land dest _) in *. set (d2 := Z.land (Z.shiftr dest 16) _) in *.
  assert (0 <= s1 /\ 0 <= s2 /\ 0 <= d1 /\ 0 <= d2) as (? & ? & ? & ?)
    by (subst s1 s2 d1 d2; split_and!; apply Z.land_nonneg; right; lia).
  rewrite (u32_small (s1 + s2)), (u32_small (s1 + s2 + d1)), (u32_small (s1 + s2 + d1 + d2)) by lia. destruct (fold_twice (s1 + s2 + d1 + d2)) as [F1 F2]; [unfold is_u32; lia|].
  destruct (chain_sum_spec m m_bytes (chain_fuel h) h p l (FOLD_U32T (FOLD_U32T (s1 + s2 + d1 + d2))) false (s1 + s2 + d1 + d2))
    as (r & E & O & R); [done|apply (chain_length h p), Hp|cbn [weight]; by rewrite Z.mul_1_l|lia|done|].
  rewrite E. cbn [mbind option_bind]. rewrite (u16_small proto), !htons_swap by lia.
  destruct (swap_oc proto) as [P1 P2]; [lia|]. destruct (swap_oc n) as [N1 N2]; [lia|]. rewrite (u32_small (unswap r + _)), (u32_small (_ + SWAP_BYTES_IN_WORD n)) by lia.
  destruct (fold_twice (unswap r + SWAP_BYTES_IN_WORD proto + SWAP_BYTES_IN_WORD n)) as [G1 G2]; [unfold is_u32; lia|].
  rewrite land16 by done. f_equal. apply rfc1071_host; [|eapply oc_trans; [exact G1|]|done].
  { apply Forall_app. split; [by apply pseudo_bytes|apply contents_bytes, m_bytes]. }
  rewrite pseudo_wsum, swap_split, swap_split by done || lia. unfold halves. fold s1 s2 d1 d2.
  replace (proto / 256) with 0 by (symmetry; apply Z.div_small; lia). rewrite (Z.mod_small proto) by lia.
  replace (s1 + s2 + (d1 + d2) + 256 * proto + n / 256 + 256 * (n mod 256) + wsum false (contents m l))
    with (s1 + s2 + d1 + d2 + wsum false (contents m l) + (256 * proto + 0) + (256 * (n mod 256) + n / 256)) by lia.
  apply oc_add_eq; [apply oc_add_eq; [done|apply oc_refl; lia]|apply oc_refl]. Z.to_euclidean_division_equations. lia.
Qed.
End Results.

(** C36. The three checksum routines compute RFC 1071, in the byte order of the machine:
    of any run of bytes at an even or odd address, of the contents of a chain however
    they are cut into pbufs and wherever these lie, and of the pseudo header followed by
    the contents. *)
Theorem chksum_is_rfc1071 m h p l : (forall x, is_byte (m x)) -> packet h p l ->
  (forall a n, 0 <= n < 65536 -> inet_chksum m a n = lwip_htons (rfc1071 (mem_read m a (Z.to_nat n)))) /\
  inet_chksum_pbuf h m p = Some (lwip_htons (rfc1071 (contents m l))) /\
  (forall proto n src dest, is_u32 src -> is_u32 dest -> 0 <= proto < 256 -> 0 <= n < 65536 ->
     inet_chksum_pseudo h m p proto n src dest =
     Some (lwip_htons (rfc1071 (pseudo_header proto n src dest ++ contents m l)))).
Proof.
  intros Hm Hp. split; [|split; [by apply chksum_pbuf_spec|intros; by apply chksum_pseudo_spec]].
  intros a n Hn. destruct (standard_chksum_oc m Hm a n Hn) as [O R].
  apply rfc1071_host; [apply mem_read_bytes, Hm|done..].
Qed.

(** ** What the check accepts *)
Lemma oc_full x : oc x 65535 <-> 0 < x /\ x mod 65535 = 0.
Proof. unfold oc. change (65535 mod 65535) with 0. lia. Qed.
(** A sum and the two bytes of its field. *)
Lemma accept_field s f : 0 <= s < 65536 -> 0 <= f < 65536 ->
  oc (s + f) 65535 <-> f = 65535 - s \/ s = 65535 /\ f = 65535.
Proof.
  intros Hs Hf. rewrite oc_full. split; intros H; [|destruct H as [->|[-> ->]]].
  - destruct H as [H1 H2]. pose proof (Z.div_mod (s + f) 65535 ltac:(lia)) as E. rewrite H2 in E.
    assert (0 <= (s + f) / 65535 <= 2) by (split; [apply Z.div_pos|apply Z.div_le_upper_bound]; lia). nia.
  - replace (s + (65535 - s)) with (0 + 1 * 65535) by lia. rewrite Z.mod_add by lia. by split.
  - split; [lia|done].
Qed.

(** The one's complement sum as the routines leave it. *)
Definition host_sum (c : list Z) : Z := SWAP_BYTES_IN_WORD (rfc1071_sum c).
Lemma host_sum_spec c : bytes c ->
  0 <= host_sum c < 65536 /\ oc (host_sum c) (wsum false c) /\ lwip_htons (rfc1071 c) = 65535 - host_sum c.
Proof.
  intros H. destruct (rfc1071_oc c H) as [O1 R1]. destruct (swap_oc _ R1) as [O2 R2]. split; [done|]. split.
  - eapply oc_trans; [exact O2|]. eapply oc_trans; [apply oc_mul; [lia|exact O1]|]. apply oc_sym, (wsum_swap true c H).
  - by apply htons_compl.
Qed.
Lemma field_sum A x y B : bytes (A ++ [x; y] ++ B) -> Nat.even (length A) = true ->
  oc (host_sum (A ++ [x; y] ++ B)) (host_sum (A ++ [0; 0] ++ B) + (x + 256 * y)) /\
  0 <= host_sum (A ++ [0; 0] ++ B) < 65536 /\ 0 <= x + 256 * y < 65536 /\
  lwip_htons (rfc1071 (A ++ [0; 0] ++ B)) = 65535 - host_sum (A ++ [0; 0] ++ B).
Proof.
  intros Hc He. assert (Hp : bytes A /\ is_byte x /\ is_byte y /\ bytes B).
  { apply Forall_app in Hc as [HA Hc]. apply Forall_cons in Hc as [Hx Hc]. by apply Forall_cons in Hc as [Hy HB]. }
  destruct Hp as (HA & Hx & Hy & HB).
  assert (H0 : bytes (A ++ [0; 0] ++ B)) by (apply Forall_app; split; [done|]; by repeat (apply Forall_cons; split; [done|])).
  destruct (host_sum_spec _ Hc) as (R1 & O1 & _), (host_sum_spec _ H0) as (R2 & O2 & E2). unfold is_byte in *.
  split; [|split; [done|split; [lia|done]]].
  eapply oc_trans; [exact O1|]. apply oc_sym. eapply oc_trans; [apply oc_add_eq; [exact O2|apply oc_refl; lia]|].
  rewrite !(wsum_app false A), <- Nat.negb_even, He. cbn [negb xorb app wsum].
  pose proof (wsum_range false A HA). pose proof (wsum_range false B HB).
  replace (wsum false A + (0 + (256 * 0 + wsum false B)) + (x + 256 * y))
    with (wsum false A + (x + (256 * y + wsum false B))) by lia. apply oc_refl. lia.
Qed.

(** The check of a received message succeeds exactly when the two bytes of the field
    hold the checksum of the message with zeros there; where that checksum is 0, 0xffff
    is taken too. So no error that stays within one aligned pair of bytes goes
    unnoticed, but for that. *)
Theorem chksum_accepts m h p l A x y B : (forall x, is_byte (m x)) -> packet h p l ->
  contents m l = A ++ [x; y] ++ B -> Nat.even (length A) = true ->
  let v := lwip_htons (rfc1071 (A ++ [0; 0] ++ B)) in
  inet_chksum_pbuf h m p = Some 0 <-> x + 256 * y = v \/ v = 0 /\ x + 256 * y = 65535.
Proof.
  intros Hm Hp E He. pose proof (contents_bytes m Hm l) as Hc. rewrite (chksum_pbuf_spec m Hm h p l Hp). rewrite E in *.
  destruct (host_sum_spec _ Hc) as (R1 & _ & ->). destruct (field_sum A x y B Hc He) as (O & R2 & Rf & ->). cbv zeta.
  transitivity (oc (host_sum (A ++ [0; 0] ++ B) + (x + 256 * y)) 65535).
  - split; intros H.
    + apply (inj Some) in H. assert (host_sum (A ++ [x; y] ++ B) = 65535) as E2 by lia. rewrite E2 in O. by apply oc_sym.
    + f_equal. enough (host_sum (A ++ [x; y] ++ B) = 65535) by lia. apply oc_exact; [|lia..]. by eapply oc_trans.
  - rewrite accept_field by done. lia.
Qed.

(** *** A chain in three pieces, one of odd length at an odd address *)
Definition ck_chain : list (Z * pbuf_t) :=
  [(1000, mkPbuf (Some 2000) 4097 9 3 PBUF_POOL 0 1); (2000, mkPbuf (Some 3000) 5000 6 2 PBUF_POOL 0 1);
   (3000, mkPbuf None 6002 4 4 PBUF_POOL 0 1)].
Definition ck_heap : gmap Z pbuf_t := list_to_map ck_chain.
Definition ck_mem : mem := mem_write (mem_write (mem_write (fun _ => 0) 4097 [8; 0; 182]) 5000 [196; 0]) 6002 [42; 0; 17; 65].
Lemma ck_packet : packet ck_heap (Some 1000) ck_chain.
Proof. repeat split; cbn; try lia; reflexivity. Qed.
Lemma ck_bytes x : is_byte (ck_mem x).
Proof.
  revert x. assert (H : bytes [8; 0; 182] /\ bytes [196; 0] /\ bytes [42; 0; 17; 65]).
  { unfold bytes, is_byte. rewrite !Forall_cons, !Forall_nil. lia. }
  destruct H as (H1 & H2 & H3). apply mem_write_bytes; [|exact H3]. apply mem_write_bytes; [|exact H2].
  apply mem_write_bytes; [done|exact H1].
Qed.
Lemma ck_contents : contents ck_mem ck_chain = [8; 0; 182; 196; 0; 42; 0; 17; 65].
Proof. vm_compute. reflexivity. Qed.
Lemma chksum_is_rfc1071_witness :
  inet_chksum_pbuf ck_heap ck_mem (Some 1000) = Some (lwip_htons (rfc1071 [8; 0; 182; 196; 0; 42; 0; 17; 65])).
Proof.
  destruct (chksum_is_rfc1071 ck_mem ck_heap (Some 1000) ck_chain ck_bytes ck_packet) as (_ & H & _).
  rewrite H, ck_contents. reflexivity.
Defined.
Lemma chksum_accepts_witness : inet_chksum_pbuf ck_heap ck_mem (Some 1000) = Some 0.
Proof.
  apply (chksum_accepts ck_mem ck_heap (Some 1000) ck_chain [8; 0] 182 196 [0; 42; 0; 17; 65]);
    [apply ck_bytes|apply ck_packet|apply ck_contents|reflexivity|]. left. vm_compute. reflexivity.
Defined.
