(* ===== verification/Memp.v ===== *)
(** * The fixed-size pools of lwIP (lwip-2.0.3/src/core/memp.c)

    Each pool is a free list threaded through its elements.  Specification: the
    elements of a pool are split into the free ones and those in use.  Proved: how
    [memp_malloc_pool] and [memp_free_pool] move elements between the two, and that
    memp.c and mem.c together satisfy the laws the pbuf functions rely on, so that
    the theorems of Pbuf hold for the allocators of the board. *)
From stdpp Require Import gmap.
From S2P Require Import Prelude Net LwipMem Pbuf.

(** [struct memp_desc]; [size] is already aligned. *)
Record memp_desc := mkDesc { size : Z; num : nat; base : Z }.

(** No overflow check is configured. *)
Definition MEMP_SIZE : Z := 0.

(** [*desc->tab] as a list. *)
Abbreviation tab := (list Z).

Fixpoint init_loop (desc : memp_desc) (i : nat) (memp : Z) (t : tab) : tab :=
  match i with
  | O => t
  | S i => init_loop desc i (memp + MEMP_SIZE + size desc) (memp :: t)
  end.
Definition memp_init_pool (desc : memp_desc) : tab :=
  init_loop desc (num desc) (LWIP_MEM_ALIGN_SIZE (base desc)) [].

Definition do_memp_malloc_pool (t : tab) : option Z * tab :=
  match t with
  | memp :: t' => (Some (memp + MEMP_SIZE), t')
  | [] => (None, [])
  end.

(** [None] is the NULL pool or the NULL element. *)
Definition memp_malloc_pool (t : option tab) : option Z * option tab :=
  match t with
  | None => (None, None)
  | Some t => let '(r, t') := do_memp_malloc_pool t in (r, Some t')
  end.

Definition do_memp_free_pool (t : tab) (mem : Z) : tab := (mem - MEMP_SIZE) :: t.

Definition memp_free_pool (t : option tab) (mem : option Z) : option tab :=
  match t, mem with
  | Some t, Some mem => Some (do_memp_free_pool t mem)
  | _, _ => t
  end.

(** The built-in pools: the state is the free list of each. *)
Section Pools.
Variable memp_pools : list memp_desc.
Definition MEMP_MAX : nat := length memp_pools.

Definition memp_init : gmap nat tab := map_seq 0 (map memp_init_pool memp_pools).

Definition tab_of (type : nat) (tabs : gmap nat tab) : tab := default [] (tabs !! type).

Definition memp_malloc (type : nat) (tabs : gmap nat tab) : option Z * gmap nat tab :=
  if (type <? MEMP_MAX)%nat then
    let '(r, t') := do_memp_malloc_pool (tab_of type tabs) in (r, <[type := t']> tabs)
  else (None, tabs).

Definition memp_free (type : nat) (mem : option Z) (tabs : gmap nat tab) : gmap nat tab :=
  if (type <? MEMP_MAX)%nat then
    match mem with
    | None => tabs
    | Some mem => <[type := do_memp_free_pool (tab_of type tabs) mem]> tabs
    end
  else tabs.

Lemma memp_malloc_tab type tabs : (type < MEMP_MAX)%nat ->
  (memp_malloc type tabs).1 = (do_memp_malloc_pool (tab_of type tabs)).1 /\
  forall k, tab_of k (memp_malloc type tabs).2 =
    if decide (k = type) then (do_memp_malloc_pool (tab_of type tabs)).2 else tab_of k tabs.
Proof.
  intros Ht%Nat.ltb_lt. unfold memp_malloc. rewrite Ht. destruct (do_memp_malloc_pool _) as [r t'].
  split; [done|]. intros k. unfold tab_of at 1. cbn [snd]. case_decide; subst;
    [by rewrite lookup_insert_eq|by rewrite lookup_insert_ne].
Qed.

Lemma memp_free_tab type q tabs : (type < MEMP_MAX)%nat ->
  forall k, tab_of k (memp_free type (Some q) tabs) = if decide (k = type) then q :: tab_of type tabs else tab_of k tabs.
Proof.
  intros Ht%Nat.ltb_lt k. unfold memp_free. rewrite Ht. unfold tab_of at 1, do_memp_free_pool, MEMP_SIZE.
  rewrite Z.sub_0_r. case_decide; subst; [by rewrite lookup_insert_eq|by rewrite lookup_insert_ne].
Qed.
End Pools.

(** ** Free elements and elements in use *)
Definition elements (d : memp_desc) : list Z :=
  map (fun i => LWIP_MEM_ALIGN_SIZE (base d) + Z.of_nat i * size d) (seq 0 (num d)).

Definition pool_rep (d : memp_desc) (t : tab) (inuse : list Z) : Prop := t ++ inuse ≡ₚ elements d.

Definition desc_ok (d : memp_desc) : Prop := 0 < size d /\ size d mod MEM_ALIGNMENT = 0.

Lemma init_loop_elements d i k t :
  init_loop d i (LWIP_MEM_ALIGN_SIZE (base d) + Z.of_nat k * size d) t ≡ₚ
  t ++ map (fun j => LWIP_MEM_ALIGN_SIZE (base d) + Z.of_nat j * size d) (seq k i).
Proof.
  revert k t; induction i as [|i IH]; intros k t; cbn [init_loop seq map]; [by rewrite app_nil_r|].
  replace (LWIP_MEM_ALIGN_SIZE (base d) + Z.of_nat k * size d + MEMP_SIZE + size d)
    with (LWIP_MEM_ALIGN_SIZE (base d) + Z.of_nat (S k) * size d) by (unfold MEMP_SIZE; lia).
  rewrite IH. cbn [app]. by rewrite Permutation_middle.
Qed.

Lemma init_rep d : pool_rep d (memp_init_pool d) [].
Proof.
  unfold pool_rep, memp_init_pool. rewrite app_nil_r.
  pose proof (init_loop_elements d (num d) 0 []) as H. cbn [Z.of_nat Z.mul] in H. by rewrite Z.add_0_r in H.
Qed.

Lemma elements_spec d q : desc_ok d -> q ∈ elements d ->
  q mod MEM_ALIGNMENT = 0 /\ LWIP_MEM_ALIGN_SIZE (base d) <= q /\
  q + size d <= LWIP_MEM_ALIGN_SIZE (base d) + Z.of_nat (num d) * size d.
Proof.
  intros [H1 H2] (i & -> & Hi)%list_elem_of_fmap. apply elem_of_seq in Hi.
  split; [|nia]. unfold LWIP_MEM_ALIGN_SIZE. change MEM_ALIGNMENT with 4 in *.
  assert (H3 : (Z.of_nat i * size d) mod 4 = 0) by (rewrite Z.mul_mod, H2, Z.mul_0_r by done; done).
  Z.to_euclidean_division_equations. lia.
Qed.

Lemma elements_NoDup d : desc_ok d -> NoDup (elements d).
Proof.
  intros [H _]. apply NoDup_fmap_2_strong; [|apply NoDup_ListNoDup, seq_NoDup]. intros i j _ _ E. nia.
Qed.

(** memp_malloc_pool takes one of the free elements of a pool, aligned and inside the
    pool, or returns NULL when all are in use; memp_free_pool gives one back; after
    memp_init_pool every element is free. *)
Theorem memp_pool_accounts d t inuse : desc_ok d -> pool_rep d t inuse ->
  (let '(r, t') := memp_malloc_pool (Some t) in
   match r with
   | None => t' = Some t /\ inuse ≡ₚ elements d
   | Some q => exists t1, t' = Some t1 /\ pool_rep d t1 (q :: inuse) /\ (q ∉ inuse) /\
       q mod MEM_ALIGNMENT = 0 /\ LWIP_MEM_ALIGN_SIZE (base d) <= q /\
       q + size d <= LWIP_MEM_ALIGN_SIZE (base d) + Z.of_nat (num d) * size d
   end) /\
  (forall q inuse', inuse ≡ₚ q :: inuse' -> exists t1,
     memp_free_pool (Some t) (Some q) = Some t1 /\ pool_rep d t1 inuse') /\
  pool_rep d (memp_init_pool d) [].
Proof.
  intros Hd H. split; [|split; [|apply init_rep]].
  - destruct t as [|q t]; cbn [memp_malloc_pool do_memp_malloc_pool]; [by split|]. unfold MEMP_SIZE. rewrite Z.add_0_r.
    unfold pool_rep in H. exists t. split; [done|]. assert (E : t ++ q :: inuse ≡ₚ elements d) by (rewrite <- H; by rewrite <- Permutation_middle).
    split; [exact E|]. pose proof (elements_NoDup d Hd) as Hn. rewrite <- E, <- Permutation_middle in Hn.
    apply NoDup_cons in Hn as [Hn _]. rewrite elem_of_app in Hn. split; [tauto|].
    apply elements_spec; [done|]. rewrite <- H. cbn. left.
  - intros q inuse' E. eexists. split; [reflexivity|]. unfold pool_rep, do_memp_free_pool, MEMP_SIZE in *. rewrite Z.sub_0_r.
    rewrite <- H, E. cbn [app]. by rewrite <- Permutation_middle.
Qed.

(** ** The allocators behind the pbuf functions

    [memp_pools] has a pool of pbuf headers and one of pbufs with their buffers, at the
    indices of the enumeration memp_t; [ram_heap] is the address of the heap and
    [custom] the free function of the pbufs whose memory is the driver's. *)
Record allocators := mkAllocators { tabs : gmap nat tab; lheap : heap_t }.

Section Board.
Context (memp_pools : list memp_desc) (MEMP_PBUF MEMP_PBUF_POOL : nat) (ram_heap : Z).
Context (custom : Z -> allocators -> allocators).

(** A call that the heap leaves undefined returns NULL; the heap keeps its state. *)
Definition on_heap {X} (d : X) (m : H X) : M allocators X := fun a =>
  match m (lheap a) with
  | Some (x, h) => (x, mkAllocators (tabs a) h)
  | None => (d, a)
  end.
Definition on_pools {X} (f : gmap nat tab -> X * gmap nat tab) : M allocators X := fun a =>
  let '(x, t) := f (tabs a) in (x, mkAllocators t (lheap a)).

#[local] Instance board_alloc : PbufAlloc allocators := {
  Pbuf.memp_malloc_pbuf := on_pools (memp_malloc memp_pools MEMP_PBUF);
  Pbuf.memp_malloc_pool := on_pools (memp_malloc memp_pools MEMP_PBUF_POOL);
  Pbuf.mem_malloc n a :=
    let '(r, a') := on_heap None (LwipMem.mem_malloc n) a in ((fun i => ram_heap + i) <$> r, a');
  Pbuf.memp_free_pbuf q := on_pools (fun t => (tt, memp_free memp_pools MEMP_PBUF (Some q) t));
  Pbuf.memp_free_pool q := on_pools (fun t => (tt, memp_free memp_pools MEMP_PBUF_POOL (Some q) t));
  Pbuf.mem_free q := on_heap tt (LwipMem.mem_free (Some (q - ram_heap)));
  Pbuf.mem_trim q n := on_heap tt (LwipMem.mem_trim (q - ram_heap) n;; mret tt);
  Pbuf.custom_free q a := (tt, custom q a)
}.

Hypothesis pool_ok : (MEMP_PBUF_POOL < MEMP_MAX memp_pools)%nat.

#[local] Instance board_alloc_laws : PbufAllocLaws allocators.
Proof.
  refine {| pool_list := fun a => tab_of MEMP_PBUF_POOL (tabs a) |}; cbn; unfold on_pools.
  - intros a q a'. destruct (memp_malloc_tab memp_pools _ (tabs a) pool_ok) as [H1 H2]. specialize (H2 MEMP_PBUF_POOL).
    destruct (memp_malloc _ _ _) as [r t]. intros [= -> <-]. cbn in *. rewrite H2, decide_True by done.
    clear H2; revert H1; destruct (tab_of _ _) as [|x l]; unfold do_memp_malloc_pool, MEMP_SIZE in *; cbn in *; [done|]; intros H1.
    injection H1 as ->. by rewrite Z.add_0_r.
  - intros a a'. destruct (memp_malloc_tab memp_pools _ (tabs a) pool_ok) as [H1 H2]. specialize (H2 MEMP_PBUF_POOL).
    destruct (memp_malloc _ _ _) as [r t]. intros [= -> <-]. cbn in *. rewrite H2, decide_True by done.
    clear H2; revert H1. by destruct (tab_of _ _).
  - intros q a. by rewrite memp_free_tab, decide_True by done.
Defined.

Definition pool_tab (s : pstate allocators) : tab := tab_of MEMP_PBUF_POOL (tabs (palloc s)).

(** Only the pool's elements in use hold a pbuf. *)
Definition pool_state (d : memp_desc) (s : pstate allocators) (inuse : list Z) : Prop :=
  pool_rep d (pool_tab s) inuse /\ forall q, q ∈ elements d -> is_Some (pbs s !! q) -> q ∈ inuse.

Lemma pool_state_owned d s inuse : desc_ok d -> pool_state d s inuse -> owned (dom (pbs s)) (palloc s).
Proof.
  intros Hd [H1 H2]. unfold pool_rep in H1. pose proof (elements_NoDup d Hd) as Hn. rewrite <- H1 in Hn. apply NoDup_app in Hn as (N1 & N2 & _).
  assert (Hin : forall q, q ∈ pool_tab s -> q ∈ elements d) by (intros q Hq; rewrite <- H1; apply elem_of_app; by left).
  split; [exact N1|]. split; [apply Forall_forall; intros q Hq; by apply (elements_spec d q Hd), Hin|].
  intros q Hq Hx%elem_of_dom. apply (N2 q Hq). by apply H2; [apply Hin|].
Qed.

Lemma all_in_block_plain l : Forall in_block l -> plain l.
Proof. intros H. split; (eapply Forall_impl; [exact H|]); by intros [q b] (_ & _ & _ & H1 & H2 & H3). Qed.

Lemma free_count_all l : refs_one l -> free_count l = length l.
Proof. induction l as [|[a b] l IH]; [done|]. intros [H1 H2]%Forall_cons. cbn in *. by rewrite H1, Z.eqb_refl, IH. Qed.

Lemma alloc_then_free (s s1 : pstate allocators) p l : packet (pbs s1) (Some p) l -> Forall in_block l ->
  Forall (fun x => pbs s !! x.1 = None) l -> (forall a, ~ In a (map fst l) -> pbs s1 !! a = pbs s !! a) ->
  exists s2, pbuf_free (Some p) s1 = Some (u8 (Z.of_nat (length l)), s2) /\ pbs s2 = pbs s /\ pdata s2 = pdata s1 /\
    pool_tab s2 ≡ₚ map fst l ++ pool_tab s1.
Proof.
  intros [Hc _] Hb%all_in_block_plain Hfresh Hsame. destruct Hb as [Hb Hr].
  destruct (free_ok s1 (Some p) l Hc (refs_one_ok _ Hr)) as (s2 & E & Hd & Hp & K1 & K2 & _).
  rewrite (free_count_all _ Hr) in E, K1. rewrite firstn_all in K1. exists s2. split; [exact E|].
  split; [|split; [exact Hd|by apply (Hp Hb Hr board_alloc_laws)]].
  apply map_eq. intros a. destruct (in_dec Z.eq_dec a (map fst l)) as [Hin|Hin]; [|by rewrite K2, Hsame].
  rewrite K1 by done. apply list_elem_of_In, list_elem_of_fmap in Hin as ([x b] & -> & Hx).
  rewrite Forall_forall in Hfresh. by rewrite (Hfresh _ Hx).
Qed.

(** C24. Over memp.c and mem.c, pbuf_alloc from the pool either returns a chain of pool
    elements that were free, with the requested length, which pbuf_free then gives back
    to the last one so that buffers and pool are as before; or it returns NULL with the
    pool unchanged, and then the free elements were too few for the request. *)
Theorem pbuf_pool_conserved d s inuse layer n : desc_ok d -> pool_state d s inuse -> 0 <= n < 65536 ->
  exists r s1, pbuf_alloc layer n PBUF_POOL s = Some (r, s1) /\ pdata s1 = pdata s /\
  match r with
  | None => pbs s1 = pbs s /\ pool_state d s1 inuse /\
      (pool_tab s = [] \/ Z.of_nat (length (pool_tab s)) * PBUF_POOL_BUFSIZE_ALIGNED <
                          n + LWIP_MEM_ALIGN_SIZE (header_offset layer))
  | Some p => exists l, packet (pbs s1) (Some p) l /\ sum_len l = n /\ Forall in_block l /\
      Forall (fun x => x.1 ∈ elements d) l /\ pool_state d s1 (map fst l ++ inuse) /\
      exists s2, pbuf_free (Some p) s1 = Some (u8 (Z.of_nat (length l)), s2) /\
        pbs s2 = pbs s /\ pdata s2 = pdata s /\ pool_state d s2 inuse
  end.
Proof.
  intros Hd Hs Hn. pose proof Hs as [Hrep Huse]. unfold pool_rep in Hrep.
  destruct (alloc_pool_ok (PbufAllocLaws0 := board_alloc_laws) s layer n (pool_state_owned d s inuse Hd Hs) Hn)
    as (s1 & Hdat & [(E & K1 & K2 & K3)|(p & b & t & E & K1 & K2 & K3 & K4 & K5 & K6 & K7 & K8)]).
  - exists None, s1. split; [exact E|]. split; [exact Hdat|]. split; [exact K1|]. split; [|exact K3].
    split; [|by rewrite K1]. unfold pool_rep. rewrite <- Hrep. by apply Permutation_app_tail.
  - exists (Some p), s1. split; [exact E|]. split; [exact Hdat|]. set (l := (p, b) :: t) in *.
    assert (Hrep1 : pool_rep d (pool_tab s1) (map fst l ++ inuse)).
    { unfold pool_rep. rewrite <- Hrep, app_assoc. apply Permutation_app_tail. rewrite Permutation_app_comm. symmetry. exact K8. }
    exists l. split; [exact K1|]. split; [exact K2|]. split; [exact K4|]. split; [|split; [split; [exact Hrep1|]|]].
    + apply Forall_forall. intros x Hx. unfold pool_rep in Hrep1. rewrite <- Hrep1, !elem_of_app. right. left. by apply list_elem_of_fmap_2.
    + intros q Hq Hsome. apply elem_of_app. destruct (in_dec Z.eq_dec q (map fst l)) as [Hin|Hin]; [left; by apply list_elem_of_In|].
      right. apply Huse; [done|]. by rewrite <- K6.
    + destruct (alloc_then_free s s1 p l K1 K4 K5 K6) as (s2 & E2 & P1 & P2 & P3). exists s2.
      split; [exact E2|]. split; [exact P1|]. split; [congruence|]. split; [|by rewrite P1].
      unfold pool_rep. rewrite P3, <- Hrep. apply Permutation_app_tail. symmetry. exact K8.
Qed.
End Board.

(** ** Witnesses *)
(** The pool of pbuf headers and the pool of lwipopts.h: four buffers of 1528 bytes. *)
Definition demo_pools : list memp_desc := [mkDesc 16 10 4096; mkDesc 1544 4 8192].
Definition demo_desc : memp_desc := mkDesc 1544 4 8192.

(** After [mem_init] and [memp_init]. *)
Definition demo_heap : heap_t :=
  match mem_init (mkHeap ∅ 0 (fun _ => 0)) with Some (_, h) => h | None => mkHeap ∅ 0 (fun _ => 0) end.
Definition demo_board : pstate allocators :=
  mkPs ∅ (fun _ => 0) (mkAllocators (memp_init demo_pools) demo_heap).

Lemma demo_desc_ok : desc_ok demo_desc.
Proof. by vm_compute. Qed.

Lemma demo_pool_state : pool_state 1 demo_desc demo_board [].
Proof.
  split; [|intros q _ [b Hb]; cbn in Hb; by rewrite lookup_empty in Hb].
  replace (pool_tab 1 demo_board) with (memp_init_pool demo_desc) by (by vm_compute). apply init_rep.
Qed.

Lemma memp_pool_accounts_witness : exists q t,
  memp_malloc_pool (Some (memp_init_pool demo_desc)) = (Some q, Some t) /\ pool_rep demo_desc t [q].
Proof.
  destruct (memp_pool_accounts demo_desc (memp_init_pool demo_desc) [] demo_desc_ok (init_rep _)) as (H1 & _ & _).
  destruct (memp_malloc_pool _) as [[q|] t'] eqn:E.
  - destruct H1 as (t & -> & H1 & _). by exists q, t.
  - discriminate E.
Defined.

Lemma pbuf_pool_conserved_witness : exists p c s1 s2 l,
  pbuf_alloc (PbufAlloc0 := board_alloc demo_pools 0 1 0 (fun _ a => a)) PBUF_TRANSPORT 4000 PBUF_POOL demo_board = Some (Some p, s1) /\
  sum_len l = 4000 /\ pool_state 1 demo_desc s1 (map fst l ++ []) /\
  pbuf_free (PbufAlloc0 := board_alloc demo_pools 0 1 0 (fun _ a => a)) (Some p) s1 = Some (c, s2) /\
  pool_state 1 demo_desc s2 [].
Proof.
  destruct (pbuf_pool_conserved demo_pools 0 1 0 (fun _ a => a) ltac:(by vm_compute; lia) demo_desc demo_board [] PBUF_TRANSPORT 4000
    demo_desc_ok demo_pool_state ltac:(lia)) as (r & s1 & E & _ & H).
  assert (Er : r = Some 12824) by (apply (f_equal (option_map fst)) in E; vm_compute in E; congruence). subst r.
  destruct H as (l & _ & H1 & _ & _ & H2 & s2 & H3 & _ & _ & H4). exists 12824, (u8 (Z.of_nat (length l))), s1, s2, l.
  split; [exact E|]. split; [exact H1|]. split; [exact H2|]. by split.
Defined.
