(* ===== verification/Etharp.v ===== *)
(** * Address resolution (lwip-2.0.3/src/core/ipv4/etharp.c, netif/ethernet.c)

    The ARP table with its states, ages and queued packets, and the Ethernet layer on
    both sides of it.  The pbuf functions it calls are the class [PbufApi], which
    [pbuf_impl] implements with the functions of Pbuf; the driver's [linkoutput] is the
    class [LinkDriver]; [ip4_input] and [dhcp_arp_reply], which may send packets and so
    re-enter this file, are arguments.  Proved: the invariant of the table, who owns the
    queued packets, that the one-entry cache never changes where a packet goes, and that
    entries expire. *)
From stdpp Require Import gmap.
From S2P Require Import Prelude Net Ip4Addr Ip4Hdr Pbuf Memp.

(** opt.h, etharp.h, prot/etharp.h, prot/ethernet.h *)
Definition ARP_TABLE_SIZE : nat := 10.
Definition ARP_MAXAGE : Z := 300.
Definition ARP_AGE_REREQUEST_USED_UNICAST : Z := ARP_MAXAGE - 30.
Definition ARP_AGE_REREQUEST_USED_BROADCAST : Z := ARP_MAXAGE - 15.
Definition ARP_MAXPENDING : Z := 5.
Definition SIZEOF_ETH_HDR : Z := 14.
Definition SIZEOF_ETHARP_HDR : Z := 28.
Definition ETH_HWADDR_LEN : Z := 6.
Definition HWTYPE_ETHERNET : Z := 1.
Definition ARP_REQUEST : Z := 1.
Definition ARP_REPLY : Z := 2.
Definition ETHTYPE_IP : Z := 0x0800.
Definition ETHTYPE_ARP : Z := 0x0806.
Definition NETIF_FLAG_ETHARP : Z := 0x08.
Definition PBUF_FLAG_LLBCAST : Z := 0x08.
Definition PBUF_FLAG_LLMCAST : Z := 0x10.

(** [struct eth_addr]: six bytes. *)
Abbreviation eth_addr := (list Z).
Definition ethbroadcast : eth_addr := [0xff; 0xff; 0xff; 0xff; 0xff; 0xff].
Definition ethzero : eth_addr := [0; 0; 0; 0; 0; 0].

Inductive etharp_state :=
  | ETHARP_STATE_EMPTY
  | ETHARP_STATE_PENDING
  | ETHARP_STATE_STABLE
  | ETHARP_STATE_STABLE_REREQUESTING_1
  | ETHARP_STATE_STABLE_REREQUESTING_2.
#[export] Instance etharp_state_eq_dec : EqDecision etharp_state.
Proof. solve_decision. Defined.

(** [state >= ETHARP_STATE_STABLE] *)
Definition is_stable (st : etharp_state) : bool :=
  match st with ETHARP_STATE_EMPTY | ETHARP_STATE_PENDING => false | _ => true end.

(** [q] is the queued packet; [e_netif] the interface. *)
Record etharp_entry := mkEntry {
  q : option Z;
  ipaddr : Z;
  e_netif : Z;
  ethaddr : eth_addr;
  ctime : Z;
  state : etharp_state
}.
#[export] Instance etharp_entry_inhabited : Inhabited etharp_entry :=
  populate (mkEntry None 0 0 ethzero 0 ETHARP_STATE_EMPTY).
Definition set_q (v : option Z) (e : etharp_entry) : etharp_entry :=
  mkEntry v (ipaddr e) (e_netif e) (ethaddr e) (ctime e) (state e).
Definition set_ipaddr (v : Z) (e : etharp_entry) : etharp_entry :=
  mkEntry (q e) v (e_netif e) (ethaddr e) (ctime e) (state e).
Definition set_netif (v : Z) (e : etharp_entry) : etharp_entry :=
  mkEntry (q e) (ipaddr e) v (ethaddr e) (ctime e) (state e).
Definition set_ethaddr (v : eth_addr) (e : etharp_entry) : etharp_entry :=
  mkEntry (q e) (ipaddr e) (e_netif e) v (ctime e) (state e).
Definition set_ctime (v : Z) (e : etharp_entry) : etharp_entry :=
  mkEntry (q e) (ipaddr e) (e_netif e) (ethaddr e) v (state e).
Definition set_state (v : etharp_state) (e : etharp_entry) : etharp_entry :=
  mkEntry (q e) (ipaddr e) (e_netif e) (ethaddr e) (ctime e) v.

(** The fields of [struct netif] that are read here. *)
Record netif := mkNetif { hwaddr : eth_addr; ip_addr : Z; netmask : Z; gw : Z; nif_flags : Z }.

(** ** What the file calls *)

(** The functions of pbuf.c and the accesses to [struct pbuf]: [chain_of] is the pbuf
    with those linked behind it, [payload_of] the first bytes at its payload. *)
Class PbufApi (X : Type) := {
  chain_of : X -> Z -> list pbuf_t;
  payload_of : X -> Z -> nat -> list Z;
  write_payload : Z -> list Z -> M X unit;
  or_flags : Z -> Z -> M X unit;
  pbuf_alloc : pbuf_layer -> Z -> pbuf_type -> M X (option Z);
  pbuf_free : Z -> M X unit;
  pbuf_ref : Z -> M X unit;
  pbuf_copy : Z -> Z -> M X Z;
  pbuf_header : Z -> Z -> M X Z
}.

(** [netif->linkoutput(netif, p)] *)
Class LinkDriver (X : Type) := { linkoutput : Z -> Z -> M X Z }.

Record arp_sys (X : Type) := mkArp { arp_table : list etharp_entry; etharp_cached_entry : nat; net : X }.
Arguments mkArp {X}. Arguments arp_table {X}. Arguments etharp_cached_entry {X}. Arguments net {X}.

Section Etharp.
Context {X : Type} `{!PbufApi X, !LinkDriver X}.
Context (netif_at : Z -> netif).
#[local] Abbreviation sys := (arp_sys X).

Definition on_net {A} (m : M X A) : M sys A := fun s =>
  let '(a, x) := m (net s) in (a, mkArp (arp_table s) (etharp_cached_entry s) x).
(** [arp_table[i]] *)
Definition entry (i : nat) : M sys etharp_entry := gets (fun s => arp_table s !!! i).
Definition update (i : nat) (f : etharp_entry -> etharp_entry) : M sys unit :=
  modify (fun s => mkArp (alter f i (arp_table s)) (etharp_cached_entry s) (net s)).
Definition ETHARP_SET_HINT (i : nat) : M sys unit := modify (fun s => mkArp (arp_table s) i (net s)).

(** [for (i = 0; i < ARP_TABLE_SIZE; ++i)] *)
Fixpoint each (l : list nat) (body : nat -> M sys unit) : M sys unit :=
  match l with [] => ret tt | i :: l => body i ;;; each l body end.
Definition indices : list nat := seq 0 ARP_TABLE_SIZE.

(** *** ethernet.c, sending *)
Definition bytes16 (n : Z) : list Z := [n mod 256; n / 256 mod 256].
Definition bytes32 (n : Z) : list Z := [n mod 256; n / 256 mod 256; n / 65536 mod 256; n / 16777216 mod 256].

Definition ethernet_output (nif p : Z) (src dst : eth_addr) (eth_type : Z) : M sys Z :=
  let eth_type_be := lwip_htons eth_type in
  r <- on_net (pbuf_header p SIZEOF_ETH_HDR) ;;
  if negb (r =? 0) then ret ERR_BUF else
  on_net (write_payload p (dst ++ src ++ bytes16 eth_type_be)) ;;;
  on_net (linkoutput nif p).

(** *** etharp.c *)
Definition etharp_raw (nif : Z) (ethsrc ethdst hwsrc : eth_addr) (ipsrc : Z) (hwdst : eth_addr)
    (ipdst opcode : Z) : M sys Z :=
  p <- on_net (pbuf_alloc PBUF_LINK SIZEOF_ETHARP_HDR PBUF_RAM) ;;
  match p with
  | None => ret ERR_MEM
  | Some p =>
      on_net (write_payload p
        (bytes16 (PP_HTONS HWTYPE_ETHERNET) ++ bytes16 (PP_HTONS ETHTYPE_IP) ++
         [ETH_HWADDR_LEN; 4] ++ bytes16 (lwip_htons opcode) ++
         hwsrc ++ bytes32 ipsrc ++ hwdst ++ bytes32 ipdst)) ;;;
      ethernet_output nif p ethsrc ethdst ETHTYPE_ARP ;;;
      on_net (pbuf_free p) ;;;
      ret ERR_OK
  end.

Definition etharp_request_dst (nif ip : Z) (hw_dst : eth_addr) : M sys Z :=
  let n := netif_at nif in
  etharp_raw nif (hwaddr n) hw_dst (hwaddr n) (ip_addr n) ethzero ip ARP_REQUEST.
Definition etharp_request (nif ip : Z) : M sys Z := etharp_request_dst nif ip ethbroadcast.

Definition etharp_free_entry (i : nat) : M sys unit :=
  e <- entry i ;;
  match q e with
  | Some p => on_net (pbuf_free p) ;;; update i (set_q None)
  | None => ret tt
  end ;;;
  update i (set_state ETHARP_STATE_EMPTY).

Definition tmr_entry (i : nat) : M sys unit :=
  e <- entry i ;;
  if bool_decide (state e = ETHARP_STATE_EMPTY) then ret tt else
  update i (fun e => set_ctime (u16 (ctime e + 1)) e) ;;;
  e <- entry i ;;
  if (ARP_MAXAGE <=? ctime e) ||
     (bool_decide (state e = ETHARP_STATE_PENDING) && (ARP_MAXPENDING <=? ctime e))
  then etharp_free_entry i
  else match state e with
       | ETHARP_STATE_STABLE_REREQUESTING_1 => update i (set_state ETHARP_STATE_STABLE_REREQUESTING_2)
       | ETHARP_STATE_STABLE_REREQUESTING_2 => update i (set_state ETHARP_STATE_STABLE)
       | ETHARP_STATE_PENDING => etharp_request (e_netif e) (ipaddr e) ;;; ret tt
       | _ => ret tt
       end.
Definition etharp_tmr : M sys unit := each indices tmr_entry.

(** The candidates of the search; [ARP_TABLE_SIZE] is "none". *)
Record candidates := mkCand {
  c_empty : nat; old_stable : nat; old_pending : nat; old_queue : nat;
  age_stable : Z; age_pending : Z; age_queue : Z }.
Definition no_candidates : candidates :=
  mkCand ARP_TABLE_SIZE ARP_TABLE_SIZE ARP_TABLE_SIZE ARP_TABLE_SIZE 0 0 0.

(** The sweep: a match ([inl]) or the candidates. *)
Fixpoint find_scan (t : list etharp_entry) (i : nat) (ip : option Z) (c : candidates) : nat + candidates :=
  match t with
  | [] => inr c
  | e :: t' =>
      if (c_empty c =? ARP_TABLE_SIZE)%nat && bool_decide (state e = ETHARP_STATE_EMPTY) then
        find_scan t' (S i) ip (mkCand i (old_stable c) (old_pending c) (old_queue c)
                                 (age_stable c) (age_pending c) (age_queue c))
      else if bool_decide (state e = ETHARP_STATE_EMPTY) then find_scan t' (S i) ip c
      else if bool_decide (ip = Some (ipaddr e)) then inl i
      else if bool_decide (state e = ETHARP_STATE_PENDING) then
        match q e with
        | Some _ =>
            if age_queue c <=? ctime e then
              find_scan t' (S i) ip (mkCand (c_empty c) (old_stable c) (old_pending c) i
                                       (age_stable c) (age_pending c) (ctime e))
            else find_scan t' (S i) ip c
        | None =>
            if age_pending c <=? ctime e then
              find_scan t' (S i) ip (mkCand (c_empty c) (old_stable c) i (old_queue c)
                                       (age_stable c) (ctime e) (age_queue c))
            else find_scan t' (S i) ip c
        end
      else
        if age_stable c <=? ctime e then
          find_scan t' (S i) ip (mkCand (c_empty c) i (old_pending c) (old_queue c)
                                   (ctime e) (age_pending c) (age_queue c))
        else find_scan t' (S i) ip c
  end.

(** The entry to recycle. *)
Definition victim (c : candidates) : option nat :=
  if (old_stable c <? ARP_TABLE_SIZE)%nat then Some (old_stable c)
  else if (old_pending c <? ARP_TABLE_SIZE)%nat then Some (old_pending c)
  else if (old_queue c <? ARP_TABLE_SIZE)%nat then Some (old_queue c)
  else None.

(** [flags] as the two bits; [None] is ERR_MEM. *)
Definition etharp_find_entry (ip : option Z) (try_hard find_only : bool) : M sys (option nat) :=
  t <- gets arp_table ;;
  match find_scan t 0 ip no_candidates with
  | inl i => ret (Some i)
  | inr c =>
      let have_empty := (c_empty c <? ARP_TABLE_SIZE)%nat in
      if find_only || (negb have_empty && negb try_hard) then ret None else
      let init i := update i (fun e => set_ctime 0 (match ip with Some a => set_ipaddr a e | None => e end)) ;;;
                    ret (Some i) in
      if have_empty then init (c_empty c) else
      match victim c with
      | None => ret None
      | Some i => etharp_free_entry i ;;; init i
      end
  end.

Definition isbroadcast (ip nif : Z) : bool :=
  let n := netif_at nif in
  ip4_addr_isbroadcast_u32 ip (ip_addr n) (netmask n)
    (negb (Z.land (nif_flags n) NETIF_FLAG_BROADCAST =? 0)).

(** The flags are ETHARP_FLAG_TRY_HARD or ETHARP_FLAG_FIND_ONLY. *)
Definition etharp_update_arp_entry (nif ip : Z) (mac : eth_addr) (try_hard : bool) : M sys Z :=
  if (ip =? IPADDR_ANY) || isbroadcast ip nif || ip4_addr_ismulticast ip then ret ERR_ARG else
  i <- etharp_find_entry (Some ip) try_hard (negb try_hard) ;;
  match i with
  | None => ret ERR_MEM
  | Some i =>
      update i (set_state ETHARP_STATE_STABLE) ;;;
      update i (set_netif nif) ;;;
      update i (set_ethaddr mac) ;;;
      update i (set_ctime 0) ;;;
      e <- entry i ;;
      match q e with
      | Some p =>
          update i (set_q None) ;;;
          ethernet_output nif p (hwaddr (netif_at nif)) mac ETHTYPE_IP ;;;
          on_net (pbuf_free p) ;;;
          ret ERR_OK
      | None => ret ERR_OK
      end
  end.

Definition etharp_cleanup_netif (nif : Z) : M sys unit :=
  each indices (fun i =>
    e <- entry i ;;
    if negb (bool_decide (state e = ETHARP_STATE_EMPTY)) && (e_netif e =? nif)
    then etharp_free_entry i else ret tt).

(** The index of a stable entry with its addresses. *)
Definition etharp_find_addr (ip : Z) : M sys (option (nat * eth_addr * Z)) :=
  i <- etharp_find_entry (Some ip) false true ;;
  match i with
  | None => ret None
  | Some i => e <- entry i ;;
              ret (if is_stable (state e) then Some (i, ethaddr e, ipaddr e) else None)
  end.

Definition etharp_get_entry (i : nat) : M sys (option (Z * Z * eth_addr)) :=
  e <- entry i ;;
  ret (if (i <? ARP_TABLE_SIZE)%nat && is_stable (state e)
       then Some (ipaddr e, e_netif e, ethaddr e) else None).

Definition etharp_output_to_arp_index (nif p : Z) (i : nat) : M sys Z :=
  e <- entry i ;;
  (if bool_decide (state e = ETHARP_STATE_STABLE) then
     if ARP_AGE_REREQUEST_USED_BROADCAST <=? ctime e then
       r <- etharp_request nif (ipaddr e) ;;
       if r =? ERR_OK then update i (set_state ETHARP_STATE_STABLE_REREQUESTING_1) else ret tt
     else if ARP_AGE_REREQUEST_USED_UNICAST <=? ctime e then
       r <- etharp_request_dst nif (ipaddr e) (ethaddr e) ;;
       if r =? ERR_OK then update i (set_state ETHARP_STATE_STABLE_REREQUESTING_1) else ret tt
     else ret tt
   else ret tt) ;;;
  e <- entry i ;;
  ethernet_output nif p (hwaddr (netif_at nif)) (ethaddr e) ETHTYPE_IP.

(** The first pbuf that is not PBUF_ROM. *)
Definition first_not_rom (l : list pbuf_t) : option pbuf_t :=
  head (filter (fun b => ptype b <> PBUF_ROM) l).

(** The packet to queue: a copy, or the packet itself with one more reference. *)
Definition take_packet (p : Z) : M sys (option Z) :=
  l <- gets (fun s => chain_of (net s) p) ;;
  match first_not_rom l with
  | Some b =>
      c <- on_net (pbuf_alloc PBUF_LINK (tot_len b) PBUF_RAM) ;;
      match c with
      | None => ret None
      | Some c =>
          r <- on_net (pbuf_copy c p) ;;
          if r =? ERR_OK then ret (Some c) else on_net (pbuf_free c) ;;; ret None
      end
  | None => on_net (pbuf_ref p) ;;; ret (Some p)
  end.

(** Send or queue a packet on entry [i]; [result] is what the request came to. *)
Definition query_packet (nif p : Z) (i : nat) (result : Z) : M sys Z :=
  e <- entry i ;;
  if is_stable (state e) then
    ETHARP_SET_HINT i ;;;
    ethernet_output nif p (hwaddr (netif_at nif)) (ethaddr e) ETHTYPE_IP
  else if bool_decide (state e = ETHARP_STATE_PENDING) then
    c <- take_packet p ;;
    match c with
    | None => ret ERR_MEM
    | Some c =>
        e <- entry i ;;
        match q e with Some old => on_net (pbuf_free old) | None => ret tt end ;;;
        update i (set_q (Some c)) ;;;
        ret ERR_OK
    end
  else ret result.

Definition etharp_query (nif ip : Z) (p : option Z) : M sys Z :=
  if isbroadcast ip nif || ip4_addr_ismulticast ip || (ip =? IPADDR_ANY) then ret ERR_ARG else
  i <- etharp_find_entry (Some ip) true false ;;
  match i with
  | None => ret ERR_MEM
  | Some i =>
      e <- entry i ;;
      let is_new := bool_decide (state e = ETHARP_STATE_EMPTY) in
      (if is_new then update i (set_state ETHARP_STATE_PENDING) ;;; update i (set_netif nif) else ret tt) ;;;
      match p with
      | None => etharp_request nif ip
      | Some p =>
          result <- (if is_new then etharp_request nif ip else ret ERR_MEM) ;;
          query_packet nif p i result
      end
  end.

(** The loop over the table for a stable entry. *)
Fixpoint stable_entry (t : list etharp_entry) (i : nat) (ip : Z) : option nat :=
  match t with
  | [] => None
  | e :: t' => if is_stable (state e) && (ip =? ipaddr e) then Some i else stable_entry t' (S i) ip
  end.

(** The address whose hardware address is used; [None]: no gateway. *)
Definition next_hop (nif ip : Z) : option Z :=
  let n := netif_at nif in
  if negb (ip4_addr_netcmp ip (ip_addr n) (netmask n)) && negb (ip4_addr_islinklocal ip)
  then if gw n =? IPADDR_ANY then None else Some (gw n)
  else Some ip.

Definition output_unicast (nif p dst : Z) : M sys Z :=
  c <- gets etharp_cached_entry ;;
  e <- entry c ;;
  if is_stable (state e) && (dst =? ipaddr e) then etharp_output_to_arp_index nif p c else
  t <- gets arp_table ;;
  match stable_entry t 0 dst with
  | Some i => ETHARP_SET_HINT i ;;; etharp_output_to_arp_index nif p i
  | None => etharp_query nif dst (Some p)
  end.

Definition etharp_output (nif p ip : Z) : M sys Z :=
  let src := hwaddr (netif_at nif) in
  if isbroadcast ip nif then ethernet_output nif p src ethbroadcast ETHTYPE_IP
  else if ip4_addr_ismulticast ip then
    ethernet_output nif p src
      [0x01; 0x00; 0x5e; Z.land (ip4_addr2 ip) 0x7f; ip4_addr3 ip; ip4_addr4 ip] ETHTYPE_IP
  else match next_hop nif ip with
       | None => ret ERR_RTE
       | Some dst => output_unicast nif p dst
       end.

(** *** Receiving *)
Context (ip4_input : Z -> Z -> M sys unit) (dhcp_arp_reply : Z -> Z -> M sys unit).

Definition le16 (l : list Z) (i : nat) : Z := l !!! i + 256 * l !!! S i.
Definition le32_at (l : list Z) (i : nat) : Z := le16 l i + 65536 * le16 l (i + 2).

Definition etharp_input (p nif : Z) : M sys unit :=
  h <- gets (fun s => payload_of (net s) p (Z.to_nat SIZEOF_ETHARP_HDR)) ;;
  if negb (le16 h 0 =? PP_HTONS HWTYPE_ETHERNET) || negb (h !!! 4%nat =? ETH_HWADDR_LEN) ||
     negb (h !!! 5%nat =? 4) || negb (le16 h 2 =? PP_HTONS ETHTYPE_IP)
  then on_net (pbuf_free p) else
  let n := netif_at nif in
  let shwaddr := take 6 (drop 8 h) in
  let sipaddr := le32_at h 14 in
  let dipaddr := le32_at h 24 in
  let for_us := negb (ip_addr n =? IPADDR_ANY) && (dipaddr =? ip_addr n) in
  etharp_update_arp_entry nif sipaddr shwaddr for_us ;;;
  (if le16 h 6 =? PP_HTONS ARP_REQUEST then
     if for_us then
       etharp_raw nif (hwaddr n) shwaddr (hwaddr n) (ip_addr n) shwaddr sipaddr ARP_REPLY ;;; ret tt
     else ret tt
   else if le16 h 6 =? PP_HTONS ARP_REPLY then dhcp_arp_reply nif sipaddr
   else ret tt) ;;;
  on_net (pbuf_free p).

Definition ethernet_input (p nif : Z) : M sys Z :=
  b <- gets (fun s => head (chain_of (net s) p)) ;;
  match b with
  | None => ret ERR_OK
  | Some b =>
      if len b <=? SIZEOF_ETH_HDR then on_net (pbuf_free p) ;;; ret ERR_OK else
      h <- gets (fun s => payload_of (net s) p (Z.to_nat SIZEOF_ETH_HDR)) ;;
      let type := le16 h 12 in
      (if negb (Z.land (h !!! 0%nat) 1 =? 0) then
         if h !!! 0%nat =? 0x01 then
           if (h !!! 1%nat =? 0x00) && (h !!! 2%nat =? 0x5e) then on_net (or_flags p PBUF_FLAG_LLMCAST) else ret tt
         else if bool_decide (take 6 h = ethbroadcast) then on_net (or_flags p PBUF_FLAG_LLBCAST) else ret tt
       else ret tt) ;;;
      if (type =? PP_HTONS ETHTYPE_IP) || (type =? PP_HTONS ETHTYPE_ARP) then
        if Z.land (nif_flags (netif_at nif)) NETIF_FLAG_ETHARP =? 0 then on_net (pbuf_free p) ;;; ret ERR_OK else
        r <- (if len b <? SIZEOF_ETH_HDR then ret 1 else on_net (pbuf_header p (- SIZEOF_ETH_HDR))) ;;
        if negb (r =? 0) then on_net (pbuf_free p) ;;; ret ERR_OK else
        (if type =? PP_HTONS ETHTYPE_IP then ip4_input p nif else etharp_input p nif) ;;; ret ERR_OK
      else on_net (pbuf_free p) ;;; ret ERR_OK
  end.
End Etharp.

(** ** The functions of Pbuf behind the interface

    A call that Pbuf leaves undefined (a pointer to no pbuf) changes nothing. *)
Section PbufImpl.
Context {A : Type} `{!PbufAlloc A}.

Fixpoint chain_list (fuel : nat) (h : gmap Z pbuf_t) (p : option Z) : list pbuf_t :=
  match fuel, p with
  | S fuel, Some a => match h !! a with Some b => b :: chain_list fuel h (next b) | None => [] end
  | _, _ => []
  end.

Definition total_call {Y Z} (d : Z) (r : Y -> Z) (m : P A Y) : M (pstate A) Z := fun s =>
  match m s with Some (y, s') => (r y, s') | None => (d, s) end.

#[export] Instance pbuf_impl : PbufApi (pstate A) := {
  chain_of s p := chain_list (chain_fuel (pbs s)) (pbs s) (Some p);
  payload_of s p n := match pbs s !! p with Some b => mem_read (pdata s) (payload b) n | None => replicate n 0 end;
  write_payload p l := modify (fun s =>
    match pbs s !! p with
    | Some b => mkPs (pbs s) (mem_write (pdata s) (payload b) l) (palloc s)
    | None => s
    end);
  or_flags p f := modify (fun s => mkPs (alter (fun b =>
    mkPbuf (next b) (payload b) (tot_len b) (len b) (ptype b) (Z.lor (flags b) f) (pref b)) p (pbs s)) (pdata s) (palloc s));
  pbuf_alloc l n t := total_call None id (Pbuf.pbuf_alloc l n t);
  pbuf_free p := total_call tt (fun _ => tt) (Pbuf.pbuf_free (Some p));
  pbuf_ref p := total_call tt id (Pbuf.pbuf_ref (Some p));
  pbuf_copy a b := total_call ERR_ARG id (writing (fun h m => Pbuf.pbuf_copy h m (Some a) (Some b)));
  pbuf_header p n := total_call 1 id (Pbuf.pbuf_header p n)
}.
End PbufImpl.

(** ** The invariant of the table *)
Section Spec.
Context {X : Type} `{!PbufApi X, !LinkDriver X}.
Context (netif_at : Z -> netif).
Implicit Types (s : arp_sys X) (t : list etharp_entry) (e : etharp_entry).

(** Neither broadcast nor multicast nor 0.0.0.0. *)
Definition unicast (nif ip : Z) : Prop :=
  ip <> IPADDR_ANY /\ isbroadcast netif_at ip nif = false /\ ip4_addr_ismulticast ip = false.

Definition in_use e : Prop := state e <> ETHARP_STATE_EMPTY.

(** A packet waits only for an entry that is pending; ages stay below their limits. *)
Definition entry_ok e : Prop :=
  0 <= ctime e /\
  match state e with
  | ETHARP_STATE_EMPTY => q e = None
  | ETHARP_STATE_PENDING => ctime e < ARP_MAXPENDING /\ unicast (e_netif e) (ipaddr e)
  | _ => q e = None /\ ctime e < ARP_MAXAGE /\ unicast (e_netif e) (ipaddr e)
  end.

(** An address has at most one entry. *)
Definition distinct t : Prop := forall i j e e',
  t !! i = Some e -> t !! j = Some e' -> in_use e -> in_use e' -> ipaddr e = ipaddr e' -> i = j.

Definition table_ok t : Prop := length t = ARP_TABLE_SIZE /\ Forall entry_ok t /\ distinct t.
Definition arp_ok s : Prop := table_ok (arp_table s) /\ (etharp_cached_entry s < ARP_TABLE_SIZE)%nat.

(** *** Calls that leave the table alone *)
Definition keeps {B} (m : M (arp_sys X) B) : Prop := forall s,
  wp m (fun _ s' => arp_table s' = arp_table s /\ etharp_cached_entry s' = etharp_cached_entry s) s.

Lemma keeps_ret {B} (b : B) : keeps (ret b).
Proof. done. Qed.
Lemma keeps_bind {B C} (m : M (arp_sys X) B) (k : B -> M (arp_sys X) C) :
  keeps m -> (forall b, keeps (k b)) -> keeps (bind m k).
Proof.
  intros Hm Hk s. apply wp_bind. eapply wp_mono; [apply Hm|]. intros b s1 [E1 E2].
  eapply wp_mono; [apply Hk|]. intros c s2 [E3 E4]. split; congruence.
Qed.
Lemma keeps_on_net {B} (m : M X B) : keeps (on_net m).
Proof. intros s. unfold wp, on_net. by destruct (m (net s)). Qed.
Lemma keeps_gets {B} (f : arp_sys X -> B) : keeps (gets f).
Proof. done. Qed.
Lemma keeps_output nif p src dst ty : keeps (ethernet_output nif p src dst ty).
Proof.
  unfold ethernet_output. apply keeps_bind; [apply keeps_on_net|]. intros r. destruct (negb _); [apply keeps_ret|].
  apply keeps_bind; [apply keeps_on_net|]. intros ?. apply keeps_on_net.
Qed.
Lemma keeps_raw nif es ed hs is_ hd id_ op : keeps (etharp_raw nif es ed hs is_ hd id_ op).
Proof.
  apply keeps_bind; [apply keeps_on_net|]. intros [p|]; [|apply keeps_ret].
  apply keeps_bind; [apply keeps_on_net|]. intros ?. apply keeps_bind; [apply keeps_output|]. intros ?.
  apply keeps_bind; [apply keeps_on_net|]. intros ?. apply keeps_ret.
Qed.
Lemma keeps_request nif ip : keeps (etharp_request netif_at nif ip).
Proof. apply keeps_raw. Qed.
Lemma keeps_take p : keeps (take_packet p).
Proof.
  apply keeps_bind; [apply keeps_gets|]. intros l. destruct (first_not_rom l).
  - apply keeps_bind; [apply keeps_on_net|]. intros [c|]; [|apply keeps_ret].
    apply keeps_bind; [apply keeps_on_net|]. intros r. destruct (_ =? _); [apply keeps_ret|].
    apply keeps_bind; [apply keeps_on_net|]. intros ?. apply keeps_ret.
  - apply keeps_bind; [apply keeps_on_net|]. intros ?. apply keeps_ret.
Qed.

(** Run a call that keeps the table. *)
Lemma wp_keeps {B C} (m : M (arp_sys X) B) (k : B -> M (arp_sys X) C) Q s : keeps m ->
  (forall b x, wp (k b) Q (mkArp (arp_table s) (etharp_cached_entry s) x)) -> wp (bind m k) Q s.
Proof.
  intros Hm Hk. apply wp_bind. eapply wp_mono; [apply Hm|]. intros b [t c x] [E1 E2]. cbn in *. subst. apply Hk.
Qed.

Lemma wp_keeps_last {B} (m : M (arp_sys X) B) (Q : B -> arp_sys X -> Prop) s : keeps m ->
  (forall b x, Q b (mkArp (arp_table s) (etharp_cached_entry s) x)) -> wp m Q s.
Proof. intros Hm HQ. eapply wp_mono; [apply Hm|]. intros b [t c x] [E1 E2]. cbn in *. subst. apply HQ. Qed.

Lemma wp_entry {C} i (k : etharp_entry -> M (arp_sys X) C) Q s e : arp_table s !! i = Some e ->
  wp (k e) Q s -> wp (bind (entry i) k) Q s.
Proof. intros E H. apply wp_bind, wp_gets. by rewrite (list_lookup_total_correct _ _ _ E). Qed.

Lemma wp_update {C} i f (k : unit -> M (arp_sys X) C) Q s e : arp_table s !! i = Some e ->
  wp (k tt) Q (mkArp (<[i := f e]> (arp_table s)) (etharp_cached_entry s) (net s)) -> wp (bind (update i f) k) Q s.
Proof.
  intros E H. apply wp_bind, wp_modify. replace (alter f i (arp_table s)) with (<[i := f e]> (arp_table s)); [done|].
  apply list_eq. intros j. destruct (decide (i = j)) as [<-|Hne].
  - rewrite list_lookup_insert_eq, list_lookup_alter_eq, E by (by eapply lookup_lt_Some). done.
  - by rewrite list_lookup_insert_ne, list_lookup_alter_ne by done.
Qed.

Lemma wp_update_last i f (Q : unit -> arp_sys X -> Prop) s e : arp_table s !! i = Some e ->
  Q tt (mkArp (<[i := f e]> (arp_table s)) (etharp_cached_entry s) (net s)) -> wp (update i f) Q s.
Proof. intros E H. assert (K : wp (bind (update i f) ret) Q s) by (by eapply wp_update). by unfold wp, bind, ret in *. Qed.

(** *** Replacing an entry *)
Lemma table_ok_insert t i e e' : table_ok t -> t !! i = Some e -> entry_ok e' ->
  (in_use e' -> (in_use e /\ ipaddr e' = ipaddr e) \/ forall j x, t !! j = Some x -> in_use x -> ipaddr x <> ipaddr e') ->
  table_ok (<[i := e']> t).
Proof.
  intros (Hl & Hf & Hd) Hi He Hu. split; [by rewrite length_insert|]. split; [by apply Forall_insert|].
  assert (Hlt : (i < length t)%nat) by (by eapply lookup_lt_Some).
  intros j k x y Hj Hk Ux Uy E.
  apply list_lookup_insert_Some in Hj as [(<- & <- & _)|[Nj Hj]], Hk as [(<- & <- & _)|[Nk Hk]]; [done| | |by eapply Hd].
  - destruct (Hu Ux) as [[Ue Ee]|Hno]; [|by destruct (Hno k y)]. apply (Hd i k e y); congruence.
  - destruct (Hu Uy) as [[Ue Ee]|Hno]; [|by destruct (Hno j x)]. apply (Hd j i x e); congruence.
Qed.

Lemma table_ok_lookup t i : table_ok t -> (i < ARP_TABLE_SIZE)%nat -> exists e, t !! i = Some e /\ entry_ok e.
Proof.
  intros (Hl & Hf & _) Hi. destruct (lookup_lt_is_Some_2 t i) as [e E]; [lia|]. exists e.
  split; [done|]. by eapply Forall_lookup_1.
Qed.

Definition freed e : etharp_entry := mkEntry None (ipaddr e) (e_netif e) (ethaddr e) (ctime e) ETHARP_STATE_EMPTY.

Lemma free_entry_spec {C} i (k : unit -> M (arp_sys X) C) Q s e : arp_table s !! i = Some e ->
  (forall x, wp (k tt) Q (mkArp (<[i := freed e]> (arp_table s)) (etharp_cached_entry s) x)) ->
  wp (bind (etharp_free_entry i) k) Q s.
Proof.
  intros E H. apply wp_bind, (wp_entry _ _ _ _ e E).
  assert (Hlt : (i < length (arp_table s))%nat) by (by eapply lookup_lt_Some).
  apply wp_bind. destruct (q e) as [p|] eqn:Eq.
  - apply wp_keeps; [apply keeps_on_net|]. intros ? x. eapply wp_update_last; [exact E|].
    eapply wp_update_last; [by apply list_lookup_insert_eq|]. cbn [arp_table etharp_cached_entry net].
    rewrite list_insert_insert_eq. apply H.
  - apply wp_ret. eapply wp_update_last; [exact E|]. specialize (H (net s)). unfold freed in H. rewrite <- Eq in H. exact H.
Qed.

Lemma entry_ok_freed e : entry_ok e -> entry_ok (freed e).
Proof. intros [H _]. by split. Qed.
End Spec.

(** *** The search *)
Section Search.
Implicit Types (t pre : list etharp_entry) (e : etharp_entry) (c : candidates).

(** [i] is an oldest entry of the class [P], or [ARP_TABLE_SIZE] when there is none. *)
Definition oldest (P : etharp_entry -> Prop) pre (i : nat) (age : Z) : Prop :=
  (i = ARP_TABLE_SIZE /\ age = 0 /\ forall e, e ∈ pre -> ~ P e) \/
  (exists e, pre !! i = Some e /\ P e /\ ctime e = age /\ forall e', e' ∈ pre -> P e' -> ctime e' <= age).

Definition stable e : Prop := is_stable (state e) = true.
Definition pending_idle e : Prop := state e = ETHARP_STATE_PENDING /\ q e = None.
Definition pending_queued e : Prop := state e = ETHARP_STATE_PENDING /\ q e <> None.

Definition first_empty pre (i : nat) : Prop :=
  (i = ARP_TABLE_SIZE /\ Forall in_use pre) \/
  (exists e, pre !! i = Some e /\ state e = ETHARP_STATE_EMPTY /\ Forall in_use (take i pre)).

Definition scanned pre c : Prop :=
  first_empty pre (c_empty c) /\ oldest stable pre (old_stable c) (age_stable c) /\
  oldest pending_idle pre (old_pending c) (age_pending c) /\
  oldest pending_queued pre (old_queue c) (age_queue c).

Lemma oldest_skip P pre i age e : oldest P pre i age -> 0 <= ctime e -> (P e -> ctime e < age) -> oldest P (pre ++ [e]) i age.
Proof.
  intros H H0 He. destruct H as [(-> & -> & H)|(x & Hx & Px & <- & H)].
  - left. split; [done|]. split; [done|]. intros y [Hy|Hy%elem_of_cons]%elem_of_app; [by apply H|].
    destruct Hy as [->|Hy%not_elem_of_nil]; [|done]. intros Pe. specialize (He Pe). lia.
  - right. exists x. split; [by apply lookup_app_l_Some|]. split; [done|]. split; [done|].
    intros y [Hy|Hy%elem_of_cons]%elem_of_app Py; [by apply H|].
    destruct Hy as [->|Hy%not_elem_of_nil]; [|done]. specialize (He Py). lia.
Qed.

Lemma oldest_take P pre i age e : oldest P pre i age -> P e -> age <= ctime e -> oldest P (pre ++ [e]) (length pre) (ctime e).
Proof.
  intros H Pe Ha. right. exists e. split; [by rewrite lookup_app_r, Nat.sub_diag|]. split; [done|]. split; [done|].
  intros y [Hy|Hy%elem_of_cons]%elem_of_app Py.
  - destruct H as [(-> & -> & H)|(x & Hx & Px & <- & H)]; [by destruct (H y)|]. specialize (H y Hy Py). lia.
  - destruct Hy as [->|Hy%not_elem_of_nil]; done || lia.
Qed.

Lemma first_empty_used pre i e : first_empty pre i -> in_use e -> first_empty (pre ++ [e]) i.
Proof.
  intros [[-> H]|(x & Hx & Ex & H)] He.
  - left. split; [done|]. apply Forall_app. split; [done|]. by apply Forall_cons_2; [|apply Forall_nil_2].
  - right. exists x. split; [by apply lookup_app_l_Some|]. split; [done|].
    rewrite take_app_le; [done|]. apply lookup_lt_Some in Hx. lia.
Qed.

Lemma first_empty_here pre e : first_empty pre ARP_TABLE_SIZE -> (length pre < ARP_TABLE_SIZE)%nat ->
  state e = ETHARP_STATE_EMPTY -> first_empty (pre ++ [e]) (length pre).
Proof.
  intros [[_ H]|(x & Hx & _)] Hl He; [|apply lookup_lt_Some in Hx; lia].
  right. exists e. split; [by rewrite lookup_app_r, Nat.sub_diag|]. split; [done|].
  by rewrite take_app_length.
Qed.

Lemma first_empty_again pre i e : first_empty pre i -> i <> ARP_TABLE_SIZE -> first_empty (pre ++ [e]) i.
Proof.
  intros [[-> _]|(x & Hx & Ex & H)] Hi; [done|]. right. exists x. split; [by apply lookup_app_l_Some|]. split; [done|].
  rewrite take_app_le; [done|]. apply lookup_lt_Some in Hx. lia.
Qed.

(** An entry belongs to at most one class. *)
Lemma not_classes e : 
  (state e = ETHARP_STATE_EMPTY -> ~ stable e /\ ~ pending_idle e /\ ~ pending_queued e) /\
  (stable e -> ~ pending_idle e /\ ~ pending_queued e) /\
  (pending_idle e -> ~ stable e /\ ~ pending_queued e) /\
  (pending_queued e -> ~ stable e /\ ~ pending_idle e).
Proof.
  unfold stable, pending_idle, pending_queued. destruct (state e), (q e); cbn; intuition congruence.
Qed.

Definition no_match t (ip : option Z) : Prop := forall e, e ∈ t -> in_use e -> ip <> Some (ipaddr e).

Lemma find_scan_spec ip t : length t = ARP_TABLE_SIZE -> Forall (fun e => 0 <= ctime e) t ->
  forall rest pre c, pre ++ rest = t -> scanned pre c -> no_match pre ip ->
  match find_scan rest (length pre) ip c with
  | inl i => exists e, t !! i = Some e /\ in_use e /\ ip = Some (ipaddr e)
  | inr c => scanned t c /\ no_match t ip
  end.
Proof.
  intros Hl Ht. induction rest as [|e rest IH]; intros pre c E (S1 & S2 & S3 & S4) Hno; cbn [find_scan].
  { rewrite app_nil_r in E. subst pre. by repeat split. }
  assert (Hc : 0 <= ctime e) by (rewrite Forall_forall in Ht; apply Ht; rewrite <- E; apply elem_of_app; right; left).
  assert (E' : (pre ++ [e]) ++ rest = t) by (by rewrite <- app_assoc).
  assert (Hpl : (length pre < ARP_TABLE_SIZE)%nat) by (rewrite <- Hl, <- E, length_app; cbn; lia).
  replace (S (length pre)) with (length (pre ++ [e])) by (rewrite length_app; cbn; lia).
  pose proof (not_classes e) as (N1 & N2 & N3 & N4).
  assert (Hno' : (in_use e -> ip <> Some (ipaddr e)) -> no_match (pre ++ [e]) ip).
  { intros He x [Hx|Hx%elem_of_cons]%elem_of_app Ux; [by apply Hno|]. destruct Hx as [->|Hx%not_elem_of_nil]; auto. }
  destruct (decide (state e = ETHARP_STATE_EMPTY)) as [Es|Es].
  { destruct (N1 Es) as (M1 & M2 & M3). rewrite bool_decide_true by done. rewrite andb_true_r.
    destruct (Nat.eqb_spec (c_empty c) ARP_TABLE_SIZE) as [E0|E0]; (apply IH; [done| |apply Hno'; by intros []]);
      repeat split; cbn; try (apply oldest_skip; [done..|tauto]).
    - apply first_empty_here; [by rewrite <- E0|done..].
    - by apply first_empty_again. }
  rewrite bool_decide_false, andb_false_r by done.
  case_bool_decide as Eip.
  { exists e. split; [by rewrite <- E, lookup_app_r, Nat.sub_diag|]. by split. }
  assert (Hno'' := Hno' (fun _ => Eip)). pose proof (first_empty_used pre (c_empty c) e S1 Es) as S1'.
  case_bool_decide as Ep; [destruct (q e) as [p|] eqn:Eq|].
  - assert (K : pending_queued e) by (split; [done|congruence]). destruct (N4 K) as [M1 M2].
    destruct (Z.leb_spec (age_queue c) (ctime e)); (apply IH; [done| |done]); repeat split; cbn; try done;
      try (apply oldest_skip; [done..|tauto]). by eapply oldest_take.
  - assert (K : pending_idle e) by by split. destruct (N3 K) as [M1 M2].
    destruct (Z.leb_spec (age_pending c) (ctime e)); (apply IH; [done| |done]); repeat split; cbn; try done;
      try (apply oldest_skip; [done..|tauto]). by eapply oldest_take.
  - assert (K : stable e) by (unfold stable; by destruct (state e)). destruct (N2 K) as [M1 M2].
    destruct (Z.leb_spec (age_stable c) (ctime e)); (apply IH; [done| |done]); repeat split; cbn; try done;
      try (apply oldest_skip; [done..|tauto]). by eapply oldest_take.
Qed.

(** The entry that a new address gets: an empty one, else an oldest stable one, else an
    oldest pending one, without a packet if possible. *)
Definition replaceable t e : Prop :=
  state e = ETHARP_STATE_EMPTY \/
  Forall in_use t /\
  (stable e /\ (forall e', e' ∈ t -> stable e' -> ctime e' <= ctime e) \/
   (forall e', e' ∈ t -> ~ stable e') /\
   (pending_idle e /\ (forall e', e' ∈ t -> pending_idle e' -> ctime e' <= ctime e) \/
    (forall e', e' ∈ t -> ~ pending_idle e') /\
    pending_queued e /\ (forall e', e' ∈ t -> pending_queued e' -> ctime e' <= ctime e))).

Lemma victim_spec t c : length t = ARP_TABLE_SIZE -> scanned t c -> c_empty c = ARP_TABLE_SIZE ->
  exists i e, victim c = Some i /\ t !! i = Some e /\ replaceable t e /\ Forall in_use t.
Proof.
  intros Hl (S1 & S2 & S3 & S4) E0.
  assert (Hall : Forall in_use t).
  { destruct S1 as [[_ H]|(x & Hx & _)]; [done|]. apply lookup_lt_Some in Hx. lia. }
  assert (Hlt : forall (P : etharp_entry -> Prop) i age, oldest P t i age ->
    ((i <? ARP_TABLE_SIZE)%nat = false /\ forall e, e ∈ t -> ~ P e) \/
    ((i <? ARP_TABLE_SIZE)%nat = true /\ exists e, t !! i = Some e /\ P e /\ forall e', e' ∈ t -> P e' -> ctime e' <= ctime e)).
  { intros P i age [(-> & _ & H)|(x & Hx & Px & <- & H)].
    - left. split; [apply Nat.ltb_irrefl|done].
    - right. split; [apply Nat.ltb_lt; rewrite <- Hl; by eapply lookup_lt_Some|]. by exists x. }
  unfold victim, replaceable. destruct (Hlt _ _ _ S2) as [[-> K2]|[-> (e & K1 & K2 & K3)]]; [|exists (old_stable c), e; auto 10].
  destruct (Hlt _ _ _ S3) as [[-> K3]|[-> (e & K1 & K3 & K4)]]; [|exists (old_pending c), e; auto 10].
  destruct (Hlt _ _ _ S4) as [[-> K4]|[-> (e & K1 & K4 & K5)]]; [exfalso|exists (old_queue c), e; auto 12].
  destruct t as [|e t]; [done|]. specialize (K2 e ltac:(left)). specialize (K3 e ltac:(left)). specialize (K4 e ltac:(left)).
  apply Forall_inv in Hall. unfold in_use, stable, pending_idle, pending_queued in *.
  destruct (state e), (q e); cbn in *; try done; [apply K4|apply K3]; by split.
Qed.

Lemma stable_entry_spec t k ip i : stable_entry t k ip = Some i -> exists e, t !! (i - k)%nat = Some e /\
  (k <= i < k + length t)%nat /\ stable e /\ ipaddr e = ip.
Proof.
  revert k; induction t as [|e t IH]; intros k; [done|]. cbn. destruct (is_stable _ && _) eqn:E.
  - intros [= <-]. apply andb_prop in E as [E1 E2%Z.eqb_eq]. exists e. rewrite Nat.sub_diag. split_and!; try done; cbn; lia.
  - intros H. destruct (IH _ H) as (x & H1 & H2 & H3). exists x.
    replace (i - k)%nat with (S (i - S k)) by lia. split_and!; cbn in *; try done; try lia; tauto.
Qed.
End Search.

Section FindEntry.
Context {X : Type} `{!PbufApi X, !LinkDriver X}.
Context (netif_at : Z -> netif).
Implicit Types (s : arp_sys X) (t : list etharp_entry) (e : etharp_entry).

Lemma table_ages t : table_ok netif_at t -> Forall (fun e => 0 <= ctime e) t.
Proof. intros (_ & H & _). eapply Forall_impl; [exact H|]. by intros e [? _]. Qed.

(** The entry handed out for a new address. *)
Definition fresh_entry (ip : Z) e : etharp_entry :=
  mkEntry None ip (e_netif e) (ethaddr e) 0 ETHARP_STATE_EMPTY.

Lemma find_entry_spec ip hard only s : arp_ok netif_at s ->
  wp (etharp_find_entry (Some ip) hard only) (fun r s' =>
    etharp_cached_entry s' = etharp_cached_entry s /\
    match r with
    | Some i => exists e, arp_table s !! i = Some e /\
        ((in_use e /\ ipaddr e = ip /\ arp_table s' = arp_table s /\ net s' = net s) \/
         (no_match (arp_table s) (Some ip) /\ only = false /\ (state e = ETHARP_STATE_EMPTY \/ hard = true) /\
          replaceable (arp_table s) e /\ arp_table s' = <[i := fresh_entry ip e]> (arp_table s)))
    | None => s' = s /\ no_match (arp_table s) (Some ip) /\
        (only = true \/ hard = false /\ Forall in_use (arp_table s))
    end) s.
Proof.
  intros [Ht Hcache]. pose proof Ht as (Hl & Hok & _). unfold etharp_find_entry. apply wp_bind, wp_gets.
  pose proof (find_scan_spec (Some ip) (arp_table s) Hl (table_ages _ Ht) (arp_table s) [] no_candidates eq_refl) as H.
  cbn [length] in H. specialize (H ltac:(repeat split; left; (repeat split; by intros ? ?%not_elem_of_nil) || (by split; [|apply Forall_nil_2])) ltac:(by intros ? ?%not_elem_of_nil)).
  destruct (find_scan _ _ _ _) as [i|c].
  { destruct H as (e & He & Hu & [= ->]). apply wp_ret. split; [done|]. exists e. split; [done|]. by left. }
  destruct H as [Hsc Hno]. pose proof Hsc as (S1 & _). destruct (Nat.ltb_spec (c_empty c) ARP_TABLE_SIZE) as [He|He].
  - destruct S1 as [[S1 _]|(e & Hi & Es & _)]; [lia|]. rewrite orb_false_r.
    destruct only; [by apply wp_ret; split_and!; auto|].
    eapply wp_update; [exact Hi|]. apply wp_ret. split; [done|]. exists e. split; [done|]. right.
    split; [done|]. split; [done|]. split; [by left|]. split; [by left|]. cbn [arp_table]. f_equal.
    unfold fresh_entry, set_ctime, set_ipaddr. cbn.
    assert (K : entry_ok netif_at e) by (rewrite Forall_forall in Hok; eapply Hok, list_elem_of_lookup_2; exact Hi).
    destruct K as [_ K]. rewrite Es in *. by rewrite K.
  - assert (E0 : c_empty c = ARP_TABLE_SIZE) by (destruct S1 as [[? _]|(x & Hx & _)]; [done|apply lookup_lt_Some in Hx; lia]).
    destruct (victim_spec _ _ Hl Hsc E0) as (i & e & -> & Hi & Hr & Hall). cbn [negb andb].
    destruct only; [by apply wp_ret; split_and!; auto|]. cbn [orb]. destruct hard; cbn [negb]; [|by apply wp_ret; split_and!; auto].
    eapply free_entry_spec; [exact Hi|]. intros x.
    assert (Hlt : (i < length (arp_table s))%nat) by (by eapply lookup_lt_Some).
    eapply wp_update; [by apply list_lookup_insert_eq|]. apply wp_ret. split; [done|]. exists e. split; [done|]. right.
    split; [done|]. split; [done|]. split; [by right|]. split; [done|]. cbn [arp_table]. by rewrite list_insert_insert_eq.
Qed.
End FindEntry.

(** *** Every operation keeps the invariant *)
Section Invariant.
Context {X : Type} `{!PbufApi X, !LinkDriver X}.
Context (netif_at : Z -> netif).
Implicit Types (s : arp_sys X) (t : list etharp_entry) (e : etharp_entry).
#[local] Abbreviation table_ok := (table_ok netif_at).
#[local] Abbreviation entry_ok := (entry_ok netif_at).
#[local] Abbreviation arp_ok := (arp_ok (X:=X) netif_at).

Definition preserves {B} (m : M (arp_sys X) B) : Prop := forall s, arp_ok s -> wp m (fun _ s' => arp_ok s') s.

Lemma keeps_preserves {B} (m : M (arp_sys X) B) : keeps m -> preserves m.
Proof. intros Hm s [H1 H2]. eapply wp_mono; [apply Hm|]. intros b s' [E1 E2]. split; congruence. Qed.
Lemma arp_preserves_ret {B} (b : B) : preserves (ret b).
Proof. by apply keeps_preserves. Qed.
Lemma arp_preserves_bind {B C} (m : M (arp_sys X) B) (k : B -> M (arp_sys X) C) :
  preserves m -> (forall b, preserves (k b)) -> preserves (bind m k).
Proof. intros Hm Hk s H. apply wp_bind. eapply wp_mono; [by apply Hm|]. intros b s' H'. by apply Hk. Qed.
Lemma preserves_on_net {B} (m : M X B) : preserves (on_net m).
Proof. apply keeps_preserves, keeps_on_net. Qed.
Lemma arp_preserves_gets {B} (f : arp_sys X -> B) : preserves (gets f).
Proof. apply keeps_preserves, keeps_gets. Qed.
Lemma preserves_each l body : Forall (fun i => preserves (body i)) l -> preserves (each l body).
Proof.
  induction l as [|i l IH]; [intros _; apply arp_preserves_ret|]. intros [H1 H2]%Forall_cons. cbn [each].
  apply arp_preserves_bind; [done|]. intros []. by apply IH.
Qed.
Lemma preserves_indices body : (forall i, (i < ARP_TABLE_SIZE)%nat -> preserves (body i)) -> preserves (each indices body).
Proof. intros H. apply preserves_each, Forall_forall. intros i [_ Hi]%elem_of_seq. apply H. lia. Qed.
Lemma preserves_output nif p src dst ty : preserves (ethernet_output nif p src dst ty).
Proof. apply keeps_preserves, keeps_output. Qed.
Lemma preserves_raw nif es ed hs is_ hd id_ op : preserves (etharp_raw nif es ed hs is_ hd id_ op).
Proof. apply keeps_preserves, keeps_raw. Qed.

(** One entry replaced by another for the same address. *)
Lemma arp_ok_insert s i e e' x : arp_ok s -> arp_table s !! i = Some e -> entry_ok e' ->
  (in_use e' -> in_use e /\ ipaddr e' = ipaddr e) -> arp_ok (mkArp (<[i := e']> (arp_table s)) (etharp_cached_entry s) x).
Proof. intros [H1 H2] Hi He Hu. split; [|done]. eapply table_ok_insert; [done..|]. intros U. left. auto. Qed.

Lemma preserves_free i : (i < ARP_TABLE_SIZE)%nat -> preserves (etharp_free_entry i).
Proof.
  intros Hi s H. destruct (table_ok_lookup _ _ i (proj1 H) Hi) as (e & He & Hok).
  assert (K : wp (bind (etharp_free_entry i) ret) (fun _ s' => arp_ok s') s).
  { eapply free_entry_spec; [exact He|]. intros x. apply wp_ret. eapply arp_ok_insert; [done..|by apply entry_ok_freed|].
    by intros []. }
  unfold wp, bind, ret in *. by destruct (etharp_free_entry i s).
Qed.

Lemma tmr_entry_preserves i : (i < ARP_TABLE_SIZE)%nat -> preserves (tmr_entry netif_at i).
Proof.
  intros Hi s H. destruct (table_ok_lookup _ _ i (proj1 H) Hi) as (e & He & Hok).
  assert (Hlt : (i < length (arp_table s))%nat) by (by eapply lookup_lt_Some).
  unfold tmr_entry. eapply wp_entry; [exact He|]. case_bool_decide as Es; [by apply wp_ret|].
  eapply wp_update; [exact He|]. eapply wp_entry; [by apply list_lookup_insert_eq|]. cbn [arp_table ctime state set_ctime e_netif ipaddr].
  assert (Hc : 0 <= ctime e < ARP_MAXAGE).
  { destruct Hok as [H0 Hok]. unfold ARP_MAXAGE. destruct (state e); cbn in *; try done; unfold ARP_MAXAGE, ARP_MAXPENDING in *; lia. }
  unfold ARP_MAXAGE in Hc. rewrite (u16_small (ctime e + 1)) by lia.
  set (e1 := set_ctime (ctime e + 1) e). set (s1 := mkArp (<[i := e1]> (arp_table s)) (etharp_cached_entry s) (net s)).
  assert (Hi1 : arp_table s1 !! i = Some e1) by (by apply list_lookup_insert_eq).
  assert (Hins : forall e' x, entry_ok e' -> ipaddr e' = ipaddr e ->
    arp_ok (mkArp (<[i := e']> (arp_table s1)) (etharp_cached_entry s1) x)).
  { intros e' x He' Ea. cbn. rewrite list_insert_insert_eq. by eapply arp_ok_insert. }
  destruct ((_ <=? _) || _) eqn:Eb.
  - assert (K : wp (bind (etharp_free_entry i) ret) (fun _ s' => arp_ok s') s1).
    { eapply free_entry_spec; [exact Hi1|]. intros x. apply wp_ret. apply Hins; [|done]. split; [cbn; lia|done]. }
    unfold wp, bind, ret in *. by destruct (etharp_free_entry i s1).
  - apply orb_false_iff in Eb as [E1%Z.leb_gt E2]. destruct Hok as [_ Hok].
    assert (Hok1 : entry_ok e1 /\ forall x, arp_ok (mkArp (arp_table s1) (etharp_cached_entry s1) x)).
    { assert (K : entry_ok e1).
      { split; [cbn; lia|]. cbn [state e1 set_ctime q ctime e_netif ipaddr]. destruct (state e) eqn:Est; cbn in *; try tauto.
        rewrite bool_decide_true in E2 by done. apply Z.leb_gt in E2. tauto. }
      split; [done|]. intros x. by apply (arp_ok_insert s i e e1 x). }
    destruct Hok1 as [Hok1 Hs1].
    destruct (state e) eqn:Est; try (by apply wp_ret, Hs1).
    + apply wp_keeps; [apply keeps_request|]. intros r x. apply wp_ret, Hs1.
    + eapply wp_update_last; [exact Hi1|]. apply Hins; [|done]. destruct Hok1 as [K1 K2]. cbn in K2. rewrite Est in K2. by split.
    + eapply wp_update_last; [exact Hi1|]. apply Hins; [|done]. destruct Hok1 as [K1 K2]. cbn in K2. rewrite Est in K2. by split.
Qed.

Lemma tmr_preserves : preserves (etharp_tmr netif_at).
Proof. apply preserves_indices. intros. by apply tmr_entry_preserves. Qed.

Lemma cleanup_preserves nif : preserves (etharp_cleanup_netif nif).
Proof.
  apply preserves_indices. intros i Hi. apply arp_preserves_bind; [apply arp_preserves_gets|]. intros e.
  destruct (_ && _); [by apply preserves_free|apply arp_preserves_ret].
Qed.

(** *** After the search *)

(** [i] is the entry of [ip], or one that [ip] may take. *)
Definition slot t (i : nat) (ip : Z) e : Prop :=
  t !! i = Some e /\ entry_ok e /\ ipaddr e = ip /\
  (in_use e \/ state e = ETHARP_STATE_EMPTY /\ q e = None /\ ctime e = 0 /\
               forall j x, t !! j = Some x -> in_use x -> ipaddr x <> ip).

Lemma find_slot ip hard only s : arp_ok s ->
  wp (etharp_find_entry (Some ip) hard only) (fun r s' => arp_ok s' /\
    match r with Some i => exists e, slot (arp_table s') i ip e | None => s' = s end) s.
Proof.
  intros H. pose proof H as [Ht Hc]. pose proof Ht as (Hl & Hok & Hd).
  eapply wp_mono; [by apply (find_entry_spec netif_at)|]. intros [i|] s' [Ec Hr]; [|by destruct Hr as (-> & _)].
  destruct Hr as (e & He & Hr). assert (Hlt : (i < length (arp_table s))%nat) by (by eapply lookup_lt_Some).
  destruct Hr as [(Hu & Ha & Et & _)|(Hno & _ & _ & _ & Et)].
  - split; [split; by rewrite ?Et, ?Ec|]. exists e. rewrite Et. split; [done|]. split; [by eapply Forall_lookup_1|]. auto.
  - assert (K : entry_ok (fresh_entry ip e)) by by split. split; [split; [|by rewrite Ec]|].
    + rewrite Et. eapply table_ok_insert; [done..|]. by intros [].
    + exists (fresh_entry ip e). rewrite Et. split; [by apply list_lookup_insert_eq|]. split; [done|]. split; [done|]. right.
      split; [done|]. split; [done|]. split; [done|]. intros j x Hj Ux Ex.
      apply list_lookup_insert_Some in Hj as [(<- & <- & _)|[_ Hj]]; [by destruct Ux|].
      apply (Hno x); [by eapply list_elem_of_lookup_2|done|congruence].
Qed.

Lemma slot_insert s i ip e e' x : arp_ok s -> slot (arp_table s) i ip e -> entry_ok e' -> ipaddr e' = ip ->
  arp_ok (mkArp (<[i := e']> (arp_table s)) (etharp_cached_entry s) x).
Proof.
  intros [H1 H2] (Hi & _ & Ha & Hu) He Ea. split; [|done]. eapply table_ok_insert; [done..|]. intros _.
  destruct Hu as [Hu|(_ & _ & _ & Hu)]; [left; split; [done|congruence]|right]. intros j y. rewrite Ea. apply Hu.
Qed.

Lemma insert_fold s i e f x : (i < length (arp_table s))%nat ->
  (mkArp (<[i := f]> (<[i := e]> (arp_table s))) (etharp_cached_entry s) x : arp_sys X) =
  mkArp (<[i := f]> (arp_table s)) (etharp_cached_entry s) x.
Proof. intros _. by rewrite list_insert_insert_eq. Qed.

Lemma unicast_tests nif ip :
  ((ip =? IPADDR_ANY) || isbroadcast netif_at ip nif || ip4_addr_ismulticast ip) = false <-> unicast netif_at nif ip.
Proof. unfold unicast. rewrite !orb_false_iff, Z.eqb_neq. tauto. Qed.

(** The entry after an update. *)
Definition learned (nif ip : Z) (mac : eth_addr) : etharp_entry := mkEntry None ip nif mac 0 ETHARP_STATE_STABLE.

Lemma update_entry_spec nif ip mac hard s : arp_ok s ->
  wp (etharp_update_arp_entry netif_at nif ip mac hard) (fun r s' => arp_ok s' /\
    (r = ERR_OK /\ unicast netif_at nif ip /\ learned nif ip mac ∈ arp_table s' \/
     r = ERR_MEM /\ s' = s \/ r = ERR_ARG /\ s' = s /\ ~ unicast netif_at nif ip)) s.
Proof.
  intros H. unfold etharp_update_arp_entry. destruct ((_ || _) || _) eqn:Eu.
  { apply wp_ret. split; [done|]. right. right. split; [done|]. split; [done|]. rewrite <- unicast_tests. congruence. }
  apply unicast_tests in Eu. apply wp_bind. eapply wp_mono; [by apply find_slot|].
  intros [i|] s1 [H1 Hs]; [|apply wp_ret; subst; auto]. destruct Hs as (e & Hs). pose proof Hs as (Hi & Hok & Ha & _).
  assert (Hlt : (i < length (arp_table s1))%nat) by (by eapply lookup_lt_Some).
  eapply wp_update; [exact Hi|]. do 3 (eapply wp_update; [apply list_lookup_insert_eq; cbn; by rewrite ?length_insert|]).
  eapply wp_entry; [apply list_lookup_insert_eq; cbn; by rewrite ?length_insert|].
  cbn [arp_table etharp_cached_entry net q set_ctime set_ethaddr set_netif set_state].
  rewrite !list_insert_insert_eq. unfold set_ctime, set_ethaddr, set_netif, set_state. cbn [q ipaddr ctime e_netif ethaddr state].
  assert (Hl : entry_ok (learned nif ip mac)) by (split; [done|]; by cbn).
  assert (Hfin : forall x, arp_ok (mkArp (<[i := learned nif ip mac]> (arp_table s1)) (etharp_cached_entry s1) x) /\
    (learned nif ip mac ∈ <[i := learned nif ip mac]> (arp_table s1))).
  { intros x. split; [by eapply slot_insert|]. by eapply list_elem_of_lookup_2, list_lookup_insert_eq. }
  destruct (q e) as [p|] eqn:Eq.
  - eapply wp_update; [by apply list_lookup_insert_eq|]. cbn [arp_table etharp_cached_entry net]. rewrite list_insert_insert_eq.
    apply wp_keeps; [apply keeps_output|]. intros r x. apply wp_keeps; [apply keeps_on_net|]. intros ? x'. apply wp_ret.
    cbn. rewrite Ha. destruct (Hfin x') as [? ?]. split; [done|]. by left.
  - apply wp_ret. rewrite Ha, <- Eq. rewrite Eq. destruct (Hfin (net s1)) as [? ?]. split; [done|]. by left.
Qed.

Lemma query_packet_preserves nif p i r s : arp_ok s -> (i < ARP_TABLE_SIZE)%nat ->
  wp (query_packet netif_at nif p i r) (fun _ s' => arp_ok s') s.
Proof.
  intros H Hi. destruct (table_ok_lookup _ _ i (proj1 H) Hi) as (e & He & Hok). eapply wp_entry; [exact He|].
  destruct (is_stable (state e)) eqn:Est.
  - apply wp_bind, wp_modify. apply preserves_output. split; [apply H|exact Hi].
  - case_bool_decide as Ep; [|by apply wp_ret]. apply wp_keeps; [apply keeps_take|]. intros [c|] x; [|by apply wp_ret].
    eapply wp_entry; [exact He|].
    assert (K : forall x, wp (update i (set_q (Some c)) ;;; ret ERR_OK) (fun _ s' => arp_ok s')
                (mkArp (arp_table s) (etharp_cached_entry s) x)).
    { intros x'. eapply wp_update; [exact He|]. apply wp_ret. eapply arp_ok_insert; [done..| |].
      - destruct Hok as [H0 H1]. rewrite Ep in H1. split; [done|]. cbn. by rewrite Ep.
      - intros _. split; [|done]. unfold in_use. by rewrite Ep. }
    destruct (q e).
    + apply wp_keeps; [apply keeps_on_net|]. intros ? x'. apply K.
    + apply wp_bind, wp_ret, K.
Qed.

Lemma query_preserves nif ip p : preserves (etharp_query netif_at nif ip p).
Proof.
  intros s H. unfold etharp_query. destruct ((_ || _) || _) eqn:Eu; [by apply wp_ret|].
  assert (Hu : unicast netif_at nif ip) by (apply unicast_tests; rewrite <- Eu; by destruct (ip =? _), (isbroadcast _ _ _), (ip4_addr_ismulticast _)).
  apply wp_bind. eapply wp_mono; [by apply find_slot|]. intros [i|] s1 [H1 Hs]; [|by apply wp_ret].
  destruct Hs as (e & Hs). pose proof Hs as (Hi & Hok & Ha & Hdis). eapply wp_entry; [exact Hi|].
  assert (Hlt : (i < length (arp_table s1))%nat) by (by eapply lookup_lt_Some).
  assert (Hsz : (i < ARP_TABLE_SIZE)%nat) by (destruct H1 as [(? & _) _]; lia).
  apply wp_bind. apply (wp_mono _ (fun _ s' => arp_ok s')).
  - case_bool_decide as Es; [|by apply wp_ret]. eapply wp_update; [exact Hi|]. eapply wp_update_last; [by apply list_lookup_insert_eq|].
    cbn [arp_table etharp_cached_entry net]. rewrite list_insert_insert_eq. eapply slot_insert; [done..| |by rewrite <- Ha].
    destruct Hdis as [U|(_ & Eq & Ec & _)]; [by destruct U|]. split; [cbn; lia|]. cbn. rewrite Ec. split; [done|]. by rewrite Ha.
  - intros ? s2 H2. destruct p as [p|]; [|by apply preserves_raw]. apply wp_bind. apply (wp_mono _ (fun _ s' => arp_ok s')).
    + case_bool_decide; [by apply preserves_raw|by apply wp_ret].
    + intros ? s3 H3. by apply query_packet_preserves.
Qed.

Lemma output_index_preserves nif p i s : arp_ok s -> (i < ARP_TABLE_SIZE)%nat ->
  wp (etharp_output_to_arp_index netif_at nif p i) (fun _ s' => arp_ok s') s.
Proof.
  intros H Hi. destruct (table_ok_lookup _ _ i (proj1 H) Hi) as (e & He & Hok). eapply wp_entry; [exact He|].
  apply wp_bind. apply (wp_mono _ (fun _ s' => arp_ok s')).
  - case_bool_decide as Es; [|by apply wp_ret].
    assert (K : forall (m : M (arp_sys X) Z), keeps m ->
      wp (r <- m ;; if r =? ERR_OK then update i (set_state ETHARP_STATE_STABLE_REREQUESTING_1) else ret tt) (fun _ s' => arp_ok s') s).
    { intros m Hm. apply wp_keeps; [done|]. intros r x. destruct (_ =? _); [|by apply wp_ret].
      eapply wp_update_last; [exact He|]. eapply arp_ok_insert; [done..| |].
      - destruct Hok as [H0 H1]. rewrite Es in H1. by split.
      - intros _. split; [|done]. unfold in_use. by rewrite Es. }
    destruct (_ <=? _); [apply K, keeps_request|]. destruct (_ <=? _); [apply K, keeps_raw|]. by apply wp_ret.
  - intros ? s1 H1. apply wp_bind, wp_gets. by apply preserves_output.
Qed.

Lemma output_unicast_preserves nif p dst s : arp_ok s ->
  wp (output_unicast netif_at nif p dst) (fun _ s' => arp_ok s') s.
Proof.
  intros H. unfold output_unicast. apply wp_bind, wp_gets, wp_bind, wp_gets.
  destruct (_ && _); [apply output_index_preserves; [done|apply H]|]. apply wp_bind, wp_gets.
  destruct (stable_entry _ _ _) as [i|] eqn:E; [|by apply query_preserves].
  apply stable_entry_spec in E as (e & _ & Hi & _). pose proof H as [(Hl & _) _].
  apply wp_bind, wp_modify. apply output_index_preserves; [split; [apply H|cbn; lia]|lia].
Qed.

Lemma output_preserves nif p ip : preserves (etharp_output netif_at nif p ip).
Proof.
  intros s H. unfold etharp_output. destruct (isbroadcast _ _ _); [by apply preserves_output|].
  destruct (ip4_addr_ismulticast _); [by apply preserves_output|]. destruct (next_hop _ _ _); [|by apply wp_ret].
  by apply output_unicast_preserves.
Qed.

Lemma update_entry_preserves nif ip mac hard : preserves (etharp_update_arp_entry netif_at nif ip mac hard).
Proof. intros s H. eapply wp_mono; [by apply update_entry_spec|]. by intros r s' [? _]. Qed.

Section Input.
Context (ip4_input dhcp_arp_reply : Z -> Z -> M (arp_sys X) unit).
Context (Hip : forall p nif, preserves (ip4_input p nif)) (Hdhcp : forall nif ip, preserves (dhcp_arp_reply nif ip)).

Lemma etharp_input_preserves p nif : preserves (etharp_input netif_at dhcp_arp_reply p nif).
Proof.
  apply arp_preserves_bind; [apply arp_preserves_gets|]. intros h. destruct (_ || _); [apply preserves_on_net|].
  apply arp_preserves_bind; [apply update_entry_preserves|]. intros ?. apply arp_preserves_bind; [|intros ?; apply preserves_on_net].
  destruct (_ =? _).
  - destruct (_ && _); [|apply arp_preserves_ret]. apply arp_preserves_bind; [apply preserves_raw|]. intros ?. apply arp_preserves_ret.
  - destruct (_ =? _); [apply Hdhcp|apply arp_preserves_ret].
Qed.

Lemma ethernet_input_preserves p nif : preserves (ethernet_input netif_at ip4_input dhcp_arp_reply p nif).
Proof.
  apply arp_preserves_bind; [apply arp_preserves_gets|]. intros [b|]; [|apply arp_preserves_ret].
  assert (Hfree : preserves (on_net (pbuf_free p) ;;; ret ERR_OK)) by (apply arp_preserves_bind; [apply preserves_on_net|intros; apply arp_preserves_ret]).
  destruct (_ <=? _); [done|]. apply arp_preserves_bind; [apply arp_preserves_gets|]. intros h. apply arp_preserves_bind.
  { destruct (negb _); [|apply arp_preserves_ret]. destruct (_ =? _).
    - destruct (_ && _); [apply preserves_on_net|apply arp_preserves_ret].
    - case_bool_decide; [apply preserves_on_net|apply arp_preserves_ret]. }
  intros ?. destruct (_ || _); [|done]. destruct (_ =? 0); [done|]. apply arp_preserves_bind.
  { destruct (_ <? _); [apply arp_preserves_ret|apply preserves_on_net]. }
  intros r. destruct (negb _); [done|]. apply arp_preserves_bind; [|intros; apply arp_preserves_ret].
  destruct (_ =? _); [apply Hip|apply etharp_input_preserves].
Qed.
End Input.
End Invariant.

(** ** Runs *)
Section Runs.
Context {X : Type} `{!PbufApi X, !LinkDriver X}.
Context (netif_at : Z -> netif).
Implicit Types (s : arp_sys X) (t : list etharp_entry) (e : etharp_entry).

(** The calls from the rest of the stack; [Elsewhere]: anything that does not call ARP. *)
Inductive arp_call :=
  | Tmr
  | Cleanup (nif : Z)
  | Query (nif ip : Z) (p : option Z)
  | Output (nif p ip : Z)
  | Input (p nif : Z)
  | ArpInput (p nif : Z)
  | Elsewhere (f : X -> X).

Context (ip4_input dhcp_arp_reply : Z -> Z -> M (arp_sys X) unit).

Definition run_call (c : arp_call) : M (arp_sys X) unit :=
  match c with
  | Tmr => etharp_tmr netif_at
  | Cleanup nif => etharp_cleanup_netif nif
  | Query nif ip p => etharp_query netif_at nif ip p ;;; ret tt
  | Output nif p ip => etharp_output netif_at nif p ip ;;; ret tt
  | Input p nif => ethernet_input netif_at ip4_input dhcp_arp_reply p nif ;;; ret tt
  | ArpInput p nif => etharp_input netif_at dhcp_arp_reply p nif
  | Elsewhere f => modify (fun s => mkArp (arp_table s) (etharp_cached_entry s) (f (net s)))
  end.

Fixpoint run_calls (l : list arp_call) : M (arp_sys X) unit :=
  match l with [] => ret tt | c :: l => run_call c ;;; run_calls l end.

(** The table is in zero-initialised memory. *)
Definition zero_entry : etharp_entry := mkEntry None 0 0 ethzero 0 ETHARP_STATE_EMPTY.
Definition arp_start (x : X) : arp_sys X := mkArp (replicate ARP_TABLE_SIZE zero_entry) 0 x.

Lemma arp_start_ok x : arp_ok netif_at (arp_start x).
Proof.
  split; [|cbn; unfold ARP_TABLE_SIZE; lia]. split; [apply length_replicate|]. split.
  - by apply Forall_replicate.
  - intros i j e e' [-> _]%lookup_replicate _ []. done.
Qed.

(** C27. From power-up, after any sequence of timer ticks, received frames, queries and
    outgoing packets, re-entrant calls included, the ARP table has at most one entry per
    address, only unicast addresses, ages below their limits, and a packet waits only
    for a pending entry. *)
Theorem arp_reachable_ok x l :
  (forall p nif, preserves netif_at (ip4_input p nif)) -> (forall nif ip, preserves netif_at (dhcp_arp_reply nif ip)) ->
  wp (run_calls l) (fun _ s' =>
    length (arp_table s') = ARP_TABLE_SIZE /\ (etharp_cached_entry s' < ARP_TABLE_SIZE)%nat /\
    distinct (arp_table s') /\
    forall e, e ∈ arp_table s' -> in_use e ->
      unicast netif_at (e_netif e) (ipaddr e) /\ 0 <= ctime e < ARP_MAXAGE /\
      (state e = ETHARP_STATE_PENDING -> ctime e < ARP_MAXPENDING) /\
      (q e <> None -> state e = ETHARP_STATE_PENDING)) (arp_start x).
Proof.
  intros Hip Hd. apply (wp_mono _ (fun _ s' => arp_ok netif_at s')).
  - generalize (arp_start_ok x). generalize (arp_start x). induction l as [|c l IH]; intros s H; [by apply wp_ret|].
    apply wp_bind. apply (wp_mono _ (fun _ s1 => arp_ok netif_at s1)); [|intros ? s1; apply IH].
    assert (K : preserves netif_at (run_call c)); [|by apply K]. destruct c; cbn [run_call].
    + apply tmr_preserves.
    + apply cleanup_preserves.
    + apply arp_preserves_bind; [apply query_preserves|intros; apply arp_preserves_ret].
    + apply arp_preserves_bind; [apply output_preserves|intros; apply arp_preserves_ret].
    + apply arp_preserves_bind; [by apply ethernet_input_preserves|intros; apply arp_preserves_ret].
    + by apply etharp_input_preserves.
    + intros s2 H2. by apply wp_modify.
  - intros _ s' [(H1 & H2 & H3) H4]. split; [done|]. split; [done|]. split; [done|]. intros e He Hu.
    rewrite Forall_forall in H2. destruct (H2 e He) as [K0 K]. unfold ARP_MAXAGE, ARP_MAXPENDING, in_use in *.
    destruct (state e); try done; destruct_and!; split_and!; try done; try lia; try congruence; intros; (lia || congruence).
Qed.

(** ** The cached entry *)

(** [etharp_output] without the cache. *)
Definition output_reference (nif p ip : Z) : M (arp_sys X) Z := fun s =>
  let src := hwaddr (netif_at nif) in
  if isbroadcast netif_at ip nif then ethernet_output nif p src ethbroadcast ETHTYPE_IP s
  else if ip4_addr_ismulticast ip then
    ethernet_output nif p src
      [0x01; 0x00; 0x5e; Z.land (ip4_addr2 ip) 0x7f; ip4_addr3 ip; ip4_addr4 ip] ETHTYPE_IP s
  else match next_hop netif_at nif ip with
       | None => (ERR_RTE, s)
       | Some dst =>
           match stable_entry (arp_table s) 0 dst with
           | Some i => (ETHARP_SET_HINT i ;;; etharp_output_to_arp_index netif_at nif p i) s
           | None => etharp_query netif_at nif dst (Some p) s
           end
       end.

Lemma stable_entry_some t k ip j e : t !! j = Some e -> stable e -> ipaddr e = ip ->
  exists i, stable_entry t k ip = Some i /\ (k <= i <= k + j)%nat.
Proof.
  revert k j; induction t as [|x t IH]; intros k j; [done|]. intros Hj He Ha. cbn.
  destruct (is_stable (state x) && (ip =? ipaddr x)) eqn:E; [exists k; split; [done|lia]|].
  destruct j as [|j]; cbn in Hj.
  - injection Hj as ->. rewrite <- Ha, He, Z.eqb_refl in E. done.
  - destruct (IH (S k) j Hj He Ha) as (i & -> & Hi). exists i. split; [done|lia].
Qed.

Lemma stable_in_use e : stable e -> in_use e.
Proof. unfold stable, in_use. by destruct (state e). Qed.

(** The one-entry cache and the linear search never change where an outgoing packet is
    sent: etharp_output behaves exactly as without the cache. *)
Theorem arp_cache_transparent nif p ip s : arp_ok netif_at s ->
  etharp_output netif_at nif p ip s = output_reference nif p ip s.
Proof.
  intros [Ht Hc]. unfold etharp_output, output_reference.
  destruct (isbroadcast _ _ _); [done|]. destruct (ip4_addr_ismulticast _); [done|].
  destruct (next_hop _ _ _) as [dst|]; [|done]. unfold output_unicast, bind at 1 2, gets, entry.
  destruct (table_ok_lookup netif_at _ _ Ht Hc) as (e & He & Hok). unfold bind at 1, gets.
  rewrite (list_lookup_total_correct _ _ _ He). destruct (is_stable (state e) && (dst =? ipaddr e)) eqn:E.
  - apply andb_prop in E as [E1 E2%Z.eqb_eq].
    destruct (stable_entry_some (arp_table s) 0 dst _ e He E1 (eq_sym E2)) as (i & Ei & _). rewrite Ei.
    apply stable_entry_spec in Ei as (e' & Hi & _ & Hs' & Ha'). rewrite Nat.sub_0_r in Hi. destruct Ht as (_ & _ & Hd).
    assert (i = etharp_cached_entry s) as -> by (apply (Hd _ _ e' e); [done..|by apply stable_in_use|by apply stable_in_use|congruence]).
    unfold bind at 1, ETHARP_SET_HINT, modify. by destruct s.
  - unfold bind at 1. by destruct (stable_entry _ _ _).
Qed.

(** ** Expiry *)
Fixpoint ticks (n : nat) : M (arp_sys X) unit :=
  match n with O => ret tt | S n => ticks n ;;; etharp_tmr netif_at end.

(** What one tick leaves of an entry. *)
Definition aged e e' : Prop :=
  in_use e' -> in_use e /\ ctime e' = ctime e + 1 /\ (state e' = ETHARP_STATE_PENDING -> state e = ETHARP_STATE_PENDING).

Lemma tmr_entry_ages i s e : arp_table s !! i = Some e -> entry_ok netif_at e ->
  wp (tmr_entry netif_at i) (fun _ s' => exists e', arp_table s' = <[i := e']> (arp_table s) /\ aged e e' /\
    etharp_cached_entry s' = etharp_cached_entry s) s.
Proof.
  intros He Hok. unfold tmr_entry. assert (Hlt : (i < length (arp_table s))%nat) by (by eapply lookup_lt_Some).
  eapply wp_entry; [exact He|]. case_bool_decide as Es.
  { apply wp_ret. exists e. rewrite list_insert_id by done. split; [done|]. by split; [intros []|]. }
  eapply wp_update; [exact He|]. eapply wp_entry; [by apply list_lookup_insert_eq|]. cbn [arp_table ctime state set_ctime e_netif ipaddr].
  assert (Hc : 0 <= ctime e < 300).
  { destruct Hok as [H0 Hok]. destruct (state e); cbn in *; try done; unfold ARP_MAXAGE, ARP_MAXPENDING in *; lia. }
  rewrite (u16_small (ctime e + 1)) by lia. set (e1 := set_ctime (ctime e + 1) e).
  assert (Hi1 : <[i := e1]> (arp_table s) !! i = Some e1) by (by apply list_lookup_insert_eq).
  assert (Hsame : aged e e1) by by repeat split.
  destruct ((_ <=? _) || _).
  - assert (K : wp (bind (etharp_free_entry i) ret) (fun _ s' => exists e', arp_table s' = <[i := e']> (arp_table s) /\ aged e e' /\
      etharp_cached_entry s' = etharp_cached_entry s) (mkArp (<[i := e1]> (arp_table s)) (etharp_cached_entry s) (net s))).
    { eapply free_entry_spec; [exact Hi1|]. intros x. apply wp_ret. exists (freed e1). cbn. rewrite list_insert_insert_eq.
      split; [done|]. by split; [intros []|]. }
    unfold wp, bind, ret in *. by destruct (etharp_free_entry i _).
  - destruct (state e) eqn:Est; [done|..].
    + apply wp_keeps; [apply keeps_request|]. intros r x. apply wp_ret. by exists e1.
    + apply wp_ret. by exists e1.
    + eapply wp_update_last; [exact Hi1|]. cbn. rewrite list_insert_insert_eq. eexists. split; [done|].
      split; [|done]. intros _. unfold in_use. rewrite Est. cbn. by repeat split.
    + eapply wp_update_last; [exact Hi1|]. cbn. rewrite list_insert_insert_eq. eexists. split; [done|].
      split; [|done]. intros _. unfold in_use. rewrite Est. cbn. by repeat split.
Qed.

Lemma tmr_ages s : arp_ok netif_at s ->
  wp (etharp_tmr netif_at) (fun _ s' => forall i e', arp_table s' !! i = Some e' ->
    exists e, arp_table s !! i = Some e /\ aged e e') s.
Proof.
  intros [(Hl & Hok & _) _]. unfold etharp_tmr.
  assert (K : forall n k s1, (k + n = ARP_TABLE_SIZE)%nat -> length (arp_table s1) = ARP_TABLE_SIZE ->
    (forall i, (k <= i)%nat -> arp_table s1 !! i = arp_table s !! i) ->
    (forall i e', (i < k)%nat -> arp_table s1 !! i = Some e' -> exists e, arp_table s !! i = Some e /\ aged e e') ->
    wp (each (seq k n) (tmr_entry netif_at)) (fun _ s' => forall i e', arp_table s' !! i = Some e' ->
      exists e, arp_table s !! i = Some e /\ aged e e') s1).
  { induction n as [|n IH]; intros k s1 Hk Hl1 Hge Hlt; cbn [seq each].
    - apply wp_ret. intros i e' Hi. apply Hlt; [|done]. apply lookup_lt_Some in Hi. lia.
    - destruct (lookup_lt_is_Some_2 (arp_table s) k) as [e He]; [lia|].
      apply wp_bind. eapply wp_mono; [apply (tmr_entry_ages k s1 e); [by rewrite Hge by lia|by eapply Forall_lookup_1]|].
      intros ? s2 (e2 & Et & Ha & _). apply IH; [lia|by rewrite Et, length_insert| |].
      + intros i Hi. rewrite Et, list_lookup_insert_ne by lia. apply Hge. lia.
      + intros i e' Hi Hx. rewrite Et in Hx. apply list_lookup_insert_Some in Hx as [(<- & <- & _)|[Hne Hx]]; [by exists e|].
        apply Hlt; [lia|done]. }
  apply (K ARP_TABLE_SIZE 0%nat s); [done..|]. intros i e' Hi. lia.
Qed.

Lemma ticks_age n s : arp_ok netif_at s ->
  wp (ticks n) (fun _ s' => arp_ok netif_at s' /\ forall e, e ∈ arp_table s' -> in_use e -> Z.of_nat n <= ctime e) s.
Proof.
  intros H. induction n as [|n IH]; cbn [ticks].
  - apply wp_ret. split; [done|]. intros e He _. destruct H as [(_ & Hok & _) _].
    rewrite Forall_forall in Hok. by destruct (Hok e He).
  - apply wp_bind. eapply wp_mono; [exact IH|]. cbv beta. intros ? s1 [H1 Ha].
    eapply wp_mono; [apply wp_and; [by apply tmr_preserves|by apply tmr_ages]|]. cbv beta.
    intros ? s2 [H2 K]. split; [done|]. intros e' [i Hi]%list_elem_of_lookup_1 Hu. destruct (K i e' Hi) as (e & He & Hag).
    destruct (Hag Hu) as (Hu0 & Ec & _). apply list_elem_of_lookup_2 in He. specialize (Ha e He Hu0). lia.
Qed.

(** After five ticks without traffic no entry is pending and no packet is held any more,
    and after 300 ticks the table is empty. *)
Theorem arp_entries_expire s n : arp_ok netif_at s ->
  wp (ticks n) (fun _ s' =>
    (ARP_MAXPENDING <= Z.of_nat n -> forall e, e ∈ arp_table s' -> state e <> ETHARP_STATE_PENDING /\ q e = None) /\
    (ARP_MAXAGE <= Z.of_nat n -> forall e, e ∈ arp_table s' -> state e = ETHARP_STATE_EMPTY)) s.
Proof.
  intros H. eapply wp_mono; [by apply ticks_age|]. cbv beta. intros ? s' [[(_ & Hok & _) _] Ha].
  rewrite Forall_forall in Hok. unfold in_use, ARP_MAXAGE, ARP_MAXPENDING in *. split; intros Hn e He;
    specialize (Ha e He); destruct (Hok e He) as [H0 K]; unfold ARP_MAXAGE, ARP_MAXPENDING in *;
    destruct (state e); try done; specialize (Ha ltac:(done)); (split; [done|tauto]) || lia.
Qed.
End Runs.

(** ** Who owns the packets

    Any implementation of the pbuf functions, with a log of the references that ARP
    takes and gives back. *)
Inductive ref_event := Gain (p : Z) | Drop (p : Z).

Section Ledger.
Context {X : Type} `{!PbufApi X, !LinkDriver X}.
#[local] Abbreviation LX := (X * list ref_event)%type.

Definition quiet_call {B} (m : M X B) : M LX B := fun x => let '(b, y) := m x.1 in (b, (y, x.2)).
Definition logging {B} (f : B -> list ref_event) (m : M X B) : M LX B := fun x =>
  let '(b, y) := m x.1 in (b, (y, x.2 ++ f b)).

#[local] Instance logged_api : PbufApi LX := {
  chain_of x := chain_of x.1;
  payload_of x := payload_of x.1;
  write_payload p l := quiet_call (write_payload p l);
  or_flags p f := quiet_call (or_flags p f);
  pbuf_alloc l n t := logging (fun r => match r with Some p => [Gain p] | None => [] end) (pbuf_alloc l n t);
  pbuf_free p := logging (fun _ => [Drop p]) (pbuf_free p);
  pbuf_ref p := logging (fun _ => [Gain p]) (pbuf_ref p);
  pbuf_copy a b := quiet_call (pbuf_copy a b);
  pbuf_header p n := quiet_call (pbuf_header p n)
}.
#[local] Instance logged_driver : LinkDriver LX := { linkoutput nif p := quiet_call (linkoutput nif p) }.

Context (netif_at : Z -> netif).
Implicit Types (s : arp_sys LX) (e : etharp_entry).

Definition one (o : option Z) (p : Z) : Z := if decide (o = Some p) then 1 else 0.

(** References taken minus references given back, and entries that hold the packet. *)
Definition balance (l : list ref_event) (p : Z) : Z :=
  foldr (fun v n => n + match v with Gain a => one (Some a) p | Drop a => - one (Some a) p end) 0 l.
Definition waiting (t : list etharp_entry) (p : Z) : Z := foldr (fun e n => n + one (q e) p) 0 t.
Definition due s p : Z := balance (net s).2 p - waiting (arp_table s) p.

Lemma balance_app l1 l2 p : balance (l1 ++ l2) p = balance l1 p + balance l2 p.
Proof. unfold balance. induction l1 as [|v l1 IH]; cbn; [lia|]. rewrite IH. lia. Qed.

Lemma waiting_insert t i e e' p : t !! i = Some e -> waiting (<[i := e']> t) p = waiting t p + one (q e') p - one (q e) p.
Proof.
  unfold waiting. revert i; induction t as [|x t IH]; intros [|i] H; try done.
  - injection H as ->. change (<[0%nat := e']> (e :: t)) with (e' :: t). cbn [foldr]. lia.
  - change (<[S i := e']> (x :: t)) with (x :: <[i := e']> t). cbn [foldr]. rewrite (IH i H). lia.
Qed.

(** The call changes what is due by [f]. *)
Definition changes {B} (f : B -> Z -> Z) (m : M (arp_sys LX) B) : Prop := forall s,
  length (arp_table s) = ARP_TABLE_SIZE ->
  wp m (fun b s' => length (arp_table s') = ARP_TABLE_SIZE /\ forall p, due s' p = due s p + f b p) s.
Definition balanced {B} (m : M (arp_sys LX) B) : Prop := changes (fun _ _ => 0) m.

Lemma changes_bind {B C} f (g : C -> Z -> Z) (m : M (arp_sys LX) B) (k : B -> M (arp_sys LX) C) :
  changes f m -> (forall b, changes (fun c p => g c p - f b p) (k b)) -> changes g (bind m k).
Proof.
  intros Hm Hk s Hl. apply wp_bind. eapply wp_mono; [by apply Hm|]. intros b s1 [H1 E1].
  eapply wp_mono; [by apply Hk|]. intros c s2 [H2 E2]. split; [done|]. intros p. rewrite E2, E1. lia.
Qed.
Lemma changes_ret {B} (f : B -> Z -> Z) b : (forall p, f b p = 0) -> changes f (ret b).
Proof. intros H s Hl. apply wp_ret. split; [done|]. intros p. rewrite H. lia. Qed.
Lemma changes_ext {B} (f g : B -> Z -> Z) (m : M (arp_sys LX) B) : changes f m -> (forall b p, f b p = g b p) -> changes g m.
Proof. intros H E s Hl. eapply wp_mono; [by apply H|]. intros b s' [H1 H2]. split; [done|]. intros p. by rewrite H2, E. Qed.
Lemma changes_gets {B C} (h : arp_sys LX -> B) (f : C -> Z -> Z) (k : B -> M (arp_sys LX) C) :
  (forall b, changes f (k b)) -> changes f (bind (gets h) k).
Proof. intros H s Hl. apply wp_bind, wp_gets. by apply H. Qed.

Lemma balanced_quiet {B} (m : M X B) : balanced (on_net (quiet_call m)).
Proof. intros s Hl. unfold wp, on_net, quiet_call. destruct (m (net s).1) as [b y]. split; [done|]. intros p. unfold due. cbn [net arp_table etharp_cached_entry fst snd]. lia. Qed.
Lemma changes_logging {B} f (m : M X B) : changes (fun b => balance (f b)) (on_net (logging f m)).
Proof.
  intros s Hl. unfold wp, on_net, logging. destruct (m (net s).1) as [b y]. split; [done|]. intros p. unfold due. cbn [net arp_table etharp_cached_entry fst snd].
  rewrite balance_app. lia.
Qed.
Lemma changes_free a : changes (fun _ p => - one (Some a) p) (on_net (pbuf_free a)).
Proof. eapply changes_ext; [apply changes_logging|]. done. Qed.
Lemma changes_ref a : changes (fun _ p => one (Some a) p) (on_net (pbuf_ref a)).
Proof. eapply changes_ext; [apply changes_logging|]. intros [] p. cbn. lia. Qed.
Lemma changes_alloc l n t : changes (fun r p => one r p) (on_net (pbuf_alloc l n t)).
Proof. eapply changes_ext; [apply changes_logging|]. intros [a|] p; cbn; [lia|]. unfold one. by rewrite decide_False. Qed.

(** A change of an entry that is known. *)
Lemma changes_update i f (g : Z -> Z) s e : arp_table s !! i = Some e -> length (arp_table s) = ARP_TABLE_SIZE ->
  (forall p, g p = one (q e) p - one (q (f e)) p) ->
  wp (update i f) (fun _ s' => length (arp_table s') = ARP_TABLE_SIZE /\ forall p, due s' p = due s p + g p) s.
Proof.
  intros He Hl Hg. eapply wp_update_last; [exact He|]. split; [cbn; by rewrite length_insert|]. intros p.
  unfold due. cbn [net arp_table etharp_cached_entry fst snd]. rewrite (waiting_insert _ _ _ _ _ He), Hg. lia.
Qed.
Lemma update_balanced i f : (forall e, q (f e) = q e) -> balanced (update i f).
Proof.
  intros Hf s Hl. destruct (decide (i < length (arp_table s))%nat) as [Hi|Hi].
  - destruct (lookup_lt_is_Some_2 _ _ Hi) as [e He]. eapply changes_update; [done..|]. intros p. rewrite Hf. lia.
  - apply wp_modify. split; [cbn; by rewrite length_alter|]. intros p. unfold due. cbn [net arp_table etharp_cached_entry fst snd].
    replace (alter f i (arp_table s)) with (arp_table s); [lia|]. apply list_eq. intros j. destruct (decide (i = j)) as [<-|Hne].
    + by rewrite list_lookup_alter_eq, lookup_ge_None_2 by lia.
    + by rewrite list_lookup_alter_ne.
Qed.

Lemma balanced_bind {B C} (m : M (arp_sys LX) B) (k : B -> M (arp_sys LX) C) :
  balanced m -> (forall b, balanced (k b)) -> balanced (bind m k).
Proof. intros Hm Hk. eapply changes_bind; [exact Hm|]. intros b. eapply changes_ext; [apply Hk|]. done. Qed.
Lemma balanced_ret {B} (b : B) : balanced (ret b).
Proof. by apply changes_ret. Qed.
Lemma balanced_hint i : balanced (ETHARP_SET_HINT i).
Proof. intros s Hl. apply wp_modify. split; [done|]. intros p. unfold due. cbn [net arp_table etharp_cached_entry fst snd]. lia. Qed.
Lemma balanced_output nif p src dst ty : balanced (ethernet_output nif p src dst ty).
Proof.
  apply balanced_bind; [apply balanced_quiet|]. intros r. destruct (negb _); [apply balanced_ret|].
  apply balanced_bind; [apply balanced_quiet|]. intros ?. apply balanced_quiet.
Qed.

Lemma one_none p : one None p = 0.
Proof. done. Qed.

Lemma balanced_raw nif es ed hs is_ hd id_ op : balanced (etharp_raw nif es ed hs is_ hd id_ op).
Proof.
  eapply changes_bind; [apply changes_alloc|]. intros [a|].
  2: { apply changes_ret. intros p. by rewrite one_none. }
  eapply changes_bind; [apply balanced_quiet|]. intros ?. eapply changes_bind; [apply balanced_output|]. intros ?.
  eapply changes_bind; [apply changes_free|]. intros ?. apply changes_ret. intros p. lia.
Qed.

Lemma changes_take a : changes (fun r p => one r p) (take_packet a).
Proof.
  apply changes_gets. intros l. destruct (first_not_rom l) as [b|].
  - eapply changes_bind; [apply changes_alloc|]. intros [c|].
    2: { apply changes_ret. intros p. by rewrite one_none. }
    eapply changes_bind; [apply balanced_quiet|]. intros r. destruct (_ =? _); [apply changes_ret; intros p; lia|].
    eapply changes_bind; [apply changes_free|]. intros ?. apply changes_ret. intros p. rewrite one_none. lia.
  - eapply changes_bind; [apply changes_ref|]. intros ?. apply changes_ret. intros p. lia.
Qed.

Lemma balanced_free_entry i : (i < ARP_TABLE_SIZE)%nat -> balanced (etharp_free_entry i).
Proof.
  intros Hi s Hl. destruct (lookup_lt_is_Some_2 (arp_table s) i) as [e He]; [lia|]. eapply wp_entry; [exact He|].
  apply wp_bind. apply (wp_mono _ (fun _ s' => length (arp_table s') = ARP_TABLE_SIZE /\ forall p, due s' p = due s p + 0)).
  - destruct (q e) as [a|] eqn:Eq; [|apply wp_ret; split; [done|]; intros p; lia].
    apply wp_bind. eapply wp_mono; [apply wp_and; [by apply changes_free|apply (keeps_on_net (pbuf_free a) s)]|].
    intros ? s1 [[H1 E1] [Et _]]. eapply wp_mono; [eapply (changes_update i (set_q None) (one (Some a)) s1 e)|].
    + by rewrite Et.
    + done.
    + intros p. cbn. rewrite Eq, one_none. lia.
    + intros ? s2 [H2 E2]. split; [done|]. intros p. rewrite E2, E1. lia.
  - intros ? s1 [H1 E1]. eapply wp_mono; [by apply (update_balanced i (set_state ETHARP_STATE_EMPTY))|].
    intros ? s2 [H2 E2]. split; [done|]. intros p. rewrite E2, E1. lia.
Qed.

Lemma balanced_each l body : Forall (fun i => balanced (body i)) l -> balanced (each l body).
Proof.
  induction l as [|i l IH]; [intros _; apply balanced_ret|]. intros [H1 H2]%Forall_cons. cbn [each].
  apply balanced_bind; [done|]. intros []. by apply IH.
Qed.
Lemma balanced_indices body : (forall i, (i < ARP_TABLE_SIZE)%nat -> balanced (body i)) -> balanced (each indices body).
Proof. intros H. apply balanced_each, Forall_forall. intros i [_ Hi]%elem_of_seq. apply H. lia. Qed.

Lemma balanced_tmr : balanced (etharp_tmr netif_at).
Proof.
  apply balanced_indices. intros i Hi. apply changes_gets. intros e. case_bool_decide; [apply balanced_ret|].
  apply balanced_bind; [by apply update_balanced|]. intros ?. apply changes_gets. intros e1.
  destruct (_ || _); [by apply balanced_free_entry|].
  destruct (state e1); try apply balanced_ret; try by apply update_balanced.
  apply balanced_bind; [apply balanced_raw|]. intros ?. apply balanced_ret.
Qed.

Lemma balanced_cleanup nif : balanced (etharp_cleanup_netif nif).
Proof.
  apply balanced_indices. intros i Hi. apply changes_gets. intros e.
  destruct (_ && _); [by apply balanced_free_entry|apply balanced_ret].
Qed.

Lemma find_scan_bound t k ip c i : find_scan t k ip c = inl i -> (i < k + length t)%nat.
Proof.
  revert k c; induction t as [|e t IH]; intros k c; [done|]. cbn [find_scan length].
  assert (K : forall c, find_scan t (S k) ip c = inl i -> (i < k + S (length t))%nat) by (intros c' H; apply IH in H; lia).
  destruct (_ && _); [apply K|]. case_bool_decide; [apply K|]. case_bool_decide; [intros [= <-]; lia|].
  case_bool_decide; [destruct (q e)|]; (destruct (_ <=? _); apply K).
Qed.

Lemma balanced_find ip hard only s : length (arp_table s) = ARP_TABLE_SIZE ->
  wp (etharp_find_entry ip hard only) (fun r s' => length (arp_table s') = ARP_TABLE_SIZE /\
    (forall p, due s' p = due s p) /\ match r with Some i => (i < ARP_TABLE_SIZE)%nat | None => True end) s.
Proof.
  intros Hl. unfold etharp_find_entry. apply wp_bind, wp_gets.
  destruct (find_scan _ _ _ _) as [i|c] eqn:E.
  { apply wp_ret. apply find_scan_bound in E. split; [done|]. split; [done|]. lia. }
  assert (Hinit : forall i s1, (i < ARP_TABLE_SIZE)%nat -> length (arp_table s1) = ARP_TABLE_SIZE -> (forall p, due s1 p = due s p) ->
    wp (update i (fun e => set_ctime 0 (match ip with Some a => set_ipaddr a e | None => e end)) ;;; ret (Some i))
       (fun r s' => length (arp_table s') = ARP_TABLE_SIZE /\ (forall p, due s' p = due s p) /\
          match r with Some i => (i < ARP_TABLE_SIZE)%nat | None => True end) s1).
  { intros i s1 Hi Hl1 E1. apply wp_bind.
    eapply wp_mono; [by apply (update_balanced i (fun e => set_ctime 0 (match ip with Some a => set_ipaddr a e | None => e end)) ltac:(by destruct ip))|].
    intros ? s2 [H2 E2]. apply wp_ret. split; [done|]. split; [|done]. intros p. rewrite E2, E1. lia. }
  destruct (_ || _); [by apply wp_ret|]. destruct (Nat.ltb_spec (c_empty c) ARP_TABLE_SIZE); [by apply Hinit|].
  assert (Hv : match victim c with Some i => (i < ARP_TABLE_SIZE)%nat | None => True end).
  { unfold victim. destruct (Nat.ltb_spec (old_stable c) ARP_TABLE_SIZE); [done|].
    destruct (Nat.ltb_spec (old_pending c) ARP_TABLE_SIZE); [done|]. by destruct (Nat.ltb_spec (old_queue c) ARP_TABLE_SIZE). }
  destruct (victim c) as [i|]; [|by apply wp_ret]. apply wp_bind. eapply wp_mono; [by apply balanced_free_entry|].
  intros ? s1 [H1 E1]. apply Hinit; [done..|]. intros p. rewrite E1. lia.
Qed.

Lemma balanced_after_find {B} ip hard only (k : option nat -> M (arp_sys LX) B) :
  balanced (k None) -> (forall i, (i < ARP_TABLE_SIZE)%nat -> balanced (k (Some i))) ->
  balanced (bind (etharp_find_entry ip hard only) k).
Proof.
  intros Hn Hs s Hl. apply wp_bind. eapply wp_mono; [by apply balanced_find|]. intros [i|] s1 (H1 & E1 & Hi);
    (eapply wp_mono; [by first [apply (Hs i Hi)|apply Hn]|]); intros b s2 [H2 E2]; (split; [done|]); intros p; by rewrite E2, E1.
Qed.

Lemma balanced_update_entry nif ip mac hard : balanced (etharp_update_arp_entry netif_at nif ip mac hard).
Proof.
  unfold etharp_update_arp_entry. destruct (_ || _); [apply balanced_ret|].
  apply balanced_after_find; [apply balanced_ret|]. intros i Hi.
  do 4 (apply balanced_bind; [by apply update_balanced|]; intros ?). intros s Hl.
  destruct (lookup_lt_is_Some_2 (arp_table s) i) as [e He]; [lia|]. eapply wp_entry; [exact He|].
  destruct (q e) as [a|] eqn:Eq; [|by apply balanced_ret].
  apply wp_bind. eapply wp_mono; [eapply (changes_update i (set_q None) (one (Some a)) s e); [done..|]|].
  { intros p. cbn. rewrite Eq, one_none. lia. }
  intros ? s1 [H1 E1]. eapply wp_mono; [apply (changes_bind (fun _ _ => 0) (fun _ p => - one (Some a) p)); [apply balanced_output| |done]|].
  - intros ?. eapply changes_bind; [apply changes_free|]. intros ?. apply changes_ret. intros p. lia.
  - intros ? s2 [H2 E2]. split; [done|]. intros p. rewrite E2, E1. lia.
Qed.

Lemma balanced_query_packet nif a i r : (i < ARP_TABLE_SIZE)%nat -> balanced (query_packet netif_at nif a i r).
Proof.
  intros Hi. apply changes_gets. intros e0. destruct (is_stable _).
  - apply balanced_bind; [apply balanced_hint|]. intros ?. apply balanced_output.
  - case_bool_decide; [|apply balanced_ret]. eapply changes_bind; [apply changes_take|]. intros [c|].
    2: { apply changes_ret. intros p. by rewrite one_none. }
    intros s Hl. destruct (lookup_lt_is_Some_2 (arp_table s) i) as [e He]; [lia|]. eapply wp_entry; [exact He|].
    apply wp_bind. apply (wp_mono _ (fun _ s' => arp_table s' = arp_table s /\ forall p, due s' p = due s p - one (q e) p)).
    + destruct (q e) as [old|].
      * eapply wp_mono; [apply wp_and; [by apply changes_free|apply (keeps_on_net (pbuf_free old) s)]|].
        intros ? s1 [[H1 E1] [Et _]]. split; [done|]. intros p. rewrite E1. lia.
      * apply wp_ret. split; [done|]. intros p. rewrite one_none. lia.
    + intros ? s1 [Et E1]. apply wp_bind.
      eapply wp_mono; [apply (changes_update i (set_q (Some c)) (fun p => one (q e) p - one (Some c) p) s1 e); [by rewrite Et|by rewrite Et|done]|].
      intros ? s2 [H2 E2]. apply wp_ret. split; [done|]. intros p. rewrite E2, E1. lia.
Qed.

Lemma balanced_query nif ip a : balanced (etharp_query netif_at nif ip a).
Proof.
  unfold etharp_query. destruct (_ || _); [apply balanced_ret|]. apply balanced_after_find; [apply balanced_ret|].
  intros i Hi. apply changes_gets. intros e. apply balanced_bind.
  { case_bool_decide; [|apply balanced_ret]. apply balanced_bind; [by apply update_balanced|]. intros ?. by apply update_balanced. }
  intros ?. destruct a as [a|]; [|apply balanced_raw]. apply balanced_bind; [|intros; by apply balanced_query_packet].
  case_bool_decide; [apply balanced_raw|apply balanced_ret].
Qed.

Lemma balanced_output_index nif a i : balanced (etharp_output_to_arp_index netif_at nif a i).
Proof.
  apply changes_gets. intros e. apply balanced_bind; [|intros; apply changes_gets; intros; apply balanced_output].
  case_bool_decide; [|apply balanced_ret].
  assert (K : forall m : M (arp_sys LX) Z, balanced m ->
    balanced (r <- m ;; if r =? ERR_OK then update i (set_state ETHARP_STATE_STABLE_REREQUESTING_1) else ret tt)).
  { intros m Hm. apply balanced_bind; [done|]. intros r. destruct (_ =? _); [by apply update_balanced|apply balanced_ret]. }
  destruct (_ <=? _); [apply K, balanced_raw|]. destruct (_ <=? _); [apply K, balanced_raw|apply balanced_ret].
Qed.

Lemma balanced_etharp_output nif a ip : balanced (etharp_output netif_at nif a ip).
Proof.
  unfold etharp_output. destruct (isbroadcast _ _ _); [apply balanced_output|].
  destruct (ip4_addr_ismulticast _); [apply balanced_output|]. destruct (next_hop _ _ _); [|apply balanced_ret].
  apply changes_gets. intros c. apply changes_gets. intros e. destruct (_ && _); [apply balanced_output_index|].
  apply changes_gets. intros t. destruct (stable_entry _ _ _); [|apply balanced_query].
  apply balanced_bind; [apply balanced_hint|]. intros ?. apply balanced_output_index.
Qed.

Context (ip4_input dhcp_arp_reply : Z -> Z -> M (arp_sys LX) unit).

Lemma changes_input a nif : (forall n ip, balanced (dhcp_arp_reply n ip)) ->
  changes (fun _ p => - one (Some a) p) (etharp_input netif_at dhcp_arp_reply a nif).
Proof.
  intros Hd. apply changes_gets. intros h. destruct (_ || _); [apply changes_free|].
  eapply changes_bind; [apply balanced_update_entry|]. intros ?. eapply changes_bind; [|intros; eapply changes_ext; [apply changes_free|]; intros ? p; rewrite !Z.sub_0_r; done].
  destruct (_ =? _).
  - destruct (_ && _); [|by apply balanced_ret]. apply balanced_bind; [apply balanced_raw|]. intros ?. apply balanced_ret.
  - destruct (_ =? _); [apply Hd|apply balanced_ret].
Qed.

(** Received ARP packets belong to ARP; what happens elsewhere is not in the log. *)
Fixpoint handed_over (l : list (arp_call (X := LX))) (p : Z) : Z :=
  match l with [] => 0 | ArpInput a _ :: l => one (Some a) p + handed_over l p | _ :: l => handed_over l p end.
Definition tracked (c : arp_call (X := LX)) : Prop :=
  match c with Input _ _ => False | Elsewhere f => forall x, (f x).2 = x.2 | _ => True end.

Lemma changes_run l : (forall n ip, balanced (dhcp_arp_reply n ip)) -> Forall tracked l ->
  changes (fun _ p => - handed_over l p) (run_calls netif_at ip4_input dhcp_arp_reply l).
Proof.
  intros Hd. induction l as [|c l IH]; [intros _; by apply changes_ret|]. intros [Hc Hl]%Forall_cons. cbn [run_calls].
  assert (K : changes (fun _ p => match c with ArpInput a _ => - one (Some a) p | _ => 0 end)
    (run_call netif_at ip4_input dhcp_arp_reply c)).
  { destruct c; cbn [run_call].
    - apply balanced_tmr.
    - apply balanced_cleanup.
    - apply balanced_bind; [apply balanced_query|]. intros ?. apply balanced_ret.
    - apply balanced_bind; [apply balanced_etharp_output|]. intros ?. apply balanced_ret.
    - done.
    - by apply changes_input.
    - intros s Hs. apply wp_modify. split; [done|]. intros p. unfold due. cbn [net arp_table]. rewrite Hc. lia. }
  eapply changes_bind; [exact K|]. intros ?. eapply changes_ext; [by apply IH|]. intros ? p. cbn. destruct c; lia.
Qed.

(** C28. ARP neither leaks nor double-frees packets, whatever the pbuf functions answer:
    for every packet, the references taken minus those given back are the table entries
    that hold it, and every received ARP packet is freed once. *)
Theorem arp_packets_owned x l : (forall n ip, balanced (dhcp_arp_reply n ip)) -> Forall tracked l ->
  wp (run_calls netif_at ip4_input dhcp_arp_reply l) (fun _ s' =>
    forall p, balance (net s').2 p = waiting (arp_table s') p - handed_over l p) (arp_start (x, [])).
Proof.
  intros Hd Hl. eapply wp_mono; [by apply changes_run; [done..|apply length_replicate]|].
  intros ? s' [_ E] p. specialize (E p). unfold due, balance, waiting in *. cbn in E. rewrite !one_none in E. lia.
Qed.
End Ledger.

(** ** Witnesses *)
(** The interface of main.h, 192.168.1.2/24 behind 192.168.1.1. *)
Definition demo_netif (_ : Z) : netif :=
  mkNetif [2; 0; 0; 0; 0; 0] (IP4_ADDR 192 168 1 2) (IP4_ADDR 255 255 255 0) (IP4_ADDR 192 168 1 1) 0x0a.
#[local] Instance demo_allocators : PbufAlloc allocators := board_alloc demo_pools 0 1 0x30044000 (fun _ a => a).
#[local] Instance demo_driver : LinkDriver (pstate allocators) := { linkoutput _ _ := ret ERR_OK }.
#[local] Existing Instances logged_api logged_driver.
Definition no_reply (X : Type) (_ _ : Z) : M (arp_sys X) unit := ret tt.

Example query_then_reply :
  let '(r, s) := etharp_query demo_netif 0 (IP4_ADDR 192 168 1 7) None (arp_start demo_board) in
  let '(r', s') := etharp_update_arp_entry demo_netif 0 (IP4_ADDR 192 168 1 7) [1; 2; 3; 4; 5; 6] true s in
  (r, r', option_map state (arp_table s !! 0%nat), option_map ethaddr (arp_table s' !! 0%nat)) =
  (ERR_OK, ERR_OK, Some ETHARP_STATE_PENDING, Some [1; 2; 3; 4; 5; 6]).
Proof. by vm_compute. Qed.

Lemma arp_reachable_ok_witness :
  wp (run_calls demo_netif (no_reply _) (no_reply _)
       [Query 0 (IP4_ADDR 192 168 1 7) None; Tmr; Output 0 2048 (IP4_ADDR 8 8 8 8); Input 2048 0])
    (fun _ s' => distinct (arp_table s')) (arp_start demo_board).
Proof.
  eapply wp_mono; [apply (arp_reachable_ok demo_netif (no_reply _) (no_reply _) demo_board)|].
  - intros p nif. apply arp_preserves_ret.
  - intros nif ip. apply arp_preserves_ret.
  - by intros ? s' (_ & _ & H & _).
Defined.

Lemma arp_cache_transparent_witness :
  etharp_output demo_netif 0 2048 (IP4_ADDR 192 168 1 7) (arp_start demo_board) =
  output_reference demo_netif 0 2048 (IP4_ADDR 192 168 1 7) (arp_start demo_board).
Proof. apply (arp_cache_transparent demo_netif 0 2048 (IP4_ADDR 192 168 1 7)), arp_start_ok. Defined.

Definition demo_pending : arp_sys (pstate allocators) :=
  (etharp_query demo_netif 0 (IP4_ADDR 192 168 1 7) None (arp_start demo_board)).2.
Lemma demo_pending_ok : arp_ok demo_netif demo_pending.
Proof.
  pose proof (query_preserves demo_netif 0 (IP4_ADDR 192 168 1 7) None _ (arp_start_ok demo_netif demo_board)) as H.
  unfold demo_pending, wp in *. by destruct (etharp_query _ _ _ _ _).
Qed.

Lemma arp_entries_expire_witness :
  wp (ticks demo_netif 300) (fun _ s' => forall e, e ∈ arp_table s' -> state e = ETHARP_STATE_EMPTY) demo_pending.
Proof.
  eapply wp_mono; [apply (arp_entries_expire demo_netif demo_pending 300 demo_pending_ok)|].
  intros ? s' [_ H]. apply H. by vm_compute.
Defined.

Lemma arp_packets_owned_witness :
  wp (run_calls demo_netif (no_reply _) (no_reply _) [Query 0 (IP4_ADDR 192 168 1 7) (Some 2048); Tmr; ArpInput 2048 0])
    (fun _ s' => balance (net s').2 2048 = waiting (arp_table s') 2048 - 1) (arp_start (demo_board, [])).
Proof.
  eapply wp_mono; [apply (arp_packets_owned demo_netif (no_reply _) (no_reply _) demo_board)|].
  - intros n ip. apply balanced_ret.
  - by repeat constructor.
  - intros ? s' H. by rewrite (H 2048).
Defined.

(** A packet of six bytes whose first pbuf is PBUF_ROM and whose second is not: the copy
    is allocated with the length from the second pbuf on, so that [pbuf_copy] refuses,
    although there is memory for the whole packet. *)
Definition rom_first : pstate allocators :=
  mkPs (<[2048 := mkPbuf (Some 4096) 9000 6 4 PBUF_ROM 0 1]> (<[4096 := mkPbuf None 9100 2 2 PBUF_RAM 0 1]> ∅))
       (fun _ => 0) (palloc demo_board).

Lemma rom_first_refused :
  (take_packet 2048 (arp_start rom_first)).1 = None /\ (pbuf_alloc PBUF_LINK 6 PBUF_RAM rom_first).1 <> None.
Proof. by vm_compute. Qed.
