(* ===== verification/ReassOk.v ===== *)
(** * Reassembly delivers what was sent

    The class [ReassLaws] says what the pbuf functions promise ip4_frag.c, as operations on
    a map of packets.  [queue_ok] is the invariant of the queue of datagrams: every queued
    fragment is a slice of the datagram of its addresses and identification, slices do not
    overlap, and the count of pbufs is exact. *)
From stdpp Require Import gmap.
From S2P Require Import Prelude Ip4Addr Ip4Hdr Ip4Reass.

(** ** The memory behind the pbufs *)

(** A packet: its IP header while it is not hidden, the bytes behind, the length of the chain. *)
Record packet := mkPk { pk_hdr : option ip_hdr; pk_data : list Z; pk_clen : Z }.
#[export] Instance packet_eta : Eta packet := fun k => mkPk (pk_hdr k) (pk_data k) (pk_clen k).

(** The packets that are alive, and the free elements of the pool of [ip_reassdata]. *)
Class ReassView (X : Type) := { packets : X -> gmap Z packet; reass_avail : X -> Z }.

Class ReassLaws (X : Type) `{!ReassApi X, !ReassView X} : Prop := {
  law_iph x p k h : packets x !! p = Some k -> pk_hdr k = Some h -> iph_of x p = h;
  law_clen x p k : packets x !! p = Some k -> pbuf_clen x p = pk_clen k;
  law_put x p k h : packets x !! p = Some k -> pk_hdr k <> None ->
    wp (iph_put p h) (fun _ x' => packets x' = <[p := k <| pk_hdr := Some h |>]> (packets x) /\
      reass_avail x' = reass_avail x) x;
  law_free x p k : packets x !! p = Some k ->
    wp (pbuf_free p) (fun _ x' => packets x' = delete p (packets x) /\ reass_avail x' = reass_avail x) x;
  law_hide x p k : packets x !! p = Some k -> pk_hdr k <> None ->
    wp (hide_header p) (fun _ x' => packets x' = <[p := k <| pk_hdr := None |>]> (packets x) /\
      reass_avail x' = reass_avail x) x;
  law_cat x p q kp kq : p <> q -> packets x !! p = Some kp -> packets x !! q = Some kq -> pk_hdr kq = None ->
    wp (pbuf_cat p q) (fun _ x' => packets x' = delete q (<[p := kp <| pk_data := pk_data kp ++ pk_data kq |>
        <| pk_clen := pk_clen kp + pk_clen kq |>]> (packets x)) /\ reass_avail x' = reass_avail x) x;
  law_icmp x p k : packets x !! p = Some k ->
    wp (icmp_time_exceeded p) (fun _ x' => packets x' = packets x /\ reass_avail x' = reass_avail x) x;
  law_malloc x : wp reassdata_malloc (fun ok x' => packets x' = packets x /\
    if ok then reass_avail x' = reass_avail x - 1 else reass_avail x' = reass_avail x /\ reass_avail x <= 0) x;
  law_mfree x : wp reassdata_free (fun _ x' => packets x' = packets x /\ reass_avail x' = reass_avail x + 1) x
}.

(** ** What the peers send *)

(** The datagram that a source sends to a destination under an identification: one of its
    headers, and its bytes. *)
Definition reass_key : Type := Z * Z * Z.
Definition key (h : ip_hdr) : reass_key := (iph_src h, iph_dest h, IPH_ID h).
Definition like (t h : ip_hdr) : Prop :=
  v_hl h = v_hl t /\ tos h = tos t /\ IPH_PROTO h = IPH_PROTO t /\ key h = key t.
Record datagram := mkDg { dg_hdr : ip_hdr; dg_data : list Z }.
Definition senders : Type := reass_key -> option datagram.

(** The header [h] and the bytes [data] are a fragment of it. *)
Record fragment_of (d : datagram) (h : ip_hdr) (data : list Z) : Prop := {
  fo_like : like (dg_hdr d) h;
  fo_hl : IPH_HL h = 5;
  fo_len : lwip_htons (IPH_LEN h) = IP_HLEN + slen data;
  fo_some : 0 < slen data;
  fo_end : frag_offset h + slen data <= slen (dg_data d);
  fo_data : data = sub (dg_data d) (frag_offset h) (frag_offset h + slen data);
  fo_last : Z.land (IPH_OFFSET h) (PP_HTONS IP_MF) = 0 <-> frag_offset h + slen data = slen (dg_data d);
  fo_fits : slen (dg_data d) <= 65535 - IP_HLEN;
  fo_first : Z.land (lwip_htons (IPH_OFFSET h)) IP_OFFMASK = 0 <-> frag_offset h = 0
}.

(** ** The queue *)
Definition pbufs_of (l : list ip_reassdata) : list Z := concat ((fun r => f_pbuf <$> frags r) <$> l).
Definition clen_at (P : gmap Z packet) (p : Z) : Z := match P !! p with Some k => pk_clen k | None => 0 end.
(** The bytes behind the header. *)
Definition data_at (P : gmap Z packet) (p : Z) : list Z := match P !! p with Some k => pk_data k | None => [] end.
Definition clens (P : gmap Z packet) (l : list Z) : Z := foldr (fun p n => clen_at P p + n) 0 l.

Record frag_ok (P : gmap Z packet) (data : list Z) (f : ip_frag) : Prop := {
  fg_range : 0 <= f_start f < f_end f /\ f_end f <= slen data;
  fg_pk : exists k, P !! f_pbuf f = Some k /\ pk_hdr k <> None /\ 1 <= pk_clen k /\
            pk_data k = sub data (f_start f) (f_end f)
}.
Fixpoint ordered (lo : Z) (l : list ip_frag) : Prop :=
  match l with [] => True | f :: l => lo <= f_start f /\ f_start f < f_end f /\ ordered (f_end f) l end.

(** [h] agrees with the datagram's header, as far as fragments do. *)
Record dg_ok (sent : senders) (P : gmap Z packet) (r : ip_reassdata) : Prop := {
  do_some : exists d, sent (key (iphdr r)) = Some d /\ like (dg_hdr d) (iphdr r) /\
    slen (dg_data d) <= 65535 - IP_HLEN /\ Forall (frag_ok P (dg_data d)) (frags r) /\
    (LASTFRAG r = true <-> Exists (fun f => f_end f = slen (dg_data d)) (frags r)) /\
    (LASTFRAG r = true -> datagram_len r = slen (dg_data d));
  do_ordered : ordered 0 (frags r)
}.

Record queue_ok (sent : senders) (l : list ip_reassdata) (P : gmap Z packet) (n : Z) : Prop := {
  qo_dgs : Forall (dg_ok sent P) l;
  qo_nodup : NoDup (pbufs_of l);
  qo_count : n = clens P (pbufs_of l);
  qo_max : n <= IP_REASS_MAX_PBUFS;
  qo_keys : NoDup ((fun r => key (iphdr r)) <$> l)
}.

(** ** Lists of pbufs *)
Lemma clens_app P l k : clens P (l ++ k) = clens P l + clens P k.
Proof. unfold clens. induction l; cbn; lia. Qed.
#[export] Instance clens_perm P : Proper ((≡ₚ) ==> eq) (clens P).
Proof. unfold clens. intros l k H. induction H; cbn; lia. Qed.
Lemma clens_ext P P' l : (forall p, p ∈ l -> P' !! p = P !! p) -> clens P' l = clens P l.
Proof.
  unfold clens. induction l as [|p l IH]; cbn; intros H; [done|]. unfold clen_at at 1 3.
  rewrite H by left. rewrite IH; [done|]. intros q Hq. apply H. by right.
Qed.
Lemma pbufs_of_app l k : pbufs_of (l ++ k) = pbufs_of l ++ pbufs_of k.
Proof. unfold pbufs_of. by rewrite fmap_app, concat_app. Qed.
Lemma pbufs_of_cons r l : pbufs_of (r :: l) = (f_pbuf <$> frags r) ++ pbufs_of l.
Proof. done. Qed.
Lemma in_pbufs_of r l p : r ∈ l -> p ∈ f_pbuf <$> frags r -> p ∈ pbufs_of l.
Proof. induction 1 as [r l|r x l _ IH]; intros Hp; rewrite pbufs_of_cons, elem_of_app; auto. Qed.
Lemma pbufs_of_in l p : p ∈ pbufs_of l -> exists r, r ∈ l /\ p ∈ f_pbuf <$> frags r.
Proof.
  induction l as [|r l IH]; [by intros ?%elem_of_nil|]. rewrite pbufs_of_cons, elem_of_app.
  intros [H|H]; [exists r; split; [left|done]|]. destruct (IH H) as (x & H1 & H2). exists x. split; [by right|done].
Qed.
Lemma pbufs_of_delete l i r : l !! i = Some r -> pbufs_of l ≡ₚ (f_pbuf <$> frags r) ++ pbufs_of (delete i l).
Proof.
  intros H. rewrite <- (take_drop_middle l i r H) at 1. rewrite delete_take_drop, !pbufs_of_app.
  unfold pbufs_of at 2. cbn. rewrite !app_assoc. apply Permutation_app_tail, Permutation_app_comm.
Qed.
Lemma delete_alter {A} (f : A -> A) (l : list A) (i : nat) : delete i (alter f i l) = delete i l.
Proof. revert i; induction l; intros [|i]; cbn; [done..|]. f_equal. apply IHl. Qed.
Lemma pbufs_of_alter l i r f : l !! i = Some r ->
  pbufs_of (alter f i l) ≡ₚ (f_pbuf <$> frags (f r)) ++ pbufs_of (delete i l).
Proof.
  intros H. rewrite <- (delete_alter f l i), <- (pbufs_of_delete (alter f i l) i (f r)); [done|].
  by rewrite list_lookup_alter_eq, H.
Qed.

Lemma frag_ok_ext P P' data f : P' !! f_pbuf f = P !! f_pbuf f -> frag_ok P data f -> frag_ok P' data f.
Proof. intros E [H1 H2]. constructor; [done|]. by rewrite E. Qed.
Lemma dg_ok_ext sent P P' r : (forall p, p ∈ (f_pbuf <$> frags r) -> P' !! p = P !! p) ->
  dg_ok sent P r -> dg_ok sent P' r.
Proof.
  intros E [(d & H1 & H2 & H3 & H4 & H5) H6]. constructor; [|done]. exists d. split_and!; try done; try apply H5.
  apply Forall_forall. intros f Hf. rewrite Forall_forall in H4. eapply frag_ok_ext; [|by apply H4].
  apply E. apply list_elem_of_fmap. by exists f.
Qed.

(** ** Chaining a fragment *)
Definition contiguous (prev : option ip_frag) (l : list ip_frag) : bool :=
  match prev, l with
  | Some v, _ => no_holes v l
  | None, f :: l => no_holes f l
  | None, [] => true
  end.
Definition end_of (prev : option ip_frag) : Z := match prev with Some v => f_end v | None => 0 end.

Lemma ordered_weaken lo lo' l : lo' <= lo -> ordered lo l -> ordered lo' l.
Proof. destruct l; cbn; [done|]. intros H (?&?&?). split_and!; [lia|done..]. Qed.

Lemma chain_frag_spec new q : forall prev valid l v behind,
  chain_frag new prev q valid = Some (l, v, behind) ->
  end_of prev <= f_start new -> f_start new < f_end new -> ordered (end_of prev) q ->
  l ≡ₚ new :: q /\ ordered (end_of prev) l /\ v && no_holes new behind = valid && contiguous prev l.
Proof.
  induction q as [|t q IH]; intros prev valid l v behind H Hlo Hn Ho.
  - cbn in H. injection H as <- <- <-. split; [done|]. split; [done|].
    rewrite andb_true_r. destruct prev; cbn; [by destruct (f_end _ =? _)|by rewrite andb_true_r].
  - cbn [chain_frag] in H. destruct Ho as (O1 & O2 & O3). destruct (Z.ltb_spec (f_start new) (f_start t)).
    + assert (Hl : l = new :: t :: q /\ behind = t :: q /\ f_end new <= f_start t /\
        v = match prev with Some u => valid && (f_end u =? f_start new) | None => valid end).
      { destruct prev as [u|]; cbn in H.
        - destruct (Z.ltb_spec (f_start new) (f_end u)), (Z.ltb_spec (f_start t) (f_end new)); cbn in H; try done.
          by injection H as <- <- <-.
        - destruct (Z.ltb_spec (f_start t) (f_end new)); [done|]. by injection H as <- <- <-. }
      destruct Hl as (-> & -> & He & ->). split; [done|]. split; [done|].
      destruct prev as [u|]; cbn; [|done]. rewrite <- andb_assoc. by destruct (f_end u =? f_start new).
    + destruct (Z.eqb_spec (f_start new) (f_start t)); [done|]. destruct (Z.ltb_spec (f_start new) (f_end t)); [done|].
      destruct (chain_frag new (Some t) q _) as [[[l' v'] b']|] eqn:E; [|done]. injection H as <- <- <-.
      apply IH in E as (E1 & E2 & E3); [|done..]. split; [by rewrite E1, Permutation_swap|]. split; [done|].
      rewrite E3. destruct prev as [u|]; cbn; [|done]. rewrite <- andb_assoc. by destruct (f_end u =? f_start t).
Qed.

(** Fragments that do not overlap. *)
Definition apart (f g : ip_frag) : Prop := f_end f <= f_start g \/ f_end g <= f_start f.
Lemma chain_frag_apart new q : forall prev valid, Forall (apart new) q ->
  end_of prev <= f_start new -> f_start new < f_end new -> ordered (end_of prev) q ->
  is_Some (chain_frag new prev q valid).
Proof.
  induction q as [|t q IH]; intros prev valid Ha Hlo Hn Ho; [by eexists|].
  apply Forall_cons in Ha as [Ha1 Ha2]. destruct Ho as (O1 & O2 & O3). cbn [chain_frag]. unfold apart in Ha1.
  destruct (Z.ltb_spec (f_start new) (f_start t)).
  - rewrite (proj2 (Z.ltb_ge (f_start t) (f_end new))) by lia. destruct prev as [u|]; [|by eexists].
    cbn in Hlo. rewrite (proj2 (Z.ltb_ge (f_start new) (f_end u))) by lia. by eexists.
  - rewrite (proj2 (Z.eqb_neq _ _)), (proj2 (Z.ltb_ge (f_start new) (f_end t))) by lia.
    set (valid' := match prev with Some v => _ | None => _ end).
    destruct (IH (Some t) valid' Ha2 ltac:(cbn; lia) Hn O3) as [[[l v] b] ->]. by eexists.
Qed.

(** A fragment whose first byte is queued is dropped. *)
Lemma chain_frag_drops new q : forall prev valid, end_of prev <= f_start new ->
  ordered (end_of prev) q -> Exists (fun t => f_start t <= f_start new < f_end t) q ->
  chain_frag new prev q valid = None.
Proof.
  induction q as [|t q IH]; intros prev valid Hlo Ho He; [by inversion He|].
  destruct Ho as (O1 & O2 & O3). cbn [chain_frag]. apply Exists_cons in He as [He|He].
  - rewrite (proj2 (Z.ltb_ge _ _)) by lia. destruct (Z.eqb_spec (f_start new) (f_start t)); [done|].
    by rewrite (proj2 (Z.ltb_lt _ _)) by lia.
  - assert (f_end t <= f_start new).
    { clear -He O3. revert He O3. generalize (f_end t) as lo. induction q as [|u q IH]; intros lo He O3; [by inversion He|].
      destruct O3 as (P1 & P2 & P3). apply Exists_cons in He as [He|He]; [lia|]. specialize (IH _ He P3). lia. }
    rewrite (proj2 (Z.ltb_ge (f_start new) (f_start t))) by lia. rewrite (proj2 (Z.eqb_neq _ _)) by lia.
    rewrite (proj2 (Z.ltb_ge (f_start new) (f_end t))) by lia. by rewrite IH.
Qed.

(** Contiguous slices from the start make up a prefix. *)
Lemma contiguous_data P data l : forall lo, Forall (frag_ok P data) l -> 0 <= lo -> ordered lo l ->
  forall f, f_end f = lo -> no_holes f l = true ->
  exists hi, lo <= hi /\ (l = [] -> hi = lo) /\ hi = end_of (match last l with Some g => Some g | None => Some f end) /\
    concat (data_at P <$> (f_pbuf <$> l)) = sub data lo hi.
Proof.
  induction l as [|g l IH]; intros lo Hf Hlo Ho f Hlast Hc.
  - exists lo. cbn. split; [done|]. split; [done|]. split; [done|]. unfold sub. by rewrite Z.sub_diag.
  - apply Forall_cons in Hf as [[R (k & Hk & _ & _ & Hd)] Hf]. destruct Ho as (O1 & O2 & O3). cbn in Hc.
    destruct (Z.eqb_spec (f_end f) (f_start g)) as [E|]; [|done].
    destruct (IH (f_end g) Hf ltac:(lia) O3 g eq_refl Hc) as (hi & I1 & I2 & I3 & I4). exists hi.
    split; [lia|]. split; [done|]. assert (Hhi : hi <= slen data).
    { rewrite I3. destruct (last l) as [u|] eqn:Eu; cbn; [|lia]. apply last_Some in Eu as [l' ->].
      apply Forall_app in Hf as [_ Hf]. apply Forall_cons in Hf as [[Ru _] _]. lia. }
    split.
    + rewrite last_cons. by destruct (last l).
    + cbn. unfold data_at at 1. rewrite Hk, Hd, I4, sub_app by lia. f_equal. lia.
Qed.

(** ** Freeing *)
Definition removed (P : gmap Z packet) (l : list Z) (P' : gmap Z packet) : Prop :=
  forall x, P' !! x = if decide (x ∈ l) then None else P !! x.

Lemma removed_refl P P' : P' = P -> removed P [] P'.
Proof. intros -> x. by rewrite decide_False by apply not_elem_of_nil. Qed.
Lemma removed_trans P l P1 k P2 : removed P l P1 -> removed P1 k P2 -> removed P (l ++ k) P2.
Proof.
  intros H1 H2 x. rewrite H2, H1. destruct (decide (x ∈ k)) as [Hk|Hk].
  - by rewrite decide_True by (apply elem_of_app; auto).
  - apply decide_ext. rewrite elem_of_app. tauto.
Qed.
Lemma removed_delete P p : removed P [p] (delete p P).
Proof.
  intros x. destruct (decide (x ∈ [p])) as [->%list_elem_of_singleton|H]; [by rewrite lookup_delete_eq|].
  rewrite lookup_delete_ne; [done|]. set_solver.
Qed.
Lemma removed_other P l P' x : removed P l P' -> x ∉ l -> P' !! x = P !! x.
Proof. intros H Hx. rewrite H. by rewrite decide_False. Qed.
Lemma removed_perm P l k P' : l ≡ₚ k -> removed P l P' -> removed P k P'.
Proof. intros E H x. rewrite H. apply decide_ext. by rewrite E. Qed.

Section Ok.
Context {X : Type} `{!ReassApi X, !ReassView X, !ReassLaws X} (sent : senders).
#[local] Abbreviation sys := (reass_sys X).
#[local] Abbreviation MS := (M sys).
Implicit Types (s : sys).

Definition pkts s : gmap Z packet := packets (mem_of s).
Definition avail s : Z := reass_avail (mem_of s).
Definition queued s : list Z := pbufs_of (reassdatagrams s).

(** Only the memory changes. *)
Record mem_only s s' : Prop := {
  mo_dgs : reassdatagrams s' = reassdatagrams s;
  mo_count : ip_reass_pbufcount s' = ip_reass_pbufcount s;
  mo_null : null_read s' = null_read s
}.
#[export] Instance mem_only_preorder : PreOrder mem_only.
Proof. split; [by intros s; constructor|]. intros a b c [] []; constructor; congruence. Qed.

Lemma wp_on_mem {A} (m : M X A) (Q : A -> X -> Prop) (Q' : A -> sys -> Prop) s :
  wp m Q (mem_of s) -> (forall a s', mem_only s s' -> Q a (mem_of s') -> Q' a s') -> wp (on_mem m) Q' s.
Proof. unfold wp, on_mem. destruct (m (mem_of s)) as [a x]. intros H1 H2. apply H2; [by constructor|done]. Qed.

Lemma mem_free p k s : pkts s !! p = Some k ->
  wp (on_mem (pbuf_free p)) (fun _ s' => mem_only s s' /\ pkts s' = delete p (pkts s) /\ avail s' = avail s) s.
Proof. intros H. eapply wp_on_mem; [by eapply law_free|]. by intros _ s' M [H1 H2]. Qed.
Lemma mem_put p k h s : pkts s !! p = Some k -> pk_hdr k <> None ->
  wp (on_mem (iph_put p h)) (fun _ s' => mem_only s s' /\
    pkts s' = <[p := k <| pk_hdr := Some h |>]> (pkts s) /\ avail s' = avail s) s.
Proof. intros H1 H2. eapply wp_on_mem; [by eapply law_put|]. by intros _ s' M [E1 E2]. Qed.
Lemma mem_icmp p k s : pkts s !! p = Some k ->
  wp (on_mem (icmp_time_exceeded p)) (fun _ s' => mem_only s s' /\ pkts s' = pkts s /\ avail s' = avail s) s.
Proof. intros H. eapply wp_on_mem; [by eapply law_icmp|]. by intros _ s' M [H1 H2]. Qed.

Lemma free_frags_spec data l : forall n s, Forall (frag_ok (pkts s) data) l -> NoDup (f_pbuf <$> l) ->
  0 <= n -> n + clens (pkts s) (f_pbuf <$> l) <= 65535 ->
  wp (free_frags l n) (fun m s' => m = n + clens (pkts s) (f_pbuf <$> l) /\ mem_only s s' /\
    removed (pkts s) (f_pbuf <$> l) (pkts s') /\ avail s' = avail s) s.
Proof.
  induction l as [|f l IH]; intros n s Hf Hd Hn Hc.
  - apply wp_ret. split; [cbn; lia|]. split; [reflexivity|]. split; [by apply removed_refl|done].
  - apply Forall_cons in Hf as [[R (k & Hk & Hh & Hl & Hdt)] Hf]. cbn [fmap list_fmap] in *.
    apply NoDup_cons in Hd as [Hd1 Hd2]. cbn [clens foldr] in Hc. fold (clens (pkts s) (f_pbuf <$> l)) in Hc.
    unfold clen_at in Hc. rewrite Hk in Hc.
    assert (E : forall P', removed (pkts s) [f_pbuf f] P' -> clens P' (f_pbuf <$> l) = clens (pkts s) (f_pbuf <$> l)).
    { intros P' HP. apply clens_ext. intros p Hp. eapply removed_other; [done|]. rewrite list_elem_of_singleton. by intros ->. }
    assert (Hpos : 0 <= clens (pkts s) (f_pbuf <$> l)).
    { clear -Hf. induction Hf as [|g l [_ (k & Hk & _ & Hl & _)] Hf IH]; cbn; [lia|].
      fold (clens (pkts s) (f_pbuf <$> l)). unfold clen_at. rewrite Hk. lia. }
    cbn [free_frags]. apply wp_bind, wp_gets. erewrite law_clen by exact Hk.
    wp_call (mem_free (f_pbuf f) k s Hk) as u s1 (M1 & H1 & H2).
    assert (HR : removed (pkts s) [f_pbuf f] (pkts s1)) by (rewrite H1; apply removed_delete).
    rewrite u16_small by lia. eapply wp_mono; [apply IH|].
    + apply Forall_forall. intros g Hg. rewrite Forall_forall in Hf. eapply frag_ok_ext; [|by apply Hf].
      eapply removed_other; [done|]. rewrite list_elem_of_singleton. intros E'. by apply Hd1; rewrite <- E'; apply list_elem_of_fmap_2.
    + done.
    + lia.
    + rewrite E by done. lia.
    + cbv beta. rewrite E by done. intros m s' (-> & M2 & H3 & H4). split.
      { cbn [clens foldr]. fold (clens (pkts s) (f_pbuf <$> l)). unfold clen_at. rewrite Hk. lia. }
      split; [by etrans|]. split; [|by rewrite H4]. by apply (removed_trans _ [_] (pkts s1)).
Qed.

(** The invariant: the queue is well formed, and no datagram is without fragments. *)
Record sys_ok s : Prop := {
  so_queue : queue_ok sent (reassdatagrams s) (pkts s) (ip_reass_pbufcount s);
  so_full : Forall (fun r => frags r <> []) (reassdatagrams s);
  so_null : null_read s = false
}.

Lemma queue_dg l P n i r : queue_ok sent l P n -> l !! i = Some r ->
  NoDup (f_pbuf <$> frags r) /\ exists d, sent (key (iphdr r)) = Some d /\ Forall (frag_ok P (dg_data d)) (frags r).
Proof.
  intros [H1 H2 _ _ _] Hi. split.
  - rewrite (pbufs_of_delete _ _ _ Hi) in H2. by apply NoDup_app in H2 as [H2 _].
  - rewrite Forall_lookup in H1. destruct (H1 _ _ Hi) as [(d & D1 & _ & _ & D4 & _) _]. by exists d.
Qed.

Lemma clens_nonneg P data l : Forall (frag_ok P data) l -> Z.of_nat (length l) <= clens P (f_pbuf <$> l).
Proof.
  induction 1 as [|g l [_ (k & Hk & _ & Hl & _)] Hf IH]; cbn; [lia|].
  fold (clens P (f_pbuf <$> l)). unfold clen_at. rewrite Hk. lia.
Qed.

Lemma queue_clens l P : Forall (dg_ok sent P) l -> 0 <= clens P (pbufs_of l).
Proof.
  induction 1 as [|r l [(d & _ & _ & _ & Hf & _) _] _ IH]; [done|].
  rewrite pbufs_of_cons, clens_app. apply clens_nonneg in Hf. lia.
Qed.

Lemma dgs_delete l P i : Forall (dg_ok sent P) l -> Forall (dg_ok sent P) (delete i l).
Proof. intros H. rewrite delete_take_drop. apply Forall_app. split; [by apply Forall_take|by apply Forall_drop]. Qed.
Lemma queue_part l P n i r : queue_ok sent l P n -> l !! i = Some r ->
  Z.of_nat (length (frags r)) <= clens P (f_pbuf <$> frags r) <= n /\ n <= 10.
Proof.
  intros [H1 _ H3 H4 _] Hi. rewrite (pbufs_of_delete _ _ _ Hi), clens_app in H3.
  pose proof (queue_clens _ _ (dgs_delete _ _ i H1)). rewrite Forall_lookup in H1.
  destruct (H1 _ _ Hi) as [(d & _ & _ & _ & Hf & _) _]. apply clens_nonneg in Hf.
  unfold IP_REASS_MAX_PBUFS in H4. lia.
Qed.

#[export] Instance pbufs_of_perm : Proper ((≡ₚ) ==> (≡ₚ)) pbufs_of.
Proof.
  intros l k H. induction H as [|r l k _ IH|r x l|l k m _ IH1 _ IH2]; [done|..|by etrans].
  - by rewrite !pbufs_of_cons, IH.
  - rewrite !pbufs_of_cons, !app_assoc. f_equiv. apply Permutation_app_comm.
Qed.
Lemma queue_perm l k P n : l ≡ₚ k -> queue_ok sent l P n -> queue_ok sent k P n.
Proof. intros E [H1 H2 H3 H4 H5]. constructor; rewrite <- ?E; done. Qed.

(** A datagram leaves the queue. *)
Lemma queue_cons_inv r l P n P' : queue_ok sent (r :: l) P n -> (forall p, p ∈ pbufs_of l -> P' !! p = P !! p) ->
  queue_ok sent l P' (n - clens P (f_pbuf <$> frags r)).
Proof.
  intros [H1 H2 H3 H4 H5] HX. rewrite pbufs_of_cons in H2, H3. apply NoDup_app in H2 as (N1 & N2 & N3).
  rewrite clens_app in H3. apply Forall_cons in H1 as [[(d & _ & _ & _ & Hf & _) _] Hd].
  apply clens_nonneg in Hf. constructor.
  - apply Forall_forall. intros x Hx. rewrite Forall_forall in Hd. eapply dg_ok_ext; [|by apply Hd].
    intros p Hp. apply HX. by eapply in_pbufs_of.
  - done.
  - rewrite (clens_ext P P') by done. lia.
  - lia.
  - rewrite fmap_cons in H5. by apply NoDup_cons in H5 as [_ H5].
Qed.
Lemma queue_apart r l P n p : queue_ok sent (r :: l) P n -> p ∈ f_pbuf <$> frags r -> p ∉ pbufs_of l.
Proof. intros [_ H2 _ _ _] Hp. rewrite pbufs_of_cons in H2. apply NoDup_app in H2 as (_ & N & _). auto. Qed.
Lemma queue_delete l P n i r P' : queue_ok sent l P n -> l !! i = Some r ->
  removed P (f_pbuf <$> frags r) P' ->
  queue_ok sent (delete i l) P' (n - clens P (f_pbuf <$> frags r)).
Proof.
  intros H Hi HR. apply (queue_perm _ _ _ _ (delete_Permutation _ _ _ Hi)) in H. eapply queue_cons_inv; [done|].
  intros p Hp. eapply removed_other; [done|]. intros Hq. by eapply queue_apart.
Qed.

Lemma free_first_spec r s d : Forall (frag_ok (pkts s) (dg_data d)) (frags r) -> NoDup (f_pbuf <$> frags r) ->
  frags r <> [] -> clens (pkts s) (f_pbuf <$> frags r) <= 10 ->
  wp (x <- free_first r ;; free_frags x.1 x.2) (fun n s' => n = clens (pkts s) (f_pbuf <$> frags r) /\
    mem_only s s' /\ removed (pkts s) (f_pbuf <$> frags r) (pkts s') /\ avail s' = avail s) s.
Proof.
  intros Hf Hd Hne Hc. unfold free_first. destruct (frags r) as [|f l] eqn:E; [done|].
  destruct (f_start f =? 0).
  2: { apply wp_bind, wp_ret. cbn [fst snd]. by apply (free_frags_spec (dg_data d)); try lia. }
  pose proof Hf as Hf'. apply Forall_cons in Hf as [[R (k & Hk & Hh & Hl & Hdt)] Hf].
  cbn [fmap list_fmap] in Hd, Hc |- *. apply NoDup_cons in Hd as [Hd1 Hd2].
  cbn [clens foldr] in Hc |- *. fold (clens (pkts s) (f_pbuf <$> l)) in Hc |- *.
  assert (Ha : clen_at (pkts s) (f_pbuf f) = pk_clen k) by (unfold clen_at; by rewrite Hk). rewrite Ha in Hc |- *.
  pose proof (clens_nonneg _ _ _ Hf) as Hpos.
  apply wp_bind, wp_bind. eapply wp_mono; [by apply (mem_put _ k)|]. cbv beta. intros _ s1 (M1 & P1 & A1).
  apply wp_bind. eapply wp_mono; [apply (mem_icmp (f_pbuf f) (k <| pk_hdr := Some (iphdr r) |>)); rewrite P1; by rewrite lookup_insert_eq|].
  cbv beta. intros _ s2 (M2 & P2 & A2). apply wp_bind, wp_gets.
  assert (Hk2 : pkts s2 !! f_pbuf f = Some (k <| pk_hdr := Some (iphdr r) |>)) by (by rewrite P2, P1, lookup_insert_eq).
  erewrite law_clen by exact Hk2. apply wp_bind. eapply wp_mono; [by apply (mem_free _ _ _ Hk2)|].
  cbv beta. intros _ s3 (M3 & P3 & A3). apply wp_ret. cbn [fst snd pk_clen].
  change (pk_clen (k <| pk_hdr := _ |>)) with (pk_clen k). rewrite u16_small by lia.
  assert (HR : removed (pkts s) [f_pbuf f] (pkts s3)).
  { rewrite P3, P2, P1, delete_insert_eq. apply removed_delete. }
  assert (HX : forall p, p ∈ f_pbuf <$> l -> pkts s3 !! p = pkts s !! p).
  { intros p Hp. eapply removed_other; [done|]. rewrite list_elem_of_singleton. by intros ->. }
  eapply wp_mono; [apply (free_frags_spec (dg_data d) l)|].
  - apply Forall_forall. intros g Hg. rewrite Forall_forall in Hf. eapply frag_ok_ext; [|by apply Hf].
    by apply HX, list_elem_of_fmap_2.
  - done.
  - lia.
  - rewrite (clens_ext (pkts s)) by done. lia.
  - cbv beta. rewrite (clens_ext (pkts s)) by done. intros n s' (-> & M4 & R4 & A4). split; [done|].
    split; [by etrans; [etrans; [etrans|]|]|]. split; [by apply (removed_trans _ [_] (pkts s3))|congruence].
Qed.

Lemma sys_delete s i r : sys_ok s -> reassdatagrams s !! i = Some r ->
  Forall (fun r => frags r <> []) (delete i (reassdatagrams s)).
Proof.
  intros H Hi. rewrite delete_take_drop. apply Forall_app.
  split; [apply Forall_take|apply Forall_drop]; apply H.
Qed.

Lemma free_complete_spec i r s : sys_ok s -> reassdatagrams s !! i = Some r ->
  wp (ip_reass_free_complete_datagram i) (fun n s' => sys_ok s' /\
    reassdatagrams s' = delete i (reassdatagrams s) /\ removed (pkts s) (f_pbuf <$> frags r) (pkts s') /\
    avail s' = avail s + 1 /\ 0 < n /\ ip_reass_pbufcount s' = ip_reass_pbufcount s - n) s.
Proof.
  intros Hs Hi. destruct (queue_dg _ _ _ _ _ (so_queue _ Hs) Hi) as [Hnd (d & _ & Hf)].
  assert (Hne : frags r <> []) by (pose proof (so_full _ Hs) as F; rewrite Forall_lookup in F; by eapply F).
  unfold ip_reass_free_complete_datagram. apply wp_bind, wp_gets. rewrite Hi. apply wp_bind_assoc, wp_bind.
  destruct (queue_part _ _ _ _ _ (so_queue _ Hs) Hi) as [Hn1 Hn2].
  eapply wp_mono; [apply (free_first_spec r s d); try done; lia|]. cbv beta.
  intros n s1 (-> & M1 & R1 & A1). apply wp_bind. unfold ip_reass_dequeue_datagram. apply wp_bind, wp_modify.
  eapply wp_on_mem; [apply law_mfree|]. intros _ s2 M2 [P2 A2]. cbn in A2, P2. apply wp_bind, wp_modify, wp_ret.
  destruct M1 as [D1 C1 N1], M2 as [D2 C2 N2]. cbn in D2, C2, N2.
  assert (Hc : u16 (ip_reass_pbufcount s2 - clens (pkts s) (f_pbuf <$> frags r)) =
    ip_reass_pbufcount s - clens (pkts s) (f_pbuf <$> frags r)) by (rewrite u16_small; lia).
  assert (HR : removed (pkts s) (f_pbuf <$> frags r) (packets (mem_of s2))) by (by rewrite P2).
  split_and!.
  - constructor; cbn.
    + rewrite D2, D1, Hc. by eapply queue_delete; [apply Hs|..].
    + rewrite D2, D1. by eapply sys_delete.
    + rewrite N2, N1. apply Hs.
  - cbn. by rewrite D2, D1.
  - done.
  - unfold avail in *. cbn. lia.
  - destruct (frags r); [done|cbn in *; lia].
  - cbn. exact Hc.
Qed.

(** ** Shrinking the queue

    Datagrams leave with their packets; the others keep all but their timers. *)
Definition same_dg (r r' : ip_reassdata) : Prop := exists t, r' = r <| timer := t |>.
Record shrinks s s' : Prop := {
  sh_ok : sys_ok s';
  sh_dgs : forall r', r' ∈ reassdatagrams s' -> exists r, r ∈ reassdatagrams s /\ same_dg r r';
  sh_pk : forall x, pkts s' !! x = if decide (x ∈ queued s /\ x ∉ queued s') then None else pkts s !! x;
  sh_pool : avail s' + Z.of_nat (length (reassdatagrams s')) = avail s + Z.of_nat (length (reassdatagrams s));
  sh_count : ip_reass_pbufcount s' <= ip_reass_pbufcount s
}.

Lemma shrinks_queued s s' x : shrinks s s' -> x ∈ queued s' -> x ∈ queued s.
Proof.
  intros H (r' & H1 & H2)%pbufs_of_in. destruct (sh_dgs _ _ H _ H1) as (r & H3 & t & ->).
  by eapply in_pbufs_of.
Qed.
Lemma shrinks_refl s : sys_ok s -> shrinks s s.
Proof.
  intros H. constructor; try done. 2: intros x; by rewrite decide_False by tauto.
  intros r Hr. exists r. split; [done|]. exists (timer r). by destruct r.
Qed.
Lemma shrinks_trans s1 s2 s3 : shrinks s1 s2 -> shrinks s2 s3 -> shrinks s1 s3.
Proof.
  intros A B. constructor.
  - apply B.
  - intros r3 H3. destruct (sh_dgs _ _ B _ H3) as (r2 & H2 & t2 & ->).
    destruct (sh_dgs _ _ A _ H2) as (r1 & H1 & t1 & ->). exists r1. split; [done|]. by exists t2.
  - intros x. rewrite (sh_pk _ _ B), (sh_pk _ _ A). pose proof (shrinks_queued _ _ x A). pose proof (shrinks_queued _ _ x B).
    destruct (decide (x ∈ queued s1)), (decide (x ∈ queued s2)), (decide (x ∈ queued s3));
      repeat first [rewrite decide_True by tauto|rewrite decide_False by tauto]; done.
  - rewrite (sh_pool _ _ B). apply A.
  - pose proof (sh_count _ _ A). pose proof (sh_count _ _ B). lia.
Qed.

Lemma shrinks_delete s i r s' : sys_ok s -> reassdatagrams s !! i = Some r -> sys_ok s' ->
  reassdatagrams s' = delete i (reassdatagrams s) -> removed (pkts s) (f_pbuf <$> frags r) (pkts s') ->
  avail s' = avail s + 1 -> ip_reass_pbufcount s' <= ip_reass_pbufcount s -> shrinks s s'.
Proof.
  intros Hs Hi Hs' E HR Ha Hc. constructor; [done|..|done].
  - intros x Hx. exists x. split; [|by exists (timer x); destruct x]. rewrite E in Hx.
    eapply sublist_subseteq; [apply sublist_delete|exact Hx].
  - intros x. rewrite HR. apply decide_ext. unfold queued. rewrite E, (pbufs_of_delete _ _ _ Hi), elem_of_app.
    pose proof (qo_nodup _ _ _ _ (so_queue _ Hs)) as N. rewrite (pbufs_of_delete _ _ _ Hi) in N.
    apply NoDup_app in N as (_ & N & _). specialize (N x). tauto.
  - rewrite E, length_delete by done. apply lookup_lt_Some in Hi. lia.
Qed.

(** *** Removing old datagrams keeps that of the fragment *)
Lemma find_oldest_spec h l : forall i o n j t m, find_oldest h l i o n = (Some (j, t), m) ->
  o = Some (j, t) \/ exists r, (i <= j)%nat /\ l !! (j - i)%nat = Some r /\ IP_ADDRESSES_AND_ID_MATCH (iphdr r) h = false.
Proof.
  induction l as [|r l IH]; intros i o n j t m H; cbn in H.
  { injection H as -> _. by left. }
  assert (Hs : forall o' n', find_oldest h l (S i) o' n' = (Some (j, t), m) ->
    o' = Some (j, t) \/ exists r', (i <= j)%nat /\ (r :: l) !! (j - i)%nat = Some r' /\ IP_ADDRESSES_AND_ID_MATCH (iphdr r') h = false).
  { intros o' n' H'. destruct (IH _ _ _ _ _ _ H') as [->|(r' & H1 & H2 & H3)]; [by left|]. right. exists r'.
    split; [lia|]. split; [|done]. by replace (j - i)%nat with (S (j - S i)) by lia. }
  destruct (IP_ADDRESSES_AND_ID_MATCH (iphdr r) h) eqn:E; apply Hs in H as [H|H]; auto.
  assert (Hr : forall t', Some (i, t') = Some (j, t) -> exists r', (i <= j)%nat /\ (r :: l) !! (j - i)%nat = Some r' /\
    IP_ADDRESSES_AND_ID_MATCH (iphdr r') h = false).
  { intros t' [= <- _]. exists r. by rewrite Nat.sub_diag. }
  destruct o as [[k u]|]; [destruct (timer r <=? u)|]; eauto.
Qed.

Lemma remove_loop_spec h fuel : forall need freed s, sys_ok s -> 0 <= freed ->
  wp (remove_loop fuel h need freed) (fun n s' => shrinks s s' /\ freed <= n /\
    forall r, r ∈ reassdatagrams s -> IP_ADDRESSES_AND_ID_MATCH (iphdr r) h = true -> r ∈ reassdatagrams s') s.
Proof.
  induction fuel as [|fuel IH]; intros need freed s Hs Hf; cbn [remove_loop].
  { apply wp_ret. split; [by apply shrinks_refl|done]. }
  apply wp_bind, wp_gets. destruct (find_oldest h (reassdatagrams s) 0 None 0) as [o m] eqn:E.
  apply wp_bind. apply (wp_mono _ (fun n s' => shrinks s s' /\ 0 <= n /\
    forall r, r ∈ reassdatagrams s -> IP_ADDRESSES_AND_ID_MATCH (iphdr r) h = true -> r ∈ reassdatagrams s')).
  { destruct o as [[j t]|]; [|apply wp_ret; split; [by apply shrinks_refl|done]].
    apply find_oldest_spec in E as [E|(r & _ & Hr & Hm)]; [done|]. rewrite Nat.sub_0_r in Hr.
    eapply wp_mono; [by apply free_complete_spec|]. cbv beta. intros n s' (H1 & H2 & H3 & H4 & H5 & H6).
    split; [eapply shrinks_delete; try done; lia|]. split; [lia|].
    intros x Hx Hmx. rewrite H2. rewrite (delete_Permutation _ _ _ Hr) in Hx.
    apply elem_of_cons in Hx as [->|Hx]; [congruence|done]. }
  cbv beta. intros n s1 (H1 & H2 & H3). destruct (_ && _).
  - eapply wp_mono; [apply IH; [apply H1|lia]|]. cbv beta. intros n' s2 (G1 & G2 & G3).
    split; [by eapply shrinks_trans|]. split; [lia|auto].
  - apply wp_ret. split; [done|]. split; [lia|done].
Qed.
Lemma remove_oldest_spec h need s : sys_ok s -> wp (ip_reass_remove_oldest_datagram h need) (fun n s' => shrinks s s' /\
  forall r, r ∈ reassdatagrams s -> IP_ADDRESSES_AND_ID_MATCH (iphdr r) h = true -> r ∈ reassdatagrams s') s.
Proof.
  intros Hs. apply wp_bind, wp_gets. eapply wp_mono; [apply (remove_loop_spec h); [done|lia]|].
  cbv beta. intros n s' (H1 & _ & H3). done.
Qed.

(** *** The timer *)
Definition aged (l : list ip_reassdata) : list ip_reassdata :=
  (fun r => r <| timer := timer r - 1 |>) <$> filter (fun r => 0 < timer r) l.

Lemma dg_ok_timer P r t : dg_ok sent P r -> dg_ok sent P (r <| timer := t |>).
Proof. intros [H1 H2]. by constructor. Qed.
Lemma pbufs_of_timer i t l : pbufs_of (alter (fun r => r <| timer := t r |>) i l) = pbufs_of l.
Proof.
  revert i; induction l as [|r l IH]; intros [|i]; [done..|].
  change (pbufs_of (r :: alter (fun r => r <| timer := t r |>) i l) = pbufs_of (r :: l)).
  by rewrite !pbufs_of_cons, IH.
Qed.

Lemma timer_ok i t s : sys_ok s -> shrinks s (s <| reassdatagrams := alter (fun r => r <| timer := t r |>) i (reassdatagrams s) |>).
Proof.
  intros Hs. pose proof Hs as [[H1 H2 H3 H4 H5] H6 H7].
  assert (Hin : forall r', r' ∈ alter (fun r => r <| timer := t r |>) i (reassdatagrams s) ->
    exists r, r ∈ reassdatagrams s /\ same_dg r r').
  { intros r' (j & Hj)%list_elem_of_lookup_1. rewrite list_lookup_alter in Hj. case_decide.
    - destruct (reassdatagrams s !! i) as [r|] eqn:E; [|done]. injection Hj as <-. exists r.
      split; [by eapply list_elem_of_lookup_2|by eexists].
    - exists r'. split; [by eapply list_elem_of_lookup_2|exists (timer r'); by destruct r']. }
  constructor; cbn [reassdatagrams ip_reass_pbufcount null_read mem_of]; try done.
  - constructor; cbn; [constructor|..|done]; rewrite ?pbufs_of_timer; try done.
    + apply Forall_forall. intros r' Hr'. destruct (Hin _ Hr') as (r & Hr & u & ->).
      rewrite Forall_forall in H1. by apply dg_ok_timer, H1.
    + replace ((fun r => key (iphdr r)) <$> alter _ i _) with ((fun r => key (iphdr r)) <$> reassdatagrams s); [done|].
      clear. generalize (reassdatagrams s) as l. intros l. revert i; induction l as [|r l IH]; intros [|i]; cbn; [done..|].
      f_equal. apply IH.
    + apply Forall_forall. intros r' Hr'. destruct (Hin _ Hr') as (r & Hr & u & ->).
      rewrite Forall_forall in H6. by apply (H6 r).
  - intros x. rewrite decide_False; [done|]. intros [Q1 Q2]. apply Q2. unfold queued in Q1.
    rewrite <- (pbufs_of_timer i t) in Q1. exact Q1.
  - cbn. by rewrite length_alter.
Qed.

Lemma tmr_loop_spec n : forall i s, sys_ok s -> (length (reassdatagrams s) <= n + i)%nat ->
  wp (tmr_loop n i) (fun _ s' => shrinks s s' /\
    reassdatagrams s' = take i (reassdatagrams s) ++ aged (drop i (reassdatagrams s))) s.
Proof.
  induction n as [|n IH]; intros i s Hs Hl; cbn [tmr_loop].
  { apply wp_ret. split; [by apply shrinks_refl|]. by rewrite drop_ge, take_ge, app_nil_r by lia. }
  apply wp_bind, wp_gets. destruct (reassdatagrams s !! i) as [r|] eqn:E.
  2: { apply wp_ret. split; [by apply shrinks_refl|]. apply lookup_ge_None in E.
       by rewrite drop_ge, take_ge, app_nil_r by lia. }
  assert (Ed : drop i (reassdatagrams s) = r :: drop (S i) (reassdatagrams s)) by (by rewrite <- (drop_S _ _ _ E)).
  unfold aged in *. destruct (Z.ltb_spec 0 (timer r)) as [Ht|Ht].
  - apply wp_bind, wp_modify. pose proof (timer_ok i (fun r => timer r - 1) s Hs) as A. set (s1 := s <| reassdatagrams := _ |>) in *.
    eapply wp_mono; [apply IH; [apply A|]|]. 2: cbv beta; intros _ s' (B1 & ->).
    { change (reassdatagrams s1) with (alter (fun r => r <| timer := timer r - 1 |>) i (reassdatagrams s)).
      rewrite length_alter. lia. }
    split; [by eapply shrinks_trans|]. rewrite Ed, filter_cons_True by done. 
    change (reassdatagrams s1) with (alter (fun r => r <| timer := timer r - 1 |>) i (reassdatagrams s)).
    rewrite drop_alter_lt by lia. rewrite (take_S_r _ i (r <| timer := timer r - 1 |>)).
    2: { by rewrite list_lookup_alter_eq, E. }
    cbn. rewrite take_alter_ge by lia. by rewrite <- app_assoc.
  - apply wp_bind. eapply wp_mono; [by apply free_complete_spec|]. cbv beta. intros m s1 (F1 & F2 & F3 & F4 & F5 & F6).
    eapply wp_mono; [apply IH; [done|]|].
    { rewrite F2, length_delete by done. apply lookup_lt_Some in E. lia. }
    cbv beta. intros _ s' (B1 & ->). split; [eapply shrinks_trans; [eapply shrinks_delete; try done; lia|done]|].
    apply lookup_lt_Some in E as Hi. rewrite F2, delete_take_drop, take_app_le, drop_app_ge by (rewrite length_take; lia).
    rewrite take_take, length_take, Ed, filter_cons_False by lia. do 2 f_equal; [lia|]. f_equal.
    replace (i - i `min` length (reassdatagrams s))%nat with 0%nat by lia. done.
Qed.

Lemma tmr_spec s : sys_ok s -> wp ip_reass_tmr (fun _ s' => shrinks s s' /\ reassdatagrams s' = aged (reassdatagrams s)) s.
Proof. intros Hs. apply wp_bind, wp_gets. eapply wp_mono; [by apply tmr_loop_spec; [|lia]|]. done. Qed.
End Ok.
