(* ===== verification/SimReass.v ===== *)
(** * Packets in a finite map

    An implementation of [ReassApi] that keeps its laws and records what is freed, and a
    datagram of 20 bytes in three fragments; the witnesses of the reassembly theorems run
    on it. *)
From stdpp Require Import gmap.
From S2P Require Import Prelude Ip4Addr Ip4Hdr Ip4Reass ReassOk.

Record smem := mkSmem { sm_pkts : gmap Z packet; sm_avail : Z; sm_freed : list Z; sm_icmp : list Z }.
#[export] Instance smem_eta : Eta smem := fun m => mkSmem (sm_pkts m) (sm_avail m) (sm_freed m) (sm_icmp m).
Definition no_hdr : ip_hdr := mkIph 0 0 0 0 0 0 0 0 0 0.
Definition sim_map (f : gmap Z packet -> gmap Z packet) : M smem unit :=
  modify (fun m => m <| sm_pkts := f (sm_pkts m) |>).

#[export] Instance sim_reass : ReassApi smem := {
  iph_of m p := default no_hdr (sm_pkts m !! p ≫= pk_hdr);
  iph_put p h := sim_map (alter (fun k => k <| pk_hdr := Some h |>) p);
  pbuf_clen m p := default 0 (pk_clen <$> sm_pkts m !! p);
  pbuf_free p := modify (fun m => m <| sm_pkts := delete p (sm_pkts m) |> <| sm_freed := sm_freed m ++ [p] |>);
  hide_header p := sim_map (alter (fun k => k <| pk_hdr := None |>) p);
  pbuf_cat p q := sim_map (fun P => match P !! q with
    | Some kq => delete q (alter (fun k => k <| pk_data := pk_data k ++ pk_data kq |>
                                             <| pk_clen := pk_clen k + pk_clen kq |>) p P)
    | None => P end);
  icmp_time_exceeded p := modify (fun m => m <| sm_icmp := sm_icmp m ++ [p] |>);
  reassdata_malloc := fun m => if 0 <? sm_avail m then (true, m <| sm_avail := sm_avail m - 1 |>) else (false, m);
  reassdata_free := modify (fun m => m <| sm_avail := sm_avail m + 1 |>)
}.
#[export] Instance sim_view : ReassView smem := { packets := sm_pkts; reass_avail := sm_avail }.

Lemma alter_insert (f : packet -> packet) (P : gmap Z packet) p k : P !! p = Some k -> alter f p P = <[p := f k]> P.
Proof.
  intros H. apply map_eq. intros x. destruct (decide (x = p)) as [->|Hx].
  - by rewrite lookup_alter_eq, lookup_insert_eq, H.
  - by rewrite lookup_alter_ne, lookup_insert_ne.
Qed.

#[export] Instance sim_reass_laws : ReassLaws smem.
Proof.
  constructor; cbn [packets reass_avail sim_view].
  - intros x p k h H1 H2. cbn. by rewrite H1; cbn; rewrite H2.
  - intros x p k H. cbn. by rewrite H.
  - intros x p k h H _. apply wp_modify. split; [|done]. cbn. by apply (alter_insert (fun k => k <| pk_hdr := Some h |>)).
  - intros x p k _. by apply wp_modify.
  - intros x p k H _. apply wp_modify. split; [|done]. by apply (alter_insert (fun k => k <| pk_hdr := None |>)).
  - intros x p q kp kq Hn H1 H2 _. apply wp_modify. split; [|done]. cbn. rewrite H2. f_equal.
    by apply (alter_insert (fun k => k <| pk_data := _ |> <| pk_clen := _ |>)).
  - intros x p k _. by apply wp_modify.
  - intros x. unfold wp, reassdata_malloc, sim_reass. destruct (Z.ltb_spec 0 (sm_avail x)); cbn; [done|]. split; [done|]. split; [done|lia].
  - intros x. by apply wp_modify.
Qed.

(** Twenty bytes in fragments of eight, eight and four. *)
Definition sim_hdr (len off : Z) : ip_hdr :=
  mkIph 0x45 0 (lwip_htons (20 + len)) (lwip_htons 7) (lwip_htons off) 64 17 0 1 2.
Definition sim_bytes : list Z := [1; 2; 3; 4; 5; 6; 7; 8; 9; 10; 11; 12; 13; 14; 15; 16; 17; 18; 19; 20].
Definition sim_dg : datagram := mkDg (sim_hdr 20 0) sim_bytes.
Definition sim_sent : senders := fun k => if decide (k = key (sim_hdr 20 0)) then Some sim_dg else None.
Definition frag1 : packet := mkPk (Some (sim_hdr 8 0x2000)) [1; 2; 3; 4; 5; 6; 7; 8] 1.
Definition frag2 : packet := mkPk (Some (sim_hdr 8 0x2001)) [9; 10; 11; 12; 13; 14; 15; 16] 1.
Definition frag3 : packet := mkPk (Some (sim_hdr 4 2)) [17; 18; 19; 20] 1.
Definition sim_idle : reass_sys smem :=
  mkSys [] 0 false (mkSmem {[1 := frag1; 2 := frag2; 3 := frag3; 4 := frag1; 5 := frag1]} 5 [] []).

Lemma sim_fragments : fragment_of sim_dg (sim_hdr 8 0x2000) (pk_data frag1) /\
  fragment_of sim_dg (sim_hdr 8 0x2001) (pk_data frag2) /\ fragment_of sim_dg (sim_hdr 4 2) (pk_data frag3).
Proof. split_and!; constructor; try (vm_compute; done); vm_compute; split; done. Qed.

(** What is left in the queue and in memory after some fragments, and the last result. *)
Definition run_frags (l : list Z) (s : reass_sys smem) : reass_sys smem :=
  fold_left (fun s p => (ip4_reass p s).2) l s.
Example sim_run : let s := run_frags [3; 1] sim_idle in let '(o, s') := ip4_reass 2 s in
  ip_reass_pbufcount s = 2 /\ o = Some 1 /\ (pk_data <$> sm_pkts (mem_of s') !! 1) = Some sim_bytes /\
  ip_reass_pbufcount s' = 0 /\ sm_avail (mem_of s') = 5.
Proof. vm_compute. done. Qed.

(** The first fragment twice more: each copy is freed twice, and the count is -1 modulo
    2^16, so that the fragments that would complete the datagram are refused.  When its time
    is over nothing is queued, and the count still refuses every fragment. *)
Example sim_duplicates : let s := run_frags [1; 4; 5] sim_idle in
  let s3 := run_frags [2; 3] s in
  let s4 := (ip_reass_tmr (ip_reass_tmr (ip_reass_tmr (ip_reass_tmr s3).2).2).2).2 in
  ip_reass_pbufcount s = 65535 /\ sm_freed (mem_of s) = [4; 4; 5; 5] /\
  reassdatagrams s3 = reassdatagrams s /\ sm_freed (mem_of s3) = [4; 4; 5; 5; 2; 3] /\
  reassdatagrams s4 = [] /\ ip_reass_pbufcount s4 = 65534.
Proof. vm_compute. done. Qed.

(** A last fragment whose end does not fit 16 bits leaves a datagram without fragments; when
    its time is over the NULL pointer to its first fragment is followed. *)
Definition frag_far : packet := mkPk (Some (mkIph 0x45 0 (lwip_htons 28) (lwip_htons 9) (lwip_htons 0x1fff) 64 17 0 1 2))
  [1; 2; 3; 4; 5; 6; 7; 8] 1.
Example sim_null_read : let s := mkSys [] 0 false (mkSmem {[1 := frag_far]} 5 [] []) in
  let s := (ip4_reass 1 s).2 in
  map frags (reassdatagrams s) = [[]] /\ null_read s = false /\
  null_read (ip_reass_tmr (ip_reass_tmr (ip_reass_tmr (ip_reass_tmr s).2).2).2).2 = true.
Proof. vm_compute. done. Qed.
