(* ===== verification/ReassSpec.v ===== *)
(** * What [ip4_reass] does with a fragment

    A fragment of a datagram that overlaps nothing queued either waits, or completes its
    datagram, which is then delivered byte for byte; no packet is lost or freed twice, and
    the count of queued pbufs stays exact. *)
From stdpp Require Import gmap.
From S2P Require Import Prelude Ip4Addr Ip4Hdr Ip4Reass ReassOk.

Lemma match_key a b : IP_ADDRESSES_AND_ID_MATCH a b = bool_decide (key a = key b).
Proof.
  unfold IP_ADDRESSES_AND_ID_MATCH, key. apply eq_true_iff_eq.
  rewrite !andb_true_iff, !Z.eqb_eq, bool_decide_eq_true.
  split; [intros [[-> ->] ->]; done|by intros [= -> -> ->]].
Qed.

Lemma find_datagram_some h l : forall i j, find_datagram h l i = Some j ->
  exists r, (i <= j)%nat /\ l !! (j - i)%nat = Some r /\ key (iphdr r) = key h.
Proof.
  induction l as [|r l IH]; intros i j H; cbn in H; [done|]. rewrite match_key in H.
  destruct (decide (key (iphdr r) = key h)) as [E|E].
  - rewrite bool_decide_true in H by done. injection H as <-. exists r. by rewrite Nat.sub_diag.
  - rewrite bool_decide_false in H by done. apply IH in H as (r' & H1 & H2 & H3). exists r'.
    split; [lia|]. split; [|done]. by replace (j - i)%nat with (S (j - S i)) by lia.
Qed.
Lemma find_datagram_none h l : forall i, find_datagram h l i = None -> forall r, r ∈ l -> key (iphdr r) <> key h.
Proof.
  induction l as [|x l IH]; intros i H r Hr; [by apply elem_of_nil in Hr|]. cbn in H. rewrite match_key in H.
  case_bool_decide; [done|]. apply elem_of_cons in Hr as [->|Hr]; [done|]. by eapply IH.
Qed.

Section Spec.
Context {X : Type} `{!ReassApi X, !ReassView X, !ReassLaws X} (sent : senders).
#[local] Abbreviation sys := (reass_sys X).
#[local] Abbreviation sys_ok := (sys_ok sent).
#[local] Abbreviation shrinks := (shrinks sent).
#[local] Abbreviation queue_ok := (queue_ok sent).
Implicit Types (s : sys) (P : gmap Z packet).

(** ** Changes of one datagram *)
Lemma queue_add r r' rest P n d k new q (is_last : bool) : queue_ok (r :: rest) P n ->
  f_pbuf new ∉ pbufs_of (r :: rest) -> P !! f_pbuf new = Some k -> sent (key (iphdr r)) = Some d ->
  frag_ok P (dg_data d) new -> q ≡ₚ new :: frags r -> ordered 0 q -> n + pk_clen k <= IP_REASS_MAX_PBUFS ->
  (is_last = true <-> f_end new = slen (dg_data d)) -> frags r' = q -> iphdr r' = iphdr r ->
  LASTFRAG r' = LASTFRAG r || is_last ->
  datagram_len r' = (if is_last then slen (dg_data d) else datagram_len r) ->
  queue_ok (r' :: rest) P (n + pk_clen k).
Proof.
  intros [H1 H2 H3 H4 H5] Hp Hk Hd Hnew Hq Ho Hn Hl E1 E2 E3 E4. rewrite pbufs_of_cons in *.
  apply Forall_cons in H1 as [[(d' & D1 & D2 & D3 & D4 & D5 & D6) D7] H1].
  assert (d' = d) as -> by congruence.
  assert (Ep : (f_pbuf <$> frags r') ++ pbufs_of rest ≡ₚ f_pbuf new :: (f_pbuf <$> frags r) ++ pbufs_of rest).
  { rewrite E1, Hq. done. }
  constructor.
  - apply Forall_cons. split; [|done]. constructor; [|by rewrite E1]. exists d. rewrite E1, E2, E3, E4, Hq.
    split; [done|]. split; [done|]. split; [done|]. split; [by constructor|]. rewrite Exists_cons. split.
    + rewrite orb_true_iff, D5, Hl. tauto.
    + intros [H|H]%orb_true_iff; [|by rewrite H]. destruct is_last; [done|by apply D6].
  - rewrite pbufs_of_cons, Ep. by constructor.
  - rewrite pbufs_of_cons, Ep. cbn. fold (clens P ((f_pbuf <$> frags r) ++ pbufs_of rest)). unfold clen_at. rewrite Hk. lia.
  - lia.
  - cbn. by rewrite E2.
Qed.

Lemma queue_hdr r h d rest P n : queue_ok (r :: rest) P n -> key h = key (iphdr r) ->
  sent (key h) = Some d -> like (dg_hdr d) h -> queue_ok (r <| iphdr := h |> :: rest) P n.
Proof.
  intros [H1 H2 H3 H4 H5] E Hd Hl. constructor; try done; [|cbn; by rewrite E].
  apply Forall_cons in H1 as [[(d' & D1 & D2 & D3) D4] H1]. apply Forall_cons. split; [|done].
  constructor; [|done]. exists d. assert (d' = d) as -> by congruence. done.
Qed.

Lemma queue_new l P n h d : queue_ok l P n -> sent (key h) = Some d -> like (dg_hdr d) h ->
  slen (dg_data d) <= 65535 - IP_HLEN -> (forall r, r ∈ l -> key (iphdr r) <> key h) ->
  queue_ok (mkReass [] h 0 false IP_REASS_MAXAGE :: l) P n.
Proof.
  intros [H1 H2 H3 H4 H5] Hd Hl Hf Hk. constructor; try done.
  - apply Forall_cons. split; [|done]. constructor; [|done]. exists d. split; [done|]. split; [done|]. split; [done|].
    split; [by constructor|]. cbn. split; [|done]. by rewrite Exists_nil.
  - cbn. apply NoDup_cons. split; [|done]. intros (r & E & Hr)%list_elem_of_fmap. by apply (Hk r).
Qed.

(** ** Room for the fragment *)
Definition keeps_dg (h : ip_hdr) s s' : Prop :=
  forall r, r ∈ reassdatagrams s -> key (iphdr r) = key h -> r ∈ reassdatagrams s'.

Lemma oldest_spec h need s : sys_ok s ->
  wp (ip_reass_remove_oldest_datagram h need) (fun n s' => shrinks s s' /\ keeps_dg h s s') s.
Proof.
  intros Hs. eapply wp_mono; [by apply (remove_oldest_spec sent)|]. cbv beta. intros n s' [H1 H2]. split; [done|].
  intros r Hr Hk. apply H2; [done|]. by rewrite match_key, bool_decide_true.
Qed.

Lemma room_spec h clen s : sys_ok s -> wp (reass_room h clen) (fun b s' => shrinks s s' /\ keeps_dg h s s' /\
  (b = true -> ip_reass_pbufcount s' + clen <= IP_REASS_MAX_PBUFS) /\
  (ip_reass_pbufcount s + clen <= IP_REASS_MAX_PBUFS -> b = true /\ s' = s)) s.
Proof.
  intros Hs. unfold reass_room. apply wp_bind, wp_gets.
  destruct (Z.ltb_spec IP_REASS_MAX_PBUFS (ip_reass_pbufcount s + clen)) as [H|H].
  - apply wp_bind. eapply wp_mono; [by apply oldest_spec|]. cbv beta. intros n s' [H1 H2].
    apply wp_bind, wp_gets, wp_ret. split; [done|]. split; [done|]. split; [|lia].
    intros [_ Hb]%andb_true_iff. apply negb_true_iff, Z.ltb_ge in Hb. done.
  - apply wp_ret. split; [by apply shrinks_refl|]. split; [by intros r|]. done.
Qed.

(** The datagram of the fragment is queued at [i], perhaps without fragments yet. *)
Record prepared (h : ip_hdr) s (i : nat) (r : ip_reassdata) s' : Prop := {
  pp_at : reassdatagrams s' !! i = Some r;
  pp_key : key (iphdr r) = key h;
  pp_queue : queue_ok (reassdatagrams s') (pkts s') (ip_reass_pbufcount s');
  pp_full : Forall (fun r => frags r <> []) (delete i (reassdatagrams s'));
  pp_null : null_read s' = false;
  pp_frags : (frags r = [] /\ LASTFRAG r = false /\ forall r0, r0 ∈ reassdatagrams s -> key (iphdr r0) <> key h) \/
    exists r0, r0 ∈ reassdatagrams s /\ key (iphdr r0) = key h /\ frags r = frags r0 /\ LASTFRAG r = LASTFRAG r0;
  pp_pk : forall x, pkts s' !! x = if decide (x ∈ queued s /\ x ∉ queued s') then None else pkts s !! x;
  pp_pool : avail s' + Z.of_nat (length (reassdatagrams s')) = avail s + Z.of_nat (length (reassdatagrams s));
  pp_sub : forall x, x ∈ queued s' -> x ∈ queued s;
  pp_count : ip_reass_pbufcount s' <= ip_reass_pbufcount s
}.

Lemma prepared_after h s s1 i r s' : shrinks s s1 -> keeps_dg h s s1 -> prepared h s1 i r s' -> prepared h s i r s'.
Proof.
  intros A K [P1 P2 P3 P4 P5 P6 P7 P8 P9 P10]. constructor; try done.
  - destruct P6 as [(P6 & P6' & P6'')|(r0 & H1 & H2)]; [left; split; [done|split; [done|]]|right].
    { intros r0 Hr0 E. by apply (P6'' r0), E; apply K. }
    destruct (sh_dgs _ _ _ A _ H1) as (r1 & H3 & t & ->). by exists r1.
  - intros x. rewrite P7, (sh_pk _ _ _ A). pose proof (shrinks_queued _ _ _ x A). specialize (P9 x).
    destruct (decide (x ∈ queued s)), (decide (x ∈ queued s1)), (decide (x ∈ queued s'));
      repeat first [rewrite decide_True by tauto|rewrite decide_False by tauto]; done.
  - rewrite P8. apply A.
  - intros x Hx. by eapply shrinks_queued, P9.
  - pose proof (sh_count _ _ _ A). lia.
Qed.

Lemma enqueue_spec h d clen s : sys_ok s -> sent (key h) = Some d -> like (dg_hdr d) h ->
  slen (dg_data d) <= 65535 - IP_HLEN -> (forall r, r ∈ reassdatagrams s -> key (iphdr r) <> key h) ->
  wp (ip_reass_enqueue_new_datagram h clen) (fun ok s' =>
    (if ok : bool then exists r, prepared h s 0 r s' else shrinks s s') /\ (0 < avail s -> ok = true)) s.
Proof.
  intros Hs Hd Hl Hfit Hk. unfold ip_reass_enqueue_new_datagram.
  (* with an element of the pool in hand, the datagram is put in front *)
  assert (Hput : forall s1 s2, shrinks s s1 -> mem_only s1 s2 -> pkts s2 = pkts s1 -> avail s2 = avail s1 - 1 ->
    exists r, prepared h s 0 r (s2 <| reassdatagrams := mkReass [] h 0 false IP_REASS_MAXAGE :: reassdatagrams s2 |>)).
  { intros s1 s2 A [M1 M2 M3] E1 E2. pose proof (sh_ok _ _ _ A) as O.
    assert (Hk1 : forall r, r ∈ reassdatagrams s1 -> key (iphdr r) <> key h).
    { intros r Hr. destruct (sh_dgs _ _ _ A _ Hr) as (r0 & Hr0 & t & ->). by apply (Hk r0). }
    eexists. assert (Eq : forall x, x ∈ queued (s2 <| reassdatagrams := mkReass [] h 0 false IP_REASS_MAXAGE :: reassdatagrams s2 |>) <-> x ∈ queued s1).
    { intros x. unfold queued. rewrite <- M1. done. }
    constructor; cbn [reassdatagrams ip_reass_pbufcount null_read mem_of].
    - done.
    - done.
    - change (queue_ok (mkReass [] h 0 false IP_REASS_MAXAGE :: reassdatagrams s2) (pkts s2) (ip_reass_pbufcount s2)).
      rewrite E1, M1, M2. eapply queue_new; try done. apply O.
    - change (Forall (fun r => frags r <> []) (reassdatagrams s2)). rewrite M1. apply O.
    - change (null_read s2 = false). rewrite M3. apply O.
    - left. done.
    - intros x. change (pkts (s2 <| reassdatagrams := _ |>)) with (pkts s2). rewrite E1, (sh_pk _ _ _ A). apply decide_ext.
      by rewrite Eq.
    - change (avail s2 + Z.of_nat (S (length (reassdatagrams s2))) = avail s + Z.of_nat (length (reassdatagrams s))).
      rewrite <- (sh_pool _ _ _ A), M1. lia.
    - intros x Hx%Eq. by eapply shrinks_queued.
    - change (ip_reass_pbufcount s2 <= ip_reass_pbufcount s). rewrite M2. apply A. }
  assert (Hmem : forall s1 s2, shrinks s s1 -> mem_only s1 s2 -> pkts s2 = pkts s1 -> avail s2 = avail s1 -> shrinks s s2).
  { intros s1 s2 A [M1 M2 M3] E1 E2. destruct A as [[O1 O2 O3] A2 A3 A4 A5].
    constructor; unfold queued in *; rewrite ?M1, ?M2, ?M3, ?E1, ?E2; try done. constructor; by rewrite ?M1, ?M2, ?M3, ?E1. }
  apply wp_bind. eapply wp_on_mem; [apply law_malloc|]. intros ok s1 M1 [P1 A1].
  pose proof (shrinks_refl sent s Hs) as R0. apply wp_bind. destruct ok.
  - apply wp_ret, wp_bind, wp_modify, wp_ret. split; [|done]. by eapply Hput.
  - destruct A1 as [A1 A1']. assert (R1 : shrinks s s1) by (by eapply Hmem).
    apply wp_bind. eapply wp_mono; [apply (oldest_spec h); apply R1|]. cbv beta. intros n s2 [B1 _].
    assert (R2 : shrinks s s2) by (by eapply shrinks_trans). unfold avail. destruct (clen <=? n).
    + eapply wp_on_mem; [apply law_malloc|]. intros ok s3 M3 [P3 A3]. destruct ok.
      * apply wp_bind, wp_modify, wp_ret. split; [by eapply Hput|lia].
      * apply wp_ret. split; [eapply Hmem; [exact R2|done|done|apply A3]|lia].
    + apply wp_ret, wp_ret. split; [done|lia].
Qed.

(** The datagram of [h] is queued, or there is an element for it. *)
Definition takes h s : Prop := 0 < avail s \/ exists r, r ∈ reassdatagrams s /\ key (iphdr r) = key h.

Lemma datagram_spec h d clen s : sys_ok s -> sent (key h) = Some d -> like (dg_hdr d) h ->
  slen (dg_data d) <= 65535 - IP_HLEN ->
  wp (reass_datagram h clen) (fun o s' =>
    match o with Some i => exists r, prepared h s i r s' | None => shrinks s s' end /\ (takes h s -> o <> None)) s.
Proof.
  intros Hs Hd Hl Hfit. unfold reass_datagram. apply wp_bind, wp_gets.
  destruct (find_datagram h (reassdatagrams s) 0) as [i|] eqn:E.
  2: { wp_call (enqueue_spec h d clen s Hs Hd Hl Hfit (find_datagram_none _ _ _ E)) as ok s' [H1 H2].
       apply wp_ret. destruct ok; [done|]. split; [done|]. intros [H|(r & Hr & Hk)]; [by specialize (H2 H)|].
       by destruct (find_datagram_none _ _ _ E r Hr). }
  apply find_datagram_some in E as (r & _ & Hr & Hkr). rewrite Nat.sub_0_r in Hr.
  apply wp_bind, wp_modify, wp_ret. split; [|done]. pose proof Hs as [Hq Hfull Hn].
  set (f := fun r : ip_reassdata => if _ && _ then r <| iphdr := h |> else r).
  assert (Hf : frags (f r) = frags r /\ LASTFRAG (f r) = LASTFRAG r /\ key (iphdr (f r)) = key h /\
    forall rest P n, queue_ok (r :: rest) P n -> queue_ok (f r :: rest) P n).
  { unfold f. case_match; [|done]. split_and!; try done. intros rest P n Hq0. by apply (queue_hdr r h d). }
  destruct Hf as (F1 & F2 & F3 & F4). exists (f r).
  set (s' := s <| reassdatagrams := _ |>). assert (D : reassdatagrams s' = alter f i (reassdatagrams s)) by done.
  assert (L : reassdatagrams s' !! i = Some (f r)) by (by rewrite D, list_lookup_alter_eq, Hr).
  assert (Ed : delete i (reassdatagrams s') = delete i (reassdatagrams s)) by (by rewrite D, delete_alter).
  assert (Eq : queued s' ≡ₚ queued s).
  { unfold queued. by rewrite (pbufs_of_delete _ _ _ L), (pbufs_of_delete _ _ _ Hr), Ed, F1. }
  constructor; try done.
  - eapply queue_perm; [symmetry; apply (delete_Permutation _ _ _ L)|]. rewrite Ed. apply F4.
    by apply (queue_perm _ _ _ _ _ (delete_Permutation _ _ _ Hr)).
  - rewrite Ed. by apply (sys_delete sent s i r).
  - right. exists r. split; [by eapply list_elem_of_lookup_2|done].
  - intros x. change (pkts s') with (pkts s). rewrite decide_False; [done|]. rewrite Eq. tauto.
  - by rewrite D, length_alter.
  - intros x. by rewrite Eq.
Qed.

(** ** The complete datagram *)
Lemma cat_frags_spec data l : forall p kp s, pkts s !! p = Some kp -> Forall (frag_ok (pkts s) data) l ->
  NoDup (p :: (f_pbuf <$> l)) ->
  wp (cat_frags p l) (fun _ s' => mem_only s s' /\ avail s' = avail s /\
    pkts s' !! p = Some (kp <| pk_data := pk_data kp ++ concat (data_at (pkts s) <$> (f_pbuf <$> l)) |>
                            <| pk_clen := pk_clen kp + clens (pkts s) (f_pbuf <$> l) |>) /\
    forall x, x <> p -> pkts s' !! x = if decide (x ∈ f_pbuf <$> l) then None else pkts s !! x) s.
Proof.
  induction l as [|f l IH]; intros p kp s Hp Hf Hnd.
  { apply wp_ret. split; [reflexivity|]. split; [done|]. split.
    - rewrite Hp. cbn. rewrite app_nil_r, Z.add_0_r. by destruct kp.
    - intros x _. by rewrite decide_False by apply not_elem_of_nil. }
  apply Forall_cons in Hf as [[R (k & Hk & Hh & Hl & Hd)] Hf].
  cbn [fmap list_fmap] in *. apply NoDup_cons in Hnd as [N1 N2]. apply NoDup_cons in N2 as [N2 N3].
  apply not_elem_of_cons in N1 as [N0 N1]. cbn [cat_frags]. apply wp_bind.
  eapply wp_on_mem; [by eapply law_hide|]. intros _ s1 M1 [P1 A1]. apply wp_bind.
  assert (Q1 : packets (mem_of s1) !! p = Some kp) by (rewrite P1, lookup_insert_ne by done; exact Hp).
  assert (Q2 : packets (mem_of s1) !! f_pbuf f = Some (k <| pk_hdr := None |>)) by (by rewrite P1, lookup_insert_eq).
  eapply wp_on_mem; [by eapply law_cat|]. intros _ s2 M2 [P2 A2].
  rewrite P1 in P2. cbn [pk_data pk_clen] in P2.
  assert (HX : forall x, x <> p -> x <> f_pbuf f -> pkts s2 !! x = pkts s !! x).
  { intros x Hx1 Hx2. unfold pkts. rewrite P2, lookup_delete_ne, !lookup_insert_ne by done. done. }
  eapply wp_mono; [apply (IH p (kp <| pk_data := pk_data kp ++ pk_data k |> <| pk_clen := pk_clen kp + pk_clen k |>))|].
  - unfold pkts. rewrite P2, lookup_delete_ne by done. by rewrite lookup_insert_eq.
  - apply Forall_forall. intros g Hg. rewrite Forall_forall in Hf. eapply frag_ok_ext; [|by apply Hf].
    assert (f_pbuf g ∈ f_pbuf <$> l) by (by apply list_elem_of_fmap_2). apply HX; intros E; rewrite E in *; done.
  - by apply NoDup_cons.
  - cbv beta. intros _ s' (M3 & A3 & P3 & X3).
    assert (Hsame : forall x, x ∈ f_pbuf <$> l -> pkts s2 !! x = pkts s !! x).
    { intros x Hx. apply HX; intros ->; done. }
    split; [by etrans; [etrans|]|]. split; [unfold avail in *; congruence|]. split.
    + rewrite P3, (clens_ext (pkts s)) by done.
      replace (data_at (pkts s2) <$> (f_pbuf <$> l)) with (data_at (pkts s) <$> (f_pbuf <$> l)).
      2: { apply list_fmap_ext. intros j x Hx. unfold data_at. rewrite Hsame; [done|]. by eapply list_elem_of_lookup_2. }
      cbn. fold (clens (pkts s) (f_pbuf <$> l)). unfold data_at at 2, clen_at. rewrite Hk. cbn.
      f_equal. rewrite (app_assoc (pk_data kp)), Z.add_assoc. by destruct kp.
    + intros x Hx. rewrite X3 by done. destruct (decide (x ∈ f_pbuf <$> l)) as [H|H].
      { rewrite decide_True; [done|]. by right. }
      destruct (decide (x = f_pbuf f)) as [->|Hne].
      * rewrite decide_True by left. unfold pkts. by rewrite P2, lookup_delete_eq.
      * rewrite decide_False; [by apply HX|]. rewrite elem_of_cons. tauto.
Qed.

(** The packet [a] holds the datagram, header and bytes. *)
Definition delivered (d : datagram) P (a : Z) : Prop :=
  exists k h, P !! a = Some k /\ pk_hdr k = Some h /\ pk_data k = dg_data d /\ like (dg_hdr d) h /\
    IPH_LEN h = lwip_htons (IP_HLEN + slen (dg_data d)) /\ IPH_OFFSET h = 0.

Lemma last_end P data l : forall lo, Forall (frag_ok P data) l -> lo <= slen data -> ordered lo l ->
  lo = slen data \/ Exists (fun f => f_end f = slen data) l ->
  match last l with Some g => f_end g | None => lo end = slen data.
Proof.
  induction l as [|g l IH]; intros lo Hf Hlo Ho H; [cbn; destruct H as [H|H]; [done|by inversion H]|].
  apply Forall_cons in Hf as [[Rg _] Hf]. destruct Ho as (O1 & O2 & O3). rewrite last_cons.
  specialize (IH (f_end g) Hf ltac:(lia) O3). destruct (last l) as [u|]; apply IH.
  all: destruct H as [H|H]; [lia|]; apply Exists_cons in H as [H|H]; auto.
Qed.

(** The fragments of a complete datagram make up its bytes. *)
Lemma complete_data P r f l d : dg_ok sent P r -> sent (key (iphdr r)) = Some d -> frags r = f :: l ->
  LASTFRAG r = true -> f_start f = 0 -> no_holes f l = true ->
  concat (data_at P <$> (f_pbuf <$> frags r)) = dg_data d /\ datagram_len r = slen (dg_data d) /\
  slen (dg_data d) <= 65535 - IP_HLEN /\ like (dg_hdr d) (iphdr r) /\ Forall (frag_ok P (dg_data d)) (frags r).
Proof.
  intros [(d' & D1 & D2 & D3 & D4 & D5 & D6) D7] Hd Ef Hlast H0 Hc. assert (d' = d) as -> by congruence.
  split; [|by auto]. apply D5 in Hlast. clear D5 D6. rewrite Ef in *. apply Forall_cons in D4 as [Ff Fl].
  destruct D7 as (O1 & O2 & O3), Ff as [Rf (k & Hk & Hh & Hcl & Hdt)].
  destruct (contiguous_data P (dg_data d) l (f_end f) Fl ltac:(lia) O3 f eq_refl Hc) as (hi & I1 & I2 & I3 & I4).
  assert (Hhi : hi = slen (dg_data d)).
  { rewrite I3. pose proof (last_end P (dg_data d) l (f_end f) Fl ltac:(lia) O3) as G. rewrite Exists_cons in Hlast.
    specialize (G Hlast). by destruct (last l). }
  cbn. unfold data_at at 1. rewrite Hk, Hdt, H0, I4, sub_app by lia. rewrite Hhi, sub_0. unfold slen.
  by rewrite Nat2Z.id, firstn_all.
Qed.

(** The first fragment gets its header and the others behind it. *)
Lemma splice_spec f l h' data s : Forall (frag_ok (pkts s) data) (f :: l) -> NoDup (f_pbuf <$> (f :: l)) ->
  wp (on_mem (iph_put (f_pbuf f) h') ;;; cat_frags (f_pbuf f) l) (fun _ s' => mem_only s s' /\ avail s' = avail s /\
    pkts s' !! f_pbuf f = Some (mkPk (Some h') (concat (data_at (pkts s) <$> (f_pbuf <$> (f :: l))))
                                     (clens (pkts s) (f_pbuf <$> (f :: l)))) /\
    forall x, x <> f_pbuf f -> pkts s' !! x = if decide (x ∈ f_pbuf <$> (f :: l)) then None else pkts s !! x) s.
Proof.
  intros Hf Hnd. apply Forall_cons in Hf as [[Rf (k & Hk & Hh & Hcl & Hdt)] Fl].
  cbn [fmap list_fmap] in *. apply NoDup_cons in Hnd as [N1 N2].
  apply wp_bind. eapply wp_mono; [by apply (mem_put (f_pbuf f) k)|]. cbv beta. intros _ s1 (M1 & P1 & A1).
  assert (HX : forall x, x <> f_pbuf f -> pkts s1 !! x = pkts s !! x) by (intros x Hx; by rewrite P1, lookup_insert_ne).
  assert (Hsame : forall x, x ∈ f_pbuf <$> l -> pkts s1 !! x = pkts s !! x) by (intros x Hx; apply HX; by intros ->).
  eapply wp_mono; [apply (cat_frags_spec data l (f_pbuf f) (k <| pk_hdr := Some h' |>) s1)|].
  - by rewrite P1, lookup_insert_eq.
  - apply Forall_forall. intros g Hg. rewrite Forall_forall in Fl. eapply frag_ok_ext; [|by apply Fl].
    by apply Hsame, list_elem_of_fmap_2.
  - by apply NoDup_cons.
  - cbv beta. intros _ s2 (M2 & A2 & P2 & X2). split; [by etrans|]. split; [congruence|]. split.
    + rewrite P2, (clens_ext (pkts s)) by done.
      replace (data_at (pkts s1) <$> (f_pbuf <$> l)) with (data_at (pkts s) <$> (f_pbuf <$> l)).
      2: { apply list_fmap_ext. intros j x Hx. unfold data_at. rewrite Hsame; [done|]. by eapply list_elem_of_lookup_2. }
      cbn. unfold data_at at 2, clen_at. rewrite Hk. by destruct k.
    + intros x Hx. rewrite X2, HX by done. apply decide_ext. rewrite elem_of_cons. tauto.
Qed.

Lemma finish_spec i r f l d s : reassdatagrams s !! i = Some r -> frags r = f :: l ->
  queue_ok (reassdatagrams s) (pkts s) (ip_reass_pbufcount s) ->
  Forall (fun r => frags r <> []) (delete i (reassdatagrams s)) -> null_read s = false ->
  sent (key (iphdr r)) = Some d -> LASTFRAG r = true -> f_start f = 0 -> no_holes f l = true ->
  wp (reass_finish i r) (fun o s' => o = Some (f_pbuf f) /\ delivered d (pkts s') (f_pbuf f) /\ sys_ok s' /\
    reassdatagrams s' = delete i (reassdatagrams s) /\ avail s' = avail s + 1 /\
    forall x, x <> f_pbuf f -> pkts s' !! x = if decide (x ∈ f_pbuf <$> frags r) then None else pkts s !! x) s.
Proof.
  intros Hi Ef Hq Hfull Hnull Hd Hlast H0 Hc. destruct (queue_part _ _ _ _ _ _ Hq Hi) as [Hn1 Hn2].
  destruct (queue_dg _ _ _ _ _ _ Hq Hi) as [Hnd _].
  pose proof (queue_perm _ _ _ _ _ (delete_Permutation _ _ _ Hi) Hq) as Hq'.
  pose proof Hq' as [Hdgs _ _ _ _]. apply Forall_cons in Hdgs as [Hdg _].
  destruct (complete_data _ _ _ _ _ Hdg Hd Ef Hlast H0 Hc) as (B1 & B2 & B3 & B4 & B5).
  unfold reass_finish. rewrite Ef, B2. set (h' := (iphdr r) <| IPH_LEN := _ |> <| IPH_OFFSET := 0 |> <| IPH_CHKSUM := 0 |>).
  rewrite Ef in Hn1, Hnd, B1, B5.
  apply wp_bind_assoc, wp_bind. eapply wp_mono; [by apply (splice_spec f l h' (dg_data d))|]. cbv beta.
  intros _ s2 ([D2 C2 N2] & A2 & P2 & X2). apply wp_bind. unfold ip_reass_dequeue_datagram.
  apply wp_bind, wp_modify. eapply wp_on_mem; [apply law_mfree|]. intros _ s3 [D3 C3 N3] [P3 A3].
  cbn [mem_of reassdatagrams ip_reass_pbufcount null_read] in *. apply wp_bind, wp_gets.
  set (k' := mkPk _ _ _) in P2. assert (E3 : packets (mem_of s3) = pkts s2) by done.
  erewrite (law_clen _ _ k') by (rewrite E3; exact P2). apply wp_bind, wp_modify, wp_ret. cbn [pk_clen k'].
  assert (Hc' : u16 (ip_reass_pbufcount s3 - pk_clen k') = ip_reass_pbufcount s - clens (pkts s) (f_pbuf <$> frags r)).
  { rewrite Ef. cbn [pk_clen k']. rewrite u16_small; cbn in C3; lia. }
  assert (Hdgs3 : reassdatagrams s3 = delete i (reassdatagrams s)) by (rewrite D3; cbn; by rewrite D2).
  split_and!; [done|..|done| |by intros x Hx; rewrite <- (X2 x Hx), <- E3]; cbn [mem_of].
  - exists k', h'. split; [by rewrite <- P2, <- E3|]. split; [done|]. split; [done|]. split; [done|]. split; [|done].
    cbn. f_equal. unfold IP_HLEN, slen in *. rewrite u16_small; lia.
  - constructor; cbn [mem_of reassdatagrams ip_reass_pbufcount null_read].
    + change (queue_ok (reassdatagrams s3) (packets (mem_of s3)) (u16 (ip_reass_pbufcount s3 - pk_clen k'))).
      rewrite Hdgs3, Hc', E3. eapply (queue_cons_inv sent r); [exact Hq'|]. intros x Hx.
      assert (Hx' : x ∉ f_pbuf <$> (f :: l)).
      { intros H. eapply (queue_apart sent r); [exact Hq'| |exact Hx]. by rewrite Ef. }
      rewrite X2, decide_False; [done..|]. intros ->. apply Hx'. by left.
    + change (Forall (fun r => frags r <> []) (reassdatagrams s3)). by rewrite Hdgs3.
    + change (null_read s3 = false). cbn in N3. congruence.
  - change (reass_avail (mem_of s3) = avail s + 1). rewrite <- A2. exact A3.
Qed.

(** ** A fragment arrives *)
Definition new_frag (p : Z) (h : ip_hdr) (data : list Z) : ip_frag :=
  mkFrag p (frag_offset h) (frag_offset h + slen data).
Record arrives s (p : Z) (k : packet) (h : ip_hdr) (d : datagram) : Prop := {
  ar_pk : pkts s !! p = Some k;
  ar_new : p ∉ queued s;
  ar_hdr : pk_hdr k = Some h;
  ar_clen : 1 <= pk_clen k;
  ar_sent : sent (key h) = Some d;
  ar_frag : fragment_of d h (pk_data k)
}.

(** All bytes of the datagram are here. *)
Definition complete (r : ip_reassdata) : bool :=
  LASTFRAG r && (starts_at_0 (frags r) && contiguous None (frags r)).

Lemma frag_offset_range h : 0 <= frag_offset h < 65536.
Proof. apply u16_range. Qed.
Lemma frag_len_data d h data : fragment_of d h data -> frag_len h = slen data.
Proof.
  intros [F1 F2 F3 F4 F5 F6 F7 F8 F9]. pose proof (frag_offset_range h). unfold frag_len. rewrite F2, F3.
  unfold IP_HLEN in *. rewrite u16_small; lia.
Qed.
Lemma new_frag_ok d h p k P : fragment_of d h (pk_data k) -> P !! p = Some k -> pk_hdr k = Some h ->
  1 <= pk_clen k -> frag_ok P (dg_data d) (new_frag p h (pk_data k)).
Proof.
  intros [F1 F2 F3 F4 F5 F6 F7 F8 F9] Hk Hh Hc. pose proof (frag_offset_range h). constructor; cbn; [lia|].
  exists k. rewrite Hh. done.
Qed.

(** What becomes of the datagram [r] when the fragment joins it. *)
Record joined (s : sys) (p : Z) (k : packet) (h : ip_hdr) (d : datagram) (i : nat) (r : ip_reassdata)
    (o : option Z) (r' : ip_reassdata) (s' : sys) : Prop := {
  jo_frags : frags r' ≡ₚ new_frag p h (pk_data k) :: frags r;
  jo_last : LASTFRAG r' = LASTFRAG r || (Z.land (IPH_OFFSET h) (PP_HTONS IP_MF) =? 0);
  jo_ok : sys_ok s';
  jo_out : match o with
    | None => complete r' = false /\ mem_of s' = mem_of s /\ reassdatagrams s' ≡ₚ r' :: delete i (reassdatagrams s) /\
        ip_reass_pbufcount s' = ip_reass_pbufcount s + pk_clen k
    | Some a => complete r' = true /\ delivered d (pkts s') a /\ a ∈ f_pbuf <$> frags r' /\
        reassdatagrams s' = delete i (reassdatagrams s) /\ avail s' = avail s + 1 /\
        forall x, x <> a -> pkts s' !! x = if decide (x ∈ f_pbuf <$> frags r') then None else pkts s !! x
    end
}.

Lemma set_reass_spec i r f s : reassdatagrams s !! i = Some r ->
  wp (set_reass i f) (fun _ s' => mem_of s' = mem_of s /\ null_read s' = null_read s /\
    ip_reass_pbufcount s' = ip_reass_pbufcount s /\ reassdatagrams s' !! i = Some (f r) /\
    delete i (reassdatagrams s') = delete i (reassdatagrams s)) s.
Proof.
  intros H. apply wp_modify. split_and!; [done..| |apply delete_alter].
  change (alter f i (reassdatagrams s) !! i = Some (f r)). by rewrite list_lookup_alter_eq, H.
Qed.

Lemma joined_intro s p k h d i r r' s1 :
  frags r' ≡ₚ new_frag p h (pk_data k) :: frags r -> LASTFRAG r' = LASTFRAG r || (Z.land (IPH_OFFSET h) (PP_HTONS IP_MF) =? 0) ->
  iphdr r' = iphdr r -> sent (key (iphdr r)) = Some d ->
  queue_ok (reassdatagrams s1) (pkts s1) (ip_reass_pbufcount s1) ->
  Forall (fun r => frags r <> []) (delete i (reassdatagrams s1)) -> null_read s1 = false ->
  mem_of s1 = mem_of s -> ip_reass_pbufcount s1 = ip_reass_pbufcount s + pk_clen k ->
  reassdatagrams s1 !! i = Some r' -> delete i (reassdatagrams s1) = delete i (reassdatagrams s) ->
  wp (if bool_decide ((if complete r' then TELEGRAM_FINISHED else PBUF_QUEUED) = TELEGRAM_FINISHED) then
        l <- gets reassdatagrams ;;
        match l !! i with Some ipr => reass_finish i ipr | None => ret None end
      else ret None) (fun o s' => exists r', joined s p k h d i r o r' s') s1.
Proof.
  intros C1 El Eh Hd Hq1 Hfull Hnull M1 M3 M4 M5. destruct (complete r') eqn:Ec.
  - rewrite bool_decide_true by done. apply wp_bind, wp_gets. rewrite M4.
    destruct (frags r') as [|f l] eqn:Efl; [by apply Permutation_nil_cons in C1|].
    pose proof Ec as Ec'. unfold complete in Ec'. rewrite Efl in Ec'. cbn in Ec'.
    apply andb_true_iff in Ec' as [Ec1 [Ec2%Z.eqb_eq Ec3]%andb_true_iff].
    eapply wp_mono; [apply (finish_spec i r' f l d s1); try done; by rewrite Eh|].
    cbv beta. intros o s' (-> & G1 & G2 & G3 & G4 & G5). exists r'. constructor; [by rewrite Efl|done|done|].
    split; [done|]. split; [done|]. split; [rewrite Efl; by left|]. split; [by rewrite G3, M5|].
    split; [unfold avail in *; by rewrite G4, M1|]. intros x Hx. rewrite G5 by done. unfold pkts. by rewrite M1.
  - rewrite bool_decide_false by done. apply wp_ret. exists r'. constructor; [done|done| |].
    + constructor; [done| |done]. rewrite (delete_Permutation _ _ _ M4). constructor; [|done].
      intros E. rewrite E in C1. by apply Permutation_nil_cons in C1.
    + split; [done|]. split; [done|]. split; [|done]. by rewrite (delete_Permutation _ _ _ M4), M5.
Qed.

Lemma chain_spec i r p k h d is_last s : reassdatagrams s !! i = Some r -> ordered 0 (frags r) ->
  arrives s p k h d -> Forall (apart (new_frag p h (pk_data k))) (frags r) ->
  wp (ip_reass_chain_frag_into_datagram_and_validate i p is_last) (fun v s' => exists q,
    q ≡ₚ new_frag p h (pk_data k) :: frags r /\ ordered 0 q /\
    v = (if (LASTFRAG r || is_last) && (starts_at_0 q && contiguous None q) then TELEGRAM_FINISHED else PBUF_QUEUED) /\
    mem_of s' = mem_of s /\ null_read s' = null_read s /\ ip_reass_pbufcount s' = ip_reass_pbufcount s /\
    reassdatagrams s' !! i = Some (r <| frags := q |>) /\
    delete i (reassdatagrams s') = delete i (reassdatagrams s)) s.
Proof.
  intros Hi Hord [A1 A2 A3 A4 A5 A6] Hap. pose proof (new_frag_ok d h p k _ A6 A1 A3 A4) as [Rn _].
  pose proof (frag_len_data _ _ _ A6) as Elen. destruct A6 as [F1 F2 F3 F4 F5 F6 F7 F8 F9].
  pose proof (frag_offset_range h). set (new := new_frag p h (pk_data k)) in *.
  destruct (chain_frag_apart new (frags r) None true Hap) as [[[q v] behind] Eq]; [apply Rn|lia|done|].
  destruct (chain_frag_spec new (frags r) None true q v behind Eq) as (C1 & C2 & C3); [apply Rn|lia|done|].
  unfold ip_reass_chain_frag_into_datagram_and_validate. apply wp_bind, wp_gets. erewrite law_iph by done.
  rewrite Elen, u16_small by (unfold IP_HLEN in *; lia).
  change (mkFrag p (frag_offset h) (frag_offset h + slen (pk_data k))) with new.
  apply wp_bind, wp_gets. rewrite Hi, Eq.
  wp_call (set_reass_spec i r (fun r => r <| frags := q |>) s Hi) as u1 s2 U. apply wp_ret. exists q.
  split; [done|]. split; [done|]. split; [|done]. change (v && no_holes new behind = contiguous None q) in C3.
  rewrite <- C3. by destruct (LASTFRAG r), is_last, v, (starts_at_0 q), (no_holes new behind).
Qed.

Lemma insert_spec s0 p k h d i r s : prepared h s0 i r s -> arrives s p k h d ->
  Forall (apart (new_frag p h (pk_data k))) (frags r) -> ip_reass_pbufcount s + pk_clen k <= IP_REASS_MAX_PBUFS ->
  wp (reass_insert p h (pk_clen k) i) (fun o s' => exists r', joined s p k h d i r o r' s') s.
Proof.
  intros Hp Har Hap Hroom. pose proof Har as [A1 A2 A3 A4 A5 A6].
  pose proof (new_frag_ok d h p k _ A6 A1 A3 A4) as Hnew. pose proof (frag_len_data _ _ _ A6) as Elen.
  pose proof (frag_offset_range h) as Ho. destruct Hp as [P1 P2 P3 P4 P5 _ _ _ _ _].
  pose proof A6 as [F1 F2 F3 F4 F5 F6 F7 F8 F9]. pose proof (queue_part _ _ _ _ _ _ P3 P1) as [Hn0 Hn10].
  pose proof (queue_perm _ _ _ _ _ (delete_Permutation _ _ _ P1) P3) as Q0.
  pose proof Q0 as [Hdg _ _ _ _]. apply Forall_cons in Hdg as [[_ D7] _].
  unfold reass_insert. rewrite Elen, u16_small by (unfold IP_HLEN in *; lia).
  set (is_last := Z.land (IPH_OFFSET h) (PP_HTONS IP_MF) =? 0).
  assert (Hl : is_last = true <-> frag_offset h + slen (pk_data k) = slen (dg_data d))
    by (unfold is_last; rewrite Z.eqb_eq; apply F7).
  rewrite (proj2 (Z.ltb_ge (frag_offset h + slen (pk_data k)) _)), (proj2 (Z.ltb_ge (0xFFFF - IP_HLEN) _)) by lia.
  rewrite andb_false_r. wp_call (chain_spec i r p k h d is_last s P1 D7 Har Hap) as v s2 (q & C1 & C2 & -> & U1 & U2 & U3 & U4 & U5).
  (* the datagram with the fragment *)
  set (r' := let r1 := r <| frags := q |> in
    if is_last then r1 <| datagram_len := frag_offset h + slen (pk_data k) |> <| LASTFRAG := true |> else r1).
  assert (Ef : frags r' = q) by (unfold r'; by destruct is_last).
  assert (El : LASTFRAG r' = LASTFRAG r || is_last) by (unfold r'; destruct is_last; by rewrite ?orb_true_r, ?orb_false_r).
  assert (Eh : iphdr r' = iphdr r) by (unfold r'; by destruct is_last).
  assert (Ed : datagram_len r' = (if is_last then slen (dg_data d) else datagram_len r)).
  { unfold r'. destruct is_last; [|done]. by apply Hl. }
  replace ((LASTFRAG r || is_last) && _) with (complete r') by (unfold complete; by rewrite Ef, El).
  rewrite bool_decide_false by (by destruct (complete r')). apply wp_bind, wp_modify, wp_bind.
  assert (Eu : u16 (ip_reass_pbufcount s + pk_clen k) = ip_reass_pbufcount s + pk_clen k).
  { unfold IP_REASS_MAX_PBUFS in *. rewrite u16_small; lia. }
  apply (wp_mono _ (fun _ s' => mem_of s' = mem_of s /\ null_read s' = null_read s /\
    ip_reass_pbufcount s' = ip_reass_pbufcount s + pk_clen k /\
    reassdatagrams s' !! i = Some r' /\ delete i (reassdatagrams s') = delete i (reassdatagrams s))).
  { rewrite <- Eu, <- U1, <- U2, <- U3, <- U5. unfold r'. destruct is_last; [|by apply wp_ret].
    eapply wp_mono; [apply set_reass_spec; exact U4|]. done. }
  cbv beta. intros _ s1 (M1 & M2 & M3 & M4 & M5).
  apply (joined_intro s p k h d i r r' s1); try done; [by rewrite Ef|by rewrite P2| |by rewrite M5|congruence].
  unfold pkts. rewrite M1, M3. eapply queue_perm; [symmetry; apply (delete_Permutation _ _ _ M4)|]. rewrite M5.
  eapply (queue_add r r' _ _ _ d k (new_frag p h (pk_data k)) q is_last); try done; [|by rewrite P2].
  intros Hin. apply A2. unfold queued. by rewrite (delete_Permutation _ _ _ P1).
Qed.

(** ** [ip4_reass] *)

(** The fragment [p] was taken: what is returned is the datagram; every packet that left
    the queue, and [p] unless it was queued, is freed; all others are as before. *)
Record returned s (p : Z) (d : datagram) (o : option Z) s' : Prop := {
  rt_ok : sys_ok s';
  rt_out : forall a, o = Some a -> delivered d (pkts s') a /\ a ∉ queued s';
  rt_pk : forall x, o <> Some x ->
    pkts s' !! x = if decide ((x ∈ queued s \/ x = p) /\ x ∉ queued s') then None else pkts s !! x;
  rt_sub : forall x, x ∈ queued s' -> x ∈ queued s \/ x = p;
  rt_pool : avail s' + Z.of_nat (length (reassdatagrams s')) = avail s + Z.of_nat (length (reassdatagrams s))
}.

Lemma null_spec s s1 p k d : shrinks s s1 -> p ∉ queued s -> pkts s !! p = Some k ->
  wp (nullreturn p) (fun o s' => returned s p d o s') s1.
Proof.
  intros A Hp Hk. assert (Hp1 : p ∉ queued s1) by (intros H; by eapply Hp, shrinks_queued).
  assert (Hk1 : pkts s1 !! p = Some k) by (rewrite (sh_pk _ _ _ A), decide_False by tauto; done).
  unfold nullreturn. apply wp_bind. eapply wp_mono; [by eapply mem_free|]. cbv beta. intros _ s' (M & P1 & A1).
  apply wp_ret. destruct (sh_ok _ _ _ A) as [Q1 Q2 Q3], M as [M1 M2 M3].
  assert (HX : forall x, x <> p -> pkts s' !! x = pkts s1 !! x) by (intros x Hx; by rewrite P1, lookup_delete_ne).
  assert (Eq : queued s' = queued s1) by (unfold queued; by rewrite M1). constructor.
  - constructor; rewrite ?M1, ?M2, ?M3; try done. destruct Q1 as [R1 R2 R3 R4 R5]. constructor; try done.
    + apply Forall_forall. intros r Hr. rewrite Forall_forall in R1. eapply dg_ok_ext; [|by apply R1].
      intros x Hx. apply HX. intros ->. apply Hp1. by eapply in_pbufs_of.
    + rewrite R3. symmetry. apply clens_ext. intros x Hx. apply HX. by intros ->.
  - done.
  - intros x _. rewrite Eq. destruct (decide (x = p)) as [->|Hx].
    + rewrite P1, lookup_delete_eq, decide_True; [done|]. split; [by right|done].
    + rewrite HX, (sh_pk _ _ _ A) by done. apply decide_ext. tauto.
  - intros x Hx. left. rewrite Eq in Hx. by eapply shrinks_queued.
  - rewrite A1, M1. apply A.
Qed.

Lemma joined_returned s s1 p k h d i r o r' s' : prepared h s i r s1 -> arrives s p k h d ->
  joined s1 p k h d i r o r' s' -> returned s p d o s'.
Proof.
  intros P A J. destruct P as [P1 P2 P3 P4 P5 P6 P7 P8 P9 P10]. destruct A as [A1 A2 _ _ _ _], J as [J1 J2 J3 J4].
  pose proof (queue_perm _ _ _ _ _ (delete_Permutation _ _ _ P1) P3) as Q0.
  assert (E1 : queued s1 ≡ₚ (f_pbuf <$> frags r) ++ pbufs_of (delete i (reassdatagrams s1))).
  { unfold queued. by rewrite (pbufs_of_delete _ _ _ P1). }
  assert (E2 : (f_pbuf <$> frags r') ≡ₚ p :: (f_pbuf <$> frags r)) by (by rewrite J1).
  assert (Hp1 : p ∉ queued s1) by auto.
  assert (HA : forall x, x ∈ f_pbuf <$> frags r -> x ∉ pbufs_of (delete i (reassdatagrams s1))).
  { intros x Hx. by eapply (queue_apart sent r). }
  constructor; [done|..].
  - intros a ->. destruct J4 as (_ & H1 & H2 & H3 & _ & _). split; [done|].
    unfold queued. rewrite H3. rewrite E2 in H2. apply elem_of_cons in H2 as [->|H2]; [|by apply HA].
    intros H. apply Hp1. rewrite E1. apply elem_of_app. by right.
  - intros x Hx. assert (Hq : x ∈ queued s1 <-> x ∈ f_pbuf <$> frags r \/ x ∈ pbufs_of (delete i (reassdatagrams s1))).
    { by rewrite E1, elem_of_app. }
    specialize (P7 x). specialize (P9 x). specialize (HA x). destruct o as [a|].
    + destruct J4 as (_ & _ & _ & H3 & _ & H5). assert (Hxa : x <> a) by (by intros ->). rewrite H5 by done.
      assert (Hq' : x ∈ queued s' <-> x ∈ pbufs_of (delete i (reassdatagrams s1))) by (unfold queued; by rewrite H3).
      assert (Hr : x ∈ f_pbuf <$> frags r' <-> x = p \/ x ∈ f_pbuf <$> frags r) by (by rewrite E2, elem_of_cons).
      destruct (decide (x ∈ f_pbuf <$> frags r')) as [H|H].
      * rewrite decide_True; [done|]. apply Hr in H as [->|H]; [|tauto]. tauto.
      * rewrite P7. apply decide_ext. tauto.
    + destruct J4 as (_ & H2 & H3 & _). unfold pkts at 1. rewrite H2. fold (pkts s1). rewrite P7. apply decide_ext.
      assert (Hq' : x ∈ queued s' <-> x = p \/ x ∈ queued s1).
      { unfold queued at 1. rewrite H3, pbufs_of_cons, E2. cbn. rewrite elem_of_cons, Hq, elem_of_app. tauto. }
      rewrite Hq'. destruct (decide (x = p)) as [->|]; tauto.
  - intros x Hx. destruct o as [a|].
    + destruct J4 as (_ & _ & _ & H3 & _). left. apply P9. rewrite E1. apply elem_of_app. right. unfold queued in Hx. by rewrite H3 in Hx.
    + destruct J4 as (_ & H2 & H3 & _). unfold queued in Hx. rewrite H3, pbufs_of_cons, E2 in Hx. cbn in Hx.
      apply elem_of_cons in Hx as [->|Hx]; [by right|]. left. apply P9. by rewrite E1.
  - rewrite <- P8. assert (Hlen : length (reassdatagrams s1) = S (length (delete i (reassdatagrams s1)))).
    { by rewrite (Permutation_length (delete_Permutation _ _ _ P1)). }
    destruct o as [a|].
    + destruct J4 as (_ & _ & _ & H3 & H4 & _). rewrite H3, H4. lia.
    + destruct J4 as (_ & H2 & H3 & _). unfold avail. by rewrite H2, (Permutation_length H3), Hlen.
Qed.

(** The fragment overlaps nothing that is queued of its datagram. *)
Definition no_overlap s (p : Z) (k : packet) (h : ip_hdr) : Prop :=
  forall r, r ∈ reassdatagrams s -> key (iphdr r) = key h -> Forall (apart (new_frag p h (pk_data k))) (frags r).

Lemma prepared_arrives h s i r s' p k d : prepared h s i r s' -> arrives s p k h d -> no_overlap s p k h ->
  arrives s' p k h d /\ Forall (apart (new_frag p h (pk_data k))) (frags r).
Proof.
  intros [P1 P2 P3 P4 P5 P6 P7 P8 P9 P10] [A1 A2 A3 A4 A5 A6] Ho. split.
  - constructor; auto. rewrite P7, decide_False by tauto. done.
  - destruct P6 as [(-> & _)|(r0 & H1 & H2 & -> & _)]; [by constructor|by apply Ho].
Qed.

Lemma reass_spec p k h d s : sys_ok s -> arrives s p k h d -> no_overlap s p k h ->
  wp (ip4_reass p) (fun o s' => returned s p d o s' /\
    (ip_reass_pbufcount s + pk_clen k <= IP_REASS_MAX_PBUFS -> takes h s ->
     exists i r s1 r', prepared h s i r s1 /\ joined s1 p k h d i r o r' s')) s.
Proof.
  intros Hs Ha Ho. pose proof Ha as [A1 A2 A3 A4 A5 A6]. pose proof A6 as [F1 F2 _ _ _ _ _ F8 _].
  unfold ip4_reass. apply wp_bind, wp_gets. erewrite law_iph by done. rewrite F2. cbn [negb Z.mul Z.eqb].
  change (negb (5 * 4 =? IP_HLEN)) with false. cbv iota. apply wp_bind, wp_gets. erewrite law_clen by done.
  wp_call (room_spec h (pk_clen k) s Hs) as room s1 (R1 & R2 & R3 & R4).
  destruct room.
  2: { eapply wp_mono; [by apply (null_spec s s1 p k d)|]. cbv beta. intros o s' H. split; [done|].
       intros H1. by destruct (R4 H1). }
  cbn [negb]. wp_call (datagram_spec h d (pk_clen k) s1 (sh_ok _ _ _ R1) A5 F1 F8) as o s2 [D1 D2].
  destruct o as [i|].
  - destruct D1 as [r D1]. pose proof (prepared_after h s s1 i r s2 R1 R2 D1) as P.
    destruct (prepared_arrives _ _ _ _ _ _ _ _ P Ha Ho) as [Ha2 Hap].
    eapply wp_mono; [apply (insert_spec s p k h d i r s2); try done|].
    + pose proof (pp_count _ _ _ _ _ D1). specialize (R3 eq_refl). lia.
    + cbv beta. intros o s' [r' J]. split; [by eapply joined_returned|]. intros _ _. by exists i, r, s2, r'.
  - eapply wp_mono; [apply (null_spec s s2 p k d); [by eapply shrinks_trans|done..]|]. cbv beta. intros o s' H.
    split; [done|]. intros H1 H2. destruct (R4 H1) as [_ ->]. by specialize (D2 H2).
Qed.
End Spec.
