(* ===== verification/ReassRun.v ===== *)
(** * Reassembly as a system

    Fragments, timer ticks and changes of the rest of the memory as steps; what holds in
    every state they reach; expiry; and the fragment that arrives twice, which is freed
    twice and makes the count of queued pbufs wrong. *)
From stdpp Require Import gmap.
From S2P Require Import Prelude Ip4Addr Ip4Hdr Ip4Reass ReassOk SimReass ReassSpec.

Section Run.
Context {X : Type} `{!ReassApi X, !ReassView X, !ReassLaws X} (sent : senders).
#[local] Abbreviation sys := (reass_sys X).
Implicit Types (s : sys).

(** Fragments that overlap a queued one are left out: see [duplicate_freed_twice]. *)
Inductive reass_step : relation sys :=
  | step_fragment s p k h d : arrives sent s p k h d -> no_overlap s p k h -> reass_step s (ip4_reass p s).2
  | step_tick s : reass_step s (ip_reass_tmr s).2
  | step_memory s x : (forall p, p ∈ queued s -> packets x !! p = pkts s !! p) -> reass_avail x = avail s ->
      reass_step s (s <| mem_of := x |>).

(** Nothing is being reassembled. *)
Definition idle s : Prop := reassdatagrams s = [] /\ ip_reass_pbufcount s = 0 /\ null_read s = false.

Lemma idle_ok s : idle s -> sys_ok sent s.
Proof.
  intros (E1 & E2 & E3). constructor; [|by rewrite E1|done]. rewrite E1, E2.
  constructor; [by constructor|apply NoDup_nil_2|done|unfold IP_REASS_MAX_PBUFS; lia|apply NoDup_nil_2].
Qed.

Lemma memory_ok s x : (forall p, p ∈ queued s -> packets x !! p = pkts s !! p) -> sys_ok sent s ->
  sys_ok sent (s <| mem_of := x |>).
Proof.
  intros Hx [[R1 R2 R3 R4 R5] Q2 Q3]. constructor; [constructor|..]; try done.
  - apply Forall_forall. intros r Hr. rewrite Forall_forall in R1. eapply dg_ok_ext; [|by apply R1].
    intros p Hp. apply Hx. by eapply in_pbufs_of.
  - change (ip_reass_pbufcount s = clens (packets x) (pbufs_of (reassdatagrams s))).
    rewrite R3. symmetry. by apply clens_ext.
Qed.

Lemma step_ok s s' : reass_step s s' -> sys_ok sent s -> sys_ok sent s'.
Proof.
  intros H Hs. destruct H as [s p k h d Ha Ho|s|s x Hx _].
  - pose proof (reass_spec sent p k h d s Hs Ha Ho) as W. unfold wp in W. destruct (ip4_reass p s). apply W.
  - pose proof (tmr_spec sent s Hs) as W. unfold wp in W. destruct (ip_reass_tmr s). apply W.
  - by apply memory_ok.
Qed.
Lemma reachable_ok s0 s : idle s0 -> rtc reass_step s0 s -> sys_ok sent s.
Proof. intros H0 H. apply idle_ok in H0. induction H; eauto using step_ok. Qed.

(** C37. After any sequence of fragments of the peers' datagrams that do not overlap
    queued ones, in any order, between timer ticks and changes of the memory outside,
    ip4_reass either queues the fragment, drops and frees it, or returns exactly the
    datagram that was sent: its header, length and all bytes in one chain. The queue
    stays well formed, the count of queued pbufs exact and at most 10, packets outside
    the queue untouched. *)
Theorem reass_delivers s0 s p k h d : idle s0 -> rtc reass_step s0 s -> arrives sent s p k h d ->
  no_overlap s p k h ->
  wp (ip4_reass p) (fun o s' => returned sent s p d o s') s.
Proof.
  intros H0 H Ha Ho. eapply wp_mono; [apply (reass_spec sent p k h d s); [by eapply reachable_ok|done..]|].
  cbv beta. by intros o s' [? _].
Qed.

(** *** What every step preserves

    A preorder that the steps of the operations keep is kept by the operations. *)
Record keeps_steps (R : relation sys) : Prop := {
  ks_pre : PreOrder R;
  ks_put p h : frames R (on_mem (iph_put p h));
  ks_free p : frames R (on_mem (pbuf_free p));
  ks_hide p : frames R (on_mem (hide_header p));
  ks_cat p q : frames R (on_mem (pbuf_cat p q));
  ks_icmp p : frames R (on_mem (icmp_time_exceeded p));
  ks_malloc : frames R (on_mem reassdata_malloc);
  ks_mfree : frames R (on_mem reassdata_free);
  ks_count (f : sys -> Z) s : R s (s <| ip_reass_pbufcount := f s |>);
  ks_nullr s : R s (s <| null_read := true |>);
  ks_delete i s : R s (s <| reassdatagrams := delete i (reassdatagrams s) |>);
  ks_alter i f s : (forall r, timer (f r) <= timer r) -> R s (s <| reassdatagrams := alter f i (reassdatagrams s) |>);
  ks_cons h s : R s (s <| reassdatagrams := mkReass [] h 0 false IP_REASS_MAXAGE :: reassdatagrams s |>)
}.

Section Keeps.
Variable R : relation sys.
Hypothesis K : keeps_steps R.
#[local] Instance keeps_pre : PreOrder R := ks_pre R K.
Lemma keeps_set i f : (forall r, timer (f r) <= timer r) -> frames R (set_reass i f : M sys unit).
Proof. intros H s. apply wp_modify. by apply K. Qed.
Lemma keeps_modify (f : sys -> sys) : (forall s, R s (f s)) -> frames R (modify f).
Proof. intros H s. by apply wp_modify. Qed.
Lemma keeps_iph p : frames R (iph_at p : M sys ip_hdr).
Proof. apply (frames_gets R). Qed.
Lemma keeps_clen p : frames R (clen_of p : M sys Z).
Proof. apply (frames_gets R). Qed.
#[local] Hint Resolve keeps_iph keeps_clen : frames.
#[local] Hint Extern 1 (frames R (on_mem _)) =>
  first [apply (ks_put R K)|apply (ks_free R K)|apply (ks_hide R K)|apply (ks_cat R K)|apply (ks_icmp R K)
        |apply (ks_malloc R K)|apply (ks_mfree R K)] : frames.
#[local] Hint Extern 1 (frames R (modify _)) => (apply keeps_modify; intros ?;
  first [apply (ks_nullr R K)|apply (ks_delete R K)|apply (ks_cons R K)
        |apply (ks_count R K (fun s => u16 (ip_reass_pbufcount s - _)))
        |apply (ks_count R K (fun s => u16 (ip_reass_pbufcount s + _)))]) : frames.
#[local] Hint Extern 1 (frames R (set_reass _ _)) =>
  (apply keeps_set; let r := fresh "r" in intros r; cbn; repeat case_match; done || (cbn; lia)) : frames.
Lemma keeps_null p : frames R (nullreturn p : M sys (option Z)).
Proof. unfold nullreturn. solve_frames. Qed.
Lemma keeps_dequeue i : frames R (ip_reass_dequeue_datagram i : M sys unit).
Proof. unfold ip_reass_dequeue_datagram. solve_frames. Qed.
Lemma keeps_frags l : forall n, frames R (free_frags l n : M sys Z).
Proof. induction l as [|f l IH]; intros n; cbn [free_frags]; solve_frames. Qed.
#[local] Hint Resolve keeps_null keeps_dequeue keeps_frags : frames.
Lemma keeps_complete i : frames R (ip_reass_free_complete_datagram i : M sys Z).
Proof. unfold ip_reass_free_complete_datagram, free_first. solve_frames. Qed.
#[local] Hint Resolve keeps_complete : frames.
Lemma keeps_tmr : frames R (ip_reass_tmr : M sys unit).
Proof.
  assert (H : forall n i, frames R (tmr_loop n i : M sys unit)).
  { induction n as [|n IH]; intros i; cbn [tmr_loop]; solve_frames. }
  unfold ip_reass_tmr. solve_frames.
Qed.
Lemma keeps_oldest h n : frames R (ip_reass_remove_oldest_datagram h n : M sys Z).
Proof.
  assert (H : forall fuel m, frames R (remove_loop fuel h n m : M sys Z)).
  { induction fuel as [|fuel IH]; intros m; cbn [remove_loop]; [solve_frames|].
    apply frames_bind; [apply _|solve_frames|]. intros l. destruct (find_oldest h l 0 None 0) as [o m0]. solve_frames. }
  unfold ip_reass_remove_oldest_datagram. solve_frames.
Qed.
#[local] Hint Resolve keeps_oldest : frames.
Lemma keeps_cat p l : frames R (cat_frags p l : M sys unit).
Proof. induction l as [|f l IH]; cbn [cat_frags]; solve_frames. Qed.
#[local] Hint Resolve keeps_cat : frames.
Lemma keeps_finish i r : frames R (reass_finish i r : M sys (option Z)).
Proof. unfold reass_finish. solve_frames. Qed.
#[local] Hint Resolve keeps_finish : frames.
Lemma keeps_enqueue h n : frames R (ip_reass_enqueue_new_datagram h n : M sys bool).
Proof. unfold ip_reass_enqueue_new_datagram. solve_frames. Qed.
#[local] Hint Resolve keeps_enqueue : frames.
Lemma keeps_reass p : frames R (ip4_reass p : M sys (option Z)).
Proof.
  unfold ip4_reass, reass_room, reass_datagram, reass_insert, ip_reass_chain_frag_into_datagram_and_validate.
  solve_frames.
Qed.
End Keeps.

(** *** No timer is above its first value *)
Definition young (s s' : sys) : Prop :=
  Forall (fun r => timer r <= IP_REASS_MAXAGE) (reassdatagrams s) ->
  Forall (fun r => timer r <= IP_REASS_MAXAGE) (reassdatagrams s').
Lemma young_mem {A} (m : M X A) : frames young (on_mem m).
Proof. intros s. unfold wp, on_mem. destruct (m (mem_of s)). intros H. exact H. Qed.
Lemma young_keeps : keeps_steps young.
Proof.
  constructor; try (intros; apply young_mem); try (intros; exact id); unfold young.
  - split; [intros s H; exact H|intros a b c H1 H2 H; auto].
  - intros i s H. change (Forall (fun r => timer r <= IP_REASS_MAXAGE) (delete i (reassdatagrams s))).
    rewrite delete_take_drop. apply Forall_app. split; [by apply Forall_take|by apply Forall_drop].
  - intros i f s Hf H. apply Forall_alter; [exact H|]. intros r _. cbv beta. specialize (Hf r). lia.
  - intros h s H. by apply Forall_cons_2.
Qed.

Lemma reachable_young s0 s : idle s0 -> rtc reass_step s0 s ->
  Forall (fun r => timer r <= IP_REASS_MAXAGE) (reassdatagrams s).
Proof.
  intros (E & _ & _) Hr. assert (H0 : Forall (fun r => timer r <= IP_REASS_MAXAGE) (reassdatagrams s0)) by (by rewrite E).
  clear E. induction Hr as [|s1 s2 s3 H _ IH]; [done|]. apply IH. destruct H as [s p k h d _ _|s|s x _ _]; [| |done].
  - pose proof (keeps_reass young young_keeps p s) as W. unfold wp in W. destruct (ip4_reass p s). by apply W.
  - pose proof (keeps_tmr young young_keeps s) as W. unfold wp in W. destruct (ip_reass_tmr s). by apply W.
Qed.

(** C38. From every reachable state four ticks of the timer without a new fragment free
    every queued fragment exactly once, give back all datagram elements and bring the
    count of queued pbufs to 0; no other packet is touched. *)
Theorem reass_expires s0 s : idle s0 -> rtc reass_step s0 s ->
  wp (ip_reass_tmr ;;; ip_reass_tmr ;;; ip_reass_tmr ;;; ip_reass_tmr) (fun _ s' => idle s' /\
    (forall x, pkts s' !! x = if decide (x ∈ queued s) then None else pkts s !! x) /\
    avail s' = avail s + Z.of_nat (length (reassdatagrams s))) s.
Proof.
  intros H0 H. pose proof (reachable_ok _ _ H0 H) as Hs. pose proof (reachable_young _ _ H0 H) as Ht.
  assert (Hage : forall n l, Forall (fun r => timer r <= n) l -> Forall (fun r => timer r <= n - 1) (aged l)).
  { intros n l Hl. apply Forall_fmap, Forall_forall. intros r [_ Hr]%list_elem_of_filter.
    rewrite Forall_forall in Hl. specialize (Hl r Hr). cbn. lia. }
  assert (Hnil : forall l, Forall (fun r => timer r <= 0) l -> aged l = []).
  { intros l Hl. unfold aged. induction Hl as [|r l Hr _ IH]; [done|]. by rewrite filter_cons_False by lia. }
  wp_call (tmr_spec sent s Hs) as u1 s1 [A1 E1]. wp_call (tmr_spec sent s1 (sh_ok _ _ _ A1)) as u2 s2 [A2 E2].
  wp_call (tmr_spec sent s2 (sh_ok _ _ _ A2)) as u3 s3 [A3 E3].
  eapply wp_mono; [apply (tmr_spec sent), A3|]. cbv beta. intros _ s4 [A4 E4].
  assert (A : shrinks sent s s4) by eauto using shrinks_trans.
  assert (E : reassdatagrams s4 = []).
  { rewrite E4, E3, E2, E1. apply Hnil. by apply (Hage 1), (Hage 2), (Hage 3). }
  split; [split; [done|]; split|split].
  - destruct (sh_ok _ _ _ A) as [[_ _ Q _ _] _ _]. by rewrite E in Q.
  - apply A.
  - intros x. rewrite (sh_pk _ _ _ A). apply decide_ext. unfold queued at 2. rewrite E.
    split; [by intros [? _]|]. intros H1. split; [done|apply not_elem_of_nil].
  - pose proof (sh_pool _ _ _ A) as Hp. rewrite E in Hp. cbn in Hp. lia.
Qed.

Lemma insert_drops s s1 p k h d i r : arrives sent s p k h d -> mem_of s1 = mem_of s ->
  ip_reass_pbufcount s1 = ip_reass_pbufcount s ->
  reassdatagrams s1 !! i = Some r -> ordered 0 (frags r) ->
  Exists (fun f => f_start f <= frag_offset h < f_end f) (frags r) ->
  wp (reass_insert p h (pk_clen k) i) (fun o s' => o = None /\
    ip_reass_pbufcount s' = u16 (ip_reass_pbufcount s - pk_clen k) /\
    mem_of s' = (pbuf_free p (pbuf_free p (mem_of s)).2).2) s1.
Proof.
  intros [A1 A2 A3 A4 A5 A6] U1 U3 Hi Hord Hov. pose proof (frag_len_data _ _ _ A6) as Elen.
  destruct A6 as [F1 F2 F3 F4 F5 F6 F7 F8 F9]. pose proof (frag_offset_range h).
  unfold reass_insert. rewrite Elen, u16_small by (unfold IP_HLEN in *; lia).
  rewrite (proj2 (Z.ltb_ge (frag_offset h + slen (pk_data k)) _)), (proj2 (Z.ltb_ge (0xFFFF - IP_HLEN) _)) by lia.
  rewrite andb_false_r. apply wp_bind. unfold ip_reass_chain_frag_into_datagram_and_validate.
  apply wp_bind, wp_gets. rewrite U1. erewrite law_iph by done. rewrite Elen.
  apply wp_bind, wp_gets. rewrite Hi.
  rewrite (chain_frag_drops (mkFrag p _ _) (frags r) None true); [|cbn; lia|exact Hord|exact Hov].
  apply wp_bind, wp_gets. rewrite U1. erewrite law_clen by done. apply wp_bind, wp_modify, wp_bind.
  unfold wp at 1, on_mem. cbn [mem_of]. unfold upd at 1. cbn [mem_of]. rewrite U1.
  destruct (pbuf_free p (mem_of s)) as [u x] eqn:Ef. apply wp_ret. cbn [snd].
  rewrite bool_decide_true by done. unfold nullreturn. apply wp_bind. unfold wp, on_mem. cbn [mem_of].
  unfold upd. cbn [mem_of]. destruct (pbuf_free p x) as [u2 x2]. cbn. split; [done|]. split; [by rewrite U3|done].
Qed.

(** The first byte of the fragment is in the queue already. *)
Definition begins_inside s (h : ip_hdr) : Prop := exists r, r ∈ reassdatagrams s /\ key (iphdr r) = key h /\
  Exists (fun f => f_start f <= frag_offset h < f_end f) (frags r).

(** A fragment whose first byte is queued already is passed to pbuf_free twice, and its
    pbufs are taken off the count of queued pbufs although they were never added, so
    that the count is too small or wraps. *)
Theorem duplicate_freed_twice s p k h d : sys_ok sent s -> arrives sent s p k h d -> begins_inside s h ->
  ip_reass_pbufcount s + pk_clen k <= IP_REASS_MAX_PBUFS ->
  wp (ip4_reass p) (fun o s' => o = None /\
    ip_reass_pbufcount s' = u16 (ip_reass_pbufcount s - pk_clen k) /\
    mem_of s' = (pbuf_free p (pbuf_free p (mem_of s)).2).2) s.
Proof.
  intros Hs [A1 A2 A3 A4 A5 A6] (r & Hr & Hk & Hov) Hroom. pose proof A6 as [F1 F2 _ _ _ _ _ _ _].
  destruct (find_datagram h (reassdatagrams s) 0) as [i|] eqn:E.
  2: { by destruct (find_datagram_none h _ _ E r Hr). }
  apply find_datagram_some in E as E'. destruct E' as (r0 & _ & Hi & Hk0). rewrite Nat.sub_0_r in Hi.
  assert (r0 = r) as ->.
  { apply list_elem_of_lookup_1 in Hr as [j Hj]. pose proof (qo_keys _ _ _ _ (so_queue _ _ Hs)) as N.
    assert (i = j) as ->; [|congruence].
    apply (NoDup_lookup ((fun r => key (iphdr r)) <$> reassdatagrams s) i j (key h)); [done|..];
      rewrite list_lookup_fmap, ?Hi, ?Hj; cbn; congruence. }
  destruct (queue_dg _ _ _ _ _ _ (so_queue _ _ Hs) Hi) as [_ _].
  assert (Hord : ordered 0 (frags r)).
  { destruct (so_queue _ _ Hs) as [Q _ _ _ _]. rewrite Forall_lookup in Q. by destruct (Q _ _ Hi). }
  unfold ip4_reass. apply wp_bind, wp_gets. erewrite law_iph by done. rewrite F2.
  change (negb (5 * 4 =? IP_HLEN)) with false. cbv iota. apply wp_bind, wp_gets. erewrite law_clen by done.
  apply wp_bind. unfold reass_room. apply wp_bind, wp_gets.
  rewrite (proj2 (Z.ltb_ge IP_REASS_MAX_PBUFS _)) by lia. apply wp_ret. cbn [negb].
  unfold reass_datagram. apply wp_bind, wp_bind, wp_gets. rewrite E.
  wp_call (set_reass_spec i r (fun r => if _ && _ then r <| iphdr := h |> else r) s Hi) as u1 s1 (U1 & _ & U3 & U4 & _).
  apply wp_ret.
  eapply (insert_drops s s1 p k h d i); [done|done|done|exact U4|by case_match..].
Qed.
End Run.

(** ** On the simulated memory *)
Lemma sim_idle_idle : idle sim_idle.
Proof. done. Qed.
Lemma sim_arrives s p k h : sm_pkts (mem_of s) !! p = Some k -> p ∉ queued s -> pk_hdr k = Some h ->
  pk_clen k = 1 -> key h = key (sim_hdr 20 0) -> fragment_of sim_dg h (pk_data k) ->
  arrives sim_sent s p k h sim_dg.
Proof.
  intros H1 H2 H3 H4 H5 H6. constructor; try done; [lia|]. unfold sim_sent. by rewrite decide_True.
Qed.
Definition sim_after1 : reass_sys smem := Eval vm_compute in (ip4_reass 1 sim_idle).2.
Lemma sim_after1_run : (ip4_reass 1 sim_idle).2 = sim_after1.
Proof. vm_compute. done. Qed.
Lemma sim_arrives1 : arrives sim_sent sim_idle 1 frag1 (sim_hdr 8 0x2000) sim_dg.
Proof. by apply sim_arrives; [|apply not_elem_of_nil|..|apply sim_fragments]. Qed.
Lemma sim_not_queued p : p <> 1 -> p ∉ queued sim_after1.
Proof. intros Hp. change (p ∉ [1]). by rewrite list_elem_of_singleton. Qed.
Lemma sim_reaches1 : rtc (reass_step sim_sent) sim_idle sim_after1.
Proof.
  rewrite <- sim_after1_run. apply rtc_once. eapply step_fragment; [apply sim_arrives1|].
  intros r H. by apply not_elem_of_nil in H.
Qed.
Lemma sim_arrives2 : arrives sim_sent sim_after1 2 frag2 (sim_hdr 8 0x2001) sim_dg.
Proof. by apply sim_arrives; [|apply sim_not_queued|..|apply sim_fragments]. Qed.
Lemma sim_arrives4 : arrives sim_sent sim_after1 4 frag1 (sim_hdr 8 0x2000) sim_dg.
Proof. by apply sim_arrives; [|apply sim_not_queued|..|apply sim_fragments]. Qed.
Lemma sim_apart2 : no_overlap sim_after1 2 frag2 (sim_hdr 8 0x2001).
Proof.
  intros r H _. change (r ∈ [mkReass [mkFrag 1 0 8] (sim_hdr 8 0x2000) 0 false 3]) in H.
  apply list_elem_of_singleton in H as ->. constructor; [|constructor]. right. vm_compute. done.
Qed.
Lemma sim_inside4 : begins_inside sim_after1 (sim_hdr 8 0x2000).
Proof.
  eexists. split; [apply list_elem_of_here|]. split; [vm_compute; done|]. constructor. vm_compute. done.
Qed.

Lemma reass_delivers_witness :
  wp (ip4_reass 2) (fun o s' => returned sim_sent sim_after1 2 sim_dg o s') sim_after1.
Proof. exact (reass_delivers _ _ _ _ _ _ _ sim_idle_idle sim_reaches1 sim_arrives2 sim_apart2). Defined.

Lemma reass_expires_witness :
  wp (ip_reass_tmr ;;; ip_reass_tmr ;;; ip_reass_tmr ;;; ip_reass_tmr) (fun _ s' => idle s' /\
    (forall x, pkts s' !! x = if decide (x ∈ queued sim_after1) then None else pkts sim_after1 !! x) /\
    avail s' = avail sim_after1 + Z.of_nat (length (reassdatagrams sim_after1))) sim_after1.
Proof. exact (reass_expires _ _ _ sim_idle_idle sim_reaches1). Defined.

Lemma duplicate_freed_twice_witness :
  wp (ip4_reass 4) (fun o s' => o = None /\
    ip_reass_pbufcount s' = u16 (ip_reass_pbufcount sim_after1 - pk_clen frag1) /\
    mem_of s' = (pbuf_free 4 (pbuf_free 4 (mem_of sim_after1)).2).2) sim_after1.
Proof.
  refine (duplicate_freed_twice _ _ _ _ _ _ (reachable_ok _ _ _ sim_idle_idle sim_reaches1) sim_arrives4 sim_inside4 _).
  vm_compute. done.
Defined.
