(* ===== verification/FragOk.v ===== *)
(** * What [ip4_frag] sends

    The laws of what it calls, the fragments of a datagram as slices, and the proof that
    exactly these go to the netif, that every buffer is given back and that each reference
    taken on the datagram has an owner. *)
From stdpp Require Import gmap.
From S2P Require Import Prelude Ip4Addr Ip4Hdr Net Ip4Frag.

(** What the caller owns: a pool element; a mirroring pbuf, with the bytes and, once it is
    set, the original; a fragment under construction. *)
Inductive fbuf :=
  | Raw
  | Mirror (original : option Z) (data : list Z)
  | Frag (hdr : option ip_hdr) (data : list Z).

(** [bufs]: payloads of the pbufs of the datagram, the first with its header; [owed]:
    references taken that have no owner yet; [wire]: what the netif was given. *)
Class FragView (X : Type) := {
  bufs : X -> gmap Z (list Z);
  dgram_hdr : X -> Z -> option ip_hdr;
  owned : X -> gmap Z fbuf;
  owed : X -> list Z;
  wire : X -> list (Z * Z * (ip_hdr * list Z))
}.

Section Laws.
Context {X : Type} `{!FragApi X, !FragView X}.

(** The datagram is as it was. *)
Definition same_dgram (x x' : X) : Prop :=
  bufs x' = bufs x /\ dgram_hdr x' = dgram_hdr x.
Definition own (x x' : X) (o : gmap Z fbuf) : Prop :=
  same_dgram x x' /\ owned x' = o /\ owed x' = owed x /\ wire x' = wire x.

Class FragLaws : Prop := {
  law_hdr x p h : dgram_hdr x p = Some h -> payload_hdr x p = h;
  law_alloc_header x : wp alloc_header (fun o x' => match o with
    | Some a => owned x !! a = None /\ own x x' (<[a := Frag None []]> (owned x))
    | None => own x x' (owned x) end) x;
  law_header_put x a o bs h : owned x !! a = Some (Frag o bs) ->
    wp (header_put a h) (fun _ x' => own x x' (<[a := Frag (Some h) bs]> (owned x))) x;
  law_frag_malloc x : wp frag_pbuf_malloc (fun o x' => match o with
    | Some q => owned x !! q = None /\ own x x' (<[q := Raw]> (owned x))
    | None => own x x' (owned x) end) x;
  law_frag_mfree x q : owned x !! q = Some Raw ->
    wp (frag_pbuf_free q) (fun _ x' => own x x' (delete q (owned x))) x;
  law_mirror x q p off n bs : owned x !! q = Some Raw -> bufs x !! p = Some bs ->
    0 <= off -> 0 < n -> off + n <= slen bs ->
    wp (alloced_custom q p off n) (fun o x' => match o with
      | Some q' => q' = q /\ own x x' (<[q := Mirror None (sub bs off (off + n))]> (owned x))
      | None => own x x' (owned x) end) x;
  law_ref x p bs : bufs x !! p = Some bs ->
    wp (frag_pbuf_ref p) (fun _ x' => same_dgram x x' /\ owned x' = owned x /\
      owed x' = p :: owed x /\ wire x' = wire x) x;
  law_original x q p bs l : owned x !! q = Some (Mirror None bs) -> owed x = p :: l ->
    wp (set_original q p) (fun _ x' => same_dgram x x' /\
      owned x' = <[q := Mirror (Some p) bs]> (owned x) /\ owed x' = l /\ wire x' = wire x) x;
  law_frag_cat x a q o bs p bs' : owned x !! a = Some (Frag o bs) -> owned x !! q = Some (Mirror (Some p) bs') ->
    wp (frag_pbuf_cat a q) (fun _ x' => own x x' (delete q (<[a := Frag o (bs ++ bs')]> (owned x)))) x;
  law_frag_free x a o bs : owned x !! a = Some (Frag o bs) ->
    wp (frag_free a) (fun _ x' => own x x' (delete a (owned x))) x;
  law_output x nif a dest h bs : owned x !! a = Some (Frag (Some h) bs) ->
    wp (netif_output nif a dest) (fun _ x' => same_dgram x x' /\ owned x' = owned x /\ owed x' = owed x /\
      wire x' = wire x ++ [(nf_num nif, dest, (h, bs))]) x
}.
End Laws.
Arguments FragLaws X {_ _}.

(** ** The fragments *)

(** Those of the bytes [data], the first at the offset [ofo]. *)
Fixpoint fragments (n : nat) (h : ip_hdr) (mtu ofo : Z) (data : list Z) : list (ip_hdr * list Z) :=
  match n, data with
  | S n, _ :: _ =>
      let nfb := (mtu - IP_HLEN) / 8 in
      let fragsize := Z.min (slen data) (nfb * 8) in
      (frag_hdr h mtu ofo (slen data) fragsize, take (Z.to_nat fragsize) data) ::
        fragments n h mtu (u16 (ofo + nfb)) (drop (Z.to_nat fragsize) data)
  | _, _ => []
  end.
Definition fragments_of (h : ip_hdr) (mtu : Z) (data : list Z) : list (ip_hdr * list Z) :=
  fragments (length data) h mtu (Z.land (lwip_htons (IPH_OFFSET h)) IP_OFFMASK) data.

Section Ok.
Context {X : Type} `{!FragApi X, !FragView X, !FragLaws X}.
Implicit Types (x : X).

(** The chain [l] holds the bytes [data] from the position [poff] of its first pbuf on. *)
Definition chain_at x (l : list (Z * Z)) : Prop :=
  Forall (fun '(a, n) => n < 65536 /\ exists bs, bufs x !! a = Some bs /\ n = slen bs) l.
Definition chain_bytes x (l : list (Z * Z)) : list Z :=
  concat ((fun '(a, _) => default [] (bufs x !! a)) <$> l).
Definition remaining x (l : list (Z * Z)) (poff : Z) : list Z := drop (Z.to_nat poff) (chain_bytes x l).
Definition head_len (l : list (Z * Z)) : Z := match l with (_, n) :: _ => n | [] => 0 end.

Lemma same_refl x : same_dgram x x.
Proof. done. Qed.
Lemma same_trans x y z : same_dgram x y -> same_dgram y z -> same_dgram x z.
Proof. intros [A B] [C D]. split; congruence. Qed.
Lemma same_sym x y : same_dgram x y -> same_dgram y x.
Proof. intros [A B]. split; congruence. Qed.
Lemma same_chain x y l : same_dgram x y -> chain_at x l -> chain_at y l.
Proof. intros [A _]. unfold chain_at. by rewrite A. Qed.
Lemma same_bytes x y l : same_dgram x y -> chain_bytes y l = chain_bytes x l.
Proof. intros [A _]. unfold chain_bytes. by rewrite A. Qed.

Lemma delete_insert_insert {A} (o : gmap Z A) q r v w : o !! q = None -> q <> r ->
  delete q (<[r := v]> (<[q := w]> o)) = <[r := v]> o.
Proof.
  intros H Hn. apply map_eq. intros i. destruct (decide (i = q)) as [->|Hq].
  - by rewrite lookup_delete_eq, lookup_insert_ne.
  - rewrite lookup_delete_ne by done. destruct (decide (i = r)) as [->|Hr]; [by rewrite !lookup_insert_eq|].
    by rewrite !lookup_insert_ne.
Qed.

(** One piece of the fragment mirrors [m] bytes of the pbuf [a]. *)
Lemma remaining_cons x a n next poff bs : bufs x !! a = Some bs -> 0 <= poff <= slen bs ->
  remaining x ((a, n) :: next) poff = drop (Z.to_nat poff) bs ++ chain_bytes x next.
Proof.
  intros H Hp. unfold remaining, chain_bytes. cbn. rewrite H. cbn. by rewrite drop_app_le by (unfold slen in *; lia).
Qed.
Lemma remaining_0 x l : remaining x l 0 = chain_bytes x l.
Proof. done. Qed.

(** What [frag_fill] does with [n] bytes from the chain. *)
Definition filled_ok x rambuf o (before data : list Z) (n : Z) (f : filled) x' : Prop :=
  same_dgram x x' /\ owed x' = owed x /\ wire x' = wire x /\
  match f with
  | Full rest poff m =>
      owned x' = <[rambuf := Frag o (before ++ take (Z.to_nat n) data)]> (owned x) /\
      chain_at x rest /\ 0 <= poff + m <= head_len rest /\ remaining x rest (poff + m) = drop (Z.to_nat n) data
  | Memerr => owned x' = delete rambuf (owned x)
  | Null => False
  end.

Lemma memerr_spec x y rambuf o bs : same_dgram x y -> owed y = owed x -> wire y = wire x ->
  owned y !! rambuf = Some (Frag o bs) -> delete rambuf (owned y) = delete rambuf (owned x) ->
  wp (frag_free rambuf ;;; ret Memerr) (fun f x' => same_dgram x x' /\ owed x' = owed x /\
    wire x' = wire x /\ f = Memerr /\ owned x' = delete rambuf (owned x)) y.
Proof.
  intros S E1 E2 Ho Ed. wp_call (law_frag_free y rambuf o bs Ho) as u z (S2 & O2 & E3 & E4). apply wp_ret.
  split; [by eapply same_trans|]. split_and!; congruence.
Qed.

(** A piece of [m] bytes: the element, the mirror, the reference, the chain. *)
Lemma piece_spec x rambuf o before a poff m bs (k : M X filled) Q :
  owned x !! rambuf = Some (Frag o before) -> bufs x !! a = Some bs -> 0 <= poff -> 0 < m -> poff + m <= slen bs ->
  (forall y, same_dgram x y -> owed y = owed x -> wire y = wire x ->
    owned y = <[rambuf := Frag o (before ++ sub bs poff (poff + m))]> (owned x) -> wp k Q y) ->
  (forall y, same_dgram x y -> owed y = owed x -> wire y = wire x -> owned y = delete rambuf (owned x) -> Q Memerr y) ->
  wp (pcr <- ip_frag_alloc_pbuf_custom_ref ;;
      match pcr with
      | None => frag_free rambuf ;;; ret Memerr
      | Some pcr =>
          newpbuf <- alloced_custom pcr a poff m ;;
          match newpbuf with
          | None => ip_frag_free_pbuf_custom_ref pcr ;;; frag_free rambuf ;;; ret Memerr
          | Some newpbuf => frag_pbuf_ref a ;;; set_original pcr a ;;; frag_pbuf_cat rambuf newpbuf ;;; k
          end
      end) Q x.
Proof.
  intros Hr Hb H1 H2 H3 Hk Hm. wp_call (law_frag_malloc x) as pcr x1 W. destruct pcr as [q|].
  2: { destruct W as (S1 & O1 & E1 & F1). eapply wp_mono.
       - apply (memerr_spec x x1 rambuf o before); [done..| |]; by rewrite O1.
       - cbv beta. intros f y (?&?&?&->&?). by apply Hm. }
  destruct W as (Hq & S1 & O1 & E1 & F1). assert (Hqr : q <> rambuf) by congruence.
  assert (Hq1 : owned x1 !! q = Some Raw) by (by rewrite O1, lookup_insert_eq).
  assert (Hb1 : bufs x1 !! a = Some bs) by (destruct S1 as [-> _]; done).
  wp_call (law_mirror x1 q a poff m bs Hq1 Hb1 H1 H2 H3) as newpbuf x2 W. destruct newpbuf as [q'|].
  - destruct W as (-> & S2 & O2 & E2 & F2). assert (Hb2 : bufs x2 !! a = Some bs) by (destruct S2 as [-> _]; done).
    wp_call (law_ref x2 a bs Hb2) as u3 x3 (S3 & O3 & E3 & F3).
    assert (Hq3 : owned x3 !! q = Some (Mirror None (sub bs poff (poff + m)))) by (by rewrite O3, O2, lookup_insert_eq).
    wp_call (law_original x3 q a _ _ Hq3 E3) as u4 x4 (S4 & O4 & E4 & F4).
    wp_call (law_frag_cat x4 rambuf q o before a (sub bs poff (poff + m))
      ltac:(rewrite O4, O3, O2, O1, !lookup_insert_ne; done) ltac:(by rewrite O4, lookup_insert_eq))
      as u5 x5 (S5 & O5 & E5 & F5).
    apply Hk; [by repeat (eapply same_trans; [eassumption|])|congruence|congruence|].
    rewrite O5, O4, O3, O2, O1, !insert_insert_eq. by apply delete_insert_insert.
  - destruct W as (S2 & O2 & E2 & F2).
    assert (Hq2 : owned x2 !! q = Some Raw) by (by rewrite O2).
    wp_call (law_frag_mfree x2 q Hq2) as u3 x3 (S3 & O3 & E3 & F3).
    assert (O : owned x3 = owned x) by (rewrite O3, O2, O1; by apply delete_insert_id).
    eapply wp_mono.
    + apply (memerr_spec x x3 rambuf o before); [|congruence|congruence|by rewrite O..].
      by repeat (eapply same_trans; [eassumption|]).
    + cbv beta. intros f y (?&?&?&->&?). by apply Hm.
Qed.

(** The two slices of [n] bytes: [m] from the first pbuf, the others behind it. *)
Lemma take_two (bs tl : list Z) poff n m : 0 <= poff <= slen bs -> m = Z.min n (slen bs - poff) -> 0 <= n ->
  take (Z.to_nat n) (drop (Z.to_nat poff) bs ++ tl) = sub bs poff (poff + m) ++ take (Z.to_nat (n - m)) tl.
Proof.
  intros H -> Hn. unfold sub, slen in *. rewrite take_app, length_drop. f_equal; [|f_equal; lia].
  destruct (Z.min_spec n (Z.of_nat (length bs) - poff)) as [[_ ->]|[Hle ->]]; [f_equal; lia|].
  rewrite !take_ge; rewrite ?length_drop; [done|lia..].
Qed.
Lemma drop_two (bs tl : list Z) poff n m : 0 <= poff <= slen bs -> m = Z.min n (slen bs - poff) -> 0 <= n ->
  drop (Z.to_nat n) (drop (Z.to_nat poff) bs ++ tl) = drop (Z.to_nat (poff + m)) bs ++ drop (Z.to_nat (n - m)) tl.
Proof.
  intros H -> Hn. unfold slen in *. rewrite drop_app, drop_drop, length_drop. f_equal; [|f_equal; lia].
  destruct (Z.min_spec n (Z.of_nat (length bs) - poff)) as [[_ ->]|[Hle ->]]; [f_equal; lia|].
  rewrite !drop_ge; [done|lia..].
Qed.

Lemma head_nonneg x l : chain_at x l -> 0 <= head_len l.
Proof. intros [|[a n] l' (_ & bs & _ & ->) _]; cbn; unfold slen; lia. Qed.

Lemma fill_spec rambuf o l : forall x poff n before, chain_at x l -> 0 <= poff <= head_len l ->
  0 < n < 65536 -> n <= slen (remaining x l poff) -> owned x !! rambuf = Some (Frag o before) ->
  wp (frag_fill rambuf l poff n) (fun f x' => filled_ok x rambuf o before (remaining x l poff) n f x') x.
Proof.
  induction l as [|[a plen] next IH]; intros x poff n before Hc Hp Hn Hlen Hr.
  { unfold remaining, chain_bytes, slen in Hlen. cbn in Hlen. rewrite drop_nil in Hlen. cbn in Hlen. lia. }
  pose proof Hc as Hc0. apply Forall_cons in Hc as [(Hb16 & bs & Hb & ->) Hc]. cbn [head_len] in Hp. cbn [frag_fill].
  rewrite (remaining_cons x a _ next poff bs) in * by done. unfold filled_ok.
  rewrite (u16_small (slen bs - poff)) by lia. set (m := Z.min n (slen bs - poff)).
  rewrite (take_two bs _ poff n m), (drop_two bs _ poff n m) by (done || lia).
  assert (Hlen' : n - m <= slen (chain_bytes x next)).
  { unfold slen in *. rewrite length_app, length_drop in Hlen. lia. }
  destruct (Z.eqb_spec m 0) as [E|E].
  - assert (poff = slen bs) as -> by lia. rewrite E, Z.sub_0_r in *. rewrite !Z.add_0_r. unfold sub at 1.
    rewrite Z.sub_diag. cbn. rewrite (drop_ge bs) by (unfold slen; lia). apply (IH x 0 n before); try done.
    split; [done|by apply (head_nonneg x)].
  - apply (piece_spec x rambuf o before a poff m bs); [done|done|lia..| |].
    2: { intros y S E1 E2 O. done. }
    intros y S E1 E2 O. rewrite u16_small by lia.
    assert (Hy : bufs y !! a = Some bs) by (by destruct S as [-> _]).
    destruct (Z.eqb_spec (n - m) 0) as [Em|Em].
    + apply wp_ret. split; [done|]. split; [done|]. split; [done|]. rewrite Em. cbn. rewrite app_nil_r.
      split; [done|]. split; [done|]. split; [cbn; lia|].
      by rewrite (remaining_cons x a _ next (poff + m) bs) by (done || lia).
    + eapply wp_mono; [apply (IH y 0 (n - m) (before ++ sub bs poff (poff + m)))|].
      * by eapply same_chain.
      * split; [done|]. apply (head_nonneg x). done.
      * lia.
      * by rewrite remaining_0, (same_bytes x y).
      * by rewrite O, lookup_insert_eq.
      * cbv beta. intros f z (S2 & O2 & E3 & W). split; [by eapply same_trans|]. split; [congruence|].
        split; [congruence|]. rewrite remaining_0, (same_bytes x y next) in W by done. destruct f as [rest poff' m'| |]; [|by rewrite W, O, delete_insert_eq|done].
        destruct W as (W1 & W2 & W3 & W4). rewrite W1, O, insert_insert_eq, app_assoc. split; [done|].
        assert (S' : same_dgram y x) by (by apply same_sym).
        split; [by apply (same_chain y)|]. split; [done|]. unfold remaining in *. rewrite (same_bytes y x rest), W4 by done.
        by rewrite (drop_ge bs) by (unfold slen in *; lia).
Qed.

(** The loop: what was sent, and whether it was all. *)
Definition sent_some x (to : Z * Z) (fs : list (ip_hdr * list Z)) (o : option Z) x' : Prop :=
  same_dgram x x' /\ owned x' = owned x /\ owed x' = owed x /\ exists did todo, fs = did ++ todo /\
    wire x' = wire x ++ (pair to <$> did) /\ o = Some (match todo with [] => ERR_OK | _ => ERR_MEM end).

Lemma sent_none x to fs : fs <> [] -> forall y, same_dgram x y -> owned y = owned x -> owed y = owed x ->
  wire y = wire x -> sent_some x to fs (Some ERR_MEM) y.
Proof.
  intros Hf y S O E W. do 3 (split; [done|]). exists [], fs. split; [done|]. cbn. rewrite app_nil_r. by destruct fs.
Qed.

Lemma fragments_cons n h mtu ofo data : 28 <= mtu -> data <> [] ->
  fragments (S n) h mtu ofo data =
  let nfb := (mtu - IP_HLEN) / 8 in let fragsize := Z.min (slen data) (nfb * 8) in
  (frag_hdr h mtu ofo (slen data) fragsize, take (Z.to_nat fragsize) data) ::
    fragments n h mtu (u16 (ofo + nfb)) (drop (Z.to_nat fragsize) data).
Proof. intros _ H. by destruct data. Qed.

(** A filled fragment gets its header, goes out and is freed. *)
Lemma emit_spec x0 x a o h data nif dest {A} (k : M X A) Q : owned x0 !! a = None ->
  owned x = <[a := Frag o data]> (owned x0) ->
  (forall y, same_dgram x y -> owned y = owned x0 -> owed y = owed x -> wire y = wire x ++ [(nf_num nif, dest, (h, data))] ->
    wp k Q y) ->
  wp (header_put a h ;;; netif_output nif a dest ;;; frag_free a ;;; k) Q x.
Proof.
  intros Ha Ho Hk. assert (Ha0 : owned x !! a = Some (Frag o data)) by (by rewrite Ho, lookup_insert_eq).
  wp_call (law_header_put x a o data h Ha0) as u1 x1 (S1 & O1 & E1 & W1). rewrite Ho, insert_insert_eq in O1.
  assert (Ha1 : owned x1 !! a = Some (Frag (Some h) data)) by (by rewrite O1, lookup_insert_eq).
  wp_call (law_output x1 nif a dest h data Ha1) as u2 x2 (S2 & O2 & E2 & W2). rewrite O1 in O2.
  assert (Ha2 : owned x2 !! a = Some (Frag (Some h) data)) by (by rewrite O2, lookup_insert_eq).
  wp_call (law_frag_free x2 a _ _ Ha2) as u3 x3 (S3 & O3 & E3 & W3). apply Hk.
  - eauto using same_trans.
  - rewrite O3, O2. by apply delete_insert_id.
  - congruence.
  - by rewrite W3, W2, W1.
Qed.

Lemma loop_spec h p0 nif dest n : let mtu := nf_mtu nif in 28 <= mtu < 65536 -> forall l x poff m ofo data, chain_at x l ->
  0 <= poff <= head_len l -> remaining x l poff = data -> slen data < 65536 -> (length data <= n)%nat ->
  dgram_hdr x p0 = Some h ->
  wp (frag_loop n p0 nif dest ((mtu - IP_HLEN) / 8) l poff m (slen data) ofo)
     (fun o x' => sent_some x (nf_num nif, dest) (fragments n h mtu ofo data) o x') x.
Proof.
  intros mtu Hm. induction n as [|n IH]; intros l x poff m ofo data Hc Hp Hd Hlen Hn Hh.
  { destruct data; [|cbn in Hn; lia]. apply wp_ret. do 3 (split; [done|]). exists [], []. cbn. by rewrite app_nil_r. }
  destruct (decide (data = [])) as [->|Hne].
  { apply wp_ret. do 3 (split; [done|]). exists [], []. cbn. by rewrite app_nil_r. }
  rewrite fragments_cons by (done || lia). cbv zeta. cbn [frag_loop]. fold mtu.
  set (nfb := (mtu - IP_HLEN) / 8). set (fs := Z.min (slen data) (nfb * 8)).
  assert (Hnfb : 1 <= nfb < 8192) by (unfold nfb, IP_HLEN; split; [apply Z.div_le_lower_bound|apply Z.div_lt_upper_bound]; lia).
  assert (Hpos : 0 < slen data) by (destruct data; [done|unfold slen; cbn; lia]).
  rewrite (proj2 (Z.eqb_neq (slen data) 0)) by lia. cbv zeta. fold nfb fs.
  wp_call (law_alloc_header x) as rambuf x1 W. destruct rambuf as [a|].
  2: { destruct W as (?&?&?&?). apply wp_ret. by apply sent_none. }
  destruct W as (Ha & S1 & O1 & E1 & W1). apply wp_bind, wp_gets.
  assert (Hh1 : payload_hdr x1 p0 = h). { apply law_hdr. by destruct S1 as [_ ->]. }
  rewrite Hh1. assert (Ha1 : owned x1 !! a = Some (Frag None [])) by (by rewrite O1, lookup_insert_eq).
  wp_call (law_header_put x1 a None [] h Ha1) as u2 x2 (S2 & O2 & E2 & W2).
  rewrite O1, insert_insert_eq in O2. rewrite (proj2 (Z.eqb_neq fs 0)) by lia.
  assert (S02 : same_dgram x x2) by eauto using same_trans.
  assert (Ha2 : owned x2 !! a = Some (Frag (Some h) [])) by (by rewrite O2, lookup_insert_eq).
  wp_call (fill_spec a (Some h) l x2 poff fs [] (same_chain _ _ _ S02 Hc) Hp ltac:(lia)
    ltac:(unfold remaining in *; rewrite (same_bytes x x2 l S02), Hd; lia) Ha2) as f x3 (S3 & E3 & W3 & F).
  assert (S03 : same_dgram x x3) by eauto using same_trans.
  destruct f as [rest poff' m'| |]; [|apply wp_ret, sent_none; [done|done| |congruence..]|done].
  2: { rewrite F, O2. by apply delete_insert_id. }
  destruct F as (F1 & F2 & F3 & F4). cbn [app] in F1. rewrite O2, insert_insert_eq in F1.
  assert (Hrem : remaining x2 l poff = data) by (unfold remaining in *; by rewrite (same_bytes x x2 l S02)).
  rewrite Hrem in F1, F4. eapply (emit_spec x x3 a (Some h)); [exact Ha|exact F1|].
  intros x4 S4 O4 E4 W4. assert (S24 : same_dgram x2 x4) by eauto using same_trans.
  assert (S04 : same_dgram x x4) by eauto using same_trans.
  assert (Hhead : head_len rest < 65536) by (destruct F2 as [|[] ? [? _] _]; cbn; lia).
  rewrite (u16_small (poff' + m')), (u16_small (slen data - fs)) by lia.
  replace (slen data - fs) with (slen (drop (Z.to_nat fs) data)) by (unfold slen in *; rewrite length_drop; lia).
  eapply wp_mono; [apply (IH rest x4 (poff' + m') m' (u16 (ofo + nfb)) (drop (Z.to_nat fs) data))|].
  - by eapply (same_chain x2).
  - lia.
  - unfold remaining in *. by rewrite (same_bytes x2 x4 rest).
  - unfold slen in *. rewrite length_drop. lia.
  - rewrite length_drop. unfold slen in *. lia.
  - by destruct S04 as [_ ->].
  - cbv beta. intros r y (S5 & O5 & E5 & did & todo & D1 & D2 & D3). split; [by eapply same_trans|].
    split; [congruence|]. split; [congruence|]. eexists (_ :: did), todo. rewrite D1. split; [done|]. split; [|done].
    by rewrite D2, W4, W3, W2, W1, <- app_assoc.
Qed.

(** The chain [p] is a datagram that is not a fragment with more behind it: the header [h]
    in the first pbuf, and the bytes [data]. *)
Record whole_datagram x (p : Z) (h : ip_hdr) (data : list Z) : Prop := {
  wd_chain : chain_at x (p_chain x p);
  wd_first : IP_HLEN <= head_len (p_chain x p);
  wd_data : remaining x (p_chain x p) IP_HLEN = data;
  wd_len : p_tot_len x p = IP_HLEN + slen data /\ IP_HLEN + slen data < 65536;
  wd_hdr : dgram_hdr x p = Some h;
  wd_hl : IPH_HL h = 5;
  wd_mf : Z.land (lwip_htons (IPH_OFFSET h)) IP_MF = 0
}.

Lemma ip4_frag_spec x p h data nif dest : whole_datagram x p h data -> 28 <= nf_mtu nif < 65536 ->
  wp (ip4_frag p nif dest) (fun o x' => sent_some x (nf_num nif, dest) (fragments_of h (nf_mtu nif) data) o x') x.
Proof.
  intros [D1 D2 D3 [D4 D4'] D5 D6 D7] Hm. unfold ip4_frag. apply wp_bind, wp_gets.
  rewrite (law_hdr x p h D5), D6, D7. cbn [negb Z.mul IP_HLEN Z.eqb]. apply wp_bind, wp_gets, wp_bind, wp_gets.
  rewrite D4. replace (IP_HLEN + slen data - IP_HLEN) with (slen data) by lia.
  unfold IP_HLEN in D4'. rewrite (u16_small (slen data)) by (unfold slen in *; lia).
  replace (u16 (Z.quot (nf_mtu nif - IP_HLEN) 8)) with ((nf_mtu nif - IP_HLEN) / 8).
  2: { unfold IP_HLEN. rewrite Z.quot_div_nonneg by lia. symmetry. apply u16_small.
       split; [apply Z.div_pos|apply Z.div_lt_upper_bound]; lia. }
  unfold fragments_of. replace (Z.to_nat (slen data)) with (length data) by (unfold slen; lia).
  apply loop_spec; try done. unfold IP_HLEN in *. lia.
Qed.

Lemma fragments_cover h mtu n : 28 <= mtu < 65536 -> forall ofo data, (length data <= n)%nat ->
  Forall (fun f => 0 < slen f.2 /\ IP_HLEN + slen f.2 <= mtu) (fragments n h mtu ofo data) /\
  concat (fragments n h mtu ofo data).*2 = data.
Proof.
  intros Hm. induction n as [|n IH]; intros ofo data Hn; [by destruct data; cbn in Hn; [|lia]|].
  destruct (decide (data = [])) as [->|Hne]; [done|]. rewrite fragments_cons by (done || lia). cbv zeta.
  set (nfb := (mtu - IP_HLEN) / 8). set (fs := Z.min (slen data) (nfb * 8)).
  assert (Hnfb : 1 <= nfb /\ nfb * 8 <= mtu - IP_HLEN).
  { unfold nfb. split; [apply Z.div_le_lower_bound; unfold IP_HLEN; lia|].
    rewrite Z.mul_comm. apply Z.mul_div_le. lia. }
  assert (Hpos : 0 < slen data) by (destruct data; [done|unfold slen; cbn; lia]).
  assert (Hfs : slen (take (Z.to_nat fs) data) = fs) by (unfold slen in *; rewrite length_take; lia).
  destruct (IH (u16 (ofo + nfb)) (drop (Z.to_nat fs) data)) as [I1 I2].
  { rewrite length_drop. unfold slen in *. lia. }
  split; [apply Forall_cons; cbn [snd]; rewrite Hfs; split; [lia|done]|].
  rewrite fmap_cons. cbn [snd concat]. by rewrite I2, take_drop.
Qed.

(** ip4_frag gives the interface the slices of the datagram in order, each within the
    MTU, together all its bytes, or an initial part of them when memory runs out and
    then reports ERR_MEM; on every path all buffers it allocated are given back and
    every reference it took on the datagram has an owner. *)
Theorem frag_sends x p h data nif dest : whole_datagram x p h data -> 28 <= nf_mtu nif < 65536 ->
  let fs := fragments_of h (nf_mtu nif) data in
  Forall (fun f => 0 < slen f.2 /\ IP_HLEN + slen f.2 <= nf_mtu nif) fs /\ concat fs.*2 = data /\
  wp (ip4_frag p nif dest) (fun o x' => sent_some x (nf_num nif, dest) fs o x') x.
Proof.
  intros Hd Hm fs. destruct (fragments_cover h (nf_mtu nif) (length data) Hm (Z.land (lwip_htons (IPH_OFFSET h)) IP_OFFMASK) data)
    as [H1 H2]; [done|]. split; [exact H1|]. split; [exact H2|]. by apply ip4_frag_spec.
Qed.
End Ok.
