(* ===== verification/SimFrag.v ===== *)
(** * Fragmentation on a finite map

    An implementation of [FragApi] that keeps its laws, with a bound on what it allocates,
    and a datagram of 20 bytes in two pbufs; the witnesses of the fragmentation theorems run
    on it. *)
From stdpp Require Import gmap.
From S2P Require Import Prelude Ip4Addr Ip4Hdr Net Ip4Reass ReassOk SimReass Ip4Frag FragOk.

Record fmem := mkFmem {
  fm_bufs : gmap Z (list Z); fm_chain : list (Z * Z); fm_hdr : ip_hdr;
  fm_owned : gmap Z fbuf; fm_owed : list Z; fm_wire : list (Z * Z * (ip_hdr * list Z));
  fm_next : Z; fm_left : Z
}.
#[export] Instance fmem_eta : Eta fmem := fun m =>
  mkFmem (fm_bufs m) (fm_chain m) (fm_hdr m) (fm_owned m) (fm_owed m) (fm_wire m) (fm_next m) (fm_left m).
Definition chain_sum (l : list (Z * Z)) : Z := foldr (fun a n => a.2 + n) 0 l.
(** The bytes of the datagram, with its header. *)
Definition chain_data (m : fmem) : list Z := concat ((fun a => default [] (fm_bufs m !! a.1)) <$> fm_chain m).
Definition sim_owned (f : gmap Z fbuf -> gmap Z fbuf) : M fmem unit :=
  modify (fun m => m <| fm_owned := f (fm_owned m) |>).
(** A new buffer, unless the bound is reached. *)
Definition sim_new (b : fbuf) : M fmem (option Z) := fun m =>
  if (0 <? fm_left m) && bool_decide (fm_owned m !! fm_next m = None)
  then (Some (fm_next m), m <| fm_owned := <[fm_next m := b]> (fm_owned m) |>
          <| fm_next := fm_next m + 1 |> <| fm_left := fm_left m - 1 |>)
  else (None, m).

#[export] Instance sim_frag : FragApi fmem := {
  p_chain m p := fm_chain m;
  p_tot_len m p := chain_sum (fm_chain m);
  payload_hdr m p := fm_hdr m;
  alloc_header := sim_new (Frag None []);
  header_put a h := o <- gets fm_owned ;;
    match o !! a with
    | Some _ => sim_owned (alter (fun b => match b with Frag _ l => Frag (Some h) l | b => b end) a)
    | None => modify (fun m => m <| fm_hdr := h |>)
    end;
  frag_pbuf_malloc := sim_new Raw;
  frag_pbuf_free q := sim_owned (delete q);
  alloced_custom q p off n := m <- gets fm_bufs ;;
    sim_owned (<[q := Mirror None (sub (default [] (m !! p)) off (off + n))]>) ;;; ret (Some q);
  frag_pbuf_ref p := modify (fun m => m <| fm_owed := p :: fm_owed m |>);
  set_original q p :=
    sim_owned (alter (fun b => match b with Mirror _ l => Mirror (Some p) l | b => b end) q) ;;;
    modify (fun m => m <| fm_owed := tail (fm_owed m) |>);
  frag_pbuf_cat a q := o <- gets fm_owned ;;
    match o !! q with
    | Some (Mirror _ l) => sim_owned (fun o => delete q (alter (fun b => match b with Frag h k => Frag h (k ++ l) | b => b end) a o))
    | _ => ret tt
    end;
  frag_free a := sim_owned (delete a);
  netif_output nif a dest := o <- gets fm_owned ;;
    match o !! a with
    | Some (Frag (Some h) l) => modify (fun m => m <| fm_wire := fm_wire m ++ [(nf_num nif, dest, (h, l))] |>) ;;; ret ERR_OK
    | _ => modify (fun m => m <| fm_wire := fm_wire m ++ [(nf_num nif, dest, (fm_hdr m, drop 20 (chain_data m)))] |>) ;;; ret ERR_OK
    end
}.
#[export] Instance sim_frag_view : FragView fmem :=
  { bufs := fm_bufs; dgram_hdr m p := Some (fm_hdr m); owned := fm_owned; owed := fm_owed; wire := fm_wire }.

Lemma alter_insert_g {A} (f : A -> A) (P : gmap Z A) p k : P !! p = Some k -> alter f p P = <[p := f k]> P.
Proof.
  intros H. apply map_eq. intros x. destruct (decide (x = p)) as [->|Hx].
  - by rewrite lookup_alter_eq, lookup_insert_eq, H.
  - by rewrite lookup_alter_ne, lookup_insert_ne.
Qed.
Lemma sim_owned_spec f x : wp (sim_owned f) (fun _ x' => own x x' (f (owned x))) x.
Proof. by apply wp_modify. Qed.
Lemma sim_alter_spec f x a b : owned x !! a = Some b ->
  wp (sim_owned (alter f a)) (fun _ x' => own x x' (<[a := f b]> (owned x))) x.
Proof. intros H. apply wp_modify. by rewrite <- (alter_insert_g f _ _ _ H). Qed.
Lemma sim_new_spec b x : wp (sim_new b) (fun o x' => match o with
  | Some a => owned x !! a = None /\ own x x' (<[a := b]> (owned x)) | None => own x x' (owned x) end) x.
Proof.
  unfold wp, sim_new. destruct (0 <? fm_left x); [|by cbn]. cbn [andb]. by case_bool_decide; cbn.
Qed.

#[export] Instance sim_frag_laws : FragLaws fmem.
Proof.
  constructor.
  - intros x p h. cbn. congruence.
  - intros x. apply sim_new_spec.
  - intros x a o bs h H. cbn in H. unfold wp. cbn. rewrite H. cbn. by rewrite (alter_insert_g _ _ _ _ H).
  - intros x. apply sim_new_spec.
  - intros x q _. apply sim_owned_spec.
  - intros x q p off n bs H1 H2 _ _ _. cbn in H2. unfold wp. cbn. by rewrite H2.
  - intros x p bs _. by apply wp_modify.
  - intros x q p bs l H1 H2. unfold wp. cbn. split; [done|]. split; [by rewrite (alter_insert_g _ _ _ _ H1)|].
    split; [|done]. change (tail (owed x) = l). by rewrite H2.
  - intros x a q o bs p bs' H1 H2. cbn in H2. unfold wp. cbn. rewrite H2. cbn. by rewrite (alter_insert_g _ _ _ _ H1).
  - intros x a o bs _. apply sim_owned_spec.
  - intros x nif a dest h bs H. cbn in H. unfold wp. cbn. by rewrite H.
Qed.

Definition sim_netif (mtu : Z) : ip_netif := mkIpNetif 3 0x0100000a 0x00ffffff 0xfe00000a 7 mtu.

(** Two pbufs, the first with the header; memory for [n] buffers. *)
Definition sim_frag_mem (n : Z) : fmem :=
  mkFmem {[1 := repeat 0 20 ++ take 6 sim_bytes; 2 := drop 6 sim_bytes]} [(1, 26); (2, 14)] (sim_hdr 20 0)
    ∅ [] [] 100 n.
Lemma sim_whole n : whole_datagram (sim_frag_mem n) 1 (sim_hdr 20 0) sim_bytes.
Proof.
  constructor; try (vm_compute; done).
  - repeat constructor; by eexists.
Qed.
Example sim_frag_run : let '(o, m) := ip4_frag 1 (sim_netif 28) 9 (sim_frag_mem 10) in
  o = Some ERR_OK /\ fm_owned m = ∅ /\ fm_owed m = [] /\
  (fun w => (w.2.1, w.2.2)) <$> fm_wire m = [(sim_hdr 8 0x2000, pk_data frag1); (sim_hdr 8 0x2001, pk_data frag2); (sim_hdr 4 2, pk_data frag3)].
Proof. vm_compute. done. Qed.
(** Memory for four buffers: the first fragment, and the header of the second. *)
Example sim_frag_memerr : let '(o, m) := ip4_frag 1 (sim_netif 28) 9 (sim_frag_mem 4) in
  o = Some ERR_MEM /\ fm_owned m = ∅ /\ fm_owed m = [] /\ length (fm_wire m) = 1%nat.
Proof. vm_compute. done. Qed.
(** An MTU that is not 20 modulo 8: two of three fragments say that they are the last. *)
Example sim_frag_mtu35 : let '(o, m) := ip4_frag 1 (sim_netif 35) 9 (sim_frag_mem 10) in
  (fun w => (IPH_OFFSET w.2.1, slen w.2.2)) <$> fm_wire m =
    [(lwip_htons 0x2000, 8); (lwip_htons 1, 8); (lwip_htons 2, 4)].
Proof. vm_compute. done. Qed.
(** An MTU below 28: nothing is ever taken off the datagram, the loop does not end. *)
Example sim_frag_mtu27 : let '(o, m) := ip4_frag 1 (sim_netif 27) 9 (sim_frag_mem 1000) in
  o = None /\ Forall (fun w => slen w.2.2 = 0) (fm_wire m) /\ length (fm_wire m) = 20%nat.
Proof. vm_compute. split; [done|]. split; [repeat constructor|done]. Qed.

Lemma frag_sends_witness : let fs := fragments_of (sim_hdr 20 0) 28 sim_bytes in
  Forall (fun f => 0 < slen f.2 /\ IP_HLEN + slen f.2 <= 28) fs /\ concat fs.*2 = sim_bytes /\
  wp (ip4_frag 1 (sim_netif 28) 9) (fun o x' => sent_some (sim_frag_mem 10) (3, 9) fs o x') (sim_frag_mem 10).
Proof. refine (frag_sends _ _ _ _ (sim_netif 28) 9 (sim_whole 10) _). cbn. lia. Defined.
