(* ===== verification/FragRound.v ===== *)
(** * From fragments back to the datagram

    The fragments that [ip4_frag] makes, in any order, give [ip4_reass] the datagram back. *)
From stdpp Require Import gmap.
From S2P Require Import Prelude Ip4Addr Ip4Hdr Net Ip4Reass ReassOk SimReass ReassSpec ReassRun Ip4Frag FragOk SimFrag.

(** ** Fragments as intervals *)
Definition total (l : list ip_frag) : Z := foldr (fun f n => f_end f - f_start f + n) 0 l.
#[export] Instance total_perm : Proper ((≡ₚ) ==> eq) total.
Proof. unfold total. intros l k H. induction H; cbn; lia. Qed.
Lemma total_cons f l : total (f :: l) = f_end f - f_start f + total l.
Proof. done. Qed.
Fixpoint apart_all (l : list ip_frag) : Prop :=
  match l with [] => True | f :: l => Forall (apart f) l /\ apart_all l end.

#[export] Instance apart_sym : Symmetric apart.
Proof. unfold apart. intros f g. lia. Qed.
#[export] Instance apart_all_perm : Proper ((≡ₚ) ==> iff) apart_all.
Proof.
  assert (H : forall l k, l ≡ₚ k -> apart_all l -> apart_all k).
  { intros l k H. induction H as [|f l k H IH|f g l|l k m H1 IH1 H2 IH2]; cbn; [done| | |auto].
    - intros [A1 A2]. split; [by rewrite <- H|auto].
    - rewrite !Forall_cons. intros [[A1 A2] [A3 A4]]. done. }
  intros l k E. split; apply H; done.
Qed.
Lemma apart_all_in l f g k : apart_all (l ++ f :: k) -> g ∈ l -> apart f g.
Proof.
  intros H Hg. apply list_elem_of_split in Hg as (l1 & l2 & ->).
  assert (H' : apart_all (f :: g :: l1 ++ l2 ++ k)) by (rewrite <- (apart_all_perm (((l1 ++ g :: l2) ++ f :: k))); [done|solve_Permutation]).
  destruct H' as [H' _]. by apply Forall_cons in H' as [H' _].
Qed.
Lemma ordered_apart lo l : ordered lo l -> apart_all l /\ Forall (fun f => lo <= f_start f) l.
Proof.
  revert lo. induction l as [|f l IH]; intros lo; cbn; [done|]. intros (O1 & O2 & O3).
  destruct (IH _ O3) as [I1 I2]. split; [split; [|done]|apply Forall_cons; split; [done|]];
    (eapply Forall_impl; [exact I2|]); cbn; intros g Hg; [left|]; lia.
Qed.

(** Intervals without holes are as long as from the first start to the last end. *)
Lemma no_holes_total l : forall f, f_start f < f_end f -> Forall (fun g => f_start g < f_end g) l -> no_holes f l = true ->
  Forall (fun g => f_end g <= f_end f + total l) (f :: l).
Proof.
  induction l as [|g l IH]; intros f Hf Hl Hn; [by constructor; [cbn; lia|]|]. cbn [no_holes] in Hn.
  destruct (Z.eqb_spec (f_end f) (f_start g)) as [E|]; [|done]. apply Forall_cons in Hl as [Hg Hl].
  specialize (IH g Hg Hl Hn). pose proof IH as [I1 _]%Forall_cons.
  rewrite total_cons. constructor; [lia|]. eapply Forall_impl; [exact IH|]. cbv beta. intros k. lia.
Qed.
(** Ordered intervals that are as long as the space they have leave no hole. *)
Lemma ordered_total lo hi l : ordered lo l -> Forall (fun f => f_end f <= hi) l -> lo <= hi -> total l <= hi - lo.
Proof.
  revert lo. induction l as [|f l IH]; intros lo; [cbn; lia|]. rewrite total_cons. intros (O1 & O2 & O3) [H1 H2]%Forall_cons H.
  specialize (IH _ O3 H2 H1). lia.
Qed.
Lemma total_no_holes hi l : forall lo, ordered lo l -> Forall (fun f => f_end f <= hi) l -> lo <= hi -> total l = hi - lo ->
  (forall f, f_end f = lo -> no_holes f l = true) /\ (l <> [] -> exists g k, l = g :: k /\ f_start g = lo).
Proof.
  induction l as [|g l IH]; intros lo Ho Hl Hh Ht; [done|]. rewrite total_cons in Ht. destruct Ho as (O1 & O2 & O3).
  apply Forall_cons in Hl as [Hg Hl]. pose proof (ordered_total _ _ _ O3 Hl Hg).
  destruct (IH _ O3 Hl Hg ltac:(lia)) as [I1 _]. split; [|intros _; exists g, l; split; [done|lia]].
  intros f <-. cbn. rewrite (proj2 (Z.eqb_eq _ _)) by lia. by apply I1.
Qed.

(** ** The fragments of [ip4_frag] *)
Definition tile (f : ip_hdr * list Z) : ip_frag := new_frag 0 f.1 f.2.
Definition is_last (f : ip_hdr * list Z) : bool := Z.land (IPH_OFFSET f.1) (PP_HTONS IP_MF) =? 0.
Record tiles (d : datagram) (fs : list (ip_hdr * list Z)) (lo : Z) : Prop := {
  ti_frags : Forall (fun f => fragment_of d f.1 f.2) fs;
  ti_ordered : ordered lo (tile <$> fs);
  ti_total : total (tile <$> fs) = slen (dg_data d) - lo;
  ti_last : lo < slen (dg_data d) -> Exists (fun f => is_last f = true) fs
}.

Lemma slen_drop n l : 0 <= n <= slen l -> slen (drop (Z.to_nat n) l) = slen l - n.
Proof. unfold slen. rewrite length_drop. lia. Qed.
Lemma slen_take n l : 0 <= n <= slen l -> slen (take (Z.to_nat n) l) = n.
Proof. unfold slen. rewrite length_take. lia. Qed.

Section Fragments.
Variables (h : ip_hdr) (mtu : Z) (data : list Z).
Hypothesis Hmtu : 28 <= mtu < 65536.
Hypothesis Hmod : (mtu - IP_HLEN) mod 8 = 0.
Hypothesis Hhl : IPH_HL h = 5.
Hypothesis Hfits : slen data <= 65535 - IP_HLEN.
#[local] Abbreviation nfb := ((mtu - IP_HLEN) / 8).
#[local] Abbreviation d := (mkDg h data).

Lemma frag_hdr_offset ofo left fs : 0 <= ofo < 8192 -> frag_offset (frag_hdr h mtu ofo left fs) = 8 * ofo.
Proof.
  intros H. unfold frag_offset.
  change (IPH_OFFSET (frag_hdr h mtu ofo left fs)) with (lwip_htons (offset_field ofo (negb (left <=? mtu - IP_HLEN)))).
  rewrite offset_field_offset by done. rewrite u16_small; lia.
Qed.
Lemma frag_hdr_last ofo left fs : 
  Z.land (IPH_OFFSET (frag_hdr h mtu ofo left fs)) (PP_HTONS IP_MF) = 0 <-> left <= mtu - IP_HLEN.
Proof.
  change (IPH_OFFSET (frag_hdr h mtu ofo left fs)) with (lwip_htons (offset_field ofo (negb (left <=? mtu - IP_HLEN)))).
  rewrite offset_field_more, negb_false_iff. apply Z.leb_le.
Qed.

Lemma frag_hdr_ok ofo pre rest : data = pre ++ rest -> slen pre = 8 * ofo -> rest <> [] ->
  let fs := Z.min (slen rest) (nfb * 8) in
  fragment_of d (frag_hdr h mtu ofo (slen rest) fs) (take (Z.to_nat fs) rest).
Proof.
  intros Hd Hpre Hne fs. assert (Hpos : 0 < slen rest) by (destruct rest; [done|unfold slen; cbn; lia]).
  assert (E8 : nfb * 8 = mtu - IP_HLEN) by (pose proof (Z.div_mod (mtu - IP_HLEN) 8); lia).
  assert (Hfs : 0 < fs <= slen rest) by (unfold fs, IP_HLEN in *; lia).
  assert (Hlen : slen data = 8 * ofo + slen rest) by (by rewrite Hd, slen_app, Hpre).
  assert (Hofo : 0 <= ofo < 8192) by (unfold IP_HLEN in *; split; [unfold slen in Hpre|]; lia).
  assert (Ht : slen (take (Z.to_nat fs) rest) = fs) by (apply slen_take; lia).
  constructor; rewrite ?frag_hdr_offset, ?Ht by done; cbn [dg_data dg_hdr]; try lia.
  - done.
  - done.
  - change (IPH_LEN (frag_hdr _ _ _ _ _)) with (lwip_htons (fs + IP_HLEN)).
    rewrite htons_htons by (unfold IP_HLEN in *; lia). lia.
  - unfold sub. rewrite Hd, drop_app_ge by (unfold slen in *; lia).
    replace (Z.to_nat (8 * ofo) - length pre)%nat with 0%nat by (unfold slen in *; lia). rewrite drop_0. f_equal. lia.
  - rewrite frag_hdr_last, Hlen. unfold fs. lia.
  - change (IPH_OFFSET (frag_hdr h mtu ofo (slen rest) fs)) with (lwip_htons (offset_field ofo (negb (slen rest <=? mtu - IP_HLEN)))).
    rewrite offset_field_offset by done. lia.
Qed.

Lemma fragments_tiles n : forall ofo pre rest, data = pre ++ rest -> slen pre = 8 * ofo -> (length rest <= n)%nat ->
  rest <> [] -> tiles d (fragments n h mtu ofo rest) (8 * ofo).
Proof.
  induction n as [|n IH]; intros ofo pre rest Hd Hpre Hn Hne; [by destruct rest; cbn in Hn; [|lia]|].
  pose proof (frag_hdr_ok ofo pre rest Hd Hpre Hne) as Hf. cbv zeta in Hf.
  rewrite fragments_cons by (done || lia). cbv zeta. set (fs := Z.min (slen rest) (nfb * 8)) in *.
  assert (Hpos : 0 < slen rest) by (destruct rest; [done|unfold slen; cbn; lia]).
  assert (E8 : nfb * 8 = mtu - IP_HLEN) by (pose proof (Z.div_mod (mtu - IP_HLEN) 8); lia).
  assert (Hfs : 0 < fs <= slen rest) by (unfold fs, IP_HLEN in *; lia).
  assert (Hlen : slen data = 8 * ofo + slen rest) by (by rewrite Hd, slen_app, Hpre).
  assert (Hofo : 0 <= ofo < 8192) by (unfold IP_HLEN in *; split; [unfold slen in Hpre|]; lia).
  set (f := (frag_hdr h mtu ofo (slen rest) fs, take (Z.to_nat fs) rest)).
  assert (Et : tile f = mkFrag 0 (8 * ofo) (8 * ofo + fs)).
  { unfold tile, new_frag, f. cbn [fst snd]. by rewrite frag_hdr_offset, slen_take by lia. }
  destruct (decide (drop (Z.to_nat fs) rest = [])) as [E|E].
  - rewrite E. assert (slen rest = fs) by (pose proof (slen_drop fs rest ltac:(lia)) as H; rewrite E in H; unfold slen at 1 in H; cbn in H; lia).
    replace (fragments n h mtu _ []) with (@nil (ip_hdr * list Z)) by (by destruct n).
    constructor; rewrite ?fmap_cons, ?Et; cbn; [by constructor|lia..|].
    intros _. constructor. apply Z.eqb_eq, frag_hdr_last. unfold IP_HLEN in *. lia.
  - assert (Hfs8 : fs = nfb * 8).
    { unfold fs. destruct (Z.min_spec (slen rest) (nfb * 8)) as [[H H1]|[H H1]]; rewrite H1; [|done].
      exfalso. apply E. apply drop_ge. fold fs in H1. unfold slen in *. lia. }
    assert (Hu : u16 (ofo + nfb) = ofo + nfb) by (apply u16_small; unfold IP_HLEN in *; lia).
    destruct (IH (ofo + nfb) (pre ++ take (Z.to_nat fs) rest) (drop (Z.to_nat fs) rest)) as [T1 T2 T3 T4];
      [by rewrite <- app_assoc, take_drop|by rewrite slen_app, slen_take by lia; lia|
       rewrite length_drop; unfold slen in *; lia|done|].
    rewrite Hu. replace (8 * (ofo + nfb)) with (8 * ofo + fs) in * by lia.
    constructor; rewrite ?fmap_cons, ?Et.
    + by constructor.
    + cbn. split; [lia|]. split; [lia|done].
    + rewrite total_cons, T3. cbn. lia.
    + intros _. apply Exists_cons. right. apply T4. cbn. rewrite Hlen.
      pose proof (slen_drop fs rest ltac:(lia)). destruct (drop (Z.to_nat fs) rest); [done|]. unfold slen in *. cbn in *. lia.
Qed.

Lemma fragments_of_tiles : data <> [] -> Z.land (lwip_htons (IPH_OFFSET h)) IP_OFFMASK = 0 ->
  tiles d (fragments_of h mtu data) 0.
Proof.
  intros Hne Ho. unfold fragments_of. rewrite Ho. by apply (fragments_tiles (length data) 0 []).
Qed.
End Fragments.

(** ** The round trip *)
Section Round.
Context {X : Type} `{!ReassApi X, !ReassView X, !ReassLaws X} (d : datagram).
#[local] Abbreviation sys := (reass_sys X).
Implicit Types (s : sys).

(** A fragment in the pbuf [p]. *)
#[local] Abbreviation arrival := (Z * (ip_hdr * list Z))%type.
Definition one_sender : senders := fun k => if decide (k = key (dg_hdr d)) then Some d else None.
Definition frag_at (a : arrival) : ip_frag := new_frag a.1 a.2.1 a.2.2.
Definition holds_frag (P : gmap Z packet) (a : arrival) : Prop :=
  exists k, P !! a.1 = Some k /\ pk_hdr k = Some a.2.1 /\ pk_data k = a.2.2 /\ 1 <= pk_clen k.

Fixpoint reass_all (l : list Z) : M sys (list (option Z)) :=
  match l with
  | [] => ret []
  | p :: l => o <- ip4_reass p ;; os <- reass_all l ;; ret (o :: os)
  end.

(** After the fragments [got], before [todo]. *)
Record between (P0 : gmap Z packet) (got todo : list arrival) s : Prop := {
  bt_ok : sys_ok one_sender s;
  bt_none : got = [] -> reassdatagrams s = [] /\ 0 < avail s;
  bt_some : got <> [] -> exists r, reassdatagrams s = [r] /\ key (iphdr r) = key (dg_hdr d) /\
    frags r ≡ₚ frag_at <$> got /\ LASTFRAG r = existsb (fun a => is_last a.2) got;
  bt_pk : forall p, p ∈ got.*1 ++ todo.*1 -> pkts s !! p = P0 !! p
}.
(** The fragments [all] are in the memory [P0], in different pbufs, do not overlap, and fit. *)
Record valid (P0 : gmap Z packet) (all : list arrival) : Prop := {
  va_holds : Forall (holds_frag P0) all;
  va_nodup : NoDup all.*1;
  va_apart : apart_all (frag_at <$> all);
  va_frag : Forall (fun a => fragment_of d a.2.1 a.2.2) all;
  va_room : clens P0 all.*1 <= IP_REASS_MAX_PBUFS
}.

Lemma clens_cons P p l : clens P (p :: l) = clen_at P p + clens P l.
Proof. done. Qed.
Lemma holds_clen P a : holds_frag P a -> 1 <= clen_at P a.1.
Proof. intros (k & H & _ & _ & Hk). unfold clen_at. by rewrite H. Qed.
Lemma held_clens_nonneg P l : Forall (holds_frag P) l -> 0 <= clens P l.*1.
Proof.
  induction 1 as [|a l H _ IH]; [done|]. pose proof (holds_clen _ _ H). rewrite fmap_cons, clens_cons. lia.
Qed.
Lemma pbufs_frag_at (l : list arrival) : f_pbuf <$> (frag_at <$> l) = l.*1.
Proof. rewrite <- list_fmap_compose. done. Qed.
Lemma between_frags P0 got todo s r : between P0 got todo s -> r ∈ reassdatagrams s -> got <> [] /\
  frags r ≡ₚ frag_at <$> got /\ LASTFRAG r = existsb (fun a => is_last a.2) got.
Proof.
  intros [B1 B2 B3 _] Hr. destruct (decide (got = [])) as [->|Hg].
  - destruct (B2 eq_refl) as [E _]. rewrite E in Hr. by apply not_elem_of_nil in Hr.
  - destruct (B3 Hg) as (r' & E & _ & H). rewrite E in Hr. by apply list_elem_of_singleton in Hr as ->.
Qed.
Lemma between_queued P0 got todo s : between P0 got todo s -> queued s ≡ₚ got.*1.
Proof.
  intros [B1 B2 B3 _]. unfold queued. destruct (decide (got = [])) as [->|Hg].
  - by destruct (B2 eq_refl) as [-> _].
  - destruct (B3 Hg) as (r & -> & _ & Hr & _). unfold pbufs_of. cbn. by rewrite app_nil_r, Hr, pbufs_frag_at.
Qed.
Lemma between_count P0 got todo s : between P0 got todo s -> ip_reass_pbufcount s = clens P0 got.*1.
Proof.
  intros B. destruct (bt_ok _ _ _ _ B) as [[_ _ Q _ _] _ _]. rewrite Q. fold (queued s).
  rewrite (between_queued _ _ _ _ B). apply clens_ext. intros p Hp. apply (bt_pk _ _ _ _ B).
  apply elem_of_app. by left.
Qed.

(** The next fragment. *)
Lemma between_arrives P0 got a todo s : valid P0 (got ++ a :: todo) -> between P0 got (a :: todo) s ->
  exists k, arrives one_sender s a.1 k a.2.1 d /\ no_overlap s a.1 k a.2.1 /\ pk_data k = a.2.2 /\
    takes a.2.1 s /\ ip_reass_pbufcount s + pk_clen k <= IP_REASS_MAX_PBUFS.
Proof.
  intros [V1 V2 V3 V4 V5] B. apply Forall_app in V1 as [Vg [(k & H1 & H2 & H3 & H4) Vt]%Forall_cons].
  apply Forall_app in V4 as [_ [Hf _]%Forall_cons]. pose proof (fo_like _ _ _ Hf) as (_ & _ & _ & Hkey).
  exists k. split_and!.
  - constructor; [|..|by rewrite H3]; try done.
    + rewrite (bt_pk _ _ _ _ B); [done|]. apply elem_of_app. right. by left.
    + rewrite (between_queued _ _ _ _ B). rewrite fmap_app in V2. apply NoDup_app in V2 as (_ & V2 & _).
      intros Hin. by eapply V2; [exact Hin|left].
    + unfold one_sender. by rewrite decide_True.
  - intros r Hr _. destruct (between_frags _ _ _ _ _ B Hr) as (_ & -> & _). apply Forall_forall. intros g Hg.
    rewrite fmap_app, fmap_cons in V3. rewrite H3. by apply (apart_all_in _ (frag_at a) g _ V3).
  - done.
  - destruct (decide (got = [])) as [->|Hg]; [left; by apply (bt_none _ _ _ _ B)|right].
    destruct (bt_some _ _ _ _ B Hg) as (r & -> & Hr & _). exists r. split; [by left|congruence].
  - rewrite (between_count _ _ _ _ B). rewrite fmap_app, clens_app, fmap_cons, clens_cons in V5.
    pose proof (held_clens_nonneg _ _ Vt). unfold clen_at in V5. rewrite H1 in V5. lia.
Qed.

(** There is no other datagram. *)
Lemma prepared_alone P0 got todo h s i r s1 : between P0 got todo s -> key h = key (dg_hdr d) ->
  prepared one_sender h s i r s1 ->
  frags r ≡ₚ frag_at <$> got /\ LASTFRAG r = existsb (fun a => is_last a.2) got /\ delete i (reassdatagrams s1) = [].
Proof.
  intros B Hk [Q1 Q2 Q3 Q4 Q5 Q6 Q7 Q8 Q9 Q10].
  assert (E : frags r ≡ₚ frag_at <$> got /\ LASTFRAG r = existsb (fun a => is_last a.2) got).
  { destruct Q6 as [(E1 & E2 & E3)|(r0 & H1 & H2 & -> & ->)]; [|by destruct (between_frags _ _ _ _ _ B H1)].
    destruct (decide (got = [])) as [->|Hg]; [by rewrite E1, E2|].
    destruct (bt_some _ _ _ _ B Hg) as (r0 & E & Hr & _). destruct (E3 r0); [rewrite E; by left|congruence]. }
  destruct E as [E1 E2]. split; [done|]. split; [done|].
  destruct (delete i (reassdatagrams s1)) as [|r2 l] eqn:Ed; [done|]. exfalso.
  pose proof (queue_perm _ _ _ _ _ (delete_Permutation _ _ _ Q1) Q3) as Q0. rewrite Ed in Q0.
  apply Forall_cons in Q4 as [Hne _]. destruct (frags r2) as [|f fs] eqn:Ef; [done|].
  assert (Hin : f_pbuf f ∈ pbufs_of (r2 :: l)) by (rewrite pbufs_of_cons, Ef; left).
  assert (Hq : f_pbuf f ∈ queued s).
  { apply Q9. unfold queued. rewrite (pbufs_of_delete _ _ _ Q1), Ed. apply elem_of_app. by right. }
  rewrite (between_queued _ _ _ _ B), <- pbufs_frag_at, <- E1 in Hq. by apply (queue_apart _ _ _ _ _ _ Q0 Hq).
Qed.

Lemma existsb_app_one {A} (f : A -> bool) l a : existsb f (l ++ [a]) = existsb f l || f a.
Proof. by rewrite existsb_app; cbn; rewrite orb_false_r. Qed.

Definition after P0 (got todo : list arrival) (o : option Z) s' : Prop := exists r',
  frags r' ≡ₚ frag_at <$> got /\ LASTFRAG r' = existsb (fun a => is_last a.2) got /\
  match o with
  | None => complete r' = false /\ ordered 0 (frags r') /\ between P0 got todo s'
  | Some p => complete r' = true /\ delivered d (pkts s') p /\ idle s'
  end.

Lemma after_queued P0 got a todo h k s i r s1 r' s' : valid P0 (got ++ a :: todo) -> between P0 got (a :: todo) s ->
  key h = key (dg_hdr d) -> prepared one_sender h s i r s1 -> joined one_sender s1 a.1 k h d i r None r' s' ->
  frags r' ≡ₚ frag_at <$> (got ++ [a]) -> LASTFRAG r' = existsb (fun a => is_last a.2) (got ++ [a]) ->
  complete r' = false /\ ordered 0 (frags r') /\ between P0 (got ++ [a]) todo s'.
Proof.
  intros [V1 V2 V3 V4 V5] B Hk P [J1 J2 J3 (J4 & J5 & J6 & J7)] Ef El.
  destruct (prepared_alone _ _ _ _ _ _ _ _ B Hk P) as (E1 & E2 & E3). rewrite E3 in J6.
  apply Permutation_singleton_r in J6. destruct P as [Q1 Q2 Q3 Q4 Q5 Q6 Q7 Q8 Q9 Q10].
  assert (Hdg : dg_ok one_sender (pkts s') r').
  { destruct J3 as [[H _ _ _ _] _ _]. rewrite J6 in H. by apply Forall_cons in H as [H _]. }
  split; [done|]. split; [by destruct Hdg|]. constructor; [done| | |].
  - intros H. by destruct got.
  - intros _. exists r'. split; [done|]. split; [|done]. destruct Hdg as [(d' & H & _) _]. unfold one_sender in H.
    by case_decide.
  - intros p Hp. unfold pkts at 1. rewrite J5. fold (pkts s1). rewrite Q7.
    assert (Hq1 : queued s1 ≡ₚ got.*1).
    { unfold queued. by rewrite (pbufs_of_delete _ _ _ Q1), E3, E1, pbufs_frag_at, app_nil_r. }
    rewrite decide_False by (rewrite Hq1, (between_queued _ _ _ _ B); tauto). apply (bt_pk _ _ _ _ B).
    rewrite fmap_app in Hp. rewrite fmap_cons. cbn in Hp. by rewrite <- app_assoc in Hp.
Qed.

Lemma step_spec P0 got a todo s : valid P0 (got ++ a :: todo) -> between P0 got (a :: todo) s ->
  wp (ip4_reass a.1) (fun o s' => after P0 (got ++ [a]) todo o s') s.
Proof.
  intros V B. destruct (between_arrives _ _ _ _ _ V B) as (k & Ha & Ho & Ek & Ht & Hroom).
  assert (Hk : key a.2.1 = key (dg_hdr d)).
  { destruct V as [_ _ _ V _]. apply Forall_app in V as [_ [V _]%Forall_cons]. apply (fo_like _ _ _ V). }
  eapply wp_mono; [apply (reass_spec one_sender a.1 k a.2.1 d s); [apply B|done..]|].
  cbv beta. intros o s' [_ H]. destruct (H Hroom Ht) as (i & r & s1 & r' & P & J).
  destruct (prepared_alone _ _ _ _ _ _ _ _ B Hk P) as (E1 & E2 & E3).
  assert (Ef : frags r' ≡ₚ frag_at <$> (got ++ [a])).
  { rewrite (jo_frags _ _ _ _ _ _ _ _ _ _ _ J), Ek, fmap_app, E1. cbn. by rewrite Permutation_app_comm. }
  assert (El : LASTFRAG r' = existsb (fun a => is_last a.2) (got ++ [a])).
  { by rewrite existsb_app_one, (jo_last _ _ _ _ _ _ _ _ _ _ _ J), E2. }
  exists r'. split; [done|]. split; [done|]. destruct o as [p|]; [|by eapply after_queued].
  destruct J as [J1 J2 J3 (J4 & J5 & J6 & J7 & J8)]. split; [done|]. split; [done|].
  destruct J3 as [[_ _ Q _ _] _ N]. rewrite E3 in J7. rewrite J7 in Q. done.
Qed.

(** All fragments are here exactly when the datagram is complete. *)
Lemma total_fmap_nonneg (l : list arrival) : Forall (fun a => 0 < slen a.2.2) l -> 0 <= total (frag_at <$> l).
Proof. induction 1 as [|a l H _ IH]; [done|]. rewrite fmap_cons, total_cons. cbn. lia. Qed.

Lemma complete_all got todo r : Forall (fun a => fragment_of d a.2.1 a.2.2) (got ++ todo) ->
  total (frag_at <$> (got ++ todo)) = slen (dg_data d) -> frags r ≡ₚ frag_at <$> got ->
  LASTFRAG r = existsb (fun a => is_last a.2) got -> complete r = true -> todo = [].
Proof.
  intros Hf Ht Er El Hc. unfold complete in Hc. apply andb_true_iff in Hc as [Hl [H0 Hh]%andb_true_iff].
  rewrite El in Hl. apply existsb_exists in Hl as (a & Ha%list_elem_of_In & Hla).
  apply Forall_app in Hf as [Hg Htodo]. rewrite Forall_forall in Hg.
  assert (Hpos : Forall (fun g => f_start g < f_end g) (frags r)).
  { rewrite Er. apply Forall_fmap, Forall_forall. intros b Hb. pose proof (fo_some _ _ _ (Hg b Hb)). cbn. lia. }
  destruct (frags r) as [|f l] eqn:E; [done|]. cbn in H0, Hh. apply Z.eqb_eq in H0.
  apply Forall_cons in Hpos as [P1 P2]. pose proof (no_holes_total l f P1 P2 Hh) as Hall.
  assert (Hend : f_end (frag_at a) <= f_end f + total l).
  { rewrite Forall_forall in Hall. apply Hall. rewrite Er. apply list_elem_of_fmap. by exists a. }
  apply Z.eqb_eq, (fo_last _ _ _ (Hg a Ha)) in Hla. cbn in Hend.
  rewrite fmap_app in Ht. assert (Htot : total (f :: l) = total (frag_at <$> got)) by (by rewrite Er).
  rewrite total_cons in Htot. assert (total (frag_at <$> todo) = slen (dg_data d) - total (frag_at <$> got)).
  { rewrite <- Ht. clear. induction (frag_at <$> got) as [|g k IH]; cbn [app]; rewrite ?total_cons; [cbn; lia|lia]. }
  destruct todo as [|b todo]; [done|]. apply Forall_cons in Htodo as [Hb Htodo].
  pose proof (fo_some _ _ _ Hb). rewrite fmap_cons, total_cons in *. cbn in *.
  pose proof (total_fmap_nonneg todo) as Hn. rewrite Forall_forall in Htodo.
  enough (0 <= total (frag_at <$> todo)) by lia. apply Hn, Forall_forall. intros c Hc. apply (fo_some _ _ _ (Htodo c Hc)).
Qed.

Lemma all_complete all r : Forall (fun a => fragment_of d a.2.1 a.2.2) all -> all <> [] ->
  total (frag_at <$> all) = slen (dg_data d) -> existsb (fun a => is_last a.2) all = true -> frags r ≡ₚ frag_at <$> all ->
  LASTFRAG r = existsb (fun a => is_last a.2) all -> ordered 0 (frags r) -> complete r = true.
Proof.
  intros Hf Hne Ht Hx Er El Ho. rewrite Hx in El. unfold complete. rewrite El. cbn [andb].
  assert (Hend : Forall (fun g => f_end g <= slen (dg_data d)) (frags r)).
  { rewrite Er. apply Forall_fmap, Forall_forall. intros b Hb. rewrite Forall_forall in Hf. apply (fo_end _ _ _ (Hf b Hb)). }
  destruct (total_no_holes _ (frags r) 0 Ho Hend) as [H1 H2]; [unfold slen; lia|by rewrite Er, Ht, Z.sub_0_r|].
  destruct H2 as (g & k & E & Hg). { intros E. rewrite E in Er. apply Permutation_nil_l in Er. by destruct all. }
  specialize (H1 (mkFrag 0 0 0) eq_refl). rewrite E in *. cbn in H1 |- *. rewrite Hg in *. done.
Qed.

Lemma rounds P0 todo : forall got s, valid P0 (got ++ todo) -> between P0 got todo s -> todo <> [] ->
  total (frag_at <$> (got ++ todo)) = slen (dg_data d) -> existsb (fun a => is_last a.2) (got ++ todo) = true ->
  wp (reass_all todo.*1) (fun os s' => idle s' /\ exists p, os = replicate (length todo - 1) None ++ [Some p] /\
    delivered d (pkts s') p) s.
Proof.
  induction todo as [|a todo IH]; intros got s V B Hne Ht Hl; [done|]. rewrite fmap_cons. cbn [reass_all].
  wp_call (step_spec P0 got a todo s V B) as o s1 (r & E1 & E2 & E3).
  replace (got ++ a :: todo) with ((got ++ [a]) ++ todo) in V, Ht, Hl by (by rewrite <- app_assoc).
  pose proof (va_frag _ _ V) as Vf. destruct o as [p|].
  - destruct E3 as (Hc & Hd & Hi). assert (todo = []) as ->.
    { by apply (complete_all (got ++ [a]) todo r). }
    apply wp_bind, wp_ret, wp_ret. split; [done|]. by exists p.
  - destruct E3 as (Hc & Ho & B1). assert (todo <> []).
    { intros ->. rewrite app_nil_r in Vf, Ht, Hl. rewrite (all_complete (got ++ [a]) r) in Hc; try done. by destruct got. }
    apply wp_bind. eapply wp_mono; [by apply (IH (got ++ [a]))|]. cbv beta. intros os s2 (Hi & p & -> & Hd). apply wp_ret.
    split; [done|]. exists p. split; [|done]. cbn [length]. rewrite Nat.sub_succ, Nat.sub_0_r.
    destruct todo as [|b todo]; [done|]. cbn [length]. rewrite Nat.sub_succ, Nat.sub_0_r. done.
Qed.

Lemma frag_at_tiles (l : list arrival) : total (frag_at <$> l) = total (tile <$> l.*2) /\
  (apart_all (tile <$> l.*2) -> apart_all (frag_at <$> l)).
Proof.
  induction l as [|a l [I1 I2]]; [done|]. rewrite !fmap_cons, !total_cons, I1. split; [done|].
  cbn [apart_all]. intros [H1 H2]. split; [|auto]. apply Forall_forall. intros g (b & -> & Hb)%list_elem_of_fmap.
  rewrite Forall_forall in H1. apply (H1 (tile b.2)). by do 2 apply list_elem_of_fmap_2.
Qed.

Lemma some_last fs (ps : list arrival) : tiles d fs 0 -> dg_data d <> [] -> ps.*2 ≡ₚ fs -> existsb (fun a => is_last a.2) ps = true.
Proof.
  intros [_ _ _ T4] Hne Hp. apply existsb_exists.
  specialize (T4 ltac:(destruct (dg_data d); [done|unfold slen; cbn; lia])). rewrite <- Hp in T4.
  apply Exists_exists in T4 as (f & Hf & Hl). apply list_elem_of_fmap in Hf as (a & -> & Hin).
  exists a. split; [by apply list_elem_of_In|done].
Qed.
Lemma start_valid fs ps s : tiles d fs 0 -> ps.*2 ≡ₚ fs -> idle s -> 0 < avail s ->
  Forall (holds_frag (pkts s)) ps -> NoDup ps.*1 -> clens (pkts s) ps.*1 <= IP_REASS_MAX_PBUFS ->
  valid (pkts s) ps /\ between (pkts s) [] ps s.
Proof.
  intros [T1 T2 _ _] Hp Hi Ha Hh Hn Hc. destruct (frag_at_tiles ps) as [_ F2]. destruct (ordered_apart _ _ T2) as [Hap _].
  split.
  - constructor; try done; [apply F2; by rewrite Hp|]. apply Forall_forall. intros a Hin.
    rewrite Forall_forall in T1. apply (T1 a.2). rewrite <- Hp. by apply list_elem_of_fmap_2.
  - constructor; [by apply idle_ok| |done|done]. intros _. split; [apply Hi|done].
Qed.

Lemma reass_all_spec fs ps s : tiles d fs 0 -> dg_data d <> [] -> ps.*2 ≡ₚ fs -> idle s -> 0 < avail s ->
  Forall (holds_frag (pkts s)) ps -> NoDup ps.*1 -> clens (pkts s) ps.*1 <= IP_REASS_MAX_PBUFS ->
  wp (reass_all ps.*1) (fun os s' => idle s' /\ exists p, os = replicate (length ps - 1) None ++ [Some p] /\
    delivered d (pkts s') p) s.
Proof.
  intros T Hne Hp Hi Ha Hh Hn Hc. destruct (frag_at_tiles ps) as [F1 _].
  assert (Hd : 0 < slen (dg_data d)) by (destruct (dg_data d); [done|unfold slen; cbn; lia]).
  destruct (start_valid fs ps s T Hp Hi Ha Hh Hn Hc) as [V B]. pose proof (ti_total _ _ _ T) as Ht.
  apply (rounds (pkts s) ps []); try done; [intros ->|cbn [app]; rewrite F1, Hp; lia|by apply (some_last fs)].
  rewrite <- Hp in Ht. cbn in Ht. lia.
Qed.

End Round.

(** The fragments that ip4_frag sends when it reports success, in any order and in
    separate pbufs, give the datagram back: ip4_reass queues all but the last that
    arrives and then returns the header, length and all bytes. *)
Theorem frag_reass_roundtrip {X Y} `{!ReassApi X, !ReassView X, !ReassLaws X, !FragApi Y, !FragView Y, !FragLaws Y}
    (y y' : Y) p nif dest h data sent (s : reass_sys X) ps :
  whole_datagram y p h data -> data <> [] -> Z.land (lwip_htons (IPH_OFFSET h)) IP_OFFMASK = 0 ->
  28 <= nf_mtu nif < 65536 -> (nf_mtu nif - IP_HLEN) mod 8 = 0 ->
  ip4_frag p nif dest y = (Some ERR_OK, y') -> wire y' = wire y ++ sent -> ps.*2 ≡ₚ sent.*2 ->
  idle s -> 0 < avail s ->
  Forall (holds_frag (pkts s)) ps -> NoDup ps.*1 -> clens (pkts s) ps.*1 <= IP_REASS_MAX_PBUFS ->
  wp (reass_all ps.*1) (fun os s' => idle s' /\ exists a, os = replicate (length ps - 1) None ++ [Some a] /\
    delivered (mkDg h data) (pkts s') a) s.
Proof.
  intros Hw Hne Ho Hm Hmod Hrun Hwire Hps Hi Ha Hh Hn Hc.
  pose proof (wp_run _ _ _ _ _ (ip4_frag_spec y p h data nif dest Hw Hm) Hrun) as (_ & _ & _ & did & todo & D1 & D2 & D3).
  destruct todo; [|done]. rewrite app_nil_r in D1. rewrite Hwire in D2. apply app_inv_head in D2. subst sent did.
  destruct Hw as [_ _ _ [_ W4] _ W6 _].
  apply (reass_all_spec (mkDg h data) (fragments_of h (nf_mtu nif) data)); try done.
  - apply fragments_of_tiles; try done. unfold IP_HLEN in *. lia.
  - rewrite Hps, <- list_fmap_compose. cbn. by rewrite list_fmap_id.
Qed.

(** ** On the simulated memories *)
Definition sim_fragged : fmem := Eval vm_compute in (ip4_frag 1 (sim_netif 28) 9 (sim_frag_mem 10)).2.
Lemma sim_fragged_run : ip4_frag 1 (sim_netif 28) 9 (sim_frag_mem 10) = (Some ERR_OK, sim_fragged).
Proof. vm_compute. done. Qed.
(** The last fragment comes first. *)
Definition sim_arrivals : list (Z * (ip_hdr * list Z)) :=
  [(3, (sim_hdr 4 2, pk_data frag3)); (1, (sim_hdr 8 0x2000, pk_data frag1)); (2, (sim_hdr 8 0x2001, pk_data frag2))].
Lemma sim_arrivals_sent : sim_arrivals.*2 ≡ₚ (fm_wire sim_fragged).*2.
Proof.
  change (fm_wire sim_fragged).*2 with [(sim_hdr 8 0x2000, pk_data frag1); (sim_hdr 8 0x2001, pk_data frag2);
    (sim_hdr 4 2, pk_data frag3)].
  cbn. solve_Permutation.
Qed.
Lemma sim_arrivals_held : Forall (holds_frag (pkts sim_idle)) sim_arrivals.
Proof. repeat constructor; eexists; (split; [vm_compute; done|]); done. Qed.
Lemma sim_arrivals_nodup : NoDup sim_arrivals.*1.
Proof. apply (bool_decide_unpack _). vm_compute. done. Qed.

Lemma frag_reass_roundtrip_witness :
  wp (reass_all sim_arrivals.*1) (fun os s' => idle s' /\ exists a, os = replicate (length sim_arrivals - 1) None ++ [Some a] /\
    delivered (mkDg (sim_hdr 20 0) sim_bytes) (pkts s') a) sim_idle.
Proof.
  refine (frag_reass_roundtrip _ _ _ (sim_netif 28) _ _ _ _ _ _ (sim_whole 10) _ _ _ _ sim_fragged_run _ sim_arrivals_sent sim_idle_idle
    _ sim_arrivals_held sim_arrivals_nodup _); try done; cbn; lia.
Defined.
