(* ===== verification/Ip4.v ===== *)
(** * The IP layer (lwip-2.0.3/src/core/ipv4/ip4.c)

    [ip4_input] checks a received packet, finds the interface that accepts it, passes
    fragments to [ip4_reass] and the payload to UDP, TCP or ICMP; [ip4_output] finds the
    interface for an address, writes the header and sends the packet, in fragments if it is
    longer than the MTU.  Reassembly and fragmentation are those of Ip4Reass.v and
    Ip4Frag.v.  What is below and above is in the classes [Ip4Api] and [Ip4OutApi].
    Configuration: no IGMP, no AutoIP, no loopback interface, no forwarding, no raw
    sockets, checksums by the hardware, DHCP on (so that packets to its port are accepted by
    their link-layer address).  *)
From stdpp Require Import list.
From S2P Require Import Prelude Ip4Addr Ip4Hdr Net Ip4Reass Ip4Frag.

Definition IP_PROTO_ICMP : Z := 1.
Definition IP_PROTO_UDP : Z := 17.
Definition IP_PROTO_TCP : Z := 6.
Definition DHCP_CLIENT_PORT : Z := 68.
Definition IP_ACCEPT_LINK_LAYER_ADDRESSED_PORT (port : Z) : bool := port =? PP_HTONS DHCP_CLIENT_PORT.

Record ip_globals := mkGlobals {
  current_netif : option Z; current_input_netif : option Z; current_ip4_header : option ip_hdr;
  current_ip_header_tot_len : Z; current_iphdr_src : Z; current_iphdr_dest : Z
}.
#[export] Instance ip_globals_eta : Eta ip_globals := fun g =>
  mkGlobals (current_netif g) (current_input_netif g) (current_ip4_header g)
    (current_ip_header_tot_len g) (current_iphdr_src g) (current_iphdr_dest g).
Definition no_globals : ip_globals := mkGlobals None None None 0 IPADDR_ANY IPADDR_ANY.

Record ip_sys (X : Type) := mkIp {
  ip_data : ip_globals; ip_id : Z; netif_list : list ip_netif; netif_default : option ip_netif;
  reass : reass_sys X
}.
Arguments mkIp {X}. Arguments ip_data {X}. Arguments ip_id {X}. Arguments netif_list {X}.
Arguments netif_default {X}. Arguments reass {X}.
#[export] Instance ip_sys_eta X : Eta (ip_sys X) := fun s =>
  mkIp (ip_data s) (ip_id s) (netif_list s) (netif_default s) (reass s).

(** *** Below and above *)
Class Ip4Api (X : Type) := {
  len_of : X -> Z -> Z;
  tot_len_of : X -> Z -> Z;
  udp_dest_at : X -> Z -> Z -> Z;              (** destination port behind a header of that length *)
  pbuf_realloc : Z -> Z -> M X unit;
  pbuf_header : Z -> Z -> M X bool;            (** [true]: refused *)
  pbuf_header_force : Z -> Z -> M X bool;
  payload_to_iphdr : Z -> M X unit;            (** [p->payload = iphdr] *)
  udp_input : ip_globals -> Z -> ip_netif -> M X unit;
  tcp_input : ip_globals -> Z -> ip_netif -> M X unit;
  icmp_input : ip_globals -> Z -> ip_netif -> M X unit;
  icmp_dest_unreach : Z -> M X unit
}.
Class Ip4OutApi (X : Type) := {
  reveal_header : Z -> M X bool                (** [pbuf_header(p, IP_HLEN)]; [true]: no room *)
}.

(** ** Which interface *)
Section Netif.
Variable dest : Z.

Definition netif_usable (n : ip_netif) : bool :=
  netif_is_up n && netif_is_link_up n && negb (nf_addr n =? IPADDR_ANY).
Fixpoint route_loop (l : list ip_netif) : option ip_netif :=
  match l with
  | [] => None
  | n :: l =>
      if netif_usable n then
        if ip4_addr_netcmp dest (nf_addr n) (nf_mask n) then Some n
        else if (Z.land (nf_flags n) NETIF_FLAG_BROADCAST =? 0) && (dest =? nf_gw n) then Some n
        else route_loop l
      else route_loop l
  end.
Definition ip4_route (nets : list ip_netif) (netif_default : option ip_netif) : option ip_netif :=
  match route_loop nets with
  | Some n => Some n
  | None => match netif_default with
            | Some n => if negb (netif_usable n) then None else Some n
            | None => None
            end
  end.

(** The interface takes packets to [dest]. *)
Definition accepts (n : ip_netif) : bool :=
  (netif_is_up n && negb (nf_addr n =? IPADDR_ANY)) &&
  ((dest =? nf_addr n) || ip4_addr_isbroadcast dest n).

(** [do ... while]: the rounds over [netif_list], [inp] left out. *)
Fixpoint match_loop (inp : ip_netif) (l : list ip_netif) : option ip_netif :=
  match l with
  | [] => None
  | n :: r =>
      if nf_num n =? nf_num inp then
        match r with
        | [] => None
        | n :: r => if accepts n then Some n else match_loop inp r
        end
      else if accepts n then Some n else match_loop inp r
  end.
Definition match_netif (inp : ip_netif) (nets : list ip_netif) : option ip_netif :=
  if ip4_addr_ismulticast dest then
    if netif_is_up inp && negb (nf_addr inp =? IPADDR_ANY) then Some inp else None
  else if accepts inp then Some inp
  else if ip4_addr_isloopback dest then None
  else match_loop inp nets.
End Netif.

(** ** Input *)
Section Input.
Context {X : Type} `{!ReassApi X, !Ip4Api X}.
#[local] Abbreviation MS := (M (ip_sys X)).

Definition on_reass {A} (m : M (reass_sys X) A) : MS A := fun s =>
  let '(a, r) := m (reass s) in (a, s <| reass := r |>).
Definition on_x {A} (m : M X A) : MS A := on_reass (on_mem m).
Definition getx {A} (f : X -> A) : MS A := gets (fun s => f (mem_of (reass s))).
Definition set_data (f : ip_globals -> ip_globals) : MS unit := modify (fun s => s <| ip_data := f (ip_data s) |>).
Definition drop_packet (p : Z) : MS Z := on_x (pbuf_free p) ;;; ret ERR_OK.

(** To the protocol of the header. *)
Definition deliver (p : Z) (iphdr : ip_hdr) (iphdr_hlen : Z) (inp netif : ip_netif) : MS unit :=
  on_x (pbuf_header p (- iphdr_hlen)) ;;;
  g <- gets ip_data ;;
  if IPH_PROTO iphdr =? IP_PROTO_UDP then on_x (udp_input g p inp)
  else if IPH_PROTO iphdr =? IP_PROTO_TCP then on_x (tcp_input g p inp)
  else if IPH_PROTO iphdr =? IP_PROTO_ICMP then on_x (icmp_input g p inp)
  else
    (if negb (ip4_addr_isbroadcast (current_iphdr_dest g) netif) &&
        negb (ip4_addr_ismulticast (current_iphdr_dest g))
     then on_x (pbuf_header_force p iphdr_hlen) ;;; on_x (payload_to_iphdr p) ;;; on_x (icmp_dest_unreach p)
     else ret tt) ;;;
    on_x (pbuf_free p).

(** The packet is for us, and whole. *)
Definition ip4_input_whole (p : Z) (iphdr : ip_hdr) (iphdr_hlen : Z) (inp netif : ip_netif) : MS Z :=
  set_data (fun g => g <| current_netif := Some (nf_num netif) |> <| current_input_netif := Some (nf_num inp) |>
    <| current_ip4_header := Some iphdr |> <| current_ip_header_tot_len := IPH_HL iphdr * 4 |>) ;;;
  deliver p iphdr iphdr_hlen inp netif ;;;
  set_data (fun _ => no_globals) ;;;
  ret ERR_OK.

(** The length checks: the packet is cut to the length in its header; [false]: malformed. *)
Definition ip4_input_trim (p iphdr_hlen iphdr_len : Z) : MS bool :=
  tot <- getx (fun x => tot_len_of x p) ;;
  (if iphdr_len <? tot then on_x (pbuf_realloc p iphdr_len) else ret tt) ;;;
  len <- getx (fun x => len_of x p) ;;
  tot <- getx (fun x => tot_len_of x p) ;;
  ret (negb ((len <? iphdr_hlen) || (tot <? iphdr_len) || (iphdr_hlen <? IP_HLEN))).

(** The interface for the packet, and whether to check its source. *)
Definition ip4_input_netif (p : Z) (iphdr : ip_hdr) (iphdr_hlen : Z) (inp : ip_netif) : MS (option ip_netif * bool) :=
  nets <- gets netif_list ;;
  let netif := match_netif (iph_dest iphdr) inp nets in
  port <- getx (fun x => udp_dest_at x p iphdr_hlen) ;;
  match netif with
  | Some n => ret (Some n, true)
  | None => ret (if (IPH_PROTO iphdr =? IP_PROTO_UDP) && IP_ACCEPT_LINK_LAYER_ADDRESSED_PORT port
                 then (Some inp, false) else (None, true))
  end.

Definition ip4_input (p : Z) (inp : ip_netif) : MS Z :=
  iphdr <- getx (fun x => iph_of x p) ;;
  if negb (IPH_V iphdr =? 4) then drop_packet p else
  let iphdr_hlen := u16 (IPH_HL iphdr * 4) in
  let iphdr_len := lwip_htons (IPH_LEN iphdr) in
  ok <- ip4_input_trim p iphdr_hlen iphdr_len ;;
  if negb (ok : bool) then drop_packet p else
  set_data (fun g => g <| current_iphdr_dest := iph_dest iphdr |> <| current_iphdr_src := iph_src iphdr |>) ;;;
  n <- ip4_input_netif p iphdr iphdr_hlen inp ;;
  let '(netif, check_ip_src) := n in
  if (check_ip_src && negb (iph_src iphdr =? IPADDR_ANY)) &&
     (ip4_addr_isbroadcast (iph_src iphdr) inp || ip4_addr_ismulticast (iph_src iphdr))
  then drop_packet p else
  match netif with
  | None => drop_packet p
  | Some netif =>
      if negb (Z.land (IPH_OFFSET iphdr) (PP_HTONS (Z.lor IP_OFFMASK IP_MF)) =? 0) then
        q <- on_reass (ip4_reass p) ;;
        match q with
        | None => ret ERR_OK
        | Some q =>
            iphdr <- getx (fun x => iph_of x q) ;;
            ip4_input_whole q iphdr iphdr_hlen inp netif
        end
      else ip4_input_whole p iphdr iphdr_hlen inp netif
  end.
End Input.

(** ** Output *)
Section Output.
Context {X : Type} `{!FragApi X, !Ip4OutApi X}.
#[local] Abbreviation MS := (M (ip_sys X)).

Definition new_hdr (ttl tos proto tot_len id src dest : Z) : ip_hdr :=
  mkIph (u8 (Z.lor (Z.shiftl 4 4) (IP_HLEN / 4))) tos (lwip_htons tot_len) (lwip_htons id) 0 (u8 ttl) (u8 proto) 0 src dest.

(** [dest] is [None] for [LWIP_IP_HDRINCL]: the packet has its header already. *)
Definition ip4_output_if_src (p : Z) (src dest : option Z) (ttl tos proto : Z) (netif : ip_netif) : MS (option Z) :=
  d <- match dest with
       | Some dest =>
           full <- on_x (reveal_header p) ;;
           if full : bool then ret None else
           n <- getx (fun x => p_tot_len x p) ;;
           id <- gets ip_id ;;
           on_x (header_put p (new_hdr ttl tos proto n id (match src with Some a => a | None => IPADDR_ANY end) dest)) ;;;
           modify (fun s => s <| ip_id := u16 (ip_id s + 1) |>) ;;;
           ret (Some dest)
       | None => h <- getx (fun x => payload_hdr x p) ;; ret (Some (iph_dest h))
       end ;;
  match d with
  | None => ret (Some ERR_BUF)
  | Some dest =>
      n <- getx (fun x => p_tot_len x p) ;;
      if negb (nf_mtu netif =? 0) && (nf_mtu netif <? n) then on_x (ip4_frag p netif dest)
      else e <- on_x (netif_output netif p dest) ;; ret (Some e)
  end.

Definition ip4_addr_isany (a : option Z) : bool := match a with None => true | Some a => a =? IPADDR_ANY end.

Definition ip4_output_if (p : Z) (src dest : option Z) (ttl tos proto : Z) (netif : ip_netif) : MS (option Z) :=
  let src_used := match dest with
                  | Some _ => if ip4_addr_isany src then Some (nf_addr netif) else src
                  | None => src
                  end in
  ip4_output_if_src p src_used dest ttl tos proto netif.

(** The route needs the destination: [dest] is not [LWIP_IP_HDRINCL] here. *)
Definition ip4_output (p : Z) (src : option Z) (dest : Z) (ttl tos proto : Z) : MS (option Z) :=
  nets <- gets netif_list ;;
  def <- gets netif_default ;;
  match ip4_route dest nets def with
  | None => ret (Some ERR_RTE)
  | Some netif => ip4_output_if p src (Some dest) ttl tos proto netif
  end.
End Output.
