(* ===== verification/Icmp.v ===== *)
(** * ICMP (lwip-2.0.3/src/core/ipv4/icmp.c)

    Echo requests are answered, in place or in a copy with room for the link header; all other
    messages are dropped.  The errors that the IP layer and UDP send: destination unreachable,
    time exceeded.  The pbufs are those of Pbuf.v; [ip4_output_if] is the class [IcmpLower].
    Configuration: CHECKSUM_CHECK_ICMP on, checksums of what is sent left to the hardware, no
    answers to broadcast or multicast pings. *)
From stdpp Require Import gmap.
From S2P Require Import Prelude Ip4Addr Ip4Hdr Net Ip4 Pbuf PbufCopy Chksum.

Definition ICMP_ER : Z := 0.
Definition ICMP_DUR : Z := 3.
Definition ICMP_ECHO : Z := 8.
Definition ICMP_TE : Z := 11.
Definition SIZEOF_ICMP_ECHO_HDR : Z := 8.
Definition PBUF_LINK_HLEN : Z := 14.
Definition ICMP_TTL : Z := 255.
Definition ICMP_DEST_UNREACH_DATASIZE : Z := 8.

(** [p], source, destination ([None]: the header is there already), TTL, TOS, protocol. *)
Class IcmpLower (A : Type) := {
  ip4_output_if : Z -> option Z -> option Z -> Z -> Z -> Z -> ip_netif -> P A Z
}.

(** What IP tells about the packet ([ip_data]): where its header is, the addresses, the
    interface, the length of the header. *)
Record ip_ctx := mkCtx { iphdr_in : Z; cur_src : Z; cur_dest : Z; cur_netif : ip_netif; cur_hdr_len : Z }.

Section Code.
Context {A : Type} `{!PbufAlloc A, !IcmpLower A}.

Definition peek (a : Z) : P A Z := reading (fun _ m => Some (m a)).
Definition poke (a : Z) (d : list Z) : P A unit := writing (fun _ m => Some (tt, mem_write m a d)).
Definition memcpy (dst src n : Z) : P A unit :=
  writing (fun _ m => Some (tt, mem_write m dst (mem_read m src (Z.to_nat n)))).
Definition drop_icmp (p : Z) : P A unit := pbuf_free (Some p);; mret tt.

(** *** The echo reply *)

(** A pbuf with the request and room in front: [p] itself or a copy; [None]: [p] stays. *)
Definition echo_copy (c : ip_ctx) (p hlen : Z) : P A (option Z) :=
  b ← getp p;
  r ← pbuf_alloc PBUF_LINK (u16 (tot_len b + hlen)) PBUF_RAM;
  match r with
  | None => mret None
  | Some r =>
      br ← getp r;
      if len br <? hlen + SIZEOF_ICMP_ECHO_HDR then pbuf_free (Some r);; mret None else
      memcpy (payload br) (iphdr_in c) hlen;;
      e ← pbuf_header r (- hlen);
      if negb (e =? 0) then pbuf_free (Some r);; mret None else
      e ← writing (fun h m => pbuf_copy h m (Some r) (Some p));
      if negb (e =? ERR_OK) then pbuf_free (Some r);; mret None else
      pbuf_free (Some p);;
      mret (Some r)
  end.
Definition echo_buffer (c : ip_ctx) (p hlen : Z) : P A (option Z) :=
  e ← pbuf_header p (hlen + PBUF_LINK_HLEN);
  if negb (e =? 0) then echo_copy c p hlen
  else
    e ← pbuf_header p (- (hlen + PBUF_LINK_HLEN));
    mret (if negb (e =? 0) then None else Some p).

Definition echo_reply (c : ip_ctx) (p hlen : Z) (inp : ip_netif) : P A unit :=
  b ← getp p;
  let iecho := payload b in
  e ← pbuf_header p hlen;
  if negb (e =? 0) then mret tt else
  b ← getp p;
  let iphdr := payload b in
  poke (iphdr + 12) (le32_bytes (cur_dest c));;
  poke (iphdr + 16) (le32_bytes (cur_src c));;
  poke iecho [ICMP_ER];;
  poke (iecho + 2) [0; 0];;
  poke (iphdr + 8) [ICMP_TTL];;
  poke (iphdr + 10) [0; 0];;
  ip4_output_if p (Some (cur_dest c)) None ICMP_TTL 0 IP_PROTO_ICMP inp;;
  mret tt.

Definition icmp_echo (c : ip_ctx) (p hlen : Z) (inp : ip_netif) : P A unit :=
  if ip4_addr_ismulticast (cur_dest c) then drop_icmp p else
  if ip4_addr_isbroadcast (cur_dest c) (cur_netif c) then drop_icmp p else
  b ← getp p;
  if tot_len b <? SIZEOF_ICMP_ECHO_HDR then drop_icmp p else
  ck ← reading (fun h m => inet_chksum_pbuf h m (Some p));
  if negb (ck =? 0) then drop_icmp p else
  q ← echo_buffer c p hlen;
  match q with
  | None => drop_icmp p
  | Some p => echo_reply c p hlen inp;; drop_icmp p
  end.

Definition icmp_input (c : ip_ctx) (p : Z) (inp : ip_netif) : P A unit :=
  v_hl ← peek (iphdr_in c);
  let hlen := u16 (Z.land v_hl 0x0f * 4) in
  if hlen <? IP_HLEN then drop_icmp p else
  b ← getp p;
  if len b <? 4 then drop_icmp p else
  type ← peek (payload b);
  if type =? ICMP_ER then drop_icmp p
  else if type =? ICMP_ECHO then icmp_echo c p hlen inp
  else drop_icmp p.

(** *** Errors *)
Definition icmp_send_response (nets : list ip_netif) (def : option ip_netif) (p type code : Z) : P A unit :=
  q ← pbuf_alloc PBUF_IP (SIZEOF_ICMP_ECHO_HDR + IP_HLEN + ICMP_DEST_UNREACH_DATASIZE) PBUF_RAM;
  match q with
  | None => mret tt
  | Some q =>
      b ← getp p;
      bq ← getp q;
      poke (payload bq) [type; code];;
      poke (payload bq + 4) [0; 0];;
      poke (payload bq + 6) [0; 0];;
      memcpy (payload bq + SIZEOF_ICMP_ECHO_HDR) (payload b) (IP_HLEN + ICMP_DEST_UNREACH_DATASIZE);;
      a ← reading (fun _ m => Some (le32 (m (payload b + 12)) (m (payload b + 13)) (m (payload b + 14)) (m (payload b + 15))));
      (match ip4_route a nets def with
       | Some netif =>
           poke (payload bq + 2) [0; 0];;
           ip4_output_if q None (Some a) ICMP_TTL 0 IP_PROTO_ICMP netif;; mret tt
       | None => mret tt
       end);;
      drop_icmp q
  end.
Definition icmp_dest_unreach nets def (p t : Z) : P A unit := icmp_send_response nets def p ICMP_DUR t.
Definition icmp_time_exceeded nets def (p t : Z) : P A unit := icmp_send_response nets def p ICMP_TE t.
End Code.

(** ** Runs of the pbuf functions *)
Section Runs.
Context {A : Type} `{!PbufAlloc A}.
Implicit Types (s : pstate A) (b : pbuf_t).

Definition moved (k : Z) b : pbuf_t := set_lens (tot_len b - k) (len b - k) (set_payload (payload b + k) b).
Definition with_mem (m : mem) s : pstate A := mkPs (pbs s) m (palloc s).

Lemma header_hide s p b k : pbs s !! p = Some b -> 0 < k <= len b -> len b <= tot_len b < 65536 ->
  (in_ram b -> p + SIZEOF_STRUCT_PBUF <= payload b) -> pbuf_header p (- k) s = Some (0, with_pbuf p (moved k b) (palloc s) s).
Proof.
  intros Eb Hk Hl Hp. unfold pbuf_header, pbuf_header_impl. rewrite (proj2 (Z.eqb_neq (- k) 0)) by lia.
  unfold mbind, P_bind, getp. rewrite Eb. cbn [mbind option_bind].
  rewrite (proj2 (Z.ltb_ge (len b) (- - k))), andb_false_r by lia.
  rewrite (proj2 (Z.ltb_lt (- k) 0)), (proj2 (Z.leb_le (- - k) (len b))) by lia. cbn [andb orb].
  unfold setp, moved, with_pbuf. rewrite !u16_small by lia. rewrite !Z.add_opp_r, Z.sub_opp_r.
  unfold in_ram in Hp. destruct (ptype b); try done; (rewrite (proj2 (Z.ltb_ge (payload b + k) _)); [done|]);
    [specialize (Hp ltac:(by left))|specialize (Hp ltac:(by right))]; lia.
Qed.
Lemma header_show s p b k : pbs s !! p = Some b -> in_ram b -> 0 < k -> 0 <= len b <= tot_len b -> tot_len b + k < 65536 ->
  p + SIZEOF_STRUCT_PBUF <= payload b - k -> pbuf_header p k s = Some (0, with_pbuf p (moved (- k) b) (palloc s) s).
Proof.
  intros Eb Ht Hk Hl Hs Hp. unfold pbuf_header, pbuf_header_impl. rewrite (proj2 (Z.eqb_neq k 0)) by lia.
  unfold mbind, P_bind, getp. rewrite Eb. cbn [mbind option_bind].
  rewrite (proj2 (Z.ltb_ge k 0)) by lia. cbn [andb]. unfold setp, moved, with_pbuf.
  rewrite !u16_small by lia. rewrite !Z.sub_opp_r, Z.add_opp_r.
  destruct Ht as [-> | ->]; by rewrite (proj2 (Z.ltb_ge (payload b - k) _)) by lia.
Qed.
(** No headers in front of memory that is not the pbuf's own. *)
Lemma header_ref s p b k : pbs s !! p = Some b -> ptype b = PBUF_REF -> 0 < k -> pbuf_header p k s = Some (1, s).
Proof.
  intros Eb Ht Hk. unfold pbuf_header, pbuf_header_impl. rewrite (proj2 (Z.eqb_neq k 0)) by lia.
  unfold mbind, P_bind, getp. rewrite Eb. cbn [mbind option_bind].
  rewrite (proj2 (Z.ltb_ge k 0)), Ht by lia. cbn [andb orb]. by rewrite andb_false_r.
Qed.
Lemma moved_back k b : moved (- k) (moved k b) = b.
Proof. destruct b as [n a t x y f r]. unfold moved, set_lens, set_payload. cbn [next payload tot_len len ptype flags pref]. f_equal; ring. Qed.
Lemma bind_run {X Y} (f : P A X) (g : X -> P A Y) s x s' : f s = Some (x, s') -> (f ≫= g) s = g x s'.
Proof. intros E. unfold mbind, P_bind. by rewrite E. Qed.
Lemma bind_cong {X Y} (f f' : P A X) (g : X -> P A Y) s s' : f s = f' s' -> (f ≫= g) s = (f' ≫= g) s'.
Proof. intros E. unfold mbind, P_bind. by rewrite E. Qed.
Lemma bind_skip {X Y} (f : P A X) (g : P A Y) s : ((f ≫= fun _ => mret tt) ≫= fun _ => g) s = (f ≫= fun _ => g) s.
Proof. unfold mbind, P_bind. by destruct (f s) as [[x s']|]. Qed.
Lemma getp_run s p b : pbs s !! p = Some b -> getp p s = Some (b, s).
Proof. intros E. unfold getp. by rewrite E. Qed.
End Runs.

(** ** The reply *)
Section Reply.
Context {A : Type} `{!PbufAlloc A, !IcmpLower A}.
Implicit Types (s : pstate A) (b : pbuf_t) (l : list (Z * pbuf_t)).

(** Header and message of the reply from those of the request. *)
Definition reply_hdr (c : ip_ctx) (H : list Z) : list Z :=
  patch 10 [0; 0] (patch 8 [ICMP_TTL] (patch 16 (le32_bytes (cur_src c)) (patch 12 (le32_bytes (cur_dest c)) H))).
Definition reply_msg (C : list Z) : list Z := patch 2 [0; 0] (patch 0 [ICMP_ER] C).

Definition reply_mem (c : ip_ctx) (a hlen : Z) (m : mem) : mem :=
  let m := mem_write m (a + 12) (le32_bytes (cur_dest c)) in
  let m := mem_write m (a + 16) (le32_bytes (cur_src c)) in
  let m := mem_write m (a + hlen) [ICMP_ER] in
  let m := mem_write m (a + hlen + 2) [0; 0] in
  let m := mem_write m (a + 8) [ICMP_TTL] in
  mem_write m (a + 10) [0; 0].

Lemma reply_mem_read c a m H C : IP_HLEN <= slen H -> SIZEOF_ICMP_ECHO_HDR <= slen C ->
  mem_read m a (length (H ++ C)) = H ++ C ->
  mem_read (reply_mem c a (slen H) m) a (length (H ++ C)) = reply_hdr c H ++ reply_msg C.
Proof.
  unfold IP_HLEN, SIZEOF_ICMP_ECHO_HDR. intros Hh Hc E. unfold reply_mem.
  assert (L : Z.of_nat (length (H ++ C)) = slen H + slen C) by apply slen_app.
  replace (a + slen H + 2) with (a + (slen H + 2)) by lia.
  set (d := le32_bytes (cur_dest c)). set (r := le32_bytes (cur_src c)).
  assert (Ld : slen d = 4) by done. assert (Lr : slen r = 4) by done. assert (L2 : slen [0; 0] = 2) by done.
  assert (L1 : slen [ICMP_TTL] = 1) by done.
  assert (L0 : slen [ICMP_ER] = 1) by done.
  rewrite !read_patch, E by lia.
  assert (P1 : slen (patch 12 d H) = slen H) by (apply patch_length; lia).
  assert (P2 : slen (patch 16 r (patch 12 d H)) = slen H) by (rewrite patch_length; lia).
  assert (P3 : slen (patch 8 [ICMP_TTL] (patch 16 r (patch 12 d H))) = slen H) by (rewrite patch_length; lia).
  assert (R : forall k e t, 0 <= k -> patch (slen H + k) e (patch 16 r (patch 12 d H) ++ t) = patch 16 r (patch 12 d H) ++ patch k e t).
  { intros k e t Hk. rewrite <- P2 at 1. by apply patch_right. }
  rewrite (patch_left 12), (patch_left 16) by lia. replace (patch (slen H) [ICMP_ER]) with (patch (slen H + 0) [ICMP_ER]) by (f_equal; lia).
  rewrite (R 0), (R 2), (patch_left 8), (patch_left 10) by lia. done.
Qed.

Lemma echo_reply_run s c r b hlen inp : pbs s !! r = Some b -> in_ram b -> 0 < hlen ->
  0 <= len b <= tot_len b -> tot_len b + hlen < 65536 -> r + SIZEOF_STRUCT_PBUF <= payload b - hlen ->
  echo_reply c r hlen inp s =
  (ip4_output_if r (Some (cur_dest c)) None ICMP_TTL 0 IP_PROTO_ICMP inp ≫= fun _ => mret tt)
    (with_mem (reply_mem c (payload b - hlen) hlen (pdata s)) (with_pbuf r (moved (- hlen) b) (palloc s) s)).
Proof.
  intros Eb Ht Hh Hl Hs Hp. unfold echo_reply. rewrite (bind_run _ _ _ _ _ (getp_run s r b Eb)).
  rewrite (bind_run _ _ _ _ _ (header_show s r b hlen Eb Ht Hh Hl Hs Hp)). cbn [Z.eqb negb].
  rewrite (bind_run _ _ _ _ _ (getp_run (with_pbuf r _ _ s) r _ (lookup_insert_eq _ _ _))).
  cbn [moved payload set_lens set_payload]. replace (payload b + - hlen) with (payload b - hlen) by lia.
  replace (payload b + 2) with (payload b - hlen + hlen + 2) by lia.
  replace (poke (payload b) [ICMP_ER]) with (poke (payload b - hlen + hlen) [ICMP_ER] : P A unit) by (f_equal; lia).
  reflexivity.
Qed.

(** A copy of the request with its header in front. *)
Lemma echo_copy_run s c p b l hlen r a : let total := sum_len ((p, b) :: l) + hlen in let br := ram_pbuf PBUF_LINK total r in
  packet (pbs s) (Some p) ((p, b) :: l) -> filled l -> refs_ok ((p, b) :: l) -> 0 < hlen ->
  SIZEOF_ICMP_ECHO_HDR <= sum_len ((p, b) :: l) -> ram_size PBUF_LINK total < 65536 ->
  mem_malloc (ram_size PBUF_LINK total) (palloc s) = (Some r, a) ->
  pbs s !! r = None -> clear_of (payload br) total ((p, b) :: l) ->
  exists s', echo_copy c p hlen s = Some (Some r, s') /\
    pbs s' = freed_heap (<[r := moved hlen br]> (pbs s)) ((p, b) :: l) /\
    forall x, pdata s' x = mem_write (pdata s) (payload br)
      (mem_read (pdata s) (iphdr_in c) (Z.to_nat hlen) ++ contents (pdata s) ((p, b) :: l)) x.
Proof.
  intros total br Hp Hf Hr Hh H8 Hsz Em Er Hc. pose proof Hp as (Hch & Hok & _).
  pose proof (packet_cons _ _ _ _ _ Hp) as (_ & Eb & _ & _ & Et & _).
  assert (En : tot_len b + hlen = total) by (unfold total; cbn [sum_len]; lia).
  pose proof (align_bounds total) as B. pose proof (align_bounds (SIZEOF_STRUCT_PBUF + header_offset PBUF_LINK)) as B2.
  unfold SIZEOF_ICMP_ECHO_HDR in *. unfold ram_size in Hsz. cbn [header_offset] in B2. unfold SIZEOF_STRUCT_PBUF in B2.
  assert (T : 0 <= total < 65536) by (unfold SIZEOF_STRUCT_PBUF in Hsz; cbn [header_offset] in Hsz; lia).
  unfold echo_copy. rewrite (bind_run _ _ _ _ _ (getp_run s p b Eb)), En, u16_small by done.
  erewrite bind_run by (rewrite alloc_ram_spec by (unfold ram_size; lia); by rewrite Em). cbv beta iota. fold br.
  set (s1 := with_pbuf r br a s). assert (E1 : pbs s1 !! r = Some br) by apply lookup_insert_eq.
  rewrite (bind_run _ _ _ _ _ (getp_run s1 r br E1)). change (len br) with total.
  rewrite (proj2 (Z.ltb_ge total _)) by (unfold SIZEOF_ICMP_ECHO_HDR, total; lia). unfold memcpy.
  set (H := mem_read (pdata s) (iphdr_in c) (Z.to_nat hlen)).
  assert (LH : slen H = hlen) by (unfold slen, H; rewrite mem_read_length; lia).
  erewrite bind_run by reflexivity. cbn [mbind option_bind pbs pdata palloc s1 with_pbuf]. fold H.
  set (s2 := mkPs _ _ _). assert (Hpay : r + SIZEOF_STRUCT_PBUF <= payload br).
  { cbn [payload br ram_pbuf header_offset]. pose proof (align_bounds (r + SIZEOF_STRUCT_PBUF + 14)). lia. }
  rewrite (bind_run _ _ _ _ _ (header_hide s2 r br hlen E1 ltac:(cbn; lia) ltac:(cbn; lia) (fun _ => Hpay))).
  cbn [Z.eqb negb]. set (bm := moved hlen br). set (s3 := with_pbuf r bm (palloc s2) s2).
  assert (E3 : pbs s3 = <[r := bm]> (pbs s)) by apply insert_insert_eq.
  assert (Lbm : len bm = sum_len ((p, b) :: l)) by (cbn [bm moved set_lens set_payload len br ram_pbuf]; unfold total; lia).
  assert (P1 : packet (pbs s3) (Some r) [(r, bm)]).
  { rewrite E3. split; [split; [done|split; [apply lookup_insert_eq|done]]|]. cbn [lens_ok sum_len]. rewrite Lbm. cbn. lia. }
  assert (P2 : packet (pbs s3) (Some p) ((p, b) :: l)) by (rewrite E3; by apply (packet_insert s r bm a)).
  destruct (copy_single (pbs s3) (pdata s3) r bm (Some p) ((p, b) :: l)) as (m' & Ec & Hm'); [done|done|done|done|lia| |].
  { eapply clear_less; [exact Hc|cbn; lia..]. }
  erewrite bind_run by (unfold writing; rewrite Ec; reflexivity). cbn [Z.eqb negb ERR_OK].
  destruct (free_spec (mkPs (pbs s3) m' (palloc s3)) (Some p) ((p, b) :: l)) as (al & Ef & _); [apply P2|done|].
  rewrite (bind_run _ _ _ _ _ Ef). eexists. split; [reflexivity|]. cbn [pbs pdata]. split; [by rewrite E3|].
  intros x. rewrite Hm'. cbn [pdata s3 with_pbuf s2]. rewrite clear_contents with (n := total); [|done|done|lia].
  rewrite <- write_twice, LH. done.
Qed.

Lemma freed_insert (h : gmap Z pbuf_t) l r b : r ∉ map fst l -> freed_heap (<[r := b]> h) l = <[r := b]> (freed_heap h l).
Proof.
  revert h. induction l as [|[a x] l IH]; intros h H; cbn [freed_heap]; [done|]. cbn [map fst] in H.
  apply not_elem_of_cons in H as [H1 H2]. destruct (pref x =? 1).
  - rewrite delete_insert_ne by done. by apply IH.
  - by apply insert_insert_ne.
Qed.
Lemma fresh_notin h p l r : chain h p l -> h !! r = None -> r ∉ map fst l.
Proof.
  intros Hc Hr Hin. apply list_elem_of_fmap in Hin as ([r' b'] & E & Hin). cbn in E. subst r'.
  by rewrite (chain_lookup _ _ _ _ _ Hc Hin) in Hr.
Qed.

(** The length of the IP header, and the messages that are answered. *)
Definition hdr_len (c : ip_ctx) (m : mem) : Z := Z.land (m (iphdr_in c)) 0x0f * 4.
Definition echo_request (c : ip_ctx) (m : mem) (b : pbuf_t) (C : list Z) : bool :=
  (IP_HLEN <=? hdr_len c m) && (4 <=? len b) && (m (payload b) =? ICMP_ECHO) &&
  negb (ip4_addr_ismulticast (cur_dest c)) && negb (ip4_addr_isbroadcast (cur_dest c) (cur_netif c)) &&
  (SIZEOF_ICMP_ECHO_HDR <=? slen C) && (rfc1071 C =? 0).

Lemma icmp_hlen_range c m : 0 <= hdr_len c m <= 60.
Proof. unfold hdr_len. change 0x0f with (Z.ones 4). rewrite Z.land_ones by lia. Z.to_euclidean_division_equations. lia. Qed.
Lemma htons_zero x : 0 <= x < 65536 -> (lwip_htons x =? 0) = (x =? 0).
Proof.
  intros H. rewrite htons_swap, swap_split by done.
  destruct (Z.eqb_spec x 0) as [->|N]; [done|]. apply Z.eqb_neq. Z.to_euclidean_division_equations. lia.
Qed.

(** Up to the copy. *)
Lemma input_run s c p b l inp : (forall x, is_byte (pdata s x)) -> packet (pbs s) (Some p) ((p, b) :: l) ->
  icmp_input c p inp s =
  if echo_request c (pdata s) b (contents (pdata s) ((p, b) :: l)) then
    (echo_buffer c p (hdr_len c (pdata s)) ≫= fun q => match q with
       | None => drop_icmp p
       | Some p => echo_reply c p (hdr_len c (pdata s)) inp;; drop_icmp p
       end) s
  else drop_icmp p s.
Proof.
  intros Hm Hp. pose proof Hp as (_ & Hok & _). pose proof (packet_cons _ _ _ _ _ Hp) as (_ & Eb & _ & _ & Et & _).
  unfold icmp_input, echo_request. erewrite bind_run by reflexivity. fold (hdr_len c (pdata s)).
  pose proof (icmp_hlen_range c (pdata s)) as R. rewrite u16_small by lia. rewrite Z.ltb_antisym.
  destruct (IP_HLEN <=? hdr_len c (pdata s)); cbn [negb andb]; [|done].
  rewrite (bind_run _ _ _ _ _ (getp_run s p b Eb)), Z.ltb_antisym. destruct (4 <=? len b); cbn [negb andb]; [|done].
  erewrite bind_run by reflexivity. destruct (Z.eqb_spec (pdata s (payload b)) ICMP_ER) as [->|_]; [done|].
  destruct (pdata s (payload b) =? ICMP_ECHO); cbn [andb]; [|done]. unfold icmp_echo.
  destruct (ip4_addr_ismulticast (cur_dest c)); cbn [negb andb]; [done|].
  destruct (ip4_addr_isbroadcast (cur_dest c) (cur_netif c)); cbn [negb andb]; [done|].
  rewrite (bind_run _ _ _ _ _ (getp_run s p b Eb)), Z.ltb_antisym.
  assert (Es : tot_len b = slen (contents (pdata s) ((p, b) :: l))).
  { unfold slen. rewrite contents_length by done. exact Et. }
  rewrite Es. destruct (SIZEOF_ICMP_ECHO_HDR <=? _); cbn [negb andb]; [|done].
  erewrite bind_run by (unfold reading; rewrite (chksum_pbuf_spec (pdata s) Hm _ _ _ Hp); reflexivity).
  rewrite htons_zero by apply rfc1071_range, contents_bytes, Hm. by destruct (_ =? 0).
Qed.
Lemma echo_copy_none s c p b hlen a : pbs s !! p = Some b -> 0 <= tot_len b + hlen < 65536 ->
  ram_size PBUF_LINK (tot_len b + hlen) < 65536 ->
  mem_malloc (ram_size PBUF_LINK (tot_len b + hlen)) (palloc s) = (None, a) ->
  echo_copy c p hlen s = Some (None, mkPs (pbs s) (pdata s) a).
Proof.
  intros Eb Hn Hs Em. unfold echo_copy. rewrite (bind_run _ _ _ _ _ (getp_run s p b Eb)), u16_small by done.
  erewrite bind_run by (rewrite alloc_ram_spec by (done || lia); by rewrite Em). done.
Qed.
Lemma ram_total n : 0 <= n -> ram_size PBUF_LINK n < 65536 -> n < 65536.
Proof.
  intros H Hs. pose proof (align_bounds n). unfold ram_size in Hs.
  pose proof (align_bounds (SIZEOF_STRUCT_PBUF + header_offset PBUF_LINK)). unfold SIZEOF_STRUCT_PBUF in *. cbn [header_offset] in *. lia.
Qed.

(** The reply from the copy. *)
Lemma reply_sent s c r H C inp h : let n := slen H + slen C in let br := ram_pbuf PBUF_LINK n r in
  IP_HLEN <= slen H -> SIZEOF_ICMP_ECHO_HDR <= slen C -> n < 65536 ->
  pbs s = <[r := moved (slen H) br]> h -> mem_read (pdata s) (payload br) (length (H ++ C)) = H ++ C ->
  exists s1, (echo_reply c r (slen H) inp;; drop_icmp r) s =
      (ip4_output_if r (Some (cur_dest c)) None ICMP_TTL 0 IP_PROTO_ICMP inp ≫= fun _ => drop_icmp r) s1 /\
    pbs s1 = <[r := br]> h /\ packet (pbs s1) (Some r) [(r, br)] /\
    contents (pdata s1) [(r, br)] = reply_hdr c H ++ reply_msg C.
Proof.
  intros n br Hh Hc Hn Eh Ed. unfold IP_HLEN in Hh. assert (Er : pbs s !! r = Some (moved (slen H) br)) by (rewrite Eh; apply lookup_insert_eq).
  assert (Hp : r + SIZEOF_STRUCT_PBUF <= payload br).
  { cbn [payload br ram_pbuf header_offset]. pose proof (align_bounds (r + SIZEOF_STRUCT_PBUF + 14)). lia. }
  unfold SIZEOF_ICMP_ECHO_HDR in *.
  assert (E : echo_reply c r (slen H) inp s =
    (ip4_output_if r (Some (cur_dest c)) None ICMP_TTL 0 IP_PROTO_ICMP inp ≫= fun _ => mret tt)
    (with_mem (reply_mem c (payload br) (slen H) (pdata s)) (with_pbuf r br (palloc s) s))).
  { pose proof (echo_reply_run s c r _ (slen H) inp Er (or_introl eq_refl)) as E. rewrite moved_back in E.
    cbn [moved payload len tot_len set_lens set_payload] in E.
    replace (payload br + slen H - slen H) with (payload br) in E by lia.
    change (len br) with n in E. change (tot_len br) with n in E. subst n. apply E; (done || lia). }
  eexists. split; [|split; [|split]].
  - etransitivity; [apply (bind_cong _ _ _ _ _ E)|apply bind_skip].
  - cbn [pbs with_mem with_pbuf]. rewrite Eh. apply insert_insert_eq.
  - cbn [pbs with_mem]. apply (ram_packet s r PBUF_LINK n (palloc s)). unfold n. lia.
  - cbn [contents map concat pdata with_mem]. rewrite app_nil_r. unfold body. cbn [snd].
    assert (L : Z.to_nat (len br) = length (H ++ C)) by (rewrite length_app; cbn [len br ram_pbuf]; unfold n, slen; lia).
    rewrite L. by apply reply_mem_read.
Qed.
End Reply.

(** C33. A message in a receive buffer is answered exactly when it is an echo request
    with a correct RFC 1071 checksum that was not sent to a group or a broadcast
    address, and memory for the reply is left: the one packet given to IP then has the
    addresses exchanged, type echo reply and otherwise the bytes of the request; the
    request is freed, and the reply after it was sent. Everything else is freed and
    changes nothing. *)
Theorem icmp_input_exact {A} `{!PbufAlloc A, !IcmpLower A} (s : pstate A) c p b l inp :
  let request := (p, b) :: l in let C := contents (pdata s) request in let hlen := hdr_len c (pdata s) in
  let total := sum_len request + hlen in
  (forall x, is_byte (pdata s x)) -> packet (pbs s) (Some p) request -> filled l -> refs_ok request ->
  ptype b = PBUF_REF -> ram_size PBUF_LINK total < 65536 ->
  (forall r a, mem_malloc (ram_size PBUF_LINK total) (palloc s) = (Some r, a) ->
     pbs s !! r = None /\ clear_of (payload (ram_pbuf PBUF_LINK total r)) total request) ->
  if echo_request c (pdata s) b C then
    match mem_malloc (ram_size PBUF_LINK total) (palloc s) with
    | (None, a) => icmp_input c p inp s = drop_icmp p (mkPs (pbs s) (pdata s) a)
    | (Some r, a) => let br := ram_pbuf PBUF_LINK total r in
        exists s1, icmp_input c p inp s =
            (ip4_output_if r (Some (cur_dest c)) None ICMP_TTL 0 IP_PROTO_ICMP inp ≫= fun _ => drop_icmp r) s1 /\
          pbs s1 = <[r := br]> (freed_heap (pbs s) request) /\ packet (pbs s1) (Some r) [(r, br)] /\
          contents (pdata s1) [(r, br)] = reply_hdr c (mem_read (pdata s) (iphdr_in c) (Z.to_nat hlen)) ++ reply_msg C
    end
  else icmp_input c p inp s = drop_icmp p s.
Proof.
  intros request C hlen total Hm Hp Hf Hr Ht Hsz Hma. subst request C. rewrite (input_run s c p b l inp Hm Hp). fold hlen.
  destruct (echo_request _ _ _ _) eqn:Ee; [|done]. unfold echo_request in Ee. rewrite !andb_true_iff, !Z.leb_le in Ee.
  destruct Ee as ((((((Hh & _) & _) & _) & _) & H8) & _). fold hlen in Hh. pose proof Hp as (Hc & Hok & _).
  pose proof (packet_cons _ _ _ _ _ Hp) as (_ & Eb & _).
  assert (Es : slen (contents (pdata s) ((p, b) :: l)) = sum_len ((p, b) :: l)) by by apply contents_length.
  rewrite Es in H8. unfold SIZEOF_ICMP_ECHO_HDR, IP_HLEN in *. pose proof (icmp_hlen_range c (pdata s)) as Rh. fold hlen in Rh.
  assert (B : echo_buffer c p hlen s = echo_copy c p hlen s).
  { unfold echo_buffer. rewrite (bind_run _ _ _ _ _ (header_ref s p b (hlen + PBUF_LINK_HLEN) Eb Ht ltac:(unfold PBUF_LINK_HLEN; lia))). done. }
  assert (En : tot_len b + hlen = total) by (pose proof (packet_cons _ _ _ _ _ Hp) as (_ & _ & _ & _ & Et & _); exact (f_equal (fun x => x + hlen) Et)).
  assert (Ht2 : total < 65536) by (apply ram_total; [unfold total; lia|done]).
  destruct (mem_malloc _ _) as [[r|] a] eqn:Em.
  - destruct (Hma r a eq_refl) as [Er Hcl].
    destruct (echo_copy_run s c p b l hlen r a) as (s' & E & Eh & Ed); [done..|lia|done|done|done|done|done|]. fold total in Eh, Ed.
    erewrite bind_run by (rewrite B; exact E). cbv beta iota zeta.
    set (H := mem_read (pdata s) (iphdr_in c) (Z.to_nat hlen)) in *. set (C := contents (pdata s) ((p, b) :: l)) in *.
    assert (LH : slen H = hlen) by (unfold slen, H; rewrite mem_read_length; lia).
    replace total with (slen H + slen C) in * by (unfold total; lia). rewrite <- LH in Eh |- *.
    apply (reply_sent s' c r H C inp); [unfold IP_HLEN; lia|unfold SIZEOF_ICMP_ECHO_HDR; lia|done| |].
    + rewrite Eh. apply freed_insert. by eapply fresh_notin.
    + rewrite (mem_read_ext (mem_write (pdata s) (payload (ram_pbuf PBUF_LINK (slen H + slen C) r)) (H ++ C))) by (intros; apply Ed).
      apply mem_write_read_same.
  - rewrite <- En in *. assert (E : (echo_buffer c p hlen) s = Some (None, mkPs (pbs s) (pdata s) a)).
    { rewrite B. apply (echo_copy_none s c p b); [done|lia|done|done]. }
    rewrite (bind_run _ _ _ _ _ E). done.
Qed.

(** ** Errors *)

(** The writes into the message. *)
Definition response_mem (m : mem) (a b type code : Z) : mem :=
  let m := mem_write m a [type; code] in
  let m := mem_write m (a + 4) [0; 0] in
  let m := mem_write m (a + 6) [0; 0] in
  mem_write m (a + 8) (mem_read m b 28).

Lemma response_apart m a b type code : (forall x, b <= x < b + 28 -> ~ a <= x < a + 36) ->
  mem_read (response_mem m a b type code) b 28 = mem_read m b 28 /\
  unchanged_off a 36 m (response_mem m a b type code) /\
  mem_read (mem_write (response_mem m a b type code) (a + 2) [0; 0]) a 36 = [type; code; 0; 0; 0; 0; 0; 0] ++ mem_read m b 28.
Proof.
  intros H. unfold response_mem.
  assert (U : forall m x o d, 0 <= o -> o + slen d <= 36 -> ~ a <= x < a + 36 -> mem_write m (a + o) d x = m x).
  { intros m' x o d Ho Hd Hx. apply mem_write_out. unfold slen in Hd. lia. }
  replace (mem_write m a [type; code]) with (mem_write m (a + 0) [type; code]) by (f_equal; lia).
  set (m3 := mem_write (mem_write (mem_write m (a + 0) [type; code]) (a + 4) [0; 0]) (a + 6) [0; 0]). assert (U3 : forall x, ~ a <= x < a + 36 -> m3 x = m x).
  { intros x Hx. unfold m3. rewrite !U by (done || (cbn; lia)). done. }
  assert (F : mem_read m3 b 28 = mem_read m b 28) by (apply mem_read_ext; intros x Hx; apply U3, H; lia).
  rewrite F. assert (LF : slen (mem_read m b 28) = 28) by (unfold slen; by rewrite mem_read_length).
  split; [|split].
  - transitivity (mem_read m3 b 28); [|done]. apply mem_read_ext. intros x Hx. apply U; [done|lia|apply H; lia].
  - intros x Hx. rewrite U by (lia || done). by apply U3.
  - rewrite (read_patch _ a 2) by done. rewrite (read_patch _ a 8) by (done || lia). unfold m3.
    rewrite !read_patch by done. change 36%nat with (8 + 28)%nat. rewrite mem_read_app.
    pose proof (mem_read_length m a 8) as L8. set (L0 := mem_read m a 8) in *. set (L1 := mem_read m (a + Z.of_nat 8) 28).
    assert (S8 : slen L0 = 8) by (unfold slen; by rewrite L8). set (from := mem_read m b 28) in *.
    assert (P0 : slen (patch 0 [type; code] L0) = 8) by (rewrite patch_length; rewrite ?S8; done).
    assert (P4 : slen (patch 4 [0; 0] (patch 0 [type; code] L0)) = 8) by (rewrite patch_length; rewrite ?P0; done).
    rewrite (patch_left 0), (patch_left 4), (patch_left 6) by (rewrite ?S8, ?P0, ?P4; done).
    set (L2 := patch 6 _ _). assert (S2 : slen L2 = 8) by (unfold L2; rewrite patch_length; rewrite ?P4; done).
    replace (patch 8 from (L2 ++ L1)) with (L2 ++ from).
    2: { symmetry. change 8 with (8 + 0). rewrite <- S2, patch_right by done.
         by rewrite patch_all by (unfold L1, from; by rewrite !mem_read_length). }
    rewrite patch_left by (rewrite ?S2; done). by f_equal.
Qed.

(** The error message is the header - type, code and zeros - followed by the IP header
    of the packet and the eight bytes behind it, sent to the packet's source address
    over the interface that the routing finds; without memory or without a route nothing
    is sent, and in every case the message is freed and the packet is left alone. *)
Theorem icmp_response_exact {A} `{!PbufAlloc A, !IcmpLower A} (s : pstate A) nets def p b type code :
  let n := SIZEOF_ICMP_ECHO_HDR + IP_HLEN + ICMP_DEST_UNREACH_DATASIZE in
  let from := mem_read (pdata s) (payload b) 28 in let src := le32 (from !!! 12%nat) (from !!! 13%nat) (from !!! 14%nat) (from !!! 15%nat) in
  pbs s !! p = Some b ->
  (forall r a, mem_malloc (ram_size PBUF_IP n) (palloc s) = (Some r, a) ->
     pbs s !! r = None /\ forall x, payload b <= x < payload b + 28 -> ~ payload (ram_pbuf PBUF_IP n r) <= x < payload (ram_pbuf PBUF_IP n r) + n) ->
  match mem_malloc (ram_size PBUF_IP n) (palloc s) with
  | (None, a) => icmp_send_response nets def p type code s = Some (tt, mkPs (pbs s) (pdata s) a)
  | (Some r, a) => let br := ram_pbuf PBUF_IP n r in exists m, unchanged_off (payload br) n (pdata s) m /\
      let s1 := mkPs (<[r := br]> (pbs s)) m a in
      match ip4_route src nets def with
      | None => icmp_send_response nets def p type code s = drop_icmp r s1
      | Some netif => contents m [(r, br)] = [type; code; 0; 0; 0; 0; 0; 0] ++ from /\
          icmp_send_response nets def p type code s =
          (ip4_output_if r None (Some src) ICMP_TTL 0 IP_PROTO_ICMP netif ≫= fun _ => drop_icmp r) s1
      end
  end.
Proof.
  intros n from src Eb Hma. unfold icmp_send_response. fold n.
  pose proof (alloc_ram_spec PBUF_IP n s ltac:(done) ltac:(done)) as Ea.
  destruct (mem_malloc _ _) as [[r|] a] eqn:Em; [|by rewrite (bind_run _ _ _ _ _ Ea)].
  destruct (Hma r a eq_refl) as [Er Hcl]. clear Hma. rewrite (bind_run _ _ _ _ _ Ea). cbv beta iota zeta. set (br := ram_pbuf PBUF_IP n r) in *.
  set (sa := with_pbuf r br a s). assert (E1 : pbs sa !! p = Some b).
  { cbn. rewrite lookup_insert_ne; [done|congruence]. }
  rewrite (bind_run _ _ _ _ _ (getp_run sa p b E1)), (bind_run _ _ _ _ _ (getp_run sa r br (lookup_insert_eq _ _ _))).
  unfold poke, memcpy. do 4 (erewrite bind_run by reflexivity; cbn [mbind option_bind pbs pdata palloc]).
  change (pbs sa) with (<[r := br]> (pbs s)). change (palloc sa) with a.
  match goal with |- context [mkPs _ (mem_write (mem_write ?x ?y ?z) ?u ?v) _] =>
    change (mem_write (mem_write x y z) u v) with (response_mem (pdata s) (payload br) (payload b) type code) end.
  destruct (response_apart (pdata s) (payload br) (payload b) type code Hcl) as (R1 & R2 & R3).
  set (m := response_mem _ _ _ _ _) in *. set (s1 := mkPs _ m a).
  assert (Es : reading (fun (_ : gmap Z pbuf_t) m0 => Some (le32 (m0 (payload b + 12)) (m0 (payload b + 13)) (m0 (payload b + 14)) (m0 (payload b + 15)))) s1 = Some (src, s1)).
  { unfold reading. cbn [mbind option_bind pbs pdata s1]. unfold src. unfold from. rewrite <- R1. by rewrite !mem_read_lookup_total by lia. }
  rewrite (bind_run _ _ _ _ _ Es). destruct (ip4_route src nets def) as [netif|].
  - exists (mem_write m (payload br + 2) [0; 0]). split; [|split].
    + eapply unchanged_off_trans; [exact R2|]. intros x Hx. apply mem_write_out. change n with 36 in Hx. change (length [0; 0]) with 2%nat. lia.
    + cbn [contents map concat]. rewrite app_nil_r. exact R3.
    + etransitivity; [apply bind_cong; erewrite bind_run by reflexivity; reflexivity|]. apply bind_skip.
  - by exists m.
Qed.

(** *** A ping *)
#[local] Existing Instance sim_heap.
#[local] Instance sim_lower : IcmpLower Z := { ip4_output_if := fun _ _ _ _ _ _ _ => mret ERR_OK }.
Definition ping_hdr : list Z := [0x45; 0; 0; 30; 0; 7; 0; 0; 64; 1; 0; 0; 192; 168; 1; 20; 192; 168; 1; 10].
Definition ping_msg : list Z := [8; 0; 182; 130; 0; 42; 0; 17; 65; 66].
Definition ping_b : pbuf_t := mkPbuf None 5020 10 10 PBUF_REF PBUF_FLAG_IS_CUSTOM 1.
Definition ping_state : pstate Z := mkPs {[1000 := ping_b]} (mem_write (fun _ => 0) 5000 (ping_hdr ++ ping_msg)) 9000.
Definition ping_netif : ip_netif := mkIpNetif 0 0x0a01a8c0 0x00ffffff 0x0101a8c0 7 1500.
Definition ping_ctx : ip_ctx := mkCtx 5000 0x1401a8c0 0x0a01a8c0 ping_netif 20.

Lemma ping_bytes x : is_byte (pdata ping_state x).
Proof.
  apply mem_write_bytes; [done|]. apply Forall_forall. intros y Hy. apply list_elem_of_In in Hy. unfold is_byte.
  cbn in Hy. repeat (destruct Hy as [<-|Hy]; [done|]). done.
Qed.
Lemma ping_packet : packet (pbs ping_state) (Some 1000) [(1000, ping_b)].
Proof. repeat split; cbn; lia || done. Qed.
Lemma sim_clear lo n : 6000 <= lo -> clear_of lo n [(1000, ping_b)].
Proof. intros H. apply Forall_cons. split; [|apply Forall_nil_2]. intros x. unfold inside. cbn. lia. Qed.
Lemma icmp_input_exact_witness : exists s1,
  icmp_input ping_ctx 1000 ping_netif ping_state = drop_icmp 9000 s1 /\
  contents (pdata s1) [(9000, ram_pbuf PBUF_LINK 30 9000)] =
    [0x45; 0; 0; 30; 0; 7; 0; 0; 255; 1; 0; 0; 192; 168; 1; 10; 192; 168; 1; 20] ++ [0; 0; 0; 0; 0; 42; 0; 17; 65; 66].
Proof.
  assert (E : echo_request ping_ctx (pdata ping_state) ping_b (contents (pdata ping_state) [(1000, ping_b)]) = true)
    by (vm_compute; reflexivity).
  pose proof (icmp_input_exact ping_state ping_ctx 1000 ping_b [] ping_netif ping_bytes ping_packet) as H.
  rewrite E in H. destruct H as (s1 & H1 & _ & _ & H2).
  - apply Forall_nil_2.
  - apply Forall_cons. split; [done|apply Forall_nil_2].
  - reflexivity.
  - vm_compute. reflexivity.
  - intros r a [= <- <-]. split; [reflexivity|]. apply sim_clear. vm_compute. discriminate.
  - exists s1. split; [exact H1|]. etransitivity; [exact H2|]. vm_compute. reflexivity.
Defined.
(** The same packet as UDP sees it when nobody listens: the payload is back at the IP header. *)
Definition err_state : pstate Z := mkPs {[1000 := mkPbuf None 5000 30 30 PBUF_REF PBUF_FLAG_IS_CUSTOM 1]} (pdata ping_state) 9000.
Lemma icmp_response_exact_witness : exists m,
  icmp_dest_unreach [ping_netif] None 1000 3 err_state =
    drop_icmp 9000 (mkPs (<[9000 := ram_pbuf PBUF_IP 36 9000]> (pbs err_state)) m 9088) /\
  contents m [(9000, ram_pbuf PBUF_IP 36 9000)] = [3; 3; 0; 0; 0; 0; 0; 0] ++ ping_hdr ++ take 8 ping_msg.
Proof.
  destruct (icmp_response_exact err_state [ping_netif] None 1000 (mkPbuf None 5000 30 30 PBUF_REF PBUF_FLAG_IS_CUSTOM 1) 3 3)
    as (m & _ & H); [reflexivity| |].
  - intros r a [= <- <-]. split; [reflexivity|].
    change (payload (ram_pbuf PBUF_IP _ 9000)) with 9052. cbn [payload]. unfold SIZEOF_ICMP_ECHO_HDR, IP_HLEN, ICMP_DEST_UNREACH_DATASIZE. lia.
  - exists m. destruct H as [H1 H2]. split; [exact H2|]. etransitivity; [exact H1|]. vm_compute. reflexivity.
Defined.
