(* ===== verification/Ip4Ok.v ===== *)
(** * What the IP layer accepts, and where it sends

    The search for an interface against its declarative meaning; the laws of what
    [ip4_input] calls; which packets reach UDP, TCP and ICMP, and with which bytes. *)
From stdpp Require Import gmap.
From S2P Require Import Prelude Ip4Addr Ip4Hdr Net Ip4Reass ReassOk ReassSpec Ip4Frag FragOk Ip4.

(** ** Which interface *)

(** The other interfaces that take packets to [dest]. *)
Definition other_accepts (dest : Z) (inp n : ip_netif) : bool := negb (nf_num n =? nf_num inp) && accepts dest n.

Lemma match_loop_exact dest inp l : NoDup (nf_num <$> l) ->
  match_loop dest inp l = List.find (other_accepts dest inp) l.
Proof.
  unfold other_accepts. induction l as [|n l IH]; intros Hn; [done|]. apply NoDup_cons in Hn as [Hn Hl]. cbn.
  destruct (Z.eqb_spec (nf_num n) (nf_num inp)) as [E|E]; cbn.
  - rewrite <- IH by done. destruct l as [|m l]; [done|]. cbn.
    rewrite (proj2 (Z.eqb_neq (nf_num m) (nf_num inp))); [done|]. intros E'. apply Hn. rewrite E, <- E'. left.
  - destruct (accepts dest n); [done|by apply IH].
Qed.

(** The search for the accepting interface prefers the receiving one and otherwise finds
    another one that is up and has the destination as its address or broadcast, if there
    is one and the destination is not a loopback address. *)
Theorem match_netif_exact dest inp nets : NoDup (nf_num <$> nets) -> ip4_addr_ismulticast dest = false ->
  match match_netif dest inp nets with
  | Some n => accepts dest n = true /\
      (n = inp \/ n ∈ nets /\ nf_num n <> nf_num inp /\ accepts dest inp = false /\ ip4_addr_isloopback dest = false)
  | None => accepts dest inp = false /\
      (ip4_addr_isloopback dest = true \/ forall n, n ∈ nets -> nf_num n <> nf_num inp -> accepts dest n = false)
  end.
Proof.
  intros Hn Hm. unfold match_netif. rewrite Hm. destruct (accepts dest inp) eqn:Ei; [by split; [|left]|].
  destruct (ip4_addr_isloopback dest); [by split; [|left]|]. rewrite (match_loop_exact _ _ _ Hn).
  destruct (List.find _ nets) as [n|] eqn:E.
  - apply find_some in E as [H1%list_elem_of_In [H2 H3]%andb_true_iff]. split; [done|]. right.
    apply negb_true_iff, Z.eqb_neq in H2. done.
  - split; [done|]. right. intros n Hin Hne. pose proof (find_none _ _ E n (proj1 (list_elem_of_In _ _) Hin)) as H.
    unfold other_accepts in H. by rewrite (proj2 (Z.eqb_neq _ _) Hne) in H.
Qed.

(** The interface has [dest] on its network, or is the point-to-point way to it. *)
Definition on_link (dest : Z) (n : ip_netif) : bool := netif_usable n &&
  (ip4_addr_netcmp dest (nf_addr n) (nf_mask n) || (Z.land (nf_flags n) NETIF_FLAG_BROADCAST =? 0) && (dest =? nf_gw n)).
Lemma route_loop_exact dest l : route_loop dest l = List.find (on_link dest) l.
Proof.
  unfold on_link. induction l as [|n l IH]; [done|]. cbn. destruct (netif_usable n); [|done]. cbn.
  destruct (ip4_addr_netcmp _ _ _); [done|]. cbn. by destruct (_ && _).
Qed.

(** ip4_route gives an interface that is up, has a link and an address: one with the
    destination on its network, or the default one when there is none; otherwise no
    usable interface exists. *)
Theorem ip4_route_exact dest nets def :
  match ip4_route dest nets def with
  | Some n => netif_usable n = true /\ (n ∈ nets /\ on_link dest n = true \/
      def = Some n /\ forall m, m ∈ nets -> on_link dest m = false)
  | None => (forall m, m ∈ nets -> on_link dest m = false) /\ forall n, def = Some n -> netif_usable n = false
  end.
Proof.
  unfold ip4_route. rewrite route_loop_exact. destruct (List.find _ nets) as [n|] eqn:E.
  - apply find_some in E as [H1%list_elem_of_In H2]. pose proof H2 as [H3 _]%andb_true_iff. split; [done|]. by left.
  - assert (H : forall m, m ∈ nets -> on_link dest m = false).
    { intros m Hm. by apply (find_none _ _ E), list_elem_of_In. }
    destruct def as [n|]; [|done]. destruct (netif_usable n) eqn:Eu; cbn; [split; [done|by right]|].
    split; [done|]. by intros ? [= <-].
Qed.

(** ** Laws of what [ip4_input] calls *)

(** What a protocol is given. *)
Record delivery := mkUp { up_proto : Z; up_src : Z; up_dest : Z; up_netif : option Z; up_inp : Z; up_data : list Z }.
Definition delivery_of (proto : Z) (g : ip_globals) (inp : ip_netif) (data : list Z) : delivery :=
  mkUp proto (current_iphdr_src g) (current_iphdr_dest g) (current_netif g) (nf_num inp) data.

(** [uplog]: what the protocols were given; [upper]: the packets that are theirs. *)
Class Ip4View (X : Type) := { uplog : X -> list delivery; upper : X -> gset Z }.

Section Laws.
Context {X : Type} `{!ReassApi X, !ReassView X, !Ip4Api X, !Ip4View X}.

Definition same_up (x x' : X) : Prop := uplog x' = uplog x /\ upper x' = upper x.
Definition packet_set (x x' : X) (p : Z) (k : packet) : Prop :=
  packets x' = <[p := k]> (packets x) /\ reass_avail x' = reass_avail x /\ same_up x x'.
(** The protocol takes [p]: it may free it, keep it, and do what it wants with its own. *)
Definition taken (x x' : X) (p : Z) (d : delivery) : Prop :=
  uplog x' = uplog x ++ [d] /\ reass_avail x' = reass_avail x /\
  (forall q kq, q <> p -> q ∉ upper x -> packets x !! q = Some kq -> packets x' !! q = Some kq) /\
  (forall q, q ∈ upper x' -> q ∈ upper x \/ q = p \/ packets x !! q = None) /\
  (p ∉ upper x' -> packets x' !! p = None).
Definition hdr_len (h : ip_hdr) : Z := IPH_HL h * 4.

Class Ip4Laws : Prop := {
  up_iph_put p h : frames same_up (iph_put p h);
  up_free p : frames same_up (pbuf_free p);
  up_hide p : frames same_up (hide_header p);
  up_cat p q : frames same_up (pbuf_cat p q);
  up_icmp p : frames same_up (icmp_time_exceeded p);
  up_malloc : frames same_up reassdata_malloc;
  up_mfree : frames same_up reassdata_free;
  law_lens x p k h : packets x !! p = Some k -> pk_hdr k = Some h -> IP_HLEN <= hdr_len h ->
    tot_len_of x p = hdr_len h + slen (pk_data k) /\ hdr_len h <= len_of x p;
  law_realloc x p k h n : packets x !! p = Some k -> pk_hdr k = Some h -> 0 <= n < tot_len_of x p ->
    wp (pbuf_realloc p n) (fun _ x' => tot_len_of x' p = n /\ len_of x' p <= n /\
      exists k', packet_set x x' p k' /\ 1 <= pk_clen k' /\ (hdr_len h <= n -> pk_hdr k' = Some h /\
        pk_data k' = take (Z.to_nat (n - hdr_len h)) (pk_data k))) x;
  law_port x p k h : packets x !! p = Some k -> pk_hdr k = Some h -> 4 <= slen (pk_data k) ->
    udp_dest_at x p (hdr_len h) = nth 2 (pk_data k) 0 + 256 * nth 3 (pk_data k) 0;
  law_strip x p k h : packets x !! p = Some k -> pk_hdr k = Some h ->
    wp (pbuf_header p (- hdr_len h)) (fun _ x' => packet_set x x' p (k <| pk_hdr := None |>)) x;
  law_force x p k n : packets x !! p = Some k ->
    wp (pbuf_header_force p n) (fun _ x' => exists k', packet_set x x' p k') x;
  law_payload x p k : packets x !! p = Some k ->
    wp (payload_to_iphdr p) (fun _ x' => exists k', packet_set x x' p k') x;
  law_unreach x p k : packets x !! p = Some k ->
    wp (icmp_dest_unreach p) (fun _ x' => packets x' = packets x /\ reass_avail x' = reass_avail x /\ same_up x x') x;
  law_udp x g p k inp : packets x !! p = Some k -> pk_hdr k = None ->
    wp (udp_input g p inp) (fun _ x' => taken x x' p (delivery_of IP_PROTO_UDP g inp (pk_data k))) x;
  law_tcp x g p k inp : packets x !! p = Some k -> pk_hdr k = None ->
    wp (tcp_input g p inp) (fun _ x' => taken x x' p (delivery_of IP_PROTO_TCP g inp (pk_data k))) x;
  law_icmp_in x g p k inp : packets x !! p = Some k -> pk_hdr k = None ->
    wp (icmp_input g p inp) (fun _ x' => taken x x' p (delivery_of IP_PROTO_ICMP g inp (pk_data k))) x
}.
End Laws.
Arguments Ip4Laws X {_ _ _ _}.

Section Input.
Context {X : Type} `{!ReassApi X, !ReassView X, !ReassLaws X, !Ip4Api X, !Ip4View X, !Ip4Laws X}.
#[local] Abbreviation sys := (ip_sys X).
Implicit Types (s : sys) (x : X).

Definition mem s : X := mem_of (reass s).
Lemma wp_on_reass {A} (m : M (reass_sys X) A) Q s :
  wp m (fun a r => Q a (s <| reass := r |>)) (reass s) -> wp (on_reass m) Q s.
Proof. unfold wp, on_reass. by destruct (m (reass s)). Qed.
Lemma wp_on_x {A} (m : M X A) Q s :
  wp m (fun a x => Q a (s <| reass := (reass s) <| mem_of := x |> |>)) (mem s) -> wp (on_x m) Q s.
Proof. intros H. apply wp_on_reass. unfold wp, on_mem, mem in *. by destruct (m _). Qed.
Lemma wp_getx {A} (f : X -> A) Q s : Q (f (mem s)) s -> wp (getx f) Q s.
Proof. done. Qed.

Lemma same_up_refl x : same_up x x.
Proof. done. Qed.
Lemma same_up_trans x y z : same_up x y -> same_up y z -> same_up x z.
Proof. intros [A B] [C D]. split; congruence. Qed.

(** Nothing but the memory has changed; what the packet headers say may have been noted. *)
Record same_queue s s' : Prop := {
  sq_dg : reassdatagrams (reass s') = reassdatagrams (reass s);
  sq_count : ip_reass_pbufcount (reass s') = ip_reass_pbufcount (reass s);
  sq_null : null_read (reass s') = null_read (reass s);
  sq_nets : netif_list s' = netif_list s
}.
Lemma same_queue_refl s : same_queue s s.
Proof. done. Qed.
Lemma same_queue_trans s1 s2 s3 : same_queue s1 s2 -> same_queue s2 s3 -> same_queue s1 s3.
Proof. intros [A B C D] [E F G H]. constructor; congruence. Qed.

(** The packet is freed, and that is all. *)
Record dropped s (p : Z) s' : Prop := {
  dp_queue : same_queue s s';
  dp_packets : packets (mem s') = delete p (packets (mem s));
  dp_avail : reass_avail (mem s') = reass_avail (mem s);
  dp_up : same_up (mem s) (mem s')
}.
(** It is in hand, perhaps changed. *)
Record in_hand s (p : Z) (k : packet) s' : Prop := {
  ih_queue : same_queue s s';
  ih_set : packet_set (mem s) (mem s') p k
}.

Lemma in_hand_lookup s p k s' : in_hand s p k s' -> packets (mem s') !! p = Some k.
Proof. intros [_ (H & _)]. by rewrite H, lookup_insert_eq. Qed.
Lemma in_hand_trans s p k1 s1 k2 s2 : in_hand s p k1 s1 -> in_hand s1 p k2 s2 -> in_hand s p k2 s2.
Proof.
  intros [Q1 (P1 & A1 & U1)] [Q2 (P2 & A2 & U2)]. constructor; [by eapply same_queue_trans|].
  split; [by rewrite P2, P1, insert_insert_eq|]. split; [congruence|by eapply same_up_trans].
Qed.
Lemma in_hand_self s p k : packets (mem s) !! p = Some k -> in_hand s p k s.
Proof. intros H. constructor; [done|]. split; [by rewrite insert_id|done]. Qed.
Lemma in_hand_data s p k s1 f : in_hand s p k s1 -> in_hand s p k (s1 <| ip_data := f |>).
Proof. intros [[A B C D] E]. constructor; [by constructor|done]. Qed.

Lemma free_hand_spec s p k s1 : in_hand s p k s1 -> wp (on_x (pbuf_free p)) (fun _ s' => dropped s p s') s1.
Proof.
  intros H. pose proof (in_hand_lookup _ _ _ _ H) as Hk. destruct H as [[A B C D] (P1 & A1 & U1)]. apply wp_on_x.
  eapply wp_mono; [apply (wp_and _ _ _ _ (law_free (mem s1) p k Hk) (up_free p (mem s1)))|].
  cbv beta. intros u x [[P2 A2] U2]. constructor; [by constructor|..].
  - change (packets x = delete p (packets (mem s))). rewrite P2, P1. apply delete_insert_eq.
  - change (reass_avail x = reass_avail (mem s)). congruence.
  - change (same_up (mem s) x). by eapply same_up_trans.
Qed.
Lemma drop_spec s p k s1 : in_hand s p k s1 -> wp (drop_packet p) (fun e s' => e = ERR_OK /\ dropped s p s') s1.
Proof. intros H. unfold drop_packet. wp_call (free_hand_spec s p k s1 H) as u s2 D. by apply wp_ret. Qed.

(** ** The verdict on a packet *)
Definition ip_len (h : ip_hdr) : Z := lwip_htons (IPH_LEN h).
Definition well_formed (h : ip_hdr) (tot : Z) : bool :=
  (IP_HLEN <=? hdr_len h) && (hdr_len h <=? ip_len h) && (ip_len h <=? tot).
Definition bad_source (inp : ip_netif) (src : Z) : bool :=
  negb (src =? IPADDR_ANY) && (ip4_addr_isbroadcast src inp || ip4_addr_ismulticast src).
(** The interface that takes it, or none. *)
Definition ip_verdict (nets : list ip_netif) (inp : ip_netif) (h : ip_hdr) (tot port : Z) : option ip_netif :=
  if negb ((IPH_V h =? 4) && well_formed h tot) then None else
  match match_netif (iph_dest h) inp nets with
  | Some n => if bad_source inp (iph_src h) then None else Some n
  | None => if (IPH_PROTO h =? IP_PROTO_UDP) && IP_ACCEPT_LINK_LAYER_ADDRESSED_PORT port then Some inp else None
  end.
Definition is_fragment (h : ip_hdr) : bool := negb (Z.land (IPH_OFFSET h) (PP_HTONS (Z.lor IP_OFFMASK IP_MF)) =? 0).

(** Cut to the length in the header. *)
Definition cut (h : ip_hdr) (k k' : packet) : Prop :=
  pk_hdr k' = Some h /\ pk_data k' = take (Z.to_nat (ip_len h - hdr_len h)) (pk_data k) /\ 1 <= pk_clen k'.

Lemma hdr_len_range h : 0 <= hdr_len h <= 60.
Proof.
  unfold hdr_len, IPH_HL. change 0x0f with (Z.ones 4). rewrite Z.land_ones by lia.
  pose proof (Z.mod_pos_bound (v_hl h) (2 ^ 4)). lia.
Qed.
Lemma ip_trim_spec s p k h : packets (mem s) !! p = Some k -> pk_hdr k = Some h -> 1 <= pk_clen k ->
  wp (ip4_input_trim p (hdr_len h) (ip_len h)) (fun ok s' => ok = well_formed h (tot_len_of (mem s) p) /\
    ip_data s' = ip_data s /\ exists k', in_hand s p k' s' /\ (ok = true -> cut h k k')) s.
Proof.
  intros Hk Hh Hc. pose proof (hdr_len_range h). pose proof (htons_range (IPH_LEN h)) as Hr. fold (ip_len h) in Hr.
  unfold ip4_input_trim, well_formed. apply wp_bind, wp_getx. pose proof (law_lens (mem s) p k h Hk Hh) as L.
  destruct (Z.ltb_spec (ip_len h) (tot_len_of (mem s) p)) as [Hlt|Hge].
  - apply wp_bind, wp_on_x. eapply wp_mono; [apply (law_realloc (mem s) p k h (ip_len h) Hk Hh); lia|].
    cbv beta. intros _ x' (T & Le & k' & P & Hc' & Hcut). apply wp_bind, wp_getx, wp_bind, wp_getx, wp_ret.
    change (mem (s <| reass := (reass s) <| mem_of := x' |> |>)) with x'. rewrite T.
    rewrite (proj2 (Z.ltb_ge (ip_len h) (ip_len h))), (proj2 (Z.leb_le (ip_len h) (tot_len_of (mem s) p))) by lia.
    rewrite orb_false_r, andb_true_r, negb_orb, <- !Z.leb_antisym. split.
    { destruct (Z.leb_spec IP_HLEN (hdr_len h)) as [H20|]; [|by rewrite andb_false_r]. rewrite andb_true_r. cbn [andb].
      destruct (Z.leb_spec (hdr_len h) (ip_len h)) as [H1|H1]; [|apply Z.leb_gt; lia]. apply Z.leb_le.
      destruct (Hcut H1) as [E1 _]. apply (law_lens x' p k' h); [|done|done].
      destruct P as [-> _]. apply lookup_insert_eq. }
    split; [done|]. exists k'. split; [by constructor|]. intros [H1 H2]%andb_true_iff. apply Z.leb_le in H1, H2.
    destruct (Hcut ltac:(lia)) as [E1 E2]. done.
  - apply wp_bind, wp_ret, wp_bind, wp_getx, wp_bind, wp_getx, wp_ret.
    rewrite negb_orb, negb_orb, <- !Z.leb_antisym. split.
    { destruct (Z.leb_spec IP_HLEN (hdr_len h)) as [H20|]; [|by rewrite andb_false_r]. destruct (L H20) as [L1 L2].
      rewrite andb_true_r. cbn [andb]. rewrite (proj2 (Z.leb_le _ _) L2), (proj2 (Z.leb_le (hdr_len h) (ip_len h))); [done|].
      unfold slen in L1. lia. }
    split; [done|]. exists k. split; [by apply in_hand_self|]. intros [[H1 H2]%andb_true_iff H3]%andb_true_iff.
    apply Z.leb_le in H1, H2, H3. destruct (L H3) as [L1 L2]. split; [done|]. split; [|done].
    rewrite take_ge; [done|]. unfold slen in L1. lia.
Qed.

Lemma hdr_len_u16 h : u16 (IPH_HL h * 4) = hdr_len h.
Proof. apply u16_small. pose proof (hdr_len_range h). unfold hdr_len in *. lia. Qed.

(** What is done with a packet that passes. *)
Definition go_on (p : Z) (h : ip_hdr) (inp netif : ip_netif) : M sys Z :=
  if is_fragment h then
    q <- on_reass (ip4_reass p) ;;
    match q with
    | None => ret ERR_OK
    | Some q => iphdr <- getx (fun x => iph_of x q) ;; ip4_input_whole q iphdr (hdr_len h) inp netif
    end
  else ip4_input_whole p h (hdr_len h) inp netif.
(** The port that the code reads: that of the packet, when the packet is long enough. *)
Definition port_of (h : ip_hdr) (k : packet) (port : Z) : Prop :=
  hdr_len h + 4 <= ip_len h -> port = nth 2 (pk_data k) 0 + 256 * nth 3 (pk_data k) 0.

Lemma port_cut h k k' x p tot : cut h k k' -> packets x !! p = Some k' -> well_formed h tot = true ->
  hdr_len h + 4 <= ip_len h -> ip_len h - hdr_len h <= slen (pk_data k) ->
  udp_dest_at x p (hdr_len h) = nth 2 (pk_data k) 0 + 256 * nth 3 (pk_data k) 0.
Proof.
  intros (C1 & C2 & _) Hk _ H4 Hlen. assert (Hl : slen (pk_data k') = ip_len h - hdr_len h).
  { rewrite C2. unfold slen in *. rewrite length_take. lia. }
  rewrite (law_port x p k' h Hk C1) by lia. rewrite C2.
  replace (Z.to_nat (ip_len h - hdr_len h)) with (4 + Z.to_nat (ip_len h - hdr_len h - 4))%nat by lia.
  destruct (pk_data k) as [|a [|b [|c [|d l]]]]; unfold slen in Hlen; cbn in Hlen; try lia. done.
Qed.

Lemma ip4_input_spec s p k h inp Q : packets (mem s) !! p = Some k -> pk_hdr k = Some h -> 1 <= pk_clen k ->
  (forall port s', port_of h k port -> dropped s p s' ->
     ip_verdict (netif_list s) inp h (tot_len_of (mem s) p) port = None -> Q ERR_OK s') ->
  (forall port n k' s', port_of h k port -> in_hand s p k' s' -> cut h k k' ->
     ip_verdict (netif_list s) inp h (tot_len_of (mem s) p) port = Some n ->
     well_formed h (tot_len_of (mem s) p) = true ->
     current_iphdr_src (ip_data s') = iph_src h -> current_iphdr_dest (ip_data s') = iph_dest h ->
     wp (go_on p h inp n) Q s') ->
  wp (ip4_input p inp) Q s.
Proof.
  intros Hk Hh Hc Hdrop Hgo. unfold ip4_input. apply wp_bind, wp_getx. rewrite (law_iph (mem s) p k h Hk Hh).
  unfold ip_verdict in *. set (tot := tot_len_of (mem s) p) in *. cbv zeta. rewrite hdr_len_u16.
  assert (Hd : forall k' s1, in_hand s p k' s1 -> (forall s', dropped s p s' -> Q ERR_OK s') -> wp (drop_packet p) Q s1).
  { intros k' s1 H1 H2. eapply wp_mono; [by apply (drop_spec s p k')|]. cbv beta. intros e s' [-> H]. by apply H2. }
  destruct (Z.eqb_spec (IPH_V h) 4) as [Ev|Ev]; cbn [negb].
  2: { apply (Hd k s); [by apply in_hand_self|]. intros s' H. apply (Hdrop (nth 2 (pk_data k) 0 + 256 * nth 3 (pk_data k) 0)); done. }
  cbn [andb negb] in *.
  wp_call (ip_trim_spec s p k h Hk Hh Hc) as ok s1 (Eok & Ed & k' & Hin & Hcut). fold tot in Eok. subst ok.
  destruct (well_formed h tot) eqn:Ew; cbn [negb] in *.
  2: { apply (Hd k' s1 Hin). intros s' H. by apply (Hdrop (nth 2 (pk_data k) 0 + 256 * nth 3 (pk_data k) 0)). }
  specialize (Hcut eq_refl). apply wp_bind, wp_modify. set (s2 := s1 <| ip_data := _ |>).
  assert (Hin2 : in_hand s p k' s2) by (by apply in_hand_data).
  unfold ip4_input_netif. apply wp_bind, wp_bind, wp_gets. rewrite (sq_nets _ _ (ih_queue _ _ _ _ Hin2)).
  apply wp_bind, wp_getx. set (port := udp_dest_at (mem s2) p (hdr_len h)).
  assert (Hport : port_of h k port).
  { intros Hp. pose proof Ew as [[W1 W2]%andb_true_iff W3]%andb_true_iff. apply Z.leb_le in W1, W2, W3.
    eapply (port_cut h k k' _ p tot); try done; [by apply (in_hand_lookup s)|].
    destruct (law_lens (mem s) p k h Hk Hh W1). unfold tot in W3. lia. }
  fold (bad_source inp (iph_src h)) in *.
  destruct (match_netif (iph_dest h) inp (netif_list s)) as [n|] eqn:Em.
  - apply wp_ret. cbn [andb]. fold (bad_source inp (iph_src h)). destruct (bad_source inp (iph_src h)) eqn:Eb.
    + apply (Hd k' s2 Hin2). intros s' H. by apply (Hdrop port).
    + apply (Hgo port n k' s2); done.
  - apply wp_ret. destruct ((IPH_PROTO h =? IP_PROTO_UDP) && IP_ACCEPT_LINK_LAYER_ADDRESSED_PORT port) eqn:Eu.
    + cbn [andb]. apply (Hgo port inp k' s2); try done. by rewrite Eu.
    + cbn [andb]. assert (Hdr : wp (drop_packet p) Q s2) by (apply (Hd k' s2 Hin2); intros s' H; apply (Hdrop port); try done; by rewrite Eu).
      fold (bad_source inp (iph_src h)). by destruct (bad_source inp (iph_src h)).
Qed.

(** ** Handing up *)
Definition known_proto (proto : Z) : bool := (proto =? IP_PROTO_UDP) || (proto =? IP_PROTO_TCP) || (proto =? IP_PROTO_ICMP).

Lemma taken_in_hand s p k s1 x d : in_hand s p k s1 -> taken (mem s1) x p d -> taken (mem s) x p d.
Proof.
  intros [_ (P & A & [U1 U2])] (T1 & T2 & T3 & T4 & T5). unfold taken. rewrite <- U1, <- U2, <- A. do 2 (split; [done|]).
  split; [|split; [|done]].
  - intros q kq Hq Hu Hk. apply T3; [done..|]. by rewrite P, lookup_insert_ne.
  - intros q Hq. destruct (T4 q Hq) as [H|[H|H]]; [by left|by right; left|]. destruct (decide (q = p)) as [->|Hn]; [by right; left|].
    right. right. by rewrite P, lookup_insert_ne in H.
Qed.
Lemma hand_up_spec s0 p k (s : sys) d (m : M X unit) : in_hand s0 p k s -> wp m (fun _ x' => taken (mem s) x' p d) (mem s) ->
  wp (on_x m) (fun _ s' => same_queue s0 s' /\ taken (mem s0) (mem s') p d) s.
Proof.
  intros H W. apply wp_on_x. eapply wp_mono; [exact W|]. cbv beta. intros _ x T. split; [|by eapply taken_in_hand].
  destruct H as [[A B C D] _]. by constructor.
Qed.
Lemma step_hand {A} s0 p k s (m : M X A) : in_hand s0 p k s ->
  wp m (fun _ x' => exists k', packet_set (mem s) x' p k') (mem s) ->
  wp (on_x m) (fun _ s' => ip_data s' = ip_data s /\ exists k', in_hand s0 p k' s') s.
Proof.
  intros H W. apply wp_on_x. eapply wp_mono; [exact W|]. cbv beta. intros _ x (k' & P). split; [done|].
  exists k'. eapply in_hand_trans; [exact H|]. by constructor.
Qed.
Lemma unreachable_spec s0 p k s h n (hlen : Z) : in_hand s0 p k s ->
  wp ((if negb (ip4_addr_isbroadcast h n) && negb (ip4_addr_ismulticast h)
       then on_x (pbuf_header_force p hlen) ;;; on_x (payload_to_iphdr p) ;;; on_x (icmp_dest_unreach p)
       else ret tt) ;;; on_x (pbuf_free p)) (fun _ s' => dropped s0 p s') s.
Proof.
  intros H. destruct (_ && _).
  - apply wp_bind. wp_call (step_hand s0 p k s _ H (law_force _ p k hlen (in_hand_lookup _ _ _ _ H))) as u1 s1 (_ & k1 & H1).
    wp_call (step_hand s0 p k1 s1 _ H1 (law_payload _ p k1 (in_hand_lookup _ _ _ _ H1))) as u2 s2 (_ & k2 & H2).
    assert (W : wp (icmp_dest_unreach p) (fun _ x' => exists k', packet_set (mem s2) x' p k') (mem s2)).
    { eapply wp_mono; [apply (law_unreach (mem s2) p k2), (in_hand_lookup _ _ _ _ H2)|]. cbv beta. intros _ x (P & A & U).
      exists k2. split; [|done]. rewrite P. symmetry. apply insert_id, (in_hand_lookup _ _ _ _ H2). }
    eapply wp_mono; [apply (step_hand s0 p k2 s2 _ H2 W)|]. cbv beta. intros _ s3 (_ & k3 & H3).
    by apply (free_hand_spec s0 p k3).
  - apply wp_bind, wp_ret. by apply (free_hand_spec s0 p k).
Qed.

Lemma whole_spec s p k h inp n : packets (mem s) !! p = Some k -> pk_hdr k = Some h ->
  wp (ip4_input_whole p h (hdr_len h) inp n) (fun e s' => e = ERR_OK /\ ip_data s' = no_globals /\
    if known_proto (IPH_PROTO h)
    then same_queue s s' /\ taken (mem s) (mem s') p (mkUp (IPH_PROTO h) (current_iphdr_src (ip_data s))
           (current_iphdr_dest (ip_data s)) (Some (nf_num n)) (nf_num inp) (pk_data k))
    else dropped s p s') s.
Proof.
  intros Hk Hh. unfold ip4_input_whole. apply wp_bind, wp_modify. set (s1 := s <| ip_data := _ |>).
  assert (H1 : in_hand s p k s1) by (by apply in_hand_data, in_hand_self).
  set (d := mkUp _ _ _ _ _ _).
  assert (W : wp (deliver p h (hdr_len h) inp n) (fun _ s' => if known_proto (IPH_PROTO h)
    then same_queue s s' /\ taken (mem s) (mem s') p d else dropped s p s') s1).
  2: { apply wp_bind. eapply wp_mono; [exact W|]. cbv beta. intros _ s2 H. apply wp_bind, wp_modify, wp_ret.
       split; [done|]. split; [done|]. destruct (known_proto _); [|by destruct H as [[] ? ? ?]; constructor].
       destruct H as [[] T]. by split. }
  unfold deliver. apply wp_bind, wp_on_x. eapply wp_mono; [apply (law_strip (mem s1) p k h Hk Hh)|].
  cbv beta. intros _ x P. set (s2 := s1 <| reass := _ |>). set (k2 := k <| pk_hdr := None |>) in *.
  assert (H2 : in_hand s p k2 s2) by (eapply in_hand_trans; [exact H1|by constructor]).
  pose proof (in_hand_lookup _ _ _ _ H2) as Hk2. apply wp_bind, wp_gets. unfold known_proto.
  replace d with (delivery_of (IPH_PROTO h) (ip_data s2) inp (pk_data k2)) by done.
  destruct (Z.eqb_spec (IPH_PROTO h) IP_PROTO_UDP) as [E|_]; cbn [orb].
  { rewrite E. by apply (hand_up_spec s p k2 s2), (law_udp (mem s2) _ p k2). }
  destruct (Z.eqb_spec (IPH_PROTO h) IP_PROTO_TCP) as [E|_]; cbn [orb].
  { rewrite E. by apply (hand_up_spec s p k2 s2), (law_tcp (mem s2) _ p k2). }
  destruct (Z.eqb_spec (IPH_PROTO h) IP_PROTO_ICMP) as [E|_]; cbn [orb].
  { rewrite E. by apply (hand_up_spec s p k2 s2), (law_icmp_in (mem s2) _ p k2). }
  by apply (unreachable_spec s p k2).
Qed.

Lemma dropped_in_hand s p k s1 s' : in_hand s p k s1 -> dropped s1 p s' -> dropped s p s'.
Proof.
  intros [Q (P & A & U)] [D1 D2 D3 D4]. constructor; [by eapply same_queue_trans|..|by eapply same_up_trans].
  - rewrite D2, P. apply delete_insert_eq.
  - congruence.
Qed.

(** What becomes of a whole packet. *)
Definition handled s (p : Z) (k : packet) (h : ip_hdr) (inp : ip_netif) (n : option ip_netif) s' : Prop :=
  match n with
  | Some n =>
      if known_proto (IPH_PROTO h)
      then same_queue s s' /\ taken (mem s) (mem s') p (mkUp (IPH_PROTO h) (iph_src h) (iph_dest h)
             (Some (nf_num n)) (nf_num inp) (take (Z.to_nat (ip_len h - hdr_len h)) (pk_data k)))
      else dropped s p s'
  | None => dropped s p s'
  end.

(** C31. An unfragmented packet reaches UDP, TCP or ICMP exactly when its version and
    lengths are right and an interface accepts the destination with a source that is
    neither broadcast nor multicast, or it is a UDP packet to the DHCP port that no
    interface accepts, whose source is not checked; the protocol gets the bytes up to
    the length in the header. In every other case it is freed once, no protocol is given
    anything, and the reassembly queue and all other packets stay as they are; when its
    protocol is unknown and it went to a unicast address, the code also asks ICMP to
    report that, a call which leaves the packets as they are. *)
Theorem ip4_input_exact s p k h inp : packets (mem s) !! p = Some k -> pk_hdr k = Some h -> 1 <= pk_clen k ->
  is_fragment h = false ->
  wp (ip4_input p inp) (fun e s' => e = ERR_OK /\ exists port, port_of h k port /\
    handled s p k h inp (ip_verdict (netif_list s) inp h (tot_len_of (mem s) p) port) s') s.
Proof.
  intros Hk Hh Hc Hf. apply (ip4_input_spec s p k h inp); try done.
  - intros port s' Hp D E. split; [done|]. exists port. split; [done|]. by rewrite E.
  - intros port n k' s1 Hp Hin (C1 & C2 & C3) E _ Es Ed. unfold go_on. rewrite Hf.
    eapply wp_mono; [apply (whole_spec s1 p k' h inp n); [by eapply in_hand_lookup|done]|].
    cbv beta. intros e s' (-> & _ & W). split; [done|]. exists port. split; [done|]. rewrite E. cbn.
    rewrite Es, Ed, C2 in W. destruct (known_proto _); [|by eapply dropped_in_hand]. destruct W as [W1 W2].
    split; [eapply same_queue_trans; [apply (ih_queue _ _ _ _ Hin)|done]|by eapply taken_in_hand].
Qed.
End Input.
