(* ===== verification/Ip4Run.v ===== *)
(** * The IP layer as a system

    Received packets, reassembly timer ticks and what the protocols do with their own
    packets as steps: whatever UDP, TCP and ICMP are given is what a peer sent. *)
From stdpp Require Import gmap.
From S2P Require Import Prelude Ip4Addr Ip4Hdr Net Ip4Reass ReassOk ReassSpec ReassRun Ip4Frag FragOk Ip4 Ip4Ok.

Section Run.
Context {X : Type} `{!ReassApi X, !ReassView X, !ReassLaws X, !Ip4Api X, !Ip4View X, !Ip4Laws X} (sent : senders).
#[local] Abbreviation sys := (ip_sys X).
Implicit Types (s : sys).

Definition up_reass (r r' : reass_sys X) : Prop := same_up (mem_of r) (mem_of r').
Lemma up_on_mem {A} (m : M X A) : frames same_up m -> frames up_reass (on_mem m).
Proof. intros H r. specialize (H (mem_of r)). unfold wp, on_mem in *. by destruct (m _). Qed.
Lemma up_keeps : keeps_steps up_reass.
Proof.
  constructor; try done; intros; try (apply up_on_mem; first [apply up_iph_put|apply up_free|apply up_hide|apply up_cat
    |apply up_icmp|apply up_malloc|apply up_mfree]).
  split; [done|]. intros a b c. apply same_up_trans.
Qed.

(** What the IP layer has is in order; the packets in the queue belong to nobody else. *)
Record ip_ok s : Prop := {
  io_queue : sys_ok sent (reass s);
  io_upper : forall p, p ∈ queued (reass s) -> p ∉ upper (mem s)
}.

(** The bytes come from a peer: a fragment of a datagram, or a whole one. *)
Definition from_peer (h : ip_hdr) (data : list Z) (d : datagram) : Prop :=
  sent (key h) = Some d /\ like (dg_hdr d) h /\ if is_fragment h then fragment_of d h data else data = dg_data d.
(** What was delivered is what a peer sent. *)
Definition genuine (e : delivery) : Prop := exists d h,
  sent (key h) = Some d /\ like (dg_hdr d) h /\
  up_proto e = IPH_PROTO h /\ up_src e = iph_src h /\ up_dest e = iph_dest h /\ up_data e = dg_data d.

Record received s (p : Z) (k : packet) (h : ip_hdr) (d : datagram) : Prop := {
  re_pk : packets (mem s) !! p = Some k;
  re_hdr : pk_hdr k = Some h;
  re_clen : 1 <= pk_clen k;
  re_new : p ∉ queued (reass s);
  re_upper : p ∉ upper (mem s);
  re_peer : from_peer h (take (Z.to_nat (ip_len h - hdr_len h)) (pk_data k)) d;
  re_apart : forall k', cut h k k' -> no_overlap (reass s) p k' h
}.

Inductive ip_step : relation sys :=
  | step_frame s p k h d inp : received s p k h d -> ip_step s (ip4_input p inp s).2
  | step_timer s : ip_step s (on_reass ip_reass_tmr s).2
  | step_others s x : (forall p, p ∈ queued (reass s) -> packets x !! p = packets (mem s) !! p /\ p ∉ upper x) ->
      reass_avail x = reass_avail (mem s) -> uplog x = uplog (mem s) ->
      ip_step s (s <| reass := (reass s) <| mem_of := x |> |>)
  | step_netifs s l o : ip_step s (s <| netif_list := l |> <| netif_default := o |>).

(** ** The queue *)
Lemma queued_alive s p : ip_ok s -> p ∈ queued (reass s) -> exists k, packets (mem s) !! p = Some k.
Proof.
  intros [[[Q _ _ _ _] _ _] _] (r & Hr & Hp)%pbufs_of_in. rewrite Forall_forall in Q.
  destruct (Q r Hr) as [(d & _ & _ & _ & F & _) _]. apply list_elem_of_fmap in Hp as (f & -> & Hf).
  rewrite Forall_forall in F. destruct (F f Hf) as [_ (k & H & _)]. by exists k.
Qed.
Lemma sys_ok_same (r r' : reass_sys X) : reassdatagrams r' = reassdatagrams r ->
  ip_reass_pbufcount r' = ip_reass_pbufcount r -> null_read r' = null_read r ->
  (forall p, p ∈ queued r -> pkts r' !! p = pkts r !! p) -> sys_ok sent r -> sys_ok sent r'.
Proof.
  intros E1 E2 E3 Hp H. assert (r' = r <| mem_of := mem_of r' |>) as -> by (destruct r, r'; cbn in *; by subst).
  by apply memory_ok.
Qed.
Lemma ip_ok_same s s' : same_queue s s' ->
  (forall p, p ∈ queued (reass s) -> packets (mem s') !! p = packets (mem s) !! p /\ p ∉ upper (mem s')) ->
  ip_ok s -> ip_ok s'.
Proof.
  intros [A B C D] Hp [H1 H2]. constructor.
  - eapply sys_ok_same; [done..| |done]. intros p Hq. by apply Hp.
  - intros p Hq. apply Hp. unfold queued in *. by rewrite <- A.
Qed.

Lemma in_hand_ok s p k s' : p ∉ queued (reass s) -> in_hand s p k s' -> ip_ok s -> ip_ok s'.
Proof.
  intros Hp [Q (P & A & [_ U])] H. apply (ip_ok_same s s' Q); [|done]. intros q Hq.
  rewrite P, U, lookup_insert_ne by (intros ->; done). split; [done|]. by apply (io_upper _ H).
Qed.
Lemma dropped_ok s p s' : p ∉ queued (reass s) -> dropped s p s' -> ip_ok s -> ip_ok s'.
Proof.
  intros Hp [Q P A [_ U]] H. apply (ip_ok_same s s' Q); [|done]. intros q Hq.
  rewrite P, U, lookup_delete_ne by (intros ->; done). split; [done|]. by apply (io_upper _ H).
Qed.
Lemma taken_ok s p s' d : p ∉ queued (reass s) -> same_queue s s' -> taken (mem s) (mem s') p d -> ip_ok s -> ip_ok s'.
Proof.
  intros Hp Q (T1 & T2 & T3 & T4 & T5) H. apply (ip_ok_same s s' Q); [|done]. intros q Hq.
  destruct (queued_alive s q H Hq) as [k Hk]. pose proof (io_upper _ H q Hq) as Hu.
  split; [rewrite Hk; apply T3; [by intros ->|done..]|]. intros Hq'.
  destruct (T4 q Hq') as [?|[->|?]]; [done..|congruence].
Qed.

(** ** A received packet *)

(** The invariant, and the log so far. *)
Definition ok_log (l : list delivery) s : Prop := ip_ok s /\ exists new, uplog (mem s) = l ++ new /\ Forall genuine new.

Lemma ok_log_dropped s p s' : ip_ok s -> p ∉ queued (reass s) -> dropped s p s' -> ok_log (uplog (mem s)) s'.
Proof.
  intros H Hp D. split; [by eapply dropped_ok|]. exists []. rewrite app_nil_r. split; [apply (dp_up _ _ _ D)|done].
Qed.
Lemma ok_log_taken s p s' e : ip_ok s -> p ∉ queued (reass s) -> same_queue s s' -> taken (mem s) (mem s') p e ->
  genuine e -> ok_log (uplog (mem s)) s'.
Proof.
  intros H Hp Q T G. split; [by eapply taken_ok|]. exists [e]. split; [apply T|by constructor].
Qed.

(** A whole datagram goes up. *)
Lemma whole_ok s q k h inp n d : ip_ok s -> q ∉ queued (reass s) -> packets (mem s) !! q = Some k -> pk_hdr k = Some h ->
  sent (key h) = Some d -> like (dg_hdr d) h -> pk_data k = dg_data d ->
  current_iphdr_src (ip_data s) = iph_src h -> current_iphdr_dest (ip_data s) = iph_dest h ->
  wp (ip4_input_whole q h (hdr_len h) inp n) (fun _ s' => ok_log (uplog (mem s)) s') s.
Proof.
  intros H Hq Hk Hh Hd Hl Edata Es Ed. eapply wp_mono; [by apply (whole_spec s q k h inp n)|].
  cbv beta. intros _ s' (_ & _ & W). destruct (known_proto (IPH_PROTO h)); [|by eapply ok_log_dropped].
  destruct W as [W1 W2]. eapply ok_log_taken; [done|exact Hq|done..|]. exists d, h. by rewrite Es, Ed.
Qed.

(** The fragments of a datagram give it back. *)
Lemma fragment_ok s p k h d inp n : ip_ok s -> arrives sent (reass s) p k h d -> no_overlap (reass s) p k h ->
  p ∉ upper (mem s) -> current_iphdr_src (ip_data s) = iph_src h -> current_iphdr_dest (ip_data s) = iph_dest h ->
  wp (q <- on_reass (ip4_reass p) ;;
      match q with
      | None => ret ERR_OK
      | Some q => iphdr <- getx (fun x => iph_of x q) ;; ip4_input_whole q iphdr (hdr_len h) inp n
      end) (fun _ s' => ok_log (uplog (mem s)) s') s.
Proof.
  intros [H1 H2] Ha Ho Hup Es Ed. pose proof Ha as [A1 A2 A3 A4 A5 A6]. apply wp_bind, wp_on_reass.
  eapply wp_mono; [apply (wp_and _ _ _ _ (reass_spec sent p k h d (reass s) H1 Ha Ho) (keeps_reass up_reass up_keeps p (reass s)))|].
  cbv beta. intros q r [[R _] [U1 U2]]. set (s1 := s <| reass := r |>).
  assert (Hok : ip_ok s1).
  { constructor; [apply R|]. intros x Hx. change (x ∉ upper (mem_of r)). rewrite U2.
    destruct (rt_sub _ _ _ _ _ _ R x Hx) as [Hq| ->]; [by apply H2|done]. }
  destruct q as [q|].
  2: { apply wp_ret. split; [done|]. exists []. rewrite app_nil_r. done. }
  destruct (rt_out _ _ _ _ _ _ R q eq_refl) as [(kq & hq & D1 & D2 & D3 & D4 & D5 & D6) Hq].
  apply wp_bind, wp_getx. change (mem s1) with (mem_of r). rewrite (law_iph (mem_of r) q kq hq D1 D2).
  assert (E : hdr_len h = hdr_len hq).
  { pose proof (fo_like _ _ _ A6) as (L & _). destruct D4 as (L' & _). unfold hdr_len, IPH_HL. by rewrite L, L'. }
  destruct D4 as (L1 & L2 & L3 & L4). pose proof (fo_like _ _ _ A6) as (M1 & M2 & M3 & M4).
  assert (Ek : key hq = key h) by congruence. injection Ek as Ek1 Ek2 Ek3.
  rewrite E. replace (uplog (mem s)) with (uplog (mem s1)) by exact U1.
  apply (whole_ok s1 q kq hq inp n d); try done; try congruence.
  all: cbn; congruence.
Qed.

Lemma frame_ok s p k h d inp : ip_ok s -> received s p k h d ->
  wp (ip4_input p inp) (fun _ s' => ok_log (uplog (mem s)) s') s.
Proof.
  intros H [R1 R2 R3 R4 R5 (Hd & Hl & R6) R7].
  apply (ip4_input_spec s p k h inp); [done..| |].
  - intros port s' _ D _. by eapply ok_log_dropped.
  - intros port n k' s1 _ Hin Hcut _ _ Es Ed. pose proof (in_hand_ok _ _ _ _ R4 Hin H) as H1.
    pose proof (in_hand_lookup _ _ _ _ Hin) as Hk'. pose proof Hcut as (C1 & C2 & C3).
    destruct Hin as [[Q1 Q2 Q3 Q4] (P & A & [U1 U2])].
    assert (Eq : queued (reass s1) = queued (reass s)) by (unfold queued; by rewrite Q1).
    rewrite <- U1. rewrite <- C2 in R6. rewrite <- Eq in R4. unfold go_on. destruct (is_fragment h).
    + apply (fragment_ok s1 p k' h d); try done; [|by rewrite U2].
      intros r Hr Hkey. rewrite Q1 in Hr. exact (R7 k' Hcut r Hr Hkey).
    + by apply (whole_ok s1 p k' h inp n d).
Qed.

Lemma ip_timer_ok s : ip_ok s -> wp (on_reass ip_reass_tmr) (fun _ s' => ok_log (uplog (mem s)) s') s.
Proof.
  intros [H1 H2]. apply wp_on_reass.
  eapply wp_mono; [apply (wp_and _ _ _ _ (tmr_spec sent (reass s) H1) (keeps_tmr up_reass up_keeps (reass s)))|].
  cbv beta. intros _ r [[A _] [U1 U2]]. split; [|exists []; rewrite app_nil_r; done]. constructor; [apply A|].
  intros p Hp. change (p ∉ upper (mem_of r)). rewrite U2. apply H2. by eapply shrinks_queued.
Qed.

Lemma ip_step_ok s s' : ip_step s s' -> ip_ok s -> ok_log (uplog (mem s)) s'.
Proof.
  intros H Hs. destruct H as [s p k h d inp Hr|s|s x Hx Ha Hu|s l o].
  - pose proof (frame_ok s p k h d inp Hs Hr) as W. unfold wp in W. by destruct (ip4_input p inp s).
  - pose proof (ip_timer_ok s Hs) as W. unfold wp in W. by destruct (on_reass _ s).
  - split; [|exists []; rewrite app_nil_r; done]. constructor.
    + apply memory_ok; [|apply Hs]. intros p Hp. by apply Hx.
    + intros p Hp. by apply Hx.
  - split; [|exists []; rewrite app_nil_r; done]. destruct Hs as [H1 H2]. by constructor.
Qed.

(** C30. In every state that received frames, reassembly timer ticks and the activity of
    the protocols reach, everything UDP, TCP and ICMP were given is exactly a datagram
    that a peer sent to that address, whole or put together from non-overlapping
    fragments in any order, padding cut off; the reassembly queue is well formed and its
    packets belong to nobody else. *)
Theorem ip_deliveries_genuine s0 s : idle (reass s0) -> uplog (mem s0) = [] -> rtc ip_step s0 s ->
  Forall genuine (uplog (mem s)) /\ ip_ok s.
Proof.
  intros Hi Hl Hr. assert (H0 : ip_ok s0 /\ Forall genuine (uplog (mem s0))).
  { rewrite Hl. split; [|done]. constructor; [by apply idle_ok|]. destruct Hi as (E & _ & _). unfold queued.
    rewrite E. by intros p Hp%elem_of_nil. }
  clear Hi Hl. induction Hr as [s|s1 s2 s3 H _ IH]; [tauto|]. apply IH. destruct H0 as [Hok Hg].
  destruct (ip_step_ok _ _ H Hok) as [Hok' (new & E & Hn)]. split; [done|]. rewrite E. by apply Forall_app.
Qed.
End Run.
