(* ===== verification/Ip4Round.v ===== *)
(** * From [ip4_output] to [ip4_input]

    A datagram that one host sends, in fragments if the MTU asks for it, reaches the
    protocol of the other host once, with the bytes, source and destination it was sent
    with, in whatever order the fragments arrive. *)
From stdpp Require Import gmap.
From S2P Require Import Prelude Ip4Addr Ip4Hdr Net Ip4Reass ReassOk ReassSpec ReassRun Ip4Frag FragOk FragRound Ip4 Ip4Ok Ip4Run.

(** ** The sender *)
Section Send.
Context {Y : Type} `{!FragApi Y, !FragView Y, !FragLaws Y, !Ip4OutApi Y}.

(** [payload y p data]: [p] is a packet of a protocol; [headed]: with room for the header. *)
Class Ip4OutLaws (payload headed : Y -> Z -> list Z -> Prop) : Prop := {
  law_reveal y p data : payload y p data ->
    wp (reveal_header p) (fun full y' => wire y' = wire y /\ (full = false -> headed y' p data)) y;
  law_headed y p data : headed y p data -> p_tot_len y p = IP_HLEN + slen data;
  law_put_headed y p data h : headed y p data -> IPH_HL h = 5 -> Z.land (lwip_htons (IPH_OFFSET h)) IP_MF = 0 ->
    IP_HLEN + slen data < 65536 ->
    wp (header_put p h) (fun _ y' => wire y' = wire y /\ headed y' p data /\ whole_datagram y' p h data) y;
  law_output_whole y p h data nif dest : headed y p data -> whole_datagram y p h data ->
    wp (netif_output nif p dest) (fun _ y' => wire y' = wire y ++ [(nf_num nif, dest, (h, data))]) y
}.
Context (payload headed : Y -> Z -> list Z -> Prop) `{!Ip4OutLaws payload headed}.

Definition source (src : option Z) (n : ip_netif) : Z :=
  match src with Some a => if a =? IPADDR_ANY then nf_addr n else a | None => nf_addr n end.
(** What goes out for a datagram with the header [h]. *)
Definition frames_of (h : ip_hdr) (mtu : Z) (data : list Z) : list (ip_hdr * list Z) :=
  if mtu <? IP_HLEN + slen data then fragments_of h mtu data else [(h, data)].

Lemma new_hdr_hl ttl tos proto n id src dest : IPH_HL (new_hdr ttl tos proto n id src dest) = 5.
Proof. done. Qed.
Lemma new_hdr_v ttl tos proto n id src dest : IPH_V (new_hdr ttl tos proto n id src dest) = 4.
Proof. done. Qed.

Lemma ip4_output_spec (t : ip_sys Y) p src dest ttl tos proto data n :
  payload (mem t) p data -> IP_HLEN + slen data < 65536 -> ip4_route dest (netif_list t) (netif_default t) = Some n ->
  28 <= nf_mtu n < 65536 ->
  let h := new_hdr ttl tos proto (IP_HLEN + slen data) (ip_id t) (source src n) dest in
  wp (ip4_output p src dest ttl tos proto) (fun o t' => exists did todo,
    wire (mem t') = wire (mem t) ++ (pair (nf_num n, dest) <$> did) /\
    ((o = Some ERR_BUF /\ did = []) \/
     ip_id t' = u16 (ip_id t + 1) /\ frames_of h (nf_mtu n) data = did ++ todo /\ (o = Some ERR_OK -> todo = []))) t.
Proof.
  intros Hp Hlen Hr Hm h. unfold ip4_output. apply wp_bind, wp_gets, wp_bind, wp_gets. rewrite Hr.
  unfold ip4_output_if, ip4_output_if_src.
  replace (match (if ip4_addr_isany src then Some (nf_addr n) else src) with Some a => a | None => IPADDR_ANY end)
    with (source src n) by (unfold source, ip4_addr_isany; destruct src as [a|]; [by destruct (a =? _)|done]).
  apply wp_bind, wp_bind, wp_on_x. eapply wp_mono; [by apply law_reveal|]. cbv beta. intros full y (W & Hh).
  destruct full; [apply wp_ret, wp_ret; exists [], []; rewrite app_nil_r; by split; [|left]|].
  specialize (Hh eq_refl). set (t1 := t <| reass := _ |>). apply wp_bind, wp_getx, wp_bind, wp_gets, wp_bind, wp_on_x.
  change (mem t1) with y. rewrite (law_headed y p data Hh). change (ip_id t1) with (ip_id t). fold h.
  eapply wp_mono; [by apply (law_put_headed y p data h)|]. cbv beta. intros _ y2 (W2 & Hh2 & D).
  apply wp_bind, wp_modify, wp_ret, wp_bind, wp_getx. set (t2 := _ <| ip_id := _ |>).
  change (mem t2) with y2. rewrite (proj1 (wd_len _ _ _ _ D)).
  rewrite (proj2 (Z.eqb_neq (nf_mtu n) 0)) by lia. cbn [negb andb]. unfold frames_of.
  destruct (nf_mtu n <? IP_HLEN + slen data).
  - apply wp_on_x. eapply wp_mono; [by apply (ip4_frag_spec y2 p h data n dest)|]. cbv beta.
    intros o y3 (_ & _ & _ & did & todo & F1 & F2 & F3). exists did, todo.
    split; [change (wire y3 = wire (mem t) ++ (pair (nf_num n, dest) <$> did)); congruence|]. right.
    split; [done|]. split; [done|]. intros E. destruct todo; [done|]. by rewrite E in F3.
  - apply wp_bind, wp_on_x. eapply wp_mono; [by apply (law_output_whole y2 p h data n dest)|]. cbv beta.
    intros e y3 F. apply wp_ret. exists [(h, data)], []. split; [|by right].
    change (wire y3 = wire (mem t) ++ (pair (nf_num n, dest) <$> [(h, data)])). by rewrite F, W2, W.
Qed.
End Send.

(** ** The receiver *)
Section Receive.
Context {X : Type} `{!ReassApi X, !ReassView X, !ReassLaws X, !Ip4Api X, !Ip4View X, !Ip4Laws X} (d : datagram).
#[local] Abbreviation sys := (ip_sys X).
Implicit Types (s : sys).

Fixpoint ip_input_all (inp : ip_netif) (l : list Z) : M sys unit :=
  match l with
  | [] => ret tt
  | p :: l => ip4_input p inp ;;; ip_input_all inp l
  end.

Variables (inp n : ip_netif).
(** The host takes packets with the header: version and length are right, the protocol is
    known, the destination is its own, the source is not a broadcast. *)
Record for_host s (h : ip_hdr) : Prop := {
  fh_v : IPH_V h = 4;
  fh_hl : IPH_HL h = 5;
  fh_proto : known_proto (IPH_PROTO h) = true;
  fh_dest : match_netif (iph_dest h) inp (netif_list s) = Some n;
  fh_src : bad_source inp (iph_src h) = false
}.

(** A packet without padding is not cut: it goes on as it is. *)
Lemma ip4_input_unpadded s p k h Q : packets (mem s) !! p = Some k -> pk_hdr k = Some h ->
  lwip_htons (IPH_LEN h) = IP_HLEN + slen (pk_data k) -> for_host s h ->
  (forall s1, reass s1 = reass s -> netif_list s1 = netif_list s ->
     current_iphdr_src (ip_data s1) = iph_src h -> current_iphdr_dest (ip_data s1) = iph_dest h ->
     wp (go_on p h inp n) Q s1) -> wp (ip4_input p inp) Q s.
Proof.
  intros Hk Hh Hlen [H1 H2 H3 H4 H5] W.
  assert (E : hdr_len h = IP_HLEN) by (unfold hdr_len; by rewrite H2).
  destruct (law_lens (mem s) p k h Hk Hh) as [L1 L2]; [by rewrite E|]. rewrite E in L1, L2.
  unfold ip4_input. apply wp_bind, wp_getx. rewrite (law_iph (mem s) p k h Hk Hh), H1. cbn [Z.eqb Pos.eqb negb].
  cbv zeta. rewrite hdr_len_u16, E, Hlen. unfold ip4_input_trim.
  apply wp_bind, wp_bind, wp_getx. rewrite L1, Z.ltb_irrefl.
  apply wp_bind, wp_ret, wp_bind, wp_getx, wp_bind, wp_getx, wp_ret. rewrite L1, Z.ltb_irrefl.
  rewrite (proj2 (Z.ltb_ge _ _) L2), Z.ltb_irrefl. cbn [orb negb]. apply wp_bind, wp_modify. set (s1 := s <| ip_data := _ |>).
  unfold ip4_input_netif. apply wp_bind, wp_bind, wp_gets. change (netif_list s1) with (netif_list s). rewrite H4.
  apply wp_bind, wp_getx, wp_ret. cbn [andb]. fold (bad_source inp (iph_src h)). rewrite H5.
  specialize (W s1 eq_refl eq_refl eq_refl eq_refl). unfold go_on in W. rewrite E in W. exact W.
Qed.

(** What the protocol is given. *)
Definition arrived (h : ip_hdr) : delivery :=
  mkUp (IPH_PROTO h) (iph_src h) (iph_dest h) (Some (nf_num n)) (nf_num inp) (dg_data d).
Lemma whole_arrives s p k h : packets (mem s) !! p = Some k -> pk_hdr k = Some h -> pk_data k = dg_data d ->
  known_proto (IPH_PROTO h) = true ->
  current_iphdr_src (ip_data s) = iph_src h -> current_iphdr_dest (ip_data s) = iph_dest h ->
  wp (ip4_input_whole p h (hdr_len h) inp n) (fun _ s' => same_queue s s' /\
    uplog (mem s') = uplog (mem s) ++ [arrived h]) s.
Proof.
  intros Hk Hh Ed Hp Es Hd. eapply wp_mono; [by apply (whole_spec s p k h inp n)|].
  cbv beta. intros _ s' (_ & _ & W). rewrite Hp in W. destruct W as [W1 (W2 & _)]. split; [done|].
  rewrite W2. unfold arrived. by rewrite Es, Hd, Ed.
Qed.

Lemma idle_same (s s' : sys) : same_queue s s' -> sys_ok (one_sender d) (reass s) -> idle (reass s) -> idle (reass s').
Proof. intros [A B C D] _ (E1 & E2 & E3). unfold idle. by rewrite A, B, C. Qed.

(** One fragment. *)
Lemma ip_round P0 got a todo s : valid d P0 (got ++ a :: todo) -> between d P0 got (a :: todo) (reass s) ->
  for_host s a.2.1 -> is_fragment a.2.1 = true -> like (dg_hdr d) a.2.1 ->
  wp (ip4_input a.1 inp) (fun _ s' => netif_list s' = netif_list s /\ exists o r, after d P0 (got ++ [a]) todo o r /\
    match o with
    | None => reass s' = r /\ uplog (mem s') = uplog (mem s)
    | Some _ => idle (reass s') /\ uplog (mem s') = uplog (mem s) ++ [arrived (dg_hdr d)]
    end) s.
Proof.
  intros V B Hf Hfrag Hl. pose proof (va_holds _ _ _ V) as Vh.
  apply Forall_app in Vh as [_ [(k & K1 & K2 & K3 & K4) _]%Forall_cons].
  pose proof (va_frag _ _ _ V) as Vf. apply Forall_app in Vf as [_ [Vf _]%Forall_cons].
  assert (Hk : packets (mem s) !! a.1 = Some k).
  { rewrite <- K1. apply (bt_pk _ _ _ _ _ B). apply elem_of_app. right. by left. }
  apply (ip4_input_unpadded s a.1 k a.2.1); try done; [rewrite K3; apply (fo_len _ _ _ Vf)|].
  intros s1 E1 E2 E3 E4. unfold go_on. rewrite Hfrag. apply wp_bind, wp_on_reass. rewrite E1.
  eapply wp_mono; [apply (wp_and _ _ _ _ (step_spec d P0 got a todo (reass s) V B)
    (keeps_reass up_reass up_keeps a.1 (reass s)))|].
  cbv beta. intros o r [Ha [U1 U2]]. set (s2 := s1 <| reass := r |>). destruct o as [q|].
  2: { apply wp_ret. split; [done|]. exists None, r. split; [done|]. split; [done|exact U1]. }
  pose proof Ha as (r' & _ & _ & _ & (kq & hq & D1 & D2 & D3 & D4 & _) & Hi).
  apply wp_bind, wp_getx. change (mem s2) with (mem_of r). rewrite (law_iph (mem_of r) q kq hq D1 D2).
  destruct D4 as (L1 & L2 & L3 & L4), Hl as (M1 & M2 & M3 & M4).
  assert (E : hdr_len a.2.1 = hdr_len hq) by (unfold hdr_len, IPH_HL; by rewrite L1, M1). rewrite E.
  assert (Ek : key hq = key a.2.1) by congruence. injection Ek as Ek1 Ek2 Ek3.
  assert (Ek : key hq = key (dg_hdr d)) by congruence. injection Ek as Ek1' Ek2' Ek3'.
  eapply wp_mono; [apply (whole_arrives s2 q kq hq); try done|].
  - rewrite L3, <- M3. apply Hf.
  - change (current_iphdr_src (ip_data s1) = iph_src hq). congruence.
  - change (current_iphdr_dest (ip_data s1) = iph_dest hq). congruence.
  - cbv beta. intros _ s' [Q G]. split; [rewrite (sq_nets _ _ Q); exact E2|]. exists (Some q), r. split; [done|].
    split; [destruct Q as [Q1 Q2 Q3 Q4], Hi as (I1 & I2 & I3); unfold idle; rewrite Q1, Q2, Q3; done|].
    rewrite G. change (uplog (mem s2)) with (uplog (mem_of r)). rewrite U1. unfold mem. do 2 f_equal.
    unfold arrived. by rewrite L3, Ek1', Ek2'.
Qed.

Lemma for_host_like s s' h h' : like h h' -> netif_list s' = netif_list s -> for_host s h -> for_host s' h'.
Proof.
  intros (L1 & _ & L3 & L4) E [H1 H2 H3 H4 H5]. injection L4 as L4 L5 _.
  constructor; unfold IPH_V, IPH_HL in *; rewrite ?L1, ?L3, ?L4, ?L5, ?E; done.
Qed.

Lemma ip_rounds P0 todo : forall got s, valid d P0 (got ++ todo) -> between d P0 got todo (reass s) -> todo <> [] ->
  total (frag_at <$> (got ++ todo)) = slen (dg_data d) -> existsb (fun a => is_last a.2) (got ++ todo) = true ->
  for_host s (dg_hdr d) -> Forall (fun a => is_fragment a.2.1 = true) todo ->
  wp (ip_input_all inp todo.*1) (fun _ s' => idle (reass s') /\
    uplog (mem s') = uplog (mem s) ++ [arrived (dg_hdr d)]) s.
Proof.
  induction todo as [|a todo IH]; intros got s V B Hne Ht Hl Hh Hf; [done|]. rewrite fmap_cons. cbn [ip_input_all].
  apply Forall_cons in Hf as [Hf1 Hf]. pose proof (va_frag _ _ _ V) as Vf. pose proof Vf as Vf0.
  apply Forall_app in Vf0 as [_ [Va _]%Forall_cons]. pose proof (fo_like _ _ _ Va) as Hlike.
  wp_call (ip_round P0 got a todo s V B (for_host_like _ _ _ _ Hlike eq_refl Hh) Hf1 Hlike)
    as e s1 (En & o & r & (r' & E1 & E2 & E3) & Ho).
  replace (got ++ a :: todo) with ((got ++ [a]) ++ todo) in V, Vf, Ht, Hl by (by rewrite <- app_assoc).
  destruct o as [q|].
  - destruct E3 as (Hc & _ & _). assert (todo = []) as -> by (by apply (complete_all d (got ++ [a]) todo r')).
    by apply wp_ret.
  - destruct E3 as (Hc & Hord & B1). destruct Ho as [Er Eu]. assert (todo <> []).
    { intros ->. rewrite app_nil_r in Vf, Ht, Hl. rewrite (all_complete d (got ++ [a]) r') in Hc; try done. by destruct got. }
    rewrite <- Eu. apply (IH (got ++ [a])); try done; [by rewrite Er|].
    apply (for_host_like s s1 (dg_hdr d)); [done| |done]. done.
Qed.

(** All fragments of a datagram, in any order. *)
Lemma ip_input_fragments fs ps s : tiles d fs 0 -> dg_data d <> [] -> ps.*2 ≡ₚ fs -> idle (reass s) ->
  0 < avail (reass s) -> Forall (holds_frag (packets (mem s))) ps -> NoDup ps.*1 ->
  clens (packets (mem s)) ps.*1 <= IP_REASS_MAX_PBUFS -> for_host s (dg_hdr d) ->
  Forall (fun f => slen f.2 < slen (dg_data d)) fs ->
  wp (ip_input_all inp ps.*1) (fun _ s' => idle (reass s') /\
    uplog (mem s') = uplog (mem s) ++ [arrived (dg_hdr d)]) s.
Proof.
  intros T Hne Hp Hi Ha Hh Hn Hc Hhost Hsmall.
  assert (Hfrag : Forall (fun a => is_fragment a.2.1 = true) ps).
  { apply Forall_forall. intros a Hin. assert (Hf : a.2 ∈ fs) by (rewrite <- Hp; by apply list_elem_of_fmap_2).
    pose proof (ti_frags _ _ _ T) as Tf. rewrite Forall_forall in Tf, Hsmall. pose proof (Tf _ Hf) as F.
    specialize (Hsmall _ Hf). destruct (is_fragment a.2.1) eqn:E; [done|]. exfalso.
    unfold is_fragment in E. apply negb_false_iff, Z.eqb_eq, offset_zero in E as [E1 E2].
    apply (fo_last _ _ _ F) in E1. apply (fo_first _ _ _ F) in E2. lia. }
  assert (Hd : 0 < slen (dg_data d)) by (destruct (dg_data d); [done|unfold slen; cbn; lia]).
  destruct (frag_at_tiles ps) as [F1 F2]. destruct (start_valid d fs ps (reass s) T Hp Hi Ha Hh Hn Hc) as [V B].
  apply (ip_rounds (packets (mem s)) ps []); try done.
  - intros ->. destruct T as [_ _ T3 _]. rewrite <- Hp in T3. cbn in T3. lia.
  - cbn [app]. rewrite F1, Hp. rewrite (ti_total _ _ _ T). lia.
  - by apply (some_last d fs).
Qed.
End Receive.

Section RoundTrip.
Context {X Y : Type} `{!ReassApi X, !ReassView X, !ReassLaws X, !Ip4Api X, !Ip4View X, !Ip4Laws X}.
Context `{!FragApi Y, !FragView Y, !FragLaws Y, !Ip4OutApi Y} (payload headed : Y -> Z -> list Z -> Prop)
  `{!Ip4OutLaws payload headed}.

Lemma ip_input_frames h data mtu ps (s : ip_sys X) inp n : data <> [] -> IP_HLEN + slen data < 65536 ->
  28 <= mtu < 65536 -> (mtu - IP_HLEN) mod 8 = 0 ->
  IPH_LEN h = lwip_htons (IP_HLEN + slen data) -> IPH_OFFSET h = 0 -> for_host inp n s h ->
  ps.*2 ≡ₚ frames_of h mtu data -> idle (reass s) -> 0 < avail (reass s) ->
  Forall (holds_frag (packets (mem s))) ps -> NoDup ps.*1 -> clens (packets (mem s)) ps.*1 <= IP_REASS_MAX_PBUFS ->
  wp (ip_input_all inp ps.*1) (fun _ s' => idle (reass s') /\
    uplog (mem s') = uplog (mem s) ++ [arrived (mkDg h data) inp n h]) s.
Proof.
  intros Hne Hlen Hm Hmod El Eo Hh Hps Hi Ha Hheld Hn Hc. unfold frames_of in Hps.
  pose proof Hh as [_ H5 _ _ _]. destruct (Z.ltb_spec mtu (IP_HLEN + slen data)) as [Hlt|Hge].
  - apply (ip_input_fragments (mkDg h data) inp n (fragments_of h mtu data)); try done.
    + apply fragments_of_tiles; try done; [unfold IP_HLEN in *; lia|]. by rewrite Eo.
    + destruct (fragments_cover h mtu (length data) Hm (Z.land (lwip_htons (IPH_OFFSET h)) IP_OFFMASK) data) as [F _]; [done|].
      eapply Forall_impl; [exact F|]. cbv beta. intros f [_ H]. cbn [dg_data]. lia.
  - symmetry in Hps. apply Permutation_singleton_l in Hps. destruct ps as [|[p f] [|]]; try done. cbn in Hps. assert (f = (h, data)) as -> by congruence.
    apply Forall_cons in Hheld as [(k & K1 & K2 & K3 & _) _]. cbn [fst snd] in *.
    change ([(p, (h, data))].*1) with [p]. cbn [ip_input_all]. apply wp_bind.
    apply (ip4_input_unpadded inp n s p k h); try done.
    { rewrite El, K3. apply htons_htons. unfold slen, IP_HLEN in *. lia. }
    intros s1 E1 E2 E3 E4. unfold go_on, is_fragment. rewrite Eo. cbn [Z.land Z.eqb negb].
    eapply wp_mono; [apply (whole_arrives (mkDg h data) inp n s1 p k h); try done; [unfold mem; by rewrite E1|apply Hh]|].
    cbv beta. intros _ s' [Q G]. apply wp_ret. unfold mem in *. rewrite E1 in G. split; [|done].
    destruct Q as [Q1 Q2 Q3 _], Hi as (I1 & I2 & I3). unfold idle. rewrite Q1, Q2, Q3, E1. done.
Qed.

(** C29. A datagram with data that ip4_output has sent with success, whole or in
    fragments of an MTU that is 20 modulo 8, reaches the protocol of a receiving host
    exactly once through ip4_input, in whatever order its frames arrive: with the bytes,
    protocol, source and destination it was sent with; nothing is left in the receiver's
    queue. The receiver has no reassembly under way and a free element for one, and the
    frames together are at most the 10 pbufs that it queues (IP_REASS_MAX_PBUFS). *)
Theorem ip_roundtrip (t t' : ip_sys Y) (s : ip_sys X) p src dest ttl tos proto data out inp n frames ps :
  payload (mem t) p data -> data <> [] -> IP_HLEN + slen data < 65536 ->
  ip4_route dest (netif_list t) (netif_default t) = Some out ->
  28 <= nf_mtu out < 65536 -> (nf_mtu out - IP_HLEN) mod 8 = 0 ->
  ip4_output p src dest ttl tos proto t = (Some ERR_OK, t') -> wire (mem t') = wire (mem t) ++ frames ->
  ps.*2 ≡ₚ frames.*2 -> idle (reass s) -> 0 < avail (reass s) ->
  Forall (holds_frag (packets (mem s))) ps -> NoDup ps.*1 -> clens (packets (mem s)) ps.*1 <= IP_REASS_MAX_PBUFS ->
  0 <= proto < 256 -> known_proto proto = true ->
  match_netif dest inp (netif_list s) = Some n -> bad_source inp (source src out) = false ->
  wp (ip_input_all inp ps.*1) (fun _ s' => idle (reass s') /\
    uplog (mem s') = uplog (mem s) ++ [mkUp proto (source src out) dest (Some (nf_num n)) (nf_num inp) data]) s.
Proof.
  intros Hp Hne Hlen Hr Hm Hmod Hrun Hwire Hps Hi Ha Hheld Hn Hc Hproto Hk Hd Hs.
  pose proof (wp_run _ _ _ _ _ (ip4_output_spec payload headed t p src dest ttl tos proto data out Hp Hlen Hr Hm) Hrun)
    as (did & todo & W & C).
  destruct C as [[? _]|(_ & F & E)]; [done|]. rewrite (E eq_refl), app_nil_r in F. rewrite Hwire in W.
  apply app_inv_head in W. subst frames did. set (h := new_hdr _ _ _ _ _ _ _) in *.
  assert (Ep : u8 proto = proto) by (by apply u8_small).
  replace (mkUp proto _ _ _ _ _) with (arrived (mkDg h data) inp n h) by (unfold arrived, h; cbn; by rewrite Ep).
  apply (ip_input_frames h data (nf_mtu out)); try done.
  - constructor; try done. change (known_proto (u8 proto) = true). by rewrite Ep.
  - rewrite Hps, <- list_fmap_compose. cbn. by rewrite list_fmap_id.
Qed.
End RoundTrip.
