(* ===== verification/SimIp4.v ===== *)
(** * Two hosts in memory

    The memory of SimReass.v with protocols that note what they are given, as an
    implementation of [Ip4Api], and the memory of SimFrag.v as a sender; the witnesses of
    the theorems on the IP layer run on them. *)
From stdpp Require Import gmap.
From S2P Require Import Prelude Ip4Addr Ip4Hdr Net Ip4Reass ReassOk SimReass ReassSpec ReassRun Ip4Frag FragOk SimFrag FragRound Ip4 Ip4Ok Ip4Run Ip4Round.

Record imem := mkImem { im_mem : smem; im_log : list delivery }.
#[export] Instance imem_eta : Eta imem := fun m => mkImem (im_mem m) (im_log m).
Definition on_sm {A} (m : M smem A) : M imem A := fun s => let '(a, x) := m (im_mem s) in (a, s <| im_mem := x |>).

#[export] Instance imem_reass : ReassApi imem := {
  iph_of m := iph_of (im_mem m); iph_put p h := on_sm (iph_put p h); pbuf_clen m := pbuf_clen (im_mem m);
  pbuf_free p := on_sm (pbuf_free p); hide_header p := on_sm (hide_header p); pbuf_cat p q := on_sm (pbuf_cat p q);
  icmp_time_exceeded p := on_sm (icmp_time_exceeded p); reassdata_malloc := on_sm reassdata_malloc;
  reassdata_free := on_sm reassdata_free
}.
#[export] Instance imem_view : ReassView imem := { packets m := packets (im_mem m); reass_avail m := reass_avail (im_mem m) }.
Lemma wp_on_sm {A} (m : M smem A) (Q : A -> imem -> Prop) (R : A -> smem -> Prop) x : wp m R (im_mem x) ->
  (forall a y, R a y -> Q a (x <| im_mem := y |>)) -> wp (on_sm m) Q x.
Proof. unfold wp, on_sm. destruct (m _). auto. Qed.
#[export] Instance imem_laws : ReassLaws imem.
Proof.
  constructor.
  - intros x p k h. exact (law_iph (im_mem x) p k h).
  - intros x p k. exact (law_clen (im_mem x) p k).
  - intros x p k h H1 H2. eapply wp_on_sm; [by apply (law_put (im_mem x) p k h)|done].
  - intros x p k H1. eapply wp_on_sm; [by apply (law_free (im_mem x) p k)|done].
  - intros x p k H1 H2. eapply wp_on_sm; [by apply (law_hide (im_mem x) p k)|done].
  - intros x p q kp kq H1 H2 H3 H4. eapply wp_on_sm; [by apply (law_cat (im_mem x) p q kp kq)|done].
  - intros x p k H. eapply wp_on_sm; [by apply (law_icmp (im_mem x) p k)|done].
  - intros x. eapply wp_on_sm; [apply (law_malloc (im_mem x))|done].
  - intros x. eapply wp_on_sm; [apply (law_mfree (im_mem x))|done].
Qed.

(** A packet is one piece: the header, if it is there, and the bytes. *)
Definition pk_size (k : packet) : Z := match pk_hdr k with Some h => hdr_len h | None => 0 end + slen (pk_data k).
Definition size_at (m : imem) (p : Z) : Z := match sm_pkts (im_mem m) !! p with Some k => pk_size k | None => 0 end.
Definition alter_pk (f : packet -> packet) (p : Z) : M imem unit := on_sm (sim_map (alter f p)).
Definition shorten (n : Z) (k : packet) : packet :=
  match pk_hdr k with
  | Some h => if hdr_len h <=? n then mkPk (Some h) (take (Z.to_nat (n - hdr_len h)) (pk_data k)) (Z.max 1 (pk_clen k))
              else mkPk None (repeat 0 (Z.to_nat n)) 1
  | None => k
  end.
Definition note (proto : Z) (g : ip_globals) (p : Z) (inp : ip_netif) : M imem unit := fun m =>
  match sm_pkts (im_mem m) !! p with
  | Some k => (on_sm (pbuf_free p) ;;; modify (fun m => m <| im_log := im_log m ++ [delivery_of proto g inp (pk_data k)] |>)) m
  | None => (tt, m)
  end.
#[export] Instance imem_ip4 : Ip4Api imem := {
  len_of := size_at; tot_len_of := size_at;
  udp_dest_at m p _ := match sm_pkts (im_mem m) !! p with Some k => nth 2 (pk_data k) 0 + 256 * nth 3 (pk_data k) 0 | None => 0 end;
  pbuf_realloc p n := alter_pk (shorten n) p;
  pbuf_header p _ := alter_pk (fun k => k <| pk_hdr := None |>) p ;;; ret false;
  pbuf_header_force _ _ := ret false;
  payload_to_iphdr _ := ret tt;
  udp_input := note IP_PROTO_UDP; tcp_input := note IP_PROTO_TCP; icmp_input := note IP_PROTO_ICMP;
  icmp_dest_unreach _ := ret tt
}.
#[export] Instance imem_ip4_view : Ip4View imem := { uplog := im_log; upper _ := ∅ }.

Lemma same_on_sm {A} (m : M smem A) : frames same_up (on_sm m).
Proof. intros x. unfold wp, on_sm. by destruct (m _). Qed.
Lemma alter_pk_spec f p x k : packets x !! p = Some k -> wp (alter_pk f p) (fun _ x' => packet_set x x' p (f k)) x.
Proof. intros H. unfold wp. cbn. split; [|done]. by apply alter_insert_g. Qed.
Lemma note_spec proto g p inp x k : packets x !! p = Some k ->
  wp (note proto g p inp) (fun _ x' => taken x x' p (delivery_of proto g inp (pk_data k))) x.
Proof.
  intros H. cbn in H. unfold wp, note. rewrite H. cbn. split; [done|]. split; [done|]. split; [|split; [done|]].
  - intros q kq Hq _ Hk. change (delete p (sm_pkts (im_mem x)) !! q = Some kq). by rewrite lookup_delete_ne.
  - intros _. change (delete p (sm_pkts (im_mem x)) !! p = None). apply lookup_delete_eq.
Qed.
Lemma set_self x p k : packets x !! p = Some k -> packet_set x x p k.
Proof. intros H. split; [by rewrite insert_id|done]. Qed.

#[export] Instance imem_ip4_laws : Ip4Laws imem.
Proof.
  constructor; try (intros; apply same_on_sm).
  - intros x p k h H1 H2 _. cbn in *. unfold size_at. rewrite H1. unfold pk_size. rewrite H2. unfold slen. lia.
  - intros x p k h n H1 H2 [H3 H4]. cbn in H1, H4. pose proof (hdr_len_range h).
    eapply wp_mono; [by apply alter_pk_spec|]. cbv beta. intros _ x' P.
    assert (Hs : size_at x' p = n).
    { unfold size_at. change (sm_pkts (im_mem x')) with (packets x'). destruct P as [-> _]. rewrite lookup_insert_eq.
      unfold size_at in H4. rewrite H1 in H4. unfold pk_size, shorten in *. rewrite H2 in *.
      destruct (Z.leb_spec (hdr_len h) n); cbn; unfold slen in *; [rewrite length_take; lia|rewrite repeat_length; lia]. }
    split; [done|]. split; [cbn; rewrite Hs; lia|]. exists (shorten n k). split; [done|]. unfold shorten. rewrite H2.
    destruct (Z.leb_spec (hdr_len h) n); cbn; split; try lia. done.
  - intros x p k h H1 H2 _. cbn in *. by rewrite H1.
  - intros x p k h H1 H2. change (wp (alter_pk (fun k => k <| pk_hdr := None |>) p ;;; ret false) (fun _ x' => packet_set x x' p (k <| pk_hdr := None |>)) x).
    apply wp_bind. eapply wp_mono; [by apply alter_pk_spec|]. cbv beta. intros _ x' P. by apply wp_ret.
  - intros x p k n H. exists k. by apply set_self.
  - intros x p k H. exists k. by apply set_self.
  - done.
  - intros x g p k inp H _. by apply note_spec.
  - intros x g p k inp H _. by apply note_spec.
  - intros x g p k inp H _. by apply note_spec.
Qed.

(** ** The sender *)
#[export] Instance fmem_out : Ip4OutApi fmem := { reveal_header _ := ret false }.
(** The datagram is the chain of the memory, with room for a header in front. *)
Definition fm_headed (m : fmem) (p : Z) (data : list Z) : Prop :=
  chain_at m (fm_chain m) /\ IP_HLEN <= head_len (fm_chain m) /\ remaining m (fm_chain m) IP_HLEN = data /\
  chain_sum (fm_chain m) = IP_HLEN + slen data /\ fm_owned m !! p = None /\ drop 20 (chain_data m) = data.

#[export] Instance fmem_out_laws : Ip4OutLaws fm_headed fm_headed.
Proof.
  constructor.
  - intros y p data H. by apply wp_ret.
  - intros y p data H. apply H.
  - intros y p data h (H1 & H2 & H3 & H4 & H5 & H6) E1 E2 E3. unfold wp. cbn. rewrite H5. cbn. split; [done|].
    split; [done|]. by constructor.
  - intros y p h data nif dest (H1 & H2 & H3 & H4 & H5 & H6) D. unfold wp. cbn. rewrite H5. cbn.
    rewrite H6. pose proof (wd_hdr _ _ _ _ D) as E. cbn in E. by injection E as ->.
Qed.

(** ** One datagram from one to the other *)
Definition sim_sender : ip_sys fmem :=
  mkIp no_globals 7 [sim_netif 28] (Some (sim_netif 28)) (mkSys [] 0 false (sim_frag_mem 10)).
(** The netif of the receiver: 10.0.0.2, mask 255.255.255.0. *)
Definition sim_netif2 : ip_netif := mkIpNetif 5 0x0200000a 0x00ffffff 0xfe00000a 7 1500.
Definition sim_out := Eval vm_compute in ip4_output 1 None 0x0200000a 64 0 17 sim_sender.
Lemma sim_out_run : ip4_output 1 None 0x0200000a 64 0 17 sim_sender = sim_out.
Proof. vm_compute. done. Qed.
Definition sim_frames := wire (mem sim_out.2).
Lemma sim_out_ok : ip4_output 1 None 0x0200000a 64 0 17 sim_sender = (Some ERR_OK, sim_out.2).
Proof. rewrite sim_out_run. vm_compute. done. Qed.
(** The fragments in the receiver's memory, the last one first. *)
Definition sim_ps : list (Z * (ip_hdr * list Z)) :=
  Eval vm_compute in match sim_frames with [a; b; c] => [(30, c.2); (10, a.2); (20, b.2)] | _ => [] end.
Definition sim_receiver : ip_sys imem := mkIp no_globals 1 [sim_netif2] (Some sim_netif2)
  (mkSys [] 0 false (mkImem (mkSmem (list_to_map ((fun a => (a.1, mkPk (Some a.2.1) a.2.2 1)) <$> sim_ps)) 5 [] []) [])).

Lemma sim_payload : fm_headed (mem sim_sender) 1 sim_bytes.
Proof. split; [repeat constructor; by eexists|]. vm_compute. done. Qed.
Lemma sim_ps_sent : sim_ps.*2 ≡ₚ sim_frames.*2.
Proof.
  assert (E : sim_frames = [(3, 0x0200000a, (nth 1 sim_ps (0, (no_hdr, []))).2); (3, 0x0200000a, (nth 2 sim_ps (0, (no_hdr, []))).2); (3, 0x0200000a, (nth 0 sim_ps (0, (no_hdr, []))).2)])
    by (vm_compute; done).
  rewrite E. unfold sim_ps. cbn. solve_Permutation.
Qed.
Lemma sim_ps_held : Forall (holds_frag (packets (mem sim_receiver))) sim_ps.
Proof. repeat constructor; eexists; (split; [vm_compute; done|]); done. Qed.
Lemma sim_ps_nodup : NoDup sim_ps.*1.
Proof. apply (bool_decide_unpack _). vm_compute. done. Qed.
Lemma sim_receiver_idle : idle (reass sim_receiver).
Proof. done. Qed.

Lemma ip_roundtrip_witness : wp (ip_input_all sim_netif2 sim_ps.*1) (fun _ s' => idle (reass s') /\
  uplog (mem s') = uplog (mem sim_receiver) ++
    [mkUp 17 (source None (sim_netif 28)) 0x0200000a (Some 5) 5 sim_bytes]) sim_receiver.
Proof.
  refine (ip_roundtrip fm_headed fm_headed sim_sender sim_out.2 sim_receiver 1 None 0x0200000a 64 0 17 sim_bytes
    (sim_netif 28) sim_netif2 sim_netif2 sim_frames sim_ps sim_payload _ _ _ _ _ sim_out_ok _ sim_ps_sent
    sim_receiver_idle _ sim_ps_held sim_ps_nodup _ _ _ _ _); try (vm_compute; done).
Defined.

(** *** A whole packet, and a packet that is not for the host *)
Definition sim_udp_hdr (dest : Z) : ip_hdr := mkIph 0x45 0 (lwip_htons 28) (lwip_htons 3) 0 64 17 0 0x0100000a dest.
(** Eight bytes, and six of padding. *)
Definition sim_udp (dest : Z) : packet := mkPk (Some (sim_udp_hdr dest)) [1; 2; 3; 4; 5; 6; 7; 8; 0; 0; 0; 0; 0; 0] 1.
Definition sim_one (dest : Z) : ip_sys imem := mkIp no_globals 1 [sim_netif2] (Some sim_netif2)
  (mkSys [] 0 false (mkImem (mkSmem {[4 := sim_udp dest]} 5 [] []) [])).
Example sim_whole_up : let s := (ip4_input 4 sim_netif2 (sim_one 0x0200000a)).2 in
  im_log (mem s) = [mkUp 17 0x0100000a 0x0200000a (Some 5) 5 [1; 2; 3; 4; 5; 6; 7; 8]] /\ sm_freed (im_mem (mem s)) = [4].
Proof. vm_compute. done. Qed.
Example sim_not_for_us : let s := (ip4_input 4 sim_netif2 (sim_one 0x0300000a)).2 in
  im_log (mem s) = [] /\ sm_freed (im_mem (mem s)) = [4].
Proof. vm_compute. done. Qed.
Lemma sim_udp_there d : packets (mem (sim_one d)) !! 4 = Some (sim_udp d).
Proof. done. Qed.

Lemma ip4_input_exact_witness : wp (ip4_input 4 sim_netif2) (fun e s' => e = ERR_OK /\ exists port,
  port_of (sim_udp_hdr 0x0200000a) (sim_udp 0x0200000a) port /\
  handled (sim_one 0x0200000a) 4 (sim_udp 0x0200000a) (sim_udp_hdr 0x0200000a) sim_netif2
    (ip_verdict [sim_netif2] sim_netif2 (sim_udp_hdr 0x0200000a) (tot_len_of (mem (sim_one 0x0200000a)) 4) port) s')
  (sim_one 0x0200000a).
Proof.
  refine (ip4_input_exact (sim_one 0x0200000a) 4 (sim_udp 0x0200000a) (sim_udp_hdr 0x0200000a) sim_netif2
    (sim_udp_there _) _ _ _); vm_compute; done.
Defined.

(** The peer sends those eight bytes. *)
Definition sim_peer : senders := fun k => if decide (k = key (sim_udp_hdr 0x0200000a))
  then Some (mkDg (sim_udp_hdr 0x0200000a) [1; 2; 3; 4; 5; 6; 7; 8]) else None.
Lemma sim_received : received sim_peer (sim_one 0x0200000a) 4 (sim_udp 0x0200000a) (sim_udp_hdr 0x0200000a)
  (mkDg (sim_udp_hdr 0x0200000a) [1; 2; 3; 4; 5; 6; 7; 8]).
Proof.
  constructor; try done.
  - apply not_elem_of_nil.
  - intros k' _ r H. by apply not_elem_of_nil in H.
Qed.
Lemma ip_deliveries_genuine_witness :
  Forall (genuine sim_peer) (uplog (mem (ip4_input 4 sim_netif2 (sim_one 0x0200000a)).2)) /\
  ip_ok sim_peer (ip4_input 4 sim_netif2 (sim_one 0x0200000a)).2.
Proof.
  refine (ip_deliveries_genuine sim_peer (sim_one 0x0200000a) _ _ _ _); [done|done|].
  apply rtc_once. exact (step_frame _ _ _ _ _ _ _ sim_received).
Defined.
Lemma match_netif_exact_witness :
  match match_netif 0x0200000a sim_netif2 [sim_netif2] with
  | Some n => accepts 0x0200000a n = true /\
      (n = sim_netif2 \/ n ∈ [sim_netif2] /\ nf_num n <> nf_num sim_netif2 /\ accepts 0x0200000a sim_netif2 = false /\
       ip4_addr_isloopback 0x0200000a = false)
  | None => accepts 0x0200000a sim_netif2 = false /\
      (ip4_addr_isloopback 0x0200000a = true \/
       forall n, n ∈ [sim_netif2] -> nf_num n <> nf_num sim_netif2 -> accepts 0x0200000a n = false)
  end.
Proof. refine (match_netif_exact 0x0200000a sim_netif2 [sim_netif2] _ _); [apply NoDup_singleton|done]. Defined.
