(* ===== verification/Tcp.v ===== *)
(** * TCP connections: control block, window and output

    lwIP core/tcp.c and core/tcp_out.c for one connection, with the options of lwipopts.h
    (no window scaling, time stamps, out-of-sequence queue or SO_REUSE).  The state
    [tcp_core] is the control block with the statics of tcp_in.c that belong to the
    segment being processed, on top of IP and the allocators ([TcpLower]); [tcp_sys] adds
    the application, entered through its callbacks ([TcpApp]). *)
From S2P Require Import Prelude Ip4Addr Net.

(** ** Sequence numbers and signed words (priv/tcp_priv.h) *)
Definition s16 (z : Z) : Z := (z + 32768) mod 65536 - 32768.
Definition s32 (z : Z) : Z := (z + 2147483648) mod 4294967296 - 2147483648.

Definition TCP_SEQ_LT (a b : Z) : bool := s32 (a - b) <? 0.
Definition TCP_SEQ_LEQ (a b : Z) : bool := s32 (a - b) <=? 0.
Definition TCP_SEQ_GT (a b : Z) : bool := 0 <? s32 (a - b).
Definition TCP_SEQ_GEQ (a b : Z) : bool := 0 <=? s32 (a - b).
Definition TCP_SEQ_BETWEEN (a b c : Z) : bool := TCP_SEQ_GEQ a b && TCP_SEQ_LEQ a c.

(** ** Constants (lwipopts.h, opt.h, tcp.h, err.h) *)
Definition TCP_MSS : Z := 1500 - 40.
Definition TCP_WND : Z := 2 * TCP_MSS.
Definition TCP_SND_BUF : Z := 4 * TCP_MSS.
Definition TCP_SND_QUEUELEN : Z := 2 * TCP_SND_BUF / TCP_MSS.
Definition TCP_SNDQUEUELEN_OVERFLOW : Z := 0xffff - 3.
Definition TCP_WND_UPDATE_THRESHOLD : Z := Z.min (TCP_WND / 4) (TCP_MSS * 4).
Definition TCP_HLEN : Z := 20.
Definition TCP_SLOW_INTERVAL : Z := 500.
Definition INITIAL_MSS : Z := 536.
Definition LWIP_TCP_OPT_LEN_MSS : Z := 4.

(** [enum tcp_state], with its numbering for the comparisons of the code. *)
Inductive tcp_state :=
| CLOSED | LISTEN | SYN_SENT | SYN_RCVD | ESTABLISHED | FIN_WAIT_1 | FIN_WAIT_2
| CLOSE_WAIT | CLOSING | LAST_ACK | TIME_WAIT.
#[export] Instance tcp_state_eq_dec : EqDecision tcp_state.
Proof. solve_decision. Defined.
Definition state_num (s : tcp_state) : Z :=
  match s with
  | CLOSED => 0 | LISTEN => 1 | SYN_SENT => 2 | SYN_RCVD => 3 | ESTABLISHED => 4
  | FIN_WAIT_1 => 5 | FIN_WAIT_2 => 6 | CLOSE_WAIT => 7 | CLOSING => 8 | LAST_ACK => 9
  | TIME_WAIT => 10
  end.
Abbreviation is_state st p := (bool_decide (p = st)).

(** The header flags of a segment; a flag word of the code is the record of its bits. *)
Record tcph := mkHdr { TCP_FIN : bool; TCP_SYN : bool; TCP_RST : bool; TCP_PSH : bool; TCP_ACK : bool }.
#[export] Instance tcph_eta : Eta tcph := fun h =>
  mkHdr (TCP_FIN h) (TCP_SYN h) (TCP_RST h) (TCP_PSH h) (TCP_ACK h).
Definition no_flags : tcph := mkHdr false false false false false.

(** [pcb->flags] *)
Record pcb_flags := mkFlags {
  TF_ACK_DELAY : bool; TF_ACK_NOW : bool; TF_INFR : bool; TF_CLOSEPEND : bool;
  TF_RXCLOSED : bool; TF_FIN : bool; TF_NODELAY : bool; TF_NAGLEMEMERR : bool
}.
#[export] Instance pcb_flags_eta : Eta pcb_flags := fun f =>
  mkFlags (TF_ACK_DELAY f) (TF_ACK_NOW f) (TF_INFR f) (TF_CLOSEPEND f) (TF_RXCLOSED f)
    (TF_FIN f) (TF_NODELAY f) (TF_NAGLEMEMERR f).

(** A segment of the send queues: [len] is the length of its data, [seg_clen] the number of
    pbufs it is made of and [opts_mss] the option flag [TF_SEG_OPTS_MSS]. *)
Record tcp_seg := mkSeg {
  seg_seqno : Z; seg_hdr : tcph; seg_data : list Z; seg_clen : Z; opts_mss : bool
}.
#[export] Instance tcp_seg_eta : Eta tcp_seg := fun s =>
  mkSeg (seg_seqno s) (seg_hdr s) (seg_data s) (seg_clen s) (opts_mss s).
Definition seg_len (s : tcp_seg) : Z := Z.of_nat (length (seg_data s)).
Definition TCP_TCPLEN (len : Z) (h : tcph) : Z := len + (if TCP_FIN h || TCP_SYN h then 1 else 0).
Definition seg_tcplen (s : tcp_seg) : Z := TCP_TCPLEN (seg_len s) (seg_hdr s).

(** ** The control block

    The fields of [struct tcp_pcb], grouped: receiver, sender, congestion control and
    timers.  The chain kept in [refused_data] comes with its flag [PBUF_FLAG_TCP_FIN].
    The two end points are not fields: a [tcp_core] is the connection they identify. *)
Record rcv_vars := mkRcv {
  rcv_nxt : Z; rcv_wnd : Z; rcv_ann_wnd : Z; rcv_ann_right_edge : Z;
  refused_data : option (list (list Z) * bool)
}.
#[export] Instance rcv_vars_eta : Eta rcv_vars := fun r =>
  mkRcv (rcv_nxt r) (rcv_wnd r) (rcv_ann_wnd r) (rcv_ann_right_edge r) (refused_data r).

Record snd_vars := mkSnd {
  snd_nxt : Z; snd_wl1 : Z; snd_wl2 : Z; snd_lbb : Z; lastack : Z;
  snd_wnd : Z; snd_wnd_max : Z; snd_buf : Z; snd_queuelen : Z; unsent_oversize : Z;
  unsent : list tcp_seg; unacked : list tcp_seg
}.
#[export] Instance snd_vars_eta : Eta snd_vars := fun s =>
  mkSnd (snd_nxt s) (snd_wl1 s) (snd_wl2 s) (snd_lbb s) (lastack s) (snd_wnd s)
    (snd_wnd_max s) (snd_buf s) (snd_queuelen s) (unsent_oversize s) (unsent s) (unacked s).

Record cong_vars := mkCong {
  mss : Z; cwnd : Z; ssthresh : Z; dupacks : Z; nrtx : Z; rtime : Z; rttest : Z; rtseq : Z;
  sa : Z; sv : Z; rto : Z; persist_cnt : Z; persist_backoff : Z
}.
#[export] Instance cong_vars_eta : Eta cong_vars := fun c =>
  mkCong (mss c) (cwnd c) (ssthresh c) (dupacks c) (nrtx c) (rtime c) (rttest c) (rtseq c)
    (sa c) (sv c) (rto c) (persist_cnt c) (persist_backoff c).

Record tcp_pcb := mkPcb {
  state : tcp_state; flags : pcb_flags; tmr : Z; polltmr : Z; keep_cnt_sent : Z;
  listener : bool; rxv : rcv_vars; txv : snd_vars; cgv : cong_vars
}.
#[export] Instance tcp_pcb_eta : Eta tcp_pcb := fun p =>
  mkPcb (state p) (flags p) (tmr p) (polltmr p) (keep_cnt_sent p) (listener p)
    (rxv p) (txv p) (cgv p).

(** The list a control block is on; [PCB_FREED] when its memory was given back. *)
Inductive pcb_list := PCB_ACTIVE | PCB_TW | PCB_NONE | PCB_FREED.
#[export] Instance pcb_list_eq_dec : EqDecision pcb_list.
Proof. solve_decision. Defined.

(** [recv_flags] of tcp_in.c *)
Record in_flags := mkInFlags { TF_RESET : bool; TF_CLOSED : bool; TF_GOT_FIN : bool }.
#[export] Instance in_flags_eta : Eta in_flags := fun f =>
  mkInFlags (TF_RESET f) (TF_CLOSED f) (TF_GOT_FIN f).

(** The connection with the statics of tcp_in.c ([input_pcb]: [tcp_input_pcb == pcb]), the
    clock and the initial sequence number of tcp.c; [listening]: a listening block has
    its local port. *)
Record tcp_core (L : Type) := mkCore {
  pcb_ : tcp_pcb; on_list : pcb_list; input_pcb : bool; tcp_ticks : Z;
  recv_flags : in_flags; recv_acked : Z; recv_data : option (list (list Z));
  listening : bool; next_iss : Z; low : L
}.
Arguments mkCore {L}. Arguments pcb_ {L}. Arguments on_list {L}. Arguments input_pcb {L}.
Arguments tcp_ticks {L}. Arguments recv_flags {L}. Arguments recv_acked {L}.
Arguments recv_data {L}. Arguments listening {L}. Arguments next_iss {L}. Arguments low {L}.
#[export] Instance tcp_core_eta L : Eta (tcp_core L) := fun c =>
  mkCore (pcb_ c) (on_list c) (input_pcb c) (tcp_ticks c) (recv_flags c) (recv_acked c)
    (recv_data c) (listening c) (next_iss c) (low c).

Record tcp_sys (L A : Type) := mkTcp { core : tcp_core L; appl : A }.
Arguments mkTcp {L A}. Arguments core {L A}. Arguments appl {L A}.

(** A segment given to IP. *)
Record tcp_wire := mkWire {
  w_seqno : Z; w_ackno : Z; w_hdr : tcph; w_wnd : Z; w_mss : option Z; w_data : list Z
}.

(** ** The interfaces

    IP, the interface and the allocators below; the registered callbacks above. *)
Class TcpLower (L : Type) := {
  ip_route : M L (option Z);            (** the MTU of the outgoing interface, if there is one *)
  ip_output_if : tcp_wire -> M L Z;
  hdr_alloc : Z -> M L bool;            (** [pbuf_alloc(PBUF_IP, n, PBUF_RAM) != NULL] *)
  ctl_alloc : Z -> M L bool;            (** [pbuf_alloc(PBUF_TRANSPORT, n, PBUF_RAM) != NULL] *)
  raw_alloc : Z -> M L bool;            (** [pbuf_alloc(PBUF_RAW, n, PBUF_RAM) != NULL] *)
  rom_alloc : M L bool;                 (** [pbuf_alloc(.., PBUF_ROM) != NULL], which refers to its data *)
  rom_follows : Z -> tcp_seg -> M L bool; (** the last pbuf of the segment is a [PBUF_ROM] that ends at this address *)
  pbufs_free : Z -> M L unit;           (** [pbuf_free] of a chain of this many pbufs from above *)
  seg_alloc : M L bool;                 (** [memp_malloc(MEMP_TCP_SEG) != NULL] *)
  seg_busy : tcp_seg -> M L bool;       (** [seg->p->ref != 1] *)
  tcp_seg_free : tcp_seg -> M L unit;
  chain_free : list (list Z) -> M L unit;
  pcb_memp_malloc : M L bool;           (** [memp_malloc(MEMP_TCP_PCB) != NULL], other blocks killed if need be *)
  pcb_memp_free : M L unit              (** [memp_free(MEMP_TCP_PCB, pcb)] *)
}.

Class TcpApp (L A : Type) := {
  cb_recv : option (list (list Z)) -> M (tcp_sys L A) Z;
  cb_sent : Z -> M (tcp_sys L A) Z;
  cb_connected : Z -> M (tcp_sys L A) Z;
  cb_accept : bool -> M (tcp_sys L A) Z;   (** [false]: there is no memory for a block *)
  cb_err : Z -> M (tcp_sys L A) unit
}.

(** ** Output (core/tcp_out.c) *)
Section Output.
Context {L : Type} `{!TcpLower L}.
#[local] Abbreviation MC := (M (tcp_core L)).

Definition on_low {A} (m : M L A) : MC A := fun c =>
  let '(a, l) := m (low c) in (a, c <| low := l |>).
Definition pcb {A} (f : tcp_pcb -> A) : MC A := gets (fun c => f (pcb_ c)).
Definition set_pcb (f : tcp_pcb -> tcp_pcb) : MC unit := modify (fun c => c <| pcb_ := f (pcb_ c) |>).
Definition set_rx (f : rcv_vars -> rcv_vars) : MC unit := set_pcb (fun p => p <| rxv := f (rxv p) |>).
Definition set_tx (f : snd_vars -> snd_vars) : MC unit := set_pcb (fun p => p <| txv := f (txv p) |>).
Definition set_cc (f : cong_vars -> cong_vars) : MC unit := set_pcb (fun p => p <| cgv := f (cgv p) |>).
Definition set_flags (f : pcb_flags -> pcb_flags) : MC unit :=
  set_pcb (fun p => p <| flags := f (flags p) |>).
Definition set_state (st : tcp_state) : MC unit := set_pcb (fun p => p <| state := st |>).
Definition rx {A} (f : rcv_vars -> A) : MC A := pcb (fun p => f (rxv p)).
Definition tx {A} (f : snd_vars -> A) : MC A := pcb (fun p => f (txv p)).
Definition cc {A} (f : cong_vars -> A) : MC A := pcb (fun p => f (cgv p)).

(** [pcb->flags |= TF_ACK_NOW] *)
Definition tcp_ack_now : MC unit := set_flags (fun f => f <| TF_ACK_NOW := true |>).

Definition tcp_ack : MC unit :=
  set_flags (fun f => if TF_ACK_DELAY f then f <| TF_ACK_DELAY := false |> <| TF_ACK_NOW := true |>
                      else f <| TF_ACK_DELAY := true |>).

Definition retry_ack (f : pcb_flags) : pcb_flags := f <| TF_ACK_DELAY := true |> <| TF_ACK_NOW := true |>.
Definition acks_sent (f : pcb_flags) : pcb_flags := f <| TF_ACK_DELAY := false |> <| TF_ACK_NOW := false |>.

(** The announced right edge follows every segment that carries the window. *)
Definition announce_window : MC unit :=
  set_rx (fun r => r <| rcv_ann_right_edge := rcv_nxt r +% rcv_ann_wnd r |>).

(** A header without data: its acknowledgement and window are those of the pcb. *)
Definition tcp_output_alloc_header (optlen datalen seqno : Z) : MC (option tcp_wire) :=
  ok <- on_low (hdr_alloc (u16 (TCP_HLEN + optlen + datalen))) ;;
  if ok : bool then
    r <- rx id ;;
    announce_window ;;;
    ret (Some (mkWire seqno (rcv_nxt r) (no_flags <| TCP_ACK := true |>) (rcv_ann_wnd r) None []))
  else ret None.

(** [ip_route], [ip_output_if] and [pbuf_free] of a header pbuf. *)
Definition send_header (w : tcp_wire) : MC Z :=
  netif <- on_low ip_route ;;
  err <- (match netif with None => ret ERR_RTE | Some _ => on_low (ip_output_if w) end) ;;
  on_low (pbufs_free 1) ;;;
  ret err.

Definition tcp_send_empty_ack : MC Z :=
  seqno <- tx snd_nxt ;;
  p <- tcp_output_alloc_header 0 0 seqno ;;
  match p with
  | None => set_flags retry_ack ;;; ret ERR_BUF
  | Some w =>
      err <- send_header w ;;
      set_flags (if negb (err =? ERR_OK) then retry_ack else acks_sent) ;;;
      ret err
  end.

(** [tcp_eff_send_mss] *)
Definition tcp_eff_send_mss (sendmss : Z) : MC Z :=
  outif <- on_low ip_route ;;
  ret (match outif with
       | None => sendmss
       | Some mtu => if negb (s16 mtu =? 0)
                     then Z.min sendmss (u16 (s16 mtu - IP_HLEN - TCP_HLEN)) else sendmss
       end).

Definition tcp_output_segment (seg : tcp_seg) : MC Z :=
  busy <- on_low (seg_busy seg) ;;
  if busy : bool then ret ERR_OK else
  r <- rx id ;;
  announce_window ;;;
  m <- (if opts_mss seg then m <- tcp_eff_send_mss TCP_MSS ;; ret (Some m) else ret None) ;;
  set_cc (fun c => if rtime c <? 0 then c <| rtime := 0 |> else c) ;;;
  ticks <- gets tcp_ticks ;;
  set_cc (fun c => if rttest c =? 0 then c <| rttest := ticks |> <| rtseq := seg_seqno seg |> else c) ;;;
  on_low (ip_output_if (mkWire (seg_seqno seg) (rcv_nxt r) (seg_hdr seg) (rcv_ann_wnd r) m (seg_data seg))).

Definition tcp_do_output_nagle (p : tcp_pcb) : bool :=
  bool_decide (unacked (txv p) = []) || TF_NODELAY (flags p) || TF_INFR (flags p) ||
  match unsent (txv p) with
  | [] => false
  | [s] => mss (cgv p) <=? seg_len s
  | _ => true
  end ||
  (snd_buf (txv p) =? 0) || (TCP_SND_QUEUELEN <=? snd_queuelen (txv p)).

(** [lwip_ntohl(seg->tcphdr->seqno) - pcb->lastack + seg->len] *)
Definition seg_reach (p : tcp_pcb) (s : tcp_seg) : Z :=
  u32 (seg_seqno s - lastack (txv p) + seg_len s).

(** Insertion before the first segment that does not come earlier. *)
Fixpoint seg_insert (s : tcp_seg) (q : list tcp_seg) : list tcp_seg :=
  match q with
  | [] => [s]
  | x :: q' => if TCP_SEQ_LT (seg_seqno x) (seg_seqno s) then x :: seg_insert s q' else s :: x :: q'
  end.

(** The sent segment goes to the unacked queue: at its end, or, after a fast
    retransmission, before its last segment. *)
Definition enqueue_unacked (s : tcp_seg) (q : list tcp_seg) : list tcp_seg :=
  match last q with
  | None => [s]
  | Some useg => if TCP_SEQ_LT (seg_seqno s) (seg_seqno useg) then seg_insert s q else q ++ [s]
  end.

(** The loop [while (seg != NULL && ...)] of [tcp_output]; a round removes the first
    unsent segment, hence the recursion.  [Some err]: the function returns [err]. *)
Fixpoint tcp_output_loop (fuel : nat) (wnd : Z) : MC (option Z) :=
  match fuel with
  | O => ret None
  | S n =>
      p <- pcb id ;;
      match unsent (txv p) with
      | [] => ret None
      | seg :: rest =>
          if negb (seg_reach p seg <=? wnd) then ret None else
          if negb (tcp_do_output_nagle p) && negb (TF_NAGLEMEMERR (flags p) || TF_FIN (flags p))
          then ret None else
          let seg := if bool_decide (state p = SYN_SENT) then seg
                     else seg <| seg_hdr := (seg_hdr seg) <| TCP_ACK := true |> |> in
          set_tx (fun t => t <| unsent := seg :: rest |>) ;;;
          err <- tcp_output_segment seg ;;
          if negb (err =? ERR_OK) then
            set_flags (fun f => f <| TF_NAGLEMEMERR := true |>) ;;; ret (Some err)
          else
            set_tx (fun t => t <| unsent := rest |>) ;;;
            (if bool_decide (state p = SYN_SENT) then ret tt else set_flags acks_sent) ;;;
            let nxt := seg_seqno seg +% seg_tcplen seg in
            set_tx (fun t => if TCP_SEQ_LT (snd_nxt t) nxt then t <| snd_nxt := nxt |> else t) ;;;
            (if 0 <? seg_tcplen seg
             then set_tx (fun t => t <| unacked := enqueue_unacked seg (unacked t) |>)
             else on_low (tcp_seg_free seg)) ;;;
            tcp_output_loop n wnd
      end
  end.

Definition tcp_output : MC Z :=
  busy <- gets input_pcb ;;
  if busy : bool then ret ERR_OK else
  p <- pcb id ;;
  let wnd := Z.min (snd_wnd (txv p)) (cwnd (cgv p)) in
  let fits := match unsent (txv p) with
              | [] => false | seg :: _ => seg_reach p seg <=? wnd end in
  if TF_ACK_NOW (flags p) && negb fits then tcp_send_empty_ack else
  netif <- on_low ip_route ;;
  match netif with
  | None => ret ERR_RTE
  | Some _ =>
      err <- (if negb (bool_decide (unsent (txv p) = [])) && negb fits && (0 <? wnd) &&
                 (wnd =? snd_wnd (txv p)) && bool_decide (unacked (txv p) = [])
              then set_cc (fun c => if persist_backoff c =? 0
                                    then c <| persist_cnt := 0 |> <| persist_backoff := 1 |> else c) ;;;
                   ret None
              else tcp_output_loop (length (unsent (txv p))) wnd) ;;
      match err with
      | Some e => ret e
      | None =>
          set_tx (fun t => if bool_decide (unsent t = []) then t <| unsent_oversize := 0 |> else t) ;;;
          set_flags (fun f => f <| TF_NAGLEMEMERR := false |>) ;;;
          ret ERR_OK
      end
  end.

(** ** Retransmission *)
Definition bump_nrtx : MC unit := set_cc (fun c => if nrtx c <? 0xFF then c <| nrtx := nrtx c + 1 |> else c).
Definition stop_rtt : MC unit := set_cc (fun c => c <| rttest := 0 |>).

Definition tcp_rexmit_rto : MC unit :=
  q <- tx unacked ;;
  match q with
  | [] => ret tt
  | _ =>
      set_tx (fun t => t <| unsent := unacked t ++ unsent t |> <| unacked := [] |>) ;;;
      bump_nrtx ;;; stop_rtt ;;;
      tcp_output ;;; ret tt
  end.

Definition tcp_rexmit : MC unit :=
  q <- tx unacked ;;
  match q with
  | [] => ret tt
  | seg :: rest =>
      set_tx (fun t =>
        let at_end := forallb (fun x => TCP_SEQ_LT (seg_seqno x) (seg_seqno seg)) (unsent t) in
        let t := t <| unacked := rest |> <| unsent := seg_insert seg (unsent t) |> in
        if at_end then t <| unsent_oversize := 0 |> else t) ;;;
      bump_nrtx ;;; stop_rtt
  end.

Definition tcp_rexmit_fast : MC unit :=
  p <- pcb id ;;
  if negb (bool_decide (unacked (txv p) = [])) && negb (TF_INFR (flags p)) then
    tcp_rexmit ;;;
    t <- tx id ;;
    set_cc (fun c =>
      let half := Z.min (cwnd c) (snd_wnd t) / 2 in
      let c := c <| ssthresh := if half <? 2 * mss c then u16 (2 * mss c) else half |> in
      c <| cwnd := u16 (ssthresh c + 3 * mss c) |>) ;;;
    set_flags (fun f => f <| TF_INFR := true |>) ;;;
    set_cc (fun c => c <| rtime := 0 |>)
  else ret tt.

(** A reset segment: no control block is involved. *)
Definition tcp_rst (seqno ackno : Z) : MC unit :=
  ok <- on_low (hdr_alloc TCP_HLEN) ;;
  if ok : bool then
    send_header (mkWire seqno ackno (no_flags <| TCP_RST := true |> <| TCP_ACK := true |>) TCP_WND None []) ;;;
    ret tt
  else ret tt.

Definition tcp_keepalive : MC Z :=
  nxt <- tx snd_nxt ;;
  p <- tcp_output_alloc_header 0 0 (nxt -% 1) ;;
  match p with None => ret ERR_MEM | Some w => send_header w end.

(** One byte, or the FIN, of the first segment that is not acknowledged.  (The persist timer
    that leads here runs only when the handshake is done: the segment is not a SYN.) *)
Definition tcp_zero_window_probe : MC Z :=
  t <- tx id ;;
  match unacked t ++ unsent t with
  | [] => ret ERR_OK
  | seg :: _ =>
      let is_fin := TCP_FIN (seg_hdr seg) && (seg_len seg =? 0) in
      p <- tcp_output_alloc_header 0 (if is_fin then 0 else 1) (seg_seqno seg) ;;
      match p with
      | None => ret ERR_MEM
      | Some w =>
          let w := if is_fin
                   then mkWire (w_seqno w) (w_ackno w) (no_flags <| TCP_ACK := true |> <| TCP_FIN := true |>)
                          (w_wnd w) None []
                   else mkWire (w_seqno w) (w_ackno w) (w_hdr w) (w_wnd w) None (take 1 (seg_data seg)) in
          let nxt := seg_seqno seg +% 1 in
          set_tx (fun t => if TCP_SEQ_LT (snd_nxt t) nxt then t <| snd_nxt := nxt |> else t) ;;;
          send_header w
      end
  end.

(** ** Control segments *)
Definition mem_err : MC Z := set_flags (fun f => f <| TF_NAGLEMEMERR := true |>) ;;; ret ERR_MEM.

(** [data] is what the chain [p] of [clen] pbufs holds behind the options. *)
Definition tcp_create_segment (data : list Z) (clen : Z) (h : tcph) (seqno : Z) (mssopt : bool)
  : MC (option tcp_seg) :=
  ok <- on_low seg_alloc ;;
  if ok : bool then ret (Some (mkSeg seqno h data clen mssopt))
  else on_low (pbufs_free clen) ;;; ret None.

Definition tcp_enqueue_flags (h : tcph) : MC Z :=
  t <- tx id ;;
  if ((TCP_SND_QUEUELEN <=? snd_queuelen t) || (TCP_SNDQUEUELEN_OVERFLOW <? snd_queuelen t)) &&
     negb (TCP_FIN h)
  then mem_err else
  ok <- on_low (ctl_alloc (if TCP_SYN h then LWIP_TCP_OPT_LEN_MSS else 0)) ;;
  if negb ok then mem_err else
  seg <- tcp_create_segment [] 1 h (snd_lbb t) (TCP_SYN h) ;;
  match seg with
  | None => mem_err
  | Some seg =>
      set_tx (fun t => t <| unsent := unsent t ++ [seg] |> <| unsent_oversize := 0 |>) ;;;
      (if TCP_SYN h || TCP_FIN h then set_tx (fun t => t <| snd_lbb := snd_lbb t +% 1 |>) else ret tt) ;;;
      (if TCP_FIN h then set_flags (fun f => f <| TF_FIN := true |>) else ret tt) ;;;
      set_tx (fun t => t <| snd_queuelen := u16 (snd_queuelen t + seg_clen seg) |>) ;;;
      ret ERR_OK
  end.

Definition tcp_send_fin : MC Z :=
  q <- tx unsent ;;
  match last q with
  | Some s =>
      if TCP_SYN (seg_hdr s) || TCP_FIN (seg_hdr s) || TCP_RST (seg_hdr s)
      then tcp_enqueue_flags (no_flags <| TCP_FIN := true |>)
      else set_tx (fun t => t <| unsent := removelast (unsent t) ++
                                   [s <| seg_hdr := (seg_hdr s) <| TCP_FIN := true |> |>] |>) ;;;
           set_flags (fun f => f <| TF_FIN := true |>) ;;;
           ret ERR_OK
  | None => tcp_enqueue_flags (no_flags <| TCP_FIN := true |>)
  end.

(** ** Window, closing and timers (core/tcp.c) *)

(** How much window an update would announce; the announced window never shrinks from
    the right. *)
Definition tcp_update_rcv_ann_wnd : MC Z :=
  m <- cc mss ;;
  r <- rx id ;;
  let new_right_edge := rcv_nxt r +% rcv_wnd r in
  if TCP_SEQ_GEQ new_right_edge (rcv_ann_right_edge r +% Z.min (TCP_WND / 2) m) then
    set_rx (fun r => r <| rcv_ann_wnd := rcv_wnd r |>) ;;;
    ret (new_right_edge -% rcv_ann_right_edge r)
  else
    set_rx (fun r => r <| rcv_ann_wnd :=
      if TCP_SEQ_GT (rcv_nxt r) (rcv_ann_right_edge r) then 0
      else u16 (rcv_ann_right_edge r -% rcv_nxt r) |>) ;;;
    ret 0.

(** [pcb->rcv_wnd += len] and the overflow checks behind it. *)
Definition recved_wnd (st : tcp_state) (len rcv_wnd : Z) : Z :=
  let w := u16 (rcv_wnd + len) in
  if TCP_WND <? w then TCP_WND
  else if (w =? 0) && (bool_decide (st = CLOSE_WAIT) || bool_decide (st = LAST_ACK)) then TCP_WND
  else w.

Definition tcp_recved (len : Z) : MC unit :=
  st <- pcb state ;;
  set_rx (fun r => r <| rcv_wnd := recved_wnd st len (rcv_wnd r) |>) ;;;
  wnd_inflation <- tcp_update_rcv_ann_wnd ;;
  if TCP_WND_UPDATE_THRESHOLD <=? s32 wnd_inflation
  then tcp_ack_now ;;; tcp_output ;;; ret tt
  else ret tt.

Definition tcp_segs_free (q : list tcp_seg) : MC unit :=
  foldr (fun s k => on_low (tcp_seg_free s) ;;; k) (ret tt) q.

Definition free_refused : MC unit :=
  r <- rx refused_data ;;
  match r with
  | Some (p, _) => on_low (chain_free p) ;;; set_rx (fun r => r <| refused_data := None |>)
  | None => ret tt
  end.

Definition tcp_pcb_purge : MC unit :=
  st <- pcb state ;;
  if bool_decide (st <> CLOSED) && bool_decide (st <> TIME_WAIT) && bool_decide (st <> LISTEN) then
    free_refused ;;;
    set_cc (fun c => c <| rtime := -1 |>) ;;;
    t <- tx id ;;
    tcp_segs_free (unsent t) ;;; tcp_segs_free (unacked t) ;;;
    set_tx (fun t => t <| unacked := [] |> <| unsent := [] |> <| unsent_oversize := 0 |>)
  else ret tt.

Definition set_list (l : pcb_list) : MC unit := modify (fun c => c <| on_list := l |>).

(** [tcp_pcb_remove], from whatever list the block is on. *)
Definition tcp_pcb_remove : MC unit :=
  set_list PCB_NONE ;;;
  tcp_pcb_purge ;;;
  p <- pcb id ;;
  (if bool_decide (state p <> TIME_WAIT) && bool_decide (state p <> LISTEN) && TF_ACK_DELAY (flags p)
   then tcp_ack_now ;;; tcp_output ;;; ret tt else ret tt) ;;;
  set_state CLOSED.

(** [memp_free(MEMP_TCP_PCB, pcb)] *)
Definition memp_free_pcb : MC unit := on_low pcb_memp_free ;;; set_list PCB_FREED.

(** Purge and move to TIME_WAIT: [TCP_RMV_ACTIVE], [TCP_REG(&tcp_tw_pcbs)]. *)
Definition to_time_wait : MC unit :=
  tcp_pcb_purge ;;; set_state TIME_WAIT ;;; set_list PCB_TW.

Definition tcp_close_shutdown_fin : MC Z :=
  st <- pcb state ;;
  let fin next :=
    err <- tcp_send_fin ;;
    (if err =? ERR_OK then set_state next else ret tt) ;;;
    (if err =? ERR_OK then tcp_output ;;; ret err
     else if err =? ERR_MEM then set_flags (fun f => f <| TF_CLOSEPEND := true |>) ;;; ret ERR_OK
     else ret err) in
  match st with
  | SYN_RCVD | ESTABLISHED => fin FIN_WAIT_1
  | CLOSE_WAIT => fin LAST_ACK
  | _ => ret ERR_OK
  end.

Definition tcp_trigger_input_pcb_close : MC unit :=
  modify (fun c => c <| recv_flags := (recv_flags c) <| TF_CLOSED := true |> |>).

(** For a connection; listening blocks are another structure. *)
Definition tcp_close_shutdown (rst_on_unacked_data : bool) : MC Z :=
  p <- pcb id ;;
  let open_ := bool_decide (state p = ESTABLISHED) || bool_decide (state p = CLOSE_WAIT) in
  if rst_on_unacked_data && open_ &&
     (negb (bool_decide (refused_data (rxv p) = None)) || negb (rcv_wnd (rxv p) =? TCP_WND))
  then
    tcp_rst (snd_nxt (txv p)) (rcv_nxt (rxv p)) ;;;
    tcp_pcb_purge ;;;
    set_list PCB_NONE ;;;
    (if bool_decide (state p = ESTABLISHED) then set_state TIME_WAIT ;;; set_list PCB_TW
     else busy <- gets input_pcb ;;
          if busy : bool then tcp_trigger_input_pcb_close else memp_free_pcb) ;;;
    ret ERR_OK
  else
    match state p with
    | CLOSED => set_list PCB_NONE ;;; memp_free_pcb ;;; ret ERR_OK
    | SYN_SENT => tcp_pcb_remove ;;; memp_free_pcb ;;; ret ERR_OK
    | _ => tcp_close_shutdown_fin
    end.

Definition tcp_close : MC Z :=
  set_flags (fun f => f <| TF_RXCLOSED := true |>) ;;;
  tcp_close_shutdown true.

Definition tcp_shutdown (shut_rx shut_tx : bool) : MC Z :=
  st <- pcb state ;;
  (if shut_rx then set_flags (fun f => f <| TF_RXCLOSED := true |>) else ret tt) ;;;
  if shut_rx && shut_tx then tcp_close_shutdown true else
  (if shut_rx then free_refused else ret tt) ;;;
  if shut_tx then
    match st with
    | SYN_RCVD | ESTABLISHED | CLOSE_WAIT => tcp_close_shutdown shut_rx
    | _ => ret ERR_CONN
    end
  else ret ERR_OK.
End Output.
