(* ===== verification/TcpIn.v ===== *)
(** * TCP input (lwIP core/tcp_in.c)

    The processing of one segment for one connection: options, acknowledgements, received
    data, the state machine and the delivery to the application; then the timers and
    [tcp_abandon] of core/tcp.c, which also enter the application. *)
From S2P Require Import Prelude Net Tcp.

(** A segment after [tcp_input] has converted its header; [i_p] is the pbuf chain of its
    data and [i_opts] the bytes of its options. *)
Record tcp_inseg := mkIn {
  i_hdr : tcph; i_seqno : Z; i_ackno : Z; i_wnd : Z; i_opts : list Z; i_p : list (list Z)
}.
#[export] Instance tcp_inseg_eta : Eta tcp_inseg := fun i =>
  mkIn (i_hdr i) (i_seqno i) (i_ackno i) (i_wnd i) (i_opts i) (i_p i).

Definition tcp_ctl (h : tcph) : Z := if TCP_FIN h || TCP_SYN h then 1 else 0.
(** The static [tcplen], a [u16_t]. *)
Definition i_tcplen (i : tcp_inseg) : Z := u16 (tot_len (i_p i) + tcp_ctl (i_hdr i)).

(** ** Trimming a chain *)

(** [pbuf_header(p, n)] for [n <= 0] on the first pbuf: fails when it is too short. *)
Definition pbuf_hide (n : Z) (q : list Z) : list Z :=
  if 0 <=? n then q else if Z.of_nat (length q) <? - n then q else drop (Z.to_nat (- n)) q.

(** The first edge: pbufs that are hidden as a whole keep a length of 0. *)
Fixpoint trim_front (off : Z) (p : list (list Z)) : list (list Z) :=
  match p with
  | [] => []
  | q :: p' => if Z.of_nat (length q) <? off
               then [] :: trim_front (off - Z.of_nat (length q)) p'
               else pbuf_hide (s16 (s32 (- off))) q :: p'
  end.

(** [pbuf_realloc] *)
Fixpoint chain_take (n : Z) (p : list (list Z)) : list (list Z) :=
  match p with
  | [] => []
  | q :: p' => if Z.of_nat (length q) <? n
               then q :: chain_take (n - Z.of_nat (length q)) p'
               else [take (Z.to_nat n) q]
  end.
Definition chain_realloc (p : list (list Z)) (n : Z) : list (list Z) :=
  if tot_len p <=? n then p else chain_take n p.

Section TcpIn.
Context {L : Type} `{!TcpLower L}.
#[local] Abbreviation MC := (M (tcp_core L)).

(** ** Options

    [tcp_getoptbyte] reads the options of the first and of the second pbuf as one
    sequence; the byte after the last option may be read too. *)
Definition opt_byte (opts : list Z) (i : Z) : Z := opts !!! Z.to_nat i.

(** The loop of [tcp_parseopt] from [tcp_optidx] on: the MSS it stores last.  A round
    advances the index, hence the fuel. *)
Fixpoint parseopt_loop (fuel : nat) (opts : list Z) (optidx m : Z) : Z :=
  match fuel with
  | O => m
  | S n =>
      if negb (optidx <? Z.of_nat (length opts)) then m else
      let opt := opt_byte opts optidx in
      if opt =? 0 then m else
      if opt =? 1 then parseopt_loop n opts (optidx + 1) m else
      if opt =? 2 then
        if negb (opt_byte opts (optidx + 1) =? LWIP_TCP_OPT_LEN_MSS) ||
           (Z.of_nat (length opts) <? optidx + LWIP_TCP_OPT_LEN_MSS) then m else
        let v := u16 (Z.lor (u16 (Z.shiftl (opt_byte opts (optidx + 2)) 8)) (opt_byte opts (optidx + 3))) in
        parseopt_loop n opts (optidx + 4) (if (TCP_MSS <? v) || (v =? 0) then TCP_MSS else v)
      else
        let data := opt_byte opts (optidx + 1) in
        if data <? 2 then m else parseopt_loop n opts (optidx + data) m
  end.

Definition tcp_parseopt (i : tcp_inseg) : MC unit :=
  set_cc (fun c => c <| mss := parseopt_loop (S (length (i_opts i))) (i_opts i) 0 (mss c) |>).

(** ** [tcp_receive]: the acknowledgement *)

Definition update_snd_wnd (i : tcp_inseg) : MC unit :=
  t <- tx id ;;
  if TCP_SEQ_LT (snd_wl1 t) (i_seqno i) ||
     ((snd_wl1 t =? i_seqno i) && TCP_SEQ_LT (snd_wl2 t) (i_ackno i)) ||
     ((snd_wl2 t =? i_ackno i) && (snd_wnd t <? i_wnd i))
  then
    set_tx (fun t => t <| snd_wnd := i_wnd i |>
                       <| snd_wnd_max := Z.max (snd_wnd_max t) (i_wnd i) |>
                       <| snd_wl1 := i_seqno i |> <| snd_wl2 := i_ackno i |>) ;;;
    set_cc (fun c =>
      if i_wnd i =? 0
      then if persist_backoff c =? 0 then c <| persist_cnt := 0 |> <| persist_backoff := 1 |> else c
      else if 0 <? persist_backoff c then c <| persist_backoff := 0 |> else c)
  else ret tt.

(** An acknowledgement of nothing new: the five clauses of a duplicate. *)
Definition receive_dupack (right_wnd_edge : Z) (i : tcp_inseg) : MC unit :=
  p <- pcb id ;;
  if (i_tcplen i =? 0) && (snd_wl2 (txv p) +% snd_wnd (txv p) =? right_wnd_edge) &&
     (0 <=? rtime (cgv p)) && (lastack (txv p) =? i_ackno i)
  then
    set_cc (fun c => if dupacks c <? u8 (dupacks c + 1) then c <| dupacks := dupacks c + 1 |> else c) ;;;
    d <- cc dupacks ;;
    if 3 <? d then
      set_cc (fun c => if cwnd c <? u16 (cwnd c + mss c) then c <| cwnd := cwnd c + mss c |> else c)
    else if d =? 3 then tcp_rexmit_fast else ret tt
  else set_cc (fun c => c <| dupacks := 0 |>).

Definition grow_cwnd (c : cong_vars) : cong_vars :=
  if cwnd c <? ssthresh c
  then if cwnd c <? u16 (cwnd c + mss c) then c <| cwnd := cwnd c + mss c |> else c
  else let new_cwnd := u16 (cwnd c + mss c * mss c / cwnd c) in
       if cwnd c <? new_cwnd then c <| cwnd := new_cwnd |> else c.

(** Free the first segment of a queue that was acknowledged. *)
Definition segment_acked (seg : tcp_seg) : MC unit :=
  set_tx (fun t => t <| snd_queuelen := u16 (snd_queuelen t - seg_clen seg) |>) ;;;
  modify (fun c => c <| recv_acked := u16 (recv_acked c + seg_len seg) |>) ;;;
  on_low (tcp_seg_free seg).

Fixpoint ack_unacked (fuel : nat) (ackno : Z) : MC unit :=
  match fuel with
  | O => ret tt
  | S n =>
      q <- tx unacked ;;
      match q with
      | [] => ret tt
      | seg :: rest =>
          if TCP_SEQ_LEQ (seg_seqno seg +% seg_tcplen seg) ackno
          then set_tx (fun t => t <| unacked := rest |>) ;;; segment_acked seg ;;; ack_unacked n ackno
          else ret tt
      end
  end.

Fixpoint ack_unsent (fuel : nat) (ackno : Z) : MC unit :=
  match fuel with
  | O => ret tt
  | S n =>
      t <- tx id ;;
      match unsent t with
      | [] => ret tt
      | seg :: rest =>
          if TCP_SEQ_BETWEEN ackno (seg_seqno seg +% seg_tcplen seg) (snd_nxt t)
          then set_tx (fun t => let t := t <| unsent := rest |> in
                 if bool_decide (rest = []) then t <| unsent_oversize := 0 |> else t) ;;;
               segment_acked seg ;;; ack_unsent n ackno
          else ret tt
      end
  end.

(** An acknowledgement of new data. *)
Definition receive_newack (i : tcp_inseg) : MC unit :=
  f <- pcb flags ;;
  (if TF_INFR f then set_flags (fun f => f <| TF_INFR := false |>) ;;;
                     set_cc (fun c => c <| cwnd := ssthresh c |>) else ret tt) ;;;
  set_cc (fun c => c <| nrtx := 0 |> <| rto := s16 (Z.shiftr (sa c) 3 + sv c) |> <| dupacks := 0 |>) ;;;
  set_tx (fun t => t <| lastack := i_ackno i |>) ;;;
  st <- pcb state ;;
  (if 4 <=? state_num st then set_cc grow_cwnd else ret tt) ;;;
  q <- tx unacked ;;
  ack_unacked (length q) (i_ackno i) ;;;
  q <- tx unacked ;;
  set_cc (fun c => c <| rtime := if bool_decide (q = []) then -1 else 0 |>) ;;;
  set_pcb (fun p => p <| polltmr := 0 |>).

(** The round-trip estimate of Van Jacobson, in 16-bit arithmetic. *)
Definition update_rtt (ticks : Z) (c : cong_vars) : cong_vars :=
  let m := s16 (ticks - rttest c) in
  let m := s16 (m - Z.shiftr (sa c) 3) in
  let c := c <| sa := s16 (sa c + m) |> in
  let m := if m <? 0 then s16 (- m) else m in
  let m := s16 (m - Z.shiftr (sv c) 2) in
  let c := c <| sv := s16 (sv c + m) |> in
  c <| rto := s16 (Z.shiftr (sa c) 3 + sv c) |> <| rttest := 0 |>.

Definition tcp_receive_ack (i : tcp_inseg) : MC unit :=
  t <- tx id ;;
  let right_wnd_edge := snd_wnd t +% snd_wl2 t in
  update_snd_wnd i ;;;
  t <- tx id ;;
  (if TCP_SEQ_LEQ (i_ackno i) (lastack t) then receive_dupack right_wnd_edge i
   else if TCP_SEQ_BETWEEN (i_ackno i) (lastack t + 1) (snd_nxt t) then receive_newack i
   else tcp_send_empty_ack ;;; ret tt) ;;;
  q <- tx unsent ;;
  ack_unsent (length q) (i_ackno i) ;;;
  acked <- gets recv_acked ;;
  set_tx (fun t => t <| snd_buf := u16 (snd_buf t + acked) |>) ;;;
  ticks <- gets tcp_ticks ;;
  set_cc (fun c => if negb (rttest c =? 0) && TCP_SEQ_LT (rtseq c) (i_ackno i)
                   then update_rtt ticks c else c).

(** ** [tcp_receive]: the data

    The first edge is trimmed when it was received before; the loop variables [seqno] and
    [inseg.len] follow. *)
Definition trim_left (rcv_nxt : Z) (i : tcp_inseg) : tcp_inseg * Z :=
  if TCP_SEQ_BETWEEN rcv_nxt (i_seqno i + 1) (i_seqno i + i_tcplen i - 1)
  then let off := s32 (rcv_nxt - i_seqno i) in
       (i <| i_p := trim_front off (i_p i) |> <| i_seqno := rcv_nxt |>,
        u16 (tot_len (i_p i) - u16 (rcv_nxt - i_seqno i)))
  else (i, tot_len (i_p i)).

(** The end is trimmed to the window, the FIN with it. *)
Definition trim_right (rcv_wnd : Z) (i : tcp_inseg) (len : Z) : tcp_inseg * Z :=
  if rcv_wnd <? u16 (TCP_TCPLEN len (i_hdr i)) then
    let i := i <| i_hdr := (i_hdr i) <| TCP_FIN := false |> |> in
    let len := u16 (rcv_wnd - (if TCP_SYN (i_hdr i) then 1 else 0)) in
    (i <| i_p := chain_realloc (i_p i) len |>, len)
  else (i, len).

(** In sequence: hand the data to [recv_data], note the FIN and acknowledge.  The result is
    the chain that is still owned by [inseg]. *)
Definition take_segment (i : tcp_inseg) : MC (option (list (list Z))) :=
  p <- (if 0 <? tot_len (i_p i)
        then modify (fun c => c <| recv_data := Some (i_p i) |>) ;;; ret None
        else ret (Some (i_p i))) ;;
  (if TCP_FIN (i_hdr i)
   then modify (fun c => c <| recv_flags := (recv_flags c) <| TF_GOT_FIN := true |> |>) else ret tt) ;;;
  tcp_ack ;;;
  ret p.

(** Account for the segment, then take it. *)
Definition accept_segment (i : tcp_inseg) (len : Z) : MC (option (list (list Z))) :=
  let tcplen := u16 (TCP_TCPLEN len (i_hdr i)) in
  set_rx (fun r => r <| rcv_nxt := i_seqno i +% tcplen |> <| rcv_wnd := u16 (rcv_wnd r - tcplen) |>) ;;;
  tcp_update_rcv_ann_wnd ;;;
  take_segment i.

Definition tcp_receive_data (i : tcp_inseg) : MC (option (list (list Z))) :=
  r <- rx id ;;
  st <- pcb state ;;
  if (0 <? i_tcplen i) && (state_num st <? 7) then
    let '(j, len) := trim_left (rcv_nxt r) i in
    (if negb (TCP_SEQ_BETWEEN (rcv_nxt r) (i_seqno i + 1) (i_seqno i + i_tcplen i - 1)) &&
        TCP_SEQ_LT (i_seqno i) (rcv_nxt r) then tcp_ack_now else ret tt) ;;;
    if TCP_SEQ_BETWEEN (i_seqno j) (rcv_nxt r) (rcv_nxt r + rcv_wnd r - 1) then
      if rcv_nxt r =? i_seqno j then
        let '(k, len) := trim_right (rcv_wnd r) j len in accept_segment k len
      else tcp_send_empty_ack ;;; ret (Some (i_p j))
    else tcp_send_empty_ack ;;; ret (Some (i_p j))
  else
    (if negb (TCP_SEQ_BETWEEN (i_seqno i) (rcv_nxt r) (rcv_nxt r + rcv_wnd r - 1))
     then tcp_ack_now else ret tt) ;;;
    ret (Some (i_p i)).

Definition tcp_receive (i : tcp_inseg) : MC (option (list (list Z))) :=
  (if TCP_ACK (i_hdr i) then tcp_receive_ack i else ret tt) ;;;
  tcp_receive_data i.
End TcpIn.

(** ** The state machine and the delivery *)
Section Process.
Context {L A : Type} `{!TcpLower L} `{!TcpApp L A}.
#[local] Abbreviation MS := (M (tcp_sys L A)).

Definition on_core {B} (m : M (tcp_core L) B) : MS B := fun s =>
  let '(b, c) := m (core s) in (b, mkTcp c (appl s)).

Definition set_in_flags (f : in_flags -> in_flags) : MS unit :=
  on_core (modify (fun c => c <| recv_flags := f (recv_flags c) |>)).
Definition in_flag (f : in_flags -> bool) : MS bool := on_core (gets (fun c => f (recv_flags c))).

(** [tcp_abandon] up to its error callback; [true]: the callback is due.  [tcp_abort] sends
    the reset. *)
Definition abandon_pcb (reset : bool) : M (tcp_core L) bool :=
  p <- pcb id ;;
  if bool_decide (state p = TIME_WAIT) then tcp_pcb_remove ;;; memp_free_pcb ;;; ret false else
  (if bool_decide (state p = CLOSED) then set_list PCB_NONE else tcp_pcb_remove) ;;;
  t <- tx id ;;
  tcp_segs_free (unacked t) ;;; tcp_segs_free (unsent t) ;;;
  (if reset && negb (bool_decide (state p = CLOSED))
   then tcp_rst (snd_nxt (txv p)) (rcv_nxt (rxv p)) else ret tt) ;;;
  memp_free_pcb ;;;
  ret true.

Definition tcp_abandon (reset : bool) : MS unit :=
  b <- on_core (abandon_pcb reset) ;;
  if b : bool then cb_err ERR_ABRT else ret tt.

Definition tcp_abort : MS unit := tcp_abandon true.

Definition LWIP_TCP_CALC_INITIAL_CWND (m : Z) : Z := Z.min (4 * m) (Z.max (2 * m) 4380).

(** A reset segment: accepted when it is exactly the next in sequence. *)
Definition process_rst (i : tcp_inseg) : MS Z :=
  p <- on_core (pcb id) ;;
  let rcv_nxt := rcv_nxt (rxv p) in
  let acceptable := if bool_decide (state p = SYN_SENT) then i_ackno i =? snd_nxt (txv p)
                    else i_seqno i =? rcv_nxt in
  (if negb (bool_decide (state p = SYN_SENT)) && negb acceptable &&
      TCP_SEQ_BETWEEN (i_seqno i) rcv_nxt (rcv_nxt + rcv_wnd (rxv p))
   then on_core tcp_ack_now else ret tt) ;;;
  if acceptable then
    set_in_flags (fun f => f <| TF_RESET := true |>) ;;;
    on_core (set_flags (fun f => f <| TF_ACK_DELAY := false |>)) ;;;
    ret ERR_RST
  else ret ERR_OK.

Definition TCP_SYNMAXRTX : Z := 6.

Definition SYN_SENT_input (i : tcp_inseg) : MS Z :=
  p <- on_core (pcb id) ;;
  if TCP_ACK (i_hdr i) && TCP_SYN (i_hdr i) && (i_ackno i =? lastack (txv p) +% 1) then
    on_core (
      set_rx (fun r => r <| rcv_nxt := i_seqno i +% 1 |> <| rcv_ann_right_edge := i_seqno i +% 1 |>) ;;;
      set_tx (fun t => t <| lastack := i_ackno i |> <| snd_wnd := i_wnd i |> <| snd_wnd_max := i_wnd i |>
                         <| snd_wl1 := i_seqno i -% 1 |>) ;;;
      set_state ESTABLISHED ;;;
      m <- cc mss ;;
      m <- tcp_eff_send_mss m ;;
      set_cc (fun c => c <| mss := m |> <| cwnd := u16 (LWIP_TCP_CALC_INITIAL_CWND m) |>) ;;;
      set_tx (fun t => t <| snd_queuelen := u16 (snd_queuelen t - 1) |>) ;;;
      t <- tx id ;;
      (match unacked t, unsent t with
       | rseg :: rest, _ => set_tx (fun t => t <| unacked := rest |>) ;;; on_low (tcp_seg_free rseg)
       | [], rseg :: rest => set_tx (fun t => t <| unsent := rest |>) ;;; on_low (tcp_seg_free rseg)
       | [], [] => ret tt
       end) ;;;
      q <- tx unacked ;;
      set_cc (fun c => if bool_decide (q = []) then c <| rtime := -1 |>
                       else c <| rtime := 0 |> <| nrtx := 0 |>)) ;;;
    err <- cb_connected ERR_OK ;;
    if err =? ERR_ABRT then ret ERR_ABRT else
    on_core tcp_ack_now ;;; ret ERR_OK
  else if TCP_ACK (i_hdr i) then
    on_core (
      tcp_rst (i_ackno i) (i_seqno i +% i_tcplen i) ;;;
      n <- cc nrtx ;;
      if n <? TCP_SYNMAXRTX then set_cc (fun c => c <| rtime := 0 |>) ;;; tcp_rexmit_rto else ret tt) ;;;
    ret ERR_OK
  else ret ERR_OK.

Definition SYN_RCVD_input (i : tcp_inseg) : MS (Z * option (list (list Z))) :=
  p <- on_core (pcb id) ;;
  if TCP_ACK (i_hdr i) then
    if TCP_SEQ_BETWEEN (i_ackno i) (lastack (txv p) + 1) (snd_nxt (txv p)) then
      on_core (set_state ESTABLISHED) ;;;
      err <- (if listener p then cb_accept true else ret ERR_VAL) ;;
      if negb (err =? ERR_OK) then
        (if negb (err =? ERR_ABRT) then tcp_abort else ret tt) ;;;
        ret (ERR_ABRT, Some (i_p i))
      else
        q <- on_core (tcp_receive i) ;;
        on_core (modify (fun c => if negb (recv_acked c =? 0)
                                  then c <| recv_acked := recv_acked c - 1 |> else c) ;;;
                 set_cc (fun c => c <| cwnd := u16 (LWIP_TCP_CALC_INITIAL_CWND (mss c)) |>)) ;;;
        fin <- in_flag TF_GOT_FIN ;;
        (if fin : bool then on_core (tcp_ack_now ;;; set_state CLOSE_WAIT) else ret tt) ;;;
        ret (ERR_OK, q)
    else on_core (tcp_rst (i_ackno i) (i_seqno i +% i_tcplen i)) ;;; ret (ERR_OK, Some (i_p i))
  else if TCP_SYN (i_hdr i) && (i_seqno i =? rcv_nxt (rxv p) -% 1)
  then on_core tcp_rexmit ;;; ret (ERR_OK, Some (i_p i))
  else ret (ERR_OK, Some (i_p i)).

(** Our FIN is acknowledged: [(flags & TCP_ACK) && ackno == snd_nxt && unsent == NULL]. *)
Definition all_acked (i : tcp_inseg) : MS bool :=
  t <- on_core (tx id) ;;
  ret (TCP_ACK (i_hdr i) && (i_ackno i =? snd_nxt t) && bool_decide (unsent t = [])).

(** The states in which [tcp_receive] runs first. *)
Definition synchronized_input (i : tcp_inseg) (st : tcp_state) : MS (option (list (list Z))) :=
  q <- on_core (tcp_receive i) ;;
  fin <- in_flag TF_GOT_FIN ;;
  done <- all_acked i ;;
  (match st with
   | CLOSE_WAIT | ESTABLISHED =>
       if fin : bool then on_core (tcp_ack_now ;;; set_state CLOSE_WAIT) else ret tt
   | FIN_WAIT_1 =>
       if fin : bool then
         if done : bool then on_core (tcp_ack_now ;;; to_time_wait)
         else on_core (tcp_ack_now ;;; set_state CLOSING)
       else if done : bool then on_core (set_state FIN_WAIT_2) else ret tt
   | FIN_WAIT_2 => if fin : bool then on_core (tcp_ack_now ;;; to_time_wait) else ret tt
   | CLOSING => if done : bool then on_core to_time_wait else ret tt
   | LAST_ACK => if done : bool then set_in_flags (fun f => f <| TF_CLOSED := true |>) else ret tt
   | _ => ret tt
   end) ;;;
  ret q.

(** The error code and the chain that [inseg] still owns. *)
Definition tcp_process (i : tcp_inseg) : MS (Z * option (list (list Z))) :=
  st <- on_core (pcb state) ;;
  if TCP_RST (i_hdr i) then e <- process_rst i ;; ret (e, Some (i_p i)) else
  if TCP_SYN (i_hdr i) && negb (bool_decide (st = SYN_SENT) || bool_decide (st = SYN_RCVD))
  then on_core tcp_ack_now ;;; ret (ERR_OK, Some (i_p i)) else
  on_core (
    ticks <- gets tcp_ticks ;;
    set_pcb (fun p => if TF_RXCLOSED (flags p) then p else p <| tmr := ticks |>) ;;;
    set_pcb (fun p => p <| keep_cnt_sent := 0 |>) ;;;
    tcp_parseopt i) ;;;
  match st with
  | SYN_SENT => e <- SYN_SENT_input i ;; ret (e, Some (i_p i))
  | SYN_RCVD => SYN_RCVD_input i
  | CLOSE_WAIT | ESTABLISHED | FIN_WAIT_1 | FIN_WAIT_2 | CLOSING | LAST_ACK =>
      q <- synchronized_input i st ;; ret (ERR_OK, q)
  | _ => ret (ERR_OK, Some (i_p i))
  end.

(** ** Delivery *)

(** The FIN occupies the window until the application is told. *)
Definition deliver_fin : MS Z :=
  on_core (set_rx (fun r => if negb (rcv_wnd r =? TCP_WND)
                            then r <| rcv_wnd := u16 (rcv_wnd r + 1) |> else r)) ;;;
  cb_recv None.

Definition tcp_process_refused_data : MS Z :=
  r <- on_core (rx refused_data) ;;
  match r with
  | None => ret ERR_OK
  | Some (p, fin) =>
      on_core (set_rx (fun r => r <| refused_data := None |>)) ;;;
      err <- cb_recv (Some p) ;;
      if err =? ERR_OK then
        if fin : bool then
          err <- deliver_fin ;;
          ret (if err =? ERR_ABRT then ERR_ABRT else ERR_OK)
        else ret ERR_OK
      else if err =? ERR_ABRT then ret ERR_ABRT
      else on_core (set_rx (fun r => r <| refused_data := Some (p, fin) |>)) ;;; ret ERR_INPROGRESS
  end.

Definition tcp_input_delayed_close : MS bool :=
  closed <- in_flag TF_CLOSED ;;
  if closed : bool then
    f <- on_core (pcb flags) ;;
    (if negb (TF_RXCLOSED f) then cb_err ERR_CLSD else ret tt) ;;;
    on_core (tcp_pcb_remove ;;; memp_free_pcb) ;;;
    ret true
  else ret false.

(** Hand [recv_data] to the application; [true]: go on, [false]: [goto aborted]. *)
Definition deliver_data : MS bool :=
  d <- on_core (gets recv_data) ;;
  match d with
  | None => ret true
  | Some p =>
      f <- on_core (pcb flags) ;;
      if TF_RXCLOSED f then on_core (on_low (chain_free p)) ;;; tcp_abort ;;; ret false else
      err <- cb_recv (Some p) ;;
      if err =? ERR_ABRT then ret false else
      (if negb (err =? ERR_OK)
       then on_core (set_rx (fun r => r <| refused_data := Some (p, false) |>)) else ret tt) ;;;
      ret true
  end.

Definition deliver_eof : MS bool :=
  fin <- in_flag TF_GOT_FIN ;;
  if fin : bool then
    r <- on_core (rx refused_data) ;;
    match r with
    | Some (p, _) => on_core (set_rx (fun r => r <| refused_data := Some (p, true) |>)) ;;; ret true
    | None => err <- deliver_fin ;; ret (negb (err =? ERR_ABRT))
    end
  else ret true.

(** After [tcp_process]: from [if (err != ERR_ABRT)] to the label [aborted]. *)
Definition input_events (err : Z) : MS unit :=
  if err =? ERR_ABRT then ret tt else
  reset <- in_flag TF_RESET ;;
  if reset : bool then
    cb_err ERR_RST ;;;
    on_core (tcp_pcb_remove ;;; memp_free_pcb)
  else
    acked <- on_core (gets recv_acked) ;;
    err <- (if 0 <? acked then cb_sent acked else ret ERR_OK) ;;
    if err =? ERR_ABRT then ret tt else
    on_core (modify (fun c => c <| recv_acked := 0 |>)) ;;;
    closed <- tcp_input_delayed_close ;;
    if closed : bool then ret tt else
    go <- deliver_data ;;
    if negb go then ret tt else
    go <- deliver_eof ;;
    if negb go then ret tt else
    on_core (modify (fun c => c <| input_pcb := false |>)) ;;;
    closed <- tcp_input_delayed_close ;;
    if closed : bool then ret tt else
    on_core tcp_output ;;; ret tt.

(** The label [aborted]. *)
Definition input_done (q : option (list (list Z))) : MS unit :=
  on_core (
    modify (fun c => c <| input_pcb := false |> <| recv_data := None |>) ;;;
    match q with Some p => on_low (chain_free p) | None => ret tt end).

(** The part of [tcp_input] for a segment of an active connection. *)
Definition tcp_input_active (i : tcp_inseg) : MS unit :=
  on_core (modify (fun c => c <| recv_data := None |> <| recv_flags := mkInFlags false false false |>
                              <| recv_acked := 0 |>)) ;;;
  r <- on_core (rx refused_data) ;;
  stop <- (match r with
           | None => ret false
           | Some _ =>
               err <- tcp_process_refused_data ;;
               r <- on_core (rx id) ;;
               if (err =? ERR_ABRT) ||
                  negb (bool_decide (refused_data r = None)) && (0 <? i_tcplen i) then
                 (if rcv_ann_wnd r =? 0 then on_core tcp_send_empty_ack ;;; ret tt else ret tt) ;;;
                 ret true
               else ret false
           end) ;;
  if stop : bool then input_done (Some (i_p i)) else
  on_core (modify (fun c => c <| input_pcb := true |>)) ;;;
  x <- tcp_process i ;;
  input_events x.1 ;;;
  input_done x.2.

(** A connection in TIME_WAIT. *)
Definition tcp_timewait_input (i : tcp_inseg) : MS unit :=
  on_core (
    r <- rx id ;;
    if TCP_RST (i_hdr i) then ret tt else
    if TCP_SYN (i_hdr i) && TCP_SEQ_BETWEEN (i_seqno i) (rcv_nxt r) (rcv_nxt r + rcv_wnd r)
    then tcp_rst (i_ackno i) (i_seqno i +% i_tcplen i) else
    (if negb (TCP_SYN (i_hdr i)) && TCP_FIN (i_hdr i)
     then ticks <- gets tcp_ticks ;; set_pcb (fun p => p <| tmr := ticks |>) else ret tt) ;;;
    if 0 <? i_tcplen i then tcp_ack_now ;;; tcp_output ;;; ret tt else ret tt).

(** [tcp_alloc]: the initial control block. *)
Definition new_pcb (ticks : Z) : tcp_pcb :=
  mkPcb CLOSED (mkFlags false false false false false false false false) ticks 0 0 false
    (mkRcv 0 TCP_WND TCP_WND 0 None)
    (mkSnd 0 0 0 0 0 0 0 TCP_SND_BUF 0 0 [] [])
    (mkCong INITIAL_MSS 1 TCP_SND_BUF 0 0 (-1) 0 0 0 (3000 / TCP_SLOW_INTERVAL)
       (3000 / TCP_SLOW_INTERVAL) 0 0).

Definition tcp_next_iss : M (tcp_core L) Z :=
  modify (fun c => c <| next_iss := next_iss c +% tcp_ticks c |>) ;;; gets next_iss.

(** A segment for a listening block: a SYN opens the connection. *)
Definition tcp_listen_input (i : tcp_inseg) : MS unit :=
  if TCP_RST (i_hdr i) then ret tt else
  if TCP_ACK (i_hdr i) then on_core (tcp_rst (i_ackno i) (i_seqno i +% i_tcplen i)) else
  if negb (TCP_SYN (i_hdr i)) then ret tt else
  ok <- on_core (on_low pcb_memp_malloc) ;;
  if negb ok then cb_accept false ;;; ret tt else
  rc <- on_core (
    ticks <- gets tcp_ticks ;;
    iss <- tcp_next_iss ;;
    set_pcb (fun _ =>
      let p := new_pcb ticks in
      let nxt := i_seqno i +% 1 in
      p <| state := SYN_RCVD |> <| listener := true |>
        <| rxv := (rxv p) <| rcv_nxt := nxt |> <| rcv_ann_right_edge := nxt |> |>
        <| txv := (txv p) <| snd_wl2 := iss |> <| snd_nxt := iss |> <| lastack := iss |>
                          <| snd_lbb := iss |> <| snd_wl1 := i_seqno i -% 1 |> |>) ;;;
    set_list PCB_ACTIVE ;;;
    tcp_parseopt i ;;;
    set_tx (fun t => t <| snd_wnd := i_wnd i |> <| snd_wnd_max := i_wnd i |>) ;;;
    m <- cc mss ;;
    m <- tcp_eff_send_mss m ;;
    set_cc (fun c => c <| mss := m |>) ;;;
    tcp_enqueue_flags (no_flags <| TCP_SYN := true |> <| TCP_ACK := true |>)) ;;
  if negb (rc =? ERR_OK) then tcp_abandon false else on_core tcp_output ;;; ret tt.

(** Dispatch to the connection, by the list it is on, then to a listening block; without
    either the answer is a reset. *)
Definition tcp_input (i : tcp_inseg) : MS unit :=
  c <- on_core (gets id) ;;
  match on_list c with
  | PCB_ACTIVE => tcp_input_active i
  | l => (if bool_decide (l = PCB_TW) then tcp_timewait_input i
          else if listening c then tcp_listen_input i
          else if negb (TCP_RST (i_hdr i))
          then on_core (tcp_rst (i_ackno i) (i_seqno i +% i_tcplen i)) else ret tt) ;;;
         on_core (on_low (chain_free (i_p i)))
  end.

(** ** The timers, for one connection *)

(** The body of the loop of [tcp_fasttmr] over the active blocks. *)
Definition fasttmr_active : MS unit :=
  on_core (
    f <- pcb flags ;;
    (if TF_ACK_DELAY f then tcp_ack_now ;;; tcp_output ;;; set_flags acks_sent else ret tt) ;;;
    f <- pcb flags ;;
    if TF_CLOSEPEND f
    then set_flags (fun f => f <| TF_CLOSEPEND := false |>) ;;; tcp_close_shutdown_fin ;;; ret tt
    else ret tt) ;;;
  r <- on_core (rx refused_data) ;;
  if bool_decide (r = None) then ret tt else tcp_process_refused_data ;;; ret tt.

Definition tcp_fasttmr : MS unit :=
  c <- on_core (gets id) ;;
  if bool_decide (on_list c = PCB_ACTIVE) then fasttmr_active else ret tt.

Definition tcp_backoff : list Z := [1; 2; 3; 4; 5; 6; 7; 7; 7; 7; 7; 7; 7].
Definition tcp_persist_backoff : list Z := [3; 6; 12; 24; 48; 96; 120].
Definition TCP_MAXRTX : Z := 12.
Definition TCP_MSL : Z := 60000.
Definition TCP_FIN_WAIT_TIMEOUT : Z := 20000.
Definition TCP_SYN_RCVD_TIMEOUT : Z := 20000.

Definition persist_timer : M (tcp_core L) unit :=
  b <- cc persist_backoff ;;
  let backoff_cnt := tcp_persist_backoff !!! Z.to_nat (b - 1) in
  set_cc (fun c => if persist_cnt c <? backoff_cnt then c <| persist_cnt := persist_cnt c + 1 |> else c) ;;;
  n <- cc persist_cnt ;;
  if backoff_cnt <=? n then
    e <- tcp_zero_window_probe ;;
    if e =? ERR_OK then
      set_cc (fun c => let c := c <| persist_cnt := 0 |> in
        if persist_backoff c <? 7 then c <| persist_backoff := persist_backoff c + 1 |> else c)
    else ret tt
  else ret tt.

Definition retransmit_timer : M (tcp_core L) unit :=
  set_cc (fun c => if 0 <=? rtime c then c <| rtime := s16 (rtime c + 1) |> else c) ;;;
  p <- pcb id ;;
  if negb (bool_decide (unacked (txv p) = [])) && (rto (cgv p) <=? rtime (cgv p)) then
    set_cc (fun c =>
      let c := if bool_decide (state p = SYN_SENT) then c
               else c <| rto := s16 (Z.shiftl (Z.shiftr (sa c) 3 + sv c)
                                       (tcp_backoff !!! Z.to_nat (Z.min (nrtx c) 12))) |> in
      let half := Z.min (cwnd c) (snd_wnd (txv p)) / 2 in
      c <| rtime := 0 |> <| ssthresh := if half <? u16 (2 * mss c) then u16 (2 * mss c) else half |>
        <| cwnd := mss c |>) ;;;
    tcp_rexmit_rto
  else ret tt.

(** The body of the loop of [tcp_slowtmr] over the active blocks; no connection of the
    bootloader asks for keep-alives or polling. *)
Definition slowtmr_active : MS unit :=
  c <- on_core (gets id) ;;
  let p := pcb_ c in
  let too_long n := n <? u32 (tcp_ticks c - tmr p) in
  let out_of_retries := (bool_decide (state p = SYN_SENT) && (TCP_SYNMAXRTX <=? nrtx (cgv p))) ||
                        (TCP_MAXRTX <=? nrtx (cgv p)) in
  (if out_of_retries then ret tt
   else if 0 <? persist_backoff (cgv p) then on_core persist_timer else on_core retransmit_timer) ;;;
  p <- on_core (pcb id) ;;
  let remove := out_of_retries ||
    (bool_decide (state p = FIN_WAIT_2) && TF_RXCLOSED (flags p) &&
     too_long (TCP_FIN_WAIT_TIMEOUT / TCP_SLOW_INTERVAL)) ||
    (bool_decide (state p = SYN_RCVD) && too_long (TCP_SYN_RCVD_TIMEOUT / TCP_SLOW_INTERVAL)) ||
    (bool_decide (state p = LAST_ACK) && too_long (2 * TCP_MSL / TCP_SLOW_INTERVAL)) in
  if remove then on_core (tcp_pcb_purge ;;; memp_free_pcb) ;;; cb_err ERR_ABRT
  else on_core (set_pcb (fun p => p <| polltmr := 0 |>) ;;; tcp_output) ;;; ret tt.

Definition tcp_slowtmr : MS unit :=
  on_core (modify (fun c => c <| tcp_ticks := tcp_ticks c +% 1 |>)) ;;;
  c <- on_core (gets id) ;;
  match on_list c with
  | PCB_ACTIVE => slowtmr_active
  | PCB_TW => if 2 * TCP_MSL / TCP_SLOW_INTERVAL <? u32 (tcp_ticks c - tmr (pcb_ c))
              then on_core (tcp_pcb_purge ;;; memp_free_pcb) else ret tt
  | _ => ret tt
  end.

(** [tcp_tmr]: both timers, the slow one at every second call; the result is [tcp_timer]. *)
Definition tcp_tmr (tcp_timer : Z) : MS Z :=
  tcp_fasttmr ;;;
  let t := u8 (tcp_timer + 1) in
  (if Z.odd t then tcp_slowtmr else ret tt) ;;;
  ret t.
End Process.
