(* ===== verification/TcpRcv.v ===== *)
(** * TCP reception: the stream reaches the application in order

    The abstract receiver knows the position [n] up to which the stream of the peer was
    accepted; [rx_advance] says how a segment moves it.  [tcp_receive] implements it for
    32-bit sequence numbers, and the application is given a prefix of the stream whatever
    segments arrive and whatever the timers, the lower layers and the application do. *)
From S2P Require Import Prelude Net Tcp TcpIn.

(** ** Sequence numbers as integers *)
Lemma s32_small z : -2147483648 <= z < 2147483648 -> s32 z = z.
Proof. intros H. unfold s32. rewrite Z.mod_small; lia. Qed.

Lemma s32_shift z k : s32 (z + k * 4294967296) = s32 z.
Proof.
  unfold s32. replace (z + k * 4294967296 + 2147483648) with (z + 2147483648 + k * 4294967296) by lia.
  by rewrite Z.mod_add.
Qed.

Lemma u32_shift z : exists k, u32 z = z + k * 4294967296.
Proof. exists (- (z / 4294967296)). unfold u32. rewrite Z.mod_eq by lia. lia. Qed.

Lemma u32_eq_shift z k : u32 (z + k * 4294967296) = u32 z.
Proof. unfold u32. by rewrite Z.mod_add. Qed.

Lemma s32_range z : -2147483648 <= s32 z < 2147483648.
Proof. unfold s32. pose proof (Z.mod_pos_bound (z + 2147483648) 4294967296 ltac:(lia)). lia. Qed.

(** The difference of two 32-bit positions is that of the integers, if it is small. *)
Lemma s32_diff z d : -2147483648 <= d < 2147483648 -> (exists k, z = d + k * 4294967296) -> s32 z = d.
Proof. intros H [k ->]. by rewrite s32_shift, s32_small. Qed.

Definition seq_of (irs n : Z) : Z := u32 (irs + 1 + n).

Section Seq.
Context (irs : Z).

Lemma seq_diff a b d : -2147483648 <= a - b + d < 2147483648 ->
  s32 (seq_of irs a - seq_of irs b + d) = a - b + d.
Proof.
  intros H. unfold seq_of. destruct (u32_shift (irs + 1 + a)) as [k ->], (u32_shift (irs + 1 + b)) as [l ->].
  apply s32_diff; [done|]. exists (k - l). lia.
Qed.

(** The comparisons of tcp_priv.h on positions; [z] is the difference the macro forms. *)
Lemma seq_diff' a b d z : z = seq_of irs a - seq_of irs b + d ->
  -2147483648 <= a - b + d < 2147483648 -> s32 z = a - b + d.
Proof. intros -> H. by apply seq_diff. Qed.

Lemma seq_sub a b : -2147483648 <= a - b < 2147483648 -> s32 (seq_of irs a - seq_of irs b) = a - b.
Proof. intros H. rewrite (seq_diff' a b 0); [lia| |lia]. by rewrite Z.add_0_r. Qed.

Lemma seq_between a lo b hi c :
  -2147483648 <= a - (b + lo) < 2147483648 -> -2147483648 <= a - (c + hi) < 2147483648 ->
  TCP_SEQ_BETWEEN (seq_of irs a) (seq_of irs b + lo) (seq_of irs c + hi) =
    ((b + lo <=? a) && (a <=? c + hi)).
Proof.
  intros H1 H2. unfold TCP_SEQ_BETWEEN, TCP_SEQ_GEQ, TCP_SEQ_LEQ.
  rewrite (seq_diff' a b (- lo)), (seq_diff' a c (- hi)) by lia.
  f_equal; apply eq_true_iff_eq; rewrite !Z.leb_le; lia.
Qed.

Lemma seq_lt a b : -2147483648 <= a - b < 2147483648 ->
  TCP_SEQ_LT (seq_of irs a) (seq_of irs b) = (a <? b).
Proof.
  intros H. unfold TCP_SEQ_LT. rewrite seq_sub by done.
  apply eq_true_iff_eq. rewrite !Z.ltb_lt. lia.
Qed.

Lemma seq_add n d : seq_of irs n +% d = seq_of irs (n + d).
Proof.
  unfold seq_of. destruct (u32_shift (irs + 1 + n)) as [k ->].
  replace (irs + 1 + n + k * 4294967296 + d) with (irs + 1 + (n + d) + k * 4294967296) by lia.
  apply u32_eq_shift.
Qed.

Lemma seq_eq a b : -2147483648 <= a - b < 2147483648 -> (seq_of irs a =? seq_of irs b) = (a =? b).
Proof.
  intros H. destruct (Z.eqb_spec a b) as [->|N]; [apply Z.eqb_refl|].
  apply Z.eqb_neq. intros E. pose proof (seq_diff a b 0 ltac:(lia)) as D.
  rewrite E, Z.sub_diag in D. change (s32 (0 + 0)) with 0 in D. lia.
Qed.
End Seq.

(** The receiver's variables agree with the position [n], the octets received with SYN
    and FIN counted; [x] is the right edge announced to the peer.  The window announced
    next is at least what was announced and at most the space there is. *)
Definition MAXPOS : Z := 2147483648 - 2 * TCP_WND - 65536.
Record wnd_inv {L} (irs n : Z) (c : tcp_core L) : Prop := {
  wnd_pos : 0 <= n <= MAXPOS;
  wnd_nxt : rcv_nxt (rxv (pcb_ c)) = seq_of irs n;
  wnd_mss : 0 <= mss (cgv (pcb_ c)) <= 65535;
  wnd_range : 0 <= rcv_ann_wnd (rxv (pcb_ c)) /\ rcv_ann_wnd (rxv (pcb_ c)) <= rcv_wnd (rxv (pcb_ c)) /\
              rcv_wnd (rxv (pcb_ c)) <= TCP_WND;
  wnd_edge : exists x, rcv_ann_right_edge (rxv (pcb_ c)) = seq_of irs x /\
               0 <= x <= n + rcv_ann_wnd (rxv (pcb_ c))
}.

(** [quiet]: only the send side, the announced edge, acknowledgement flags and timers change. *)
Record quiet {L} (c c' : tcp_core L) : Prop := {
  q_state : state (pcb_ c') = state (pcb_ c);
  q_list : on_list c' = on_list c;
  q_rxclosed : TF_RXCLOSED (flags (pcb_ c')) = TF_RXCLOSED (flags (pcb_ c));
  q_listener : listener (pcb_ c') = listener (pcb_ c);
  q_data : recv_data c' = recv_data c;
  q_flags : recv_flags c' = recv_flags c;
  q_input : input_pcb c' = input_pcb c;
  q_nxt : rcv_nxt (rxv (pcb_ c')) = rcv_nxt (rxv (pcb_ c));
  q_wnd : rcv_wnd (rxv (pcb_ c')) = rcv_wnd (rxv (pcb_ c));
  q_ann : rcv_ann_wnd (rxv (pcb_ c')) = rcv_ann_wnd (rxv (pcb_ c));
  q_refused : refused_data (rxv (pcb_ c')) = refused_data (rxv (pcb_ c));
  q_inv : forall irs n, wnd_inv irs n c -> wnd_inv irs n c'
}.

#[export] Instance quiet_preorder L : PreOrder (@quiet L).
Proof.
  split; [by intros c; constructor|]. intros a b c [] []; constructor; (congruence || auto).
Qed.

Section Quiet.
Context {L : Type} `{!TcpLower L}.
#[local] Abbreviation MC := (M (tcp_core L)).

Lemma quiet_wnd (c c' : tcp_core L) irs n :
  rxv (pcb_ c') = rxv (pcb_ c) -> (0 <= mss (cgv (pcb_ c)) <= 65535 -> 0 <= mss (cgv (pcb_ c')) <= 65535) ->
  wnd_inv irs n c -> wnd_inv irs n c'.
Proof. intros E Hm [? ? ? ? ?]. constructor; rewrite ?E; auto. Qed.

Lemma quiet_set_pcb (f : tcp_pcb -> tcp_pcb) :
  (forall p, state (f p) = state p /\ TF_RXCLOSED (flags (f p)) = TF_RXCLOSED (flags p) /\
     listener (f p) = listener p /\ rxv (f p) = rxv p /\
     (0 <= mss (cgv p) <= 65535 -> 0 <= mss (cgv (f p)) <= 65535)) ->
  frames quiet (set_pcb f : MC unit).
Proof.
  intros H c. apply wp_modify. destruct (H (pcb_ c)) as (H1 & H2 & H3 & H4 & H5).
  constructor; cbn; rewrite ?H4; try done. intros irs n. by apply quiet_wnd; cbn.
Qed.

Lemma quiet_on_low {A} (m : M L A) : frames quiet (on_low m).
Proof.
  intros c. unfold wp, on_low. destruct (m (low c)) as [a l]. constructor; cbn; try done.
  intros irs n. by apply quiet_wnd.
Qed.

Lemma quiet_set_tx f : frames quiet (set_tx f : MC unit).
Proof. apply quiet_set_pcb. done. Qed.

Lemma quiet_set_flags f : (forall x, TF_RXCLOSED (f x) = TF_RXCLOSED x) -> frames quiet (set_flags f : MC unit).
Proof. intros H. apply quiet_set_pcb. intros p. split; [done|]. split; [apply H|done]. Qed.

Lemma quiet_set_cc f : (forall c, mss (f c) = mss c) -> frames quiet (set_cc f : MC unit).
Proof. intros H. apply quiet_set_pcb. intros p. cbn. rewrite H. done. Qed.

Lemma quiet_acked f : (forall c : tcp_core L, f c = c <| recv_acked := recv_acked (f c) |>) ->
  frames quiet (modify f).
Proof.
  intros H. apply frames_modify. intros c. rewrite H. constructor; cbn; try done.
  intros irs n. by apply quiet_wnd.
Qed.

(** Announcing moves the edge to the position that [rcv_ann_wnd] reaches. *)
Lemma quiet_announce : frames quiet (announce_window : MC unit).
Proof.
  intros c. apply wp_modify. constructor; cbn; try done. intros irs n [H1 H2 H3 H4 H5].
  constructor; cbn; try done. rewrite H2. exists (n + rcv_ann_wnd (rxv (pcb_ c))).
  split; [apply seq_add|]. lia.
Qed.

Lemma quiet_pcb {A} (f : tcp_pcb -> A) : frames quiet (pcb f : MC A).
Proof. apply frames_gets, _. Qed.
Lemma quiet_rx {A} (f : rcv_vars -> A) : frames quiet (rx f : MC A).
Proof. apply frames_gets, _. Qed.
Lemma quiet_tx {A} (f : snd_vars -> A) : frames quiet (tx f : MC A).
Proof. apply frames_gets, _. Qed.
Lemma quiet_cc {A} (f : cong_vars -> A) : frames quiet (cc f : MC A).
Proof. apply frames_gets, _. Qed.
End Quiet.
#[export] Hint Resolve quiet_on_low quiet_set_tx quiet_announce quiet_pcb quiet_rx quiet_tx quiet_cc : frames.
#[export] Hint Extern 2 (frames quiet (set_flags _)) =>
  (apply quiet_set_flags; let x := fresh "x" in intros x; cbn; repeat case_match; reflexivity) : frames.
#[export] Hint Extern 2 (frames quiet (set_cc _)) =>
  (apply quiet_set_cc; let x := fresh "x" in intros x; cbn; repeat case_match; reflexivity) : frames.
#[export] Hint Extern 2 (frames quiet (modify _)) =>
  (apply quiet_acked; let x := fresh "x" in intros x; repeat case_match; by destruct x) : frames.

Section QuietOutput.
Context {L : Type} `{!TcpLower L}.
#[local] Abbreviation MC := (M (tcp_core L)).

Lemma quiet_ack_now : frames quiet (tcp_ack_now : MC unit).
Proof. unfold tcp_ack_now. solve_frames. Qed.
Lemma quiet_ack : frames quiet (tcp_ack : MC unit).
Proof. unfold tcp_ack. solve_frames. Qed.
Lemma quiet_alloc_header o d n : frames quiet (tcp_output_alloc_header o d n : MC _).
Proof. unfold tcp_output_alloc_header. solve_frames. Qed.
Lemma quiet_send_header w : frames quiet (send_header w : MC Z).
Proof. unfold send_header. solve_frames. Qed.
End QuietOutput.
#[export] Hint Resolve quiet_ack_now quiet_ack quiet_alloc_header quiet_send_header : frames.

Section QuietSend.
Context {L : Type} `{!TcpLower L}.
#[local] Abbreviation MC := (M (tcp_core L)).

Lemma quiet_empty_ack : frames quiet (tcp_send_empty_ack : MC Z).
Proof. unfold tcp_send_empty_ack. solve_frames. Qed.
Lemma quiet_eff_mss m : frames quiet (tcp_eff_send_mss m : MC Z).
Proof. unfold tcp_eff_send_mss. solve_frames. Qed.
#[local] Hint Resolve quiet_empty_ack quiet_eff_mss : frames.
Lemma quiet_segment s : frames quiet (tcp_output_segment s : MC Z).
Proof. unfold tcp_output_segment. solve_frames. Qed.
#[local] Hint Resolve quiet_segment : frames.
Lemma quiet_output_loop fuel wnd : frames quiet (tcp_output_loop fuel wnd : MC _).
Proof. induction fuel; cbn [tcp_output_loop]; solve_frames. Qed.
#[local] Hint Resolve quiet_output_loop : frames.
Lemma quiet_output : frames quiet (tcp_output : MC Z).
Proof. unfold tcp_output. solve_frames. Qed.
#[local] Hint Resolve quiet_output : frames.
Lemma quiet_nrtx : frames quiet (bump_nrtx : MC unit).
Proof. unfold bump_nrtx. solve_frames. Qed.
Lemma quiet_rtt : frames quiet (stop_rtt : MC unit).
Proof. unfold stop_rtt. solve_frames. Qed.
#[local] Hint Resolve quiet_nrtx quiet_rtt : frames.
Lemma quiet_rexmit_rto : frames quiet (tcp_rexmit_rto : MC unit).
Proof. unfold tcp_rexmit_rto. solve_frames. Qed.
Lemma quiet_rexmit : frames quiet (tcp_rexmit : MC unit).
Proof. unfold tcp_rexmit. solve_frames. Qed.
#[local] Hint Resolve quiet_rexmit : frames.
Lemma quiet_rexmit_fast : frames quiet (tcp_rexmit_fast : MC unit).
Proof. unfold tcp_rexmit_fast. solve_frames. Qed.
Lemma quiet_rst a b : frames quiet (tcp_rst a b : MC unit).
Proof. unfold tcp_rst. solve_frames. Qed.
Lemma quiet_probe : frames quiet (tcp_zero_window_probe : MC Z).
Proof. unfold tcp_zero_window_probe. solve_frames. Qed.
Lemma quiet_mem_err : frames quiet (mem_err : MC Z).
Proof. unfold mem_err. solve_frames. Qed.
Lemma quiet_create d k h n b : frames quiet (tcp_create_segment d k h n b : MC _).
Proof. unfold tcp_create_segment. solve_frames. Qed.
#[local] Hint Resolve quiet_mem_err quiet_create : frames.
Lemma quiet_enqueue h : frames quiet (tcp_enqueue_flags h : MC Z).
Proof. unfold tcp_enqueue_flags. solve_frames. Qed.
#[local] Hint Resolve quiet_enqueue : frames.
Lemma quiet_send_fin : frames quiet (tcp_send_fin : MC Z).
Proof. unfold tcp_send_fin. solve_frames. Qed.
Lemma quiet_segs_free q : frames quiet (tcp_segs_free q : MC unit).
Proof. induction q; cbn [tcp_segs_free foldr]; solve_frames. Qed.
End QuietSend.
#[export] Hint Resolve quiet_empty_ack quiet_eff_mss quiet_output quiet_nrtx quiet_rexmit_rto
  quiet_rexmit quiet_rexmit_fast quiet_rst quiet_probe quiet_enqueue quiet_send_fin
  quiet_segs_free : frames.

Section QuietAck.
Context {L : Type} `{!TcpLower L}.
#[local] Abbreviation MC := (M (tcp_core L)).

(** A stored segment size is at most TCP_MSS. *)
Lemma parseopt_range b fuel opts i m : TCP_MSS <= b -> 0 <= m <= b -> 0 <= parseopt_loop fuel opts i m <= b.
Proof.
  intros Hb. revert i m. induction fuel as [|fuel IH]; intros i m Hm; cbn [parseopt_loop]; [done|]. cbv zeta.
  set (v := u16 _). pose proof (u16_range (Z.lor (u16 (Z.shiftl (opt_byte opts (i + 2)) 8)) (opt_byte opts (i + 3)))) as Hv.
  fold v in Hv. assert (0 <= TCP_MSS) by done.
  repeat first [done | apply IH | match goal with |- context [if ?b then _ else _] => destruct b eqn:? end];
    destruct (Z.ltb_spec TCP_MSS v); cbn in *; lia || done.
Qed.

Lemma quiet_parseopt i : frames quiet (tcp_parseopt i : MC unit).
Proof.
  apply quiet_set_pcb. intros p. cbn -[parseopt_loop]. repeat split; try done; by apply (parseopt_range 65535).
Qed.

Lemma quiet_snd_wnd i : frames quiet (update_snd_wnd i : MC unit).
Proof. unfold update_snd_wnd. solve_frames. Qed.
Lemma quiet_dupack e i : frames quiet (receive_dupack e i : MC unit).
Proof. unfold receive_dupack. solve_frames. Qed.
Lemma quiet_acked_seg s : frames quiet (segment_acked s : MC unit).
Proof. unfold segment_acked. solve_frames. Qed.
#[local] Hint Resolve quiet_snd_wnd quiet_dupack quiet_acked_seg : frames.
Lemma quiet_unacked fuel a : frames quiet (ack_unacked fuel a : MC unit).
Proof. induction fuel; cbn [ack_unacked]; solve_frames. Qed.
Lemma quiet_unsent fuel a : frames quiet (ack_unsent fuel a : MC unit).
Proof. induction fuel; cbn [ack_unsent]; solve_frames. Qed.
#[local] Hint Resolve quiet_unacked quiet_unsent : frames.
Lemma quiet_polltmr : frames quiet (set_pcb (fun p => p <| polltmr := 0 |>) : MC unit).
Proof. by apply quiet_set_pcb. Qed.
Lemma quiet_grow : frames quiet (set_cc grow_cwnd : MC unit).
Proof. apply quiet_set_cc. intros c. unfold grow_cwnd. by repeat case_match. Qed.
#[local] Hint Resolve quiet_polltmr quiet_grow : frames.
Lemma quiet_newack i : frames quiet (receive_newack i : MC unit).
Proof. unfold receive_newack. solve_frames. Qed.
#[local] Hint Resolve quiet_newack : frames.
Lemma quiet_receive_ack i : frames quiet (tcp_receive_ack i : MC unit).
Proof. unfold tcp_receive_ack. solve_frames. Qed.
End QuietAck.
#[export] Hint Resolve quiet_parseopt quiet_receive_ack quiet_polltmr : frames.

(** ** Trimming chains *)
Lemma tot_len_cons q p : tot_len (q :: p) = Z.of_nat (length q) + tot_len p.
Proof. unfold tot_len. cbn. rewrite length_app. lia. Qed.
Lemma tot_len_nonneg p : 0 <= tot_len p.
Proof. unfold tot_len. lia. Qed.

(** A pbuf holds less than 32 KB, so that its length fits the [s16_t] of [pbuf_header]. *)
Definition small_pbufs (p : list (list Z)) : Prop := Forall (fun q => Z.of_nat (length q) <= 32767) p.

Lemma pbuf_hide_drop off q : 0 <= off <= Z.of_nat (length q) -> Z.of_nat (length q) <= 32767 ->
  pbuf_hide (s16 (s32 (- off))) q = drop (Z.to_nat off) q.
Proof.
  intros H1 H2. rewrite s32_small by lia.
  replace (s16 (- off)) with (- off) by (unfold s16; rewrite Z.mod_small; lia).
  unfold pbuf_hide. destruct (Z.leb_spec 0 (- off)).
  - replace off with 0 by lia. done.
  - destruct (Z.ltb_spec (Z.of_nat (length q)) (- - off)); [lia|]. f_equal. lia.
Qed.

Lemma trim_front_concat off p : small_pbufs p -> 0 <= off <= tot_len p ->
  concat (trim_front off p) = drop (Z.to_nat off) (concat p).
Proof.
  intros Hp. revert off; induction Hp as [|q p Hq _ IH]; intros off Hoff; cbn; [by rewrite drop_nil|].
  rewrite tot_len_cons in Hoff. destruct (Z.ltb_spec (Z.of_nat (length q)) off); cbn.
  - rewrite IH by lia. rewrite drop_app_ge by lia. f_equal. lia.
  - rewrite pbuf_hide_drop by lia. by rewrite drop_app_le by lia.
Qed.

Lemma chain_take_concat n p : 0 <= n -> concat (chain_take n p) = take (Z.to_nat n) (concat p).
Proof.
  revert n; induction p as [|q p IH]; intros n Hn; cbn; [by rewrite take_nil|].
  destruct (Z.ltb_spec (Z.of_nat (length q)) n); cbn.
  - rewrite IH by lia. rewrite take_app_ge by lia. do 2 f_equal. lia.
  - rewrite app_nil_r, take_app_le by lia. done.
Qed.

Lemma chain_realloc_concat n p : 0 <= n -> concat (chain_realloc p n) = take (Z.to_nat n) (concat p).
Proof.
  intros Hn. unfold chain_realloc. destruct (Z.leb_spec (tot_len p) n) as [H|H].
  - unfold tot_len in H. by rewrite take_ge by lia.
  - by apply chain_take_concat.
Qed.

(** ** The stream of the peer; the FIN has the position behind the last byte *)
(** A segment that carries the octets from [pos] on. *)
Record seg_of (str : list Z) (irs : Z) (i : tcp_inseg) (pos : Z) : Prop := {
  sg_syn : TCP_SYN (i_hdr i) = false;
  sg_pbufs : small_pbufs (i_p i);
  sg_short : tot_len (i_p i) < 65535;
  sg_pos : 0 <= pos /\ pos + tot_len (i_p i) <= slen str;
  sg_seq : i_seqno i = seq_of irs pos;
  sg_data : concat (i_p i) = sub str pos (pos + tot_len (i_p i));
  sg_fin : TCP_FIN (i_hdr i) = true -> pos + tot_len (i_p i) = slen str
}.

(** The abstract receiver: the position after a segment of [tl] octets from [pos] on. *)
Definition rx_advance (n wnd pos tl : Z) : Z :=
  if (pos <=? n) && (n <? pos + tl) && (0 <? wnd) then Z.min (pos + tl) (n + wnd) else n.

(** ** The data part of [tcp_receive] implements [rx_advance] *)

(** What receiving leaves alone: all but the receiver's position and window, the
    acknowledgement flags, [recv_data] and the FIN flag. *)
Record rx_only {L} (c c' : tcp_core L) : Prop := {
  ro_state : state (pcb_ c') = state (pcb_ c);
  ro_list : on_list c' = on_list c;
  ro_rxclosed : TF_RXCLOSED (flags (pcb_ c')) = TF_RXCLOSED (flags (pcb_ c));
  ro_listener : listener (pcb_ c') = listener (pcb_ c);
  ro_input : input_pcb c' = input_pcb c;
  ro_refused : refused_data (rxv (pcb_ c')) = refused_data (rxv (pcb_ c));
  ro_reset : TF_RESET (recv_flags c') = TF_RESET (recv_flags c);
  ro_closed : TF_CLOSED (recv_flags c') = TF_CLOSED (recv_flags c)
}.
#[export] Instance rx_only_preorder L : PreOrder (@rx_only L).
Proof. split; [by intros c; constructor|]. intros a b c [] []; constructor; congruence. Qed.

Lemma quiet_rx_only {L} (c c' : tcp_core L) : quiet c c' -> rx_only c c'.
Proof. intros []. constructor; congruence. Qed.

(** What the segment brought between the positions [n] and [n']. *)
Definition brought {L} (str : list Z) (n n' : Z) (c : tcp_core L) : Prop :=
  TF_GOT_FIN (recv_flags c) = ((n <? n') && (slen str <? n')) /\
  match recv_data c with
  | Some p => n < Z.min n' (slen str) /\ concat p = sub str n (Z.min n' (slen str))
  | None => Z.min n' (slen str) <= n
  end.

(** A run that moved the position from [n] to [n']; [q] is the chain [inseg] still owns. *)
Definition received {L} str irs n n' (c : tcp_core L) (q : option (list (list Z))) (c' : tcp_core L) : Prop :=
  wnd_inv irs n' c' /\ rx_only c c' /\ brought str n n' c' /\ (q = None <-> recv_data c' <> None) /\
  rcv_wnd (rxv (pcb_ c')) = rcv_wnd (rxv (pcb_ c)) - (n' - n).

Lemma received_after {L} str irs n n' (c c1 c' : tcp_core L) q : quiet c c1 ->
  received str irs n n' c1 q c' -> received str irs n n' c q c'.
Proof.
  intros Q (H1 & H2 & H3 & H4 & H5). split; [done|]. split; [etrans; [by apply quiet_rx_only|done]|].
  rewrite <- (q_wnd _ _ Q). done.
Qed.

Section ReceiveData.
Context {L : Type} `{!TcpLower L} (str : list Z) (irs : Z).
Hypothesis Hstr : slen str < MAXPOS.
#[local] Abbreviation MC := (M (tcp_core L)).

Lemma seq_minus a b : 0 <= a - b < 4294967296 -> seq_of irs a -% seq_of irs b = a - b.
Proof.
  intros H. unfold seq_of. destruct (u32_shift (irs + 1 + a)) as [k ->], (u32_shift (irs + 1 + b)) as [l ->].
  replace (irs + 1 + a + k * 4294967296 - (irs + 1 + b + l * 4294967296))
    with (a - b + (k - l) * 4294967296) by lia.
  by rewrite u32_eq_shift, u32_small by lia.
Qed.

(** The window announced next: all the space, if the right edge gains enough, else the edge
    stays.  The result is the gain. *)
Lemma update_ann_wnd_spec n x (c : tcp_core L) :
  let r := rxv (pcb_ c) in
  0 <= n <= MAXPOS -> rcv_nxt r = seq_of irs n -> 0 <= mss (cgv (pcb_ c)) <= 65535 ->
  0 <= rcv_wnd r <= TCP_WND -> rcv_ann_right_edge r = seq_of irs x -> 0 <= x <= n + rcv_wnd r ->
  wp (tcp_update_rcv_ann_wnd : MC Z) (fun g c' => wnd_inv irs n c' /\ exists a,
    c' = c <| pcb_ := (pcb_ c) <| rxv := r <| rcv_ann_wnd := a |> |> |> /\
    if x + Z.min 1460 (mss (cgv (pcb_ c))) <=? n + rcv_wnd r
    then a = rcv_wnd r /\ g = n + rcv_wnd r - x else n + a = Z.max n x /\ g = 0) c.
Proof.
  intros r Hn Hnxt Hm Hw Hx Hr. subst r. unfold tcp_update_rcv_ann_wnd.
  apply wp_bind, wp_gets, wp_bind, wp_gets. cbv beta zeta. cbn [id].
  change (TCP_WND / 2) with 1460. unfold MAXPOS, TCP_WND, TCP_MSS in *.
  set (m := mss (cgv (pcb_ c))) in *. set (w := rcv_wnd (rxv (pcb_ c))) in *.
  assert (E : TCP_SEQ_GEQ (rcv_nxt (rxv (pcb_ c)) +% w)
                (rcv_ann_right_edge (rxv (pcb_ c)) +% Z.min 1460 m) =
              (x + Z.min 1460 m <=? n + w)).
  { rewrite Hnxt, Hx, !seq_add. unfold TCP_SEQ_GEQ.
    rewrite seq_sub by lia. apply eq_true_iff_eq. rewrite !Z.leb_le. lia. }
  rewrite E. destruct (Z.leb_spec (x + Z.min 1460 m) (n + w)).
  - apply wp_bind, wp_modify, wp_ret. split.
    2: { exists w. split; [done|]. split; [done|]. rewrite Hnxt, Hx, seq_add, seq_minus by lia. lia. }
    constructor; cbn; unfold TCP_WND, TCP_MSS, MAXPOS; fold m w; try done; try lia. exists x. split; [done|]. lia.
  - assert (G : TCP_SEQ_GT (rcv_nxt (rxv (pcb_ c))) (rcv_ann_right_edge (rxv (pcb_ c))) = (x <? n)).
    { rewrite Hnxt, Hx. unfold TCP_SEQ_GT. rewrite seq_sub by lia.
      apply eq_true_iff_eq. rewrite !Z.ltb_lt. lia. }
    assert (D : u16 (rcv_ann_right_edge (rxv (pcb_ c)) -% rcv_nxt (rxv (pcb_ c))) = x - n \/ x < n).
    { destruct (Z.lt_ge_cases x n); [by right|left]. by rewrite Hnxt, Hx, seq_minus, u16_small by lia. }
    apply wp_bind, wp_modify, wp_ret. split.
    2: { eexists. split; [reflexivity|]. split; [|done]. cbn. rewrite G. destruct (Z.ltb_spec x n); lia. }
    constructor; cbn; unfold TCP_WND, TCP_MSS, MAXPOS; fold m w; rewrite ?G; try done; try lia.
    + destruct (Z.ltb_spec x n); lia.
    + exists x. split; [done|]. destruct (Z.ltb_spec x n); lia.
Qed.

Definition octets (i : tcp_inseg) : Z := tot_len (i_p i) + (if TCP_FIN (i_hdr i) then 1 else 0).

Lemma tcplen_octets i pos : seg_of str irs i pos -> i_tcplen i = octets i.
Proof.
  intros []. unfold i_tcplen, tcp_ctl, octets. rewrite sg_syn0, orb_false_r.
  pose proof (tot_len_nonneg (i_p i)). destruct (TCP_FIN _); apply u16_small; lia.
Qed.

Lemma trim_left_spec i pos n : seg_of str irs i pos -> 0 <= n <= MAXPOS ->
  let j := (trim_left (seq_of irs n) i).1 in let len := (trim_left (seq_of irs n) i).2 in
  i_hdr j = i_hdr i /\
  if (pos <? n) && (n <? pos + octets i)
  then i_seqno j = seq_of irs n /\ concat (i_p j) = sub str n (pos + tot_len (i_p i)) /\
       len = pos + tot_len (i_p i) - n
  else j = i /\ len = tot_len (i_p i).
Proof.
  intros Hi Hn. unfold trim_left. rewrite (tcplen_octets i pos Hi).
  destruct Hi as [_ Hsm Hsh Hpos Hseq Hd _]. pose proof (tot_len_nonneg (i_p i)). rewrite Hseq.
  assert (Ho : tot_len (i_p i) <= octets i <= tot_len (i_p i) + 1) by (unfold octets; destruct (TCP_FIN _); lia).
  replace (seq_of irs pos + octets i - 1) with (seq_of irs pos + (octets i - 1)) by lia.
  unfold MAXPOS, TCP_WND, TCP_MSS in *.
  rewrite seq_between by lia.
  replace ((pos + 1 <=? n) && (n <=? pos + (octets i - 1))) with ((pos <? n) && (n <? pos + octets i))
    by (f_equal; apply eq_true_iff_eq; rewrite Z.ltb_lt, Z.leb_le; lia).
  destruct (Z.ltb_spec pos n); [|done]. destruct (Z.ltb_spec n (pos + octets i)); [|done].
  cbn [andb fst snd i_hdr i_seqno i_p upd]. rewrite seq_sub by lia. split; [done|]. split; [done|]. split.
  - rewrite trim_front_concat by (done || lia). rewrite Hd, sub_drop by lia. f_equal. lia.
  - assert (E : u16 (seq_of irs n - seq_of irs pos) = n - pos).
    { unfold seq_of. destruct (u32_shift (irs + 1 + n)) as [k ->], (u32_shift (irs + 1 + pos)) as [l ->].
      unfold u16.
      replace (irs + 1 + n + k * 4294967296 - (irs + 1 + pos + l * 4294967296))
        with (n - pos + (k - l) * 65536 * 65536) by lia.
      rewrite Z.mod_add by lia. apply Z.mod_small. lia. }
    rewrite E, u16_small by lia. lia.
Qed.

(** A segment that begins at [n] and ends at [e], its FIN not counted. *)
Lemma trim_right_spec j n e w : TCP_SYN (i_hdr j) = false -> 0 <= n <= e -> e <= slen str ->
  e - n < 65535 -> 0 <= w <= TCP_WND -> concat (i_p j) = sub str n e ->
  let k := (trim_right w j (e - n)).1 in let len := (trim_right w j (e - n)).2 in
  let t := e - n + (if TCP_FIN (i_hdr j) then 1 else 0) in
  i_seqno k = i_seqno j /\ TCP_SYN (i_hdr k) = false /\ 
  concat (i_p k) = sub str n (n + len) /\ 0 <= len <= e - n /\
  len + (if TCP_FIN (i_hdr k) then 1 else 0) = Z.min t w /\
  (TCP_FIN (i_hdr k) = true -> TCP_FIN (i_hdr j) = true /\ n + len = e).
Proof.
  intros Hsyn Hn He Hl Hw Hd. unfold trim_right, TCP_TCPLEN. rewrite Hsyn, orb_false_r.
  unfold TCP_WND, TCP_MSS in *.
  assert (Hu : u16 (e - n + (if TCP_FIN (i_hdr j) then 1 else 0)) = e - n + (if TCP_FIN (i_hdr j) then 1 else 0))
    by (apply u16_small; destruct (TCP_FIN _); lia).
  rewrite Hu. destruct (Z.ltb_spec w (e - n + (if TCP_FIN (i_hdr j) then 1 else 0))) as [H|H];
    cbn -[Z.add Z.min chain_realloc]; cbv zeta.
  - rewrite Hsyn, Z.sub_0_r, u16_small by lia.
    assert (w <= e - n) by (destruct (TCP_FIN (i_hdr j)); lia).
    split; [done|]. split; [done|]. split; [rewrite chain_realloc_concat, Hd, sub_take by lia; done|].
    split; [lia|]. split; [lia|done].
  - split; [done|]. split; [done|]. split; [rewrite Hd; f_equal; lia|]. split; [lia|]. split; [lia|].
    intros E. split; [done|lia].
Qed.

Lemma concat_len p a b : 0 <= a <= b -> b <= slen str -> concat p = sub str a b -> tot_len p = b - a.
Proof. intros H1 H2 E. unfold tot_len. by rewrite E, sub_length. Qed.

(** Handing over the bytes from [n] on and the FIN. *)
Lemma take_segment_spec k n e m (c : tcp_core L) : wnd_inv irs m c -> recv_data c = None ->
  TF_GOT_FIN (recv_flags c) = false -> 0 <= n <= e -> e <= slen str -> concat (i_p k) = sub str n e ->
  m = e + (if TCP_FIN (i_hdr k) then 1 else 0) -> (TCP_FIN (i_hdr k) = true -> e = slen str) ->
  wp (take_segment k) (fun q c' => wnd_inv irs m c' /\ rx_only c c' /\ brought str n m c' /\
    (q = None <-> recv_data c' <> None) /\ rcv_wnd (rxv (pcb_ c')) = rcv_wnd (rxv (pcb_ c))) c.
Proof.
  intros Hinv Hd Hf Hn He Hp Hm Hfin. unfold take_segment.
  assert (Htl : tot_len (i_p k) = e - n) by (by apply concat_len). rewrite Htl.
  apply wp_bind.
  assert (Hq : forall c1 (q0 : option (list (list Z))), pcb_ c1 = pcb_ c -> on_list c1 = on_list c -> input_pcb c1 = input_pcb c ->
      recv_flags c1 = recv_flags c -> recv_data c1 = (if 0 <? e - n then Some (i_p k) else None) ->
    wp ((if TCP_FIN (i_hdr k)
         then modify (fun c => c <| recv_flags := (recv_flags c) <| TF_GOT_FIN := true |> |>) else ret tt) ;;;
        tcp_ack ;;; ret q0)
      (fun q c' => wnd_inv irs m c' /\ rx_only c c' /\ brought str n m c' /\
         q = q0 /\ recv_data c' = recv_data c1 /\ rcv_wnd (rxv (pcb_ c')) = rcv_wnd (rxv (pcb_ c))) c1).
  { intros c1 q0 E1 E2 E3 E4 E5. apply wp_bind.
    apply (wp_mono _ (fun _ c2 => pcb_ c2 = pcb_ c /\ on_list c2 = on_list c /\ input_pcb c2 = input_pcb c /\
      recv_data c2 = recv_data c1 /\
      recv_flags c2 = (recv_flags c) <| TF_GOT_FIN := TCP_FIN (i_hdr k) |>)).
    - destruct (TCP_FIN (i_hdr k)); [apply wp_modify|apply wp_ret]; cbn; rewrite E4; try done.
      repeat split; try done. rewrite <- Hf. by destruct (recv_flags c).
    - cbv beta. intros _ c2 (F1 & F2 & F3 & F4 & F5).
      wp_call (quiet_ack c2) as u c3 Q. destruct Q. apply wp_ret. split; [apply q_inv0; by destruct Hinv; constructor; rewrite ?F1|].
      split; [constructor; rewrite ?q_state0, ?q_list0, ?q_rxclosed0, ?q_listener0, ?q_input0, ?q_refused0, ?q_flags0,
                ?F1, ?F2, ?F3, ?F5; done|].
      split; [|by rewrite q_data0, q_wnd0, F1]. unfold brought. rewrite q_flags0, F5, q_data0, F4, E5. cbn.
      split.
      + destruct (TCP_FIN (i_hdr k)); subst m.
        * rewrite Hfin in * by done.
          destruct (Z.ltb_spec n (slen str + 1)); [|lia]. by destruct (Z.ltb_spec (slen str) (slen str + 1)); [|lia].
        * destruct (Z.ltb_spec (slen str) (e + 0)); [lia|by rewrite andb_false_r].
      + assert (Z.min m (slen str) = e) as -> by (destruct (TCP_FIN (i_hdr k)); [specialize (Hfin eq_refl)|]; lia).
        destruct (Z.ltb_spec 0 (e - n)); [split; [lia|done]|lia]. }
  destruct (Z.ltb_spec 0 (e - n)).
  - apply wp_bind, wp_modify, wp_ret. eapply wp_mono; [by apply Hq|].
    cbv beta. intros q c' (H1 & H2 & H3 & -> & H4 & H5). repeat (split; [done|]). rewrite H4. cbn. done.
  - apply wp_ret. eapply wp_mono; [by apply Hq|].
    cbv beta. intros q c' (H1 & H2 & H3 & -> & H4 & H5). repeat (split; [done|]). rewrite H4, Hd. done.
Qed.

(** Accepting the octets from [n] on: [len] bytes and perhaps the FIN. *)
Lemma accept_segment_spec k n len (c : tcp_core L) :
  let t := len + (if TCP_FIN (i_hdr k) then 1 else 0) in
  wnd_inv irs n c -> recv_data c = None -> TF_GOT_FIN (recv_flags c) = false ->
  TCP_SYN (i_hdr k) = false -> i_seqno k = seq_of irs n ->
  concat (i_p k) = sub str n (n + len) -> 0 <= len -> n + len <= slen str ->
  (TCP_FIN (i_hdr k) = true -> n + len = slen str) -> t <= rcv_wnd (rxv (pcb_ c)) ->
  wp (accept_segment k len) (fun q c' => received str irs n (n + t) c q c') c.
Proof.
  intros t Hinv Hd Hf Hsyn Hseq Hp Hlen Hend Hfin Ht.
  destruct Hinv as [Hn Hnxt Hm Hw (x & Hx & Hxr)]. unfold accept_segment.
  assert (Htf : t = len \/ t = len + 1) by (unfold t; destruct (TCP_FIN (i_hdr k)); lia).
  assert (Hu : u16 (TCP_TCPLEN len (i_hdr k)) = t).
  { unfold TCP_TCPLEN. rewrite Hsyn, orb_false_r. unfold TCP_WND, TCP_MSS in *. apply u16_small. lia. }
  rewrite Hu, Hseq, seq_add. unfold MAXPOS, TCP_WND, TCP_MSS in *.
  apply wp_bind, wp_modify, wp_bind. eapply wp_mono.
  { eapply (update_ann_wnd_spec (n + t) x); cbn; try done;
      rewrite ?u16_small by lia; unfold MAXPOS, TCP_WND, TCP_MSS; lia. }
  cbv beta. intros _ c1 (Hinv & a & -> & _). eapply wp_mono; [apply (take_segment_spec k n (n + len) (n + t))|].
  all: try done; try lia. cbv beta. intros q c' (H1 & H2 & H3 & H4 & H5). split; [done|].
  split; [etrans; [|exact H2]; by constructor|]. split; [done|]. split; [done|].
  rewrite H5. cbn. rewrite u16_small by lia. lia.
Qed.

(** Is a segment that begins at [a] inside the window? *)
Lemma in_window a n w : 0 <= a <= MAXPOS -> 0 <= n <= MAXPOS -> 0 <= w <= TCP_WND ->
  TCP_SEQ_BETWEEN (seq_of irs a) (seq_of irs n) (seq_of irs n + w - 1) = ((n <=? a) && (a <=? n + w - 1)).
Proof.
  unfold MAXPOS, TCP_WND, TCP_MSS. intros H1 H2 H3.
  replace (seq_of irs n + w - 1) with (seq_of irs n + (w - 1)) by lia.
  rewrite <- (Z.add_0_r (seq_of irs n)) at 1. rewrite seq_between by lia. f_equal; f_equal; lia.
Qed.

(** What a run that accepts nothing leaves. *)
Lemma receive_nothing {A} n (c : tcp_core L) (m : MC A) (p : list (list Z)) : wnd_inv irs n c -> recv_data c = None ->
  TF_GOT_FIN (recv_flags c) = false -> frames quiet m ->
  wp (m ;;; ret (Some p)) (fun q c' => received str irs n n c q c') c.
Proof.
  intros Hinv Hd Hf Hm. wp_call (Hm c) as u c' Q. apply wp_ret.
  split; [by apply (q_inv _ _ Q)|]. split; [by apply quiet_rx_only|].
  destruct Q. unfold brought. rewrite q_flags0, q_data0, Hd, Hf.
  split; [|split; [done|lia]]. split; [|lia]. by rewrite Z.ltb_irrefl.
Qed.

Lemma quiet_maybe_ack (b : bool) : frames quiet (if b then tcp_ack_now else ret tt : MC unit).
Proof. destruct b; auto with frames typeclass_instances. Qed.

(** In sequence from [n] on: trim the end, accept the rest. *)
Lemma receive_in_seq j n e (c : tcp_core L) : wnd_inv irs n c -> recv_data c = None ->
  TF_GOT_FIN (recv_flags c) = false -> TCP_SYN (i_hdr j) = false -> i_seqno j = seq_of irs n ->
  n <= e <= slen str -> e - n < 65535 -> concat (i_p j) = sub str n e ->
  (TCP_FIN (i_hdr j) = true -> e = slen str) ->
  wp (let '(k, len) := trim_right (rcv_wnd (rxv (pcb_ c))) j (e - n) in accept_segment k len)
    (fun q c' => let n' := Z.min (e + (if TCP_FIN (i_hdr j) then 1 else 0)) (n + rcv_wnd (rxv (pcb_ c))) in
       received str irs n n' c q c') c.
Proof.
  intros Hinv Hd Hf Hsyn Hseq He Hlen Hp Hfin. pose proof (wnd_pos _ _ _ Hinv). pose proof (wnd_range _ _ _ Hinv).
  pose proof (trim_right_spec j n e (rcv_wnd (rxv (pcb_ c))) Hsyn ltac:(lia) ltac:(lia) Hlen ltac:(lia) Hp) as T.
  destruct (trim_right _ j (e - n)) as [k len]. cbn [fst snd] in T. cbv zeta in T.
  destruct T as (T1 & T2 & T3 & T4 & T5 & T6).
  eapply wp_mono; [apply (accept_segment_spec k n len); try done|].
  - congruence.
  - lia.
  - lia.
  - intros E. destruct (T6 E) as [E1 E2]. rewrite E2. by apply Hfin.
  - lia.
  - cbv beta zeta. intros q c'. rewrite T5.
    by replace (Z.min (e + (if TCP_FIN (i_hdr j) then 1 else 0)) (n + rcv_wnd (rxv (pcb_ c))))
      with (n + Z.min (e - n + (if TCP_FIN (i_hdr j) then 1 else 0)) (rcv_wnd (rxv (pcb_ c)))) by lia.
Qed.

(** [tcp_receive] without its acknowledgement part refines [rx_advance]. *)
Lemma receive_data_spec i pos n (c : tcp_core L) : seg_of str irs i pos ->
  wnd_inv irs n c -> recv_data c = None -> TF_GOT_FIN (recv_flags c) = false ->
  wp (tcp_receive_data i) (fun q c' =>
    let n' := if state_num (state (pcb_ c)) <? 7
              then rx_advance n (rcv_wnd (rxv (pcb_ c))) pos (octets i) else n in
    received str irs n n' c q c') c.
Proof.
  intros Hi Hinv Hd Hf. pose proof (wnd_pos _ _ _ Hinv) as Hn. pose proof (wnd_range _ _ _ Hinv) as Hw.
  pose proof (trim_left_spec i pos n Hi Hn) as T. pose proof (tcplen_octets i pos Hi) as Htl.
  pose proof (tot_len_nonneg (i_p i)) as Hp0. destruct Hi as [Hsyn Hsm Hsh [Hpos Hend] Hseq Hdat Hfin].
  unfold tcp_receive_data. apply wp_bind, wp_gets, wp_bind, wp_gets. cbn [id]. rewrite Htl, (wnd_nxt _ _ _ Hinv).
  assert (Ho : octets i = tot_len (i_p i) + (if TCP_FIN (i_hdr i) then 1 else 0)) by done.
  destruct (state_num (state (pcb_ c)) <? 7); [|rewrite andb_false_r; apply receive_nothing; auto using quiet_maybe_ack].
  rewrite andb_true_r. unfold rx_advance. destruct (Z.ltb_spec 0 (octets i)) as [H0|H0].
  2: { assert ((pos <=? n) && (n <? pos + octets i) = false) as ->
         by (apply andb_false_iff; rewrite Z.leb_gt, Z.ltb_ge; lia).
       apply receive_nothing; auto using quiet_maybe_ack. }
  assert (Hm : slen str < MAXPOS) by done. unfold MAXPOS, TCP_WND, TCP_MSS in *.
  replace (i_seqno i + octets i - 1) with (i_seqno i + (octets i - 1)) by lia.
  rewrite Hseq, seq_between, seq_lt by (destruct (TCP_FIN (i_hdr i)); lia).
  destruct (trim_left (seq_of irs n) i) as [j len]. cbn [fst snd] in T. cbv zeta in T.
  destruct T as [T1 T2].
  destruct ((pos <=? n) && (n <? pos + octets i)) eqn:Ein.
  - (* the segment covers the position: what is left of it begins there *)
    apply andb_true_iff in Ein as [E1%Z.leb_le E2%Z.ltb_lt].
    assert (Hj : i_seqno j = seq_of irs n /\ concat (i_p j) = sub str n (pos + tot_len (i_p i)) /\
                 len = pos + tot_len (i_p i) - n).
    { destruct (Z.ltb_spec pos n), (Z.ltb_spec n (pos + octets i)); cbn [andb] in T2; try lia; try done.
      destruct T2 as [-> ->]. replace n with pos by lia. split; [done|]. split; [done|lia]. }
    destruct Hj as (J1 & J2 & ->). rewrite J1, in_window by (unfold MAXPOS, TCP_WND, TCP_MSS; lia).
    assert (negb ((pos + 1 <=? n) && (n <=? pos + (octets i - 1))) && (pos <? n) = false) as ->.
    { destruct (Z.leb_spec (pos + 1) n), (Z.leb_spec n (pos + (octets i - 1))), (Z.ltb_spec pos n); done || lia. }
    apply wp_bind, wp_ret. rewrite Z.leb_refl, Z.eqb_refl. cbn [andb].
    replace (n <=? n + rcv_wnd (rxv (pcb_ c)) - 1) with (0 <? rcv_wnd (rxv (pcb_ c)))
      by (apply eq_true_iff_eq; rewrite Z.ltb_lt, Z.leb_le; lia).
    destruct (Z.ltb_spec 0 (rcv_wnd (rxv (pcb_ c)))) as [W|W]; [|apply receive_nothing; auto with frames].
    replace (pos + octets i) with (pos + tot_len (i_p i) + (if TCP_FIN (i_hdr j) then 1 else 0))
      by (rewrite T1; lia).
    apply receive_in_seq; rewrite ?T1; try done; try lia.
    destruct (TCP_FIN (i_hdr i)); lia.
  - (* nothing of it can be used *)
    assert (Hj : j = i).
    { destruct (Z.ltb_spec pos n), (Z.ltb_spec n (pos + octets i)); cbn [andb] in T2; try apply T2.
      destruct (Z.leb_spec pos n); [done|lia]. }
    assert (Hne : (n =? pos) = false).
    { apply Z.eqb_neq. intros ->. rewrite Z.leb_refl in Ein. destruct (Z.ltb_spec pos (pos + octets i)); done || lia. }
    subst j. rewrite Hseq, seq_eq, Hne by lia. cbn [andb].
    apply wp_bind. eapply wp_mono; [apply quiet_maybe_ack|]. cbv beta. intros _ c1 Q.
    eapply wp_mono; [|cbv beta; intros q c'; by apply received_after].
    { assert (H1 : wnd_inv irs n c1) by (by apply (q_inv _ _ Q)).
      assert (H2 : recv_data c1 = None) by (by rewrite (q_data _ _ Q)).
      assert (H3 : TF_GOT_FIN (recv_flags c1) = false) by (by rewrite (q_flags _ _ Q)).
      destruct (TCP_SEQ_BETWEEN _ _ _); apply receive_nothing; auto with frames. }
Qed.
End ReceiveData.

Section Receive.
Context {L : Type} `{!TcpLower L} (str : list Z) (irs : Z).
Hypothesis Hstr : slen str < MAXPOS.

Lemma receive_spec i pos n (c : tcp_core L) : seg_of str irs i pos ->
  wnd_inv irs n c -> recv_data c = None -> TF_GOT_FIN (recv_flags c) = false ->
  wp (tcp_receive i) (fun q c' =>
    let n' := if state_num (state (pcb_ c)) <? 7
              then rx_advance n (rcv_wnd (rxv (pcb_ c))) pos (octets i) else n in
    received str irs n n' c q c') c.
Proof.
  intros Hi Hinv Hd Hf. unfold tcp_receive. apply wp_bind.
  apply (wp_mono _ (fun _ c1 => quiet c c1)).
  { destruct (TCP_ACK (i_hdr i)); [apply quiet_receive_ack|by apply wp_ret]. }
  cbv beta. intros _ c1 Q. eapply wp_mono.
  { apply (receive_data_spec str irs Hstr i pos n c1); [done|by apply (q_inv _ _ Q)|..];
      rewrite ?(q_data _ _ Q), ?(q_flags _ _ Q); done. }
  cbv beta zeta. rewrite (q_state _ _ Q), (q_wnd _ _ Q). intros q c'. by apply received_after.
Qed.

(** A retransmitted SYN, which carries nothing. *)
Lemma receive_syn i n (c : tcp_core L) : TCP_SYN (i_hdr i) = true -> TCP_FIN (i_hdr i) = false ->
  tot_len (i_p i) = 0 -> i_seqno i = seq_of irs (-1) ->
  wnd_inv irs n c -> recv_data c = None -> TF_GOT_FIN (recv_flags c) = false ->
  wp (tcp_receive i) (fun q c' => received str irs n n c q c') c.
Proof.
  intros Hs Hfin Hp Hseq Hinv Hd Hf. unfold tcp_receive. apply wp_bind.
  apply (wp_mono _ (fun _ c1 => quiet c c1)).
  { destruct (TCP_ACK (i_hdr i)); [apply quiet_receive_ack|by apply wp_ret]. }
  cbv beta. intros _ c1 Q. 
  assert (H1 : wnd_inv irs n c1) by (by apply (q_inv _ _ Q)).
  assert (H2 : recv_data c1 = None) by (by rewrite (q_data _ _ Q)).
  assert (H3 : TF_GOT_FIN (recv_flags c1) = false) by (by rewrite (q_flags _ _ Q)).
  pose proof (wnd_pos _ _ _ H1) as Hn. pose proof (wnd_range _ _ _ H1) as Hw.
  eapply wp_mono; [|cbv beta; intros q c'; by apply received_after].
  assert (Ht : i_tcplen i = 1) by (unfold i_tcplen, tcp_ctl; by rewrite Hs, Hp, orb_true_r).
  unfold tcp_receive_data. apply wp_bind, wp_gets, wp_bind, wp_gets. cbn [id].
  unfold trim_left. rewrite Ht, Hseq, (wnd_nxt _ _ _ H1).
  unfold MAXPOS, TCP_WND, TCP_MSS in *.
  replace (seq_of irs (-1) + 1 - 1) with (seq_of irs (-1) + 0) by lia.
  rewrite seq_between by lia.
  replace ((-1 + 1 <=? n) && (n <=? -1 + 0)) with false by (symmetry; apply andb_false_iff; right; apply Z.leb_gt; lia).
  destruct ((0 <? 1) && _); [|apply receive_nothing; auto using quiet_maybe_ack].
  apply wp_bind. eapply wp_mono; [apply quiet_maybe_ack|]. cbv beta. intros _ c2 Q2.
  eapply wp_mono; [|cbv beta; intros q c'; by apply received_after].
  assert (G1 : wnd_inv irs n c2) by (by apply (q_inv _ _ Q2)).
  assert (G2 : recv_data c2 = None) by (by rewrite (q_data _ _ Q2)).
  assert (G3 : TF_GOT_FIN (recv_flags c2) = false) by (by rewrite (q_flags _ _ Q2)).
  replace (seq_of irs n =? i_seqno i) with false
    by (symmetry; rewrite Hseq, seq_eq by lia; apply Z.eqb_neq; lia).
  destruct (TCP_SEQ_BETWEEN _ _ _); apply receive_nothing; auto with frames.
Qed.

(** An acknowledgement alone, wherever it is numbered. *)
Lemma receive_control i n (c : tcp_core L) : i_tcplen i = 0 ->
  wnd_inv irs n c -> recv_data c = None -> TF_GOT_FIN (recv_flags c) = false ->
  wp (tcp_receive i) (fun q c' => received str irs n n c q c') c.
Proof.
  intros Ht Hinv Hd Hf. unfold tcp_receive. apply wp_bind.
  apply (wp_mono _ (fun _ c1 => quiet c c1)).
  { destruct (TCP_ACK (i_hdr i)); [apply quiet_receive_ack|by apply wp_ret]. }
  cbv beta. intros _ c1 Q.
  eapply wp_mono; [|cbv beta; intros q c'; by apply received_after].
  unfold tcp_receive_data. apply wp_bind, wp_gets, wp_bind, wp_gets. rewrite Ht. cbn [id andb Z.ltb].
  apply receive_nothing; auto using quiet_maybe_ack; [by apply (q_inv _ _ Q)|by rewrite (q_data _ _ Q)|
    by rewrite (q_flags _ _ Q)].
Qed.
End Receive.
