(* ===== verification/TcpStream.v ===== *)
(** * TCP connections: the application sees the stream

    What the application may do to its connection ([api]), what is asked of it
    ([TcpAppLaws]), and the invariant of a connection over segments, timers and calls. *)
From S2P Require Import Prelude Net Tcp TcpIn TcpRcv.

(** ** The steps of the stack and of the application on a connection *)

(** The connection left the active list for good and takes no data any more. *)
Definition off {L} (c : tcp_core L) : Prop :=
  on_list c <> PCB_ACTIVE /\ 7 <= state_num (state (pcb_ c)).

(** What every step keeps, even while a connection is being torn down. *)
Record apiw {L} (c c' : tcp_core L) : Prop := {
  a_data : recv_data c' = recv_data c;
  a_fin : TF_GOT_FIN (recv_flags c') = TF_GOT_FIN (recv_flags c);
  a_reset : TF_RESET (recv_flags c') = TF_RESET (recv_flags c);
  a_input : input_pcb c' = input_pcb c;
  a_wnd : forall irs n, wnd_inv irs n c -> wnd_inv irs n c';
  a_list : on_list c <> PCB_ACTIVE -> on_list c' <> PCB_ACTIVE
}.
#[export] Instance apiw_preorder L : PreOrder (@apiw L).
Proof. split; [by intros c; constructor|]. intros a b c [] []; constructor; auto; congruence. Qed.

(** A connection past the SYN of the peer stays so. *)
Record api0 {L} (c c' : tcp_core L) : Prop := {
  a_w :> apiw c c';
  a_sync : 3 <= state_num (state (pcb_ c)) -> 3 <= state_num (state (pcb_ c'));
  a_off : off c -> off c'
}.
#[export] Instance api0_preorder L : PreOrder (@api0 L).
Proof. split; [by intros c; constructor|]. intros a b c [] []; constructor; auto; by etrans. Qed.

(** The connection ends, or its refused data stays and a FIN received stays received. *)
Definition api {L} (c c' : tcp_core L) : Prop :=
  api0 c c' /\ (3 <= state_num (state (pcb_ c)) -> off c' \/
    refused_data (rxv (pcb_ c')) = refused_data (rxv (pcb_ c)) /\
    (7 <= state_num (state (pcb_ c)) -> 7 <= state_num (state (pcb_ c')))).
#[export] Instance api_preorder L : PreOrder (@api L).
Proof.
  split; [by intros c; split; [|right]|]. intros a b c [A1 A2] [B1 B2]. split; [by etrans|]. intros Hs.
  destruct (B2 (a_sync _ _ A1 Hs)) as [B3|[B3 B4]]; [by left|].
  destruct (A2 Hs) as [A3|[A3 A4]]; [left; by apply (a_off _ _ B1)|].
  right. split; [congruence|auto].
Qed.

Lemma quiet_apiw {L} (c c' : tcp_core L) : quiet c c' -> apiw c c'.
Proof. intros []. constructor; try congruence; try done. Qed.
Lemma quiet_api0 {L} (c c' : tcp_core L) : quiet c c' -> api0 c c'.
Proof.
  intros Q. constructor; [by apply quiet_apiw|by rewrite (q_state _ _ Q)|].
  unfold off. by rewrite (q_list _ _ Q), (q_state _ _ Q).
Qed.
Lemma quiet_api {L} (c c' : tcp_core L) : quiet c c' -> api c c'.
Proof.
  intros Q. split; [by apply quiet_api0|]. intros _. right.
  split; [apply (q_refused _ _ Q)|]. by rewrite (q_state _ _ Q).
Qed.

(** Only the window invariant, the list and the state need a proof. *)
Lemma apiw_intro {L} (c c' : tcp_core L) : recv_data c' = recv_data c ->
  TF_GOT_FIN (recv_flags c') = TF_GOT_FIN (recv_flags c) -> TF_RESET (recv_flags c') = TF_RESET (recv_flags c) ->
  input_pcb c' = input_pcb c -> on_list c' = on_list c \/ on_list c' <> PCB_ACTIVE ->
  mss (cgv (pcb_ c')) = mss (cgv (pcb_ c)) ->
  (rxv (pcb_ c')) <| refused_data := None |> = (rxv (pcb_ c)) <| refused_data := None |> -> apiw c c'.
Proof.
  intros H1 H2 H3 H4 H5 H6 H7. constructor; try done; [|intros; destruct H5; congruence].
  pose proof (f_equal rcv_nxt H7) as E1. pose proof (f_equal rcv_wnd H7) as E2.
  pose proof (f_equal rcv_ann_wnd H7) as E3. pose proof (f_equal rcv_ann_right_edge H7) as E4.
  cbn in E1, E2, E3, E4. intros irs n [? ? ? ? ?]. constructor; rewrite ?E1, ?E2, ?E3, ?E4, ?H6; done.
Qed.

Section Api.
Context {L : Type} `{!TcpLower L}.
#[local] Abbreviation MC := (M (tcp_core L)).

Lemma api0_quiet {B} (m : MC B) : frames quiet m -> frames api0 m.
Proof. apply frames_mono, quiet_api0. Qed.
Lemma api_quiet {B} (m : MC B) : frames quiet m -> frames api m.
Proof. apply frames_mono, quiet_api. Qed.

Lemma apiw_quiet {B} (m : MC B) : frames quiet m -> frames apiw m.
Proof. apply frames_mono, quiet_apiw. Qed.
Lemma api0_apiw {B} (m : MC B) : frames api0 m -> frames apiw m.
Proof. apply frames_mono. by intros c c' []. Qed.

Lemma api0_set_list l : l <> PCB_ACTIVE -> frames api0 (set_list l : MC unit).
Proof.
  intros H c. apply wp_modify. constructor; [apply apiw_intro; auto|done|]. intros [_ Hs]. by split.
Qed.
Lemma apiw_set_state st : frames apiw (set_state st : MC unit).
Proof. intros c. apply wp_modify. apply apiw_intro; auto. Qed.
Lemma api0_set_state st : 7 <= state_num st -> frames api0 (set_state st : MC unit).
Proof.
  intros H c. apply wp_modify. constructor; [apply apiw_intro; auto|cbn; lia|]. intros [Hl _]. by split.
Qed.
Lemma api0_drop_refused : frames api0 (set_rx (fun r => r <| refused_data := None |>) : MC unit).
Proof. intros c. apply wp_modify. constructor; [apply apiw_intro; auto|done|done]. Qed.
Lemma api0_rxclosed : frames api0 (set_flags (fun f => f <| TF_RXCLOSED := true |>) : MC unit).
Proof. intros c. apply wp_modify. constructor; [apply apiw_intro; auto|done|done]. Qed.
Lemma api0_trigger : frames api0 (tcp_trigger_input_pcb_close : MC unit).
Proof. intros c. apply wp_modify. constructor; [apply apiw_intro; auto|done|done]. Qed.
End Api.
#[export] Hint Resolve api0_drop_refused api0_rxclosed api0_trigger apiw_set_state : frames.
#[export] Hint Extern 1 (frames api0 (set_list _)) => apply api0_set_list; discriminate : frames.
#[export] Hint Extern 1 (frames api0 (set_state _)) => (apply api0_set_state; cbn; lia) : frames.
#[export] Hint Extern 3 (frames api0 _) => apply api0_quiet; solve [eauto with frames typeclass_instances] : frames.
#[export] Hint Extern 3 (frames api _) => apply api_quiet; solve [eauto with frames typeclass_instances] : frames.
#[export] Hint Extern 4 (frames apiw _) => apply api0_apiw; solve [eauto with frames typeclass_instances] : frames.

Section Close.
Context {L : Type} `{!TcpLower L}.
#[local] Abbreviation MC := (M (tcp_core L)).

Lemma api0_free_refused : frames api0 (free_refused : MC unit).
Proof. unfold free_refused. solve_frames. Qed.
#[local] Hint Resolve api0_free_refused : frames.
Lemma api0_purge : frames api0 (tcp_pcb_purge : MC unit).
Proof. unfold tcp_pcb_purge. solve_frames. Qed.
#[local] Hint Resolve api0_purge : frames.
Lemma api0_memp_free : frames api0 (memp_free_pcb : MC unit).
Proof. unfold memp_free_pcb. solve_frames. Qed.
#[local] Hint Resolve api0_memp_free : frames.
Lemma apiw_remove : frames apiw (tcp_pcb_remove : MC unit).
Proof. unfold tcp_pcb_remove. solve_frames. Qed.

Lemma free_ends {B} (k : MC B) (c : tcp_core L) : (forall c', on_list c' <> PCB_ACTIVE -> wp k (fun _ c2 => on_list c2 <> PCB_ACTIVE) c') ->
  wp (memp_free_pcb ;;; k) (fun _ c' => on_list c' <> PCB_ACTIVE) c.
Proof.
  intros Hk. unfold memp_free_pcb. apply wp_bind, wp_bind. unfold wp at 1, on_low.
  destruct (pcb_memp_free (low c)) as [u l]. apply wp_modify. by apply Hk.
Qed.
Lemma abandon_off b (c : tcp_core L) : wp (abandon_pcb b : MC bool) (fun _ c' => on_list c' <> PCB_ACTIVE) c.
Proof.
  unfold abandon_pcb. apply wp_any. intros p c1.
  case_bool_decide; [apply wp_any; intros _ c2; apply free_ends; intros; by apply wp_ret|].
  apply wp_any. intros _ c2. apply wp_any. intros t c3. apply wp_any. intros _ c4. apply wp_any. intros _ c5.
  apply wp_any. intros _ c6. apply free_ends. intros. by apply wp_ret.
Qed.

(** A connection that is purged and put into TIME_WAIT is off. *)
Lemma ends_time_wait (c : tcp_core L) : wp to_time_wait (fun _ c' => api0 c c' /\ off c') c.
Proof.
  unfold to_time_wait. wp_call (api0_purge c) as u c1 A1. apply wp_bind, wp_modify, wp_modify.
  split; [etrans; [exact A1|]|split; [done|cbn; lia]].
  constructor; [apply apiw_intro; auto|cbn; lia|]. intros _. split; [done|cbn; lia].
Qed.

(** Growing the window within its limits. *)
Lemma wnd_inv_update irs n w (c : tcp_core L) : wnd_inv irs n c ->
  rcv_wnd (rxv (pcb_ c)) <= w <= TCP_WND ->
  wp (tcp_update_rcv_ann_wnd : MC Z) (fun _ c' => wnd_inv irs n c')
     (c <| pcb_ := (pcb_ c) <| rxv := (rxv (pcb_ c)) <| rcv_wnd := w |> |> |>).
Proof.
  intros [H1 H2 H3 H4 (x & H5 & H6)] Hw. eapply wp_mono; [apply (update_ann_wnd_spec irs n x); cbn; try done; lia|].
  by cbv beta; intros _ c' [H _].
Qed.

Lemma update_ann_wnd_frame (c : tcp_core L) : wp (tcp_update_rcv_ann_wnd : MC Z) (fun _ c' =>
  exists a, c' = c <| pcb_ := (pcb_ c) <| rxv := (rxv (pcb_ c)) <| rcv_ann_wnd := a |> |> |>) c.
Proof.
  unfold tcp_update_rcv_ann_wnd. apply wp_bind, wp_gets, wp_bind, wp_gets. cbv beta zeta.
  case_match; apply wp_bind, wp_modify, wp_ret; by eexists.
Qed.

Lemma recved_wnd_range st len w : 0 <= len <= 65535 - TCP_WND -> 0 <= w <= TCP_WND ->
  w <= recved_wnd st len w <= TCP_WND.
Proof.
  unfold recved_wnd, TCP_WND, TCP_MSS. intros H1 H2. rewrite u16_small by lia.
  destruct (Z.ltb_spec (2 * (1500 - 40)) (w + len)); [lia|]. case_match; lia.
Qed.

(** Opening the window: only the receiver's window changes. *)
Lemma api_rcv_wnd (f : Z -> Z) : (forall w, 0 <= w <= TCP_WND -> w <= f w <= TCP_WND) ->
  frames api (set_rx (fun r => r <| rcv_wnd := f (rcv_wnd r) |>) ;;; tcp_update_rcv_ann_wnd : MC Z).
Proof.
  intros Hf c. apply wp_bind, wp_modify.
  set (c1 := c <| pcb_ := (pcb_ c) <| rxv := (rxv (pcb_ c)) <| rcv_wnd := f (rcv_wnd (rxv (pcb_ c))) |> |> |>).
  apply (wp_mono _ (fun _ c' => (forall irs n, wnd_inv irs n c -> wnd_inv irs n c') /\
    exists a, c' = c1 <| pcb_ := (pcb_ c1) <| rxv := (rxv (pcb_ c1)) <| rcv_ann_wnd := a |> |> |>)).
  - apply wp_and; [|apply update_ann_wnd_frame].
    apply wp_intro. intros z c' E irs n Hi.
    refine (wp_run _ _ _ _ _ (wnd_inv_update irs n _ c Hi _) E).
    apply Hf. pose proof (wnd_range _ _ _ Hi). lia.
  - cbv beta. intros _ c' [Hi [a ->]]. split; [|by right]. constructor; [by constructor|done|done].
Qed.

Lemma api_recved len : 0 <= len <= 65535 - TCP_WND -> frames api (tcp_recved len : MC unit).
Proof.
  intros Hlen. unfold tcp_recved. apply frames_bind; [apply _|solve_frames|]. intros st c.
  apply wp_bind_assoc. apply wp_bind. eapply wp_mono.
  { apply (api_rcv_wnd (recved_wnd st len)). intros w. by apply recved_wnd_range. }
  cbv beta. intros z c1 A. apply (wp_mono _ (fun _ c2 => api c1 c2)); [|intros _ c2; by etrans].
  assert (F : frames api ((if TCP_WND_UPDATE_THRESHOLD <=? s32 z
    then tcp_ack_now ;;; tcp_output ;;; ret tt else ret tt) : MC unit)) by solve_frames.
  apply F.
Qed.

(** A change of the state that keeps a received FIN. *)
Lemma api_state st (c : tcp_core L) : 3 <= state_num st ->
  (7 <= state_num (state (pcb_ c)) -> 7 <= state_num st) -> api c (c <| pcb_ := (pcb_ c) <| state := st |> |>).
Proof.
  intros H1 H2. split; [|by right]. constructor; [apply apiw_intro; auto|done|]. intros [Hl Hs]. split; cbn; auto.
Qed.

Lemma api_close_fin : frames api (tcp_close_shutdown_fin : MC Z).
Proof.
  assert (Hfin : forall st (c : tcp_core L), 3 <= state_num st ->
    (7 <= state_num (state (pcb_ c)) -> 7 <= state_num st) ->
    wp (err <- tcp_send_fin ;;
        (if err =? ERR_OK then set_state st else ret tt) ;;;
        (if err =? ERR_OK then tcp_output ;;; ret err
         else if err =? ERR_MEM then set_flags (fun f => f <| TF_CLOSEPEND := true |>) ;;; ret ERR_OK
         else ret err)) (fun _ c' => api c c') c).
  { intros st c H1 H2. wp_call (quiet_send_fin c) as err c1 Q. apply wp_bind.
    apply (wp_mono _ (fun _ c2 => api c c2)).
    - destruct (err =? ERR_OK); [apply wp_modify|apply wp_ret; by apply quiet_api].
      etrans; [by apply quiet_api|]. apply api_state; rewrite ?(q_state _ _ Q); done.
    - cbv beta. intros _ c2 A. apply (wp_mono _ (fun _ c3 => api c2 c3)); [|intros _ c3; by etrans].
      assert (F : frames api ((if err =? ERR_OK then tcp_output ;;; ret err
         else if err =? ERR_MEM then set_flags (fun f => f <| TF_CLOSEPEND := true |>) ;;; ret ERR_OK
         else ret err) : MC Z)) by solve_frames. apply F. }
  intros c. unfold tcp_close_shutdown_fin. apply wp_bind, wp_gets. cbv beta zeta.
  destruct (state (pcb_ c)) eqn:E; try (by apply wp_ret); apply Hfin; rewrite ?E; done || (cbn; lia).
Qed.

Definition same_state (c c' : tcp_core L) : Prop := state (pcb_ c') = state (pcb_ c).
#[local] Instance same_state_preorder : PreOrder same_state.
Proof. split; [by intros c|intros a b c; unfold same_state; congruence]. Qed.
Lemma same_state_quiet {B} (m : MC B) : frames quiet m -> frames same_state m.
Proof. apply frames_mono. intros c c'. apply q_state. Qed.
#[local] Hint Extern 3 (frames same_state _) => apply same_state_quiet; solve [eauto with frames typeclass_instances] : frames.
#[local] Hint Extern 1 (frames same_state (set_rx _)) => (by intros ?; apply wp_modify) : frames.

Lemma same_state_purge : frames same_state (tcp_pcb_purge : MC unit).
Proof. unfold tcp_pcb_purge, free_refused. solve_frames. Qed.

(** Closing with unread data: reset, purge, and off the list. *)
Lemma close_reset seqno ackno p (c : tcp_core L) : state p = state (pcb_ c) ->
  state p = ESTABLISHED \/ state p = CLOSE_WAIT ->
  wp (tcp_rst seqno ackno ;;; tcp_pcb_purge ;;; set_list PCB_NONE ;;;
      (if bool_decide (state p = ESTABLISHED) then set_state TIME_WAIT ;;; set_list PCB_TW
       else busy <- gets input_pcb ;;
            if busy : bool then tcp_trigger_input_pcb_close else memp_free_pcb) ;;;
      ret ERR_OK) (fun _ c' => api0 c c' /\ off c') c.
Proof.
  intros Ep Hp. wp_call (quiet_rst seqno ackno c) as u c1 Q.
  wp_call (wp_and _ _ _ _ (api0_purge c1) (same_state_purge c1)) as v c2 A.
  destruct A as [A2 E2]. unfold same_state in E2. apply wp_bind, wp_modify.
  set (c3 := c2 <| on_list := PCB_NONE |>).
  assert (A3 : api0 c c3).
  { etrans; [by apply quiet_api0|]. etrans; [exact A2|].
    apply (wp_run _ _ _ _ _ (api0_set_list PCB_NONE ltac:(done) c2) eq_refl). }
  assert (E3 : state (pcb_ c3) = state p) by (cbn; rewrite E2, (q_state _ _ Q); done).
  case_bool_decide as Es.
  - apply wp_bind, wp_bind, wp_modify, wp_modify, wp_ret. split.
    + etrans; [exact A3|]. constructor; [apply apiw_intro; auto|cbn; lia|]. intros _. split; [done|cbn; lia].
    + split; [done|cbn; lia].
  - destruct Hp as [Hp|Hp]; [done|]. assert (O : off c3) by (split; [done|rewrite E3, Hp; cbn; lia]).
    assert (F : frames api0 ((busy <- gets input_pcb ;;
       if busy : bool then tcp_trigger_input_pcb_close else memp_free_pcb) ;;; ret ERR_OK : MC Z))
      by solve_frames.
    eapply wp_mono; [apply F|]. cbv beta. intros _ c4 A4. split; [by etrans|by apply (a_off _ _ A4)].
Qed.

Lemma api_close_shutdown b : frames api (tcp_close_shutdown b : MC Z).
Proof.
  intros c. unfold tcp_close_shutdown. apply wp_bind, wp_gets. cbv beta zeta. cbn [id].
  destruct (b && _ && _) eqn:E.
  - eapply wp_mono; [apply close_reset; [done|]|].
    + apply andb_true_iff in E as [E _]. apply andb_true_iff in E as [_ E].
      apply orb_true_iff in E as [E%bool_decide_eq_true|E%bool_decide_eq_true]; auto.
    + cbv beta. intros _ c' [H1 H2]. split; [done|by left].
  - assert (Hf : forall m : MC Z, state_num (state (pcb_ c)) < 3 -> frames apiw m -> wp m (fun _ c' => api c c') c).
    { intros m Hs Hm. eapply wp_mono; [apply Hm|]. cbv beta. intros _ c' Aw.
      split; [constructor; [done|lia|intros [_ Ho]; lia]|lia]. }
    destruct (state (pcb_ c)) eqn:Es; try apply api_close_fin; (apply Hf; [cbn; lia|]).
    + solve_frames.
    + apply frames_bind; [apply _|apply apiw_remove|]. intros _. solve_frames.
Qed.

Lemma api_close : frames api (tcp_close : MC Z).
Proof.
  unfold tcp_close. apply frames_bind; [apply _| |intros _; apply api_close_shutdown].
  intros c. apply wp_modify. split; [|by right]. constructor; [apply apiw_intro; auto|done|done].
Qed.

(** What a computation can return. *)
Definition returns {B} (P : B -> Prop) (m : MC B) : Prop := forall c, P (m c).1.
Lemma returns_ret {B} (P : B -> Prop) b : P b -> returns P (ret b).
Proof. by intros H c. Qed.
Lemma returns_bind {B C} (P : C -> Prop) (m : MC B) (k : B -> MC C) :
  (forall b, returns P (k b)) -> returns P (bind m k).
Proof. intros H c. unfold bind. destruct (m c) as [b c1]. apply H. Qed.
Lemma returns_bind_of {B C} (P : B -> Prop) (Q : C -> Prop) (m : MC B) (k : B -> MC C) :
  returns P m -> (forall b, P b -> returns Q (k b)) -> returns Q (bind m k).
Proof. intros Hm H c. specialize (Hm c). unfold bind. destruct (m c) as [b c1]. by apply H. Qed.
Ltac solve_returns :=
  repeat first [apply returns_ret; tauto | apply returns_bind; intros ? |
    match goal with |- returns _ (match ?x with _ => _ end) => destruct x end].

Lemma send_fin_result : returns (fun r => r = ERR_OK \/ r = ERR_MEM) (tcp_send_fin : MC Z).
Proof. unfold tcp_send_fin, tcp_enqueue_flags, mem_err. solve_returns. Qed.

(** [tcp_close] of a connection always reports success. *)
Lemma close_ok : returns (fun r => r = ERR_OK) (tcp_close : MC Z).
Proof.
  assert (Hfin : forall st, returns (fun r => r = ERR_OK) (err <- tcp_send_fin ;;
        (if err =? ERR_OK then set_state st else ret tt) ;;;
        (if err =? ERR_OK then tcp_output ;;; ret err
         else if err =? ERR_MEM then set_flags (fun f => f <| TF_CLOSEPEND := true |>) ;;; ret ERR_OK
         else ret err) : MC Z)).
  { intros st. apply (returns_bind_of _ _ _ _ send_fin_result). intros err [-> | ->]; cbn; solve_returns. }
  unfold tcp_close, tcp_close_shutdown, tcp_close_shutdown_fin. cbv zeta.
  repeat first [apply Hfin | apply returns_ret; done | apply returns_bind; intros ? |
    match goal with |- returns _ (match ?x with _ => _ end) => destruct x end].
Qed.
End Close.

(** ** The application

    [R st ph a]: the application [a] was given the bytes [st] and is in phase [ph].  A
    callback acts on the connection through [api] only, and [ERR_ABRT] says that it ended
    the connection. *)
Inductive app_phase := Receiving | Finished | Failed.
#[export] Instance app_phase_eq_dec : EqDecision app_phase.
Proof. solve_decision. Defined.
Definition failed (ph : app_phase) : app_phase := if bool_decide (ph = Finished) then Finished else Failed.

Definition keeps_app {L A B} (R : list Z -> app_phase -> A -> Prop) (aborts : B -> Prop)
    (m : M (tcp_sys L A) B) : Prop := forall st ph s, R st ph (appl s) ->
  wp m (fun r s' => (~ aborts r -> api (core s) (core s') /\ R st ph (appl s')) /\
    (aborts r -> on_list (core s') <> PCB_ACTIVE /\ R st (failed ph) (appl s'))) s.

Class TcpAppLaws (L A : Type) `{!TcpApp L A} (R : list Z -> app_phase -> A -> Prop) : Prop := {
  law_recv st p s : R st Receiving (appl s) -> 0 < tot_len p <= TCP_WND ->
    wp (cb_recv (Some p)) (fun r s' => (r <> ERR_ABRT -> api (core s) (core s')) /\
      (r = ERR_OK -> R (st ++ concat p) Receiving (appl s')) /\
      (r = ERR_ABRT -> on_list (core s') <> PCB_ACTIVE /\
         (R st Failed (appl s') \/ R (st ++ concat p) Failed (appl s'))) /\
      (r <> ERR_OK -> r <> ERR_ABRT -> R st Receiving (appl s'))) s;
  law_eof st s : R st Receiving (appl s) ->
    wp (cb_recv None) (fun r s' => (r <> ERR_ABRT -> api (core s) (core s')) /\ R st Finished (appl s') /\
      (r = ERR_ABRT -> on_list (core s') <> PCB_ACTIVE)) s;
  law_sent n : keeps_app R (fun r => r = ERR_ABRT) (cb_sent n);
  law_connected e : keeps_app R (fun r => r = ERR_ABRT) (cb_connected e);
  law_accept b : keeps_app R (fun r => r = ERR_ABRT) (cb_accept b);
  law_err e st ph s : R st ph (appl s) ->
    wp (cb_err e) (fun _ s' => core s' = core s /\ R st (failed ph) (appl s')) s
}.

Section Stream.
Context {L A : Type} `{!TcpLower L} `{!TcpApp L A} (R : list Z -> app_phase -> A -> Prop).
Context `{!TcpAppLaws L A R} (str : list Z) (irs : Z).
Hypothesis Hstr : slen str < MAXPOS.
#[local] Abbreviation MS := (M (tcp_sys L A)).

Lemma slen_nonneg : 0 <= slen str.
Proof. unfold slen. lia. Qed.

(** The application was given the beginning of the stream, and the end only after all of it. *)
Definition safe (a : A) : Prop := exists m ph,
  0 <= m <= slen str /\ (ph = Finished -> m = slen str) /\ R (sub str 0 m) ph a.

(** The positions up to [n] are with the application or kept in [refused_data]. *)
Definition held (n : Z) (r : rcv_vars) (a : A) : Prop :=
  match refused_data r with
  | None => R (sub str 0 (Z.min n (slen str))) (if slen str <? n then Finished else Receiving) a
  | Some (p, fin) => fin = (slen str <? n) /\ 0 < tot_len p <= TCP_WND /\ exists m,
      0 <= m /\ m + tot_len p = Z.min n (slen str) /\ concat p = sub str m (Z.min n (slen str)) /\
      R (sub str 0 m) Receiving a
  end.

Record live (n : Z) (s : tcp_sys L A) : Prop := {
  l_wnd : wnd_inv irs n (core s);
  l_end : n <= slen str + 1;
  l_sync : 3 <= state_num (state (pcb_ (core s)));
  l_fin : slen str < n -> 7 <= state_num (state (pcb_ (core s)));
  l_held : held n (rxv (pcb_ (core s))) (appl s)
}.

(** While a segment is processed; between segments. *)
Definition inv (s : tcp_sys L A) : Prop := off (core s) /\ safe (appl s) \/ exists n, live n s.
Definition conn_inv (s : tcp_sys L A) : Prop :=
  on_list (core s) <> PCB_ACTIVE /\ safe (appl s) \/ exists n, live n s.

Lemma held_safe n r a : 0 <= n <= slen str + 1 -> held n r a -> safe a.
Proof.
  intros Hn. pose proof slen_nonneg as Hs0. unfold held. destruct (refused_data r) as [[p f]|].
  - intros (-> & Hp & m & H1 & H2 & H3 & H4). exists m, Receiving. split; [lia|]. by split.
  - intros H. eexists (Z.min n (slen str)), _. split; [lia|]. split; [|exact H].
    destruct (Z.ltb_spec (slen str) n); [lia|done].
Qed.

Lemma live_safe n s : live n s -> safe (appl s).
Proof.
  intros H. apply (held_safe n (rxv (pcb_ (core s)))); [|apply H].
  pose proof (wnd_pos _ _ _ (l_wnd _ _ H)). pose proof (l_end _ _ H). lia.
Qed.

Lemma inv_safe s : inv s -> safe (appl s).
Proof. intros [[_ H]|[n H]]; [done|by eapply live_safe]. Qed.

Lemma inv_conn s : inv s -> conn_inv s.
Proof. intros [[[H1 _] H2]|H]; [by left|by right]. Qed.

Lemma conn_inv_dead s : on_list (core s) <> PCB_ACTIVE -> safe (appl s) -> conn_inv s.
Proof. intros H1 H2. by left. Qed.

(** What the application has: enough to carry the invariant over a step that keeps it. *)
Lemma inv_app s : inv s -> exists st ph, R st ph (appl s) /\
  (forall s', api (core s) (core s') -> R st ph (appl s') -> inv s') /\
  (forall a, R st (failed ph) a -> safe a).
Proof.
  intros [[O (m & ph & H1 & H2 & H3)]|[n Hl]].
  - exists (sub str 0 m), ph. split; [done|]. split.
    + intros s' [A0 _] HR. left. split; [by apply (a_off _ _ A0)|]. by exists m, ph.
    + intros a HR. exists m, (failed ph). split; [done|]. split; [|done].
      unfold failed. case_bool_decide; [auto|done].
  - pose proof (wnd_pos _ _ _ (l_wnd _ _ Hl)) as Hn. pose proof (l_end _ _ Hl) as He. pose proof slen_nonneg as Hs0.
    assert (Hgo : forall m ph, 0 <= m <= slen str -> (ph = Finished -> m = slen str) ->
      R (sub str 0 m) ph (appl s) ->
      (forall r a, refused_data r = refused_data (rxv (pcb_ (core s))) -> R (sub str 0 m) ph a -> held n r a) ->
      exists st ph0, R st ph0 (appl s) /\
        (forall s', api (core s) (core s') -> R st ph0 (appl s') -> inv s') /\
        (forall a, R st (failed ph0) a -> safe a)).
    { intros m ph Hm Hph HR Hh. exists (sub str 0 m), ph. split; [done|]. split.
      - intros s' [A0 As] HR'. destruct (As (l_sync _ _ Hl)) as [O|[Er Es]].
        + left. split; [done|]. by exists m, ph.
        + right. exists n. destruct Hl. constructor; auto.
          * by apply (a_wnd _ _ A0).
          * by apply (a_sync _ _ A0).
      - intros a HR'. exists m, (failed ph). split; [done|]. split; [|done].
        unfold failed. case_bool_decide; [auto|done]. }
    pose proof (l_held _ _ Hl) as Hh. unfold held in Hh.
    destruct (refused_data (rxv (pcb_ (core s)))) as [[p f]|] eqn:Er.
    + destruct Hh as (-> & Hp & m & H1 & H2 & H3 & H4). apply (Hgo m Receiving); try done; [lia|].
      intros r a E HR. unfold held. rewrite E. split; [done|]. split; [done|]. by exists m.
    + apply (Hgo (Z.min n (slen str)) (if slen str <? n then Finished else Receiving)); try done; [lia|..].
      * destruct (Z.ltb_spec (slen str) n); [lia|done].
      * intros r a E HR. unfold held. by rewrite E.
Qed.

(** A step of the stack that the application does not see. *)
Lemma inv_api s c' : inv s -> api (core s) c' -> inv (mkTcp c' (appl s)).
Proof. intros Hi Ha. destruct (inv_app s Hi) as (st & ph & H1 & H2 & _). by apply H2. Qed.

Lemma mkTcp_eta (s : tcp_sys L A) : mkTcp (core s) (appl s) = s.
Proof. by destruct s. Qed.

Lemma wp_on_core {B} (m : M (tcp_core L) B) (Q : B -> tcp_sys L A -> Prop) s :
  wp m (fun b c' => Q b (mkTcp c' (appl s))) (core s) -> wp (on_core m) Q s.
Proof. unfold wp, on_core. by destruct (m (core s)). Qed.

(** A callback that keeps what the application has. *)
Lemma inv_keeps {B} ab (m : MS B) s : keeps_app R ab m -> inv s ->
  wp m (fun r s' => (~ ab r -> api (core s) (core s') /\ inv s') /\
    (ab r -> on_list (core s') <> PCB_ACTIVE /\ safe (appl s'))) s.
Proof.
  intros Hm Hi. destruct (inv_app s Hi) as (st & ph & H1 & H2 & H3).
  eapply wp_mono; [by apply Hm|]. cbv beta. intros r s' [G2 G3]. split.
  - intros Hr. destruct (G2 Hr). auto.
  - intros Hr. destruct (G3 Hr). auto.
Qed.

Lemma safe_err e s : safe (appl s) -> wp (cb_err e) (fun _ s' => core s' = core s /\ safe (appl s')) s.
Proof.
  intros (m & ph & H1 & H2 & H3). eapply wp_mono; [by apply law_err|]. cbv beta. intros _ s' [G1 G2].
  split; [done|]. exists m, (failed ph). split; [done|]. split; [|done].
  unfold failed. case_bool_decide; [auto|done].
Qed.

(** ** Processing a segment *)

(** The segments the peer sends: resets, its SYN, acknowledgements alone, and pieces of the
    stream. *)
Definition peer_segment (i : tcp_inseg) : Prop :=
  TCP_RST (i_hdr i) = true \/
  (TCP_SYN (i_hdr i) = true /\ TCP_FIN (i_hdr i) = false /\ tot_len (i_p i) = 0 /\
   i_seqno i = seq_of irs (-1)) \/
  (TCP_SYN (i_hdr i) = false /\ TCP_FIN (i_hdr i) = false /\ tot_len (i_p i) = 0) \/
  exists pos, seg_of str irs i pos.

Definition idle_in (c : tcp_core L) : Prop := recv_data c = None /\ TF_GOT_FIN (recv_flags c) = false.

(** The positions from [n] to [n'] were just received. *)
Record fresh (n n' : Z) (s : tcp_sys L A) : Prop := {
  f_lt : n < n' <= slen str + 1;
  f_fits : n' <= n + TCP_WND;
  f_wnd : wnd_inv irs n' (core s);
  f_brought : brought str n n' (core s);
  f_sync : 3 <= state_num (state (pcb_ (core s)));
  f_fin : slen str < n' -> off (core s) \/ 7 <= state_num (state (pcb_ (core s)));
  f_ref : refused_data (rxv (pcb_ (core s))) = None \/ off (core s);
  f_app : 0 <= n /\ R (sub str 0 n) Receiving (appl s)
}.

(** The outcome of [tcp_process]. *)
Definition processed (s : tcp_sys L A) : Prop :=
  idle_in (core s) /\ inv s \/ exists n n', fresh n n' s.

(** The outcome of [tcp_receive], before the state is changed. *)
Record heard (n n' : Z) (s s' : tcp_sys L A) : Prop := {
  h_app : appl s' = appl s;
  h_only : rx_only (core s) (core s');
  h_wnd : wnd_inv irs n' (core s');
  h_brought : brought str n n' (core s');
  h_range : n <= n' <= slen str + 1;
  h_fits : n' <= n + TCP_WND;
  h_state : 7 <= state_num (state (pcb_ (core s))) -> n' = n;
  h_refused : refused_data (rxv (pcb_ (core s))) <> None -> n' = n
}.

Lemma rx_advance_range n w pos tl : pos + tl <= slen str + 1 -> n <= slen str + 1 ->
  n <= rx_advance n w pos tl <= slen str + 1 /\ rx_advance n w pos tl <= n + Z.max 0 w.
Proof.
  intros H1 H2. unfold rx_advance. destruct ((pos <=? n) && (n <? pos + tl) && (0 <? w)) eqn:E; [|lia].
  apply andb_true_iff in E as [E E3%Z.ltb_lt]. apply andb_true_iff in E as [E1%Z.leb_le E2%Z.ltb_lt]. lia.
Qed.

Lemma receive_heard i n s : live n s -> idle_in (core s) -> peer_segment i -> TCP_RST (i_hdr i) = false ->
  (refused_data (rxv (pcb_ (core s))) <> None -> i_tcplen i = 0) ->
  wp (on_core (tcp_receive i)) (fun _ s' => exists n', heard n n' s s') s.
Proof.
  intros Hl [Hd Hf] Hp Hr Hz. pose proof (l_end _ _ Hl) as He. destruct Hp as [Hp|[(S1 & S2 & S3 & S4)|[(S1 & S2 & S3)|[pos Hp]]]].
  - congruence.
  - apply wp_on_core. eapply wp_mono; [by apply (receive_syn str irs i n); [..|apply Hl| |]|].
    cbv beta. intros q c' (G1 & G2 & G3 & G4). exists n. constructor; try done; unfold TCP_WND, TCP_MSS; lia.
  - assert (Ht : i_tcplen i = 0) by (unfold i_tcplen, tcp_ctl; by rewrite S1, S2, S3).
    apply wp_on_core. eapply wp_mono; [by apply (receive_control str irs i n); [..|apply Hl| |]|].
    cbv beta. intros q c' (G1 & G2 & G3 & G4). exists n. constructor; try done; unfold TCP_WND, TCP_MSS; lia.
  - apply wp_on_core. eapply wp_mono; [by apply (receive_spec str irs Hstr i pos n); [|apply Hl|..]|].
    cbv beta zeta. set (n' := if _ <? 7 then _ else n). intros q c' (G1 & G2 & G3 & G4). exists n'.
    assert (pos + octets i <= slen str + 1 /\ i_tcplen i = octets i) as [Ho Ho'].
    { pose proof (sg_pos _ _ _ _ Hp). split; [unfold octets; destruct (TCP_FIN _); lia|].
      by eapply tcplen_octets. }
    pose proof (wnd_range _ _ _ (l_wnd _ _ Hl)) as Hw.
    pose proof (rx_advance_range n (rcv_wnd (rxv (pcb_ (core s)))) pos (octets i) Ho He) as [Hr1 Hr2].
    constructor; try done; cbn [core] in *.
    + subst n'. case_match; [done|lia].
    + subst n'. case_match; [lia|unfold TCP_WND, TCP_MSS; lia].
    + intros H7. subst n'. destruct (Z.ltb_spec (state_num (state (pcb_ (core s)))) 7); [lia|done].
    + intros Hne. specialize (Hz Hne). subst n'. case_match; [|done]. unfold rx_advance.
      destruct (Z.leb_spec pos n), (Z.ltb_spec n (pos + octets i)); cbn; try done; lia.
Qed.

Lemma brought_none n (c : tcp_core L) : brought str n n c -> idle_in c.
Proof.
  intros [H1 H2]. split; [|by rewrite H1, Z.ltb_irrefl]. destruct (recv_data c); [lia|done].
Qed.

Lemma heard_live n s s' : live n s -> heard n n s s' -> idle_in (core s') /\ live n s'.
Proof.
  intros Hl [Ha [] Hw Hb _ _ _ _]. split; [by eapply brought_none|]. destruct Hl as [G1 G2 G3 G4 G5].
  constructor; rewrite ?ro_state, ?Ha; try done. unfold held in *. by rewrite ro_refused.
Qed.

(** What was received, after the rest of the processing did [c'' := ...]. *)
Lemma heard_fresh n n' s s' c2 : live n s -> heard n n' s s' -> n < n' -> api0 (core s') c2 ->
  (slen str < n' -> off c2 \/ 7 <= state_num (state (pcb_ c2))) ->
  refused_data (rxv (pcb_ c2)) = refused_data (rxv (pcb_ (core s'))) \/ off c2 ->
  fresh n n' (mkTcp c2 (appl s')).
Proof.
  intros Hl Hh Hn A0 H7 Hrf. pose proof (h_range _ _ _ _ Hh) as Hr. pose proof slen_nonneg as Hs0.
  pose proof (wnd_pos _ _ _ (l_wnd _ _ Hl)) as Hp.
  assert (Hno : refused_data (rxv (pcb_ (core s))) = None).
  { destruct (refused_data (rxv (pcb_ (core s)))) eqn:E; [|done]. exfalso.
    assert (n' = n) by (apply (h_refused _ _ _ _ Hh); rewrite E; done). lia. }
  pose proof (l_held _ _ Hl) as Hd. unfold held in Hd. rewrite Hno in Hd.
  replace (Z.min n (slen str)) with n in Hd by lia. destruct (Z.ltb_spec (slen str) n); [lia|].
  constructor; cbn [core appl].
  - lia.
  - apply (h_fits _ _ _ _ Hh).
  - apply (a_wnd _ _ A0), Hh.
  - destruct (h_brought _ _ _ _ Hh) as [B1 B2]. split; [by rewrite (a_fin _ _ A0)|by rewrite (a_data _ _ A0)].
  - apply (a_sync _ _ A0). rewrite (ro_state _ _ (h_only _ _ _ _ Hh)). apply Hl.
  - done.
  - destruct Hrf as [E|O]; [left|by right]. by rewrite E, (ro_refused _ _ (h_only _ _ _ _ Hh)).
  - rewrite (h_app _ _ _ _ Hh). split; [lia|done].
Qed.

(** No FIN, and the state stays below CLOSE_WAIT or nothing was received. *)
Lemma heard_processed n n' s s' c2 : live n s -> heard n n' s s' -> TF_GOT_FIN (recv_flags (core s')) = false ->
  api0 (core s') c2 -> refused_data (rxv (pcb_ c2)) = refused_data (rxv (pcb_ (core s'))) ->
  (slen str < n -> 7 <= state_num (state (pcb_ c2))) -> processed (mkTcp c2 (appl s')).
Proof.
  intros Hl Hh Hf A0 Er Hs. pose proof (h_range _ _ _ _ Hh) as Hr.
  destruct (Z.eq_dec n' n) as [->|Hne].
  - destruct (heard_live n s s' Hl Hh) as [[I1 I2] [G1 G2 G3 G4 G5]]. left.
    split; [split; cbn; [by rewrite (a_data _ _ A0)|by rewrite (a_fin _ _ A0)]|]. right. exists n.
    constructor; cbn; try done.
    + by apply (a_wnd _ _ A0).
    + by apply (a_sync _ _ A0).
    + unfold held in *. by rewrite Er.
  - right. exists n, n'. eapply heard_fresh; try done; [lia| |by left]. intros H.
    destruct (h_brought _ _ _ _ Hh) as [B1 _]. rewrite Hf in B1.
    destruct (Z.ltb_spec n n'), (Z.ltb_spec (slen str) n'); cbn in B1; done || lia.
Qed.

Lemma synchronized_spec i st n s : live n s -> idle_in (core s) -> peer_segment i -> TCP_RST (i_hdr i) = false ->
  (refused_data (rxv (pcb_ (core s))) <> None -> i_tcplen i = 0) -> state (pcb_ (core s)) = st ->
  st <> CLOSED /\ st <> LISTEN /\ st <> SYN_SENT /\ st <> SYN_RCVD /\ st <> TIME_WAIT ->
  wp (synchronized_input i st) (fun _ s' => processed s') s.
Proof.
  intros Hl Hi Hp Hr Hz Est Hst. unfold synchronized_input.
  wp_call (receive_heard i n s Hl Hi Hp Hr Hz) as q s1 Hh. destruct Hh as [n' Hh].
  pose proof (ro_state _ _ (h_only _ _ _ _ Hh)) as Es. rewrite Est in Es.
  pose proof (h_range _ _ _ _ Hh) as Hn.
  apply wp_bind. unfold in_flag. apply wp_on_core, wp_gets. cbv beta.
  apply wp_bind. unfold all_acked. apply wp_bind, wp_on_core, wp_gets, wp_ret. cbn [id].
  set (done_ := TCP_ACK (i_hdr i) && _ && _). clearbody done_.
  rewrite !mkTcp_eta.
  apply wp_bind.
  apply (wp_mono _ (fun _ s' => processed s')); [|intros _ s' H; by apply wp_ret].
  pose proof (h_state _ _ _ _ Hh) as H7. rewrite Est in H7.
  destruct (TF_GOT_FIN (recv_flags (core s1))) eqn:Ef.
  - (* a FIN was received *)
    assert (n < n' /\ state_num st < 7) as [Hlt Hs7].
    { destruct (h_brought _ _ _ _ Hh) as [B1 _]. rewrite Ef in B1. symmetry in B1.
      apply andb_true_iff in B1 as [B1%Z.ltb_lt _]. split; [done|].
      destruct (Z.lt_ge_cases (state_num st) 7); [done|]. rewrite H7 in B1 by done. lia. }
    assert (Hack : forall next, 7 <= state_num next ->
      wp (on_core (tcp_ack_now ;;; set_state next)) (fun _ s' => processed s') s1).
    { intros next Hx. apply wp_on_core. wp_call (quiet_ack_now (core s1)) as u c1 Q. apply wp_modify.
      right. exists n, n'. apply (heard_fresh n n' s s1); try done.
      - etrans; [by apply quiet_api0|]. by apply (wp_run _ _ _ _ _ (api0_set_state next Hx c1) eq_refl).
      - intros _. by right.
      - left. apply (q_refused _ _ Q). }
    assert (Htw : wp (on_core (tcp_ack_now ;;; to_time_wait)) (fun _ s' => processed s') s1).
    { apply wp_on_core. wp_call (quiet_ack_now (core s1)) as u c1 Q.
      eapply wp_mono; [apply ends_time_wait|]. cbv beta. intros _ c2 [A0 O].
      right. exists n, n'. apply (heard_fresh n n' s s1); try done; [|by left|by right].
      etrans; [by apply quiet_api0|done]. }
    destruct st; cbn in Hs7; try lia; try (exfalso; tauto); try (apply Hack; cbn; lia); [|apply Htw].
    destruct done_; [apply Htw|apply Hack; cbn; lia].
  - (* no FIN *)
    assert (Hkeep : wp (ret tt : MS unit) (fun _ s' => processed s') s1).
    { apply wp_ret. rewrite <- (mkTcp_eta s1).
      eapply heard_processed; try done. rewrite Es. rewrite <- Est. apply (l_fin _ _ Hl). }
    destruct st; try exact Hkeep; try (exfalso; tauto); destruct done_; try exact Hkeep.
    + (* FIN_WAIT_1 *)
      apply wp_on_core, wp_modify.
      assert (slen str < n -> False) by (intros H; apply (l_fin _ _ Hl) in H; rewrite Est in H; cbn in H; lia).
      destruct (Z.eq_dec n' n) as [->|Hne].
      * left. destruct (heard_live n s s1 Hl Hh) as [I1 [G1 G2 G3 G4 G5]]. split; [done|]. right. exists n.
        constructor; cbn; try done. by destruct G1; constructor.
      * right. exists n, n'. pose proof (heard_fresh n n' s s1 (core s1) Hl Hh ltac:(lia) ltac:(done)) as F.
        destruct F as [F1 F0 F2 F3 F4 F5 F6 F7]; [|by left|].
        { intros H1. destruct (h_brought _ _ _ _ Hh) as [B1 _]. rewrite Ef in B1.
          destruct (Z.ltb_spec n n'), (Z.ltb_spec (slen str) n'); cbn in B1; done || lia. }
        constructor; cbn in *; try done.
        -- by destruct F2; constructor.
        -- intros H1. destruct (F5 H1) as [[_ O]|O]; rewrite Es in O; cbn in O; lia.
        -- destruct F6 as [F6|[_ O]]; [by left|]. rewrite Es in O. cbn in O. lia.
    + (* CLOSING *)
      apply wp_on_core. eapply wp_mono; [apply ends_time_wait|]. cbv beta. intros _ c2 [A0 O].
      rewrite H7 in Hh by (cbn; lia). destruct (heard_live n s s1 Hl Hh) as [[I1 I2] G]. left.
      split; [split; cbn; [by rewrite (a_data _ _ A0)|by rewrite (a_fin _ _ A0)]|].
      left. split; [done|]. apply (live_safe n s1 G).
    + (* LAST_ACK *)
      apply wp_on_core, wp_modify. rewrite H7 in Hh by (cbn; lia).
      destruct (heard_live n s s1 Hl Hh) as [[I1 I2] [G1 G2 G3 G4 G5]]. left. split; [done|]. right. exists n.
      constructor; try done. by destruct G1; constructor.
Qed.
End Stream.
