(* ===== verification/SimTcp.v ===== *)
(** * A connection to run

    A lower layer where every call succeeds and the segments sent are recorded, and an
    application that stores the bytes it is given and closes at the end of the stream; it
    keeps the laws of [TcpAppLaws].  The witnesses of the TCP theorems run on it. *)
From S2P Require Import Prelude Net Tcp TcpIn TcpRcv TcpStream.

#[export] Instance sim_lower : TcpLower (list tcp_wire) := {
  ip_route := ret (Some 1500);
  ip_output_if w := modify (fun l => l ++ [w]) ;;; ret ERR_OK;
  hdr_alloc n := ret true;
  ctl_alloc n := ret true;
  raw_alloc n := ret true;
  rom_alloc := ret true;
  rom_follows a s := ret false;
  pbufs_free n := ret tt;
  seg_alloc := ret true;
  seg_busy s := ret false;
  tcp_seg_free s := ret tt;
  chain_free p := ret tt;
  pcb_memp_malloc := ret true;
  pcb_memp_free := ret tt
}.

(** The bytes received, and how far the stream is. *)
Record sink := mkSink { got : list Z; phase : app_phase }.
#[local] Abbreviation sys := (tcp_sys (list tcp_wire) sink).
Definition on_sink (f : sink -> sink) : M sys unit := modify (fun s => mkTcp (core s) (f (appl s))).

#[export] Instance sim_app : TcpApp (list tcp_wire) sink := {
  cb_recv p := match p with
    | Some p => on_sink (fun a => mkSink (got a ++ concat p) (phase a)) ;;;
                on_core (tcp_recved (u16 (tot_len p))) ;;; ret ERR_OK
    | None => on_sink (fun a => mkSink (got a) Finished) ;;; on_core tcp_close ;;; ret ERR_OK
    end;
  cb_sent n := ret ERR_OK;
  cb_connected e := ret ERR_OK;
  cb_accept b := ret ERR_OK;
  cb_err e := on_sink (fun a => mkSink (got a) (failed (phase a)))
}.

Definition sink_holds (st : list Z) (ph : app_phase) (a : sink) : Prop := a = mkSink st ph.

#[export] Instance sim_app_laws : TcpAppLaws (list tcp_wire) sink sink_holds.
Proof.
  constructor; unfold sink_holds.
  - intros st p s E [H1 H2]. unfold cb_recv, sim_app. apply wp_bind, wp_modify. rewrite E.
    apply wp_bind, wp_on_core. eapply wp_mono; [apply api_recved|].
    { rewrite u16_small; unfold TCP_WND, TCP_MSS in *; lia. }
    cbv beta. intros _ c' Ha. apply wp_ret. cbn in *. done.
  - intros st s E. unfold cb_recv, sim_app. apply wp_bind, wp_modify. rewrite E.
    apply wp_bind, wp_on_core. eapply wp_mono; [apply api_close|].
    cbv beta. intros _ c' Ha. apply wp_ret. cbn in *. done.
  - intros n st ph s E. apply wp_ret. split; [by intros _|done].
  - intros e st ph s E. apply wp_ret. split; [by intros _|done].
  - intros b st ph s E. apply wp_ret. split; [by intros _|done].
  - intros e st ph s E. apply wp_modify. cbn. by rewrite E.
Qed.

(** A listening port, no connection yet. *)
Definition idle_sys : sys :=
  mkTcp (mkCore (new_pcb 0) PCB_FREED false 0 (mkInFlags false false false) 0 None true 6510 [])
    (mkSink [] Receiving).

(** The segments of a short connection: the handshake, then three bytes and the FIN, the
    last ones first and some of them twice. *)
Definition seg_syn : tcp_inseg := mkIn (no_flags <| TCP_SYN := true |>) 4294967295 0 2920 [2; 4; 5; 180] [].
Definition seg_ack : tcp_inseg := mkIn (no_flags <| TCP_ACK := true |>) 0 6511 2920 [] [].
Definition seg_tail : tcp_inseg :=
  mkIn (no_flags <| TCP_ACK := true |> <| TCP_FIN := true |>) 2 6511 2920 [] [[30]].
Definition seg_head : tcp_inseg := mkIn (no_flags <| TCP_ACK := true |>) 0 6511 2920 [] [[10]; [20]].
Definition seg_all : tcp_inseg :=
  mkIn (no_flags <| TCP_ACK := true |> <| TCP_FIN := true |>) 1 6511 2920 [] [[20; 30]].

Definition run_segs (l : list tcp_inseg) (s : sys) : sys := fold_left (fun s i => (tcp_input i s).2) l s.

(** What the application has after some segments. *)
Definition seen (s : sys) := (appl s, state (pcb_ (core s)), on_list (core s)).
Example run_handshake : seen (run_segs [seg_syn; seg_ack] idle_sys) =
  (mkSink [] Receiving, ESTABLISHED, PCB_ACTIVE).
Proof. vm_compute. reflexivity. Qed.
Example run_disorder : seen (run_segs [seg_syn; seg_ack; seg_tail; seg_head; seg_head] idle_sys) =
  (mkSink [10; 20] Receiving, ESTABLISHED, PCB_ACTIVE).
Proof. vm_compute. reflexivity. Qed.
Example run_overlap : seen (run_segs [seg_syn; seg_ack; seg_tail; seg_head; seg_all] idle_sys) =
  (mkSink [10; 20; 30] Finished, LAST_ACK, PCB_ACTIVE).
Proof. vm_compute. reflexivity. Qed.

(** They carry the stream 10, 20, 30 whose SYN is numbered 2^32 - 1. *)
Lemma sim_segments : seg_of [10; 20; 30] 4294967295 seg_ack 0 /\ seg_of [10; 20; 30] 4294967295 seg_tail 2 /\
  seg_of [10; 20; 30] 4294967295 seg_head 0 /\ seg_of [10; 20; 30] 4294967295 seg_all 1.
Proof.
  repeat split; try reflexivity; try (by repeat (apply Forall_cons_2; [cbn; lia|]); apply Forall_nil_2); done.
Qed.

(** The connection after the handshake and the first two bytes. *)
Definition sim_open : sys := Eval vm_compute in run_segs [seg_syn; seg_ack; seg_head] idle_sys.
Example sim_open_run : run_segs [seg_syn; seg_ack; seg_head] idle_sys = sim_open.
Proof. vm_compute. reflexivity. Qed.
Lemma sim_open_wnd : wnd_inv 4294967295 2 (core sim_open).
Proof. constructor; [done|reflexivity|done|cbv; split_and!; done|]. exists 2920. done. Qed.
