(* ===== verification/TcpSpec.v ===== *)
(** * TCP connections: what the single operations do

    The receiver against its abstract specification, the window announced to the peer, the
    state machine against its table, resets, closing, and three places where the code
    departs from what it means to do. *)
From S2P Require Import Prelude Net Tcp TcpIn TcpRcv TcpStream SimTcp.

(** ** The table of the state machine (RFC 793, figure 6)

    [fin]: the FIN of the peer was received; [acked]: our FIN was acknowledged. *)
Definition next_state (st : tcp_state) (fin acked : bool) : tcp_state :=
  match st, fin, acked with
  | ESTABLISHED, true, _ => CLOSE_WAIT
  | FIN_WAIT_1, true, true => TIME_WAIT
  | FIN_WAIT_1, true, false => CLOSING
  | FIN_WAIT_1, false, true => FIN_WAIT_2
  | FIN_WAIT_2, true, _ => TIME_WAIT
  | CLOSING, _, true => TIME_WAIT
  | _, _, _ => st
  end.

Section States.
Context {L A : Type} `{!TcpLower L} `{!TcpApp L A}.
#[local] Abbreviation MC := (M (tcp_core L)).
Implicit Types (s : tcp_sys L A) (c : tcp_core L).

Definition keeps_state c c' : Prop :=
  state (pcb_ c') = state (pcb_ c) /\ on_list c' = on_list c /\
  TF_CLOSED (recv_flags c') = TF_CLOSED (recv_flags c).
#[local] Instance keeps_state_preorder : PreOrder keeps_state.
Proof. split; [by intros c|intros x y z (?&?&?) (?&?&?); repeat split; congruence]. Qed.
Lemma keeps_quiet {B} (m : MC B) : frames quiet m -> frames keeps_state m.
Proof. apply frames_mono. intros c c' []. repeat split; congruence. Qed.
#[local] Hint Extern 3 (frames keeps_state _) => apply keeps_quiet; solve [eauto with frames typeclass_instances] : frames.
#[local] Hint Extern 1 (frames keeps_state (set_rx _)) => (by intros ?; apply wp_modify) : frames.
#[local] Hint Extern 1 (frames keeps_state (modify _)) => (by intros ?; apply wp_modify) : frames.

Lemma keeps_update : frames keeps_state (tcp_update_rcv_ann_wnd : MC Z).
Proof. unfold tcp_update_rcv_ann_wnd. solve_frames. Qed.
#[local] Hint Resolve keeps_update : frames.
Lemma keeps_state_take i : frames keeps_state (take_segment i : MC _).
Proof. unfold take_segment. solve_frames. Qed.
#[local] Hint Resolve keeps_state_take : frames.
Lemma keeps_accept i n : frames keeps_state (accept_segment i n : MC _).
Proof. unfold accept_segment. solve_frames. Qed.
#[local] Hint Resolve keeps_accept : frames.
Lemma keeps_receive i : frames keeps_state (tcp_receive i : MC _).
Proof. unfold tcp_receive, tcp_receive_data. solve_frames. Qed.

Lemma purge_keeps : frames keeps_state (tcp_pcb_purge : MC unit).
Proof. unfold tcp_pcb_purge, free_refused. solve_frames. Qed.

Lemma time_wait_spec c : wp to_time_wait (fun _ c' => state (pcb_ c') = TIME_WAIT /\
  on_list c' = PCB_TW /\ TF_CLOSED (recv_flags c') = TF_CLOSED (recv_flags c)) c.
Proof.
  unfold to_time_wait. wp_call (purge_keeps c) as u c1 K. apply wp_bind, wp_modify, wp_modify.
  split; [done|]. split; [done|]. apply K.
Qed.

(** Our FIN is acknowledged: the segment acknowledges everything that was sent, and nothing
    is left to be sent. *)
Definition acks_all (i : tcp_inseg) c : bool :=
  TCP_ACK (i_hdr i) && (i_ackno i =? snd_nxt (txv (pcb_ c))) && bool_decide (unsent (txv (pcb_ c)) = []).
(** The connection in [st] has made the step of the table. *)
Record stepped (fin acked : bool) s s' : Prop := {
  sp_appl : appl s' = appl s;
  sp_state : state (pcb_ (core s')) = next_state (state (pcb_ (core s))) fin acked;
  sp_list : on_list (core s') =
    if decide (next_state (state (pcb_ (core s))) fin acked <> state (pcb_ (core s)) /\
               next_state (state (pcb_ (core s))) fin acked = TIME_WAIT)
    then PCB_TW else on_list (core s);
  sp_closed : TF_CLOSED (recv_flags (core s')) =
    (TF_CLOSED (recv_flags (core s)) || bool_decide (state (pcb_ (core s)) = LAST_ACK) && acked)
}.

Lemma synchronized_states i s :
  let st := state (pcb_ (core s)) in
  let '(q, c1) := tcp_receive i (core s) in
  let fin := TF_GOT_FIN (recv_flags c1) in
  let acked := acks_all i c1 in
  wp (synchronized_input i st) (fun q' s' => q' = q /\ appl s' = appl s /\
    state (pcb_ (core s')) = next_state st fin acked /\
    on_list (core s') = (if decide (next_state st fin acked <> st /\ next_state st fin acked = TIME_WAIT)
                         then PCB_TW else on_list (core s)) /\
    TF_CLOSED (recv_flags (core s')) =
      (TF_CLOSED (recv_flags (core s)) || bool_decide (st = LAST_ACK) && acked)) s.
Proof.
  cbv zeta. set (st := state (pcb_ (core s))). pose proof (keeps_receive i (core s)) as K.
  unfold wp in K. destruct (tcp_receive i (core s)) as [q c1] eqn:E. destruct K as (K1 & K2 & K3).
  fold st in K1. unfold synchronized_input. apply wp_bind, wp_on_core. unfold wp at 1. rewrite E.
  apply wp_bind. unfold in_flag. apply wp_on_core, wp_gets. apply wp_bind. unfold all_acked.
  apply wp_bind, wp_on_core, wp_gets, wp_ret. cbn [core appl id].
  fold (acks_all i c1). set (acked := acks_all i c1). set (fin := TF_GOT_FIN (recv_flags c1)). clearbody acked fin.
  rewrite <- K2, <- K3. clearbody st. clear E K2 K3.
  apply wp_bind. apply (wp_mono _ (fun _ s' => appl s' = appl s /\
    state (pcb_ (core s')) = next_state st fin acked /\
    on_list (core s') = (if decide (next_state st fin acked <> st /\ next_state st fin acked = TIME_WAIT)
                         then PCB_TW else on_list c1) /\
    TF_CLOSED (recv_flags (core s')) =
      (TF_CLOSED (recv_flags c1) || bool_decide (st = LAST_ACK) && acked))); [|intros _ s' H; by apply wp_ret].
  assert (Htw : wp (on_core (tcp_ack_now ;;; to_time_wait)) (fun _ (s' : tcp_sys L A) => appl s' = appl s /\
     state (pcb_ (core s')) = TIME_WAIT /\ on_list (core s') = PCB_TW /\
     TF_CLOSED (recv_flags (core s')) = TF_CLOSED (recv_flags c1) || false) (mkTcp c1 (appl s))).
  { apply wp_on_core, wp_bind, wp_modify. eapply wp_mono; [apply time_wait_spec|]. cbv beta.
    intros _ c2 (H1 & H2 & H3). cbn [core appl]. by rewrite H3, orb_false_r. }
  destruct st, fin, acked; cbn [next_state]; rewrite ?bool_decide_false, ?andb_false_l, ?orb_false_r by done;
    (rewrite decide_False by (intros [? ?]; done)) || (rewrite decide_True by done);
    rewrite ?orb_false_r in Htw; try exact Htw; try (by apply wp_ret).
  1, 2: apply wp_on_core; eapply wp_mono; [apply time_wait_spec|]; by cbv beta; intros _ c2 H.
  all: apply wp_on_core, wp_modify; cbn; by rewrite orb_true_r.
Qed.

(** *** The whole of tcp_process *)
Definition synchronized (st : tcp_state) : bool :=
  match st with
  | ESTABLISHED | FIN_WAIT_1 | FIN_WAIT_2 | CLOSE_WAIT | CLOSING | LAST_ACK => true
  | _ => false
  end.

(** What comes before the switch: the time of the last segment, the keep-alive count and
    the MSS option. *)
Definition prepared (i : tcp_inseg) c : tcp_core L :=
  c <| pcb_ := (pcb_ c)
        <| tmr := if TF_RXCLOSED (flags (pcb_ c)) then tmr (pcb_ c) else tcp_ticks c |>
        <| keep_cnt_sent := 0 |>
        <| cgv := (cgv (pcb_ c)) <| mss := parseopt_loop (Datatypes.S (length (i_opts i))) (i_opts i) 0 (mss (cgv (pcb_ c))) |> |> |>.

Lemma prepare_spec i (Q : unit -> tcp_sys L A -> Prop) s : Q tt (mkTcp (prepared i (core s)) (appl s)) ->
  wp (on_core (
    ticks <- gets tcp_ticks ;;
    set_pcb (fun p => if TF_RXCLOSED (flags p) then p else p <| tmr := ticks |>) ;;;
    set_pcb (fun p => p <| keep_cnt_sent := 0 |>) ;;;
    tcp_parseopt i)) Q s.
Proof.
  intros H. apply wp_on_core, wp_bind, wp_gets, wp_bind, wp_modify, wp_bind, wp_modify, wp_modify.
  unfold prepared in H. destruct s as [[[? [] ? ? ? ? ? ? ?] ? ? ? ? ? ? ? ? ?] ?]; cbn -[parseopt_loop] in *.
  by destruct TF_RXCLOSED.
Qed.

Lemma not_stepped s s' : appl s' = appl s -> keeps_state (core s) (core s') -> stepped false false s s'.
Proof.
  intros Ha (K1 & K2 & K3). constructor; rewrite ?K1, ?K2, ?K3, ?andb_false_r, ?orb_false_r; try done.
  - by destruct (state (pcb_ (core s))).
  - rewrite decide_False; [done|]. intros [H _]. by destruct (state (pcb_ (core s))).
Qed.

Lemma process_rst_stepped i s : wp (process_rst i) (fun _ s' => stepped false false s s') s.
Proof.
  unfold process_rst. apply wp_bind, wp_on_core, wp_gets. rewrite mkTcp_eta. cbn [id].
  set (ack := negb _ && _ && _). set (ok := if bool_decide _ then _ else _). clearbody ack ok.
  apply wp_bind. apply (wp_mono _ (fun _ s' => appl s' = appl s /\ keeps_state (core s) (core s'))).
  { destruct ack; [by apply wp_on_core, wp_modify|by apply wp_ret]. }
  intros _ s1 [E1 K1]. destruct ok; [|apply wp_ret; by apply not_stepped].
  apply wp_bind, wp_on_core, wp_modify, wp_bind, wp_on_core, wp_modify, wp_ret. by apply not_stepped.
Qed.

Lemma process_synchronized i s : synchronized (state (pcb_ (core s))) = true ->
  TCP_RST (i_hdr i) = false -> TCP_SYN (i_hdr i) = false ->
  let c1 := (tcp_receive i (prepared i (core s))).2 in
  wp (tcp_process i) (fun _ s' => stepped (TF_GOT_FIN (recv_flags c1)) (acks_all i c1) s s') s.
Proof.
  intros Hst Hr Hs c1. unfold tcp_process. apply wp_bind, wp_on_core, wp_gets. rewrite mkTcp_eta, Hr, Hs. cbn [andb].
  apply wp_bind, prepare_spec. set (s1 := mkTcp (prepared i (core s)) (appl s)).
  pose proof (synchronized_states i s1) as H. cbv zeta in H. change (core s1) with (prepared i (core s)) in H.
  subst c1. destruct (tcp_receive i (prepared i (core s))) as [q c1].
  change (state (pcb_ (prepared i (core s)))) with (state (pcb_ (core s))) in H.
  assert (K : wp (q <- synchronized_input i (state (pcb_ (core s))) ;; ret (ERR_OK, q))
    (fun _ s' => stepped (TF_GOT_FIN (recv_flags c1)) (acks_all i c1) s s') s1).
  { apply wp_bind. eapply wp_mono; [exact H|]. cbv beta. intros q' s2 (_ & H1 & H2 & H3 & H4). apply wp_ret. by constructor. }
  by destruct (state (pcb_ (core s))).
Qed.
End States.

(** ** Resets *)
Section Resets.
Context {L A : Type} `{!TcpLower L} `{!TcpApp L A}.
Implicit Types (s : tcp_sys L A).

(** Whether a reset is obeyed, and whether it is answered with a challenge. *)
Definition reset_obeyed (i : tcp_inseg) (p : tcp_pcb) : bool :=
  if bool_decide (state p = SYN_SENT) then i_ackno i =? snd_nxt (txv p) else i_seqno i =? rcv_nxt (rxv p).
Definition reset_challenged (i : tcp_inseg) (p : tcp_pcb) : bool :=
  negb (bool_decide (state p = SYN_SENT)) && negb (reset_obeyed i p) &&
  TCP_SEQ_BETWEEN (i_seqno i) (rcv_nxt (rxv p)) (rcv_nxt (rxv p) + rcv_wnd (rxv p)).

(** A reset is obeyed exactly when it carries the next expected sequence number (in
    SYN_SENT: acknowledges the SYN); inside the window it is answered with a challenge
    acknowledgement, elsewhere ignored; nothing else of the connection changes. *)
Theorem reset_exact i s : TCP_RST (i_hdr i) = true ->
  let p := pcb_ (core s) in
  let obeyed := reset_obeyed i p in
  wp (tcp_process i) (fun x s' =>
    x = (if obeyed then ERR_RST else ERR_OK, Some (i_p i)) /\ appl s' = appl s /\
    pcb_ (core s') = p <| flags := (flags p) <| TF_ACK_NOW := (TF_ACK_NOW (flags p) || reset_challenged i p) |>
             <| TF_ACK_DELAY := (TF_ACK_DELAY (flags p) && negb obeyed) |> |> /\
    recv_flags (core s') = (recv_flags (core s)) <| TF_RESET := (TF_RESET (recv_flags (core s)) || obeyed) |> /\
    on_list (core s') = on_list (core s)) s.
Proof.
  intros Hr. cbv zeta. unfold reset_challenged, reset_obeyed, tcp_process. apply wp_bind, wp_on_core, wp_gets. rewrite mkTcp_eta, Hr.
  apply wp_bind. unfold process_rst. apply wp_bind, wp_on_core, wp_gets. rewrite mkTcp_eta. cbn [id].
  set (p := pcb_ (core s)). set (exact := if bool_decide _ then _ else _). set (sent := bool_decide _).
  set (between := TCP_SEQ_BETWEEN _ _ _). destruct s as [[[? [] ? ? ? ? ? ? ?] ? ? ? [] ? ? ? ? ?] ?].
  cbn in p, sent, between, exact. apply wp_bind.
  destruct sent, exact, between; cbn [negb andb]; (apply wp_ret || apply wp_on_core, wp_modify);
    cbn -[p]; try apply wp_ret; try (apply wp_bind, wp_on_core, wp_modify, wp_bind, wp_on_core, wp_modify, wp_ret);
    try apply wp_ret; cbn; rewrite ?orb_true_r, ?orb_false_r, ?andb_true_r, ?andb_false_r; done.
Qed.
End Resets.

(** ** Receiving and the window *)
Section Receiver.
Context {L : Type} `{!TcpLower L}.

(** What the abstract receiver does with a segment at position [pos]: the position goes from
    [n] to [n'], what lies between is handed on, and the FIN when it is passed. *)
Record receiver_result (str : list Z) (irs n n' : Z) (q : option (list (list Z))) (c c' : tcp_core L) : Prop := {
  rcd_inv : wnd_inv irs n' c';
  rcd_only : rx_only c c';
  rcd_nxt : rcv_nxt (rxv (pcb_ c')) = seq_of irs n';
  rcd_fin : TF_GOT_FIN (recv_flags c') = (n <? n') && (slen str <? n');
  rcd_data : default [] (@concat Z <$> recv_data c') = sub str n (Z.min n' (slen str));
  rcd_chain : q = None <-> recv_data c' <> None;
  rcd_wnd : rcv_wnd (rxv (pcb_ c')) = rcv_wnd (rxv (pcb_ c)) - (n' - n)
}.
(** Data is taken only up to LAST_ACK (states below 7). *)
Definition next_pos (i : tcp_inseg) (pos n : Z) (c : tcp_core L) : Z :=
  if state_num (state (pcb_ c)) <? 7 then rx_advance n (rcv_wnd (rxv (pcb_ c))) pos (octets i) else n.

(** C14. tcp_receive implements the abstract receiver: the position in the stream
    advances to the end of the segment, cut to the window, when the segment covers it,
    and stays otherwise; the data handed on is exactly the part of the stream in
    between, the FIN is reported exactly when the position passes the end of the stream,
    and the window shrinks by as much as the position advances. *)
Theorem tcp_receive_refines str irs i pos n (c : tcp_core L) : slen str < MAXPOS -> seg_of str irs i pos ->
  wnd_inv irs n c -> recv_data c = None -> TF_GOT_FIN (recv_flags c) = false ->
  wp (tcp_receive i) (fun q c' => receiver_result str irs n (next_pos i pos n c) q c c') c.
Proof.
  intros Hstr Hi Hw Hd Hf. unfold next_pos. eapply wp_mono; [by apply (receive_spec str irs Hstr i pos n)|]. cbv beta zeta.
  intros q c' (G1 & G2 & [G3 G4] & G5 & G6).
  constructor; [done|done|by apply wnd_nxt|done| |done|done]. destruct (recv_data c'); [apply G4|]. cbn.
  unfold sub. replace (Z.to_nat _) with 0%nat by lia. done.
Qed.

(** C15. In the six synchronized states of a connection (ESTABLISHED, FIN_WAIT_1,
    FIN_WAIT_2, CLOSE_WAIT, CLOSING, LAST_ACK) tcp_process leaves it in the state that
    the table of RFC 793 gives for a FIN with which its position passes the end of the
    peer's stream, and for an acknowledgement of everything sent with nothing left to
    send; it moves the control block to the TIME_WAIT list exactly when it enters that
    state, marks it closed exactly when LAST_ACK is acknowledged, and calls no
    application. Segments with RST or SYN change none of this. *)
Theorem state_transition {A} `{!TcpApp L A} str irs i pos n (s : tcp_sys L A) : slen str < MAXPOS ->
  synchronized (state (pcb_ (core s))) = true -> wnd_inv irs n (core s) -> recv_data (core s) = None ->
  TF_GOT_FIN (recv_flags (core s)) = false ->
  (TCP_RST (i_hdr i) = false -> TCP_SYN (i_hdr i) = false -> seg_of str irs i pos) ->
  let st := state (pcb_ (core s)) in let n' := next_pos i pos n (core s) in
  let taken := negb (TCP_RST (i_hdr i)) && negb (TCP_SYN (i_hdr i)) in
  let c1 := (tcp_receive i (prepared i (core s))).2 in
  let fin := taken && (n <? n') && (slen str <? n') in
  let acked := taken && TCP_ACK (i_hdr i) && (i_ackno i =? snd_nxt (txv (pcb_ c1))) &&
               bool_decide (unsent (txv (pcb_ c1)) = []) in
  wp (tcp_process i) (fun _ s' => appl s' = appl s /\ state (pcb_ (core s')) = next_state st fin acked /\
    on_list (core s') = (if decide (next_state st fin acked <> st /\ next_state st fin acked = TIME_WAIT)
                         then PCB_TW else on_list (core s)) /\
    TF_CLOSED (recv_flags (core s')) = (TF_CLOSED (recv_flags (core s)) || bool_decide (st = LAST_ACK) && acked)) s.
Proof.
  intros Hstr Hsy Hw Hd Hf Hi st n' taken c1 fin acked.
  apply (wp_mono _ (fun _ s' => stepped fin acked s s')); [|by intros _ s' []].
  subst taken fin acked. destruct (TCP_RST (i_hdr i)) eqn:Er.
  { unfold tcp_process. apply wp_bind, wp_on_core, wp_gets. rewrite mkTcp_eta, Er. apply wp_bind.
    eapply wp_mono; [apply process_rst_stepped|]. intros e s1 H. by apply wp_ret. }
  destruct (TCP_SYN (i_hdr i)) eqn:Es.
  { unfold tcp_process. apply wp_bind, wp_on_core, wp_gets. rewrite mkTcp_eta, Er, Es.
    assert (E : negb (bool_decide (state (pcb_ (core s)) = SYN_SENT) || bool_decide (state (pcb_ (core s)) = SYN_RCVD)) = true)
      by (by destruct (state (pcb_ (core s)))). rewrite E. cbn [andb].
    apply wp_bind, wp_on_core, wp_modify, wp_ret. by apply not_stepped. }
  cbn [negb andb]. specialize (Hi eq_refl eq_refl). eapply wp_mono; [by apply process_synchronized|]. cbv beta.
  intros _ s' H. fold c1 in H.
  assert (Hw' : wnd_inv irs n (prepared i (core s))) by (destruct Hw; constructor; try done; by apply (parseopt_range 65535)).
  pose proof (receive_spec str irs Hstr i pos n (prepared i (core s)) Hi Hw' Hd Hf) as R.
  unfold wp in R. subst c1. destruct (tcp_receive i (prepared i (core s))) as [q c1]. cbn [snd] in *.
  destruct R as (_ & _ & [R _] & _). by rewrite R in H.
Qed.

(** The window is opened when that gains a segment or half of it. *)
Definition worth_announcing (gain : Z) (c : tcp_core L) : Prop :=
  Z.min (TCP_WND / 2) (mss (cgv (pcb_ c))) <= gain.

(** tcp_update_rcv_ann_wnd never moves the announced right edge of the window back or
    past the free space: it opens the window to all of it when that gains at least a
    segment or half the window, and keeps the announced edge otherwise. *)
Theorem window_update_exact irs n x (c : tcp_core L) :
  let r := rxv (pcb_ c) in let w := n + rcv_wnd r in
  wnd_inv irs n c -> rcv_ann_right_edge r = seq_of irs x -> 0 <= x <= w ->
  wp (tcp_update_rcv_ann_wnd : M (tcp_core L) Z) (fun g c' =>
    let a := n + rcv_ann_wnd (rxv (pcb_ c')) in
    wnd_inv irs n c' /\ x <= a <= w /\
    (worth_announcing (w - x) c -> a = w /\ g = w - x) /\
    (~ worth_announcing (w - x) c -> a = Z.max n x /\ g = 0)) c.
Proof.
  intros r w [H1 H2 H3 H4 _] Hx Hr. pose proof (update_ann_wnd_spec irs n x c) as S. cbv zeta in S.
  eapply wp_mono; [apply S; done || lia|].
  cbv beta zeta. unfold worth_announcing. change (TCP_WND / 2) with 1460. intros g c' [Hw (a & -> & Ha)]. split; [done|]. subst w r. cbn.
  destruct (Z.leb_spec (x + Z.min 1460 (mss (cgv (pcb_ c)))) (n + rcv_wnd (rxv (pcb_ c)))); lia.
Qed.
End Receiver.

(** ** The theorems at a running connection *)
Definition seg_reset (n : Z) : tcp_inseg := mkIn (no_flags <| TCP_RST := true |>) n 0 0 [] [].
Lemma reset_exact_witness : TCP_RST (i_hdr (seg_reset 2)) = true /\
  wp (tcp_process (seg_reset 2)) (fun x s' => x = (ERR_RST, Some []) /\
    rcv_nxt (rxv (pcb_ (core s'))) = 2 /\ TF_RESET (recv_flags (core s')) = true) sim_open.
Proof.
  split; [reflexivity|]. eapply wp_mono; [apply (reset_exact (seg_reset 2) sim_open); reflexivity|].
  cbv beta zeta. intros x s' (E1 & _ & E2 & E3 & _). rewrite E2, E3. split; [exact E1|]. split; reflexivity.
Defined.

(** The last data and the FIN of the peer at an open connection. *)
Lemma state_transition_witness :
  wp (tcp_process seg_all) (fun _ s' => state (pcb_ (core s')) = CLOSE_WAIT /\ on_list (core s') = PCB_ACTIVE /\
    TF_CLOSED (recv_flags (core s')) = false) sim_open.
Proof.
  eapply wp_mono; [apply (state_transition [10; 20; 30] 4294967295 seg_all 1 2 sim_open);
    [reflexivity|reflexivity|exact sim_open_wnd|reflexivity|reflexivity|intros _ _; apply sim_segments]|].
  cbv beta zeta. intros _ s' (_ & E1 & E2 & E3). split; [exact E1|]. split; [exact E2|exact E3].
Defined.

Lemma tcp_receive_refines_witness :
  wp (tcp_receive seg_all) (fun q c' => wnd_inv 4294967295 4 c' /\ rcv_nxt (rxv (pcb_ c')) = seq_of 4294967295 4 /\
    TF_GOT_FIN (recv_flags c') = true /\ default [] (@concat Z <$> recv_data c') = [30]) (core sim_open).
Proof.
  eapply wp_mono; [apply (tcp_receive_refines [10; 20; 30] 4294967295 seg_all 1 2 (core sim_open));
    [reflexivity|apply sim_segments|exact sim_open_wnd|reflexivity|reflexivity]|].
  cbv beta zeta. intros q c' [E1 _ E2 E3 E4 _ _]. split_and!; [exact E1|exact E2|exact E3|exact E4].
Defined.

Lemma window_update_exact_witness :
  wp (tcp_update_rcv_ann_wnd : M _ Z) (fun g c' => wnd_inv 4294967295 2 c' /\
    2 + rcv_ann_wnd (rxv (pcb_ c')) = 2920 /\ g = 0) (core sim_open).
Proof.
  eapply wp_mono; [apply (window_update_exact 4294967295 2 2920 (core sim_open));
    [exact sim_open_wnd|reflexivity|cbv; split; discriminate]|].
  cbv beta zeta. intros g c' (E1 & E2 & E3 & E4).
  destruct (E4 ltac:(intros H; by apply H)) as [E5 E6]. split_and!; [exact E1|exact E5|exact E6].
Defined.

(** ** Where the code departs from what it means to do

    A segment of one octet whose number is 2^31 away from [rcv_nxt] passes the first test of
    [tcp_receive]: for one octet, [TCP_SEQ_BETWEEN(rcv_nxt, seqno + 1, seqno + tcplen - 1)] has
    its bounds in the wrong order, and at this distance both comparisons hold.  The segment
    is "trimmed" to start at [rcv_nxt], and its octet enters the stream. *)
Definition seg_far : tcp_inseg := mkIn (no_flags <| TCP_ACK := true |>) 2147483650 6511 2920 [] [[99]].
Example far_byte_accepted : got (appl (tcp_input seg_far sim_open).2) = [10; 20; 99].
Proof. vm_compute. reflexivity. Qed.
(** The same holds for a FIN without data. *)
Definition fin_far : tcp_inseg := mkIn (no_flags <| TCP_ACK := true |> <| TCP_FIN := true |>) 2147483650 6511 2920 [] [].
Example far_fin_accepted : seen (tcp_input fin_far sim_open).2 = (mkSink [10; 20] Finished, LAST_ACK, PCB_ACTIVE).
Proof. vm_compute. reflexivity. Qed.
(** Data with the repeated SYN that acknowledges ours: the SYN is counted as a data byte by
    the trimming, and the first byte of the data is lost. *)
Definition seg_syn_data : tcp_inseg :=
  mkIn (no_flags <| TCP_SYN := true |> <| TCP_ACK := true |>) 4294967295 6511 2920 [] [[10; 20]].
Example syn_data_lost : let s := run_segs [seg_syn; seg_syn_data] idle_sys in
  got (appl s) = [20] /\ rcv_nxt (rxv (pcb_ (core s))) = 2.
Proof. vm_compute. done. Qed.
