(* ===== verification/TcpSend.v ===== *)
(** * TCP connections: the send queues

    No segment of the queues [unsent] and [unacked] is lost or duplicated by output and
    retransmission; only an acknowledgement that covers it removes a segment; and
    [snd_queuelen] counts the pbufs of both queues, so that it never underflows. *)
From S2P Require Import Prelude Net Tcp TcpIn TcpRcv SimTcp.

(** A segment up to the ACK flag, which [tcp_output] sets. *)
Definition as_sent (s : tcp_seg) : tcp_seg := s <| seg_hdr := (seg_hdr s) <| TCP_ACK := true |> |>.
Definition queued (t : snd_vars) : list tcp_seg := unacked t ++ unsent t.
Definition pbufs_of (q : list tcp_seg) : Z := foldr (fun s n => seg_clen s + n) 0 q.

(** Every segment occupies sequence numbers; the pbufs are counted. *)
Record queue_ok (t : snd_vars) : Prop := {
  qo_segs : Forall (fun s => 0 < seg_tcplen s /\ 0 <= seg_clen s) (queued t);
  qo_len : snd_queuelen t = pbufs_of (queued t);
  qo_max : snd_queuelen t <= 65535
}.

(** The same segments are queued. *)
Definition same_queue (t t' : snd_vars) : Prop :=
  map as_sent (queued t') ≡ₚ map as_sent (queued t) /\ snd_queuelen t' = snd_queuelen t /\
  lastack t' = lastack t /\ snd_lbb t' = snd_lbb t.
Definition conserves {L} (c c' : tcp_core L) : Prop :=
  queue_ok (txv (pcb_ c)) -> queue_ok (txv (pcb_ c')) /\ same_queue (txv (pcb_ c)) (txv (pcb_ c')).

#[export] Instance same_queue_preorder : PreOrder same_queue.
Proof.
  split; [by intros t; split|]. intros t1 t2 t3 (H1 & H2 & H3 & H4) (G1 & G2 & G3 & G4).
  split; [by etrans|]. repeat split; congruence.
Qed.
#[export] Instance conserves_preorder L : PreOrder (@conserves L).
Proof.
  split; [by intros c; split|]. intros a b c H1 H2 Ha. destruct (H1 Ha) as [Hb H3]. destruct (H2 Hb) as [Hc H4].
  split; [done|by etrans].
Qed.

Lemma pbufs_app p q : pbufs_of (p ++ q) = pbufs_of p + pbufs_of q.
Proof. unfold pbufs_of. induction p; cbn; lia. Qed.
Lemma pbufs_as_sent q : pbufs_of (map as_sent q) = pbufs_of q.
Proof. unfold pbufs_of. induction q; cbn; lia. Qed.
#[export] Instance pbufs_perm : Proper ((≡ₚ) ==> eq) pbufs_of.
Proof. unfold pbufs_of. intros p q H. induction H; cbn; lia. Qed.
Lemma pbufs_nonneg q : Forall (fun s => 0 < seg_tcplen s /\ 0 <= seg_clen s) q -> 0 <= pbufs_of q.
Proof. unfold pbufs_of. induction 1; cbn; lia. Qed.

(** The conditions on segments do not see the ACK flag. *)
Lemma segs_as_sent q : Forall (fun s => 0 < seg_tcplen s /\ 0 <= seg_clen s) (map as_sent q) <->
  Forall (fun s => 0 < seg_tcplen s /\ 0 <= seg_clen s) q.
Proof. rewrite Forall_map. done. Qed.

Lemma same_queue_ok t t' : same_queue t t' -> queue_ok t -> queue_ok t'.
Proof.
  intros (H1 & H2 & _ & _) [G1 G2 G3]. constructor; [| |congruence].
  - apply segs_as_sent. rewrite H1. by apply segs_as_sent.
  - rewrite H2, G2, <- !(pbufs_as_sent (queued _)). by rewrite H1.
Qed.

Lemma same_conserves {L} (c c' : tcp_core L) :
  (queue_ok (txv (pcb_ c)) -> same_queue (txv (pcb_ c)) (txv (pcb_ c'))) -> conserves c c'.
Proof. intros H Hc. split; [by eapply same_queue_ok; [apply H|]|auto]. Qed.

Lemma seg_insert_perm s q : seg_insert s q ≡ₚ s :: q.
Proof.
  induction q as [|x q IH]; cbn; [done|]. destruct (TCP_SEQ_LT _ _); [|done]. rewrite IH. apply Permutation_swap.
Qed.
Lemma enqueue_perm s q : enqueue_unacked s q ≡ₚ s :: q.
Proof.
  unfold enqueue_unacked. destruct (last q) as [u|] eqn:E.
  - destruct (TCP_SEQ_LT _ _); [apply seg_insert_perm|]. by rewrite Permutation_app_comm.
  - by apply last_None in E as ->.
Qed.

Section Send.
Context {L : Type} `{!TcpLower L}.
#[local] Abbreviation MC := (M (tcp_core L)).
Implicit Types (c : tcp_core L).

(** Most operations leave the sender's variables alone. *)
Definition same_tx c c' : Prop := txv (pcb_ c') = txv (pcb_ c).
#[local] Instance same_tx_preorder : PreOrder same_tx.
Proof. split; [by intros c|intros x y z; unfold same_tx; congruence]. Qed.
Lemma same_tx_conserves {B} (m : MC B) : frames same_tx m -> frames conserves m.
Proof. apply frames_mono. intros c c' E. apply same_conserves. by rewrite E. Qed.

Lemma tx_modify (f : tcp_core L -> tcp_core L) :
  (forall c, txv (pcb_ (f c)) = txv (pcb_ c)) -> frames same_tx (modify f).
Proof. intros H c. apply wp_modify, H. Qed.
Lemma tx_low {B} (m : M L B) : frames same_tx (on_low m).
Proof. intros c. unfold wp, on_low. by destruct (m (low c)). Qed.
Lemma tx_get {B} (f : tcp_pcb -> B) : frames same_tx (pcb f : MC B).
Proof. apply frames_gets, _. Qed.
Lemma tx_rx {B} (f : rcv_vars -> B) : frames same_tx (rx f : MC B).
Proof. apply frames_gets, _. Qed.
Lemma tx_tx {B} (f : snd_vars -> B) : frames same_tx (tx f : MC B).
Proof. apply frames_gets, _. Qed.
Lemma tx_cc {B} (f : cong_vars -> B) : frames same_tx (cc f : MC B).
Proof. apply frames_gets, _. Qed.
Lemma tx_set_cc f : frames same_tx (set_cc f : MC unit).
Proof. by apply tx_modify. Qed.
Lemma tx_set_flags f : frames same_tx (set_flags f : MC unit).
Proof. by apply tx_modify. Qed.
Lemma tx_set_rx f : frames same_tx (set_rx f : MC unit).
Proof. by apply tx_modify. Qed.
#[local] Hint Resolve tx_low tx_get tx_rx tx_tx tx_cc tx_set_cc tx_set_flags tx_set_rx : frames.

Lemma tx_alloc o d n : frames same_tx (tcp_output_alloc_header o d n : MC _).
Proof. unfold tcp_output_alloc_header, announce_window. solve_frames. Qed.
Lemma tx_header w : frames same_tx (send_header w : MC Z).
Proof. unfold send_header. solve_frames. Qed.
#[local] Hint Resolve tx_alloc tx_header : frames.
Lemma tx_empty_ack : frames same_tx (tcp_send_empty_ack : MC Z).
Proof. unfold tcp_send_empty_ack. solve_frames. Qed.
Lemma tx_mss m : frames same_tx (tcp_eff_send_mss m : MC Z).
Proof. unfold tcp_eff_send_mss. solve_frames. Qed.
#[local] Hint Resolve tx_empty_ack tx_mss : frames.
Lemma tx_segment s : frames same_tx (tcp_output_segment s : MC Z).
Proof. unfold tcp_output_segment, announce_window. solve_frames. Qed.

Lemma conserves_tx (f : snd_vars -> snd_vars) :
  (forall t, queue_ok t -> same_queue t (f t)) -> frames conserves (set_tx f : MC unit).
Proof. intros H c. apply wp_modify, same_conserves. apply H. Qed.
#[local] Hint Extern 1 (frames conserves (set_tx _)) =>
  (apply conserves_tx; let t := fresh "t" in intros t _; cbn; repeat case_match; done) : frames.
#[local] Hint Extern 3 (frames conserves _) =>
  apply same_tx_conserves; solve [eauto with frames typeclass_instances] : frames.

(** The segment that was sent goes from one queue to the other. *)
Lemma sent_same t t' seg rest : unsent t = seg :: rest -> unsent t' = rest ->
  unacked t' = enqueue_unacked seg (unacked t) -> snd_queuelen t' = snd_queuelen t ->
  lastack t' = lastack t -> snd_lbb t' = snd_lbb t -> same_queue t t'.
Proof.
  intros E1 E2 E3 E4 E5 E6. repeat split; [|done..]. unfold queued. rewrite E1, E2, E3, !map_app, enqueue_perm.
  cbn. by rewrite <- Permutation_middle.
Qed.

Lemma head_same t seg rest x : unsent t = seg :: rest -> as_sent x = as_sent seg ->
  same_queue t (t <| unsent := x :: rest |>).
Proof. intros E Hx. repeat split. unfold queued. cbn. rewrite E, !map_app. cbn. by rewrite Hx. Qed.

Lemma conserves_loop fuel wnd : frames conserves (tcp_output_loop fuel wnd : MC _).
Proof.
  induction fuel as [|fuel IH]; cbn [tcp_output_loop]; [apply frames_ret, _|]. intros c.
  apply wp_bind, wp_gets. cbn [id]. assert (Hr : forall x, wp (ret x : MC (option Z)) (fun _ c' => conserves c c') c)
    by (intros x; apply wp_ret; reflexivity).
  destruct (unsent (txv (pcb_ c))) as [|seg rest] eqn:E; [by apply Hr|].
  destruct (negb (seg_reach _ _ <=? wnd)); [by apply Hr|]. destruct (_ && negb (_ || _)); [by apply Hr|].
  set (seg' := if bool_decide _ then seg else _). cbv zeta.
  assert (Hs : as_sent seg' = as_sent seg) by (subst seg'; by case_match).
  apply wp_bind, wp_modify. set (c1 := c <| pcb_ := _ |>).
  assert (A1 : conserves c c1) by (apply same_conserves; intros _; by eapply head_same).
  assert (E1 : unsent (txv (pcb_ c1)) = seg' :: rest) by done. clearbody c1 seg'.
  wp_call (tx_segment seg' c1) as err c2 E2. unfold same_tx in E2. destruct (negb (err =? ERR_OK)).
  { apply wp_bind, wp_modify, wp_ret. etrans; [exact A1|]. apply same_conserves. cbn. by rewrite E2. }
  apply wp_bind, wp_modify. apply wp_bind. 
  apply (wp_mono _ (fun _ c3 => txv (pcb_ c3) = (txv (pcb_ c2)) <| unsent := rest |>)).
  { case_match; [by apply wp_ret|by apply wp_modify]. }
  cbv beta. intros _ c3 E3. apply wp_bind, wp_modify, wp_bind.
  assert (Hk : forall c4, conserves c c4 -> wp (tcp_output_loop fuel wnd) (fun _ c' => conserves c c') c4).
  { intros c4 A4. eapply wp_mono; [apply IH|]. cbv beta. intros _ c5 A5. by etrans. }
  destruct (Z.ltb_spec 0 (seg_tcplen seg')) as [Hp|Hp].
  - apply wp_modify, Hk. etrans; [exact A1|]. apply same_conserves. intros _.
    eapply sent_same; [exact E1|..]; cbn; rewrite E3; case_match; cbn; by rewrite ?E2.
  - unfold wp at 1, on_low. destruct (tcp_seg_free seg' _) as [u l]. apply Hk. etrans; [exact A1|].
    intros [Hq _ _]. exfalso. rewrite Forall_forall in Hq. destruct (Hq seg') as [H _]; [|lia].
    unfold queued. rewrite E1. apply elem_of_app. right. by left.
Qed.
#[local] Hint Resolve conserves_loop : frames.

Lemma conserves_output : frames conserves (tcp_output : MC Z).
Proof. unfold tcp_output. solve_frames. Qed.
#[local] Hint Resolve conserves_output : frames.
Lemma conserves_nrtx : frames conserves (bump_nrtx ;;; stop_rtt : MC unit).
Proof. unfold bump_nrtx, stop_rtt. solve_frames. Qed.
Lemma conserves_rexmit_rto : frames conserves (tcp_rexmit_rto : MC unit).
Proof.
  unfold tcp_rexmit_rto. apply frames_bind; [apply _|solve_frames|]. intros q. destruct q; [solve_frames|].
  apply frames_bind; [apply _| |intros _; unfold bump_nrtx, stop_rtt; solve_frames].
  apply conserves_tx. intros x _. repeat split. unfold queued. done.
Qed.
Lemma conserves_rexmit : frames conserves (tcp_rexmit : MC unit).
Proof.
  unfold tcp_rexmit. intros c. apply wp_bind, wp_gets. destruct (unacked (txv (pcb_ c))) as [|seg rest] eqn:E.
  { apply wp_ret. reflexivity. }
  apply wp_bind, wp_modify. set (c1 := c <| pcb_ := _ |>).
  assert (A1 : conserves c c1).
  { apply same_conserves. intros _. subst c1. cbn. case_match; repeat split; unfold queued; cbn;
      rewrite E, !map_app, seg_insert_perm; cbn; by rewrite <- Permutation_middle. }
  assert (F : frames conserves (bump_nrtx ;;; stop_rtt : MC unit)) by apply conserves_nrtx.
  eapply wp_mono; [apply F|]. cbv beta. intros _ c2 A2. by etrans.
Qed.
#[local] Hint Resolve conserves_rexmit_rto conserves_rexmit : frames.
Lemma conserves_rexmit_fast : frames conserves (tcp_rexmit_fast : MC unit).
Proof. unfold tcp_rexmit_fast. solve_frames. Qed.
Lemma conserves_retransmit : frames conserves (retransmit_timer : MC unit).
Proof. unfold retransmit_timer. solve_frames. Qed.
Lemma conserves_persist : frames conserves (persist_timer : MC unit).
Proof. unfold persist_timer, tcp_zero_window_probe. solve_frames. Qed.
#[local] Hint Resolve conserves_rexmit_fast conserves_retransmit conserves_persist : frames.

(** ** Acknowledgements

    The segments removed are covered by the acknowledgement, all others stay queued. *)
Definition covered (ackno : Z) (s : tcp_seg) : Prop :=
  TCP_SEQ_LEQ (seg_seqno s +% seg_tcplen s) ackno = true.
Definition acks (ackno : Z) (t t' : snd_vars) : Prop := exists removed,
  map as_sent (removed ++ queued t') ≡ₚ map as_sent (queued t) /\ Forall (covered ackno) removed.
Definition acks_ok (ackno : Z) c c' : Prop :=
  queue_ok (txv (pcb_ c)) -> queue_ok (txv (pcb_ c')) /\ acks ackno (txv (pcb_ c)) (txv (pcb_ c')).

Lemma acks_same a t t' : map as_sent (queued t') ≡ₚ map as_sent (queued t) -> acks a t t'.
Proof. intros H. by exists []. Qed.
#[local] Instance acks_preorder a : PreOrder (acks a).
Proof.
  split; [intros t; by apply acks_same|]. intros t1 t2 t3 (r1 & H1 & F1) (r2 & H2 & F2).
  exists (r1 ++ r2). split; [|by apply Forall_app]. rewrite <- H1, <- (assoc_L (++)), !map_app.
  rewrite !map_app in H2. by rewrite H2.
Qed.
#[local] Instance acks_ok_preorder a : PreOrder (acks_ok a).
Proof.
  split; [by intros c; split|]. intros x y z H1 H2 Hx. destruct (H1 Hx) as [Hy H3]. destruct (H2 Hy) as [Hz H4].
  split; [done|by etrans].
Qed.
Lemma conserves_acks {B} a (m : MC B) : frames conserves m -> frames (acks_ok a) m.
Proof.
  apply frames_mono. intros c c' H Hc. destruct (H Hc) as [Hc' [Hq _]]. split; [done|by apply acks_same].
Qed.
Lemma acks_set_tx a (f : snd_vars -> snd_vars) :
  (forall t, queued (f t) = queued t /\ snd_queuelen (f t) = snd_queuelen t) -> frames (acks_ok a) (set_tx f : MC unit).
Proof.
  intros H c. apply wp_modify. intros [Q1 Q2 Q3]. cbn. destruct (H (txv (pcb_ c))) as [E1 E2].
  split; [constructor; by rewrite ?E1, ?E2|]. apply acks_same. by rewrite E1.
Qed.
Lemma acks_acked a (f : tcp_core L -> tcp_core L) :
  (forall c, txv (pcb_ (f c)) = txv (pcb_ c)) -> frames (acks_ok a) (modify f).
Proof. intros H. by apply conserves_acks, same_tx_conserves, tx_modify. Qed.
#[local] Hint Extern 1 (frames (acks_ok _) (set_tx _)) =>
  (apply acks_set_tx; let t := fresh "t" in intros t; cbn; repeat case_match; done) : frames.
#[local] Hint Extern 3 (frames (acks_ok _) _) =>
  apply conserves_acks; solve [eauto with frames typeclass_instances] : frames.

(** One covered segment is removed and freed. *)
Lemma remove_acks a seg c1 c : covered a seg ->
  unacked (txv (pcb_ c)) = seg :: unacked (txv (pcb_ c1)) /\ unsent (txv (pcb_ c1)) = unsent (txv (pcb_ c)) \/
  unacked (txv (pcb_ c1)) = unacked (txv (pcb_ c)) /\ unsent (txv (pcb_ c)) = seg :: unsent (txv (pcb_ c1)) ->
  snd_queuelen (txv (pcb_ c1)) = snd_queuelen (txv (pcb_ c)) ->
  wp (segment_acked seg : MC unit) (fun _ c' => acks_ok a c c') c1.
Proof.
  intros Hc Hq Hn. unfold segment_acked. apply wp_bind, wp_modify, wp_bind, wp_modify.
  unfold wp, on_low. destruct (tcp_seg_free seg _) as [u l]. intros [Q1 Q2 Q3]. cbn.
  assert (P : seg :: queued (txv (pcb_ c1)) ≡ₚ queued (txv (pcb_ c))).
  { unfold queued. destruct Hq as [[E1 E2]|[E1 E2]]; rewrite E1, E2; [done|]. by rewrite <- Permutation_middle. }
  rewrite <- P in Q1. apply Forall_cons in Q1 as [[_ K1] K2]. rewrite <- P in Q2. change (pbufs_of (seg :: queued (txv (pcb_ c1))))
    with (seg_clen seg + pbufs_of (queued (txv (pcb_ c1)))) in Q2.
  pose proof (pbufs_nonneg _ K2). split.
  - assert (N : u16 (snd_queuelen (txv (pcb_ c1)) - seg_clen seg) = pbufs_of (queued (txv (pcb_ c1)))).
    { rewrite u16_small; lia. }
    constructor; cbn; [done|exact N|lia].
  - exists [seg]. split; [|by constructor]. apply (Permutation_map as_sent) in P. exact P.
Qed.

Lemma acks_unacked fuel a : frames (acks_ok a) (ack_unacked fuel a : MC unit).
Proof.
  induction fuel as [|fuel IH]; cbn [ack_unacked]; intros c; [apply wp_ret; reflexivity|].
  apply wp_bind, wp_gets. destruct (unacked (txv (pcb_ c))) as [|seg rest] eqn:E; [apply wp_ret; reflexivity|].
  destruct (TCP_SEQ_LEQ _ _) eqn:Ec; [|apply wp_ret; reflexivity].
  apply wp_bind, wp_modify, wp_bind. eapply wp_mono; [apply (remove_acks a seg _ c); [done| |done]; left; by rewrite E|].
  cbv beta. intros _ c1 A1. eapply wp_mono; [apply IH|]. cbv beta. intros _ c2 A2. by etrans.
Qed.

Lemma between_covered a s n : TCP_SEQ_BETWEEN a (seg_seqno s +% seg_tcplen s) n = true -> covered a s.
Proof.
  unfold covered, TCP_SEQ_BETWEEN, TCP_SEQ_GEQ, TCP_SEQ_LEQ. set (e := seg_seqno s +% seg_tcplen s).
  intros [H%Z.leb_le _]%andb_true_iff. apply Z.leb_le. unfold s32 in *.
  pose proof (Z.mod_pos_bound (e - a + 2147483648) 4294967296 ltac:(lia)).
  pose proof (Z.div_mod (e - a + 2147483648) 4294967296 ltac:(lia)).
  pose proof (Z.mod_pos_bound (a - e + 2147483648) 4294967296 ltac:(lia)).
  pose proof (Z.div_mod (a - e + 2147483648) 4294967296 ltac:(lia)). nia.
Qed.

Lemma acks_unsent fuel a : frames (acks_ok a) (ack_unsent fuel a : MC unit).
Proof.
  induction fuel as [|fuel IH]; cbn [ack_unsent]; intros c; [apply wp_ret; reflexivity|].
  apply wp_bind, wp_gets. cbn [id]. destruct (unsent (txv (pcb_ c))) as [|seg rest] eqn:E; [apply wp_ret; reflexivity|].
  destruct (TCP_SEQ_BETWEEN _ _ _) eqn:Ec; [|apply wp_ret; reflexivity]. apply between_covered in Ec.
  apply wp_bind, wp_modify, wp_bind.
  eapply wp_mono; [apply (remove_acks a seg _ c); [done| |]|].
  - right. cbn. rewrite E. by case_match.
  - cbn. by case_match.
  - cbv beta. intros _ c1 A1. eapply wp_mono; [apply IH|]. cbv beta. intros _ c2 A2. by etrans.
Qed.
#[local] Hint Resolve acks_unacked acks_unsent : frames.

Lemma tx_set_pcb f : (forall p, txv (f p) = txv p) -> frames same_tx (set_pcb f : MC unit).
Proof. intros H. apply tx_modify. intros c. apply H. Qed.
#[local] Hint Extern 1 (frames same_tx (set_pcb _)) => by apply tx_set_pcb : frames.
Lemma acks_snd_wnd a i : frames (acks_ok a) (update_snd_wnd i : MC unit).
Proof. unfold update_snd_wnd. solve_frames. Qed.
Lemma acks_dupack a e i : frames (acks_ok a) (receive_dupack e i : MC unit).
Proof. unfold receive_dupack. solve_frames. Qed.
Lemma acks_newack i : frames (acks_ok (i_ackno i)) (receive_newack i : MC unit).
Proof. unfold receive_newack. solve_frames. Qed.
#[local] Hint Resolve acks_snd_wnd acks_dupack acks_newack : frames.
Lemma acks_receive i : frames (acks_ok (i_ackno i)) (tcp_receive_ack i : MC unit).
Proof. unfold tcp_receive_ack. solve_frames. Qed.

(** Output, fast retransmission, the retransmission timeout and the persist timer
    neither lose nor duplicate a queued segment and keep the count of queued pbufs. *)
Theorem send_queue_conserved c :
  wp tcp_output (fun _ c' => conserves c c') c /\
  wp tcp_rexmit (fun _ c' => conserves c c') c /\
  wp tcp_rexmit_fast (fun _ c' => conserves c c') c /\
  wp tcp_rexmit_rto (fun _ c' => conserves c c') c /\
  wp retransmit_timer (fun _ c' => conserves c c') c /\
  wp persist_timer (fun _ c' => conserves c c') c.
Proof.
  split_and!; [apply conserves_output|apply conserves_rexmit|apply conserves_rexmit_fast|
    apply conserves_rexmit_rto|apply conserves_retransmit|apply conserves_persist].
Qed.

(** C16. Processing an acknowledgement removes from the send queues only segments that
    it covers, each once; all others stay queued, and the count of queued pbufs stays
    exact, so that it never underflows. *)
Theorem ack_removes_covered i c : queue_ok (txv (pcb_ c)) ->
  wp (tcp_receive_ack i) (fun _ c' => queue_ok (txv (pcb_ c')) /\
    exists removed, map as_sent (removed ++ queued (txv (pcb_ c'))) ≡ₚ map as_sent (queued (txv (pcb_ c))) /\
      Forall (covered (i_ackno i)) removed) c.
Proof. intros H. eapply wp_mono; [apply acks_receive|]. cbv beta. intros _ c' A. by apply A. Qed.
End Send.

(** ** An example: three segments, the first two sent *)
Definition sim_seg (n : Z) : tcp_seg := mkSeg n (no_flags <| TCP_ACK := true |>) [1; 2; 3; 4] 2 false.
Definition sending : tcp_core (list tcp_wire) :=
  let c := core (run_segs [seg_syn; seg_ack] idle_sys) in
  c <| pcb_ := (pcb_ c) <| txv := (txv (pcb_ c)) <| unacked := [sim_seg 6511; sim_seg 6515] |>
     <| unsent := [sim_seg 6519] |> <| snd_queuelen := 6 |> <| snd_nxt := 6519 |> <| snd_lbb := 6523 |> |> |>.
Definition ack_first : tcp_inseg := mkIn (no_flags <| TCP_ACK := true |>) 0 6515 2920 [] [].
Lemma sending_ok : queue_ok (txv (pcb_ sending)).
Proof. constructor; [|reflexivity|done]. repeat constructor; cbv; done. Qed.

Lemma ack_removes_covered_witness : queue_ok (txv (pcb_ sending)) /\
  wp (tcp_receive_ack ack_first) (fun _ c' => queue_ok (txv (pcb_ c')) /\
    exists removed, map as_sent (removed ++ queued (txv (pcb_ c'))) ≡ₚ map as_sent (queued (txv (pcb_ sending))) /\
      Forall (covered 6515) removed) sending.
Proof. split; [exact sending_ok|apply (ack_removes_covered ack_first sending), sending_ok]. Defined.
Example ack_first_removed :
  map seg_seqno (queued (txv (pcb_ (tcp_receive_ack ack_first sending).2))) = [6515; 6519].
Proof. vm_compute. reflexivity. Qed.

(** The fast retransmission puts the first segment back; when the window has closed and the
    timer expires then, the segments still unacknowledged go in front of it: [unsent] is not
    in the order of the sequence numbers any more. *)
Example rto_after_fast :
  let c := (tcp_rexmit sending).2 in
  let closed := c <| pcb_ := (pcb_ c) <| txv := (txv (pcb_ c)) <| snd_wnd := 0 |> |> |> in
  map seg_seqno (unsent (txv (pcb_ closed))) = [6511; 6519] /\
  map seg_seqno (unsent (txv (pcb_ (tcp_rexmit_rto closed).2))) = [6515; 6511; 6519].
Proof. vm_compute. done. Qed.
