(* ===== verification/TcpWrite.v ===== *)
(** * Writing to a connection ([tcp_write] of core/tcp_out.c)

    The bytes go to the end of the last unsent segment, where its last pbuf has room
    ([unsent_oversize]) or in a new pbuf behind it, then to new segments; nothing is changed
    before all of it has succeeded.  Time stamps and checksums on copy are off. *)
From S2P Require Import Prelude Net Tcp TcpIn TcpRcv SimTcp TcpSend.

(** ** The operations *)
Definition TCP_OVERSIZE : Z := TCP_MSS.

(** What the first two phases decide about the last unsent segment: bytes for the room of
    its last pbuf, bytes behind them, whether those are a new pbuf ([concat_p]), and whether
    the segment was touched ([seg != NULL]). *)
Record tail_plan := mkTail {
  oversize_used : Z; tail_len : Z; concat_p : bool; t_oversize : Z; t_queuelen : Z; t_touched : bool
}.
#[export] Instance tail_plan_eta : Eta tail_plan := fun w =>
  mkTail (oversize_used w) (tail_len w) (concat_p w) (t_oversize w) (t_queuelen w) (t_touched w).

(** The outcome of the third phase; [QueueErr]: the label [memerr]. *)
Inductive queue_result :=
| Queued (queue : list tcp_seg) (oversize queuelen : Z)
| QueueErr (queue : list tcp_seg).

Section Write.
Context {L : Type} `{!TcpLower L}.
#[local] Abbreviation MC := (M (tcp_core L)).

(** [mss_local] *)
Definition write_mss (p : tcp_pcb) : Z :=
  let m := Z.min (mss (cgv p)) (snd_wnd_max (txv p) / 2) in
  if negb (m =? 0) then m else mss (cgv p).

(** The states in which data may be written. *)
Definition can_write (st : tcp_state) : bool :=
  match st with ESTABLISHED | CLOSE_WAIT | SYN_SENT | SYN_RCVD => true | _ => false end.

Definition tcp_write_checks (len : Z) : MC Z :=
  p <- pcb id ;;
  if negb (can_write (state p)) then ret ERR_CONN else
  if len =? 0 then ret ERR_OK else
  if snd_buf (txv p) <? len then mem_err else
  if (TCP_SND_QUEUELEN <=? snd_queuelen (txv p)) || (TCP_SNDQUEUELEN_OVERFLOW <? snd_queuelen (txv p))
  then mem_err else ret ERR_OK.

(** The number of bytes left over behind [length]. *)
Definition tcp_pbuf_prealloc (pbuf_alloc : Z -> M L bool) (length max_length : Z) (more first_seg : bool)
  : MC (option Z) :=
  p <- pcb id ;;
  let alloc := if (length <? max_length) &&
                  (more || negb (TF_NODELAY (flags p)) &&
                     (negb first_seg || negb (bool_decide (unsent (txv p) = [])) ||
                      negb (bool_decide (unacked (txv p) = []))))
               then Z.min max_length (LWIP_MEM_ALIGN_SIZE (length + TCP_OVERSIZE)) else length in
  ok <- on_low (pbuf_alloc alloc) ;;
  ret (if ok : bool then Some (u16 (alloc - length)) else None).

(** [space]: what still fits into a segment. *)
Definition seg_space (mss_local : Z) (s : tcp_seg) : Z :=
  u16 (mss_local - (seg_len s + (if opts_mss s then LWIP_TCP_OPT_LEN_MSS else 0))).

(** Phases 1 and 2; [None]: no memory. *)
Definition write_tail (arg : Z) (data : list Z) (copy more : bool) (mss_local : Z) : MC (option tail_plan) :=
  t <- tx id ;;
  let len := slen data in
  match last (unsent t) with
  | None => ret (Some (mkTail 0 0 false 0 (snd_queuelen t) false))
  | Some last_unsent =>
      let space := seg_space mss_local last_unsent in
      let used := if 0 <? unsent_oversize t then Z.min space (Z.min (unsent_oversize t) len) else 0 in
      let w := mkTail used 0 false (u16 (unsent_oversize t - used)) (snd_queuelen t) (0 <? unsent_oversize t) in
      let space := u16 (space - used) in
      if (used <? len) && (0 <? space) && (0 <? seg_len last_unsent) then
        let seglen := Z.min space (len - used) in
        let w := w <| tail_len := seglen |> <| t_touched := true |> in
        let chained := w <| concat_p := true |> <| t_queuelen := u16 (snd_queuelen t + 1) |> in
        if copy then
          o <- tcp_pbuf_prealloc raw_alloc seglen space more true ;;
          ret (option_map (fun oversize => chained <| t_oversize := oversize |>) o)
        else
          extend <- on_low (rom_follows arg last_unsent) ;;
          if extend : bool then ret (Some w) else
          ok <- on_low rom_alloc ;;
          ret (if ok : bool then Some chained else None)
      else ret (Some w)
  end.

(** The pbufs of a new segment: the room left in the last and their number. *)
Definition write_pbufs (seglen mss_local : Z) (copy more first_seg : bool) (oversize : Z) : MC (option (Z * Z)) :=
  if copy then
    o <- tcp_pbuf_prealloc ctl_alloc seglen mss_local more first_seg ;;
    ret (option_map (fun oversize => (oversize, 1)) o)
  else
    ok <- on_low rom_alloc ;;
    if negb ok then ret None else
    ok <- on_low (ctl_alloc 0) ;;
    if ok : bool then ret (Some (oversize, 2)) else on_low (pbufs_free 1) ;;; ret None.

(** Phase 3: the loop [while (pos < len)]; every round adds a pbuf to the queue, whose length
    is limited, hence the fuel.  [None]: the fuel was not enough. *)
Fixpoint write_segments (fuel : nat) (data : list Z) (copy more : bool) (mss_local pos : Z)
    (queue : list tcp_seg) (oversize queuelen : Z) : MC (option queue_result) :=
  if negb (pos <? slen data) then ret (Some (Queued queue oversize queuelen)) else
  match fuel with
  | O => ret None
  | S n =>
      let seglen := Z.min (slen data - pos) mss_local in
      p <- write_pbufs seglen mss_local copy more (bool_decide (queue = [])) oversize ;;
      match p with
      | None => ret (Some (QueueErr queue))
      | Some (oversize, clen) =>
          let queuelen := u16 (queuelen + clen) in
          if (TCP_SND_QUEUELEN <? queuelen) || (TCP_SNDQUEUELEN_OVERFLOW <? queuelen)
          then on_low (pbufs_free clen) ;;; ret (Some (QueueErr queue)) else
          lbb <- tx snd_lbb ;;
          seg <- tcp_create_segment (sub data pos (pos + seglen)) clen no_flags (lbb +% pos) false ;;
          match seg with
          | None => ret (Some (QueueErr queue))
          | Some seg => write_segments n data copy more mss_local (pos + seglen) (queue ++ [seg]) oversize queuelen
          end
      end
  end.

(** The last unsent segment with its new bytes. *)
Definition extend_seg (w : tail_plan) (data : list Z) (s : tcp_seg) : tcp_seg :=
  s <| seg_data := seg_data s ++ sub data 0 (oversize_used w) ++
                   sub data (oversize_used w) (oversize_used w + tail_len w) |>
    <| seg_clen := seg_clen s + (if concat_p w then 1 else 0) |>.
Definition on_last (f : tcp_seg -> tcp_seg) (q : list tcp_seg) : list tcp_seg :=
  match last q with None => q | Some s => removelast q ++ [f s] end.
Definition push_seg (s : tcp_seg) : tcp_seg := s <| seg_hdr := (seg_hdr s) <| TCP_PSH := true |> |>.

(** The last segment touched gets the PSH flag. *)
Definition commit_write (w : tail_plan) (data : list Z) (more : bool) (queue : list tcp_seg)
    (oversize queuelen : Z) (t : snd_vars) : snd_vars :=
  let q := on_last (extend_seg w data) (unsent t) ++ queue in
  let q := if (t_touched w || negb (bool_decide (queue = []))) && negb more then on_last push_seg q else q in
  t <| unsent := q |> <| unsent_oversize := oversize |> <| snd_lbb := snd_lbb t +% slen data |>
    <| snd_buf := u16 (snd_buf t - slen data) |> <| snd_queuelen := queuelen |>.

Definition write_fuel : nat := S (Z.to_nat TCP_SND_QUEUELEN).

(** [data] are the bytes at [arg]; without [copy] they are referred to, and the caller keeps
    them until they are acknowledged. *)
Definition tcp_write (arg : Z) (data : list Z) (copy more : bool) : MC (option Z) :=
  p <- pcb id ;;
  let mss_local := write_mss p in
  if arg =? 0 then ret (Some ERR_ARG) else
  err <- tcp_write_checks (slen data) ;;
  if negb (err =? ERR_OK) then ret (Some err) else
  w <- write_tail arg data copy more mss_local ;;
  match w with
  | None => e <- mem_err ;; ret (Some e)
  | Some w =>
      r <- write_segments write_fuel data copy more mss_local (oversize_used w + tail_len w) []
             (t_oversize w) (t_queuelen w) ;;
      match r with
      | None => ret None
      | Some (QueueErr queue) =>
          e <- mem_err ;;
          (if concat_p w then on_low (pbufs_free 1) else ret tt) ;;;
          tcp_segs_free queue ;;;
          ret (Some e)
      | Some (Queued queue oversize queuelen) =>
          set_tx (commit_write w data more queue oversize queuelen) ;;;
          ret (Some ERR_OK)
      end
  end.
End Write.

(** ** What a write does to the send queue *)

(** The segments [q] carry the bytes of [data] from [a] to [b], one after the other. *)
Inductive cut (lbb : Z) (data : list Z) (m : Z) : Z -> list tcp_seg -> Z -> Prop :=
| cut_nil a : cut lbb data m a [] a
| cut_cons a s q b : seg_seqno s = lbb +% a -> seg_data s = sub data a (a + seg_len s) ->
    0 < seg_len s <= m -> 0 < seg_clen s -> (seg_hdr s) <| TCP_PSH := false |> = no_flags -> opts_mss s = false ->
    cut lbb data m (a + seg_len s) q b -> cut lbb data m a (s :: q) b.

(** The last unsent segment is not longer than the segments may be now (the assertion
    [mss_local >= last_unsent->len + unsent_optlen]). *)
Definition tail_fits (p : tcp_pcb) : Prop :=
  match last (unsent (txv p)) with
  | None => True
  | Some s => seg_len s + (if opts_mss s then LWIP_TCP_OPT_LEN_MSS else 0) <= write_mss p
  end.

Definition no_psh (s : tcp_seg) : tcp_seg := s <| seg_hdr := (seg_hdr s) <| TCP_PSH := false |> |>.

(** The last unsent segment before and after it took [d] bytes. *)
Definition grown (m : Z) (data : list Z) (d : Z) (tail tail' : list tcp_seg) : Prop :=
  match tail, tail' with
  | [], [] => d = 0
  | [s], [s'] => s' = s <| seg_data := seg_data s ++ sub data 0 d |> <| seg_clen := seg_clen s' |> /\
      seg_clen s <= seg_clen s' /\ (0 < d -> seg_len s' <= m)
  | _, _ => False
  end.

(** The send variables after [data] was queued: [d] bytes of it went to the last unsent
    segment, the rest to new ones; the flag PSH aside. *)
Record appended (m : Z) (data : list Z) (t t' : snd_vars) : Prop := {
  ap_unsent : exists d old tail tail' new, unsent t = old ++ tail /\ (tail = [] -> old = []) /\ grown m data d tail tail' /\
    0 <= d <= slen data /\ (unsent_oversize t = 0 -> Forall (fun s => seg_len s = 0) tail -> d = 0) /\
    cut (snd_lbb t) data m d new (slen data) /\
    map no_psh (unsent t') = map no_psh (old ++ tail' ++ new);
  ap_lbb : snd_lbb t' = snd_lbb t +% slen data;
  ap_buf : slen data <= snd_buf t /\ snd_buf t' = snd_buf t - slen data;
  ap_queuelen : snd_queuelen t' = snd_queuelen t + (pbufs_of (unsent t') - pbufs_of (unsent t));
  ap_limit : snd_queuelen t <= snd_queuelen t' /\ (0 < slen data -> snd_queuelen t' <= TCP_SND_QUEUELEN);
  ap_oversize : unsent_oversize t' <> 0 -> unsent t' <> [] /\ (unsent_oversize t <> 0 \/ data <> []);
  ap_rest : t' = t <| unsent := unsent t' |> <| unsent_oversize := unsent_oversize t' |>
    <| snd_lbb := snd_lbb t' |> <| snd_buf := snd_buf t' |> <| snd_queuelen := snd_queuelen t' |>
}.

(** Only the flags and what is below may differ. *)
Definition untouched {L} (c c' : tcp_core L) : Prop := exists f l,
  c' = c <| pcb_ := (pcb_ c) <| flags := f |> |> <| low := l |>.
#[export] Instance untouched_preorder L : PreOrder (@untouched L).
Proof.
  split; [intros c; exists (flags (pcb_ c)), (low c); by destruct c as [[]]|].
  intros a b c (f & l & ->) (f' & l' & ->). by exists f', l'.
Qed.

(** ** The segments *)
Section Cut.
Context (lbb : Z) (data : list Z) (m : Z).
Hypothesis Hlen : slen data <= 65535.

Lemma cut_le a q b : cut lbb data m a q b -> a <= b.
Proof. induction 1; lia. Qed.
Lemma cut_snoc a q b s : cut lbb data m a q b -> seg_seqno s = lbb +% b -> seg_data s = sub data b (b + seg_len s) ->
  0 < seg_len s <= m -> 0 < seg_clen s -> (seg_hdr s) <| TCP_PSH := false |> = no_flags -> opts_mss s = false ->
  cut lbb data m a (q ++ [s]) (b + seg_len s).
Proof. induction 1; intros; cbn; econstructor; eauto using cut_nil. Qed.
Lemma cut_bytes a q b : cut lbb data m a q b -> 0 <= a -> b <= slen data ->
  concat (map seg_data q) = sub data a b.
Proof.
  induction 1 as [a|a s q b H1 H2 H3 H4 H5 H6 H IH]; intros Ha Hb; cbn.
  - unfold sub. by rewrite Z.sub_diag.
  - pose proof (cut_le _ _ _ H). rewrite IH by lia. rewrite H2. by apply sub_app; lia.
Qed.
End Cut.

Lemma cut_pbufs lbb data m a q b : cut lbb data m a q b -> 0 <= pbufs_of q.
Proof. unfold pbufs_of. induction 1; cbn; lia. Qed.

Section WriteSpec.
Context {L : Type} `{!TcpLower L}.
#[local] Abbreviation MC := (M (tcp_core L)).
Implicit Types (c : tcp_core L).

Lemma untouched_low {B} (m : M L B) : frames untouched (on_low m).
Proof. intros c. unfold wp, on_low. destruct (m (low c)) as [b l]. exists (flags (pcb_ c)), l. by destruct c as [[]]. Qed.
Lemma untouched_flags f : frames untouched (set_flags f : MC unit).
Proof. intros c. apply wp_modify. exists (f (flags (pcb_ c))), (low c). by destruct c as [[]]. Qed.
Lemma untouched_gets {B} (f : tcp_core L -> B) : frames untouched (gets f).
Proof. apply frames_gets, _. Qed.
#[local] Hint Resolve untouched_low untouched_flags : frames.
#[local] Hint Extern 2 (frames untouched (pcb _)) => apply untouched_gets : frames.
#[local] Hint Extern 2 (frames untouched (tx _)) => apply untouched_gets : frames.

Lemma untouched_txv c c' : untouched c c' -> txv (pcb_ c') = txv (pcb_ c).
Proof. by intros (f & l & ->). Qed.
Lemma untouched_mss c c' : untouched c c' -> write_mss (pcb_ c') = write_mss (pcb_ c).
Proof. by intros (f & l & ->). Qed.

Lemma untouched_mem_err : frames untouched (mem_err : MC Z).
Proof. unfold mem_err. solve_frames. Qed.
Lemma untouched_checks n : frames untouched (tcp_write_checks n : MC Z).
Proof. unfold tcp_write_checks, mem_err. solve_frames. Qed.
Lemma untouched_prealloc al n m b f : frames untouched (tcp_pbuf_prealloc al n m b f : MC _).
Proof. unfold tcp_pbuf_prealloc. solve_frames. Qed.
#[local] Hint Resolve untouched_mem_err untouched_checks untouched_prealloc : frames.
Lemma untouched_pbufs n m b f r o : frames untouched (write_pbufs n m b f r o : MC _).
Proof. unfold write_pbufs. solve_frames. Qed.
Lemma untouched_tail a d b f m : frames untouched (write_tail a d b f m : MC _).
Proof. unfold write_tail. solve_frames. Qed.
Lemma untouched_create d k h n b : frames untouched (tcp_create_segment d k h n b : MC _).
Proof. unfold tcp_create_segment. solve_frames. Qed.
#[local] Hint Resolve untouched_pbufs untouched_tail untouched_create : frames.
Lemma untouched_segments fuel d b f m pos q o n : frames untouched (write_segments fuel d b f m pos q o n : MC _).
Proof. revert pos q o n; induction fuel; intros pos q o n; cbn [write_segments]; solve_frames. Qed.
Lemma untouched_segs_free q : frames untouched (tcp_segs_free q : MC unit).
Proof. induction q; cbn; solve_frames. Qed.

(** Writing is allowed. *)
Lemma checks_spec n c : wp (tcp_write_checks n : MC Z) (fun e c' => untouched c c' /\
  (e = ERR_OK -> can_write (state (pcb_ c)) = true /\ (n = 0 \/
     n <= snd_buf (txv (pcb_ c)) /\ snd_queuelen (txv (pcb_ c)) < TCP_SND_QUEUELEN))) c.
Proof.
  apply wp_and; [apply untouched_checks|]. unfold tcp_write_checks, mem_err. apply wp_bind, wp_gets. cbn [id].
  destruct (can_write _); cbn [negb]; [|by apply wp_ret].
  destruct (Z.eqb_spec n 0); [apply wp_ret; auto|].
  destruct (Z.ltb_spec (snd_buf (txv (pcb_ c))) n); [by apply wp_bind, wp_modify, wp_ret|].
  destruct (Z.leb_spec TCP_SND_QUEUELEN (snd_queuelen (txv (pcb_ c)))); [by apply wp_bind, wp_modify, wp_ret|].
  destruct (_ <? _); [by apply wp_bind, wp_modify, wp_ret|]. apply wp_ret. auto.
Qed.

(** The plan for the last unsent segment. *)
Definition plan_ok (m : Z) (data : list Z) (t : snd_vars) (w : tail_plan) : Prop :=
  let d := oversize_used w + tail_len w in
  0 <= oversize_used w /\ 0 <= tail_len w /\ d <= slen data /\
  t_queuelen w = snd_queuelen t + (if concat_p w then 1 else 0) /\
  (d = 0 -> unsent_oversize t = 0 -> t_oversize w = 0) /\
  match last (unsent t) with
  | None => w = mkTail 0 0 false 0 (snd_queuelen t) false
  | Some s => (0 < d -> seg_len s + d <= m) /\ (unsent_oversize t = 0 -> seg_len s = 0 -> d = 0) /\
      (concat_p w = true -> 0 < d)
  end.

Lemma plan_some m data t s w used : last (unsent t) = Some s -> 0 <= m ->
  seg_len s + used + tail_len w <= m -> 0 <= used -> (unsent_oversize t = 0 -> used = 0) ->
  oversize_used w = used -> 0 <= tail_len w -> used + tail_len w <= slen data ->
  t_queuelen w = snd_queuelen t + (if concat_p w then 1 else 0) -> (0 < tail_len w -> 0 < seg_len s) ->
  (concat_p w = true -> 0 < tail_len w) ->
  (tail_len w = 0 -> t_oversize w = u16 (unsent_oversize t - used)) -> plan_ok m data t w.
Proof.
  intros El Hm H1 H2 H3 H4 H5 H6 H7 H8 H9 H10. unfold plan_ok. rewrite El, H4. split_and!; try done; try lia.
  - intros Hd Ho. rewrite H10 by lia. by replace (unsent_oversize t - used) with 0 by lia.
  - intros Hc. specialize (H9 Hc). lia.
Qed.

Lemma tail_spec arg data b f c : let t := txv (pcb_ c) in let m := write_mss (pcb_ c) in
  slen data <= 65535 -> 0 <= m <= 65535 -> 0 <= snd_queuelen t -> (0 < slen data -> snd_queuelen t <= 65534) ->
  tail_fits (pcb_ c) ->
  wp (write_tail arg data b f m : MC _) (fun w c' => untouched c c' /\
    forall w', w = Some w' -> plan_ok m data t w') c.
Proof.
  intros t m Hd Hm Hq Hq' Hf. apply wp_and; [apply untouched_tail|]. unfold write_tail, tail_fits in *.
  apply wp_bind, wp_gets. cbn [id]. fold t m in Hf |- *.
  assert (Hl : 0 <= slen data) by (unfold slen; lia).
  destruct (last (unsent t)) as [s|] eqn:El.
  2: { apply wp_ret. intros w' [= <-]. unfold plan_ok. rewrite El. cbn. split_and!; done || lia. }
  assert (Hs : 0 <= seg_len s) by (unfold seg_len; lia).
  set (k := seg_len s + _) in *. assert (seg_len s <= k) by (subst k; case_match; unfold LWIP_TCP_OPT_LEN_MSS; lia).
  assert (Hsp : seg_space m s = m - k) by (unfold seg_space; fold k; apply u16_small; lia).
  rewrite Hsp. set (used := if 0 <? unsent_oversize t then _ else 0).
  assert (Hu : 0 <= used <= m - k /\ used <= slen data /\ (unsent_oversize t = 0 -> used = 0)).
  { subst used. destruct (Z.ltb_spec 0 (unsent_oversize t)); lia. }
  clearbody used k. rewrite (u16_small (m - k - used)) by lia.
  destruct (_ && (0 <? seg_len s)) eqn:E.
  2: { apply wp_ret. intros w' [= <-]. apply (plan_some m data t s _ used); cbn; done || lia. }
  apply andb_true_iff in E as [E E3%Z.ltb_lt]. apply andb_true_iff in E as [E1%Z.ltb_lt E2%Z.ltb_lt].
  assert (Hq1 : u16 (snd_queuelen t + 1) = snd_queuelen t + 1) by (apply u16_small; lia).
  destruct b; apply wp_any; intros x c1.
  - apply wp_ret. intros w' Hw. destruct x as [o|]; [|done]. injection Hw as <-.
    apply (plan_some m data t s _ used); cbn; done || lia.
  - destruct x.
    { apply wp_ret. intros w' [= <-]. apply (plan_some m data t s _ used); cbn; done || lia. }
    apply wp_any. intros x c2. apply wp_ret. intros w' Hw. destruct x; [|done]. injection Hw as <-.
    apply (plan_some m data t s _ used); cbn; done || lia.
Qed.

(** The new segments. *)
Lemma pbufs_spec n m b f r o c : wp (write_pbufs n m b f r o : MC _) (fun x c' => untouched c c' /\
  forall o' k, x = Some (o', k) -> 1 <= k <= 2) c.
Proof.
  apply wp_and; [apply untouched_pbufs|]. unfold write_pbufs. destruct b; apply wp_any; intros x c1.
  - apply wp_ret. intros o' k. destruct x; [|done]. intros [= <- <-]. lia.
  - destruct x; cbn [negb]; [|by apply wp_ret]. apply wp_any. intros x c2. destruct x.
    + apply wp_ret. intros o' k [= <- <-]. lia.
    + apply wp_any. intros _ c3. by apply wp_ret.
Qed.

Lemma segments_spec fuel data b f m pos q o n c : slen data <= 65535 -> 0 < m -> 0 <= pos <= slen data ->
  0 <= n -> (pos < slen data -> n <= TCP_SND_QUEUELEN /\ TCP_SND_QUEUELEN < n + Z.of_nat fuel) ->
  wp (write_segments fuel data b f m pos q o n : MC _) (fun r c' => untouched c c' /\ exists new,
    match r with
    | None => False
    | Some (QueueErr q') => q' = q ++ new
    | Some (Queued q' o' n') => q' = q ++ new /\ cut (snd_lbb (txv (pcb_ c))) data m pos new (slen data) /\
        n' = n + pbufs_of new /\ (pos < slen data -> n' <= TCP_SND_QUEUELEN) /\
        (new = [] -> o' = o)
    end) c.
Proof.
  intros Hd Hm. revert pos q o n c. induction fuel as [|fuel IH]; intros pos q o n c Hp Hn Hf;
    cbn [write_segments]; destruct (Z.ltb_spec pos (slen data)) as [Hlt|Hge]; cbn [negb].
  1: { destruct (Hf Hlt). lia. }
  1, 3: apply wp_ret; split; [reflexivity|]; exists []; replace (slen data) with pos by lia;
        rewrite app_nil_r; repeat split; [constructor|unfold pbufs_of; cbn; lia|lia].
  destruct (Hf Hlt) as [Hf1 Hf2]. set (k := Z.min (slen data - pos) m).
  assert (Herr : forall c', untouched c c' -> wp (ret (Some (QueueErr q)) : MC _) (fun r c' => untouched c c' /\ exists new,
    match r with
    | None => False
    | Some (QueueErr q') => q' = q ++ new
    | Some (Queued q' o' n') => q' = q ++ new /\ cut (snd_lbb (txv (pcb_ c))) data m pos new (slen data) /\
        n' = n + pbufs_of new /\ (pos < slen data -> n' <= TCP_SND_QUEUELEN) /\
        (new = [] -> o' = o)
    end) c').
  { intros c' U. apply wp_ret. split; [done|]. exists []. by rewrite app_nil_r. }
  wp_call (pbufs_spec k m b f (bool_decide (q = [])) o c) as x c1 X. destruct X as [U1 Hx].
  destruct x as [[o1 cl]|]; [|by apply Herr]. specialize (Hx _ _ eq_refl).
  assert (H8 : TCP_SND_QUEUELEN = 8) by done. rewrite H8 in *.
  rewrite (u16_small (n + cl)) by lia. destruct ((8 <? n + cl) || _) eqn:E.
  { wp_call (untouched_low (pbufs_free cl) c1) as y c2 U2. apply Herr. by etrans. }
  apply orb_false_iff in E as [E1%Z.ltb_ge _]. apply wp_bind, wp_gets. cbn [id].
  apply wp_bind. unfold tcp_create_segment. apply wp_bind. unfold wp at 1, on_low.
  destruct (seg_alloc (low c1)) as [ok l]. set (c2 := c1 <| low := l |>).
  assert (U2 : untouched c c2).
  { etrans; [exact U1|]. exists (flags (pcb_ c1)), l. by destruct c1 as [[]]. }
  assert (Hlb : snd_lbb (txv (pcb_ c1)) = snd_lbb (txv (pcb_ c))) by (by rewrite (untouched_txv _ _ U1)).
  destruct ok.
  2: { wp_call (untouched_low (pbufs_free cl) c2) as y c3 U3. apply wp_ret, Herr. by etrans. }
  apply wp_ret. set (s := mkSeg _ _ _ _ _).
  assert (Hk : seg_len s = k).
  { unfold seg_len. cbn [seg_data s]. rewrite sub_length; lia. }
  eapply wp_mono; [apply IH; lia|]. cbv beta. intros r c4 (U4 & new & Hr). split; [by etrans|].
  rewrite (untouched_txv _ _ U2) in Hr. destruct r as [[q' o' n'|q']|]; [|exists (s :: new)..]; [|by rewrite Hr, <- app_assoc|done].
  exists (s :: new).
  destruct Hr as (-> & Hc & -> & Hl & Ho). rewrite <- app_assoc. split; [done|]. split.
  { constructor; rewrite ?Hk; try done; try (by cbn; rewrite Hlb); try lia; by cbn; lia. }
  split; [unfold pbufs_of; cbn; lia|]. split; [|done]. intros _.
  destruct (Z.lt_ge_cases (pos + k) (slen data)) as [H|H]; [by apply Hl|].
  inversion Hc; subst; [unfold pbufs_of; cbn; lia|]. exfalso.
  match goal with H1 : 0 < seg_len _ <= m, H2 : cut _ _ _ _ _ _ |- _ => apply cut_le in H2 end. lia.
Qed.

Lemma on_last_snoc f q x : on_last f (q ++ [x]) = q ++ [f x].
Proof. unfold on_last. by rewrite last_snoc, removelast_last. Qed.
Lemma on_last_no_psh q : map no_psh (on_last push_seg q) = map no_psh q.
Proof. destruct q as [|x q _] using rev_ind; [done|]. by rewrite on_last_snoc, !map_app. Qed.
Lemma pbufs_no_psh q : pbufs_of (map no_psh q) = pbufs_of q.
Proof. unfold pbufs_of. induction q; cbn; lia. Qed.
Lemma cut_empty lbb data m a q b : cut lbb data m a q b -> b <= a -> q = [].
Proof. destruct 1 as [|a s q b H1 H2 H3 H4 H5 H6 H]; [done|]. apply cut_le in H. lia. Qed.
Lemma cut_nil_eq lbb data m a b : cut lbb data m a [] b -> a = b.
Proof. by inversion 1. Qed.

(** The transaction is committed. *)
Lemma commit_appended m data more w new o n t :
  let d := oversize_used w + tail_len w in
  plan_ok m data t w -> cut (snd_lbb t) data m d new (slen data) -> n = t_queuelen w + pbufs_of new ->
  (0 < slen data -> n <= TCP_SND_QUEUELEN) -> (new = [] -> o = t_oversize w) ->
  slen data <= snd_buf t <= 65535 ->
  appended m data t (commit_write w data more new o n t).
Proof.
  intros d (P1 & P2 & P3 & P4 & P5 & P6) Hc Hn Hl Ho Hb. fold d in P3, P5, P6.
  assert (Hun : exists old tail tail', unsent t = old ++ tail /\ (tail = [] -> old = []) /\ on_last (extend_seg w data) (unsent t) = old ++ tail' /\
    grown m data d tail tail' /\ (unsent_oversize t = 0 -> Forall (fun s => seg_len s = 0) tail -> d = 0) /\
    pbufs_of tail' = pbufs_of tail + (if concat_p w then 1 else 0)).
  { destruct (unsent t) as [|s old _] using rev_ind.
    - exists [], [], []. cbn in P6. subst w. done.
    - rewrite last_snoc in P6. destruct P6 as (Q1 & Q2 & Q3). exists old, [s], [extend_seg w data s].
      rewrite on_last_snoc. split; [done|]. split; [done|]. split; [done|].
      assert (Es : seg_data (extend_seg w data s) = seg_data s ++ sub data 0 d) by (cbn; by rewrite sub_app by lia).
      split_and!.
      + split; [unfold extend_seg; by rewrite sub_app by lia|]. split; [cbn; case_match; lia|].
        intros Hd. unfold seg_len in *. rewrite Es, length_app, Nat2Z.inj_add, sub_length by lia. lia.
      + intros E [F _]%Forall_cons. by apply Q2.
      + unfold pbufs_of. cbn. lia. }
  destruct Hun as (old & tail & tail' & E1 & Et & E2 & G & G2 & Ep).
  set (t' := commit_write w data more new o n t).
  assert (Eu : map no_psh (unsent t') = map no_psh (old ++ tail' ++ new)).
  { subst t'. unfold commit_write. cbn. rewrite E2, <- app_assoc.
    destruct (_ && negb more); [apply on_last_no_psh|done]. }
  constructor.
  - exists d, old, tail, tail', new. repeat (split; [done || lia|]). done.
  - done.
  - split; [lia|]. cbn. apply u16_small. unfold slen in *. lia.
  - rewrite <- (pbufs_no_psh (unsent t')), Eu, pbufs_no_psh, E1, !pbufs_app, Ep. cbn. lia.
  - split; [|exact Hl]. cbn. rewrite Hn, P4. pose proof (cut_pbufs _ _ _ _ _ _ Hc). destruct (concat_p w); lia.
  - intros Ho'. cbn in Ho'. split.
    + intros E. rewrite E in Eu. symmetry in Eu. apply map_eq_nil in Eu.
      apply app_eq_nil in Eu as [-> [-> ->]%app_eq_nil]. destruct tail as [|? []]; [|done..]. cbn in E1. rewrite E1 in P6. cbn in P6.
      subst w. by apply Ho', Ho.
    + destruct (decide (data = [])) as [->|]; [|by right]. left. intros E. apply Ho'.
      assert (d = 0) by (unfold slen in P3; cbn in P3; lia). rewrite Ho; [by apply P5|].
      eapply cut_empty; [exact Hc|]. unfold slen; cbn; lia.
  - done.
Qed.

Definition written (data : list Z) (r : option Z) (c c' : tcp_core L) : Prop := exists e, r = Some e /\
  (e <> ERR_OK -> untouched c c') /\
  (e = ERR_OK -> can_write (state (pcb_ c)) = true /\ exists c1, untouched c c1 /\
     appended (write_mss (pcb_ c)) data (txv (pcb_ c)) (txv (pcb_ c')) /\
     c' = c1 <| pcb_ := (pcb_ c1) <| txv := txv (pcb_ c') |> |>).

Lemma write_spec arg data copy more c : let p := pcb_ c in
  slen data <= 65535 -> 0 < write_mss p <= 65535 -> 0 <= snd_queuelen (txv p) ->
  0 <= snd_buf (txv p) <= 65535 -> tail_fits p ->
  wp (tcp_write arg data copy more) (fun r c' => written data r c c') c.
Proof.
  intros p Hd Hm Hq Hb Hf. unfold tcp_write. apply wp_bind, wp_gets. cbn [id]. fold p.
  assert (Herr : forall (e : Z) c', untouched c c' -> e <> ERR_OK -> written data (Some e) c c').
  { intros e c' U He. by exists e. }
  assert (Hlen : 0 <= slen data) by (unfold slen; lia).
  destruct (arg =? 0); [by apply wp_ret, Herr|].
  wp_call (checks_spec (slen data) c) as err c1 X. destruct X as [U1 Hok].
  destruct (Z.eqb_spec err ERR_OK) as [->|Ne]; cbn [negb]; [|by apply wp_ret, Herr].
  destruct (Hok eq_refl) as [Hs Hok']. clear Hok. fold p in Hs, Hok'.
  assert (E1 : txv (pcb_ c1) = txv p) by (by apply untouched_txv).
  assert (M1 : write_mss (pcb_ c1) = write_mss p) by (by apply untouched_mss).
  assert (F1 : tail_fits (pcb_ c1)) by (unfold tail_fits in *; by rewrite E1, M1).
  rewrite <- M1. wp_call (tail_spec arg data copy more c1) as w c2 X;
    [done|rewrite M1; lia|by rewrite E1|rewrite E1; intros Hlt; destruct Hok' as [|[_ Hq']]; [lia|]|done|].
  { assert (H8 : TCP_SND_QUEUELEN = 8) by done. rewrite H8 in Hq'. lia. }
  destruct X as [U2 Hw]. assert (U2' : untouched c c2) by (by etrans).
  destruct w as [w|].
  2: { unfold mem_err. apply wp_bind, wp_bind, wp_modify, wp_ret, wp_ret. apply Herr; [|done]. etrans; [exact U2'|].
       exists ((flags (pcb_ c2)) <| TF_NAGLEMEMERR := true |>), (low c2). by destruct c2 as [[]]. }
  specialize (Hw _ eq_refl). rewrite E1, M1 in *. pose proof Hw as (P1 & P2 & P3 & P4 & P5 & P6).
  apply wp_bind. eapply wp_mono.
  { apply segments_spec; [done|lia|lia| |].
    - rewrite P4. destruct (concat_p w); lia.
    - intros Hlt. rewrite P4. assert (H8 : TCP_SND_QUEUELEN = 8) by done. unfold write_fuel.
      rewrite H8 in *. destruct Hok'; [lia|]. destruct (concat_p w); cbn; lia. }
  cbv beta. intros r c3 (U3 & new & Hr). assert (U3' : untouched c c3) by (by etrans).
  rewrite (untouched_txv _ _ U2') in Hr. fold p in Hr. destruct r as [[q o n|q]|]; [| |done].
  - destruct Hr as (Hq' & Hc & Hn & Hl & Ho). cbn in Hq'. subst q. apply wp_bind, wp_modify, wp_ret.
    exists ERR_OK. split; [done|]. split; [done|]. intros _. split; [done|]. exists c3. split; [done|]. split; [|done].
    cbn. rewrite (untouched_txv _ _ U3'). apply commit_appended; try done.
    + intros Hlt. destruct (Z.lt_ge_cases (oversize_used w + tail_len w) (slen data)) as [|H]; [by apply Hl|].
      rewrite (cut_empty _ _ _ _ _ _ Hc) in Hn by lia. unfold pbufs_of in Hn. cbn in Hn. rewrite Hn, P4.
      destruct Hok'; [lia|]. destruct (concat_p w); lia.
    + fold p. destruct Hok' as [H0|[H0 _]]; lia.
  - apply wp_bind. unfold mem_err. apply wp_bind, wp_modify, wp_ret. apply wp_bind. set (c4 := c3 <| pcb_ := _ |>).
    assert (U4 : untouched c c4).
    { etrans; [exact U3'|]. exists ((flags (pcb_ c3)) <| TF_NAGLEMEMERR := true |>), (low c3). by destruct c3 as [[]]. }
    apply (wp_mono _ (fun _ c5 => untouched c c5)).
    { destruct (concat_p w); [|by apply wp_ret]. eapply wp_mono; [apply untouched_low|]. cbv beta. intros _ c5 U5. by etrans. }
    cbv beta. intros _ c5 U5. wp_call (untouched_segs_free q c5) as x c6 U6. apply wp_ret, Herr; [by etrans|done].
Qed.
End WriteSpec.

(** ** Memory

    The number of pbufs and segments that were allocated and not given back. *)
Class TcpMem (L : Type) := { pbufs_out : L -> Z; segs_out : L -> Z }.

Section Ledger.
Context {L : Type} `{!TcpLower L} `{!TcpMem L}.
#[local] Abbreviation MC := (M (tcp_core L)).
Implicit Types (c : tcp_core L).

(** [m] takes [dp] pbufs and [ds] segments. *)
Definition takes_out {A} (m : M L A) (dp ds : A -> Z) : Prop := forall l,
  wp m (fun a l' => pbufs_out l' = pbufs_out l + dp a /\ segs_out l' = segs_out l + ds a) l.
Definition none_out {A} (a : A) : Z := 0.

Class TcpMemLaws : Prop := {
  mem_ctl n : takes_out (ctl_alloc n) Z.b2z none_out;
  mem_raw n : takes_out (raw_alloc n) Z.b2z none_out;
  mem_rom : takes_out rom_alloc Z.b2z none_out;
  mem_follows a s : takes_out (rom_follows a s) none_out none_out;
  mem_seg : takes_out seg_alloc none_out Z.b2z;
  mem_pbufs_free n : takes_out (pbufs_free n) (fun _ => - n) none_out;
  mem_seg_free s : takes_out (tcp_seg_free s) (fun _ => - seg_clen s) (fun _ => -1)
}.
Context {ML : TcpMemLaws}.

(** The same for an operation on the connection, which does not change the queues. *)
Definition out_by {A} (m : MC A) (dp ds : A -> Z) : Prop := forall c, wp m (fun a c' =>
  pbufs_out (low c') = pbufs_out (low c) + dp a /\ segs_out (low c') = segs_out (low c) + ds a) c.

Lemma out_low {A} (m : M L A) dp ds : takes_out m dp ds -> out_by (on_low m) dp ds.
Proof. intros H c. specialize (H (low c)). unfold wp, on_low in *. by destruct (m (low c)). Qed.
Lemma out_ret {A} (a : A) dp ds : dp a = 0 -> ds a = 0 -> out_by (ret a) dp ds.
Proof. intros H1 H2 c. apply wp_ret. lia. Qed.
Lemma out_gets {A B} (f : tcp_core L -> A) (k : A -> MC B) dp ds :
  (forall a, out_by (k a) dp ds) -> out_by (bind (gets f) k) dp ds.
Proof. intros H c. apply wp_bind, wp_gets, H. Qed.
Lemma out_bind {A B} (m : MC A) (k : A -> MC B) dp ds dp' ds' : out_by m dp ds ->
  (forall a, out_by (k a) (fun b => dp' b - dp a) (fun b => ds' b - ds a)) -> out_by (bind m k) dp' ds'.
Proof.
  intros Hm Hk c. wp_call (Hm c) as a c1 H1. eapply wp_mono; [apply Hk|]. cbv beta. intros b c2 H2. lia.
Qed.

Lemma out_prealloc al n m b f : (forall k, takes_out (al k) Z.b2z none_out) ->
  out_by (tcp_pbuf_prealloc al n m b f) (fun o => if o is Some _ then 1 else 0) none_out.
Proof.
  intros H. unfold tcp_pbuf_prealloc. apply out_gets. intros p. cbv zeta. eapply out_bind; [apply out_low, H|].
  intros [|]; apply out_ret; done.
Qed.

Lemma out_tail arg data b f m : out_by (write_tail arg data b f m)
  (fun w => match w with Some w => if concat_p w then 1 else 0 | None => 0 end) none_out.
Proof.
  unfold write_tail. apply out_gets. intros t. cbv zeta. destruct (last (unsent t)) as [s|]; [|by apply out_ret].
  destruct (_ && (0 <? seg_len s)); [|by apply out_ret]. destruct b.
  - eapply out_bind; [apply out_prealloc; intros k; apply mem_raw|]. intros [o|]; apply out_ret; done.
  - eapply out_bind; [apply out_low, mem_follows|]. intros [|]; [by apply out_ret|].
    eapply out_bind; [apply out_low, mem_rom|]. intros [|]; apply out_ret; done.
Qed.

Lemma out_pbufs n m b f r o : out_by (write_pbufs n m b f r o)
  (fun x => match x with Some (_, k) => k | None => 0 end) none_out.
Proof.
  unfold write_pbufs. destruct b.
  - eapply out_bind; [apply out_prealloc; intros k; apply mem_ctl|]. intros [x|]; apply out_ret; done.
  - eapply out_bind; [apply out_low, mem_rom|]. intros [|]; cbn [negb]; [|by apply out_ret].
    eapply out_bind; [apply out_low, mem_ctl|]. intros [|]; [by apply out_ret|].
    eapply out_bind; [apply out_low, mem_pbufs_free|]. intros u. by apply out_ret.
Qed.

Definition queue_of (r : option queue_result) : list tcp_seg :=
  match r with Some (Queued q _ _) | Some (QueueErr q) => q | None => [] end.

(** What the third phase allocates is in the queue it leaves. *)
Lemma out_segments fuel data b f m pos q o n c :
  wp (write_segments fuel data b f m pos q o n : MC _) (fun r c' => r <> None ->
    pbufs_out (low c') = pbufs_out (low c) + (pbufs_of (queue_of r) - pbufs_of q) /\
    segs_out (low c') = segs_out (low c) + (slen (map seg_seqno (queue_of r)) - slen (map seg_seqno q))) c.
Proof.
  revert pos q o n c. induction fuel as [|fuel IH]; intros pos q o n c; cbn [write_segments];
    (destruct (negb _); [apply wp_ret; intros _; cbn [queue_of]; lia|]); [by apply wp_ret|].
  wp_call (out_pbufs (Z.min (slen data - pos) m) m b f (bool_decide (q = [])) o c) as x c1 X. unfold none_out in X.
  destruct x as [[o1 k]|]; [|apply wp_ret; intros _; cbn [queue_of] in *; lia].
  destruct (_ || _).
  { wp_call (out_low _ _ _ (mem_pbufs_free k) c1) as y c2 Y. unfold none_out in Y. apply wp_ret. intros _. cbn [queue_of] in *. lia. }
  apply wp_bind, wp_gets, wp_bind. unfold tcp_create_segment.
  wp_call (out_low _ _ _ mem_seg c1) as ok c2 Y. unfold none_out in Y. destruct ok; cbn [Z.b2z] in Y.
  - apply wp_ret. set (s := mkSeg _ _ _ _ _). eapply wp_mono; [apply IH|]. cbv beta. intros r c3 Z Hr.
    specialize (Z Hr). rewrite pbufs_app, map_app in Z. unfold slen in *. rewrite length_app in Z.
    change (pbufs_of [s]) with (k + 0) in Z. cbn [length map] in Z. lia.
  - wp_call (out_low _ _ _ (mem_pbufs_free k) c2) as z c3 Z. unfold none_out in Z. apply wp_ret, wp_ret. intros _. cbn [queue_of] in *. lia.
Qed.

Lemma out_segs_free q : out_by (tcp_segs_free q : MC unit)
  (fun _ => - pbufs_of q) (fun _ => - slen (map seg_seqno q)).
Proof.
  unfold tcp_segs_free. induction q as [|s q IH]; cbn [foldr]; [by apply out_ret|].
  eapply out_bind; [apply out_low, mem_seg_free|]. intros u c. eapply wp_mono; [apply IH|]. cbv beta.
  intros _ c' H. unfold slen in *. change (pbufs_of (s :: q)) with (seg_clen s + pbufs_of q). cbn [map length]. lia.
Qed.

(** Allocated and not in a send queue. *)
Definition stray_pbufs c : Z := pbufs_out (low c) - pbufs_of (queued (txv (pcb_ c))).
Definition stray_segs c : Z := segs_out (low c) - slen (map seg_seqno (queued (txv (pcb_ c)))).

Lemma tail_concat arg data b f m c : wp (write_tail arg data b f m : MC _) (fun w c' => untouched c c' /\
  forall w', w = Some w' -> concat_p w' = true -> unsent (txv (pcb_ c)) <> []) c.
Proof.
  apply wp_and; [apply untouched_tail|]. destruct (unsent (txv (pcb_ c))) as [|s q] eqn:E.
  - unfold write_tail. apply wp_bind, wp_gets. cbn [id]. rewrite E. apply wp_ret. by intros w' [= <-].
  - unfold wp. by destruct (write_tail arg data b f m c).
Qed.

(** Committing moves what was allocated into the queue. *)
Lemma commit_queue w data more q o n t : (concat_p w = true -> unsent t <> []) ->
  let t' := commit_write w data more q o n t in
  pbufs_of (queued t') = pbufs_of (queued t) + (if concat_p w then 1 else 0) + pbufs_of q /\
  slen (map seg_seqno (queued t')) = slen (map seg_seqno (queued t)) + slen (map seg_seqno q).
Proof.
  intros Hw t'.
  assert (Hl : forall f q, length (on_last f q) = length q).
  { intros f q0. destruct q0 as [|x l _] using rev_ind; [done|]. by rewrite on_last_snoc, !length_app. }
  assert (E1 : pbufs_of (unsent t') = pbufs_of (unsent t) + (if concat_p w then 1 else 0) + pbufs_of q).
  { rewrite <- (pbufs_no_psh (unsent t')).
    assert (Eu : map no_psh (unsent t') = map no_psh (on_last (extend_seg w data) (unsent t) ++ q)).
    { subst t'. unfold commit_write. cbn. destruct (_ && negb more); [apply on_last_no_psh|done]. }
    rewrite Eu, pbufs_no_psh, pbufs_app. destruct (unsent t) as [|x l _] using rev_ind.
    - destruct (concat_p w); [by destruct Hw|]. unfold pbufs_of. cbn. lia.
    - rewrite on_last_snoc, !pbufs_app. unfold pbufs_of. cbn. lia. }
  assert (E2 : length (unsent t') = (length (unsent t) + length q)%nat).
  { subst t'. unfold commit_write. cbn. destruct (_ && negb more); by rewrite ?Hl, length_app, Hl. }
  unfold slen, queued. rewrite !length_map, !length_app, !pbufs_app, E1, E2.
  change (unacked t') with (unacked t). lia.
Qed.

Lemma out_mem_err : out_by (mem_err : MC Z) none_out none_out.
Proof. intros c. unfold mem_err. apply wp_bind, wp_modify, wp_ret. unfold none_out. cbn. lia. Qed.
Lemma out_checks n : out_by (tcp_write_checks n : MC Z) none_out none_out.
Proof.
  unfold tcp_write_checks. apply out_gets. intros p. pose proof out_mem_err.
  repeat match goal with |- out_by (if ?b then _ else _) _ _ => destruct b end; by try apply out_ret.
Qed.

(** tcp_write neither leaks nor double-frees: whatever allocation fails, the pbufs and
    segments taken minus those given back are the ones of the send queues. *)
Theorem tcp_write_no_leak arg data copy more c :
  wp (tcp_write arg data copy more) (fun r c' => r <> None ->
    stray_pbufs c' = stray_pbufs c /\ stray_segs c' = stray_segs c) c.
Proof.
  assert (Hret : forall (r : option Z) c', untouched c c' -> pbufs_out (low c') = pbufs_out (low c) ->
    segs_out (low c') = segs_out (low c) -> wp (ret r : MC _) (fun r c' => r <> None ->
      stray_pbufs c' = stray_pbufs c /\ stray_segs c' = stray_segs c) c').
  { intros r c' U H1 H2. apply wp_ret. intros _. unfold stray_pbufs, stray_segs.
    by rewrite H1, H2, (untouched_txv _ _ U). }
  unfold tcp_write. apply wp_bind, wp_gets. cbn [id]. destruct (arg =? 0); [by apply Hret|].
  wp_call (wp_and _ _ _ _ (out_checks (slen data) c) (untouched_checks (slen data) c)) as e c1 X.
  destruct X as [[X1 X2] U1]. unfold none_out in X1, X2. destruct (negb _); [apply Hret; lia || done|].
  wp_call (wp_and _ _ _ _ (out_tail arg data copy more (write_mss (pcb_ c)) c1)
    (tail_concat arg data copy more (write_mss (pcb_ c)) c1)) as w c2 X.
  destruct X as [[X3 X4] [U2 Hw]]. unfold none_out in X4.
  destruct w as [w|].
  2: { wp_call (wp_and _ _ _ _ (out_mem_err c2) (untouched_mem_err c2)) as e2 c3 X. destruct X as [[X5 X6] U3].
       unfold none_out in X5, X6. apply Hret; [do 2 (etrans; [eassumption|]); done|lia..]. }
  specialize (Hw _ eq_refl). rewrite (untouched_txv _ _ U1) in Hw.
  wp_call (wp_and _ _ _ _ (out_segments write_fuel data copy more (write_mss (pcb_ c)) (oversize_used w + tail_len w)
    [] (t_oversize w) (t_queuelen w) c2) (untouched_segments _ _ _ _ _ _ _ _ _ c2)) as r c3 X.
  destruct X as [X5 U3]. assert (U : untouched c c3) by (do 2 (etrans; [eassumption|]); done).
  change (pbufs_of []) with 0 in X5. change (slen (map seg_seqno [])) with 0 in X5.
  destruct r as [[q o n|q]|]; [| |by apply wp_ret]; specialize (X5 ltac:(done)); cbn [queue_of] in X5.
  - apply wp_bind, wp_modify, wp_ret. intros _. unfold stray_pbufs, stray_segs. cbn [low pcb_ txv upd].
    destruct (commit_queue w data more q o n (txv (pcb_ c)) Hw) as [Q1 Q2].
    rewrite (untouched_txv _ _ U). cbn. cbn in Q1, Q2. lia.
  - wp_call (wp_and _ _ _ _ (out_mem_err c3) (untouched_mem_err c3)) as e2 c4 X. destruct X as [[X7 X8] U4].
    unfold none_out in X7, X8. apply wp_bind.
    apply (wp_mono _ (fun _ c5 => untouched c c5 /\ segs_out (low c5) = segs_out (low c4) /\
      pbufs_out (low c5) = pbufs_out (low c4) - (if concat_p w then 1 else 0))).
    { assert (U5 : untouched c c4) by (by etrans). destruct (concat_p w); [|apply wp_ret; split; [done|lia]].
      eapply wp_mono; [exact (wp_and _ _ _ _ (out_low _ _ _ (mem_pbufs_free 1) c4) (untouched_low _ c4))|].
      cbv beta. unfold none_out. intros u c5 [Y1 Y2]. split; [by etrans|lia]. }
    cbv beta. intros u c5 (U5 & Y1 & Y2).
    wp_call (wp_and _ _ _ _ (out_segs_free q c5) (untouched_segs_free q c5)) as v c6 X. destruct X as [Y3 U6].
    apply Hret; [by etrans|lia..].
Qed.
End Ledger.

(** ** What a write does *)
Section Enqueue.
Context {L : Type} `{!TcpLower L}.
Implicit Types (c : tcp_core L).

Lemma no_psh_data q : map seg_data (map no_psh q) = map seg_data q.
Proof. by rewrite map_map. Qed.

Lemma grown_bytes m data d tail tail' : grown m data d tail tail' ->
  concat (map seg_data tail') = concat (map seg_data tail) ++ sub data 0 d.
Proof.
  destruct tail as [|s [|]], tail' as [|s' [|]]; try done; cbn; [by intros ->|].
  intros (-> & _). cbn. by rewrite !app_nil_r.
Qed.

Lemma appended_bytes m data t t' : appended m data t t' ->
  concat (map seg_data (unsent t')) = concat (map seg_data (unsent t)) ++ data.
Proof.
  intros [(d & old & tail & tail' & new & E & _ & G & Hd & _ & Hc & Eu) _ _ _ _ _].
  rewrite <- (no_psh_data (unsent t')), Eu, no_psh_data, E, !map_app, !concat_app.
  rewrite (grown_bytes _ _ _ _ _ G), (cut_bytes _ _ _ _ _ _ Hc) by lia.
  rewrite <- !app_assoc, sub_app, sub_0 by lia. unfold slen. by rewrite take_ge by lia.
Qed.

(** C17. tcp_write always returns, as long as the last unsent segment is not longer than
    the segments may be now (a smaller segment size announced later breaks this, see
    Example write_space_wraps): when it succeeds, the bytes of data are appended to
    those of the unsent segments, cut into segments of at most the segment size with the
    sequence numbers that follow, and the counts of free buffer and queued pbufs stay
    exact and within their limits; otherwise nothing of the connection has changed but a
    flag. *)
Theorem tcp_write_enqueues arg data copy more c : let p := pcb_ c in
  slen data <= 65535 -> 0 < write_mss p <= 65535 -> 0 <= snd_queuelen (txv p) ->
  0 <= snd_buf (txv p) <= 65535 -> tail_fits p ->
  wp (tcp_write arg data copy more) (fun r c' => written data r c c' /\
    (r = Some ERR_OK -> concat (map seg_data (unsent (txv (pcb_ c')))) =
                        concat (map seg_data (unsent (txv p))) ++ data)) c.
Proof.
  intros p Hd Hm Hq Hb Hf. eapply wp_mono; [by apply write_spec|]. cbv beta. intros r c' W. split; [done|].
  intros ->. destruct W as (e & [= <-] & _ & W). destruct (W eq_refl) as (_ & c1 & _ & A & _).
  by eapply appended_bytes.
Qed.
End Enqueue.

(** ** Runs *)

(** A layer below with a limited number of pbufs. *)
Definition take_pbuf : M (Z * Z) bool :=
  l <- gets id ;; if fst l <? 5 then modify (fun l => (fst l + 1, snd l)) ;;; ret true else ret false.
#[export] Instance counting_lower : TcpLower (Z * Z) := {
  ip_route := ret (Some 1500);
  ip_output_if w := ret ERR_OK;
  hdr_alloc n := ret true;
  ctl_alloc n := take_pbuf;
  raw_alloc n := take_pbuf;
  rom_alloc := take_pbuf;
  rom_follows a s := ret false;
  pbufs_free n := modify (fun l => (fst l - n, snd l));
  seg_alloc := modify (fun l => (fst l, snd l + 1)) ;;; ret true;
  seg_busy s := ret false;
  tcp_seg_free s := modify (fun l => (fst l - seg_clen s, snd l - 1));
  chain_free p := ret tt;
  pcb_memp_malloc := ret true;
  pcb_memp_free := ret tt
}.
#[export] Instance counting_mem : TcpMem (Z * Z) := { pbufs_out := fst; segs_out := snd }.
#[export] Instance counting_laws : TcpMemLaws (L := Z * Z).
Proof.
  assert (Ha : takes_out take_pbuf Z.b2z none_out).
  { intros l. unfold take_pbuf. apply wp_bind, wp_gets. cbn [id]. case_match; [apply wp_bind, wp_modify|]; apply wp_ret; unfold none_out; cbn; lia. }
  constructor; intros; try exact Ha; intros l; unfold none_out, wp; cbn -[Z.add Z.sub]; lia.
Qed.

(** An established connection with an empty send queue and a segment size of 4. *)
Definition writing {L} (l : L) (q : list tcp_seg) (oversize : Z) : tcp_core L :=
  let p := new_pcb 0 in
  mkCore (p <| state := ESTABLISHED |>
            <| txv := (txv p) <| snd_lbb := 100 |> <| snd_nxt := 100 |> <| lastack := 100 |>
                 <| snd_wnd_max := 2920 |> <| unsent := q |> <| unsent_oversize := oversize |>
                 <| snd_queuelen := pbufs_of q |> |>
            <| cgv := (cgv p) <| mss := 4 |> |>)
    PCB_ACTIVE false 0 (mkInFlags false false false) 0 None false 0 l.

Definition queue_of_write {L} (x : option Z * tcp_core L) :=
  (x.1, map (fun s => (seg_seqno s, seg_data s, TCP_PSH (seg_hdr s))) (unsent (txv (pcb_ x.2)))).
(** Ten bytes in three segments, the last with room for two more; two bytes for that room,
    and one for a new segment. *)
Example write_ten :
  let x := tcp_write 1 [1; 2; 3; 4; 5; 6; 7; 8; 9; 10] true false (writing (L := list tcp_wire) [] [] 0) in
  queue_of_write x = (Some ERR_OK, [(100, [1; 2; 3; 4], false); (104, [5; 6; 7; 8], false); (108, [9; 10], true)]) /\
  unsent_oversize (txv (pcb_ x.2)) = 2 /\
  queue_of_write (tcp_write 1 [11; 12; 13] true true x.2) =
    (Some ERR_OK, [(100, [1; 2; 3; 4], false); (104, [5; 6; 7; 8], false); (108, [9; 10; 11; 12], true);
                   (112, [13], false)]).
Proof. vm_compute. done. Qed.

Lemma tcp_write_enqueues_witness : let c := writing (L := list tcp_wire) [] [sim_seg 96] 0 in
  let data := [1; 2; 3; 4; 5] in
  wp (tcp_write 1 data false false) (fun r c' => written data r c c' /\
    (r = Some ERR_OK -> concat (map seg_data (unsent (txv (pcb_ c')))) = [1; 2; 3; 4] ++ data)) c.
Proof.
  intros c data. apply (tcp_write_enqueues 1 data false false c); subst c data; repeat split; vm_compute; discriminate || reflexivity.
Defined.

(** The sixth pbuf is refused: the five that were allocated are given back. *)
Example write_refused :
  let x := tcp_write 1 (replicate 24 7) true false (writing (0, 0) [] 0) in x.1 = Some ERR_MEM /\ low x.2 = (0, 0).
Proof. vm_compute. done. Qed.
Lemma tcp_write_no_leak_witness : let c := writing (0, 0) [] 0 in
  wp (tcp_write 1 (replicate 24 7) true false) (fun r c' => r <> None ->
    stray_pbufs c' = stray_pbufs c /\ stray_segs c' = stray_segs c) c.
Proof. intros c. apply (tcp_write_no_leak 1 (replicate 24 7) true false c). Defined.

(** ** Two departures

    While a fast retransmission waits to be sent, the last unsent segment is not the end of
    the stream.  New bytes are chained to it all the same. *)
Definition ack_window (w : Z) : tcp_inseg := mkIn (no_flags <| TCP_ACK := true |>) 1 6511 w [] [].
Definition one_byte : tcp_inseg := mkIn (no_flags <| TCP_ACK := true |>) 0 6511 2920 [] [[33]].
Definition write_out (data : list Z) : M (tcp_sys (list tcp_wire) sink) unit :=
  on_core (tcp_write 1 data true false ;;; tcp_output ;;; ret tt).
(** Two small segments are in flight; the peer sends a byte, closes its window and repeats the
    acknowledgement three times; a write; then the window opens. *)
Definition rexmit_run : list (list tcp_wire) :=
  let s := run_segs [seg_syn; seg_ack] idle_sys in
  let s := (on_core (set_flags (fun f => f <| TF_NODELAY := true |>)) s).2 in
  let s := (write_out [5; 6; 7; 8] (write_out [1; 2; 3; 4] s).2).2 in
  let s1 := run_segs [one_byte; ack_window 0; ack_window 0; ack_window 0; ack_window 0] s in
  let s2 := run_segs [ack_window 2920] (write_out [9; 10] s1).2 in
  [low (core s); low (core s2)].

(** A write while a fast retransmission waits for the window of the peer corrupts the
    stream: of the ten bytes 1 to 10, the positions of 5 and 6 are sent again with the
    bytes 9 and 10, which were written last. *)
Theorem write_after_rexmit :
  map (fun l => map (fun w => (w_seqno w, w_data w)) (filter (fun w => w_data w <> []) l)) rexmit_run =
  [[(6511, [1; 2; 3; 4]); (6515, [5; 6; 7; 8])];
   [(6511, [1; 2; 3; 4]); (6515, [5; 6; 7; 8]); (6511, [1; 2; 3; 4; 9; 10])]].
Proof. vm_compute. reflexivity. Qed.

(** The segment size went down after the last segment was queued (the peer announced a
    smaller one in its SYN): the space left wraps around and the segment grows beyond it. *)
Example write_space_wraps :
  let c := writing (L := list tcp_wire) [] [(sim_seg 92) <| seg_data := replicate 8 0 |>] 0 in
  let x := tcp_write 1 (replicate 100 1) true false c in
  write_mss (pcb_ c) = 4 /\ x.1 = Some ERR_OK /\ map seg_len (unsent (txv (pcb_ x.2))) = [108].
Proof. vm_compute. done. Qed.
