(* ===== verification/TcpTx.v ===== *)
(** * TCP transmission: the segments carry the stream that was written

    The bytes that [tcp_write] accepted, one after the other, are the stream of the
    connection.  Every segment queued or sent carries the slice of it at the position its
    sequence number says, however segments are retransmitted, split over the window or
    acknowledged; the FIN is behind the last byte. *)
From S2P Require Import Prelude Net Tcp TcpIn TcpRcv TcpStream SimTcp TcpSend TcpWrite.

(** What was given to IP. *)
Class TcpWires (L : Type) := { wires : L -> list tcp_wire }.

Section Pieces.
Context (str : list Z) (irs : Z).

(** A queued segment and its position; the SYN is before the stream. *)
Record piece (s : tcp_seg) (pos : Z) : Prop := {
  pc_seq : seg_seqno s = seq_of irs pos;
  pc_data : seg_data s = sub str pos (pos + seg_len s);
  pc_range : -1 <= pos /\ pos + seg_len s <= slen str;
  pc_syn : if TCP_SYN (seg_hdr s) then pos = -1 /\ seg_len s = 0 else 0 <= pos;
  pc_fin : TCP_FIN (seg_hdr s) = true -> TCP_SYN (seg_hdr s) = false /\ pos + seg_len s = slen str;
  pc_rst : TCP_RST (seg_hdr s) = false;
  pc_len : seg_len s < 65535
}.
Definition is_piece (s : tcp_seg) : Prop := exists pos, piece s pos.

(** What may be given to IP: resets, the SYN, acknowledgements alone, and slices. *)
Definition wire_ok (w : tcp_wire) : Prop :=
  TCP_RST (w_hdr w) = true \/
  (TCP_SYN (w_hdr w) = true /\ TCP_FIN (w_hdr w) = false /\ w_data w = [] /\ w_seqno w = seq_of irs (-1)) \/
  (TCP_SYN (w_hdr w) = false /\ TCP_FIN (w_hdr w) = false /\ w_data w = []) \/
  exists pos, TCP_SYN (w_hdr w) = false /\ w_seqno w = seq_of irs pos /\ 0 <= pos /\
    pos + slen (w_data w) <= slen str /\ w_data w = sub str pos (pos + slen (w_data w)) /\
    slen (w_data w) < 65535 /\ (TCP_FIN (w_hdr w) = true -> pos + slen (w_data w) = slen str).

Lemma piece_wire s pos r m : piece s pos ->
  wire_ok (mkWire (seg_seqno s) (rcv_nxt r) (seg_hdr s) (rcv_ann_wnd r) m (seg_data s)).
Proof.
  intros []. unfold wire_ok. cbn. destruct (TCP_SYN (seg_hdr s)) eqn:Es.
  - right. left. destruct pc_syn0 as [-> E]. split; [done|]. split.
    { destruct (TCP_FIN (seg_hdr s)); [|done]. by destruct pc_fin0. }
    split; [|done]. unfold seg_len in E. by destruct (seg_data s).
  - do 3 right. exists pos. unfold seg_len, slen in *. destruct pc_range0 as [R1 R2]. repeat (split; [done|]). intros F%pc_fin0. apply F.
Qed.

Lemma as_sent_piece s pos : piece s pos -> piece (as_sent s) pos.
Proof. intros []. by constructor. Qed.

(** The send variables; [fin]: the FIN was queued. *)
Record snd_ok (fin : bool) (t : snd_vars) : Prop := {
  so_segs : Forall is_piece (queued t);
  so_lbb : fin = false -> snd_lbb t = seq_of irs (slen str);
  so_fin : fin = false -> Forall (fun s => TCP_FIN (seg_hdr s) = false) (queued t);
  so_u16 : 0 <= snd_queuelen t /\ 0 <= snd_buf t <= 65535
}.
End Pieces.

(** ** The invariant of a connection *)
Section Tx.
Context {L : Type} `{!TcpLower L} `{!TcpWires L}.
#[local] Abbreviation MC := (M (tcp_core L)).
Implicit Types (c : tcp_core L).

Definition same_wires (l l' : L) : Prop := wires l' = wires l.
#[export] Instance same_wires_preorder : PreOrder same_wires.
Proof. split; [by intros l|intros a b d; unfold same_wires; congruence]. Qed.

Class TcpWireLaws : Prop := {
  wl_send w l : wp (ip_output_if w) (fun _ l' => wires l' = wires l \/ wires l' = wires l ++ [w]) l;
  wl_route : frames same_wires ip_route;
  wl_hdr n : frames same_wires (hdr_alloc n);
  wl_ctl n : frames same_wires (ctl_alloc n);
  wl_raw n : frames same_wires (raw_alloc n);
  wl_rom : frames same_wires rom_alloc;
  wl_follows a s : frames same_wires (rom_follows a s);
  wl_free n : frames same_wires (pbufs_free n);
  wl_seg : frames same_wires seg_alloc;
  wl_busy s : frames same_wires (seg_busy s);
  wl_seg_free s : frames same_wires (tcp_seg_free s);
  wl_chain p : frames same_wires (chain_free p);
  wl_malloc : frames same_wires pcb_memp_malloc;
  wl_mfree : frames same_wires pcb_memp_free
}.
Context {WL : TcpWireLaws} (str : list Z) (irs : Z) (sent0 : list tcp_wire).
#[local] Abbreviation wire_ok := (wire_ok str irs).
#[local] Abbreviation is_piece := (is_piece str irs).
#[local] Abbreviation snd_ok := (snd_ok str irs).

Definition fin_queued c : bool := TF_FIN (flags (pcb_ c)).

(** [w] may be sent now: no FIN before it was queued. *)
Definition may_send (fin : bool) (w : tcp_wire) : Prop := wire_ok w /\ (fin = false -> TCP_FIN (w_hdr w) = false).

Record tx_ok c : Prop := {
  to_snd : snd_ok (fin_queued c) (txv (pcb_ c));
  to_wires : exists new, wires (low c) = sent0 ++ new /\ Forall (may_send (fin_queued c)) new;
  to_mss : 0 <= mss (cgv (pcb_ c)) <= TCP_MSS
}.

(** Nothing of the send queues changes; segments that may be sent are. *)
Record sends c c' : Prop := {
  ss_tx : txv (pcb_ c') = txv (pcb_ c);
  ss_fin : fin_queued c' = fin_queued c;
  ss_mss : mss (cgv (pcb_ c')) = mss (cgv (pcb_ c));
  ss_wires : exists new, wires (low c') = wires (low c) ++ new /\ Forall (may_send (fin_queued c)) new
}.
#[export] Instance sends_preorder : PreOrder sends.
Proof.
  split.
  - intros c. constructor; try done. exists []. by rewrite app_nil_r.
  - intros a b d [A1 A2 A3 (n1 & A4 & A5)] [B1 B2 B3 (n2 & B4 & B5)]. constructor; try congruence.
    exists (n1 ++ n2). rewrite B4, A4, app_assoc. split; [done|]. rewrite A2 in B5. by apply Forall_app.
Qed.

Lemma sends_ok c c' : sends c c' -> tx_ok c -> tx_ok c'.
Proof.
  intros [A1 A2 A3 (n1 & A4 & A5)] [H1 (n & H2 & H3) H4]. constructor; rewrite ?A1, ?A2, ?A3; try done.
  exists (n ++ n1). rewrite A4, H2, app_assoc. split; [done|]. by apply Forall_app.
Qed.

(** ** Primitive operations *)
Lemma sends_low {A} (m : M L A) : frames same_wires m -> frames sends (on_low m).
Proof.
  intros H c. specialize (H (low c)). unfold wp, on_low in *. destruct (m (low c)) as [a l].
  constructor; try done. exists []. by rewrite app_nil_r.
Qed.
Lemma sends_modify (f : tcp_core L -> tcp_core L) :
  (forall c, txv (pcb_ (f c)) = txv (pcb_ c) /\ fin_queued (f c) = fin_queued c /\
     mss (cgv (pcb_ (f c))) = mss (cgv (pcb_ c)) /\ low (f c) = low c) -> frames sends (modify f).
Proof.
  intros H c. apply wp_modify. destruct (H c) as (H1 & H2 & H3 & H4). constructor; try done.
  exists []. by rewrite H4, app_nil_r.
Qed.
Lemma sends_flags f : (forall x, TF_FIN (f x) = TF_FIN x) -> frames sends (set_flags f : MC unit).
Proof. intros H. apply sends_modify. intros c. unfold fin_queued. cbn. by rewrite H. Qed.
Lemma sends_cc f : (forall x, mss (f x) = mss x) -> frames sends (set_cc f : MC unit).
Proof. intros H. apply sends_modify. intros c. unfold fin_queued. cbn. by rewrite H. Qed.
Lemma sends_rx f : frames sends (set_rx f : MC unit).
Proof. by apply sends_modify. Qed.
Lemma sends_state st : frames sends (set_state st : MC unit).
Proof. by apply sends_modify. Qed.
Lemma sends_list l : frames sends (set_list l : MC unit).
Proof. by apply sends_modify. Qed.
Lemma sends_pcb {A} (f : tcp_pcb -> A) : frames sends (pcb f : MC A).
Proof. apply frames_gets, _. Qed.
Lemma sends_get_rx {A} (f : rcv_vars -> A) : frames sends (rx f : MC A).
Proof. apply frames_gets, _. Qed.
Lemma sends_get_tx {A} (f : snd_vars -> A) : frames sends (tx f : MC A).
Proof. apply frames_gets, _. Qed.
Lemma sends_get_cc {A} (f : cong_vars -> A) : frames sends (cc f : MC A).
Proof. apply frames_gets, _. Qed.
Lemma sends_set_pcb f : (forall p, txv (f p) = txv p /\ TF_FIN (flags (f p)) = TF_FIN (flags p) /\
  mss (cgv (f p)) = mss (cgv p)) -> frames sends (set_pcb f : MC unit).
Proof. intros H. apply sends_modify. intros c. destruct (H (pcb_ c)) as (H1 & H2 & H3). done. Qed.

(** One segment is given to IP. *)
Lemma sends_wire w c : may_send (fin_queued c) w -> wp (on_low (ip_output_if w)) (fun _ c' => sends c c') c.
Proof.
  intros H. pose proof (wl_send w (low c)) as Hw. unfold wp, on_low in *. destruct (ip_output_if w (low c)) as [e l].
  constructor; try done. destruct Hw as [E|E]; [exists []; by rewrite app_nil_r|exists [w]; split; [done|]].
  by apply Forall_singleton.
Qed.
End Tx.
#[export] Hint Resolve wl_route wl_hdr wl_ctl wl_raw wl_rom wl_follows wl_free wl_seg wl_busy wl_seg_free
  wl_chain wl_malloc wl_mfree sends_low sends_rx sends_state sends_list sends_pcb sends_get_rx sends_get_tx
  sends_get_cc : frames.
#[export] Hint Extern 2 (frames (sends _ _) (set_flags _)) =>
  (apply sends_flags; let x := fresh "x" in intros x; cbn; repeat case_match; reflexivity) : frames.
#[export] Hint Extern 2 (frames (sends _ _) (set_cc _)) =>
  (apply sends_cc; let x := fresh "x" in intros x; cbn; repeat case_match; reflexivity) : frames.
#[export] Hint Extern 2 (frames (sends _ _) (set_pcb _)) =>
  (apply sends_set_pcb; let x := fresh "x" in intros x; cbn; repeat case_match; done) : frames.
#[export] Hint Extern 2 (frames (sends _ _) (modify _)) =>
  (apply sends_modify; let x := fresh "x" in intros x; cbn; repeat case_match; done) : frames.

(** ** Output *)
Section Output.
Context {L : Type} `{!TcpLower L} `{!TcpWires L} {WL : TcpWireLaws}.
Context (str : list Z) (irs : Z) (sent0 : list tcp_wire).
#[local] Abbreviation MC := (M (tcp_core L)).
Implicit Types (c : tcp_core L).
#[local] Abbreviation sends := (sends str irs).
#[local] Abbreviation may_send := (may_send str irs).
#[local] Abbreviation tx_ok := (tx_ok str irs sent0).
#[local] Abbreviation piece := (piece str irs).

(** An acknowledgement alone. *)
Definition bare (w : tcp_wire) : Prop :=
  TCP_SYN (w_hdr w) = false /\ TCP_FIN (w_hdr w) = false /\ w_data w = [].
Lemma bare_may fin w : bare w -> may_send fin w.
Proof. intros (H1 & H2 & H3). split; [|done]. right. right. by left. Qed.

Lemma alloc_header_sends o d n c : wp (tcp_output_alloc_header o d n) (fun w c' => sends c c' /\
  forall w', w = Some w' -> bare w' /\ w_seqno w' = n /\ TCP_RST (w_hdr w') = false) c.
Proof.
  unfold tcp_output_alloc_header, announce_window. wp_call (sends_low str irs _ (wl_hdr (u16 (TCP_HLEN + o + d))) c) as ok c1 S1.
  destruct ok; [|by apply wp_ret]. apply wp_bind, wp_gets. wp_call (sends_rx str irs _ c1) as u c2 S2. apply wp_ret.
  split; [by etrans|]. by intros w' [= <-].
Qed.

Lemma header_sends w c : may_send (fin_queued c) w -> wp (send_header w) (fun _ c' => sends c c') c.
Proof.
  intros H. unfold send_header. wp_call (sends_low str irs _ wl_route c) as nif c1 S1.
  apply wp_bind. apply (wp_mono _ (fun _ c2 => sends c c2)).
  - destruct nif; [|by apply wp_ret]. eapply wp_mono; [apply sends_wire; by rewrite (ss_fin _ _ _ _ S1)|].
    cbv beta. intros _ c2 S2. by etrans.
  - cbv beta. intros e c2 S2. wp_call (sends_low str irs _ (wl_free 1) c2) as u c3 S3. apply wp_ret. by etrans.
Qed.

Lemma empty_ack_sends : frames sends (tcp_send_empty_ack : MC Z).
Proof.
  intros c. unfold tcp_send_empty_ack. apply wp_bind, wp_gets.
  wp_call (alloc_header_sends 0 0 (snd_nxt (txv (pcb_ c))) c) as w c1 X. destruct X as [S1 Hw]. destruct w as [w|].
  - destruct (Hw w eq_refl) as [Hb _]. wp_call (header_sends w c1 (bare_may _ _ Hb)) as e c2 S2.
    assert (F : frames sends (set_flags (if negb (e =? ERR_OK) then retry_ack else acks_sent) ;;; ret e : MC Z)).
    { destruct (negb _); solve_frames. }
    eapply wp_mono; [apply F|]. cbv beta. intros _ c3 S3. do 2 (etrans; [eassumption|]). done.
  - assert (F : frames sends (set_flags retry_ack ;;; ret ERR_BUF : MC Z)) by solve_frames.
    eapply wp_mono; [apply F|]. cbv beta. intros _ c3 S3. by etrans.
Qed.

Lemma rst_sends a b : frames sends (tcp_rst a b : MC unit).
Proof.
  intros c. unfold tcp_rst. wp_call (sends_low str irs _ (wl_hdr TCP_HLEN) c) as ok c1 S1.
  destruct ok; [|by apply wp_ret]. apply wp_bind. eapply wp_mono.
  { apply header_sends. split; [by left|done]. }
  cbv beta. intros e c2 S2. apply wp_ret. by etrans.
Qed.

Lemma eff_mss_sends m : frames sends (tcp_eff_send_mss m : MC Z).
Proof. unfold tcp_eff_send_mss. solve_frames. Qed.

Lemma segment_sends s pos c : piece s pos -> (fin_queued c = false -> TCP_FIN (seg_hdr s) = false) ->
  wp (tcp_output_segment s) (fun _ c' => sends c c') c.
Proof.
  intros Hp Hf. unfold tcp_output_segment, announce_window.
  wp_call (sends_low str irs _ (wl_busy s) c) as b c1 S1. destruct b; [by apply wp_ret|].
  apply wp_bind, wp_gets. wp_call (sends_rx str irs (fun r => r <| rcv_ann_right_edge := rcv_nxt r +% rcv_ann_wnd r |>) c1) as u c2 S2.
  assert (S2' : sends c c2) by (by etrans). apply wp_bind. apply (wp_mono _ (fun _ c3 => sends c c3)).
  { destruct (opts_mss s); [|by apply wp_ret]. wp_call (eff_mss_sends TCP_MSS c2) as m c3 S3. apply wp_ret. by etrans. }
  cbv beta. intros m c3 S3.
  assert (F : forall k, frames sends (set_cc (fun c : cong_vars => if rtime c <? 0 then c <| rtime := 0 |> else c) ;;;
     ticks <- gets tcp_ticks ;;
     set_cc (fun c : cong_vars => if rttest c =? 0 then c <| rttest := ticks |> <| rtseq := k |> else c) : MC unit)).
  { intros k. solve_frames. }
  specialize (F (seg_seqno s) c3). unfold wp, bind in F |- *. destruct (set_cc _ c3) as [v c4].
  cbn [gets] in F |- *. destruct (set_cc _ c4) as [v2 c5]. assert (S5 : sends c c5) by (by etrans).
  pose proof (sends_wire str irs (mkWire (seg_seqno s) (rcv_nxt (id (rxv (pcb_ c1)))) (seg_hdr s)
    (rcv_ann_wnd (id (rxv (pcb_ c1)))) m (seg_data s)) c5) as W. unfold wp in W.
  destruct (on_low _ c5) as [e c6]. etrans; [exact S5|]. apply W. split; [by eapply piece_wire|].
  intros H. apply Hf. by rewrite <- (ss_fin _ _ _ _ S5).
Qed.
End Output.
#[export] Hint Resolve empty_ack_sends rst_sends eff_mss_sends : frames.

Section Queues.
Context {L : Type} `{!TcpLower L} `{!TcpWires L} {WL : TcpWireLaws}.
Context (str : list Z) (irs : Z) (sent0 : list tcp_wire).
#[local] Abbreviation MC := (M (tcp_core L)).
Implicit Types (c : tcp_core L).
#[local] Abbreviation sends := (sends str irs).
#[local] Abbreviation tx_ok := (tx_ok str irs sent0).
#[local] Abbreviation snd_ok := (snd_ok str irs).
#[local] Abbreviation is_piece := (is_piece str irs).

(** What every step of the stack keeps. *)
Definition keeps_tx c c' : Prop := tx_ok c -> tx_ok c'.
#[export] Instance keeps_tx_preorder : PreOrder keeps_tx.
Proof. split; [by intros c H|intros a b d; unfold keeps_tx; auto]. Qed.

Lemma keeps_sends {A} (m : MC A) : frames sends m -> frames keeps_tx m.
Proof. apply frames_mono. intros c c' S H. by eapply sends_ok. Qed.

Lemma tx_ok_set f c : tx_ok c ->
  (forall fin, snd_ok fin (txv (pcb_ c)) -> snd_ok fin (f (txv (pcb_ c)))) ->
  tx_ok (c <| pcb_ := (pcb_ c) <| txv := f (txv (pcb_ c)) |> |>).
Proof. intros [H1 H2 H3] H. constructor; [by apply H|done..]. Qed.
Lemma keeps_set_tx f : (forall fin t, snd_ok fin t -> snd_ok fin (f t)) -> frames keeps_tx (set_tx f : MC unit).
Proof.
  intros H c. apply wp_modify. intros [H1 H2 H3]. constructor; [by apply H|done..].
Qed.

(** The queue may lose segments and be reordered, and segments get the ACK flag. *)
Definition from_queue (q q' : list tcp_seg) : Prop := forall x, x ∈ q' -> exists y, y ∈ q /\ (x = y \/ x = as_sent y).
Lemma snd_ok_queue fin t t' : snd_ok fin t -> from_queue (queued t) (queued t') -> snd_lbb t' = snd_lbb t ->
  0 <= snd_queuelen t' /\ 0 <= snd_buf t' <= 65535 -> snd_ok fin t'.
Proof.
  intros [H1 H2 H3 H4] Hs Hl Hu. constructor; rewrite ?Hl; auto.
  - rewrite Forall_forall in *. intros x Hx. destruct (Hs x Hx) as (y & Hy & [-> | ->]); [auto|].
    destruct (H1 y Hy) as [pos Hp]. exists pos. by apply as_sent_piece.
  - intros E. specialize (H3 E). rewrite Forall_forall in *. intros x Hx.
    destruct (Hs x Hx) as (y & Hy & [-> | ->]); [auto|]. apply (H3 y Hy).
Qed.
Lemma from_subset q q' : (forall x, x ∈ q' -> x ∈ q) -> from_queue q q'.
Proof. intros H x Hx. exists x. auto. Qed.

(** A segment that is on its way from one queue to the other. *)
Definition in_transit c (s : tcp_seg) : Prop := is_piece s /\ (fin_queued c = false -> TCP_FIN (seg_hdr s) = false).
Lemma queued_transit c s : tx_ok c -> s ∈ queued (txv (pcb_ c)) -> in_transit c s.
Proof.
  intros [[H1 H2 H3 H4] _ _] Hs. rewrite Forall_forall in H1. split; [auto|]. intros E. specialize (H3 E).
  rewrite Forall_forall in H3. auto.
Qed.

Lemma transit_sends c c' s : sends c c' -> in_transit c s -> in_transit c' s.
Proof. intros S [T1 T2]. split; [done|]. intros E. apply T2. by rewrite <- (ss_fin _ _ _ _ S). Qed.

(** The steps of [tcp_output_loop] on the queues. *)
#[local] Abbreviation set_txv c t := (c <| pcb_ := (pcb_ c) <| txv := t |> |>).
Lemma ok_head c seg rest x : tx_ok c -> unsent (txv (pcb_ c)) = seg :: rest -> x = seg \/ x = as_sent seg ->
  tx_ok (set_txv c ((txv (pcb_ c)) <| unsent := x :: rest |>)).
Proof.
  intros Hc E Hx. apply (tx_ok_set (fun t => t <| unsent := x :: rest |>)); [done|]. intros fin Hf.
  apply (snd_ok_queue fin (txv (pcb_ c))); [done| |done|apply Hf].
  unfold queued. cbn. rewrite E. intros y Hy. apply elem_of_app in Hy as [Hy|Hy].
  - exists y. split; [apply elem_of_app; by left|by left].
  - apply elem_of_cons in Hy as [->|Hy]; [exists seg|exists y]; (split; [apply elem_of_app; right|auto]);
      apply elem_of_cons; auto.
Qed.
Lemma ok_rest c seg rest : tx_ok c -> unsent (txv (pcb_ c)) = seg :: rest ->
  tx_ok (set_txv c ((txv (pcb_ c)) <| unsent := rest |>)).
Proof.
  intros Hc E. apply (tx_ok_set (fun t => t <| unsent := rest |>)); [done|]. intros fin Hf.
  apply (snd_ok_queue fin (txv (pcb_ c))); [done| |done|apply Hf].
  apply from_subset. unfold queued. cbn. rewrite E. intros x. rewrite !elem_of_app, elem_of_cons. tauto.
Qed.
Lemma ok_nxt c n : tx_ok c ->
  tx_ok (set_txv c (if TCP_SEQ_LT (snd_nxt (txv (pcb_ c))) n then (txv (pcb_ c)) <| snd_nxt := n |> else txv (pcb_ c))).
Proof.
  intros Hc. apply (tx_ok_set (fun t => if TCP_SEQ_LT (snd_nxt t) n then t <| snd_nxt := n |> else t)); [done|].
  intros fin [H1 H2 H3 H4]. case_match; by constructor.
Qed.
Lemma ok_enqueue c s : tx_ok c -> in_transit c s ->
  tx_ok (set_txv c ((txv (pcb_ c)) <| unacked := enqueue_unacked s (unacked (txv (pcb_ c))) |>)).
Proof.
  intros [H1 H2 H3] [T1 T2]. constructor; [|done..]. destruct H1 as [G1 G2 G3 G4].
  assert (Hq : forall P, P s -> Forall P (queued (txv (pcb_ c))) ->
    Forall P (queued ((txv (pcb_ c)) <| unacked := enqueue_unacked s (unacked (txv (pcb_ c))) |>))).
  { intros P Hs H. unfold queued in *. cbn. rewrite enqueue_perm. apply Forall_cons. by split. }
  constructor; auto.
Qed.

Lemma loop_ok fuel wnd c : tx_ok c -> wp (tcp_output_loop fuel wnd : MC _) (fun _ c' => tx_ok c') c.
Proof.
  revert c. induction fuel as [|fuel IH]; intros c Hc; cbn [tcp_output_loop]; [by apply wp_ret|].
  apply wp_bind, wp_gets. cbn [id]. destruct (unsent (txv (pcb_ c))) as [|seg rest] eqn:E; [by apply wp_ret|].
  destruct (negb _); [by apply wp_ret|]. destruct (_ && negb _); [by apply wp_ret|].
  set (seg' := if bool_decide (state (pcb_ c) = SYN_SENT) then seg else _). cbv zeta.
  assert (Hs' : seg' = seg \/ seg' = as_sent seg) by (subst seg'; case_match; auto).
  clearbody seg'. pose proof (ok_head c seg rest seg' Hc E Hs') as H1. apply wp_bind, wp_modify.
  set (c1 := set_txv c _) in H1. change (c <| pcb_ := _ |>) with c1.
  assert (E1 : unsent (txv (pcb_ c1)) = seg' :: rest) by done. clearbody c1.
  assert (Ht : in_transit c1 seg').
  { eapply queued_transit; [exact H1|]. unfold queued. rewrite E1. apply elem_of_app. right. by left. }
  destruct (proj1 Ht) as [pos Hp]. apply wp_bind. eapply wp_mono; [by apply (segment_sends str irs seg' pos c1 Hp), Ht|].
  cbv beta. intros err c2 S2. pose proof (sends_ok _ _ _ _ _ S2 H1) as H2. destruct (negb (err =? ERR_OK)).
  { apply wp_bind. assert (F : frames sends (set_flags (fun f => f <| TF_NAGLEMEMERR := true |>) : MC unit)) by solve_frames.
    eapply wp_mono; [apply F|]. cbv beta. intros _ c3 S3. apply wp_ret. by eapply sends_ok. }
  pose proof (ok_rest c2 seg' rest H2 ltac:(by rewrite (ss_tx _ _ _ _ S2))) as H3.
  apply (transit_sends _ _ _ S2) in Ht. apply wp_bind, wp_modify. set (c3 := set_txv c2 _) in H3.
  change (c2 <| pcb_ := _ |>) with c3. assert (T3 : in_transit c3 seg') by done. clearbody c3.
  apply wp_bind. apply (wp_mono _ (fun _ c4 => sends c3 c4)).
  { case_bool_decide; [by apply wp_ret|]. assert (F : frames sends (set_flags acks_sent : MC unit)) by solve_frames. apply F. }
  cbv beta. intros _ c4 S4. pose proof (sends_ok _ _ _ _ _ S4 H3) as H4. apply (transit_sends _ _ _ S4) in T3.
  apply wp_bind, wp_modify. pose proof (ok_nxt c4 (seg_seqno seg' +% seg_tcplen seg') H4) as H5.
  set (c5 := set_txv c4 _) in H5. change (c4 <| pcb_ := _ |>) with c5. assert (T5 : in_transit c5 seg') by done.
  clearbody c5. apply wp_bind. apply (wp_mono _ (fun _ c6 => tx_ok c6)); [|cbv beta; intros _ c6 H6; by apply IH].
  destruct (0 <? seg_tcplen seg'); [apply wp_modify; by apply ok_enqueue|].
  eapply wp_mono; [apply (sends_low str irs), wl_seg_free|]. cbv beta. intros _ c6 S6. by eapply sends_ok.
Qed.

Lemma tx_output : frames keeps_tx (tcp_output : MC Z).
Proof.
  intros c. unfold tcp_output. apply wp_bind, wp_gets. destruct (input_pcb c); [by apply wp_ret|].
  apply wp_bind, wp_gets. cbn [id]. cbv zeta. destruct (_ && negb _).
  { eapply wp_mono; [apply (empty_ack_sends str irs)|]. cbv beta. intros _ c' S H. by eapply sends_ok. }
  wp_call (sends_low str irs _ wl_route c) as nif c1 S1. destruct nif as [mtu|]; [|apply wp_ret; intros H; by eapply sends_ok].
  apply wp_bind. apply (wp_mono _ (fun _ c2 => tx_ok c1 -> tx_ok c2)).
  - destruct (_ && _ && _ && _ && _).
    + assert (F : frames sends (set_cc (fun c : cong_vars => if persist_backoff c =? 0
        then c <| persist_cnt := 0 |> <| persist_backoff := 1 |> else c) : MC unit)) by solve_frames.
      wp_call (F c1) as u c2 S2. apply wp_ret. intros H. by eapply sends_ok.
    + apply wp_intro. intros r c2 Er H. refine (wp_run _ _ _ _ _ (loop_ok _ _ _ H) Er).
  - cbv beta. intros [e|] c2 H2; [apply wp_ret; intros H; by apply H2, (sends_ok _ _ _ _ _ S1)|].
    apply wp_bind, wp_modify, wp_bind, wp_modify, wp_ret. intros H.
    destruct (H2 (sends_ok _ _ _ _ _ S1 H)) as [[G1 G2 G3 G4] H3 H4]. constructor; [|done..]. cbn.
    case_bool_decide; by constructor.
Qed.
End Queues.
#[export] Hint Resolve tx_output : frames.
#[export] Hint Extern 3 (frames (keeps_tx _ _ _) _) => apply keeps_sends; solve [eauto with frames typeclass_instances] : frames.
(** A change that leaves the queues alone. *)
Ltac u16_bounds :=
  repeat match goal with |- context [u16 ?z] => pose proof (u16_range z); generalize dependent (u16 z); intros end; lia.
#[export] Hint Extern 2 (frames (keeps_tx _ _ _) (set_tx _)) =>
  (apply keeps_set_tx; let H := fresh in intros ?fin ?t H; destruct H; cbn; repeat case_match;
   constructor; cbn; auto; u16_bounds) : frames.

(** ** Retransmission and acknowledgements *)
Section Acks.
Context {L : Type} `{!TcpLower L} `{!TcpWires L} {WL : TcpWireLaws}.
Context (str : list Z) (irs : Z) (sent0 : list tcp_wire).
#[local] Abbreviation MC := (M (tcp_core L)).
Implicit Types (c : tcp_core L).
#[local] Abbreviation sends := (sends str irs).
#[local] Abbreviation keeps_tx := (keeps_tx str irs sent0).
#[local] Abbreviation snd_ok := (snd_ok str irs).

Lemma nrtx_sends : frames sends (bump_nrtx ;;; stop_rtt : MC unit).
Proof. unfold bump_nrtx, stop_rtt. solve_frames. Qed.
#[local] Hint Resolve nrtx_sends : frames.

Lemma keeps_rexmit_rto : frames keeps_tx (tcp_rexmit_rto : MC unit).
Proof.
  unfold tcp_rexmit_rto. apply frames_bind; [apply _|solve_frames|]. intros q. destruct q; [solve_frames|].
  apply frames_bind; [apply _| |intros _; unfold bump_nrtx, stop_rtt; solve_frames].
  apply keeps_set_tx. intros fin x Hx. eapply snd_ok_queue; [exact Hx|by apply from_subset|done|apply Hx].
Qed.

Lemma keeps_rexmit : frames keeps_tx (tcp_rexmit : MC unit).
Proof.
  unfold tcp_rexmit. intros c. apply wp_bind, wp_gets. destruct (unacked (txv (pcb_ c))) as [|seg rest] eqn:E.
  { by apply wp_ret. }
  apply wp_bind. match goal with |- wp (set_tx ?f) _ _ => set (g := f) end.
  assert (Hg : tx_ok str irs sent0 c -> tx_ok str irs sent0 (c <| pcb_ := (pcb_ c) <| txv := g (txv (pcb_ c)) |> |>)).
  { intros Hc. apply (tx_ok_set str irs sent0 g); [done|]. intros fin Hf.
    eapply snd_ok_queue; [exact Hf|..]; subst g; cbn.
    - apply from_subset. intros x. case_match; unfold queued; cbn; rewrite E, elem_of_app, seg_insert_perm,
        !elem_of_app, !elem_of_cons; tauto.
    - by case_match.
    - case_match; apply Hf. }
  apply wp_modify. eapply wp_mono; [apply nrtx_sends|]. cbv beta. intros _ c2 S2 Hc. eapply sends_ok; [exact S2|]. by apply Hg.
Qed.
#[local] Hint Resolve keeps_rexmit_rto keeps_rexmit : frames.
Lemma keeps_rexmit_fast : frames keeps_tx (tcp_rexmit_fast : MC unit).
Proof. unfold tcp_rexmit_fast. solve_frames. Qed.
Lemma keeps_retransmit : frames keeps_tx (retransmit_timer : MC unit).
Proof. unfold retransmit_timer. solve_frames. Qed.
#[local] Hint Resolve keeps_rexmit_fast : frames.

Lemma keeps_acked seg : frames keeps_tx (segment_acked seg : MC unit).
Proof. unfold segment_acked. solve_frames. Qed.
#[local] Hint Resolve keeps_acked : frames.
Lemma keeps_ack_unacked fuel a : frames keeps_tx (ack_unacked fuel a : MC unit).
Proof.
  induction fuel as [|fuel IH]; cbn [ack_unacked]; [solve_frames|]. intros c.
  apply wp_bind, wp_gets. destruct (unacked (txv (pcb_ c))) as [|seg rest] eqn:E; [by apply wp_ret|].
  destruct (TCP_SEQ_LEQ _ _); [|by apply wp_ret]. apply wp_bind, wp_modify.
  set (c1 := c <| pcb_ := _ |>). assert (H1 : keeps_tx c c1).
  { intros Hc. apply (tx_ok_set str irs sent0 (fun t => t <| unacked := rest |>)); [done|]. intros fin Hf.
    eapply snd_ok_queue; [exact Hf| |done|apply Hf].
    apply from_subset. unfold queued. cbn. rewrite E. intros x. rewrite !elem_of_app, elem_of_cons. tauto. }
  assert (F : frames keeps_tx (segment_acked seg ;;; ack_unacked fuel a : MC unit)) by solve_frames.
  eapply wp_mono; [apply F|]. cbv beta. intros _ c2 H2. by etrans.
Qed.
Lemma keeps_ack_unsent fuel a : frames keeps_tx (ack_unsent fuel a : MC unit).
Proof.
  induction fuel as [|fuel IH]; cbn [ack_unsent]; [solve_frames|]. intros c.
  apply wp_bind, wp_gets. cbn [id]. destruct (unsent (txv (pcb_ c))) as [|seg rest] eqn:E; [by apply wp_ret|].
  destruct (TCP_SEQ_BETWEEN _ _ _); [|by apply wp_ret]. apply wp_bind, wp_modify.
  set (c1 := c <| pcb_ := _ |>). assert (H1 : keeps_tx c c1).
  { intros Hc. apply (tx_ok_set str irs sent0 (fun t => let t := t <| unsent := rest |> in
      if bool_decide (rest = []) then t <| unsent_oversize := 0 |> else t)); [done|]. intros fin Hf. cbv zeta.
    eapply snd_ok_queue; [exact Hf|..].
    - apply from_subset. case_bool_decide; unfold queued; cbn; rewrite E; intros x; rewrite !elem_of_app, elem_of_cons; tauto.
    - by case_bool_decide.
    - case_bool_decide; apply Hf. }
  assert (F : frames keeps_tx (segment_acked seg ;;; ack_unsent fuel a : MC unit)) by solve_frames.
  eapply wp_mono; [apply F|]. cbv beta. intros _ c2 H2. by etrans.
Qed.
#[local] Hint Resolve keeps_ack_unacked keeps_ack_unsent : frames.

Lemma keeps_snd_wnd i : frames keeps_tx (update_snd_wnd i : MC unit).
Proof. unfold update_snd_wnd. solve_frames. Qed.
Lemma keeps_dupack e i : frames keeps_tx (receive_dupack e i : MC unit).
Proof. unfold receive_dupack. solve_frames. Qed.
Lemma keeps_newack i : frames keeps_tx (receive_newack i : MC unit).
Proof. unfold receive_newack, grow_cwnd. solve_frames. Qed.
#[local] Hint Resolve keeps_snd_wnd keeps_dupack keeps_newack : frames.
Lemma keeps_receive_ack i : frames keeps_tx (tcp_receive_ack i : MC unit).
Proof. unfold tcp_receive_ack, update_rtt. solve_frames. Qed.
Lemma sends_receive_data i : frames sends (tcp_receive_data i : MC _).
Proof.
  unfold tcp_receive_data, accept_segment, take_segment, tcp_ack, tcp_ack_now, tcp_update_rcv_ann_wnd. solve_frames.
Qed.
#[local] Hint Resolve keeps_receive_ack sends_receive_data : frames.
Lemma tx_receive i : frames keeps_tx (tcp_receive i : MC _).
Proof. unfold tcp_receive. solve_frames. Qed.
End Acks.
#[export] Hint Resolve keeps_rexmit keeps_rexmit_rto keeps_retransmit tx_receive : frames.

(** ** Closing *)
Section Closing.
Context {L : Type} `{!TcpLower L} `{!TcpWires L} {WL : TcpWireLaws}.
Context (str : list Z) (irs : Z) (sent0 : list tcp_wire).
#[local] Abbreviation MC := (M (tcp_core L)).
Implicit Types (c : tcp_core L).
#[local] Abbreviation sends := (sends str irs).
#[local] Abbreviation keeps_tx := (keeps_tx str irs sent0).
#[local] Abbreviation tx_ok := (tx_ok str irs sent0).

(** The last unsent segment is the end of the stream: no retransmission waits. *)
Definition tail_ok c : bool :=
  match last (unsent (txv (pcb_ c))) with
  | None => true
  | Some s => seg_seqno s +% seg_tcplen s =? snd_lbb (txv (pcb_ c))
  end.
(** The FIN may be queued behind the stream. *)
Definition fin_ready c : bool := negb (fin_queued c) && tail_ok c.

Lemma may_send_fin fin w : may_send str irs fin w -> may_send str irs true w.
Proof. intros [H _]. by split. Qed.

(** With the FIN queued, the segments have to be pieces, nothing else. *)
Lemma tx_ok_fin c q : tx_ok c -> Forall (is_piece str irs) q -> forall c',
  fin_queued c' = true -> low c' = low c -> mss (cgv (pcb_ c')) = mss (cgv (pcb_ c)) ->
  queued (txv (pcb_ c')) = q ->
  0 <= snd_queuelen (txv (pcb_ c')) /\ 0 <= snd_buf (txv (pcb_ c')) <= 65535 -> tx_ok c'.
Proof.
  intros [H1 (new & H2 & H2') H3] Hq c' Ef El Em Eq Hu. constructor; rewrite ?Ef, ?El, ?Em; try done.
  - constructor; try done. by rewrite Eq.
  - exists new. split; [done|]. eapply Forall_impl; [exact H2'|]. intros w. apply may_send_fin.
Qed.

Lemma enqueue_fin_ok c : tx_ok c -> fin_queued c = false ->
  wp (tcp_enqueue_flags (no_flags <| TCP_FIN := true |>)) (fun _ c' => tx_ok c') c.
Proof.
  intros Hc Ef. unfold tcp_enqueue_flags. apply wp_bind, wp_gets. rewrite andb_false_r. cbn [id].
  wp_call (sends_low str irs _ (wl_ctl 0) c) as ok c1 S1. pose proof (sends_ok _ _ _ _ _ S1 Hc) as H1.
  assert (Hm : forall c', tx_ok c' -> wp (mem_err : MC Z) (fun _ c' => tx_ok c') c').
  { intros c' H'. assert (F : frames sends (mem_err : MC Z)) by (unfold mem_err; solve_frames).
    eapply wp_mono; [apply F|]. cbv beta. intros _ c2 S2. by eapply sends_ok. }
  destruct ok; cbn [negb]; [|by apply Hm]. apply wp_bind. unfold tcp_create_segment.
  wp_call (sends_low str irs _ wl_seg c1) as ok c2 S2. pose proof (sends_ok _ _ _ _ _ S2 H1) as H2.
  destruct ok.
  2: { wp_call (sends_low str irs _ (wl_free 1) c2) as u c3 S3. apply wp_ret, Hm. by eapply sends_ok. }
  apply wp_ret, wp_bind, wp_modify, wp_bind, wp_modify, wp_bind, wp_modify, wp_bind, wp_modify, wp_ret.
  destruct (to_snd _ _ _ _ H2) as [G1 G2 G3 G4].
  assert (Et : txv (pcb_ c2) = txv (pcb_ c)) by (by rewrite (ss_tx _ _ _ _ S2), (ss_tx _ _ _ _ S1)).
  eapply (tx_ok_fin c2); [done| |done..| |]; unfold queued; cbn; [|reflexivity|u16_bounds].
  rewrite app_assoc. apply Forall_app. split; [exact G1|]. apply Forall_singleton. exists (slen str).
  assert (Hl : snd_lbb (txv (pcb_ c)) = seq_of irs (slen str)).
  { rewrite <- Et. apply G2. by rewrite (ss_fin _ _ _ _ S2), (ss_fin _ _ _ _ S1). }
  assert (0 <= slen str) by (unfold slen; lia).
  constructor; unfold seg_len; cbn; try done; rewrite ?Z.add_0_r; try done; try lia.
  unfold sub. by rewrite Z.sub_diag.
Qed.

Context (Hstr : slen str < MAXPOS).

(** Positions are determined by sequence numbers. *)
Lemma seq_of_inj a b : -1 <= a <= slen str -> -1 <= b <= slen str -> seq_of irs a = seq_of irs b -> a = b.
Proof.
  intros Ha Hb E. unfold MAXPOS, TCP_WND, TCP_MSS in *. pose proof (seq_eq irs a b ltac:(lia)) as H.
  rewrite E, Z.eqb_refl in H. symmetry in H. by apply Z.eqb_eq in H.
Qed.

(** The last unsent segment ends where the stream ends. *)
Lemma tail_end c q s pos : tx_ok c -> fin_ready c = true -> unsent (txv (pcb_ c)) = q ++ [s] ->
  piece str irs s pos -> pos + seg_tcplen s = slen str /\ TCP_FIN (seg_hdr s) = false.
Proof.
  intros Hc Hr E Hp. unfold fin_ready, tail_ok in Hr. apply andb_true_iff in Hr as [Hf%negb_true_iff Hr].
  rewrite E, last_snoc in Hr. apply Z.eqb_eq in Hr. destruct (to_snd _ _ _ _ Hc) as [G1 G2 G3 G4].
  assert (Hfin : TCP_FIN (seg_hdr s) = false).
  { specialize (G3 Hf). rewrite Forall_forall in G3. apply G3. unfold queued. rewrite E, !elem_of_app.
    right. right. by left. }
  split; [|done]. pose proof (pc_range _ _ _ _ Hp) as R. pose proof (pc_syn _ _ _ _ Hp) as Sy.
  assert (0 <= seg_len s) by (unfold seg_len; lia).
  rewrite (pc_seq _ _ _ _ Hp), seq_add, (G2 Hf) in Hr.
  apply seq_of_inj; [|lia|done]. unfold seg_tcplen, TCP_TCPLEN. rewrite Hfin. cbn [orb].
  destruct (TCP_SYN (seg_hdr s)); [|lia]. unfold slen in *. lia.
Qed.

Lemma send_fin_ok c : tx_ok c -> fin_ready c = true ->
  wp (tcp_send_fin : MC Z) (fun _ c' => tx_ok c') c.
Proof.
  intros Hc Hr. assert (Hf : fin_queued c = false).
  { unfold fin_ready in Hr. by apply andb_true_iff in Hr as [Hf%negb_true_iff _]. }
  unfold tcp_send_fin. apply wp_bind, wp_gets. destruct (last (unsent (txv (pcb_ c)))) as [s|] eqn:El.
  2: by apply enqueue_fin_ok.
  destruct (TCP_SYN (seg_hdr s) || _ || _) eqn:Eh; [by apply enqueue_fin_ok|].
  apply orb_false_iff in Eh as [[Es _]%orb_false_iff _].
  apply last_Some in El as [q E]. destruct (to_snd _ _ _ _ Hc) as [G1 G2 G3 G4].
  assert (Hp : is_piece str irs s).
  { rewrite Forall_forall in G1. apply G1. unfold queued. rewrite E, !elem_of_app. right. right. by left. }
  destruct Hp as [pos Hp]. destruct (tail_end c q s pos Hc Hr E Hp) as [He Hfin].
  apply wp_bind, wp_modify, wp_bind, wp_modify, wp_ret.
  eapply (tx_ok_fin c); [done| |done..| |]; unfold queued; cbn; [|reflexivity|done]. rewrite E, removelast_last.
  unfold queued in G1. rewrite E, app_assoc in G1. apply Forall_app in G1 as [G1 _]. rewrite app_assoc.
  apply Forall_app. split; [done|]. apply Forall_singleton. exists pos. destruct Hp.
  unfold seg_tcplen, TCP_TCPLEN in He. rewrite Hfin, Es in He. cbn [orb] in He. rewrite Z.add_0_r in He.
  by constructor.
Qed.

Lemma keeps_set_state st : frames keeps_tx (set_state st : MC unit).
Proof. apply keeps_sends, sends_state. Qed.

(** Closing in a state that sends the FIN needs the tail of the queue. *)
Definition close_ready c : bool :=
  match state (pcb_ c) with SYN_RCVD | ESTABLISHED | CLOSE_WAIT => fin_ready c | _ => true end.

Lemma close_fin_ok c : tx_ok c -> close_ready c = true ->
  wp (tcp_close_shutdown_fin : MC Z) (fun _ c' => tx_ok c') c.
Proof.
  intros Hc Hr. unfold tcp_close_shutdown_fin. apply wp_bind, wp_gets. cbv zeta.
  assert (H : forall st, fin_ready c = true -> wp (err <- tcp_send_fin ;;
        (if err =? ERR_OK then set_state st else ret tt) ;;;
        (if err =? ERR_OK then tcp_output ;;; ret err
         else if err =? ERR_MEM then set_flags (fun f => f <| TF_CLOSEPEND := true |>) ;;; ret ERR_OK
         else ret err)) (fun _ c' => tx_ok c') c).
  { intros st Hf. wp_call (send_fin_ok c Hc Hf) as err c1 H1.
    assert (F : frames keeps_tx ((if err =? ERR_OK then set_state st else ret tt) ;;;
        (if err =? ERR_OK then tcp_output ;;; ret err
         else if err =? ERR_MEM then set_flags (fun f => f <| TF_CLOSEPEND := true |>) ;;; ret ERR_OK
         else ret err) : MC Z)) by solve_frames.
    eapply wp_mono; [apply F|]. cbv beta. intros _ c2 H2. by apply H2. }
  unfold close_ready in Hr. destruct (state (pcb_ c)); try (by apply wp_ret); by apply H.
Qed.

Lemma keeps_segs_free q : frames keeps_tx (tcp_segs_free q : MC unit).
Proof. unfold tcp_segs_free. induction q; cbn [foldr]; solve_frames. Qed.
Lemma keeps_free_refused : frames keeps_tx (free_refused : MC unit).
Proof. unfold free_refused. solve_frames. Qed.
#[local] Hint Resolve keeps_segs_free keeps_free_refused : frames.
Lemma keeps_clear : frames keeps_tx (set_tx (fun t => t <| unacked := [] |> <| unsent := [] |> <| unsent_oversize := 0 |>) : MC unit).
Proof.
  apply keeps_set_tx. intros fin t H. eapply snd_ok_queue; [exact H| |done|apply H].
  apply from_subset. intros x Hx. by apply elem_of_nil in Hx.
Qed.
#[local] Hint Resolve keeps_clear : frames.
Lemma keeps_purge : frames keeps_tx (tcp_pcb_purge : MC unit).
Proof. unfold tcp_pcb_purge. solve_frames. Qed.
#[local] Hint Resolve keeps_purge : frames.
Lemma keeps_remove : frames keeps_tx (tcp_pcb_remove : MC unit).
Proof. unfold tcp_pcb_remove, tcp_ack_now. solve_frames. Qed.
Lemma keeps_memp_free : frames keeps_tx (memp_free_pcb : MC unit).
Proof. unfold memp_free_pcb. solve_frames. Qed.
#[local] Hint Resolve keeps_remove keeps_memp_free : frames.
Lemma keeps_abandon b : frames keeps_tx (abandon_pcb b : MC bool).
Proof. unfold abandon_pcb. solve_frames. Qed.
Lemma keeps_time_wait : frames keeps_tx (to_time_wait : MC unit).
Proof. unfold to_time_wait. solve_frames. Qed.

(** [tcp_close] and [tcp_shutdown] of the sending side. *)
Lemma close_shutdown_ok b c : tx_ok c -> close_ready c = true ->
  wp (tcp_close_shutdown b : MC Z) (fun _ c' => tx_ok c') c.
Proof.
  intros Hc Hr. unfold tcp_close_shutdown. apply wp_bind, wp_gets. cbv zeta. cbn [id]. destruct (b && _ && _).
  - assert (F : frames keeps_tx (tcp_rst (snd_nxt (txv (pcb_ c))) (rcv_nxt (rxv (pcb_ c))) ;;; tcp_pcb_purge ;;;
      set_list PCB_NONE ;;;
      (if bool_decide (state (pcb_ c) = ESTABLISHED) then set_state TIME_WAIT ;;; set_list PCB_TW
       else busy <- gets input_pcb ;; if busy : bool then tcp_trigger_input_pcb_close else memp_free_pcb) ;;;
      ret ERR_OK : MC Z)) by (unfold tcp_trigger_input_pcb_close; solve_frames).
    eapply wp_mono; [apply F|]. cbv beta. intros _ c2 H2. by apply H2.
  - assert (Hk : forall m : MC Z, frames keeps_tx m -> wp m (fun _ c' => tx_ok c') c).
    { intros m F. eapply wp_mono; [apply F|]. cbv beta. intros _ c2 H2. by apply H2. }
    destruct (state (pcb_ c)); try (by apply close_fin_ok); apply Hk; solve_frames.
Qed.

Lemma tx_close_ok c : tx_ok c -> close_ready c = true ->
  wp (tcp_close : MC Z) (fun _ c' => tx_ok c') c.
Proof.
  intros Hc Hr. unfold tcp_close. apply wp_bind, wp_modify. apply close_shutdown_ok; [|done].
  eapply sends_ok; [|exact Hc]. constructor; try done. exists []. by rewrite app_nil_r.
Qed.

Lemma keeps_recved n : frames keeps_tx (tcp_recved n : MC unit).
Proof. unfold tcp_recved, tcp_update_rcv_ann_wnd, tcp_ack_now. solve_frames. Qed.

(** ** The timers *)
Lemma probe_fin seg pos a wnd : piece str irs seg pos -> TCP_FIN (seg_hdr seg) = true -> seg_len seg = 0 ->
  wire_ok str irs (mkWire (seg_seqno seg) a (no_flags <| TCP_ACK := true |> <| TCP_FIN := true |>) wnd None []).
Proof.
  intros Hp Ef E0. destruct (pc_fin _ _ _ _ Hp Ef) as [Es Hend]. pose proof (pc_syn _ _ _ _ Hp) as Sy. rewrite Es in Sy.
  do 3 right. exists pos. cbn. rewrite (pc_seq _ _ _ _ Hp). change (slen []) with 0. rewrite Z.add_0_r in *.
  unfold sub. rewrite Z.sub_diag. repeat split; lia || done.
Qed.
Lemma probe_byte seg pos a h wnd : piece str irs seg pos -> TCP_SYN h = false -> TCP_FIN h = false ->
  wire_ok str irs (mkWire (seg_seqno seg) a h wnd None (take 1 (seg_data seg))).
Proof.
  intros Hp E1 E2. pose proof (pc_syn _ _ _ _ Hp) as Sy. pose proof (pc_range _ _ _ _ Hp) as R.
  destruct (seg_data seg) as [|x l] eqn:Ed; [right; right; left; done|].
  assert (Hl : 1 <= seg_len seg) by (unfold seg_len; rewrite Ed; cbn; lia).
  assert (0 <= pos) by (destruct (TCP_SYN (seg_hdr seg)); lia).
  do 3 right. exists pos. cbn [w_hdr w_seqno w_data]. rewrite (pc_seq _ _ _ _ Hp), E1, E2.
  assert (El : slen (take 1 (x :: l)) = 1) by done. rewrite El. split_and!; try done; try lia.
  rewrite <- Ed, (pc_data _ _ _ _ Hp). by apply (sub_take str pos (pos + seg_len seg) 1); lia.
Qed.

Lemma keeps_probe : frames keeps_tx (tcp_zero_window_probe : MC Z).
Proof.
  intros c. unfold tcp_zero_window_probe. apply wp_bind, wp_gets. cbn [id].
  destruct (unacked (txv (pcb_ c)) ++ unsent (txv (pcb_ c))) as [|seg q] eqn:E; [by apply wp_ret|].
  set (is_fin := _ && _). wp_call (alloc_header_sends str irs 0 (if is_fin then 0 else 1) (seg_seqno seg) c) as w c1 X.
  destruct X as [S1 Hw]. destruct w as [w|]; [|apply wp_ret; intros H; by eapply sends_ok].
  destruct (Hw w eq_refl) as ((W1 & W2 & W3) & Wq & W4). clear Hw. rewrite Wq.
  set (w' := if is_fin then _ else _). apply wp_bind, wp_modify. set (c2 := c1 <| pcb_ := _ |>).
  apply wp_intro. intros r c3 Er Hc.
  assert (H2 : tx_ok c2) by (by apply ok_nxt, (sends_ok _ _ _ _ _ S1)).
  destruct (queued_transit str irs sent0 c seg Hc) as [[pos Hp] Hf]; [unfold queued; rewrite E; by left|].
  assert (Hm : may_send str irs (fin_queued c2) w').
  { change (fin_queued c2) with (fin_queued c1). rewrite (ss_fin _ _ _ _ S1). subst w'.
    destruct is_fin eqn:Ei; [|split; [by eapply probe_byte|done]].
    apply andb_true_iff in Ei as [Ei E0%Z.eqb_eq]. split; [by eapply probe_fin|]. intros Hff.
    specialize (Hf Hff). congruence. }
  eapply sends_ok; [|exact H2]. exact (wp_run _ _ _ _ _ (header_sends str irs w' c2 Hm) Er).
Qed.
#[local] Hint Resolve keeps_probe : frames.
Lemma keeps_persist : frames keeps_tx (persist_timer : MC unit).
Proof. unfold persist_timer. solve_frames. Qed.
End Closing.
#[export] Hint Resolve keeps_purge keeps_remove keeps_memp_free keeps_abandon keeps_time_wait keeps_recved keeps_persist : frames.

(** ** Writing makes the stream longer *)
Section Grow.
Context (str data : list Z) (irs : Z).

Lemma sub_grow a b : 0 <= a \/ a = b -> b <= slen str -> sub (str ++ data) a b = sub str a b.
Proof.
  intros Ha Hb. destruct (decide (a = b)) as [->|N]; [unfold sub; by rewrite Z.sub_diag|].
  destruct Ha as [Ha|]; [|done]. unfold sub, slen in *. destruct (Z.lt_ge_cases a b); [|by replace (Z.to_nat (b - a)) with 0%nat by lia].
  rewrite drop_app_le, take_app_le by (rewrite ?length_drop; lia). done.
Qed.
Lemma sub_right a b : 0 <= a -> sub (str ++ data) (slen str + a) (slen str + b) = sub data a b.
Proof.
  intros Ha. unfold sub, slen. rewrite drop_app_ge by lia. f_equal; [lia|]. f_equal. lia.
Qed.

Lemma piece_grow s pos : piece str irs s pos -> TCP_FIN (seg_hdr s) = false -> piece (str ++ data) irs s pos.
Proof.
  intros [] Hf. assert (0 <= slen data) by (unfold slen; lia). assert (0 <= seg_len s) by (unfold seg_len; lia).
  constructor; try done; rewrite ?slen_app; try lia; [|congruence]. rewrite sub_grow; [done|destruct (TCP_SYN _)|]; lia.
Qed.
Lemma wire_grow w : wire_ok str irs w -> TCP_FIN (w_hdr w) = false -> wire_ok (str ++ data) irs w.
Proof.
  intros [H|[H|[H|(pos & H1 & H2 & H3 & H4 & H5 & H6 & H7)]]] Hf; [by left|by right; left|by right; right; left|].
  do 3 right. exists pos. assert (0 <= slen data) by (unfold slen; lia). rewrite slen_app, sub_grow by lia.
  repeat (split; [done || lia|]). congruence.
Qed.

(** The new segments. *)
Lemma cut_pieces m a q b : cut (seq_of irs (slen str)) data m a q b -> 0 <= a -> b <= slen data -> m <= TCP_MSS ->
  Forall (fun s => is_piece (str ++ data) irs s /\ TCP_SYN (seg_hdr s) = false /\ TCP_FIN (seg_hdr s) = false) q.
Proof.
  induction 1 as [|a s q b H1 H2 H3 H4 H5 H6 H IH]; intros Ha Hb Hm; [done|].
  pose proof (cut_le _ _ _ _ _ _ H). apply Forall_cons. split; [|apply IH; lia].
  pose proof (f_equal TCP_SYN H5) as E1. pose proof (f_equal TCP_FIN H5) as E2. pose proof (f_equal TCP_RST H5) as E3.
  cbn in E1, E2, E3. split; [|done]. exists (slen str + a). assert (0 <= slen str) by (unfold slen; lia).
  unfold TCP_MSS in *. constructor; rewrite ?E1, ?E2, ?E3, ?slen_app; try done; try lia.
  - by rewrite H1, seq_add.
  - by rewrite <- Z.add_assoc, sub_right.
Qed.

(** The PSH flag is of no concern. *)
Lemma no_psh_piece s : is_piece str irs (no_psh s) <-> is_piece str irs s.
Proof. split; intros [pos []]; exists pos; by constructor. Qed.
End Grow.

Section Write.
Context {L : Type} `{!TcpLower L} `{!TcpWires L} {WL : TcpWireLaws}.
Context (irs : Z) (sent0 : list tcp_wire).
#[local] Abbreviation MC := (M (tcp_core L)).
Implicit Types (c : tcp_core L).

(** Data may be written: the connection is not closed, no retransmission waits, the last
    unsent segment is within the segment size, and there is no room in a SYN. *)
Definition write_ready c : bool :=
  fin_ready c && (0 <? write_mss (pcb_ c)) &&
  match last (unsent (txv (pcb_ c))) with
  | None => true
  | Some s => (seg_len s + (if opts_mss s then LWIP_TCP_OPT_LEN_MSS else 0) <=? write_mss (pcb_ c)) &&
      ((unsent_oversize (txv (pcb_ c)) =? 0) || negb (TCP_SYN (seg_hdr s)))
  end.

(** A write sends nothing and closes nothing. *)
Record silent c c' : Prop := {
  si_wires : wires (low c') = wires (low c);
  si_fin : fin_queued c' = fin_queued c;
  si_mss : mss (cgv (pcb_ c')) = mss (cgv (pcb_ c))
}.
#[local] Instance silent_preorder : PreOrder silent.
Proof. split; [by intros c|intros a b d [] []; constructor; congruence]. Qed.
Lemma silent_low {A} (m : M L A) : frames same_wires m -> frames silent (on_low m).
Proof. intros H c. specialize (H (low c)). unfold wp, on_low in *. by destruct (m (low c)). Qed.
Lemma silent_flags f : (forall x, TF_FIN (f x) = TF_FIN x) -> frames silent (set_flags f : MC unit).
Proof. intros H c. apply wp_modify. constructor; try done. unfold fin_queued. cbn. by rewrite H. Qed.
Lemma silent_tx f : frames silent (set_tx f : MC unit).
Proof. intros c. by apply wp_modify. Qed.
Lemma silent_get {A} (f : tcp_pcb -> A) : frames silent (pcb f : MC A).
Proof. apply frames_gets, _. Qed.
Lemma silent_gettx {A} (f : snd_vars -> A) : frames silent (tx f : MC A).
Proof. apply frames_gets, _. Qed.
#[local] Hint Resolve silent_low silent_tx silent_get silent_gettx : frames.
#[local] Hint Extern 2 (frames silent (set_flags _)) => by apply silent_flags : frames.
Lemma silent_prealloc al n m b f : (forall k, frames same_wires (al k)) -> frames silent (tcp_pbuf_prealloc al n m b f : MC _).
Proof. intros H. unfold tcp_pbuf_prealloc. solve_frames. Qed.
Lemma silent_raw n m b f : frames silent (tcp_pbuf_prealloc raw_alloc n m b f : MC _).
Proof. apply silent_prealloc, wl_raw. Qed.
Lemma silent_ctl n m b f : frames silent (tcp_pbuf_prealloc ctl_alloc n m b f : MC _).
Proof. apply silent_prealloc, wl_ctl. Qed.
#[local] Hint Resolve silent_raw silent_ctl : frames.
Lemma silent_segments fuel d b f m pos q o n : frames silent (write_segments fuel d b f m pos q o n : MC _).
Proof.
  revert pos q o n; induction fuel; intros pos q o n; cbn [write_segments]; unfold write_pbufs, tcp_create_segment; solve_frames.
Qed.
Lemma silent_segs_free q : frames silent (tcp_segs_free q : MC unit).
Proof. unfold tcp_segs_free. induction q; cbn [foldr]; solve_frames. Qed.
#[local] Hint Resolve silent_segments silent_segs_free : frames.
Lemma silent_write arg data copy more : frames silent (tcp_write arg data copy more : MC _).
Proof. unfold tcp_write, tcp_write_checks, mem_err, write_tail. solve_frames. Qed.

(** The last unsent segment with [d] more bytes. *)
Lemma grown_piece str data m d s s' pos : piece str irs s pos -> pos + seg_tcplen s = slen str ->
  TCP_FIN (seg_hdr s) = false -> 0 <= d <= slen data -> m <= TCP_MSS -> (0 < d -> TCP_SYN (seg_hdr s) = false) ->
  grown m data d [s] [s'] -> piece (str ++ data) irs s' pos.
Proof.
  intros Hp He Hf Hd Hm Hs (E & _ & Hl). destruct (decide (d = 0)) as [->|Nd].
  { assert (E' : s' = s <| seg_clen := seg_clen s' |>).
    { rewrite E. unfold sub. cbn. by rewrite app_nil_r. }
    destruct (piece_grow str data irs s pos Hp Hf). rewrite E'. by constructor. }
  specialize (Hs ltac:(lia)). specialize (Hl ltac:(lia)). pose proof (pc_syn _ _ _ _ Hp) as Sy.
  pose proof (pc_range _ _ _ _ Hp) as R. rewrite Hs in Sy.
  unfold seg_tcplen, TCP_TCPLEN in He. rewrite Hf, Hs in He. cbn [orb] in He. rewrite Z.add_0_r in He.
  assert (Hd' : seg_data s' = sub (str ++ data) pos (slen str + d)).
  { rewrite E. cbn [seg_data upd]. cbn. rewrite (pc_data _ _ _ _ Hp), He.
    rewrite <- (sub_grow str data pos (slen str)), <- (sub_right str data 0 d) by lia.
    assert (0 <= seg_len s) by (unfold seg_len; lia). pose proof (slen_app str data).
    rewrite Z.add_0_r, sub_app by lia. done. }
  assert (Hlen : seg_len s' = seg_len s + d).
  { assert (0 <= seg_len s) by (unfold seg_len; lia). pose proof (slen_app str data).
    unfold seg_len at 1. rewrite Hd', sub_length by lia. lia. }
  assert (Hh : seg_hdr s' = seg_hdr s) by (by rewrite E). unfold TCP_MSS in *.
  constructor; rewrite ?Hh, ?Hlen, ?slen_app; try done; try lia.
  - rewrite E. apply (pc_seq _ _ _ _ Hp).
  - rewrite Hd'. f_equal. lia.
  - by rewrite Hs.
  - congruence.
  - apply (pc_rst _ _ _ _ Hp).
Qed.

Definition fin_free (s : tcp_seg) : Prop := TCP_FIN (seg_hdr s) = false.

(** What is known of the last unsent segment. *)
Definition last_seg (str : list Z) (t : snd_vars) (s : tcp_seg) : Prop :=
  (forall pos, piece str irs s pos -> pos + seg_tcplen s = slen str) /\
  fin_free s /\ (unsent_oversize t = 0 \/ TCP_SYN (seg_hdr s) = false).

Lemma tail_grow str data m t d old tail tail' : Forall (is_piece str irs) tail -> unsent t = old ++ tail ->
  (forall q s, unsent t = q ++ [s] -> last_seg str t s) -> 0 <= d <= slen data -> m <= TCP_MSS ->
  (unsent_oversize t = 0 -> Forall (fun s => seg_len s = 0) tail -> d = 0) -> grown m data d tail tail' ->
  Forall (fun s => is_piece (str ++ data) irs s /\ fin_free s) tail'.
Proof.
  intros Hp E Hl Hd Hm Hd0 G. destruct tail as [|s [|]], tail' as [|s' [|]]; try done.
  destruct (Hl old s E) as (L1 & L2 & L3). apply Forall_cons in Hp as [[pos Hp] _].
  assert (Hh : seg_hdr s' = seg_hdr s) by (destruct G as [-> _]; done). apply Forall_cons. split; [|done].
  unfold fin_free. rewrite Hh. split; [|done]. exists pos. eapply grown_piece; eauto. intros Hds.
  destruct L3 as [E0|]; [|done]. pose proof (pc_syn _ _ _ _ Hp) as Sy. destruct (TCP_SYN (seg_hdr s)); [|done].
  destruct Sy as [_ Sy]. rewrite Hd0 in Hds; [lia|done|]. by apply Forall_cons.
Qed.

Lemma snd_grow str data m t t' : snd_ok str irs false t -> appended m data t t' -> m <= TCP_MSS ->
  (forall q s, unsent t = q ++ [s] -> last_seg str t s) -> snd_ok (str ++ data) irs false t'.
Proof.
  intros [G1 G2 G3 G4] [(d & old & tail & tail' & new & E & _ & G & Hd & Hd0 & Hc & Eu) A2 [A3 A3'] A4 [A5 _] A6 A7] Hm Hl.
  specialize (G2 eq_refl). specialize (G3 eq_refl). rewrite G2 in Hc. unfold queued in G1, G3. rewrite E in G1, G3.
  apply Forall_app in G1 as [U1 [O1 T1]%Forall_app]. apply Forall_app in G3 as [U3 [O3 T3]%Forall_app].
  pose proof (cut_pieces str data irs m d new _ Hc ltac:(lia) ltac:(lia) Hm) as Hnew.
  pose proof (tail_grow str data m t d old tail tail' T1 E Hl Hd Hm Hd0 G) as Htl.
  assert (Hgrow : forall q, Forall (is_piece str irs) q -> Forall fin_free q ->
    Forall (fun s => is_piece (str ++ data) irs s /\ fin_free s) q).
  { intros q H1 H2. rewrite Forall_forall in *. intros s Hs. destruct (H1 s Hs) as [pos Hp]. split; [|auto].
    exists pos. apply piece_grow; [done|]. by apply H2. }
  assert (Hall : Forall (fun s => is_piece (str ++ data) irs s /\ fin_free s) (queued t')).
  { unfold queued. apply Forall_app. split; [rewrite A7; by apply Hgrow|].
    assert (Hn : Forall (fun s => is_piece (str ++ data) irs (no_psh s) /\ fin_free (no_psh s)) (unsent t')).
    { rewrite <- (Forall_map no_psh (fun s => is_piece (str ++ data) irs s /\ fin_free s)), Eu, Forall_map, !Forall_app.
      split_and!.
      - eapply Forall_impl; [apply (Hgrow old O1 O3)|]. intros s [H1 H2]. split; [by apply no_psh_piece|done].
      - eapply Forall_impl; [exact Htl|]. intros s [H1 H2]. split; [by apply no_psh_piece|done].
      - eapply Forall_impl; [exact Hnew|]. intros s (H1 & _ & H2). split; [by apply no_psh_piece|done]. }
    eapply Forall_impl; [exact Hn|]. intros s [H1 H2]. split; [by apply no_psh_piece|done]. }
  constructor.
  - eapply Forall_impl; [exact Hall|]. by intros s [H _].
  - intros _. by rewrite A2, G2, seq_add, slen_app.
  - intros _. eapply Forall_impl; [exact Hall|]. by intros s [_ H].
  - lia.
Qed.

(** [tcp_write] puts the data behind the stream, or changes nothing. *)
Lemma write_ok str arg data copy more c : tx_ok str irs sent0 c -> write_ready c = true ->
  slen data <= 65535 -> slen str < MAXPOS ->
  wp (tcp_write arg data copy more) (fun r c' => exists e, r = Some e /\
    tx_ok (if e =? ERR_OK then str ++ data else str) irs sent0 c') c.
Proof.
  intros Hc Hr Hd Hs. unfold write_ready in Hr. apply andb_true_iff in Hr as [Hr Hfit].
  apply andb_true_iff in Hr as [Hr Hm%Z.ltb_lt]. pose proof (to_mss _ _ _ _ Hc) as Hmss.
  assert (Hml : write_mss (pcb_ c) <= TCP_MSS) by (unfold write_mss; cbv zeta; destruct (negb _); lia).
  destruct (to_snd _ _ _ _ Hc) as [G1 G2 G3 [G5 G6]].
  assert (Hf : fin_queued c = false) by (unfold fin_ready in Hr; by apply andb_true_iff in Hr as [Hr%negb_true_iff _]).
  eapply wp_mono.
  { apply wp_and; [apply (silent_write arg data copy more c)|apply (write_spec arg data copy more c); try done].
    - unfold TCP_MSS in *. lia.
    - unfold tail_fits. destruct (last _); [|done]. apply andb_true_iff in Hfit as [Hfit _]. by apply Z.leb_le. }
  cbv beta. intros r c' [[W1 W2 W3] (e & -> & He & Ho)]. exists e. split; [done|]. destruct (Z.eqb_spec e ERR_OK) as [->|Ne].
  - destruct (Ho eq_refl) as (_ & c1 & U & A & Ec'). pose proof Hc as [S (new & Hw & Hn) Hm'].
    assert (Hf' : fin_queued c' = false) by (by rewrite W2).
    constructor; rewrite ?W1, ?W3, ?Hf'; try done.
    + rewrite Hf in S. eapply snd_grow; [exact S|exact A|done|]. intros q s E. split_and!.
      * intros pos Hp. by apply (tail_end str irs sent0 Hs c q s pos).
      * apply (proj1 (Forall_forall _ _) (G3 Hf)). unfold queued. rewrite E, !elem_of_app. right. right. by left.
      * rewrite E, last_snoc in Hfit. apply andb_true_iff in Hfit as [_ Hfit].
        by apply orb_true_iff in Hfit as [?%Z.eqb_eq|?%negb_true_iff]; [left|right].
    + exists new. split; [done|]. rewrite Hf in Hn. eapply Forall_impl; [exact Hn|]. intros w [H1 H2].
      split; [|done]. apply wire_grow; auto.
  - destruct (He Ne) as (f & l & Ec'). destruct Hc as [S Hw Hm']. constructor; rewrite ?W1, ?W2, ?W3; try done.
    by rewrite Ec'.
Qed.
End Write.
