(* ===== verification/TcpHdr.v ===== *)
(** * The TCP header on the wire

    The bytes that core/tcp_out.c puts in front of the data and the first part of [tcp_input]
    (core/tcp_in.c), which checks and takes apart what IP hands up: a chain of pbufs whose
    first begins with the header.  Checksums are left to the hardware (lwipopts.h). *)
From coqutil Require Import Z.prove_Zeq_bitwise.
From S2P Require Import Prelude Ip4Addr Ip4Hdr Net Tcp TcpIn TcpRcv TcpStream.

(** The flags as a word (prot/tcp.h). *)
Definition tcph_word (h : tcph) : Z :=
  Z.lor (if TCP_FIN h then 0x01 else 0) (Z.lor (if TCP_SYN h then 0x02 else 0)
    (Z.lor (if TCP_RST h then 0x04 else 0) (Z.lor (if TCP_PSH h then 0x08 else 0) (if TCP_ACK h then 0x10 else 0)))).
Definition TCPH_HDRLEN_FLAGS (len : Z) (h : tcph) : Z := Z.lor (u16 (Z.shiftl len 12)) (tcph_word h).
Definition TCPH_HDRLEN (w : Z) : Z := Z.shiftr w 12.
Definition TCPH_FLAGS (w : Z) : tcph :=
  let f := Z.land w 0x3f in
  mkHdr (Z.testbit f 0) (Z.testbit f 1) (Z.testbit f 2) (Z.testbit f 3) (Z.testbit f 4).

(** ** Output

    [tcp_create_segment] and [tcp_output_segment], or [tcp_output_alloc_header], or
    [tcp_rst]. *)
Definition TCP_BUILD_MSS_OPTION (mss : Z) : list Z := le32_bytes (lwip_htonl (Z.lor 0x02040000 (Z.land mss 0xFFFF))).
Definition wire_opts (w : tcp_wire) : list Z :=
  match w_mss w with Some m => TCP_BUILD_MSS_OPTION m | None => [] end.
Definition wire_fixed (src dest : Z) (w : tcp_wire) : list Z :=
  put16 src ++ put16 dest ++ put32 (w_seqno w) ++ put32 (w_ackno w) ++
  put16 (TCPH_HDRLEN_FLAGS (5 + slen (wire_opts w) / 4) (w_hdr w)) ++ put16 (w_wnd w) ++ put16 0 ++ put16 0.
Definition wire_header (src dest : Z) (w : tcp_wire) : list Z := wire_fixed src dest w ++ wire_opts w.

(** ** Input *)

(** The options, and the chain behind them: when they do not end in the first pbuf the rest of
    them must be in the second. *)
Definition split_options (hdrlen : Z) (q : list Z) (rest : list (list Z)) : option (list Z * list (list Z)) :=
  if hdrlen <=? slen q then
    Some (take (Z.to_nat (hdrlen - TCP_HLEN)) (drop (Z.to_nat TCP_HLEN) q), drop (Z.to_nat hdrlen) q :: rest)
  else
    let opt1 := drop (Z.to_nat TCP_HLEN) q in
    let opt2len := hdrlen - TCP_HLEN - slen opt1 in
    match rest with
    | [] => None
    | q2 :: rest =>
        if slen q2 <? opt2len then None
        else Some (opt1 ++ take (Z.to_nat opt2len) q2, [] :: drop (Z.to_nat opt2len) q2 :: rest)
    end.

(** The ports and the segment, or [None]: the packet is dropped.  [dest] is the destination
    address, [inp] the interface. *)
Definition tcp_parse (dest : Z) (inp : ip_netif) (p : list (list Z)) : option (Z * Z * tcp_inseg) :=
  match p with
  | [] => None
  | q :: rest =>
      if slen q <? TCP_HLEN then None else
      if ip4_addr_isbroadcast dest inp || ip4_addr_ismulticast dest then None else
      let hdrlen_bytes := u8 (TCPH_HDRLEN (get16 q 12) * 4) in
      if (hdrlen_bytes <? TCP_HLEN) || (tot_len p <? hdrlen_bytes) then None else
      match split_options hdrlen_bytes q rest with
      | None => None
      | Some (opts, p) =>
          Some (get16 q 0, get16 q 2,
                mkIn (TCPH_FLAGS (get16 q 12)) (get32 q 4) (get32 q 8) (get16 q 14) opts p)
      end
  end.

(** What IP delivers of a segment that was sent. *)
Record arrives (w : tcp_wire) (i : tcp_inseg) : Prop := {
  ar_hdr : i_hdr i = w_hdr w;
  ar_seqno : i_seqno i = w_seqno w;
  ar_ackno : i_ackno i = w_ackno w;
  ar_wnd : i_wnd i = w_wnd w;
  ar_data : concat (i_p i) = w_data w;
  ar_pbufs : small_pbufs (i_p i)
}.

(** The header length and the flags. *)
Lemma hdrlen_word n h : n = 5 \/ n = 6 -> let x := TCPH_HDRLEN_FLAGS n h in
  0 <= x < 65536 /\ u8 (TCPH_HDRLEN x * 4) = 4 * n /\ TCPH_FLAGS x = h.
Proof. intros [->| ->]; destruct h as [[] [] [] [] []]; vm_compute; split_and!; done. Qed.

(** Fields that fit. *)
Record wire_fits (src dest : Z) (w : tcp_wire) : Prop := {
  wf_src : 0 <= src < 65536;
  wf_dest : 0 <= dest < 65536;
  wf_seqno : is_u32 (w_seqno w);
  wf_ackno : is_u32 (w_ackno w);
  wf_wnd : 0 <= w_wnd w < 65536
}.

Lemma opts_len w : slen (wire_opts w) = if w_mss w is Some _ then 4 else 0.
Proof. unfold wire_opts. by destruct (w_mss w). Qed.
Lemma fixed_len src dest w : length (wire_fixed src dest w) = 20%nat.
Proof. done. Qed.
Lemma header_words w : let x := TCPH_HDRLEN_FLAGS (5 + slen (wire_opts w) / 4) (w_hdr w) in
  0 <= x < 65536 /\ u8 (TCPH_HDRLEN x * 4) = TCP_HLEN + slen (wire_opts w) /\ TCPH_FLAGS x = w_hdr w.
Proof.
  intros x. subst x. rewrite opts_len. destruct (w_mss w) as [m|].
  - apply (hdrlen_word 6 (w_hdr w)). by right.
  - apply (hdrlen_word 5 (w_hdr w)). by left.
Qed.

Lemma fields_read src dest w t : wire_fits src dest w -> let q := wire_fixed src dest w ++ t in
  get16 q 0 = src /\ get16 q 2 = dest /\ get32 q 4 = w_seqno w /\ get32 q 8 = w_ackno w /\
  get16 q 12 = TCPH_HDRLEN_FLAGS (5 + slen (wire_opts w) / 4) (w_hdr w) /\ get16 q 14 = w_wnd w.
Proof.
  intros [H1 H2 H3 H4 H5] q. pose proof (header_words w) as (H6 & _). cbv zeta in H6.
  unfold wire_fixed in q. set (x := TCPH_HDRLEN_FLAGS _ _) in *. clearbody x. subst q. unfold get16, get32, byte_at. cbn -[lwip_htons lwip_htonl le32 Z.div Z.modulo Z.add Z.mul].
  rewrite !get_put16, !get_put32 by done. done.
Qed.

(** ** Cutting the chain *)
Lemma app_cut {T} (a b q r : list T) : q ++ r = a ++ b -> (length a <= length q)%nat -> exists t, q = a ++ t /\ b = t ++ r.
Proof.
  intros E H. exists (drop (length a) q). assert (Ha : take (length a) q = a).
  { rewrite <- (take_app_le q r) by done. by rewrite E, take_app_length. }
  assert (Hq : q = a ++ drop (length a) q) by (rewrite <- (take_drop (length a) q) at 1; by rewrite Ha).
  split; [done|]. apply (app_inv_head a). by rewrite <- E, app_assoc, <- Hq.
Qed.

(** The header is in the first pbuf, the options end in the second at the latest. *)
Definition header_fits (hdr : list Z) (p : list (list Z)) : Prop :=
  match p with
  | [] => False
  | q :: rest => TCP_HLEN <= slen q /\ slen hdr <= slen q + match rest with [] => 0 | q2 :: _ => slen q2 end
  end.

Lemma split_read fixed opts data q rest : slen fixed = TCP_HLEN -> header_fits (fixed ++ opts) (q :: rest) ->
  q ++ concat rest = fixed ++ opts ++ data -> small_pbufs (q :: rest) ->
  exists p, split_options (TCP_HLEN + slen opts) q rest = Some (opts, p) /\ concat p = data /\ small_pbufs p.
Proof.
  intros Hf [H1 H2] E Hs. apply Forall_cons in Hs as [Hq Hr].
  destruct (app_cut fixed (opts ++ data) q (concat rest) E) as (t & -> & Et); [unfold slen in *; lia|].
  assert (Hd : drop (Z.to_nat TCP_HLEN) (fixed ++ t) = t) by (apply drop_app_length'; unfold slen in *; lia).
  assert (Hn : forall n l, 0 <= n -> Z.to_nat (n + slen l) = (Z.to_nat n + length l)%nat) by (unfold slen; lia).
  unfold split_options. rewrite Hd. rewrite !slen_app, Hf in *.
  destruct (Z.leb_spec (TCP_HLEN + slen opts) (TCP_HLEN + slen t)) as [L|L].
  - destruct (app_cut opts data t (concat rest)) as (t' & -> & ->); [done|unfold slen in *; lia|].
    exists (t' :: rest). split; [|split; [done|]].
    + rewrite Hn by done. rewrite <- drop_drop, Hd, drop_app_length.
      replace (Z.to_nat (TCP_HLEN + slen opts - TCP_HLEN)) with (length opts) by (unfold slen; lia).
      by rewrite take_app_length.
    + apply Forall_cons. rewrite !length_app in Hq. split; [lia|done].
  - destruct (app_cut t (concat rest) opts data) as (o & -> & E2); [done|unfold slen in *; lia|].
    destruct rest as [|q2 rest]; [unfold slen in *; lia|]. apply Forall_cons in Hr as [Hq2 Hr]. rewrite slen_app in *.
    destruct (app_cut o data q2 (concat rest)) as (q' & -> & ->); [by rewrite <- E2|unfold slen in *; lia|].
    replace (TCP_HLEN + (slen t + slen o) - TCP_HLEN - slen t) with (slen o) by lia.
    destruct (Z.ltb_spec (slen (o ++ q')) (slen o)) as [L2|_]; [rewrite slen_app in L2; unfold slen in L2; lia|].
    replace (Z.to_nat (slen o)) with (length o) by (unfold slen; lia). rewrite take_app_length, drop_app_length.
    exists ([] :: q' :: rest). split; [done|]. split; [done|]. rewrite length_app in Hq2.
    repeat (apply Forall_cons; split); cbn; done || lia.
Qed.

(** ** The option *)
Lemma htonl_bytes v : le32_bytes (lwip_htonl v) =
  [v / 16777216 mod 256; v / 65536 mod 256; v / 256 mod 256; v mod 256].
Proof.
  unfold le32_bytes. change 16777216 with (2 ^ 24). change 65536 with (2 ^ 16). change 256 with (2 ^ 8).
  rewrite <- !Z.shiftr_div_pow2, <- !Z.land_ones by lia. f_equal; [|f_equal; [|f_equal; [|f_equal]]]; bytewise.
Qed.
Lemma mss_option_bytes m : 0 <= m < 65536 -> TCP_BUILD_MSS_OPTION m = [2; 4; m / 256; m mod 256].
Proof.
  intros H. unfold TCP_BUILD_MSS_OPTION. rewrite htonl_bytes.
  assert (E : Z.lor 0x02040000 (Z.land m 0xFFFF) = 0x02040000 + m).
  { change 0xFFFF with (Z.ones 16). rewrite Z.land_ones, Z.mod_small by lia. rewrite <- Z.add_lor_land.
    replace (Z.land 0x02040000 m) with 0; [lia|]. change 0x02040000 with (Z.shiftl 0x204 16).
    rewrite <- (Z.mod_small m (2 ^ 16)), <- Z.land_ones by lia. prove_Zeq_bitwise. }
  rewrite E. f_equal; [|f_equal; [|f_equal; [|f_equal]]]; Z.to_euclidean_division_equations; lia.
Qed.
(** The segment size that the peer stores: the one announced, at most TCP_MSS. *)
Lemma mss_option_read m m0 : 0 <= m < 65536 ->
  parseopt_loop 5 (TCP_BUILD_MSS_OPTION m) 0 m0 = if (TCP_MSS <? m) || (m =? 0) then TCP_MSS else m.
Proof.
  intros H. rewrite mss_option_bytes by done.
  assert (E : u16 (Z.lor (u16 (Z.shiftl (m / 256) 8)) (m mod 256)) = m).
  { change 256 with (2 ^ 8). rewrite <- Z.shiftr_div_pow2, <- Z.land_ones by lia. transitivity (Z.land m (Z.ones 16)).
    - clear H. bytewise.
    - rewrite Z.land_ones by lia. by apply Z.mod_small. }
  transitivity (let v := u16 (Z.lor (u16 (Z.shiftl (m / 256) 8)) (m mod 256)) in
    if (TCP_MSS <? v) || (v =? 0) then TCP_MSS else v); [reflexivity|]. cbv zeta. by rewrite E.
Qed.

(** C19. What tcp_input makes of a packet that this stack has built, however it arrives
    cut into pbufs (the fixed header in the first, the options in the first two), is the
    segment that was sent: ports, numbers, flags, window, options and data. *)
Theorem tcp_header_roundtrip src dest w ip inp p : wire_fits src dest w -> header_fits (wire_header src dest w) p ->
  concat p = wire_header src dest w ++ w_data w -> small_pbufs p ->
  ip4_addr_isbroadcast ip inp = false -> ip4_addr_ismulticast ip = false ->
  exists i, tcp_parse ip inp p = Some (src, dest, i) /\ arrives w i /\ i_opts i = wire_opts w.
Proof.
  intros Hw Hh E Hs B1 B2. unfold tcp_parse. destruct p as [|q rest]; [done|]. cbn [concat] in E.
  destruct (split_read (wire_fixed src dest w) (wire_opts w) (w_data w) q rest) as (p' & Es & Ed & Hp); [done..| |done|].
  { unfold wire_header in E. by rewrite E, <- app_assoc. }
  destruct (app_cut (wire_fixed src dest w) (wire_opts w ++ w_data w) q (concat rest)) as (t & Eq & Et).
  { unfold wire_header in E. by rewrite E, <- app_assoc. }
  { destruct Hh as [Hh _]. unfold slen, TCP_HLEN in Hh. rewrite fixed_len. lia. }
  destruct (Z.ltb_spec (slen q) TCP_HLEN) as [L|_]; [destruct Hh; lia|]. rewrite B1, B2. cbn [orb].
  pose proof (fields_read src dest w t Hw) as (F1 & F2 & F3 & F4 & F5 & F6). rewrite <- Eq in *. rewrite F1, F2, F3, F4, F5, F6.
  destruct (header_words w) as (_ & W2 & W3). rewrite W2, W3.
  destruct (Z.ltb_spec (TCP_HLEN + slen (wire_opts w)) TCP_HLEN) as [L|_]; [unfold slen in L; lia|].
  destruct (Z.ltb_spec (tot_len (q :: rest)) (TCP_HLEN + slen (wire_opts w))) as [L|_].
  { unfold tot_len in L. cbn [concat] in L. rewrite E in L. unfold wire_header in L. rewrite !length_app, fixed_len in L.
    unfold slen, TCP_HLEN in L. lia. }
  cbn [orb]. rewrite Es. eexists. split; [done|]. split; [|done]. by constructor.
Qed.

(** A SYN whose option is cut by the end of the first pbuf; with a pbuf more it is dropped. *)
Definition syn_wire : tcp_wire := mkWire 0xdeadbeef 0 (no_flags <| TCP_SYN := true |>) 2920 (Some 1460) [].
Definition syn_chain (cuts : list nat) : list (list Z) :=
  let b := wire_header 8000 49153 syn_wire in
  (fix go (b : list Z) cuts := match cuts with [] => [b] | n :: cuts => take n b :: go (drop n b) cuts end) b cuts.
Definition sim_netif : ip_netif := mkIpNetif 0 0x0a01a8c0 0x00ffffff 0x0101a8c0 7 1500.
Example syn_parsed : tcp_parse 0x0a01a8c0 sim_netif (syn_chain [22%nat]) =
  Some (8000, 49153, mkIn (no_flags <| TCP_SYN := true |>) 0xdeadbeef 0 2920 [2; 4; 5; 180] [[]; []]).
Proof. vm_compute. reflexivity. Qed.
Example syn_three_pbufs : tcp_parse 0x0a01a8c0 sim_netif (syn_chain [21%nat; 1%nat]) = None.
Proof. vm_compute. reflexivity. Qed.
Lemma tcp_header_roundtrip_witness : exists i,
  tcp_parse 0x0a01a8c0 sim_netif (syn_chain [22%nat]) = Some (8000, 49153, i) /\ arrives syn_wire i /\ i_opts i = [2; 4; 5; 180].
Proof.
  apply (tcp_header_roundtrip 8000 49153 syn_wire 0x0a01a8c0 sim_netif (syn_chain [22%nat])).
  - constructor; vm_compute; split; done || discriminate.
  - vm_compute. split; discriminate.
  - vm_compute. reflexivity.
  - repeat (apply Forall_cons; split); vm_compute; done || discriminate || apply Forall_nil_2.
  - vm_compute. reflexivity.
  - vm_compute. reflexivity.
Defined.
