(* ===== verification/TcpPort.v ===== *)
(** * TCP ports (lwIP core/tcp.c)

    The lists of control blocks as far as [tcp_bind], [tcp_new_port], [tcp_connect] and
    [tcp_listen_with_backlog] look at them: the local end points of the listening, bound,
    active and waiting blocks, with the static [tcp_port].  No SO_REUSE, IPv4 only. *)
From S2P Require Import Prelude Ip4Addr Net.

(** A block: its address, [local_ip] and [local_port]. *)
Record end_point := mkEnd { pcb_addr : Z; local_ip : Z; local_port : Z }.
#[export] Instance end_point_eta : Eta end_point := fun e => mkEnd (pcb_addr e) (local_ip e) (local_port e).
#[export] Instance end_point_eq_dec : EqDecision end_point.
Proof. solve_decision. Defined.

Record tcp_lists := mkLists {
  tcp_port : Z;
  tcp_listen_pcbs : list end_point; tcp_bound_pcbs : list end_point;
  tcp_active_pcbs : list end_point; tcp_tw_pcbs : list end_point
}.
#[export] Instance tcp_lists_eta : Eta tcp_lists := fun t =>
  mkLists (tcp_port t) (tcp_listen_pcbs t) (tcp_bound_pcbs t) (tcp_active_pcbs t) (tcp_tw_pcbs t).

Definition TCP_LOCAL_PORT_RANGE_START : Z := 0xc000.
Definition TCP_LOCAL_PORT_RANGE_END : Z := 0xffff.

(** [tcp_pcb_lists], all four one after the other. *)
Definition tcp_pcb_lists (t : tcp_lists) : list end_point :=
  tcp_listen_pcbs t ++ tcp_bound_pcbs t ++ tcp_active_pcbs t ++ tcp_tw_pcbs t.

(** The lists after start-up. *)
Definition tcp_lists_init : tcp_lists := mkLists TCP_LOCAL_PORT_RANGE_START [] [] [] [].

Definition port_used (port : Z) (t : tcp_lists) : bool :=
  existsb (fun e => local_port e =? port) (tcp_pcb_lists t).

(** The loop [again]: a round either ends or counts one more port in use, hence the fuel. *)
Definition next_port (port : Z) : Z :=
  if port =? TCP_LOCAL_PORT_RANGE_END then TCP_LOCAL_PORT_RANGE_START else u16 (port + 1).
Fixpoint new_port_loop (fuel : nat) (n : Z) : M tcp_lists Z :=
  match fuel with
  | O => ret 0
  | S fuel =>
      modify (fun t => t <| tcp_port := next_port (tcp_port t) |>) ;;;
      t <- gets id ;;
      if port_used (tcp_port t) t then
        let n := u16 (n + 1) in
        if TCP_LOCAL_PORT_RANGE_END - TCP_LOCAL_PORT_RANGE_START <? n then ret 0 else new_port_loop fuel n
      else ret (tcp_port t)
  end.
Definition tcp_new_port : M tcp_lists Z :=
  new_port_loop (Z.to_nat (TCP_LOCAL_PORT_RANGE_END - TCP_LOCAL_PORT_RANGE_START + 1)) 0.

(** Two blocks that cannot both be bound. *)
Definition conflict (ipaddr port : Z) (e : end_point) : bool :=
  (local_port e =? port) &&
  ((local_ip e =? IPADDR_ANY) || (ipaddr =? IPADDR_ANY) || (local_ip e =? ipaddr)).

(** [tcp_bind] of a block in state CLOSED ([closed]) whose end point is [e]. *)
Definition tcp_bind (closed : bool) (e : end_point) (ipaddr : option Z) (port : Z)
  : M tcp_lists (Z * end_point) :=
  let ipaddr := default IPADDR_ANY ipaddr in
  if negb closed then ret (ERR_VAL, e) else
  t <- gets id ;;
  port <- (if port =? 0 then p <- tcp_new_port ;; ret (if p =? 0 then inl ERR_BUF else inr p)
           else if existsb (conflict ipaddr port) (tcp_pcb_lists t) then ret (inl ERR_USE)
           else ret (inr port)) ;;
  match port with
  | inl err => ret (err, e)
  | inr port =>
      let e := (if ipaddr =? IPADDR_ANY then e else e <| local_ip := ipaddr |>) <| local_port := port |> in
      modify (fun t => t <| tcp_bound_pcbs := e :: tcp_bound_pcbs t |>) ;;;
      ret (ERR_OK, e)
  end.

(** [TCP_RMV] of the block at an address; nothing when it is not on the list. *)
Fixpoint list_rmv (e : end_point) (q : list end_point) : list end_point :=
  match q with
  | [] => []
  | x :: q => if pcb_addr x =? pcb_addr e then q else x :: list_rmv e q
  end.

(** [tcp_listen_with_backlog] of the block [e]; [lpcb] is the address of the listening block
    that was allocated in its place, if there was memory. *)
Definition tcp_listen (closed : bool) (lpcb : option Z) (e : end_point) : M tcp_lists Z :=
  if negb closed then ret ERR_CLSD else
  match lpcb with None => ret ERR_MEM | Some lpcb =>
  (if negb (local_port e =? 0)
   then modify (fun t => t <| tcp_bound_pcbs := list_rmv e (tcp_bound_pcbs t) |>) else ret tt) ;;;
  modify (fun t => t <| tcp_listen_pcbs := e <| pcb_addr := lpcb |> :: tcp_listen_pcbs t |>) ;;;
  ret ERR_OK
  end.

(** ** The free port *)

Definition in_port_range (p : Z) : Prop := TCP_LOCAL_PORT_RANGE_START <= p <= TCP_LOCAL_PORT_RANGE_END.
(** The port after [k] steps from [p]. *)
Definition port_after (p k : Z) : Z :=
  TCP_LOCAL_PORT_RANGE_START +
  (p - TCP_LOCAL_PORT_RANGE_START + k) mod (TCP_LOCAL_PORT_RANGE_END - TCP_LOCAL_PORT_RANGE_START + 1).
#[local] Ltac unfold_ports :=
  unfold port_after, next_port, in_port_range, TCP_LOCAL_PORT_RANGE_END, TCP_LOCAL_PORT_RANGE_START in *.


Lemma next_in_range p : in_port_range p -> in_port_range (next_port p).
Proof. unfold_ports. intros Hp. destruct (Z.eqb_spec p 65535); [lia|]. rewrite u16_small; lia. Qed.
Lemma next_after p k : in_port_range p -> 0 <= k -> next_port (port_after p k) = port_after p (k + 1).
Proof.
  unfold_ports. intros Hp Hk. replace (p - 49152 + (k + 1)) with (p - 49152 + k + 1) by lia.
  rewrite <- (Zplus_mod_idemp_l (p - 49152 + k) 1). pose proof (Z.mod_pos_bound (p - 49152 + k) (65535 - 49152 + 1) ltac:(lia)) as Hr.
  set (r := (p - 49152 + k) mod (65535 - 49152 + 1)) in *. clearbody r.
  destruct (Z.eqb_spec (49152 + r) 65535) as [E|N].
  - assert (r = 16383) as -> by lia. done.
  - rewrite u16_small, Z.mod_small; lia.
Qed.
Lemma after_range p k : in_port_range (port_after p k).
Proof. unfold_ports. pose proof (Z.mod_pos_bound (p - 49152 + k) (65535 - 49152 + 1)). lia. Qed.
Lemma after_onto p q : in_port_range p -> in_port_range q ->
  exists k, 1 <= k <= TCP_LOCAL_PORT_RANGE_END - TCP_LOCAL_PORT_RANGE_START + 1 /\ port_after p k = q.
Proof.
  unfold_ports. intros Hp Hq. exists ((q - p - 1) mod 16384 + 1).
  Z.to_euclidean_division_equations; lia.
Qed.

(** After [n] rounds that failed. *)
Definition tried (p0 n : Z) (t : tcp_lists) : Prop :=
  tcp_port t = port_after p0 n /\ forall k, 1 <= k <= n -> port_used (port_after p0 k) t = true.

Lemma port_used_port port t q : port_used port (t <| tcp_port := q |>) = port_used port t.
Proof. done. Qed.

Definition new_port_result (r : Z) (t t' : tcp_lists) : Prop :=
  t' = t <| tcp_port := tcp_port t' |> /\ in_port_range (tcp_port t') /\
  (r = 0 /\ (forall q, in_port_range q -> port_used q t = true) \/
   in_port_range r /\ port_used r t = false /\ tcp_port t' = r).

Lemma new_port_loop_spec p0 fuel n t0 t : in_port_range p0 ->
  n + Z.of_nat fuel = TCP_LOCAL_PORT_RANGE_END - TCP_LOCAL_PORT_RANGE_START + 1 -> 0 <= n -> (0 < fuel)%nat ->
  t = t0 <| tcp_port := tcp_port t |> -> tried p0 n t ->
  wp (new_port_loop fuel n) (fun r t' => new_port_result r t0 t') t.
Proof.
  intros Hp. revert n t. induction fuel as [|fuel IH]; intros n t Hn H0 Hf Et [E Hu]; cbn [new_port_loop]; [lia|].
  apply wp_bind, wp_modify. rewrite E, next_after by done. apply wp_bind, wp_gets. cbn [id tcp_port].
  rewrite port_used_port. change (tcp_port (t <| tcp_port := port_after p0 (n + 1) |>)) with (port_after p0 (n + 1)).
  assert (Es : port_used (port_after p0 (n + 1)) t = port_used (port_after p0 (n + 1)) t0) by (by rewrite Et).
  destruct (port_used _ t) eqn:Eu.
  - rewrite u16_small by (unfold_ports; lia).
    assert (Hall : forall k, 1 <= k <= n + 1 -> port_used (port_after p0 k) t = true).
    { intros k Hk. destruct (decide (k = n + 1)) as [->|]; [done|]. apply Hu. lia. }
    destruct (Z.ltb_spec (TCP_LOCAL_PORT_RANGE_END - TCP_LOCAL_PORT_RANGE_START) (n + 1)) as [Hlt|Hge].
    + apply wp_ret. split; [by rewrite Et|]. split; [apply after_range|]. left. split; [done|]. intros q Hq.
      destruct (after_onto p0 q Hp Hq) as (k & Hk & <-). rewrite <- (Hall k) by lia. by rewrite Et.
    + apply IH; [lia..| |]; [by rewrite Et|]. split; [done|]. intros k Hk. rewrite port_used_port. auto.
  - apply wp_ret. split; [by rewrite Et|]. split; [apply after_range|]. right. split; [apply after_range|]. done.
Qed.

Lemma tcp_new_port_spec t : in_port_range (tcp_port t) -> wp tcp_new_port (fun r t' => new_port_result r t t') t.
Proof.
  intros Hp. unfold tcp_new_port. apply (new_port_loop_spec (tcp_port t) _ 0 t t Hp).
  - unfold_ports. lia.
  - done.
  - unfold_ports. lia.
  - by destruct t.
  - split; [|intros k Hk; lia]. unfold_ports. rewrite Z.mod_small; lia.
Qed.

(** tcp_new_port always ends: with a port of the dynamic range that no control block
    uses, or, exactly when every port of the range is in use, with 0; it changes nothing
    but tcp_port. *)
Theorem tcp_new_port_free t : in_port_range (tcp_port t) ->
  wp tcp_new_port (fun r t' => new_port_result r t t' /\
    (r = 0 <-> forall q, in_port_range q -> port_used q t = true)) t.
Proof.
  intros Hp. eapply wp_mono; [by apply tcp_new_port_spec|]. cbv beta. intros r t' (H1 & H2 & H3). split; [done|].
  destruct H3 as [[-> H3]|(H3 & H4 & H5)]; [done|].
  split; [unfold_ports; intros ->; lia|]. intros H. by rewrite H in H4.
Qed.

Definition some_used : tcp_lists := mkLists 65535 [mkEnd 1 0 49152] [mkEnd 2 7 49153] [] [mkEnd 3 9 49154].
Example new_port_skips : tcp_new_port some_used = (49155, some_used <| tcp_port := 49155 |>).
Proof. vm_compute. reflexivity. Qed.
Lemma tcp_new_port_free_witness :
  wp tcp_new_port (fun r t' => new_port_result r some_used t' /\
    (r = 0 <-> forall q, in_port_range q -> port_used q some_used = true)) some_used.
Proof. apply (tcp_new_port_free some_used). vm_compute. split; discriminate. Defined.

(** ** Binding *)
Section Apart.
Context {T : Type} (R : T -> T -> Prop) (Hsym : forall a b, R a b -> R b a).
Lemma pairs_perm (l k : list T) : Permutation l k -> ForallOrdPairs R l -> ForallOrdPairs R k.
Proof.
  induction 1 as [|x l k P IH|x y l|l k m P1 IH1 P2 IH2]; auto.
  - intros F. inversion F as [|? ? F1 F2]; subst. constructor; [by rewrite <- P|auto].
  - intros F. inversion F as [|? ? F1 F2]; subst. inversion F2 as [|? ? F3 F4]; subst.
    apply Forall_cons in F1 as [F0 F1]. constructor; [apply Forall_cons; auto|by constructor].
Qed.
End Apart.

Definition apart (a b : end_point) : Prop := conflict (local_ip a) (local_port a) b = false.
Lemma apart_sym a b : apart a b -> apart b a.
Proof.
  unfold apart, conflict. rewrite (Z.eqb_sym (local_port a)), (Z.eqb_sym (local_ip a) (local_ip b)).
  destruct (local_port b =? local_port a), (local_ip b =? IPADDR_ANY), (local_ip a =? IPADDR_ANY), (local_ip b =? local_ip a); done.
Qed.
(** The blocks that own their end point: those bound and not yet connected, and the listeners. *)
Definition owners_apart (t : tcp_lists) : Prop := ForallOrdPairs apart (tcp_listen_pcbs t ++ tcp_bound_pcbs t).

(** An address or port that conflicts with nothing is no less free with an address filled in. *)
Lemma unused_apart a port ip q : existsb (fun e => local_port e =? port) q = false ->
  Forall (apart (mkEnd a ip port)) q.
Proof.
  induction q as [|x q IH]; cbn [existsb]; [done|]. intros [H1 H2]%orb_false_iff. constructor; [|auto].
  unfold apart, conflict. cbn. by rewrite H1.
Qed.
Lemma free_apart a ip ipaddr port q : ip = ipaddr \/ ipaddr = IPADDR_ANY ->
  existsb (conflict ipaddr port) q = false -> Forall (apart (mkEnd a ip port)) q.
Proof.
  intros Hi. induction q as [|x q IH]; cbn [existsb]; [done|]. intros [H1 H2]%orb_false_iff. constructor; [|auto].
  unfold apart. cbn [local_ip local_port]. destruct Hi as [->| ->]; [done|]. unfold conflict in *. rewrite Z.eqb_refl in H1.
  rewrite orb_true_r in H1. by rewrite andb_true_r in H1; rewrite H1.
Qed.

(** The port [tcp_bind] may give to a block that asks for [port]. *)
Definition takes (ip port p : Z) (t : tcp_lists) : Prop :=
  if port =? 0 then in_port_range p /\ port_used p t = false
  else p = port /\ existsb (conflict ip port) (tcp_pcb_lists t) = false.
Definition bound_end (ip p : Z) (e : end_point) : end_point :=
  mkEnd (pcb_addr e) (if ip =? IPADDR_ANY then local_ip e else ip) p.
Definition bind_result (closed : bool) (e : end_point) (ip port : Z) (t : tcp_lists) (x : Z * end_point)
  (t' : tcp_lists) : Prop :=
  (exists p, x = (ERR_OK, bound_end ip p e) /\ closed = true /\ takes ip port p t /\
     t' = t <| tcp_port := tcp_port t' |> <| tcp_bound_pcbs := bound_end ip p e :: tcp_bound_pcbs t |>) \/
  (exists err, x = (err, e) /\ err <> ERR_OK /\ (closed = true -> forall p, ~ takes ip port p t) /\
     t' = t <| tcp_port := tcp_port t' |>).

Lemma takes_apart ip port p t e : takes ip port p t ->
  Forall (apart (bound_end ip p e)) (tcp_listen_pcbs t ++ tcp_bound_pcbs t).
Proof.
  intros H. assert (F : Forall (apart (bound_end ip p e)) (tcp_pcb_lists t)).
  { unfold takes in H. unfold bound_end. destruct (port =? 0).
    - apply unused_apart, H.
    - destruct H as [-> H]. eapply free_apart; [|exact H]. destruct (Z.eqb_spec ip IPADDR_ANY); auto. }
  unfold tcp_pcb_lists in F. rewrite !Forall_app in *. tauto.
Qed.

Lemma bind_spec closed e ipaddr port t : in_port_range (tcp_port t) ->
  wp (tcp_bind closed e ipaddr port)
    (fun x t' => bind_result closed e (default IPADDR_ANY ipaddr) port t x t' /\ in_port_range (tcp_port t')) t.
Proof.
  intros Hp. set (ip := default IPADDR_ANY ipaddr). unfold tcp_bind. fold ip.
  assert (Hout : forall err t', err <> ERR_OK -> (closed = true -> forall p, ~ takes ip port p t) ->
    t' = t <| tcp_port := tcp_port t' |> -> bind_result closed e ip port t (err, e) t') by (intros; right; by exists err).
  destruct closed; cbn [negb]; [|apply wp_ret; split; [apply Hout; [done..|by destruct t]|done]].
  apply wp_bind, wp_gets. cbn [id]. apply wp_bind.
  apply (wp_mono _ (fun o t1 => t1 = t <| tcp_port := tcp_port t1 |> /\ in_port_range (tcp_port t1) /\
    match o with inl err => err <> ERR_OK /\ forall p, ~ takes ip port p t | inr p => takes ip port p t end)).
  - unfold takes. destruct (Z.eqb_spec port 0) as [->|N].
    + apply wp_bind. eapply wp_mono; [by apply tcp_new_port_spec|]. cbv beta. intros r t1 (H1 & H2 & H3). apply wp_ret.
      do 2 (split; [done|]). destruct H3 as [[-> H3]|(H3 & H4 & H5)].
      * cbn. split; [done|]. intros p [H4 H5]. by rewrite H3 in H5.
      * destruct (Z.eqb_spec r 0) as [->|]; [unfold_ports; lia|done].
    + destruct (existsb _ _) eqn:Ec; apply wp_ret; (split; [by destruct t|]); (split; [done|]); [|done].
      split; [done|]. by intros p [_ H].
  - cbv beta. intros [err|p] t1 (E1 & H1 & H2).
    + apply wp_ret. split; [|done]. apply Hout; [apply H2|intros _; apply H2|done].
    + cbv zeta. apply wp_bind, wp_modify, wp_ret. split; [|done]. left. exists p.
      unfold bound_end. split; [by destruct (ip =? IPADDR_ANY), e|]. do 2 (split; [done|]). rewrite E1.
      by destruct (ip =? IPADDR_ANY), e, t.
Qed.

(** tcp_bind succeeds exactly on a closed block whose address and port conflict with no
    other block (for port 0: when a dynamic port is free, which it takes) and puts it on
    the bound list; on an error neither the block nor a list changes. Bound and
    listening blocks never conflict. *)
Theorem tcp_bind_exact closed e ipaddr port t : in_port_range (tcp_port t) -> owners_apart t ->
  wp (tcp_bind closed e ipaddr port) (fun x t' => owners_apart t' /\ in_port_range (tcp_port t') /\
    bind_result closed e (default IPADDR_ANY ipaddr) port t x t') t.
Proof.
  intros Hp Ho. eapply wp_mono; [by apply bind_spec|]. cbv beta. intros x t' [B Hr]. split; [|done].
  destruct B as [(p & _ & _ & Ht & ->)|(err & _ & _ & _ & ->)]; [|done].
  unfold owners_apart. cbn. eapply pairs_perm; [apply apart_sym|apply Permutation_middle|].
  constructor; [by eapply takes_apart|done].
Qed.
Lemma tcp_bind_exact_witness : let t := mkLists 49152 [mkEnd 1 0 80] [mkEnd 2 7 1234] [] [] in
  wp (tcp_bind true (mkEnd 3 0 0) (Some 8) 1234) (fun x t' => owners_apart t' /\ in_port_range (tcp_port t') /\
    bind_result true (mkEnd 3 0 0) 8 1234 t x t') t.
Proof.
  intros t. apply (tcp_bind_exact true (mkEnd 3 0 0) (Some 8) 1234 t).
  - split; discriminate.
  - repeat constructor.
Defined.

(** A bound block that starts to listen keeps its end point. *)
Definition listening_as (lpcb : Z) (e : end_point) : end_point := e <| pcb_addr := lpcb |>.
Lemma list_rmv_perm e q : e ∈ q -> NoDup (map pcb_addr q) -> Permutation q (e :: list_rmv e q).
Proof.
  induction q as [|x q IH]; [by intros ?%elem_of_nil|]. cbn [list_rmv map]. intros He [Hx Hq]%NoDup_cons.
  destruct (Z.eqb_spec (pcb_addr x) (pcb_addr e)) as [E|N].
  - apply elem_of_cons in He as [->|He]; [done|]. destruct Hx. rewrite E. apply list_elem_of_fmap. by exists e.
  - apply elem_of_cons in He as [->|He]; [done|]. rewrite (IH He Hq) at 1. apply Permutation_swap.
Qed.
Lemma apart_listening lpcb e q : Forall (apart e) q -> Forall (apart (listening_as lpcb e)) q.
Proof. done. Qed.
Lemma listen_apart closed lpcb e t : owners_apart t -> e ∈ tcp_bound_pcbs t -> NoDup (map pcb_addr (tcp_bound_pcbs t)) ->
  local_port e <> 0 -> wp (tcp_listen closed lpcb e) (fun err t' => owners_apart t') t.
Proof.
  intros Ho He Hd Hn. unfold tcp_listen. destruct closed; [|by apply wp_ret]. destruct lpcb as [lpcb|]; [|by apply wp_ret].
  cbn [negb]. apply wp_bind. destruct (Z.eqb_spec (local_port e) 0); [done|]. cbn [negb].
  apply wp_modify, wp_bind, wp_modify, wp_ret. unfold owners_apart in *. cbn.
  assert (P : Permutation (tcp_listen_pcbs t ++ tcp_bound_pcbs t) (e :: tcp_listen_pcbs t ++ list_rmv e (tcp_bound_pcbs t))).
  { rewrite Permutation_middle. apply Permutation_app_head. by apply list_rmv_perm. }
  apply (pairs_perm apart apart_sym _ _ P) in Ho. inversion Ho as [|? ? F1 F2]; subst. constructor; [by apply apart_listening|done].
Qed.
