(* ===== verification/TcpAlloc.v ===== *)
(** * The control blocks of TCP when memory is short (lwIP core/tcp.c)

    [tcp_alloc] and the functions that take a block from another connection for it,
    [tcp_abandon] as far as the lists go, and what happens to the connections when the address
    of the interface changes.  What a block's queues hold, resets that are sent and the error
    callbacks are the class [TcbEnv]; the callbacks of the bootloader leave the blocks alone. *)
From S2P Require Import Prelude Ip4Addr Net Tcp TcpPort.

Definition TCP_PRIO_MIN : Z := 1.
Definition TCP_PRIO_NORMAL : Z := 64.
Definition TCP_PRIO_MAX : Z := 127.

Record tcb := mkTcb { t_end : end_point; t_prio : Z; t_tmr : Z; t_state : tcp_state }.
#[export] Instance tcb_eta : Eta tcb := fun t => mkTcb (t_end t) (t_prio t) (t_tmr t) (t_state t).
Definition tcb_addr (t : tcb) : Z := pcb_addr (t_end t).

Definition tcp_setprio (prio : Z) (t : tcb) : tcb := t <| t_prio := prio |>.

(** [tcp_segs_free] of the queues of a block, [tcp_rst] and [TCP_EVENT_ERR].  The error
    callbacks of ota.c and version_check.c only write variables of their own: [event_err] does
    not come back to the lists. *)
Class TcbEnv (A : Type) := { queues_free : Z -> A -> A; send_rst : Z -> A -> A; event_err : Z -> A -> A }.

(** The free elements of the pool, the lists, [tcp_ticks], and the rest. *)
Record tcb_sys (A : Type) := mkTcbs {
  free_tcbs : list Z;
  bound_tcbs : list tcb; active_tcbs : list tcb; tw_tcbs : list tcb; listen_ends : list end_point;
  ticks : Z; env : A
}.
Arguments mkTcbs {A}. Arguments free_tcbs {A}. Arguments bound_tcbs {A}. Arguments active_tcbs {A}.
Arguments tw_tcbs {A}. Arguments listen_ends {A}. Arguments ticks {A}. Arguments env {A}.
#[export] Instance tcb_sys_eta A : Eta (tcb_sys A) := fun s =>
  mkTcbs (free_tcbs s) (bound_tcbs s) (active_tcbs s) (tw_tcbs s) (listen_ends s) (ticks s) (env s).

(** [TCP_RMV]. *)
Fixpoint rmv_tcb (a : Z) (l : list tcb) : list tcb :=
  match l with
  | [] => []
  | t :: l => if tcb_addr t =? a then l else t :: rmv_tcb a l
  end.

Section Code.
Context {A : Type} `{!TcbEnv A}.
#[local] Abbreviation MT := (M (tcb_sys A)).

Definition on_env (f : A -> A) : MT unit := modify (fun s => s <| env := f (env s) |>).
Definition memp_free_tcb (a : Z) : MT unit := modify (fun s => s <| free_tcbs := a :: free_tcbs s |>).
Definition memp_malloc_tcb : MT (option Z) := fun s =>
  match free_tcbs s with
  | [] => (None, s)
  | a :: l => (Some a, s <| free_tcbs := l |>)
  end.

(** ** Giving up a connection *)
Definition tcp_abandon (t : tcb) (reset : bool) : MT unit :=
  let a := tcb_addr t in
  if bool_decide (t_state t = TIME_WAIT) then
    modify (fun s => s <| tw_tcbs := rmv_tcb a (tw_tcbs s) |>) ;;;
    on_env (queues_free a) ;;; memp_free_tcb a
  else
    send_rst_ <- (if bool_decide (t_state t = CLOSED) then
        (if negb (local_port (t_end t) =? 0)
         then modify (fun s => s <| bound_tcbs := rmv_tcb a (bound_tcbs s) |>) else ret tt) ;;;
        ret false
      else modify (fun s => s <| active_tcbs := rmv_tcb a (active_tcbs s) |>) ;;; ret reset) ;;
    on_env (queues_free a) ;;;
    (if send_rst_ : bool then on_env (send_rst a) else ret tt) ;;;
    memp_free_tcb a ;;;
    on_env (event_err a).
Definition tcp_abort (t : tcb) : MT unit := tcp_abandon t true.

(** ** Choosing a victim *)
Definition age (ticks : Z) (t : tcb) : Z := u32 (ticks - t_tmr t).
(** The loops: the blocks for which [f] holds, [inactivity] and [inactive]. *)
Fixpoint oldest (f : tcb -> bool) (ticks : Z) (l : list tcb) (inactivity : Z) (inactive : option tcb) : option tcb :=
  match l with
  | [] => inactive
  | t :: l =>
      if f t && (inactivity <=? age ticks t) then oldest f ticks l (age ticks t) (Some t)
      else oldest f ticks l inactivity inactive
  end.
(** The loop of [tcp_kill_prio]. *)
Fixpoint prio_scan (ticks : Z) (l : list tcb) (mprio inactivity : Z) (inactive : option tcb) : option tcb :=
  match l with
  | [] => inactive
  | t :: l =>
      if (t_prio t <=? mprio) && (inactivity <=? age ticks t) then prio_scan ticks l (t_prio t) (age ticks t) (Some t)
      else prio_scan ticks l mprio inactivity inactive
  end.

Definition tcp_kill_prio (prio : Z) : MT unit :=
  v <- gets (fun s => prio_scan (ticks s) (active_tcbs s) (Z.min TCP_PRIO_MAX prio) 0 None) ;;
  match v with Some t => tcp_abort t | None => ret tt end.
Definition tcp_kill_state (st : tcp_state) : MT unit :=
  v <- gets (fun s => oldest (fun t => bool_decide (t_state t = st)) (ticks s) (active_tcbs s) 0 None) ;;
  match v with Some t => tcp_abandon t false | None => ret tt end.
Definition tcp_kill_timewait : MT unit :=
  v <- gets (fun s => oldest (fun _ => true) (ticks s) (tw_tcbs s) 0 None) ;;
  match v with Some t => tcp_abort t | None => ret tt end.

(** ** Allocation *)
Fixpoint try_kills (kills : list (MT unit)) : MT (option Z) :=
  match kills with
  | [] => ret None
  | kill :: kills =>
      kill ;;; a <- memp_malloc_tcb ;;
      match a with Some a => ret (Some a) | None => try_kills kills end
  end.
Definition tcp_alloc (prio : Z) : MT (option tcb) :=
  a <- memp_malloc_tcb ;;
  a <- (match a with
        | Some a => ret (Some a)
        | None => try_kills [tcp_kill_timewait; tcp_kill_state LAST_ACK; tcp_kill_state CLOSING; tcp_kill_prio prio]
        end) ;;
  n <- gets ticks ;;
  ret ((fun a => mkTcb (mkEnd a 0 0) prio n CLOSED) <$> a).
Definition tcp_new : MT (option tcb) := tcp_alloc TCP_PRIO_NORMAL.

(** ** The address of the interface changes *)
Fixpoint ip_addr_changed_pcblist (old_addr : Z) (pcb_list : list tcb) : MT unit :=
  match pcb_list with
  | [] => ret tt
  | t :: l =>
      (if local_ip (t_end t) =? old_addr then tcp_abort t else ret tt) ;;;
      ip_addr_changed_pcblist old_addr l
  end.
(** [new_addr] is [None] when the interface was removed. *)
Definition tcp_netif_ip_addr_changed (old_addr : Z) (new_addr : option Z) : MT unit :=
  if negb (old_addr =? IPADDR_ANY) then
    l <- gets active_tcbs ;; ip_addr_changed_pcblist old_addr l ;;;
    l <- gets bound_tcbs ;; ip_addr_changed_pcblist old_addr l ;;;
    let new_addr := default IPADDR_ANY new_addr in
    if negb (new_addr =? IPADDR_ANY) then
      modify (fun s => s <| listen_ends :=
        map (fun e => if local_ip e =? old_addr then e <| local_ip := new_addr |> else e) (listen_ends s) |>)
    else ret tt
  else ret tt.
End Code.

(** ** The invariant

    Blocks are on the list of their state, and no element of the pool is in two places. *)
Definition addrs (l : list tcb) : list Z := map tcb_addr l.
Definition pool_of {A} (s : tcb_sys A) : list Z :=
  free_tcbs s ++ addrs (bound_tcbs s) ++ addrs (active_tcbs s) ++ addrs (tw_tcbs s).
Definition is_active (st : tcp_state) : Prop := st <> CLOSED /\ st <> LISTEN /\ st <> TIME_WAIT.
Record tcbs_ok {A} (s : tcb_sys A) : Prop := {
  to_pool : NoDup (pool_of s);
  to_bound : Forall (fun t => t_state t = CLOSED /\ local_port (t_end t) <> 0) (bound_tcbs s);
  to_active : Forall (fun t => is_active (t_state t)) (active_tcbs s);
  to_tw : Forall (fun t => t_state t = TIME_WAIT) (tw_tcbs s)
}.
Lemma ok_nodups {A} (s : tcb_sys A) : tcbs_ok s ->
  NoDup (addrs (bound_tcbs s)) /\ NoDup (addrs (active_tcbs s)) /\ NoDup (addrs (tw_tcbs s)).
Proof. intros [H _ _ _]. unfold pool_of in H. by apply NoDup_app in H as (_ & _ & (H1 & _ & (H2 & _ & H3)%NoDup_app)%NoDup_app). Qed.

(** The list without a block. *)
Definition without (a : Z) (l : list tcb) : list tcb := filter (fun t => tcb_addr t <> a) l.
Lemma without_notin a l : a ∉ addrs l -> without a l = l.
Proof.
  unfold without, addrs. induction l as [|t l IH]; [done|]. cbn [map]. rewrite not_elem_of_cons. intros [H1 H2].
  rewrite filter_cons_True by congruence. by rewrite IH.
Qed.
Lemma rmv_without a l : NoDup (addrs l) -> rmv_tcb a l = without a l.
Proof.
  unfold addrs. induction l as [|t l IH]; [done|]. cbn [map rmv_tcb]. intros [H1 H2]%NoDup_cons. unfold without.
  destruct (Z.eqb_spec (tcb_addr t) a) as [<-|N].
  - rewrite filter_cons_False by (intros H; by apply H). symmetry. by apply without_notin.
  - rewrite filter_cons_True by done. f_equal. by apply IH.
Qed.
Lemma without_perm t l : NoDup (addrs l) -> t ∈ l -> Permutation (addrs l) (tcb_addr t :: addrs (without (tcb_addr t) l)).
Proof.
  unfold addrs. induction l as [|x l IH]; [by intros _ ?%elem_of_nil|]. cbn [map]. intros [H1 H2]%NoDup_cons Ht. unfold without.
  apply elem_of_cons in Ht as [->|Ht].
  - rewrite filter_cons_False by (intros H; by apply H). fold (without (tcb_addr x) l). by rewrite without_notin.
  - rewrite filter_cons_True.
    + cbn [map]. rewrite (IH H2 Ht) at 1. apply Permutation_swap.
    + intros E. apply H1. rewrite E. by apply list_elem_of_fmap_2.
Qed.
Lemma without_forall P a l : Forall P l -> Forall P (without a l).
Proof. unfold without. rewrite !Forall_forall. intros H x [_ Hx]%list_elem_of_filter. by apply H. Qed.

(** ** Giving up *)
Section Abandon.
Context {A : Type} `{!TcbEnv A}.
Implicit Types (s : tcb_sys A) (t : tcb).

(** What becomes of a block on its list. *)
Definition gone t (reset : bool) s : tcb_sys A :=
  let a := tcb_addr t in
  let e := queues_free a (env s) in
  let s := s <| free_tcbs := a :: free_tcbs s |> in
  if bool_decide (t_state t = TIME_WAIT) then s <| tw_tcbs := without a (tw_tcbs s) |> <| env := e |>
  else if bool_decide (t_state t = CLOSED) then s <| bound_tcbs := without a (bound_tcbs s) |> <| env := event_err a e |>
  else s <| active_tcbs := without a (active_tcbs s) |> <| env := event_err a (if reset then send_rst a e else e) |>.
Definition listed t s : Prop := t ∈ bound_tcbs s ++ active_tcbs s ++ tw_tcbs s.

Lemma listed_cases t s : tcbs_ok s -> listed t s ->
  t ∈ bound_tcbs s /\ t_state t = CLOSED /\ local_port (t_end t) <> 0 \/ t ∈ active_tcbs s /\ is_active (t_state t) \/
  t ∈ tw_tcbs s /\ t_state t = TIME_WAIT.
Proof.
  intros [_ H1 H2 H3]. rewrite Forall_forall in H1, H2, H3. unfold listed. rewrite !elem_of_app.
  intros [H|[H|H]]; auto.
Qed.
Lemma abandon_run t reset s : tcbs_ok s -> listed t s -> tcp_abandon t reset s = (tt, gone t reset s).
Proof.
  intros Hok Hl. pose proof (ok_nodups s Hok) as (N1 & N2 & N3). unfold tcp_abandon, gone.
  destruct (listed_cases t s Hok Hl) as [(H & E & Hp)|[(H & E1 & E2 & E3)|(H & E)]].
  - rewrite E. cbn [bool_decide decide]. rewrite !bool_decide_eq_false_2, bool_decide_eq_true_2 by done.
    rewrite (proj2 (Z.eqb_neq _ _) Hp). rewrite <- rmv_without by done. by destruct s.
  - rewrite !bool_decide_eq_false_2 by done. rewrite <- rmv_without by done. destruct s, reset; done.
  - rewrite E, bool_decide_eq_true_2 by done. rewrite <- rmv_without by done. by destruct s.
Qed.
Lemma gone_pool t reset s : tcbs_ok s -> listed t s -> Permutation (pool_of (gone t reset s)) (pool_of s).
Proof.
  intros Hok Hl. pose proof (ok_nodups s Hok) as (N1 & N2 & N3). unfold gone, pool_of.
  destruct (listed_cases t s Hok Hl) as [(H & E & Hp)|[(H & E1 & E2 & E3)|(H & E)]].
  - rewrite E, bool_decide_eq_false_2, bool_decide_eq_true_2 by done. cbn. rewrite (without_perm t (bound_tcbs s)) by done.
    cbn. solve_Permutation.
  - rewrite !bool_decide_eq_false_2 by done. cbn. rewrite (without_perm t (active_tcbs s)) by done. cbn. solve_Permutation.
  - rewrite E, bool_decide_eq_true_2 by done. cbn. rewrite (without_perm t (tw_tcbs s)) by done. cbn. solve_Permutation.
Qed.
Lemma gone_ok t reset s : tcbs_ok s -> listed t s -> tcbs_ok (gone t reset s).
Proof.
  intros Hok Hl. pose proof Hok as [H1 H2 H3 H4]. constructor.
  - by rewrite (gone_pool t reset s Hok Hl).
  - unfold gone. repeat case_bool_decide; cbn; try done. by apply without_forall.
  - unfold gone. repeat case_bool_decide; cbn; try done. by apply without_forall.
  - unfold gone. repeat case_bool_decide; cbn; try done. by apply without_forall.
Qed.
End Abandon.

(** ** The victims *)
Lemma age_nonneg n t : 0 <= age n t.
Proof. apply u32_range. Qed.

(** The last of those that have waited longest. *)
Lemma longest_waiting f n l i o :
  match oldest f n l i o with
  | Some v => (o = Some v /\ forall t, t ∈ l -> f t = true -> age n t < i) \/
              (v ∈ l /\ f v = true /\ i <= age n v /\ forall t, t ∈ l -> f t = true -> age n t <= age n v)
  | None => o = None /\ forall t, t ∈ l -> f t = true -> age n t < i
  end.
Proof.
  revert i o. induction l as [|x l IH]; intros i o; cbn [oldest].
  { assert (N : forall t, t ∈ [] -> f t = true -> age n t < i) by (by intros t ?%elem_of_nil). destruct o; auto. }
  assert (C : forall (P : tcb -> Prop), (f x = true -> P x) -> (forall t, t ∈ l -> f t = true -> P t) ->
    forall t, t ∈ x :: l -> f t = true -> P t) by (intros P H1 H2 t [->|H]%elem_of_cons; auto).
  destruct (f x) eqn:Ef; cbn [andb]; [destruct (Z.leb_spec i (age n x)) as [L|L]|].
  - specialize (IH (age n x) (Some x)). destruct (oldest f n l (age n x) (Some x)) as [v|]; [|by destruct IH].
    destruct IH as [[[= <-] H]|(H1 & H2 & H3 & H4)]; right.
    + split; [left|]. split; [done|]. split; [done|]. apply C; [done|]. intros t Ht Et. specialize (H t Ht Et). lia.
    + split; [by right|]. split; [done|]. split; [lia|]. by apply C.
  - specialize (IH i o). destruct (oldest f n l i o) as [v|].
    + destruct IH as [[-> H]|(H1 & H2 & H3 & H4)]; [left|right].
      * split; [done|]. by apply C.
      * split; [by right|]. split; [done|]. split; [done|]. apply C; [lia|done].
    + destruct IH as [-> H]. split; [done|]. by apply C.
  - specialize (IH i o). destruct (oldest f n l i o) as [v|].
    + destruct IH as [[-> H]|(H1 & H2 & H3 & H4)]; [left|right].
      * split; [done|]. by apply C.
      * split; [by right|]. split; [done|]. split; [done|]. by apply C.
    + destruct IH as [-> H]. split; [done|]. by apply C.
Qed.

(** Not the oldest of all with the lowest priority, but none of its own or a lower priority is
    older. *)
Lemma prio_scan_spec n l m i o :
  match prio_scan n l m i o with
  | Some v => (o = Some v /\ forall t, t ∈ l -> t_prio t <= m -> age n t < i) \/
              (v ∈ l /\ t_prio v <= m /\ i <= age n v /\ forall t, t ∈ l -> t_prio t <= t_prio v -> age n t <= age n v)
  | None => o = None /\ forall t, t ∈ l -> t_prio t <= m -> age n t < i
  end.
Proof.
  revert m i o. induction l as [|x l IH]; intros m i o; cbn [prio_scan].
  { assert (N : forall t, t ∈ [] -> t_prio t <= m -> age n t < i) by (by intros t ?%elem_of_nil). destruct o; auto. }
  destruct (_ && _) eqn:E; [apply andb_prop in E as [Ep Ea]; apply Z.leb_le in Ep, Ea|apply andb_false_iff in E; rewrite !Z.leb_gt in E].
  - specialize (IH (t_prio x) (age n x) (Some x)). destruct (prio_scan n l _ _ (Some x)) as [v|]; [|by destruct IH].
    destruct IH as [[[= <-] H]|(H1 & H2 & H3 & H4)]; right.
    + split; [left|]. split; [done|]. split; [done|]. intros t [->|Ht]%elem_of_cons Hp; [done|]. specialize (H t Ht Hp). lia.
    + split; [by right|]. split; [lia|]. split; [lia|]. intros t [->|Ht]%elem_of_cons Hp; [done|auto].
  - specialize (IH m i o). destruct (prio_scan n l m i o) as [v|].
    + destruct IH as [[-> H]|(H1 & H2 & H3 & H4)]; [left|right].
      * split; [done|]. intros t [->|Ht]%elem_of_cons Hp; [lia|auto].
      * split; [by right|]. split; [done|]. split; [done|]. intros t [->|Ht]%elem_of_cons Hp; [lia|auto].
    + destruct IH as [-> H]. split; [done|]. intros t [->|Ht]%elem_of_cons Hp; [lia|auto].
Qed.

(** ** The order in which connections are given up

    First the ones in TIME_WAIT, then those that only wait for the last acknowledgement, then
    those that are closing, at last any of the same or a lower priority. *)
Inductive tier := InTimeWait | InLastAck | InClosing | LowPrio.
Definition tiers : list tier := [InTimeWait; InLastAck; InClosing; LowPrio].

Section Alloc.
Context {A : Type} `{!TcbEnv A}.
Implicit Types (s : tcb_sys A) (t v : tcb) (k : tier).

Definition in_tier (prio : Z) k s t : Prop :=
  match k with
  | InTimeWait => t ∈ tw_tcbs s
  | InLastAck => t ∈ active_tcbs s /\ t_state t = LAST_ACK
  | InClosing => t ∈ active_tcbs s /\ t_state t = CLOSING
  | LowPrio => t ∈ active_tcbs s /\ t_prio t <= Z.min TCP_PRIO_MAX prio
  end.
(** The one that has waited longest, or a rival of it. *)
Definition worst (prio : Z) k s v : Prop :=
  in_tier prio k s v /\
  forall t, in_tier prio k s t -> (k = LowPrio -> t_prio t <= t_prio v) -> age (ticks s) t <= age (ticks s) v.
(** A reset is sent only for the last kind. *)
Definition with_reset k : bool := match k with InTimeWait | LowPrio => true | _ => false end.
Definition kill (prio : Z) k : M (tcb_sys A) unit :=
  match k with
  | InTimeWait => tcp_kill_timewait
  | InLastAck => tcp_kill_state LAST_ACK
  | InClosing => tcp_kill_state CLOSING
  | LowPrio => tcp_kill_prio prio
  end.

Lemma in_tier_listed prio k s t : in_tier prio k s t -> listed t s.
Proof. unfold listed. rewrite !elem_of_app. destruct k; cbn; intros H; destruct_and?; auto. Qed.

Lemma kill_spec prio k s : tcbs_ok s ->
  (exists v, worst prio k s v /\ kill prio k s = (tt, gone v (with_reset k) s)) \/
  (forall t, ~ in_tier prio k s t) /\ kill prio k s = (tt, s).
Proof.
  intros Hok.
  assert (R : forall v b, listed v s -> tcp_abandon v b s = (tt, gone v b s)) by (intros; by apply abandon_run).
  assert (Z0 : forall t, ~ age (ticks s) t < 0) by (intros t; pose proof (age_nonneg (ticks s) t); lia).
  destruct k; cbn [kill].
  - pose proof (longest_waiting (fun _ => true) (ticks s) (tw_tcbs s) 0 None) as H.
    unfold tcp_kill_timewait, bind, gets. destruct (oldest _ _ _ _ _) as [v|].
    + left. exists v. destruct H as [[[=] _]|(H1 & _ & _ & H4)]. split; [split; [done|intros t Ht _; by apply H4]|].
      apply R. by apply (in_tier_listed prio InTimeWait).
    + right. destruct H as [_ H]. split; [|done]. intros t Ht. by apply (Z0 t), H.
  - pose proof (longest_waiting (fun t => bool_decide (t_state t = LAST_ACK)) (ticks s) (active_tcbs s) 0 None) as H.
    unfold tcp_kill_state, bind, gets. destruct (oldest _ _ _ _ _) as [v|].
    + left. exists v. destruct H as [[[=] _]|(H1 & H2%bool_decide_eq_true & _ & H4)].
      assert (Hv : in_tier prio InLastAck s v) by done. split; [split; [done|]|by apply R, (in_tier_listed _ _ _ _ Hv)].
      intros t [Ht Et] _. by apply H4; [|apply bool_decide_eq_true].
    + right. destruct H as [_ H]. split; [|done]. intros t [Ht Et]. by apply (Z0 t), H; [|apply bool_decide_eq_true].
  - pose proof (longest_waiting (fun t => bool_decide (t_state t = CLOSING)) (ticks s) (active_tcbs s) 0 None) as H.
    unfold tcp_kill_state, bind, gets. destruct (oldest _ _ _ _ _) as [v|].
    + left. exists v. destruct H as [[[=] _]|(H1 & H2%bool_decide_eq_true & _ & H4)].
      assert (Hv : in_tier prio InClosing s v) by done. split; [split; [done|]|by apply R, (in_tier_listed _ _ _ _ Hv)].
      intros t [Ht Et] _. by apply H4; [|apply bool_decide_eq_true].
    + right. destruct H as [_ H]. split; [|done]. intros t [Ht Et]. by apply (Z0 t), H; [|apply bool_decide_eq_true].
  - pose proof (prio_scan_spec (ticks s) (active_tcbs s) (Z.min TCP_PRIO_MAX prio) 0 None) as H.
    unfold tcp_kill_prio, bind, gets. destruct (prio_scan _ _ _ _ _) as [v|].
    + left. exists v. destruct H as [[[=] _]|(H1 & H2 & _ & H4)].
      assert (Hv : in_tier prio LowPrio s v) by done. split; [split; [done|]|by apply R, (in_tier_listed _ _ _ _ Hv)].
      intros t [Ht Et] Hp. by apply H4, Hp.
    + right. destruct H as [_ H]. split; [|done]. intros t [Ht Et]. by apply (Z0 t), H.
Qed.

(** The block that is given out. *)
Definition fresh_tcb (a prio : Z) s : tcb := mkTcb (mkEnd a 0 0) prio (ticks s) CLOSED.
(** It is the one of the victim. *)
Definition taken_from v (reset : bool) s : tcb_sys A := (gone v reset s) <| free_tcbs := free_tcbs s |>.
Lemma gone_taken v reset s : memp_malloc_tcb (gone v reset s) = (Some (tcb_addr v), taken_from v reset s).
Proof.
  unfold taken_from, gone. cbv zeta. destruct (bool_decide (t_state v = TIME_WAIT)); [destruct s; reflexivity|].
  destruct (bool_decide (t_state v = CLOSED)); destruct s; reflexivity.
Qed.

Lemma try_kills_spec prio ks s : tcbs_ok s -> free_tcbs s = [] ->
  (exists pre k post v, ks = pre ++ k :: post /\ (forall j t, j ∈ pre -> ~ in_tier prio j s t) /\ worst prio k s v /\
     try_kills (map (kill prio) ks) s = (Some (tcb_addr v), taken_from v (with_reset k) s)) \/
  (forall k t, k ∈ ks -> ~ in_tier prio k s t) /\ try_kills (map (kill prio) ks) s = (None, s).
Proof.
  intros Hok Hf. induction ks as [|k ks IH]; cbn [map try_kills].
  { right. split; [by intros k t ?%elem_of_nil|done]. }
  unfold bind. destruct (kill_spec prio k s Hok) as [(v & Hw & E)|[Hn E]]; rewrite E.
  - left. exists [], k, ks, v. split; [done|]. split; [by intros j t ?%elem_of_nil|]. split; [done|].
    by rewrite gone_taken.
  - assert (Em : memp_malloc_tcb s = (None, s)) by (unfold memp_malloc_tcb; by rewrite Hf). rewrite Em.
    destruct IH as [(pre & k' & post & v & -> & Hp & Hw & Et)|[Hall Et]]; [left|right].
    + exists (k :: pre), k', post, v. split; [done|]. split; [|done]. intros j t [->|Hj]%elem_of_cons; auto.
    + split; [|done]. intros j t [->|Hj]%elem_of_cons; auto.
Qed.

Lemma alloc_run prio s : tcbs_ok s ->
  match free_tcbs s with
  | a :: l => tcp_alloc prio s = (Some (fresh_tcb a prio s), s <| free_tcbs := l |>)
  | [] =>
      (exists pre k post v, tiers = pre ++ k :: post /\ (forall j t, j ∈ pre -> ~ in_tier prio j s t) /\ worst prio k s v /\
         tcp_alloc prio s = (Some (fresh_tcb (tcb_addr v) prio s), taken_from v (with_reset k) s)) \/
      (forall k t, ~ in_tier prio k s t) /\ tcp_alloc prio s = (None, s)
  end.
Proof.
  intros Hok. unfold tcp_alloc, bind. destruct (free_tcbs s) as [|a l] eqn:Ef.
  2: { unfold memp_malloc_tcb. by rewrite Ef. }
  assert (Em : memp_malloc_tcb s = (None, s)) by (unfold memp_malloc_tcb; by rewrite Ef). rewrite Em.
  destruct (try_kills_spec prio tiers s Hok Ef) as [(pre & k & post & v & E & Hp & Hw & Et)|[Hall Et]]; [left|right].
  - exists pre, k, post, v. split; [done|]. split; [done|]. split; [done|]. cbn [tiers map kill] in Et. rewrite Et.
    unfold gets, ret, fresh_tcb, taken_from, gone. cbv zeta.
    destruct (bool_decide (t_state v = TIME_WAIT)); [by destruct s|]. destruct (bool_decide (t_state v = CLOSED)); by destruct s.
  - split; [|cbn [tiers map kill] in Et; by rewrite Et]. intros k t. apply Hall. unfold tiers. rewrite !elem_of_cons. destruct k; auto.
Qed.

(** While there is an active connection of at most the new block's priority, a block is found. *)
Lemma alloc_with_active prio s t : tcbs_ok s -> t ∈ active_tcbs s -> t_prio t <= Z.min TCP_PRIO_MAX prio ->
  (tcp_alloc prio s).1 <> None.
Proof.
  intros Hok Ht Hp. pose proof (alloc_run prio s Hok) as H. destruct (free_tcbs s); [|by rewrite H].
  destruct H as [(pre & k & post & v & _ & _ & _ & ->)|[H _]]; [done|]. by destruct (H LowPrio t).
Qed.

(** C22. tcp_alloc takes the first free block of the pool. When there is none, one block
    gives way and is given up: the longest waiting in TIME_WAIT, else the longest
    waiting in LAST_ACK, else in CLOSING, else one of the new block's priority or less
    that no connection of its own or a lower priority has outwaited; only when no block
    is of these kinds does it fail, and then nothing has changed. *)
Theorem tcp_alloc_exact prio s : tcbs_ok s ->
  match free_tcbs s with
  | a :: l => tcp_alloc prio s = (Some (fresh_tcb a prio s), s <| free_tcbs := l |>)
  | [] =>
      (exists pre k post v, tiers = pre ++ k :: post /\ (forall j t, j ∈ pre -> ~ in_tier prio j s t) /\ worst prio k s v /\
         tcp_alloc prio s = (Some (fresh_tcb (tcb_addr v) prio s), taken_from v (with_reset k) s)) \/
      (forall k t, ~ in_tier prio k s t) /\ tcp_alloc prio s = (None, s)
  end.
Proof. apply alloc_run. Qed.

(** No element is lost or given out twice. *)
Lemma alloc_accounts prio s : tcbs_ok s -> let '(r, s') := tcp_alloc prio s in
  tcbs_ok s' /\ Permutation (pool_of s) (match r with Some t => tcb_addr t :: pool_of s' | None => pool_of s' end).
Proof.
  intros Hok. pose proof (alloc_run prio s Hok) as H. destruct (free_tcbs s) as [|a l] eqn:Ef.
  - destruct H as [(pre & k & post & v & _ & _ & [Hv _] & ->)|[_ ->]]; [|done].
    pose proof (in_tier_listed _ _ _ _ Hv) as Hl. pose proof (gone_ok v (with_reset k) s Hok Hl) as [O1 O2 O3 O4].
    pose proof (gone_pool v (with_reset k) s Hok Hl) as P.
    assert (Eg : pool_of (gone v (with_reset k) s) = tcb_addr v :: pool_of (taken_from v (with_reset k) s)).
    { unfold taken_from, pool_of, gone. cbv zeta.
      destruct (bool_decide (t_state v = TIME_WAIT)); [by destruct s; cbn in *; subst|].
      destruct (bool_decide (t_state v = CLOSED)); by destruct s; cbn in *; subst. }
    rewrite Eg in *. split; [|cbn; by rewrite <- P]. apply NoDup_cons in O1 as [_ O1]. by constructor.
  - rewrite H. cbn. assert (Ep : pool_of s = a :: pool_of (s <| free_tcbs := l |>)) by (unfold pool_of; rewrite Ef; done).
    destruct Hok as [O1 O2 O3 O4]. rewrite Ep in *. split; [|done]. apply NoDup_cons in O1 as [_ O1]. by constructor.
Qed.
End Alloc.

(** ** The address changes *)
Definition uses (old_addr : Z) (t : tcb) : Prop := local_ip (t_end t) = old_addr.
#[export] Instance uses_dec old_addr t : Decision (uses old_addr t) := decide (local_ip (t_end t) = old_addr).
Section Change.
Context {A : Type} `{!TcbEnv A}.
Implicit Types (s : tcb_sys A) (t : tcb).

(** What the rest of the stack sees of a block that is aborted. *)
Definition abort_active (e : A) t : A := event_err (tcb_addr t) (send_rst (tcb_addr t) (queues_free (tcb_addr t) e)).
Definition abort_bound (e : A) t : A := event_err (tcb_addr t) (queues_free (tcb_addr t) e).

Lemma without_middle pre t l : NoDup (addrs (pre ++ t :: l)) -> without (tcb_addr t) (pre ++ t :: l) = pre ++ l.
Proof.
  unfold addrs. rewrite map_app. cbn [map]. intros H. apply NoDup_app in H as (_ & H1 & H2). apply NoDup_cons in H2 as [H2 _].
  unfold without. rewrite filter_app, filter_cons_False by (intros H; by apply H).
  fold (without (tcb_addr t) pre) (without (tcb_addr t) l). rewrite !without_notin; [done|done|].
  intros H. apply (H1 _ H). left.
Qed.

Lemma changed_active old l s pre : tcbs_ok s -> active_tcbs s = pre ++ l ->
  let hit := filter (uses old) l in
  ip_addr_changed_pcblist old l s =
    (tt, mkTcbs (rev (addrs hit) ++ free_tcbs s) (bound_tcbs s) (pre ++ filter (fun t => ~ uses old t) l) (tw_tcbs s)
           (listen_ends s) (ticks s) (foldl abort_active (env s) hit)) /\
  tcbs_ok (ip_addr_changed_pcblist old l s).2.
Proof.
  revert s pre. induction l as [|t l IH]; intros s pre Hok E; cbn [ip_addr_changed_pcblist].
  { split; [|done]. rewrite filter_nil. destruct s. cbn in *. by subst. }
  unfold bind. destruct (Z.eqb_spec (local_ip (t_end t)) old) as [Eo|No].
  - assert (Hl : listed t s) by (unfold listed; rewrite E, !elem_of_app, elem_of_cons; auto).
    assert (Ha : is_active (t_state t)).
    { destruct Hok as [_ _ H _]. rewrite E in H. by apply Forall_app in H as [_ [H _]%Forall_cons]. }
    unfold tcp_abort. rewrite abandon_run by done. pose proof (gone_ok t true s Hok Hl) as Hg.
    assert (Eg : gone t true s = mkTcbs (tcb_addr t :: free_tcbs s) (bound_tcbs s) (pre ++ l) (tw_tcbs s) (listen_ends s) (ticks s)
                   (abort_active (env s) t)).
    { unfold gone. destruct Ha as (H1 & H2 & H3). rewrite !bool_decide_eq_false_2 by done. pose proof (ok_nodups s Hok) as (_ & N & _).
      rewrite E in N. rewrite <- (without_middle pre t l N), <- E. by destruct s. }
    rewrite Eg in *. destruct (IH _ pre Hg eq_refl) as [R O]. split; [|exact O]. rewrite R, !filter_cons_True, filter_cons_False by (unfold uses; auto).
    cbn [foldl addrs map rev bound_tcbs tw_tcbs listen_ends ticks free_tcbs env]. by rewrite <- app_assoc.
  - cbn [ret]. destruct (IH s (pre ++ [t]) Hok) as [R O]; [by rewrite E, <- app_assoc|]. split; [|exact O].
    rewrite R, filter_cons_False, filter_cons_True by done. by rewrite <- app_assoc.
Qed.
Lemma changed_bound old l s pre : tcbs_ok s -> bound_tcbs s = pre ++ l ->
  let hit := filter (uses old) l in
  ip_addr_changed_pcblist old l s =
    (tt, mkTcbs (rev (addrs hit) ++ free_tcbs s) (pre ++ filter (fun t => ~ uses old t) l) (active_tcbs s) (tw_tcbs s)
           (listen_ends s) (ticks s) (foldl abort_bound (env s) hit)) /\
  tcbs_ok (ip_addr_changed_pcblist old l s).2.
Proof.
  revert s pre. induction l as [|t l IH]; intros s pre Hok E; cbn [ip_addr_changed_pcblist].
  { split; [|done]. rewrite filter_nil. destruct s. cbn in *. by subst. }
  unfold bind. destruct (Z.eqb_spec (local_ip (t_end t)) old) as [Eo|No].
  - assert (Hl : listed t s) by (unfold listed; rewrite E, !elem_of_app, elem_of_cons; auto).
    assert (Hb : t_state t = CLOSED).
    { destruct Hok as [_ H _ _]. rewrite E in H. by apply Forall_app in H as [_ [[H _] _]%Forall_cons]. }
    unfold tcp_abort. rewrite abandon_run by done. pose proof (gone_ok t true s Hok Hl) as Hg.
    assert (Eg : gone t true s = mkTcbs (tcb_addr t :: free_tcbs s) (pre ++ l) (active_tcbs s) (tw_tcbs s) (listen_ends s) (ticks s)
                   (abort_bound (env s) t)).
    { unfold gone. rewrite Hb, bool_decide_eq_false_2, bool_decide_eq_true_2 by done. pose proof (ok_nodups s Hok) as (N & _).
      rewrite E in N. rewrite <- (without_middle pre t l N), <- E. by destruct s. }
    rewrite Eg in *. destruct (IH _ pre Hg eq_refl) as [R O]. split; [|exact O]. rewrite R, !filter_cons_True, filter_cons_False by (unfold uses; auto).
    cbn [foldl addrs map rev active_tcbs tw_tcbs listen_ends ticks free_tcbs env]. by rewrite <- app_assoc.
  - cbn [ret]. destruct (IH s (pre ++ [t]) Hok) as [R O]; [by rewrite E, <- app_assoc|]. split; [|exact O].
    rewrite R, filter_cons_False, filter_cons_True by done. by rewrite <- app_assoc.
Qed.

(** A listening block moves to the new address. *)
Definition moves_to (old new : Z) (e : end_point) : end_point := if local_ip e =? old then e <| local_ip := new |> else e.

Lemma addr_changed_run old new s : tcbs_ok s -> old <> IPADDR_ANY ->
  let dead := filter (uses old) (active_tcbs s) in let unopened := filter (uses old) (bound_tcbs s) in
  let addr := default IPADDR_ANY new in let s' := (tcp_netif_ip_addr_changed old new s).2 in
  s' = mkTcbs (rev (addrs (dead ++ unopened)) ++ free_tcbs s)
         (filter (fun t => ~ uses old t) (bound_tcbs s)) (filter (fun t => ~ uses old t) (active_tcbs s)) (tw_tcbs s)
         (if addr =? IPADDR_ANY then listen_ends s else map (moves_to old addr) (listen_ends s)) (ticks s)
         (foldl abort_bound (foldl abort_active (env s) dead) unopened) /\
  tcbs_ok s'.
Proof.
  intros Hok Hn dead unopened addr s'. subst s'. unfold tcp_netif_ip_addr_changed.
  rewrite (proj2 (Z.eqb_neq _ _) Hn). cbn [negb]. unfold bind, gets.
  destruct (changed_active old (active_tcbs s) s [] Hok eq_refl) as [E1 O1]. cbv zeta in E1. rewrite E1 in O1. cbn [snd app] in O1.
  destruct (changed_bound old (bound_tcbs s) _ [] O1 eq_refl) as [E2 O2]. cbv zeta in E2. rewrite E2 in O2. cbn [snd app] in O2.
  rewrite E1. cbn [app]. change (bound_tcbs (mkTcbs _ ?b _ _ _ _ _)) with b. rewrite E2. cbn [app free_tcbs active_tcbs tw_tcbs listen_ends ticks env] in *.
  fold addr dead unopened. unfold addrs in *. rewrite map_app, rev_app_distr, <- app_assoc.
  destruct (addr =? IPADDR_ANY); cbn [negb]; [by split|]. split; [done|]. destruct O2. by constructor.
Qed.

(** When the address of an interface changes, exactly the active and the bound blocks
    with that address are given up, each once and told so, active ones with a reset;
    listeners move to the new address if there is one; every element of the pool is
    accounted for. *)
Theorem tcp_addr_changed_exact old new s : tcbs_ok s -> old <> IPADDR_ANY ->
  let dead := filter (uses old) (active_tcbs s) in let unopened := filter (uses old) (bound_tcbs s) in
  let addr := default IPADDR_ANY new in let s' := (tcp_netif_ip_addr_changed old new s).2 in
  s' = mkTcbs (rev (addrs (dead ++ unopened)) ++ free_tcbs s)
         (filter (fun t => ~ uses old t) (bound_tcbs s)) (filter (fun t => ~ uses old t) (active_tcbs s)) (tw_tcbs s)
         (if addr =? IPADDR_ANY then listen_ends s else map (moves_to old addr) (listen_ends s)) (ticks s)
         (foldl abort_bound (foldl abort_active (env s) dead) unopened) /\
  tcbs_ok s'.
Proof. apply addr_changed_run. Qed.
End Change.

(** *** Five elements, all in use *)
#[local] Instance log_env : TcbEnv (list (Z * Z)) :=
  { queues_free a e := (0, a) :: e; send_rst a e := (1, a) :: e; event_err a e := (2, a) :: e }.
Definition busy : tcb_sys (list (Z * Z)) :=
  let b a ip port prio tmr st := mkTcb (mkEnd a ip port) prio tmr st in
  mkTcbs [] [b 50 7 1000 64 100 CLOSED]
    [b 10 7 80 64 90 ESTABLISHED; b 20 7 80 64 50 LAST_ACK; b 30 8 80 64 40 LAST_ACK; b 40 7 81 1 95 ESTABLISHED] []
    [mkEnd 90 7 80; mkEnd 91 8 80] 100 [].
Lemma busy_ok : tcbs_ok busy.
Proof.
  constructor.
  - apply (bool_decide_eq_true_1 _). vm_compute. reflexivity.
  - by repeat (apply Forall_cons_2; [done|]).
  - by repeat (apply Forall_cons_2; [done|]).
  - done.
Qed.
Lemma tcp_alloc_exact_witness : exists v, worst 64 InLastAck busy v /\ tcb_addr v = 30 /\
  tcp_alloc 64 busy = (Some (fresh_tcb 30 64 busy), taken_from v false busy).
Proof.
  pose proof (tcp_alloc_exact 64 busy busy_ok) as H. cbn [free_tcbs busy] in H.
  assert (E : (tcp_alloc 64 busy).1 = Some (fresh_tcb 30 64 busy) /\ (tcp_alloc 64 busy).2 = taken_from (mkTcb (mkEnd 30 8 80) 64 40 LAST_ACK) false busy)
    by (vm_compute; by split).
  destruct H as [(pre & k & post & v & Ek & Hp & Hw & Et)|[H _]].
  - rewrite Et in E. destruct E as [Ea _]. cbn [fst] in Ea. assert (Ev : tcb_addr v = 30) by (by injection Ea).
    assert (K : k = InLastAck).
    { assert (In30 : in_tier 64 InLastAck busy (mkTcb (mkEnd 30 8 80) 64 40 LAST_ACK)) by (split; [do 2 right; left|done]).
      destruct Hw as [Hv _]. destruct pre as [|k1 [|k2 pre]]; injection Ek; intros; subst.
      - by apply elem_of_nil in Hv.
      - done.
      - by destruct (Hp InLastAck _ ltac:(right; left) In30). }
    subst k. exists v. split; [exact Hw|]. split; [exact Ev|]. by rewrite Et, Ev.
  - destruct (H InLastAck (mkTcb (mkEnd 30 8 80) 64 40 LAST_ACK)). split; [do 2 right; left|done].
Defined.
Lemma tcp_addr_changed_exact_witness : let s' := (tcp_netif_ip_addr_changed 7 (Some 9) busy).2 in
  addrs (active_tcbs s') = [30] /\ bound_tcbs s' = [] /\ free_tcbs s' = [50; 40; 20; 10] /\
  map local_ip (listen_ends s') = [9; 8] /\ tcbs_ok s'.
Proof.
  intros s'. destruct (tcp_addr_changed_exact 7 (Some 9) busy busy_ok ltac:(done)) as [E O]. fold s' in E, O.
  split; [|split; [|split; [|split; [|exact O]]]]; rewrite E; vm_compute; reflexivity.
Defined.

(** *** What the code does not do *)

(** The connection with the lowest priority is spared when one of a higher priority that was
    looked at before has waited longer. *)
Lemma lowest_prio_spared : let b a prio tmr := mkTcb (mkEnd a 7 80) prio tmr ESTABLISHED in
  addrs (active_tcbs (tcp_kill_prio 64 (busy <| active_tcbs := [b 10 64 90; b 40 1 95] |>)).2) = [40] /\
  addrs (active_tcbs (tcp_kill_prio 64 (busy <| active_tcbs := [b 40 1 95; b 10 64 90] |>)).2) = [10].
Proof. by vm_compute. Qed.
(** Two listening blocks that could both be bound are in conflict after the change. *)
Lemma listeners_clash : let s' := (tcp_netif_ip_addr_changed 7 (Some 8) busy).2 in
  map (fun e => (local_ip e, local_port e)) (listen_ends busy) = [(7, 80); (8, 80)] /\
  map (fun e => (local_ip e, local_port e)) (listen_ends s') = [(8, 80); (8, 80)].
Proof. by vm_compute. Qed.
