(* ===== verification/UdpPcb.v ===== *)
(** * UDP control blocks (lwip-2.0.3/src/core/udp.c)

    The list [udp_pcbs], the ports and the functions that change a block: new, bind, connect,
    disconnect, recv, remove, and the change of an interface's address.  A block is known by its
    address; memory holds a block at every address.  Configuration: IPv4 only, no SO_REUSE, no
    UDP-Lite, no multicast options. *)
From stdpp Require Import gmap.
From S2P Require Import Prelude Ip4Addr Net TcpPort.

(** [u_recv] is the callback with its argument, or NULL. *)
Record udp_pcb := mkUpcb {
  u_local_ip : Z; u_local_port : Z; u_remote_ip : Z; u_remote_port : Z;
  u_connected : bool; u_ttl : Z; u_tos : Z; u_recv : option Z
}.
#[export] Instance udp_pcb_eta : Eta udp_pcb := fun b =>
  mkUpcb (u_local_ip b) (u_local_port b) (u_remote_ip b) (u_remote_port b) (u_connected b) (u_ttl b) (u_tos b) (u_recv b).

Record udp_sys := mkUdp { udp_port : Z; udp_pcbs : list Z; upcb : Z -> udp_pcb }.
#[export] Instance udp_sys_eta : Eta udp_sys := fun u => mkUdp (udp_port u) (udp_pcbs u) (upcb u).

Definition UDP_LOCAL_PORT_RANGE_START : Z := 0xc000.
Definition UDP_LOCAL_PORT_RANGE_END : Z := 0xffff.
Definition UDP_TTL : Z := 255.

Definition set_upcb (a : Z) (b : udp_pcb) (u : udp_sys) : udp_sys :=
  u <| upcb := fun x => if x =? a then b else upcb u x |>.
Definition udp_init (mem : Z -> udp_pcb) : udp_sys := mkUdp UDP_LOCAL_PORT_RANGE_START [] mem.

(** ** Ports *)
Definition udp_next_port (port : Z) : Z :=
  if port =? UDP_LOCAL_PORT_RANGE_END then UDP_LOCAL_PORT_RANGE_START else u16 (port + 1).
Definition udp_port_used (port : Z) (u : udp_sys) : bool :=
  existsb (fun a => u_local_port (upcb u a) =? port) (udp_pcbs u).
Fixpoint udp_port_loop (fuel : nat) (n : Z) : M udp_sys Z :=
  match fuel with
  | O => ret 0
  | S fuel =>
      modify (fun u => u <| udp_port := udp_next_port (udp_port u) |>) ;;;
      u <- gets id ;;
      if udp_port_used (udp_port u) u then
        let n := u16 (n + 1) in
        if UDP_LOCAL_PORT_RANGE_END - UDP_LOCAL_PORT_RANGE_START <? n then ret 0 else udp_port_loop fuel n
      else ret (udp_port u)
  end.
Definition udp_new_port : M udp_sys Z :=
  udp_port_loop (Z.to_nat (UDP_LOCAL_PORT_RANGE_END - UDP_LOCAL_PORT_RANGE_START + 1)) 0.

(** ** The functions of the interface *)

(** [elt] is what [memp_malloc] returns. *)
Definition udp_new (elt : option Z) : M udp_sys (option Z) :=
  (match elt with
   | Some a => modify (set_upcb a (mkUpcb 0 0 0 0 false UDP_TTL 0 None))
   | None => ret tt
   end) ;;;
  ret elt.

Definition udp_listed (a : Z) (u : udp_sys) : bool := existsb (fun x => a =? x) (udp_pcbs u).
(** Another block has the end point. *)
Definition udp_taken (a ip port : Z) (u : udp_sys) : bool :=
  existsb (fun x => negb (a =? x) && ((u_local_port (upcb u x) =? port) && (u_local_ip (upcb u x) =? ip))) (udp_pcbs u).

Definition udp_bind (a : Z) (ipaddr : option Z) (port : Z) : M udp_sys Z :=
  let ip := default IPADDR_ANY ipaddr in
  rebind <- gets (udp_listed a) ;;
  taken <- gets (udp_taken a ip port) ;;
  port <- (if port =? 0 then p <- udp_new_port ;; ret (if p =? 0 then inl ERR_USE else inr p)
           else if taken : bool then ret (inl ERR_USE) else ret (inr port)) ;;
  match port with
  | inl err => ret err
  | inr port =>
      modify (fun u => set_upcb a ((upcb u a) <| u_local_ip := ip |> <| u_local_port := port |>) u) ;;;
      (if rebind : bool then ret tt else modify (fun u => u <| udp_pcbs := a :: udp_pcbs u |>)) ;;;
      ret ERR_OK
  end.

Definition udp_connect (a : Z) (ipaddr : Z) (port : Z) : M udp_sys Z :=
  b <- gets (fun u => upcb u a) ;;
  err <- (if u_local_port b =? 0 then udp_bind a (Some (u_local_ip b)) (u_local_port b) else ret ERR_OK) ;;
  if negb (err =? ERR_OK) then ret err else
  modify (fun u => set_upcb a ((upcb u a) <| u_remote_ip := ipaddr |> <| u_remote_port := port |> <| u_connected := true |>) u) ;;;
  listed <- gets (udp_listed a) ;;
  if listed : bool then ret ERR_OK
  else modify (fun u => u <| udp_pcbs := a :: udp_pcbs u |>) ;;; ret ERR_OK.

Definition udp_disconnect (a : Z) : M udp_sys unit :=
  modify (fun u => set_upcb a ((upcb u a) <| u_remote_ip := IPADDR_ANY |> <| u_remote_port := 0 |> <| u_connected := false |>) u).
Definition udp_recv (a : Z) (recv : option Z) : M udp_sys unit :=
  modify (fun u => set_upcb a ((upcb u a) <| u_recv := recv |>) u).

Fixpoint udp_unlink (a : Z) (l : list Z) : list Z :=
  match l with
  | [] => []
  | x :: l => if x =? a then l else x :: udp_unlink a l
  end.
(** The block goes back to its pool. *)
Definition udp_remove (a : Z) : M udp_sys unit := modify (fun u => u <| udp_pcbs := udp_unlink a (udp_pcbs u) |>).

Definition udp_netif_ip_addr_changed (old_addr new_addr : Z) : M udp_sys unit :=
  if negb (old_addr =? IPADDR_ANY) && negb (new_addr =? IPADDR_ANY) then
    modify (fun u => fold_left (fun u a =>
      if u_local_ip (upcb u a) =? old_addr then set_upcb a ((upcb u a) <| u_local_ip := new_addr |>) u else u) (udp_pcbs u) u)
  else ret tt.

(** ** The port is free *)
Definition udp_tried (p0 n : Z) (u : udp_sys) : Prop :=
  udp_port u = port_after p0 n /\ forall k, 1 <= k <= n -> udp_port_used (port_after p0 k) u = true.
Definition same_but_port (u u' : udp_sys) : Prop := u' = u <| udp_port := udp_port u' |> /\ in_port_range (udp_port u').
Definition udp_port_result (r : Z) (u u' : udp_sys) : Prop :=
  same_but_port u u' /\
  (r = 0 /\ (forall q, in_port_range q -> udp_port_used q u = true) \/ in_port_range r /\ udp_port_used r u = false).

Lemma udp_port_loop_spec p0 fuel n u0 u : in_port_range p0 ->
  n + Z.of_nat fuel = 16384 -> 0 <= n -> (0 < fuel)%nat ->
  u = u0 <| udp_port := udp_port u |> -> udp_tried p0 n u ->
  wp (udp_port_loop fuel n) (fun r u' => udp_port_result r u0 u') u.
Proof.
  intros Hp. revert n u. induction fuel as [|fuel IH]; intros n u Hn H0 Hf Et [E Hu]; cbn [udp_port_loop]; [lia|].
  apply wp_bind, wp_modify. rewrite E. change (udp_next_port (port_after p0 n)) with (next_port (port_after p0 n)).
  rewrite next_after by done. apply wp_bind, wp_gets. cbn [id]. set (u1 := u <| udp_port := _ |>).
  change (udp_port u1) with (port_after p0 (n + 1)).
  assert (Es : forall q, udp_port_used q u1 = udp_port_used q u0) by (intros q; unfold u1; by rewrite Et).
  assert (Eu1 : u1 = u0 <| udp_port := udp_port u1 |>) by (unfold u1; by rewrite Et).
  assert (S1 : same_but_port u0 u1) by (split; [done|apply after_range]).
  destruct (udp_port_used _ u1) eqn:Eu; rewrite Es in Eu.
  - rewrite u16_small by lia.
    assert (Hall : forall k, 1 <= k <= n + 1 -> udp_port_used (port_after p0 k) u1 = true).
    { intros k Hk. rewrite Es. destruct (decide (k = n + 1)) as [->|]; [done|].
      rewrite <- (Hu k) by lia. rewrite Et. done. }
    destruct (Z.ltb_spec (UDP_LOCAL_PORT_RANGE_END - UDP_LOCAL_PORT_RANGE_START) (n + 1)) as [Hlt|Hge].
    + unfold UDP_LOCAL_PORT_RANGE_END, UDP_LOCAL_PORT_RANGE_START in Hlt. apply wp_ret. split; [done|]. left. split; [done|].
      intros q Hq. destruct (after_onto p0 q Hp Hq) as (k & Hk & <-). unfold TCP_LOCAL_PORT_RANGE_END, TCP_LOCAL_PORT_RANGE_START in Hk.
      rewrite <- Es. apply Hall. lia.
    + unfold UDP_LOCAL_PORT_RANGE_END, UDP_LOCAL_PORT_RANGE_START in Hge. apply IH; [lia..|done|]. by split.
  - apply wp_ret. split; [done|]. right. split; [apply after_range|done].
Qed.
Lemma udp_new_port_spec u : in_port_range (udp_port u) -> wp udp_new_port (fun r u' => udp_port_result r u u') u.
Proof.
  intros Hp. unfold udp_new_port. apply (udp_port_loop_spec (udp_port u) _ 0 u u Hp); [by vm_compute|done| |by destruct u|].
  - unfold UDP_LOCAL_PORT_RANGE_END, UDP_LOCAL_PORT_RANGE_START. lia.
  - split; [|intros k Hk; lia]. unfold port_after, in_port_range, TCP_LOCAL_PORT_RANGE_END, TCP_LOCAL_PORT_RANGE_START in *.
    rewrite Z.mod_small; lia.
Qed.

(** ** The invariant: every block on the list has a port, and no two have the same end point *)
Definition udp_end (u : udp_sys) (a : Z) : Z * Z := (u_local_ip (upcb u a), u_local_port (upcb u a)).
Record udp_ok (u : udp_sys) : Prop := {
  uo_port : in_port_range (udp_port u);
  uo_bound : Forall (fun a => u_local_port (upcb u a) <> 0) (udp_pcbs u);
  uo_apart : NoDup (map (udp_end u) (udp_pcbs u))
}.
(** A block that is not on the list has no port. *)
Definition udp_live (a : Z) (u : udp_sys) : Prop := a ∉ udp_pcbs u -> u_local_port (upcb u a) = 0.

Lemma udp_listed_iff a u : udp_listed a u = true <-> a ∈ udp_pcbs u.
Proof.
  unfold udp_listed. rewrite existsb_exists. split.
  - intros (x & Hx & ->%Z.eqb_eq). by apply list_elem_of_In.
  - intros H. exists a. rewrite Z.eqb_refl. by apply list_elem_of_In in H.
Qed.
Lemma set_upcb_same a b u : upcb (set_upcb a b u) a = b.
Proof. cbn. by rewrite Z.eqb_refl. Qed.
Lemma set_upcb_other a b u x : x <> a -> upcb (set_upcb a b u) x = upcb u x.
Proof. intros H. cbn. by rewrite (proj2 (Z.eqb_neq x a) H). Qed.
Lemma udp_pcbs_nodup u : udp_ok u -> NoDup (udp_pcbs u).
Proof. intros [_ _ H]. by eapply NoDup_fmap_1. Qed.

(** Changes that leave the end points alone. *)
Lemma udp_ok_ext u u' : udp_ok u -> in_port_range (udp_port u') -> udp_pcbs u' = udp_pcbs u ->
  (forall a, udp_end u' a = udp_end u a) -> udp_ok u'.
Proof.
  intros [H1 H2 H3] Hp El Ee. constructor; [done|..]; rewrite El.
  - eapply Forall_impl; [exact H2|]. intros a Ha. specialize (Ee a). unfold udp_end in Ee. by injection Ee as _ ->.
  - rewrite (map_ext _ _ Ee). done.
Qed.
Lemma udp_ok_port u u' : udp_ok u -> same_but_port u u' -> udp_ok u'.
Proof. intros H [-> Hp]. by eapply udp_ok_ext. Qed.
Lemma set_end_same a b u : (u_local_ip b, u_local_port b) = udp_end u a -> forall x, udp_end (set_upcb a b u) x = udp_end u x.
Proof.
  intros H x. destruct (decide (x = a)) as [->|N]; unfold udp_end in *; [by rewrite set_upcb_same|by rewrite set_upcb_other].
Qed.
Lemma udp_live_set a b u x : (x = a -> u_local_port b = u_local_port (upcb u a)) -> udp_live x u -> udp_live x (set_upcb a b u).
Proof.
  intros Hb Hl Hn. specialize (Hl Hn). destruct (decide (x = a)) as [->|N]; [rewrite set_upcb_same, Hb; done|by rewrite set_upcb_other].
Qed.

(** *** Binding *)
Definition udp_takes (a ip port p : Z) (u : udp_sys) : Prop :=
  if port =? 0 then in_port_range p /\ udp_port_used p u = false else p = port /\ udp_taken a ip port u = false.
Definition udp_bound (a ip p : Z) (u : udp_sys) : udp_sys :=
  let u := set_upcb a ((upcb u a) <| u_local_ip := ip |> <| u_local_port := p |>) u in
  if udp_listed a u then u else u <| udp_pcbs := a :: udp_pcbs u |>.
Definition udp_bind_result (a ip port err : Z) (u u' : udp_sys) : Prop :=
  (err = ERR_OK /\ exists p, udp_takes a ip port p u /\ u' = (udp_bound a ip p u) <| udp_port := udp_port u' |>) \/
  (err = ERR_USE /\ (forall p, ~ udp_takes a ip port p u) /\ same_but_port u u').

Lemma udp_bind_spec a ipaddr port u : in_port_range (udp_port u) ->
  wp (udp_bind a ipaddr port) (fun err u' => udp_bind_result a (default IPADDR_ANY ipaddr) port err u u' /\
    in_port_range (udp_port u')) u.
Proof.
  intros Hp. unfold udp_bind. set (ip := default IPADDR_ANY ipaddr). apply wp_bind, wp_gets, wp_bind, wp_gets, wp_bind.
  apply (wp_mono _ (fun o u1 => same_but_port u u1 /\
    match o with inl err => err = ERR_USE /\ forall p, ~ udp_takes a ip port p u | inr p => udp_takes a ip port p u end)).
  - unfold udp_takes. destruct (Z.eqb_spec port 0) as [->|N].
    + apply wp_bind. eapply wp_mono; [by apply udp_new_port_spec|]. cbv beta. intros r u1 [H1 H2]. apply wp_ret.
      split; [done|]. destruct H2 as [[-> H2]|[H2 H3]].
      * cbn. split; [done|]. intros p [H3 H4]. by rewrite H2 in H4.
      * destruct (Z.eqb_spec r 0) as [->|]; [by destruct H2 as [[] _]|done].
    + destruct (udp_taken _ _ _ _) eqn:Et; apply wp_ret; (split; [split; [by destruct u|done]|]); [|done].
      split; [done|]. by intros p [_ H].
  - cbv beta. intros [err|p] u1 (Hs & H).
    + apply wp_ret. split; [|apply Hs]. right. by destruct H.
    + destruct Hs as [Es Hp1]. apply wp_bind, wp_modify, wp_bind.
      assert (E : udp_listed a (set_upcb a ((upcb u a) <| u_local_ip := ip |> <| u_local_port := p |>) u) = udp_listed a u) by done.
      destruct (udp_listed a u) eqn:El; [apply wp_ret, wp_ret|apply wp_modify, wp_ret];
        (split; [|done]); left; (split; [done|]); exists p; (split; [done|]); unfold udp_bound; cbv zeta; rewrite E; rewrite Es; by destruct u.
Qed.

(** The chosen end point differs from those of the other blocks. *)
Lemma udp_takes_apart a ip port p u : udp_takes a ip port p u -> forall x, x ∈ udp_pcbs u -> x <> a -> udp_end u x <> (ip, p).
Proof.
  intros H x Hx Hn E. apply list_elem_of_In in Hx. unfold udp_end in E. injection E as E1 E2. unfold udp_takes in H.
  destruct (port =? 0).
  - destruct H as [_ H]. unfold udp_port_used in H. apply not_true_iff_false in H. apply H, existsb_exists.
    exists x. split; [done|by apply Z.eqb_eq].
  - destruct H as [-> H]. unfold udp_taken in H. apply not_true_iff_false in H. apply H, existsb_exists.
    exists x. split; [done|]. rewrite (proj2 (Z.eqb_neq a x)) by congruence. rewrite E1, E2, !Z.eqb_refl. done.
Qed.
Lemma nodup_update {T} (f g : Z -> T) a l : NoDup l -> NoDup (map f l) -> (forall x, x ∈ l -> x <> a -> g x = f x /\ f x <> g a) ->
  NoDup (map g l).
Proof.
  induction l as [|x l IH]; cbn [map]; [done|]. intros [Hx Hl]%NoDup_cons [Hfx Hf]%NoDup_cons Hg. apply NoDup_cons. split.
  - intros Hin. apply list_elem_of_fmap in Hin as (y & E & Hy). destruct (decide (x = a)) as [->|Nx].
    + destruct (Hg y) as [E1 E2]; [by right|by intros ->|]. congruence.
    + destruct (Hg x) as [E1 E2]; [by left|done|]. destruct (decide (y = a)) as [->|Ny]; [congruence|].
      destruct (Hg y) as [E3 _]; [by right|done|]. apply Hfx, list_elem_of_fmap. exists y. split; [congruence|done].
  - apply IH; [done..|]. intros y Hy. apply Hg. by right.
Qed.
Lemma udp_bound_ok a ip port p u : udp_ok u -> udp_takes a ip port p u -> 0 <= port -> udp_ok (udp_bound a ip p u).
Proof.
  intros Hok Ht Hport. pose proof (udp_takes_apart _ _ _ _ _ Ht) as Ha. pose proof (udp_pcbs_nodup u Hok) as Hd.
  assert (Hp0 : p <> 0).
  { unfold udp_takes in Ht. destruct (Z.eqb_spec port 0); [|destruct Ht; congruence]. destruct Ht as [Hr _].
    unfold in_port_range, TCP_LOCAL_PORT_RANGE_START in Hr. lia. }
  destruct Hok as [H1 H2 H3]. unfold udp_bound. set (u1 := set_upcb a _ u).
  assert (Ea : udp_end u1 a = (ip, p)) by (unfold udp_end, u1; by rewrite set_upcb_same).
  assert (Eo : forall x, x <> a -> udp_end u1 x = udp_end u x) by (intros x Hx; unfold udp_end, u1; by rewrite set_upcb_other).
  assert (F : Forall (fun x => u_local_port (upcb u1 x) <> 0) (udp_pcbs u)).
  { eapply Forall_impl; [exact H2|]. intros x Hx. destruct (decide (x = a)) as [->|N]; unfold u1; [by rewrite set_upcb_same|by rewrite set_upcb_other]. }
  assert (N : NoDup (map (udp_end u1) (udp_pcbs u))).
  { apply (nodup_update (udp_end u) _ a); [done..|]. intros x Hx Hn. rewrite Ea. split; [by apply Eo|by apply Ha]. }
  destruct (udp_listed a u1) eqn:El; [by constructor|]. constructor; [done|..].
  - change (Forall (fun x => u_local_port (upcb u1 x) <> 0) (a :: udp_pcbs u)). apply Forall_cons. split; [unfold u1; by rewrite set_upcb_same|done].
  - change (NoDup (map (udp_end u1) (a :: udp_pcbs u))). cbn [map]. apply NoDup_cons. split; [|exact N]. intros Hin. apply list_elem_of_fmap in Hin as (x & E & Hx).
    rewrite Ea in E.
    destruct (decide (x = a)) as [->|Nx].
    + apply not_true_iff_false in El. by apply El, udp_listed_iff.
    + apply (Ha x Hx Nx). by rewrite <- (Eo x Nx).
Qed.

(** udp_bind gives a block the address and port asked for exactly when no other block
    has them (for port 0: a free dynamic port exactly when there is one); on an error
    nothing changes. *)
Theorem udp_bind_exact a ipaddr port u : udp_ok u -> 0 <= port ->
  wp (udp_bind a ipaddr port) (fun err u' => udp_ok u' /\ udp_bind_result a (default IPADDR_ANY ipaddr) port err u u') u.
Proof.
  intros Hok Hp. eapply wp_mono; [apply udp_bind_spec, Hok|]. cbv beta. intros err u' [H Hr]. split; [|done].
  destruct H as [(_ & p & Ht & ->)|(_ & _ & Hs)]; [|by eapply udp_ok_port].
  eapply udp_ok_ext; [by eapply udp_bound_ok|done|done|done].
Qed.

(** ** All runs *)

(** The blocks that [udp_new] gave and [udp_remove] has not taken back. *)
Record udp_world := mkWorld { w_udp : udp_sys; w_alive : gset Z }.
Inductive udp_step : udp_world -> udp_world -> Prop :=
| WNew a u al : a ∉ al -> udp_step (mkWorld u al) (mkWorld (udp_new (Some a) u).2 ({[a]} ∪ al))
| WBind a ipaddr port u al : a ∈ al -> 0 <= port -> udp_step (mkWorld u al) (mkWorld (udp_bind a ipaddr port u).2 al)
| WConnect a ip port u al : a ∈ al -> udp_step (mkWorld u al) (mkWorld (udp_connect a ip port u).2 al)
| WDisconnect a u al : a ∈ al -> udp_step (mkWorld u al) (mkWorld (udp_disconnect a u).2 al)
| WRecv a h u al : a ∈ al -> udp_step (mkWorld u al) (mkWorld (udp_recv a h u).2 al)
| WRemove a u al : a ∈ al -> udp_step (mkWorld u al) (mkWorld (udp_remove a u).2 (al ∖ {[a]}))
(** [udp_input] moves a block to the front. *)
| WMoved l u al : Permutation (udp_pcbs u) l -> udp_step (mkWorld u al) (mkWorld (u <| udp_pcbs := l |>) al).

Record udp_inv (w : udp_world) : Prop := {
  ui_ok : udp_ok (w_udp w);
  ui_listed a : a ∈ udp_pcbs (w_udp w) -> a ∈ w_alive w;
  ui_live a : a ∈ w_alive w -> udp_live a (w_udp w)
}.

Lemma inv_update a b u al : udp_inv (mkWorld u al) -> (u_local_ip b, u_local_port b) = udp_end u a ->
  udp_inv (mkWorld (set_upcb a b u) al).
Proof.
  intros [H1 H2 H3] E. constructor; cbn [w_udp w_alive] in *; [|done|].
  - eapply udp_ok_ext; [exact H1|apply H1|done|by apply set_end_same].
  - intros x Hx. apply udp_live_set; [|by apply H3]. intros ->. unfold udp_end in E. by injection E.
Qed.
Lemma inv_bind a ipaddr port u al : udp_inv (mkWorld u al) -> a ∈ al -> 0 <= port ->
  wp (udp_bind a ipaddr port) (fun err u' => udp_inv (mkWorld u' al) /\ (err = ERR_OK -> a ∈ udp_pcbs u')) u.
Proof.
  intros [H1 H2 H3] Ha Hp. eapply wp_mono; [apply udp_bind_spec, H1|]. cbv beta. intros err u' [H Hr]. cbn [w_udp w_alive] in *.
  destruct H as [(-> & p & Ht & E)|(-> & _ & Hs)].
  - assert (Hok : udp_ok (udp_bound a (default IPADDR_ANY ipaddr) p u)) by by eapply udp_bound_ok.
    assert (Hin : forall x, x ∈ udp_pcbs u' <-> x = a \/ x ∈ udp_pcbs u).
    { intros x. rewrite E. unfold udp_bound. cbv zeta. destruct (udp_listed a _) eqn:El.
      - apply udp_listed_iff in El. cbn. split; [auto|]. intros [->|]; done.
      - cbn. apply elem_of_cons. }
    split; [constructor; cbn [w_udp w_alive]|].
    + rewrite E. by eapply udp_ok_ext.
    + intros x. rewrite Hin. intros [->|Hx]; [done|by apply H2].
    + intros x Hx Hn. rewrite Hin in Hn. assert (Nx : x <> a) by tauto. rewrite E. unfold udp_bound. cbv zeta.
      destruct (udp_listed a _); cbn; rewrite (proj2 (Z.eqb_neq x a) Nx); apply H3; tauto.
    + intros _. apply Hin. by left.
  - split; [|done]. destruct Hs as [-> Hs]. constructor; cbn [w_udp w_alive]; [by eapply udp_ok_ext|done|]. intros x Hx. by apply (H3 x Hx).
Qed.
Lemma inv_connect a ip port u al : udp_inv (mkWorld u al) -> a ∈ al ->
  wp (udp_connect a ip port) (fun _ u' => udp_inv (mkWorld u' al)) u.
Proof.
  intros Hi Ha. unfold udp_connect. apply wp_bind, wp_gets, wp_bind.
  apply (wp_mono _ (fun err u' => udp_inv (mkWorld u' al) /\ (err = ERR_OK -> a ∈ udp_pcbs u'))).
  - destruct (Z.eqb_spec (u_local_port (upcb u a)) 0) as [E|N]; [rewrite E; by apply inv_bind|].
    apply wp_ret. split; [done|]. intros _. destruct (decide (a ∈ udp_pcbs u)) as [|Hn]; [done|].
    destruct N. by apply (ui_live _ Hi).
  - intros err u1 [H1 H2]. destruct (Z.eqb_spec err ERR_OK) as [->|]; [|by apply wp_ret].
    specialize (H2 eq_refl). cbn [negb]. apply wp_bind, wp_modify, wp_bind, wp_gets. set (u2 := set_upcb _ _ _).
    assert (L : udp_listed a u2 = true) by by apply udp_listed_iff. rewrite L. apply wp_ret. by apply inv_update.
Qed.
Lemma unlink_perm a l : a ∈ l -> Permutation l (a :: udp_unlink a l).
Proof.
  induction l as [|x l IH]; [by intros ?%elem_of_nil|]. cbn [udp_unlink]. intros H.
  destruct (Z.eqb_spec x a) as [->|N]; [done|]. apply elem_of_cons in H as [->|H]; [done|].
  rewrite (IH H) at 1. apply Permutation_swap.
Qed.
Lemma unlink_absent a l : a ∉ l -> udp_unlink a l = l.
Proof.
  induction l as [|x l IH]; cbn [udp_unlink]; [done|]. intros [N H]%not_elem_of_cons.
  destruct (Z.eqb_spec x a); [congruence|]. by rewrite IH.
Qed.
Lemma ok_perm u l : udp_ok u -> Permutation (udp_pcbs u) l -> udp_ok (u <| udp_pcbs := l |>).
Proof.
  intros [H1 H2 H3] P. constructor; cbn; [done|by rewrite <- P|].
  change (NoDup (map (udp_end u) l)). by rewrite <- P.
Qed.
Lemma inv_remove a u al : udp_inv (mkWorld u al) -> udp_inv (mkWorld (udp_remove a u).2 (al ∖ {[a]})).
Proof.
  intros [H1 H2 H3]. cbn [w_udp w_alive] in *. pose proof (udp_pcbs_nodup u H1) as Hd.
  change ((udp_remove a u).2) with (u <| udp_pcbs := udp_unlink a (udp_pcbs u) |>).
  destruct (decide (a ∈ udp_pcbs u)) as [Ha|Ha].
  - pose proof (unlink_perm a _ Ha) as P. assert (Hn : a ∉ udp_unlink a (udp_pcbs u)) by (rewrite P in Hd; by apply NoDup_cons in Hd as [? _]).
    constructor; cbn [w_udp w_alive].
    + pose proof (ok_perm u _ H1 P) as [K1 K2 K3]. apply Forall_cons in K2 as [_ K2]. apply NoDup_cons in K3 as [_ K3]. by constructor.
    + intros x Hx. cbn in Hx. apply elem_of_difference. split; [apply H2; rewrite P; by right|]. intros ->%elem_of_singleton. done.
    + intros x [Hx Hne]%elem_of_difference Hn2. apply (H3 x Hx). rewrite P. intros [->|Hx2]%elem_of_cons; [|done]. by apply Hne, elem_of_singleton.
  - rewrite unlink_absent by done. constructor; cbn [w_udp w_alive].
    + by destruct u.
    + intros x Hx. apply elem_of_difference. split; [by apply H2|]. intros ->%elem_of_singleton. done.
    + intros x [Hx _]%elem_of_difference. by apply (H3 x Hx).
Qed.

Lemma wp_snd {S A} (m : M S A) (Q : S -> Prop) s : wp m (fun _ s' => Q s') s -> Q (m s).2.
Proof. unfold wp. by destruct (m s). Qed.
Lemma udp_step_inv w w' : udp_step w w' -> udp_inv w -> udp_inv w'.
Proof.
  destruct 1 as [a u al Ha|a ipaddr port u al Ha Hp|a ip port u al Ha|a u al Ha|a h u al Ha|a u al Ha|l u al P]; intros Hi.
  - assert (Hn : a ∉ udp_pcbs u) by (intros H; by apply Ha, (ui_listed _ Hi)). destruct Hi as [H1 H2 H3]. cbn [w_udp w_alive] in *.
    set (u' := (udp_new (Some a) u).2). change u' with (set_upcb a (mkUpcb 0 0 0 0 false UDP_TTL 0 None) u). clear u'.
    set (b := mkUpcb _ _ _ _ _ _ _ _). assert (Eo : forall x, x ∈ udp_pcbs u -> upcb (set_upcb a b u) x = upcb u x).
    { intros x Hx. apply set_upcb_other. by intros ->. }
    constructor; cbn [w_udp w_alive].
    + destruct H1 as [K1 K2 K3]. constructor; [done|..]; cbn [udp_pcbs set_upcb].
      * change (Forall (fun x => u_local_port (upcb (set_upcb a b u) x) <> 0) (udp_pcbs u)). rewrite Forall_forall in *.
        intros x Hx. rewrite Eo by done. by apply K2.
      * change (NoDup (map (udp_end (set_upcb a b u)) (udp_pcbs u))).
        rewrite (map_ext_in _ (udp_end u)); [done|]. intros x Hx. unfold udp_end. by rewrite Eo by by apply list_elem_of_In.
    + intros x Hx. apply elem_of_union_r. by apply H2.
    + intros x [->%elem_of_singleton|Hx]%elem_of_union; [intros _; by rewrite set_upcb_same|].
      destruct (decide (x = a)) as [->|N]; [intros _; by rewrite set_upcb_same|]. intros Hn2. rewrite set_upcb_other by done. by apply (H3 x Hx).
  - apply (wp_snd _ (fun u' => udp_inv (mkWorld u' al))). eapply wp_mono; [by apply inv_bind|]. by intros ? ? [? _].
  - by apply (wp_snd _ (fun u' => udp_inv (mkWorld u' al))), inv_connect.
  - by apply inv_update.
  - by apply inv_update.
  - by apply inv_remove.
  - destruct Hi as [H1 H2 H3]. constructor; cbn [w_udp w_alive] in *.
    + by apply ok_perm.
    + intros x Hx. apply H2. by rewrite P.
    + intros x Hx Hn. apply (H3 x Hx). by rewrite P.
Qed.

Inductive udp_run : udp_world -> udp_world -> Prop :=
| URefl w : udp_run w w
| UStep w1 w2 w3 : udp_run w1 w2 -> udp_step w2 w3 -> udp_run w1 w3.

(** C34. In every state that the functions of the interface reach from the start, called
    with blocks that udp_new gave, the list of UDP blocks holds only such blocks, each
    with a port, and no two with the same address and port. *)
Theorem udp_reach_ok mem w : udp_run (mkWorld (udp_init mem) ∅) w ->
  udp_ok (w_udp w) /\ (forall a, a ∈ udp_pcbs (w_udp w) -> a ∈ w_alive w).
Proof.
  intros H. assert (Hi : udp_inv w); [|split; apply Hi].
  remember (mkWorld (udp_init mem) ∅) as w0 eqn:E. induction H as [w|w1 w2 w3 H IH Hs].
  - subst w. constructor; cbn [w_udp w_alive udp_pcbs udp_init].
    + constructor; cbn; [split; discriminate|apply Forall_nil_2|apply NoDup_nil_2].
    + by intros a ?%elem_of_nil.
    + by intros a ?%elem_of_empty.
  - eapply udp_step_inv; [exact Hs|]. by apply IH.
Qed.

(** *** Two blocks with one end point

    After the address of an interface has changed, a block that was bound to the old address can
    get the end point of another one. *)
Definition two_bound : udp_sys := mkUdp 0xc000 [1; 2] (fun a => mkUpcb (if a =? 1 then 7 else 8) 5000 0 0 false 255 0 None).
Lemma two_bound_ok : udp_ok two_bound.
Proof.
  constructor; [split; discriminate|by repeat (apply Forall_cons; split; [done|])|].
  apply (bool_decide_eq_true_1 _). vm_compute. reflexivity.
Qed.
Lemma udp_addr_change_clash : udp_ok two_bound /\ ~ udp_ok (udp_netif_ip_addr_changed 7 8 two_bound).2.
Proof.
  split; [apply two_bound_ok|]. intros [_ _ H]. vm_compute in H. apply NoDup_cons in H as [H _]. apply H. left.
Qed.

Lemma udp_bind_exact_witness : exists u', udp_bind 1 (Some 8) 53 two_bound = (ERR_OK, u') /\ udp_ok u' /\ udp_end u' 1 = (8, 53).
Proof.
  destruct (udp_bind 1 (Some 8) 53 two_bound) as [err u'] eqn:E. pose proof (udp_bind_exact 1 (Some 8) 53 two_bound two_bound_ok) as H.
  unfold wp in H. rewrite E in H. destruct H as [H _]; [done|]. exists u'. vm_compute in E. injection E as <- <-. done.
Defined.
Lemma udp_reach_ok_witness : exists w, udp_run (mkWorld (udp_init (upcb two_bound)) ∅) w /\ udp_ok (w_udp w) /\ 9 ∈ w_alive w.
Proof.
  set (w := mkWorld (udp_bind 9 None 0 (udp_new (Some 9) (udp_init (upcb two_bound))).2).2 ({[9]} ∪ ∅)).
  assert (H : udp_run (mkWorld (udp_init (upcb two_bound)) ∅) w).
  { eapply UStep; [eapply UStep; [apply URefl|]|].
    - apply (WNew 9). set_solver.
    - apply (WBind 9 None 0); [set_solver|done]. }
  exists w. split; [exact H|]. split; [exact (proj1 (udp_reach_ok _ _ H))|]. cbn. set_solver.
Defined.
