(* ===== verification/Netif.v ===== *)
(** * The network interfaces (lwip-2.0.3/src/core/netif.c)

    The list of interfaces with their addresses and flags, and whom the changes are told: TCP,
    UDP, ARP and the link callback, the class [NetifEnv].  No loopback, status or remove
    callback (lwipopts.h); DHCP is never started, so that [dhcp_network_changed] returns at
    once. *)
From stdpp Require Import gmap.
From S2P Require Import Prelude Ip4Addr Ip4Hdr Net Etharp Ip4 Tcp TcpPort TcpAlloc UdpPcb.

Definition NETIF_FLAG_ETHERNET : Z := 0x10.

(** What IP looks at, and the rest of [struct netif]. *)
Record netif_rec := mkNif { nf : ip_netif; name : Z * Z; num : Z; link_cb : option Z }.
#[export] Instance netif_rec_eta : Eta netif_rec := fun n => mkNif (nf n) (name n) (num n) (link_cb n).
#[export] Instance ip_netif_eta : Eta ip_netif := fun n =>
  mkIpNetif (nf_num n) (nf_addr n) (nf_mask n) (nf_gw n) (nf_flags n) (nf_mtu n).

(** The statics of netif.c and the interfaces by their addresses. *)
Record netifs := mkNifs { netif_list : list Z; netif_default : option Z; netif_num : Z; netif_at : Z -> netif_rec }.
#[export] Instance netifs_eta : Eta netifs := fun s => mkNifs (netif_list s) (netif_default s) (netif_num s) (netif_at s).
Record nif_sys (A : Type) := mkSys { nifs : netifs; stack : A }.
Arguments mkSys {A}. Arguments nifs {A}. Arguments stack {A}.
#[export] Instance nif_sys_eta A : Eta (nif_sys A) := fun s => mkSys (nifs s) (stack s).

(** [tcp_netif_ip_addr_changed] and [udp_netif_ip_addr_changed] (old and new address; [None]
    for NULL), [etharp_gratuitous], [etharp_cleanup_netif], and the call of a link callback.
    They see the interfaces as they are at that moment. *)
Class NetifEnv (A : Type) := {
  tcp_addr_changed : netifs -> Z -> option Z -> A -> A;
  udp_addr_changed : netifs -> Z -> option Z -> A -> A;
  etharp_gratuitous : netifs -> Z -> A -> A;
  etharp_cleanup : netifs -> Z -> A -> A;
  call_link_callback : netifs -> Z -> Z -> A -> A
}.

Definition flag_set (f : Z) (n : netif_rec) : bool := negb (Z.land (nf_flags (nf n)) f =? 0).
Definition set_nf (f : ip_netif -> ip_netif) (n : netif_rec) : netif_rec := n <| nf := f (nf n) |>.
Definition with_flag (f : Z) : netif_rec -> netif_rec := set_nf (fun n => n <| nf_flags := Z.lor (nf_flags n) f |>).
Definition without_flag (f : Z) : netif_rec -> netif_rec := set_nf (fun n => n <| nf_flags := Z.land (nf_flags n) (255 - f) |>).

Section Code.
Context {A : Type} `{!NetifEnv A}.
#[local] Abbreviation MN := (M (nif_sys A)).

Definition on_nifs (f : netifs -> netifs) : MN unit := modify (fun s => s <| nifs := f (nifs s) |>).
Definition set_nif (a : Z) (n : netif_rec) (t : netifs) : netifs := t <| netif_at := fun x => if x =? a then n else netif_at t x |>.
Definition on_nif (a : Z) (f : netif_rec -> netif_rec) : MN unit := on_nifs (fun t => set_nif a (f (netif_at t a)) t).
Definition nif (a : Z) : MN netif_rec := gets (fun s => netif_at (nifs s) a).
Definition tell (f : netifs -> A -> A) : MN unit := modify (fun s => s <| stack := f (nifs s) (stack s) |>).

(** ** Addresses *)
Definition netif_issue_reports (a : Z) : MN unit :=
  n <- nif a ;;
  if negb (nf_addr (nf n) =? IPADDR_ANY) then
    if flag_set NETIF_FLAG_ETHARP n then tell (fun t => etharp_gratuitous t a) else ret tt
  else ret tt.
Definition netif_set_gw (a : Z) (gw : option Z) : MN unit :=
  on_nif a (set_nf (fun n => n <| nf_gw := default IPADDR_ANY gw |>)).
Definition netif_set_netmask (a : Z) (netmask : option Z) : MN unit :=
  on_nif a (set_nf (fun n => n <| nf_mask := default IPADDR_ANY netmask |>)).
Definition netif_set_ipaddr (a : Z) (ipaddr : option Z) : MN unit :=
  let new_addr := default IPADDR_ANY ipaddr in
  n <- nif a ;;
  let old_addr := nf_addr (nf n) in
  if negb (new_addr =? old_addr) then
    tell (fun t => tcp_addr_changed t old_addr (Some new_addr)) ;;;
    tell (fun t => udp_addr_changed t old_addr (Some new_addr)) ;;;
    on_nif a (set_nf (fun n => n <| nf_addr := new_addr |>)) ;;;
    netif_issue_reports a
  else ret tt.
Definition netif_set_addr (a : Z) (ipaddr netmask gw : option Z) : MN unit :=
  if default IPADDR_ANY ipaddr =? IPADDR_ANY then
    netif_set_ipaddr a ipaddr ;;; netif_set_netmask a netmask ;;; netif_set_gw a gw
  else
    netif_set_netmask a netmask ;;; netif_set_gw a gw ;;; netif_set_ipaddr a ipaddr.

(** ** Up and down *)
Definition netif_set_default (a : option Z) : MN unit := on_nifs (fun t => t <| netif_default := a |>).
Definition netif_set_up (a : Z) : MN unit :=
  n <- nif a ;;
  if negb (flag_set NETIF_FLAG_UP n) then
    on_nif a (with_flag NETIF_FLAG_UP) ;;;
    n <- nif a ;;
    if flag_set NETIF_FLAG_LINK_UP n then netif_issue_reports a else ret tt
  else ret tt.
Definition netif_set_down (a : Z) : MN unit :=
  n <- nif a ;;
  if flag_set NETIF_FLAG_UP n then
    on_nif a (without_flag NETIF_FLAG_UP) ;;;
    n <- nif a ;;
    if flag_set NETIF_FLAG_ETHARP n then tell (fun t => etharp_cleanup t a) else ret tt
  else ret tt.
Definition NETIF_LINK_CALLBACK (a : Z) : MN unit :=
  n <- nif a ;;
  match link_cb n with Some f => tell (fun t => call_link_callback t f a) | None => ret tt end.
Definition netif_set_link_up (a : Z) : MN unit :=
  n <- nif a ;;
  if negb (flag_set NETIF_FLAG_LINK_UP n) then
    on_nif a (with_flag NETIF_FLAG_LINK_UP) ;;;
    n <- nif a ;;
    (if flag_set NETIF_FLAG_UP n then netif_issue_reports a else ret tt) ;;;
    NETIF_LINK_CALLBACK a
  else ret tt.
Definition netif_set_link_down (a : Z) : MN unit :=
  n <- nif a ;;
  if flag_set NETIF_FLAG_LINK_UP n then
    on_nif a (without_flag NETIF_FLAG_LINK_UP) ;;; NETIF_LINK_CALLBACK a
  else ret tt.
Definition netif_set_link_callback (a : option Z) (link_callback : option Z) : MN unit :=
  match a with Some a => on_nif a (fun n => n <| link_cb := link_callback |>) | None => ret tt end.

(** ** The list *)

(** The result is NULL when [init] fails; then the interface is not on the list. *)
Definition netif_add (a : Z) (ipaddr netmask gw : option Z) (init : MN Z) : MN (option Z) :=
  t <- gets nifs ;;
  on_nif a (fun n => (set_nf (fun f => f <| nf_addr := 0 |> <| nf_mask := 0 |> <| nf_gw := 0 |> <| nf_flags := 0 |>) n)
                       <| link_cb := None |> <| num := netif_num t |>) ;;;
  on_nifs (fun t => t <| netif_num := u8 (netif_num t + 1) |>) ;;;
  netif_set_addr a ipaddr netmask gw ;;;
  err <- init ;;
  if negb (err =? ERR_OK) then ret None else
  on_nifs (fun t => t <| netif_list := a :: netif_list t |>) ;;;
  ret (Some a).

Fixpoint unlink (a : Z) (l : list Z) : list Z :=
  match l with
  | [] => []
  | x :: l => if x =? a then l else x :: unlink a l
  end.
Definition netif_remove (a : option Z) : MN unit :=
  match a with
  | None => ret tt
  | Some a =>
      n <- nif a ;;
      let old_addr := nf_addr (nf n) in
      (if negb (old_addr =? IPADDR_ANY) then
         tell (fun t => tcp_addr_changed t old_addr None) ;;; tell (fun t => udp_addr_changed t old_addr None)
       else ret tt) ;;;
      n <- nif a ;;
      (if flag_set NETIF_FLAG_UP n then netif_set_down a else ret tt) ;;;
      s <- gets nifs ;;
      (if bool_decide (netif_default s = Some a) then netif_set_default None else ret tt) ;;;
      on_nifs (fun t => t <| netif_list := unlink a (netif_list t) |>)
  end.

(** [name] is the text: two characters and a digit. *)
Definition netif_find (text : list Z) : MN (option Z) :=
  s <- gets nifs ;;
  let n := u8 (nth 2 text 0 - 48) in
  ret (List.find (fun a => (n =? num (netif_at s a)) && (nth 0 text 0 =? (name (netif_at s a)).1) && (nth 1 text 0 =? (name (netif_at s a)).2))
         (netif_list s)).
(** Which input function gets a received packet. *)
Definition netif_input {B} (ethernet_input ip_input : MN B) (a : Z) : MN B :=
  n <- nif a ;;
  if negb (Z.land (nf_flags (nf n)) (Z.lor NETIF_FLAG_ETHARP NETIF_FLAG_ETHERNET) =? 0) then ethernet_input else ip_input.
End Code.

(** ** The interface of the bootloader (APP/app_ethernet.c, APP/ethernetif.c) *)
Section Config.
Context {A : Type} `{!NetifEnv A}.
Variables (gnetif ipaddr netmask gw : Z) (mtu : Z).

(** The part of [ethernetif_init] that the stack sees: [link] says whether
    [ethernet_link_check_state] finds the link up; the private data may not be allocated. *)
Definition ethernetif_init (mem_ok link : bool) : M (nif_sys A) Z :=
  if negb mem_ok then ret ERR_MEM else
  on_nif gnetif (fun n => (set_nf (fun f => f <| nf_mtu := mtu |>
      <| nf_flags := Z.lor (nf_flags f) (Z.lor NETIF_FLAG_BROADCAST NETIF_FLAG_ETHARP) |>) n) <| name := (115, 116) |>) ;;;
  (if link then netif_set_up gnetif ;;; netif_set_link_up gnetif else ret tt) ;;;
  ret ERR_OK.
Definition Netif_Config (mem_ok link : bool) : M (nif_sys A) unit :=
  netif_add gnetif (Some ipaddr) (Some netmask) (Some gw) (ethernetif_init mem_ok link) ;;;
  netif_set_default (Some gnetif) ;;;
  n <- nif gnetif ;;
  if flag_set NETIF_FLAG_LINK_UP n then netif_set_up gnetif else netif_set_down gnetif.
End Config.

(** ** Flags *)
Lemma flag_bit k n : 0 <= k -> flag_set (2 ^ k) n = Z.testbit (nf_flags (nf n)) k.
Proof.
  intros Hk. unfold flag_set. set (x := nf_flags (nf n)). clearbody x. destruct (Z.testbit x k) eqn:E.
  - destruct (Z.eqb_spec (Z.land x (2 ^ k)) 0) as [H|]; [|done].
    assert (H1 : Z.testbit (Z.land x (2 ^ k)) k = true) by (by rewrite Z.land_spec, E, Z.pow2_bits_true).
    by rewrite H, Z.bits_0 in H1.
  - replace (Z.land x (2 ^ k)) with 0; [done|]. symmetry. apply Z.bits_inj'. intros j Hj.
    rewrite Z.land_spec, Z.bits_0. destruct (Z.eq_dec k j) as [<-|N]; [by rewrite E|].
    by rewrite Z.pow2_bits_false, andb_false_r by done.
Qed.
Lemma with_flag_bits k j n : 0 <= k -> 0 <= j ->
  flag_set (2 ^ j) (with_flag (2 ^ k) n) = (k =? j) || flag_set (2 ^ j) n.
Proof.
  intros Hk Hj. rewrite !flag_bit by done. cbn. rewrite Z.lor_spec, Z.pow2_bits_eqb, orb_comm by done. done.
Qed.
Lemma without_flag_bits k j n : 0 <= k < 8 -> 0 <= j < 8 ->
  flag_set (2 ^ j) (without_flag (2 ^ k) n) = negb (k =? j) && flag_set (2 ^ j) n.
Proof.
  intros Hk Hj. rewrite !flag_bit by lia.
  change (Z.testbit (Z.land (nf_flags (nf n)) (255 - 2 ^ k)) j = negb (k =? j) && Z.testbit (nf_flags (nf n)) j).
  rewrite Z.land_spec, andb_comm. f_equal.
  assert (H : forallb (fun k => forallb (fun j => Bool.eqb (Z.testbit (255 - 2 ^ k) j) (negb (k =? j))) (seqZ 0 8)) (seqZ 0 8) = true)
    by reflexivity.
  rewrite forallb_forall in H. specialize (H k). rewrite <- list_elem_of_In, elem_of_seqZ in H. specialize (H Hk).
  rewrite forallb_forall in H. specialize (H j). rewrite <- list_elem_of_In, elem_of_seqZ in H. by apply eqb_prop, H.
Qed.
(** The flags by their bits. *)
#[local] Abbreviation UP := (flag_set (2 ^ 0)).
#[local] Abbreviation LINK := (flag_set (2 ^ 2)).
#[local] Abbreviation ETHARP := (flag_set (2 ^ 3)).

(** ** Up and down, link up and link down *)
Inductive nif_op := SetUp | SetDown | LinkUp | LinkDown.
Definition same_but_flags (n n' : netif_rec) : Prop :=
  n' = set_nf (fun f => f <| nf_flags := nf_flags (nf n') |>) n.
(** Only the interface [a] has changed. *)
Definition only_at (a : Z) (t t' : netifs) : Prop :=
  netif_list t' = netif_list t /\ netif_default t' = netif_default t /\ netif_num t' = netif_num t /\
  forall x, x <> a -> netif_at t' x = netif_at t x.
Lemma set_nif_at a n t : netif_at (set_nif a n t) a = n.
Proof. cbn. by rewrite Z.eqb_refl. Qed.
Lemma set_nif_other a n t x : x <> a -> netif_at (set_nif a n t) x = netif_at t x.
Proof. intros N. cbn. by rewrite (proj2 (Z.eqb_neq x a) N). Qed.
Lemma only_at_set a n t : only_at a t (set_nif a n t).
Proof. repeat split; try done. intros x N. by apply set_nif_other. Qed.
Lemma only_at_refl a t : only_at a t t.
Proof. done. Qed.
Lemma same_flags_refl n : same_but_flags n n.
Proof. by destruct n as [[]]. Qed.

Section Updown.
Context {A : Type} `{!NetifEnv A}.
Implicit Types (s : nif_sys A) (t : netifs).

Definition run_op (op : nif_op) (a : Z) : M (nif_sys A) unit :=
  match op with
  | SetUp => netif_set_up a | SetDown => netif_set_down a
  | LinkUp => netif_set_link_up a | LinkDown => netif_set_link_down a
  end.
Definition operational (n : netif_rec) : bool := UP n && LINK n.
(** A gratuitous ARP request, when there is an address. *)
Definition announce t (a : Z) (e : A) : A :=
  let n := netif_at t a in
  if negb (nf_addr (nf n) =? IPADDR_ANY) && ETHARP n then etharp_gratuitous t a e else e.
Definition callback t (a : Z) (e : A) : A :=
  match link_cb (netif_at t a) with Some f => call_link_callback t f a e | None => e end.
(** What the others are told when [a] changes from [n] to what it is in [t]. *)
Definition told (n : netif_rec) t (a : Z) (e : A) : A :=
  let n' := netif_at t a in
  let e := if UP n && negb (UP n') && ETHARP n then etharp_cleanup t a e else e in
  let e := if negb (operational n) && operational n' then announce t a e else e in
  if Bool.eqb (LINK n) (LINK n') then e else callback t a e.

Lemma reports_run a s : netif_issue_reports a s = (tt, s <| stack := announce (nifs s) a (stack s) |>).
Proof.
  unfold netif_issue_reports, announce, bind, nif, gets, tell, modify. change NETIF_FLAG_ETHARP with (2 ^ 3).
  destruct (negb _); cbn [andb]; [|by destruct s]. destruct (ETHARP _); by destruct s.
Qed.
Lemma callback_run a s : NETIF_LINK_CALLBACK a s = (tt, s <| stack := callback (nifs s) a (stack s) |>).
Proof.
  unfold NETIF_LINK_CALLBACK, callback, bind, nif, gets, tell, modify. destruct (link_cb _); by destruct s.
Qed.

(** What an operation does to the interface: [None] when it does nothing. *)
Definition flags_after (op : nif_op) (n : netif_rec) : option netif_rec :=
  match op with
  | SetUp => if UP n then None else Some (with_flag (2 ^ 0) n)
  | SetDown => if UP n then Some (without_flag (2 ^ 0) n) else None
  | LinkUp => if LINK n then None else Some (with_flag (2 ^ 2) n)
  | LinkDown => if LINK n then Some (without_flag (2 ^ 2) n) else None
  end.
Lemma told_same n t a e : netif_at t a = n -> told n t a e = e.
Proof. intros E. unfold told, operational. rewrite E, Bool.eqb_reflx. by destruct (UP n), (LINK n). Qed.

Lemma on_nif_run a f s : on_nif a f s = (tt, mkSys (set_nif a (f (netif_at (nifs s) a)) (nifs s)) (stack s)).
Proof. by destruct s. Qed.

Lemma op_run op a s : let n := netif_at (nifs s) a in
  run_op op a s = (tt, match flags_after op n with
                       | None => s
                       | Some n' => let t := set_nif a n' (nifs s) in mkSys t (told n t a (stack s))
                       end).
Proof.
  destruct s as [t e]. cbn [nifs stack]. set (n := netif_at t a).
  unfold run_op, flags_after, netif_set_up, netif_set_down, netif_set_link_up, netif_set_link_down.
  change NETIF_FLAG_UP with (2 ^ 0). change NETIF_FLAG_LINK_UP with (2 ^ 2). change NETIF_FLAG_ETHARP with (2 ^ 3).
  destruct op; unfold bind at 1; change (nif a (mkSys t e)) with (n, mkSys t e); cbv beta iota.
  - destruct (UP n) eqn:Eu; cbn [negb]; [done|]. unfold bind. rewrite on_nif_run. cbn [nifs stack nif gets]. fold n. rewrite set_nif_at.
    unfold told, operational. rewrite set_nif_at. rewrite !with_flag_bits by lia. cbn [Z.eqb Pos.eqb orb].
    rewrite Eu, Bool.eqb_reflx. cbn [andb negb]. destruct (LINK n); [|done]. by rewrite reports_run.
  - destruct (UP n) eqn:Eu; [|done]. unfold bind. rewrite on_nif_run. cbn [nifs stack nif gets]. fold n. rewrite set_nif_at.
    unfold told, operational. rewrite set_nif_at. rewrite !without_flag_bits by lia. cbn [Z.eqb Pos.eqb orb negb andb].
    rewrite Eu, Bool.eqb_reflx. cbn [andb negb]. destruct (LINK n); cbn [negb andb]; by destruct (ETHARP n).
  - destruct (LINK n) eqn:El; cbn [negb]; [done|]. unfold bind. rewrite on_nif_run. cbn [nifs stack nif gets]. fold n. rewrite set_nif_at.
    unfold told, operational. rewrite set_nif_at. rewrite !with_flag_bits by lia. cbn [Z.eqb Pos.eqb orb].
    rewrite El. cbn [Bool.eqb]. rewrite !andb_true_r, andb_false_r. cbn [negb andb].
    destruct (UP n); cbn [negb andb]; [rewrite reports_run; cbv beta iota|cbn [ret]]; by rewrite callback_run.
  - destruct (LINK n) eqn:El; [|done]. unfold bind. rewrite on_nif_run. cbn [nifs stack nif gets]. fold n.
    unfold told, operational. rewrite set_nif_at. rewrite !without_flag_bits by lia. cbn [Z.eqb Pos.eqb orb negb andb].
    rewrite El. cbn [Bool.eqb]. rewrite !andb_true_r, !andb_false_r. destruct (UP n); cbn [negb andb]; rewrite callback_run; done.
Qed.

Definition op_spec (op : nif_op) (a : Z) s : Prop :=
  let n := netif_at (nifs s) a in let s' := (run_op op a s).2 in let n' := netif_at (nifs s') a in
  only_at a (nifs s) (nifs s') /\ same_but_flags n n' /\
  UP n' = match op with SetUp => true | SetDown => false | _ => UP n end /\
  LINK n' = match op with LinkUp => true | LinkDown => false | _ => LINK n end /\
  stack s' = told n (nifs s') a (stack s).
Lemma op_exact op a s : op_spec op a s.
Proof.
  unfold op_spec. cbv zeta. rewrite op_run. cbn [snd]. set (n := netif_at (nifs s) a).
  destruct (flags_after op n) as [n'|] eqn:E; unfold flags_after in E.
  - cbn [nifs stack]. rewrite set_nif_at. split; [apply only_at_set|].
    destruct op; destruct (UP n) eqn:Eu, (LINK n) eqn:El; try done; injection E as <-;
      (split; [by destruct n as [[]]|]); rewrite ?with_flag_bits, ?without_flag_bits, ?Eu, ?El by lia; by split_and!.
  - fold n. rewrite told_same by done. split; [apply only_at_refl|]. split; [apply same_flags_refl|].
    destruct op; destruct (UP n) eqn:Eu, (LINK n) eqn:El; done.
Qed.

(** netif_set_up, netif_set_down and the two link functions set or clear exactly their
    flag of one interface; the others are told exactly on a change: an address is
    announced when the interface becomes operational (up with a link), the ARP entries
    are dropped when it goes down, and the callback is called when the link changes. *)
Theorem netif_flags_exact op a s :
  let n := netif_at (nifs s) a in let s' := (run_op op a s).2 in let n' := netif_at (nifs s') a in
  only_at a (nifs s) (nifs s') /\ same_but_flags n n' /\
  UP n' = match op with SetUp => true | SetDown => false | _ => UP n end /\
  LINK n' = match op with LinkUp => true | LinkDown => false | _ => LINK n end /\
  stack s' = told n (nifs s') a (stack s).
Proof. apply op_exact. Qed.
End Updown.

(** ** Addresses *)
Section Addr.
Context {A : Type} `{!NetifEnv A}.
Implicit Types (s : nif_sys A) (t : netifs).

Definition set_ip (new : Z) : netif_rec -> netif_rec := set_nf (fun f => f <| nf_addr := new |>).
Definition set_net (mask gw : option Z) : netif_rec -> netif_rec :=
  set_nf (fun f => f <| nf_mask := default IPADDR_ANY mask |> <| nf_gw := default IPADDR_ANY gw |>).
(** TCP and UDP are told, while the interface still has the old address. *)
Definition tell_change t (old new : Z) (e : A) : A := udp_addr_changed t old (Some new) (tcp_addr_changed t old (Some new) e).

Lemma set_ipaddr_run a ip s : let old := nf_addr (nf (netif_at (nifs s) a)) in let new := default IPADDR_ANY ip in
  netif_set_ipaddr a ip s = (tt, if new =? old then s else
    let t := set_nif a (set_ip new (netif_at (nifs s) a)) (nifs s) in
    mkSys t (announce t a (tell_change (nifs s) old new (stack s)))).
Proof.
  destruct s as [t e]. cbn [nifs stack]. set (old := nf_addr _). set (new := default _ ip). cbv zeta.
  unfold netif_set_ipaddr. unfold bind at 1. change (nif a (mkSys t e)) with (netif_at t a, mkSys t e). cbv beta iota zeta.
  fold old new. destruct (new =? old); [done|]. cbn [negb]. unfold bind, tell, modify. cbv beta iota zeta.
  change (nifs (_ <| stack := _ |>)) with t. rewrite on_nif_run. cbv beta iota. by rewrite reports_run.
Qed.

Lemma only_at_trans a t1 t2 t3 : only_at a t1 t2 -> only_at a t2 t3 -> only_at a t1 t3.
Proof. intros (A1 & A2 & A3 & A4) (B1 & B2 & B3 & B4). split; [congruence|]. split; [congruence|]. split; [congruence|]. intros x N. rewrite B4; auto. Qed.
Lemma set_ipaddr_spec a ip s : let n := netif_at (nifs s) a in let old := nf_addr (nf n) in let new := default IPADDR_ANY ip in
  exists t e, netif_set_ipaddr a ip s = (tt, mkSys t e) /\ only_at a (nifs s) t /\ netif_at t a = set_ip new n /\
    e = if new =? old then stack s else announce t a (tell_change (nifs s) old new (stack s)).
Proof.
  cbv zeta. rewrite set_ipaddr_run. set (new := default _ ip). destruct (Z.eqb_spec new (nf_addr (nf (netif_at (nifs s) a)))) as [->|N].
  - exists (nifs s), (stack s). split; [by destruct s|]. split; [apply only_at_refl|]. split; [by destruct (netif_at _ a) as [[]]|done].
  - eexists _, _. split; [reflexivity|]. split; [apply only_at_set|]. split; [apply set_nif_at|done].
Qed.
Lemma announce_none t a e : nf_addr (nf (netif_at t a)) = IPADDR_ANY -> announce t a e = e.
Proof. intros E. unfold announce. by rewrite E. Qed.

Definition addr_spec (a : Z) (ip mask gw : option Z) s : Prop :=
  let n := netif_at (nifs s) a in let old := nf_addr (nf n) in let new := default IPADDR_ANY ip in
  let s' := (netif_set_addr a ip mask gw s).2 in
  only_at a (nifs s) (nifs s') /\ netif_at (nifs s') a = set_ip new (set_net mask gw n) /\
  exists t, only_at a (nifs s) t /\ netif_at t a = (if new =? IPADDR_ANY then n else set_net mask gw n) /\
    stack s' = if new =? old then stack s
               else if new =? IPADDR_ANY then tell_change t old new (stack s)
               else announce (nifs s') a (tell_change t old new (stack s)).
Lemma set_addr_spec a ip mask gw s : addr_spec a ip mask gw s.
Proof.
  unfold addr_spec. cbv zeta. unfold netif_set_addr, netif_set_netmask, netif_set_gw, bind. set (new := default _ ip). set (n := netif_at (nifs s) a).
  destruct (Z.eqb_spec new IPADDR_ANY) as [E|N].
  - destruct (set_ipaddr_spec a ip s) as (t & e & R & O & En & Ee). rewrite R. cbv beta iota. fold new n in En, Ee.
    rewrite !on_nif_run. cbn [nifs stack snd]. rewrite !set_nif_at, En.
    split; [do 2 (eapply only_at_trans; [|apply only_at_set]); done|]. split; [by destruct n as [[]]|].
    exists (nifs s). split; [apply only_at_refl|]. split; [done|]. rewrite Ee. destruct (new =? _); [done|].
    apply announce_none. by rewrite En.
  - rewrite !on_nif_run. cbv beta iota. cbn [nifs stack]. rewrite set_nif_at. fold n.
    set (t := set_nif a _ (set_nif a _ (nifs s))). assert (Et : netif_at t a = set_net mask gw n).
    { unfold t. rewrite set_nif_at. by destruct n as [[]]. }
    assert (Ot : only_at a (nifs s) t) by (unfold t; eapply only_at_trans; apply only_at_set).
    destruct (set_ipaddr_spec a ip (mkSys t (stack s))) as (t' & e & R & O & En & Ee). cbn [nifs stack] in *. rewrite R. cbn [snd nifs stack].
    fold new in En, Ee. rewrite Et in *. split; [by eapply only_at_trans|]. split; [done|]. exists t. split; [done|]. by split.
Qed.

(** netif_set_addr changes nothing but the three addresses of the interface. TCP and UDP
    are told exactly when the IP address changes: with the old netmask and gateway still
    set when the address is taken away, with the new ones when one is given, which is
    then announced. *)
Theorem netif_set_addr_exact a ip mask gw s :
  let n := netif_at (nifs s) a in let old := nf_addr (nf n) in let new := default IPADDR_ANY ip in
  let s' := (netif_set_addr a ip mask gw s).2 in
  only_at a (nifs s) (nifs s') /\ netif_at (nifs s') a = set_ip new (set_net mask gw n) /\
  exists t, only_at a (nifs s) t /\ netif_at t a = (if new =? IPADDR_ANY then n else set_net mask gw n) /\
    stack s' = if new =? old then stack s
               else if new =? IPADDR_ANY then tell_change t old new (stack s)
               else announce (nifs s') a (tell_change t old new (stack s)).
Proof. apply set_addr_spec. Qed.
End Addr.

(** ** The list *)
Section List.
Context {A : Type} `{!NetifEnv A}.
Implicit Types (s : nif_sys A) (t : netifs).

(** An initialisation function that leaves the list alone, as a driver does. *)
Definition init_ok (init : M (nif_sys A) Z) : Prop := forall s,
  netif_list (nifs (init s).2) = netif_list (nifs s) /\ netif_default (nifs (init s).2) = netif_default (nifs s).
Inductive nif_step : nif_sys A -> nif_sys A -> Prop :=
| StAdd a ip mask gw init s : a ∉ netif_list (nifs s) -> init_ok init -> nif_step s (netif_add a ip mask gw init s).2
| StRemove a s : nif_step s (netif_remove a s).2
| StDefault a s : (forall x, a = Some x -> x ∈ netif_list (nifs s)) -> nif_step s (netif_set_default a s).2
| StAddr a ip mask gw s : nif_step s (netif_set_addr a ip mask gw s).2
| StUpDown op a s : nif_step s (run_op op a s).2
(** The rest of the stack goes on. *)
| StStack e s : nif_step s (s <| stack := e |>).
Inductive nif_run : nif_sys A -> nif_sys A -> Prop :=
| RunRefl s : nif_run s s
| RunStep s1 s2 s3 : nif_run s1 s2 -> nif_step s2 s3 -> nif_run s1 s3.

(** No interface twice, and the default interface is one of them. *)
Record nifs_ok t : Prop := {
  no_nodup : NoDup (netif_list t);
  no_default a : netif_default t = Some a -> a ∈ netif_list t
}.
Lemma only_at_ok a t t' : only_at a t t' -> nifs_ok t -> nifs_ok t'.
Proof. intros (E1 & E2 & _) [H1 H2]. constructor; rewrite ?E1, ?E2; done. Qed.
Lemma unlink_elem a x l : NoDup l -> x ∈ unlink a l <-> x ∈ l /\ x <> a.
Proof.
  induction l as [|y l IH]; cbn [unlink]; [rewrite elem_of_nil; split; [done|by intros []]|]. intros [Hy Hl]%NoDup_cons.
  destruct (Z.eqb_spec y a) as [->|N]; rewrite !elem_of_cons.
  - split; [intros H; split; [by right|by intros ->]|by intros [[->|H] N]].
  - rewrite IH by done. split; [intros [->|[H Nx]]; auto|intros [[->|H] Nx]; auto].
Qed.
Lemma unlink_nodup a l : NoDup l -> NoDup (unlink a l).
Proof.
  induction l as [|y l IH]; cbn [unlink]; [done|]. intros [Hy Hl]%NoDup_cons. destruct (y =? a); [done|].
  apply NoDup_cons. split; [|auto]. by rewrite unlink_elem by done; intros [].
Qed.

(** Removing: what is left of the interface. *)
Lemma netif_remove_run a t e : exists t' e', netif_remove (Some a) (mkSys t e) = (tt, mkSys t' e') /\
  netif_list t' = unlink a (netif_list t) /\
  netif_default t' = (if bool_decide (netif_default t = Some a) then None else netif_default t) /\
  UP (netif_at t' a) = false /\ (forall x, x <> a -> netif_at t' x = netif_at t x).
Proof.
  unfold netif_remove. unfold bind at 1. change (nif a (mkSys t e)) with (netif_at t a, mkSys t e).
  cbv beta iota zeta. set (old := nf_addr _). unfold bind at 1.
  assert (E1 : exists e1, (if negb (old =? IPADDR_ANY) then tell (fun t => tcp_addr_changed t old None) ;;; tell (fun t => udp_addr_changed t old None)
                           else ret tt) (mkSys t e) = (tt, mkSys t e1)) by (destruct (negb _); by eexists).
  destruct E1 as [e1 ->]. cbv beta iota. unfold bind at 1. change (nif a (mkSys t e1)) with (netif_at t a, mkSys t e1). cbv beta iota.
  change NETIF_FLAG_UP with (2 ^ 0). unfold bind at 1.
  assert (E2 : exists t2 e2, (if UP (netif_at t a) then netif_set_down a else ret tt) (mkSys t e1) = (tt, mkSys t2 e2) /\
                only_at a t t2 /\ UP (netif_at t2 a) = false).
  { destruct (UP (netif_at t a)) eqn:Eu; [|by exists t, e1]. pose proof (op_exact SetDown a (mkSys t e1)) as X. unfold op_spec in X.
    cbn [run_op] in X. destruct (netif_set_down a (mkSys t e1)) as [[] [t2 e2]]. destruct X as (O & _ & U & _). by exists t2, e2. }
  destruct E2 as (t2 & e2 & -> & (O1 & O2 & O3 & O4) & U). cbv beta iota. unfold bind, gets. cbn [nifs]. rewrite O2.
  destruct (bool_decide (netif_default t = Some a)); eexists _, _; (split; [reflexivity|]); cbn; rewrite O1; auto.
Qed.
Lemma netif_remove_spec a s : let t := nifs s in let t' := nifs (netif_remove (Some a) s).2 in
  netif_list t' = unlink a (netif_list t) /\
  netif_default t' = (if bool_decide (netif_default t = Some a) then None else netif_default t) /\
  UP (netif_at t' a) = false /\ (forall x, x <> a -> netif_at t' x = netif_at t x).
Proof. destruct s as [t e]. destruct (netif_remove_run a t e) as (t' & e' & -> & H). exact H. Qed.
Lemma remove_ok a s : nifs_ok (nifs s) -> nifs_ok (nifs (netif_remove (Some a) s).2).
Proof.
  intros [H1 H2]. destruct (netif_remove_spec a s) as (L & D & _). constructor.
  - rewrite L. by apply unlink_nodup.
  - intros x. rewrite L, D, unlink_elem by done. case_bool_decide as Ed; [done|]. intros Ex. split; [by apply H2|]. by intros ->.
Qed.
Lemma add_ok a ip mask gw init s : nifs_ok (nifs s) -> a ∉ netif_list (nifs s) -> init_ok init ->
  nifs_ok (nifs (netif_add a ip mask gw init s).2).
Proof.
  intros [H1 H2] Ha Hi. unfold netif_add, bind, gets. rewrite on_nif_run. cbv beta iota. set (s1 := mkSys _ _). unfold on_nifs at 1, modify. cbv beta iota.
  set (s2 := _ <| nifs := _ |>).
  assert (E2 : netif_list (nifs s2) = netif_list (nifs s) /\ netif_default (nifs s2) = netif_default (nifs s)) by done.
  assert (E3 : exists s3, netif_set_addr a ip mask gw s2 = (tt, s3) /\ only_at a (nifs s2) (nifs s3)).
  { destruct (set_addr_spec a ip mask gw s2) as [O _]. destruct (netif_set_addr a ip mask gw s2) as [[] s3]. by exists s3. }
  destruct E3 as (s3 & -> & (O1 & O2 & _)). cbv beta iota. destruct (Hi s3) as [I1 I2]. destruct (init s3) as [err s4]. cbn [snd] in *.
  destruct E2 as [L2 D2]. rewrite O1, L2 in I1. rewrite O2, D2 in I2. destruct (negb _); cbn.
  - constructor; rewrite I1; [done|]. intros x. rewrite I2. apply H2.
  - constructor; cbn; rewrite I1; [by apply NoDup_cons|]. intros x. rewrite I2. intros Hx. right. by apply H2.
Qed.

(** In every state that the functions of the list reach from the start, no interface is
    on the list twice and the default interface is one of the list. *)
Theorem netif_reach_ok at0 e s : nif_run (mkSys (mkNifs [] None 0 at0) e) s -> nifs_ok (nifs s).
Proof.
  intros H. remember (mkSys (mkNifs [] None 0 at0) e) as s0 eqn:E. induction H as [s|s1 s2 s3 H IH Hs].
  - subst. constructor; [apply NoDup_nil_2|done].
  - specialize (IH E). destruct Hs as [a ip mask gw init s Ha Hi|[a|] s|a s Ha|a ip mask gw s|op a s|e1 s].
    + by apply add_ok.
    + by apply remove_ok.
    + done.
    + destruct IH as [H1 H2]. constructor; [done|]. cbn. apply Ha.
    + eapply only_at_ok; [apply set_addr_spec|done].
    + eapply only_at_ok; [apply op_exact|done].
    + done.
Qed.
End List.
