(* ===== verification/NetifRun.v ===== *)
(** * The interface of the bootloader at work

    What the change of an interface's address leaves of TCP and UDP, how [Netif_Config] leaves
    the interface, and the runs of the witnesses. *)
From stdpp Require Import gmap.
From S2P Require Import Prelude Ip4Addr Ip4Hdr Net Etharp Ip4 Tcp TcpPort TcpAlloc UdpPcb Netif.

(** ** TCP and UDP below the interfaces *)
Record transport (E B : Type) := mkTransport { tr_tcp : tcb_sys E; tr_udp : udp_sys; tr_rest : B }.
Arguments mkTransport {E B}. Arguments tr_tcp {E B}. Arguments tr_udp {E B}. Arguments tr_rest {E B}.
#[export] Instance transport_eta E B : Eta (transport E B) := fun e => mkTransport (tr_tcp e) (tr_udp e) (tr_rest e).

(** A block bound to the old address follows the interface. *)
Definition u_moved (old new : Z) (b : udp_pcb) : udp_pcb :=
  if u_local_ip b =? old then b <| u_local_ip := new |> else b.
Lemma u_moved_twice old new b : new <> old -> u_moved old new (u_moved old new b) = u_moved old new b.
Proof.
  intros N. unfold u_moved. destruct (Z.eqb_spec (u_local_ip b) old) as [E|E].
  - cbn. by rewrite (proj2 (Z.eqb_neq new old) N).
  - by rewrite (proj2 (Z.eqb_neq _ _) E).
Qed.
Lemma udp_moves old new l u : new <> old ->
  let u' := fold_left (fun u a =>
    if u_local_ip (upcb u a) =? old then set_upcb a ((upcb u a) <| u_local_ip := new |>) u else u) l u in
  udp_port u' = udp_port u /\ udp_pcbs u' = udp_pcbs u /\
  forall x, upcb u' x = if bool_decide (x ∈ l) then u_moved old new (upcb u x) else upcb u x.
Proof.
  intros N. cbv zeta. revert u.
  induction l as [|a l IH]; intros u; cbn [fold_left]; [done|].
  set (u1 := if _ =? old then _ else u). destruct (IH u1) as (P & L & R).
  assert (E1 : udp_port u1 = udp_port u /\ udp_pcbs u1 = udp_pcbs u) by (unfold u1; by destruct (_ =? _)).
  destruct E1 as [-> ->] in P, L. split; [exact P|]. split; [exact L|]. intros x. rewrite R.
  assert (E1 : upcb u1 x = if x =? a then u_moved old new (upcb u x) else upcb u x).
  { unfold u1, u_moved, set_upcb. destruct (Z.eqb_spec x a) as [->|Nx].
    - destruct (_ =? old); [|done]. cbn. by rewrite Z.eqb_refl.
    - destruct (_ =? old); [|done]. cbn. by rewrite (proj2 (Z.eqb_neq x a) Nx). }
  rewrite E1. clear E1. destruct (Z.eqb_spec x a) as [Ea|Nx]; [rewrite Ea|].
  - rewrite (bool_decide_eq_true_2 (a ∈ a :: l)) by left. case_bool_decide; [by apply u_moved_twice|done].
  - destruct (bool_decide (x ∈ l)) eqn:D; [apply bool_decide_eq_true_1 in D|apply bool_decide_eq_false_1 in D].
    + by rewrite bool_decide_eq_true_2 by (by right).
    + by rewrite bool_decide_eq_false_2 by (rewrite elem_of_cons; by intros [?|?]).
Qed.
Lemma udp_moved old new u : old <> IPADDR_ANY -> new <> IPADDR_ANY -> new <> old ->
  let u' := (udp_netif_ip_addr_changed old new u).2 in
  udp_port u' = udp_port u /\ udp_pcbs u' = udp_pcbs u /\
  forall x, upcb u' x = if bool_decide (x ∈ udp_pcbs u) then u_moved old new (upcb u x) else upcb u x.
Proof.
  intros Ho Hn N. unfold udp_netif_ip_addr_changed. rewrite (proj2 (Z.eqb_neq _ _) Ho), (proj2 (Z.eqb_neq _ _) Hn).
  by apply udp_moves.
Qed.

Lemma filter_split_addrs (P : tcb -> Prop) `{forall t, Decision (P t)} l :
  Permutation (addrs l) (addrs (filter P l) ++ addrs (filter (fun t => ~ P t) l)).
Proof.
  unfold addrs. induction l as [|t l IH]; [done|]. cbn [map]. destruct (decide (P t)) as [Ht|Ht].
  - rewrite filter_cons_True, filter_cons_False by auto. cbn. by rewrite <- IH.
  - rewrite filter_cons_False, filter_cons_True by auto. cbn. rewrite <- Permutation_middle. by rewrite <- IH.
Qed.
Lemma listeners_moved old new l : new <> old ->
  Forall (fun e => local_ip e <> old) (map (moves_to old new) l).
Proof.
  intros N. apply Forall_map, Forall_true. intros e. unfold moves_to.
  destruct (Z.eqb_spec (local_ip e) old); [by cbn|done].
Qed.

Section Transport.
Context {E B : Type} `{!TcbEnv E}.
Variables (arp_announce arp_cleanup : netifs -> Z -> B -> B) (link_changed : netifs -> Z -> Z -> B -> B).
Implicit Types (s : nif_sys (transport E B)).

(** netif.c over tcp.c and udp.c; what ARP and the callback do is left open. *)
#[local] Instance transport_env : NetifEnv (transport E B) := {
  tcp_addr_changed _ old new e := e <| tr_tcp := (tcp_netif_ip_addr_changed old new (tr_tcp e)).2 |>;
  udp_addr_changed _ old new e := e <| tr_udp := (udp_netif_ip_addr_changed old (default IPADDR_ANY new) (tr_udp e)).2 |>;
  etharp_gratuitous t a e := e <| tr_rest := arp_announce t a (tr_rest e) |>;
  etharp_cleanup t a e := e <| tr_rest := arp_cleanup t a (tr_rest e) |>;
  call_link_callback t f a e := e <| tr_rest := link_changed t f a (tr_rest e) |>
}.
Lemma change_tcp t old new e : tr_tcp (tell_change t old new e) = (tcp_netif_ip_addr_changed old (Some new) (tr_tcp e)).2.
Proof. done. Qed.
Lemma change_udp t old new e : tr_udp (tell_change t old new e) = (udp_netif_ip_addr_changed old new (tr_udp e)).2.
Proof. done. Qed.
Lemma announce_transport t a e : tr_tcp (announce t a e) = tr_tcp e /\ tr_udp (announce t a e) = tr_udp e.
Proof. unfold announce. by destruct (_ && _). Qed.

(** C35. When an interface changes from one address to another, exactly the active
    connections and bound blocks with the old address are given up, their memory is back
    in the pool, and every listener and every UDP block with it is moved to the new one;
    all others, and the blocks in TIME_WAIT, stay as they are. *)
Theorem address_change_complete a new s :
  let old := nf_addr (nf (netif_at (nifs s) a)) in
  let tcp := tr_tcp (stack s) in let udp := tr_udp (stack s) in
  old <> IPADDR_ANY -> new <> IPADDR_ANY -> new <> old -> tcbs_ok tcp ->
  let s' := (netif_set_ipaddr a (Some new) s).2 in
  let tcp' := tr_tcp (stack s') in let udp' := tr_udp (stack s') in
  nf_addr (nf (netif_at (nifs s') a)) = new /\
  active_tcbs tcp' = filter (fun t : tcb => ~ uses old t) (active_tcbs tcp) /\
  bound_tcbs tcp' = filter (fun t : tcb => ~ uses old t) (bound_tcbs tcp) /\
  tw_tcbs tcp' = tw_tcbs tcp /\
  tcbs_ok tcp' /\ Permutation (pool_of tcp') (pool_of tcp) /\
  listen_ends tcp' = map (moves_to old new) (listen_ends tcp) /\ Forall (fun e => local_ip e <> old) (listen_ends tcp') /\
  udp_pcbs udp' = udp_pcbs udp /\ Forall (fun x => upcb udp' x = u_moved old new (upcb udp x) /\ u_local_ip (upcb udp' x) <> old) (udp_pcbs udp').
Proof.
  intros old tcp udp Ho Hn N Hok s' tcp' udp'.
  assert (Es : s' = let t := set_nif a (set_ip new (netif_at (nifs s) a)) (nifs s) in
                    mkSys t (announce t a (tell_change (nifs s) old new (stack s)))).
  { subst s'. rewrite set_ipaddr_run. cbv zeta. change (default IPADDR_ANY (Some new)) with new. fold old. by rewrite (proj2 (Z.eqb_neq new old) N). }
  clearbody s'. subst tcp' udp'. rewrite Es. cbv zeta. cbn [nifs stack]. rewrite set_nif_at.
  rewrite !(proj1 (announce_transport _ _ _)), !(proj2 (announce_transport _ _ _)), !change_tcp, !change_udp.
  destruct (addr_changed_run old (Some new) tcp Hok Ho) as [Et Ot]. fold tcp udp. cbv zeta in Et, Ot. change (default IPADDR_ANY (Some new)) with new in Et.
  destruct (udp_moved old new udp Ho Hn N) as (_ & L & R).
  assert (P : Permutation (pool_of (tcp_netif_ip_addr_changed old (Some new) tcp).2) (pool_of tcp)).
  { rewrite Et. unfold pool_of. cbn [free_tcbs bound_tcbs active_tcbs tw_tcbs].
    rewrite <- Permutation_rev, (filter_split_addrs (uses old) (active_tcbs tcp)), (filter_split_addrs (uses old) (bound_tcbs tcp)).
    unfold addrs. rewrite map_app. solve_Permutation. }
  split; [done|]. split; [by rewrite Et|]. split; [by rewrite Et|]. split; [by rewrite Et|]. split; [exact Ot|]. split; [exact P|].
  rewrite Et. rewrite (proj2 (Z.eqb_neq new IPADDR_ANY) Hn). cbn [listen_ends].
  split; [done|]. split; [by apply listeners_moved|]. split; [exact L|].
  rewrite L. apply Forall_forall. intros x Hx. rewrite R, bool_decide_eq_true_2 by done. split; [done|]. unfold u_moved.
  destruct (Z.eqb_spec (u_local_ip (upcb udp x)) old); [by cbn|done].
Qed.
End Transport.

(** ** The configuration at the start *)
#[local] Abbreviation UP := (flag_set (2 ^ 0)).
#[local] Abbreviation LINK := (flag_set (2 ^ 2)).
#[local] Abbreviation ETHARP := (flag_set (2 ^ 3)).

Section Config.
Context {A : Type} `{!NetifEnv A}.
Variables (gnetif ipaddr netmask gw mtu : Z).
Hypothesis ipaddr_set : ipaddr <> IPADDR_ANY.
Implicit Types (s : nif_sys A).

(** [netif_add] up to the call of [init]: static addresses, no flags, no callback. *)
Definition plain (n : netif_rec) (number : Z) : netif_rec :=
  mkNif (mkIpNetif (nf_num (nf n)) ipaddr netmask gw 0 (nf_mtu (nf n))) (name n) number None.
Definition initialised (n : netif_rec) (number : Z) : netif_rec :=
  mkNif (mkIpNetif (nf_num (nf n)) ipaddr netmask gw (Z.lor NETIF_FLAG_BROADCAST NETIF_FLAG_ETHARP) mtu) (115, 116) number None.

(** [t'] is [t] with one interface more in the count and the interface [gnetif] set to [n]. *)
Definition counted_at (t t' : netifs) (n : netif_rec) : Prop :=
  netif_list t' = netif_list t /\ netif_default t' = netif_default t /\ netif_num t' = u8 (netif_num t + 1) /\
  netif_at t' gnetif = n /\ forall x, x <> gnetif -> netif_at t' x = netif_at t x.
(** TCP and UDP hear of the address while the interface has none. *)
Definition told_address (t : netifs) (e e' : A) : Prop := exists t0,
  nf_addr (nf (netif_at t0 gnetif)) = IPADDR_ANY /\ (forall x, x <> gnetif -> netif_at t0 x = netif_at t x) /\
  e' = tell_change t0 IPADDR_ANY ipaddr e.

Lemma add_run init s : exists t e,
  netif_add gnetif (Some ipaddr) (Some netmask) (Some gw) init s =
    (err <- init ;;
     if negb (err =? ERR_OK) then ret None else
     on_nifs (fun t => t <| netif_list := gnetif :: netif_list t |>) ;;; ret (Some gnetif)) (mkSys t e) /\
  counted_at (nifs s) t (plain (netif_at (nifs s) gnetif) (netif_num (nifs s))) /\
  told_address (nifs s) (stack s) e.
Proof.
  unfold netif_add. unfold bind at 1, gets. unfold bind at 1. rewrite on_nif_run. cbv beta iota. unfold bind at 1, on_nifs at 1, modify.
  unfold bind at 1. set (s2 := _ <| nifs := _ |>).
  set (n0 := _ <| num := netif_num (nifs s) |>) in s2.
  assert (E2 : netif_at (nifs s2) gnetif = n0) by (unfold s2; cbn [nifs]; apply set_nif_at).
  destruct (set_addr_spec gnetif (Some ipaddr) (Some netmask) (Some gw) s2) as ((O1 & O2 & O3 & O4) & En & t0 & (T1 & T2 & T3 & T4) & Et & Ee).
  rewrite E2 in En, Et, Ee. destruct (netif_set_addr _ _ _ _ s2) as [[] [t e]]. cbn [snd nifs stack] in *.
  exists t, e. split; [reflexivity|]. split.
  - split; [by rewrite O1|]. split; [by rewrite O2|]. split; [by rewrite O3|]. split; [by rewrite En|].
    intros x N. rewrite O4 by done. by apply set_nif_other.
  - exists t0. change (default IPADDR_ANY (Some ipaddr)) with ipaddr in Et, Ee. change (nf_addr (nf n0)) with IPADDR_ANY in Ee.
    rewrite (proj2 (Z.eqb_neq _ _) ipaddr_set) in Et, Ee. split; [by rewrite Et|]. split.
    + intros x N. rewrite T4 by done. by apply set_nif_other.
    + rewrite Ee. unfold announce. rewrite En. by rewrite andb_false_r.
Qed.

Lemma init_run link t e n0 number : netif_at t gnetif = plain n0 number ->
  exists t1 e1, ethernetif_init gnetif mtu true link (mkSys t e) = (ERR_OK, mkSys t1 e1) /\
    only_at gnetif t t1 /\
    netif_at t1 gnetif = (if link then with_flag (2 ^ 2) (with_flag (2 ^ 0) (initialised n0 number)) else initialised n0 number) /\
    e1 = if link then etharp_gratuitous t1 gnetif e else e.
Proof.
  intros En. unfold ethernetif_init. cbn [negb]. unfold bind at 1. rewrite on_nif_run. cbn [nifs stack]. rewrite En.
  change (_ <| name := (115, 116) |>) with (initialised n0 number). set (t0 := set_nif _ _ t).
  assert (E0 : netif_at t0 gnetif = initialised n0 number) by apply set_nif_at.
  destruct link.
  - unfold bind at 1. unfold bind at 1. change (netif_set_up gnetif) with (run_op SetUp gnetif). rewrite op_run. cbn [nifs stack].
    rewrite E0. change (flags_after SetUp (initialised n0 number)) with (Some (with_flag (2 ^ 0) (initialised n0 number))). cbv beta iota zeta.
    set (t1 := set_nif gnetif _ t0). assert (E1 : netif_at t1 gnetif = with_flag (2 ^ 0) (initialised n0 number)) by apply set_nif_at.
    change (netif_set_link_up gnetif) with (run_op LinkUp gnetif). rewrite op_run. cbn [nifs stack]. rewrite E1.
    change (flags_after LinkUp _) with (Some (with_flag (2 ^ 2) (with_flag (2 ^ 0) (initialised n0 number)))). cbv beta iota zeta.
    set (t2 := set_nif gnetif _ t1). assert (E2 : netif_at t2 gnetif = with_flag (2 ^ 2) (with_flag (2 ^ 0) (initialised n0 number))) by apply set_nif_at.
    eexists t2, _. split; [reflexivity|]. split; [do 2 (eapply only_at_trans; [apply only_at_set|]); apply only_at_set|]. split; [exact E2|].
    unfold told, operational, announce, callback. rewrite E1, E2. cbn. by rewrite (proj2 (Z.eqb_neq _ _) ipaddr_set).
  - eexists t0, e. split; [reflexivity|]. split; [apply only_at_set|]. by split.
Qed.

(** The operation of the last branch finds nothing to do. *)
Lemma last_run (link : bool) t e n : netif_at t gnetif = n -> UP n = link -> LINK n = link ->
  (n <- nif gnetif ;; if flag_set NETIF_FLAG_LINK_UP n then netif_set_up gnetif else netif_set_down gnetif) (mkSys t e) =
  (tt, mkSys t e).
Proof.
  intros En Eu El. unfold bind. change (nif gnetif (mkSys t e)) with (netif_at t gnetif, mkSys t e). cbv beta iota. rewrite En.
  change NETIF_FLAG_LINK_UP with (2 ^ 2). rewrite El. destruct link.
  - change (netif_set_up gnetif) with (run_op SetUp gnetif). rewrite op_run. cbn [nifs flags_after]. by rewrite En, Eu.
  - change (netif_set_down gnetif) with (run_op SetDown gnetif). rewrite op_run. cbn [nifs flags_after]. by rewrite En, Eu.
Qed.

(** [netif_add] with the driver's initialisation. *)
Lemma add_init_run mem_ok link s : let n := netif_at (nifs s) gnetif in let up := mem_ok && link in
  let set_up n := if up then with_flag (2 ^ 2) (with_flag (2 ^ 0) n) else n in
  exists r t e t1 e1,
  netif_add gnetif (Some ipaddr) (Some netmask) (Some gw) (ethernetif_init gnetif mtu mem_ok link) s = (r, mkSys t e) /\
  netif_list t = (if mem_ok then gnetif :: netif_list (nifs s) else netif_list (nifs s)) /\
  netif_num t = u8 (netif_num (nifs s) + 1) /\ (forall x, x <> gnetif -> netif_at t x = netif_at (nifs s) x) /\
  netif_at t gnetif = set_up ((if mem_ok then initialised else plain) n (netif_num (nifs s))) /\
  told_address (nifs s) (stack s) e1 /\ netif_at t1 gnetif = netif_at t gnetif /\
  e = if up then etharp_gratuitous t1 gnetif e1 else e1.
Proof.
  cbv zeta. destruct (add_run (ethernetif_init gnetif mtu mem_ok link) s) as (t & e & R & (L & D & M & Ea & Ex) & T).
  rewrite R. set (n := netif_at (nifs s) gnetif) in *. set (number := netif_num (nifs s)) in *. unfold bind at 1.
  destruct mem_ok; cbn [andb].
  - destruct (init_run link t e n number Ea) as (t1 & e1 & Ei & (O1 & O2 & O3 & O4) & E1 & Ee). rewrite Ei.
    eexists _, _, _, t1, e. split; [reflexivity|]. cbn. rewrite O1, L, O3, E1. split; [done|]. split; [done|].
    split; [intros x N; rewrite O4, Ex; done|]. by split_and!.
  - eexists None, t, e, t, e. split; [reflexivity|]. rewrite L, Ea. by split_and!.
Qed.

(** Netif_Config leaves the interface with the static addresses, as the default one and
    - when the driver's data could be allocated - on the list; it is up exactly when it
    has a link, and then its address has been announced once; TCP and UDP have heard of
    the address, and no other interface changes. *)
Theorem netif_config_exact mem_ok link s :
  let n := netif_at (nifs s) gnetif in let up := mem_ok && link in
  let s' := (Netif_Config gnetif ipaddr netmask gw mtu mem_ok link s).2 in let n' := netif_at (nifs s') gnetif in
  netif_default (nifs s') = Some gnetif /\
  netif_list (nifs s') = (if mem_ok then gnetif :: netif_list (nifs s) else netif_list (nifs s)) /\
  netif_num (nifs s') = u8 (netif_num (nifs s) + 1) /\
  (forall x, x <> gnetif -> netif_at (nifs s') x = netif_at (nifs s) x) /\
  same_but_flags ((if mem_ok then initialised else plain) n (netif_num (nifs s))) n' /\
  UP n' = up /\ LINK n' = up /\
  exists t e, told_address (nifs s) (stack s) e /\ netif_at t gnetif = n' /\
    stack s' = if up then etharp_gratuitous t gnetif e else e.
Proof.
  cbv zeta. destruct (add_init_run mem_ok link s) as (r & t & e & t1 & e1 & R & L & M & Ex & Ea & T & E1 & Ee).
  set (n := netif_at (nifs s) gnetif) in *. set (up := mem_ok && link) in *. set (n1 := (if mem_ok then _ else _) n _) in *.
  assert (F : UP (netif_at t gnetif) = up /\ LINK (netif_at t gnetif) = up /\ same_but_flags n1 (netif_at t gnetif)).
  { rewrite Ea. subst up n1. by destruct mem_ok, link. }
  destruct F as (Fu & Fl & Fs).
  assert (Es : Netif_Config gnetif ipaddr netmask gw mtu mem_ok link s = (tt, mkSys (t <| netif_default := Some gnetif |>) e)).
  { unfold Netif_Config. unfold bind at 1. rewrite R. unfold bind at 1.
    change (netif_set_default (Some gnetif) (mkSys t e)) with (tt, mkSys (t <| netif_default := Some gnetif |>) e). cbv beta iota.
    by rewrite (last_run up _ e (netif_at t gnetif)). }
  rewrite Es. cbn [snd nifs stack].
  split; [done|]. split; [exact L|]. split; [exact M|]. split; [exact Ex|]. split; [exact Fs|]. split; [exact Fu|]. split; [exact Fl|].
  exists t1, e1. by split_and!.
Qed.
End Config.

(** The driver leaves the list alone. *)
Lemma op_keeps_list {A} `{!NetifEnv A} op a (s : nif_sys A) : exists s', run_op op a s = (tt, s') /\
  netif_list (nifs s') = netif_list (nifs s) /\ netif_default (nifs s') = netif_default (nifs s).
Proof. destruct (op_exact op a s) as ((L & D & _) & _). destruct (run_op op a s) as [[] s']. by exists s'. Qed.
Lemma driver_init_ok {A} `{!NetifEnv A} gnetif mtu mem_ok link : init_ok (ethernetif_init (A := A) gnetif mtu mem_ok link).
Proof.
  intros s. destruct mem_ok; [|done]. destruct link; [|done].
  set (s1 := (on_nif gnetif (fun n => (set_nf (fun f => f <| nf_mtu := mtu |>
      <| nf_flags := Z.lor (nf_flags f) (Z.lor NETIF_FLAG_BROADCAST NETIF_FLAG_ETHARP) |>) n) <| name := (115, 116) |>) s).2).
  destruct (op_keeps_list SetUp gnetif s1) as (s2 & E2 & L2 & D2). destruct (op_keeps_list LinkUp gnetif s2) as (s3 & E3 & L3 & D3).
  assert (Es : ethernetif_init gnetif mtu true true s = (ERR_OK, s3)).
  { cbn [run_op] in E2, E3. change (ethernetif_init gnetif mtu true true s) with
      (((netif_set_up gnetif ;;; netif_set_link_up gnetif) ;;; ret ERR_OK) s1). unfold bind. by rewrite E2, E3. }
  rewrite Es. cbn [snd]. by rewrite L3, D3.
Qed.

(** *** Runs *)
#[local] Instance log_netif : NetifEnv (list (Z * Z)) := {
  tcp_addr_changed _ old new e := (0, old) :: e; udp_addr_changed _ old new e := (1, old) :: e;
  etharp_gratuitous _ a e := (2, a) :: e; etharp_cleanup _ a e := (3, a) :: e; call_link_callback _ f a e := (4, a) :: e
}.
Definition blank_netif : netif_rec := mkNif (mkIpNetif 0 0 0 0 0 0) (0, 0) 0 None.
Definition no_netifs : nif_sys (list (Z * Z)) := mkSys (mkNifs [] None 0 (fun _ => blank_netif)) [].
Definition configured : nif_sys (list (Z * Z)) :=
  (Netif_Config 5 0x0a01a8c0 0x00ffffff 0x0101a8c0 1500 true true no_netifs).2.

Lemma netif_config_exact_witness : netif_list (nifs configured) = [5] /\ UP (netif_at (nifs configured) 5) = true /\
  stack configured = [(2, 5); (1, 0); (0, 0)].
Proof.
  destruct (netif_config_exact 5 0x0a01a8c0 0x00ffffff 0x0101a8c0 1500 ltac:(done) true true no_netifs) as (_ & L & _ & _ & _ & U & _).
  split; [exact L|]. split; [exact U|]. by vm_compute.
Defined.
Lemma netif_reach_ok_witness : nif_run no_netifs configured /\ nifs_ok (nifs configured).
Proof.
  set (init := ethernetif_init (A := list (Z * Z)) 5 1500 true true).
  assert (E : configured = (netif_set_default (Some 5)
    (netif_add 5 (Some 0x0a01a8c0) (Some 0x00ffffff) (Some 0x0101a8c0) init no_netifs).2).2) by (vm_compute; reflexivity).
  assert (H : nif_run no_netifs configured).
  { rewrite E. eapply RunStep; [eapply RunStep; [apply RunRefl|apply StAdd]|apply StDefault].
    - apply not_elem_of_nil.
    - apply driver_init_ok.
    - intros x [= <-]. apply (bool_decide_eq_true_1 _). vm_compute. reflexivity. }
  split; [exact H|exact (netif_reach_ok (fun _ => blank_netif) [] _ H)].
Defined.

(** *** The address changes under connections *)
#[local] Instance log_tcb : TcbEnv (list (Z * Z)) :=
  { queues_free a e := (0, a) :: e; send_rst a e := (1, a) :: e; event_err a e := (2, a) :: e }.
Definition two_udp : udp_sys :=
  mkUdp 49152 [1; 2] (fun x => if x =? 1 then mkUpcb 7 53 0 0 false 255 0 None else mkUpcb 8 53 0 0 false 255 0 None).
Definition connected : nif_sys (transport (list (Z * Z)) (list (Z * Z))) :=
  mkSys (mkNifs [5] (Some 5) 1 (fun _ => mkNif (mkIpNetif 0 7 0x00ffffff 1 15 1500) (115, 116) 0 None)) (mkTransport busy two_udp []).
Definition readdressed : nif_sys (transport (list (Z * Z)) (list (Z * Z))) :=
  (netif_set_ipaddr (NetifEnv0 := transport_env (fun _ a e => (2, a) :: e) (fun _ a e => (3, a) :: e) (fun _ _ a e => (4, a) :: e))
     5 (Some 9) connected).2.
Lemma address_change_complete_witness :
  addrs (active_tcbs (tr_tcp (stack readdressed))) = [30] /\ tcbs_ok (tr_tcp (stack readdressed)) /\
  Forall (fun x => u_local_ip (upcb (tr_udp (stack readdressed)) x) <> 7) (udp_pcbs (tr_udp (stack readdressed))) /\
  map (fun x => u_local_ip (upcb (tr_udp (stack readdressed)) x)) [1; 2] = [9; 8].
Proof.
  destruct (address_change_complete (fun _ a e => (2, a) :: e) (fun _ a e => (3, a) :: e) (fun _ _ a e => (4, a) :: e) 5 9 connected
    ltac:(done) ltac:(done) ltac:(done) busy_ok) as (_ & A & _ & _ & O & _ & _ & _ & _ & F).
  split; [unfold readdressed; rewrite A; by vm_compute|]. split; [exact O|]. split; [eapply Forall_impl; [exact F|by intros x []]|]. by vm_compute.
Defined.

(** *** What the code does not do *)

(** A connection in TIME_WAIT keeps the old address. *)
Lemma time_wait_keeps_address : let t := mkTcb (mkEnd 60 7 80) 64 10 TIME_WAIT in
  let s := connected <| stack := (stack connected) <| tr_tcp := busy <| tw_tcbs := [t] |> |> |> in
  let s' := (netif_set_ipaddr (NetifEnv0 := transport_env (fun _ _ e => e) (fun _ _ e => e) (fun _ _ _ e => e)) 5 (Some 9) s).2 in
  tw_tcbs (tr_tcp (stack s')) = [t] /\ local_ip (t_end t) = nf_addr (nf (netif_at (nifs s) 5)).
Proof. by vm_compute. Qed.

(** When the driver's data are not allocated, the default interface is not on the list. *)
Lemma default_not_listed : let s := (Netif_Config 5 0x0a01a8c0 0x00ffffff 0x0101a8c0 1500 false true no_netifs).2 in
  netif_default (nifs s) = Some 5 /\ netif_list (nifs s) = [] /\ ~ nifs_ok (nifs s).
Proof. split; [done|]. split; [done|]. intros [_ H]. by apply (not_elem_of_nil (A := Z) 5), (H 5). Qed.
