(* ===== verification/Udp.v ===== *)
(** * UDP datagrams (lwip-2.0.3/src/core/udp.c)

    Sending and receiving over the pbufs of Pbuf.v and the blocks of UdpPcb.v.  The IP output
    function and the callbacks are classes; ICMP is that of Icmp.v.  The checksum is left to
    the hardware (lwipopts.h). *)
From stdpp Require Import gmap.
From S2P Require Import Prelude Ip4Addr Ip4Hdr Net Ip4 Pbuf PbufCopy Chksum Icmp TcpPort UdpPcb.

Definition UDP_HLEN : Z := 8.
Definition ICMP_DUR_PORT : Z := 3.

(** [ip_output_if_src]: pbuf, source, destination, TTL, TOS, protocol, interface. *)
Class UdpLower (A : Type) := { ip_output_if_src : Z -> Z -> Z -> Z -> Z -> Z -> ip_netif -> P A Z }.
(** [pcb->recv]: handler, block, pbuf, source address and port; it may change blocks. *)
Class UdpApp (A : Type) := { udp_recv_fn : Z -> Z -> Z -> Z -> Z -> udp_sys -> P A udp_sys }.

(** ** Which block *)
Section Match.
Context (u : udp_sys) (c : ip_ctx) (inp : ip_netif) (broadcast : bool) (src dest : Z).

Definition udp_input_local_match (a : Z) : bool :=
  let ip := u_local_ip (upcb u a) in
  if broadcast then (ip =? IPADDR_ANY) || (cur_dest c =? IPADDR_BROADCAST) || ip4_addr_netcmp ip (cur_dest c) (nf_mask inp)
  else (ip =? IPADDR_ANY) || (ip =? cur_dest c).
Definition local_match (a : Z) : bool := (u_local_port (upcb u a) =? dest) && udp_input_local_match a.
Definition remote_match (a : Z) : bool :=
  (u_remote_port (upcb u a) =? src) && ((u_remote_ip (upcb u a) =? IPADDR_ANY) || (u_remote_ip (upcb u a) =? cur_src c)).

(** The loop: [prev] are the blocks before, the last one first; the block that matches fully,
    the first unconnected one that matches locally, and the list. *)
Fixpoint udp_scan (prev l : list Z) (uncon_pcb : option Z) : option Z * option Z * list Z :=
  match l with
  | [] => (None, uncon_pcb, rev prev)
  | a :: l =>
      if local_match a then
        let uncon_pcb := if negb (u_connected (upcb u a)) && bool_decide (uncon_pcb = None) then Some a else uncon_pcb in
        if remote_match a then (Some a, uncon_pcb, a :: rev prev ++ l)
        else udp_scan (a :: prev) l uncon_pcb
      else udp_scan (a :: prev) l uncon_pcb
  end.
End Match.

Definition udp_demux (c : ip_ctx) (inp : ip_netif) (broadcast : bool) (src dest : Z) (u : udp_sys) : option Z * udp_sys :=
  let '(pcb, uncon_pcb, l) := udp_scan u c inp broadcast src dest [] (udp_pcbs u) None in
  (match pcb with Some a => Some a | None => uncon_pcb end, u <| udp_pcbs := l |>).

Section Code.
Context {A : Type} `{!PbufAlloc A, !IcmpLower A, !UdpLower A, !UdpApp A}.
Variables (nets : list ip_netif) (def : option ip_netif).

(** ** Input *)
Definition udp_unreachable (c : ip_ctx) (broadcast : bool) (p : Z) : P A unit :=
  if negb broadcast && negb (ip4_addr_ismulticast (cur_dest c)) then
    pbuf_header_force p (cur_hdr_len c + UDP_HLEN);;
    icmp_dest_unreach nets def p ICMP_DUR_PORT
  else mret tt.

Definition udp_input (c : ip_ctx) (p : Z) (inp : ip_netif) (u : udp_sys) : P A udp_sys :=
  b ← getp p;
  if len b <? UDP_HLEN then pbuf_free (Some p);; mret u else
  let broadcast := ip4_addr_isbroadcast (cur_dest c) (cur_netif c) in
  src ← reading (fun _ m => Some (lwip_htons (u16_at m (payload b))));
  dest ← reading (fun _ m => Some (lwip_htons (u16_at m (payload b + 2))));
  let '(pcb, u) := udp_demux c inp broadcast src dest u in
  let for_us := match pcb with Some _ => true | None => nf_addr inp =? cur_dest c end in
  if for_us then
    e ← pbuf_header p (- UDP_HLEN);
    if negb (e =? 0) then pbuf_free (Some p);; mret u else
    match pcb with
    | Some a =>
        match u_recv (upcb u a) with
        | Some h => udp_recv_fn h a p (cur_src c) src u
        | None => pbuf_free (Some p);; mret u
        end
    | None => udp_unreachable c broadcast p;; pbuf_free (Some p);; mret u
    end
  else pbuf_free (Some p);; mret u.

(** ** Output *)

(** The pbuf that begins with room for the header: [p], or a new one in front of it. *)
Definition udp_header_pbuf (p : Z) : P A (option Z) :=
  e ← pbuf_header p UDP_HLEN;
  if negb (e =? 0) then
    q ← pbuf_alloc PBUF_IP UDP_HLEN PBUF_RAM;
    match q with
    | None => mret None
    | Some q =>
        b ← getp p;
        (if negb (tot_len b =? 0) then pbuf_chain (Some q) (Some p) else mret tt);;
        mret (Some q)
    end
  else mret (Some p).

Definition udp_fill_header (q local_port dst_port : Z) : P A unit :=
  b ← getp q;
  poke (payload b) (put16 local_port);;
  poke (payload b + 2) (put16 dst_port);;
  poke (payload b + 6) [0; 0];;
  poke (payload b + 4) (put16 (tot_len b)).

(** The block is bound to a port when it has none. *)
Definition udp_ensure_bound (a : Z) (u : udp_sys) : Z * udp_sys :=
  let b := upcb u a in
  if u_local_port b =? 0 then udp_bind a (Some (u_local_ip b)) (u_local_port b) u else (ERR_OK, u).

Definition udp_sendto_if_src (a p dst_ip dst_port : Z) (netif : ip_netif) (src_ip : Z) (u : udp_sys) : P A (Z * udp_sys) :=
  let '(err, u) := udp_ensure_bound a u in
  if negb (err =? ERR_OK) then mret (err, u) else
  q ← udp_header_pbuf p;
  match q with
  | None => mret (ERR_MEM, u)
  | Some q =>
      udp_fill_header q (u_local_port (upcb u a)) dst_port;;
      err ← ip_output_if_src q src_ip dst_ip (u_ttl (upcb u a)) (u_tos (upcb u a)) IP_PROTO_UDP netif;
      (if negb (q =? p) then pbuf_free (Some q);; mret tt else mret tt);;
      mret (err, u)
  end.

Definition udp_sendto_if (a p dst_ip dst_port : Z) (netif : ip_netif) (u : udp_sys) : P A (Z * udp_sys) :=
  let ip := u_local_ip (upcb u a) in
  if (ip =? IPADDR_ANY) || ip4_addr_ismulticast ip then udp_sendto_if_src a p dst_ip dst_port netif (nf_addr netif) u
  else if negb (ip =? nf_addr netif) then mret (ERR_RTE, u)
  else udp_sendto_if_src a p dst_ip dst_port netif ip u.

Definition udp_sendto (a p dst_ip dst_port : Z) (u : udp_sys) : P A (Z * udp_sys) :=
  match ip4_route dst_ip nets def with
  | None => mret (ERR_RTE, u)
  | Some netif => udp_sendto_if a p dst_ip dst_port netif u
  end.
Definition udp_send (a p : Z) (u : udp_sys) : P A (Z * udp_sys) :=
  udp_sendto a p (u_remote_ip (upcb u a)) (u_remote_port (upcb u a)) u.
End Code.

(** ** The search *)
Section Scan.
Context (u : udp_sys) (c : ip_ctx) (inp : ip_netif) (broadcast : bool) (src dest : Z).

(** A block that takes the datagram because of its source, and one that takes any. *)
Definition full_match (a : Z) : bool := local_match u c inp broadcast dest a && remote_match u c src a.
Definition open_match (a : Z) : bool := local_match u c inp broadcast dest a && negb (u_connected (upcb u a)).

Lemma udp_scan_spec prev l un : let '(pcb, un', l') := udp_scan u c inp broadcast src dest prev l un in
  pcb = List.find full_match l /\
  (pcb = None -> un' = match un with Some x => Some x | None => List.find open_match l end) /\
  Permutation (rev prev ++ l) l'.
Proof.
  revert prev un. induction l as [|a l IH]; intros prev un; cbn [udp_scan List.find].
  - split; [done|]. split; [by destruct un|]. by rewrite app_nil_r.
  - unfold full_match at 1, open_match at 1. assert (P : Permutation (rev prev ++ a :: l) (rev (a :: prev) ++ l)).
    { cbn [rev]. by rewrite <- app_assoc. }
    destruct (local_match _ _ _ _ _ a); cbn [andb].
    + destruct (remote_match _ _ _ a); cbn [andb].
      * split; [done|]. split; [done|]. symmetry. apply Permutation_middle.
      * specialize (IH (a :: prev) (if negb (u_connected (upcb u a)) && bool_decide (un = None) then Some a else un)).
        destruct (udp_scan _ _ _ _ _ _ _ _ _) as [[pcb un'] l']. destruct IH as (I1 & I2 & I3). split; [done|].
        split; [|by rewrite P]. intros E. rewrite (I2 E). destruct (u_connected (upcb u a)), un; done.
    + specialize (IH (a :: prev) un). destruct (udp_scan _ _ _ _ _ _ _ _ _) as [[pcb un'] l']. destruct IH as (I1 & I2 & I3).
      split; [done|]. split; [done|]. by rewrite P.
Qed.
End Scan.

Lemma udp_demux_spec c inp broadcast src dest u : let r := udp_demux c inp broadcast src dest u in
  r.1 = match List.find (full_match u c inp broadcast src dest) (udp_pcbs u) with
        | Some a => Some a
        | None => List.find (open_match u c inp broadcast dest) (udp_pcbs u)
        end /\
  upcb r.2 = upcb u /\ udp_port r.2 = udp_port u /\ Permutation (udp_pcbs u) (udp_pcbs r.2).
Proof.
  unfold udp_demux. pose proof (udp_scan_spec u c inp broadcast src dest [] (udp_pcbs u) None) as H.
  destruct (udp_scan _ _ _ _ _ _ _ _ _) as [[pcb un] l]. destruct H as (H1 & H2 & H3). cbn. split; [|done].
  rewrite <- H1. destruct pcb; [done|]. by apply H2.
Qed.

(** ** Receiving *)
Section Receive.
Context {A : Type} `{!PbufAlloc A, !IcmpLower A, !UdpApp A}.
Implicit Types (s : pstate A) (b : pbuf_t) (l : list (Z * pbuf_t)).

Lemma body_at m a b l i : 0 <= Z.of_nat i < len b -> byte_at (contents m ((a, b) :: l)) i = m (payload b + Z.of_nat i).
Proof.
  intros H. unfold byte_at. rewrite contents_cons, lookup_total_app_l by (unfold body; rewrite mem_read_length; lia).
  unfold body. by rewrite mem_read_lookup_total by lia.
Qed.
Lemma port_at m a b l i : 0 <= Z.of_nat i -> Z.of_nat i + 2 <= len b ->
  lwip_htons (u16_at m (payload b + Z.of_nat i)) = get16 (contents m ((a, b) :: l)) i.
Proof.
  intros H1 H2. unfold get16, u16_at. rewrite !body_at by lia. do 2 f_equal. rewrite Nat2Z.inj_succ. do 2 f_equal. lia.
Qed.

(** The state with the header hidden, and with the IP header in view again. *)
Definition past_header (p : Z) b s : pstate A := with_pbuf p (moved UDP_HLEN b) (palloc s) s.

Lemma past_packet s p b l : packet (pbs s) (Some p) ((p, b) :: l) -> UDP_HLEN <= len b ->
  packet (pbs (past_header p b s)) (Some p) ((p, moved UDP_HLEN b) :: l) /\
  contents (pdata s) ((p, moved UDP_HLEN b) :: l) = drop 8 (contents (pdata s) ((p, b) :: l)).
Proof.
  unfold UDP_HLEN. intros Hp Hl. pose proof (chain_NoDup _ _ _ (proj1 Hp)) as Hd. cbn [map fst] in Hd. apply NoDup_cons in Hd as [Hn _].
  pose proof (packet_cons _ _ _ _ _ Hp) as (_ & Eb & (Hc & Hok & Hs) & Hb & Et & Ht & H0).
  split; [|apply (contents_drop_header (pdata s) p b 8 l); lia].
  split; [|split].
  - cbn [chain pbs past_header with_pbuf]. split; [done|]. split; [apply lookup_insert_eq|]. eapply chain_agree; [exact Hc|].
    intros x y Hin. rewrite lookup_insert_ne; [by eapply chain_lookup|]. intros ->. apply Hn. by eapply mem_fst.
  - cbn [lens_ok moved len tot_len set_lens set_payload]. split; [lia|]. split; [lia|done].
  - cbn [sum_len moved len set_lens set_payload]. lia.
Qed.

(** The ports of a datagram, and what is done with it. *)
Lemma udp_input_run nets def s c p b l inp u : packet (pbs s) (Some p) ((p, b) :: l) -> ptype b = PBUF_REF -> UDP_HLEN <= len b ->
  let C := contents (pdata s) ((p, b) :: l) in let bc := ip4_addr_isbroadcast (cur_dest c) (cur_netif c) in
  let '(pcb, u') := udp_demux c inp bc (get16 C 0) (get16 C 2) u in
  udp_input nets def c p inp u s =
  match pcb with
  | Some a =>
      match u_recv (upcb u' a) with
      | Some h => udp_recv_fn h a p (cur_src c) (get16 C 0) u' (past_header p b s)
      | None => (pbuf_free (Some p);; mret u') (past_header p b s)
      end
  | None =>
      if nf_addr inp =? cur_dest c
      then (udp_unreachable nets def c bc p;; pbuf_free (Some p);; mret u') (past_header p b s)
      else (pbuf_free (Some p);; mret u') s
  end.
Proof.
  intros Hp Ht Hl C bc. unfold UDP_HLEN in Hl. pose proof (packet_cons _ _ _ _ _ Hp) as (_ & Eb & _ & Hb & Et & Htt & H0).
  destruct (udp_demux _ _ _ _ _ _) as [pcb u'] eqn:Ed. unfold udp_input. rewrite (bind_run _ _ _ _ _ (getp_run s p b Eb)).
  rewrite (proj2 (Z.ltb_ge (len b) UDP_HLEN)) by (unfold UDP_HLEN; lia).
  erewrite bind_run by reflexivity. erewrite bind_run by reflexivity.
  pose proof (port_at (pdata s) p b l 0 ltac:(lia) ltac:(lia)) as P0. rewrite Z.add_0_r in P0.
  pose proof (port_at (pdata s) p b l 2 ltac:(lia) ltac:(lia)) as P2. change (Z.of_nat 2) with 2 in P2.
  rewrite P0, P2. fold C bc. rewrite Ed.
  assert (E : pbuf_header p (- UDP_HLEN) s = Some (0, past_header p b s)).
  { apply header_hide; [done|unfold UDP_HLEN; lia|lia|]. unfold in_ram. rewrite Ht. by intros []. }
  destruct pcb as [a|]; [rewrite (bind_run _ _ _ _ _ E); cbn [Z.eqb negb]; by destruct (u_recv _)|].
  destruct (nf_addr inp =? cur_dest c); [|done]. rewrite (bind_run _ _ _ _ _ E). by cbn [Z.eqb negb].
Qed.

Lemma header_force s p b k : pbs s !! p = Some b -> ptype b = PBUF_REF -> 0 < k -> 0 <= len b <= tot_len b -> tot_len b + k < 65536 ->
  pbuf_header_force p k s = Some (0, with_pbuf p (moved (- k) b) (palloc s) s).
Proof.
  intros Eb Ht Hk Hl Hs. unfold pbuf_header_force, pbuf_header_impl. rewrite (proj2 (Z.eqb_neq k 0)) by lia.
  unfold mbind, P_bind, getp. rewrite Eb. cbn [mbind option_bind].
  rewrite (proj2 (Z.ltb_ge k 0)), (proj2 (Z.ltb_lt 0 k)), Ht by lia. cbn [andb orb].
  unfold setp, moved, with_pbuf. rewrite !u16_small by lia. by rewrite !Z.sub_opp_r, Z.add_opp_r.
Qed.
Lemma moved_moved j k b : moved j (moved k b) = moved (k + j) b.
Proof. destruct b as [n a t x y f r]. unfold moved, set_lens, set_payload. cbn [next payload tot_len len ptype flags pref]. f_equal; ring. Qed.
Lemma unreachable_run nets def s c p b l bc : packet (pbs s) (Some p) ((p, b) :: l) -> ptype b = PBUF_REF -> UDP_HLEN <= len b ->
  0 <= cur_hdr_len c -> tot_len b + cur_hdr_len c < 65536 ->
  udp_unreachable nets def c bc p (past_header p b s) =
  if negb bc && negb (ip4_addr_ismulticast (cur_dest c))
  then icmp_dest_unreach nets def p ICMP_DUR_PORT (with_pbuf p (moved (- cur_hdr_len c) b) (palloc s) s)
  else Some (tt, past_header p b s).
Proof.
  unfold UDP_HLEN. intros Hp Ht Hl Hh Hs. pose proof (packet_cons _ _ _ _ _ Hp) as (_ & Eb & _ & Hb & Et & Htt & H0).
  unfold udp_unreachable. destruct (negb bc && _); [|done].
  pose proof (header_force (past_header p b s) p (moved UDP_HLEN b) (cur_hdr_len c + UDP_HLEN) (lookup_insert_eq _ _ _) Ht) as E.
  rewrite (bind_run _ _ _ _ _ (E ltac:(unfold UDP_HLEN; lia) ltac:(cbn; unfold UDP_HLEN; lia) ltac:(cbn; unfold UDP_HLEN; lia))).
  rewrite moved_moved. replace (UDP_HLEN + - (cur_hdr_len c + UDP_HLEN)) with (- cur_hdr_len c) by lia.
  f_equal. unfold past_header, with_pbuf. cbn [pbs pdata palloc]. by rewrite insert_insert_eq.
Qed.
End Receive.

(** A datagram in a receive buffer goes to the first block that takes its destination
    and its source, else to the first unconnected one that takes its destination, and
    its callback gets exactly the data behind the UDP header; without a callback the
    datagram is freed. When no block takes it but the address is the interface's own,
    ICMP reports the port unreachable with the IP header in view again, and the datagram
    is freed. The blocks stay as they are, only their order may change. *)
Theorem udp_input_exact {A} `{!PbufAlloc A, !IcmpLower A, !UdpApp A} nets def (s : pstate A) c p b l inp u :
  let C := contents (pdata s) ((p, b) :: l) in let bc := ip4_addr_isbroadcast (cur_dest c) (cur_netif c) in
  let u' := (udp_demux c inp bc (get16 C 0) (get16 C 2) u).2 in let s1 := past_header p b s in
  packet (pbs s) (Some p) ((p, b) :: l) -> ptype b = PBUF_REF -> UDP_HLEN <= len b ->
  0 <= cur_hdr_len c -> tot_len b + cur_hdr_len c < 65536 ->
  Permutation (udp_pcbs u) (udp_pcbs u') /\ upcb u' = upcb u /\
  packet (pbs s1) (Some p) ((p, moved UDP_HLEN b) :: l) /\ contents (pdata s1) ((p, moved UDP_HLEN b) :: l) = drop 8 C /\
  udp_input nets def c p inp u s =
  match match List.find (full_match u c inp bc (get16 C 0) (get16 C 2)) (udp_pcbs u) with
        | Some a => Some a
        | None => List.find (open_match u c inp bc (get16 C 2)) (udp_pcbs u)
        end with
  | Some a =>
      match u_recv (upcb u a) with
      | Some h => udp_recv_fn h a p (cur_src c) (get16 C 0) u' s1
      | None => (pbuf_free (Some p);; mret u') s1
      end
  | None =>
      if nf_addr inp =? cur_dest c then
        if negb bc && negb (ip4_addr_ismulticast (cur_dest c))
        then (icmp_dest_unreach nets def p ICMP_DUR_PORT;; pbuf_free (Some p);; mret u')
               (with_pbuf p (moved (- cur_hdr_len c) b) (palloc s) s)
        else (pbuf_free (Some p);; mret u') s1
      else (pbuf_free (Some p);; mret u') s
  end.
Proof.
  intros C bc u' s1 Hp Ht Hl Hh Hs. pose proof (udp_demux_spec c inp bc (get16 C 0) (get16 C 2) u) as (E1 & E2 & E3 & E4).
  pose proof (past_packet s p b l Hp Hl) as [P1 P2]. split; [done|]. split; [done|]. split; [exact P1|]. split; [exact P2|].
  rewrite <- E1. unfold u' in *. pose proof (udp_input_run nets def s c p b l inp u Hp Ht Hl) as R.
  destruct (udp_demux c inp _ (get16 C 0) (get16 C 2) u) as [pcb u1] eqn:Ed. cbn [fst snd] in *. cbv zeta in R. fold C bc in R. rewrite Ed in R. rewrite R.
  destruct pcb as [a|]; [by rewrite E2|]. destruct (nf_addr inp =? cur_dest c); [|done].
  pose proof (unreachable_run nets def s c p b l bc Hp Ht Hl Hh Hs) as U.
  destruct (negb bc && _); [exact (bind_cong _ _ _ _ _ U)|]. by rewrite (bind_run _ _ _ _ _ U).
Qed.

(** ** Sending *)
Definition udp_header (local_port dst_port n : Z) : list Z := put16 local_port ++ put16 dst_port ++ put16 n ++ [0; 0].

Section Send.
Context {A : Type} `{!PbufAlloc A, !UdpLower A}.
Implicit Types (s : pstate A) (b : pbuf_t) (l : list (Z * pbuf_t)).

Definition header_mem (m : mem) (a local_port dst_port n : Z) : mem :=
  let m := mem_write m a (put16 local_port) in
  let m := mem_write m (a + 2) (put16 dst_port) in
  let m := mem_write m (a + 6) [0; 0] in
  mem_write m (a + 4) (put16 n).
Lemma header_mem_read m a sp dp n : mem_read (header_mem m a sp dp n) a 8 = udp_header sp dp n /\
  unchanged_off a 8 m (header_mem m a sp dp n).
Proof.
  unfold header_mem. split.
  - replace (mem_write m a (put16 sp)) with (mem_write m (a + 0) (put16 sp)) by (f_equal; lia).
    rewrite !read_patch by done. reflexivity.
  - intros x Hx. rewrite !mem_write_out by (cbn; lia). done.
Qed.

(** The header is written in front of the data. *)
Lemma fill_header_run s q b l sp dp : packet (pbs s) (Some q) ((q, b) :: l) -> UDP_HLEN <= len b -> clear_of (payload b) UDP_HLEN l ->
  exists s', udp_fill_header q sp dp s = Some (tt, s') /\ pbs s' = pbs s /\ palloc s' = palloc s /\
    contents (pdata s') ((q, b) :: l) = udp_header sp dp (tot_len b) ++ drop 8 (contents (pdata s) ((q, b) :: l)) /\
    unchanged_off (payload b) 8 (pdata s) (pdata s').
Proof.
  unfold UDP_HLEN. intros Hp Hl Hc. pose proof (packet_cons _ _ _ _ _ Hp) as (_ & Eb & (_ & Hok & _) & Hb & _).
  destruct (header_mem_read (pdata s) (payload b) sp dp (tot_len b)) as [R U].
  exists (with_mem (header_mem (pdata s) (payload b) sp dp (tot_len b)) s).
  split; [unfold udp_fill_header; by rewrite (bind_run _ _ _ _ _ (getp_run s q b Eb))|]. do 2 (split; [done|]). split; [|done].
  cbn [pdata with_mem]. rewrite !contents_cons. unfold body.
  replace (Z.to_nat (len b)) with (8 + (Z.to_nat (len b) - 8))%nat by lia. rewrite !mem_read_app, R.
  rewrite (mem_read_ext (pdata s) _ (payload b + Z.of_nat 8)) by (intros x Hx; apply U; lia).
  rewrite (contents_ext (pdata s)); [|done|].
  - rewrite <- !app_assoc. by f_equal.
  - eapply Forall_impl; [exact Hc|]. intros y Hy x Hx. apply U. by apply Hy.
Qed.

(** Room in the first pbuf, and none. *)
Definition has_room (p : Z) b : Prop := in_ram b /\ p + SIZEOF_STRUCT_PBUF <= payload b - UDP_HLEN.
#[export] Instance has_room_dec p b : Decision (has_room p b) := _.
Lemma header_full s p b k : pbs s !! p = Some b -> ~ (in_ram b /\ p + SIZEOF_STRUCT_PBUF <= payload b - k) -> 0 < k -> pbuf_header p k s = Some (1, s).
Proof.
  intros Eb Hn Hk. unfold pbuf_header, pbuf_header_impl. rewrite (proj2 (Z.eqb_neq k 0)) by lia.
  unfold mbind, P_bind, getp. rewrite Eb. cbn [mbind option_bind]. rewrite (proj2 (Z.ltb_ge k 0)) by lia. cbn [andb orb].
  rewrite andb_false_r. unfold in_ram in Hn.
  destruct (ptype b); try done; (destruct (Z.ltb_spec (payload b - k) (p + SIZEOF_STRUCT_PBUF)); [done|]); destruct Hn; (split; [auto|lia]).
Qed.

(** The packet that begins with the header pbuf [q]. *)
Definition ready s q lq D : Prop := exists bq l,
  lq = (q, bq) :: l /\ packet (pbs s) (Some q) lq /\ UDP_HLEN <= len bq /\ clear_of (payload bq) UDP_HLEN l /\
  drop 8 (contents (pdata s) lq) = D /\ tot_len bq = UDP_HLEN + slen D.

Lemma header_pbuf_room s p b l : packet (pbs s) (Some p) ((p, b) :: l) -> sum_len ((p, b) :: l) + UDP_HLEN < 65536 -> has_room p b ->
  clear_of (payload b - UDP_HLEN) UDP_HLEN l -> exists s' lq, udp_header_pbuf p s = Some (Some p, s') /\
  ready s' p lq (contents (pdata s) ((p, b) :: l)).
Proof.
  unfold UDP_HLEN. intros Hp Hs [Hr Hroom] Hc. unfold UDP_HLEN in Hroom. pose proof (chain_NoDup _ _ _ (proj1 Hp)) as Hd. cbn [map fst] in Hd. apply NoDup_cons in Hd as [Hn _].
  pose proof Hp as (_ & Hok & _). pose proof (packet_cons _ _ _ _ _ Hp) as (_ & Eb & (Hch & Hokl & _) & Hb & Et & Ht & H0). cbn [sum_len] in Hs.
  assert (E : pbuf_header p UDP_HLEN s = Some (0, with_pbuf p (moved (- UDP_HLEN) b) (palloc s) s))
    by (apply header_show; unfold UDP_HLEN; done || lia).
  set (s' := with_pbuf p (moved (- UDP_HLEN) b) (palloc s) s) in *. exists s', ((p, moved (- UDP_HLEN) b) :: l).
  unfold udp_header_pbuf. rewrite (bind_run _ _ _ _ _ E). split; [done|]. exists (moved (- UDP_HLEN) b), l.
  assert (L : slen (contents (pdata s) ((p, b) :: l)) = len b + sum_len l) by by apply contents_length.
  split; [done|]. split; [|split; [cbn; unfold UDP_HLEN; lia|split; [|split]]].
  - split; [|split].
    + cbn [chain pbs s' with_pbuf]. split; [done|]. split; [apply lookup_insert_eq|]. eapply chain_agree; [exact Hch|].
      intros x y Hin. rewrite lookup_insert_ne; [by eapply chain_lookup|]. intros ->. apply Hn. by eapply mem_fst.
    + cbn [lens_ok moved len tot_len set_lens set_payload]. unfold UDP_HLEN. split; [lia|]. split; [lia|done].
    + cbn [sum_len moved len set_lens set_payload]. unfold UDP_HLEN. lia.
  - cbn [moved payload set_lens set_payload]. unfold UDP_HLEN in *. by replace (payload b + -8) with (payload b - 8) by lia.
  - cbn [pdata s' with_pbuf]. change 8%nat with (Z.to_nat 8). rewrite <- (contents_drop_header (pdata s) p (moved (- UDP_HLEN) b) 8 l) by (cbn; unfold UDP_HLEN; lia).
    fold (moved 8 (moved (- UDP_HLEN) b)). rewrite moved_moved. unfold UDP_HLEN. cbn [Z.opp Z.add Z.pos_sub]. f_equal. f_equal. f_equal.
    destruct b as [n a t x y f r]. unfold moved, set_lens, set_payload. cbn [next payload tot_len len ptype flags pref]. by rewrite !Z.sub_0_r, Z.add_0_r.
  - rewrite L. cbn [moved tot_len set_lens set_payload]. unfold UDP_HLEN. lia.
Qed.

Definition linked (p n : Z) b : pbuf_t := set_next (Some p) (set_lens (u16 (tot_len b + n)) (len b) b).
Definition shared b : pbuf_t := set_ref (u16 (pref b + 1)) b.
Lemma chain_one s q bq p b : pbs s !! q = Some bq -> next bq = None -> pbs s !! p = Some b -> q <> p ->
  pbuf_chain (Some q) (Some p) s = Some (tt, mkPs (<[p := shared b]> (<[q := linked p (tot_len b) bq]> (pbs s))) (pdata s) (palloc s)).
Proof.
  intros Eq En Ep Hn. unfold pbuf_chain.
  assert (E : pbuf_cat (Some q) (Some p) s = Some (tt, mkPs (<[q := linked p (tot_len b) bq]> (pbs s)) (pdata s) (palloc s))).
  { unfold pbuf_cat. rewrite (bind_run _ _ _ _ _ (getp_run s p b Ep)). erewrite bind_run by reflexivity.
    unfold chain_fuel. cbn [cat_loop]. rewrite (bind_run _ _ _ _ _ (getp_run s q bq Eq)). by rewrite En. }
  rewrite (bind_run _ _ _ _ _ E). unfold pbuf_ref.
  by erewrite bind_run by (apply getp_run; cbn [pbs]; rewrite lookup_insert_ne; done).
Qed.

Lemma header_pbuf_new s p b l q a : packet (pbs s) (Some p) ((p, b) :: l) -> sum_len ((p, b) :: l) + UDP_HLEN < 65536 -> ~ has_room p b ->
  mem_malloc (ram_size PBUF_IP UDP_HLEN) (palloc s) = (Some q, a) -> pbs s !! q = None ->
  clear_of (payload (ram_pbuf PBUF_IP UDP_HLEN q)) UDP_HLEN ((p, b) :: l) ->
  exists s' lq, udp_header_pbuf p s = Some (Some q, s') /\ ready s' q lq (contents (pdata s) ((p, b) :: l)).
Proof.
  unfold UDP_HLEN at 1. intros Hp Hs Hr Em Eq Hc. pose proof Hp as (Hch0 & Hok & _).
  pose proof (packet_cons _ _ _ _ _ Hp) as (_ & Eb & (Hch & Hokl & Hsl) & Hb & Et & Ht & H0). cbn [sum_len] in Hs.
  pose proof (chain_NoDup _ _ _ Hch0) as Hd. cbn [map fst] in Hd. apply NoDup_cons in Hd as [Hn _].
  assert (L : slen (contents (pdata s) ((p, b) :: l)) = len b + sum_len l) by by apply contents_length.
  pose proof (fresh_notin _ _ _ _ Hch0 Eq) as Hq. cbn [map fst] in Hq. apply not_elem_of_cons in Hq as [Nq Hq].
  unfold udp_header_pbuf. rewrite (bind_run _ _ _ _ _ (header_full s p b UDP_HLEN Eb Hr ltac:(done))). cbn [Z.eqb negb].
  erewrite bind_run by (rewrite alloc_ram_spec by done; by rewrite Em). cbv beta iota zeta.
  set (bq := ram_pbuf PBUF_IP UDP_HLEN q) in *. set (s1 := with_pbuf q bq a s).
  assert (E1 : pbs s1 !! p = Some b) by (cbn; by rewrite lookup_insert_ne).
  rewrite (bind_run _ _ _ _ _ (getp_run s1 p b E1)). destruct (Z.eqb_spec (tot_len b) 0) as [E0|N0]; cbn [negb].
  - exists s1, [(q, bq)]. split; [done|]. exists bq, []. split; [done|]. split; [by apply ram_packet|]. split; [done|].
    split; [apply Forall_nil_2|]. assert (EC : contents (pdata s) ((p, b) :: l) = []) by (apply length_zero_iff_nil; unfold slen in L; lia).
    rewrite EC. done.
  - rewrite (bind_run _ _ _ _ _ (chain_one s1 q bq p b (lookup_insert_eq _ _ _) eq_refl E1 Nq)).
    eexists _, ((q, linked p (tot_len b) bq) :: (p, shared b) :: l). split; [reflexivity|]. exists (linked p (tot_len b) bq), ((p, shared b) :: l).
    assert (T : u16 (tot_len bq + tot_len b) = UDP_HLEN + tot_len b) by (change (tot_len bq) with 8; unfold UDP_HLEN; apply u16_small; lia).
    split; [done|]. split; [|split; [done|split; [|split]]].
    + split; [|split].
      * cbn [chain pbs]. split; [done|]. split; [by rewrite lookup_insert_ne, lookup_insert_eq|]. cbn [next linked set_next].
        split; [done|]. split; [apply lookup_insert_eq|]. eapply chain_agree; [exact Hch|]. intros x y Hin. cbn [s1 with_pbuf pbs].
        pose proof (mem_fst _ _ _ Hin) as Hx. rewrite !lookup_insert_ne; [by eapply chain_lookup|..]; intros ->; done.
      * cbn [lens_ok linked set_next set_lens tot_len len shared set_ref sum_len]. rewrite T. change (len bq) with 8. unfold UDP_HLEN.
        split; [lia|]. split; [lia|]. split; [lia|]. by split.
      * cbn [sum_len linked set_next set_lens len shared set_ref]. change (len bq) with 8. lia.
    + apply Forall_cons in Hc as [Hc1 Hc2]. apply Forall_cons. split; [exact Hc1|exact Hc2].
    + cbn [pdata]. rewrite contents_cons. change (body (pdata s) (linked p (tot_len b) bq)) with (mem_read (pdata s) (payload bq) 8).
      by rewrite (drop_app_length' (mem_read (pdata s) (payload bq) 8)) by (by rewrite mem_read_length).
    + cbn [linked set_next set_lens tot_len]. rewrite T, L. lia.
Qed.

(** What sending asks of memory: room in the pbuf, or a fresh block. *)
Definition can_send s p b l : Prop :=
  sum_len ((p, b) :: l) + UDP_HLEN < 65536 /\
  (has_room p b -> clear_of (payload b - UDP_HLEN) UDP_HLEN l) /\
  (forall q a, mem_malloc (ram_size PBUF_IP UDP_HLEN) (palloc s) = (Some q, a) ->
     pbs s !! q = None /\ clear_of (payload (ram_pbuf PBUF_IP UDP_HLEN q)) UDP_HLEN ((p, b) :: l)).
(** There is no room and no memory. *)
Definition no_memory s p b : Prop := ~ has_room p b /\ (mem_malloc (ram_size PBUF_IP UDP_HLEN) (palloc s)).1 = None.
#[export] Instance no_memory_dec s p b : Decision (no_memory s p b) := _.

Lemma header_pbuf_ready s p b l : packet (pbs s) (Some p) ((p, b) :: l) -> can_send s p b l ->
  if decide (no_memory s p b)
  then udp_header_pbuf p s = Some (None, mkPs (pbs s) (pdata s) (mem_malloc (ram_size PBUF_IP UDP_HLEN) (palloc s)).2)
  else exists q s' lq, udp_header_pbuf p s = Some (Some q, s') /\ ready s' q lq (contents (pdata s) ((p, b) :: l)).
Proof.
  intros Hp (H1 & H2 & H3). pose proof (packet_cons _ _ _ _ _ Hp) as (_ & Eb & _). case_decide as Hd.
  - destruct Hd as [Hr Hm]. unfold udp_header_pbuf. rewrite (bind_run _ _ _ _ _ (header_full s p b UDP_HLEN Eb Hr ltac:(done))).
    cbn [Z.eqb negb]. destruct (mem_malloc _ _) as [o a] eqn:Em. cbn in Hm. subst o.
    erewrite bind_run by (rewrite alloc_ram_spec by done; by rewrite Em). done.
  - destruct (decide (has_room p b)) as [Hr|Hr].
    + destruct (header_pbuf_room s p b l Hp H1 Hr (H2 Hr)) as (s' & lq & E & R). by exists p, s', lq.
    + destruct (mem_malloc (ram_size PBUF_IP UDP_HLEN) (palloc s)) as [[q|] a] eqn:Em.
      * destruct (H3 q a eq_refl) as [Hq Hc]. destruct (header_pbuf_new s p b l q a) as (s' & lq & E & R); [done..|]. by exists q, s', lq.
      * destruct Hd. split; [done|by rewrite Em].
Qed.

Definition after_output (q p : Z) : P A unit := if negb (q =? p) then pbuf_free (Some q);; mret tt else mret tt.
Lemma udp_send_run s a p b l dst_ip dst_port netif src_ip u u1 : packet (pbs s) (Some p) ((p, b) :: l) -> can_send s p b l ->
  udp_ensure_bound a u = (ERR_OK, u1) -> let D := contents (pdata s) ((p, b) :: l) in
  if decide (no_memory s p b)
  then udp_sendto_if_src a p dst_ip dst_port netif src_ip u s =
       Some ((ERR_MEM, u1), mkPs (pbs s) (pdata s) (mem_malloc (ram_size PBUF_IP UDP_HLEN) (palloc s)).2)
  else exists q lq s1,
    udp_sendto_if_src a p dst_ip dst_port netif src_ip u s =
      (ip_output_if_src q src_ip dst_ip (u_ttl (upcb u1 a)) (u_tos (upcb u1 a)) IP_PROTO_UDP netif
       ≫= fun err => after_output q p;; mret (err, u1)) s1 /\
    packet (pbs s1) (Some q) lq /\
    contents (pdata s1) lq = udp_header (u_local_port (upcb u1 a)) dst_port (UDP_HLEN + slen D) ++ D.
Proof.
  intros Hp Hc Eu D. pose proof (header_pbuf_ready s p b l Hp Hc) as R. unfold udp_sendto_if_src. rewrite Eu. cbn [Z.eqb negb].
  change (ERR_OK =? ERR_OK) with true. cbn [negb]. case_decide as Hd; [by rewrite (bind_run _ _ _ _ _ R)|].
  destruct R as (q & s' & lq & E & (bq & t & -> & Hq & Hl & Hcl & HD & Ht)). rewrite (bind_run _ _ _ _ _ E). cbv beta iota.
  destruct (fill_header_run s' q bq t (u_local_port (upcb u1 a)) dst_port Hq Hl Hcl) as (s2 & Ef & E2 & _ & C2 & _).
  exists q, ((q, bq) :: t), s2. rewrite (bind_run _ _ _ _ _ Ef). split; [done|]. split; [by rewrite E2|].
  by rewrite C2, HD, Ht.
Qed.
End Send.

Lemma header_ports sp dp n D : 0 <= sp < 65536 -> 0 <= dp < 65536 ->
  get16 (udp_header sp dp n ++ D) 0 = sp /\ get16 (udp_header sp dp n ++ D) 2 = dp /\ drop 8 (udp_header sp dp n ++ D) = D.
Proof.
  intros H1 H2. unfold get16, byte_at. cbn -[lwip_htons Z.div Z.modulo Z.add Z.mul]. by rewrite !get_put16.
Qed.

(** C32. A datagram that one stack sends and another receives arrives as it was:
    udp_sendto_if_src gives IP the UDP header followed by the data, in place or with a
    header pbuf of its own, and udp_input gives the callback of the block that takes the
    destination port exactly the data, with the address and port of the sender, however
    it arrives cut into pbufs as long as the first is a receive buffer that holds the 8
    bytes of the header. Without memory for the header nothing is sent. *)
Theorem udp_roundtrip {A B} `{!PbufAlloc A, !UdpLower A, !PbufAlloc B, !IcmpLower B, !UdpApp B} (s : pstate A) a p b l dst_ip dst_port netif src_ip u u1 :
  packet (pbs s) (Some p) ((p, b) :: l) -> can_send s p b l -> udp_ensure_bound a u = (ERR_OK, u1) ->
  let D := contents (pdata s) ((p, b) :: l) in let sp := u_local_port (upcb u1 a) in
  0 <= sp < 65536 -> 0 <= dst_port < 65536 ->
  if decide (no_memory s p b) then exists s', udp_sendto_if_src a p dst_ip dst_port netif src_ip u s = Some ((ERR_MEM, u1), s') /\ pdata s' = pdata s
  else exists q lq s1,
    udp_sendto_if_src a p dst_ip dst_port netif src_ip u s =
      (ip_output_if_src q src_ip dst_ip (u_ttl (upcb u1 a)) (u_tos (upcb u1 a)) IP_PROTO_UDP netif
       ≫= fun err => after_output q p;; mret (err, u1)) s1 /\
    packet (pbs s1) (Some q) lq /\ contents (pdata s1) lq = udp_header sp dst_port (UDP_HLEN + slen D) ++ D /\
    forall nets def (r : pstate B) c p2 b2 l2 inp v bc x h, packet (pbs r) (Some p2) ((p2, b2) :: l2) -> ptype b2 = PBUF_REF ->
      UDP_HLEN <= len b2 -> contents (pdata r) ((p2, b2) :: l2) = contents (pdata s1) lq -> cur_src c = src_ip ->
      bc = ip4_addr_isbroadcast (cur_dest c) (cur_netif c) ->
      (udp_demux c inp bc sp dst_port v).1 = Some x -> u_recv (upcb v x) = Some h ->
      exists r1 b3, udp_input nets def c p2 inp v r = udp_recv_fn h x p2 src_ip sp (udp_demux c inp bc sp dst_port v).2 r1 /\
        packet (pbs r1) (Some p2) ((p2, b3) :: l2) /\ contents (pdata r1) ((p2, b3) :: l2) = D.
Proof.
  intros Hp Hc Eu D sp Hsp Hdp. pose proof (udp_send_run s a p b l dst_ip dst_port netif src_ip u u1 Hp Hc Eu) as R. cbv zeta in R.
  case_decide as Hd; [eexists; split; [exact R|done]|]. destruct R as (q & lq & s1 & E & Hq & HC). exists q, lq, s1.
  split; [exact E|]. split; [exact Hq|]. split; [exact HC|]. intros nets def r c p2 b2 l2 inp v bc x h Hp2 Ht2 Hl2 EC Es -> Ex Eh. fold D sp in HC. rewrite HC in EC.
  destruct (header_ports sp dst_port (UDP_HLEN + slen D) D Hsp Hdp) as (G0 & G2 & GD).
  pose proof (udp_input_run nets def r c p2 b2 l2 inp v Hp2 Ht2 Hl2) as R. cbv zeta in R. rewrite EC, G0, G2 in R.
  pose proof (udp_demux_spec c inp (ip4_addr_isbroadcast (cur_dest c) (cur_netif c)) sp dst_port v) as (_ & E2 & _).
  destruct (udp_demux _ _ _ _ _ v) as [pcb v1]. cbn [fst snd] in *. subst pcb. rewrite E2, Eh, Es in R.
  destruct (past_packet r p2 b2 l2 Hp2 Hl2) as [P1 P2]. exists (past_header p2 b2 r), (moved UDP_HLEN b2). split; [exact R|].
  split; [exact P1|]. change (pdata (past_header p2 b2 r)) with (pdata r). by rewrite P2, EC.
Qed.

(** *** The OTA trigger (ota.c) from one stack to another *)
#[local] Existing Instance sim_heap.
#[local] Existing Instance sim_lower.
#[local] Instance sim_udp_lower : UdpLower Z := { ip_output_if_src := fun _ _ _ _ _ _ _ => mret ERR_OK }.
#[local] Instance sim_udp_app : UdpApp Z := { udp_recv_fn := fun _ _ _ _ _ u => mret u }.
Definition trigger : list Z := [79; 84; 65; 95; 84; 82; 73; 71; 71; 69; 82].
Definition trigger_b : pbuf_t := mkPbuf None 9072 11 11 PBUF_RAM 0 1.
Definition trigger_state : pstate Z := mkPs {[9000 := trigger_b]} (mem_write (fun _ => 0) 9072 trigger) 9100.
Definition trigger_udp : udp_sys := (udp_new (Some 1) (udp_init (upcb two_bound))).2.
Definition heard_b : pbuf_t := mkPbuf None 5020 19 19 PBUF_REF PBUF_FLAG_IS_CUSTOM 1.
Definition heard_state : pstate Z := mkPs {[1000 := heard_b]} (mem_write (fun _ => 0) 5020 (udp_header 49153 8002 19 ++ trigger)) 9000.
Definition heard_udp : udp_sys := mkUdp 49152 [4; 3] (fun x => mkUpcb 0 (if x =? 3 then 8002 else 53) 0 0 false 255 0 (Some x)).

Lemma heard_packet : packet (pbs heard_state) (Some 1000) [(1000, heard_b)].
Proof. repeat split; cbn; lia || done. Qed.
Lemma trigger_packet : packet (pbs trigger_state) (Some 9000) [(9000, trigger_b)].
Proof. repeat split; cbn; lia || done. Qed.
Lemma trigger_can_send : can_send trigger_state 9000 trigger_b [].
Proof.
  split; [vm_compute; reflexivity|]. split; [intros _; apply Forall_nil_2|]. intros q a [= <- <-]. split; [reflexivity|].
  apply Forall_cons. split; [|apply Forall_nil_2]. intros x. unfold inside. change (payload (ram_pbuf _ _ _)) with 9152. cbn. lia.
Qed.
Lemma udp_roundtrip_witness : exists r1 b3,
  udp_input [ping_netif] None ping_ctx 1000 ping_netif heard_udp heard_state = udp_recv_fn 3 3 1000 0x1401a8c0 49153 heard_udp r1 /\
  contents (pdata r1) [(1000, b3)] = trigger.
Proof.
  destruct (udp_ensure_bound 1 trigger_udp) as [err u1] eqn:Eu.
  assert (E : err = ERR_OK /\ u_local_port (upcb u1 1) = 49153) by (vm_compute in Eu; by injection Eu as <- <-). destruct E as [-> Ep].
  pose proof (udp_roundtrip (B := Z) trigger_state 1 9000 trigger_b [] 0x0a01a8c0 8002 ping_netif 0x1401a8c0 trigger_udp u1 trigger_packet trigger_can_send Eu) as H.
  cbv zeta in H. rewrite Ep in H. specialize (H ltac:(done) ltac:(done)). rewrite decide_False in H.
  2: { intros [H1 _]. apply H1. split; [by left|]. vm_compute. discriminate. }
  destruct H as (q & lq & s1 & _ & _ & HC & H). specialize (H [ping_netif] None heard_state ping_ctx 1000 heard_b [] ping_netif heard_udp false 3 3 heard_packet eq_refl).
  destruct H as (r1 & b3 & H1 & _ & H2); [done| |done|reflexivity|reflexivity|reflexivity|].
  - rewrite HC. reflexivity.
  - exists r1, b3. split; [exact H1|]. rewrite H2. reflexivity.
Defined.
Lemma udp_input_exact_witness : udp_input [ping_netif] None ping_ctx 1000 ping_netif (mkUdp 49152 [4] (upcb heard_udp)) heard_state =
  (icmp_dest_unreach [ping_netif] None 1000 ICMP_DUR_PORT;; pbuf_free (Some 1000);; mret (mkUdp 49152 [4] (upcb heard_udp)))
    (with_pbuf 1000 (moved (-20) heard_b) (palloc heard_state) heard_state).
Proof.
  destruct (udp_input_exact [ping_netif] None heard_state ping_ctx 1000 heard_b [] ping_netif (mkUdp 49152 [4] (upcb heard_udp)))
    as (_ & _ & _ & _ & H); [apply heard_packet|reflexivity|vm_compute; discriminate|vm_compute; discriminate|vm_compute; reflexivity|].
  exact H.
Defined.

(** The length in the UDP header is not looked at: a datagram that says it carries one byte is
    delivered with all eleven that IP has. *)
Definition short_state : pstate Z := with_mem (mem_write (fun _ => 0) 5020 (udp_header 49153 8002 9 ++ trigger)) heard_state.
Lemma udp_length_ignored : exists r1 b3,
  udp_input [ping_netif] None ping_ctx 1000 ping_netif heard_udp short_state = udp_recv_fn 3 3 1000 0x1401a8c0 49153 heard_udp r1 /\
  contents (pdata r1) [(1000, b3)] = trigger.
Proof.
  exists (past_header 1000 heard_b short_state), (moved UDP_HLEN heard_b). split; [|reflexivity].
  exact (udp_input_run [ping_netif] None short_state ping_ctx 1000 heard_b [] ping_netif heard_udp heard_packet eq_refl ltac:(done)).
Qed.
