(* ===== verification/TcpDemux.v ===== *)
(** * Which connection a segment belongs to ([tcp_input] of core/tcp_in.c)

    The search through the active connections, those in TIME_WAIT and the listening blocks;
    the block that is found moves to the front of its list. *)
From S2P Require Import Prelude Ip4Addr Net TcpPort.

(** A connection: the block with its local end point, and the remote one. *)
Record conn := mkConn { c_end : end_point; remote_ip : Z; remote_port : Z }.
Record conn_lists := mkConns { active_conns : list conn; tw_conns : list conn; listeners : list end_point }.
#[export] Instance conn_lists_eta : Eta conn_lists := fun t => mkConns (active_conns t) (tw_conns t) (listeners t).
(** Source and destination of a packet. *)
Record packet_ends := mkEnds { src_ip : Z; src_port : Z; dest_ip : Z; dest_port : Z }.

Definition conn_matches (k : packet_ends) (c : conn) : bool :=
  (remote_port c =? src_port k) && (local_port (c_end c) =? dest_port k) &&
  (remote_ip c =? src_ip k) && (local_ip (c_end c) =? dest_ip k).
Definition listener_matches (k : packet_ends) (e : end_point) : bool :=
  (local_port e =? dest_port k) && ((local_ip e =? dest_ip k) || (local_ip e =? IPADDR_ANY)).

(** The first element that matches, and the list with it moved to the front; [prev] are the
    elements before, the last one first. *)
Fixpoint find_front {A} (f : A -> bool) (prev l : list A) : option (A * list A) :=
  match l with
  | [] => None
  | x :: l => if f x then Some (x, x :: rev prev ++ l) else find_front f (x :: prev) l
  end.

Inductive tcp_target := ToActive (c : conn) | ToTimeWait (c : conn) | ToListener (e : end_point) | ToNobody.

Definition tcp_demux (k : packet_ends) (t : conn_lists) : tcp_target * conn_lists :=
  match find_front (conn_matches k) [] (active_conns t) with
  | Some (c, l) => (ToActive c, mkConns l (tw_conns t) (listeners t))
  | None =>
      match List.find (conn_matches k) (tw_conns t) with
      | Some c => (ToTimeWait c, t)
      | None =>
          match find_front (listener_matches k) [] (listeners t) with
          | Some (e, l) => (ToListener e, mkConns (active_conns t) (tw_conns t) l)
          | None => (ToNobody, t)
          end
      end
  end.

(** ** Moving to the front *)
Section Front.
Context {A : Type} (f : A -> bool).
Lemma find_front_spec prev l : match find_front f prev l with
  | Some (x, l') => List.find f l = Some x /\ Permutation l' (rev prev ++ l)
  | None => List.find f l = None
  end.
Proof.
  revert prev. induction l as [|x l IH]; intros prev; cbn [find_front List.find]; [done|].
  destruct (f x); [split; [done|apply Permutation_middle]|]. specialize (IH (x :: prev)).
  destruct (find_front f (x :: prev) l) as [[y l']|]; [|done]. destruct IH as [E P]. split; [done|].
  rewrite P. cbn [rev]. by rewrite <- app_assoc.
Qed.

(** At most one element of the list matches. *)
Definition one_match (l : list A) : Prop := forall x y, x ∈ l -> y ∈ l -> f x = true -> f y = true -> x = y.
Lemma find_exact l x : one_match l -> List.find f l = Some x <-> x ∈ l /\ f x = true.
Proof.
  intros H. split.
  - intros E%find_some. by rewrite list_elem_of_In.
  - intros [Hx Ef]. destruct (List.find f l) as [y|] eqn:E.
    + apply find_some in E as [Hy Ey]. f_equal. apply H; [by apply list_elem_of_In|done..].
    + apply list_elem_of_In in Hx. by rewrite (find_none f l E x Hx) in Ef.
Qed.
Lemma find_none_iff l : List.find f l = None <-> forall x, x ∈ l -> f x = false.
Proof.
  split; [intros E x Hx; apply (find_none f l E), list_elem_of_In, Hx|]. intros H.
  destruct (List.find f l) as [y|] eqn:E; [|done]. apply find_some in E as [Hy Ey].
  by rewrite H in Ey by by apply list_elem_of_In.
Qed.
Lemma find_perm l l' : one_match l -> Permutation l l' -> List.find f l = List.find f l'.
Proof.
  intros H P. assert (H' : one_match l') by (intros x y; rewrite <- P; apply H).
  destruct (List.find f l) as [x|] eqn:E; symmetry.
  - apply find_exact in E; [|done]. apply find_exact; [done|]. by rewrite <- P.
  - rewrite find_none_iff in *. intros x. rewrite <- P. apply E.
Qed.
End Front.

(** ** At most one candidate *)
Definition tuple (c : conn) := (local_ip (c_end c), local_port (c_end c), remote_ip c, remote_port c).
Lemma tuples_one k l : NoDup (map tuple l) -> one_match (conn_matches k) l.
Proof.
  intros H x y Hx Hy. unfold conn_matches. rewrite !andb_true_iff, !Z.eqb_eq. intros (((X1 & X2) & X3) & X4) (((Y1 & Y2) & Y3) & Y4).
  apply list_elem_of_lookup_1 in Hx as [i Hi], Hy as [j Hj].
  assert (i = j) as <-; [|congruence]. eapply (NoDup_lookup (map tuple l)); [done|..];
    [by rewrite list_lookup_fmap, Hi|]. rewrite list_lookup_fmap, Hj. cbn. unfold tuple. by rewrite X1, X2, X3, X4, Y1, Y2, Y3, Y4.
Qed.
(** Listeners that do not conflict: one with the address, or one for all addresses. *)
Lemma apart_one k q : ForallOrdPairs apart q -> one_match (listener_matches k) q.
Proof.
  assert (Hc : forall x y, listener_matches k x = true -> listener_matches k y = true -> ~ apart x y).
  { intros x y. unfold listener_matches, apart, conflict. rewrite !andb_true_iff, !orb_true_iff, !Z.eqb_eq.
    intros [X1 X2] [Y1 Y2]. rewrite X1, Y1, Z.eqb_refl. cbn [andb]. rewrite !orb_false_iff, !Z.eqb_neq.
    intros [[N1 N2] N3]. destruct X2, Y2; congruence. }
  induction 1 as [|x q F _ IH]; [by intros x y ?%elem_of_nil|]. rewrite Forall_forall in F.
  intros a b [->|Ha]%elem_of_cons [->|Hb]%elem_of_cons Ea Eb; [done| | |by apply IH].
  - by destruct (Hc x b Ea Eb (F b Hb)).
  - by destruct (Hc x a Eb Ea (F a Ha)).
Qed.

(** No two blocks answer for the same packet. *)
Record distinct (t : conn_lists) : Prop := {
  di_active : NoDup (map tuple (active_conns t));
  di_tw : NoDup (map tuple (tw_conns t));
  di_listen : ForallOrdPairs apart (listeners t)
}.
Record same_conns (t t' : conn_lists) : Prop := {
  sc_active : Permutation (active_conns t) (active_conns t');
  sc_tw : Permutation (tw_conns t) (tw_conns t');
  sc_listen : Permutation (listeners t) (listeners t')
}.

(** The target in terms of the addresses and ports: a connection serves the packet when its
    own end is the destination and the other end the source; a listener when it waits at
    the destination port, for that address or for all. *)
Definition serves (k : packet_ends) (c : conn) : Prop :=
  local_ip (c_end c) = dest_ip k /\ local_port (c_end c) = dest_port k /\
  remote_ip c = src_ip k /\ remote_port c = src_port k.
Definition listens_for (k : packet_ends) (e : end_point) : Prop :=
  local_port e = dest_port k /\ (local_ip e = dest_ip k \/ local_ip e = IPADDR_ANY).
Definition none_of {A} (P : A -> Prop) (l : list A) : Prop := forall y, y ∈ l -> ~ P y.
Definition is_target (k : packet_ends) (t : conn_lists) (x : tcp_target) : Prop :=
  match x with
  | ToActive c => c ∈ active_conns t /\ serves k c
  | ToTimeWait c => none_of (serves k) (active_conns t) /\ c ∈ tw_conns t /\ serves k c
  | ToListener e => none_of (serves k) (active_conns t) /\ none_of (serves k) (tw_conns t) /\
      e ∈ listeners t /\ listens_for k e
  | ToNobody => none_of (serves k) (active_conns t) /\ none_of (serves k) (tw_conns t) /\
      none_of (listens_for k) (listeners t)
  end.

Lemma conn_matches_serves k c : conn_matches k c = true <-> serves k c.
Proof. unfold conn_matches, serves. rewrite !andb_true_iff, !Z.eqb_eq. tauto. Qed.
Lemma listener_matches_listens k e : listener_matches k e = true <-> listens_for k e.
Proof. unfold listener_matches, listens_for. by rewrite andb_true_iff, orb_true_iff, !Z.eqb_eq. Qed.

(** What a search with the code's test finds, in terms of the property it tests. *)
Section Reflect.
Context {A : Type} (f : A -> bool) (P : A -> Prop) (Hf : forall x, f x = true <-> P x).
Lemma found_one l a : one_match f l -> List.find f l = Some a ->
  (a ∈ l /\ P a) /\ (forall y, y ∈ l -> P y -> y = a) /\ ~ none_of P l.
Proof.
  intros O H. apply find_exact in H as [H1 H2]; [|done]. apply Hf in H2 as H3. split; [done|].
  split; [intros y Hy ?%Hf; by apply O|]. intros H. by eapply H.
Qed.
Lemma found_none l : List.find f l = None -> none_of P l /\ forall y, y ∈ l -> P y -> False.
Proof.
  intros H. rewrite find_none_iff in H. assert (N : none_of P l) by (intros y Hy ?%Hf; by rewrite H in *).
  split; [done|]. intros y Hy. by apply N.
Qed.
End Reflect.

Lemma demux_find k t : (tcp_demux k t).1 =
  match List.find (conn_matches k) (active_conns t), List.find (conn_matches k) (tw_conns t),
        List.find (listener_matches k) (listeners t) with
  | Some c, _, _ => ToActive c
  | None, Some c, _ => ToTimeWait c
  | None, None, Some e => ToListener e
  | None, None, None => ToNobody
  end /\ same_conns (tcp_demux k t).2 t.
Proof.
  unfold tcp_demux. pose proof (find_front_spec (conn_matches k) [] (active_conns t)) as HA.
  pose proof (find_front_spec (listener_matches k) [] (listeners t)) as HL.
  destruct (find_front (conn_matches k) [] (active_conns t)) as [[c l]|]; [destruct HA as [-> P]; by split; [|constructor]|].
  rewrite HA. destruct (List.find (conn_matches k) (tw_conns t)); [done|].
  destruct (find_front (listener_matches k) [] (listeners t)) as [[e l]|]; [destruct HL as [-> P]; by split; [|constructor]|].
  by rewrite HL.
Qed.

Ltac target_cases :=
  intros; repeat match goal with H : _ /\ _ |- _ => destruct H end;
  first [by f_equal; symmetry; auto | by exfalso; eauto].

(** C20. When no two blocks answer for the same packet, a segment goes to the active
    connection whose own address and port are its destination and whose peer's are its
    source, else to the one in TIME_WAIT, else to the listener on the destination port
    for the destination address or for all addresses, else to nobody; the order of the
    lists, which every search changes, plays no part. *)
Theorem tcp_demux_exact k t t' : distinct t -> same_conns t t' ->
  (forall x, (tcp_demux k t').1 = x <-> is_target k t x) /\ same_conns (tcp_demux k t').2 t.
Proof.
  intros [D1 D2 D3] [P1 P2 P3]. pose proof (demux_find k t') as [E S]. split.
  2: { destruct S. constructor; [rewrite P1|rewrite P2|rewrite P3]; done. }
  pose proof (tuples_one k _ D1) as O1. pose proof (tuples_one k _ D2) as O2. pose proof (apart_one k _ D3) as O3.
  rewrite E, <- (find_perm _ _ _ O1 P1), <- (find_perm _ _ _ O2 P2), <- (find_perm _ _ _ O3 P3). clear E S.
  intros x. unfold is_target.
  destruct (List.find (conn_matches k) (active_conns t)) as [a|] eqn:EA.
  { apply (found_one _ _ (conn_matches_serves k)) in EA as (A1 & A2 & A3); [|done].
    split; [by intros <-|]. destruct x; target_cases. }
  apply (found_none _ _ (conn_matches_serves k)) in EA as [A1 A2].
  destruct (List.find (conn_matches k) (tw_conns t)) as [b|] eqn:EB.
  { apply (found_one _ _ (conn_matches_serves k)) in EB as (B1 & B2 & B3); [|done].
    split; [by intros <-|]. destruct x; target_cases. }
  apply (found_none _ _ (conn_matches_serves k)) in EB as [B1 B2].
  destruct (List.find (listener_matches k) (listeners t)) as [e|] eqn:EL.
  { apply (found_one _ _ (listener_matches_listens k)) in EL as (C1 & C2 & C3); [|done].
    split; [by intros <-|]. destruct x; target_cases. }
  apply (found_none _ _ (listener_matches_listens k)) in EL as [C1 C2].
  split; [by intros <-|]. destruct x; target_cases.
Qed.

(** A packet for the second of two connections: it moves to the front. *)
Definition sim_conns : conn_lists := mkConns
  [mkConn (mkEnd 1 7 80) 9 5000; mkConn (mkEnd 2 7 80) 9 5001] [] [mkEnd 3 0 80].
Example demux_front : tcp_demux (mkEnds 9 5001 7 80) sim_conns =
  (ToActive (mkConn (mkEnd 2 7 80) 9 5001),
   sim_conns <| active_conns := rev (active_conns sim_conns) |>).
Proof. reflexivity. Qed.
Lemma sim_distinct : distinct sim_conns.
Proof.
  constructor; [apply (bool_decide_eq_true_1 _); vm_compute; reflexivity|apply NoDup_nil_2|repeat constructor].
Qed.
Lemma tcp_demux_exact_witness : let k := mkEnds 9 5002 7 80 in
  (forall x, (tcp_demux k sim_conns).1 = x <-> is_target k sim_conns x) /\ same_conns (tcp_demux k sim_conns).2 sim_conns.
Proof.
  intros k. apply (tcp_demux_exact k sim_conns sim_conns); [apply sim_distinct|done].
Defined.
