(* ===== verification/TcpConnect.v ===== *)
(** * TCP: the active open

    [tcp_connect] of core/tcp.c for one control block: the checks, the local end point on the
    lists of TcpPort.v, the initial sequence number and the SYN.  A connection it opens keeps
    the stream of TcpTx.v. *)
From S2P Require Import Prelude Ip4Addr Net Tcp TcpIn TcpRcv TcpStream SimTcp TcpSend TcpWrite TcpTx TcpPort.

Section Connect.
Context {L : Type} `{!TcpLower L}.
#[local] Abbreviation MC := (M (tcp_core L)).
Implicit Types (c : tcp_core L).

(** A block on the list of bound blocks is given its local address. *)
Fixpoint list_move (e : end_point) (ip : Z) (q : list end_point) : list end_point :=
  match q with
  | [] => []
  | x :: q => if pcb_addr x =? pcb_addr e then x <| local_ip := ip |> :: q else x :: list_move e ip q
  end.

(** The local address is filled in from the route; [netif_ip] is the address of the
    interface. *)
Definition connect_ip (netif_ip : Z) (e : end_point) (t : tcp_lists)
  : MC (option (end_point * tcp_lists)) :=
  if local_ip e =? IPADDR_ANY then
    netif <- on_low ip_route ;;
    ret (match netif with
         | None => None
         | Some _ => Some (e <| local_ip := netif_ip |>,
                           t <| tcp_bound_pcbs := list_move e netif_ip (tcp_bound_pcbs t) |>)
         end)
  else ret (Some (e, t)).

(** The fields for a new connection, from the sequence number to the window. *)
Definition connect_vars (iss : Z) : MC unit :=
  set_tx (fun x => x <| snd_nxt := iss |> <| lastack := iss -% 1 |> <| snd_wl2 := iss -% 1 |>
                     <| snd_lbb := iss -% 1 |> <| snd_wnd := TCP_WND |>) ;;;
  set_rx (fun r => r <| rcv_nxt := 0 |> <| rcv_wnd := TCP_WND |> <| rcv_ann_wnd := TCP_WND |>
                     <| rcv_ann_right_edge := 0 |>) ;;;
  set_cc (fun x => x <| mss := INITIAL_MSS |>) ;;;
  m <- cc mss ;;
  m <- tcp_eff_send_mss m ;;
  set_cc (fun x => x <| mss := m |> <| cwnd := 1 |>).

(** From [iss = tcp_next_iss(pcb)] on; the lists change when it succeeds. *)
Definition send_syn : MC Z :=
  iss <- tcp_next_iss ;;
  connect_vars iss ;;;
  err <- tcp_enqueue_flags (no_flags <| TCP_SYN := true |>) ;;
  if err =? ERR_OK then set_state SYN_SENT ;;; set_list PCB_ACTIVE ;;; tcp_output ;;; ret err
  else ret err.
(** [TCP_RMV(&tcp_bound_pcbs, pcb)] if it was bound, [TCP_REG_ACTIVE(pcb)]. *)
Definition register_active (was_bound : bool) (e : end_point) (t : tcp_lists) : tcp_lists :=
  let t := if was_bound then t <| tcp_bound_pcbs := list_rmv e (tcp_bound_pcbs t) |> else t in
  t <| tcp_active_pcbs := e :: tcp_active_pcbs t |>.

(** The port the block is bound to, or a new one. *)
Definition connect_port (e : end_point) : M tcp_lists Z :=
  if local_port e =? 0 then tcp_new_port else ret (local_port e).

(** [tcp_connect] of the block whose local end point is [e]; the result has the error, the end
    point and the lists.  The remote end point identifies the connection. *)
Definition tcp_connect (netif_ip : Z) (e : end_point) (t : tcp_lists)
  : MC (Z * end_point * tcp_lists) :=
  st <- pcb state ;;
  if negb (bool_decide (st = CLOSED)) then ret (ERR_ISCONN, e, t) else
  r <- connect_ip netif_ip e t ;;
  match r with
  | None => ret (ERR_RTE, e, t)
  | Some (e, t) =>
      let old_local_port := local_port e in
      let '(port, t) := connect_port e t in
      let e := e <| local_port := port |> in
      if port =? 0 then ret (ERR_BUF, e, t) else
      err <- send_syn ;;
      ret (err, e, if err =? ERR_OK then register_active (negb (old_local_port =? 0)) e t else t)
  end.
End Connect.

(** ** The stream of a connection that was opened *)
Section Opened.
Context {L : Type} `{!TcpLower L} `{!TcpWires L} {WL : TcpWireLaws}.
#[local] Abbreviation MC := (M (tcp_core L)).
Implicit Types (c : tcp_core L).

(** A block as [tcp_new] makes it, as far as sending goes. *)
Record unused (p : tcp_pcb) : Prop := {
  un_queues : unsent (txv p) = [] /\ unacked (txv p) = [];
  un_fin : TF_FIN (flags p) = false;
  un_counts : snd_queuelen (txv p) = 0 /\ 0 <= snd_buf (txv p) <= 65535
}.
Lemma new_pcb_unused ticks : unused (new_pcb ticks).
Proof. done. Qed.

(** The number of the SYN that [tcp_connect] sends. *)
Definition next_irs c : Z := next_iss c +% tcp_ticks c -% 1.

(** A call below that sends nothing. *)
Lemma low_only {B} (m : M L B) c : frames same_wires m ->
  wp (on_low m) (fun _ c' => exists l, c' = c <| low := l |> /\ wires l = wires (low c)) c.
Proof. intros H. specialize (H (low c)). unfold wp, on_low in *. destruct (m (low c)) as [b l]. by exists l. Qed.

(** A layer below that routes and sends whatever it is given. *)
Record always_sends : Prop := {
  as_route l : wp ip_route (fun r _ => r <> None) l;
  as_idle s l : wp (seg_busy s) (fun busy _ => busy = false) l;
  as_output w l : wp (ip_output_if w) (fun err l' => err = ERR_OK /\ wires l' = wires l ++ [w]) l
}.

(** The SYN as a segment and as IP gets it. *)
Definition syn_flags : tcph := no_flags <| TCP_SYN := true |>.
Definition the_syn (seqno : Z) : tcp_seg := mkSeg seqno syn_flags [] 1 true.
Definition syn_sent (seqno m : Z) : tcp_wire := mkWire seqno 0 syn_flags TCP_WND (Some m) [].

(** The windows are open for the SYN. *)
Record syn_fits (seqno : Z) c : Prop := {
  sf_last : lastack (txv (pcb_ c)) = seqno;
  sf_wnd : snd_wnd (txv (pcb_ c)) = TCP_WND /\ cwnd (cgv (pcb_ c)) = 1;
  sf_rcv : rcv_nxt (rxv (pcb_ c)) = 0 /\ rcv_ann_wnd (rxv (pcb_ c)) = TCP_WND
}.

(** Ready to queue the SYN. *)
Record ready (sent0 : list tcp_wire) (iss : Z) c : Prop := {
  rd_queues : unsent (txv (pcb_ c)) = [] /\ unacked (txv (pcb_ c)) = [];
  rd_fin : fin_queued c = false;
  rd_counts : snd_queuelen (txv (pcb_ c)) = 0 /\ 0 <= snd_buf (txv (pcb_ c)) <= 65535;
  rd_lbb : snd_lbb (txv (pcb_ c)) = iss -% 1;
  rd_mss : 0 <= mss (cgv (pcb_ c)) <= TCP_MSS;
  rd_wires : wires (low c) = sent0;
  rd_fits : syn_fits (iss -% 1) c
}.

Lemma first_seq iss : seq_of (iss -% 1) (-1) = iss -% 1.
Proof. unfold seq_of. replace (iss -% 1 + 1 + -1) with (iss -% 1) by lia. apply Zmod_mod. Qed.

Lemma syn_queued sent0 iss c : ready sent0 iss c ->
  wp (tcp_enqueue_flags (no_flags <| TCP_SYN := true |>) : MC Z)
    (fun err c' => err = ERR_OK -> tx_ok [] (iss -% 1) sent0 c' /\ wires (low c') = sent0 /\
       unsent (txv (pcb_ c')) = [the_syn (iss -% 1)] /\ unacked (txv (pcb_ c')) = [] /\ syn_fits (iss -% 1) c') c.
Proof.
  intros [[Q1 Q2] F [N1 N2] Lb Hm W [S1 S2 S3]]. unfold tcp_enqueue_flags. apply wp_bind, wp_gets. cbn [id]. rewrite N1.
  assert (Hme : forall c1, wp (mem_err : MC Z) (fun err c' => err = ERR_OK -> tx_ok [] (iss -% 1) sent0 c' /\ wires (low c') = sent0 /\
       unsent (txv (pcb_ c')) = [the_syn (iss -% 1)] /\ unacked (txv (pcb_ c')) = [] /\ syn_fits (iss -% 1) c') c1).
  { intros c1. apply wp_bind, wp_modify, wp_ret. done. }
  cbn [Z.leb Z.ltb andb orb]. wp_call (low_only _ c (wl_ctl _)) as ok c1 X. destruct X as (l1 & -> & W1).
  destruct ok; cbn [negb]; [|apply Hme]. apply wp_bind. unfold tcp_create_segment.
  wp_call (low_only _ (c <| low := l1 |>) wl_seg) as ok c1 X. destruct X as (l2 & -> & W2). destruct ok.
  2: { wp_call (low_only _ (c <| low := l1 |> <| low := l2 |>) (wl_free 1)) as u c3 X. apply wp_ret, Hme. }
  apply wp_ret, wp_bind, wp_modify, wp_bind, wp_modify, wp_bind, wp_ret, wp_bind, wp_modify, wp_ret. intros _.
  cbn in W1, W2. split.
  2: { split; [cbn; congruence|]. cbn. rewrite Q1, Lb. split; [done|]. split; [exact Q2|]. by constructor. }
  constructor; [|exists []|done].
  - unfold fin_queued in *. cbn. constructor; unfold queued; cbn; rewrite ?Q1, ?Q2; cbn.
    + apply Forall_singleton. exists (-1). rewrite Lb. constructor; cbn; try done.
      by rewrite first_seq.
    + intros _. rewrite Lb. unfold seq_of, slen. cbn. by rewrite Z.add_0_r.
    + intros _. by apply Forall_singleton.
    + rewrite N1. done.
  - cbn. rewrite app_nil_r. split; [congruence|done].
Qed.

Lemma vars_ready iss c : unused (pcb_ c) -> wp (connect_vars iss : MC unit) (fun _ c' => ready (wires (low c)) iss c') c.
Proof.
  intros [[Q1 Q2] F [N1 N2]]. unfold connect_vars. do 3 apply wp_bind, wp_modify. apply wp_bind, wp_gets, wp_bind.
  unfold tcp_eff_send_mss. set (c1 := _ <| pcb_ := _ |>). wp_call (low_only _ c1 wl_route) as o c2 X.
  destruct X as (l & -> & W). apply wp_ret, wp_modify. constructor; try done. cbn.
  destruct o as [mtu|]; [|done]. pose proof (u16_range (s16 mtu - IP_HLEN - TCP_HLEN)).
  unfold INITIAL_MSS, TCP_MSS. destruct (negb _); lia.
Qed.

(** ** What the block looks like from outside *)
Definition parked c c' : Prop :=
  state (pcb_ c') = state (pcb_ c) /\ on_list c' = on_list c /\ input_pcb c' = input_pcb c.
#[local] Instance parked_preorder : PreOrder parked.
Proof. split; [by intros c|intros a b d (?&?&?) (?&?&?); repeat split; congruence]. Qed.
Lemma parked_low {B} (m : M L B) : frames parked (on_low m).
Proof. intros c. unfold wp, on_low. by destruct (m (low c)). Qed.
Lemma parked_set_pcb f : (forall p, state (f p) = state p) -> frames parked (set_pcb f : MC unit).
Proof. intros H c. apply wp_modify. repeat split. apply H. Qed.
#[local] Hint Resolve parked_low : frames.
#[local] Hint Extern 2 (frames parked _) => (apply parked_set_pcb; reflexivity) : frames.
#[local] Hint Extern 2 (frames parked (modify _)) => (apply frames_modify; intros ?; by split) : frames.
Lemma parked_vars iss : frames parked (connect_vars iss : MC unit).
Proof. unfold connect_vars, tcp_eff_send_mss. solve_frames. Qed.
Lemma parked_enqueue h : frames parked (tcp_enqueue_flags h : MC Z).
Proof. unfold tcp_enqueue_flags, mem_err, tcp_create_segment. solve_frames. Qed.

(** ** The SYN is given to IP *)
Lemma wp_imp {S B} (m : M S B) (P : Prop) (Q : B -> S -> Prop) s : (P -> wp m Q s) -> wp m (fun b s' => P -> Q b s') s.
Proof. unfold wp. by destruct (m s). Qed.
Lemma low_as {B} (m : M L B) (Q : B -> L -> Prop) c : wp m Q (low c) ->
  wp (on_low m) (fun b c' => exists l, c' = c <| low := l |> /\ Q b l) c.
Proof. intros H. unfold wp, on_low in *. destruct (m (low c)) as [b l]. by exists l. Qed.

(** The SYN is in the queues; a layer that always sends has got it. *)
Definition syn_given (seqno : Z) c c' : Prop :=
  queued (txv (pcb_ c')) = [the_syn seqno] /\
  (always_sends -> input_pcb c = false ->
     unsent (txv (pcb_ c')) = [] /\ exists m, wires (low c') = wires (low c) ++ [syn_sent seqno m]).

Lemma syn_segment seqno c : syn_fits seqno c -> always_sends ->
  wp (tcp_output_segment (the_syn seqno)) (fun err c' => err = ERR_OK /\
    exists m, wires (low c') = wires (low c) ++ [syn_sent seqno m]) c.
Proof.
  intros [_ _ [R1 R2]] [A1 A2 A3]. unfold tcp_output_segment.
  wp_call (low_as _ _ c (wp_and _ _ _ _ (A2 (the_syn seqno) _) (wl_busy (the_syn seqno) _))) as busy c1 X.
  destruct X as (l1 & -> & -> & W1). apply wp_bind, wp_gets, wp_bind, wp_modify. cbn [id opts_mss the_syn]. apply wp_bind.
  set (c2 := _ <| pcb_ := _ |>). unfold tcp_eff_send_mss. apply wp_bind.
  wp_call (low_only _ c2 wl_route) as o c3 X. destruct X as (l3 & -> & W3). apply wp_ret, wp_ret.
  apply wp_bind, wp_modify, wp_bind, wp_gets, wp_bind, wp_modify. set (c4 := _ <| pcb_ := _ |>).
  eapply wp_mono; [apply (low_as _ _ c4 (A3 _ _))|]. cbv beta. intros err c5 (l & -> & -> & W). split; [done|].
  eexists. cbn. rewrite W. subst c4 c2. cbn in *. unfold same_wires in *. rewrite W3, W1, R1, R2. done.
Qed.

Lemma syn_reach seqno c : syn_fits seqno c -> seg_reach (pcb_ c) (the_syn seqno) = 0.
Proof. intros [F1 _ _]. unfold seg_reach, seg_len. cbn. by rewrite F1, Z.sub_diag. Qed.

Lemma syn_loop seqno c : unsent (txv (pcb_ c)) = [the_syn seqno] -> unacked (txv (pcb_ c)) = [] -> syn_fits seqno c ->
  state (pcb_ c) = SYN_SENT ->
  wp (tcp_output_loop 1 1 : MC _) (fun e c' => queued (txv (pcb_ c')) = [the_syn seqno] /\
    (always_sends -> e = None /\ unsent (txv (pcb_ c')) = [] /\
       exists m, wires (low c') = wires (low c) ++ [syn_sent seqno m])) c.
Proof.
  intros Eu Ea Hf Es. cbn [tcp_output_loop]. apply wp_bind, wp_gets. cbn [id]. rewrite Eu, (syn_reach _ _ Hf).
  assert (En : tcp_do_output_nagle (pcb_ c) = true) by (unfold tcp_do_output_nagle; by rewrite Ea).
  rewrite En, Es, (bool_decide_true (SYN_SENT = SYN_SENT)) by done. cbn [Z.leb Z.compare negb andb]. cbv zeta.
  apply wp_bind, wp_modify. set (c1 := _ <| pcb_ := _ |>).
  assert (E1 : unsent (txv (pcb_ c1)) = [the_syn seqno] /\ unacked (txv (pcb_ c1)) = []) by done.
  assert (F1 : syn_fits seqno c1) by (by destruct Hf). assert (W1 : wires (low c1) = wires (low c)) by done.
  clearbody c1. apply wp_bind.
  eapply wp_mono; [apply wp_and; [apply (tx_segment (the_syn seqno) c1)|
    apply (wp_imp _ always_sends _ _ (syn_segment seqno c1 F1))]|].
  cbv beta. intros err c2 [T2 H2]. unfold same_tx in T2. rewrite W1 in H2. destruct E1 as [Eu1 Ea1].
  destruct (Z.eqb_spec err ERR_OK) as [->|N]; cbn [negb].
  2: { apply wp_bind, wp_modify, wp_ret. split; [unfold queued; cbn; by rewrite T2, Eu1, Ea1|]. intros A. by destruct (H2 A). }
  apply wp_bind, wp_modify, wp_bind, wp_ret, wp_bind, wp_modify, wp_bind. change (0 <? seg_tcplen (the_syn seqno)) with true.
  cbv iota. apply wp_modify, wp_ret. unfold queued. cbn. rewrite T2. case_match; cbn; rewrite Ea1; (split; [done|]);
    intros A; destruct (H2 A) as [_ Hx]; done.
Qed.

Lemma syn_output seqno c : unsent (txv (pcb_ c)) = [the_syn seqno] -> unacked (txv (pcb_ c)) = [] -> syn_fits seqno c ->
  state (pcb_ c) = SYN_SENT -> wp tcp_output (fun _ c' => syn_given seqno c c') c.
Proof.
  intros Eu Ea Hf Es. pose proof Hf as [_ [F2 F3] _]. unfold tcp_output, syn_given. apply wp_bind, wp_gets.
  destruct (input_pcb c); [apply wp_ret; unfold queued; by rewrite Ea, Eu|].
  apply wp_bind, wp_gets. cbn [id]. cbv zeta. rewrite Eu, Ea, F2, F3, (syn_reach _ _ Hf).
  change (Z.min TCP_WND 1) with 1. cbn [Z.leb Z.compare negb andb]. rewrite andb_false_r.
  wp_call (low_as _ _ c (wp_and _ _ _ _ (wp_imp _ always_sends _ _ (fun A => as_route A _)) (wl_route _))) as nif c1 X.
  destruct X as (l1 & -> & HA & W1). unfold same_wires in W1. destruct nif as [mtu|].
  2: { apply wp_ret. cbn. unfold queued. rewrite Ea, Eu. split; [done|]. intros A _. by destruct (HA A). }
  rewrite andb_false_r. cbn [andb length]. apply wp_bind.
  eapply wp_mono; [apply (syn_loop seqno (c <| low := l1 |>)); [done|done|by destruct Hf|done]|].
  cbv beta. intros e c2 [K1 K2]. cbn [low] in K2. destruct e as [e|].
  { apply wp_ret. split; [done|]. intros A _. by destruct (K2 A). }
  apply wp_bind, wp_modify, wp_bind, wp_modify, wp_ret. unfold queued in *. cbn.
  case_bool_decide; cbn; (split; [done|]); intros A _; destruct (K2 A) as (_ & K3 & m & K4); (split; [done|]); exists m;
    rewrite K4; cbn; by rewrite W1.
Qed.

(** The outcome of [tcp_connect] for a block at [e] with the lists [t]. *)
Definition connected_as (e : end_point) (t : tcp_lists) c (x : Z * end_point * tcp_lists) c' : Prop :=
  let '(err, e', t') := x in
  tcp_listen_pcbs t' = tcp_listen_pcbs t /\ tcp_tw_pcbs t' = tcp_tw_pcbs t /\
  if err =? ERR_OK then
    state (pcb_ c) = CLOSED /\ state (pcb_ c') = SYN_SENT /\ on_list c' = PCB_ACTIVE /\
    tcp_active_pcbs t' = e' :: tcp_active_pcbs t /\ local_port e' <> 0 /\
    (if local_port e =? 0 then port_used (local_port e') t = false else local_port e' = local_port e) /\
    tx_ok [] (next_irs c) (wires (low c)) c' /\ syn_given (next_irs c) c c'
  else parked c c' /\ tcp_active_pcbs t' = tcp_active_pcbs t.

Lemma send_syn_spec c (Q : Z -> tcp_core L -> Prop) : unused (pcb_ c) ->
  (forall err c', err <> ERR_OK -> parked c c' -> Q err c') ->
  (forall c', state (pcb_ c') = SYN_SENT -> on_list c' = PCB_ACTIVE -> tx_ok [] (next_irs c) (wires (low c)) c' ->
     syn_given (next_irs c) c c' -> Q ERR_OK c') ->
  wp send_syn Q c.
Proof.
  intros Hu He Ho. unfold send_syn. apply wp_bind. unfold tcp_next_iss. apply wp_bind, wp_modify, wp_gets. cbn [next_iss].
  set (c1 := c <| next_iss := _ |>). assert (Hr1 : parked c c1) by done. apply wp_bind.
  eapply wp_mono; [apply wp_and; [apply (parked_vars _ c1)|by apply (vars_ready _ c1)]|]. cbv beta. intros _ c2 [P2 R2].
  apply wp_bind. eapply wp_mono; [apply wp_and; [apply (parked_enqueue _ c2)|apply (syn_queued _ _ _ R2)]|].
  cbv beta. intros err c3 [P3 T3]. assert (P : parked c c3) by (by etrans; [|etrans]).
  destruct (Z.eqb_spec err ERR_OK) as [->|N]; [|by apply wp_ret, He].
  destruct (T3 eq_refl) as (K1 & K2 & K3 & K4 & K5).
  apply wp_bind, wp_modify, wp_bind, wp_modify. set (c4 := _ <| on_list := _ |>).
  assert (T4 : tx_ok [] (next_irs c) (wires (low c)) c4) by (destruct K1 as [X1 X2 X3]; by constructor).
  apply wp_bind. eapply wp_mono; [apply wp_and; [apply wp_and; [apply (tx_output [] (next_irs c) (wires (low c)) c4)|apply (quiet_output c4)]|
    apply (syn_output (next_irs c) c4); [done|done|by destruct K5|done]]|].
  cbv beta. intros _ c5 [[K6 Q5] G5].
  apply wp_ret, Ho; [by rewrite (q_state _ _ Q5)|by rewrite (q_list _ _ Q5)|by apply K6|].
  destruct G5 as [G1 G2]. split; [done|]. intros A Ei. destruct P as (_ & _ & Pi).
  destruct (G2 A) as [G3 (m & G4)]; [cbn; congruence|]. split; [done|]. exists m. rewrite G4. cbn. by rewrite K2.
Qed.

Lemma connect_ip_spec ip e t c : wp (connect_ip ip e t : MC _) (fun r c' =>
  (exists l, c' = c <| low := l |> /\ wires l = wires (low c)) /\
  forall e1 t1, r = Some (e1, t1) -> local_port e1 = local_port e /\ tcp_port t1 = tcp_port t /\
    (forall p, port_used p t1 = port_used p t) /\
    tcp_listen_pcbs t1 = tcp_listen_pcbs t /\ tcp_tw_pcbs t1 = tcp_tw_pcbs t /\ tcp_active_pcbs t1 = tcp_active_pcbs t) c.
Proof.
  unfold connect_ip. destruct (local_ip e =? IPADDR_ANY).
  2: { apply wp_ret. split; [exists (low c); by destruct c|]. by intros e1 t1 [= <- <-]. }
  wp_call (low_only _ c wl_route) as o c1 X. apply wp_ret. split; [done|]. intros e1 t1 E.
  destruct o as [mtu|]; [|done]. injection E as <- <-. do 2 (split; [done|]). split; [|done]. intros p. unfold port_used, tcp_pcb_lists. cbn. rewrite !existsb_app. do 2 f_equal.
  induction (tcp_bound_pcbs t) as [|x q IH]; cbn [list_move existsb]; [done|]. destruct (pcb_addr x =? pcb_addr e); cbn [existsb]; [done|].
  by rewrite IH.
Qed.

Lemma connect_port_spec e t : in_port_range (tcp_port t) -> wp (connect_port e) (fun r t' =>
  tcp_listen_pcbs t' = tcp_listen_pcbs t /\ tcp_tw_pcbs t' = tcp_tw_pcbs t /\ tcp_active_pcbs t' = tcp_active_pcbs t /\
  (r <> 0 -> if local_port e =? 0 then port_used r t = false else r = local_port e)) t.
Proof.
  intros Hp. unfold connect_port. destruct (local_port e =? 0); [|by apply wp_ret].
  eapply wp_mono; [by apply tcp_new_port_spec|]. cbv beta. intros r t' (H1 & _ & H2). rewrite H1. cbn.
  do 3 (split; [done|]). intros N. destruct H2 as [[-> _]|(_ & H3 & _)]; done.
Qed.

Lemma tcp_connect_spec ip e t c : unused (pcb_ c) -> in_port_range (tcp_port t) ->
  wp (tcp_connect ip e t) (connected_as e t c) c.
Proof.
  intros Hu Hp. unfold tcp_connect. apply wp_bind, wp_gets. case_bool_decide as Hc; cbn [negb].
  2: by apply wp_ret.
  wp_call (connect_ip_spec ip e t c) as r c1 X. destruct X as [(l & -> & W) Hr].
  set (c1 := c <| low := l |>). assert (P1 : parked c c1) by done. destruct r as [[e1 t1]|]; [|by apply wp_ret].
  destruct (Hr e1 t1 eq_refl) as (E1 & E2 & E3 & E4 & E5 & E6). cbv zeta. rewrite E1.
  pose proof (connect_port_spec e1 t1 ltac:(by rewrite E2)) as H. unfold wp in H. destruct (connect_port e1 t1) as [r t2].
  destruct H as (F1 & F2 & F3 & F4). destruct (Z.eqb_spec r 0) as [->|N].
  { apply wp_ret. cbn. by rewrite F1, F2, F3. }
  specialize (F4 N). rewrite E1, E3 in F4. apply wp_bind. apply (send_syn_spec c1); [done| |].
  - intros err c2 Ne P2. apply wp_ret. cbn. apply Z.eqb_neq in Ne as ->. rewrite F1, F2, F3.
    do 2 (split; [done|]). split; [by etrans|done].
  - intros c2 S2 L2 T2 G2. apply wp_ret.
    assert (Ei : next_irs c1 = next_irs c) by done. assert (Ew : wires (low c1) = wires (low c)) by done.
    rewrite Ei in T2, G2. rewrite Ew in T2. assert (G : syn_given (next_irs c) c c2) by (destruct G2 as [G3 G4]; split; [done|by rewrite <- Ew]).
    unfold register_active. destruct (negb _); cbn; rewrite F1, F2, F3, E4, E5, E6; done.
Qed.

(** C18. tcp_connect of a fresh block that succeeds has queued one segment, the SYN with
    the next initial sequence number, and given exactly it to IP, if a route is found,
    the layer below sends, and no segment is being processed; the block is in SYN_SENT
    on the active list with a port that no other block uses (or the port it was bound
    to), and its stream is empty. On an error its state and the active list stay as they
    were. *)
Theorem tcp_connect_opens ip e t c : unused (pcb_ c) -> in_port_range (tcp_port t) ->
  wp (tcp_connect ip e t) (connected_as e t c) c.
Proof. apply tcp_connect_spec. Qed.
End Opened.

(** ** Runs *)
#[export] Instance sim_wires : TcpWires (list tcp_wire) := { wires := id }.
#[export] Instance sim_wire_laws : TcpWireLaws (L := list tcp_wire).
Proof. constructor; intros; try intros ?; unfold same_wires, wp; cbn; auto. Qed.

(** A new block on the layer [l]. *)
Definition fresh_core {L} (l : L) : tcp_core L :=
  mkCore (new_pcb 0) PCB_NONE false 3 (mkInFlags false false false) 0 None false 6510 l.
Definition fresh_end : end_point := mkEnd 1 0 0.
Example connect_sends_syn :
  let '((err, e, t), c) := tcp_connect 7 fresh_end tcp_lists_init (fresh_core ([] : list tcp_wire)) in
  err = ERR_OK /\ e = mkEnd 1 7 49153 /\ tcp_active_pcbs t = [e] /\
  map (fun w => (w_seqno w, TCP_SYN (w_hdr w), TCP_ACK (w_hdr w), w_mss w)) (low c) = [(6512, true, false, Some 1460)].
Proof. vm_compute. done. Qed.
Lemma sim_always_sends : always_sends (L := list tcp_wire).
Proof. constructor; intros; by unfold wp; cbn. Qed.
Lemma tcp_connect_opens_witness : let c := fresh_core ([] : list tcp_wire) in
  wp (tcp_connect 7 fresh_end tcp_lists_init) (fun x c' => connected_as fresh_end tcp_lists_init c x c' /\
    (x.1.1 = ERR_OK -> state (pcb_ c') = SYN_SENT /\ exists m, wires (low c') = [syn_sent 6512 m])) c.
Proof.
  intros c. eapply wp_mono;
    [apply (tcp_connect_opens 7 fresh_end tcp_lists_init c); [done|vm_compute; split; discriminate]|].
  cbv beta. intros [[err e'] t'] c' H. split; [exact H|]. cbn [fst]. intros ->.
  destruct H as (_ & _ & _ & H1 & _ & _ & _ & _ & _ & _ & H2). split; [exact H1|].
  apply (H2 sim_always_sends eq_refl).
Defined.

(** A layer whose first segment cannot be allocated. *)
Definition no_segment_once : TcpLower bool := {|
  ip_route := ret (Some 1500); ip_output_if w := ret ERR_OK; hdr_alloc n := ret true;
  ctl_alloc n := ret true; raw_alloc n := ret true; rom_alloc := ret true;
  rom_follows a s := ret false; pbufs_free n := ret tt;
  seg_alloc := fun l => (l, true);
  seg_busy s := ret false; tcp_seg_free s := ret tt; chain_free p := ret tt;
  pcb_memp_malloc := ret true; pcb_memp_free := ret tt
|}.
(** A tcp_connect that fails for lack of a segment leaves its block with a port that is
    on no list: another block can bind to the same address and port, and when the
    connect is repeated both have it. *)
Theorem connect_retry_clash : let L := no_segment_once in
  let '((err1, e1, t1), c1) := tcp_connect 7 fresh_end tcp_lists_init (fresh_core false) in
  let '((errb, eb), t2) := tcp_bind true (mkEnd 2 0 0) (Some 7) 49153 t1 in
  let '((err2, e2, t3), c2) := tcp_connect 7 e1 t2 c1 in
  err1 = ERR_MEM /\ e1 = mkEnd 1 7 49153 /\ errb = ERR_OK /\ err2 = ERR_OK /\ state (pcb_ c2) = SYN_SENT /\
  tcp_active_pcbs t3 = [mkEnd 1 7 49153] /\ tcp_bound_pcbs t3 = [mkEnd 2 7 49153].
Proof. vm_compute. done. Qed.
