(* ===== verification/TcpConn.v ===== *)
(** * TCP connections: every segment, timer and call keeps the invariant

    The state machine and the delivery of tcp_in.c, the timers and the listening block,
    against the invariant of TcpStream.v. *)
From stdpp Require Import relations.
From S2P Require Import Prelude Ip4Addr Net Tcp TcpIn TcpRcv TcpStream SimTcp.

Section Conn.
Context {L A : Type} `{!TcpLower L} `{!TcpApp L A} (R : list Z -> app_phase -> A -> Prop).
Context `{!TcpAppLaws L A R} (str : list Z) (irs : Z).
Hypothesis Hstr : slen str < MAXPOS.
#[local] Abbreviation MS := (M (tcp_sys L A)).
Implicit Types (s : tcp_sys L A) (c : tcp_core L) (a : A).
#[local] Abbreviation safe := (safe R str).
#[local] Abbreviation held := (held R str).
#[local] Abbreviation live := (live R str irs).
#[local] Abbreviation inv := (inv R str irs).
#[local] Abbreviation fresh := (fresh R str irs).
#[local] Abbreviation processed := (processed R str irs).
#[local] Abbreviation conn_inv := (conn_inv R str irs).

(** The connection is gone; the application knows no more than the stream. *)
Definition ended (s : tcp_sys L A) : Prop := on_list (core s) <> PCB_ACTIVE /\ safe (appl s).

Lemma ended_inv s : ended s -> conn_inv s.
Proof. by left. Qed.

(** What the invariants look at. *)
Record looks_same (s s' : tcp_sys L A) : Prop := {
  ls_rxv : rxv (pcb_ (core s')) = rxv (pcb_ (core s));
  ls_mss : mss (cgv (pcb_ (core s'))) = mss (cgv (pcb_ (core s)));
  ls_state : state (pcb_ (core s')) = state (pcb_ (core s));
  ls_list : on_list (core s') = on_list (core s);
  ls_appl : appl s' = appl s
}.

Lemma live_same n s s' : looks_same s s' -> live n s -> live n s'.
Proof.
  intros [H1 H2 H3 _ H5] [G1 G2 G3 G4 G5]. constructor; rewrite ?H1, ?H3, ?H5; try done.
  eapply quiet_wnd; [| |done]; [done|by rewrite H2].
Qed.
Lemma inv_same s s' : looks_same s s' -> inv s -> inv s'.
Proof.
  intros H [[[H1 H2] H3]|[n Hl]]; [left|right; exists n; by eapply live_same].
  split; [|by rewrite (ls_appl _ _ H)]. split; [by rewrite (ls_list _ _ H)|by rewrite (ls_state _ _ H)].
Qed.
Lemma conn_same s s' : looks_same s s' -> conn_inv s -> conn_inv s'.
Proof.
  intros H [[H1 H3]|[n Hl]]; [left|right; exists n; by eapply live_same].
  split; [by rewrite (ls_list _ _ H)|by rewrite (ls_appl _ _ H)].
Qed.

Lemma live_active s : inv s -> on_list (core s) = PCB_ACTIVE -> exists n, live n s.
Proof. intros [[[H _] _]|H]; done. Qed.
Lemma conn_active s : conn_inv s -> on_list (core s) = PCB_ACTIVE -> exists n, live n s.
Proof. intros [[H _]|H]; done. Qed.
Lemma conn_safe s : conn_inv s -> safe (appl s).
Proof. intros [[_ H]|[n H]]; [done|by eapply live_safe]. Qed.
Lemma inv_sync s : inv s -> 3 <= state_num (state (pcb_ (core s))).
Proof. intros [[[_ H] _]|[n H]]; [lia|apply H]. Qed.

Lemma app_untouched {B} (m : M (tcp_core L) B) s : wp (on_core m : MS B) (fun _ s' => appl s' = appl s) s.
Proof. apply wp_on_core. unfold wp. by destruct (m (core s)). Qed.

(** [tcp_abandon] ends the connection. *)
Lemma abandon_ends b s : safe (appl s) -> wp (tcp_abandon b) (fun _ s' => ended s') s.
Proof.
  intros Hs. unfold tcp_abandon. apply wp_bind, wp_on_core. eapply wp_mono; [apply abandon_off|].
  cbv beta. intros r c1 Hl. destruct r; [|by apply wp_ret].
  eapply wp_mono; [by apply (safe_err R str)|]. cbv beta. intros _ s1 [E H1]. split; [by rewrite E|done].
Qed.

Lemma abort_ends s : safe (appl s) -> wp tcp_abort (fun _ s' => ended s') s.
Proof. apply abandon_ends. Qed.

(** Removing and freeing the block. *)
Lemma remove_ends s : safe (appl s) ->
  wp (on_core (tcp_pcb_remove ;;; memp_free_pcb)) (fun _ s' => ended s') s.
Proof.
  intros Hs. apply wp_on_core, wp_bind. eapply wp_mono; [apply (apiw_remove (core s))|].
  cbv beta. intros _ c1 _. apply wp_bind. unfold wp at 1, on_low.
  destruct (pcb_memp_free (low c1)) as [u l]. apply wp_modify. by split.
Qed.

(** ** Processing *)

(** From CLOSE_WAIT on nothing is received. *)
Lemma receive_late i c : 7 <= state_num (state (pcb_ c)) ->
  wp (tcp_receive i) (fun _ c' => quiet c c') c.
Proof.
  intros H7. unfold tcp_receive. apply wp_bind. apply (wp_mono _ (fun _ c1 => quiet c c1)).
  { destruct (TCP_ACK (i_hdr i)); [apply quiet_receive_ack|by apply wp_ret]. }
  cbv beta. intros _ c1 Q. unfold tcp_receive_data. apply wp_bind, wp_gets, wp_bind, wp_gets. cbn [id].
  rewrite (q_state _ _ Q). destruct (Z.ltb_spec (state_num (state (pcb_ c))) 7); [lia|]. rewrite andb_false_r.
  apply wp_bind. eapply wp_mono; [apply quiet_maybe_ack|]. cbv beta. intros _ c2 Q2.
  apply wp_ret. by etrans.
Qed.

Lemma processed_idle s : idle_in (core s) -> inv s -> processed s.
Proof. by left. Qed.

(** A step of the stack alone, before anything was received. *)
Lemma idle_step s c' : idle_in (core s) -> inv s -> api (core s) c' ->
  idle_in c' /\ inv (mkTcp c' (appl s)).
Proof.
  intros [I1 I2] Hi Ha. split; [|by apply inv_api].
  destruct Ha as [A0 _]. split; [by rewrite (a_data _ _ A0)|by rewrite (a_fin _ _ A0)].
Qed.

Lemma idle_quiet {B} (m : M (tcp_core L) B) s : idle_in (core s) -> inv s -> frames quiet m ->
  wp (on_core m) (fun _ s' => idle_in (core s') /\ inv s' /\ quiet (core s) (core s')) s.
Proof.
  intros H1 H2 Hm. apply wp_on_core. eapply wp_mono; [apply Hm|]. cbv beta. intros _ c' Q.
  destruct (idle_step s c' H1 H2 (quiet_api _ _ Q)). by split.
Qed.

(** [synchronized_input] on a connection that is off. *)
Lemma synchronized_off i st s : off (core s) -> safe (appl s) -> idle_in (core s) ->
  state (pcb_ (core s)) = st -> wp (synchronized_input i st) (fun _ s' => processed s') s.
Proof.
  intros O Hs Hi Est. unfold synchronized_input. apply wp_bind, wp_on_core.
  eapply wp_mono; [by apply receive_late, O|]. cbv beta. intros q c1 Q. apply wp_bind.
  unfold in_flag. apply wp_on_core, wp_gets. cbv beta. apply wp_bind. unfold all_acked.
  apply wp_bind, wp_on_core, wp_gets, wp_ret. cbn [core appl].
  set (done_ := TCP_ACK (i_hdr i) && _ && _). clearbody done_.
  assert (O1 : off c1) by apply (a_off _ _ (quiet_api0 _ _ Q) O).
  assert (I1 : idle_in c1) by (destruct Hi; split; [by rewrite (q_data _ _ Q)|by rewrite (q_flags _ _ Q)]).
  rewrite (proj2 I1).
  assert (P : forall c', off c' -> idle_in c' -> processed (mkTcp c' (appl s)))
    by (intros c' H1 H2; left; split; [done|by left]).
  apply wp_bind. apply (wp_mono _ (fun _ (s' : tcp_sys L A) => processed s')); [|intros _ s' H; by apply wp_ret].
  assert (H7 : 7 <= state_num st) by (rewrite <- Est; apply O).
  destruct st; cbn in H7; try lia; try (by apply wp_ret, P); (destruct done_; [|by apply wp_ret, P]).
  - apply wp_on_core. eapply wp_mono; [apply ends_time_wait|]. cbv beta. intros _ c2 [A0 O2].
    apply P; [done|]. destruct I1. split; [by rewrite (a_data _ _ A0)|by rewrite (a_fin _ _ A0)].
  - apply wp_on_core, wp_modify, P; done.
Qed.

(** The segment that completes the handshake, after the application was told. *)
Lemma handshake_tail i s : idle_in (core s) -> inv s -> peer_segment str irs i -> TCP_RST (i_hdr i) = false ->
  off (core s) \/ (refused_data (rxv (pcb_ (core s))) <> None -> i_tcplen i = 0) ->
  wp (q <- on_core (tcp_receive i) ;;
      on_core (modify (fun c => if negb (recv_acked c =? 0)
                                then c <| recv_acked := recv_acked c - 1 |> else c) ;;;
               set_cc (fun c : cong_vars => c <| cwnd := u16 (LWIP_TCP_CALC_INITIAL_CWND (mss c)) |>)) ;;;
      fin <- in_flag TF_GOT_FIN ;;
      (if fin : bool then on_core (tcp_ack_now ;;; set_state CLOSE_WAIT) else ret tt) ;;;
      ret (ERR_OK, q)) (fun x s' => x.1 = ERR_OK /\ processed s') s.
Proof.
  intros Hi Hv Hp Hr Hz.
  assert (Hq : frames quiet (modify (fun c => if negb (recv_acked c =? 0)
                                then c <| recv_acked := recv_acked c - 1 |> else c) ;;;
               set_cc (fun c : cong_vars => c <| cwnd := u16 (LWIP_TCP_CALC_INITIAL_CWND (mss c)) |>) : M (tcp_core L) unit))
    by solve_frames.
  assert (Hl : off (core s) /\ safe (appl s) \/ exists n, live n s /\
    (refused_data (rxv (pcb_ (core s))) <> None -> i_tcplen i = 0)).
  { destruct Hz as [Ho|Hz]; [left; split; [done|by eapply inv_safe]|].
    destruct Hv as [Ho|[n Hl]]; [by left|right; by exists n]. }
  destruct Hl as [[Ho Hs]|(n & Hl & Hz')].
  - apply wp_bind, wp_on_core. eapply wp_mono; [by apply receive_late, Ho|]. cbv beta. intros q c1 Q1.
    apply wp_bind, wp_on_core. eapply wp_mono; [apply Hq|]. cbv beta. intros _ c2 Q2.
    assert (Q : quiet (core s) c2) by (by etrans).
    apply wp_bind. unfold in_flag. apply wp_on_core, wp_gets. cbn [core appl]. rewrite (q_flags _ _ Q), (proj2 Hi).
    apply wp_bind, wp_ret, wp_ret. split; [done|]. left.
    by destruct (idle_step s c2 Hi Hv (quiet_api _ _ Q)).
  - wp_call (receive_heard R str irs Hstr i n s Hl Hi Hp Hr Hz') as q s1 Hh. destruct Hh as [n' Hh].
    apply wp_bind, wp_on_core. eapply wp_mono; [apply Hq|]. cbv beta. intros _ c2 Q.
    apply wp_bind. unfold in_flag. apply wp_on_core, wp_gets. cbn [core appl]. rewrite (q_flags _ _ Q).
    pose proof (h_state _ _ _ _ _ _ Hh) as H7.
    apply wp_bind. apply (wp_mono _ (fun _ (s' : tcp_sys L A) => processed s')); [|intros _ s' H; by apply wp_ret].
    destruct (TF_GOT_FIN (recv_flags (core s1))) eqn:Ef.
    + apply wp_on_core. wp_call (quiet_ack_now c2) as u c3 Q3. apply wp_modify.
      right. exists n, n'. apply (heard_fresh R str irs n n' s s1); try done.
      * destruct (h_brought _ _ _ _ _ _ Hh) as [B1 _]. rewrite Ef in B1. symmetry in B1.
        apply andb_true_iff in B1 as [B1%Z.ltb_lt _]. done.
      * etrans; [by apply quiet_api0|]. etrans; [by apply quiet_api0|].
        by apply (wp_run _ _ _ _ _ (api0_set_state CLOSE_WAIT ltac:(done) c3) eq_refl).
      * intros _. by right.
      * left. cbn. by rewrite (q_refused _ _ Q3), (q_refused _ _ Q).
    + apply wp_ret. eapply heard_processed; try done; [by apply quiet_api0|by apply (q_refused _ _ Q)|].
      rewrite (q_state _ _ Q), (ro_state _ _ (h_only _ _ _ _ _ _ Hh)). apply (l_fin _ _ _ _ _ Hl).
Qed.

(** The outcome of [tcp_process]. *)
Definition outcome (e : Z) s : Prop := if e =? ERR_ABRT then ended s else processed s.

Lemma outcome_ok s : processed s -> outcome ERR_OK s.
Proof. done. Qed.

(** What a segment may find in [refused_data]. *)
Definition room (i : tcp_inseg) (c : tcp_core L) : Prop :=
  refused_data (rxv (pcb_ c)) <> None -> i_tcplen i = 0.

Lemma SYN_RCVD_spec i s : idle_in (core s) -> inv s -> peer_segment str irs i -> TCP_RST (i_hdr i) = false ->
  room i (core s) -> state (pcb_ (core s)) = SYN_RCVD ->
  wp (SYN_RCVD_input i) (fun x (s' : tcp_sys L A) => outcome x.1 s') s.
Proof.
  intros Hi Hv Hp Hr Hz Hst. unfold SYN_RCVD_input. apply wp_bind, wp_on_core, wp_gets. cbn [id]. rewrite mkTcp_eta.
  assert (Hq : forall {B} (m : M (tcp_core L) B), frames quiet m -> forall k : B -> MS (Z * option (list (list Z))),
    (forall b (s' : tcp_sys L A), processed s' -> wp (k b) (fun x (s' : tcp_sys L A) => outcome x.1 s') s') ->
    wp (bind (on_core m) k) (fun x (s' : tcp_sys L A) => outcome x.1 s') s).
  { intros B m Hm k Hk. wp_call (idle_quiet m s Hi Hv Hm) as b s1 H. apply Hk. left. split; apply H. }
  assert (Hret : forall p (s' : tcp_sys L A), processed s' -> wp (ret (ERR_OK, p) : MS (Z * option (list (list Z)))) (fun x (s' : tcp_sys L A) => outcome x.1 s') s')
    by (intros; by apply wp_ret).
  destruct (TCP_ACK (i_hdr i)).
  2: { destruct (TCP_SYN _ && _); [apply Hq; [apply quiet_rexmit|auto]|apply Hret; by left]. }
  destruct (TCP_SEQ_BETWEEN _ _ _); [|apply Hq; [apply quiet_rst|auto]].
  apply wp_bind, wp_on_core, wp_modify.
  set (c1 := (core s) <| pcb_ := _ |>). set (s1 := mkTcp c1 (appl s)).
  assert (A1 : api (core s) c1).
  { apply api_state; [done|]. rewrite Hst. cbn. lia. }
  destruct (idle_step s c1 Hi Hv A1) as [I1 V1]. fold s1 in V1.
  assert (Hz1 : room i c1) by done.
  apply wp_bind. apply (wp_mono _ (fun err s2 =>
    (~ err = ERR_ABRT -> api (core s1) (core s2) /\ inv s2) /\ (err = ERR_ABRT -> ended s2))).
  { destruct (listener _); [apply inv_keeps; [apply law_accept|done]|].
    apply wp_ret. split; [by intros _|done]. }
  cbv beta. intros err s2 [K1 K2].
  destruct (Z.eqb_spec err ERR_OK) as [->|Ne]; cbn [negb].
  - destruct (K1 ltac:(done)) as [A2 V2]. eapply wp_mono; [apply handshake_tail; try done|].
    + destruct A2 as [A2 _], I1. split; [by rewrite (a_data _ _ A2)|by rewrite (a_fin _ _ A2)].
    + destruct A2 as [_ A2]. destruct (A2 ltac:(cbn; lia)) as [O|[E _]]; [by left|right]. by rewrite E.
    + cbv beta. intros x s3 [-> P]. done.
  - apply wp_bind. apply (wp_mono _ (fun _ (s3 : tcp_sys L A) => ended s3)); [|intros _ s3 H; by apply wp_ret].
    destruct (Z.eqb_spec err ERR_ABRT) as [->|Na]; cbn [negb]; [by apply wp_ret, K2|].
    apply abort_ends. destruct (K1 Na) as [_ V2]. by eapply inv_safe.
Qed.

(** A reset segment. *)
Lemma rst_spec i s : idle_in (core s) -> inv s ->
  wp (process_rst i) (fun e s' => e <> ERR_ABRT /\ processed s') s.
Proof.
  intros Hi Hv. unfold process_rst. apply wp_bind, wp_on_core, wp_gets. cbn [id]. rewrite mkTcp_eta.
  set (ok := if bool_decide _ then _ else _). clearbody ok. apply wp_bind.
  apply (wp_mono _ (fun _ (s1 : tcp_sys L A) => idle_in (core s1) /\ inv s1)).
  { destruct (_ && _); [|by apply wp_ret]. eapply wp_mono; [apply idle_quiet; [done..|]|].
    - apply quiet_ack_now.
    - cbv beta. tauto. }
  cbv beta. intros _ s1 [I1 V1]. destruct ok; [|by apply wp_ret, conj; [|left]].
  apply wp_bind, wp_on_core, wp_modify. cbn [core appl]. set (s2 := mkTcp _ _).
  assert (I2 : idle_in (core s2)) by (by destruct I1).
  assert (V2 : inv s2) by (by eapply inv_same; [|exact V1]; constructor).
  apply wp_bind. eapply wp_mono; [apply (idle_quiet _ s2 I2 V2)|].
  - eauto with frames.
  - cbv beta. intros _ s3 (I3 & V3 & _). apply wp_ret. split; [done|by left].
Qed.

Lemma process_spec i s : idle_in (core s) -> inv s -> peer_segment str irs i -> room i (core s) ->
  wp (tcp_process i) (fun x (s' : tcp_sys L A) => outcome x.1 s') s.
Proof.
  intros Hi Hv Hp Hz. unfold tcp_process. apply wp_bind, wp_on_core, wp_gets. rewrite mkTcp_eta.
  destruct (TCP_RST (i_hdr i)) eqn:Er.
  { apply wp_bind. eapply wp_mono; [by apply rst_spec|]. cbv beta. intros e s1 [H1 H2]. apply wp_ret.
    unfold outcome. cbn. destruct (Z.eqb_spec e ERR_ABRT); done. }
  destruct (TCP_SYN (i_hdr i) && _).
  { apply wp_bind. eapply wp_mono; [apply (idle_quiet tcp_ack_now s Hi Hv), quiet_ack_now|].
    cbv beta. intros _ s1 (H1 & H2 & _). apply wp_ret. by left. }
  apply wp_bind. eapply wp_mono; [apply (idle_quiet _ s Hi Hv)|].
  { solve_frames; apply quiet_set_pcb; intros p; cbn; try case_match; done. }
  cbv beta. intros _ s1 (I1 & V1 & Q). rewrite <- (q_state _ _ Q).
  assert (Hz1 : room i (core s1)) by (unfold room; by rewrite (q_refused _ _ Q)).
  pose proof (inv_sync s1 V1) as H3.
  assert (Hsync : state (pcb_ (core s1)) <> SYN_RCVD -> state (pcb_ (core s1)) <> TIME_WAIT ->
    wp (q <- synchronized_input i (state (pcb_ (core s1))) ;; ret (ERR_OK, q)) (fun x (s' : tcp_sys L A) => outcome x.1 s') s1).
  { intros N1 N2. apply wp_bind. apply (wp_mono _ (fun _ (s' : tcp_sys L A) => processed s')); [|intros q s2 H; by apply wp_ret].
    destruct V1 as [[O Hs]|[n Hl]]; [by apply synchronized_off|].
    eapply synchronized_spec; try done. repeat split; try done; intros E; rewrite E in H3; cbn in H3; lia. }
  destruct (state (pcb_ (core s1))) eqn:Es; cbn in H3; try lia; try (by apply Hsync).
  - by apply SYN_RCVD_spec.
  - apply wp_ret. by left.
Qed.

(** ** Delivery *)

Lemma processed_safe s : processed s -> safe (appl s).
Proof.
  intros [[_ H]|(n & n' & F)]; [by eapply inv_safe|]. destruct (f_app _ _ _ _ _ _ F) as [Hn HR].
  pose proof (f_lt _ _ _ _ _ _ F). exists n, Receiving. split; [lia|]. by split.
Qed.

(** A step of the stack or a call of the application keeps what was received. *)
Lemma fresh_api n n' s s' : fresh n n' s -> api (core s) (core s') -> R (sub str 0 n) Receiving (appl s') ->
  fresh n n' s'.
Proof.
  intros [F1 F2 F3 [F4 F4'] F5 F6 F7 [F8 F9]] [A0 As] HR. specialize (As F5). constructor; try done.
  - by apply (a_wnd _ _ A0).
  - split; [by rewrite (a_fin _ _ A0)|by rewrite (a_data _ _ A0)].
  - by apply (a_sync _ _ A0).
  - intros H. destruct (F6 H) as [O|H7]; [left; by apply (a_off _ _ A0)|].
    destruct As as [O|[_ H8]]; [by left|right; auto].
  - destruct F7 as [E|O]; [|right; by apply (a_off _ _ A0)].
    destruct As as [O|[E' _]]; [by right|left; congruence].
Qed.

Lemma processed_quiet s c' : processed s -> quiet (core s) c' -> processed (mkTcp c' (appl s)).
Proof.
  intros [[H1 H2]|(n & n' & F)] Q; [left; apply idle_step; auto using quiet_api|right].
  exists n, n'. eapply fresh_api; [done|by apply quiet_api|]. apply (f_app _ _ _ _ _ _ F).
Qed.

Lemma processed_keeps {B} ab (m : MS B) s : keeps_app R ab m -> processed s ->
  wp m (fun r s' => (~ ab r -> processed s') /\ (ab r -> ended s')) s.
Proof.
  intros Hm [[[I1 I2] Hv]|(n & n' & F)].
  - eapply wp_mono; [by apply inv_keeps|]. cbv beta. intros r s' [H1 H2]. split; [|done].
    intros Hr. destruct (H1 Hr) as [[A0 _] V]. left. split; [|done].
    split; [by rewrite (a_data _ _ A0)|by rewrite (a_fin _ _ A0)].
  - destruct (f_app _ _ _ _ _ _ F) as [Hn HR]. pose proof (f_lt _ _ _ _ _ _ F).
    eapply wp_mono; [apply (Hm _ _ s HR)|]. cbv beta. intros r s' [H1 H2]. split; intros Hr.
    + destruct (H1 Hr) as [Ha HR']. right. exists n, n'. by eapply fresh_api.
    + destruct (H2 Hr) as [Ho HR']. split; [done|]. exists n, Failed. split; [lia|]. by split.
Qed.

(** Everything up to the FIN is with the application or in [refused_data], the FIN is not. *)
Definition eof_due (c : tcp_core L) a : Prop :=
  match refused_data (rxv (pcb_ c)) with
  | None => R (sub str 0 (slen str)) Receiving a
  | Some (p, _) => off c /\ safe a \/ 0 < tot_len p <= TCP_WND /\ exists m, 0 <= m /\
      m + tot_len p = slen str /\ concat p = sub str m (slen str) /\ R (sub str 0 m) Receiving a
  end.
Record eof_ready s : Prop := {
  e_wnd : wnd_inv irs (slen str + 1) (core s);
  e_sync : 3 <= state_num (state (pcb_ (core s)));
  e_fin : off (core s) \/ 7 <= state_num (state (pcb_ (core s)));
  e_due : eof_due (core s) (appl s)
}.
Definition delivered s : Prop :=
  if TF_GOT_FIN (recv_flags (core s)) then eof_ready s else inv s.

Lemma delayed_close_spec s : safe (appl s) ->
  wp tcp_input_delayed_close (fun b s' => if b : bool then ended s' else s' = s) s.
Proof.
  intros Hs. unfold tcp_input_delayed_close, in_flag. apply wp_bind, wp_on_core, wp_gets. rewrite mkTcp_eta.
  destruct (TF_CLOSED _); [|by apply wp_ret]. apply wp_bind, wp_on_core, wp_gets. rewrite mkTcp_eta.
  apply wp_bind. apply (wp_mono _ (fun _ (s1 : tcp_sys L A) => safe (appl s1))).
  { destruct (negb _); [|by apply wp_ret]. eapply wp_mono; [by apply (safe_err R str)|]. by cbv beta; intros _ s1 []. }
  cbv beta. intros _ s1 H1. apply wp_bind. eapply wp_mono; [by apply remove_ends|].
  cbv beta. intros _ s2 H2. by apply wp_ret.
Qed.

(** A change of [refused_data] alone. *)
Lemma wnd_refused n c r : wnd_inv irs n c ->
  wnd_inv irs n (c <| pcb_ := (pcb_ c) <| rxv := (rxv (pcb_ c)) <| refused_data := r |> |> |>).
Proof. intros [? ? ? ? ?]. by constructor. Qed.

(** The chain of fresh bytes, from [n] to [e]. *)
Lemma fresh_chain n n' s p : fresh n n' s -> recv_data (core s) = Some p ->
  let e := Z.min n' (slen str) in
  0 <= n < e /\ concat p = sub str n e /\ tot_len p = e - n /\ 0 < tot_len p <= TCP_WND.
Proof.
  intros [F1 F2 F3 [F4 F4'] F5 F6 F7 [F8 F9]] E e. rewrite E in F4'. destruct F4' as [H1 H2]. fold e in H1, H2.
  assert (e <= slen str) by lia. pose proof (concat_len str p n e ltac:(lia) ltac:(lia) H2).
  split; [lia|]. split; [done|]. lia.
Qed.

Lemma fresh_fin n n' s : fresh n n' s ->
  TF_GOT_FIN (recv_flags (core s)) = (slen str <? n') /\ (slen str < n' -> n' = slen str + 1).
Proof.
  intros F. destruct (f_brought _ _ _ _ _ _ F) as [B _]. pose proof (f_lt _ _ _ _ _ _ F). split; [|lia].
  rewrite B. destruct (Z.ltb_spec n n'); [done|lia].
Qed.

(** The callback took the fresh bytes. *)
Lemma taken_delivered n n' s s' : fresh n n' s -> api (core s) (core s') ->
  R (sub str 0 (Z.min n' (slen str))) Receiving (appl s') -> delivered s'.
Proof.
  intros F Ha HR. destruct (fresh_fin n n' s F) as [Ef En]. destruct (f_app _ _ _ _ _ _ F) as [Hn _].
  destruct F as [F1 F2 F3 _ F5 F6 F7 _], Ha as [A0 As]. specialize (As F5).
  assert (Hs' : safe (appl s')) by (exists (Z.min n' (slen str)), Receiving; split; [lia|]; by split).
  unfold delivered. rewrite (a_fin _ _ A0), Ef. destruct (Z.ltb_spec (slen str) n') as [H|H].
  - specialize (En H). subst n'. rewrite Z.min_r in HR by lia. constructor.
    + by apply (a_wnd _ _ A0).
    + by apply (a_sync _ _ A0).
    + destruct (F6 H) as [O|H7]; [left; by apply (a_off _ _ A0)|].
      destruct As as [O|[_ H8]]; [by left|right; auto].
    + unfold eof_due. destruct (refused_data (rxv (pcb_ (core s')))) as [[q b]|] eqn:E; [left|done].
      split; [|done]. destruct F7 as [E'|O]; [|by apply (a_off _ _ A0)].
      destruct As as [O|[E1 _]]; [done|congruence].
  - rewrite Z.min_l in HR by lia. destruct F7 as [E|O]; [|left; split; [by apply (a_off _ _ A0)|done]].
    destruct As as [O|[E1 H8]]; [by left|]. right. exists n'. constructor.
    + by apply (a_wnd _ _ A0).
    + lia.
    + by apply (a_sync _ _ A0).
    + lia.
    + unfold TcpStream.held. rewrite E1, E, Z.min_l by lia.
      destruct (Z.ltb_spec (slen str) n'); [lia|done].
Qed.

(** The callback refused them. *)
Lemma refused_delivered n n' s p : fresh n n' s -> recv_data (core s) = Some p ->
  delivered (mkTcp ((core s) <| pcb_ := (pcb_ (core s)) <| rxv :=
    (rxv (pcb_ (core s))) <| refused_data := Some (p, false) |> |> |>) (appl s)).
Proof.
  intros F Ep. destruct (fresh_fin n n' s F) as [Ef En].
  destruct (fresh_chain n n' s p F Ep) as (H1 & H2 & H3 & H4).
  destruct F as [F1 F2 F3 _ F5 F6 F7 [F8 F9]].
  assert (Hs' : safe (appl s)) by (exists n, Receiving; split; [lia|]; by split).
  unfold delivered. cbn [core recv_flags upd tcp_core_eta eta]. cbn. rewrite Ef.
  destruct (Z.ltb_spec (slen str) n') as [H|H].
  - specialize (En H). subst n'. rewrite Z.min_r in * by lia. constructor; cbn.
    + by apply wnd_refused.
    + done.
    + by apply F6.
    + unfold eof_due. cbn. right. split; [done|]. exists n. split; [lia|]. split; [lia|]. by split.
  - right. exists n'. constructor; cbn.
    + by apply wnd_refused.
    + lia.
    + done.
    + lia.
    + unfold TcpStream.held. cbn. split; [by destruct (Z.ltb_spec (slen str) n'); [lia|]|].
      split; [done|]. exists n. split; [lia|]. split; [lia|]. by split.
Qed.

Lemma nothing_delivered n n' s : fresh n n' s -> recv_data (core s) = None -> delivered s.
Proof.
  intros F Ed. eapply taken_delivered; [exact F|reflexivity|].
  destruct (f_brought _ _ _ _ _ _ F) as [_ B]. rewrite Ed in B.
  destruct (f_app _ _ _ _ _ _ F) as [Hn HR]. pose proof (f_lt _ _ _ _ _ _ F).
  by replace (Z.min n' (slen str)) with n by lia.
Qed.

Lemma deliver_data_spec s : processed s ->
  wp deliver_data (fun go s' => if go : bool then delivered s' else ended s') s.
Proof.
  intros Hp. pose proof (processed_safe s Hp) as Hsafe. unfold deliver_data.
  apply wp_bind, wp_on_core, wp_gets. rewrite mkTcp_eta.
  destruct (recv_data (core s)) as [p|] eqn:Ed.
  2: { apply wp_ret. destruct Hp as [[[_ I] V]|(n & n' & F)]; [|by eapply nothing_delivered].
       unfold delivered. by rewrite I. }
  destruct Hp as [[[I _] _]|(n & n' & F)]; [congruence|].
  apply wp_bind, wp_on_core, wp_gets. rewrite mkTcp_eta. destruct (TF_RXCLOSED _).
  { apply wp_bind. eapply wp_mono; [apply app_untouched|]. cbv beta. intros _ s1 E1.
    apply wp_bind. eapply wp_mono; [apply abort_ends; by rewrite E1|]. cbv beta. intros _ s2 H. by apply wp_ret. }
  destruct (fresh_chain n n' s p F Ed) as (H1 & H2 & H3 & H4).
  destruct (f_app _ _ _ _ _ _ F) as [Hn HR].
  apply wp_bind. eapply wp_mono; [by apply (law_recv (sub str 0 n) p s)|]. cbv beta.
  rewrite H2, sub_app by lia. intros err s1 (G1 & G2 & G3 & G4).
  destruct (Z.eqb_spec err ERR_ABRT) as [->|Na].
  { apply wp_ret. destruct (G3 eq_refl) as [O G]. split; [done|].
    destruct G as [G|G]; [exists n, Failed|exists (Z.min n' (slen str)), Failed]; (split; [lia|by split]). }
  specialize (G1 Na). destruct (Z.eqb_spec err ERR_OK) as [->|No]; cbn [negb].
  - apply wp_bind, wp_ret, wp_ret. eapply taken_delivered; eauto.
  - apply wp_bind, wp_on_core, wp_modify, wp_ret.
    assert (F' : fresh n n' s1) by (eapply fresh_api; eauto).
    eapply refused_delivered; [done|]. by rewrite (a_data _ _ (proj1 G1)).
Qed.

(** The end of the stream. *)
Lemma deliver_fin_spec s : wnd_inv irs (slen str + 1) (core s) -> 3 <= state_num (state (pcb_ (core s))) ->
  off (core s) \/ 7 <= state_num (state (pcb_ (core s))) /\ refused_data (rxv (pcb_ (core s))) = None ->
  R (sub str 0 (slen str)) Receiving (appl s) ->
  wp deliver_fin (fun err s' => if err =? ERR_ABRT then ended s' else inv s' /\ api (core s) (core s')) s.
Proof.
  intros Hw H3 H7 HR. pose proof (slen_nonneg str) as Hs0. unfold deliver_fin. apply wp_bind, wp_on_core, wp_modify.
  set (r := rxv (pcb_ (core s))). set (r' := if negb (rcv_wnd r =? TCP_WND) then _ else _).
  set (c1 := (core s) <| pcb_ := (pcb_ (core s)) <| rxv := r' |> |>).
  assert (A1 : api (core s) c1).
  { split.
    - constructor; [|done|done]. constructor; try done. intros i n [G1 G2 G3 G4 (x & G5 & G6)].
      subst c1 r' r. destruct (Z.eqb_spec (rcv_wnd (rxv (pcb_ (core s)))) TCP_WND) as [E|E]; constructor; cbn; try done.
      1, 3: by exists x.
      unfold TCP_WND, TCP_MSS in *. rewrite u16_small; lia.
    - intros _. right. split; [|done]. subst c1 r'. cbn. by destruct (_ =? _). }
  eapply wp_mono; [apply (law_eof (sub str 0 (slen str))); exact HR|]. cbv beta.
  intros err s' (G1 & G2 & G3). destruct (Z.eqb_spec err ERR_ABRT) as [->|Na].
  { split; [by apply G3|]. exists (slen str), Finished. split; [lia|]. by split. }
  specialize (G1 Na). change (api c1 (core s')) in G1. assert (Hap : api (core s) (core s')) by (by etrans).
  split; [|done]. destruct Hap as [A0 As].
  assert (Hs' : safe (appl s')) by (exists (slen str), Finished; split; [lia|]; by split).
  destruct (As H3) as [O|[E H8]]; [left; by split|]. destruct H7 as [O|[H7 Hr]]; [left; split; [by apply (a_off _ _ A0)|done]|].
  right. exists (slen str + 1). constructor; auto.
  - by apply (a_wnd _ _ A0).
  - lia.
  - by apply (a_sync _ _ A0).
  - unfold TcpStream.held. rewrite E, Hr, Z.min_r by lia. by destruct (Z.ltb_spec (slen str) (slen str + 1)); [|lia].
Qed.

Lemma deliver_eof_spec s : delivered s ->
  wp deliver_eof (fun go s' => if go : bool then inv s' else ended s') s.
Proof.
  intros Hd. pose proof (slen_nonneg str) as Hs0.
  unfold deliver_eof, in_flag. apply wp_bind, wp_on_core, wp_gets. rewrite mkTcp_eta.
  unfold delivered in Hd. destruct (TF_GOT_FIN _); [|by apply wp_ret]. destruct Hd as [D1 D2 D3 D4].
  apply wp_bind, wp_on_core, wp_gets. rewrite mkTcp_eta. unfold eof_due in D4.
  destruct (refused_data (rxv (pcb_ (core s)))) as [[p b]|] eqn:Er.
  - apply wp_bind, wp_on_core, wp_modify, wp_ret. destruct D4 as [[O Hs]|(G1 & m & G2 & G3 & G4 & G5)]; [by left|].
    destruct D3 as [O|H7].
    { left. split; [done|]. exists m, Receiving. split; [unfold tot_len in *; lia|]. by split. }
    right. exists (slen str + 1). constructor; cbn; try done; [by apply wnd_refused|].
    unfold TcpStream.held. cbn. rewrite Z.min_r by lia. split; [by destruct (Z.ltb_spec (slen str) (slen str + 1)); [|lia]|].
    split; [done|]. exists m. by split.
  - apply wp_bind. eapply wp_mono; [apply deliver_fin_spec; tauto|]. cbv beta. intros err s1 H. apply wp_ret.
    destruct (err =? ERR_ABRT); [done|]. apply H.
Qed.

Lemma inv_set_input s b : inv s -> inv (mkTcp ((core s) <| input_pcb := b |>) (appl s)).
Proof. apply inv_same. by constructor. Qed.

(** The events of a segment. *)
Lemma events_spec e s : outcome e s -> wp (input_events e) (fun _ s' => conn_inv s') s.
Proof.
  unfold outcome, input_events. destruct (e =? ERR_ABRT); [intros H; apply wp_ret; by left|]. intros Hp.
  assert (Hc : forall (m : MS bool) (k : MS unit) (P : tcp_sys L A -> Prop) s1,
    wp m (fun b s2 => if b : bool then ended s2 else P s2) s1 ->
    (forall s2, P s2 -> wp k (fun _ s' => conn_inv s') s2) ->
    wp (closed <- m ;; if closed : bool then ret tt else k) (fun _ s' => conn_inv s') s1).
  { intros m k P s1 Hm Hk. wp_call Hm as b s2 H2. destruct b; [apply wp_ret; by left|by apply Hk]. }
  assert (Hg : forall (m : MS bool) (k : MS unit) (P : tcp_sys L A -> Prop) s1,
    wp m (fun b s2 => if b : bool then P s2 else ended s2) s1 ->
    (forall s2, P s2 -> wp k (fun _ s' => conn_inv s') s2) ->
    wp (go <- m ;; if negb go then ret tt else k) (fun _ s' => conn_inv s') s1).
  { intros m k P s1 Hm Hk. wp_call Hm as b s2 H2. destruct b; [by apply Hk|apply wp_ret; by left]. }
  unfold in_flag. apply wp_bind, wp_on_core, wp_gets. rewrite mkTcp_eta. destruct (TF_RESET _).
  { apply wp_bind. eapply wp_mono; [apply (safe_err R str); by apply processed_safe|]. cbv beta. intros _ s1 [_ H1].
    eapply wp_mono; [by apply remove_ends|]. by left. }
  apply wp_bind, wp_on_core, wp_gets. rewrite mkTcp_eta. apply wp_bind.
  apply (wp_mono _ (fun err (s1 : tcp_sys L A) => (err <> ERR_ABRT -> processed s1) /\ (err = ERR_ABRT -> ended s1))).
  { destruct (0 <? recv_acked (core s)); [apply (processed_keeps (fun r => r = ERR_ABRT)); [apply law_sent|done]|].
    by apply wp_ret. }
  cbv beta. intros err s1 [H1 H2]. destruct (Z.eqb_spec err ERR_ABRT) as [->|Na]; [apply wp_ret; left; by apply H2|].
  specialize (H1 Na). apply wp_bind, wp_on_core, wp_modify.
  set (s2 := mkTcp _ _). assert (P2 : processed s2).
  { apply processed_quiet; [done|]. by apply (wp_run _ _ _ _ _ (quiet_acked (fun c => c <| recv_acked := 0 |>) ltac:(done) (core s1)) eq_refl). }
  apply (Hc _ _ processed).
  { eapply wp_mono; [apply delayed_close_spec; by apply processed_safe|]. cbv beta. by intros [] s3; [|intros ->]. }
  intros s3 P3. apply (Hg _ _ delivered); [by apply deliver_data_spec|]. intros s4 P4.
  apply (Hg _ _ inv); [by apply deliver_eof_spec|]. intros s5 P5.
  apply wp_bind, wp_on_core, wp_modify. apply (Hc _ _ inv).
  { eapply wp_mono; [apply delayed_close_spec; cbn; by eapply inv_safe|]. cbv beta.
    intros [] s6; [done|intros ->]. by apply inv_set_input. }
  intros s6 P6. apply wp_bind, wp_on_core. eapply wp_mono; [apply quiet_output|]. cbv beta. intros _ c7 Q.
  apply wp_ret, inv_conn. apply inv_api; [done|by apply quiet_api].
Qed.

Lemma done_spec q s : conn_inv s -> wp (input_done q) (fun _ s' => conn_inv s') s.
Proof.
  intros Hc. unfold input_done. apply wp_on_core, wp_bind, wp_modify. set (c1 := _ <| recv_data := None |>).
  assert (C1 : conn_inv (mkTcp c1 (appl s))) by (by eapply conn_same; [|exact Hc]; constructor).
  destruct q; [|by apply wp_ret]. unfold wp, on_low. destruct (chain_free l (low c1)) as [u l1].
  by eapply conn_same; [|exact C1]; constructor.
Qed.

(** Data refused before is offered again. *)
Lemma refused_spec n s : live n s ->
  wp tcp_process_refused_data (fun err s' => if err =? ERR_ABRT then ended s' else inv s' /\ api0 (core s) (core s')) s.
Proof.
  intros Hl. pose proof (slen_nonneg str) as Hs0. pose proof (l_held _ _ _ _ _ Hl) as Hh. pose proof (l_end _ _ _ _ _ Hl) as He.
  pose proof (l_sync _ _ _ _ _ Hl) as Hsy.
  unfold tcp_process_refused_data. apply wp_bind, wp_on_core, wp_gets. rewrite mkTcp_eta. unfold TcpStream.held in Hh.
  destruct (refused_data (rxv (pcb_ (core s)))) as [[p fin]|] eqn:Er; [|apply wp_ret; split; [by right; exists n|done]].
  destruct Hh as (Ef & Hp & m & H1 & H2 & H3 & H4). apply wp_bind, wp_on_core, wp_modify.
  set (e := Z.min n (slen str)) in *. set (c1 := (core s) <| pcb_ := _ |>).
  assert (A1 : api0 (core s) c1) by apply (wp_run _ _ _ _ _ (api0_drop_refused (core s)) eq_refl).
  assert (E1 : refused_data (rxv (pcb_ c1)) = None) by done.
  apply wp_bind. eapply wp_mono; [by apply (law_recv (sub str 0 m) p (mkTcp c1 (appl s)))|]. cbv beta.
  rewrite H3, sub_app by lia. cbn [core appl]. intros err s2 (G1 & G2 & G3 & G4).
  assert (Hsafe : forall k ph a, 0 <= k <= e -> ph <> Finished -> R (sub str 0 k) ph a -> safe a)
    by (intros k ph a Hk Hne HR; exists k, ph; split; [lia|]; by split).
  destruct (Z.eqb_spec err ERR_OK) as [->|No].
  - destruct (G1 ltac:(done)) as [A2 As]. specialize (G2 eq_refl).
    assert (A02 : api0 (core s) (core s2)) by (by etrans).
    assert (Hinv : fin = false -> inv s2).
    { intros ->. destruct (Z.ltb_spec (slen str) n); [done|].
      destruct (As Hsy) as [O|[E2 H8]]; [left; split; [done|by eapply Hsafe; [| |exact G2]; [lia|]]|].
      right. exists n. destruct Hl. constructor; auto.
      - by apply (a_wnd _ _ A02).
      - by apply (a_sync _ _ A02).
      - unfold TcpStream.held. rewrite E2, E1. by destruct (Z.ltb_spec (slen str) n); [lia|]. }
    destruct fin; [|apply wp_ret; cbn; split; auto].
    destruct (Z.ltb_spec (slen str) n) as [Hlt|]; [|done]. assert (n = slen str + 1) by lia. subst n e.
    rewrite Z.min_r in G2 by lia.
    apply wp_bind. apply (wp_mono _ (fun err s' => if err =? ERR_ABRT then ended s' else inv s' /\ api (core s2) (core s'))).
    + apply deliver_fin_spec; try done; [by apply (a_wnd _ _ A02), Hl|by apply (a_sync _ _ A02)|].
      destruct (As Hsy) as [O|[E2 H8]]; [by left|right]. split; [|congruence].
      apply H8. by apply (l_fin _ _ _ _ _ Hl).
    + cbv beta. intros err s3 H. apply wp_ret. destruct (Z.eqb_spec err ERR_ABRT); [done|].
      cbn. destruct H as [V [A3 _]]. split; [done|by etrans].
  - destruct (Z.eqb_spec err ERR_ABRT) as [->|Na].
    { apply wp_ret. cbn. destruct (G3 eq_refl) as [O G]. split; [done|].
      destruct G as [G|G]; (eapply Hsafe; [| |exact G]; [lia|done]). }
    destruct (G1 Na) as [A2 As]. specialize (G4 No Na). apply wp_bind, wp_on_core, wp_modify, wp_ret. cbn [core appl].
    assert (A02 : api0 (core s) (core s2)) by (by etrans).
    split.
    2: { etrans; [exact A02|]. constructor; [apply apiw_intro; auto|done|done]. }
    destruct (As Hsy) as [O|[E2 H8]]; [left; split; [done|by eapply Hsafe; [| |exact G4]; [lia|]]|].
    right. exists n. destruct Hl. constructor; auto.
    + by apply wnd_refused, (a_wnd _ _ A02).
    + by apply (a_sync _ _ A02).
    + unfold TcpStream.held. cbn. split; [done|]. split; [done|]. by exists m.
Qed.

(** ** Segments *)
Lemma ended_quiet {B} (m : M (tcp_core L) B) s : frames quiet m -> ended s ->
  wp (on_core m) (fun _ s' => ended s') s.
Proof.
  intros Hm [H1 H2]. apply wp_on_core. eapply wp_mono; [apply Hm|]. cbv beta. intros _ c' Q.
  split; cbn; [by rewrite (q_list _ _ Q)|done].
Qed.
Lemma conn_quiet {B} (m : M (tcp_core L) B) s : frames quiet m -> conn_inv s ->
  wp (on_core m) (fun _ s' => conn_inv s') s.
Proof.
  intros Hm [H|[n Hl]].
  - eapply wp_mono; [by apply ended_quiet|]. by left.
  - apply wp_on_core. eapply wp_mono; [apply Hm|]. cbv beta. intros _ c' Q.
    apply inv_conn, inv_api; [by right; exists n|by apply quiet_api].
Qed.

Lemma tcplen_nonneg i : 0 <= i_tcplen i.
Proof. unfold i_tcplen. apply u16_range. Qed.

Lemma input_active_spec i s : conn_inv s -> on_list (core s) = PCB_ACTIVE -> peer_segment str irs i ->
  wp (tcp_input_active i) (fun _ s' => conn_inv s') s.
Proof.
  intros Hc Ha Hp. destruct (conn_active s Hc Ha) as [n Hl].
  unfold tcp_input_active. apply wp_bind, wp_on_core, wp_modify. set (s1 := mkTcp _ _).
  assert (L1 : live n s1) by (by eapply live_same; [|exact Hl]; constructor).
  assert (I1 : idle_in (core s1)) by done. clearbody s1. clear s Hc Ha Hl.
  apply wp_bind, wp_on_core, wp_gets. rewrite mkTcp_eta.
  apply wp_bind. apply (wp_mono _ (fun stop (s2 : tcp_sys L A) => if stop : bool then conn_inv s2
    else inv s2 /\ idle_in (core s2) /\ room i (core s2))).
  { destruct (refused_data _) eqn:Er.
    2: { apply wp_ret. split; [by right; exists n|]. split; [done|]. unfold room. by rewrite Er. }
    apply wp_bind. eapply wp_mono; [by apply (refused_spec n)|]. cbv beta. intros err s2 H2.
    apply wp_bind, wp_on_core, wp_gets. rewrite mkTcp_eta. cbn [id].
    destruct (Z.eqb_spec err ERR_ABRT) as [->|Na]; cbn [orb].
    - apply wp_bind. apply (wp_mono _ (fun _ (s3 : tcp_sys L A) => ended s3)); [|intros _ s3 H; apply wp_ret; by left].
      destruct (_ =? 0); [|by apply wp_ret]. apply wp_bind. eapply wp_mono; [by apply ended_quiet; [apply quiet_empty_ack|]|].
      cbv beta. intros _ s3 H. by apply wp_ret.
    - destruct H2 as [V A0]. destruct (negb _ && _) eqn:Es.
      + apply wp_bind. apply (wp_mono _ (fun _ (s3 : tcp_sys L A) => conn_inv s3)); [|intros _ s3 H; by apply wp_ret].
        apply inv_conn in V. destruct (_ =? 0); [|by apply wp_ret]. apply wp_bind.
        eapply wp_mono; [by apply conn_quiet; [apply quiet_empty_ack|]|]. cbv beta. intros _ s3 H. by apply wp_ret.
      + apply wp_ret. split; [done|]. split.
        * destruct I1. split; [by rewrite (a_data _ _ A0)|by rewrite (a_fin _ _ A0)].
        * intros Hne. rewrite bool_decide_false in Es by done. cbn in Es. apply Z.ltb_ge in Es.
          pose proof (tcplen_nonneg i). lia. }
  cbv beta. intros [] s2 H2; [by apply done_spec|]. destruct H2 as (V & I & Hz).
  apply wp_bind, wp_on_core, wp_modify. set (s3 := mkTcp _ _).
  assert (V3 : inv s3) by (by apply inv_set_input).
  apply wp_bind. eapply wp_mono; [by apply (process_spec i s3)|]. cbv beta. intros x s4 H4.
  apply wp_bind. eapply wp_mono; [by apply events_spec|]. cbv beta. intros _ s5 H5. by apply done_spec.
Qed.

Lemma timewait_spec i s : on_list (core s) <> PCB_ACTIVE -> safe (appl s) ->
  wp (tcp_timewait_input i) (fun _ s' => ended s') s.
Proof.
  intros Hl Hs. unfold tcp_timewait_input. apply ended_quiet; [|done].
  solve_frames; by apply quiet_set_pcb.
Qed.

(** A segment that opens a new connection. *)
Definition opens (i : tcp_inseg) c : bool :=
  negb (bool_decide (on_list c = PCB_ACTIVE)) && negb (bool_decide (on_list c = PCB_TW)) &&
  listening c && TCP_SYN (i_hdr i) && negb (TCP_ACK (i_hdr i)) && negb (TCP_RST (i_hdr i)).

Lemma conn_input_spec i s : conn_inv s -> peer_segment str irs i -> opens i (core s) = false ->
  wp (tcp_input i) (fun _ s' => conn_inv s') s.
Proof.
  intros Hc Hp Ho. unfold tcp_input. apply wp_bind, wp_on_core, wp_gets. rewrite mkTcp_eta. cbn [id].
  destruct (bool_decide (on_list (core s) = PCB_ACTIVE)) eqn:Ea.
  { apply bool_decide_eq_true in Ea. rewrite Ea. by apply input_active_spec. }
  assert (He : ended s) by (apply bool_decide_eq_false in Ea; split; [done|by apply conn_safe]).
  assert (Hk : forall (m : MS unit), wp m (fun _ s' => ended s') s ->
    wp (m ;;; on_core (on_low (chain_free (i_p i)))) (fun _ s' => conn_inv s') s).
  { intros m Hm. wp_call Hm as u s1 H1. eapply wp_mono; [by apply ended_quiet; [apply quiet_on_low|]|]. by left. }
  assert (Hq : forall {B} (m : M (tcp_core L) B), frames quiet m -> wp (on_core m) (fun _ s' => ended s') s)
    by (intros; by apply ended_quiet).
  unfold opens in Ho. rewrite Ea in Ho. cbn [negb andb] in Ho.
  assert (Hother : wp ((if bool_decide (on_list (core s) = PCB_TW) then tcp_timewait_input i
          else if listening (core s) then tcp_listen_input i
          else if negb (TCP_RST (i_hdr i))
          then on_core (tcp_rst (i_ackno i) (i_seqno i +% i_tcplen i)) else ret tt)) (fun _ s' => ended s') s).
  { destruct (bool_decide (on_list (core s) = PCB_TW)); [apply timewait_spec; apply He|].
    destruct (listening (core s)).
    - unfold tcp_listen_input. cbn [negb andb] in Ho.
      destruct (TCP_RST (i_hdr i)); [by apply wp_ret|]. destruct (TCP_ACK (i_hdr i)); [apply Hq, quiet_rst|].
      destruct (TCP_SYN (i_hdr i)); [done|by apply wp_ret].
    - destruct (TCP_RST (i_hdr i)); [by apply wp_ret|apply Hq, quiet_rst]. }
  destruct (on_list (core s)); [done|by apply Hk..].
Qed.


(** ** The listening block *)
Lemma eff_mss_range m c : 0 <= m <= 65535 ->
  wp (tcp_eff_send_mss m) (fun r c' => 0 <= r <= 65535 /\ quiet c c') c.
Proof.
  intros Hm. unfold tcp_eff_send_mss. apply wp_bind. eapply wp_mono; [apply quiet_on_low|].
  cbv beta. intros o c' Q. apply wp_ret. split; [|done].
  destruct o as [mtu|]; [|done]. pose proof (u16_range (s16 mtu - IP_HLEN - TCP_HLEN)).
  destruct (negb _); lia.
Qed.

Lemma listen_spec i s : on_list (core s) <> PCB_ACTIVE -> R [] Receiving (appl s) -> irs = i_seqno i ->
  wp (tcp_listen_input i) (fun _ s' => conn_inv s') s.
Proof.
  intros Hl HR Hirs. pose proof (slen_nonneg str) as Hs0.
  assert (Hsafe : safe (appl s)) by (exists 0, Receiving; split; [lia|]; by split).
  assert (He : ended s) by done. assert (Hq : forall {B} (m : M (tcp_core L) B), frames quiet m ->
    wp (on_core m) (fun _ s' => conn_inv s') s).
  { intros B m Hm. eapply wp_mono; [by apply ended_quiet|]. by left. }
  unfold tcp_listen_input. destruct (TCP_RST _); [by apply wp_ret; left|].
  destruct (TCP_ACK _); [apply Hq, quiet_rst|]. destruct (negb _); [by apply wp_ret; left|].
  apply wp_bind, wp_on_core. eapply wp_mono; [apply quiet_on_low|]. cbv beta. intros ok c1 Q1.
  set (s1 := mkTcp c1 (appl s)).
  destruct ok; cbn [negb].
  2: { apply wp_bind. eapply wp_mono; [apply (law_accept false [] Receiving s1 HR)|]. cbv beta.
       intros r s2 [H1 H2]. apply wp_ret. left. destruct (decide (r = ERR_ABRT)) as [->|N].
       - destruct (H2 eq_refl) as [H3 H4]. split; [done|]. exists 0, Failed. split; [lia|]. by split.
       - destruct (H1 N) as [[A0 _] H4]. split; [apply (a_list _ _ A0); cbn; by rewrite (q_list _ _ Q1)|].
         exists 0, Receiving. split; [lia|]. by split. }
  apply wp_bind, wp_on_core. apply (wp_mono _ (fun _ c' => live 0 (mkTcp c' (appl s)))).
  2: { cbv beta. intros rc c2 L2. destruct (negb _).
       - eapply wp_mono; [by apply abandon_ends|]. by left.
       - apply wp_bind. eapply wp_mono; [apply conn_quiet; [apply quiet_output|right; by exists 0]|].
         cbv beta. intros _ s3 H3. by apply wp_ret. }
  assert (Hqk : forall {B C} (m : M (tcp_core L) B) (k : B -> M (tcp_core L) C) c, frames quiet m ->
    live 0 (mkTcp c (appl s)) ->
    (forall b c', live 0 (mkTcp c' (appl s)) -> wp (k b) (fun _ c' => live 0 (mkTcp c' (appl s))) c') ->
    wp (bind m k) (fun _ c' => live 0 (mkTcp c' (appl s))) c).
  { intros B C m k c Hm H1 Hk. wp_call (Hm c) as b c' Q. apply Hk.
    destruct H1 as [G1 G2 G3 G4 G5]. cbn [core appl] in *. constructor; cbn [core appl];
      rewrite ?(q_state _ _ Q); try done; [by apply (q_inv _ _ Q)|].
    unfold TcpStream.held in *. by rewrite (q_refused _ _ Q). }
  apply wp_bind, wp_gets, wp_bind. unfold tcp_next_iss. apply wp_bind, wp_modify, wp_gets.
  apply wp_bind, wp_modify, wp_bind, wp_modify. cbv zeta.
  apply Hqk; [apply quiet_parseopt| |].
  { constructor; cbn; try done; [|lia..|unfold TcpStream.held; cbn; rewrite Z.min_l by lia;
      by destruct (Z.ltb_spec (slen str) 0); [lia|]].
    constructor; cbn; try done.
    - rewrite Hirs. unfold seq_of. f_equal. lia.
    - exists 0. split; [|unfold TCP_WND, TCP_MSS; lia]. rewrite Hirs. unfold seq_of. f_equal. lia. }
  intros _ c2 L2. apply Hqk; [solve_frames|done|]. intros _ c3 L3.
  apply wp_bind, wp_gets, wp_bind. eapply wp_mono; [apply eff_mss_range; apply L3|]. cbv beta.
  intros m c4 [Hm Q4]. apply wp_bind, wp_modify. eapply wp_mono; [apply quiet_enqueue|]. cbv beta.
  intros rc c5 Q5. destruct L3 as [G1 G2 G3 G4 G5]. cbn [core appl] in *.
  pose proof (q_inv _ _ Q4 irs 0 G1) as [K1 K2 K3 K4 K5].
  constructor; cbn [core appl]; rewrite ?(q_state _ _ Q5); cbn; rewrite ?(q_state _ _ Q4); try done.
  - apply (q_inv _ _ Q5). by constructor.
  - unfold TcpStream.held in *. rewrite (q_refused _ _ Q5). cbn. by rewrite (q_refused _ _ Q4).
Qed.

(** ** The timers *)
Definition same_list c c' : Prop := on_list c' = on_list c.
#[local] Instance same_list_preorder : PreOrder same_list.
Proof. split; [by intros c|intros x y z; unfold same_list; congruence]. Qed.
Lemma same_list_quiet {B} (m : M (tcp_core L) B) : frames quiet m -> frames same_list m.
Proof. apply frames_mono. intros c c'. apply q_list. Qed.
#[local] Hint Extern 3 (frames same_list _) => apply same_list_quiet; solve [eauto with frames typeclass_instances] : frames.
#[local] Hint Extern 1 (frames same_list (set_state _)) => (by intros ?; apply wp_modify) : frames.
Lemma same_list_close_fin : frames same_list (tcp_close_shutdown_fin : M (tcp_core L) Z).
Proof. unfold tcp_close_shutdown_fin. solve_frames. Qed.

Lemma fast_flags : frames api (f <- pcb flags ;;
    (if TF_ACK_DELAY f then tcp_ack_now ;;; tcp_output ;;; set_flags acks_sent else ret tt) ;;;
    f <- pcb flags ;;
    if TF_CLOSEPEND f
    then set_flags (fun f => f <| TF_CLOSEPEND := false |>) ;;; tcp_close_shutdown_fin ;;; ret tt
    else ret tt : M (tcp_core L) unit).
Proof. pose proof api_close_fin. solve_frames. Qed.
Lemma fast_list : frames same_list (f <- pcb flags ;;
    (if TF_ACK_DELAY f then tcp_ack_now ;;; tcp_output ;;; set_flags acks_sent else ret tt) ;;;
    f <- pcb flags ;;
    if TF_CLOSEPEND f
    then set_flags (fun f => f <| TF_CLOSEPEND := false |>) ;;; tcp_close_shutdown_fin ;;; ret tt
    else ret tt : M (tcp_core L) unit).
Proof. pose proof same_list_close_fin. solve_frames. Qed.

Lemma fasttmr_spec s : conn_inv s -> wp tcp_fasttmr (fun _ s' => conn_inv s') s.
Proof.
  intros Hc. unfold tcp_fasttmr. apply wp_bind, wp_on_core, wp_gets. rewrite mkTcp_eta. cbn [id].
  case_bool_decide as Ha; [|by apply wp_ret]. destruct (conn_active s Hc Ha) as [n Hl].
  unfold fasttmr_active. apply wp_bind, wp_on_core.
  eapply wp_mono; [apply wp_and; [apply fast_flags|apply fast_list]|]. cbv beta. intros _ c1 [A1 E1].
  assert (V : inv (mkTcp c1 (appl s))) by (apply inv_api; [by right; exists n|done]).
  destruct (live_active _ V) as [n1 L1]; [cbn; by rewrite E1|].
  apply wp_bind, wp_on_core, wp_gets. cbn [core appl]. case_bool_decide; [apply wp_ret; right; by exists n1|].
  apply wp_bind. eapply wp_mono; [by apply (refused_spec n1)|]. cbv beta. intros err s2 H2. apply wp_ret.
  destruct (err =? ERR_ABRT); [by left|apply inv_conn, H2].
Qed.

Lemma quiet_persist : frames quiet (persist_timer : M (tcp_core L) unit).
Proof. unfold persist_timer. solve_frames. Qed.
Lemma quiet_retransmit : frames quiet (retransmit_timer : M (tcp_core L) unit).
Proof. unfold retransmit_timer. solve_frames. Qed.

(** Purging and freeing the block. *)
Lemma purge_ends s : safe (appl s) ->
  wp (on_core (tcp_pcb_purge ;;; memp_free_pcb)) (fun _ s' => ended s') s.
Proof.
  intros Hs. apply wp_on_core, wp_bind. eapply wp_mono; [apply (api0_purge (core s))|].
  cbv beta. intros _ c1 _. apply wp_bind. unfold wp at 1, on_low.
  destruct (pcb_memp_free (low c1)) as [u l]. apply wp_modify. by split.
Qed.

Lemma slowtmr_spec s : conn_inv s -> wp tcp_slowtmr (fun _ s' => conn_inv s') s.
Proof.
  intros Hc. unfold tcp_slowtmr. apply wp_bind, wp_on_core, wp_modify. set (s1 := mkTcp _ _).
  assert (C1 : conn_inv s1) by (by eapply conn_same; [|exact Hc]; constructor). clearbody s1. clear s Hc.
  apply wp_bind, wp_on_core, wp_gets. rewrite mkTcp_eta. cbn [id].
  destruct (on_list (core s1)) eqn:El; try (by apply wp_ret).
  - unfold slowtmr_active. apply wp_bind, wp_on_core, wp_gets. rewrite mkTcp_eta. cbv zeta. cbn [id].
    set (oor := _ || _). clearbody oor. apply wp_bind. apply (wp_mono _ (fun _ (s2 : tcp_sys L A) => conn_inv s2)).
    { destruct oor; [by apply wp_ret|].
      destruct (0 <? _); apply conn_quiet; auto using quiet_persist, quiet_retransmit. }
    cbv beta. intros _ s2 C2. apply wp_bind, wp_on_core, wp_gets. rewrite mkTcp_eta. cbn [id].
    destruct (_ || _).
    + apply wp_bind. eapply wp_mono; [apply purge_ends; by apply conn_safe|]. cbv beta. intros _ s3 [H1 H2].
      eapply wp_mono; [by apply (safe_err R str)|]. cbv beta. intros _ s4 [E4 H4]. left. by rewrite E4.
    + apply wp_bind. eapply wp_mono; [apply conn_quiet; [|done]|cbv beta; intros _ s3 H3; by apply wp_ret].
      solve_frames; by apply quiet_set_pcb.
  - destruct (_ <? _); [|by apply wp_ret]. eapply wp_mono; [apply purge_ends; by apply conn_safe|]. by left.
Qed.

(** A call of the application between two events. *)
Lemma conn_keeps {B} ab (m : MS B) s : keeps_app R ab m -> (forall r, Decision (ab r)) -> conn_inv s ->
  wp m (fun _ s' => conn_inv s') s.
Proof.
  intros Hm Hd [[Hl (k & ph & H1 & H2 & H3)]|[n Hl]].
  - eapply wp_mono; [apply (Hm _ _ s H3)|]. cbv beta. intros r s' [K1 K2]. left. destruct (decide (ab r)) as [Hr|Hr].
    + destruct (K2 Hr) as [K3 K4]. split; [done|]. exists k, (failed ph). split; [done|]. split; [|done].
      unfold failed. case_bool_decide; [auto|done].
    + destruct (K1 Hr) as [[A0 _] K3]. split; [by apply (a_list _ _ A0)|]. by exists k, ph.
  - eapply wp_mono; [apply (inv_keeps R str irs ab m s Hm); right; by exists n|]. cbv beta. intros r s' [K1 K2].
    destruct (decide (ab r)) as [Hr|Hr]; [left; by apply K2|apply inv_conn, K1, Hr].
Qed.

(** ** Everything that can happen to a connection

    Segments of the peer in any order and number, the two timers, and calls of the
    application that respect the interface. *)
Inductive conn_step : relation (tcp_sys L A) :=
| step_segment i s : peer_segment str irs i -> opens i (core s) = false -> conn_step s (tcp_input i s).2
| step_fasttmr s : conn_step s (tcp_fasttmr s).2
| step_slowtmr s : conn_step s (tcp_slowtmr s).2
| step_call (B : Type) (ab : B -> bool) (m : MS B) s : keeps_app R (fun r => ab r = true) m -> conn_step s (m s).2.

Lemma step_inv s s' : conn_step s s' -> conn_inv s -> conn_inv s'.
Proof.
  intros H Hc. assert (Hrun : forall {B} (m : MS B) s, wp m (fun _ s' => conn_inv s') s -> conn_inv (m s).2).
  { intros B m s0 Hw. unfold wp in Hw. by destruct (m s0). }
  destruct H; apply Hrun; [by apply conn_input_spec|by apply fasttmr_spec|by apply slowtmr_spec|].
  eapply conn_keeps; [done|intros r; apply _|done].
Qed.

Lemma steps_inv s s' : rtc conn_step s s' -> conn_inv s -> conn_inv s'.
Proof. induction 1; eauto using step_inv. Qed.

Lemma opened_inv i s : opens i (core s) = true -> R [] Receiving (appl s) -> irs = i_seqno i ->
  conn_inv (tcp_input i s).2.
Proof.
  intros Ho HR Hirs. unfold opens in Ho. repeat (apply andb_true_iff in Ho as [Ho ?]).
  assert (Hl : on_list (core s) <> PCB_ACTIVE) by (intros E; by rewrite E in Ho).
  assert (Hw : wp (tcp_input i) (fun _ s' => conn_inv s') s).
  { unfold tcp_input. apply wp_bind, wp_on_core, wp_gets. rewrite mkTcp_eta. cbn [id].
    assert (Hlis : listening (core s) = true) by done.
    assert (Ht : on_list (core s) <> PCB_TW) by (intros E; by rewrite E in *).
    destruct (on_list (core s)) eqn:E; try done; rewrite bool_decide_false, Hlis by done.
    all: apply wp_bind; eapply wp_mono; [apply listen_spec; by rewrite ?E|]; cbv beta; intros _ s1 H5.
    all: apply conn_quiet; [apply quiet_on_low|done]. }
  unfold wp in Hw. by destruct (tcp_input i s).
Qed.
End Conn.

(** C4. In every state that segments of the peer's stream (in any order, any number of
    times), timers and calls of the application reach from a listening port, an
    application that keeps the laws of TcpAppLaws has received exactly a prefix of the
    stream in order and has seen the end of the stream only after all of it. *)
Theorem tcp_stream_safe {L A} `{!TcpLower L} `{!TcpApp L A} R `{!TcpAppLaws L A R} str syn (s s' : tcp_sys L A) :
  slen str < MAXPOS -> opens syn (core s) = true -> R [] Receiving (appl s) ->
  rtc (conn_step R str (i_seqno syn)) (tcp_input syn s).2 s' ->
  exists m ph, 0 <= m <= slen str /\ (ph = Finished -> m = slen str) /\
    R (take (Z.to_nat m) str) ph (appl s').
Proof.
  intros Hstr Ho HR Hs. pose proof (steps_inv R str (i_seqno syn) Hstr _ _ Hs) as H.
  destruct (conn_safe R str (i_seqno syn) s') as (m & ph & H1 & H2 & H3).
  - by apply H, opened_inv.
  - exists m, ph. by rewrite <- sub_0.
Qed.

Lemma sim_segment i pos : seg_of [10; 20; 30] 4294967295 i pos ->
  peer_segment [10; 20; 30] 4294967295 i.
Proof. intros H. do 3 right. by exists pos. Qed.

Lemma tcp_stream_safe_witness :
  let s := run_segs [seg_syn; seg_ack; seg_tail; seg_head; seg_head; seg_all] idle_sys in
  exists m ph, 0 <= m <= 3 /\ (ph = Finished -> m = 3) /\
    appl s = mkSink (take (Z.to_nat m) [10; 20; 30]) ph.
Proof.
  destruct sim_segments as (S1 & S2 & S3 & S4). unfold run_segs. cbn [fold_left]. cbv zeta.
  apply (tcp_stream_safe sink_holds [10; 20; 30] seg_syn idle_sys).
  - reflexivity.
  - reflexivity.
  - reflexivity.
  - assert (Hs : forall i pos s1 s2, seg_of [10; 20; 30] 4294967295 i pos -> opens i (core s1) = false ->
      rtc (conn_step sink_holds [10; 20; 30] 4294967295) (tcp_input i s1).2 s2 ->
      rtc (conn_step sink_holds [10; 20; 30] 4294967295) s1 s2).
    { intros i pos s1 s2 H1 H2 H3. eapply rtc_l; [|exact H3]. apply step_segment; [by eapply sim_segment|done]. }
    apply (Hs _ _ _ _ S1); [vm_compute; reflexivity|]. apply (Hs _ _ _ _ S2); [vm_compute; reflexivity|].
    apply (Hs _ _ _ _ S3); [vm_compute; reflexivity|]. apply (Hs _ _ _ _ S3); [vm_compute; reflexivity|].
    apply (Hs _ _ _ _ S4); [vm_compute; reflexivity|]. apply rtc_refl.
Defined.
