(* ===== verification/TcpFlow.v ===== *)
(** * TCP transmission: every step of a connection keeps the stream

    The application notes what it has written ([TcpWriter]); its callbacks and everything
    that happens to the connection keep the invariant of TcpTx.v.  Then two connections: what
    the application at one end was given is a prefix of what the one at the other end
    wrote. *)
From stdpp Require Import relations.
From S2P Require Import Prelude Net Tcp TcpIn TcpRcv TcpStream SimTcp TcpConn TcpSend TcpWrite TcpTx.

(** The bytes written so far; [None] after a write or a close while a fast retransmission
    waited to be sent ([write_ready], [close_ready] of TcpTx.v). *)
Class TcpWriter (A : Type) := written_by : A -> option (list Z).

(** ** [tcp_output] keeps the tail of the queue

    It takes segments from the head: what is ready to be closed stays so. *)
Section Tail.
Context {L : Type} `{!TcpLower L}.
#[local] Abbreviation MC := (M (tcp_core L)).
Implicit Types (c : tcp_core L).

Record same_tx c c' : Prop := {
  st_tx : txv (pcb_ c') = txv (pcb_ c);
  st_state : state (pcb_ c') = state (pcb_ c);
  st_fin : fin_queued c' = fin_queued c;
  st_pend : TF_CLOSEPEND (flags (pcb_ c')) = TF_CLOSEPEND (flags (pcb_ c))
}.
#[export] Instance same_tx_preorder : PreOrder same_tx.
Proof. split; [by intros c|]. intros a b d [] []. constructor; congruence. Qed.
Record tail_kept c c' : Prop := {
  tk_state : state (pcb_ c') = state (pcb_ c);
  tk_fin : fin_queued c' = fin_queued c;
  tk_pend : TF_CLOSEPEND (flags (pcb_ c')) = TF_CLOSEPEND (flags (pcb_ c));
  tk_tail : tail_ok c = true -> tail_ok c' = true
}.
#[export] Instance tail_kept_preorder : PreOrder tail_kept.
Proof. split; [by intros c|]. intros a b d [] []. constructor; auto; congruence. Qed.
Lemma same_kept c c' : same_tx c c' -> tail_kept c c'.
Proof. intros [E1 E2 E3 E4]. constructor; try done. unfold tail_ok. by rewrite E1. Qed.
Lemma kept_ready c c' : tail_kept c c' -> close_ready c = true -> close_ready c' = true.
Proof.
  intros [E1 E2 E3 E4]. unfold close_ready, fin_ready. rewrite E1, E2.
  destruct (state (pcb_ c)), (tail_ok c), (fin_queued c); cbn; auto; done.
Qed.

Lemma same_low {B} (m : M L B) : frames same_tx (on_low m).
Proof. intros c. unfold wp, on_low. by destruct (m (low c)). Qed.
Lemma same_set_pcb f : (forall p, txv (f p) = txv p /\ state (f p) = state p /\ TF_FIN (flags (f p)) = TF_FIN (flags p) /\
  TF_CLOSEPEND (flags (f p)) = TF_CLOSEPEND (flags p)) -> frames same_tx (set_pcb f : MC unit).
Proof. intros H c. apply wp_modify. destruct (H (pcb_ c)) as (?&?&?&?). by constructor. Qed.
Lemma same_set_flags f : (forall x, TF_FIN (f x) = TF_FIN x /\ TF_CLOSEPEND (f x) = TF_CLOSEPEND x) ->
  frames same_tx (set_flags f : MC unit).
Proof. intros H. apply same_set_pcb. intros p. split_and!; try done; apply (H (flags p)). Qed.
Lemma same_set_cc f : frames same_tx (set_cc f : MC unit).
Proof. by apply same_set_pcb. Qed.
Lemma same_set_rx f : frames same_tx (set_rx f : MC unit).
Proof. by apply same_set_pcb. Qed.
#[local] Hint Resolve same_low same_set_cc same_set_rx : frames.
#[local] Hint Extern 2 (frames same_tx (set_flags _)) => (apply same_set_flags; intros ?; repeat case_match; done) : frames.
Lemma same_empty_ack : frames same_tx (tcp_send_empty_ack : MC Z).
Proof.
  unfold tcp_send_empty_ack, tcp_output_alloc_header, send_header, announce_window. solve_frames.
Qed.
Lemma same_segment seg : frames same_tx (tcp_output_segment seg : MC Z).
Proof. unfold tcp_output_segment, tcp_eff_send_mss, announce_window. solve_frames. Qed.

Lemma kept_same {B} (m : MC B) : frames same_tx m -> frames tail_kept m.
Proof. apply frames_mono, same_kept. Qed.
#[local] Hint Extern 3 (frames tail_kept _) => apply kept_same; solve [eauto with frames typeclass_instances] : frames.
Lemma kept_set_tx f : (forall t, snd_lbb (f t) = snd_lbb t /\ unsent (f t) = unsent t) -> frames tail_kept (set_tx f : MC unit).
Proof. intros H c. apply wp_modify. constructor; try done. unfold tail_ok. cbn. by destruct (H (txv (pcb_ c))) as [-> ->]. Qed.
#[local] Hint Extern 2 (frames tail_kept (set_tx _)) => (apply kept_set_tx; intros ?; repeat case_match; done) : frames.

(** The queue without its head. *)
Lemma kept_queue (f : snd_vars -> snd_vars) c q q' : unsent (txv (pcb_ c)) = q ->
  (forall t, unsent t = q -> unsent (f t) = q' /\ snd_lbb (f t) = snd_lbb t) ->
  (q' = [] \/ exists s s', last q = Some s /\ last q' = Some s' /\ seg_seqno s' = seg_seqno s /\ seg_tcplen s' = seg_tcplen s) ->
  wp (set_tx f : MC unit) (fun _ c' => tail_kept c c' /\ unsent (txv (pcb_ c')) = q') c.
Proof.
  intros E Hf Hq. apply wp_modify. destruct (Hf _ E) as [F1 F2]. split; [|done].
  constructor; try done. unfold tail_ok. cbn. rewrite F1, F2, E.
  destruct Hq as [->|(s & s' & E1 & E2 & E3 & E4)]; [done|]. by rewrite E1, E2, E3, E4.
Qed.

Lemma last_same {T} (x : T) l : l <> [] -> last (x :: l) = last l.
Proof. by destruct l. Qed.
Lemma kept_loop fuel wnd : frames tail_kept (tcp_output_loop fuel wnd : MC _).
Proof.
  induction fuel as [|fuel IH]; intros c; cbn [tcp_output_loop]; [by apply wp_ret|].
  apply wp_bind, wp_gets. cbn [id]. destruct (unsent (txv (pcb_ c))) as [|seg rest] eqn:E; [by apply wp_ret|].
  destruct (negb _); [by apply wp_ret|]. destruct (_ && negb _); [by apply wp_ret|].
  set (seg' := if bool_decide (state (pcb_ c) = SYN_SENT) then seg else _). cbv zeta.
  assert (Hk : seg_seqno seg' = seg_seqno seg /\ seg_tcplen seg' = seg_tcplen seg) by (subst seg'; case_match; done).
  clearbody seg'. wp_call (kept_queue (fun t => t <| unsent := seg' :: rest |>) c (seg :: rest) (seg' :: rest) E) as u c1 K1.
  { done. }
  { right. destruct rest as [|y l] eqn:R; [by exists seg, seg'|]. destruct (last (y :: l)) as [z|] eqn:Ez;
      [exists z, z|by apply last_None in Ez]. rewrite !(last_same _ (y :: l)) by done. done. }
  destruct K1 as [K1 E1]. wp_call (same_segment seg' c1) as err c2 S2. destruct (negb (err =? ERR_OK)).
  { wp_call (same_set_flags (fun f => f <| TF_NAGLEMEMERR := true |>) ltac:(done) c2) as u2 c3 S3. apply wp_ret.
    etrans; [exact K1|]. apply same_kept. by etrans. }
  wp_call (kept_queue (fun t => t <| unsent := rest |>) c2 (seg' :: rest) rest) as u3 c3 K3.
  { by rewrite (st_tx _ _ S2). }
  { done. }
  { destruct rest as [|y l] eqn:R; [by left|right]. destruct (last (y :: l)) as [z|] eqn:Ez;
      [exists z, z|by apply last_None in Ez]. rewrite !(last_same _ (y :: l)) by done. done. }
  destruct K3 as [K3 _]. assert (Kc : tail_kept c c3) by exact (transitivity K1 (transitivity (same_kept _ _ S2) K3)).
  assert (F : frames tail_kept ((if bool_decide (state (pcb_ c) = SYN_SENT) then ret tt else set_flags acks_sent) ;;;
    (let nxt := seg_seqno seg' +% seg_tcplen seg' in
     set_tx (fun t => if TCP_SEQ_LT (snd_nxt t) nxt then t <| snd_nxt := nxt |> else t) ;;;
     (if 0 <? seg_tcplen seg' then set_tx (fun t => t <| unacked := enqueue_unacked seg' (unacked t) |>)
      else on_low (tcp_seg_free seg')) ;;;
     tcp_output_loop fuel wnd) : MC _)).
  { solve_frames. }
  eapply wp_mono; [apply F|]. cbv beta. intros _ c4 K4. by etrans.
Qed.
#[local] Hint Resolve kept_loop same_empty_ack : frames.
Lemma kept_output : frames tail_kept (tcp_output : MC Z).
Proof. unfold tcp_output. solve_frames. Qed.
#[local] Hint Resolve kept_output : frames.
Lemma kept_delayed_ack : frames tail_kept (tcp_ack_now ;;; tcp_output ;;; set_flags acks_sent : MC unit).
Proof. unfold tcp_ack_now. solve_frames. Qed.
End Tail.

Section Inv.
Context {L A : Type} `{!TcpLower L} `{!TcpApp L A} `{!TcpWires L} `{!TcpWriter A}.
Context (irs : Z) (sent0 : list tcp_wire).
Implicit Types (s : tcp_sys L A).

Definition flow_inv s : Prop :=
  match written_by (appl s) with
  | Some str => slen str < MAXPOS -> tx_ok str irs sent0 (core s)
  | None => True
  end.
Definition flows s s' : Prop := flow_inv s -> flow_inv s'.
#[export] Instance flows_preorder : PreOrder flows.
Proof. split; [by intros s H|intros a b d; unfold flows; auto]. Qed.
End Inv.

(** What the callbacks may do: everything that keeps the invariant of the stream, for
    instance calls of [tcp_write] whose data is noted ([write_flows]). *)
Class TcpWriterLaws (L A : Type) `{!TcpLower L} `{!TcpApp L A} `{!TcpWires L} `{!TcpWriter A} : Prop := {
  wr_recv irs sent0 p : frames (flows irs sent0) (cb_recv (A := A) p);
  wr_sent irs sent0 n : frames (flows irs sent0) (cb_sent (A := A) n);
  wr_connected irs sent0 e : frames (flows irs sent0) (cb_connected (A := A) e);
  wr_accept irs sent0 b : frames (flows irs sent0) (cb_accept (A := A) b);
  wr_err irs sent0 e : frames (flows irs sent0) (cb_err (A := A) e)
}.

Section Flow.
Context {L A : Type} `{!TcpLower L} `{!TcpApp L A} `{!TcpWires L} {WL : TcpWireLaws} `{!TcpWriter A}.
Context {RL : TcpWriterLaws L A} (irs : Z) (sent0 : list tcp_wire).
#[local] Abbreviation MS := (M (tcp_sys L A)).
#[local] Abbreviation MC := (M (tcp_core L)).
Implicit Types (s : tcp_sys L A) (c : tcp_core L).
#[local] Abbreviation flows := (flows irs sent0).
#[local] Abbreviation flow_inv := (flow_inv irs sent0).
#[local] Hint Resolve wr_recv wr_sent wr_connected wr_accept wr_err : frames.

Lemma flows_core {B} (m : MC B) : (forall str, slen str < MAXPOS -> frames (keeps_tx str irs sent0) m) ->
  frames flows (on_core m).
Proof.
  intros H s. apply wp_on_core, wp_intro. intros b c' E. unfold flows, flow_inv. cbn [core appl].
  destruct (written_by (appl s)) as [str|]; [|done]. intros Hi Hl.
  exact (wp_run _ _ _ _ _ (H str Hl (core s)) E (Hi Hl)).
Qed.
#[local] Hint Extern 2 (frames flows (on_core _)) =>
  (apply flows_core; let str := fresh "str" in let Hl := fresh in intros str Hl; solve [solve_frames]) : frames.
#[local] Hint Extern 2 (frames flows (in_flag _)) => (unfold in_flag) : frames.
#[local] Hint Extern 2 (frames flows (set_in_flags _)) => (unfold set_in_flags) : frames.

Lemma flows_abandon b : frames flows (tcp_abandon b : MS unit).
Proof. unfold tcp_abandon. solve_frames. Qed.
#[local] Hint Resolve flows_abandon : frames.

Lemma flows_rst i : frames flows (process_rst i : MS Z).
Proof. unfold process_rst, tcp_ack_now. solve_frames. Qed.

(** ** The segment size *)
Lemma keeps_mss str (f : Z -> cong_vars -> cong_vars) {B} (k : MC B) : (forall m x, mss (f m x) = m) ->
  frames (keeps_tx str irs sent0) k ->
  frames (keeps_tx str irs sent0) (m <- cc mss ;; m <- tcp_eff_send_mss m ;; set_cc (f m) ;;; k : MC B).
Proof.
  intros Hf Hk c. apply wp_bind, wp_gets, wp_bind.
  apply (wp_mono _ (fun m c1 => sends str irs c c1 /\ (0 <= mss (cgv (pcb_ c)) <= TCP_MSS -> 0 <= m <= TCP_MSS))).
  - unfold tcp_eff_send_mss. wp_call (sends_low str irs _ wl_route c) as o c1 S1. apply wp_ret. split; [done|].
    destruct o as [mtu|]; [|done]. pose proof (u16_range (s16 mtu - Ip4Addr.IP_HLEN - TCP_HLEN)). case_match; lia.
  - cbv beta. intros m c1 [S1 Hm]. apply wp_bind, wp_modify. eapply wp_mono; [apply Hk|]. cbv beta. intros b c2 K Hc.
    apply K. pose proof (sends_ok _ _ _ _ _ S1 Hc) as [H1 H2 H3]. constructor; try done. cbn. rewrite Hf. apply Hm, Hc.
Qed.

Lemma keeps_parseopt str i : frames (keeps_tx str irs sent0) (tcp_parseopt i : MC unit).
Proof.
  intros c. apply wp_modify. intros [H1 H2 H3]. constructor; try done. by apply (parseopt_range TCP_MSS).
Qed.
#[local] Hint Resolve keeps_parseopt : frames.

(** The SYN leaves the queue. *)
Lemma keeps_syn_acked str {B} (k : MC B) : frames (keeps_tx str irs sent0) k -> frames (keeps_tx str irs sent0)
  (t <- tx id ;;
   (match unacked t, unsent t with
    | rseg :: rest, _ => set_tx (fun t => t <| unacked := rest |>) ;;; on_low (tcp_seg_free rseg)
    | [], rseg :: rest => set_tx (fun t => t <| unsent := rest |>) ;;; on_low (tcp_seg_free rseg)
    | [], [] => ret tt
    end) ;;; k : MC B).
Proof.
  intros Hk c. apply wp_bind, wp_gets. cbn [id]. apply wp_bind.
  apply (wp_mono _ (fun _ c1 => keeps_tx str irs sent0 c c1)); [|intros u c1 H1; eapply wp_mono; [apply Hk|];
    cbv beta; intros b c2 H2; by etrans].
  assert (Hset : forall f (s0 : tcp_seg), (forall x, x ∈ queued (f (txv (pcb_ c))) -> x ∈ queued (txv (pcb_ c))) ->
    (forall t, snd_lbb (f t) = snd_lbb t /\ snd_queuelen (f t) = snd_queuelen t /\ snd_buf (f t) = snd_buf t) ->
    wp (set_tx f ;;; on_low (tcp_seg_free s0) : MC unit) (fun _ c1 => keeps_tx str irs sent0 c c1) c).
  { intros f s0 Hq Hf. apply wp_bind, wp_modify. eapply wp_mono; [apply (sends_low str irs), wl_seg_free|].
    cbv beta. intros _ c1 S1 Hc. eapply sends_ok; [exact S1|]. apply (tx_ok_set str irs sent0 f); [done|].
    intros fin H. destruct (Hf (txv (pcb_ c))) as (F1 & F2 & F3). eapply snd_ok_queue; [exact H| |done|].
    - by apply from_subset.
    - rewrite F2, F3. apply H. }
  destruct (unacked (txv (pcb_ c))) as [|x l] eqn:E1, (unsent (txv (pcb_ c))) as [|y l2] eqn:E2;
    [by apply wp_ret|apply Hset..]; try done; unfold queued; cbn; rewrite E1, ?E2; intros z;
    rewrite ?app_nil_l, ?elem_of_app, ?elem_of_cons; tauto.
Qed.

(** ** The state machine *)
Lemma flows_syn_sent i : frames flows (SYN_SENT_input i : MS Z).
Proof.
  unfold SYN_SENT_input. apply frames_bind; [apply _|solve_frames|]. intros p. destruct (_ && _ && _).
  - apply frames_bind; [apply _| |intros _; unfold tcp_ack_now; solve_frames].
    apply flows_core. intros str Hl.
    do 3 (apply frames_bind; [apply _|solve_frames|intros _]).
    apply (keeps_mss str (fun m x => x <| mss := m |> <| cwnd := u16 (LWIP_TCP_CALC_INITIAL_CWND m) |>)); [done|].
    apply frames_bind; [apply _|solve_frames|intros _]. apply keeps_syn_acked. solve_frames.
  - solve_frames.
Qed.
Lemma flows_syn_rcvd i : frames flows (SYN_RCVD_input i : MS _).
Proof. unfold SYN_RCVD_input, tcp_abort, tcp_ack_now. solve_frames. Qed.
Lemma flows_synchronized i st : frames flows (synchronized_input i st : MS _).
Proof. unfold synchronized_input, all_acked, tcp_ack_now. solve_frames. Qed.
#[local] Hint Resolve flows_rst flows_syn_sent flows_syn_rcvd flows_synchronized : frames.
Lemma flows_process i : frames flows (tcp_process i : MS _).
Proof. unfold tcp_process, tcp_ack_now. solve_frames. Qed.

(** ** Delivery *)
Lemma flows_deliver_fin : frames flows (deliver_fin : MS Z).
Proof. unfold deliver_fin. solve_frames. Qed.
#[local] Hint Resolve flows_process flows_deliver_fin : frames.
Lemma flows_refused : frames flows (tcp_process_refused_data : MS Z).
Proof. unfold tcp_process_refused_data. solve_frames. Qed.
Lemma flows_delayed : frames flows (tcp_input_delayed_close : MS bool).
Proof. unfold tcp_input_delayed_close. solve_frames. Qed.
Lemma flows_deliver_data : frames flows (deliver_data : MS bool).
Proof. unfold deliver_data, tcp_abort. solve_frames. Qed.
Lemma flows_deliver_eof : frames flows (deliver_eof : MS bool).
Proof. unfold deliver_eof. solve_frames. Qed.
#[local] Hint Resolve flows_refused flows_delayed flows_deliver_data flows_deliver_eof : frames.
Lemma flows_events e : frames flows (input_events e : MS unit).
Proof. unfold input_events. solve_frames. Qed.
Lemma flows_done q : frames flows (input_done q : MS unit).
Proof. unfold input_done. solve_frames. Qed.
#[local] Hint Resolve flows_events flows_done : frames.
Lemma flows_active i : frames flows (tcp_input_active i : MS unit).
Proof. unfold tcp_input_active. solve_frames. Qed.
Lemma flows_timewait i : frames flows (tcp_timewait_input i : MS unit).
Proof. unfold tcp_timewait_input, tcp_ack_now. solve_frames. Qed.
#[local] Hint Resolve flows_active flows_timewait : frames.

(** A segment that does not open a new connection. *)
Lemma flows_input i s : opens i (core s) = false -> wp (tcp_input i : MS unit) (fun _ s' => flows s s') s.
Proof.
  intros Ho. unfold tcp_input. apply wp_bind, wp_on_core, wp_gets. rewrite mkTcp_eta. cbn [id].
  destruct (bool_decide (on_list (core s) = PCB_ACTIVE)) eqn:Ea.
  { apply bool_decide_eq_true in Ea. rewrite Ea. apply flows_active. }
  unfold opens in Ho. rewrite Ea in Ho. cbn [negb andb] in Ho.
  assert (F : frames flows ((if bool_decide (on_list (core s) = PCB_TW) then tcp_timewait_input i
         else if listening (core s) then tcp_listen_input i
         else if negb (TCP_RST (i_hdr i)) then on_core (tcp_rst (i_ackno i) (i_seqno i +% i_tcplen i)) else ret tt) ;;;
        on_core (on_low (chain_free (i_p i))) : MS unit)).
  { destruct (bool_decide (on_list (core s) = PCB_TW)); [solve_frames|]. cbn [negb andb] in Ho.
    destruct (listening (core s)); [|solve_frames]. unfold tcp_listen_input. cbn [andb] in Ho.
    destruct (TCP_RST (i_hdr i)); [solve_frames|]. destruct (TCP_ACK (i_hdr i)); [solve_frames|].
    destruct (TCP_SYN (i_hdr i)); [done|cbn [negb]; solve_frames]. }
  destruct (on_list (core s)); [done|apply F..].
Qed.

(** A delayed close must find the queue ready. *)
Definition closable c : Prop := TF_CLOSEPEND (flags (pcb_ c)) = true -> close_ready c = true.

Lemma flows_fasttmr s : closable (core s) -> wp (tcp_fasttmr : MS unit) (fun _ s' => flows s s') s.
Proof.
  intros Hc. unfold tcp_fasttmr. apply wp_bind, wp_on_core, wp_gets. rewrite mkTcp_eta. cbn [id].
  case_bool_decide as Ha; [|by apply wp_ret]. unfold fasttmr_active. apply wp_bind, wp_on_core.
  apply (wp_mono _ (fun _ c' => flows s (mkTcp c' (appl s)))).
  2: { cbv beta. intros _ c' H1. assert (F : frames flows (r <- on_core (rx refused_data) ;;
         if bool_decide (r = None) then ret tt else tcp_process_refused_data ;;; ret tt : MS unit)) by solve_frames.
       eapply wp_mono; [apply F|]. cbv beta. intros _ s2 H2. by etrans. }
  unfold TcpFlow.flows, TcpFlow.flow_inv. cbn [core appl].
  destruct (written_by (appl s)) as [str|]; [|by apply wp_intro].
  apply wp_bind, wp_gets. apply wp_bind.
  apply (wp_mono _ (fun _ c1 => keeps_tx str irs sent0 (core s) c1 /\ tail_kept (core s) c1)).
  { apply wp_and; destruct (TF_ACK_DELAY _); try (by apply wp_ret).
    - assert (F : frames (keeps_tx str irs sent0) (tcp_ack_now ;;; tcp_output ;;; set_flags acks_sent : MC unit))
        by (unfold tcp_ack_now; solve_frames). apply F.
    - apply kept_delayed_ack. }
  cbv beta. intros _ c1 [K1 T1]. apply wp_bind, wp_gets. destruct (TF_CLOSEPEND (flags (pcb_ c1))) eqn:Ep.
  2: { apply wp_ret. intros H Hl. apply K1, H, Hl. }
  rewrite (tk_pend _ _ T1) in Ep. apply Hc, (kept_ready _ _ T1) in Ep. apply wp_bind, wp_modify.
  set (c2 := c1 <| pcb_ := _ |>). apply wp_intro. intros b c3 E3 H Hl.
  assert (S2 : sends str irs c1 c2) by (constructor; try done; exists []; by rewrite app_nil_r).
  assert (H2 : tx_ok str irs sent0 c2) by (eapply sends_ok; [exact S2|]; apply K1, H, Hl).
  assert (Hw : wp (tcp_close_shutdown_fin ;;; ret tt : MC unit) (fun _ c' => tx_ok str irs sent0 c') c2).
  { wp_call (close_fin_ok str irs sent0 Hl c2 H2 Ep) as e c4 H4. by apply wp_ret. }
  exact (wp_run _ _ _ _ _ Hw E3).
Qed.

Lemma flows_slowtmr : frames flows (tcp_slowtmr : MS unit).
Proof. unfold tcp_slowtmr, slowtmr_active. solve_frames. Qed.

(** ** Everything that can happen

    Any segment, the timers, and calls of the application that keep the invariant.  The code
    also allows a write, a close or a delayed close while a fast retransmission waits at the end
    of the queue; it then gives the bytes wrong positions ([write_after_rexmit]).  After such a
    call [written_by] is [None], and such a timer is no step. *)
Inductive flow_step : relation (tcp_sys L A) :=
| flow_segment i s : opens i (core s) = false -> flow_step s (tcp_input i s).2
| flow_fasttmr s : closable (core s) -> flow_step s (tcp_fasttmr s).2
| flow_slowtmr s : flow_step s (tcp_slowtmr s).2
| flow_call (B : Type) (m : MS B) s :
    (forall irs sent0, frames (TcpFlow.flows irs sent0) m) -> flow_step s (m s).2.

Lemma flow_step_inv s s' : flow_step s s' -> flows s s'.
Proof.
  assert (Hrun : forall {B} (m : MS B) s, wp m (fun _ s' => flows s s') s -> flows s (m s).2).
  { intros B m s0 Hw. unfold wp in Hw. by destruct (m s0). }
  destruct 1 as [i s H|s H|s|B m s H]; apply Hrun; [by apply flows_input|by apply flows_fasttmr|apply flows_slowtmr|apply H].
Qed.
Lemma flow_steps_inv s s' : rtc flow_step s s' -> flows s s'.
Proof. induction 1; [done|]. etrans; [by apply flow_step_inv|done]. Qed.
End Flow.
