(* ===== verification/TcpPair.v ===== *)
(** * Two TCP connections, end to end

    A client that opened the connection with [tcp_connect] and a server listening for it, each
    with its own application and layer below, and between them a network that may lose, delay,
    repeat and reorder the segments and cut them into pbufs.  The client may receive any
    segments at all; its application writes and closes when the end of its queue is the end of
    the stream, see TcpFlow. *)
From stdpp Require Import relations.
From S2P Require Import Prelude Net Tcp TcpIn TcpRcv TcpStream SimTcp TcpConn TcpSend TcpWrite TcpTx TcpHdr TcpPort TcpConnect TcpFlow.

Lemma arrives_len w i : arrives w i -> tot_len (i_p i) = slen (w_data w).
Proof. intros H. unfold slen, tot_len. by rewrite (ar_data _ _ H). Qed.
Lemma arrives_peer str irs w i : wire_ok str irs w -> arrives w i -> peer_segment str irs i.
Proof.
  intros Hw Ha. pose proof (arrives_len w i Ha) as Hl. destruct Ha as [A1 A2 A3 A4 A5 A6].
  unfold peer_segment. rewrite A1, A2, Hl.
  destruct Hw as [H|[(H1 & H2 & H3 & H4)|[(H1 & H2 & H3)|(pos & H1 & H2 & H3 & H4 & H5 & H6 & H7)]]].
  - by left.
  - right. left. by rewrite H3.
  - right. right. left. by rewrite H3.
  - do 3 right. exists pos. constructor; rewrite ?A1, ?A2, ?Hl; try done. by rewrite A5.
Qed.

Section Pair.
Context {L1 A1 : Type} `{!TcpLower L1} `{!TcpApp L1 A1} `{!TcpWires L1} {WL : TcpWireLaws} `{!TcpWriter A1}.
Context {RL : TcpWriterLaws L1 A1}.
Context {L2 A2 : Type} `{!TcpLower L2} `{!TcpApp L2 A2} (R : list Z -> app_phase -> A2 -> Prop).
Context `{!TcpAppLaws L2 A2 R}.
Implicit Types (a : tcp_sys L1 A1) (b : tcp_sys L2 A2).

(** ** The client *)

(** What was sent stays in the log. *)
Lemma log_grows irs sent0 a a' str : flow_inv irs sent0 a -> rtc flow_step a a' ->
  written_by (appl a') = Some str -> slen str < MAXPOS ->
  exists new, wires (low (core a')) = wires (low (core a)) ++ new.
Proof.
  intros Hi Hs Hw Hl. assert (H : flow_inv irs (wires (low (core a))) a).
  { unfold flow_inv in *. destruct (written_by (appl a)) as [st|]; [|done]. intros Hst. destruct (Hi Hst) as [H1 _ H3].
    constructor; [done| |done]. exists []. by rewrite app_nil_r. }
  apply (flow_steps_inv irs (wires (low (core a))) _ _ Hs) in H. unfold flow_inv in H. rewrite Hw in H.
  destruct (to_wires _ _ _ _ (H Hl)) as (new & E & _). by exists new.
Qed.

(** A connection was opened on a new block by an application that had written nothing. *)
Record opened_by (ip : Z) (e : end_point) (t : tcp_lists) a a1 : Prop := {
  ob_unused : unused (pcb_ (core a));
  ob_range : in_port_range (tcp_port t);
  ob_empty : written_by (appl a) = Some [];
  ob_connect : exists e' t' c, tcp_connect ip e t (core a) = ((ERR_OK, e', t'), c) /\ a1 = mkTcp c (appl a)
}.
Lemma opened_flow ip e t a a1 : opened_by ip e t a a1 ->
  flow_inv (next_irs (core a)) (wires (low (core a))) a1.
Proof.
  intros [U P W (e' & t' & c & E & ->)]. pose proof (tcp_connect_spec ip e t (core a) U P) as H.
  unfold wp in H. rewrite E in H. cbn in H. unfold flow_inv. cbn. rewrite W. intros _. apply H.
Qed.


(** ** Both ends *)
Section Run.
Context (irs : Z) (sent0 : list tcp_wire).

(** The client goes on by itself; the server receives what the client sent behind [sent0], or
    its timers run, or its application calls. *)
Inductive pair_step : relation (tcp_sys L1 A1 * tcp_sys L2 A2) :=
| pair_client a a' b : flow_step a a' -> pair_step (a, b) (a', b)
| pair_segment a b w i : w ∈ drop (length sent0) (wires (low (core a))) -> arrives w i ->
    opens i (core b) = false -> pair_step (a, b) (a, (tcp_input i b).2)
| pair_fasttmr a b : pair_step (a, b) (a, (tcp_fasttmr b).2)
| pair_slowtmr a b : pair_step (a, b) (a, (tcp_slowtmr b).2)
| pair_call a b (B : Type) (ab : B -> bool) (m : M (tcp_sys L2 A2) B) :
    keeps_app R (fun r => ab r = true) m -> pair_step (a, b) (a, (m b).2).

(** What happened at each end. *)
Lemma pair_runs x y str : rtc pair_step x y -> flow_inv irs sent0 x.1 ->
  written_by (appl y.1) = Some str -> slen str < MAXPOS ->
  rtc flow_step x.1 y.1 /\ rtc (conn_step R str irs) x.2 y.2.
Proof.
  intros H. revert str. induction H as [x|x x' y Hs Hr IH]; intros str Hi Hw Hl; [done|].
  assert (Hi' : flow_inv irs sent0 x'.1) by (destruct Hs; try done; by eapply flow_step_inv).
  destruct (IH str Hi' Hw Hl) as [F C].
  assert (F0 : rtc flow_step x.1 y.1) by (destruct Hs; try done; by eapply rtc_l).
  split; [done|]. destruct Hs as [a a' b Hs|a b w i Hin Ha Ho|a b|a b|a b B ab m Hk]; cbn in *; try done;
    (eapply rtc_l; [|exact C]); [|by constructor..|by eapply step_call].
  apply step_segment; [|done]. apply (arrives_peer str irs w); [|done].
  destruct (log_grows irs sent0 a y.1 str Hi F Hw Hl) as [new E].
  pose proof (flow_steps_inv irs sent0 _ _ F Hi) as Hy. unfold flow_inv in Hy. rewrite Hw in Hy.
  destruct (to_wires _ _ _ _ (Hy Hl)) as (sent & E2 & Fs). rewrite Forall_forall in Fs. apply Fs.
  assert (Es : sent = drop (length sent0) (wires (low (core y.1)))) by (by rewrite E2, drop_app_length).
  rewrite Es, E. apply list_elem_of_In. apply list_elem_of_In in Hin.
  rewrite drop_app. apply in_or_app. by left.
Qed.
End Run.

End Pair.

(** ** A run

    The client's application writes three bytes when it is connected and notes them. *)
#[local] Abbreviation client := (tcp_sys (list tcp_wire) (option (list Z))).
#[export] Instance noted : TcpWriter (option (list Z)) := id.
Definition note_write (data : list Z) : M client unit :=
  ready <- on_core (gets write_ready) ;;
  r <- on_core (tcp_write 1 data true false) ;;
  modify (fun s => mkTcp (core s)
    (if ready then (if bool_decide (r = Some ERR_OK) then option_map (fun st => st ++ data) (appl s) else appl s)
     else None)).
#[export] Instance client_app : TcpApp (list tcp_wire) (option (list Z)) := {
  cb_recv p := ret ERR_OK;
  cb_sent n := ret ERR_OK;
  cb_connected e := note_write [10; 20; 30] ;;; ret ERR_OK;
  cb_accept b := ret ERR_OK;
  cb_err e := ret tt
}.
Lemma note_write_flows irs sent0 data : slen data <= 65535 -> frames (flows irs sent0) (note_write data).
Proof.
  intros Hd s. unfold note_write. apply wp_bind, wp_on_core, wp_gets. cbn [core appl]. apply wp_bind, wp_on_core, wp_intro.
  intros r c E. apply wp_modify. unfold flows, flow_inv, written_by, noted. cbn [core appl id].
  destruct (write_ready (core s)) eqn:Er; [|done]. destruct (appl s) as [st|]; [|by case_bool_decide].
  intros Hi. assert (Hw : slen st < MAXPOS -> exists e, r = Some e /\ tx_ok (if e =? ERR_OK then st ++ data else st) irs sent0 c).
  { intros Hl. exact (wp_run _ _ _ _ _ (write_ok irs sent0 st 1 data true false (core s) (Hi Hl) Er Hd Hl) E). }
  case_bool_decide as Eb; cbn; intros Hl.
  - destruct Hw as (e & Ee & H); [|rewrite Eb in Ee; by injection Ee as <-].
    rewrite slen_app in Hl. assert (0 <= slen data) by (unfold slen; lia). lia.
  - destruct (Hw Hl) as (e & -> & H). destruct (Z.eqb_spec e ERR_OK) as [->|]; [done|exact H].
Qed.
#[export] Instance client_laws : TcpWriterLaws (list tcp_wire) (option (list Z)).
Proof.
  constructor; intros; cbn; try (intros s; by apply wp_ret). apply frames_bind; [apply _| |intros _ s; by apply wp_ret].
  by apply note_write_flows.
Qed.

Definition delivered (w : tcp_wire) : tcp_inseg :=
  mkIn (w_hdr w) (w_seqno w) (w_ackno w) (w_wnd w) match w_mss w with Some _ => [2; 4; 5; 180] | None => [] end [w_data w].
Lemma deliver_arrives w : slen (w_data w) <= 32767 -> arrives w (delivered w).
Proof. intros H. constructor; try done; cbn; [by rewrite app_nil_r|by apply Forall_singleton]. Qed.

Definition sent_by {A} (s : tcp_sys (list tcp_wire) A) (n : nat) : tcp_inseg :=
  match low (core s) !! n with Some w => delivered w | None => seg_ack end.
Definition client0 : client := mkTcp (fresh_core []) (Some []).
Definition client1 : client :=
  Eval vm_compute in mkTcp (tcp_connect 7 fresh_end tcp_lists_init (core client0)).2 (Some []).
Definition client_syn : tcp_wire := Eval vm_compute in
  match low (core client1) with w :: _ => w | [] => mkWire 0 0 no_flags 0 None [] end.
Definition server1 := Eval vm_compute in (tcp_input (sent_by client1 0) idle_sys).2.
Definition client2 : client := Eval vm_compute in (tcp_input (sent_by server1 0) client1).2.
(** The data arrives before the acknowledgement of the handshake, and twice. *)
Definition server2 := Eval vm_compute in run_segs [sent_by client2 1; sent_by client2 1] server1.
Example pair_run : length (low (core client2)) = 2%nat /\ appl client2 = Some [10; 20; 30] /\
  appl server2 = mkSink [10; 20; 30] Receiving.
Proof. vm_compute. done. Qed.

(** The hypotheses of the theorems hold of this run. *)
Lemma client_opened : opened_by 7 fresh_end tcp_lists_init client0 client1.
Proof.
  constructor; [done|vm_compute; split; discriminate|done|].
  destruct (tcp_connect 7 fresh_end tcp_lists_init (core client0)) as [[[err e] t] c] eqn:E. exists e, t, c.
  vm_compute in E. injection E as <- <- <- <-. done.
Qed.
Lemma client_step : rtc flow_step client1 client2.
Proof. apply rtc_once. replace client2 with (tcp_input (sent_by server1 0) client1).2 by (vm_compute; reflexivity). by apply flow_segment. Qed.

Lemma sim_deliver b b' n w : low (core client2) !! n = Some w -> slen (w_data w) <= 32767 ->
  opens (delivered w) (core b) = false -> (tcp_input (delivered w) b).2 = b' ->
  pair_step sink_holds (wires (low (core client0))) (client2, b) (client2, b').
Proof.
  intros Hn Hl Ho <-. apply (pair_segment _ _ client2 b w); [|by apply deliver_arrives|done].
  by apply list_elem_of_lookup_2 in Hn.
Qed.
Lemma pair_sim_run : rtc (pair_step sink_holds (wires (low (core client0))))
  (client1, (tcp_input (delivered client_syn) idle_sys).2) (client2, server2).
Proof.
  assert ((tcp_input (delivered client_syn) idle_sys).2 = server1) as -> by (vm_compute; reflexivity).
  eapply rtc_l; [apply (pair_client _ _ client1 client2)|].
  { replace client2 with (tcp_input (sent_by server1 0) client1).2 by (vm_compute; reflexivity). by apply flow_segment. }
  eapply rtc_l; [|eapply rtc_l; [|apply rtc_refl]].
  - eapply (sim_deliver _ _ 1); [reflexivity|done|vm_compute; reflexivity|reflexivity].
  - eapply (sim_deliver _ _ 1); [reflexivity|done|vm_compute; reflexivity|vm_compute; reflexivity].
Qed.
