(* ===== verification/TcpTimers.v ===== *)
(** * The timers of TCP over all connections (lwip-2.0.3/src/core/tcp.c)

    [tcp_slowtmr] and [tcp_fasttmr] walk the list of active connections, whose elements are
    blocks in memory, while the application's callbacks may change that list; a change makes
    the walk start again, and [last_timer] marks the blocks it has been at.  What a timer does
    to the sending side of one connection is in TcpIn and an operation here; keep-alive and
    polling are modelled.  [LWIP_TCP_KEEPALIVE] is 0. *)
From stdpp Require Import sets.
From S2P Require Import Prelude Net Tcp TcpIn.

Definition TCP_KEEPINTVL_DEFAULT : Z := 75000.
Definition TCP_KEEPCNT_DEFAULT : Z := 9.
Definition TCP_MAXIDLE : Z := TCP_KEEPCNT_DEFAULT *% TCP_KEEPINTVL_DEFAULT.

(** What the walks read and write of a block. *)
Record node := mkNode {
  next : option Z; n_state : tcp_state; n_rxclosed : bool; n_ack_delay : bool; n_closepend : bool;
  last_timer : Z; n_tmr : Z; n_polltmr : Z; pollinterval : Z;
  so_keepalive : bool; keep_idle : Z; n_keep_cnt : Z
}.
#[export] Instance node_eta : Eta node := fun n =>
  mkNode (next n) (n_state n) (n_rxclosed n) (n_ack_delay n) (n_closepend n) (last_timer n) (n_tmr n) (n_polltmr n) (pollinterval n)
    (so_keepalive n) (keep_idle n) (n_keep_cnt n).

(** The statics of tcp.c, the blocks by their addresses, and everything else. *)
Record tmr_sys (A : Type) := mkTmr {
  tcp_active_pcbs : option Z; tcp_tw_pcbs : option Z; tcp_active_pcbs_changed : bool;
  tcp_timer_ctr : Z; now : Z; node_at : Z -> node; below : A
}.
Arguments mkTmr {A}. Arguments tcp_active_pcbs {A}. Arguments tcp_tw_pcbs {A}. Arguments tcp_active_pcbs_changed {A}.
Arguments tcp_timer_ctr {A}. Arguments now {A}. Arguments node_at {A}. Arguments below {A}.
#[export] Instance tmr_sys_eta A : Eta (tmr_sys A) := fun s =>
  mkTmr (tcp_active_pcbs s) (tcp_tw_pcbs s) (tcp_active_pcbs_changed s) (tcp_timer_ctr s) (now s) (node_at s) (below s).

(** What the walks call.  [sending_timers] is the retransmission and the persist timer; it says
    whether the retries are used up.  [event_err] and [event_poll] are the application's callbacks. *)
Class TmrEnv (A : Type) := {
  sending_timers : Z -> M (tmr_sys A) bool;
  keepalive_probe : Z -> M (tmr_sys A) Z;
  pcb_purge : Z -> M (tmr_sys A) unit;
  pcb_free : Z -> M (tmr_sys A) unit;
  pcb_reset : Z -> M (tmr_sys A) unit;
  pcb_output : Z -> M (tmr_sys A) unit;
  ack_now : Z -> M (tmr_sys A) unit;
  shutdown_fin : Z -> M (tmr_sys A) unit;
  has_refused : Z -> M (tmr_sys A) bool;
  process_refused : Z -> M (tmr_sys A) unit;
  event_err : Z -> M (tmr_sys A) unit;
  event_poll : Z -> M (tmr_sys A) Z
}.

Section Code.
Context {A : Type} `{!TmrEnv A}.
#[local] Abbreviation MT := (M (tmr_sys A)).

Definition block (a : Z) : MT node := gets (fun s => node_at s a).
Definition set_block (a : Z) (f : node -> node) : MT unit :=
  modify (fun s => s <| node_at := fun x => if x =? a then f (node_at s a) else node_at s x |>).

(** Is the connection to be removed, and with a reset? *)
Definition keepalive_check (a : Z) : MT (bool * bool) :=
  n <- block a ;;
  t <- gets now ;;
  if so_keepalive n && (bool_decide (n_state n = ESTABLISHED) || bool_decide (n_state n = CLOSE_WAIT)) then
    if (keep_idle n +% TCP_MAXIDLE) / TCP_SLOW_INTERVAL <? u32 (t - n_tmr n) then ret (true, true)
    else if (keep_idle n +% (n_keep_cnt n *% TCP_KEEPINTVL_DEFAULT)) / TCP_SLOW_INTERVAL <? u32 (t - n_tmr n) then
      err <- keepalive_probe a ;;
      (if err =? ERR_OK then set_block a (fun n => n <| n_keep_cnt := u8 (n_keep_cnt n + 1) |>) else ret tt) ;;;
      ret (false, false)
    else ret (false, false)
  else ret (false, false).
Definition connection_timers (a : Z) : MT (bool * bool) :=
  remove1 <- sending_timers a ;;
  n <- block a ;;
  t <- gets now ;;
  let too_long ms := ms / TCP_SLOW_INTERVAL <? u32 (t - n_tmr n) in
  let remove2 := bool_decide (n_state n = FIN_WAIT_2) && n_rxclosed n && too_long TCP_FIN_WAIT_TIMEOUT in
  k <- keepalive_check a ;;
  let '(remove3, reset) := k in
  let remove4 := bool_decide (n_state n = SYN_RCVD) && too_long TCP_SYN_RCVD_TIMEOUT in
  let remove5 := bool_decide (n_state n = LAST_ACK) && too_long (2 * TCP_MSL) in
  ret (remove1 || remove2 || remove3 || remove4 || remove5, reset).

(** [prev->next = pcb->next], or the head of the list when [prev] is NULL. *)
Definition unlink_active (prev : option Z) (nxt : option Z) : MT unit :=
  match prev with
  | Some p => set_block p (fun n => n <| next := nxt |>)
  | None => modify (fun s => s <| tcp_active_pcbs := nxt |>)
  end.
Definition unlink_tw (prev : option Z) (nxt : option Z) : MT unit :=
  match prev with
  | Some p => set_block p (fun n => n <| next := nxt |>)
  | None => modify (fun s => s <| tcp_tw_pcbs := nxt |>)
  end.
Definition clear_changed : MT unit := modify (fun s => s <| tcp_active_pcbs_changed := false |>).

(** The block is taken off the list and given back; then the application is told. *)
Definition remove_active (a : Z) (prev : option Z) (reset : bool) : MT (option Z) :=
  pcb_purge a ;;;
  n <- block a ;;
  unlink_active prev (next n) ;;;
  (if reset then pcb_reset a else ret tt) ;;;
  n <- block a ;;
  pcb_free a ;;;
  clear_changed ;;;
  event_err a ;;;
  ret (next n).
(** Polling; [None] for [goto tcp_slowtmr_start]. *)
Definition poll_active (a : Z) : MT bool :=
  set_block a (fun n => n <| n_polltmr := u8 (n_polltmr n + 1) |>) ;;;
  n <- block a ;;
  if pollinterval n <=? n_polltmr n then
    set_block a (fun n => n <| n_polltmr := 0 |>) ;;;
    clear_changed ;;;
    err <- event_poll a ;;
    changed <- gets tcp_active_pcbs_changed ;;
    if changed : bool then ret true
    else (if err =? ERR_OK then pcb_output a else ret tt) ;;; ret false
  else ret false.

(** [while (pcb != NULL)]; the result says that the loop has ended. *)
Fixpoint slow_loop (fuel : nat) (prev pcb : option Z) : MT bool :=
  match fuel, pcb with
  | O, _ => ret false
  | _, None => ret true
  | S fuel, Some a =>
      n <- block a ;;
      ctr <- gets tcp_timer_ctr ;;
      if last_timer n =? ctr then slow_loop fuel prev (next n) else
      set_block a (fun n => n <| last_timer := ctr |>) ;;;
      r <- connection_timers a ;;
      let '(remove, reset) := r in
      if remove : bool then
        nxt <- remove_active a prev reset ;;
        changed <- gets tcp_active_pcbs_changed ;;
        if changed : bool then head <- gets tcp_active_pcbs ;; slow_loop fuel None head
        else slow_loop fuel prev nxt
      else
        n <- block a ;;
        again <- poll_active a ;;
        if again : bool then head <- gets tcp_active_pcbs ;; slow_loop fuel None head
        else slow_loop fuel (Some a) (next n)
  end.
Fixpoint tw_loop (fuel : nat) (prev pcb : option Z) : MT bool :=
  match fuel, pcb with
  | O, _ => ret false
  | _, None => ret true
  | S fuel, Some a =>
      n <- block a ;;
      t <- gets now ;;
      if 2 * TCP_MSL / TCP_SLOW_INTERVAL <? u32 (t - n_tmr n) then
        pcb_purge a ;;;
        n <- block a ;;
        unlink_tw prev (next n) ;;;
        n <- block a ;;
        pcb_free a ;;;
        tw_loop fuel prev (next n)
      else tw_loop fuel (Some a) (next n)
  end.
Definition slowtmr_all (fuel : nat) : MT bool :=
  modify (fun s => s <| now := now s +% 1 |> <| tcp_timer_ctr := u8 (tcp_timer_ctr s + 1) |>) ;;;
  head <- gets tcp_active_pcbs ;;
  ended <- slow_loop fuel None head ;;
  if negb ended then ret false else
  head <- gets tcp_tw_pcbs ;; tw_loop fuel None head.

(** ** The fast timer *)
Definition fast_work (a : Z) : MT unit :=
  n <- block a ;;
  (if n_ack_delay n then ack_now a ;;; pcb_output a ;;; set_block a (fun n => n <| n_ack_delay := false |>) else ret tt) ;;;
  n <- block a ;;
  if n_closepend n then set_block a (fun n => n <| n_closepend := false |>) ;;; shutdown_fin a else ret tt.
Fixpoint fast_loop (fuel : nat) (pcb : option Z) : MT bool :=
  match fuel, pcb with
  | O, _ => ret false
  | _, None => ret true
  | S fuel, Some a =>
      n <- block a ;;
      ctr <- gets tcp_timer_ctr ;;
      if last_timer n =? ctr then fast_loop fuel (next n) else
      set_block a (fun n => n <| last_timer := ctr |>) ;;;
      fast_work a ;;;
      n <- block a ;;
      refused <- has_refused a ;;
      if refused : bool then
        clear_changed ;;;
        process_refused a ;;;
        changed <- gets tcp_active_pcbs_changed ;;
        if changed : bool then head <- gets tcp_active_pcbs ;; fast_loop fuel head else fast_loop fuel (next n)
      else fast_loop fuel (next n)
  end.
Definition fasttmr_all (fuel : nat) : MT bool :=
  modify (fun s => s <| tcp_timer_ctr := u8 (tcp_timer_ctr s + 1) |>) ;;;
  head <- gets tcp_active_pcbs ;; fast_loop fuel head.
End Code.

(** ** When a connection has waited too long *)
Lemma too_long_ms x n : (x / TCP_SLOW_INTERVAL <? n) = (x <? TCP_SLOW_INTERVAL * n).
Proof.
  unfold TCP_SLOW_INTERVAL. apply eq_bool_prop_intro. rewrite !Is_true_true, !Z.ltb_lt. pose proof (Z.div_mod x 500 ltac:(lia)).
  pose proof (Z.mod_pos_bound x 500 ltac:(lia)). lia.
Qed.
Section Overdue.
Context {A : Type}.
Implicit Types (s : tmr_sys A).
(** How long the connection has been silent, in milliseconds. *)
Definition silent s (a : Z) : Z := TCP_SLOW_INTERVAL * u32 (now s - n_tmr (node_at s a)).
(** 20 seconds for the FIN of the peer when it can be answered only by us, or for the end of
    the handshake; two minutes for the last acknowledgement; with keep-alive 675 seconds after
    the idle time. *)
Definition overdue s (a : Z) : bool :=
  let n := node_at s a in
  match n_state n with
  | FIN_WAIT_2 => n_rxclosed n && (20000 <? silent s a)
  | SYN_RCVD => 20000 <? silent s a
  | LAST_ACK => 120000 <? silent s a
  | ESTABLISHED | CLOSE_WAIT => so_keepalive n && (keep_idle n +% 675000 <? silent s a)
  | _ => false
  end.
End Overdue.

(** ** Lists of blocks *)
Fixpoint lseg (nx : Z -> option Z) (p : option Z) (l : list Z) : Prop :=
  match l with
  | [] => p = None
  | a :: l => p = Some a /\ lseg nx (nx a) l
  end.
Lemma lseg_ext nx nx' p l : (forall a, a ∈ l -> nx' a = nx a) -> lseg nx p l -> lseg nx' p l.
Proof.
  revert p. induction l as [|a l IH]; intros p H; [done|]. cbn. intros [-> Hl]. split; [done|].
  rewrite H by left. apply IH; [|done]. intros b Hb. apply H. by right.
Qed.
Lemma lseg_head nx p l : lseg nx p l -> p = head l.
Proof. destruct l; [done|]. by intros [-> _]. Qed.
Lemma lseg_tail nx p l1 a l2 : lseg nx p (l1 ++ a :: l2) -> lseg nx (nx a) l2.
Proof. revert p. induction l1 as [|b l1 IH]; intros p; cbn; [by intros [_ H]|]. intros [_ H]. eauto. Qed.
(** [l2] is replaced by [l3] behind [x]. *)
Lemma lseg_relink nx p l1 x l2 l3 q : NoDup (l1 ++ [x]) -> x ∉ l3 -> lseg nx p (l1 ++ x :: l2) -> lseg nx q l3 ->
  lseg (fun a => if a =? x then q else nx a) p (l1 ++ x :: l3).
Proof.
  intros Hn Hx. revert p. induction l1 as [|b l1 IH]; intros p; cbn [app lseg].
  - intros [-> _] H3. split; [done|]. rewrite Z.eqb_refl. eapply lseg_ext; [|exact H3]. intros a Ha. cbn.
    destruct (Z.eqb_spec a x) as [E|]; [|done]. by rewrite E in Ha.
  - cbn [app] in Hn. apply NoDup_cons in Hn as [Hb Hn]. intros [-> H1] H3. split; [done|].
    destruct (Z.eqb_spec b x) as [E|N]; [|by apply IH]. destruct Hb. rewrite E. apply elem_of_app. right. left.
Qed.

Lemma filter_length_le (P Q : Z -> Prop) `{forall a, Decision (P a)} `{forall a, Decision (Q a)} l :
  (forall a, P a -> Q a) -> (length (filter P l) <= length (filter Q l))%nat.
Proof.
  intros HPQ. induction l as [|a l IH]; [done|]. destruct (decide (P a)) as [Hp|Hp].
  - rewrite !filter_cons_True by auto. cbn. lia.
  - rewrite (filter_cons_False P) by done. destruct (decide (Q a)) as [Hq|Hq].
    + rewrite filter_cons_True by done. cbn. lia.
    + by rewrite filter_cons_False.
Qed.
Lemma filter_length_lt (P Q : Z -> Prop) `{forall a, Decision (P a)} `{forall a, Decision (Q a)} a l :
  (forall a, P a -> Q a) -> a ∈ l -> Q a -> ~ P a -> (length (filter P l) < length (filter Q l))%nat.
Proof.
  intros HPQ Ha Hq Hp. apply list_elem_of_split in Ha as (l1 & l2 & ->). rewrite !filter_app, !length_app.
  rewrite (filter_cons_False P), (filter_cons_True Q) by done. cbn [length].
  pose proof (filter_length_le P Q l1 HPQ). pose proof (filter_length_le P Q l2 HPQ). lia.
Qed.

Section Walk.
Context {A : Type} `{!TmrEnv A} (pool : list Z).
(** [opened]: the blocks that callbacks have taken from the pool or put on the active list. *)
Context (opened : A -> list Z).
Implicit Types (s : tmr_sys A) (l t pre rest : list Z).

Definition nexts s (a : Z) : option Z := next (node_at s a).
Definition marked s (a : Z) : Prop := last_timer (node_at s a) = tcp_timer_ctr s.
#[export] Instance marked_dec s a : Decision (marked s a) := decide (_ = _).
(** The active list is [l], the one of TIME_WAIT [t]; no block is in two places. *)
Record lists s l t : Prop := {
  li_active : lseg (nexts s) (tcp_active_pcbs s) l;
  li_tw : lseg (nexts s) (tcp_tw_pcbs s) t;
  li_nodup : NoDup (l ++ t);
  li_pool : l ++ t ⊆ pool
}.
Definition same_conn (n n' : node) : Prop := n_state n' = n_state n /\ n_rxclosed n' = n_rxclosed n /\
  so_keepalive n' = so_keepalive n /\ keep_idle n' = keep_idle n.
#[export] Instance same_conn_preorder : PreOrder same_conn.
Proof. split; [by intros n|]. intros n1 n2 n3 (?&?&?&?) (?&?&?&?). repeat split; congruence. Qed.
(** Lists, marks, times and what decides whether a connection has waited too long are left alone. *)
Record frame s s' : Prop := {
  fr_active : tcp_active_pcbs s' = tcp_active_pcbs s; fr_tw : tcp_tw_pcbs s' = tcp_tw_pcbs s;
  fr_ctr : tcp_timer_ctr s' = tcp_timer_ctr s; fr_now : now s' = now s;
  fr_opened : opened (below s') = opened (below s);
  fr_node a : next (node_at s' a) = next (node_at s a) /\ last_timer (node_at s' a) = last_timer (node_at s a) /\
              n_tmr (node_at s' a) = n_tmr (node_at s a) /\ same_conn (node_at s a) (node_at s' a)
}.
(** Time goes on and marks stay. *)
Record keeps s s' : Prop := {
  ke_ctr : tcp_timer_ctr s' = tcp_timer_ctr s; ke_now : now s' = now s;
  ke_opened : opened (below s) ⊆ opened (below s');
  ke_marked a : marked s a -> marked s' a
}.
(** The application may open and abort connections; the macros that change the active list set
    the flag, and a block from the pool is marked ([tcp_alloc]). *)
Record may_change s s' : Prop := {
  mc_keeps : keeps s s';
  mc_marks a : marked s' a -> marked s a \/ a ∈ opened (below s');
  mc_lists l t : lists s l t -> exists l' t', lists s' l' t' /\ l' ⊆ l ++ opened (below s') /\
    (tcp_active_pcbs_changed s' = false -> l' = l)
}.

#[export] Instance frame_preorder : PreOrder frame.
Proof.
  split; [intros s; by constructor|]. intros s1 s2 s3 [A1 A2 A3 A4 A5 A6] [B1 B2 B3 B4 B5 B6]. constructor; try congruence.
  intros a. destruct (A6 a) as (? & ? & ? & ?), (B6 a) as (? & ? & ? & ?). split_and!; try congruence. by etrans.
Qed.
#[export] Instance keeps_preorder : PreOrder keeps.
Proof.
  split; [intros s; by constructor|]. intros s1 s2 s3 [A1 A2 A3 A4] [B1 B2 B3 B4]. constructor; [congruence|congruence|by etrans|auto].
Qed.
Lemma frame_keeps s s' : frame s s' -> keeps s s'.
Proof. intros [_ _ C N O F]. constructor; [done|done|by rewrite O|]. intros a. unfold marked. rewrite C. by destruct (F a) as (_ & -> & _). Qed.
Lemma frame_marked s s' a : frame s s' -> marked s' a <-> marked s a.
Proof. intros [_ _ C _ _ F]. unfold marked. rewrite C. by destruct (F a) as (_ & -> & _). Qed.
Lemma frame_lists s s' l t : frame s s' -> lists s l t -> lists s' l t.
Proof.
  intros [Fa Ft _ _ _ F] [H1 H2 H3 H4]. constructor; [| |done|done]; rewrite ?Fa, ?Ft;
    (eapply lseg_ext; [|done]); intros a _; unfold nexts; by destruct (F a) as (-> & _).
Qed.
(** New marks only on blocks that callbacks have opened. *)
Definition moves s s' : Prop := keeps s s' /\ forall a, marked s' a -> marked s a \/ a ∈ opened (below s').
#[export] Instance moves_preorder : PreOrder moves.
Proof.
  split; [intros s; split; [done|by left]|]. intros s1 s2 s3 [K1 M1] [K2 M2]. split; [by etrans|]. intros a H.
  destruct (M2 a H) as [H2|]; [|by right]. destruct (M1 a H2) as [|H1]; [by left|]. right. by apply (ke_opened _ _ K2).
Qed.
Lemma frame_moves s s' : frame s s' -> moves s s'.
Proof. intros F. split; [by apply frame_keeps|]. intros a. rewrite (frame_marked _ _ a F). by left. Qed.
Lemma change_moves s s' : may_change s s' -> moves s s'.
Proof. by intros [K M _]. Qed.
(** A change of the other fields of a block. *)
Lemma block_frame a f s : (forall n, next (f n) = next n /\ last_timer (f n) = last_timer n /\ n_tmr (f n) = n_tmr n /\ same_conn n (f n)) ->
  frame s (set_block a f s).2.
Proof. intros H. constructor; try done. intros x. cbn. destruct (Z.eqb_spec x a) as [->|]; [apply H|done]. Qed.

(** ** What is known of the operations

    [seen] and [freed] record for which blocks the timers of a connection were run - and
    whether its retries were used up - and which were given back. *)
Context (seen : A -> list (Z * bool)) (freed : A -> list Z).
Definition still s s' : Prop := frame s s' /\ seen (below s') = seen (below s) /\ freed (below s') = freed (below s).
Definition changes s s' : Prop := may_change s s' /\ seen (below s') = seen (below s).
#[export] Instance still_preorder : PreOrder still.
Proof.
  split; [intros s; split; [reflexivity|done]|]. intros s1 s2 s3 (A1 & A2 & A3) (B1 & B2 & B3).
  split; [by etrans|split; congruence].
Qed.
Class TmrLaws : Prop := {
  law_timers a s : wp (sending_timers a) (fun spent s' => frame s s' /\ seen (below s') = (a, spent) :: seen (below s) /\ freed (below s') = freed (below s)) s;
  law_probe a s : wp (keepalive_probe a) (fun _ s' => still s s') s;
  law_purge a s : wp (pcb_purge a) (fun _ s' => still s s') s;
  law_free a s : wp (pcb_free a) (fun _ s' => frame s s' /\ seen (below s') = seen (below s) /\ freed (below s') = a :: freed (below s)) s;
  law_reset a s : wp (pcb_reset a) (fun _ s' => still s s') s;
  law_output a s : wp (pcb_output a) (fun _ s' => still s s') s;
  law_ack a s : wp (ack_now a) (fun _ s' => still s s') s;
  law_fin a s : wp (shutdown_fin a) (fun _ s' => still s s') s;
  law_refused a s : wp (has_refused a) (fun _ s' => still s s') s;
  law_err a s : tcp_active_pcbs_changed s = false -> wp (event_err a) (fun _ s' => changes s s') s;
  law_poll a s : tcp_active_pcbs_changed s = false -> wp (event_poll a) (fun _ s' => changes s s') s;
  law_process a s : tcp_active_pcbs_changed s = false -> wp (process_refused a) (fun _ s' => changes s s') s
}.
Context {Laws : TmrLaws}.

Lemma block_still a f s : (forall n, next (f n) = next n /\ last_timer (f n) = last_timer n /\ n_tmr (f n) = n_tmr n /\ same_conn n (f n)) ->
  still s (set_block a f s).2.
Proof. intros H. split; [by apply block_frame|done]. Qed.
Lemma wp_set_block a f (Q : unit -> tmr_sys A -> Prop) s : Q tt (set_block a f s).2 -> wp (set_block a f) Q s.
Proof. done. Qed.
Lemma wp_still {B} (m : M (tmr_sys A) B) Q s s0 : still s0 s -> wp m (fun _ s' => still s s') s ->
  (forall r s', still s0 s' -> Q r s') -> wp m Q s.
Proof. intros H Hm HQ. eapply wp_mono; [exact Hm|]. intros r s' H'. apply HQ. by etrans. Qed.

Definition keeps_alive (n : node) : bool :=
  so_keepalive n && (bool_decide (n_state n = ESTABLISHED) || bool_decide (n_state n = CLOSE_WAIT)).
Lemma keepalive_still a s : let n := node_at s a in
  wp (keepalive_check a) (fun x s' => still s s' /\ x.1 = keeps_alive n && (keep_idle n +% 675000 <? silent s a)) s.
Proof.
  cbv zeta. unfold keepalive_check. apply wp_bind, wp_gets, wp_bind, wp_gets. fold (keeps_alive (node_at s a)).
  destruct (keeps_alive _); [|by apply wp_ret]. rewrite too_long_ms. fold (silent s a). change TCP_MAXIDLE with 675000.
  destruct (_ +% 675000 <? _); [by apply wp_ret|]. destruct (_ <? _); [|by apply wp_ret].
  apply wp_bind. eapply wp_mono; [apply law_probe|]. intros err s1 H1. apply wp_bind. destruct (_ =? ERR_OK).
  - apply wp_modify, wp_ret. split; [|done]. etrans; [exact H1|]. by apply (block_still a (fun n => n <| n_keep_cnt := u8 (n_keep_cnt n + 1) |>)).
  - by apply wp_ret, wp_ret.
Qed.
Lemma frame_overdue s s' a : frame s s' -> overdue s' a = overdue s a.
Proof.
  intros [_ _ _ N _ F]. unfold overdue, silent. destruct (F a) as (_ & _ & -> & Es & Er & Ek & Ei). by rewrite N, Es, Er, Ek, Ei.
Qed.
Lemma frame_silent s s' a : frame s s' -> silent s' a = silent s a.
Proof. intros [_ _ _ N _ F]. unfold silent. destruct (F a) as (_ & _ & -> & _). by rewrite N. Qed.

(** The timers of a connection are run: it is to go when its retries are used up or it has
    waited too long. *)
Definition timed (a : Z) (remove : bool) s s' : Prop := frame s s' /\ freed (below s') = freed (below s) /\
  exists spent, seen (below s') = (a, spent) :: seen (below s) /\ remove = spent || overdue s a.
Lemma connection_timers_spec a s : wp (connection_timers a) (fun x s' => timed a x.1 s s') s.
Proof.
  unfold connection_timers. apply wp_bind. eapply wp_mono; [apply law_timers|]. intros spent s1 (F & S1 & S2).
  apply wp_bind, wp_gets, wp_bind, wp_gets, wp_bind. eapply wp_mono; [apply keepalive_still|]. cbv beta zeta.
  intros [r3 rst] s2 ((F2 & T1 & T2) & E3). cbn [fst] in E3. apply wp_ret. split; [by etrans|]. split; [congruence|].
  exists spent. split; [congruence|]. cbn [fst]. rewrite <- (frame_overdue _ _ a F), !too_long_ms, E3.
  fold (silent s1 a). change TCP_FIN_WAIT_TIMEOUT with 20000. change TCP_SYN_RCVD_TIMEOUT with 20000. change (2 * TCP_MSL) with 120000.
  unfold overdue, keeps_alive. generalize (n_rxclosed (node_at s1 a)), (so_keepalive (node_at s1 a)), (20000 <? silent s1 a),
    (120000 <? silent s1 a), (keep_idle (node_at s1 a) +% 675000 <? silent s1 a). intros b1 b2 b3 b4 b5.
  by destruct spent, (n_state (node_at s1 a)), b1, b2, b3, b4, b5.

Qed.

(** ** Taking a block off the list

    [prev] is some block that the walk has been at, or NULL; what lies between it and the block
    is lost, see [slowtmr_loses_connection]. *)
Fixpoint upto (x : Z) l : list Z :=
  match l with
  | [] => []
  | b :: l => if b =? x then [b] else b :: upto x l
  end.
Definition cut (prev : option Z) pre : list Z := match prev with None => [] | Some x => upto x pre end.
Definition prev_ok (prev : option Z) pre : Prop := forall x, prev = Some x -> x ∈ pre.
Lemma upto_split x l : x ∈ l -> exists l1 l2, l = l1 ++ x :: l2 /\ upto x l = l1 ++ [x].
Proof.
  induction l as [|b l IH]; [by intros ?%elem_of_nil|]. cbn [upto]. destruct (Z.eqb_spec b x) as [->|N].
  - intros _. by exists [], l.
  - intros [E|H]%elem_of_cons; [by rewrite E in N|]. destruct (IH H) as (l1 & l2 & E & ->). exists (b :: l1), l2. by rewrite E.
Qed.
Lemma cut_sublist prev pre : prev_ok prev pre -> cut prev pre `sublist_of` pre.
Proof.
  destruct prev as [x|]; cbn; [|intros _; apply sublist_nil_l]. intros H. destruct (upto_split x pre (H x eq_refl)) as (l1 & l2 & -> & ->).
  apply sublist_app; [done|]. apply sublist_skip, sublist_nil_l.
Qed.
Lemma unlink_spec a prev pre rest t s : lists s (pre ++ a :: rest) t -> prev_ok prev pre ->
  wp (unlink_active prev (nexts s a)) (fun _ s' => lists s' (cut prev pre ++ rest) t /\ moves s s' /\ nexts s' a = nexts s a /\
    below s' = below s) s.
Proof.
  intros [H1 H2 H3 H4] Hp. pose proof (cut_sublist prev pre Hp) as Hs.
  assert (Hsub : ((cut prev pre ++ rest) ++ t) `sublist_of` ((pre ++ a :: rest) ++ t))
    by (apply sublist_app; [apply sublist_app; [done|by apply sublist_cons]|done]).
  assert (N : NoDup ((cut prev pre ++ rest) ++ t)) by (eapply sublist_NoDup; eassumption).
  assert (I : (cut prev pre ++ rest) ++ t ⊆ pool) by (intros x Hx; apply H4; eapply sublist_subseteq; eassumption).
  pose proof (lseg_tail _ _ _ _ _ H1) as Hr. destruct prev as [x|]; apply wp_modify; cbn [cut app] in *.
  - destruct (upto_split x pre (Hp x eq_refl)) as (l1 & l2 & E & U). rewrite U in *. rewrite E in H1, H3. rewrite <- !app_assoc in *. cbn [app] in *.
    assert (Nx : NoDup (l1 ++ [x]) /\ (x ∉ rest) /\ (x ∉ t) /\ a <> x).
    { replace (l1 ++ x :: rest ++ t) with ((l1 ++ [x]) ++ rest ++ t) in N by (by rewrite <- app_assoc).
      apply NoDup_app in N as (N1 & N2 & _). specialize (N2 x). rewrite !elem_of_app in N2. split; [done|].
      assert (~ (x ∈ rest \/ x ∈ t)) as N3 by (apply N2; right; left). split; [tauto|]. split; [tauto|]. intros ->.
      replace (l1 ++ x :: l2 ++ x :: rest ++ t) with ((l1 ++ [x]) ++ (l2 ++ [x]) ++ rest ++ t) in H3 by (by rewrite <- !app_assoc).
      apply NoDup_app in H3 as (_ & H3 & _). apply (H3 x); rewrite !elem_of_app; [right; left|left; right; left]. }
    destruct Nx as (Nx & Nr & Nt & Na).
    assert (En : forall b, nexts (s <| node_at := fun y => if y =? x then ((node_at s x) <| next := nexts s a |>) else node_at s y |>) b =
                           if b =? x then nexts s a else nexts s b).
    { intros b. unfold nexts. cbn. by destruct (b =? x). }
    split; [|split; [|split; [|done]]].
    + constructor; [| |by rewrite <- ?app_assoc|by rewrite <- ?app_assoc].
      * eapply lseg_ext; [intros b _; apply En|]. by eapply lseg_relink.
      * eapply lseg_ext; [|exact H2]. intros b Hb. rewrite En. destruct (Z.eqb_spec b x) as [Eb|]; [|done]. by rewrite Eb in Hb.
    + split; [constructor; [done|done|done|]|]; intros b; unfold marked; cbn; destruct (Z.eqb_spec b x) as [->|]; auto.
    + rewrite En. by rewrite (proj2 (Z.eqb_neq a x) Na).
  - split; [by constructor|]. split; [split; [by constructor|by left]|done].
Qed.
Lemma remove_active_spec a prev pre rest t reset s : lists s (pre ++ a :: rest) t -> prev_ok prev pre ->
  wp (remove_active a prev reset) (fun nxt s' => nxt = head rest /\ moves s s' /\ seen (below s') = seen (below s) /\
    exists l' t', lists s' l' t' /\ l' ⊆ (cut prev pre ++ rest) ++ opened (below s') /\
      (tcp_active_pcbs_changed s' = false -> l' = cut prev pre ++ rest)) s.
Proof.
  intros HL Hp. unfold remove_active. apply wp_bind. eapply wp_mono; [apply law_purge|]. intros _ s1 (F1 & S1 & _).
  pose proof (frame_lists _ _ _ _ F1 HL) as L1. apply wp_bind, wp_gets, wp_bind. eapply wp_mono; [by apply (unlink_spec a prev pre rest t)|].
  intros _ s2 (L2 & K2 & E2 & B2). pose proof (lseg_head _ _ _ (lseg_tail _ _ _ _ _ (li_active _ _ _ L1))) as Hd.
  apply wp_bind. eapply (wp_mono _ (fun _ s' => still s2 s')).
  { destruct reset; [apply law_reset|by apply wp_ret]. }
  intros _ s3 (F3 & S3 & _). apply wp_bind, wp_gets, wp_bind. eapply wp_mono; [apply law_free|]. intros _ s4 (F4 & S4 & _).
  apply wp_bind, wp_modify. set (s5 := s4 <| tcp_active_pcbs_changed := false |>).
  assert (F5 : frame s2 s5) by (etrans; [exact F3|]; etrans; [exact F4|by constructor]).
  apply wp_bind. eapply wp_mono; [by apply law_err|]. intros _ s6 (C6 & S6). apply wp_ret.
  split; [|split; [|split; [|by apply (mc_lists _ _ C6 _ _ (frame_lists _ _ _ _ F5 L2))]]].
  - rewrite <- Hd, <- E2. unfold nexts. destruct (fr_node _ _ F3 a) as (E3 & _). by rewrite E3.
  - etrans; [exact (frame_moves _ _ F1)|]. etrans; [exact K2|]. etrans; [exact (frame_moves _ _ F5)|by apply change_moves].
  - rewrite S6. change (below s5) with (below s4). rewrite S4, S3, B2. exact S1.
Qed.
Lemma poll_active_spec a l t s : lists s l t ->
  wp (poll_active a) (fun again s' => moves s s' /\ seen (below s') = seen (below s) /\
    exists l' t', lists s' l' t' /\ l' ⊆ l ++ opened (below s') /\ (again = false -> l' = l)) s.
Proof.
  intros HL. assert (Hl : forall o, l ⊆ l ++ o) by (intros o x Hx; apply elem_of_app; by left).
  unfold poll_active. apply wp_bind, wp_modify. set (s1 := s <| node_at := _ |>).
  assert (F1 : still s s1) by (by apply (block_still a (fun n => n <| n_polltmr := u8 (n_polltmr n + 1) |>))).
  apply wp_bind, wp_gets. destruct (_ <=? _).
  2:{ apply wp_ret. destruct F1 as (F1 & S1 & _). split; [by apply frame_moves|]. split; [done|]. exists l, t. split; [by eapply frame_lists|done]. }
  apply wp_bind, wp_modify. set (s2 := s1 <| node_at := _ |>).
  assert (F2 : still s1 s2) by (by apply (block_still a (fun n => n <| n_polltmr := 0 |>))).
  apply wp_bind, wp_modify. set (s3 := s2 <| tcp_active_pcbs_changed := false |>).
  assert (F3 : still s s3) by (etrans; [exact F1|]; etrans; [exact F2|by split; [constructor|]]).
  apply wp_bind. eapply wp_mono; [by apply law_poll|]. intros err s4 [C4 S4].
  destruct F3 as (F3 & S3 & _). destruct (mc_lists _ _ C4 _ _ (frame_lists _ _ _ _ F3 HL)) as (l' & t' & L4 & I4 & E4).
  assert (K : moves s s4) by (etrans; [exact (frame_moves _ _ F3)|by apply change_moves]).
  assert (S : seen (below s4) = seen (below s)) by congruence.
  apply wp_bind, wp_gets. destruct (tcp_active_pcbs_changed s4) eqn:Ec.
  - apply wp_ret. split; [done|]. split; [done|]. by exists l', t'.
  - apply wp_bind. eapply (wp_mono _ (fun _ s' => still s4 s')).
    { destruct (_ =? _); [apply law_output|by apply wp_ret]. }
    intros _ s5 (F5 & S5 & _). apply wp_ret. split; [etrans; [exact K|by apply frame_moves]|]. split; [congruence|].
    exists l', t'. split; [by eapply frame_lists|]. rewrite (fr_opened _ _ F5). split; [done|]. intros _. by apply E4.
Qed.

(** ** The walk *)

(** The blocks that the walk has still to see: every round with work to do lowers their number,
    so that the restarts end. *)
Definition unmarked s : nat := length (filter (fun a => ~ marked s a) pool).
Definition steps (n : nat) : nat := n * S (length pool).
Lemma unmarked_le s s' : keeps s s' -> (unmarked s' <= unmarked s)%nat.
Proof. intros K. apply filter_length_le. intros a H' H. by apply H', (ke_marked _ _ K). Qed.
Lemma unmarked_lt a s s' : keeps s s' -> a ∈ pool -> ~ marked s a -> marked s' a -> (unmarked s' < unmarked s)%nat.
Proof.
  intros K Ha H H'. apply (filter_length_lt _ _ a); [|done|done|by intros N; apply N].
  intros b Hb' Hb. by apply Hb', (ke_marked _ _ K).
Qed.

(** The block is marked. *)
Lemma mark_spec a s l t : lists s l t -> let s' := (set_block a (fun n => n <| last_timer := tcp_timer_ctr s |>) s).2 in
  lists s' l t /\ keeps s s' /\ marked s' a /\ below s' = below s /\ forall x, marked s' x -> x = a \/ marked s x.
Proof.
  intros [H1 H2 H3 H4]. cbv zeta. unfold set_block, modify. cbn [snd]. set (s' := s <| node_at := _ |>).
  assert (En : forall x, nexts s' x = nexts s x) by (intros x; unfold nexts, s'; cbn; by destruct (Z.eqb_spec x a) as [->|]).
  assert (Em : forall x, marked s' x <-> x = a \/ marked s x).
  { intros x. unfold marked, s'. cbn. destruct (Z.eqb_spec x a) as [->|N]; cbn; [tauto|]. split; [auto|by intros [?|?]]. }
  split; [|split; [|split; [|split; [done|]]]].
  - constructor; [| |done|done]; (eapply lseg_ext; [|done]); intros x _; apply En.
  - constructor; [done|done|done|]. intros x Hx. apply Em. by right.
  - apply Em. by left.
  - intros x. by apply Em.
Qed.

(** What is known of the blocks [l] on the list when the walk began with the marks [stale]: a
    mark comes from this walk, from a callback or from before, and none whose retries were
    used up is on the list, unless a callback has opened it again. *)
Record accounted (stale : Z -> Prop) s l : Prop := {
  ac_once : NoDup (seen (below s)).*1;
  ac_marked : Forall (marked s) (seen (below s)).*1;
  ac_marks a : marked s a -> a ∈ (seen (below s)).*1 \/ a ∈ opened (below s) \/ stale a;
  ac_spent a : a ∈ l -> (a, true) ∈ seen (below s) -> a ∈ opened (below s)
}.
Lemma accounted_moves stale s s' l l' : accounted stale s l -> moves s s' -> seen (below s') = seen (below s) ->
  l' ⊆ l ++ opened (below s') -> accounted stale s' l'.
Proof.
  intros [H1 H2 H3 H4] [K M] S I. constructor; rewrite ?S; try done.
  - eapply Forall_impl; [exact H2|]. apply (ke_marked _ _ K).
  - intros a Ha. destruct (M a Ha) as [Ha'|]; [|tauto]. destruct (H3 a Ha') as [|[Ho|]]; [tauto| |tauto].
    right. left. by apply (ke_opened _ _ K).
  - intros a Ha Hs. specialize (I a Ha). rewrite elem_of_app in I. destruct I as [I|]; [|done].
    by apply (ke_opened _ _ K), H4.
Qed.

(** What holds before each round: the blocks of [pre] have been seen. *)
Record walking (stale : Z -> Prop) s prev pre rest t : Prop := {
  wa_lists : lists s (pre ++ rest) t;
  wa_prev : prev_ok prev pre;
  wa_pre : Forall (marked s) pre;
  wa_seen : accounted stale s (pre ++ rest)
}.
Definition walked stale s0 s : Prop := exists l t, lists s l t /\ Forall (marked s) l /\ accounted stale s l /\
  tcp_timer_ctr s = tcp_timer_ctr s0 /\ now s = now s0.
Lemma keeps_marks s s' l : keeps s s' -> Forall (marked s) l -> Forall (marked s') l.
Proof. intros K H. eapply Forall_impl; [exact H|]. apply (ke_marked _ _ K). Qed.
Lemma list_in_pool s l t : lists s l t -> (length l <= length pool)%nat.
Proof.
  intros [_ _ N I]. apply NoDup_app in N as (N & _). apply submseteq_length, NoDup_submseteq; [done|].
  intros x Hx. apply I, elem_of_app. by left.
Qed.

Lemma tw_in_pool s l t : lists s l t -> (length t <= length pool)%nat.
Proof.
  intros [_ _ N I]. apply NoDup_app in N as (_ & _ & N). apply submseteq_length, NoDup_submseteq; [done|].
  intros x Hx. apply I, elem_of_app. by right.
Qed.
Lemma walked_trans stale s0 s1 s : keeps s0 s1 -> walked stale s1 s -> walked stale s0 s.
Proof. intros [C N _ _] (l & t & L & H1 & H2 & E1 & E2). exists l, t. split_and!; try done; congruence. Qed.

(** The block is marked and its timers are run; if its retries are used up it will go. *)
Lemma accounted_timed stale a remove s s1 s2 l l' : accounted stale s l -> ~ marked s a -> keeps s s1 -> marked s1 a ->
  below s1 = below s -> (forall x, marked s1 x -> x = a \/ marked s x) -> timed a remove s1 s2 ->
  l' ⊆ l -> (remove = true -> a ∉ l') -> accounted stale s2 l'.
Proof.
  intros [H1 H2 H3 H4] Na K1 M1 B1 X1 (F & _ & spent & S & Er) Hl Hr. rewrite B1 in S.
  assert (Hm : forall x, marked s x -> marked s2 x) by (intros x Hx; by apply (frame_marked _ _ x F), (ke_marked _ _ K1)).
  constructor; rewrite ?S; cbn [fmap list_fmap fst].
  - apply NoDup_cons. split; [|done]. intros Hin. rewrite Forall_forall in H2. by apply Na, H2.
  - apply Forall_cons. split; [by apply (frame_marked _ _ a F)|]. eapply Forall_impl; [exact H2|done].
  - intros x Hx. rewrite (frame_marked _ _ x F) in Hx. rewrite (fr_opened _ _ F), B1, elem_of_cons.
    destruct (X1 x Hx) as [->|Hx']; [by left; left|]. destruct (H3 x Hx') as [|[|]]; auto.
  - intros x Hx. rewrite (fr_opened _ _ F), B1. intros [[= -> <-]|Hs]%elem_of_cons; [|by apply H4; [apply Hl|]].
    by destruct (Hr Er).
Qed.

Lemma slow_loop_spec stale fuel s prev pre rest t : walking stale s prev pre rest t ->
  (steps (unmarked s) + length rest < fuel)%nat ->
  wp (slow_loop fuel prev (head rest)) (fun ended s' => ended = true /\ walked stale s s') s.
Proof.
  revert s prev pre rest t. induction fuel as [|fuel IH]; intros s prev pre rest t W Hf; [lia|].
  destruct W as [HL Hp Hm Ha]. destruct rest as [|a rest]; cbn [slow_loop head].
  { apply wp_ret. split; [done|]. exists pre, t. rewrite app_nil_r in HL, Ha. by split_and!. }
  apply wp_bind, wp_gets, wp_bind, wp_gets. pose proof (lseg_head _ _ _ (lseg_tail _ _ _ _ _ (li_active _ _ _ HL))) as Hd.
  cbn [length] in Hf. destruct (Z.eqb_spec (last_timer (node_at s a)) (tcp_timer_ctr s)) as [Em|Nm].
  { change (next (node_at s a)) with (nexts s a). rewrite Hd. apply (IH s prev (pre ++ [a]) rest t); [|lia].
    constructor; [by rewrite <- app_assoc| | |by rewrite <- app_assoc].
    - intros x Hx. apply elem_of_app. left. by apply Hp.
    - apply Forall_app. split; [done|]. by apply Forall_singleton. }
  set (s1 := (set_block a (fun n => n <| last_timer := tcp_timer_ctr s |>) s).2).
  destruct (mark_spec a s _ _ HL) as (L1 & K1 & M1 & B1 & X1). fold s1 in L1, K1, M1, B1, X1.
  apply wp_bind, wp_set_block. fold s1. apply wp_bind. eapply wp_mono; [apply connection_timers_spec|].
  intros [remove reset] s2 T2. cbn [fst] in T2. pose proof T2 as (F2 & _). pose proof (frame_lists _ _ _ _ F2 L1) as L2.
  assert (K2 : keeps s s2) by (etrans; [exact K1|by apply frame_keeps]).
  assert (M2 : marked s2 a) by (by apply (ke_marked _ _ (frame_keeps _ _ F2))).
  assert (U2 : (unmarked s2 < unmarked s)%nat).
  { apply (unmarked_lt a s s2 K2); [|done|done]. apply (li_pool _ _ _ HL). rewrite !elem_of_app. left. right. left. }
  assert (A2 : forall l', l' ⊆ pre ++ a :: rest -> (remove = true -> a ∉ l') -> accounted stale s2 l')
    by (intros l'; by apply (accounted_timed stale a remove s s1 s2 (pre ++ a :: rest))).
  (** What is left to do after a change of the lists, and when they are as they were. *)
  assert (R : forall s3 l3 t3, keeps s2 s3 -> accounted stale s3 l3 -> lists s3 l3 t3 ->
    wp (slow_loop fuel None (tcp_active_pcbs s3)) (fun ended s' => ended = true /\ walked stale s s') s3).
  { intros s3 l3 t3 K3 A3 L3. rewrite (lseg_head _ _ _ (li_active _ _ _ L3)).
    eapply wp_mono; [apply (IH s3 None [] l3 t3)|].
    - by constructor.
    - pose proof (list_in_pool _ _ _ L3). pose proof (unmarked_le _ _ K3).
      assert (steps (unmarked s3) + S (length pool) <= steps (unmarked s))%nat; [|lia]. unfold steps. nia.
    - intros ended s' [-> W]. split; [done|]. by apply (walked_trans _ s s3); [etrans; [exact K2|]|]. }
  assert (C : forall s3 prev' pre' t3, keeps s2 s3 -> accounted stale s3 (pre' ++ rest) -> lists s3 (pre' ++ rest) t3 ->
    prev_ok prev' pre' -> Forall (marked s2) pre' ->
    wp (slow_loop fuel prev' (head rest)) (fun ended s' => ended = true /\ walked stale s s') s3).
  { intros s3 prev' pre' t3 K3 A3 L3 Hp' Hm'. eapply wp_mono; [apply (IH s3 prev' pre' rest t3)|].
    - constructor; [done|done|by eapply keeps_marks|done].
    - pose proof (unmarked_le _ _ K3). assert (steps (unmarked s3) <= steps (unmarked s))%nat; [|lia]. unfold steps. nia.
    - intros ended s' [-> W]. split; [done|]. by apply (walked_trans _ s s3); [etrans; [exact K2|]|]. }
  pose proof (keeps_marks _ _ _ K2 Hm) as Hm2. pose proof (cut_sublist prev pre Hp) as Hcut. destruct remove.
  - assert (A2' : accounted stale s2 (cut prev pre ++ rest)).
    { apply A2.
      - intros x. rewrite !elem_of_app, elem_of_cons. intros [Hx|Hx]; [|tauto]. left. by apply (sublist_subseteq _ _ Hcut).
      - intros _. rewrite elem_of_app. pose proof (li_nodup _ _ _ HL) as (N & _)%NoDup_app. apply NoDup_app in N as (_ & N1 & N2).
        apply NoDup_cons in N2 as [N2 _]. intros [Hx|Hx]; [|done]. apply (sublist_subseteq _ _ Hcut), N1 in Hx. apply Hx. left. }
    apply wp_bind. eapply wp_mono; [by apply (remove_active_spec a prev pre rest t)|].
    intros nxt s3 (-> & K3 & S3 & l3 & t3 & L3 & I3 & E3). pose proof (accounted_moves _ _ _ _ _ A2' K3 S3 I3) as A3.
    destruct K3 as [K3 _]. apply wp_bind, wp_gets. destruct (tcp_active_pcbs_changed s3).
    + apply wp_bind, wp_gets. by eapply R.
    + rewrite E3 in L3, A3 by done. eapply C; [done|exact A3|exact L3| |].
      * intros x ->. cbn [cut]. destruct (upto_split x pre (Hp x eq_refl)) as (l1 & l2 & _ & ->). rewrite elem_of_app. right. left.
      * rewrite Forall_forall in Hm2 |- *. intros x Hx. apply Hm2. by apply (sublist_subseteq _ _ Hcut).
  - apply wp_bind, wp_gets, wp_bind. eapply wp_mono; [by apply (poll_active_spec a (pre ++ a :: rest) t)|].
    intros again s3 (K3 & S3 & l3 & t3 & L3 & I3 & E3).
    pose proof (accounted_moves _ _ _ _ _ (A2 _ ltac:(done) ltac:(done)) K3 S3 I3) as A3. destruct K3 as [K3 _]. destruct again.
    + apply wp_bind, wp_gets. by eapply R.
    + rewrite E3 in L3, A3 by done. change (next (node_at s2 a)) with (nexts s2 a).
      rewrite (lseg_head _ _ _ (lseg_tail _ _ _ _ _ (li_active _ _ _ L2))).
      apply (C s3 (Some a) (pre ++ [a]) t3); [done|by rewrite <- app_assoc|by rewrite <- app_assoc| |].
      * intros x [= <-]. rewrite elem_of_app. right. left.
      * apply Forall_app. split; [done|]. by apply Forall_singleton.
Qed.

(** ** The connections in TIME_WAIT *)
Definition expired s (a : Z) : Prop := 2 * TCP_MSL / TCP_SLOW_INTERVAL < u32 (now s - n_tmr (node_at s a)).
#[export] Instance expired_dec s a : Decision (expired s a) := Z_lt_dec _ _.
Definition same_age s s' : Prop := now s' = now s /\ forall a, n_tmr (node_at s' a) = n_tmr (node_at s a).
Lemma frame_age s s' : frame s s' -> same_age s s'.
Proof. intros [_ _ _ N _ F]. split; [done|]. intros a. by destruct (F a) as (_ & _ & ? & _). Qed.
(** What decides whether a connection has waited too long is the same. *)
Definition even s s' : Prop := same_age s s' /\ tcp_timer_ctr s' = tcp_timer_ctr s /\
  forall a, same_conn (node_at s a) (node_at s' a).
#[export] Instance even_preorder : PreOrder even.
Proof.
  split; [by intros s|]. intros s1 s2 s3 ([A1 A2] & A3 & A4) ([B1 B2] & B3 & B4). split; [split; [congruence|intros a; congruence]|].
  split; [congruence|]. intros a. etrans; [apply A4|apply B4].
Qed.
Lemma even_overdue s s' a : even s s' -> overdue s' a = overdue s a.
Proof.
  intros ([N T] & _ & F). unfold overdue, silent. destruct (F a) as (-> & -> & -> & ->). by rewrite N, T.
Qed.
Lemma frame_even s s' : frame s s' -> even s s'.
Proof. intros F. split; [by apply frame_age|]. split; [apply F|]. intros a. by destruct (fr_node _ _ F a) as (_ & _ & _ & ?). Qed.
Lemma filter_expired s s' l : even s s' -> filter (expired s') l = filter (expired s) l /\
  filter (fun a => ~ expired s' a) l = filter (fun a => ~ expired s a) l.
Proof.
  intros ([N T] & _). assert (E : forall a, expired s' a <-> expired s a) by (intros a; unfold expired; by rewrite N, T).
  split; apply list_filter_iff; intros a; by rewrite E.
Qed.
Lemma unlink_tw_spec a pre rest l s : lists s l (pre ++ a :: rest) ->
  wp (unlink_tw (last pre) (nexts s a)) (fun _ s' => lists s' l (pre ++ rest) /\ keeps s s' /\ even s s' /\
    nexts s' a = nexts s a /\ below s' = below s) s.
Proof.
  intros [H1 H2 H3 H4]. assert (Hsub : (l ++ pre ++ rest) `sublist_of` (l ++ pre ++ a :: rest))
    by (do 2 (apply sublist_app; [done|]); by apply sublist_cons).
  assert (N : NoDup (l ++ pre ++ rest)) by (eapply sublist_NoDup; eassumption).
  assert (I : l ++ pre ++ rest ⊆ pool) by (intros x Hx; apply H4; eapply sublist_subseteq; eassumption).
  pose proof (lseg_tail _ _ _ _ _ H2) as Hr. destruct (last pre) as [x|] eqn:E; apply wp_modify.
  - apply last_Some in E as [l1 ->]. rewrite <- !app_assoc in H2, H3. cbn [app] in H2, H3. pose proof H3 as (_ & Hd & H5)%NoDup_app.
    assert (Nx : NoDup (l1 ++ [x]) /\ (x ∉ rest) /\ (x ∉ l) /\ a <> x).
    { replace (l1 ++ x :: a :: rest) with ((l1 ++ [x]) ++ a :: rest) in H5 by (by rewrite <- app_assoc).
      apply NoDup_app in H5 as (N1 & N2 & _). specialize (N2 x ltac:(apply elem_of_app; right; left)).
      rewrite elem_of_cons in N2. split; [done|]. split; [tauto|]. split; [|intros ->; tauto].
      intros Hx. apply (Hd x Hx). rewrite elem_of_app. right. left. }
    destruct Nx as (Nx & Nr & Nl & Na). set (s' := s <| node_at := _ |>).
    assert (En : forall b, nexts s' b = if b =? x then nexts s a else nexts s b) by (intros b; unfold nexts, s'; cbn; by destruct (b =? x)).
    split; [|split; [|split; [|split; [|done]]]].
    + constructor; [| |done|done].
      * eapply lseg_ext; [|exact H1]. intros b Hb. rewrite En. destruct (Z.eqb_spec b x) as [Eb|]; [|done]. by rewrite Eb in Hb.
      * rewrite <- app_assoc. eapply lseg_ext; [intros b _; apply En|]. by eapply lseg_relink.
    + constructor; [done|done|done|]. intros b. unfold marked, s'. cbn. by destruct (Z.eqb_spec b x) as [->|].
    + split; [split; [done|]|split; [done|]]; intros b; unfold s'; cbn; by destruct (Z.eqb_spec b x) as [->|].
    + rewrite En. by rewrite (proj2 (Z.eqb_neq a x) Na).
  - apply last_None in E as ->. split; [by constructor|]. by split_and!.
Qed.
Lemma tw_loop_spec fuel s pre rest l : lists s l (pre ++ rest) -> (length rest < fuel)%nat ->
  wp (tw_loop fuel (last pre) (head rest)) (fun ended s' => ended = true /\ keeps s s' /\ even s s' /\
    lists s' l (pre ++ filter (fun a => ~ expired s a) rest) /\
    freed (below s') = rev (filter (expired s) rest) ++ freed (below s) /\ seen (below s') = seen (below s)) s.
Proof.
  revert s pre rest. induction fuel as [|fuel IH]; intros s pre rest HL Hf; [lia|]. destruct rest as [|a rest]; cbn [tw_loop head].
  { apply wp_ret. split; [done|]. split; [reflexivity|]. by split_and!. }
  apply wp_bind, wp_gets, wp_bind, wp_gets. cbn [length] in Hf.
  pose proof (lseg_head _ _ _ (lseg_tail _ _ _ _ _ (li_tw _ _ _ HL))) as Hd.
  destruct (Z.ltb_spec (2 * TCP_MSL / TCP_SLOW_INTERVAL) (u32 (now s - n_tmr (node_at s a)))) as [He|He].
  - rewrite filter_cons_False, filter_cons_True by auto. apply wp_bind. eapply wp_mono; [apply law_purge|]. intros _ s1 (F1 & S1 & R1).
    pose proof (frame_lists _ _ _ _ F1 HL) as L1. apply wp_bind, wp_gets, wp_bind. eapply wp_mono; [by apply unlink_tw_spec|].
    intros _ s2 (L2 & K2 & A2 & E2 & B2). apply wp_bind, wp_gets, wp_bind. eapply wp_mono; [apply law_free|]. intros _ s3 (F3 & S3 & R3).
    change (next (node_at s2 a)) with (nexts s2 a). rewrite E2, (lseg_head _ _ _ (lseg_tail _ _ _ _ _ (li_tw _ _ _ L1))).
    pose proof (frame_lists _ _ _ _ F3 L2) as L3. eapply wp_mono; [apply (IH s3 pre rest L3); lia|].
    intros ended s4 (-> & K4 & A4 & L4 & R4 & S4). split; [done|].
    assert (Ag : even s s3) by (etrans; [exact (frame_even _ _ F1)|]; etrans; [exact A2|by apply frame_even]).
    destruct (filter_expired _ _ rest Ag) as [Ef1 Ef2]. rewrite Ef1 in R4. rewrite Ef2 in L4.
    split; [|split; [|split; [exact L4|split; [|congruence]]]].
    + etrans; [exact (frame_keeps _ _ F1)|]. etrans; [exact K2|]. etrans; [exact (frame_keeps _ _ F3)|exact K4].
    + by etrans.
    + rewrite R4, R3, B2, R1. cbn [rev]. by rewrite <- app_assoc.
  - rewrite filter_cons_True, filter_cons_False by (unfold expired; lia). change (next (node_at s a)) with (nexts s a). rewrite Hd.
    replace (Some a) with (last (pre ++ [a])) by apply last_snoc.
    eapply wp_mono; [apply (IH s (pre ++ [a]) rest); [by rewrite <- app_assoc|lia]|].
    intros ended s4 (-> & K4 & A4 & L4 & R4 & S4). rewrite <- app_assoc in L4. by split_and!.
Qed.

(** [a] was on the list before and its timers were run without using up its retries, or a
    callback has opened it, or it had the mark of this round already. *)
Definition looked_at (stale : Z -> Prop) s (a : Z) : Prop :=
  (a, false) ∈ seen (below s) \/ a ∈ opened (below s) \/ stale a.
Lemma accounted_looked_at stale s l : accounted stale s l -> Forall (marked s) l -> Forall (looked_at stale s) l.
Proof.
  intros [_ _ Hm Hs] Hl. rewrite Forall_forall in Hl |- *. intros a Ha. destruct (Hm a (Hl a Ha)) as [H|H]; [|by right].
  apply list_elem_of_fmap in H as ([a' []] & E & H); cbn in E; subst a'; [right; left; by apply Hs|by left].
Qed.
Lemma slowtmr_all_spec fuel s l t : lists s l t -> seen (below s) = [] -> (S (length pool) * S (length pool) <= fuel)%nat ->
  wp (slowtmr_all fuel) (fun ended s' => ended = true /\ now s' = now s +% 1 /\ tcp_timer_ctr s' = u8 (tcp_timer_ctr s + 1) /\
    NoDup (seen (below s')).*1 /\ exists l' t', lists s' l' t' /\
      Forall (looked_at (fun a => last_timer (node_at s a) = u8 (tcp_timer_ctr s + 1)) s') l' /\ Forall (fun a => ~ expired s' a) t') s.
Proof.
  intros HL Hs Hf. unfold slowtmr_all. apply wp_bind, wp_modify. set (s0 := s <| now := _ |> <| tcp_timer_ctr := _ |>).
  set (stale := fun a => last_timer (node_at s a) = _).
  assert (L0 : lists s0 l t) by (destruct HL; by constructor). apply wp_bind, wp_gets, wp_bind.
  rewrite (lseg_head _ _ _ (li_active _ _ _ L0)). eapply wp_mono; [apply (slow_loop_spec stale fuel s0 None [] l t)|].
  - constructor; [done|done|done|]. constructor; change (below s0) with (below s); rewrite ?Hs; [apply NoDup_nil_2|done| |].
    + intros a Ha. right. right. exact Ha.
    + by intros a _ ?%elem_of_nil.
  - pose proof (list_in_pool _ _ _ L0). assert (unmarked s0 <= length pool)%nat by (apply length_filter). unfold steps. nia.
  - intros ended s1 [-> (l1 & t1 & L1 & M1 & A1 & C1 & T1)]. cbn [negb]. apply wp_bind, wp_gets.
    rewrite (lseg_head _ _ _ (li_tw _ _ _ L1)). eapply wp_mono; [apply (tw_loop_spec fuel s1 [] t1 l1 L1)|].
    + pose proof (tw_in_pool _ _ _ L1). lia.
    + intros ended s2 (-> & K2 & E2 & L2 & _ & S2). split; [done|]. split; [rewrite (ke_now _ _ K2); exact T1|].
      split; [rewrite (ke_ctr _ _ K2); exact C1|]. split; [rewrite S2; apply A1|]. eexists _, _. split; [exact L2|]. split.
      * eapply Forall_impl; [exact (accounted_looked_at _ _ _ A1 M1)|]. intros a [H|[H|H]]; [left; by rewrite S2| |by right; right].
        right. left. by apply (ke_opened _ _ K2).
      * cbn [app]. destruct (filter_expired _ _ t1 E2) as [_ <-]. apply Forall_forall. by intros x [H _]%list_elem_of_filter.
Qed.

(** ** When the application leaves the connections alone *)
(** What goes: its retries are used up or it has waited too long. *)
Definition goes s (x : Z * bool) : Prop := x.2 || overdue s x.1 = true.
#[export] Instance goes_dec s x : Decision (goes s x) := decide (_ = true).
Lemma even_goes s s' (log : list (Z * bool)) : even s s' -> filter (goes s') log = filter (goes s) log /\
  filter (fun x => ~ goes s' x) log = filter (fun x => ~ goes s x) log.
Proof.
  intros E. assert (H : forall x, goes s' x <-> goes s x) by (intros x; unfold goes; by rewrite (even_overdue _ _ x.1 E)).
  split; apply list_filter_iff; intros x; by rewrite H.
Qed.

(** Each connection once, in the order of the list; exactly those that are to go are given
    back and off the list. *)
Definition walked_exactly l t s' : Prop :=
  exists log : list (Z * bool), log.*1 = l /\ seen (below s') = rev log /\
    lists s' (filter (fun x => ~ goes s' x) log).*1 (filter (fun a => ~ expired s' a) t) /\
    freed (below s') = rev ((filter (goes s') log).*1 ++ filter (expired s') t).

(** The callbacks have no effect on the lists. *)
Definition unchanging s s' : Prop := still s s' /\ tcp_active_pcbs_changed s' = tcp_active_pcbs_changed s.
Definition quiet : Prop := (forall a s, wp (event_err a) (fun _ s' => unchanging s s') s) /\
  (forall a s, wp (event_poll a) (fun _ s' => unchanging s s') s).
Section Calm.
Context (Quiet : quiet).
Definition calm s s' : Prop := even s s' /\ forall a, last_timer (node_at s' a) = last_timer (node_at s a).
#[local] Instance calm_preorder : PreOrder calm.
Proof. split; [by intros s|]. intros s1 s2 s3 [A1 A2] [B1 B2]. split; [by etrans|intros a; congruence]. Qed.
Lemma frame_calm s s' : frame s s' -> calm s s'.
Proof. intros F. split; [by apply frame_even|]. intros a. by destruct (fr_node _ _ F a) as (_ & ? & _). Qed.
Lemma calm_marked s s' a : calm s s' -> marked s' a <-> marked s a.
Proof. intros ((_ & C & _) & L). unfold marked. by rewrite C, L. Qed.
Lemma unlink_calm prev nxt s : wp (unlink_active prev nxt) (fun _ s' => calm s s') s.
Proof.
  destruct prev as [p|]; apply wp_modify; [|done].
  split; [split; [split; [done|]|split; [done|]]|]; intros b; cbn; by destruct (Z.eqb_spec b p) as [->|].
Qed.

Lemma cut_last pre : NoDup pre -> cut (last pre) pre = pre.
Proof.
  intros N. destruct (last pre) as [x|] eqn:E; [|by apply last_None in E]. apply last_Some in E as [l ->]. cbn [cut].
  apply NoDup_app in N as (_ & N & _). induction l as [|b l IH]; cbn [app upto]; [by rewrite Z.eqb_refl|].
  destruct (Z.eqb_spec b x) as [->|]; [|by rewrite IH by (intros c Hc; apply N; by right)].
  destruct (N x); left.
Qed.
Lemma last_prev_ok pre : prev_ok (last pre) pre.
Proof. intros x E. apply last_Some in E as [l ->]. apply elem_of_app. right. left. Qed.

Lemma remove_calm a pre rest t reset s : lists s (pre ++ a :: rest) t ->
  wp (remove_active a (last pre) reset) (fun nxt s' => nxt = head rest /\ tcp_active_pcbs_changed s' = false /\ calm s s' /\
    seen (below s') = seen (below s) /\ freed (below s') = a :: freed (below s) /\ lists s' (pre ++ rest) t) s.
Proof.
  intros HL. assert (Np : NoDup pre) by (pose proof (li_nodup _ _ _ HL) as (N & _)%NoDup_app; by apply NoDup_app in N as (N & _)).
  unfold remove_active. apply wp_bind. eapply wp_mono; [apply law_purge|]. intros _ s1 (F1 & S1 & R1).
  pose proof (frame_lists _ _ _ _ F1 HL) as L1. apply wp_bind, wp_gets, wp_bind.
  eapply wp_mono; [apply wp_and; [by apply (unlink_spec a (last pre) pre rest t), last_prev_ok|apply unlink_calm]|].
  intros _ s2 ((L2 & _ & E2 & B2) & C2). rewrite cut_last in L2 by done.
  pose proof (lseg_head _ _ _ (lseg_tail _ _ _ _ _ (li_active _ _ _ L1))) as Hd.
  apply wp_bind. eapply (wp_mono _ (fun _ s' => still s2 s')); [destruct reset; [apply law_reset|by apply wp_ret]|].
  intros _ s3 (F3 & S3 & R3). apply wp_bind, wp_gets, wp_bind. eapply wp_mono; [apply law_free|]. intros _ s4 (F4 & S4 & R4).
  apply wp_bind, wp_modify. set (s5 := s4 <| tcp_active_pcbs_changed := false |>). assert (F5 : frame s4 s5) by (by constructor).
  apply wp_bind. eapply wp_mono; [apply (proj1 Quiet)|]. intros _ s6 [(F6 & S6 & R6) C6]. apply wp_ret.
  change (below s5) with (below s4) in S6, R6. assert (F : frame s2 s6) by (do 3 (etrans; [eassumption|]); done).
  split; [|split; [by rewrite C6|split; [|split; [congruence|split; [congruence|by eapply frame_lists]]]]].
  - rewrite <- Hd, <- E2. unfold nexts. destruct (fr_node _ _ F3 a) as (E3 & _). by rewrite E3.
  - etrans; [exact (frame_calm _ _ F1)|]. etrans; [exact C2|by apply frame_calm].
Qed.
Lemma poll_calm a s : wp (poll_active a) (fun again s' => again = false /\ still s s') s.
Proof.
  unfold poll_active. apply wp_bind, wp_set_block. set (s1 := (set_block a _ s).2).
  assert (F1 : still s s1) by (by apply (block_still a (fun n => n <| n_polltmr := u8 (n_polltmr n + 1) |>))).
  apply wp_bind, wp_gets. destruct (_ <=? _); [|by apply wp_ret].
  apply wp_bind, wp_set_block. set (s2 := (set_block a _ s1).2).
  assert (F2 : still s1 s2) by (by apply (block_still a (fun n => n <| n_polltmr := 0 |>))).
  apply wp_bind, wp_modify. set (s3 := s2 <| tcp_active_pcbs_changed := false |>).
  assert (F3 : still s s3) by (etrans; [exact F1|]; etrans; [exact F2|by split; [constructor|]]).
  apply wp_bind. eapply wp_mono; [apply (proj2 Quiet)|]. intros err s4 [S4 C4]. apply wp_bind, wp_gets. rewrite C4. cbn [s3].
  change (tcp_active_pcbs_changed s3) with false. cbv beta iota. apply wp_bind.
  eapply (wp_mono _ (fun _ s' => still s4 s')); [destruct (_ =? _); [apply law_output|by apply wp_ret]|].
  intros _ s5 S5. apply wp_ret. split; [done|]. etrans; [exact F3|]. by etrans.
Qed.

(** One by one, in order: what stays is the list without the blocks given back. *)
Definition passed s s' pre rest t : Prop := even s s' /\
  exists log : list (Z * bool), log.*1 = rest /\ seen (below s') = rev log ++ seen (below s) /\
    freed (below s') = rev (filter (goes s) log).*1 ++ freed (below s) /\
    lists s' (pre ++ (filter (fun x => ~ goes s x) log).*1) t.
Lemma slow_loop_calm fuel s pre rest t : lists s (pre ++ rest) t -> Forall (fun a => ~ marked s a) rest -> (length rest < fuel)%nat ->
  wp (slow_loop fuel (last pre) (head rest)) (fun ended s' => ended = true /\ passed s s' pre rest t) s.
Proof.
  revert s pre rest. induction fuel as [|fuel IH]; intros s pre rest HL Hm Hf; [lia|]. destruct rest as [|a rest]; cbn [slow_loop head].
  { apply wp_ret. split; [done|]. split; [reflexivity|]. by exists []. }
  apply Forall_cons in Hm as [Na Hm]. cbn [length] in Hf. apply wp_bind, wp_gets, wp_bind, wp_gets.
  pose proof (lseg_head _ _ _ (lseg_tail _ _ _ _ _ (li_active _ _ _ HL))) as Hd.
  assert (Nr : a ∉ rest).
  { pose proof (li_nodup _ _ _ HL) as (N & _)%NoDup_app. apply NoDup_app in N as (_ & _ & N). by apply NoDup_cons in N as []. }
  rewrite (proj2 (Z.eqb_neq _ _) Na). apply wp_bind, wp_set_block. set (s1 := (set_block a _ s).2).
  destruct (mark_spec a s _ _ HL) as (L1 & _ & M1 & B1 & X1). fold s1 in L1, M1, B1, X1.
  assert (A1 : even s s1).
  { split; [split; [done|]|split; [done|]]; intros x; unfold s1; cbn; by destruct (Z.eqb_spec x a) as [->|]. }
  apply wp_bind. eapply wp_mono; [apply connection_timers_spec|].
  intros [remove reset] s2 (F2 & R2 & spent & S2 & Er). cbn [fst] in Er. rewrite (even_overdue _ _ a A1) in Er.
  pose proof (frame_lists _ _ _ _ F2 L1) as L2. pose proof (frame_calm _ _ F2) as C2. rewrite B1 in S2, R2.
  assert (Hm2 : forall s3, calm s2 s3 -> Forall (fun a => ~ marked s3 a) rest).
  { intros s3 C3. rewrite Forall_forall in Hm |- *. intros x Hx H. rewrite (calm_marked _ _ x C3), (calm_marked _ _ x C2) in H.
    destruct (X1 x H) as [->|H']; [done|by apply (Hm x)]. }
  assert (Hg : goes s (a, spent) <-> remove = true) by (unfold goes; cbn [fst snd]; by rewrite Er).
  (** The rounds that follow. *)
  assert (K : forall s3, calm s2 s3 -> lists s3 ((if remove then pre else pre ++ [a]) ++ rest) t ->
    seen (below s3) = (a, spent) :: seen (below s) -> freed (below s3) = (if remove then [a] else []) ++ freed (below s) ->
    wp (slow_loop fuel (last (if remove then pre else pre ++ [a])) (head rest)) (fun ended s' => ended = true /\ passed s s' pre (a :: rest) t) s3).
  { intros s3 C3 L3 S3 R3. eapply wp_mono; [apply (IH s3 _ rest L3 (Hm2 s3 C3)); lia|].
    assert (E3 : even s s3) by (etrans; [exact A1|]; etrans; [apply C2|apply C3]).
    intros ended s4 (-> & A4 & log & G4 & S4 & R4 & L4). split; [done|]. destruct (even_goes _ _ log E3) as [Eg1 Eg2].
    rewrite Eg1 in R4. rewrite Eg2 in L4. split; [by etrans|]. exists ((a, spent) :: log). cbn [fmap list_fmap fst rev].
    split; [by rewrite <- G4|]. split; [by rewrite S4, S3, <- app_assoc|]. rewrite R4, R3. destruct remove.
    - rewrite filter_cons_True by tauto. rewrite filter_cons_False by tauto. cbn [fmap list_fmap fst rev]. by rewrite <- app_assoc.
    - rewrite filter_cons_False by (by rewrite Hg). rewrite filter_cons_True by (by rewrite Hg). by rewrite <- app_assoc in L4. }
  destruct remove.
  - apply wp_bind. eapply wp_mono; [by apply (remove_calm a pre rest t)|]. intros nxt s3 (-> & Ec & C3 & S3 & R3 & L3).
    apply wp_bind, wp_gets. rewrite Ec. apply K; [done|done|congruence|]. by rewrite R3, R2.
  - apply wp_bind, wp_gets, wp_bind. eapply wp_mono; [apply poll_calm|]. intros again s3 (-> & F3 & S3 & R3).
    change (next (node_at s2 a)) with (nexts s2 a). rewrite (lseg_head _ _ _ (lseg_tail _ _ _ _ _ (li_active _ _ _ L2))).
    replace (Some a) with (last (pre ++ [a])) by apply last_snoc. apply K.
    + by apply frame_calm.
    + rewrite <- app_assoc. by eapply frame_lists.
    + congruence.
    + by rewrite R3, R2.
Qed.

Lemma slowtmr_calm fuel s l t : lists s l t -> Forall (fun a => last_timer (node_at s a) <> u8 (tcp_timer_ctr s + 1)) l ->
  seen (below s) = [] -> freed (below s) = [] -> (length pool < fuel)%nat ->
  wp (slowtmr_all fuel) (fun ended s' => ended = true /\ walked_exactly l t s') s.
Proof.
  intros HL Hm Hs Hr Hf. unfold slowtmr_all. apply wp_bind, wp_modify. set (s0 := s <| now := _ |> <| tcp_timer_ctr := _ |>).
  assert (L0 : lists s0 ([] ++ l) t) by (destruct HL; by constructor). apply wp_bind, wp_gets, wp_bind.
  rewrite (lseg_head _ _ _ (li_active _ _ _ L0)). pose proof (list_in_pool _ _ _ L0) as Ll.
  eapply wp_mono; [apply (slow_loop_calm fuel s0 [] l t L0); [exact Hm|cbn in Ll; lia]|].
  intros ended s1 (-> & A1 & log & G & S1 & R1 & L1). cbn [negb app] in *. apply wp_bind, wp_gets.
  rewrite (lseg_head _ _ _ (li_tw _ _ _ L1)). eapply wp_mono; [apply (tw_loop_spec fuel s1 [] t _ L1)|].
  { pose proof (tw_in_pool _ _ _ HL). lia. }
  intros ended s2 (-> & K2 & A2 & L2 & R2 & S2). split; [done|]. change (below s0) with (below s) in *.
  exists log. split; [done|]. split; [by rewrite S2, S1, Hs, app_nil_r|]. destruct (filter_expired _ _ t A2) as [E1 E2].
  assert (E : even s0 s2) by (etrans; [exact A1|exact A2]). destruct (even_goes _ _ log E) as [-> ->]. rewrite E1, E2.
  split; [exact L2|]. rewrite R2, R1, Hr, app_nil_r. by rewrite rev_app_distr.
Qed.
End Calm.

(** C21. With all connections on one list and callbacks that abort or open connections
    while tcp_slowtmr walks it, the walk ends, however often a change makes it start
    again. It runs the timers of no connection twice; for every connection on the list
    afterwards they were run and its retries are not used up, unless a callback opened
    it or its mark was stale from 256 calls ago; no block in TIME_WAIT is older than two
    minutes, and the lists are well formed. When the callbacks leave the connections
    alone and no mark is stale, the timers of each connection are run once, in the order
    of the list, and those whose retries are used up or that have waited too long in
    FIN_WAIT_2, SYN_RCVD, LAST_ACK or under keep-alive, exactly, are taken off the list
    and given back, as are the expired blocks in TIME_WAIT; all others stay. (With
    restarts or stale marks connections can be lost, see the findings of
    slowtmr_loses_connection and stale_mark_loses_connection.) *)
Theorem slowtmr_sees_all fuel s l t : lists s l t -> seen (below s) = [] /\ opened (below s) = [] /\ freed (below s) = [] ->
  (S (length pool) * S (length pool) <= fuel)%nat ->
  let stale a := last_timer (node_at s a) = u8 (tcp_timer_ctr s + 1) in
  wp (slowtmr_all fuel) (fun ended s' => ended = true /\ now s' = now s +% 1 /\ tcp_timer_ctr s' = u8 (tcp_timer_ctr s + 1) /\
    NoDup (seen (below s')).*1 /\
    (exists l' t', lists s' l' t' /\ Forall (looked_at stale s') l' /\ Forall (fun a => ~ expired s' a) t') /\
    (quiet -> Forall (fun a => ~ stale a) l -> walked_exactly l t s')) s.
Proof.
  intros HL (Hs & _ & Hr) Hf stale. pose proof (slowtmr_all_spec fuel s l t HL Hs Hf) as G. fold stale in G.
  assert (C : quiet -> Forall (fun a => ~ stale a) l -> wp (slowtmr_all fuel) (fun ended s' => ended = true /\ walked_exactly l t s') s)
    by (intros Q Hn; apply slowtmr_calm; [done..|lia]).
  unfold wp in *. destruct (slowtmr_all fuel s) as [ended s']. destruct G as (E & N & T & D & X). split_and!; try done.
  intros Q Hn. by apply C.
Qed.

(** ** The fast timer *)
Lemma fast_work_still a s : wp (fast_work a) (fun _ s' => still s s') s.
Proof.
  unfold fast_work. apply wp_bind, wp_gets, wp_bind. apply (wp_mono _ (fun _ s' => still s s')).
  { destruct (n_ack_delay _); [|by apply wp_ret]. apply wp_bind. eapply wp_mono; [apply law_ack|]. intros r1 s1 H1.
    apply wp_bind. apply (wp_still _ _ s1 s H1); [apply law_output|]. intros r2 s2 H2. apply wp_set_block. etrans; [exact H2|].
    by apply block_still. }
  intros _ s1 H1. apply wp_bind, wp_gets. destruct (n_closepend _); [|by apply wp_ret]. apply wp_bind, wp_set_block.
  set (s2 := (set_block a _ s1).2). assert (H2 : still s1 s2) by (by apply block_still).
  apply (wp_still _ _ s2 s); [by etrans|apply law_fin|done].
Qed.
Definition fast_walked s0 s : Prop := exists l t, lists s l t /\ Forall (marked s) l /\ tcp_timer_ctr s = tcp_timer_ctr s0 /\ now s = now s0.
Lemma fast_loop_spec fuel s pre rest t : lists s (pre ++ rest) t -> Forall (marked s) pre -> (steps (unmarked s) + length rest < fuel)%nat ->
  wp (fast_loop fuel (head rest)) (fun ended s' => ended = true /\ fast_walked s s') s.
Proof.
  revert s pre rest t. induction fuel as [|fuel IH]; intros s pre rest t HL Hm Hf; [lia|]. destruct rest as [|a rest]; cbn [fast_loop head].
  { apply wp_ret. split; [done|]. exists pre, t. rewrite app_nil_r in HL. by split_and!. }
  apply wp_bind, wp_gets, wp_bind, wp_gets. pose proof (lseg_head _ _ _ (lseg_tail _ _ _ _ _ (li_active _ _ _ HL))) as Hd.
  cbn [length] in Hf. destruct (Z.eqb_spec (last_timer (node_at s a)) (tcp_timer_ctr s)) as [Em|Nm].
  { change (next (node_at s a)) with (nexts s a). rewrite Hd. apply (IH s (pre ++ [a]) rest t); [by rewrite <- app_assoc| |lia].
    apply Forall_app. split; [done|]. by apply Forall_singleton. }
  apply wp_bind, wp_set_block. set (s1 := (set_block a _ s).2). destruct (mark_spec a s _ _ HL) as (L1 & K1 & M1 & _ & _). fold s1 in L1, K1, M1.
  apply wp_bind. eapply wp_mono; [apply fast_work_still|]. intros _ s2 (F2 & _). pose proof (frame_lists _ _ _ _ F2 L1) as L2.
  apply wp_bind, wp_gets, wp_bind. eapply wp_mono; [apply law_refused|]. intros refused s3 (F3 & _).
  pose proof (frame_lists _ _ _ _ F3 L2) as L3.
  assert (K3 : keeps s s3) by (etrans; [exact K1|]; etrans; by apply frame_keeps).
  assert (M3 : marked s3 a) by (apply (ke_marked _ _ (frame_keeps _ _ F3)), (ke_marked _ _ (frame_keeps _ _ F2)), M1).
  assert (U : forall s4, keeps s3 s4 -> (unmarked s4 < unmarked s)%nat).
  { intros s4 K4. pose proof (unmarked_le _ _ K4). enough (unmarked s3 < unmarked s)%nat by lia.
    apply (unmarked_lt a s s3 K3); [|done|done]. apply (li_pool _ _ _ HL). rewrite !elem_of_app. left. right. left. }
  assert (T : forall s4, keeps s3 s4 -> forall ended s', ended = true /\ fast_walked s4 s' -> ended = true /\ fast_walked s s').
  { intros s4 K4 ended s' [-> (l & t' & L & M & E1 & E2)]. split; [done|]. exists l, t'.
    rewrite E1, E2, (ke_ctr _ _ K4), (ke_now _ _ K4), (ke_ctr _ _ K3), (ke_now _ _ K3). by split_and!. }
  change (next (node_at s2 a)) with (nexts s2 a). rewrite (lseg_head _ _ _ (lseg_tail _ _ _ _ _ (li_active _ _ _ L2))).
  assert (C : forall s4 t4, keeps s3 s4 -> lists s4 (pre ++ a :: rest) t4 ->
    wp (fast_loop fuel (head rest)) (fun ended s' => ended = true /\ fast_walked s s') s4).
  { intros s4 t4 K4 L4. eapply wp_mono; [apply (IH s4 (pre ++ [a]) rest t4)|by apply T].
    - by rewrite <- app_assoc.
    - apply Forall_app. split; [do 2 (eapply keeps_marks; [eassumption|]); done|]. by apply Forall_singleton, (ke_marked _ _ K4).
    - pose proof (U s4 K4). assert (steps (unmarked s4) <= steps (unmarked s))%nat; [|lia]. unfold steps. nia. }
  destruct refused; [|by eapply C]. apply wp_bind, wp_modify. set (s4 := s3 <| tcp_active_pcbs_changed := false |>).
  assert (F4 : frame s3 s4) by (by constructor). apply wp_bind. eapply wp_mono; [by apply law_process|].
  intros _ s5 [C5 _]. pose proof (mc_keeps _ _ C5) as K5.
  assert (K : keeps s3 s5) by (etrans; [by apply frame_keeps|exact K5]).
  destruct (mc_lists _ _ C5 _ _ (frame_lists _ _ _ _ F4 L3)) as (l5 & t5 & L5 & _ & E5). apply wp_bind, wp_gets.
  destruct (tcp_active_pcbs_changed s5); [|by rewrite E5 in L5 by done; eapply C].
  apply wp_bind, wp_gets. rewrite (lseg_head _ _ _ (li_active _ _ _ L5)). eapply wp_mono; [apply (IH s5 [] l5 t5)|by apply T].
  - done.
  - done.
  - pose proof (U s5 K). pose proof (list_in_pool _ _ _ L5).
    assert (steps (unmarked s5) + S (length pool) <= steps (unmarked s))%nat; [|lia]. unfold steps. nia.
Qed.

(** tcp_fasttmr ends, however often the application changes the list while it takes
    refused data, and then every connection on the list has been looked at. *)
Theorem fasttmr_sees_all fuel s l t : lists s l t -> (S (length pool) * S (length pool) <= fuel)%nat ->
  wp (fasttmr_all fuel) (fun ended s' => ended = true /\ now s' = now s /\ tcp_timer_ctr s' = u8 (tcp_timer_ctr s + 1) /\
    exists l' t', lists s' l' t' /\ Forall (marked s') l') s.
Proof.
  intros HL Hf. unfold fasttmr_all. apply wp_bind, wp_modify. set (s0 := s <| tcp_timer_ctr := _ |>).
  assert (L0 : lists s0 l t) by (destruct HL; by constructor). apply wp_bind, wp_gets.
  rewrite (lseg_head _ _ _ (li_active _ _ _ L0)). eapply wp_mono; [apply (fast_loop_spec fuel s0 [] l t L0); [done|]|].
  - pose proof (list_in_pool _ _ _ L0). assert (unmarked s0 <= length pool)%nat by (apply length_filter). unfold steps. nia.
  - intros ended s1 [-> (l1 & t1 & L1 & M1 & C1 & T1)]. split; [done|]. split; [done|]. split; [done|]. by exists l1, t1.
Qed.
End Walk.

(** ** A run

    Three connections: the third has used up its retries; where [meddles], the poll callback of
    the second aborts the newest connection, the head of the list. *)
Section Sim.
#[local] Abbreviation SA := (list (Z * bool) * list Z)%type.
#[local] Abbreviation none_opened := (fun _ : SA => []).
Context (meddles : bool).
Definition on_below (f : SA -> SA) : M (tmr_sys SA) unit := modify (fun s => s <| below := f (below s) |>).
Definition abort_newest : M (tmr_sys SA) unit := fun s =>
  match tcp_active_pcbs s with
  | Some a => (tt, s <| tcp_active_pcbs := next (node_at s a) |> <| tcp_active_pcbs_changed := true |>
                     <| below := ((below s).1, a :: (below s).2) |>)
  | None => (tt, s)
  end.
Definition sim_env : TmrEnv SA := {|
  sending_timers a := on_below (fun b => ((a, a =? 30) :: b.1, b.2)) ;;; ret (a =? 30);
  keepalive_probe a := ret ERR_OK;
  pcb_purge a := ret tt; pcb_reset a := ret tt; pcb_output a := ret tt; ack_now a := ret tt; shutdown_fin a := ret tt;
  pcb_free a := on_below (fun b => (b.1, a :: b.2));
  has_refused a := ret false; process_refused a := ret tt; event_err a := ret tt;
  event_poll a := (if meddles && (a =? 20) then abort_newest else ret tt) ;;; ret ERR_OK
|}.
Lemma abort_newest_changes pool s : changes pool none_opened fst s (abort_newest s).2.
Proof.
  unfold abort_newest. destruct (tcp_active_pcbs s) as [a|] eqn:E; cbn [snd].
  2:{ split; [|done]. constructor; [reflexivity|by left|]. intros l t H. exists l, t. by rewrite app_nil_r. }
  split; [|done]. constructor; [by constructor|by left|]. intros l t [H1 H2 H3 H4]. destruct l as [|b l]; cbn in H1; [congruence|].
  destruct H1 as [Eb H1]. assert (b = a) as -> by congruence. exists l, t. cbn [app] in H3, H4. apply NoDup_cons in H3 as [_ H3].
  split; [|split; [|done]].
  - constructor; [exact H1|exact H2|exact H3|]. intros x Hx. apply H4. by right.
  - rewrite app_nil_r. intros x Hx. by right.
Qed.
Lemma sim_laws pool : @TmrLaws SA sim_env pool none_opened fst snd.
Proof.
  assert (R : forall B (b : B) (s : tmr_sys SA), wp (ret b) (fun _ s' => still none_opened fst snd s s') s) by (intros; by apply wp_ret).
  assert (C : forall s : tmr_sys SA, tcp_active_pcbs_changed s = false -> changes pool none_opened fst s s).
  { intros s _. split; [|done]. constructor; [reflexivity|by left|]. intros l t H. exists l, t. by rewrite app_nil_r. }
  constructor; intros a s; try apply R; try (intros H; by apply C).
  - done.
  - by constructor.
  - cbn [event_poll sim_env]. intros H. unfold wp, bind, ret. destruct (_ && _); [|by apply C].
    pose proof (abort_newest_changes pool s) as X. by destruct (abort_newest s) as [[] s'].
Qed.
End Sim.

Definition sim_node (nxt : option Z) (t : Z) : node := mkNode nxt ESTABLISHED false false false 6 t 0 0 false 7200000 0.
Definition three : tmr_sys (list (Z * bool) * list Z) :=
  mkTmr (Some 10) (Some 50) false 6 1000
    (fun a => if a =? 10 then sim_node (Some 20) 990 else if a =? 20 then sim_node (Some 30) 990 else
              if a =? 30 then sim_node None 990 else if a =? 50 then sim_node (Some 60) 900 else sim_node None 100) ([], []).
Lemma three_lists : lists [10; 20; 30; 50; 60] three [10; 20; 30] [50; 60].
Proof. constructor; [by vm_compute|by vm_compute| |done]. apply (bool_decide_eq_true_1 _). vm_compute. reflexivity. Qed.

Lemma wp_result {S B} (m : M S B) Q s : wp m Q s -> Q (m s).1 (m s).2.
Proof. unfold wp. by destruct (m s). Qed.
Definition ran (meddles : bool) := slowtmr_all (TmrEnv0 := sim_env meddles) 36 three.
Lemma ran_meddled : (below (ran true).2).1 = [(30, true); (20, false); (10, false)].
Proof. vm_compute. reflexivity. Qed.
Lemma ran_calm : (below (ran false).2).2 = [60; 30] /\ tcp_active_pcbs (ran false).2 = Some 10 /\
  nexts (ran false).2 10 = Some 20 /\ nexts (ran false).2 20 = None.
Proof. vm_compute. done. Qed.
Lemma sim_quiet : @quiet _ (sim_env false) (fun _ => []) fst snd.
Proof. by split. Qed.
Lemma three_unmarked : Forall (fun a => last_timer (node_at three a) <> u8 (tcp_timer_ctr three + 1)) [10; 20; 30].
Proof. by repeat constructor. Qed.
Lemma slowtmr_sees_all_witness :
  ((ran true).1 = true /\ (below (ran true).2).1 = [(30, true); (20, false); (10, false)] /\
    exists l' t', lists [10; 20; 30; 50; 60] (ran true).2 l' t' /\ Forall (fun a => ~ expired (ran true).2 a) t') /\
  (ran false).1 = true /\ (below (ran false).2).2 = [60; 30] /\ walked_exactly [10; 20; 30; 50; 60] fst snd [10; 20; 30] [50; 60] (ran false).2.
Proof.
  pose proof (fun b => wp_result _ _ _ (@slowtmr_sees_all _ (sim_env b) [10; 20; 30; 50; 60] (fun _ => []) fst snd (sim_laws b _) 36 three _ _
    three_lists (conj eq_refl (conj eq_refl eq_refl)) (Nat.le_refl 36))) as G. split.
  - destruct (G true) as (E & _ & _ & _ & (l' & t' & L & _ & X) & _). split; [exact E|]. split; [exact ran_meddled|].
    exists l', t'. split; [exact L|exact X].
  - destruct (G false) as (E & _ & _ & _ & _ & X). split; [exact E|]. split; [exact (proj1 ran_calm)|].
    exact (X sim_quiet three_unmarked).
Defined.

(** The second connection is lost: after the walk it is neither on a list nor given back, since
    the blocks skipped after a restart do not become [prev]. *)
Lemma slowtmr_loses_connection : let s' := (slowtmr_all (TmrEnv0 := sim_env true) 36 three).2 in
  tcp_active_pcbs s' = None /\ (below s').2 = [60; 30; 10].
Proof. by vm_compute. Qed.
(** A connection whose mark is of 256 timer calls ago - opened with a block that was allocated
    then - is skipped too, and lost when the one behind it is removed in that walk. *)
Lemma stale_mark_loses_connection :
  let s := three <| node_at := fun a => if a =? 10 then (sim_node (Some 30) 990) <| last_timer := 7 |> else node_at three a |> in
  lists [10; 20; 30; 50; 60] s [10; 30] [50; 60] /\
  let s' := (slowtmr_all (TmrEnv0 := sim_env false) 36 s).2 in tcp_active_pcbs s' = None /\ (below s').2 = [60; 30].
Proof.
  intros s. split; [|vm_compute; done]. constructor; [by vm_compute|by vm_compute| |].
  - apply (bool_decide_eq_true_1 _). vm_compute. reflexivity.
  - intros x. cbn [app]. rewrite !elem_of_cons. tauto.
Qed.

(** ** Keep-alive *)
Section Keep.
Context {A : Type} `{!TmrEnv A}.
Implicit Types (s : tmr_sys A).

(** A connection with keep-alive that has been silent for the idle time is probed every
    75 seconds, and reset 675 seconds after the idle time; no more than nine probes go
    unanswered. *)
Theorem keepalive_exact a s : let n := node_at s a in
  so_keepalive n = true -> n_state n = ESTABLISHED \/ n_state n = CLOSE_WAIT ->
  0 <= keep_idle n < 2 ^ 32 - 675000 -> 0 <= n_keep_cnt n <= 9 ->
  let probe := keepalive_probe a s in
  if keep_idle n + 675000 <? silent s a then keepalive_check a s = (true, true, s)
  else if keep_idle n + 75000 * n_keep_cnt n <? silent s a then n_keep_cnt n < 9 /\
    keepalive_check a s = (false, false, if probe.1 =? ERR_OK
                                         then (set_block a (fun n => n <| n_keep_cnt := u8 (n_keep_cnt n + 1) |>) probe.2).2 else probe.2)
  else keepalive_check a s = (false, false, s).
Proof.
  intros n Hk Hst Hi Hc probe.
  assert (E1 : keep_idle n +% TCP_MAXIDLE = keep_idle n + 675000) by (apply u32_small; change TCP_MAXIDLE with 675000; lia).
  assert (E2 : keep_idle n +% (n_keep_cnt n *% TCP_KEEPINTVL_DEFAULT) = keep_idle n + 75000 * n_keep_cnt n).
  { unfold TCP_KEEPINTVL_DEFAULT. rewrite (u32_small (n_keep_cnt n * 75000)) by lia. rewrite u32_small; lia. }
  assert (Er : keepalive_check a s =
    if keep_idle n + 675000 <? silent s a then (true, true, s) else
    if keep_idle n + 75000 * n_keep_cnt n <? silent s a then
      (err <- keepalive_probe a ;;
       (if err =? ERR_OK then set_block a (fun n => n <| n_keep_cnt := u8 (n_keep_cnt n + 1) |>) else ret tt) ;;; ret (false, false)) s
    else (false, false, s)).
  { unfold keepalive_check, bind at 1, block, gets. cbv beta iota. unfold bind at 1. fold n. rewrite Hk.
    replace (bool_decide (n_state n = ESTABLISHED) || bool_decide (n_state n = CLOSE_WAIT)) with true
      by (symmetry; apply orb_true_iff; rewrite !bool_decide_eq_true; tauto). cbn [andb].
    rewrite !too_long_ms, E1, E2. change (TCP_SLOW_INTERVAL * u32 (now s - n_tmr n)) with (silent s a).
    destruct (_ <? _); [done|]. by destruct (_ <? _). }
  rewrite Er. destruct (Z.ltb_spec (keep_idle n + 675000) (silent s a)) as [H|H]; [done|].
  destruct (Z.ltb_spec (keep_idle n + 75000 * n_keep_cnt n) (silent s a)) as [H'|H']; [|done]. split; [lia|].
  unfold bind. fold probe. destruct probe as [err s1]. cbn [fst snd]. by destruct (err =? ERR_OK).
Qed.
End Keep.
Lemma keepalive_exact_witness : let s := three <| node_at := fun _ => sim_node None 0 |> in
  let s := s <| node_at := fun _ => (sim_node None 0) <| so_keepalive := true |> |> <| now := 14401 |> in
  keep_idle (node_at s 1) + 75000 * n_keep_cnt (node_at s 1) < silent s 1 /\
  n_keep_cnt (node_at (keepalive_check (TmrEnv0 := sim_env false) 1 s).2 1) = 1.
Proof.
  intros s s1. split; [by vm_compute|].
  destruct (keepalive_exact (TmrEnv0 := sim_env false) 1 s1 eq_refl (or_introl eq_refl)) as [_ E];
    [cbn; lia|cbn; lia|]. rewrite E. reflexivity.
Defined.
