(* ===== verification/TcpOta.v ===== *)
(** * OTA over TCP: the receiver of ota.c on a connection of the stack

    The operations that ota.c calls on its client connection are those of Tcp.v and
    TcpIn.v; the rest of the raw API (the listening block, UDP) stays a parameter.  The
    callbacks keep the laws of [TcpAppLaws], so that the theorem about connections gives
    the verdict of the receiver from the stream of the peer alone. *)
From stdpp Require Import relations.
From S2P Require Import Prelude Tcp TcpIn TcpRcv TcpStream SimTcp TcpConn Hal SimDevice Net SimNet Ota OtaRecv.

(** The client connection, its error callback, and the rest of the stack. *)
Record link (L N : Type) := mkLink { conn : tcp_core L; errf : option callback; rest : N }.
Arguments mkLink {L N}. Arguments conn {L N}. Arguments errf {L N}. Arguments rest {L N}.

(** The application as the connection sees it. *)
Record ota_app (N W : Type) := mkApp { a_ota : ota_t; a_errf : option callback; a_rest : N; a_hw : W }.
Arguments mkApp {N W}. Arguments a_ota {N W}. Arguments a_errf {N W}. Arguments a_rest {N W}. Arguments a_hw {N W}.

Section Link.
Context {L N : Type} `{!TcpLower L} `{!TcpApi N} (client : pcb).
#[local] Abbreviation ML := (M (link L N)).

Definition on_conn {B} (m : M (tcp_core L) B) : ML B := fun k =>
  let '(b, c) := m (conn k) in (b, mkLink c (errf k) (rest k)).
Definition on_rest {B} (m : M N B) : ML B := fun k =>
  let '(b, n) := m (rest k) in (b, mkLink (conn k) (errf k) n).
Definition set_errf (cb : option callback) : ML unit :=
  modify (fun k => mkLink (conn k) cb (rest k)).

(** [tcp_abort]: the error callback that is due is the client's to run. *)
Definition link_abort : ML (option callback) :=
  due <- on_conn (abandon_pcb true) ;;
  cb <- gets errf ;;
  ret (if due : bool then cb else None).

#[local] Instance link_api : TcpApi (link L N) := {
  tcp_new := on_rest tcp_new;
  tcp_set_reuseaddr p := on_rest (tcp_set_reuseaddr p);
  tcp_bind p port := on_rest (tcp_bind p port);
  tcp_listen p := on_rest (tcp_listen p);
  tcp_accept p cb := on_rest (tcp_accept p cb);
  tcp_recv p cb := if p =? client then ret tt else on_rest (tcp_recv p cb);
  tcp_err p cb := if p =? client then set_errf (Some cb) else on_rest (tcp_err p cb);
  tcp_recved p len := if p =? client then on_conn (Tcp.tcp_recved len) else on_rest (tcp_recved p len);
  tcp_connect p port cb := on_rest (tcp_connect p port cb);
  tcp_write p data := on_rest (tcp_write p data);
  tcp_output p := if p =? client then on_conn Tcp.tcp_output else on_rest (tcp_output p);
  tcp_close p := if p =? client then on_conn Tcp.tcp_close else on_rest (tcp_close p);
  tcp_abort p := if p =? client then link_abort else on_rest (tcp_abort p);
  pbuf_free_chain c := on_conn (on_low (chain_free c));
  pbuf_alloc_ram n := on_rest (pbuf_alloc_ram n);
  pbuf_write b data := on_rest (pbuf_write b data);
  pbuf_free b := on_rest (pbuf_free b);
  udp_new := on_rest udp_new;
  udp_sendto p b ip port := on_rest (udp_sendto p b ip port);
  udp_remove p := on_rest (udp_remove p)
}.

Lemma wp_on_conn {B} (m : M (tcp_core L) B) (Q : B -> link L N -> Prop) k :
  wp m (fun b c => Q b (mkLink c (errf k) (rest k))) (conn k) -> wp (on_conn m) Q k.
Proof. unfold wp, on_conn. by destruct (m (conn k)). Qed.

Lemma wp_on_rest {B} (m : M N B) (Q : B -> link L N -> Prop) k :
  (forall b n, Q b (mkLink (conn k) (errf k) n)) -> wp (on_rest m) Q k.
Proof. intros H. unfold wp, on_rest. by destruct (m (rest k)). Qed.

(** Closing the client connection always reports success. *)
Lemma link_close_ok (k : link L N) : (tcp_close client k).1 = ERR_OK.
Proof.
  cbn [tcp_close link_api]. rewrite Z.eqb_refl. unfold on_conn.
  pose proof (close_ok (conn k)) as H. by destruct (Tcp.tcp_close (conn k)).
Qed.
End Link.

Section Wire.
Context {L N W : Type} `{!TcpLower L} `{!TcpApi N} `{!HalOps W} (client : pcb).
#[local] Existing Instance link_api.
#[local] Abbreviation S := (tcp_sys L (ota_app N W)).
#[local] Instance ota_link_api : TcpApi (link L N) := link_api client.

(** Run a function of ota.c from a callback. *)
Definition run_ota {B} (m : M (ota_sys (link L N) W) B) : M S B := fun s =>
  let a := appl s in
  let '(b, s') := m (mkSys (a_ota a) (mkLink (core s) (a_errf a) (a_rest a)) (a_hw a)) in
  (b, mkTcp (conn (net s')) (mkApp (ota s') (errf (net s')) (rest (net s')) (hw s'))).

(** The callbacks that ota.c registers.  When no block could be allocated [ota_accept_cb]
    gets NULL: without a client it stores NULL again and registers nothing, since
    [tcp_recv] and [tcp_err] ignore a NULL block; with one it would abort the NULL block, but
    then the allocation does not fail ([TcpAlloc.alloc_with_active]: the client is an active
    connection of the priority of the new one, and would itself be given up). *)
#[local] Instance ota_callbacks : TcpApp L (ota_app N W) := {
  cb_recv p := run_ota (ota_recv_cb client p);
  cb_sent n := ret ERR_OK;
  cb_connected e := ret ERR_OK;
  cb_accept ok := if ok : bool then run_ota (ota_accept_cb client) else ret ERR_OK;
  cb_err e := f <- gets (fun s => a_errf (appl s)) ;;
              if bool_decide (f = Some OTA_ERR_CB) then run_ota ota_err_cb else ret tt
}.

(** What the receiver knows of the stream. *)
Definition ota_knows (st : list Z) (ph : app_phase) (a : ota_app N W) : Prop :=
  match ph with
  | Receiving => receiving st (a_ota a)
  | Finished => ota_state (a_ota a) = OTA_STATE_VERIFY \/ ota_state (a_ota a) = OTA_STATE_CONFIRM ->
      acceptable st /\ complete st /\ received_stream st (a_ota a)
  | Failed => ota_state (a_ota a) = OTA_STATE_RECEIVING \/ ota_state (a_ota a) = OTA_STATE_ERROR
  end.

Lemma wp_run_ota {B} (m : M (ota_sys (link L N) W) B) (Q : B -> S -> Prop) s :
  wp m (fun b s' => Q b (mkTcp (conn (net s')) (mkApp (ota s') (errf (net s')) (rest (net s')) (hw s'))))
    (mkSys (a_ota (appl s)) (mkLink (core s) (a_errf (appl s)) (a_rest (appl s))) (a_hw (appl s))) ->
  wp (run_ota m) Q s.
Proof. unfold wp, run_ota. by destruct (m _). Qed.

Lemma wp_on_ota_any {B} (m : M ota_t B) (Q : B -> ota_sys (link L N) W -> Prop) s :
  (forall b o, Q b (mkSys o (net s) (hw s))) -> wp (on_ota m) Q s.
Proof. intros H. apply wp_on_ota. unfold wp. by destruct (m (ota s)). Qed.

Lemma receiving_failed st o : receiving st o -> ota_state o = OTA_STATE_RECEIVING \/ ota_state o = OTA_STATE_ERROR.
Proof. unfold receiving. case_decide; intros [_ E]; auto. Qed.

(** The receive callback uses the connection through [tcp_recved] and [tcp_close] only. *)
Lemma recv_conn p (s : ota_sys (link L N) W) : 0 < tot_len p <= TCP_WND ->
  wp (ota_recv_cb client (Some p)) (fun r s' => r = ERR_OK /\ api (conn (net s)) (conn (net s'))) s.
Proof.
  intros Hp. unfold ota_recv_cb. apply wp_bind, wp_on_ota_any. intros u o.
  apply wp_bind, wp_on_net. cbn [net tcp_recved ota_link_api link_api]. rewrite Z.eqb_refl. apply wp_on_conn.
  eapply wp_mono; [apply api_recved; rewrite u16_small; unfold TCP_WND, TCP_MSS in *; lia|].
  cbv beta. intros _ c1 A1. apply wp_bind, wp_on_net, wp_on_conn. cbn [net conn].
  eapply wp_mono; [apply (quiet_on_low (chain_free p) c1)|]. cbv beta. intros _ c2 Q. apply wp_ret.
  split; [done|]. cbn [conn net]. etrans; [exact A1|by apply quiet_api].
Qed.

Lemma close_conn (s : ota_sys (link L N) W) : wp (ota_recv_cb client None) (fun r s' => r = ERR_OK /\ api (conn (net s)) (conn (net s'))) s.
Proof.
  unfold ota_recv_cb. apply wp_bind, wp_set_, wp_bind, wp_on_net. cbn [net tcp_close ota_link_api link_api].
  rewrite Z.eqb_refl. apply wp_on_conn.
  pose proof (close_ok (conn (net s))) as Hr. pose proof (api_close (conn (net s))) as Ha. unfold wp in *.
  destruct (Tcp.tcp_close (conn (net s))) as [e c1]. cbn [fst] in Hr. subst e.
  change (negb (ERR_OK =? ERR_OK)) with false. cbv iota.
  apply (wp_bind (ret tt)), wp_ret, wp_bind, wp_get_. cbn [ota net hw].
  destruct (bool_decide _); [destruct (negb _ && _)|]; (apply wp_bind; [apply wp_set_ || apply wp_ret]; by apply wp_ret).
Qed.

(** A function that only counts the connection as lost. *)
Definition lost (o o' : ota_t) : Prop :=
  ota_state o' = ota_state o \/ ota_state o = OTA_STATE_RECEIVING /\ ota_state o' = OTA_STATE_ERROR.

Lemma received_same st o o' : same_data o o' -> received_stream st o -> received_stream st o'.
Proof.
  intros (E1 & E2 & E3 & E4 & E5 & E6) [H1 H2]. split; [done|]. rewrite E1, E2, E3, E5, E6. done.
Qed.

Lemma knows_same st ph a a' : same_data (a_ota a) (a_ota a') -> ota_state (a_ota a') = ota_state (a_ota a) ->
  ota_knows st ph a -> ota_knows st ph a'.
Proof.
  intros Hd Es. destruct ph; cbn [ota_knows]; rewrite ?Es; try done.
  - unfold receiving, ota_inv. case_decide; intros [K1 K2]; rewrite Es; (split; [|done]).
    + by eapply received_same.
    + destruct Hd as (E1 & E2 & E3 & _). by rewrite E1, E2, E3.
  - intros K Hs. destruct (K Hs) as (K1 & K2 & K3). split; [done|]. split; [done|]. by eapply received_same.
Qed.

Lemma knows_lost st ph a a' : same_data (a_ota a) (a_ota a') -> lost (a_ota a) (a_ota a') ->
  ota_knows st ph a -> ota_knows st (failed ph) a'.
Proof.
  intros Hd Hl. unfold failed. destruct ph; cbn [bool_decide decide]; intros K.
  - rewrite bool_decide_false by done. apply receiving_failed in K. cbn. destruct Hl as [->|[_ ->]]; auto.
  - rewrite bool_decide_true by done. cbn in *. destruct Hl as [->|[_ ->]]; [|intros [|]; done].
    intros Hs. destruct (K Hs) as (K1 & K2 & K3). split; [done|]. split; [done|]. by eapply received_same.
  - rewrite bool_decide_false by done. cbn in *. destruct Hl as [->|[_ ->]]; auto.
Qed.

Lemma err_spec (s : ota_sys (link L N) W) :
  wp ota_err_cb (fun _ s' => net s' = net s /\ same_data (ota s) (ota s') /\ lost (ota s) (ota s')) s.
Proof.
  unfold ota_err_cb, lost. apply wp_bind, wp_set_, wp_bind, wp_get_. cbn [ota].
  case_bool_decide as E; [apply wp_set_|apply wp_ret]; (split; [done|]; split; [by repeat split|]); [by right|by left].
Qed.

Lemma accept_spec (s : ota_sys (link L N) W) : wp (ota_accept_cb client) (fun r s' =>
  same_data (ota s) (ota s') /\
  (r <> ERR_ABRT -> conn (net s') = conn (net s) /\ ota_state (ota s') = ota_state (ota s)) /\
  (r = ERR_ABRT -> on_list (conn (net s')) <> PCB_ACTIVE /\ lost (ota s) (ota s'))) s.
Proof.
  unfold ota_accept_cb. apply wp_bind, wp_get_. destruct (ota_client_pcb (ota s)).
  - apply wp_bind. apply (wp_mono _ (fun _ s1 => same_data (ota s) (ota s1) /\
      on_list (conn (net s1)) <> PCB_ACTIVE /\ lost (ota s) (ota s1))).
    2: { cbv beta. intros _ s1 (K1 & K2 & K3). apply wp_ret. by split. }
    unfold ota_tcp_abort. apply wp_bind, wp_on_net. cbn [tcp_abort ota_link_api link_api]. rewrite Z.eqb_refl.
    unfold link_abort. apply wp_bind, wp_on_conn. eapply wp_mono; [apply abandon_off|]. cbv beta. intros due c1 Hl.
    apply wp_bind, wp_gets, wp_ret. case_bool_decide.
    + eapply wp_mono; [apply err_spec|]. cbv beta. intros _ s1 (K1 & K2 & K3). cbn [ota net] in *. by rewrite K1.
    + apply wp_ret. cbn [ota net conn]. split; [by repeat split|]. split; [done|by left].
  - apply wp_bind, wp_set_, wp_bind, wp_on_net. cbn [tcp_recv ota_link_api link_api net]. rewrite Z.eqb_refl.
    apply wp_ret, wp_bind, wp_on_net. cbn [tcp_err ota_link_api link_api net]. rewrite Z.eqb_refl.
    apply wp_modify, wp_ret. cbn [ota net conn]. split; [by repeat split|]. by split.
Qed.

#[export] Instance ota_laws : TcpAppLaws L (ota_app N W) ota_knows.
Proof.
  assert (Hret : keeps_app ota_knows (fun r => r = ERR_ABRT) (ret ERR_OK : M S Z)).
  { intros st ph s K. apply wp_ret. split; [by intros _|done]. }
  constructor.
  - intros st p s K Hp. unfold cb_recv, ota_callbacks. apply wp_run_ota.
    assert (Hc : chain_ok p).
    { apply Forall_forall. intros q Hq. apply list_elem_of_split in Hq as (l1 & l2 & ->).
      unfold tot_len, TCP_WND, TCP_MSS in Hp. rewrite concat_app in Hp. cbn in Hp. rewrite !length_app in Hp. lia. }
    eapply wp_mono; [apply wp_and; [by apply (recv_data_spec client st p)|by apply recv_conn]|].
    cbv beta. intros r s' [K1 [-> K2]]. cbn [core appl]. split; [done|]. by split.
  - intros st s K. unfold cb_recv, ota_callbacks. apply wp_run_ota.
    eapply wp_mono; [apply wp_and; [apply (recv_close_spec client st)|by apply close_conn]|].
    { done. } { intros k. apply link_close_ok. }
    cbv beta. intros r s' [(_ & _ & K1 & K2) [-> K3]]. cbn [core appl a_ota]. split; [done|]. split; [|done].
    cbn [ota_knows a_ota]. destruct (decide (acceptable st /\ complete st)) as [E|E]; [|by rewrite (K2 E); intros [|]].
    intros _. destruct (K1 E). by split; [apply E|split; [apply E|]].
  - done.
  - done.
  - intros ok st ph s K. unfold cb_accept, ota_callbacks. destruct ok; [|by apply Hret].
    apply wp_run_ota. eapply wp_mono; [apply accept_spec|]. cbv beta. intros r s' (K1 & K2 & K3). cbn [core appl ota net] in *.
    split; intros Hr.
    + destruct (K2 Hr) as [-> E]. split; [done|]. by eapply knows_same; [| |exact K].
    + destruct (K3 Hr) as [E1 E2]. split; [done|]. by eapply knows_lost; [| |exact K].
  - intros e st ph s K. unfold cb_err, ota_callbacks. apply wp_bind, wp_gets. case_bool_decide.
    + apply wp_run_ota. eapply wp_mono; [apply err_spec|]. cbv beta. intros _ s' (K1 & K2 & K3). cbn [core appl ota net] in *.
      rewrite K1. split; [done|]. by eapply knows_lost; [| |exact K].
    + apply wp_ret. split; [done|]. eapply knows_lost; [| |exact K]; [by repeat split|by left].
Qed.

(** The main loop may poll the receiver between two events. *)
Lemma poll_keeps : keeps_app ota_knows (fun _ : unit => False) (run_ota OTA_Poll : M S unit).
Proof.
  intros st ph s K. apply wp_run_ota. unfold OTA_Poll. apply wp_bind, wp_get_. cbn [id ota].
  case_bool_decide as Ev; cbn [negb].
  2: { apply wp_ret. split; [|done]. intros _. split; [done|]. by destruct s as [c []]. }
  assert (Hk : forall st', st' = OTA_STATE_CONFIRM \/ st' = OTA_STATE_ERROR -> forall n w,
    ota_knows st ph (mkApp (set_ota_state st' (a_ota (appl s))) (a_errf (appl s)) n w)).
  { intros st' Hst n w. destruct ph; cbn [ota_knows a_ota] in *.
    - apply receiving_failed in K as [K|K]; congruence.
    - intros _. destruct (K (or_introl Ev)) as (K1 & K2 & K3). split; [done|]. by split.
    - destruct K; congruence. }
  destruct (negb _).
  - apply wp_set_. split; [|done]. intros _. split; [done|]. apply Hk. by right.
  - apply wp_bind, wp_on_hw. unfold wp at 1. destruct (stage_image _ _ _ _) as [ok w]. apply wp_set_.
    split; [|done]. intros _. split; [done|]. apply Hk. destruct ok; auto.
Qed.

Lemma fresh_knows a : OtaRecv.fresh (a_ota a) -> ota_knows [] Receiving a.
Proof.
  intros Hf. cbn. unfold receiving. rewrite decide_True by (split; cbn; unfold OTA_BUF_SIZE; lia).
  split; [by apply fresh_stream|apply Hf].
Qed.

(** A run of the receiver: a connection is opened by [syn], then segments, timers and polls. *)
Definition ota_run (str : list Z) (syn : tcp_inseg) : relation S :=
  fun s s' => opens syn (core s) = true /\ OtaRecv.fresh (a_ota (appl s)) /\
    rtc (conn_step ota_knows str (i_seqno syn)) (tcp_input syn s).2 s'.

Lemma ota_poll_step str irs s : conn_step ota_knows str irs s (run_ota OTA_Poll s).2.
Proof.
  apply (step_call _ _ _ unit (fun _ => false)). intros st ph s' K. eapply wp_mono; [by apply poll_keeps|].
  cbv beta. intros _ s2 [K1 _]. split; [intros _; apply K1; by intros []|done].
Qed.
End Wire.

(** C3. Over every sequence of segments with which the peer sends its stream -
    reordered, duplicated, cut and overlapping, between timer ticks, timeouts and polls
    of the main loop - the OTA server on the real TCP input code waits for verification
    or confirmation only when the stream has the OTA magic, announces a non-zero length,
    carries at least that many bytes and fits the 512 KB buffer; all of it has been
    received then, and the buffer holds exactly its payload. *)
Theorem ota_over_tcp {L N W} `{!TcpLower L} `{!TcpApi N} `{!HalOps W} (client : pcb) str syn
    (s s' : tcp_sys L (ota_app N W)) :
  slen str < MAXPOS -> ota_run client str syn s s' ->
  ota_state (a_ota (appl s')) = OTA_STATE_VERIFY \/ ota_state (a_ota (appl s')) = OTA_STATE_CONFIRM ->
  (8 <= length str)%nat /\ stream_magic str /\ Z.of_nat (length str) <= 8 + OTA_BUF_SIZE /\
  stream_word str 4 <> 0 /\ stream_word str 4 <= Z.of_nat (length str) - 8 /\
  ota_received (a_ota (appl s')) = Z.of_nat (length str) - 8 /\
  mem_read (ota_buf (a_ota (appl s'))) 0 (length str - 8) = drop 8 str.
Proof.
  intros Hstr (Ho & Hf & Hs) Hv.
  destruct (conn_safe ota_knows str (i_seqno syn) s') as (m & ph & H1 & H2 & H3).
  { apply (steps_inv (TcpApp0:=ota_callbacks client) ota_knows str (i_seqno syn) Hstr _ _ Hs).
    apply (opened_inv (TcpApp0:=ota_callbacks client)); [apply _|exact Ho|by apply fresh_knows|reflexivity]. }
  rewrite sub_0 in H3.
  destruct ph; cbn [ota_knows] in H3.
  - apply receiving_failed in H3 as [E|E]; rewrite E in Hv; by destruct Hv.
  - specialize (H2 eq_refl). destruct (H3 Hv) as ([A1 A2] & (C1 & C2 & C3) & _ & Hd).
    subst m. unfold slen in *. rewrite Nat2Z.id, take_ge in * by lia. rewrite decide_False in Hd by lia.
    destruct Hd as (_ & _ & D1 & D2). repeat (split; [by auto|]). done.
  - destruct H3 as [E|E]; rewrite E in Hv; by destruct Hv.
Qed.

(** A board that waits for an update, and the segments of one that arrive in disorder. *)
Definition waiting : tcp_sys (list tcp_wire) (ota_app snet dev) :=
  mkTcp (core idle_sys)
    (mkApp (mkOta (Some 1) None OTA_STATE_RECEIVING false 0 0 0 (fun _ => 0) (fun _ => 0)) None net0
       (mkDev (fun _ => 255) (fun _ => 255) false None [])).
Definition update : list Z := [79; 84; 65; 0; 3; 0; 0; 0; 1; 2; 3].
Definition update_seg (fin : bool) (pos : Z) (p : list (list Z)) : tcp_inseg :=
  mkIn (mkHdr fin false false false true) pos 6511 2920 [] p.
Definition update_head : tcp_inseg := update_seg false 0 [[79; 84]; [65; 0; 3; 0]].
Definition update_mid : tcp_inseg := update_seg false 6 [[0]; [0; 1]].
Definition update_tail : tcp_inseg := update_seg true 7 [[0; 1]; [2; 3]].

Lemma update_segments : seg_of update 4294967295 seg_ack 0 /\ seg_of update 4294967295 update_head 0 /\
  seg_of update 4294967295 update_mid 6 /\ seg_of update 4294967295 update_tail 7.
Proof.
  repeat split; try reflexivity; try (by repeat (apply Forall_cons_2; [cbn; lia|]); apply Forall_nil_2); done.
Qed.

Definition waiting_run : tcp_sys (list tcp_wire) (ota_app snet dev) :=
  fold_left (fun s i => (tcp_input (TcpApp0 := ota_callbacks 2) i s).2)
    [seg_syn; seg_ack; update_mid; update_head; update_head; update_mid; update_tail] waiting.
Example waiting_verdict : ota_state (a_ota (appl waiting_run)) = OTA_STATE_VERIFY.
Proof. vm_compute. reflexivity. Qed.

Lemma ota_over_tcp_witness :
  mem_read (ota_buf (a_ota (appl waiting_run))) 0 3 = [1; 2; 3].
Proof.
  destruct update_segments as (S1 & S2 & S3 & S4).
  apply (ota_over_tcp 2 update seg_syn waiting waiting_run).
  - reflexivity.
  - split; [reflexivity|]. split; [repeat split|]. unfold waiting_run. cbn [fold_left].
    set (A := ota_callbacks (L:=list tcp_wire) (N:=snet) (W:=dev) 2).
    assert (Hs : forall i pos (s1 s2 : tcp_sys (list tcp_wire) (ota_app snet dev)),
      seg_of update 4294967295 i pos -> opens i (core s1) = false ->
      rtc (conn_step (TcpApp0 := A) ota_knows update 4294967295) (tcp_input (TcpApp0 := A) i s1).2 s2 ->
      rtc (conn_step (TcpApp0 := A) ota_knows update 4294967295) s1 s2).
    { intros i pos s1 s2 H1 H2 H3. eapply rtc_l; [|exact H3]. apply step_segment; [|done]. do 3 right. by exists pos. }
    apply (Hs _ _ _ _ S1); [vm_compute; reflexivity|]. apply (Hs _ _ _ _ S3); [vm_compute; reflexivity|].
    apply (Hs _ _ _ _ S2); [vm_compute; reflexivity|]. apply (Hs _ _ _ _ S2); [vm_compute; reflexivity|].
    apply (Hs _ _ _ _ S3); [vm_compute; reflexivity|]. apply (Hs _ _ _ _ S4); [vm_compute; reflexivity|].
    apply rtc_refl.
  - left. vm_compute. reflexivity.
Defined.
